(* ===== verification/_CoqProject ===== *)
-Q . S2P
Prelude.v
Vec.v
PQueue.v
Containers.v
SList.v
Interval.v
Hash.v
KeyedStore.v
Lru.v
Tables.v
Time.v
Files.v
Kernel.v
Lifecycle.v
Sched.v
Tasks.v
Invariant.v
System.v
Synch.v
ProcessThms.v
Pipe.v
Phys.v
Virt.v
MemMgr.v
Syscalls.v
Volume.v
Timer.v
Keyboard.v
Screen.v
Terminal.v
LibraryThms.v
MemoryThms.v
SyscallThms.v
TerminalThms.v
Cpu.v
Space.v
RamFs.v
Loader.v
DeviceThms.v
LoaderThms.v
SpaceThms.v
RamFsThms.v
SynchFs.v
Machine.v
Shell.v
ShellRun.v
Libc.v
MachineThms.v
ShellThms.v
LibcThms.v
Init.v
Ide.v
IdeThms.v
Dlfcn.v
DlfcnThms.v
Boot.v
BootThms.v
VirtThms.v
MsgFs.v
CallTable.v
Mounts.v
FatFs.v
TaskCalls.v
Malloc.v
