(* ===== verification/Prelude.v ===== *)
(** * A verification of the Puppy operating system

    Puppy is a small operating system for i386: a kernel in C++ (src/kernel), a
    ported C library (src/newlib) and user programs (src/apps).  This library
    models the kernel's own logic (containers, processes and their
    synchronisation, memory, program loading, files, volumes, interrupts and the
    chips behind them, keyboard, screen and terminal), the system's part of the C
    library, the shell and init as executable definitions and proves what makes them
    correct.  File names below are relative to src/kernel unless they start with
    src/ followed by apps, slibs, newlib or initrd.

    ** How the program is put together

    Interrupts and system calls enter the kernel on the stack of the running
    process.  The process manager (src/process) owns the processes: a ready queue,
    a sleep queue, a queue of exited processes and the tables from ids to
    processes.  Whoever must wait puts the process into a wait queue
    (src/synch/waitqueue.cpp) and yields; a small set of kernel tasks (src/tasks)
    picks the next process, wakes sleepers, collects orphans and frees the dead.
    The memory side has three layers: physical pages with reference counts
    (src/mm/phys.cpp), page tables (src/mm/virt.cpp), and the list of regions of an
    address space (src/mm/memmgr.cpp) which the page-fault handler
    (src/mm/pagefault.cpp) consults.  The loaders (src/process/loadelf.cpp,
    shebang.cpp, fileloader.cpp) run in the new process: they map pages, copy the
    file into them and take the faults that costs.  Files are objects with
    reference counts (src/fs/filesystem.cpp) found through a mount table
    (src/fs/vfs.cpp); disks are volumes with a sector cache (src/fs/vol).  Keys go
    from the interrupt handler (src/drivers/ps2) through a task to the terminal
    (src/tty), which draws on the framebuffer (src/drivers/framebuffer).  An
    interrupt goes through the controllers (src/drivers/pic) and the descriptor table
    (src/i386/idt.cpp) to its handler, which may wake a queue or ask for a yield.

    In user space init (src/apps/init) starts the services and starts them again when
    they end, and the shell (src/apps/shell) scans and parses a line, opens the files
    of its redirections, spawns the program, waits for it and decides on its exit
    status whether to go on.  Both reach the kernel through src/newlib/syscalls,
    which makes paths absolute, translates flags and exit statuses and keeps the heap.

    ** How it is modelled

    Integers are [Z] and are wrapped ([u8] ... [u64] below) where the code computes
    at machine width.  A pointer is an address into an explicit store where sharing
    matters (processes, list nodes, file objects, physical frames); a container
    whose nodes are not shared is its sequence.  Code that can fail returns an
    option or a sum; [None] is a panic, an access out of bounds or a null pointer.
    A function that gives up the CPU in the middle is cut there into the part
    before and the part after.  Loops that do not follow a structure take fuel, and
    the theorems say that the fuel they are given suffices.

    - this file: machine integers, tactics, the hint database [puppy], lemmas on
      lists, counting and monotone search that the components share;
    - [Vec], [PQueue] ([PQueue], [DynQueue]), [Containers] ([RingBuffer], [Queue],
      [FixStack]), [SList], [Interval] ([Interval], [IntervalList]), [Hash],
      [KeyedStore] ([KStr], [KeyedStore]), [Lru]: include/libc/*.h and
      include/fs/vol/lru.h.  [PQueue] and [DynQueue] are written against a class of
      vectors which [Vec] implements;
    - [Tables] ([BitArray], [PidBitmap], [ProcessTable], [Handletable]):
      include/process/bitmap.h, include/process/table.h, include/fs/handletable.h;
    - [Time] ([Calendar], [Rng]): src/libc/time.cpp, src/libc/rand.cpp;
    - [Files] ([FsObject], [VFS]): src/fs/filesystem.cpp, src/fs/vfs.cpp; [Mounts] ([Fat],
      [Mounting], [MountCalls]): volumes and mounts, src/fs/fatfs/trymount.cpp,
      src/fs/bootmount.cpp and the system calls on them; [FatFs]: the wrapper of
      src/fs/fatfs around the FatFs library, which is a class; [RamFs]
      ([MemFS], [SimpleFiles], [DevFS], [RamVolume], [InitRd]): src/fs/memfs,
      src/fs/devfs, src/drivers/ramdisk/devicefile.cpp, src/fs/initrd with the
      packer src/initrd/gen.py;
    - [Kernel] ([Proc], [Kernel], [PM]): the state of the process system and the
      scheduling half of src/process/manager.cpp and src/synch/waitqueue.cpp;
      [Lifecycle] the other half with src/process/process.cpp; [Tasks] one round of
      each task of src/tasks; [Sched] the scheduling invariant, [Invariant] that
      every operation keeps it, [System] the step relation of the whole process
      system with its reachable states;
    - [Synch] ([Semaphore], [Mutex], [Event]), [Pipe] ([Ring], [Pipe], [MsgQueue]),
      [MsgFs]: src/synch;
    - [Phys] ([Phys], [Heap]), [Virt] ([Entry], [Indices], [Virt]), [MemMgr]
      ([MemMgr], [Fault]), [Space]: src/mm; [Cpu]: a load or store of the kernel
      through the page tables, with the faults it takes; [Malloc] ([Malloc], [FreeList],
      [HeapRuns]): src/libc/malloc.cpp over an interface of [ksbrk], which [Virt] implements;
    - [Loader] ([Elf], [Shebang], [FileLoader]): src/process/loadelf.cpp,
      src/process/shebang.cpp, src/process/fileloader.cpp;
    - [Syscalls] ([Abi], [SyscallManager], [FsCalls], [MemCalls], [ProcCalls]):
      src/syscalls/manager.cpp and src/syscalls/impl, over the components above;
      [TaskCalls]: the calls on processes and on the system; [CallTable]:
      src/syscalls/list.cpp with the stubs of src/newlib/syscalls;
    - [Volume] ([Volume], [Ptable], [Partition]): src/fs/vol, over any device with a
      read and a write of one sector; [Timer]: src/time;
    - [Keyboard], [Screen] ([Color], [Screen]), [Terminal] ([TTY], [KeybQueue],
      [TTYFile]): src/drivers/ps2/keyboard.cpp, src/drivers/framebuffer/fb.cpp,
      src/tasks/keybqueue.cpp, src/tty;
    - [SynchFs] ([NamedFs], [SemaphoreFS], [MutexFS], [EventFS], [FsRuns]):
      src/synch/semaphorefs.cpp, mutexfs.cpp and eventfs.cpp, one construction over
      the class of what the three kinds of objects provide, over [KeyedStore] and
      [Synch];
    - [Machine] ([IoPorts], [Pic], [Rtc], [Pit], [Idt], [Exceptions], [Mtrr], [Pci]):
      src/i386/idt.cpp, ioports.cpp and mtrr.cpp, src/drivers/pic, rtc, pit and pci,
      src/process/exceptions.cpp; the machine behind the ports is the class [Ports],
      and what a theorem needs of a chip is a class of laws of its own;
    - [Shell] ([Flex], [Lexer], [Cmd], [Parser]): src/apps/shell/src/lexer.l as its
      rules with the longest match, command.cpp, parser.cpp with the command objects
      it writes to by reference; [ShellRun] ([Env], [Expand], [Path], [Wait], [Run]):
      the environment of the C library, src/slibs/shell, wait statuses, and the rest
      of the shell over the class [Os] of what it asks of the system;
    - [Libc] ([Absolutize], [Calls], [Stat], [Cwd], [Brk], [Spawn]):
      src/newlib/syscalls; [Init]: src/apps/init/init.cpp;
    - [Ide]: the disk driver src/drivers/pci/ide/ide.cpp over any machine with ports:
      its polling, the commands it sends and the transfer of sectors word by word;
    - [Boot] ([Multiboot], [Config], [Phases], [Paging], [EarlyBoot]): src/boot,
      src/sys/config.cpp and the constructor of src/mm/virt.cpp: what the boot loader
      left in memory, the kernel command line, the boot phases, the first page tables as
      words of frames with the walk of the processor, and the set-up of memory;
    - [Dlfcn] ([Vm], [Dl]): src/newlib/syscalls/dlfcn.cpp and vm.cpp, the loader of
      dynamic libraries over the class [UserVm] of the memory of a process.

    ** What is proved

    The component files hold the lemmas; the properties are in the files [*Thms].

    - [ProcessThms]: the invariant of the process system holds in every state the
      kernel can reach, no process is lost, a mutex excludes and loses no wake-up,
      semaphores count, [wakeall] and [wakeone] wake whom they should, a scheduling
      round runs a process that is ready, and spawn, exec, exit, collect, delete
      and kill do what they promise and respect privilege;
    - [MemoryThms], [SpaceThms]: physical pages are handed out once and counted
      exactly, mapping translates, a copy-on-write fault gives a private copy, a
      clone shares its parent's memory copy-on-write and gives every frame back
      when it goes, a region found for a process is fresh; [Malloc]: over any run of the
      allocator's calls and of writes to the memory they gave out, blocks never overlap
      and no memory is lost;
    - [LoaderThms]: an ELF image lies in memory as its headers say, arguments reach
      the program unchanged, script lines are parsed as a reference parser does;
    - [SyscallThms]: descriptors and references to open files agree after any
      sequence of calls, and the checks of user memory decide what they promise;
      [CallTable]: a call of a user program is its handler run on its arguments;
      [TaskCalls]: the listing of processes is complete and within its bounds;
    - [LibraryThms]: refinement of lists, caches and pipes to sequences by every
      sequence of operations, sorting by the priority queue, free intervals, the
      calendar round trip, reference counts of files, mount resolution;
    - [DeviceThms], [TerminalThms], [RamFsThms]: the sector cache is transparent,
      partitions are isolated, tick handlers keep their period, keys arrive in
      order and make up the line that is read, text stays inside of the video
      memory, the initial image is read as it was packed, paths of the memory
      filesystem lead where they should, and the RAM disk is a device in the sense
      of [Volume];
    - [Mounts]: filesystems outlive their open files over any interleaving of mounts,
      unmounts, opens and closes, and a path leads to the same one in every call;
      [FatFs]: times of files survive a directory entry, no handle is leaked;
    - [SynchFs]: over any interleaving of opens, closes and ioctls, a name stands for
      one object, which lives as long as somebody has it open; [MsgFs]: message queues
      deliver in order and once each;
    - [MachineThms]: disabling interrupts nests, only the system-call gate can be
      entered from user space, the controllers accept exactly the lines asked for, an
      interrupt is counted, handled and wakes its queue, the boot time is the time
      of the clock, the scan of the bus finds every function once;
    - [ShellThms]: the parser ends on every line, a line printed from commands is run
      as these commands, redirections reach the child as its descriptors, which exit
      statuses count as success, quoted arguments are split as they were joined, the
      environment is a map;
    - [IdeThms]: against the ATA behaviour of drives, the driver reads and writes the
      sectors asked for and no others, and a drive is a block device in the sense of
      [Volume];
    - [LibcThms]: a relative path is walked component by component, heap blocks are
      fresh and disjoint, the current directory is the kernel's; [Init]: the services
      are kept running;
    - [BootThms]: early boot ends with the kernel and its modules mapped, a heap and
      physical memory from which nothing in use is ever handed out; the first page
      tables translate exactly what they should; a printed command line configures the
      kernel; the boot phases run in order and stop at a fatal failure;
    - [VirtThms]: a typing of page tables, reference counts and frames that early boot
      establishes, that every operation of the manager and every page fault keeps, and
      under which none of them panics while there is memory;
    - [DlfcnThms]: [dlopen] lays out the segments of a library and relocates it, [dlsym]
      finds the bytes of a symbol, initialisers run in order.

    Some theorems state defects of the code as it stands (an awaker that spins on a
    stale entry, a partition scan that leaves its table, a device directory that is
    made twice, wrapped reference counts, a history line that recalls itself, a
    program that divides by zero and counts as successful): their comments say so.

    ** Bounds and fuel

    Bitmap scans, table searches and walks over sequences recurse on what is left.
    Fuel appears where the recursion follows pointers, indices or addresses.  List
    walks of [SList] take the number of nodes; the shift loops of [PQueue] take the
    number of elements, more than the depth of the heap; [wakeone] and [wakeall]
    take the length of the queue, [deschedule] the square of it because its loop
    starts over; address loops ([Virt], [MemMgr], [Phys]) take the pages between
    the two ends; the chunks of an ELF segment take two pages more than its length;
    reads of a memory file take its length, path lookup that of the path.  The scanner
    takes the length of its input; the parser twice that of the line and of the
    longest history line it may recall, which suffices unless a history line itself
    recalls one.  The waits for the clock take any number for which the clock comes to
    rest; the polls of a disk any number above the readings for which a drive stays
    busy, its transfers the number of sectors.  The walk over the memory map takes a
    quarter of its length, the mapping of the kernel its pages, the initialisers of a
    library a quarter of the size of their array.  The search for free memory takes twice
    the number of headers, since it asks for more memory at most once.  For each
    of them a lemma shows that the loop ends before the fuel does, so that the
    theorems state results and not only what holds of a result.  A memory access
    takes at most one fault, since the handler either makes the page usable or does
    not return.  Only the chain of script interpreters in [FileLoader] and that of
    scripts run by the shell have fuel without such a bound: the code does not bound
    them either.

    ** Not modelled

    The messages and device files of the disk manager, serial line, local interrupt
    controllers, ACPI and the tables of the processor (port and memory-mapped input and
    output without logic of their own), assembly, FatFs itself, the line
    editor and the JSON library, which are vendored, and logging.  Of the system calls, halt and reboot are
    left out.  Of the files under /devices and of the user
    programs those that only print are left out. *)

From stdpp Require Import base numbers list gmap sets strings option.
From Stdlib Require Import ZArith Lia Permutation.

#[global] Set Default Goal Selector "!".

(** ** Machine integers

    A [w]-bit unsigned integer of the source is a [Z] in [0, 2^w); arithmetic
    that can leave the range is followed by the wrap the hardware performs. *)

Declare Scope puppy_scope.
Delimit Scope puppy_scope with puppy.

Definition wrap (w z : Z) : Z := (z mod 2 ^ w)%Z.
Definition u8 (z : Z) : Z := wrap 8 z.
Definition u16 (z : Z) : Z := wrap 16 z.
Definition u32 (z : Z) : Z := wrap 32 z.
Definition u64 (z : Z) : Z := wrap 64 z.

Definition is_u (w z : Z) : Prop := (0 <= z < 2 ^ w)%Z.
Abbreviation is_u8 := (is_u 8).
Abbreviation is_u16 := (is_u 16).
Abbreviation is_u32 := (is_u 32).
Abbreviation is_u64 := (is_u 64).

#[global] Instance is_u_dec w z : Decision (is_u w z).
Proof. unfold is_u. apply _. Defined.

(** Evaluation order of the C condition [a && b] on booleans is irrelevant for
    the pure conditions modelled here, so [andb] and [orb] are used directly. *)

Notation "x +32 y" := (u32 (x + y)) (at level 50, left associativity) : puppy_scope.
Notation "x -32 y" := (u32 (x - y)) (at level 50, left associativity) : puppy_scope.
Notation "x *32 y" := (u32 (x * y)) (at level 40, left associativity) : puppy_scope.
Notation "x +64 y" := (u64 (x + y)) (at level 50, left associativity) : puppy_scope.
Notation "x *64 y" := (u64 (x * y)) (at level 40, left associativity) : puppy_scope.

(** ** Tactics *)

(** Boolean tests of the code to propositions, everywhere. *)
Ltac bool_to_prop :=
  repeat match goal with
  | H : andb _ _ = true |- _ => apply andb_true_iff in H; destruct H
  | H : orb _ _ = false |- _ => apply orb_false_iff in H; destruct H
  | H : negb _ = true |- _ => apply negb_true_iff in H
  | H : negb _ = false |- _ => apply negb_false_iff in H
  | H : Z.eqb _ _ = true |- _ => apply Z.eqb_eq in H
  | H : Z.eqb _ _ = false |- _ => apply Z.eqb_neq in H
  | H : Z.leb _ _ = true |- _ => apply Z.leb_le in H
  | H : Z.leb _ _ = false |- _ => apply Z.leb_gt in H
  | H : Z.ltb _ _ = true |- _ => apply Z.ltb_lt in H
  | H : Z.ltb _ _ = false |- _ => apply Z.ltb_ge in H
  | H : Z.gtb _ _ = true |- _ => rewrite Z.gtb_ltb in H
  | H : Z.gtb _ _ = false |- _ => rewrite Z.gtb_ltb in H
  | H : Z.geb _ _ = true |- _ => rewrite Z.geb_leb in H
  | H : Z.geb _ _ = false |- _ => rewrite Z.geb_leb in H
  | H : Nat.eqb _ _ = true |- _ => apply Nat.eqb_eq in H
  | H : Nat.eqb _ _ = false |- _ => apply Nat.eqb_neq in H
  | H : Nat.leb _ _ = true |- _ => apply Nat.leb_le in H
  | H : Nat.leb _ _ = false |- _ => apply Nat.leb_gt in H
  | H : Nat.ltb _ _ = true |- _ => apply Nat.ltb_lt in H
  | H : Nat.ltb _ _ = false |- _ => apply Nat.ltb_ge in H
  | H : bool_decide _ = true |- _ => apply bool_decide_eq_true in H
  | H : bool_decide _ = false |- _ => apply bool_decide_eq_false in H
  end.

(** Case analysis on every test of the goal, with the facts it gives. *)
Ltac case_tests :=
  repeat (case_match; bool_to_prop; simplify_eq/=).

(** Range reasoning on wrapped arithmetic: expose the width as a number. *)
Ltac width :=
  unfold u8, u16, u32, u64, is_u, wrap in *;
  change (2 ^ 8)%Z with 256%Z in *;
  change (2 ^ 16)%Z with 65536%Z in *;
  change (2 ^ 32)%Z with 4294967296%Z in *;
  change (2 ^ 64)%Z with 18446744073709551616%Z in *.

Ltac width_lia := width; repeat rewrite Z.mod_small by lia; lia.

(** Remove the wraps of sums that stay in range, innermost first. *)
Ltac no_wrap_with f lem :=
  repeat match goal with
  | |- context [f ?x] =>
      lazymatch x with context [f _] => fail | _ => rewrite (lem x) by (unfold is_u; lia) end
  end.

Create HintDb puppy.

(** ** Wrapping lemmas *)

Lemma wrap_range w z : (0 <= w)%Z -> is_u w (wrap w z).
Proof. intros. apply Z.mod_pos_bound, Z.pow_pos_nonneg; lia. Qed.

Lemma wrap_id w z : is_u w z -> wrap w z = z.
Proof. apply Z.mod_small. Qed.

Lemma u32_range z : is_u32 (u32 z).
Proof. by apply wrap_range. Qed.

Lemma u32_id z : is_u32 z -> u32 z = z.
Proof. apply wrap_id. Qed.

Lemma u64_range z : is_u64 (u64 z).
Proof. by apply wrap_range. Qed.

Lemma u64_id z : is_u64 z -> u64 z = z.
Proof. apply wrap_id. Qed.

Ltac no_wrap64 := no_wrap_with u64 u64_id.
Ltac no_wrap32 := no_wrap_with u32 u32_id.

(** ** Bits *)

Lemma testbit_above v n m : (0 <= v < 2 ^ n)%Z -> (0 <= n <= m)%Z -> Z.testbit v m = false.
Proof.
  intros Hv Hm. rewrite <- (Z.mod_small v (2 ^ n)) by lia. apply Z.mod_pow2_bits_high. lia.
Qed.

Lemma testbit_ones (k m : Z) : (0 <= k)%Z -> (0 <= m)%Z -> Z.testbit (Z.ones k) m = (m <? k)%Z.
Proof.
  intros Hk Hm. destruct (Z.ltb_spec m k); [apply Z.ones_spec_low; lia|apply Z.ones_spec_high; lia].
Qed.

(** An or of fields that do not overlap is their sum. *)
Lemma lor_fields hi lo n : (0 <= n)%Z -> (0 <= lo < 2 ^ n)%Z -> Z.lor lo (Z.shiftl hi n) = (hi * 2 ^ n + lo)%Z.
Proof.
  intros Hn Hlo. rewrite Z.lor_comm. rewrite <- Z.lxor_lor, <- Z.add_nocarry_lxor; [by rewrite Z.shiftl_mul_pow2|..];
    apply Z.bits_inj'; intros m Hm; rewrite Z.land_spec, Z.shiftl_spec, Z.bits_0 by done;
    (destruct (Z.lt_ge_cases m n); [by rewrite Z.testbit_neg_r by lia|by rewrite (testbit_above lo n m), andb_false_r by lia]).
Qed.

#[export] Hint Resolve wrap_range u32_range u64_range : puppy.
#[export] Hint Rewrite u32_id u64_id using (unfold is_u; lia) : puppy.

(** ** Lists *)

(** [for (...) if (!f(x)) break;] over a sequence, threading the state the
    callback mutates. *)
Fixpoint foreach_stop {S A} (f : S -> A -> S * bool) (s : S) (l : list A) : S :=
  match l with
  | [] => s
  | x :: l => let '(s', go) := f s x in if go then foreach_stop f s' l else s'
  end.

(** The same loop when the callback may also overwrite the element. *)
Fixpoint foreach_mut {S A} (f : S -> A -> S * A * bool) (s : S) (l : list A)
    : S * list A :=
  match l with
  | [] => (s, [])
  | x :: l =>
      let '(s', x', go) := f s x in
      if go then let '(s'', l') := foreach_mut f s' l in (s'', x' :: l')
      else (s', x' :: l)
  end.

(** Remove the first element that satisfies a test. *)
Fixpoint remove_first {A} (p : A -> bool) (l : list A) : list A :=
  match l with
  | [] => []
  | x :: l => if p x then l else x :: remove_first p l
  end.

Lemma foreach_stop_all {S A} (f : S -> A -> S * bool) s l :
  (forall s x, (f s x).2 = true) ->
  foreach_stop f s l = foldl (fun s x => (f s x).1) s l.
Proof.
  intros Hall. revert s. induction l as [|x l IH]; intros s; simpl; [done|].
  specialize (Hall s x). destruct (f s x) as [s' go]; simpl in *; subst. apply IH.
Qed.

Lemma remove_first_sublist {A} (p : A -> bool) l : sublist (remove_first p l) l.
Proof.
  induction l as [|x l IH]; simpl; [done|].
  destruct (p x); by constructor.
Qed.

Lemma Forall_of_sublist {A} (P : A -> Prop) l k : sublist l k -> Forall P k -> Forall P l.
Proof. induction 1 as [|x l k _ IH|x l k _ IH]; intros H; [done| |]; apply Forall_cons_1 in H as [? ?]; auto. Qed.

Lemma removelast_sublist {A} (l : list A) : sublist (removelast l) l.
Proof. destruct l as [|x l _] using rev_ind; [done|]. rewrite removelast_last. by apply sublist_inserts_r. Qed.

Lemma remove_first_none {A} (p : A -> bool) l :
  Forall (fun x => p x = false) l -> remove_first p l = l.
Proof. induction 1 as [|x l Hx Hl IH]; simpl; [done|]. by rewrite Hx, IH. Qed.

Lemma elem_of_remove_first {A} (p : A -> bool) l x :
  x ∈ remove_first p l -> x ∈ l.
Proof. intros. eapply sublist_subseteq; eauto using remove_first_sublist. Qed.

Lemma length_remove_first {A} (p : A -> bool) l :
  existsb p l = true -> S (length (remove_first p l)) = length l.
Proof.
  induction l as [|x l IH]; simpl; [done|].
  destruct (p x); simpl; [done|]. intros; f_equal; auto.
Qed.

Lemma existsb_none {A} (p : A -> bool) l :
  existsb p l = false <-> Forall (fun x => p x = false) l.
Proof.
  induction l as [|x l IH]; simpl; [by split|].
  rewrite orb_false_iff, Forall_cons_iff, IH. done.
Qed.

Lemma existsb_some {A} (p : A -> bool) l :
  existsb p l = true <-> exists x, x ∈ l /\ p x = true.
Proof.
  rewrite existsb_exists. split; intros (x & Hx & Hp); exists x; by rewrite list_elem_of_In in *.
Qed.

Lemma filter_remove_first {A} (p : A -> bool) l :
  filter (fun x => p x = false) (remove_first p l) = filter (fun x => p x = false) l.
Proof.
  induction l as [|x l IH]; simpl; [done|].
  destruct (p x) eqn:Hp; rewrite ?filter_cons, ?Hp, ?IH; done.
Qed.

Lemma list_filter_all {A} (P : A -> Prop) `{!forall x, Decision (P x)} (l : list A) :
  (forall x, x ∈ l -> P x) -> filter P l = l.
Proof.
  induction l as [|x l IH]; intros Hall; [done|].
  rewrite filter_cons_True by (apply Hall; left). f_equal. apply IH. intros; apply Hall; by right.
Qed.

Lemma take_app_cons {A} (l1 l2 : list A) x i :
  i = length l1 -> take (S i) (l1 ++ x :: l2) = l1 ++ [x].
Proof.
  intros ->. rewrite take_app_ge by lia.
  by replace (S (length l1) - length l1) with 1 by lia.
Qed.

Lemma delete_middle_eq {A} (l1 l2 : list A) x i :
  i = length l1 -> delete i (l1 ++ x :: l2) = l1 ++ l2.
Proof. intros ->. apply delete_middle. Qed.

Lemma insert_middle_eq {A} (l1 l2 : list A) x y i :
  i = length l1 -> <[i := y]> (l1 ++ x :: l2) = l1 ++ y :: l2.
Proof. intros ->. rewrite insert_app_r_alt by lia. by rewrite Nat.sub_diag. Qed.

Lemma lookup_split {A} (l : list A) i x :
  l !! i = Some x -> exists l1 l2, l = l1 ++ x :: l2 /\ i = length l1.
Proof.
  intros H. exists (take i l), (drop (S i) l). split.
  - symmetry. by apply take_drop_middle.
  - rewrite length_take. apply lookup_lt_Some in H. lia.
Qed.

(** Writing two cells of an array with each other's value permutes it. *)
Lemma swap_permutation {A} (l : list A) i j x y :
  l !! i = Some x -> l !! j = Some y -> <[j := x]> (<[i := y]> l) ≡ₚ l.
Proof.
  intros Hi Hj. destruct (decide (i = j)) as [->|Hne].
  { simplify_eq. rewrite list_insert_insert_eq. by rewrite list_insert_id. }
  apply lookup_split in Hi as Hs. destruct Hs as (l1 & l2 & -> & ->).
  rewrite insert_middle_eq by done.
  destruct (decide (j < length l1)) as [Hlt|Hge].
  - rewrite lookup_app_l in Hj by done.
    apply lookup_split in Hj as (k1 & k2 & -> & ->).
    rewrite <- app_assoc. simpl. rewrite insert_middle_eq by done.
    rewrite <- app_assoc. simpl.
    rewrite <- !Permutation_middle. apply perm_swap.
  - rewrite lookup_app_r in Hj by lia.
    destruct (j - length l1) as [|k] eqn:Hk; [lia|]. simpl in Hj.
    rewrite insert_app_r_alt by lia. rewrite Hk. simpl.
    apply lookup_split in Hj as (k1 & k2 & -> & ->).
    rewrite insert_middle_eq by done.
    rewrite <- !Permutation_middle. apply perm_swap.
Qed.
