(* ===== verification/Vec.v ===== *)
(** * The growable array [vector<T>] (kernel/include/libc/vec.h)

    The storage is the array of [mCapacity] cells the C++ class owns; a cell is
    [None] until something is written to it, so that reads of memory that
    [allocate] returned uninitialised are visible.  [Vec.vrep v l] relates a
    vector to the sequence it holds.  The file ends with the interface
    [VectorOps]/[VectorLaws] that the containers built on vectors use. *)

From stdpp Require Import base numbers list option.
From Stdlib Require Import Lia.
From S2P Require Import Prelude.

Module Vec.

Record vector (T : Type) := mkVector {
  mData : list (option T);
  mCapacity : nat;
  mSize : nat;
}.
Arguments mkVector {T} _ _ _.
Arguments mData {T} _.
Arguments mCapacity {T} _.
Arguments mSize {T} _.

Section Operations.
Context {T : Type}.
Implicit Types v : vector T.

Definition new : vector T := mkVector [] 0 0.

(** [allocate], [memcpy] of the live prefix, [free] of the old array. *)
Definition realloc v (newSize : nat) : vector T :=
  mkVector (take (mSize v) (mData v) ++ replicate (newSize - mSize v) None)
           newSize (mSize v).

Definition push_back v (item : T) : vector T :=
  let v := if mSize v =? mCapacity v then realloc v (2 * mCapacity v + 1) else v in
  mkVector (<[mSize v := Some item]> (mData v)) (mCapacity v) (S (mSize v)).

Definition size v : nat := mSize v.
Definition capacity v : nat := mCapacity v.
Definition empty v : bool := mSize v =? 0.

(** [at] and [operator[]] do not check the index; a read of a cell outside the
    array or never written has no defined value. *)
Definition at_ v (idx : nat) : option T := mjoin (mData v !! idx).
Definition set_at v (idx : nat) (x : T) : vector T :=
  mkVector (<[idx := Some x]> (mData v)) (mCapacity v) (mSize v).
Definition front v : option T := at_ v 0.
Definition back v : option T := at_ v (mSize v - 1).

(** [memmove(&d[pos], &d[pos+1], rem * sizeof(T))] *)
Definition memmove_down (d : list (option T)) (pos rem : nat) : list (option T) :=
  take pos d ++ take rem (drop (S pos) d) ++ drop (pos + rem) d.

Definition erase_at v (pos : nat) : vector T :=
  let rem := mSize v - pos - 1 in
  mkVector (memmove_down (mData v) pos rem) (mCapacity v) (mSize v - 1).

Definition pop_back v : vector T :=
  if 0 <? mSize v then mkVector (mData v) (mCapacity v) (mSize v - 1) else v.

(** The scan shared by the two [erase] searches: the first index at or after
    [i] whose element satisfies the test, [k] cells remaining. *)
Fixpoint scan v (p : T -> bool) (i k : nat) : option nat :=
  match k with
  | O => None
  | S k => match at_ v i with
           | Some x => if p x then Some i else scan v p (S i) k
           | None => None
           end
  end.

Definition erase_if v (p : T -> bool) : vector T * bool :=
  match scan v p 0 (mSize v) with
  | Some i => (erase_at v i, true)
  | None => (v, false)
  end.

(** [while (erase(value));] and the [goto entry] loop: one removal per round, so
    [mSize] rounds and the round that finds nothing are enough. *)
Fixpoint eraseAll_fuel (fuel : nat) v (p : T -> bool) : option (vector T) :=
  match fuel with
  | O => None
  | S fuel => let '(v', again) := erase_if v p in
              if again then eraseAll_fuel fuel v' p else Some v'
  end.

Definition eraseAll_if v (p : T -> bool) : option (vector T) :=
  eraseAll_fuel (S (mSize v)) v p.

Definition erase `{EqDecision T} v (value : T) : vector T * bool :=
  erase_if v (fun x => bool_decide (x = value)).
Definition eraseAll `{EqDecision T} v (value : T) : option (vector T) :=
  eraseAll_if v (fun x => bool_decide (x = value)).

(** [foreach]: the callback sees the elements in order until it returns false. *)
Definition foreach {S} (f : S -> T -> S * bool) (s : S) v : S :=
  foreach_stop f s (omap id (take (mSize v) (mData v))).

(** ** Representation *)

Definition vrep v (l : list T) : Prop :=
  exists tl, mData v = (Some <$> l) ++ tl
    /\ mSize v = length l
    /\ mCapacity v = length (mData v).

Lemma vrep_new : vrep new [].
Proof. by exists []. Qed.

Lemma vrep_size v l : vrep v l -> mSize v = length l.
Proof. by intros (tl & _ & ? & _). Qed.

Lemma vrep_capacity v l : vrep v l -> mSize v <= mCapacity v.
Proof. intros (tl & Hd & -> & ->). rewrite Hd, length_app, length_fmap. lia. Qed.

Lemma vrep_at v l i : vrep v l -> i < length l -> at_ v i = l !! i.
Proof.
  intros (tl & Hd & _) Hi. unfold at_. rewrite Hd.
  rewrite lookup_app_l by (by rewrite length_fmap).
  rewrite list_lookup_fmap. by destruct (l !! i).
Qed.

Lemma vrep_front v l : vrep v l -> l <> [] -> front v = list.head l.
Proof.
  intros Hv Hl. unfold front. rewrite (vrep_at _ l) by (first [done | destruct l; simpl; [done|lia]]).
  by destruct l.
Qed.

Lemma vrep_back v l : vrep v l -> l <> [] -> back v = list.last l.
Proof.
  intros Hv Hl. unfold back. rewrite (vrep_size _ _ Hv).
  rewrite (vrep_at _ l) by (first [done | destruct l; simpl; [done|lia]]).
  rewrite last_lookup. f_equal. lia.
Qed.

Lemma vrep_realloc v l n : vrep v l -> length l <= n -> vrep (realloc v n) l.
Proof.
  intros (tl & Hd & Hs & Hc) Hn. exists (replicate (n - length l) None).
  unfold realloc; simpl. rewrite Hd, Hs.
  rewrite take_app_le by (rewrite length_fmap; lia).
  rewrite take_ge by (by rewrite length_fmap).
  split_and!; [done|done|]. rewrite length_app, length_fmap, length_replicate. lia.
Qed.

Lemma vrep_push_room v l x :
  vrep v l -> mSize v < mCapacity v ->
  vrep (mkVector (<[mSize v := Some x]> (mData v)) (mCapacity v) (S (mSize v))) (l ++ [x]).
Proof.
  intros (tl & Hd & Hs & Hc) Hlt. rewrite Hc, Hd, Hs, length_app, length_fmap in Hlt.
  destruct tl as [|c tl]; [simpl in Hlt; lia|]. exists tl. simpl.
  rewrite Hd, Hs, Hc. rewrite insert_middle_eq by (by rewrite length_fmap).
  rewrite fmap_app, <- app_assoc. simpl. split_and!; [done| |].
  - rewrite length_app. simpl. lia.
  - rewrite Hd, !length_app. done.
Qed.

Lemma vrep_push_back v l x : vrep v l -> vrep (push_back v x) (l ++ [x]).
Proof.
  intros Hv. pose proof (vrep_capacity _ _ Hv). pose proof (vrep_size _ _ Hv).
  unfold push_back. destruct (Nat.eqb_spec (mSize v) (mCapacity v)).
  - apply vrep_push_room; [apply vrep_realloc; [done|lia] | simpl; lia].
  - apply vrep_push_room; [done|lia].
Qed.

Lemma vrep_set_at v l i x : vrep v l -> i < length l -> vrep (set_at v i x) (<[i := x]> l).
Proof.
  intros (tl & Hd & Hs & Hc) Hi. exists tl. unfold set_at; simpl.
  rewrite Hc, Hd, Hs, !length_insert. rewrite insert_app_l by (by rewrite length_fmap).
  by rewrite list_fmap_insert.
Qed.

Lemma vrep_pop_back v l x : vrep v (l ++ [x]) -> vrep (pop_back v) l.
Proof.
  intros (tl & Hd & Hs & Hc). exists (Some x :: tl).
  unfold pop_back. rewrite Hs, length_app. simpl.
  destruct (Nat.ltb_spec 0 (length l + 1)); [|lia]. simpl. rewrite Hd, fmap_app, <- app_assoc.
  rewrite Hd, fmap_app, <- app_assoc in Hc. split_and!; [done|lia|done].
Qed.

Lemma vrep_pop_back_nil v : vrep v [] -> vrep (pop_back v) [].
Proof. intros Hv. unfold pop_back. by rewrite (vrep_size _ _ Hv). Qed.

Lemma vrep_erase_at v l1 x l2 :
  vrep v (l1 ++ x :: l2) -> vrep (erase_at v (length l1)) (l1 ++ l2).
Proof.
  intros (tl & Hd & Hs & Hc).
  rewrite length_app in Hs; simpl in Hs.
  pose (d1 := Some <$> l1). pose (d2 := Some <$> l2).
  assert (Hd' : mData v = d1 ++ Some x :: (d2 ++ tl)).
  { rewrite Hd, fmap_app, <- app_assoc. done. }
  assert (H1 : length d1 = length l1) by apply length_fmap.
  assert (H2 : length d2 = length l2) by apply length_fmap.
  assert (Hmv : mData (erase_at v (length l1)) = (d1 ++ d2) ++ drop (length l2) (Some x :: d2 ++ tl)).
  { unfold erase_at, memmove_down; simpl.
    replace (mSize v - length l1 - 1) with (length l2) by lia.
    rewrite Hd', <- H1.
    rewrite take_app_le, take_ge by lia.
    rewrite drop_app_ge by lia. replace (S (length d1) - length d1) with 1 by lia.
    change (drop 1 (Some x :: d2 ++ tl)) with (d2 ++ tl).
    rewrite take_app_le, take_ge by lia.
    rewrite drop_app_ge by lia. replace (length d1 + length l2 - length d1) with (length l2) by lia.
    by rewrite app_assoc. }
  exists (drop (length l2) (Some x :: d2 ++ tl)). split; [|split].
  - rewrite Hmv. by rewrite fmap_app.
  - simpl. rewrite length_app. lia.
  - rewrite Hmv. simpl. rewrite Hc, Hd', !length_app. rewrite length_drop. simpl.
    rewrite length_app. lia.
Qed.

Lemma vec_scan_spec v l p : vrep v l ->
  forall k i, i + k = length l ->
  match scan v p i k with
  | Some j => i <= j < length l /\ (exists x, l !! j = Some x /\ p x = true)
              /\ (forall m y, i <= m < j -> l !! m = Some y -> p y = false)
  | None => forall m y, i <= m -> l !! m = Some y -> p y = false
  end.
Proof.
  intros Hv k. induction k as [|k IH]; intros i Hik; simpl.
  { intros m y Hm Hy. apply lookup_lt_Some in Hy. lia. }
  rewrite (vrep_at _ _ _ Hv) by lia.
  destruct (l !! i) as [x|] eqn:Hx; [|apply lookup_ge_None in Hx; lia].
  destruct (p x) eqn:Hp; [split_and!; [lia|lia|eauto|intros; lia]|].
  specialize (IH (S i) ltac:(lia)).
  assert (Hcase : forall m y, i <= m -> l !! m = Some y -> m = i /\ p y = false \/ S i <= m).
  { intros m y Hm Hy. destruct (decide (m = i)) as [->|]; [left; split; congruence|right; lia]. }
  destruct (scan v p (S i) k) as [j|].
  - destruct IH as (Hj & He & Hall). split_and!; [lia|lia|done|].
    intros m y Hm Hy. destruct (Hcase m y) as [[]|]; [lia|done|done|]. apply (Hall m); [lia|done].
  - intros m y Hm Hy. destruct (Hcase m y) as [[]|]; eauto.
Qed.

Lemma erase_if_spec v l p : vrep v l ->
  let '(v', found) := erase_if v p in
  vrep v' (remove_first p l) /\ found = existsb p l.
Proof.
  intros Hv. unfold erase_if. pose proof (vrep_size _ _ Hv) as Hs.
  pose proof (vec_scan_spec v l p Hv (mSize v) 0 ltac:(lia)) as Hscan.
  destruct (scan v p 0 (mSize v)) as [j|].
  - destruct Hscan as (_ & (x & Hx & Hpx) & Hall).
    apply lookup_split in Hx as (l1 & l2 & -> & ->).
    assert (Hl1 : Forall (fun y => p y = false) l1).
    { apply Forall_lookup. intros m y Hm. apply (Hall m); [apply lookup_lt_Some in Hm; lia|].
      rewrite lookup_app_l; [done|]. by eapply lookup_lt_Some. }
    assert (remove_first p (l1 ++ x :: l2) = l1 ++ l2 /\ existsb p (l1 ++ x :: l2) = true) as [-> ->].
    { clear -Hl1 Hpx. induction Hl1 as [|y l1 Hy Hl1 [IH1 IH2]]; simpl.
      - by rewrite Hpx.
      - rewrite Hy, IH1, IH2. done. }
    split; [|done]. by apply vrep_erase_at with x.
  - assert (Hl : Forall (fun y => p y = false) l).
    { apply Forall_lookup. intros m y Hm. apply (Hscan m); [lia|done]. }
    rewrite remove_first_none by done. split; [done|]. symmetry. by apply existsb_none.
Qed.

Lemma eraseAll_fuel_spec p fuel v l :
  vrep v l -> length l < fuel ->
  exists v', eraseAll_fuel fuel v p = Some v' /\ vrep v' (filter (fun x => p x = false) l).
Proof.
  revert v l. induction fuel as [|fuel IH]; intros v l Hv Hf; [lia|]. simpl.
  pose proof (erase_if_spec v l p Hv) as He. destruct (erase_if v p) as [v' found].
  destruct He as [Hv' ->]. destruct (existsb p l) eqn:Hex.
  - rewrite <- filter_remove_first. apply IH; [done|].
    apply length_remove_first in Hex. lia.
  - apply existsb_none in Hex. rewrite remove_first_none in Hv' by done.
    exists v'. split; [done|]. rewrite list_filter_all; [done|].
    intros x Hx. rewrite list.Forall_forall in Hex. by apply Hex.
Qed.

End Operations.
End Vec.

(** ** What a vector promises to the containers built on it *)

Class VectorOps (V : Type -> Type) := {
  v_rep {T} : V T -> list T -> Prop;
  v_new {T} : V T;
  v_size {T} : V T -> nat;
  v_at {T} : V T -> nat -> option T;
  v_set {T} : V T -> nat -> T -> V T;
  v_push_back {T} : V T -> T -> V T;
  v_pop_back {T} : V T -> V T;
  v_erase_at {T} : V T -> nat -> V T;
  v_eraseAll_if {T} : V T -> (T -> bool) -> option (V T);
}.

Class VectorLaws (V : Type -> Type) `{!VectorOps V} := {
  v_rep_new {T} : v_rep (v_new (T := T)) [];
  v_rep_size {T} (v : V T) l : v_rep v l -> v_size v = length l;
  v_rep_at {T} (v : V T) l i : v_rep v l -> i < length l -> v_at v i = l !! i;
  v_rep_set {T} (v : V T) l i x : v_rep v l -> i < length l -> v_rep (v_set v i x) (<[i := x]> l);
  v_rep_push {T} (v : V T) l x : v_rep v l -> v_rep (v_push_back v x) (l ++ [x]);
  v_rep_pop {T} (v : V T) l x : v_rep v (l ++ [x]) -> v_rep (v_pop_back v) l;
  v_rep_erase {T} (v : V T) l1 x l2 :
    v_rep v (l1 ++ x :: l2) -> v_rep (v_erase_at v (length l1)) (l1 ++ l2);
  v_rep_eraseAll {T} (v : V T) l p : v_rep v l ->
    exists v', v_eraseAll_if v p = Some v' /\ v_rep v' (filter (fun x => p x = false) l);
}.

#[global] Instance vector_ops : VectorOps Vec.vector := {
  v_rep _ := Vec.vrep;
  v_new _ := Vec.new;
  v_size _ := Vec.size;
  v_at _ := Vec.at_;
  v_set _ := Vec.set_at;
  v_push_back _ := Vec.push_back;
  v_pop_back _ := Vec.pop_back;
  v_erase_at _ := Vec.erase_at;
  v_eraseAll_if _ := Vec.eraseAll_if;
}.

#[global] Instance vector_laws : VectorLaws Vec.vector.
Proof.
  split; intros; simpl in *.
  - apply Vec.vrep_new.
  - by apply Vec.vrep_size.
  - by apply Vec.vrep_at.
  - by apply Vec.vrep_set_at.
  - by apply Vec.vrep_push_back.
  - by eapply Vec.vrep_pop_back.
  - by eapply Vec.vrep_erase_at.
  - apply Vec.eraseAll_fuel_spec; [done|]. rewrite (Vec.vrep_size v l) by done. lia.
Qed.

(** A sequence is a vector of itself: the instance the models of the clients
    compute with. *)
#[global] Instance list_ops : VectorOps list := {
  v_rep _ := eq;
  v_new _ := [];
  v_size _ := length;
  v_at _ l i := l !! i;
  v_set _ l i x := <[i := x]> l;
  v_push_back _ l x := l ++ [x];
  v_pop_back _ l := take (length l - 1) l;
  v_erase_at _ l i := delete i l;
  v_eraseAll_if _ l p := Some (filter (fun x => p x = false) l);
}.

#[global] Instance list_laws : VectorLaws list.
Proof.
  split; simpl; intros; subst; try done.
  - rewrite length_app. simpl. rewrite take_app_le by lia. rewrite take_ge; [done|lia].
  - apply delete_middle.
  - by eexists.
Qed.

(** ** Properties *)

(** [push_back] appends, whatever the capacity: growth keeps every element. *)
Theorem vector_push_back_refines {T} (v : Vec.vector T) l x :
  Vec.vrep v l -> Vec.vrep (Vec.push_back v x) (l ++ [x])
    /\ Vec.mSize (Vec.push_back v x) <= Vec.mCapacity (Vec.push_back v x).
Proof.
  intros Hv. pose proof (Vec.vrep_push_back v l x Hv) as Hp.
  split; [done|]. by eapply Vec.vrep_capacity.
Qed.
