(* ===== verification/PQueue.v ===== *)
(** * Containers over vectors: [pqueue] and [dynqueue]
    (kernel/include/libc/pqueue.h, kernel/include/libc/dynqueue.h)

    Both are written against the vector interface of [Vec]: the operations call
    [v_at], [v_push_back], ... and the theorems use only [VectorLaws].
    [PQueue] is the binary heap that orders the sleeping processes by wake-up
    time; [DynQueue] is the FIFO of processes that wait on a kernel object. *)

From stdpp Require Import base numbers list option.
From Stdlib Require Import ZArith Lia Permutation Sorted.
From S2P Require Import Prelude Vec.

Local Open Scope nat_scope.

Module PQueue.

(** [Comparator::compare] only has to agree with some total preorder: a tie may
    be reported as smaller or as bigger (the sleep queue reports it as smaller). *)
Class Comparator {A} (compare : A -> A -> Z) (ord : A -> A -> Prop) := {
  ord_refl a : ord a a;
  ord_trans a b c : ord a b -> ord b c -> ord a c;
  cmp_le a b : (compare a b <= 0)%Z -> ord a b;
  cmp_ge a b : (compare a b >= 0)%Z -> ord b a;
}.

Section Heap.
Context {V : Type -> Type} `{!VectorOps V}.
Context {A : Type} (compare : A -> A -> Z) (ord : A -> A -> Prop).
Implicit Types (q : V A) (l : list A).

Definition parentIdx (idx : nat) : nat := (idx - 1) / 2.
Definition leftIdx (idx : nat) : nat := 2 * idx + 1.
Definition rightIdx (idx : nat) : nat := 2 * idx + 2.

Definition swap q (i j : nat) : option (V A) :=
  x ← v_at q i; y ← v_at q j; Some (v_set (v_set q i y) j x).

(** One comparison of [down]: take [cand] if it is in range and bigger. *)
Definition bigger q (cand cur : nat) : option nat :=
  if cand <? v_size q then
    c ← v_at q cand; x ← v_at q cur;
    Some (if (compare c x >? 0)%Z then cand else cur)
  else Some cur.

Fixpoint down_fuel (fuel : nat) q (idx : nat) : option (V A) :=
  match fuel with
  | O => None
  | S fuel =>
      largest ← bigger q (leftIdx idx) idx;
      largest ← bigger q (rightIdx idx) largest;
      if largest =? idx then Some q
      else q' ← swap q idx largest; down_fuel fuel q' largest
  end.

(** [idx] grows in every call and stays below the size. *)
Definition down q (idx : nat) : option (V A) := down_fuel (S (v_size q)) q idx.

Fixpoint up_fuel (fuel : nat) q (idx : nat) : option (V A) :=
  match fuel with
  | O => None
  | S fuel =>
      if idx =? 0 then Some q
      else
        p ← v_at q (parentIdx idx); x ← v_at q idx;
        if (compare p x <? 0)%Z
        then q' ← swap q idx (parentIdx idx); up_fuel fuel q' (parentIdx idx)
        else Some q
  end.

Definition up q (idx : nat) : option (V A) := up_fuel (S idx) q idx.

Definition pq_size q : nat := v_size q.
Definition pq_empty q : bool := pq_size q =? 0.

Definition insert q (a : A) : option (V A) :=
  let q := v_push_back q a in up q (v_size q - 1).

Definition top q : option A := v_at q 0.

Definition pop q : option (A * V A) :=
  t ← top q;
  b ← v_at q (v_size q - 1);
  q' ← down (v_pop_back (v_set q 0 b)) 0;
  Some (t, q').

(** ** Heap order *)

(** The element at [i] is not above the element at [j]. *)
Definition ile l (i j : nat) : Prop :=
  forall x y, l !! i = Some x -> l !! j = Some y -> ord x y.

Definition edge l (i : nat) : Prop := 0 < i -> ile l i (parentIdx i).
Definition heap l : Prop := forall i, edge l i.

(** Heap order except above [k], or except below [k]; in both cases the
    children of [k] are in order with the parent of [k]. *)
Definition bridge l (k : nat) : Prop :=
  0 < k -> forall c, 0 < c -> parentIdx c = k -> ile l c (parentIdx k).
Definition up_inv l (k : nat) : Prop := (forall i, i <> k -> edge l i) /\ bridge l k.
Definition down_inv l (k : nat) : Prop :=
  (forall i, 0 < i -> parentIdx i <> k -> edge l i) /\ bridge l k.

Definition pqrep q l : Prop := v_rep q l /\ heap l.

Lemma parent_cases i p : 0 < i -> parentIdx i = p <-> i = leftIdx p \/ i = rightIdx p.
Proof.
  unfold parentIdx, leftIdx, rightIdx. intros Hi.
  pose proof (Nat.div_mod_eq (i - 1) 2). pose proof (Nat.mod_upper_bound (i - 1) 2). lia.
Qed.

Lemma parent_lt i : 0 < i -> parentIdx i < i.
Proof. unfold parentIdx. intros. apply Nat.div_lt_upper_bound; lia. Qed.

Context `{!Comparator compare ord}.

Lemma ile_trans l i j k : is_Some (l !! j) -> ile l i j -> ile l j k -> ile l i k.
Proof. intros [y Hy] Hij Hjk x z Hx Hz. eapply ord_trans; eauto. Qed.

(** The array after a swap. *)
Definition swapped l i j x y : list A := <[j := x]> (<[i := y]> l).

Lemma swapped_lookup l i j x y m :
  l !! i = Some x -> l !! j = Some y -> i <> j ->
  swapped l i j x y !! m =
    if decide (m = j) then Some x else if decide (m = i) then Some y else l !! m.
Proof.
  intros Hi Hj Hne. unfold swapped.
  apply lookup_lt_Some in Hi as Hi'. apply lookup_lt_Some in Hj as Hj'.
  rewrite !list_lookup_insert, !length_insert.
  repeat case_decide; intuition (try congruence; try lia).
Qed.

Lemma up_inv_swap l k x p :
  0 < k -> l !! k = Some x -> l !! parentIdx k = Some p -> (compare p x < 0)%Z ->
  up_inv l k -> up_inv (swapped l k (parentIdx k) x p) (parentIdx k).
Proof.
  intros Hk Hx Hp Hlt [Hedges Hbr]. pose proof (parent_lt k Hk) as Hpk.
  assert (Hpx : ile l (parentIdx k) k) by (intros ? ? ? ?; simplify_eq; apply cmp_le; lia).
  assert (Hsib : forall i, 0 < i -> i <> k -> parentIdx i = (parentIdx k) -> ile l i k).
  { intros i Hi Hik Hpi. eapply ile_trans; [by exists p| |exact Hpx].
    rewrite <- Hpi. by apply Hedges. }
  split.
  - intros i Hi Hi0 a b. rewrite !swapped_lookup by (done || lia).
    pose proof (parent_lt i Hi0).
    repeat case_decide; intros Ha Hb; simplify_eq.
    + apply cmp_le. lia.
    + eapply Hsib; eauto.
    + eapply (Hbr Hk i); eauto.
    + eapply (Hedges i); eauto.
  - intros Hpk0 c Hc Hpc a b. rewrite !swapped_lookup by (done || lia).
    pose proof (parent_lt _ Hpk0). pose proof (parent_lt c Hc).
    repeat case_decide; intros Ha Hb; simplify_eq; try lia.
    + eapply (Hedges (parentIdx k)); eauto.
    + assert (Hcp : ile l c (parentIdx k)) by (rewrite <- Hpc; by apply Hedges).
      apply (ile_trans l c (parentIdx k) (parentIdx (parentIdx k))); eauto.
      apply Hedges; lia.
Qed.

Lemma down_inv_swap l k m x y :
  0 < m -> parentIdx m = k -> l !! k = Some x -> l !! m = Some y -> ord x y ->
  (forall c, 0 < c -> parentIdx c = k -> ile l c m) ->
  down_inv l k -> down_inv (swapped l k m x y) m.
Proof.
  intros Hm Hmk Hx Hy Hgt Hmax [Hedges Hbr].
  assert (Hkm : k < m) by (rewrite <- Hmk; by apply parent_lt).
  split.
  - intros i Hi Hpi _ a b. rewrite !swapped_lookup by (done || lia).
    pose proof (parent_lt i Hi).
    repeat case_decide; intros Ha Hb; simplify_eq; try lia.
    + done.
    + eapply (Hbr ltac:(lia) m); eauto.
    + eapply Hmax; eauto.
    + eapply (Hedges i); eauto.
  - intros _ c Hc Hpc a b. pose proof (parent_lt c Hc).
    rewrite !swapped_lookup by (done || lia).
    repeat case_decide; intros Ha Hb; simplify_eq; try lia; try congruence.
    eapply (Hedges c); eauto; lia.
Qed.

Context `{!VectorLaws V}.

Lemma swap_spec q l i j x y :
  v_rep q l -> l !! i = Some x -> l !! j = Some y ->
  exists q', swap q i j = Some q' /\ v_rep q' (swapped l i j x y).
Proof.
  intros Hq Hi Hj. apply lookup_lt_Some in Hi as Hi'. apply lookup_lt_Some in Hj as Hj'.
  unfold swap. rewrite !(v_rep_at q l) by done. rewrite Hi, Hj. simpl.
  eexists. split; [done|]. apply v_rep_set; [by apply v_rep_set|]. by rewrite length_insert.
Qed.

Lemma up_fuel_spec fuel q l k :
  v_rep q l -> k < length l -> k < fuel -> up_inv l k ->
  exists q' l', up_fuel fuel q k = Some q' /\ v_rep q' l' /\ l' ≡ₚ l /\ heap l'.
Proof.
  revert q l k. induction fuel as [|fuel IH]; intros q l k Hq Hk Hf Hinv; [lia|]. simpl.
  destruct (Nat.eqb_spec k 0) as [->|Hk0].
  { exists q, l. split_and!; try done. intros i Hi. apply Hinv; lia. }
  pose proof (parent_lt k ltac:(lia)) as Hpk.
  rewrite !(v_rep_at q l) by (done || lia).
  destruct (lookup_lt_is_Some_2 l k Hk) as [x Hx].
  destruct (lookup_lt_is_Some_2 l (parentIdx k) ltac:(lia)) as [p Hp].
  rewrite Hx, Hp. simpl. destruct (Z.ltb_spec (compare p x) 0).
  - destruct (swap_spec q l k (parentIdx k) x p) as (q' & -> & Hq'); try done. simpl.
    destruct (IH q' _ (parentIdx k) Hq') as (q'' & l'' & ? & ? & Hperm & ?).
    + unfold swapped. rewrite !length_insert. lia.
    + lia.
    + apply up_inv_swap; eauto. lia.
    + exists q'', l''. split_and!; try done. rewrite Hperm. by apply swap_permutation.
  - exists q, l. split_and!; try done. intros i. destruct (decide (i = k)) as [->|].
    + intros _ a b Ha Hb. simplify_eq. by apply cmp_ge, Z.le_ge.
    + by apply Hinv.
Qed.

Lemma bigger_spec q l cand cur :
  v_rep q l -> cur < length l ->
  exists b, bigger q cand cur = Some b /\ (b = cand \/ b = cur) /\ b < length l
    /\ ile l cand b /\ ile l cur b.
Proof.
  intros Hq Hcur. unfold bigger. rewrite (v_rep_size q l Hq).
  assert (Hrefl : forall i, ile l i i).
  { intros i x y Hx Hy. simplify_eq. apply ord_refl. }
  destruct (Nat.ltb_spec cand (length l)) as [Hlt|Hge].
  - rewrite !(v_rep_at q l) by done.
    destruct (lookup_lt_is_Some_2 l cand Hlt) as [c Hc].
    destruct (lookup_lt_is_Some_2 l cur Hcur) as [x Hx]. rewrite Hc, Hx. simpl.
    rewrite Z.gtb_ltb. destruct (Z.ltb_spec 0 (compare c x)).
    + exists cand. split_and!; eauto. intros ? ? ? ?. simplify_eq. apply cmp_ge. lia.
    + exists cur. split_and!; eauto. intros ? ? ? ?. simplify_eq. by apply cmp_le.
  - exists cur. split_and!; eauto. intros ? ? Hx. apply lookup_lt_Some in Hx. lia.
Qed.

Lemma down_fuel_spec fuel q l k :
  v_rep q l -> k < length l -> length l - k < fuel -> down_inv l k ->
  exists q' l', down_fuel fuel q k = Some q' /\ v_rep q' l' /\ l' ≡ₚ l /\ heap l'.
Proof.
  revert q l k. induction fuel as [|fuel IH]; intros q l k Hq Hk Hf Hinv; [lia|]. simpl.
  destruct (bigger_spec q l (leftIdx k) k Hq Hk) as (b1 & -> & Hb1 & Hlt1 & HL1 & HK1).
  simpl.
  destruct (bigger_spec q l (rightIdx k) b1 Hq Hlt1) as (b & -> & Hb & Hlt & HR & HB1).
  simpl. assert (Hb1s : is_Some (l !! b1)) by (by apply lookup_lt_is_Some_2).
  assert (HL : ile l (leftIdx k) b) by (by eapply ile_trans).
  assert (HK : ile l k b) by (by eapply ile_trans).
  assert (Hch : forall c, 0 < c -> parentIdx c = k -> ile l c b).
  { intros c Hc Hp. apply parent_cases in Hp as [-> | ->]; done. }
  destruct (Nat.eqb_spec b k) as [->|Hne].
  - exists q, l. split_and!; try done. intros i Hi.
    destruct (decide (parentIdx i = k)) as [Hp|]; [|by apply Hinv].
    rewrite Hp. by apply Hch.
  - destruct (lookup_lt_is_Some_2 l k Hk) as [x Hx].
    destruct (lookup_lt_is_Some_2 l b Hlt) as [y Hy].
    destruct (swap_spec q l k b x y) as (q' & -> & Hq'); try done. simpl.
    assert (Hb0 : 0 < b) by (unfold leftIdx, rightIdx in *; lia).
    assert (Hpb : parentIdx b = k).
    { apply parent_cases; [done|]. destruct Hb as [->| ->]; [by right|]. destruct Hb1; [by left|done]. }
    assert (Hyx : ord x y) by (by apply HK).
    assert (k < b) by (rewrite <- Hpb; by apply parent_lt).
    destruct (IH q' _ b Hq') as (q'' & l'' & ? & ? & Hperm & ?).
    + unfold swapped. by rewrite !length_insert.
    + unfold swapped. rewrite !length_insert. lia.
    + by apply down_inv_swap.
    + exists q'', l''. split_and!; try done. rewrite Hperm. by apply swap_permutation.
Qed.

Lemma heap_snoc l a : heap l -> up_inv (l ++ [a]) (length l).
Proof.
  intros Hh. split.
  - intros i Hi Hi0 x y Hx Hy.
    apply lookup_lt_Some in Hx as Hlt. rewrite length_app in Hlt; simpl in Hlt.
    pose proof (parent_lt i Hi0).
    rewrite lookup_app_l in Hx by lia. rewrite lookup_app_l in Hy by lia.
    by eapply (Hh i).
  - intros Hk c Hc Hp x y Hx _. apply lookup_lt_Some in Hx. rewrite length_app in Hx; simpl in Hx.
    pose proof (parent_lt c Hc). lia.
Qed.

Lemma pq_insert_spec q l a :
  pqrep q l -> exists q' l', insert q a = Some q' /\ pqrep q' l' /\ l' ≡ₚ a :: l.
Proof.
  intros [Hq Hh]. unfold insert, up.
  pose proof (v_rep_push q l a Hq) as Hp. rewrite (v_rep_size _ _ Hp).
  rewrite length_app. simpl. replace (length l + 1 - 1) with (length l) by lia.
  destruct (up_fuel_spec (S (length l)) _ _ (length l) Hp) as (q' & l' & Hup & ? & Hperm & ?).
  - rewrite length_app. simpl. lia.
  - lia.
  - by apply heap_snoc.
  - exists q', l'. split_and!; [done|split; done|]. rewrite Hperm, Permutation_app_comm. done.
Qed.

Lemma heap_top l i x y : heap l -> l !! 0 = Some y -> l !! i = Some x -> ord x y.
Proof.
  intros Hh Hy. revert x. induction (lt_wf i) as [i _ IH]. intros x Hx.
  destruct (decide (i = 0)) as [->|]; [simplify_eq; apply ord_refl|].
  pose proof (parent_lt i ltac:(lia)). apply lookup_lt_Some in Hx as ?.
  destruct (lookup_lt_is_Some_2 l (parentIdx i) ltac:(lia)) as [p Hp].
  eapply ord_trans; [eapply (Hh i); eauto; lia|]. eauto.
Qed.

(** Overwriting the root of a heap breaks the order only below the root. *)
Lemma heap_root_down l a : heap l -> down_inv (<[0 := a]> l) 0.
Proof.
  intros Hh. split; [|intros ?; lia].
  intros i Hi Hp _ x y. pose proof (parent_lt i Hi).
  rewrite !list_lookup_insert_ne by lia. by apply Hh.
Qed.

Lemma heap_removelast l a : heap (l ++ [a]) -> heap l.
Proof.
  intros Hh i Hi x y Hx Hy. eapply (Hh i); [done| |]; by apply lookup_app_l_Some.
Qed.

Lemma pq_pop_spec q t l :
  pqrep q (t :: l) ->
  exists q' l', pop q = Some (t, q') /\ pqrep q' l' /\ l' ≡ₚ l
    /\ Forall (fun x => ord x t) l.
Proof.
  intros [Hq Hh].
  assert (Hmax : Forall (fun x => ord x t) l).
  { apply Forall_lookup. intros i x Hx. by eapply (heap_top _ (S i)). }
  unfold pop, top, down. rewrite (v_rep_size _ _ Hq). simpl.
  rewrite !(v_rep_at q (t :: l)) by (done || simpl; lia). simpl. rewrite Nat.sub_0_r.
  destruct (exists_last (l := t :: l)) as (l0 & b & Hlast); [done|].
  assert (Hlen : length l = length l0).
  { apply (f_equal length) in Hlast. rewrite length_app in Hlast. simpl in Hlast. lia. }
  assert (Hb : (t :: l) !! length l = Some b).
  { rewrite Hlast, Hlen. by apply list_lookup_middle. }
  rewrite Hb. simpl.
  pose proof (v_rep_set q (t :: l) 0 b Hq ltac:(simpl; lia)) as Hset. rewrite Hlast in Hset.
  destruct l0 as [|t' l1]; simpl in *.
  - apply (v_rep_pop _ [] b) in Hset. destruct l; [|done].
    rewrite (v_rep_size _ _ Hset). simpl.
    unfold bigger. rewrite (v_rep_size _ _ Hset). simpl.
    eexists _, []. split_and!; try done.
  - injection Hlast as <- Hl. apply (v_rep_pop _ (b :: l1) b) in Hset.
    rewrite (v_rep_size _ _ Hset). simpl.
    destruct (down_fuel_spec (S (S (length l1))) _ _ 0 Hset) as (q' & l' & Hd & ? & Hperm & ?).
    + simpl; lia.
    + simpl; lia.
    + apply (heap_root_down (t :: l1)). rewrite Hl in Hh.
      by apply (heap_removelast (t :: l1) b).
    + simpl in Hd. rewrite Hd. simpl. eexists _, l'. split_and!; [done|split; done| |done].
      rewrite Hperm, Hl. by rewrite Permutation_app_comm.
Qed.

(** ** Permutation

    Whatever the comparison says, and even on an array that is not a heap, the
    operations terminate without a bad access and only permute the elements. *)

Lemma up_fuel_perm fuel q l k :
  v_rep q l -> k < length l -> k < fuel ->
  exists q' l', up_fuel fuel q k = Some q' /\ v_rep q' l' /\ l' ≡ₚ l.
Proof.
  revert q l k. induction fuel as [|fuel IH]; intros q l k Hq Hk Hf; [lia|]. simpl.
  destruct (Nat.eqb_spec k 0) as [->|Hk0]; [by exists q, l|].
  pose proof (parent_lt k ltac:(lia)) as Hpk.
  rewrite !(v_rep_at q l) by (done || lia).
  destruct (lookup_lt_is_Some_2 l k Hk) as [x Hx].
  destruct (lookup_lt_is_Some_2 l (parentIdx k) ltac:(lia)) as [p Hp].
  rewrite Hx, Hp. simpl. destruct (compare p x <? 0)%Z; [|by exists q, l].
  destruct (swap_spec q l k (parentIdx k) x p) as (q' & -> & Hq'); try done. simpl.
  destruct (IH q' _ (parentIdx k) Hq') as (q'' & l'' & ? & ? & Hperm).
  - unfold swapped. rewrite !length_insert. lia.
  - lia.
  - exists q'', l''. split_and!; try done. rewrite Hperm. by apply swap_permutation.
Qed.

Lemma insert_perm q l a :
  v_rep q l -> exists q' l', insert q a = Some q' /\ v_rep q' l' /\ l' ≡ₚ a :: l.
Proof.
  intros Hq. unfold insert, up.
  pose proof (v_rep_push q l a Hq) as Hp. rewrite (v_rep_size _ _ Hp).
  rewrite length_app. simpl. replace (length l + 1 - 1) with (length l) by lia.
  destruct (up_fuel_perm (S (length l)) _ _ (length l) Hp) as (q' & l' & Hup & ? & Hperm);
    [rewrite length_app; simpl; lia|lia|].
  exists q', l'. split_and!; [done|done|]. rewrite Hperm, Permutation_app_comm. done.
Qed.

Lemma bigger_ok q l cand cur :
  v_rep q l -> cur < length l ->
  exists b, bigger q cand cur = Some b /\ (b = cand \/ b = cur) /\ b < length l.
Proof.
  intros Hq Hcur. unfold bigger. rewrite (v_rep_size q l Hq).
  destruct (Nat.ltb_spec cand (length l)) as [Hlt|Hge]; [|eauto].
  rewrite !(v_rep_at q l) by done.
  destruct (lookup_lt_is_Some_2 l cand Hlt) as [c ->].
  destruct (lookup_lt_is_Some_2 l cur Hcur) as [x ->]. simpl.
  destruct (compare c x >? 0)%Z; eauto.
Qed.

Lemma down_fuel_perm fuel q l k :
  v_rep q l -> k < length l -> length l - k < fuel ->
  exists q' l', down_fuel fuel q k = Some q' /\ v_rep q' l' /\ l' ≡ₚ l.
Proof.
  revert q l k. induction fuel as [|fuel IH]; intros q l k Hq Hk Hf; [lia|]. simpl.
  destruct (bigger_ok q l (leftIdx k) k Hq Hk) as (b1 & -> & Hb1 & Hlt1). simpl.
  destruct (bigger_ok q l (rightIdx k) b1 Hq Hlt1) as (b & -> & Hb & Hlt). simpl.
  destruct (Nat.eqb_spec b k) as [->|Hne]; [by exists q, l|].
  destruct (lookup_lt_is_Some_2 l k Hk) as [x Hx].
  destruct (lookup_lt_is_Some_2 l b Hlt) as [y Hy].
  destruct (swap_spec q l k b x y) as (q' & -> & Hq'); try done. simpl.
  assert (k < b) by (unfold leftIdx, rightIdx in *; lia).
  destruct (IH q' _ b Hq') as (q'' & l'' & ? & ? & Hperm).
  - unfold swapped. by rewrite !length_insert.
  - unfold swapped. rewrite !length_insert. lia.
  - exists q'', l''. split_and!; try done. rewrite Hperm. by apply swap_permutation.
Qed.

Lemma pop_perm q t l :
  v_rep q (t :: l) -> exists q' l', pop q = Some (t, q') /\ v_rep q' l' /\ l' ≡ₚ l.
Proof.
  intros Hq. unfold pop, top, down. rewrite (v_rep_size _ _ Hq). simpl.
  rewrite !(v_rep_at q (t :: l)) by (done || simpl; lia). simpl. rewrite Nat.sub_0_r.
  destruct (exists_last (l := t :: l)) as (l0 & b & Hlast); [done|].
  assert (Hlen : length l = length l0).
  { apply (f_equal length) in Hlast. rewrite length_app in Hlast. simpl in Hlast. lia. }
  assert (Hb : (t :: l) !! length l = Some b).
  { rewrite Hlast, Hlen. by apply list_lookup_middle. }
  rewrite Hb. simpl.
  pose proof (v_rep_set q (t :: l) 0 b Hq ltac:(simpl; lia)) as Hset. rewrite Hlast in Hset.
  destruct l0 as [|t' l1]; simpl in *.
  - apply (v_rep_pop _ [] b) in Hset. destruct l; [|done].
    rewrite (v_rep_size _ _ Hset). simpl.
    unfold bigger. rewrite (v_rep_size _ _ Hset). simpl. eexists _, []. by split_and!.
  - injection Hlast as <- Hl. apply (v_rep_pop _ (b :: l1) b) in Hset.
    rewrite (v_rep_size _ _ Hset). simpl.
    destruct (down_fuel_perm (S (S (length l1))) _ _ 0 Hset) as (q' & l' & Hd & ? & Hperm);
      [simpl; lia|simpl; lia|].
    simpl in Hd. rewrite Hd. simpl. eexists _, l'. split_and!; [done|done|].
    rewrite Hperm, Hl. by rewrite Permutation_app_comm.
Qed.

(** ** Whole runs of the queue *)

Fixpoint insert_all q l : option (V A) :=
  match l with
  | [] => Some q
  | a :: l => q' ← insert q a; insert_all q' l
  end.

Fixpoint drain (n : nat) q : option (list A) :=
  match n with
  | O => Some []
  | S n => '(t, q') ← pop q; out ← drain n q'; Some (t :: out)
  end.

Lemma insert_all_spec q l0 l :
  pqrep q l0 -> exists q' l', insert_all q l = Some q' /\ pqrep q' l' /\ l' ≡ₚ l ++ l0.
Proof.
  revert q l0. induction l as [|a l IH]; intros q l0 Hq; simpl.
  { exists q, l0. by split_and!. }
  destruct (pq_insert_spec q l0 a Hq) as (q1 & l1 & -> & Hq1 & Hp1). simpl.
  destruct (IH q1 l1 Hq1) as (q2 & l2 & -> & Hq2 & Hp2).
  exists q2, l2. split_and!; try done. rewrite Hp2, Hp1. by rewrite Permutation_middle.
Qed.

Lemma drain_spec q l :
  pqrep q l ->
  exists out, drain (length l) q = Some out /\ out ≡ₚ l
    /\ StronglySorted (fun a b => ord b a) out.
Proof.
  remember (length l) as n eqn:Hn. revert q l Hn.
  induction n as [|n IH]; intros q [|t l] Hn Hq; try done; simpl.
  { exists []. split_and!; [done|done|constructor]. }
  destruct (pq_pop_spec q t l Hq) as (q' & l' & -> & Hq' & Hp & Hmax). simpl.
  destruct (IH q' l') as (out & -> & Hout & Hs); [|done|].
  { rewrite Hp. simpl in Hn. congruence. }
  simpl. exists (t :: out). split_and!; [done|by rewrite Hout, Hp|].
  constructor; [done|]. by rewrite Hout, Hp.
Qed.

End Heap.
End PQueue.

Module DynQueue.

Section Queue.
Context {V : Type -> Type} `{!VectorOps V}.
Context {T : Type}.
Implicit Types (q : V T) (l : list T).

Definition empty q : bool := v_size q =? 0.
Definition size q : nat := v_size q.
Definition push q (t : T) : V T := v_push_back q t.

(** [front()] then [erase(begin())]; on an empty queue the read is undefined. *)
Definition pop q : option (T * V T) :=
  ret ← v_at q 0; Some (ret, v_erase_at q 0).

Definition peek q : option T := v_at q 0.

Definition remove_if q (p : T -> bool) : option (V T) := v_eraseAll_if q p.
Definition remove `{EqDecision T} q (t : T) : option (V T) :=
  remove_if q (fun x => bool_decide (x = t)).

(** [while (!empty()) { auto thingy = pop(); if (!f(thingy)) break; }] *)
Fixpoint foreach_fuel {S} (fuel : nat) (f : S -> T -> S * bool) (s : S) q
    : option (S * V T) :=
  match fuel with
  | O => None
  | S fuel =>
      if empty q then Some (s, q)
      else '(thingy, q') ← pop q;
           let '(s', go) := f s thingy in
           if go then foreach_fuel fuel f s' q' else Some (s', q')
  end.

Definition foreach {S} (f : S -> T -> S * bool) (s : S) q : option (S * V T) :=
  foreach_fuel (Datatypes.S (size q)) f s q.

Context `{!VectorLaws V}.

Lemma dynqueue_pop_spec q x l : v_rep q (x :: l) ->
  exists q', pop q = Some (x, q') /\ v_rep q' l.
Proof.
  intros Hq. unfold pop. rewrite (v_rep_at q (x :: l)) by (done || simpl; lia). simpl.
  eexists. split; [done|]. by apply (v_rep_erase q [] x l).
Qed.

Lemma dynqueue_empty_spec q l : v_rep q l -> empty q = bool_decide (l = []).
Proof. intros Hq. unfold empty. rewrite (v_rep_size q l Hq). by destruct l. Qed.

(** What [foreach] leaves behind: the elements after the one that stopped it. *)
Fixpoint foreach_rest {S} (f : S -> T -> S * bool) (s : S) l : S * list T :=
  match l with
  | [] => (s, [])
  | x :: l => let '(s', go) := f s x in if go then foreach_rest f s' l else (s', l)
  end.

Lemma foreach_fuel_spec {S} (f : S -> T -> S * bool) fuel s q l :
  v_rep q l -> length l < fuel ->
  exists q', foreach_fuel fuel f s q = Some ((foreach_rest f s l).1, q')
    /\ v_rep q' (foreach_rest f s l).2.
Proof.
  revert s q l. induction fuel as [|fuel IH]; intros s q l Hq Hf; [lia|]. simpl.
  rewrite (dynqueue_empty_spec q l Hq). destruct l as [|x l]; simpl; [eauto|].
  destruct (dynqueue_pop_spec q x l Hq) as (q' & -> & Hq'). simpl.
  destruct (f s x) as [s' []]; [|by eauto].
  apply IH; [done|]. simpl in Hf. lia.
Qed.

End Queue.
End DynQueue.
