(* ===== verification/Containers.v ===== *)
(** * Fixed-size containers of the kernel library
    (kernel/include/libc/ringbuffer.h, queue.h, fixstack.h)

    [RingBuffer] keeps the last [mSize] items written to it (the kernel log);
    [Queue] is the single-reader ring of [N] cells that holds up to [N - 1]
    items (the keyboard); [FixStack] is the bounded stack. *)

From stdpp Require Import base numbers list option.
From Stdlib Require Import Lia Arith.
From S2P Require Import Prelude.

Local Open Scope nat_scope.

(** ** Index arithmetic modulo the size *)

Lemma mod_add_cases a b n : a < n -> b < n ->
  (a + b) mod n = if decide (a + b < n) then a + b else a + b - n.
Proof.
  intros Ha Hb. case_decide as H; [by apply Nat.mod_small|].
  replace (a + b) with (a + b - n + 1 * n) at 1 by lia.
  rewrite Nat.Div0.mod_add. apply Nat.mod_small. lia.
Qed.

Lemma mod_succ_cases a n : 0 < n ->
  S a mod n = if decide (S (a mod n) = n) then 0 else S (a mod n).
Proof.
  intros Hn. pose proof (Nat.mod_upper_bound a n ltac:(lia)).
  rewrite <- Nat.add_1_r, <- (Nat.Div0.add_mod_idemp_l a 1 n), Nat.add_1_r.
  case_decide as He; [rewrite He; apply Nat.Div0.mod_same|apply Nat.mod_small; lia].
Qed.

Lemma mod_window_inj i j n : 0 < n -> i mod n = j mod n -> i <= j < i + n -> i = j.
Proof.
  intros Hn Hm Hij. pose proof (Nat.div_mod_eq i n). pose proof (Nat.div_mod_eq j n).
  assert (n * (j / n) - n * (i / n) = j - i) by lia.
  assert (j / n = i / n \/ i / n < j / n) as [He|Hlt] by nia; [rewrite He in *; lia|]. nia.
Qed.

Module RingBuffer.

Record ringbuffer (T : Type) := mkRB {
  mBuffer : list T;
  mSize : nat;
  mPosition : nat;
  mCurrentSize : nat;
  mFirstIndex : nat;
  mWrapped : bool;
}.
Arguments mkRB {T} _ _ _ _ _ _.
Arguments mBuffer {T} _.
Arguments mSize {T} _.
Arguments mPosition {T} _.
Arguments mCurrentSize {T} _.
Arguments mFirstIndex {T} _.
Arguments mWrapped {T} _.

Section Ring.
Context {T : Type}.
Implicit Types rb : ringbuffer T.

(** The constructor over a caller's buffer; the owning one passes [calloc]ed cells. *)
Definition new_over (buf : list T) (sz : nat) : ringbuffer T := mkRB buf sz 0 0 0 false.
Definition new (zero : T) (sz : nat) : ringbuffer T := new_over (replicate sz zero) sz.

Definition putchar rb (c : T) : ringbuffer T :=
  let wrapping := mPosition rb =? mSize rb in
  let pos := if wrapping then 0 else mPosition rb in
  let wrapped := if wrapping then true else mWrapped rb in
  let first := if wrapped then (mFirstIndex rb + 1) mod mSize rb else mFirstIndex rb in
  mkRB (<[pos := c]> (mBuffer rb)) (mSize rb) (S pos)
       (if mCurrentSize rb <? mSize rb then S (mCurrentSize rb) else mCurrentSize rb)
       first wrapped.

Definition getchar rb (idx : nat) : option T :=
  if mCurrentSize rb <=? idx then None
  else mBuffer rb !! ((idx + mFirstIndex rb) mod mSize rb).

(** [strlen] of the memory the caller passes: [None] when no terminator is found. *)
Fixpoint strlen `{EqDecision T} (zero : T) (s : list T) : option nat :=
  match s with
  | [] => None
  | c :: s => if decide (c = zero) then Some 0 else S <$> strlen zero s
  end.

Definition write_items rb (s : list T) : ringbuffer T := foldl putchar rb s.

(** [write(s, n)]: a count of zero asks for the length of a C string. *)
Definition write `{EqDecision T} (zero : T) rb (s : list T) (n : nat) : option (ringbuffer T) :=
  n ← (if n =? 0 then strlen zero s else Some n);
  if n <=? length s then Some (write_items rb (take n s)) else None.

Fixpoint read_from rb (i k : nat) : list T :=
  match k with
  | O => []
  | S k => match getchar rb i with
           | None => []
           | Some c => c :: read_from rb (S i) k
           end
  end.

Definition read rb (n : nat) : list T :=
  read_from rb 0 (if mCurrentSize rb <=? n then mCurrentSize rb else n).

Definition size rb : nat := mCurrentSize rb.

(** Copying constructor: the contents of [src] written into a new buffer. *)
Definition new_from `{EqDecision T} (zero : T) (sz : nat) (src : ringbuffer T) : option (ringbuffer T) :=
  let old_sz := size src in
  write zero (new zero sz) (read src old_sz) old_sz.

(** ** The last [mSize] items of the history *)

Definition window (n : nat) (h : list T) : list T := drop (length h - n) h.

Record ring_ok rb (h : list T) : Prop := {
  ok_size : 0 < mSize rb;
  ok_buf : length (mBuffer rb) = mSize rb;
  ok_cur : mCurrentSize rb = length h `min` mSize rb;
  ok_first : mFirstIndex rb = if decide (length h <= mSize rb) then 0 else length h mod mSize rb;
  ok_pos : mPosition rb = if decide (length h = 0) then 0 else S ((length h - 1) mod mSize rb);
  ok_wrapped : mWrapped rb = bool_decide (mSize rb < length h);
  ok_cells : forall i, length h - mSize rb <= i < length h ->
    mBuffer rb !! (i mod mSize rb) = h !! i;
}.

Lemma ring_ok_new zero sz : 0 < sz -> ring_ok (new zero sz) [].
Proof.
  intros Hsz. split; simpl; try done.
  - apply length_replicate.
  - intros. lia.
Qed.

(** The cell [putchar] writes, and the wrap test, in terms of the history. *)
Lemma ring_position rb h : ring_ok rb h ->
  (if mPosition rb =? mSize rb then 0 else mPosition rb) = length h mod mSize rb
  /\ (if mPosition rb =? mSize rb then true else mWrapped rb) = bool_decide (mSize rb <= length h).
Proof.
  intros [Hsz _ _ _ Hpos Hwr _]. rewrite Hpos, Hwr. clear Hpos Hwr. set (n := mSize rb) in *.
  destruct (length h) as [|k].
  { rewrite decide_True, Nat.Div0.mod_0_l by done. destruct (Nat.eqb_spec 0 n); [lia|].
    split; [done|]. apply bool_decide_ext. lia. }
  rewrite decide_False by done. replace (S k - 1) with k by lia.
  rewrite (mod_succ_cases k n Hsz).
  pose proof (Nat.mod_upper_bound k n ltac:(lia)). pose proof (Nat.Div0.mod_le k n).
  destruct (Nat.eqb_spec (S (k mod n)) n); case_decide; try lia.
  - split; [done|]. symmetry. apply bool_decide_eq_true. lia.
  - split; [done|]. apply bool_decide_ext. split; [lia|].
    intros Hle. destruct (decide (n = S k)) as [->|]; [|lia].
    rewrite Nat.mod_small in *; lia.
Qed.

Lemma putchar_ok rb h c : ring_ok rb h -> ring_ok (putchar rb c) (h ++ [c]).
Proof.
  intros Hok. destruct (ring_position rb h Hok) as [Hp Hw].
  destruct Hok as [Hsz Hbuf Hcur Hfirst Hpos Hwr Hcells].
  unfold putchar. rewrite Hp, Hw.
  split; simpl; rewrite ?length_app; simpl; rewrite ?Nat.add_1_r.
  - done.
  - by rewrite length_insert.
  - rewrite Hcur. destruct (Nat.ltb_spec (length h `min` mSize rb) (mSize rb)); lia.
  - rewrite Hfirst. case_bool_decide; repeat case_decide; try lia.
    + replace (S (length h)) with (1 + 1 * mSize rb) by lia. by rewrite Nat.Div0.mod_add.
    + by rewrite <- Nat.add_1_r, Nat.Div0.add_mod_idemp_l, Nat.add_1_r.
  - rewrite decide_False by done. do 2 f_equal. lia.
  - apply bool_decide_ext. lia.
  - intros i Hi. pose proof (Nat.mod_upper_bound (length h) (mSize rb) ltac:(lia)).
    destruct (decide (i = length h)) as [->|Hne].
    + rewrite list_lookup_insert_eq by lia. by rewrite list_lookup_middle.
    + rewrite lookup_app_l by lia. rewrite list_lookup_insert_ne.
      * apply Hcells. lia.
      * intros Heq. apply Hne. symmetry in Heq. apply (mod_window_inj i (length h)) in Heq; lia.
Qed.

Lemma write_items_ok rb h s : ring_ok rb h -> ring_ok (write_items rb s) (h ++ s).
Proof.
  revert rb h. induction s as [|c s IH]; intros rb h Hok; simpl; [by rewrite app_nil_r|].
  apply putchar_ok with (c := c) in Hok. apply IH in Hok. by rewrite <- app_assoc in Hok.
Qed.

Lemma getchar_ok rb h idx :
  ring_ok rb h -> getchar rb idx = window (mSize rb) h !! idx.
Proof.
  intros [Hsz Hbuf Hcur Hfirst _ _ Hcells]. unfold getchar, window.
  destruct (Nat.leb_spec (mCurrentSize rb) idx) as [Hle|Hlt].
  { symmetry. apply lookup_ge_None. rewrite length_drop. lia. }
  rewrite lookup_drop, <- Hcells by lia. f_equal. rewrite Hfirst. case_decide.
  - f_equal. lia.
  - rewrite Nat.Div0.add_mod_idemp_r.
    replace (idx + length h) with (length h - mSize rb + idx + 1 * mSize rb) by lia.
    apply Nat.Div0.mod_add.
Qed.

Lemma read_from_ok rb h k i :
  ring_ok rb h -> read_from rb i k = take k (drop i (window (mSize rb) h)).
Proof.
  intros Hok. revert i. induction k as [|k IH]; intros i; simpl; [done|].
  rewrite (getchar_ok rb h) by done.
  destruct (window (mSize rb) h !! i) as [c|] eqn:Hc.
  - rewrite IH. by rewrite (drop_S _ c i).
  - apply lookup_ge_None in Hc. by rewrite drop_ge.
Qed.

Lemma length_window n h : length (window n h) = length h `min` n.
Proof. unfold window. rewrite length_drop. lia. Qed.

Lemma read_ok rb h n : ring_ok rb h -> read rb n = take n (window (mSize rb) h).
Proof.
  intros Hok. unfold read. rewrite (read_from_ok _ h), drop_0 by done.
  destruct (Nat.leb_spec (mCurrentSize rb) n); [|done].
  rewrite !take_ge; [done| |]; rewrite length_window, <- (ok_cur _ _ Hok); lia.
Qed.

End Ring.
End RingBuffer.

Module Queue.

Definition incr (n max wrap : nat) : nat := if S n =? max then wrap else S n.

Record queue (T : Type) := mkQ { mItems : list T; mReadIdx : nat; mWriteIdx : nat }.
Arguments mkQ {T} _ _ _.
Arguments mItems {T} _.
Arguments mReadIdx {T} _.
Arguments mWriteIdx {T} _.

Section Queue.
Context {T : Type} (N : nat).
Implicit Types q : queue T.

Definition new (zero : T) : queue T := mkQ (replicate N zero) 0 0.
Definition empty q : bool := mReadIdx q =? mWriteIdx q.
Definition full q : bool := incr (mWriteIdx q) N 0 =? mReadIdx q.
Definition write q (thing : T) : queue T :=
  mkQ (<[mWriteIdx q := thing]> (mItems q)) (mReadIdx q) (incr (mWriteIdx q) N 0).
Definition read q : option (T * queue T) :=
  t ← mItems q !! mReadIdx q;
  Some (t, mkQ (mItems q) (incr (mReadIdx q) N 0) (mWriteIdx q)).

Record qrep q (l : list T) : Prop := {
  q_len : length (mItems q) = N;
  q_room : length l < N;
  q_read : mReadIdx q < N;
  q_write : mWriteIdx q = (mReadIdx q + length l) mod N;
  q_cells : forall j, j < length l -> mItems q !! ((mReadIdx q + j) mod N) = l !! j;
}.

Lemma incr_mod n : n < N -> incr n N 0 = S n mod N.
Proof.
  intros Hn. unfold incr. destruct (Nat.eqb_spec (S n) N) as [->|].
  - by rewrite Nat.Div0.mod_same.
  - rewrite Nat.mod_small; lia.
Qed.

Lemma qrep_new zero : 0 < N -> qrep (new zero) [].
Proof.
  intros HN. split; simpl; try lia.
  - apply length_replicate.
  - by rewrite Nat.Div0.mod_0_l.
Qed.

Lemma write_idx_lt q l : qrep q l -> mWriteIdx q < N.
Proof. intros [_ ? _ -> _]. apply Nat.mod_upper_bound. lia. Qed.

Lemma queue_empty_spec q l : qrep q l -> empty q = bool_decide (l = []).
Proof.
  intros [_ Hroom Hr Hw _]. unfold empty. rewrite Hw. destruct (decide (l = [])) as [->|Hne].
  - rewrite bool_decide_eq_true_2 by done. apply Nat.eqb_eq. simpl.
    rewrite Nat.add_0_r. by rewrite Nat.mod_small.
  - rewrite bool_decide_eq_false_2 by done. apply Nat.eqb_neq. rewrite mod_add_cases by done.
    assert (0 < length l) by (destruct l; simpl; [done|lia]). case_decide; lia.
Qed.

Lemma incr_write q l : qrep q l -> incr (mWriteIdx q) N 0 = (mReadIdx q + S (length l)) mod N.
Proof.
  intros Hq. pose proof (write_idx_lt q l Hq). destruct Hq as [_ Hroom Hr Hw _].
  rewrite incr_mod by done. rewrite Hw, <- Nat.add_1_r, Nat.Div0.add_mod_idemp_l. f_equal. lia.
Qed.

Lemma full_spec q l : qrep q l -> full q = bool_decide (S (length l) = N).
Proof.
  intros Hq. unfold full. rewrite (incr_write q l Hq). destruct Hq as [_ Hroom Hr _ _].
  destruct (decide (S (length l) = N)) as [He|Hne].
  - rewrite He, bool_decide_eq_true_2 by done. apply Nat.eqb_eq.
    replace (mReadIdx q + N) with (mReadIdx q + 1 * N) by lia.
    rewrite Nat.Div0.mod_add. by apply Nat.mod_small.
  - rewrite bool_decide_eq_false_2 by done. apply Nat.eqb_neq.
    rewrite mod_add_cases by lia. case_decide; lia.
Qed.

Lemma queue_write_spec q l x : qrep q l -> S (length l) < N -> qrep (write q x) (l ++ [x]).
Proof.
  intros Hq Hl. pose proof (write_idx_lt q l Hq). pose proof (incr_write q l Hq) as Hinc.
  destruct Hq as [Hlen Hroom Hr Hw Hcells].
  split; simpl; rewrite ?length_app, ?length_insert; simpl; try lia.
  - rewrite Hinc. f_equal. lia.
  - intros j Hj. destruct (decide (j = length l)) as [->|].
    + rewrite <- Hw, list_lookup_insert_eq by lia. by rewrite list_lookup_middle.
    + rewrite lookup_app_l, list_lookup_insert_ne by
        (first [lia | rewrite Hw, !mod_add_cases by lia; repeat case_decide; lia]).
      apply Hcells. lia.
Qed.

Lemma queue_read_spec q x l : qrep q (x :: l) -> exists q', read q = Some (x, q') /\ qrep q' l.
Proof.
  intros [Hlen Hroom Hr Hw Hcells]. simpl in *.
  pose proof (Hcells 0 ltac:(lia)) as H0. rewrite Nat.add_0_r, Nat.mod_small in H0 by done.
  unfold read. rewrite H0. simpl. eexists. split; [done|].
  split; simpl; try done; try lia.
  - rewrite incr_mod by done. apply Nat.mod_upper_bound. lia.
  - rewrite Hw, incr_mod, Nat.Div0.add_mod_idemp_l by done. f_equal. lia.
  - intros j Hj. rewrite incr_mod, Nat.Div0.add_mod_idemp_l by done.
    change (l !! j) with ((x :: l) !! S j). rewrite <- (Hcells (S j)) by lia. do 2 f_equal. lia.
Qed.

End Queue.
End Queue.

Module FixStack.

Record fixstack (T : Type) := mkFS { mItems : list (option T); mLen : nat }.
Arguments mkFS {T} _ _.
Arguments mItems {T} _.
Arguments mLen {T} _.

Section Stack.
Context {T : Type} (N : nat).
Implicit Types s : fixstack T.

Definition new : fixstack T := mkFS (replicate N None) 0.
Definition push s (item : T) : fixstack T := mkFS (<[mLen s := Some item]> (mItems s)) (S (mLen s)).
Definition pop s : option (T * fixstack T) :=
  match mLen s with
  | O => None
  | S n => t ← mjoin (mItems s !! n); Some (t, mkFS (mItems s) n)
  end.
Definition to_bool s : bool := (0 <? mLen s) && (mLen s <? N).
Definition empty s : bool := mLen s =? 0.
Definition full s : bool := mLen s =? N - 1.
Definition len s : nat := mLen s.
Definition peek s : option T := mjoin (mItems s !! (mLen s - 1)).

(** The stack with its top first. *)
Definition srep s (l : list T) : Prop :=
  length (mItems s) = N /\ mLen s = length l
  /\ forall i x, reverse l !! i = Some x -> mItems s !! i = Some (Some x).

Lemma push_spec s l x : srep s l -> length l < N -> srep (push s x) (x :: l).
Proof.
  intros (Hlen & Hs & Hc) Hl. split_and!; simpl; [by rewrite length_insert|lia|].
  intros i y. rewrite reverse_cons. intros Hy.
  apply lookup_app_Some in Hy as [Hy|[Hge Hy]].
  - apply lookup_lt_Some in Hy as Hlt. rewrite length_reverse in Hlt.
    rewrite list_lookup_insert_ne by lia. by apply Hc.
  - rewrite length_reverse in *. destruct (i - length l) eqn:E; [|done]. simplify_eq/=.
    replace i with (mLen s) by lia. apply list_lookup_insert_eq. lia.
Qed.

Lemma stack_pop_spec s l x : srep s (x :: l) -> exists s', pop s = Some (x, s') /\ srep s' l.
Proof.
  intros (Hlen & Hs & Hc). unfold pop. rewrite Hs. simpl.
  rewrite (Hc (length l) x).
  - simpl. eexists. split; [done|]. split_and!; try done. simpl. intros i y Hy.
    apply Hc. rewrite reverse_cons. by apply lookup_app_l_Some.
  - rewrite reverse_cons. apply list_lookup_middle. by rewrite length_reverse.
Qed.

End Stack.
End FixStack.
