(* ===== verification/SList.v ===== *)
(** * The singly linked list [slist<T>] (kernel/include/libc/slist.h)

    The model keeps the nodes in an explicit heap: [heap] maps addresses to
    nodes, [head] and [tail] are the pointers of the class, [brk] is the next
    address [new] returns.  Every access through a pointer is checked, so an
    operation that follows a null or freed pointer gives [None].  [lrep s l]
    says that the nodes reachable from [head] hold [l]; the lemmas show that
    each operation is defined on a represented list and acts on [l] as the
    corresponding list function.  Sizes are [nat]: a list never holds more nodes
    than the 32-bit address space. *)

From stdpp Require Import base numbers list gmap option.
From Stdlib Require Import Lia.
From S2P Require Import Prelude.

Local Open Scope nat_scope.

Module SList.

Abbreviation loc := nat (only parsing).

Record node (T : Type) := mkNode { item : T; next : option loc }.
Arguments mkNode {T} _ _.
Arguments item {T} _.
Arguments next {T} _.

Record slist (T : Type) := mkSList {
  heap : gmap loc (node T);
  brk : loc;
  size : nat;
  head : option loc;
  tail : option loc;
}.
Arguments mkSList {T} _ _ _ _ _.
Arguments heap {T} _.
Arguments brk {T} _.
Arguments size {T} _.
Arguments head {T} _.
Arguments tail {T} _.

Section Operations.
Context {T : Type}.
Implicit Types (s : slist T) (h : gmap loc (node T)) (l : list T).

Definition new : slist T := mkSList ∅ 0 0 None None.
Definition empty s : bool := size s =? 0.
Definition count s : nat := size s.

(** [new node{x, nx}] at a fresh address, then the pointer updates. *)
Definition add_head s (x : T) : slist T :=
  let a := brk s in
  match head s with
  | None => mkSList (<[a := mkNode x None]> (heap s)) (S a) (S (size s)) (Some a) (Some a)
  | Some hd => mkSList (<[a := mkNode x (Some hd)]> (heap s)) (S a) (S (size s)) (Some a) (tail s)
  end.

Definition add s (x : T) : option (slist T) :=
  let a := brk s in
  match head s with
  | None => Some (mkSList (<[a := mkNode x None]> (heap s)) (S a) (S (size s)) (Some a) (Some a))
  | Some hd =>
      t ← tail s; n ← heap s !! t;
      Some (mkSList (<[t := mkNode (item n) (Some a)]> (<[a := mkNode x None]> (heap s)))
                    (S a) (S (size s)) (Some hd) (Some a))
  end.

(** Iterators are node pointers; [end()] reads [tail->next]. *)
Definition begin s : option loc := head s.
Definition end_ s : option (option loc) :=
  if empty s then Some (begin s) else t ← tail s; n ← heap s !! t; Some (next n).
Definition deref s (i : option loc) : option T := a ← i; n ← heap s !! a; Some (item n).
Definition advance s (i : option loc) : option (option loc) :=
  a ← i; n ← heap s !! a; Some (next n).

(** [begin()] incremented [k] times. *)
Fixpoint iter_nth s (k : nat) : option (option loc) :=
  match k with
  | O => Some (begin s)
  | S k => i ← iter_nth s k; advance s i
  end.

(** [while (head) { m = head->next; delete head; head = m; }] *)
Fixpoint clear_loop (fuel : nat) h (hd : option loc) : option (gmap loc (node T)) :=
  match hd with
  | None => Some h
  | Some a =>
      match fuel with
      | O => None
      | S fuel => n ← h !! a; clear_loop fuel (delete a h) (next n)
      end
  end.

Definition clear s : option (slist T) :=
  h ← clear_loop (size s) (heap s) (head s); Some (mkSList h (brk s) 0 None None).

Definition insert_at s (i : option loc) (x : T) : option (slist T) :=
  match i with
  | Some n =>
      nd ← heap s !! n;
      let a := brk s in
      let h := <[n := mkNode x (Some a)]> (<[a := mkNode (item nd) (next nd)]> (heap s)) in
      Some (mkSList h (S a) (S (size s)) (head s)
                    (if bool_decide (tail s = Some n) then Some a else tail s))
  | None => add s x
  end.

(** [for (; n->next != cur; n = n->next);] *)
Fixpoint find_prev (fuel : nat) h (n cur : loc) : option loc :=
  match fuel with
  | O => None
  | S fuel =>
      nd ← h !! n;
      if bool_decide (next nd = Some cur) then Some n
      else m ← next nd; find_prev fuel h m cur
  end.

Definition remove_at s (i : option loc) : option (slist T) :=
  match i with
  | None => Some s
  | Some cur =>
      if bool_decide (head s = Some cur) then
        nd ← heap s !! cur;
        Some (mkSList (heap s) (brk s) (size s - 1) (next nd) (tail s))
      else
        hd ← head s;
        n ← find_prev (size s) (heap s) hd cur;
        nd ← heap s !! n;
        if bool_decide (tail s = Some cur) then
          Some (mkSList (delete cur (<[n := mkNode (item nd) None]> (heap s)))
                        (brk s) (size s - 1) (head s) (Some n))
        else
          nn ← heap s !! cur;
          Some (mkSList (delete cur (<[n := mkNode (item nd) (next nn)]> (heap s)))
                        (brk s) (size s - 1) (head s) (tail s))
  end.

(** The search of [remove(const T&)]: from [b] until [e]. *)
Fixpoint find_item (fuel : nat) s (p : T -> bool) (b e : option loc) : option (option loc) :=
  if bool_decide (b = e) then Some None
  else
    match fuel with
    | O => None
    | S fuel =>
        x ← deref s b;
        if p x then Some b else b' ← advance s b; find_item fuel s p b' e
    end.

Definition remove_if s (p : T -> bool) : option (slist T * bool) :=
  e ← end_ s;
  f ← find_item (size s) s p (begin s) e;
  match f with
  | None => Some (s, false)
  | Some a => s' ← remove_at s (Some a); Some (s', true)
  end.

Definition remove `{EqDecision T} s (x : T) : option (slist T * bool) :=
  remove_if s (fun y => bool_decide (y = x)).

Fixpoint removeAll_fuel (fuel : nat) s (p : T -> bool) : option (slist T) :=
  match fuel with
  | O => None
  | S fuel =>
      match remove_if s p with
      | Some (s', again) => if again then removeAll_fuel fuel s' p else Some s'
      | None => None
      end
  end.

Definition removeAll `{EqDecision T} s (x : T) : option (slist T) :=
  removeAll_fuel (S (size s)) s (fun y => bool_decide (y = x)).

Definition top s : option T := deref s (head s).
Definition back s : option T := deref s (tail s).

Definition pop s : option (T * slist T) :=
  a ← head s; n ← heap s !! a;
  Some (item n, mkSList (delete a (heap s)) (brk s) (size s - 1) (next n) (tail s)).

(** [foreach]: the items from [begin()] to [end()], while the callback agrees. *)
Fixpoint foreach_loop {S} (fuel : nat) (f : S -> T -> S * bool) (st : S) s (b e : option loc)
    : option S :=
  if bool_decide (b = e) then Some st
  else
    match fuel with
    | O => None
    | Datatypes.S fuel =>
        x ← deref s b;
        let '(st', go) := f st x in
        if go then b' ← advance s b; foreach_loop fuel f st' s b' e else Some st'
    end.

Definition foreach {S} (f : S -> T -> S * bool) (st : S) s : option S :=
  e ← end_ s; foreach_loop (size s) f st s (begin s) e.

(** ** Representation *)

(** The nodes at [ls] hold [l], each linked to the following one; the first is
    reached from [p] and the last one links to [q]. *)
Fixpoint chain h (p : option loc) (ls : list loc) l (q : option loc) : Prop :=
  match ls, l with
  | [], [] => p = q
  | a :: ls, x :: l => p = Some a /\ exists nx, h !! a = Some (mkNode x nx) /\ chain h nx ls l q
  | _, _ => False
  end.

Record lrep_at s (ls : list loc) l : Prop := {
  r_chain : chain (heap s) (head s) ls l None;
  r_nodup : NoDup ls;
  r_size : size s = length l;
  r_tail : forall a ls', ls = ls' ++ [a] -> tail s = Some a;
  r_fresh : forall a n, heap s !! a = Some n -> a < brk s;
}.

Definition lrep s l : Prop := exists ls, lrep_at s ls l.

Lemma chain_length h p ls l q : chain h p ls l q -> length ls = length l.
Proof.
  revert p l. induction ls as [|a ls IH]; intros p [|x l]; simpl; try done.
  intros (_ & nx & _ & Hc). f_equal. eauto.
Qed.

Lemma chain_app h p ls1 ls2 l1 l2 q :
  length ls1 = length l1 ->
  chain h p (ls1 ++ ls2) (l1 ++ l2) q <-> exists m, chain h p ls1 l1 m /\ chain h m ls2 l2 q.
Proof.
  revert p l1. induction ls1 as [|a ls1 IH]; intros p [|x l1]; simpl; try done; intros Hlen.
  { split; [intros Hc; by exists p|]. by intros (m & -> & Hc). }
  injection Hlen as Hlen. split.
  - intros (-> & nx & Hn & Hc). apply IH in Hc as (m & H1 & H2); [|done]. exists m. eauto.
  - intros (m & (-> & nx & Hn & Hc) & H2). split; [done|]. exists nx. split; [done|].
    apply IH; eauto.
Qed.

Lemma chain_frame h h' p ls l q :
  (forall a, a ∈ ls -> h' !! a = h !! a) -> chain h p ls l q -> chain h' p ls l q.
Proof.
  revert p l. induction ls as [|a ls IH]; intros p [|x l] Hf; simpl; try done.
  intros (-> & nx & Hn & Hc). split; [done|]. exists nx. split.
  - rewrite Hf; [done|left].
  - apply IH; [|done]. intros b Hb. apply Hf. by right.
Qed.

Lemma chain_alloc h p ls l q a n : a ∉ ls -> chain h p ls l q -> chain (<[a := n]> h) p ls l q.
Proof.
  intros Ha. apply chain_frame. intros b Hb. apply lookup_insert_ne. by intros ->.
Qed.

Lemma chain_free h p ls l q a : a ∉ ls -> chain h p ls l q -> chain (delete a h) p ls l q.
Proof.
  intros Ha. apply chain_frame. intros b Hb. apply lookup_delete_ne. by intros ->.
Qed.

Lemma chain_in_heap h p ls l q a : chain h p ls l q -> a ∈ ls -> is_Some (h !! a).
Proof.
  revert p l. induction ls as [|b ls IH]; intros p [|x l]; simpl; try done.
  { intros _ Ha. by apply not_elem_of_nil in Ha. }
  intros (-> & nx & Hn & Hc) [->|Ha]%elem_of_cons; eauto.
Qed.

(** Splitting a chain at a node. *)
Lemma chain_middle h p ls1 a ls2 l1 x l2 q :
  length ls1 = length l1 ->
  chain h p (ls1 ++ a :: ls2) (l1 ++ x :: l2) q <->
  exists nx, chain h p ls1 l1 (Some a) /\ h !! a = Some (mkNode x nx) /\ chain h nx ls2 l2 q.
Proof.
  intros Hlen. rewrite chain_app by done. simpl. split.
  - intros (m & H1 & -> & nx & Hn & H2). eauto.
  - intros (nx & H1 & Hn & H2). eauto 10.
Qed.

Lemma brk_fresh s ls l : lrep_at s ls l -> brk s ∉ ls.
Proof.
  intros Hr Hin. destruct (chain_in_heap _ _ _ _ _ _ (r_chain _ _ _ Hr) Hin) as [n Hn].
  apply (r_fresh _ _ _ Hr) in Hn. lia.
Qed.

Lemma lrep_new : lrep new [].
Proof. exists []. split; simpl; try done; try constructor. intros a [|]; done. Qed.

Lemma fresh_insert s ls l (n : node T) : lrep_at s ls l ->
  forall a m, <[brk s := n]> (heap s) !! a = Some m -> a < S (brk s).
Proof.
  intros Hr a m. rewrite lookup_insert. case_decide as E; [lia|].
  intros Hm. apply (r_fresh _ _ _ Hr) in Hm. lia.
Qed.

Lemma head_nil s l : lrep s l -> head s = None <-> l = [].
Proof.
  intros [[|a ls] Hr]; pose proof (r_chain _ _ _ Hr) as Hc; destruct l; simpl in Hc; try done.
  destruct Hc as (-> & _). done.
Qed.

Lemma lrep_add_head s l x : lrep s l -> lrep (add_head s x) (x :: l).
Proof.
  intros [ls Hr]. pose proof (brk_fresh _ _ _ Hr) as Hb.
  pose proof (head_nil s l (ex_intro _ ls Hr)) as Hnil.
  exists (brk s :: ls). unfold add_head. destruct (head s) as [hd|] eqn:Hhd.
  - split; simpl.
    + split; [done|]. eexists. rewrite lookup_insert_eq. split; [done|].
      apply chain_alloc; [done|]. rewrite <- Hhd. apply Hr.
    + constructor; [done|apply Hr].
    + f_equal. apply Hr.
    + intros a [|b ls'] Heq; simplify_eq/=; [|by eapply (r_tail _ _ _ Hr)].
      apply r_chain in Hr. rewrite Hhd in Hr. by destruct l.
    + intros. by eapply fresh_insert.
  - assert (l = []) as -> by by apply Hnil.
    pose proof (chain_length _ _ _ _ _ (r_chain _ _ _ Hr)). destruct ls; [|done].
    split; simpl.
    + split; [done|]. eexists. by rewrite lookup_insert_eq.
    + constructor; [apply not_elem_of_nil|constructor].
    + f_equal. apply Hr.
    + intros a [|b [|]]; simpl; intros; simplify_eq; done.
    + intros. by eapply fresh_insert.
Qed.

(** The last node of a represented list is where [tail] points. *)
Lemma lrep_last s ls l : lrep_at s ls l -> l <> [] ->
  exists ls' t l' x, ls = ls' ++ [t] /\ l = l' ++ [x] /\ length ls' = length l'
    /\ tail s = Some t /\ heap s !! t = Some (mkNode x None)
    /\ chain (heap s) (head s) ls' l' (Some t).
Proof.
  intros Hr Hne. pose proof (chain_length _ _ _ _ _ (r_chain _ _ _ Hr)) as Hlen.
  destruct (exists_last Hne) as (l' & x & ->).
  destruct (exists_last (l := ls)) as (ls' & t & ->); [by intros ->; destruct l'|].
  rewrite !length_app in Hlen. simpl in Hlen.
  pose proof (r_chain _ _ _ Hr) as Hc. apply chain_middle in Hc as (nx & H1 & Hn & H2); [|lia].
  simpl in H2. subst nx. exists ls', t, l', x. split_and!; try done; [lia|].
  by eapply (r_tail _ _ _ Hr).
Qed.

Lemma lrep_end s l : lrep s l -> end_ s = Some None.
Proof.
  intros [ls Hr]. unfold end_, empty. rewrite (r_size _ _ _ Hr).
  destruct l as [|y l]; simpl.
  - f_equal. by apply (head_nil s []); [exists ls|].
  - destruct (lrep_last _ _ _ Hr) as (ls' & t & l' & x & _ & _ & _ & -> & Hn & _); [done|].
    simpl. by rewrite Hn.
Qed.

Lemma lrep_back s l x : lrep s (l ++ [x]) -> back s = Some x.
Proof.
  intros [ls Hr]. destruct (lrep_last _ _ _ Hr) as (ls' & t & l' & y & _ & Hl & _ & Ht & Hn & _).
  { by destruct l. }
  apply app_inj_tail in Hl as [_ <-]. unfold back, deref. rewrite Ht. simpl. by rewrite Hn.
Qed.

Lemma lrep_add s l x : lrep s l -> exists s', add s x = Some s' /\ lrep s' (l ++ [x]).
Proof.
  intros Hl. pose proof (head_nil s l Hl) as Hnil. unfold add.
  destruct (head s) as [hd|] eqn:Hhd.
  - destruct Hl as [ls Hr]. pose proof (brk_fresh _ _ _ Hr) as Hb.
    destruct (lrep_last _ _ _ Hr) as (ls' & t & l' & y & -> & -> & Hlen & Ht & Hn & Hc).
    { intros ->. by destruct Hnil as [_ ?%eq_sym]. }
    rewrite Ht. simpl. rewrite Hn. simpl. eexists. split; [done|].
    pose proof (r_nodup _ _ _ Hr) as Hnd. apply list.NoDup_app in Hnd as (Hnd & Hdis & _).
    assert (Hbt : brk s <> t) by (intros E; apply Hb; rewrite E; apply elem_of_app; right; left).
    exists ((ls' ++ [t]) ++ [brk s]). split; simpl.
    + rewrite <- !app_assoc. simpl. apply chain_middle; [done|]. exists (Some (brk s)).
      rewrite lookup_insert_eq. split_and!; [|done|].
      * rewrite <- Hhd. apply chain_alloc; [intros Ht'; apply (Hdis _ Ht'); left|].
        apply chain_alloc; [|done]. intros Hb'. apply Hb, elem_of_app. by left.
      * split; [done|]. exists None. by rewrite lookup_insert_ne, lookup_insert_eq.
    + apply list.NoDup_app. split_and!; [apply Hr| |apply NoDup_singleton].
      by intros b Hb1 ->%list_elem_of_singleton.
    + rewrite length_app. simpl. pose proof (r_size _ _ _ Hr). lia.
    + intros a ls'' [_ <-]%app_inj_tail. done.
    + intros a n. rewrite lookup_insert. case_decide as E.
      * intros _. subst a. apply (r_fresh _ _ _ Hr) in Hn. lia.
      * by apply (fresh_insert s _ _ (mkNode x None) Hr).
  - assert (l = []) as -> by by apply Hnil.
    eexists. split; [done|]. pose proof (lrep_add_head s [] x Hl) as Hadd.
    unfold add_head in Hadd. by rewrite Hhd in Hadd.
Qed.

Lemma lrep_nth s ls l k : lrep_at s ls l -> k < length l ->
  exists a, ls !! k = Some a /\ iter_nth s k = Some (Some a).
Proof.
  intros Hr Hk. pose proof (chain_length _ _ _ _ _ (r_chain _ _ _ Hr)) as Hlen.
  destruct (lookup_lt_is_Some_2 ls k ltac:(lia)) as [a Ha]. exists a. split; [done|].
  assert (Hgen : forall k, k < length l -> iter_nth s k = Some (ls !! k)).
  { clear k Hk a Ha. induction k as [|k IH]; intros Hk; simpl.
    - f_equal. pose proof (r_chain _ _ _ Hr) as Hc. destruct ls, l; simpl in *; try lia.
      unfold begin. by destruct Hc as [-> _].
    - rewrite IH by lia. simpl. destruct (lookup_lt_is_Some_2 ls k ltac:(lia)) as [b Hb].
      destruct (lookup_lt_is_Some_2 l k ltac:(lia)) as [x Hx].
      apply lookup_split in Hb as (ls1 & ls2 & -> & Hk1).
      apply lookup_split in Hx as (l1 & l2 & -> & Hk2).
      rewrite list_lookup_middle by done. simpl.
      pose proof (r_chain _ _ _ Hr) as Hc. apply chain_middle in Hc as (nx & _ & Hn & Hc2); [|lia].
      rewrite Hn. simpl. f_equal. rewrite lookup_app_r by lia. rewrite Hk1.
      replace (S (length ls1) - length ls1) with 1 by lia. simpl.
      rewrite length_app in Hk. simpl in Hk. destruct ls2, l2; simpl in *; try lia; try done.
      by destruct Hc2 as [-> _]. }
  rewrite Hgen by done. by rewrite Ha.
Qed.

(** A node of the list, its neighbours, and what surrounds it in the heap. *)
Lemma lrep_split s ls l k : lrep_at s ls l -> k < length l ->
  exists ls1 a ls2 l1 x l2 nx, ls = ls1 ++ a :: ls2 /\ l = l1 ++ x :: l2
    /\ length ls1 = k /\ length l1 = k /\ iter_nth s k = Some (Some a)
    /\ chain (heap s) (head s) ls1 l1 (Some a) /\ heap s !! a = Some (mkNode x nx)
    /\ chain (heap s) nx ls2 l2 None /\ a ∉ ls1 /\ a ∉ ls2 /\ NoDup (ls1 ++ ls2).
Proof.
  intros Hr Hk. destruct (lrep_nth s ls l k Hr Hk) as (a & Ha & Hit).
  destruct (lookup_lt_is_Some_2 l k Hk) as [x Hx].
  apply lookup_split in Ha as (ls1 & ls2 & -> & Hk1).
  apply lookup_split in Hx as (l1 & l2 & -> & Hk2).
  pose proof (r_chain _ _ _ Hr) as Hc. apply chain_middle in Hc as (nx & H1 & Hn & H2); [|lia].
  pose proof (r_nodup _ _ _ Hr) as Hnd. rewrite <- Permutation_middle in Hnd.
  apply list.NoDup_cons in Hnd as [Hni Hnd]. rewrite elem_of_app in Hni.
  exists ls1, a, ls2, l1, x, l2, nx. split_and!; try done; tauto.
Qed.

(** The new node takes over the old contents, so the item goes in front. *)
Lemma lrep_insert_at s l k x : lrep s l -> k < length l ->
  exists i s', iter_nth s k = Some i /\ insert_at s i x = Some s'
    /\ lrep s' (take k l ++ x :: drop k l).
Proof.
  intros [ls Hr] Hk.
  destruct (lrep_split s ls l k Hr Hk)
    as (ls1 & a & ls2 & l1 & y & l2 & nx & -> & -> & Hk1 & Hk2 & Hit & H1 & Hn & H2 & Ha1 & Ha2 & Hnd).
  pose proof (brk_fresh _ _ _ Hr) as Hb. rewrite elem_of_app, elem_of_cons in Hb.
  exists (Some a). unfold insert_at. rewrite Hn. simpl. eexists. split; [done|]. split; [done|].
  rewrite take_app_le, take_ge, drop_app_ge by lia. replace (k - length l1) with 0 by lia.
  rewrite drop_0. exists (ls1 ++ a :: brk s :: ls2). split; simpl.
  - apply chain_middle; [lia|]. exists (Some (brk s)). rewrite lookup_insert_eq. split_and!; [|done|].
    + apply chain_alloc; [done|]. apply chain_alloc; [tauto|done].
    + split; [done|]. exists nx. rewrite lookup_insert_ne by naive_solver.
      rewrite lookup_insert_eq. split; [done|].
      apply chain_alloc; [done|]. apply chain_alloc; [tauto|done].
  - rewrite <- !Permutation_middle. apply list.NoDup_cons. split.
    + rewrite elem_of_cons, elem_of_app. naive_solver.
    + apply list.NoDup_cons. split; [rewrite elem_of_app; tauto|done].
  - rewrite length_app. simpl. pose proof (r_size _ _ _ Hr) as Hs.
    rewrite length_app in Hs. simpl in Hs. lia.
  - intros c ls' Heq. destruct ls2 as [|b ls2' _] using rev_ind.
    + rewrite (r_tail _ _ _ Hr a ls1) by done. rewrite bool_decide_eq_true_2 by done.
      change (a :: [brk s]) with ([a] ++ [brk s]) in Heq. rewrite app_assoc in Heq.
      apply app_inj_tail in Heq as [_ <-]. done.
    + rewrite (r_tail _ _ _ Hr b (ls1 ++ a :: ls2')) by (by rewrite <- app_assoc).
      rewrite bool_decide_eq_false_2 by (intros [= ->]; apply Ha2, elem_of_app; right; left).
      change (a :: brk s :: ls2' ++ [b]) with ((a :: brk s :: ls2') ++ [b]) in Heq.
      rewrite app_assoc in Heq. apply app_inj_tail in Heq as [_ <-]. done.
  - intros c n. rewrite lookup_insert. case_decide as E.
    + intros _. subst c. apply (r_fresh _ _ _ Hr) in Hn. lia.
    + by apply (fresh_insert s _ _ (mkNode y nx) Hr).
Qed.

Lemma find_prev_spec h ls1 m a l1 y p fuel :
  chain h (Some p) (ls1 ++ [m]) (l1 ++ [y]) (Some a) -> length ls1 = length l1 ->
  a ∉ ls1 ++ [m] -> length ls1 < fuel -> find_prev fuel h p a = Some m.
Proof.
  revert p l1 fuel. induction ls1 as [|b ls1 IH]; intros p l1 fuel Hc Hlen Ha Hf.
  - destruct l1; [|done]. destruct fuel; [lia|]. destruct Hc as (E & nx & Hn & Hnx).
    injection E as ->. simpl in Hnx |- *. rewrite Hn. simpl. by rewrite Hnx, bool_decide_eq_true_2.
  - destruct l1 as [|z l1]; [done|]. destruct fuel as [|fuel]; [lia|].
    destruct Hc as (E & nx & Hn & Hc). injection E as ->. simpl. rewrite Hn. simpl.
    change ((b :: ls1) ++ [m]) with (b :: (ls1 ++ [m])) in Ha. rewrite elem_of_cons in Ha.
    destruct nx as [c|]; [|by destruct ls1, l1; destruct Hc].
    rewrite bool_decide_eq_false_2.
    + simpl. eapply IH; eauto. simpl in Hf. lia.
    + intros [= ->]. apply Ha. right. destruct ls1, l1; destruct Hc as ([= ->] & _); left.
Qed.

Lemma lrep_remove_at s l k : lrep s l -> k < length l ->
  exists i s', iter_nth s k = Some i /\ remove_at s i = Some s' /\ lrep s' (delete k l).
Proof.
  intros [ls Hr] Hk.
  destruct (lrep_split s ls l k Hr Hk)
    as (ls1 & a & ls2 & l1 & y & l2 & nx & -> & -> & Hk1 & Hk2 & Hit & H1 & Hn & H2 & Ha1 & Ha2 & Hnd).
  pose proof (r_size _ _ _ Hr) as Hs. rewrite length_app in Hs. simpl in Hs.
  exists (Some a). unfold remove_at. rewrite Hit. subst k. rewrite delete_middle_eq by done.
  destruct ls1 as [|p ls1] using rev_ind.
  - destruct l1; [|done]. simpl in H1. rewrite H1, bool_decide_eq_true_2, Hn by done. simpl.
    eexists. split; [done|]. split; [done|]. exists ls2. split; simpl; try done.
    + simpl in Hs. lia.
    + intros b ls' ->. by apply (r_tail _ _ _ Hr b (a :: ls')).
    + apply (r_fresh _ _ _ Hr).
  - clear IHls1. rewrite length_app in Hk2. simpl in Hk2.
    destruct (exists_last (l := l1)) as (l1' & z & ->); [by intros ->; simpl in Hk2; lia|].
    rewrite length_app in Hk2. simpl in Hk2. rewrite length_app in Hs. simpl in Hs.
    assert (Hhd : exists hd, head s = Some hd /\ hd ∈ ls1 ++ [p]).
    { destruct ls1, l1'; simpl in *; try lia; destruct H1 as [-> _]; eexists; (split; [done|left]). }
    destruct Hhd as (hd & Hhd & Hin). rewrite Hhd.
    rewrite bool_decide_eq_false_2 by (intros [= ->]; done). simpl.
    rewrite Hhd in H1. rewrite (find_prev_spec (heap s) ls1 p a l1' z) by (done || lia). simpl.
    apply chain_middle in H1 as Hmid; [|lia]. destruct Hmid as (nz & Hc1 & Hz & Hnz).
    simpl in Hnz. subst nz. rewrite Hz. simpl. rewrite <- !app_assoc in *. simpl in *.
    assert (Hpa : p <> a) by (intros ->; apply Ha1, elem_of_app; right; left).
    assert (Hp1 : p ∉ ls1 /\ p ∉ ls2).
    { rewrite <- Permutation_middle in Hnd. apply list.NoDup_cons in Hnd as [Hni _].
      rewrite elem_of_app in Hni. tauto. }
    rewrite elem_of_app in Ha1.
    assert (Hpart : forall nx', chain (heap s) nx' ls2 l2 None ->
      chain (delete a (<[p := mkNode z nx']> (heap s))) (head s) (ls1 ++ p :: ls2) (l1' ++ z :: l2) None).
    { intros nx' Hc2. apply chain_middle; [lia|]. exists nx'.
      rewrite lookup_delete_ne, lookup_insert_eq by done. rewrite Hhd. split_and!; [|done|].
      - apply chain_free; [tauto|]. by apply chain_alloc; [tauto|].
      - apply chain_free; [done|]. by apply chain_alloc; [tauto|]. }
    assert (Hfresh : forall nx' b n, delete a (<[p := mkNode z nx']> (heap s)) !! b = Some n -> b < brk s).
    { intros nx' b n [Hb Hbn]%lookup_delete_Some. rewrite lookup_insert in Hbn. case_decide as E.
      - subst b. by apply (r_fresh _ _ _ Hr) in Hz.
      - by apply (r_fresh _ _ _ Hr) in Hbn. }
    destruct ls2 as [|b ls2' _] using rev_ind.
    + destruct l2; [|done]. rewrite (r_tail _ _ _ Hr a (ls1 ++ [p])) by (by rewrite <- app_assoc).
      rewrite bool_decide_eq_true_2 by done. eexists. split; [done|]. split; [done|].
      exists (ls1 ++ [p]). split; simpl; eauto.
      * rewrite <- Hhd. by apply Hpart.
      * rewrite length_app. simpl in *. lia.
      * intros c ls' [_ <-]%app_inj_tail. done.
    + rewrite (r_tail _ _ _ Hr b (ls1 ++ p :: a :: ls2')) by (by rewrite <- app_assoc).
      rewrite bool_decide_eq_false_2 by (intros [= ->]; apply Ha2, elem_of_app; right; left).
      rewrite Hn. simpl. eexists. split; [done|]. split; [done|].
      exists (ls1 ++ p :: ls2' ++ [b]). split; simpl; eauto.
      * rewrite <- Hhd. by apply Hpart.
      * rewrite length_app. simpl in *. lia.
      * intros c ls' Heq. change (p :: ls2' ++ [b]) with ((p :: ls2') ++ [b]) in Heq.
        rewrite app_assoc in Heq. by apply app_inj_tail in Heq as [_ <-].
Qed.

Lemma iter_nth_deref s l k x : lrep s l -> l !! k = Some x ->
  exists i, iter_nth s k = Some i /\ i <> None /\ deref s i = Some x.
Proof.
  intros [ls Hr] Hx. apply lookup_lt_Some in Hx as Hk.
  destruct (lrep_split s ls l k Hr Hk)
    as (ls1 & a & ls2 & l1 & y & l2 & nx & -> & -> & Hk1 & Hk2 & Hit & H1 & Hn & _).
  rewrite list_lookup_middle in Hx by done. simplify_eq. exists (Some a).
  split_and!; try done. simpl. by rewrite Hn.
Qed.

Lemma iter_nth_end s l : lrep s l -> iter_nth s (length l) = Some None.
Proof.
  intros Hl. pose proof Hl as [ls Hr]. destruct l as [|x l _] using rev_ind.
  { simpl. f_equal. by apply (head_nil s []). }
  rewrite length_app, Nat.add_1_r. simpl.
  destruct (lrep_split s ls (l ++ [x]) (length l) Hr)
    as (ls1 & a & ls2 & l1 & y & l2 & nx & -> & Heq & Hk1 & Hk2 & -> & H1 & Hn & H2 & _).
  { rewrite length_app. simpl. lia. }
  apply app_inj_1 in Heq as [_ Heq]; [|done]. simplify_eq. simpl.
  destruct ls2; simpl in H2; [|done]. rewrite Hn. simpl. by rewrite H2.
Qed.

Lemma find_item_spec s l p : lrep s l -> forall fuel k b,
  k + fuel = length l -> iter_nth s k = Some b ->
  (find_item fuel s p b None = Some None /\ Forall (fun x => p x = false) (drop k l))
  \/ exists j a x, find_item fuel s p b None = Some (Some a) /\ iter_nth s j = Some (Some a)
       /\ k <= j /\ l !! j = Some x /\ p x = true
       /\ Forall (fun x => p x = false) (take (j - k) (drop k l)).
Proof.
  intros Hl. induction fuel as [|fuel IH]; intros k b Hk Hb.
  - left. rewrite Nat.add_0_r in Hk. subst k. rewrite iter_nth_end in Hb by done.
    injection Hb as <-. simpl. rewrite drop_ge by done. by split.
  - destruct (lookup_lt_is_Some_2 l k ltac:(lia)) as [x Hx].
    destruct (iter_nth_deref s l k x Hl Hx) as (i & Hi & Hne & Hd).
    assert (i = b) as -> by congruence. cbn [find_item]. rewrite bool_decide_eq_false_2 by done. rewrite Hd. simpl.
    rewrite (drop_S l x k Hx). destruct (p x) eqn:Hp.
    + right. destruct b as [a|]; [|done]. exists k, a, x. split_and!; try done.
      by rewrite Nat.sub_diag.
    + assert (Hnext : exists b', advance s b = Some b' /\ iter_nth s (S k) = Some b').
      { simpl. rewrite Hi. simpl. unfold deref, advance in *. destruct b as [a|]; [|done].
        simpl in *. destruct (heap s !! a); simpl in *; [eauto|done]. }
      destruct Hnext as (b' & -> & Hb'). simpl.
      destruct (IH (S k) b' ltac:(lia) Hb') as [[-> Hall]|(j & a & y & -> & Hj & Hjk & Hy & Hpy & Hall)].
      * left. split; [done|]. by constructor.
      * right. exists j, a, y. split_and!; try done; [lia|].
        replace (j - k) with (S (j - S k)) by lia. simpl. by constructor.
Qed.

Lemma delete_first p l j x :
  l !! j = Some x -> p x = true -> Forall (fun y => p y = false) (take j l) ->
  delete j l = remove_first p l /\ existsb p l = true.
Proof.
  intros Hx Hp Hall. apply lookup_split in Hx as (l1 & l2 & -> & ->).
  rewrite delete_middle. rewrite take_app_le, take_ge in Hall by done.
  induction Hall as [|y l1 Hy _ [IH1 IH2]]; simpl; [by rewrite Hp|].
  rewrite Hy, <- IH1, IH2. done.
Qed.

Lemma lrep_remove_if s l p : lrep s l ->
  exists s', remove_if s p = Some (s', existsb p l) /\ lrep s' (remove_first p l).
Proof.
  intros Hl. unfold remove_if. rewrite (lrep_end s l Hl). cbn [mbind option_bind].
  assert (Hs : size s = length l) by (destruct Hl as [? Hr]; apply Hr). rewrite Hs.
  destruct (find_item_spec s l p Hl (length l) 0 (begin s) eq_refl eq_refl)
    as [[-> Hall]|(j & a & x & -> & Hj & _ & Hx & Hp & Hall)]; cbn [mbind option_bind].
  - rewrite drop_0 in Hall. exists s. rewrite remove_first_none by done.
    by rewrite (proj2 (existsb_none p l) Hall).
  - rewrite drop_0, Nat.sub_0_r in Hall.
    destruct (lrep_remove_at s l j Hl) as (i & s' & Hi & Hrem & Hs'); [by eapply lookup_lt_Some|].
    destruct (delete_first p l j x Hx Hp Hall) as [Hd ->]. rewrite <- Hd.
    rewrite Hj in Hi. injection Hi as <-. rewrite Hrem. simpl. eauto.
Qed.

Lemma removeAll_fuel_spec p fuel s l : lrep s l -> length l < fuel ->
  exists s', removeAll_fuel fuel s p = Some s' /\ lrep s' (filter (fun x => p x = false) l).
Proof.
  revert s l. induction fuel as [|fuel IH]; intros s l Hl Hf; [lia|]. simpl.
  destruct (lrep_remove_if s l p Hl) as (s' & -> & Hs'). destruct (existsb p l) eqn:Hex.
  - rewrite <- filter_remove_first. apply IH; [done|]. apply length_remove_first in Hex. lia.
  - apply existsb_none in Hex. rewrite remove_first_none in Hs' by done. exists s'. split; [done|].
    rewrite list_filter_all; [done|]. intros x Hx. rewrite list.Forall_forall in Hex. by apply Hex.
Qed.

Lemma lrep_size s l : lrep s l -> size s = length l.
Proof. intros [ls Hr]. apply Hr. Qed.

Lemma lrep_top s x l : lrep s (x :: l) -> top s = Some x.
Proof.
  intros [[|a ls] Hr]; pose proof (r_chain _ _ _ Hr) as Hc; simpl in Hc; [done|].
  destruct Hc as (Hhd & nx & Hn & _). unfold top, deref. rewrite Hhd. simpl. by rewrite Hn.
Qed.

Lemma lrep_pop s x l : lrep s (x :: l) -> exists s', pop s = Some (x, s') /\ lrep s' l.
Proof.
  intros [[|a ls] Hr]; pose proof (r_chain _ _ _ Hr) as Hc; simpl in Hc; [done|].
  destruct Hc as (Hhd & nx & Hn & Hc). unfold pop. rewrite Hhd. simpl. rewrite Hn. simpl.
  eexists. split; [done|]. pose proof (r_nodup _ _ _ Hr) as Hnd. apply list.NoDup_cons in Hnd as [Ha Hnd].
  exists ls. split; simpl; try done.
  - by apply chain_free.
  - pose proof (r_size _ _ _ Hr). simpl in *. lia.
  - intros b ls' ->. by apply (r_tail _ _ _ Hr b (a :: ls')).
  - intros b n [_ Hb]%lookup_delete_Some. by apply (r_fresh _ _ _ Hr) in Hb.
Qed.

Lemma clear_loop_spec fuel h hd ls l :
  chain h hd ls l None -> NoDup ls -> length ls <= fuel ->
  exists h', clear_loop fuel h hd = Some h' /\ h' ⊆ h.
Proof.
  revert fuel h hd l. induction ls as [|a ls IH]; intros fuel h hd [|x l] Hc Hnd Hf; simpl in Hc; try done.
  - subst hd. exists h. by destruct fuel.
  - destruct Hc as (-> & nx & Hn & Hc). apply list.NoDup_cons in Hnd as [Ha Hnd].
    destruct fuel as [|fuel]; simpl in Hf; [lia|]. simpl. rewrite Hn. simpl.
    destruct (IH fuel (delete a h) nx l) as (h' & -> & Hsub); [by apply chain_free|done|lia|].
    exists h'. split; [done|]. transitivity (delete a h); [done|]. apply delete_subseteq.
Qed.

Lemma lrep_clear s l : lrep s l -> exists s', clear s = Some s' /\ lrep s' [].
Proof.
  intros [ls Hr]. unfold clear.
  pose proof (chain_length _ _ _ _ _ (r_chain _ _ _ Hr)). pose proof (r_size _ _ _ Hr).
  destruct (clear_loop_spec (size s) (heap s) (head s) ls l) as (h' & -> & Hsub);
    [apply Hr|apply Hr|lia|]. simpl. eexists. split; [done|].
  exists []. split; simpl; try done; [constructor|by intros a []|].
  intros a n Ha. apply (r_fresh _ _ _ Hr a n). by eapply lookup_weaken.
Qed.

Lemma foreach_loop_spec {S} (f : S -> T -> S * bool) s l : lrep s l -> forall fuel k b st,
  k + fuel = length l -> iter_nth s k = Some b ->
  foreach_loop fuel f st s b None = Some (foreach_stop f st (drop k l)).
Proof.
  intros Hl. induction fuel as [|fuel IH]; intros k b st Hk Hb.
  - rewrite Nat.add_0_r in Hk. subst k. rewrite iter_nth_end in Hb by done.
    injection Hb as <-. simpl. by rewrite drop_ge.
  - destruct (lookup_lt_is_Some_2 l k ltac:(lia)) as [x Hx].
    destruct (iter_nth_deref s l k x Hl Hx) as (i & Hi & Hne & Hd). assert (i = b) as -> by congruence.
    cbn [foreach_loop]. rewrite bool_decide_eq_false_2 by done. rewrite Hd. simpl.
    rewrite (drop_S l x k Hx). simpl. destruct (f st x) as [st' []]; [|done].
    destruct b as [a|]; [|done]. simpl in *. destruct (heap s !! a) as [n|] eqn:Hn; [|done].
    simpl in *. apply IH; [lia|]. simpl. rewrite Hi. simpl. by rewrite Hn.
Qed.

Lemma lrep_foreach {S} (f : S -> T -> S * bool) st s l :
  lrep s l -> foreach f st s = Some (foreach_stop f st l).
Proof.
  intros Hl. unfold foreach. rewrite (lrep_end s l Hl). simpl.
  rewrite (lrep_size s l Hl). by apply (foreach_loop_spec f s l Hl _ 0).
Qed.

(** ** Copying: [clone] appends the items of another list one by one. *)

(** [while (ob != oe) { add( *ob); ++ob; }] *)
Fixpoint clone_loop (fuel : nat) s (other : slist T) (ob oe : option loc) : option (slist T) :=
  if bool_decide (ob = oe) then Some s
  else
    match fuel with
    | O => None
    | Datatypes.S fuel =>
        x ← deref other ob; s' ← add s x; ob' ← advance other ob; clone_loop fuel s' other ob' oe
    end.

Definition clone s (other : slist T) : option (slist T) :=
  oe ← end_ other; clone_loop (size other) s other (begin other) oe.

(** [operator=]: [clear] then [clone]. *)
Definition assign s (other : slist T) : option (slist T) := s' ← clear s; clone s' other.

Lemma clone_loop_spec other l : lrep other l -> forall fuel k b s l0,
  k + fuel = length l -> iter_nth other k = Some b -> lrep s l0 ->
  exists s', clone_loop fuel s other b None = Some s' /\ lrep s' (l0 ++ drop k l).
Proof.
  intros Hl. induction fuel as [|fuel IH]; intros k b s l0 Hk Hb Hs.
  - rewrite Nat.add_0_r in Hk. subst k. rewrite iter_nth_end in Hb by done.
    injection Hb as <-. simpl. rewrite drop_ge, app_nil_r by done. eauto.
  - destruct (lookup_lt_is_Some_2 l k ltac:(lia)) as [x Hx].
    destruct (iter_nth_deref other l k x Hl Hx) as (i & Hi & Hne & Hd). assert (i = b) as -> by congruence.
    cbn [clone_loop]. rewrite bool_decide_eq_false_2 by done. rewrite Hd. simpl.
    destruct (lrep_add s l0 x Hs) as (s1 & -> & Hs1). simpl.
    destruct b as [a|]; [|done]. simpl in *. destruct (heap other !! a) as [n|] eqn:Hn; [|done].
    simpl in *. destruct (IH (Datatypes.S k) (next n) s1 (l0 ++ [x])) as (s2 & -> & Hs2); [lia| |done|].
    + simpl. rewrite Hi. simpl. by rewrite Hn.
    + exists s2. split; [done|]. rewrite (drop_S l x k Hx). by rewrite <- app_assoc in Hs2.
Qed.

Lemma lrep_assign s l0 other l : lrep s l0 -> lrep other l ->
  exists s', assign s other = Some s' /\ lrep s' l.
Proof.
  intros Hs Hl. unfold assign. destruct (lrep_clear s l0 Hs) as (s1 & -> & Hs1). simpl.
  unfold clone. rewrite (lrep_end other l Hl), (lrep_size other l Hl). simpl.
  destruct (clone_loop_spec other l Hl (length l) 0 (begin other) s1 []) as (s2 & -> & Hs2); try done.
  eauto.
Qed.

End Operations.
End SList.
