(* ===== verification/Interval.v ===== *)
(** * Address intervals (kernel/include/libc/interval.h, intervals.h,
    kernel/src/libc/interval.cpp)

    [Interval] is the closed interval of 32-bit addresses with its predicates;
    [IntervalList] is the ordered list of disjoint intervals from which the
    kernel and the processes allocate their virtual address ranges.  The
    underlying [slist] is used through the list functions that [SList] shows it
    implements: [add] is append, [add_head] is cons, [insert] at an iterator
    puts the item in front of the element it points to, [remove] drops the first
    equal element. *)

From stdpp Require Import base numbers list option.
From Stdlib Require Import ZArith Lia Sorted.
From S2P Require Import Prelude.

Local Open Scope Z_scope.

Module Interval.

Record interval_t := mkInterval { from : Z; to : Z }.

#[global] Instance interval_eq_dec : EqDecision interval_t.
Proof. solve_decision. Defined.

Definition size (i : interval_t) : Z := u32 (to i - from i + 1).
Definition thisBefore (i other : interval_t) : bool := to i <=? from other.
Definition eqb (i other : interval_t) : bool := (from i =? from other) && (to i =? to other).
Definition contains (i : interval_t) (num : Z) : bool := (from i <=? num) && (num <=? to i).
Definition contains_interval (i other : interval_t) : bool :=
  contains i (from other) && contains i (to other).
Definition containsAny (i other : interval_t) : bool :=
  contains i (from other) || contains i (to other).
Definition intersects (i other : interval_t) : bool :=
  containsAny i other || containsAny other i.

(** A proper interval of 32-bit addresses. *)
Definition wf (i : interval_t) : Prop := is_u32 (from i) /\ is_u32 (to i) /\ from i <= to i.

Definition disjoint (i j : interval_t) : Prop := to i < from j \/ to j < from i.

Lemma contains_iff i n : contains i n = true <-> from i <= n <= to i.
Proof. unfold contains. rewrite andb_true_iff, !Z.leb_le. lia. Qed.

Lemma intersects_iff i j : wf i -> wf j -> intersects i j = false <-> disjoint i j.
Proof.
  unfold intersects, containsAny, contains, wf, disjoint. intros.
  rewrite !orb_false_iff, !andb_false_iff, !Z.leb_gt. lia.
Qed.

Lemma intersects_shared i j :
  wf i -> wf j -> intersects i j = true <-> exists n, contains i n = true /\ contains j n = true.
Proof.
  intros Hi Hj. split.
  - intros H. exists (Z.max (from i) (from j)).
    assert (~ disjoint i j) by (rewrite <- intersects_iff by done; congruence).
    unfold disjoint, wf in *. rewrite !contains_iff. lia.
  - intros (n & Hn1%contains_iff & Hn2%contains_iff).
    apply not_false_iff_true. rewrite intersects_iff by done. unfold disjoint. lia.
Qed.

Lemma eqb_eq i j : eqb i j = true <-> i = j.
Proof.
  unfold eqb. rewrite andb_true_iff, !Z.eqb_eq. destruct i, j; simpl.
  split; [by intros [-> ->]|by intros [= -> ->]].
Qed.

End Interval.

Module IntervalList.
Import Interval.

(** The list is a template over types that extend [interval_t]. *)
Class HasInterval (T : Type) := ival : T -> interval_t.
#[global] Instance interval_itself : HasInterval interval_t := fun i => i.

Section Template.
Context {T : Type} `{HasInterval T}.

(** The loop of [add] over two or more intervals: [insert] before the first one
    that does not end before the new one, or append. *)
Fixpoint add_loop (l : list T) (i : T) : list T :=
  match l with
  | [] => [i]
  | other :: l => if thisBefore (ival other) (ival i) then other :: add_loop l i else i :: other :: l
  end.

Definition add (l : list T) (i : T) : list T :=
  match l with
  | [] => [i]
  | [other] => if thisBefore (ival other) (ival i) then [other; i] else [i; other]
  | _ => add_loop l i
  end.

Fixpoint contains (l : list T) (addr : Z) : option T :=
  match l with
  | [] => None
  | i :: l =>
      if addr <? from (ival i) then None
      else if Interval.contains (ival i) addr then Some i
      else contains l addr
  end.

Definition del (l : list T) (i : T) : list T * bool :=
  (remove_first (fun j => eqb (ival j) (ival i)) l, existsb (fun j => eqb (ival j) (ival i)) l).

End Template.

(** The scan of consecutive pairs. *)
Fixpoint find_gap (l : list interval_t) (sz : Z) : option interval_t :=
  match l with
  | i0 :: ((i1 :: _) as rest) =>
      if u32 (sz + to i0) <? from i1
      then Some (mkInterval (u32 (to i0 + 1)) (u32 (sz + to i0)))
      else find_gap rest sz
  | _ => None
  end.

(** The space after an interval, up to [max]. *)
Definition find_after (max : Z) (ival : interval_t) (sz : Z) : option interval_t :=
  if sz <=? u32 (max - to ival)
  then Some (mkInterval (u32 (to ival + 1)) (u32 (sz + to ival)))
  else None.

Definition findFree (max : Z) (l : list interval_t) (sz : Z) : option interval_t :=
  if sz =? 0 then None
  else
    match l with
    | [] => Some (mkInterval 0 (u32 (sz - 1)))
    | [ival] =>
        if sz <=? from ival then Some (mkInterval 0 (u32 (sz - 1)))
        else find_after max ival sz
    | _ =>
        match find_gap l sz with
        | Some r => Some r
        | None => ival ← list.last l; find_after max ival sz
        end
    end.

Definition add_size (max : Z) (l : list interval_t) (sz : Z) : option (interval_t * list interval_t) :=
  range ← findFree max l sz; Some (range, add l range).

Definition foreach {S} (f : S -> interval_t -> S * bool) (s : S) (l : list interval_t) : S :=
  foreach_stop f s l.

(** ** Invariant: proper, ordered, disjoint *)

Definition before (i j : interval_t) : Prop := to i < from j.
Definition ordered (l : list interval_t) : Prop := Forall wf l /\ StronglySorted before l.

(** The sums the scan computes do not leave the 32-bit range. *)
Definition no_wrap (sz : Z) (l : list interval_t) : Prop :=
  Forall (fun i => sz + to i < 2 ^ 32) (removelast l).

Lemma ordered_cons i l : ordered (i :: l) <-> wf i /\ Forall (before i) l /\ ordered l.
Proof.
  unfold ordered. rewrite Forall_cons_iff. split.
  - intros [[Hi Hl] Hs]. by apply StronglySorted_inv in Hs as [? ?].
  - intros (Hi & Hb & Hl & Hs). split_and!; try done. by constructor.
Qed.

Lemma disjoint_before i j : wf i -> wf j -> disjoint i j -> thisBefore i j = true <-> before i j.
Proof. unfold wf, disjoint, thisBefore, before. rewrite Z.leb_le. lia. Qed.

Lemma before_trans i j k : wf j -> before i j -> before j k -> before i k.
Proof. unfold before, wf. lia. Qed.

Lemma add_loop_perm `{HasInterval T} (l : list T) i : add_loop l i ≡ₚ i :: l.
Proof.
  induction l as [|j l IH]; simpl; [done|]. destruct (thisBefore (ival j) (ival i)); [|done].
  rewrite IH. apply perm_swap.
Qed.

Lemma add_loop_ordered l i :
  ordered l -> wf i -> Forall (disjoint i) l -> ordered (add_loop l i).
Proof.
  induction l as [|j l IH]; simpl; unfold ival, interval_itself; intros Hl Hi Hd.
  { apply ordered_cons. split_and!; done. }
  apply ordered_cons in Hl as (Hj & Hjl & Hl). apply Forall_cons_iff in Hd as [Hij Hd].
  assert (Hji : disjoint j i) by (unfold disjoint in *; lia).
  pose proof (disjoint_before j i Hj Hi Hji) as Hb.
  destruct (thisBefore j i) eqn:E.
  - apply ordered_cons. split_and!; [done| |by apply IH].
    rewrite add_loop_perm. constructor; [by apply Hb|done].
  - assert (before i j) as Hib.
    { unfold disjoint, before in *. destruct Hb as [_ Hb]. destruct Hji as [H|H]; [|done].
      specialize (Hb H). done. }
    apply ordered_cons. split_and!; [done| |apply ordered_cons; done].
    constructor; [done|]. eapply list.Forall_impl; [exact Hjl|]. intros k. by apply before_trans.
Qed.

Lemma add_add_loop `{HasInterval T} (l : list T) i : add l i = add_loop l i.
Proof. destruct l as [|j [|k l]]; simpl; try done. Qed.

(** On the intervals, the operations of an extended type are those of [interval_t]. *)
Lemma add_ival `{HasInterval T} (l : list T) i : ival <$> add l i = add (ival <$> l) (ival i).
Proof.
  rewrite !add_add_loop. induction l as [|j l IH]; [done|]. cbn [add_loop fmap list_fmap].
  change (ival (ival j)) with (ival j). change (ival (ival i)) with (ival i).
  destruct (thisBefore (ival j) (ival i)); [|done]. by rewrite <- IH.
Qed.

Lemma contains_ival `{HasInterval T} (l : list T) addr : ival <$> contains l addr = contains (ival <$> l) addr.
Proof.
  induction l as [|j l IH]; [done|]. cbn [contains fmap list_fmap]. change (ival (ival j)) with (ival j).
  destruct (addr <? from (ival j)); [done|]. destruct (Interval.contains (ival j) addr); [done|]. exact IH.
Qed.

Lemma del_ival `{HasInterval T} (l : list T) i :
  (ival <$> (del l i).1, (del l i).2) = del (ival <$> l) (ival i).
Proof.
  unfold del. cbn [fst snd]. f_equal; change (ival (ival i)) with (ival i).
  - induction l as [|j l IH]; [done|]. cbn [remove_first fmap list_fmap]. change (ival (ival j)) with (ival j).
    destruct (eqb (ival j) (ival i)); [done|]. by rewrite <- IH.
  - induction l as [|j l IH]; [done|]. cbn [existsb fmap list_fmap]. by rewrite <- IH.
Qed.

(** A range returned by the search is usable: proper, of the asked size, inside
    the space, and disjoint from every interval of the list. *)
Definition usable (max : Z) (l : list interval_t) (sz : Z) (r : interval_t) : Prop :=
  wf r /\ to r - from r + 1 = sz /\ to r <= max /\ Forall (disjoint r) l.

Lemma find_gap_after l r i1 sz :
  0 < sz -> ordered (i1 :: l) -> no_wrap sz (i1 :: l) ->
  find_gap (i1 :: l) sz = Some r -> to i1 < from r.
Proof.
  intros Hsz. revert r i1. induction l as [|i2 l IH]; intros r i1 Ho Hnw; [done|]. simpl.
  apply ordered_cons in Ho as (H1 & Hb & Ho). unfold no_wrap in Hnw. simpl in Hnw.
  apply Forall_cons_iff in Hnw as [Hw Hnw]. apply Forall_cons_iff in Hb as [H12 _].
  destruct (Z.ltb_spec (u32 (sz + to i1)) (from i2)).
  - intros [= <-]. simpl. unfold wf in H1. rewrite u32_id; unfold is_u in *; lia.
  - intros Hf. pose proof Ho as Ho'. apply ordered_cons in Ho' as (H2 & _ & _).
    specialize (IH r i2 Ho Hnw Hf). unfold before, wf in *. lia.
Qed.

Lemma find_gap_sound l sz r :
  ordered l -> 0 < sz -> no_wrap sz l -> find_gap l sz = Some r ->
  wf r /\ to r - from r + 1 = sz /\ Forall (disjoint r) l
  /\ exists i, i ∈ l /\ before r i.
Proof.
  induction l as [|i0 [|i1 l] IH]; simpl; try done. intros Ho Hsz Hnw.
  apply ordered_cons in Ho as (H0 & Hb0 & Ho). unfold no_wrap in Hnw. simpl in Hnw.
  apply Forall_cons_iff in Hnw as [Hw Hnw]. apply Forall_cons_iff in Hb0 as [H01 Hb0].
  pose proof Ho as Ho'. apply ordered_cons in Ho' as (H1 & Hb1 & _).
  unfold wf in H0, H1. unfold is_u in H0, H1.
  destruct (Z.ltb_spec (u32 (sz + to i0)) (from i1)) as [Hlt|Hge].
  - intros [= <-]. rewrite !u32_id in * by (unfold is_u; lia).
    split_and!; simpl; [split_and!; unfold is_u; simpl; lia|lia| |].
    + constructor; [right; simpl; lia|]. constructor; [left; simpl; lia|].
      eapply list.Forall_impl; [exact Hb1|]. intros k Hk. left. unfold before in Hk. simpl. lia.
    + exists i1. split; [right; left|]. unfold before. simpl. lia.
  - intros Hf. pose proof (find_gap_after l r i1 sz Hsz Ho Hnw Hf).
    destruct IH as (Hr & Hs & Hd & i & Hi & Hri); try done.
    split_and!; [done|done| |exists i; split; [by right|done]].
    constructor; [|done]. right. unfold before in H01. lia.
Qed.

Lemma find_after_sound max l ival sz r :
  is_u32 max -> ordered (l ++ [ival]) -> 0 < sz -> to ival <= max ->
  find_after max ival sz = Some r -> usable max (l ++ [ival]) sz r.
Proof.
  unfold find_after. intros Hmax [Hwf Hs] Hsz Hto.
  apply Forall_app in Hwf as [Hwl Hwi]. apply Forall_cons_iff in Hwi as [Hwi _].
  unfold wf, is_u in Hwi, Hmax.
  destruct (Z.leb_spec sz (u32 (max - to ival))) as [Hle|]; [|done]. intros [= <-].
  rewrite !u32_id in * by (unfold is_u; lia).
  split_and!; simpl; [split_and!; unfold is_u; simpl; lia|lia|lia|].
  apply Forall_app. split; [|constructor; [right; simpl; lia|done]].
  clear -Hs Hwl Hwi. induction l as [|j l IH]; [done|]. simpl in Hs.
  apply StronglySorted_inv in Hs as [Hs Hj]. apply Forall_cons_iff in Hwl as [Hwj Hwl].
  constructor; [|by apply IH]. right. simpl. apply Forall_app in Hj as [_ Hj].
  apply Forall_cons_iff in Hj as [Hj _]. unfold before in Hj. lia.
Qed.

Lemma findFree_sound max l sz r :
  is_u32 max -> ordered l -> Forall (fun i => to i <= max) l -> is_u32 sz -> sz <= max ->
  no_wrap sz l -> findFree max l sz = Some r -> usable max l sz r.
Proof.
  intros Hmax Ho Hto Hsz Hm Hnw. unfold findFree, is_u in *.
  destruct (Z.eqb_spec sz 0); [done|].
  destruct l as [|i0 [|i1 l]].
  - intros [= <-]. rewrite u32_id by (unfold is_u; lia).
    split_and!; simpl; [split_and!; unfold is_u; simpl; lia|lia|lia|done].
  - pose proof Ho as Ho'. apply ordered_cons in Ho' as (H0 & _). unfold wf, is_u in H0.
    apply Forall_cons_iff in Hto as [Hto _].
    destruct (Z.leb_spec sz (from i0)).
    + intros [= <-]. rewrite u32_id by (unfold is_u; lia).
      split_and!; simpl; [split_and!; unfold is_u; simpl; lia|lia|lia|].
      constructor; [left; simpl; lia|done].
    + intros Hf. eapply (find_after_sound max [] i0); eauto; unfold is_u; lia.
  - destruct (find_gap (i0 :: i1 :: l) sz) as [r'|] eqn:Hg.
    + intros [= ->]. destruct (find_gap_sound _ sz r Ho ltac:(lia) Hnw Hg) as (Hr & Hs & Hd & i & Hi & Hri).
      split_and!; try done. rewrite list.Forall_forall in Hto. specialize (Hto i Hi).
      destruct Ho as [Hwf _]. rewrite list.Forall_forall in Hwf. specialize (Hwf i Hi).
      unfold before, wf in *. lia.
    + intros Hf. destruct (list.last (i0 :: i1 :: l)) as [ival|] eqn:Hlast; [|done].
      apply last_Some in Hlast as [l' Hl']. rewrite Hl' in *. simpl in Hf.
      apply (find_after_sound max l' ival); auto; try lia.
      rewrite list.Forall_forall in Hto. apply Hto, elem_of_app. right. left.
Qed.

Lemma intervals_contain_spec l addr i :
  ordered l -> contains l addr = Some i <-> i ∈ l /\ from i <= addr <= to i.
Proof.
  intros Ho. induction l as [|j l IH]; simpl; unfold ival, interval_itself.
  { split; [done|]. intros [Hi _]. by apply not_elem_of_nil in Hi. }
  apply ordered_cons in Ho as (Hj & Hb & Ho). specialize (IH Ho).
  rewrite elem_of_cons. rewrite list.Forall_forall in Hb.
  destruct (Z.ltb_spec addr (from j)) as [Hlt|Hge].
  { split; [done|]. intros [[-> |Hi] Hr]; [lia|]. specialize (Hb i Hi).
    unfold before, wf in *. lia. }
  destruct (Interval.contains j addr) eqn:Hc.
  - apply contains_iff in Hc. split.
    + intros [= <-]. split; [by left|done].
    + intros [[-> |Hi] Hr]; [done|]. specialize (Hb i Hi). unfold before in Hb. lia.
  - rewrite IH. split; [tauto|]. intros [[-> |Hi] Hr]; [|done].
    apply contains_iff in Hr. congruence.
Qed.

Lemma ordered_disjoint l i j : ordered l -> i ∈ l -> j ∈ l -> i = j \/ disjoint i j.
Proof.
  intros Ho. induction l as [|k l IH]; [by intros ?%not_elem_of_nil|].
  apply ordered_cons in Ho as (Hk & Hb & Ho). rewrite list.Forall_forall in Hb. specialize (IH Ho). unfold disjoint, before in *.
  rewrite !elem_of_cons. intros [-> |Hi] [-> |Hj]; [by left|right; left; by apply Hb|right; right; by apply Hb|by apply IH].
Qed.

Lemma removelast_before l i : ordered l -> i ∈ removelast l -> exists j, j ∈ l /\ before i j.
Proof.
  intros Ho. induction l as [|k l IH]; [by intros ?%not_elem_of_nil|].
  apply ordered_cons in Ho as (Hk & Hb & Ho). rewrite list.Forall_forall in Hb.
  destruct l as [|k' l]; [by intros ?%not_elem_of_nil|]. change (removelast (k :: k' :: l)) with (k :: removelast (k' :: l)).
  rewrite elem_of_cons. intros [-> |Hi].
  - exists k'. split; [right; left|apply Hb; left].
  - destruct (IH Ho Hi) as (j & Hj & Hij). exists j. split; [by right|done].
Qed.

Lemma ordered_sublist l l' : sublist l' l -> ordered l -> ordered l'.
Proof.
  induction 1 as [|x l' l Hs IH|x l' l Hs IH]; intros Ho; [done| |].
  - apply ordered_cons in Ho as (Hx & Hb & Ho). apply ordered_cons. split_and!; [done| |by apply IH].
    rewrite list.Forall_forall in *. intros y Hy. apply Hb. by eapply sublist_subseteq.
  - apply ordered_cons in Ho as (_ & _ & Ho). by apply IH.
Qed.

End IntervalList.
