(* ===== verification/Hash.v ===== *)
(** * Hash table (kernel/include/libc/hash.h)

    The open hash table with [N] buckets, each an [slist] of pairs (used through
    the list functions [SList] shows it implements), and the proof that it is a
    partial map.  [KeyedStore], the sector cache of [Lru] and the directories of
    [RamFs] are built on it. *)

From stdpp Require Import base numbers list gmap option strings.
From Stdlib Require Import ZArith Lia.
From S2P Require Import Prelude.

Local Open Scope Z_scope.

Module Hash.

Section Table.
Context {Key Value : Type}.
Context (index : Key -> Z) (eq : Key -> Key -> bool) (N : nat).

(** [mData]: one chain of pairs per bucket. *)
Abbreviation table := (list (list (Key * Value))).

Implicit Types (t : table) (k : Key) (v : Value) (e : list (Key * Value)).

Definition new : table := replicate N [].

Definition bucket k : nat := Z.to_nat (index k mod Z.of_nat N).
Definition same k (c : Key * Value) : bool := eq c.1 k.

(** [insert]: the first entry with an equal key is unlinked, the new pair goes
    at the end of the chain. *)
Definition insert t k v : option table :=
  e ← t !! bucket k; Some (<[bucket k := remove_first (same k) e ++ [(k, v)]]> t).

Fixpoint find_entry e k : option Value :=
  match e with
  | [] => None
  | c :: e => if same k c then Some c.2 else find_entry e k
  end.

(** [find]: [Some None] is [false], [Some (Some v)] is [true] with [*value = v]. *)
Definition find t k : option (option Value) := e ← t !! bucket k; Some (find_entry e k).

Definition erase t k : option (table * bool) :=
  e ← t !! bucket k;
  Some (<[bucket k := remove_first (same k) e]> t, existsb (same k) e).

Definition clear t : table := (fun _ => []) <$> t.

(** ** The table as a partial map *)

Context (eq_spec : forall a b, eq a b = true <-> a = b) (N_pos : (0 < N)%nat).

(** Every entry is in the bucket of its key, and a key occurs once. *)
Definition ok t : Prop :=
  length t = N
  /\ forall i e, t !! i = Some e -> NoDup e.*1 /\ Forall (fun c => bucket c.1 = i) e.

Definition get t k : option Value := find_entry (default [] (t !! bucket k)) k.

Lemma bucket_lt k : (bucket k < N)%nat.
Proof.
  unfold bucket. pose proof (Z.mod_pos_bound (index k) (Z.of_nat N)). lia.
Qed.

Lemma bucket_some t k : ok t -> exists e, t !! bucket k = Some e.
Proof. intros [Hlen _]. apply lookup_lt_is_Some_2. rewrite Hlen. apply bucket_lt. Qed.

Lemma eq_refl' k : eq k k = true.
Proof. by apply eq_spec. Qed.

Lemma same_false k c : same k c = false <-> c.1 <> k.
Proof. unfold same. rewrite <- not_true_iff_false, eq_spec. done. Qed.

Lemma find_entry_app e1 e2 k :
  find_entry (e1 ++ e2) k = match find_entry e1 k with Some v => Some v | None => find_entry e2 k end.
Proof. induction e1 as [|c e1 IH]; simpl; [done|]. by destruct (same k c). Qed.

Lemma find_entry_none e k : find_entry e k = None <-> k ∉ e.*1.
Proof.
  induction e as [|c e IH]; simpl; [split; [intros _; apply not_elem_of_nil|done]|].
  rewrite not_elem_of_cons. destruct (same k c) eqn:Hs.
  - apply eq_spec in Hs. split; [done|]. intros [Hn _]. by destruct Hn.
  - apply same_false in Hs. rewrite IH. naive_solver.
Qed.

Lemma find_entry_remove_same e k : NoDup e.*1 -> find_entry (remove_first (same k) e) k = None.
Proof.
  induction e as [|c e IH]; simpl; [done|]. intros [Hc Hnd]%list.NoDup_cons.
  destruct (same k c) eqn:Hs; simpl.
  - apply find_entry_none. unfold same in Hs. apply eq_spec in Hs. by subst k.
  - rewrite Hs. by apply IH.
Qed.

Lemma find_entry_remove_other e k k' :
  k <> k' -> find_entry (remove_first (same k) e) k' = find_entry e k'.
Proof.
  intros Hne. induction e as [|c e IH]; simpl; [done|]. destruct (same k c) eqn:Hs; simpl.
  - unfold same in Hs. apply eq_spec in Hs. subst k.
    by rewrite (proj2 (same_false k' c)).
  - by rewrite IH.
Qed.

Lemma hash_ok_new : ok new.
Proof.
  split; [apply length_replicate|]. intros i e [-> _]%lookup_replicate.
  split; constructor.
Qed.

Lemma ok_set_bucket t k e e' :
  ok t -> t !! bucket k = Some e -> NoDup e'.*1 -> Forall (fun c => bucket c.1 = bucket k) e' ->
  ok (<[bucket k := e']> t).
Proof.
  intros [Hlen Hb] He Hnd Hall. split; [by rewrite length_insert|].
  intros i f. rewrite list_lookup_insert. case_decide as E.
  - intros [= <-]. destruct E as [<- _]. by split.
  - apply Hb.
Qed.

Lemma bucket_remove t k e : ok t -> t !! bucket k = Some e ->
  NoDup (remove_first (same k) e).*1 /\ k ∉ (remove_first (same k) e).*1
  /\ Forall (fun c => bucket c.1 = bucket k) (remove_first (same k) e).
Proof.
  intros [_ Hb] He. destruct (Hb _ _ He) as [Hnd Hall]. split_and!.
  - eapply sublist_NoDup; [exact Hnd|]. apply fmap_sublist, remove_first_sublist.
  - apply find_entry_none, find_entry_remove_same. done.
  - rewrite list.Forall_forall in *. intros c Hc. apply Hall. by eapply elem_of_remove_first.
Qed.

Lemma get_set_bucket t k e k' :
  ok t -> get (<[bucket k := e]> t) k' = if decide (bucket k' = bucket k) then find_entry e k' else get t k'.
Proof.
  intros [Hlen _]. unfold get. rewrite list_lookup_insert. pose proof (bucket_lt k).
  repeat case_decide; try done; lia.
Qed.

Lemma find_get t k : ok t -> find t k = Some (get t k).
Proof. intros Ht. destruct (bucket_some t k Ht) as [e He]. unfold find, get. by rewrite He. Qed.

Lemma hash_insert_spec t k v : ok t ->
  exists t', insert t k v = Some t' /\ ok t' /\
    forall k', get t' k' = if eq k' k then Some v else get t k'.
Proof.
  intros Ht. destruct (bucket_some t k Ht) as [e He]. unfold insert. rewrite He. simpl.
  destruct (bucket_remove t k e Ht He) as (Hnd & Hk & Hall).
  eexists. split; [done|]. split.
  - eapply ok_set_bucket; eauto.
    + rewrite fmap_app. apply list.NoDup_app. split_and!; [done| |apply NoDup_singleton].
      intros x Hx ->%list_elem_of_singleton. done.
    + apply Forall_app. by split; [|constructor].
  - intros k'. rewrite get_set_bucket by done. rewrite find_entry_app.
    assert (Hge : bucket k' = bucket k -> get t k' = find_entry e k').
    { intros Hb. unfold get. by rewrite Hb, He. }
    destruct (eq k' k) eqn:E; [apply eq_spec in E as ->|
      assert (Hne : k' <> k) by (intros ->; by rewrite eq_refl' in E)].
    + rewrite decide_True by done. rewrite (proj2 (find_entry_none _ _) Hk). simpl.
      unfold same. simpl. by rewrite eq_refl'.
    + case_decide as Hb; [|done]. rewrite find_entry_remove_other by done. rewrite Hge by done.
      destruct (find_entry e k'); [done|]. simpl. by rewrite (proj2 (same_false k' (k, v))).
Qed.

Lemma erase_spec t k : ok t ->
  exists t', erase t k = Some (t', bool_decide (is_Some (get t k))) /\ ok t' /\
    forall k', get t' k' = if eq k' k then None else get t k'.
Proof.
  intros Ht. destruct (bucket_some t k Ht) as [e He]. unfold erase. rewrite He. simpl.
  destruct (bucket_remove t k e Ht He) as (Hnd & Hk & Hall).
  eexists. split; [|split].
  - do 2 f_equal. unfold get. rewrite He. simpl. clear. induction e as [|c e IH]; simpl; [done|].
    by destruct (same k c).
  - eapply ok_set_bucket; eauto.
  - intros k'. rewrite get_set_bucket by done.
    destruct (eq k' k) eqn:E; [apply eq_spec in E as ->|
      assert (Hne : k' <> k) by (intros ->; by rewrite eq_refl' in E)].
    + rewrite decide_True by done. by apply find_entry_none.
    + case_decide as Hb; [|done]. rewrite find_entry_remove_other by done. unfold get. by rewrite Hb, He.
Qed.

Lemma get_new k : get new k = None.
Proof.
  unfold get, new. destruct (replicate N [] !! bucket k) as [e|] eqn:E; [|done].
  by apply lookup_replicate in E as [-> _].
Qed.

Lemma hash_clear_spec t k : ok t -> ok (clear t) /\ get (clear t) k = None.
Proof.
  intros [Hlen Hb]. unfold clear. split; [split|].
  - by rewrite length_fmap.
  - intros i e. rewrite list_lookup_fmap. destruct (t !! i); simpl; [|done]. intros [= <-].
    split; constructor.
  - unfold get. rewrite list_lookup_fmap. by destruct (t !! bucket k).
Qed.

End Table.

End Hash.
