(* ===== verification/KeyedStore.v ===== *)
(** * Kernel strings and the reference-counted store of named objects
    (kernel/include/libc/str.h, kernel/src/libc/str.cpp,
    kernel/include/libc/keyedstore.h)

    [KStr] is the value of the kernel's [string] class: a null buffer or a C
    string.  [KeyedStore] keeps its entries behind pointers, as the code does:
    the hash table maps a name to the address of a [val_t] cell, and [++] and
    [--] of the count go through that address.  The file proves that a sequence
    of operations keeps, for every name, the count of outstanding references. *)

From stdpp Require Import base numbers list gmap option strings.
From Stdlib Require Import ZArith Lia Ascii.
From S2P Require Import Prelude Hash.

Local Open Scope Z_scope.

Module KStr.

(** [mBuffer]: null, or the characters up to the terminator. *)
Record kstring := mkString { mBuffer : option string }.

#[global] Instance kstring_eq_dec : EqDecision kstring.
Proof. solve_decision. Defined.

Definition reset (buffer : option string) : kstring := mkString buffer.
Definition of_cstr (buffer : option string) : kstring := reset buffer.
Definition copy (s : kstring) : kstring := of_cstr (mBuffer s).

Fixpoint repeat_char (c : ascii) (n : nat) : string :=
  match n with
  | O => EmptyString
  | S n => String c (repeat_char c n)
  end.

(** [string(char c, size_t n)] for a character that is not the terminator. *)
Definition of_char (c : ascii) (n : nat) : kstring :=
  match n with
  | O => mkString None
  | S _ => mkString (Some (repeat_char c n))
  end.

Definition size (s : kstring) : nat :=
  match mBuffer s with Some b => String.length b | None => O end.

Definition eqb (a b : kstring) : bool :=
  match mBuffer a, mBuffer b with
  | Some x, Some y => String.eqb x y
  | None, None => true
  | _, _ => false
  end.

Lemma eqb_spec a b : eqb a b = true <-> a = b.
Proof.
  destruct a as [[x|]], b as [[y|]]; unfold eqb; simpl; try (split; [done|by intros [=]]).
  rewrite String.eqb_eq. split; [by intros ->|by intros [= ->]].
Qed.

End KStr.

Module KeyedStore.
Import KStr.

(** [*s] is a [char], which is signed on this target. *)
Definition schar (c : ascii) : Z :=
  let n := Z.of_nat (nat_of_ascii c) in if n <? 128 then n else n - 256.

(** [for (; *s; ++s) i = (31 * i) + *s;] in [size_t]. *)
Fixpoint index_loop (s : string) (i : Z) : Z :=
  match s with
  | EmptyString => i
  | String c s => index_loop s (u32 (31 * i + schar c))
  end.

Definition index (st : kstring) : Z :=
  match mBuffer st with
  | None => 0
  | Some s => if (KStr.size st =? 0)%nat then 0 else index_loop s 0
  end.

Section Store.
Context {T Args : Type}.
(** [new T(key, args...)] *)
Context (make : option string -> Args -> T).
Context (N : nat).

(** A [val_t] holds the object pointer and the count; cells and objects live in
    the kernel heap. *)
Record store := mkStore {
  mHash : list (list (kstring * nat));
  vals : gmap nat (nat * Z);
  objs : gmap nat T;
  brk : nat;
}.

Implicit Types s : store.

Definition new : store := mkStore (Hash.new N) ∅ ∅ 0.

Definition find s (key : option string) : option (option nat) :=
  Hash.find index eqb N (mHash s) (of_cstr key).

(** [makeOrNull]: null when the name is taken. *)
Definition makeOrNull s (key : option string) (args : Args) : option (store * option nat) :=
  f ← find s key;
  match f with
  | Some _ => Some (s, None)
  | None =>
      let o := brk s in
      let p := S o in
      h ← Hash.insert index eqb N (mHash s) (of_cstr key) p;
      Some (mkStore h (<[p := (o, 1)]> (vals s)) (<[o := make key args]> (objs s)) (S p), Some o)
  end.

Definition getOrNull s (key : option string) : option (store * option nat) :=
  f ← find s key;
  match f with
  | None => Some (s, None)
  | Some p =>
      v ← vals s !! p;
      Some (mkStore (mHash s) (<[p := (v.1, u32 (v.2 + 1))]> (vals s)) (objs s) (brk s), Some v.1)
  end.

Definition getOrMake s (key : option string) (args : Args) : option (store * option nat) :=
  r ← makeOrNull s key args;
  match r.2 with
  | Some o => Some (r.1, Some o)
  | None => getOrNull r.1 key
  end.

Definition release s (key : option string) : option (store * bool) :=
  f ← find s key;
  match f with
  | None => Some (s, false)
  | Some p =>
      v ← vals s !! p;
      let n := u32 (v.2 - 1) in
      if n =? 0 then
        e ← Hash.erase index eqb N (mHash s) (of_cstr key);
        Some (mkStore e.1 (delete p (vals s)) (delete v.1 (objs s)) (brk s), true)
      else
        Some (mkStore (mHash s) (<[p := (v.1, n)]> (vals s)) (objs s) (brk s), false)
  end.

(** ** Abstract store: the outstanding references of each name *)

Context (N_pos : (0 < N)%nat).

Definition hget s (k : kstring) : option nat := Hash.get index eqb N (mHash s) k.

(** [refs k] outstanding references; the object of a live name exists, distinct
    names have distinct cells and objects. *)
Record srep s (refs : kstring -> Z) : Prop := {
  s_ok : Hash.ok index N (mHash s);
  s_live : forall k p, hget s k = Some p ->
    exists o x, vals s !! p = Some (o, refs k) /\ objs s !! o = Some x
      /\ 0 < refs k < 2 ^ 32 /\ (p < brk s)%nat /\ (o < brk s)%nat;
  s_dead : forall k, hget s k = None -> refs k = 0;
  s_inj : forall k k' p p' o n n', hget s k = Some p -> hget s k' = Some p' ->
    vals s !! p = Some (o, n) -> vals s !! p' = Some (o, n') -> k = k';
  s_inj_p : forall k k' p, hget s k = Some p -> hget s k' = Some p -> k = k';
}.

Definition upd (refs : kstring -> Z) (k : kstring) (n : Z) : kstring -> Z :=
  fun k' => if eqb k' k then n else refs k'.

Lemma upd_same refs k n : upd refs k n k = n.
Proof. unfold upd. by rewrite (proj2 (eqb_spec k k)). Qed.

Lemma upd_other refs k n k' : k' <> k -> upd refs k n k' = refs k'.
Proof.
  intros Hne. unfold upd. destruct (eqb k' k) eqn:E; [|done]. by apply eqb_spec in E.
Qed.

Lemma find_hget s refs key : srep s refs -> find s key = Some (hget s (of_cstr key)).
Proof. intros Hs. unfold find, hget. apply Hash.find_get; [done|apply Hs]. Qed.

Lemma srep_new : srep new (fun _ => 0).
Proof.
  assert (Hn : forall k, hget new k = None) by (intros; apply Hash.get_new).
  split; intros; try done; try (rewrite Hn in *; done). by apply Hash.hash_ok_new.
Qed.

(** Writing a new count through the pointer of a live name. *)
Lemma srep_set_count s refs k p o n' :
  srep s refs -> hget s k = Some p -> vals s !! p = Some (o, refs k) -> 0 < n' < 2 ^ 32 ->
  srep (mkStore (mHash s) (<[p := (o, n')]> (vals s)) (objs s) (brk s)) (upd refs k n').
Proof.
  intros Hs Hk Hp Hn. split; unfold hget; simpl.
  - apply Hs.
  - intros k' p' Hk'. destruct (s_live s refs Hs k' p' Hk') as (o' & x & Hv & Ho & Hr & Hb1 & Hb2).
    destruct (decide (k' = k)) as [->|Hne].
    + assert (p' = p) as -> by (unfold hget in *; congruence).
      assert (o' = o) as -> by congruence. exists o, x.
      by rewrite lookup_insert_eq, upd_same.
    + exists o', x. rewrite upd_other by done. rewrite lookup_insert_ne; [done|].
      intros ->. apply Hne. by eapply (s_inj_p s refs Hs).
  - intros k' Hk'. rewrite upd_other; [by apply Hs|]. intros ->. unfold hget in Hk. congruence.
  - intros k1 k2 p1 p2 o1 n1 n2 H1 H2. rewrite !lookup_insert.
    repeat case_decide; intros; simplify_eq;
      solve [by eapply (s_inj_p s refs Hs) | eapply (s_inj s refs Hs); eauto].
  - apply Hs.
Qed.

Lemma getOrNull_spec s refs key :
  srep s refs -> refs (of_cstr key) + 1 < 2 ^ 32 ->
  exists s' r, getOrNull s key = Some (s', r)
    /\ (r = None <-> hget s (of_cstr key) = None)
    /\ srep s' (if r then upd refs (of_cstr key) (refs (of_cstr key) + 1) else refs).
Proof.
  intros Hs Hov. unfold getOrNull. rewrite (find_hget s refs) by done. simpl.
  destruct (hget s (of_cstr key)) as [p|] eqn:Hk; [|by eauto 10].
  destruct (s_live s refs Hs _ p Hk) as (o & x & Hv & Ho & Hr & _). rewrite Hv. simpl.
  eexists _, _. split; [done|]. split; [done|]. rewrite u32_id by (unfold is_u; lia).
  apply srep_set_count; try done. lia.
Qed.

Lemma makeOrNull_spec s refs key args :
  srep s refs ->
  exists s' r, makeOrNull s key args = Some (s', r)
    /\ (r = None <-> hget s (of_cstr key) <> None)
    /\ srep s' (if r then upd refs (of_cstr key) 1 else refs).
Proof.
  intros Hs. unfold makeOrNull. rewrite (find_hget s refs) by done. simpl.
  destruct (hget s (of_cstr key)) as [p|] eqn:Hk.
  { exists s, None. split_and!; naive_solver. }
  set (k := of_cstr key) in *. set (o := brk s). set (p := S o).
  destruct (Hash.hash_insert_spec index eqb N eqb_spec N_pos (mHash s) k p (s_ok s refs Hs))
    as (h & -> & Hok & Hget). simpl. eexists _, (Some o). split; [done|]. split; [done|].
  assert (Hcase : forall k' q, Hash.get index eqb N h k' = Some q ->
    (k' = k /\ q = p) \/ (k' <> k /\ hget s k' = Some q /\ (q < o)%nat)).
  { intros k' q. rewrite Hget. destruct (eqb k' k) eqn:E.
    - apply eqb_spec in E. intros [= <-]. by left.
    - intros Hq. right. split_and!; [|done|].
      + intros ->. by rewrite (proj2 (eqb_spec k k)) in E.
      + destruct (s_live s refs Hs k' q Hq) as (? & ? & _ & _ & _ & ? & _). done. }
  assert (Hvals : forall k' q, hget s k' = Some q -> (q < o)%nat ->
    exists o' x, <[p := (o, 1)]> (vals s) !! q = Some (o', refs k')
      /\ <[o := make key args]> (objs s) !! o' = Some x
      /\ 0 < refs k' < 2 ^ 32 /\ (o' < o)%nat).
  { intros k' q Hq Hlt. destruct (s_live s refs Hs k' q Hq) as (o' & x & Hv & Ho & Hr & _ & Ho').
    exists o', x. rewrite !lookup_insert_ne by (subst p o; lia). done. }
  split; unfold hget; simpl.
  - done.
  - intros k' q Hq. destruct (Hcase k' q Hq) as [[-> ->]|(Hne & Hq' & Hlt)].
    + exists o, (make key args). rewrite !lookup_insert_eq, upd_same. split_and!; try done; subst p o; lia.
    + destruct (Hvals k' q Hq' Hlt) as (o' & x & Hv & Ho & Hr & Hlo). exists o', x.
      rewrite upd_other by done. split_and!; try done; subst p o; lia.
  - intros k' Hn. rewrite Hget in Hn. destruct (eqb k' k) eqn:E; [done|].
    unfold upd. rewrite E. by apply (s_dead s refs Hs).
  - intros k1 k2 p1 p2 o1 n1 n2 H1 H2.
    destruct (Hcase k1 p1 H1) as [[-> ->]|(Hne1 & H1' & Hl1)],
             (Hcase k2 p2 H2) as [[-> ->]|(Hne2 & H2' & Hl2)]; try done.
    + rewrite lookup_insert_eq. destruct (Hvals k2 p2 H2' Hl2) as (o' & x & -> & _ & _ & Hlo).
      intros; simplify_eq; lia.
    + rewrite lookup_insert_eq. destruct (Hvals k1 p1 H1' Hl1) as (o' & x & -> & _ & _ & Hlo).
      intros; simplify_eq; lia.
    + rewrite !lookup_insert_ne by (subst p; lia). by apply (s_inj s refs Hs).
  - intros k1 k2 q H1 H2.
    destruct (Hcase k1 q H1) as [[-> Hq1]|(Hne1 & H1' & Hl1)],
             (Hcase k2 q H2) as [[-> Hq2]|(Hne2 & H2' & Hl2)]; try done; try (subst q p; lia).
    by eapply (s_inj_p s refs Hs).
Qed.

Lemma release_spec s refs key :
  srep s refs ->
  exists s' b, release s key = Some (s', b)
    /\ b = (refs (of_cstr key) =? 1)
    /\ srep s' (upd refs (of_cstr key) (Z.max 0 (refs (of_cstr key) - 1)))
    /\ (b = true -> forall p o n, hget s (of_cstr key) = Some p -> vals s !! p = Some (o, n) ->
          objs s' !! o = None /\ vals s' !! p = None).
Proof.
  intros Hs. unfold release. rewrite (find_hget s refs) by done. simpl. set (k := of_cstr key) in *.
  destruct (hget s k) as [p|] eqn:Hk.
  - destruct (s_live s refs Hs k p Hk) as (o & x & Hv & Ho & Hr & Hb1 & Hb2). rewrite Hv. simpl.
    rewrite u32_id by (unfold is_u; lia). destruct (Z.eqb_spec (refs k - 1) 0) as [E|E].
    + destruct (Hash.erase_spec index eqb N eqb_spec N_pos (mHash s) k (s_ok s refs Hs))
        as (h & -> & Hok & Hget). simpl. eexists _, true. split; [done|]. split.
      { symmetry. apply Z.eqb_eq. lia. } split.
      * rewrite E. simpl.
        assert (Hcase : forall k' q, Hash.get index eqb N h k' = Some q -> k' <> k /\ hget s k' = Some q /\ q <> p).
        { intros k' q. rewrite Hget. destruct (eqb k' k) eqn:Ek; [done|]. intros Hq.
          assert (Hne : k' <> k) by (intros ->; by rewrite (proj2 (eqb_spec k k)) in Ek).
          split_and!; [done|done|]. intros ->. apply Hne. by eapply (s_inj_p s refs Hs). }
        split; unfold hget; simpl; [done| | | |].
        -- intros k' q Hq. destruct (Hcase k' q Hq) as (Hne & Hq' & Hqp).
           destruct (s_live s refs Hs k' q Hq') as (o' & x' & Hv' & Ho' & Hr' & Hb1' & Hb2').
           exists o', x'. rewrite upd_other by done. rewrite !lookup_delete_ne; try done.
           intros ->. apply Hne. by eapply (s_inj s refs Hs k' k).
        -- intros k' Hn. rewrite Hget in Hn. unfold upd. destruct (eqb k' k); [done|].
           by apply (s_dead s refs Hs).
        -- intros k1 k2 p1 p2 o1 n1 n2 H1 H2 [_ ?]%lookup_delete_Some [_ ?]%lookup_delete_Some.
           destruct (Hcase k1 p1 H1) as (_ & ? & _), (Hcase k2 p2 H2) as (_ & ? & _).
           by eapply (s_inj s refs Hs).
        -- intros k1 k2 q H1 H2. destruct (Hcase k1 q H1) as (_ & ? & _), (Hcase k2 q H2) as (_ & ? & _).
           by eapply (s_inj_p s refs Hs).
      * intros _ p' o' n' [= <-] Hv'. rewrite Hv in Hv'. simplify_eq. simpl.
        by rewrite !lookup_delete_eq.
    + eexists _, false. split; [done|]. split_and!; [|rewrite Z.max_r by lia; apply srep_set_count; try done; lia|done].
      symmetry. apply Z.eqb_neq. lia.
  - pose proof (s_dead s refs Hs k Hk) as H0. exists s, false. rewrite H0. split_and!; try done.
    assert (Hext : forall k', upd refs k (Z.max 0 (0 - 1)) k' = refs k').
    { intros k'. unfold upd. destruct (eqb k' k) eqn:E; [|done]. apply eqb_spec in E as ->. done. }
    destruct Hs as [Hok Hlive Hdead Hinj Hinjp]. split; try done.
    + intros k' p' Hp'. rewrite Hext. by apply Hlive.
    + intros k' Hn. rewrite Hext. by apply Hdead.
Qed.

End Store.
End KeyedStore.
