(* ===== verification/Lru.v ===== *)
(** * The sector cache of a volume (kernel/include/fs/vol/lru.h)

    [LRUCache] keeps the sector numbers in an [slist], most recent first, and the
    contents in a hash table.  [Lru.crep] relates it to its specification: one
    list of (sector, contents) pairs in order of recency, with at most
    [gCacheSize] entries. *)

From stdpp Require Import base numbers list gmap option.
From Stdlib Require Import ZArith Lia.
From S2P Require Import Prelude Hash.

Local Open Scope Z_scope.

Module Lru.

Section Cache.
Context {SectorData : Type} (gCacheSize : nat).

(** [HashHelper] *)
Definition index (sid : Z) : Z := sid.
Definition eq (s1 s2 : Z) : bool := s1 =? s2.

Record cache := mkCache {
  mData : list Z;
  mHash : list (list (Z * SectorData));
}.

Implicit Types c : cache.

Definition new : cache := mkCache [] (Hash.new gCacheSize).

Definition removeAll (l : list Z) (sid : Z) : list Z := filter (fun x => (x =? sid) = false) l.

(** [find]: [Some (c, None)] is [false]. *)
Definition find c (sid : Z) (update : bool) : option (cache * option SectorData) :=
  found ← Hash.find index eq gCacheSize (mHash c) sid;
  match found with
  | Some d =>
      if update then Some (mkCache (sid :: removeAll (mData c) sid) (mHash c), Some d)
      else Some (c, Some d)
  | None => Some (c, None)
  end.

Definition insert c (sid : Z) (value : SectorData) : option cache :=
  c ← (if (gCacheSize <=? length (mData c))%nat then
         b ← list.last (mData c);
         e ← Hash.erase index eq gCacheSize (mHash c) b;
         Some (mkCache (removeAll (mData c) b) e.1)
       else Some c);
  h ← Hash.insert index eq gCacheSize (mHash c) sid value;
  Some (mkCache (sid :: removeAll (mData c) sid) h).

(** ** Specification: entries in order of recency *)

Abbreviation entries := (list (Z * SectorData)).

Definition without (l : entries) (sid : Z) : entries := filter (fun e => (e.1 =? sid) = false) l.

Fixpoint assoc (l : entries) (sid : Z) : option SectorData :=
  match l with
  | [] => None
  | e :: l => if e.1 =? sid then Some e.2 else assoc l sid
  end.

Definition spec_find (l : entries) (sid : Z) (update : bool) : entries * option SectorData :=
  match assoc l sid with
  | Some d => (if update then (sid, d) :: without l sid else l, Some d)
  | None => (l, None)
  end.

Definition spec_insert (l : entries) (sid : Z) (value : SectorData) : entries :=
  let l := if (gCacheSize <=? length l)%nat then removelast l else l in
  (sid, value) :: without l sid.

Record crep c (l : entries) : Prop := {
  c_nodup : NoDup l.*1;
  c_data : mData c = l.*1;
  c_hash : Hash.ok index gCacheSize (mHash c);
  c_get : forall sid, Hash.get index eq gCacheSize (mHash c) sid = assoc l sid;
  c_bound : (length l <= gCacheSize)%nat;
}.

Context (cache_pos : (0 < gCacheSize)%nat).

Lemma eq_spec a b : eq a b = true <-> a = b.
Proof. apply Z.eqb_eq. Qed.

Lemma assoc_without l sid k : assoc (without l sid) k = if k =? sid then None else assoc l k.
Proof.
  induction l as [|e l IH]; simpl; [by destruct (k =? sid)|].
  unfold without in *. rewrite filter_cons.
  destruct (Z.eqb_spec e.1 sid), (Z.eqb_spec k sid), (Z.eqb_spec e.1 k);
    simpl; rewrite ?IH; try lia; try done; destruct (Z.eqb_spec e.1 k); try lia; done.
Qed.

Lemma fst_without l sid : (without l sid).*1 = removeAll l.*1 sid.
Proof.
  induction l as [|e l IH]; [done|]. unfold without, removeAll in *.
  rewrite fmap_cons, !filter_cons. repeat case_decide; [rewrite fmap_cons; f_equal|]; exact IH.
Qed.

Lemma elem_of_without l sid k : k ∈ (without l sid).*1 <-> k ∈ l.*1 /\ k <> sid.
Proof.
  rewrite fst_without. unfold removeAll. rewrite list_elem_of_filter, Z.eqb_neq. tauto.
Qed.

Lemma NoDup_without l sid : NoDup l.*1 -> NoDup (without l sid).*1.
Proof. intros. rewrite fst_without. by apply list.NoDup_filter. Qed.

Lemma assoc_None l k : assoc l k = None <-> k ∉ l.*1.
Proof.
  induction l as [|e l IH]; simpl; [split; [intros _; apply not_elem_of_nil|done]|].
  rewrite not_elem_of_cons. destruct (Z.eqb_spec e.1 k); [naive_solver|].
  rewrite IH. naive_solver.
Qed.

Lemma length_without l sid d : NoDup l.*1 -> assoc l sid = Some d -> S (length (without l sid)) = length l.
Proof.
  induction l as [|e l IH]; simpl; [done|]. intros [He Hnd]%list.NoDup_cons.
  unfold without in *. rewrite filter_cons.
  destruct (Z.eqb_spec e.1 sid) as [E|E]; simpl; intros Ha.
  - f_equal. rewrite list_filter_all; [done|]. intros x Hx. apply Z.eqb_neq. intros Hx1.
    apply He. rewrite E, <- Hx1. by apply list_elem_of_fmap_2.
  - by rewrite IH.
Qed.

Lemma crep_new : crep new [].
Proof.
  split; simpl; [constructor|done|by apply Hash.hash_ok_new|intros sid; apply Hash.get_new|lia].
Qed.

Lemma length_without_le l sid : (length (without l sid) <= length l)%nat.
Proof. apply length_filter. Qed.

Lemma find_spec c l sid update : crep c l ->
  exists c', find c sid update = Some (c', (spec_find l sid update).2)
    /\ crep c' (spec_find l sid update).1.
Proof.
  intros Hc. unfold find, spec_find.
  rewrite (Hash.find_get index eq gCacheSize cache_pos) by apply Hc. simpl.
  rewrite (c_get c l Hc). destruct (assoc l sid) as [d|] eqn:Ha; [|by eauto].
  destruct update; [|by eauto]. eexists. split; [done|].
  split; simpl.
  - apply list.NoDup_cons. rewrite elem_of_without. split; [tauto|]. apply NoDup_without, Hc.
  - by rewrite (c_data c l Hc), fst_without.
  - apply Hc.
  - intros k. rewrite (c_get c l Hc), assoc_without, Z.eqb_sym.
    destruct (Z.eqb_spec k sid) as [->|]; done.
  - rewrite (length_without l sid d); [apply Hc|apply Hc|done].
Qed.

(** Dropping the least recent entry when the cache is full. *)
Lemma evict_spec c l : crep c l ->
  exists c', (if (gCacheSize <=? length (mData c))%nat then
       b ← list.last (mData c);
       e ← Hash.erase index eq gCacheSize (mHash c) b;
       Some (mkCache (removeAll (mData c) b) e.1)
     else Some c) = Some c'
    /\ let l' := if (gCacheSize <=? length l)%nat then removelast l else l in
       crep c' l' /\ (length l' < gCacheSize)%nat.
Proof.
  intros Hc. rewrite (c_data c l Hc), length_fmap.
  destruct (Nat.leb_spec gCacheSize (length l)) as [Hfull|Hroom]; [|eauto].
  assert (Hne : l <> []) by (intros ->; simpl in Hfull; lia).
  destruct (exists_last Hne) as (l' & [b d] & ->).
  rewrite fmap_app. simpl. rewrite last_snoc. simpl.
  destruct (Hash.erase_spec index eq gCacheSize eq_spec cache_pos (mHash c) b (c_hash c _ Hc))
    as (h & -> & Hok & Hget). simpl. eexists. split; [done|].
  rewrite removelast_last. pose proof (c_nodup c _ Hc) as Hnd. rewrite fmap_app in Hnd.
  apply list.NoDup_app in Hnd as (Hnd & Hdis & _).
  assert (Hb : b ∉ l'.*1) by (intros Hb; apply (Hdis b Hb); left).
  pose proof (c_bound c _ Hc) as Hlen. rewrite length_app in Hlen. simpl in Hlen.
  split; [|lia]. split; simpl; try done; [| |lia].
  - unfold removeAll. rewrite list.filter_app, filter_cons_False, filter_nil, app_nil_r by (by rewrite Z.eqb_refl).
    apply list_filter_all. intros x Hx. apply Z.eqb_neq. by intros ->.
  - intros k. rewrite Hget, (c_get c _ Hc). unfold eq.
    assert (Happ : assoc (l' ++ [(b, d)]) k = match assoc l' k with Some v => Some v | None => if b =? k then Some d else None end).
    { clear. induction l' as [|e l' IH]; simpl; [done|]. by destruct (e.1 =? k). }
    rewrite Happ. destruct (Z.eqb_spec k b) as [->|].
    + symmetry. by apply assoc_None.
    + destruct (Z.eqb_spec b k); [lia|]. by destruct (assoc l' k).
Qed.

Lemma lru_insert_spec c l sid d : crep c l ->
  exists c', insert c sid d = Some c' /\ crep c' (spec_insert l sid d).
Proof.
  intros Hc. unfold insert, spec_insert. destruct (evict_spec c l Hc) as (c1 & -> & Hc1 & Hroom).
  simpl. set (l1 := if (gCacheSize <=? length l)%nat then removelast l else l) in *.
  destruct (Hash.hash_insert_spec index eq gCacheSize eq_spec cache_pos (mHash c1) sid d (c_hash c1 _ Hc1))
    as (h & -> & Hok & Hget). simpl. eexists. split; [done|]. split; simpl.
  - apply list.NoDup_cons. rewrite elem_of_without. split; [tauto|]. apply NoDup_without, Hc1.
  - by rewrite (c_data c1 _ Hc1), fst_without.
  - done.
  - intros k. rewrite Hget, (c_get c1 _ Hc1), assoc_without. unfold eq.
    rewrite (Z.eqb_sym sid k). by destruct (k =? sid).
  - pose proof (length_without_le l1 sid). lia.
Qed.

End Cache.
End Lru.
