(* ===== verification/Tables.v ===== *)
(** * Slot tables: process bitmap, process table, handle table
    (kernel/include/process/bitmap.h, process/table.h, fs/handletable.h)

    [BitArray] is the packed array of flags shared by the two tables that hand
    out slots: bit [i] lives in byte [i / 8] under mask [1 << (i % 8)].
    [PidBitmap] hands out process ids and GDT slots, [ProcessTable] maps an id to
    its process, [Handletable] maps a file descriptor to an open file. *)

From stdpp Require Import base numbers list option.
From Stdlib Require Import ZArith Lia.
From S2P Require Import Prelude.

Local Open Scope nat_scope.

#[local] Arguments Nat.modulo : simpl never.
#[local] Arguments Nat.div : simpl never.

Module BitArray.

Definition mask (i : nat) : Z := Z.shiftl 1 (Z.of_nat (i mod 8)).

Definition is_set (a : list Z) (i : nat) : option bool :=
  b ← a !! (i / 8); Some (negb (Z.land b (mask i) =? 0)%Z).
Definition set (a : list Z) (i : nat) : list Z :=
  alter (fun b => Z.lor b (mask i)) (i / 8) a.
Definition clear (a : list Z) (i : nat) : list Z :=
  alter (fun b => Z.land b (Z.lnot (mask i))) (i / 8) a.

(** The flag as a bit. *)
Definition bit (a : list Z) (i : nat) : bool :=
  Z.testbit (default 0%Z (a !! (i / 8))) (Z.of_nat (i mod 8)).

Lemma mask_bit i j : Z.testbit (mask i) (Z.of_nat (j mod 8)) = bool_decide (i mod 8 = j mod 8).
Proof.
  unfold mask. rewrite Z.shiftl_spec by lia.
  destruct (decide (i mod 8 = j mod 8)) as [E|E].
  - rewrite bool_decide_eq_true_2, E, Z.sub_diag by done. done.
  - rewrite bool_decide_eq_false_2 by done.
    destruct (Z.lt_ge_cases (Z.of_nat (j mod 8) - Z.of_nat (i mod 8)) 0).
    + by apply Z.testbit_neg_r.
    + apply Z.bits_above_log2; [lia|change (Z.log2 1) with 0%Z; lia].
Qed.

Lemma land_mask b i : negb (Z.land b (mask i) =? 0)%Z = Z.testbit b (Z.of_nat (i mod 8)).
Proof.
  destruct (Z.testbit b (Z.of_nat (i mod 8))) eqn:E.
  - apply negb_true_iff, Z.eqb_neq. intros H0.
    apply (f_equal (fun z => Z.testbit z (Z.of_nat (i mod 8)))) in H0.
    rewrite Z.land_spec, E, mask_bit, bool_decide_eq_true_2, Z.testbit_0_l in H0; done.
  - apply negb_false_iff, Z.eqb_eq. apply Z.bits_inj'. intros n Hn.
    rewrite Z.land_spec, Z.testbit_0_l. unfold mask. rewrite Z.shiftl_spec by done.
    destruct (Z.eq_dec n (Z.of_nat (i mod 8))) as [->|Hne]; [by rewrite E|].
    rewrite andb_comm. apply andb_false_intro1.
    destruct (Z.lt_ge_cases (n - Z.of_nat (i mod 8)) 0); [by apply Z.testbit_neg_r|].
    apply Z.bits_above_log2; [lia|change (Z.log2 1) with 0%Z; lia].
Qed.

Lemma is_set_bit a i : i / 8 < length a -> is_set a i = Some (bit a i).
Proof.
  intros Hi. unfold is_set, bit. destruct (lookup_lt_is_Some_2 a (i / 8) Hi) as [b ->]. simpl.
  by rewrite land_mask.
Qed.

Lemma index_eq i j : i / 8 = j / 8 -> i mod 8 = j mod 8 -> i = j.
Proof.
  intros. rewrite (Nat.div_mod_eq i 8), (Nat.div_mod_eq j 8). congruence.
Qed.

Lemma bit_set a i j : i / 8 < length a -> bit (set a i) j = bool_decide (i = j) || bit a j.
Proof.
  intros Hi. unfold bit, set. rewrite list_lookup_alter. case_decide as E.
  - rewrite <- E. destruct (lookup_lt_is_Some_2 a (i / 8) Hi) as [b ->]. simpl.
    rewrite Z.lor_spec, mask_bit, orb_comm. f_equal. apply bool_decide_ext.
    split; [intros; by apply index_eq|by intros ->].
  - rewrite bool_decide_eq_false_2; [done|]. by intros ->.
Qed.

Lemma bit_clear a i j : bit (clear a i) j = negb (bool_decide (i = j)) && bit a j.
Proof.
  unfold bit, clear. rewrite list_lookup_alter. case_decide as E.
  - rewrite <- E. destruct (a !! (i / 8)) as [b|] eqn:Hb; simpl.
    + rewrite Z.land_spec, Z.lnot_spec, mask_bit, andb_comm by lia. f_equal. f_equal.
      apply bool_decide_ext. split; [intros; by apply index_eq|by intros ->].
    + by rewrite Z.testbit_0_l, andb_false_r.
  - rewrite bool_decide_eq_false_2; [done|]. by intros ->.
Qed.

Lemma length_set a i : length (set a i) = length a.
Proof. apply length_alter. Qed.

Lemma length_clear a i : length (clear a i) = length a.
Proof. apply length_alter. Qed.

Lemma byte_index i n : i < 8 * n -> i / 8 < n.
Proof. intros. apply Nat.Div0.div_lt_upper_bound. lia. Qed.

Lemma bit_zero n i : bit (replicate n 0%Z) i = false.
Proof.
  unfold bit. destruct (replicate n 0%Z !! (i / 8)) eqn:E; simpl.
  - apply lookup_replicate in E as [-> _]. apply Z.testbit_0_l.
  - apply Z.testbit_0_l.
Qed.

(** The scan both tables share: the first clear flag at or after [start], going
    around the [n] slots once; [i] slots have been looked at. *)
Fixpoint scan (a : list Z) (n start i k : nat) : option (option nat) :=
  match k with
  | O => Some None
  | S k =>
      let idx := (start + i) mod n in
      s ← is_set a idx;
      if (s : bool) then scan a n start (S i) k else Some (Some idx)
  end.

Lemma bits_scan_spec a n start k i :
  0 < n -> length a * 8 = n -> i + k = n ->
  match scan a n start i k with
  | Some (Some idx) => exists d, i <= d < n /\ idx = (start + d) mod n /\ bit a idx = false
      /\ forall d', i <= d' < d -> bit a ((start + d') mod n) = true
  | Some None => forall d, i <= d < n -> bit a ((start + d) mod n) = true
  | None => False
  end.
Proof.
  intros Hn Hlen. revert i. induction k as [|k IH]; intros i Hik; simpl; [intros; lia|].
  pose proof (Nat.mod_upper_bound (start + i) n ltac:(lia)).
  rewrite is_set_bit by (apply byte_index; lia). simpl.
  destruct (bit a ((start + i) mod n)) eqn:Hb.
  - specialize (IH (S i) ltac:(lia)). destruct (scan a n start (S i) k) as [[idx|]|]; [| |done].
    + destruct IH as (d & Hd & -> & Hf & Hall). exists d. split_and!; try done; [lia|lia|].
      intros d' Hd'. destruct (decide (d' = i)) as [->|]; [done|]. apply Hall. lia.
    + intros d Hd. destruct (decide (d = i)) as [->|]; [done|]. apply IH. lia.
  - exists i. split_and!; try done; [lia|]. intros; lia.
Qed.

(** Going around once visits every slot. *)
Lemma around start n j : j < n -> exists d, d < n /\ (start + d) mod n = j.
Proof.
  intros Hj. pose proof (Nat.mod_upper_bound start n ltac:(lia)).
  exists ((j + n - start mod n) mod n). split; [apply Nat.mod_upper_bound; lia|].
  rewrite Nat.Div0.add_mod_idemp_r, <- (Nat.Div0.add_mod_idemp_l start).
  replace (start mod n + (j + n - start mod n)) with (j + 1 * n) by lia.
  rewrite Nat.Div0.mod_add. by apply Nat.mod_small.
Qed.

End BitArray.

Module PidBitmap.
Import BitArray.

Record bitmap := mkBitmap { mBitmap : list Z; mFirstIndexToTry : nat }.

Section Bitmap.
Context (NumProcesses : nat).
Implicit Types b : bitmap.

Definition new : bitmap := mkBitmap (replicate (NumProcesses / 8) 0%Z) 0.

Definition isFree b (p : nat) : option bool := s ← is_set (mBitmap b) p; Some (negb s).
Definition reserve b (p : nat) : bitmap := mkBitmap (set (mBitmap b) p) (mFirstIndexToTry b).
Definition free b (p : nat) : bitmap := mkBitmap (clear (mBitmap b) p) (mFirstIndexToTry b).

(** [None] is the panic "out of process entries". *)
Definition next b : option (nat * bitmap) :=
  r ← scan (mBitmap b) NumProcesses (mFirstIndexToTry b) 0 NumProcesses;
  match r with
  | Some idx => Some (idx, mkBitmap (mBitmap (reserve b idx)) (S idx))
  | None => None
  end.

(** [8 * NumBytes == NumProcesses], the class's static assertion. *)
Definition ok b : Prop := length (mBitmap b) * 8 = NumProcesses.

Definition used b (p : nat) : bool := bit (mBitmap b) p.

Context (N_pos : 0 < NumProcesses).

Lemma next_spec b : ok b ->
  match next b with
  | Some (p, b') => p < NumProcesses /\ used b p = false /\ ok b'
      /\ (forall j, used b' j = bool_decide (p = j) || used b j)
      /\ exists d, p = (mFirstIndexToTry b + d) mod NumProcesses /\ d < NumProcesses
           /\ forall d', d' < d -> used b ((mFirstIndexToTry b + d') mod NumProcesses) = true
  | None => forall p, p < NumProcesses -> used b p = true
  end.
Proof.
  intros Hok. unfold next.
  pose proof (bits_scan_spec (mBitmap b) NumProcesses (mFirstIndexToTry b) NumProcesses 0 N_pos Hok eq_refl) as Hs.
  destruct (scan (mBitmap b) NumProcesses (mFirstIndexToTry b) 0 NumProcesses) as [[idx|]|]; simpl; [| |done].
  - destruct Hs as (d & Hd & -> & Hf & Hall).
    pose proof (Nat.mod_upper_bound (mFirstIndexToTry b + d) NumProcesses ltac:(lia)).
    split_and!; try done.
    + unfold ok. simpl. by rewrite length_set.
    + intros j. unfold used. simpl. rewrite bit_set; [done|]. apply byte_index. unfold ok in Hok. lia.
    + exists d. split_and!; [done|lia|]. intros d' Hd'. apply Hall. lia.
  - intros p Hp. destruct (around (mFirstIndexToTry b) NumProcesses p Hp) as (d & Hd & <-).
    apply Hs. lia.
Qed.

Lemma bitmap_free_spec b p j : used (free b p) j = negb (bool_decide (p = j)) && used b j.
Proof. apply bit_clear. Qed.

Lemma reserve_spec b p j : ok b -> p < NumProcesses ->
  used (reserve b p) j = bool_decide (p = j) || used b j.
Proof. intros Hok Hp. apply bit_set, byte_index. unfold ok in Hok. lia. Qed.

End Bitmap.
End PidBitmap.

Module ProcessTable.

Record table (P : Type) := mkTable { mSize : Z; mTable : list (option P) }.
Arguments mkTable {P} _ _.
Arguments mSize {P} _.
Arguments mTable {P} _.

Section Table.
Context {P : Type} (pid : P -> nat) (NumProcesses : nat).
Implicit Types t : table P.

Definition new : table P := mkTable 0 (replicate NumProcesses None).

(** [None] is one of the panics of [set], or a write past the array. *)
Definition set t (proc : option P) : option (table P) :=
  p ← proc;
  e ← mTable t !! pid p;
  match e with
  | Some _ => None
  | None => Some (mkTable (u32 (mSize t + 1)) (<[pid p := Some p]> (mTable t)))
  end.

Definition free t (proc : P) : table P :=
  mkTable (u32 (mSize t - 1)) (<[pid proc := None]> (mTable t)).

Definition get t (i : nat) : option (option P) := mTable t !! i.
Definition size t : Z := mSize t.

Definition foreach {S} (f : S -> P -> S * bool) (s : S) t : S :=
  foreach_stop f s (omap id (mTable t)).

(** Entries sit at their own id and the counter counts them. *)
Record ok t : Prop := {
  t_len : length (mTable t) = NumProcesses;
  t_pid : forall i p, mTable t !! i = Some (Some p) -> pid p = i;
  t_size : mSize t = Z.of_nat (length (omap id (mTable t)));
}.

Context (N_bound : (Z.of_nat NumProcesses < 2 ^ 32)%Z).

Lemma count_insert (l : list (option P)) i (e e' : option P) :
  l !! i = Some e ->
  Z.of_nat (length (omap id (<[i := e']> l))) =
  (Z.of_nat (length (omap id l)) - (if e then 1 else 0) + (if e' then 1 else 0))%Z.
Proof.
  intros (l1 & l2 & -> & ->)%lookup_split. rewrite insert_middle_eq by done.
  rewrite !omap_app, !length_app. simpl. destruct e, e'; simpl; lia.
Qed.

Lemma count_bound (l : list (option P)) : length (omap id l) <= length l.
Proof. induction l as [|[x|] l IH]; [done| |]; csimpl; lia. Qed.

Lemma table_set_spec t p : ok t -> pid p < NumProcesses ->
  match set t (Some p) with
  | Some t' => get t (pid p) = Some None /\ ok t' /\ size t' = (size t + 1)%Z
      /\ forall i, get t' i = if decide (i = pid p) then Some (Some p) else get t i
  | None => exists q, get t (pid p) = Some (Some q)
  end.
Proof.
  intros Hok Hp. unfold set, get. simpl. rewrite <- (t_len t Hok) in Hp.
  destruct (lookup_lt_is_Some_2 _ _ Hp) as [e He]. rewrite He. simpl.
  destruct e as [q|]; [by exists q|].
  pose proof (count_insert (mTable t) (pid p) None (Some p) He) as Hc.
  pose proof (count_bound (<[pid p := Some p]> (mTable t))) as Hb.
  rewrite length_insert, (t_len t Hok) in Hb. simpl in Hc.
  assert (Hs : u32 (mSize t + 1) = (mSize t + 1)%Z).
  { apply u32_id. rewrite (t_size t Hok). unfold is_u. lia. }
  split_and!; [done| |unfold size; simpl; done|].
  - split; simpl.
    + rewrite length_insert. apply Hok.
    + intros i r. rewrite list_lookup_insert. case_decide as E; [|apply Hok].
      intros [= ->]. apply E.
    + rewrite Hs, (t_size t Hok). lia.
  - intros i. simpl. rewrite list_lookup_insert. repeat case_decide; naive_solver lia.
Qed.

Lemma table_free_spec t p : ok t -> get t (pid p) = Some (Some p) ->
  ok (free t p) /\ size (free t p) = (size t - 1)%Z
  /\ forall i, get (free t p) i = if decide (i = pid p) then Some None else get t i.
Proof.
  intros Hok Hg. unfold get in *. pose proof (count_insert (mTable t) (pid p) (Some p) None Hg) as Hc.
  pose proof (count_bound (mTable t)) as Hb. rewrite (t_len t Hok) in Hb. simpl in Hc.
  assert (Hs : u32 (mSize t - 1) = (mSize t - 1)%Z).
  { apply u32_id. rewrite (t_size t Hok). unfold is_u. lia. }
  apply lookup_lt_Some in Hg as Hlt.
  split_and!; [|unfold size; simpl; done|].
  - split; simpl.
    + rewrite length_insert. apply Hok.
    + intros i r. rewrite list_lookup_insert. case_decide as E; [done|apply Hok].
    + rewrite Hs, (t_size t Hok). lia.
  - intros i. simpl. rewrite list_lookup_insert. repeat case_decide; naive_solver lia.
Qed.

End Table.
End ProcessTable.

Module Handletable.
Import BitArray.

Record table (T : Type) := mkTable { mValid : list Z; mData : list (option T) }.
Arguments mkTable {T} _ _.
Arguments mValid {T} _.
Arguments mData {T} _.

Section Table.
Context {T : Type} (N : nat).
Implicit Types t : table T.

Definition new : table T := mkTable (replicate (N / 8) 0%Z) (replicate N None).
Definition size (t : table T) : nat := N.

(** [is(idx, &value)]: [None] is a read outside [mValid]; a valid slot gives its
    contents. *)
Definition is_ t (idx : nat) : option bool := is_set (mValid t) idx.

Definition value t (idx : nat) : option T := mjoin (mData t !! idx).

Definition set t (v : T) (idx0 : nat) : option (option nat * table T) :=
  r ← scan (mValid t) N idx0 0 N;
  match r with
  | Some i => Some (Some i, mkTable (BitArray.set (mValid t) i) (<[i := Some v]> (mData t)))
  | None => Some (None, t)
  end.

Definition reset t (idx : nat) (v : T) : option (bool * table T) :=
  b ← is_ t idx;
  if (b : bool) then Some (true, mkTable (mValid t) (<[idx := Some v]> (mData t))) else Some (false, t).

Definition clear t (idx : nat) : table T := mkTable (BitArray.clear (mValid t) idx) (mData t).

(** ** The table as a partial map from descriptors *)

Definition lookup t (idx : nat) : option T := if bit (mValid t) idx then value t idx else None.

Record ok t : Prop := {
  h_valid : length (mValid t) * 8 = N;
  h_data : length (mData t) = N;
  h_init : forall i, i < N -> bit (mValid t) i = true -> is_Some (value t i);
}.

Context (N_pos : 0 < N).

Lemma handle_ok_new : N mod 8 = 0 -> ok new.
Proof.
  intros H8. split; simpl.
  - rewrite length_replicate. pose proof (Nat.div_mod_eq N 8). lia.
  - apply length_replicate.
  - intros i _. by rewrite bit_zero.
Qed.

Lemma value_insert (d : list (option T)) i v j :
  i < length d -> mjoin (<[i := Some v]> d !! j) = if decide (i = j) then Some v else mjoin (d !! j).
Proof.
  intros Hi. rewrite list_lookup_insert. repeat case_decide; naive_solver.
Qed.

Lemma handle_set_spec t v idx0 : ok t ->
  exists r t', set t v idx0 = Some (r, t') /\ ok t' /\
  match r with
  | Some i => i < N /\ lookup t i = None
      /\ (forall j, lookup t' j = if decide (i = j) then Some v else lookup t j)
      /\ exists d, i = (idx0 + d) mod N /\ forall d', d' < d -> is_Some (lookup t ((idx0 + d') mod N))
  | None => t' = t /\ forall j, j < N -> is_Some (lookup t j)
  end.
Proof.
  intros Hok. unfold set.
  pose proof (bits_scan_spec (mValid t) N idx0 N 0 N_pos (h_valid t Hok) eq_refl) as Hs.
  assert (Hsome : forall j, j < N -> bit (mValid t) j = true -> is_Some (lookup t j)).
  { intros j Hj Hb. unfold lookup. rewrite Hb. by apply Hok. }
  destruct (scan (mValid t) N idx0 0 N) as [[i|]|]; simpl; [| |done].
  - destruct Hs as (d & Hd & Hi & Hf & Hall).
    assert (HiN : i < N) by (rewrite Hi; apply Nat.mod_upper_bound; lia).
    assert (Hib : i / 8 < length (mValid t)) by (apply byte_index; pose proof (h_valid t Hok); lia).
    eexists _, _. split; [done|]. split; [|split_and!].
    + split; simpl; [by rewrite length_set; apply Hok|by rewrite length_insert; apply Hok|].
      intros j Hj. unfold value. simpl. rewrite bit_set, value_insert by (rewrite ?(h_data t Hok); done).
      case_decide; [by intros; eexists|]. rewrite bool_decide_eq_false_2 by done. by apply Hok.
    + done.
    + unfold lookup. by rewrite Hf.
    + intros j. unfold lookup, value. simpl. rewrite bit_set, value_insert by (rewrite ?(h_data t Hok); done).
      case_decide; [by rewrite bool_decide_eq_true_2|by rewrite bool_decide_eq_false_2].
    + exists d. split; [done|]. intros d' Hd'. apply Hsome; [apply Nat.mod_upper_bound; lia|].
      apply Hall. lia.
  - exists None, t. split_and!; try done. intros j Hj.
    destruct (around idx0 N j Hj) as (d & Hd & <-). apply Hsome; [apply Nat.mod_upper_bound; lia|].
    apply Hs. lia.
Qed.

Lemma handle_clear_spec t i : ok t ->
  ok (clear t i) /\ forall j, lookup (clear t i) j = if decide (i = j) then None else lookup t j.
Proof.
  intros Hok. split.
  - split; simpl; [by rewrite length_clear; apply Hok|apply Hok|].
    intros j Hj. rewrite bit_clear. intros [_ Hb]%andb_true_iff. by apply Hok.
  - intros j. unfold lookup, clear. simpl. rewrite bit_clear.
    case_decide; [by rewrite bool_decide_eq_true_2|by rewrite bool_decide_eq_false_2].
Qed.

Lemma reset_spec t i v : ok t -> i < N ->
  exists t', reset t i v = Some (bool_decide (is_Some (lookup t i)), t') /\ ok t'
    /\ forall j, lookup t' j = if decide (i = j) then (if lookup t i then Some v else None) else lookup t j.
Proof.
  intros Hok Hi. unfold reset, is_.
  assert (Hib : i / 8 < length (mValid t)) by (apply byte_index; pose proof (h_valid t Hok); lia).
  rewrite is_set_bit by done. simpl. destruct (bit (mValid t) i) eqn:Hb.
  - destruct (h_init t Hok i Hi Hb) as [x Hx].
    assert (Hl : lookup t i = Some x) by (unfold lookup; by rewrite Hb).
    eexists. rewrite Hl, bool_decide_eq_true_2 by done. split; [done|]. split.
    + split; simpl; [apply Hok|by rewrite length_insert; apply Hok|].
      intros j Hj Hbj. unfold value. simpl. rewrite value_insert by (by rewrite (h_data t Hok)).
      case_decide; [by eexists|by apply Hok].
    + intros j. unfold lookup, value. simpl. rewrite value_insert by (by rewrite (h_data t Hok)).
      case_decide; [subst j; by rewrite Hb|done].
  - assert (Hl : lookup t i = None) by (unfold lookup; by rewrite Hb).
    exists t. rewrite Hl, bool_decide_eq_false_2 by (by intros []).
    split_and!; try done. intros j. by case_decide; [subst j|].
Qed.

End Table.
End Handletable.
