(* ===== verification/Time.v ===== *)
(** * Calendar and random numbers of the kernel library
    (kernel/src/libc/time.cpp, kernel/include/libc/time.h,
    kernel/src/libc/rand.cpp, kernel/include/libc/rand.h)

    [Calendar] converts between a date and a time of day and the number of
    seconds since January 1st 1970; the two directions use different
    algorithms, and the file proves that they are inverse to each other.
    [Rng] is the middle-square Weyl generator. *)

From stdpp Require Import base numbers list option.
From Stdlib Require Import ZArith Lia.
From S2P Require Import Prelude.

Local Open Scope Z_scope.
Local Open Scope puppy_scope.

Module Calendar.

Record date_components_t := mkDate { day : Z; month : Z; year : Z }.
Record time_components_t := mkTime { hour : Z; minute : Z; second : Z }.

Definition gSecondsInDay : Z := 60 * 60 * 24.

Definition leap (y : Z) : bool :=
  if negb (y mod 4 =? 0) then false
  else if negb (y mod 100 =? 0) then true
  else y mod 400 =? 0.

Definition gDays : list Z := [0; 31; 28; 31; 30; 31; 30; 31; 31; 30; 31; 30; 31].
Definition gLeapDays : list Z := [0; 31; 29; 31; 30; 31; 30; 31; 31; 30; 31; 30; 31].

(** [for (auto y = 1970u; y < cs.year; ++y)], [k] rounds left *)
Fixpoint years_loop (k : nat) (y val : Z) : Z :=
  match k with
  | O => val
  | S k => years_loop k (y + 1) (val +64 gSecondsInDay * (if leap y then 366 else 365))
  end.

(** [for (auto m = 1; m < cs.month; ++m)]; an index past the table is [None] *)
Fixpoint months_loop (k : nat) (days : list Z) (m : nat) (val : Z) : option Z :=
  match k with
  | O => Some val
  | S k => d ← days !! m; months_loop k days (S m) (val +64 gSecondsInDay * d)
  end.

Definition date_components_to_epoch (cs : date_components_t) : option Z :=
  let is_leap := leap (year cs) in
  let val := years_loop (Z.to_nat (year cs - 1970)) 1970 0 in
  val ← months_loop (Z.to_nat (month cs - 1)) (if is_leap then gLeapDays else gDays) 1 val;
  Some (val +64 (day cs - 1) * gSecondsInDay).

Definition time_components_to_epoch (cs : time_components_t) : Z :=
  u64 (second cs + 60 * (minute cs + 60 * hour cs)).

(** The day count to a civil date. *)
Definition civil (timestamp : Z) : date_components_t :=
  let timestamp := timestamp +64 719468 in
  let era := timestamp / 146097 in
  let doe := timestamp - era * 146097 in
  let yoe := (doe - doe / 1460 + doe / 36524 - doe / 146096) / 365 in
  let y := u16 (yoe + era * 400) in
  let doy := doe - (365 * yoe + yoe / 4 - yoe / 100) in
  let mp := (5 * doy + 2) / 153 in
  let d := u8 (doy - (153 * mp + 2) / 5 + 1) in
  let m := u8 (mp + (if mp <? 10 then 3 else -9)) in
  mkDate d m (u16 (y + (if m <=? 2 then 1 else 0))).

Definition epoch_to_time_and_date_components (timestamp : Z) : date_components_t * time_components_t :=
  let wc_portion := timestamp mod gSecondsInDay in
  let timestamp := timestamp / gSecondsInDay in
  let sec := u8 (wc_portion mod 60) in
  let wc_portion := wc_portion / 60 in
  (civil timestamp, mkTime (u8 (wc_portion / 60)) (u8 (wc_portion mod 60)) sec).

(** ** Validity *)

Definition month_length (y m : Z) : Z :=
  default 0 ((if leap y then gLeapDays else gDays) !! Z.to_nat m).

Definition valid_date (d : date_components_t) : Prop :=
  1970 <= year d <= 65535 /\ 1 <= month d <= 12 /\ 1 <= day d <= month_length (year d) (month d).

Definition valid_time (t : time_components_t) : Prop :=
  0 <= hour t < 24 /\ 0 <= minute t < 60 /\ 0 <= second t < 60.

(** ** Days before a year, before a month *)

Definition leaps (n : Z) : Z := n / 4 - n / 100 + n / 400.
Definition year_days (y : Z) : Z := 365 * (y - 1970) + leaps (y - 1) - leaps 1969.

Definition month_days (lp : bool) (m : Z) : Z :=
  default 0 ([0; 0; 31; 59; 90; 120; 151; 181; 212; 243; 273; 304; 334] !! Z.to_nat m)
  + (if lp && (2 <? m) then 1 else 0).

Ltac Zify.zify_post_hook ::= Z.div_mod_to_equations.

Lemma leap_leaps y : (if leap y then 1 else 0) = leaps y - leaps (y - 1).
Proof.
  unfold leap, leaps.
  destruct (Z.eqb_spec (y mod 4) 0); simpl; [|lia].
  destruct (Z.eqb_spec (y mod 100) 0); simpl; [|lia].
  destruct (Z.eqb_spec (y mod 400) 0); lia.
Qed.

Lemma year_days_step y : year_days (y + 1) = year_days y + (if leap y then 366 else 365).
Proof.
  unfold year_days. pose proof (leap_leaps y) as H. replace (y + 1 - 1) with y by lia.
  destruct (leap y); lia.
Qed.

Lemma year_days_bound y : 1970 <= y <= 65536 -> 0 <= year_days y <= 366 * (y - 1970).
Proof. unfold year_days, leaps. lia. Qed.

Lemma years_loop_spec k y :
  1970 <= y -> y + Z.of_nat k <= 65536 ->
  years_loop k y (gSecondsInDay * year_days y) = gSecondsInDay * year_days (y + Z.of_nat k).
Proof.
  revert y. induction k as [|k IH]; intros y Hy Hk; cbn [years_loop].
  { by rewrite Z.add_0_r. }
  rewrite Nat2Z.inj_succ in *. pose proof (year_days_step y) as Hs.
  pose proof (year_days_bound (y + 1) ltac:(lia)).
  rewrite u64_id.
  - rewrite <- Z.mul_add_distr_l, <- Hs, IH by lia. do 2 f_equal. lia.
  - unfold is_u, gSecondsInDay in *. destruct (leap y); lia.
Qed.

Lemma month_cases (P : Z -> Prop) m :
  1 <= m <= 12 -> P 1 -> P 2 -> P 3 -> P 4 -> P 5 -> P 6 -> P 7 -> P 8 -> P 9 -> P 10 -> P 11 -> P 12 -> P m.
Proof.
  intros Hm. intros.
  assert (m = 1 \/ m = 2 \/ m = 3 \/ m = 4 \/ m = 5 \/ m = 6 \/ m = 7 \/ m = 8 \/ m = 9
          \/ m = 10 \/ m = 11 \/ m = 12) as Hc by lia.
  by repeat (destruct Hc as [->|Hc]; [done|]); subst.
Qed.

Lemma months_loop_spec (lp : bool) m base :
  1 <= m <= 12 -> 0 <= base <= 10 ^ 13 ->
  months_loop (Z.to_nat (m - 1)) (if lp then gLeapDays else gDays) 1 base
    = Some (base + gSecondsInDay * month_days lp m).
Proof.
  intros Hm Hb. unfold gSecondsInDay. destruct lp; revert m Hm;
    intros m Hm; apply (month_cases (fun m => months_loop (Z.to_nat (m - 1)) _ 1 base = _) m Hm);
    match goal with
    | |- context [Z.to_nat (?x - 1)] =>
        let v := eval vm_compute in (Z.to_nat (x - 1)) in change (Z.to_nat (x - 1)) with v
    end;
    cbv -[u64 Z.add Z.mul]; no_wrap64; f_equal; lia.
Qed.

(** The day number of a date, counted from January 1st 1970. *)
Definition day_number (d : date_components_t) : Z :=
  year_days (year d) + month_days (leap (year d)) (month d) + (day d - 1).

Lemma month_days_bound lp m : 1 <= m <= 12 -> 0 <= month_days lp m <= 335.
Proof.
  intros Hm. destruct lp; apply (month_cases (fun m => 0 <= month_days _ m <= 335) m Hm); by vm_compute.
Qed.

Lemma month_length_bound y m : 1 <= m <= 12 -> 28 <= month_length y m <= 31.
Proof.
  intros Hm. unfold month_length. destruct (leap y);
    apply (month_cases (fun m => 28 <= default 0 (_ !! Z.to_nat m) <= 31) m Hm); by vm_compute.
Qed.

Lemma day_number_bound d : valid_date d -> 0 <= day_number d < 366 * 63566 + 400.
Proof.
  intros (Hy & Hm & Hd). unfold day_number.
  pose proof (year_days_bound (year d) ltac:(lia)).
  pose proof (month_days_bound (leap (year d)) (month d) Hm).
  pose proof (month_length_bound (year d) (month d) Hm). lia.
Qed.

Lemma date_to_epoch_spec d : valid_date d ->
  date_components_to_epoch d = Some (gSecondsInDay * day_number d).
Proof.
  intros Hv. pose proof (day_number_bound d Hv). destruct Hv as (Hy & Hm & Hd).
  pose proof (year_days_bound (year d) ltac:(lia)).
  pose proof (month_days_bound (leap (year d)) (month d) Hm).
  unfold date_components_to_epoch.
  replace 0 with (gSecondsInDay * year_days 1970) by done.
  rewrite years_loop_spec by lia. rewrite Z2Nat.id by lia.
  replace (1970 + (year d - 1970)) with (year d) by lia.
  rewrite months_loop_spec by (unfold gSecondsInDay; lia). simpl.
  unfold day_number, gSecondsInDay in *. rewrite u64_id by (unfold is_u; lia). f_equal. lia.
Qed.

(** ** The civil algorithm *)

(** The year within the 400-year era, from the day of the era: [c] centuries,
    [q] four-year groups and [r] years into the era, [doy] days into the year
    that starts in March. *)
Lemma year_of_era c q r doy :
  0 <= c <= 3 -> 0 <= q <= 24 -> 0 <= r <= 3 -> 0 <= doy <= 365 ->
  (doy = 365 -> r = 3 /\ (q < 24 \/ c = 3)) ->
  let doe := 36524 * c + 1461 * q + 365 * r + doy in
  (doe - doe / 1460 + doe / 36524 - doe / 146096) / 365 = 100 * c + 4 * q + r.
Proof.
  intros Hc Hq Hr Hdoy Hleap doe.
  assert (c = 0 \/ c = 1 \/ c = 2 \/ c = 3) as Hcc by lia.
  assert (r = 0 \/ r = 1 \/ r = 2 \/ r = 3) as Hrr by lia.
  subst doe.
  destruct Hcc as [->|[->|[->| ->]]]; destruct Hrr as [->|[->|[->| ->]]]; lia.
Qed.

(** Years that start in March. *)
Definition march_year (d : date_components_t) : Z := if month d <=? 2 then year d - 1 else year d.
Definition march_month (d : date_components_t) : Z := if month d <=? 2 then month d + 9 else month d - 3.
Definition march_day (d : date_components_t) : Z := (153 * march_month d + 2) / 5 + day d - 1.

Lemma day_number_era d : 1 <= month d <= 12 ->
  let yoe := march_year d mod 400 in
  day_number d + 719468
    = 146097 * (march_year d / 400) + (365 * yoe + yoe / 4 - yoe / 100 + march_day d).
Proof.
  destruct d as [dd m y]. simpl. intros Hm. unfold day_number, march_day, march_month, march_year.
  pose proof (leap_leaps y) as Hl. unfold leaps in Hl. simpl.
  change (leaps 1969) with 477.
  apply (month_cases (fun m => _) m Hm); unfold year_days, month_days, leaps in *;
    (match goal with
     | |- context [default 0 (?l !! Z.to_nat ?x)] =>
         let v := eval vm_compute in (default 0 (l !! Z.to_nat x)) in
         change (default 0 (l !! Z.to_nat x)) with v
     end);
    (match goal with |- context [Z.leb ?a 2] =>
       let v := eval vm_compute in (Z.leb a 2) in change (Z.leb a 2) with v end);
    (match goal with |- context [Z.ltb 2 ?a] =>
       let v := eval vm_compute in (Z.ltb 2 a) in change (Z.ltb 2 a) with v end);
    destruct (leap y); simpl andb; cbn iota; lia.
Qed.

Lemma valid_day_cases d : valid_date d ->
  1 <= day d <= 31 /\
  (month d = 2 -> day d <= 28 \/ (day d = 29 /\ leap (year d) = true)) /\
  (month d = 4 \/ month d = 6 \/ month d = 9 \/ month d = 11 -> day d <= 30).
Proof.
  intros (Hy & Hm & Hd). pose proof (month_length_bound (year d) (month d) Hm).
  split; [lia|].
  assert (Hl : forall m, month_length (year d) m = default 0 ((if leap (year d) then gLeapDays else gDays) !! Z.to_nat m)) by done.
  split.
  - intros E. rewrite E, Hl in Hd. destruct (leap (year d)).
    + change (default 0 (gLeapDays !! Z.to_nat 2)) with 29 in Hd.
      destruct (Z.eq_dec (day d) 29); [by right|left; lia].
    + change (default 0 (gDays !! Z.to_nat 2)) with 28 in Hd. lia.
  - intros E.
    assert (month_length (year d) (month d) = 30) as H30.
    { rewrite Hl. destruct E as [E|[E|[E|E]]]; rewrite E; by destruct (leap (year d)). }
    lia.
Qed.

Lemma leap_march y : leap y = true ->
  let yoe := (y - 1) mod 400 in
  (yoe mod 4) = 3 /\ ((yoe mod 100) / 4 < 24 \/ yoe / 100 = 3).
Proof.
  unfold leap. intros Hl. destruct (Z.eqb_spec (y mod 4) 0); simpl in Hl; [|done].
  destruct (Z.eqb_spec (y mod 100) 0); simpl in Hl; [apply Z.eqb_eq in Hl|]; lia.
Qed.

Lemma march_day_spec d : valid_date d ->
  0 <= march_day d <= 365 /\ (5 * march_day d + 2) / 153 = march_month d
  /\ march_day d - (153 * march_month d + 2) / 5 + 1 = day d
  /\ (march_day d = 365 -> march_year d mod 400 mod 4 = 3
      /\ (march_year d mod 400 mod 100 / 4 < 24 \/ march_year d mod 400 / 100 = 3)).
Proof.
  intros Hv. destruct (valid_day_cases d Hv) as (Hd & Hfeb & Hshort). destruct Hv as (_ & Hm & _).
  pose proof (leap_march (year d)) as Hlm.
  unfold march_day, march_month, march_year. destruct (Z.leb_spec (month d) 2) as [Hm2|Hm2].
  - assert (month d = 1 \/ month d = 2) as [E|E] by lia; rewrite E in *.
    + split_and!; lia.
    + split_and!; try lia. intros H365. destruct Hfeb as [|[_ Hl]]; [done|lia|]. by apply Hlm.
  - split_and!; try lia.
Qed.

Lemma era_split y : 0 <= y ->
  let yoe := y mod 400 in
  365 * yoe + yoe / 4 - yoe / 100
    = 36524 * (yoe / 100) + 1461 * (yoe mod 100 / 4) + 365 * (yoe mod 4)
  /\ yoe = 100 * (yoe / 100) + 4 * (yoe mod 100 / 4) + yoe mod 4
  /\ 0 <= yoe / 100 <= 3 /\ 0 <= yoe mod 100 / 4 <= 24 /\ 0 <= yoe mod 4 <= 3.
Proof. cbv zeta. intros. split_and!; lia. Qed.

Lemma civil_day_number d : valid_date d -> civil (day_number d) = d.
Proof.
  intros Hv. pose proof (day_number_bound d Hv) as Hb.
  destruct (march_day_spec d Hv) as (Hdoy & Hmp & Hday & H365).
  pose proof (valid_day_cases d Hv) as (Hd & _). pose proof Hv as (Hy & Hm & _).
  assert (Hmy : 0 <= march_year d <= 65535) by (unfold march_year; case_match; lia).
  destruct (era_split (march_year d) ltac:(lia)) as (Hsplit & Hyoe & Hc & Hq & Hr).
  pose proof (day_number_era d Hm) as Hera. cbv zeta in Hera.
  pose proof (year_of_era _ _ _ (march_day d) Hc Hq Hr Hdoy H365) as Hy'. cbv zeta in Hy'.
  rewrite <- Hsplit, <- Hyoe in Hy'.
  set (yoe := march_year d mod 400) in *. set (era := march_year d / 400) in *.
  assert (Hdoe : 0 <= 365 * yoe + yoe / 4 - yoe / 100 + march_day d < 146097).
  { rewrite Hsplit. clear - Hc Hq Hr Hdoy H365.
    destruct (Z.eq_dec (march_day d) 365) as [E|]; [destruct (H365 E)|]; lia. }
  unfold civil. rewrite u64_id by (unfold is_u; lia). rewrite Hera.
  set (doe := 365 * yoe + yoe / 4 - yoe / 100 + march_day d) in *.
  assert (He : (146097 * era + doe) / 146097 = era) by lia. rewrite He.
  replace (146097 * era + doe - era * 146097) with doe by lia. rewrite Hy'.
  replace (doe - (365 * yoe + yoe / 4 - yoe / 100)) with (march_day d) by lia.
  rewrite Hmp, Hday.
  assert (Hyr : yoe + era * 400 = march_year d) by lia. rewrite Hyr. clear - Hd Hm Hy Hmy.
  unfold march_year, march_month in *. destruct d as [dd m y]. simpl in *.
  unfold u8, u16. rewrite (wrap_id 8 dd) by (unfold is_u; lia).
  destruct (Z.leb_spec m 2).
  - destruct (Z.ltb_spec (m + 9) 10); [lia|]. rewrite (wrap_id 8) by (unfold is_u; lia).
    destruct (Z.leb_spec (m + 9 + -9) 2); [|lia]. rewrite !wrap_id by (unfold is_u; rewrite ?wrap_id; unfold is_u; lia).
    f_equal; lia.
  - destruct (Z.ltb_spec (m - 3) 10); [|lia]. rewrite (wrap_id 8) by (unfold is_u; lia).
    destruct (Z.leb_spec (m - 3 + 3) 2); [lia|]. rewrite !wrap_id by (unfold is_u; rewrite ?wrap_id; unfold is_u; lia).
    f_equal; lia.
Qed.

Lemma epoch_inverse d t : valid_date d -> valid_time t ->
  epoch_to_time_and_date_components (gSecondsInDay * day_number d + time_components_to_epoch t) = (d, t).
Proof.
  intros Hv (Hh & Hmi & Hs). pose proof (civil_day_number d Hv) as Hciv.
  unfold epoch_to_time_and_date_components, time_components_to_epoch, gSecondsInDay.
  destruct t as [h mi sec]. simpl in *. rewrite u64_id by (unfold is_u; lia).
  set (tod := sec + 60 * (mi + 60 * h)).
  assert (Hq : (60 * 60 * 24 * day_number d + tod) / (60 * 60 * 24) = day_number d) by (subst tod; lia).
  assert (Hr : (60 * 60 * 24 * day_number d + tod) mod (60 * 60 * 24) = tod) by (subst tod; lia).
  rewrite Hq, Hr, Hciv. unfold u8. f_equal. subst tod. rewrite !wrap_id by (unfold is_u; lia). f_equal; lia.
Qed.

End Calendar.

Module Rng.

(** Middle square Weyl sequence over 64-bit words. *)
Record rng := mkRng { mValue : Z; mWeylSeq : Z; mSeed : Z }.

Definition default_seed : Z := 0xb5ad4eceda1ce2a9.
Definition new (seed : Z) : rng := mkRng 0 0 seed.
Definition seed (r : rng) : Z := mSeed r.
Definition reseed (r : rng) (s : Z) : rng := mkRng 0 0 s.
Definition next (r : rng) : Z * rng :=
  let newValue := mValue r *64 mValue r in
  let w := mWeylSeq r +64 mSeed r in
  let newValue := newValue +64 w in
  let newValue := Z.lor (Z.shiftr newValue 32) (u64 (Z.shiftl newValue 32)) in
  (u32 newValue, mkRng newValue w (mSeed r)).
Definition last (r : rng) : Z := u32 (mValue r).

Definition ok (r : rng) : Prop := is_u64 (mValue r) /\ is_u64 (mWeylSeq r) /\ is_u64 (mSeed r).

Fixpoint iterate (n : nat) (r : rng) : rng :=
  match n with O => r | S n => iterate n (next r).2 end.

(** Swapping the halves of a word is a sum without overlap. *)
Lemma swap_halves v : is_u64 v ->
  Z.lor (Z.shiftr v 32) (u64 (Z.shiftl v 32)) = v / 2 ^ 32 + (v mod 2 ^ 32) * 2 ^ 32.
Proof.
  intros Hv. unfold u64, wrap. rewrite Z.shiftl_mul_pow2, Z.shiftr_div_pow2 by lia.
  replace ((v * 2 ^ 32) mod 2 ^ 64) with ((v mod 2 ^ 32) * 2 ^ 32).
  - rewrite <- Z.shiftl_mul_pow2 by lia. symmetry.
    rewrite <- Z.lxor_lor; [apply Z.add_nocarry_lxor|]; apply Z.bits_inj'; intros n Hn;
      rewrite Z.land_spec, Z.testbit_0_l.
    all: destruct (Z.lt_ge_cases n 32) as [Hlt|Hge];
      [rewrite (Z.shiftl_spec_low _ 32) by lia; apply andb_false_r|].
    all: apply andb_false_intro1, Z.bits_above_log2;
      [unfold is_u in Hv; apply Z.div_pos; lia|].
    all: destruct (Z.eq_dec (v / 2 ^ 32) 0) as [->|]; [simpl; lia|].
    all: apply Z.log2_lt_pow2; [unfold is_u in Hv; lia|];
      apply Z.lt_le_trans with (2 ^ 32); [unfold is_u in Hv; apply Z.div_lt_upper_bound; lia|];
      apply Z.pow_le_mono_r; lia.
  - change (2 ^ 64) with (2 ^ 32 * 2 ^ 32). rewrite Z.mul_mod_distr_r; lia.
Qed.

Lemma next_ok r : ok r -> ok (next r).2 /\ (next r).1 = last (next r).2.
Proof.
  intros (Hv & Hw & Hs). split; [|done]. unfold ok, next; simpl. split_and!; [|apply u64_range|done].
  set (v := u64 _ + _). rewrite swap_halves by apply u64_range.
  pose proof (u64_range v) as Hr. unfold is_u in *.
  assert (0 <= u64 v / 2 ^ 32 < 2 ^ 32) by (split; [apply Z.div_pos|apply Z.div_lt_upper_bound]; lia).
  pose proof (Z.mod_pos_bound (u64 v) (2 ^ 32)). lia.
Qed.

(** The Weyl counter after [n] steps. *)
Lemma iterate_weyl n r : ok r -> ok (iterate n r) /\ mSeed (iterate n r) = mSeed r
  /\ mWeylSeq (iterate n r) = (mWeylSeq r + Z.of_nat n * mSeed r) mod 2 ^ 64.
Proof.
  revert r. induction n as [|n IH]; intros r Hr.
  - simpl. split_and!; [done|done|]. rewrite Z.add_0_r. symmetry. apply Z.mod_small, Hr.
  - destruct (next_ok r Hr) as [Hok _]. destruct (IH _ Hok) as (H1 & H2 & H3).
    cbn [iterate]. split_and!; [done|done|]. rewrite H3. simpl. unfold u64, wrap.
    rewrite Zplus_mod_idemp_l. f_equal. lia.
Qed.

End Rng.
