(* ===== verification/Files.v ===== *)
(** * File objects, filesystems and the mount table
    (kernel/src/fs/filesystem.cpp, kernel/src/fs/vfs.cpp, kernel/include/fs/vfs.h)

    [FsObject] has the reference counts of open files and of filesystems, which
    saturate at both ends, and the count of open objects.  [VFS] is the mount
    table: how a path is accepted, split and sent to a filesystem, and how the
    counts follow mounts and unmounts. *)

From stdpp Require Import base numbers list gmap option strings.
From Stdlib Require Import ZArith Lia Ascii.
From S2P Require Import Prelude.

Local Open Scope Z_scope.

Module FsObject.

Record object := mkObject { mRefcount : Z; mKind : Z }.
Record filesystem := mkFilesystem { fsRefcount : Z; mOpenObjcts : Z }.

(** The objects and filesystems that are alive, by address. *)
Record state := mkState { objects : gmap Z object; filesystems : gmap Z filesystem }.

(** [VFS::filehandle_t]; 0 is the null pointer. *)
Record handle := mkHandle { h_filesystem : Z; h_object : Z; h_region : Z }.

#[global] Instance handle_eq_dec : EqDecision handle.
Proof. solve_decision. Defined.

Definition UINT32_MAX : Z := 2 ^ 32 - 1.

(** The bodies of the compare-and-swap loops; without a concurrent writer the
    first exchange succeeds. *)
Definition inc_wanted (current : Z) : Z := if current =? UINT32_MAX then current else current + 1.
Definition dec_wanted (current : Z) : Z := if current =? 0 then current else current - 1.

Definition put_object (st : state) (o : Z) (ob : object) : state :=
  mkState (<[o := ob]> (objects st)) (filesystems st).
Definition put_fs (st : state) (fs : Z) (f : filesystem) : state :=
  mkState (objects st) (<[fs := f]> (filesystems st)).

(** [None]: the pointer does not point to a live object, or a panic. *)
Definition incref (st : state) (o : Z) : option (Z * state) :=
  ob ← objects st !! o;
  let wanted := inc_wanted (mRefcount ob) in
  Some (wanted, put_object st o (mkObject wanted (mKind ob))).

Definition decref (st : state) (o : Z) : option (Z * state) :=
  ob ← objects st !! o;
  let wanted := dec_wanted (mRefcount ob) in
  Some (wanted, put_object st o (mkObject wanted (mKind ob))).

Definition fs_incref (st : state) (fs : Z) : option (Z * state) :=
  f ← filesystems st !! fs;
  let wanted := inc_wanted (fsRefcount f) in
  Some (wanted, put_fs st fs (mkFilesystem wanted (mOpenObjcts f))).

Definition fs_decref (st : state) (fs : Z) : option (Z * state) :=
  f ← filesystems st !! fs;
  let wanted := dec_wanted (fsRefcount f) in
  Some (wanted, put_fs st fs (mkFilesystem wanted (mOpenObjcts f))).

Definition openObject (st : state) (fs : Z) : option state :=
  f ← filesystems st !! fs;
  Some (put_fs st fs (mkFilesystem (fsRefcount f) (u64 (mOpenObjcts f + 1)))).

(** [__sync_fetch_and_sub], then the panic when the old value was zero. *)
Definition closeObject (st : state) (fs : Z) : option state :=
  f ← filesystems st !! fs;
  if mOpenObjcts f =? 0 then None
  else Some (put_fs st fs (mkFilesystem (fsRefcount f) (u64 (mOpenObjcts f - 1)))).

(** [open]: [found] is what the filesystem's own [doOpen] returned, the address
    of a new object of the given kind, or null. *)
Definition open (st : state) (fs : Z) (found : option (Z * Z)) : option (Z * state) :=
  match found with
  | Some (o, kind) =>
      st' ← openObject (put_object st o (mkObject 1 kind)) fs;
      Some (o, st')
  | None => Some (0, st)
  end.

(** [close]: every [doClose] deletes the object; what else it does concerns the
    private data of that filesystem. *)
Definition close (st : state) (fs o : Z) : option state :=
  '(refs, st') ← decref st o;
  if refs =? 0
  then closeObject (mkState (delete o (objects st')) (filesystems st')) fs
  else Some st'.

Definition handle_ok (h : handle) : bool := negb (h_filesystem h =? 0) && negb (h_object h =? 0).

Definition handle_close (st : state) (h : handle) : option state :=
  if handle_ok h then close st (h_filesystem h) (h_object h) else Some st.

(** ** Properties of the counts *)

Lemma dec_wanted_pos n : 0 < n -> dec_wanted n = n - 1.
Proof. intros. unfold dec_wanted. destruct (Z.eqb_spec n 0); lia. Qed.

Lemma inc_wanted_range n : is_u32 n -> is_u32 (inc_wanted n) /\ n <= inc_wanted n.
Proof. unfold inc_wanted, UINT32_MAX, is_u. destruct (Z.eqb_spec n (2 ^ 32 - 1)); lia. Qed.

(** A close that is not the last one only lowers the count. *)
Lemma close_more st fs o ob :
  objects st !! o = Some ob -> 1 < mRefcount ob ->
  close st fs o = Some (put_object st o (mkObject (mRefcount ob - 1) (mKind ob))).
Proof.
  intros Ho Hr. unfold close, decref. rewrite Ho. cbn [mbind option_bind].
  rewrite dec_wanted_pos by lia. destruct (Z.eqb_spec (mRefcount ob - 1) 0); [lia|done].
Qed.

(** The last close deletes the object and lowers the open count. *)
Lemma close_last st fs o ob f :
  objects st !! o = Some ob -> mRefcount ob = 1 ->
  filesystems st !! fs = Some f -> 0 < mOpenObjcts f < 2 ^ 64 ->
  close st fs o = Some (mkState (delete o (objects st))
    (<[fs := mkFilesystem (fsRefcount f) (mOpenObjcts f - 1)]> (filesystems st))).
Proof.
  intros Ho Hr Hf Hn. unfold close, decref. rewrite Ho. cbn [mbind option_bind].
  rewrite Hr. unfold closeObject. simpl. rewrite Hf. simpl.
  destruct (Z.eqb_spec (mOpenObjcts f) 0); [lia|].
  unfold put_fs. simpl. rewrite delete_insert_eq. by rewrite u64_id by (unfold is_u; lia).
Qed.

Fixpoint close_times (n : nat) (st : state) (fs o : Z) : option state :=
  match n with
  | O => Some st
  | S n => st' ← close st fs o; close_times n st' fs o
  end.

Lemma close_times_more n st fs o ob :
  objects st !! o = Some ob -> Z.of_nat n < mRefcount ob ->
  close_times n st fs o =
    Some (if decide (n = 0%nat) then st else put_object st o (mkObject (mRefcount ob - Z.of_nat n) (mKind ob))).
Proof.
  revert st ob. induction n as [|n IH]; intros st ob Ho Hr; [done|].
  cbn [close_times]. rewrite (close_more st fs o ob) by (done || lia). cbn [mbind option_bind].
  rewrite (IH _ (mkObject (mRefcount ob - 1) (mKind ob)));
    [|simpl; apply lookup_insert_eq|simpl; lia].
  unfold put_object. simpl. f_equal. case_decide; subst; simpl.
  - done.
  - rewrite insert_insert_eq. by replace (mRefcount ob - 1 - Z.of_nat n) with (mRefcount ob - Z.of_nat (S n)) by lia.
Qed.

Lemma close_times_app a b st fs o :
  close_times (a + b) st fs o = st' ← close_times a st fs o; close_times b st' fs o.
Proof.
  revert st. induction a as [|a IH]; intros st; [done|]. cbn [close_times Nat.add].
  destruct (close st fs o) as [st'|]; [|done]. cbn [mbind option_bind]. apply IH.
Qed.

Lemma close_times_all n st fs o ob f :
  objects st !! o = Some ob -> mRefcount ob = Z.of_nat (S n) ->
  filesystems st !! fs = Some f -> 0 < mOpenObjcts f < 2 ^ 64 ->
  close_times (S n) st fs o = Some (mkState (delete o (objects st))
    (<[fs := mkFilesystem (fsRefcount f) (mOpenObjcts f - 1)]> (filesystems st))).
Proof.
  intros Ho Hr Hf Hn. replace (S n) with (n + 1)%nat by lia. rewrite close_times_app.
  rewrite (close_times_more n st fs o ob) by (done || lia). cbn [mbind option_bind close_times].
  case_decide as H0.
  - subst n. rewrite (close_last st fs o ob f) by (done || lia). done.
  - rewrite (close_last _ fs o (mkObject (mRefcount ob - Z.of_nat n) (mKind ob)) f);
      [|simpl; apply lookup_insert_eq|simpl; lia|done|done].
    simpl. by rewrite delete_insert_eq.
Qed.

End FsObject.

Module VFS.
Import FsObject.

Record mount_t := mkMount { m_path : string; m_when : Z; m_volume : Z; m_fs : Z }.

Abbreviation slash := ("/"%char).

(** [if (path[0] == '/') ++path;] *)
Definition skip_slash (path : string) : string :=
  match path with
  | String c rest => if Ascii.eqb c slash then rest else path
  | EmptyString => path
  end.

(** [strprefix]: what follows the prefix, when the text starts with it. *)
Fixpoint strprefix (prefix full : string) : option string :=
  match prefix, full with
  | EmptyString, _ => Some full
  | String p prefix, String f full => if Ascii.eqb p f then strprefix prefix full else None
  | String _ _, EmptyString => None
  end.

(** [strstr(text, pattern) != nullptr] *)
Fixpoint contains (pattern text : string) : bool :=
  match strprefix pattern text with
  | Some _ => true
  | None => match text with
            | EmptyString => false
            | String _ text => contains pattern text
            end
  end.

Definition isAbsolutePath (path : option string) : bool :=
  match path with
  | None => false
  | Some EmptyString => false
  | Some (String c _ as p) => Ascii.eqb c slash && negb (contains "/." p)
  end.

Definition mount (l : list mount_t) (path : string) (fs vol now : Z) : list mount_t :=
  l ++ [mkMount (skip_slash path) now vol fs].

Definition find_path (l : list mount_t) (path : string) : option mount_t :=
  list_find (fun m => m_path m = path) l ≫= fun im => Some im.2.

Definition findvol (l : list mount_t) (mnt : string) : Z :=
  match find_path l mnt with Some m => m_volume m | None => 0 end.
Definition findfs (l : list mount_t) (mnt : string) : Z :=
  match find_path l mnt with Some m => m_fs m | None => 0 end.

(** [None]: the panic for a null volume; an absent volume gives a null mount. *)
Definition findMountInfo (l : list mount_t) (vol : Z) : option (option mount_t) :=
  if vol =? 0 then None
  else Some (list_find (fun m => m_volume m = vol) l ≫= fun im => Some im.2).

Definition at_boundary (next : string) : bool :=
  match next with
  | EmptyString => true
  | String c _ => Ascii.eqb c slash
  end.

Fixpoint getfs_loop (l : list mount_t) (root : string) : option (Z * string) :=
  match l with
  | [] => None
  | m :: l =>
      match strprefix (m_path m) root with
      | Some next => if at_boundary next then Some (m_fs m, next) else getfs_loop l root
      | None => getfs_loop l root
      end
  end.

Definition getfs (l : list mount_t) (root : option string) : option (Z * string) :=
  match root with
  | None => None
  | Some EmptyString => None
  | Some root => getfs_loop l (skip_slash root)
  end.

(** The mount to drop, the rest of the table with it. *)
Definition unmount (l : list mount_t) (st : state) (path : string)
    : option (bool * list mount_t * state) :=
  match list_find (fun m => m_path m = skip_slash path) l with
  | None => Some (false, l, st)
  | Some (i, m) =>
      f ← filesystems st !! m_fs m;
      let unmountable := (fsRefcount f >? 1) || ((fsRefcount f =? 1) && (mOpenObjcts f =? 0)) in
      if negb unmountable then Some (false, l, st)
      else
        '(refs, st') ← fs_decref st (m_fs m);
        let st' := if refs =? 0
                   then mkState (objects st') (delete (m_fs m) (filesystems st')) else st' in
        Some (true, delete i l, st')
  end.

(** [open]: the filesystem and the rest of the path it is asked for. *)
Definition resolve (l : list mount_t) (path : option string) : option (Z * string) :=
  if isAbsolutePath path then getfs l path else None.

(** [opendir]: the root directory is the virtual filesystem's own ([Left]). *)
Definition resolve_dir (l : list mount_t) (path : option string) : option (unit + Z * string) :=
  if isAbsolutePath path then
    match path with
    | Some (String c EmptyString) => if Ascii.eqb c slash then Some (inl tt) else inr <$> getfs l path
    | Some (String c rest) => inr <$> getfs l (Some (if Ascii.eqb c slash then rest else String c rest))
    | _ => None
    end
  else None.

(** ** Paths *)

Lemma strprefix_spec p f r : strprefix p f = Some r <-> f = p +:+ r.
Proof.
  revert f. induction p as [|a p IH]; intros f; simpl; [naive_solver|].
  destruct f as [|b f]; [naive_solver|].
  destruct (Ascii.eqb_spec a b) as [->|Hne]; [rewrite IH; split; [by intros ->|by intros [= ->]]|].
  split; [done|]. by intros [= -> _].
Qed.

Lemma contains_spec p t : contains p t = true <-> exists a b, t = a +:+ p +:+ b.
Proof.
  induction t as [|c t IH].
  - simpl. destruct (strprefix p "") as [r|] eqn:E.
    + apply strprefix_spec in E. split; [|done]. intros _. by exists "", r.
    + split; [done|]. intros (a & b & H). destruct a; [|done]. simpl in H.
      assert (strprefix p "" = Some b) by (by apply strprefix_spec). congruence.
  - cbn [contains]. destruct (strprefix p (String c t)) as [r|] eqn:E.
    + apply strprefix_spec in E. split; [|done]. intros _. by exists "", r.
    + rewrite IH. split.
      * intros (a & b & ->). by exists (String c a), b.
      * intros (a & b & H). destruct a as [|c' a].
        { simpl in H. symmetry in H.
          assert (strprefix p (String c t) = Some b) by (by apply strprefix_spec). congruence. }
        injection H as -> ->. by exists a, b.
Qed.

Lemma contains_cons p c t : contains p t = true -> contains p (String c t) = true.
Proof. rewrite !contains_spec. intros (a & b & ->). by exists (String c a), b. Qed.

(** The components of a path: the text between slashes. *)
Fixpoint components (s : string) : list string :=
  match s with
  | EmptyString => [EmptyString]
  | String c s =>
      if Ascii.eqb c slash then EmptyString :: components s
      else match components s with
           | [] => [String c EmptyString]
           | w :: ws => String c w :: ws
           end
  end.

Definition dotted (w : string) : Prop := exists r, w = String "."%char r.

Lemma components_head s :
  exists w ws, components s = w :: ws /\ (dotted w -> exists r, s = String "."%char r).
Proof.
  destruct s as [|c s]; simpl; [by exists "", []; split; [|intros [r ?]]|].
  destruct (Ascii.eqb c slash).
  - exists "", (components s). split; [done|]. by intros [r ?].
  - destruct (components s) as [|w ws]; eexists _, _; (split; [done|]); intros [r [= -> _]]; eauto.
Qed.

(** Past the first slash, a component that starts with a dot shows as "/.". *)
Lemma components_dotted s :
  Exists dotted (list.tail (components s)) -> contains "/." s = true.
Proof.
  induction s as [|c s IH]; cbn [components]; [by rewrite Exists_nil|].
  destruct (Ascii.eqb_spec c slash) as [->|Hc]; cbn [list.tail].
  - destruct (components_head s) as (w & ws & Hw & Hd). rewrite Hw in IH |- *.
    rewrite Exists_cons. intros [Hdot|Hrest]; [|by apply contains_cons, IH].
    destruct (Hd Hdot) as [r ->]. apply contains_spec. by exists "", r.
  - intros Hex. apply contains_cons, IH. by destruct (components s).
Qed.

(** ** The mount table *)

Lemma getfs_loop_spec l root fs next :
  getfs_loop l root = Some (fs, next) <->
  exists l1 m l2, l = l1 ++ m :: l2 /\ m_fs m = fs /\ root = m_path m +:+ next
    /\ at_boundary next = true
    /\ Forall (fun m' => forall r, root = m_path m' +:+ r -> at_boundary r = false) l1.
Proof.
  induction l as [|m l IH]; cbn [getfs_loop].
  { split; [done|]. intros ([] & ? & ? & ? & _); done. }
  destruct (match strprefix (m_path m) root with Some n => at_boundary n | None => false end) eqn:E.
  - destruct (strprefix (m_path m) root) as [n|] eqn:Ep; [|done]. rewrite E.
    apply strprefix_spec in Ep as Hr. split.
    + intros [= <- <-]. exists [], m, l. split_and!; try done.
    + intros (l1 & m' & l2 & Hl & Hfs & Hroot & Hb & Hall). destruct l1 as [|m1 l1]; injection Hl as -> ->.
      * assert (strprefix (m_path m') root = Some next) by (by apply strprefix_spec). congruence.
      * apply Forall_cons_iff in Hall as [H1 _]. rewrite (H1 n) in E by done. done.
  - assert (Hskip : getfs_loop l root = match strprefix (m_path m) root with
      | Some n => if at_boundary n then Some (m_fs m, n) else getfs_loop l root
      | None => getfs_loop l root end) by (destruct (strprefix (m_path m) root); [by rewrite E|done]).
    rewrite <- Hskip, IH. clear Hskip. split.
    + intros (l1 & m' & l2 & -> & Hrest). exists (m :: l1), m', l2. split; [done|].
      destruct Hrest as (? & ? & ? & ?). split_and!; try done. constructor; [|done].
      intros r Hr. by rewrite (proj2 (strprefix_spec _ _ _) Hr) in E.
    + intros (l1 & m' & l2 & Hl & ? & Hroot & Hb & Hall). destruct l1 as [|m1 l1]; injection Hl as -> ->.
      * rewrite (proj2 (strprefix_spec _ _ _) Hroot) in E. congruence.
      * apply Forall_cons_iff in Hall as [_ Hall]. by exists l1, m', l2.
Qed.

(** How many entries of the table a filesystem serves. *)
Definition served (fs : Z) (l : list mount_t) : nat := length (filter (fun m => m_fs m = fs) l).

(** Every filesystem in the table is alive, and its count is the number of
    entries it serves. *)
Definition counted (l : list mount_t) (st : state) : Prop :=
  forall fs, (0 < served fs l)%nat ->
    exists f, filesystems st !! fs = Some f /\ fsRefcount f = Z.of_nat (served fs l).

Lemma served_app fs l1 l2 : served fs (l1 ++ l2) = (served fs l1 + served fs l2)%nat.
Proof. unfold served. by rewrite list.filter_app, length_app. Qed.

Lemma served_cons fs m l :
  served fs (m :: l) = ((if decide (m_fs m = fs) then 1 else 0) + served fs l)%nat.
Proof. unfold served. rewrite filter_cons. by case_decide. Qed.

Lemma served_delete fs l i m :
  l !! i = Some m ->
  (served fs (delete i l) + (if decide (m_fs m = fs) then 1 else 0))%nat = served fs l.
Proof.
  intros (l1 & l2 & -> & ->)%lookup_split. rewrite delete_middle_eq by done.
  rewrite !served_app, served_cons. lia.
Qed.

(** [unmount] on a counted table: it refuses, or it drops the first entry with
    that path and the filesystem dies exactly with its last entry. *)
Lemma unmount_counted l st path :
  counted l st -> Z.of_nat (length l) < 2 ^ 32 ->
  exists ok l' st', unmount l st path = Some (ok, l', st') /\ counted l' st'
    /\ objects st' = objects st
    /\ (ok = true -> exists i m, l !! i = Some m /\ m_path m = skip_slash path /\ l' = delete i l
          /\ (is_Some (filesystems st' !! m_fs m) <-> (0 < served (m_fs m) l')%nat)).
Proof.
  intros Hc Hlen. unfold unmount.
  destruct (list_find (fun m => m_path m = skip_slash path) l) as [[i m]|] eqn:Ef;
    [|by exists false, l, st].
  apply list_find_Some in Ef as (Hi & Hp & _).
  pose proof (fun fs => served_delete fs l i m Hi) as Hs.
  destruct (Hc (m_fs m)) as (f & Hf & Hr).
  { specialize (Hs (m_fs m)). case_decide; [lia|done]. }
  rewrite Hf. cbn [mbind option_bind].
  destruct (negb _); [by exists false, l, st|].
  unfold fs_decref. rewrite Hf. cbn [mbind option_bind].
  specialize (Hs (m_fs m)) as Hsm. rewrite decide_True in Hsm by done.
  rewrite dec_wanted_pos by lia.
  eexists true, _, _. split; [done|]. split_and!.
  - intros fs Hpos. specialize (Hs fs). destruct (decide (m_fs m = fs)) as [<-|Hne].
    + destruct (Z.eqb_spec (fsRefcount f - 1) 0); [lia|]. simpl.
      rewrite lookup_insert_eq. eexists. split; [done|]. simpl. lia.
    + destruct (Hc fs) as (f' & Hf' & Hr'); [lia|]. exists f'.
      split; [|lia]. destruct (Z.eqb_spec (fsRefcount f - 1) 0); simpl;
        rewrite ?lookup_delete_ne, ?lookup_insert_ne by done; done.
  - by destruct (Z.eqb_spec (fsRefcount f - 1) 0).
  - intros _. exists i, m. split_and!; try done.
    destruct (Z.eqb_spec (fsRefcount f - 1) 0); simpl.
    + rewrite lookup_delete_eq. split; [by intros []|lia].
    + rewrite lookup_insert_eq. split; [lia|by eexists].
Qed.

End VFS.
