(* ===== verification/Kernel.v ===== *)
(** * Processes and the process manager: state and operations
    (kernel/include/process/process.h, kernel/include/process/manager.h,
    kernel/src/process/manager.cpp, kernel/src/process/process.cpp,
    kernel/src/synch/waitqueue.cpp, kernel/src/tty/tty.cpp)

    [Proc] is [process_t]; [Kernel] is the state the process manager, the wait
    queues and the system tasks share, with the primitive writes to it; [PM] has
    the operations of [ProcessManager] and [WaitQueue].  A process is referred to
    by the address of its [process_t], a wait queue by its address; 0 is the null
    pointer.  An operation returns [None] where the code panics, dereferences a
    pointer that points to no object, or reads outside an array.

    The vectors, queues and tables are the ones of [Vec], [PQueue] and [Tables],
    over sequences.  Operations that give up the CPU end by setting [k_switching];
    only the scheduler runs in that state. *)

From stdpp Require Import base numbers list gmap option strings.
From Stdlib Require Import ZArith Lia.
From S2P Require Import Prelude Vec PQueue Tables Time Files.

Local Open Scope Z_scope.

Module Proc.

Inductive State := NEW | AVAILABLE | WAITING | SLEEPING | EXITED | COLLECTED | COLLECTING.

#[global] Instance state_eq_dec : EqDecision State.
Proof. solve_decision. Defined.

(** [process_exit_status_t] *)
Record exit_status := mkStatus { reason : Z; status : Z }.

#[global] Instance exit_status_eq_dec : EqDecision exit_status.
Proof. solve_decision. Defined.

Definition toWord (s : exit_status) : Z := Z.lor (status s) (u32 (Z.shiftl (reason s) 24)).
Definition ofWord (word : Z) : exit_status := mkStatus (u8 (Z.shiftr word 24)) (Z.land word 255).

Record priority_t := mkPriority {
  quantum_max : Z; quantum_current : Z; scheduling_max : Z; scheduling_current : Z }.
Record flags_t := mkFlags { f_system : bool; f_due_for_reschedule : bool }.
Record wakeReason_t := mkWake { timeout : bool; waitable : Z }.
Record tss_t := mkTss { cr3 : Z; eip : Z; esp : Z; esp0 : Z; cs : Z; ss : Z }.
Record stats_t := mkStats { runtime : Z; ctxswitches : Z }.

Record process_t := mkProcess {
  pid : nat; ppid : nat; gdtidx : nat;
  path : option string; args : option (list string); cwd : string; environ : option (list string);
  state : State;
  tss : tss_t; espstart : Z; esp0start : Z;
  tty : Z; fds : Handletable.table FsObject.handle;
  priority : priority_t; usedticks : Z;
  flags : flags_t; runtimestats : stats_t;
  exitstatus : exit_status;
  children : list Z;
  sleeptill : Z; waitToken : Z; wakeReason : wakeReason_t;
}.

(** [process_t::process_t()] *)
Definition new : process_t := {|
  pid := 0; ppid := 0; gdtidx := 0;
  path := None; args := None; cwd := "/"; environ := None;
  state := NEW;
  tss := mkTss 0 0 0 0 0 0; espstart := 0; esp0start := 0;
  tty := 0; fds := Handletable.new 64;
  priority := mkPriority 0 0 0 0; usedticks := 0;
  flags := mkFlags false false; runtimestats := mkStats 0 0;
  exitstatus := ofWord 0;
  children := [];
  sleeptill := 0; waitToken := 0; wakeReason := mkWake false 0;
|}.

(** Writes to one member. *)
Definition set_state (s : State) (p : process_t) : process_t :=
  mkProcess (pid p) (ppid p) (gdtidx p) (path p) (args p) (cwd p) (environ p) s (tss p) (espstart p) (esp0start p)
    (tty p) (fds p) (priority p) (usedticks p) (flags p) (runtimestats p) (exitstatus p) (children p)
    (sleeptill p) (waitToken p) (wakeReason p).
Definition set_ppid (x : nat) (p : process_t) : process_t :=
  mkProcess (pid p) x (gdtidx p) (path p) (args p) (cwd p) (environ p) (state p) (tss p) (espstart p) (esp0start p)
    (tty p) (fds p) (priority p) (usedticks p) (flags p) (runtimestats p) (exitstatus p) (children p)
    (sleeptill p) (waitToken p) (wakeReason p).
Definition set_args (x : option (list string)) (p : process_t) : process_t :=
  mkProcess (pid p) (ppid p) (gdtidx p) (path p) x (cwd p) (environ p) (state p) (tss p) (espstart p) (esp0start p)
    (tty p) (fds p) (priority p) (usedticks p) (flags p) (runtimestats p) (exitstatus p) (children p)
    (sleeptill p) (waitToken p) (wakeReason p).
Definition set_environ (x : option (list string)) (p : process_t) : process_t :=
  mkProcess (pid p) (ppid p) (gdtidx p) (path p) (args p) (cwd p) x (state p) (tss p) (espstart p) (esp0start p)
    (tty p) (fds p) (priority p) (usedticks p) (flags p) (runtimestats p) (exitstatus p) (children p)
    (sleeptill p) (waitToken p) (wakeReason p).
Definition set_priority (x : priority_t) (p : process_t) : process_t :=
  mkProcess (pid p) (ppid p) (gdtidx p) (path p) (args p) (cwd p) (environ p) (state p) (tss p) (espstart p) (esp0start p)
    (tty p) (fds p) x (usedticks p) (flags p) (runtimestats p) (exitstatus p) (children p)
    (sleeptill p) (waitToken p) (wakeReason p).
Definition set_tss (x : tss_t) (p : process_t) : process_t :=
  mkProcess (pid p) (ppid p) (gdtidx p) (path p) (args p) (cwd p) (environ p) (state p) x (espstart p) (esp0start p)
    (tty p) (fds p) (priority p) (usedticks p) (flags p) (runtimestats p) (exitstatus p) (children p)
    (sleeptill p) (waitToken p) (wakeReason p).
Definition set_fds (x : Handletable.table FsObject.handle) (p : process_t) : process_t :=
  mkProcess (pid p) (ppid p) (gdtidx p) (path p) (args p) (cwd p) (environ p) (state p) (tss p) (espstart p) (esp0start p)
    (tty p) x (priority p) (usedticks p) (flags p) (runtimestats p) (exitstatus p) (children p)
    (sleeptill p) (waitToken p) (wakeReason p).
Definition set_usedticks (x : Z) (p : process_t) : process_t :=
  mkProcess (pid p) (ppid p) (gdtidx p) (path p) (args p) (cwd p) (environ p) (state p) (tss p) (espstart p) (esp0start p)
    (tty p) (fds p) (priority p) x (flags p) (runtimestats p) (exitstatus p) (children p)
    (sleeptill p) (waitToken p) (wakeReason p).
Definition set_due (x : bool) (p : process_t) : process_t :=
  mkProcess (pid p) (ppid p) (gdtidx p) (path p) (args p) (cwd p) (environ p) (state p) (tss p) (espstart p) (esp0start p)
    (tty p) (fds p) (priority p) (usedticks p) (mkFlags (f_system (flags p)) x) (runtimestats p) (exitstatus p)
    (children p) (sleeptill p) (waitToken p) (wakeReason p).
Definition set_stats (x : stats_t) (p : process_t) : process_t :=
  mkProcess (pid p) (ppid p) (gdtidx p) (path p) (args p) (cwd p) (environ p) (state p) (tss p) (espstart p) (esp0start p)
    (tty p) (fds p) (priority p) (usedticks p) (flags p) x (exitstatus p) (children p)
    (sleeptill p) (waitToken p) (wakeReason p).
Definition set_exitstatus (x : exit_status) (p : process_t) : process_t :=
  mkProcess (pid p) (ppid p) (gdtidx p) (path p) (args p) (cwd p) (environ p) (state p) (tss p) (espstart p) (esp0start p)
    (tty p) (fds p) (priority p) (usedticks p) (flags p) (runtimestats p) x (children p)
    (sleeptill p) (waitToken p) (wakeReason p).
Definition set_children (x : list Z) (p : process_t) : process_t :=
  mkProcess (pid p) (ppid p) (gdtidx p) (path p) (args p) (cwd p) (environ p) (state p) (tss p) (espstart p) (esp0start p)
    (tty p) (fds p) (priority p) (usedticks p) (flags p) (runtimestats p) (exitstatus p) x
    (sleeptill p) (waitToken p) (wakeReason p).
Definition set_sleeptill (x : Z) (p : process_t) : process_t :=
  mkProcess (pid p) (ppid p) (gdtidx p) (path p) (args p) (cwd p) (environ p) (state p) (tss p) (espstart p) (esp0start p)
    (tty p) (fds p) (priority p) (usedticks p) (flags p) (runtimestats p) (exitstatus p) (children p)
    x (waitToken p) (wakeReason p).
Definition set_waitToken (x : Z) (p : process_t) : process_t :=
  mkProcess (pid p) (ppid p) (gdtidx p) (path p) (args p) (cwd p) (environ p) (state p) (tss p) (espstart p) (esp0start p)
    (tty p) (fds p) (priority p) (usedticks p) (flags p) (runtimestats p) (exitstatus p) (children p)
    (sleeptill p) x (wakeReason p).
Definition set_wakeReason (x : wakeReason_t) (p : process_t) : process_t :=
  mkProcess (pid p) (ppid p) (gdtidx p) (path p) (args p) (cwd p) (environ p) (state p) (tss p) (espstart p) (esp0start p)
    (tty p) (fds p) (priority p) (usedticks p) (flags p) (runtimestats p) (exitstatus p) (children p)
    (sleeptill p) (waitToken p) x.

Definition system (p : process_t) : bool := f_system (flags p).

End Proc.

Module Kernel.
Import Proc.

(** [WaitQueue::queue_entry_t] and [sleep_queue_helper::qentry] *)
Record qentry := mkEntry { token : Z; process : Z }.

#[global] Instance qentry_eq_dec : EqDecision qentry.
Proof. solve_decision. Defined.

(** The part of a [TTY] that decides who may read from it. *)
Record tty_t := mkTTY { mForeground : list nat; mForegroundWQ : Z }.

(** The system tasks and the wait queues they block on. *)
Record tasks_t := mkTasks {
  gCollectorTask : Z; gInitTask : Z;
  awaker_queue : Z; collector_queue : Z; deleter_queue : Z;
}.

Definition gNumProcesses : nat := 2000.

Record kernel := mkKernel {
  procs : gmap Z process_t;
  gReadyQueue : list Z;
  gSleepQueue : list qentry;
  gProcessTable : ProcessTable.table Z;
  gExitedProcesses : ProcessTable.table Z;
  gCollectedProcessList : list Z;
  gPidBitmap : PidBitmap.bitmap;
  gGDTBitmap : PidBitmap.bitmap;
  wqs : gmap Z (list qentry);
  ttys : gmap Z tty_t;
  files : FsObject.state;
  gCurrentProcess : Z;
  gNumCtxSwitches : Z;
  now : Z;
  k_switching : bool;
  tasks : tasks_t;
}.

Definition with_procs (k : kernel) x : kernel :=
  mkKernel x (gReadyQueue k) (gSleepQueue k) (gProcessTable k) (gExitedProcesses k) (gCollectedProcessList k)
    (gPidBitmap k) (gGDTBitmap k) (wqs k) (ttys k) (files k) (gCurrentProcess k) (gNumCtxSwitches k) (now k)
    (k_switching k) (tasks k).
Definition with_ready (k : kernel) x : kernel :=
  mkKernel (procs k) x (gSleepQueue k) (gProcessTable k) (gExitedProcesses k) (gCollectedProcessList k)
    (gPidBitmap k) (gGDTBitmap k) (wqs k) (ttys k) (files k) (gCurrentProcess k) (gNumCtxSwitches k) (now k)
    (k_switching k) (tasks k).
Definition with_sleep (k : kernel) x : kernel :=
  mkKernel (procs k) (gReadyQueue k) x (gProcessTable k) (gExitedProcesses k) (gCollectedProcessList k)
    (gPidBitmap k) (gGDTBitmap k) (wqs k) (ttys k) (files k) (gCurrentProcess k) (gNumCtxSwitches k) (now k)
    (k_switching k) (tasks k).
Definition with_table (k : kernel) x : kernel :=
  mkKernel (procs k) (gReadyQueue k) (gSleepQueue k) x (gExitedProcesses k) (gCollectedProcessList k)
    (gPidBitmap k) (gGDTBitmap k) (wqs k) (ttys k) (files k) (gCurrentProcess k) (gNumCtxSwitches k) (now k)
    (k_switching k) (tasks k).
Definition with_exited (k : kernel) x : kernel :=
  mkKernel (procs k) (gReadyQueue k) (gSleepQueue k) (gProcessTable k) x (gCollectedProcessList k)
    (gPidBitmap k) (gGDTBitmap k) (wqs k) (ttys k) (files k) (gCurrentProcess k) (gNumCtxSwitches k) (now k)
    (k_switching k) (tasks k).
Definition with_collected (k : kernel) x : kernel :=
  mkKernel (procs k) (gReadyQueue k) (gSleepQueue k) (gProcessTable k) (gExitedProcesses k) x
    (gPidBitmap k) (gGDTBitmap k) (wqs k) (ttys k) (files k) (gCurrentProcess k) (gNumCtxSwitches k) (now k)
    (k_switching k) (tasks k).
Definition with_bitmaps (k : kernel) x y : kernel :=
  mkKernel (procs k) (gReadyQueue k) (gSleepQueue k) (gProcessTable k) (gExitedProcesses k) (gCollectedProcessList k)
    x y (wqs k) (ttys k) (files k) (gCurrentProcess k) (gNumCtxSwitches k) (now k)
    (k_switching k) (tasks k).
Definition with_wqs (k : kernel) x : kernel :=
  mkKernel (procs k) (gReadyQueue k) (gSleepQueue k) (gProcessTable k) (gExitedProcesses k) (gCollectedProcessList k)
    (gPidBitmap k) (gGDTBitmap k) x (ttys k) (files k) (gCurrentProcess k) (gNumCtxSwitches k) (now k)
    (k_switching k) (tasks k).
Definition with_ttys (k : kernel) x : kernel :=
  mkKernel (procs k) (gReadyQueue k) (gSleepQueue k) (gProcessTable k) (gExitedProcesses k) (gCollectedProcessList k)
    (gPidBitmap k) (gGDTBitmap k) (wqs k) x (files k) (gCurrentProcess k) (gNumCtxSwitches k) (now k)
    (k_switching k) (tasks k).
Definition with_files (k : kernel) x : kernel :=
  mkKernel (procs k) (gReadyQueue k) (gSleepQueue k) (gProcessTable k) (gExitedProcesses k) (gCollectedProcessList k)
    (gPidBitmap k) (gGDTBitmap k) (wqs k) (ttys k) x (gCurrentProcess k) (gNumCtxSwitches k) (now k)
    (k_switching k) (tasks k).
Definition with_now (k : kernel) x : kernel :=
  mkKernel (procs k) (gReadyQueue k) (gSleepQueue k) (gProcessTable k) (gExitedProcesses k) (gCollectedProcessList k)
    (gPidBitmap k) (gGDTBitmap k) (wqs k) (ttys k) (files k) (gCurrentProcess k) (gNumCtxSwitches k) x
    (k_switching k) (tasks k).
Definition with_cpu (k : kernel) current switches switching : kernel :=
  mkKernel (procs k) (gReadyQueue k) (gSleepQueue k) (gProcessTable k) (gExitedProcesses k) (gCollectedProcessList k)
    (gPidBitmap k) (gGDTBitmap k) (wqs k) (ttys k) (files k) current switches (now k)
    switching (tasks k).

(** A write through a process pointer. *)
Definition upd (k : kernel) (task : Z) (f : process_t -> process_t) : option kernel :=
  p ← procs k !! task; Some (with_procs k (<[task := f p]> (procs k))).

Definition set_wq (k : kernel) (q : Z) (l : list qentry) : kernel := with_wqs k (<[q := l]> (wqs k)).

(** The id stored in a process, for the tables that are indexed by it. *)
Definition pid_of (k : kernel) (task : Z) : nat :=
  match procs k !! task with Some p => pid p | None => 0%nat end.

(** The key of the sleep queue. *)
Definition sleeptill_of (k : kernel) (e : qentry) : Z :=
  match procs k !! process e with Some p => sleeptill p | None => 0 end.

(** [sleep_queue_helper::compare] *)
Definition compare (k : kernel) (p1 p2 : qentry) : Z :=
  if sleeptill_of k p1 >=? sleeptill_of k p2 then -1 else 1.

(** The order the comparison decides: an entry is below one that wakes sooner. *)
Definition later (k : kernel) (e1 e2 : qentry) : Prop := sleeptill_of k e2 <= sleeptill_of k e1.

#[global] Instance compare_comparator k : PQueue.Comparator (compare k) (later k).
Proof.
  unfold compare, later. split; intros.
  - lia.
  - lia.
  - case_match; bool_to_prop; lia.
  - case_match; bool_to_prop; lia.
Qed.

End Kernel.

Module PM.
Import Proc Kernel.

Implicit Types k : kernel.

Definition getprocess k (p : nat) : option Z := mjoin (ProcessTable.get (gProcessTable k) p).

(** ** Ready queue *)

Definition reschedule k (task : Z) : option kernel :=
  k ← upd k task (fun p => set_state AVAILABLE (set_waitToken (u64 (waitToken p + 1)) p));
  Some (with_ready k (v_push_back (gReadyQueue k) task)).

(** The loop of [deschedule]: after an erase the scan starts over. *)
Fixpoint deschedule_loop (fuel : nat) (rq : list Z) (b : nat) (task : Z) (numfound : nat)
    : option (list Z * nat) :=
  match fuel with
  | O => None
  | S fuel =>
      if (b =? v_size rq)%nat then Some (rq, numfound)
      else
        x ← v_at rq b;
        if x =? task then deschedule_loop fuel (v_erase_at rq b) 0 task (S numfound)
        else deschedule_loop fuel rq (S b) task numfound
  end.

(** Rounds that are always enough: one scan per element removed. *)
Definition deschedule_fuel (n : nat) : nat := (S n * S n)%nat.

Definition deschedule k (task : Z) (newstate : State) (wq : Z) : option kernel :=
  '(rq, numfound) ← deschedule_loop (deschedule_fuel (length (gReadyQueue k))) (gReadyQueue k) 0 task 0;
  k ← (if (0 <? numfound)%nat
       then upd k task (fun p => set_wakeReason (mkWake (timeout (wakeReason p)) wq) (set_state newstate p))
       else Some k);
  if (1 <? numfound)%nat then None else Some (with_ready k rq).

(** ** Wait queues *)

(** [WaitQueue::remove] *)
Definition wq_remove k (q : Z) (task : Z) : option kernel :=
  l ← wqs k !! q;
  l' ← DynQueue.remove_if (V := list) l (fun e => process e =? task);
  Some (set_wq k q l').

(** [ProcessManager::ready] *)
Definition ready k (task : Z) (wq : Z) : option kernel :=
  p ← procs k !! task;
  if decide (state p = AVAILABLE) then Some k
  else k ← upd k task (set_wakeReason (mkWake false wq)); reschedule k task.

(** [ProcessManager::wake] *)
Definition wake k (task : Z) : option kernel :=
  p ← procs k !! task;
  if decide (state p = AVAILABLE) then Some k
  else
    let wq := waitable (wakeReason p) in
    k ← (if wq =? 0 then Some k else wq_remove k wq task);
    k ← upd k task (set_wakeReason (mkWake true 0));
    reschedule k task.

(** [WaitQueue::pushToQueue], called by [WaitQueue::wait] *)
Definition wq_wait k (q : Z) (task : Z) : option kernel :=
  l ← wqs k !! q;
  p ← procs k !! task;
  let k := set_wq k q (DynQueue.push (V := list) l (mkEntry (waitToken p) task)) in
  deschedule k task WAITING q.

(** [WaitQueue::wake] *)
Definition wq_wake k (q : Z) (e : qentry) : option (bool * kernel) :=
  if process e =? 0 then Some (false, k)
  else
    p ← procs k !! process e;
    if decide (state p = WAITING) then
      if waitToken p =? token e then k ← ready k (process e) q; Some (true, k)
      else Some (false, k)
    else Some (false, k).

(** [WaitQueue::wakeone]; null when the queue runs empty. *)
Fixpoint wakeone_fuel (fuel : nat) k (q : Z) : option (Z * kernel) :=
  match fuel with
  | O => None
  | S fuel =>
      l ← wqs k !! q;
      if DynQueue.empty (V := list) l then Some (0, k)
      else
        '(next, l') ← DynQueue.pop (V := list) l;
        '(woken, k) ← wq_wake (set_wq k q l') q next;
        if (woken : bool) then Some (process next, k) else wakeone_fuel fuel k q
  end.

Fixpoint wakeall_fuel (fuel : nat) k (q : Z) : option kernel :=
  match fuel with
  | O => None
  | S fuel =>
      l ← wqs k !! q;
      if DynQueue.empty (V := list) l then Some k
      else
        '(next, l') ← DynQueue.pop (V := list) l;
        '(_, k) ← wq_wake (set_wq k q l') q next;
        wakeall_fuel fuel k q
  end.

(** Every round pops an entry. *)
Definition wakeone k (q : Z) : option (Z * kernel) :=
  l ← wqs k !! q; wakeone_fuel (S (length l)) k q.
Definition wakeall k (q : Z) : option kernel :=
  l ← wqs k !! q; wakeall_fuel (S (length l)) k q.

Definition wq_empty k (q : Z) : option bool := l ← wqs k !! q; Some (DynQueue.empty (V := list) l).
Definition wq_peek k (q : Z) : option Z :=
  l ← wqs k !! q; if DynQueue.empty (V := list) l then Some 0 else e ← DynQueue.peek (V := list) l; Some (process e).

(** ** Giving up the CPU *)

Definition switchtoscheduler k : kernel :=
  with_cpu k (gCurrentProcess k) (u64 (gNumCtxSwitches k + 1)) true.

Definition yield k (bytimer : bool) : option kernel :=
  k ← upd k (gCurrentProcess k) (fun p =>
        let s := runtimestats p in
        set_stats (mkStats (if bytimer then runtime s else u64 (runtime s + 1)) (u64 (ctxswitches s + 1))) p);
  Some (switchtoscheduler k).

Definition ctxswitch k (task : Z) : kernel :=
  with_cpu k task (u64 (gNumCtxSwitches k + 1)) false.

(** [ProcessManager::sleep] *)
Definition sleep k (durationMs : Z) : option kernel :=
  let cur := gCurrentProcess k in
  k ← upd k cur (set_sleeptill (u64 (now k + durationMs)));
  k ← deschedule k cur SLEEPING 0;
  p ← procs k !! cur;
  sq ← PQueue.insert (V := list) (compare k) (gSleepQueue k) (mkEntry (waitToken p) cur);
  k ← wakeall (with_sleep k sq) (awaker_queue (tasks k));
  yield k false.

(** [WaitQueue::yield] *)
Definition wq_yield k (q : Z) (timeout : Z) : option kernel :=
  k ← wq_wait k q (gCurrentProcess k);
  if timeout =? 0 then yield k false else sleep k timeout.

(** [WaitableObject::myWake] of the current process *)
Definition myWake k (q : Z) : option bool :=
  p ← procs k !! gCurrentProcess k; Some (waitable (wakeReason p) =? q).

(** ** The timer *)

(** [VirtualPageManager::iskernel] and the two addresses of the halt loop *)
Definition gKernelBase : Z := 0xC0000000.
Definition isinterruptible (gHaltInstruction addr : Z) : bool :=
  if gKernelBase <=? addr
  then (addr =? gHaltInstruction) || (addr =? u32 (gHaltInstruction + 1))
  else true.

Definition tickForMetrics k (millisPerTick : Z) : option kernel :=
  if gCurrentProcess k =? 0 then Some k
  else upd k (gCurrentProcess k) (fun p =>
         let s := runtimestats p in
         set_stats (mkStats (u64 (runtime s + millisPerTick)) (ctxswitches s)) p).

Definition tickForSchedule k (can_yield : bool) : option (bool * kernel) :=
  p ← procs k !! gCurrentProcess k;
  let allowedticks := quantum_current (priority p) in
  if allowedticks >? 0 then
    let usedticks' := u8 (usedticks p + 1) in
    k ← upd k (gCurrentProcess k) (set_usedticks usedticks');
    if usedticks' >=? allowedticks then
      if can_yield then Some (true, k)
      else k ← upd k (gCurrentProcess k) (set_due true); Some (false, k)
    else Some (false, k)
  else Some (false, k).

End PM.
