(* ===== verification/Lifecycle.v ===== *)
(** * Process life cycle: spawn, exit, collect, delete
    (kernel/src/process/manager.cpp, kernel/src/process/process.cpp,
    kernel/src/tty/tty.cpp, kernel/src/tasks/deleter.cpp)

    The memory a process owns is the concern of the memory manager: the calls
    that release its regions and its address space touch nothing of the state
    modelled here.  The pages of a new process are an argument of [spawn], as the
    page manager returned them. *)

From stdpp Require Import base numbers list gmap option strings.
From Stdlib Require Import ZArith Lia.
From S2P Require Import Prelude Vec PQueue Tables Time Files Kernel.

Local Open Scope Z_scope.

Module Life.
Import Proc Kernel PM.

Implicit Types k : kernel.

(** ** Terminal foreground *)

Definition pushfg k (t : Z) (p : nat) : option kernel :=
  tt_ ← ttys k !! t;
  wakeall (with_ttys k (<[t := mkTTY (mForeground tt_ ++ [p]) (mForegroundWQ tt_)]> (ttys k))) (mForegroundWQ tt_).

(** [TTY::popfg]; the destructor of its local object wakes the queue last. *)
Definition popfg k (t : Z) (p : nat) : option (nat * kernel) :=
  tt_ ← ttys k !! t;
  init ← procs k !! gInitTask (tasks k);
  let fg := filter (fun x => (x =? p)%nat = false) (mForeground tt_) in
  let fg := match fg with [] => [pid init] | _ => fg end in
  k ← wakeall (with_ttys k (<[t := mkTTY fg (mForegroundWQ tt_)]> (ttys k))) (mForegroundWQ tt_);
  newfg ← list.last fg;
  Some (newfg, k).

(** ** Exit *)

Definition enqueueForDeath k (task : Z) : option kernel :=
  p ← procs k !! task;
  if decide (state p = EXITED) then
    t ← ProcessTable.set (pid_of k) (gExitedProcesses k) (Some task);
    Some (with_exited k t)
  else None.

(** The loop that hands the children over to the collector task. *)
Fixpoint reparent k (cs : list Z) : option kernel :=
  match cs with
  | [] => Some k
  | c :: cs =>
      let coll := gCollectorTask (tasks k) in
      cp ← procs k !! coll;
      k ← upd k c (set_ppid (pid cp));
      k ← upd k coll (fun p => set_children (children p ++ [c]) p);
      k ← wakeall k (collector_queue (tasks k));
      reparent k cs
  end.

(** [for (i = 0; i < fds.size(); ++i)], [n] slots remaining. *)
Fixpoint close_fds (st : FsObject.state) (t : Handletable.table FsObject.handle) (i n : nat)
    : option FsObject.state :=
  match n with
  | O => Some st
  | S n =>
      valid ← Handletable.is_ t i;
      st ← (if (valid : bool) then
              fd ← Handletable.value t i;
              if FsObject.handle_ok fd then FsObject.handle_close st fd else Some st
            else Some st);
      close_fds st t (S i) n
  end.

Definition exit k (task : Z) (es : exit_status) : option kernel :=
  p ← procs k !! task;
  if system p then None
  else
    k ← reparent k (children p);
    k ← upd k task (set_children []);
    st ← close_fds (files k) (fds p) 0 64;
    k ← upd (with_files k st) task (set_state EXITED);
    '(_, k) ← popfg k (tty p) (pid p);
    k ← upd k task (set_exitstatus es);
    p ← procs k !! task;
    parent ← getprocess k (ppid p);
    pp ← procs k !! parent;
    if decide (state pp = COLLECTING) then reschedule k parent else Some k.

(** [exit(es)] of the running process *)
Definition exit_current k (es : exit_status) : option kernel :=
  k ← exit k (gCurrentProcess k) es; yield k false.

(** [resumeat] *)
Definition resumeat k (task : Z) (eip_ esp_ cs_ ss_ : Z) : option kernel :=
  upd k task (fun p => set_tss (mkTss (cr3 (tss p)) eip_ esp_ (esp0 (tss p)) cs_ ss_) p).

(** [kill]: the victim resumes in [reaper] with the status as its argument; the
    word stored below the stack page is not part of this state. *)
Definition kill k (reaper : Z) (p : nat) : option (bool * kernel) :=
  task ← getprocess k p;
  cur ← procs k !! gCurrentProcess k;
  t ← procs k !! task;
  if task =? gCurrentProcess k then k ← exit_current k (mkStatus 3 0); Some (true, k)
  else if system t && negb (system cur) then Some (false, k)
  else k ← resumeat k task reaper (u32 (esp0start t - 4)) 8 16; Some (true, k).

(** ** Collect *)

Definition enqueueForCollection k (task : Z) : option kernel :=
  p ← procs k !! task;
  if decide (state p = COLLECTED) then
    wakeall (with_collected k (gCollectedProcessList k ++ [task])) (deleter_queue (tasks k))
  else None.

(** One pass of [collect]: [None] as status when the caller must wait and run
    the pass again after it is scheduled. *)
Definition collect k (p : nat) : option (option exit_status * kernel) :=
  task ← getprocess k p;
  t ← procs k !! task;
  if decide (getprocess k (ppid t) = Some (gCurrentProcess k)) then
    if decide (state t = EXITED) then
      parent ← procs k !! gCurrentProcess k;
      if decide (task ∈ children parent) then
        k ← upd k (gCurrentProcess k) (set_children (remove_first (Z.eqb task) (children parent)));
        let result := exitstatus t in
        let k := with_exited k (ProcessTable.free (pid_of k) (gExitedProcesses k) task) in
        k ← upd k task (set_state COLLECTED);
        k ← enqueueForCollection k task;
        Some (Some result, k)
      else None
    else
      k ← deschedule k (gCurrentProcess k) COLLECTING 0;
      k ← yield k false;
      Some (None, k)
  else None.

(** The scan of [collectany] for a child that has exited. *)
Fixpoint exited_child k (cs : list Z) : option (option nat) :=
  match cs with
  | [] => Some None
  | c :: cs =>
      p ← procs k !! c;
      if decide (state p = EXITED) then Some (Some (pid p)) else exited_child k cs
  end.

Inductive any_result := Collected (p : nat) (s : exit_status) | MustWait | Nothing.

Definition collectany k (wait : bool) : option (any_result * kernel) :=
  cur ← procs k !! gCurrentProcess k;
  found ← exited_child k (children cur);
  match found with
  | Some p =>
      '(s, k) ← collect k p;
      s ← s;
      Some (Collected p s, k)
  | None =>
      if wait then
        k ← deschedule k (gCurrentProcess k) COLLECTING 0;
        k ← yield k false;
        Some (MustWait, k)
      else Some (Nothing, k)
  end.

(** One round of the deleter task: the process object goes away with its id, its
    descriptor slot and its table entry. *)
Definition delete_one k : option (option kernel) :=
  match gCollectedProcessList k with
  | [] => Some None
  | proc :: rest =>
      p ← procs k !! proc;
      let k := with_collected k rest in
      let k := with_bitmaps k (PidBitmap.free (gPidBitmap k) (pid p)) (PidBitmap.free (gGDTBitmap k) (gdtidx p)) in
      let k := with_table k (ProcessTable.free (pid_of k) (gProcessTable k) proc) in
      Some (Some (with_procs k (delete proc (procs k))))
  end.

(** ** Spawn *)

Record exec_priority_t := mkExecPriority { quantum : Z; scheduling : Z }.

(** [exec_fileop_t] up to the terminator *)
Inductive fileop :=
  | CLOSE_CHILD_FD (child_fd : nat)
  | DUP_PARENT_FD (parent_fd : nat)
  | DUP_CHILD_FD
  | UNKNOWN_OP.

Record spawninfo_t := mkSpawn {
  si_cr3 : Z; si_eip : Z;
  max_priority : exec_priority_t; current_priority : exec_priority_t;
  si_argument : Z;
  si_environment : list string; si_name : option string; si_cwd : string;
  si_fileops : list fileop;
  si_schedulable : bool; si_system : bool; si_clone : bool;
}.

(** The descriptor of a task state segment and the address read back from it. *)
Definition gdt_entry (process size : Z) : Z :=
  Z.lor (Z.lor (Z.lor (Z.land size 0xFFFF) (Z.shiftl (Z.land process 0xFFFFFF) 16)) 0xE90000000000)
        (Z.shiftl (Z.land process 0xFF000000) 32).
Definition gdt_entry_to_tss_ptr (tssval : Z) : Z :=
  Z.lor (Z.shiftr (Z.land tssval 0xFFFFFF0000) 16) (Z.shiftr (Z.land tssval 0xFF00000000000000) 32).

(** [process_t::clone] on the members modelled here.  [copyArguments] is called
    on the parent with the child's arguments. *)
Definition clone (parent child : process_t) : process_t * process_t :=
  (set_args (Some (match args child with Some a => a | None => [] end)) parent,
   {| pid := pid child; ppid := ppid child; gdtidx := gdtidx child;
      path := path parent; args := args child; cwd := cwd parent; environ := None;
      state := NEW; tss := tss parent; espstart := espstart child; esp0start := esp0start child;
      tty := tty child; fds := fds child; priority := priority parent; usedticks := 0;
      flags := mkFlags (f_system (flags parent)) (f_due_for_reschedule (flags child));
      runtimestats := mkStats 0 (ctxswitches (runtimestats child));
      exitstatus := exitstatus child; children := children child; sleeptill := 0;
      waitToken := waitToken child; wakeReason := wakeReason child |}).

(** [copyEnvironment] into the new object *)
Definition copyEnvironment (dest : process_t) (env : list string) : process_t := set_environ (Some env) dest.

(** The checks that make [spawn] return null. *)
Definition too_priority (cur : process_t) (si : spawninfo_t) : bool :=
  (quantum (max_priority si) >? quantum_max (priority cur)) ||
  (scheduling (max_priority si) >? scheduling_max (priority cur)).
Definition out_of_range (si : spawninfo_t) : bool :=
  (quantum (current_priority si) >? quantum (max_priority si)) ||
  (scheduling (current_priority si) >? scheduling (max_priority si)).
Definition refused (cur : process_t) (si : spawninfo_t) : bool :=
  negb (system cur) && (too_priority cur si || out_of_range si).

(** The members [spawn] fills in, for a process object that is new or cloned. *)
Definition init_process (cur base : process_t) (si : spawninfo_t) (pid_ gdtidx_ : nat) (page_esp0 page_esp : Z)
    : process_t :=
  {| pid := pid_; ppid := pid cur; gdtidx := gdtidx_;
     path := match si_name si with Some n => Some n | None => path base end;
     args := args base; cwd := cwd cur; environ := environ base;
     state := state base;
     tss := mkTss (si_cr3 si) (si_eip si) (u32 (page_esp + 4 * 1022)) (u32 (4096 - 1 + page_esp0)) 8 16;
     espstart := page_esp; esp0start := page_esp0;
     tty := tty cur; fds := fds base;
     priority := mkPriority (quantum (max_priority si)) (quantum (current_priority si))
                            (scheduling (max_priority si)) (scheduling (current_priority si));
     usedticks := usedticks base;
     flags := mkFlags (si_system si) (f_due_for_reschedule (flags base));
     runtimestats := runtimestats base; exitstatus := exitstatus base; children := children base;
     sleeptill := sleeptill base; waitToken := waitToken base; wakeReason := wakeReason base |}.

(** [forwardTTY]: the first three free descriptors must be 0, 1 and 2; [ttyfile]
    is the address of the child's terminal file. *)
Definition forwardTTY (t : Handletable.table FsObject.handle) (ttyfile : Z)
    : option (Handletable.table FsObject.handle) :=
  let h := FsObject.mkHandle 0 ttyfile 0 in
  '(r0, t) ← Handletable.set 64 t h 0;
  '(r1, t) ← Handletable.set 64 t h 0;
  '(r2, t) ← Handletable.set 64 t h 0;
  if bool_decide (r0 = Some 0%nat) && bool_decide (r1 = Some 1%nat) && bool_decide (r2 = Some 2%nat)
  then Some t else None.

(** [execFileops] on the parent's and the child's descriptors. *)
Fixpoint execFileops (st : FsObject.state) (parent child : Handletable.table FsObject.handle) (fops : list fileop)
    : option (FsObject.state * Handletable.table FsObject.handle) :=
  match fops with
  | [] => Some (st, child)
  | CLOSE_CHILD_FD fd :: fops =>
      valid ← Handletable.is_ child fd;
      st ← (if (valid : bool) then
              h ← Handletable.value child fd;
              if FsObject.handle_ok h then FsObject.handle_close st h else Some st
            else Some st);
      execFileops st parent (Handletable.clear child fd) fops
  | DUP_PARENT_FD fd :: fops =>
      valid ← Handletable.is_ parent fd;
      if (valid : bool) then
        h ← Handletable.value parent fd;
        if FsObject.h_object h =? 0 then execFileops st parent child fops
        else
          '(_, st) ← FsObject.incref st (FsObject.h_object h);
          '(_, child) ← Handletable.set 64 child h 0;
          execFileops st parent child fops
      else execFileops st parent child fops
  | (DUP_CHILD_FD | UNKNOWN_OP) :: fops => execFileops st parent child fops
  end.

(** The first part of [spawn]: the new object gets its ids and enters the process
    table; [cur] is the parent, which [clone] may have changed. *)
Definition spawn_enter k (si : spawninfo_t) (cur base : process_t) (pages : Z * Z * Z) : option kernel :=
  let '(proc, page_esp0, page_esp) := pages in
  '(pid_, pids) ← PidBitmap.next gNumProcesses (gPidBitmap k);
  '(gdtidx_, gdts) ← PidBitmap.next gNumProcesses (gGDTBitmap k);
  let k := with_bitmaps k pids gdts in
  let child := init_process cur base si pid_ gdtidx_ page_esp0 page_esp in
  let k := with_procs k (<[proc := child]> (<[gCurrentProcess k := cur]> (procs k))) in
  t ← ProcessTable.set (pid_of k) (gProcessTable k) (Some proc);
  Some (with_table k t).

(** The second part: the ready queue, the descriptors, the parent's children. *)
Definition spawn_finish k (si : spawninfo_t) (cur : process_t) (proc ttyfile : Z) : option kernel :=
  child ← procs k !! proc;
  k ← (if si_schedulable si then reschedule k proc else Some k);
  child_fds ← forwardTTY (fds child) ttyfile;
  '(st, child_fds) ← execFileops (files k) (fds cur) child_fds (si_fileops si);
  k ← upd (with_files k st) proc (set_fds child_fds);
  upd k (gCurrentProcess k) (fun p => set_children (children p ++ [proc]) p).

(** [spawn]: [pages] are the addresses of the new process object, its kernel
    stack and its user stack; [ttyfile] is the address of the terminal file inside
    the new object.  A null result is [None] in the inner option. *)
Definition spawn k (si : spawninfo_t) (pages : Z * Z * Z) (ttyfile : Z) : option (option Z * kernel) :=
  if si_cr3 si =? 0 then None
  else
    cur ← procs k !! gCurrentProcess k;
    if refused cur si then Some (None, k)
    else
      let '(cur, base) := if si_clone si then clone cur new
                          else (cur, copyEnvironment new (si_environment si)) in
      k ← spawn_enter k si cur base pages;
      k ← spawn_finish k si cur pages.1.1 ttyfile;
      Some (Some pages.1.1, k).

(** [kspawn]: the address space of the initial task, always a system process. *)
Definition kspawn k (si : spawninfo_t) (dummy_cr3 : Z) (pages : Z * Z * Z) (ttyfile : Z) :=
  spawn k (mkSpawn dummy_cr3 (si_eip si) (max_priority si) (current_priority si) (si_argument si)
             (si_environment si) (si_name si) (si_cwd si) (si_fileops si) (si_schedulable si) true (si_clone si))
    pages ttyfile.

Definition PROCESS_INHERITS_CWD : Z := 2.
Definition PROCESS_INHERITS_SYSTEM : Z := 8.

(** [exec], up to the copy of the arguments into the new process. *)
Definition exec_info (cur : process_t) (new_cr3 fileloader : Z) (path_ : string) (env : list string) (flags_ : Z)
    (prio : exec_priority_t) (argp : Z) (fops : list fileop) : spawninfo_t := {|
  si_cr3 := new_cr3; si_eip := fileloader;
  max_priority := mkExecPriority (quantum_max (priority cur)) (scheduling_max (priority cur));
  current_priority := prio;
  si_argument := argp; si_environment := env; si_name := Some path_;
  si_cwd := if negb (Z.land flags_ PROCESS_INHERITS_CWD =? 0) then cwd cur else "/";
  si_fileops := fops; si_schedulable := true;
  si_system := if negb (Z.land flags_ PROCESS_INHERITS_SYSTEM =? 0) then system cur else false;
  si_clone := false |}.

Definition exec k (new_cr3 fileloader : Z) (path_ : string) (args_ : option (list string)) (env : list string)
    (flags_ : Z) (prio : exec_priority_t) (argp : Z) (fops : list fileop) (pages : Z * Z * Z) (ttyfile : Z)
    : option (option Z * kernel) :=
  cur ← procs k !! gCurrentProcess k;
  '(r, k) ← spawn k (exec_info cur new_cr3 fileloader path_ env flags_ prio argp fops) pages ttyfile;
  match r, args_ with
  | Some proc, Some a => k ← upd k proc (set_args (Some a)); Some (Some proc, k)
  | _, _ => Some (r, k)
  end.

(** [cloneProcess] *)
Definition clone_info (cur : process_t) (new_cr3 clone_start eip_ : Z) (fops : list fileop) : spawninfo_t := {|
  si_cr3 := new_cr3; si_eip := clone_start;
  max_priority := mkExecPriority (quantum_max (priority cur)) (scheduling_max (priority cur));
  current_priority := mkExecPriority (quantum_current (priority cur)) (scheduling_current (priority cur));
  si_argument := eip_; si_environment := []; si_name := path cur; si_cwd := cwd cur;
  si_fileops := fops; si_schedulable := true; si_system := system cur; si_clone := true |}.

Definition cloneProcess k (new_cr3 clone_start eip_ : Z) (fops : list fileop) (pages : Z * Z * Z) (ttyfile : Z)
    : option (option Z * kernel) :=
  cur ← procs k !! gCurrentProcess k;
  spawn k (clone_info cur new_cr3 clone_start eip_ fops) pages ttyfile.

End Life.
