(* ===== verification/Sched.v ===== *)
(** * The scheduling invariant and the primitive operations

    [inv] relates the ready queue, the wait queues, the sleep queue and the
    states of the processes: the ready queue has no duplicates and holds exactly
    the runnable processes, a queue entry of a runnable process is stale, and a
    process that waits or sleeps is in the queue it waits for with its current
    token, so that no process is lost.  The file shows what the primitives of
    [PM] do to it. *)

From stdpp Require Import base numbers list gmap option.
From Stdlib Require Import ZArith Lia Permutation.
From S2P Require Import Prelude Vec PQueue Tables Files Kernel.

Local Open Scope Z_scope.

Module Sched.
Import Proc Kernel PM.

Implicit Types (k : kernel) (ps : gmap Z process_t) (ws : gmap Z (list qentry)).

Definition asleep (p : process_t) : Prop := state p = WAITING \/ state p = SLEEPING.

(** A queue entry points to a live process, and is stale unless that process
    waits or sleeps. *)
Definition good ps (e : qentry) : Prop :=
  exists p, ps !! process e = Some p /\ token e <= waitToken p /\ (asleep p \/ token e < waitToken p).

(** [sw]: the CPU is being given up, and a process that has just exited may still
    be in the ready queue.  [x]: a process about to be queued or woken. *)
Record inv_of (sw : bool) (x : Z) ps (rq : list Z) (sq : list qentry) ws : Prop := {
  i_nodup : NoDup rq;
  i_live t : t ∈ rq -> exists p, ps !! t = Some p
    /\ (state p = AVAILABLE \/ sw = true /\ state p = EXITED);
  i_avail t p : ps !! t = Some p -> state p = AVAILABLE -> t ∈ rq;
  i_sleep e : e ∈ sq -> good ps e;
  i_wait q l e : ws !! q = Some l -> e ∈ l -> good ps e;
  i_token t p : ps !! t = Some p -> 0 <= waitToken p < 2 ^ 64;
  i_null : ps !! 0 = None;
  i_waiting t p : ps !! t = Some p -> t <> x -> state p = WAITING ->
    exists l, ws !! waitable (wakeReason p) = Some l /\ mkEntry (waitToken p) t ∈ l;
  i_sleeping t p : ps !! t = Some p -> t <> x -> state p = SLEEPING ->
    mkEntry (waitToken p) t ∈ sq /\ waitable (wakeReason p) = 0;
}.

Definition inv_x (sw : bool) (x : Z) k : Prop :=
  inv_of sw x (procs k) (gReadyQueue k) (gSleepQueue k) (wqs k).

Definition inv k : Prop := inv_x (k_switching k) 0 k.

(** Tokens that an operation may increase are not at the end of their range. *)
Definition fresh k : Prop :=
  forall t p, procs k !! t = Some p -> state p <> AVAILABLE -> waitToken p + 1 < 2 ^ 64.

(** ** Updates that the invariant does not see *)

Definition neutral (f : process_t -> process_t) : Prop :=
  forall p, state (f p) = state p /\ waitToken (f p) = waitToken p /\ wakeReason (f p) = wakeReason p.

Lemma upd_spec k t f k' :
  upd k t f = Some k' <-> exists p, procs k !! t = Some p /\ k' = with_procs k (<[t := f p]> (procs k)).
Proof. unfold upd. destruct (procs k !! t); simpl; naive_solver. Qed.

Lemma inv_neutral sw x ps rq sq ws t p p' :
  inv_of sw x ps rq sq ws -> ps !! t = Some p ->
  state p' = state p -> waitToken p' = waitToken p -> wakeReason p' = wakeReason p ->
  inv_of sw x (<[t := p']> ps) rq sq ws.
Proof.
  intros [Hnd Hlive Hav Hsl Hwt Htok Hnull Hw Hs] Hp E1 E2 E3.
  assert (Hgood : forall e, good ps e -> good (<[t := p']> ps) e).
  { intros e (r & Hr & ? & ?). unfold good. destruct (decide (process e = t)) as [Heq|Hne].
    - rewrite Heq in *. simplify_eq. exists p'. unfold asleep. rewrite lookup_insert_eq, E1, E2. done.
    - exists r. by rewrite lookup_insert_ne. }
  assert (Hback : forall u r, <[t := p']> ps !! u = Some r ->
    exists r0, ps !! u = Some r0 /\ state r = state r0 /\ waitToken r = waitToken r0 /\ wakeReason r = wakeReason r0).
  { intros u r. rewrite lookup_insert_Some. intros [[<- <-]|[? ?]]; eauto. }
  split; try done.
  - intros u Hu. destruct (Hlive u Hu) as (r & Hr & Hst).
    destruct (decide (t = u)) as [<-|Hne].
    + exists p'. rewrite lookup_insert_eq. simplify_eq. by rewrite E1.
    + exists r. by rewrite lookup_insert_ne.
  - intros u r Hr Hst. destruct (Hback u r Hr) as (r0 & ? & ? & _). eapply Hav; [done|congruence].
  - eauto.
  - eauto.
  - intros u r Hr. destruct (Hback u r Hr) as (r0 & ? & _ & -> & _). eauto.
  - rewrite lookup_insert_ne; [done|]. intros ->. congruence.
  - intros u r Hr Hx Hst. destruct (Hback u r Hr) as (r0 & Hr0 & ? & -> & ->).
    apply (Hw u r0); congruence.
  - intros u r Hr Hx Hst. destruct (Hback u r Hr) as (r0 & Hr0 & ? & -> & ->).
    apply (Hs u r0); congruence.
Qed.

Lemma upd_inv sw x k t f p :
  neutral f -> inv_x sw x k -> procs k !! t = Some p ->
  exists k', upd k t f = Some k' /\ inv_x sw x k' /\ k' = with_procs k (<[t := f p]> (procs k)).
Proof.
  intros Hf Hi Hp. unfold upd. rewrite Hp. simpl. eexists. split; [done|]. split; [|done].
  destruct (Hf p) as (? & ? & ?). by eapply inv_neutral.
Qed.

(** ** The ready queue *)

Lemma filter_nothing t (rq : list Z) : (forall y, y ∈ rq -> y <> t) -> filter (fun y => y = t) rq = [].
Proof.
  induction rq as [|y rq IH]; intros Hall; [done|].
  rewrite filter_cons, decide_False by (apply Hall; left). apply IH. intros; apply Hall; by right.
Qed.

(** The loop removes every occurrence and counts them. *)
Lemma deschedule_loop_spec fuel rq b t n :
  (b <= length rq)%nat -> Forall (fun y => y <> t) (take b rq) ->
  (length rq - b + length (filter (fun y => y = t) rq) * length rq < fuel)%nat ->
  deschedule_loop fuel rq b t n =
    Some (filter (fun y => y <> t) rq, (n + length (filter (fun y => y = t) rq))%nat).
Proof.
  revert rq b n. induction fuel as [|fuel IH]; intros rq b n Hb Hpre Hf; [lia|].
  cbn [deschedule_loop]. cbn [v_size v_at v_erase_at list_ops].
  destruct (Nat.eqb_spec b (length rq)) as [->|Hne].
  - rewrite take_ge in Hpre by lia. rewrite list.Forall_forall in Hpre.
    rewrite list_filter_all by done.
    rewrite filter_nothing by done. by rewrite Nat.add_0_r.
  - destruct (lookup_lt_is_Some_2 rq b ltac:(lia)) as [y Hy]. rewrite Hy. cbn [mbind option_bind].
    destruct (Z.eqb_spec y t) as [->|Hyt].
    + apply lookup_split in Hy as (l1 & l2 & -> & ->).
      rewrite delete_middle_eq by done.
      rewrite !list.filter_app, !filter_cons, decide_True, decide_False in * by naive_solver.
      rewrite !length_app in *. simpl in *. rewrite IH.
      * rewrite !list.filter_app, length_app, decide_True by done. simpl. f_equal. f_equal. lia.
      * lia.
      * constructor.
      * rewrite list.filter_app, !length_app. nia.
    + rewrite IH; [done|lia| |lia].
      rewrite (take_S_r _ _ _ Hy). apply Forall_app. split; [done|]. by constructor.
Qed.

Lemma filter_single t (rq : list Z) :
  NoDup rq -> length (filter (fun y => y = t) rq) = if decide (t ∈ rq) then 1%nat else 0%nat.
Proof.
  induction 1 as [|y rq Hy Hnd IH]; [done|].
  rewrite filter_cons. destruct (decide (y = t)) as [->|Hne]; simpl; rewrite IH.
  - rewrite decide_False by done. by rewrite decide_True by left.
  - apply decide_ext. rewrite elem_of_cons. naive_solver.
Qed.

(** The process as [deschedule] leaves it. *)
Definition blocked (s : State) (wq : Z) (p : process_t) : process_t :=
  set_wakeReason (mkWake (timeout (wakeReason p)) wq) (set_state s p).

Lemma deschedule_spec k t p s wq :
  NoDup (gReadyQueue k) -> procs k !! t = Some p ->
  deschedule k t s wq = Some (
    if decide (t ∈ gReadyQueue k)
    then with_ready (with_procs k (<[t := blocked s wq p]> (procs k))) (filter (fun y => y <> t) (gReadyQueue k))
    else k).
Proof.
  intros Hnd Hp. unfold deschedule.
  assert (Hlen : (length (filter (fun y => y = t) (gReadyQueue k)) <= 1)%nat).
  { rewrite filter_single by done. case_decide; lia. }
  rewrite deschedule_loop_spec; [|lia|by constructor|unfold deschedule_fuel; nia].
  cbn [mbind option_bind Nat.add]. rewrite filter_single by done.
  destruct (decide (t ∈ gReadyQueue k)) as [Hin|Hin]; cbn [Nat.ltb Nat.leb].
  - unfold upd. by rewrite Hp.
  - cbn [mbind option_bind]. f_equal. rewrite list_filter_all; [by destruct k|].
    intros y Hy ->. done.
Qed.

(** Making a process that is in no queue position runnable. *)
Lemma inv_resume sw x ps rq sq ws t p p' :
  inv_of sw x ps rq sq ws -> (x = t \/ x = 0) -> ps !! t = Some p -> t ∉ rq ->
  waitToken p + 1 < 2 ^ 64 -> state p' = AVAILABLE -> waitToken p' = waitToken p + 1 ->
  inv_of sw 0 (<[t := p']> ps) (rq ++ [t]) sq ws.
Proof.
  intros [Hnd Hlive Hav Hsl Hwt Htok Hnull Hw Hs] Hx Hp Hnin Hfr E1 E2.
  assert (Hgood : forall e, good ps e -> good (<[t := p']> ps) e).
  { intros e (r & Hr & ? & ?). unfold good. destruct (decide (process e = t)) as [Heq|Hne].
    - rewrite Heq in *. simplify_eq. exists p'. rewrite lookup_insert_eq, E2. split_and!; [done|lia|right; lia].
    - exists r. by rewrite lookup_insert_ne. }
  split.
  - apply list.NoDup_app. split_and!; [done| |apply NoDup_singleton].
    intros y Hy ->%list_elem_of_singleton. done.
  - intros u [Hu| ->%list_elem_of_singleton]%elem_of_app.
    + destruct (Hlive u Hu) as (r & ? & ?). exists r. rewrite lookup_insert_ne; [done|]. by intros ->.
    + exists p'. rewrite lookup_insert_eq. auto.
  - intros u r Hr Hst. apply elem_of_app. rewrite lookup_insert_Some in Hr.
    destruct Hr as [[<- _]|[_ Hr]]; [right; by apply list_elem_of_singleton|left; eauto].
  - eauto.
  - eauto.
  - intros u r Hr. rewrite lookup_insert_Some in Hr. destruct Hr as [[<- <-]|[_ Hr]]; [|eauto].
    pose proof (Htok t p Hp). lia.
  - rewrite lookup_insert_ne; [done|]. intros ->. congruence.
  - intros u r Hr Hu Hst. rewrite lookup_insert_Some in Hr. destruct Hr as [[<- <-]|[Hne Hr]]; [congruence|].
    apply Hw; [done|destruct Hx; congruence|done].
  - intros u r Hr Hu Hst. rewrite lookup_insert_Some in Hr. destruct Hr as [[<- <-]|[Hne Hr]]; [congruence|].
    apply Hs; [done|destruct Hx; congruence|done].
Qed.

(** Taking the runnable process [t] off the ready queue. *)
Lemma inv_block sw ps rq sq ws t p p' :
  inv_of sw 0 ps rq sq ws -> ps !! t = Some p -> state p = AVAILABLE ->
  state p' <> AVAILABLE -> waitToken p' = waitToken p ->
  inv_of sw t (<[t := p']> ps) (filter (fun y => y <> t) rq) sq ws.
Proof.
  intros [Hnd Hlive Hav Hsl Hwt Htok Hnull Hw Hs] Hp Hst E1 E2.
  assert (Hgood : forall e, good ps e -> good (<[t := p']> ps) e).
  { intros e (r & Hr & ? & ?). unfold good. destruct (decide (process e = t)) as [Heq|Hne].
    - rewrite Heq in *. simplify_eq. exists p'. rewrite lookup_insert_eq, E2. unfold asleep in *. naive_solver congruence.
    - exists r. by rewrite lookup_insert_ne. }
  assert (Ht0 : t <> 0) by (intros ->; congruence).
  split.
  - by apply list.NoDup_filter.
  - intros u [Hu Hin]%list_elem_of_filter. destruct (Hlive u Hin) as (r & ? & ?).
    exists r. by rewrite lookup_insert_ne.
  - intros u r Hr Hs'. rewrite lookup_insert_Some in Hr. destruct Hr as [[<- <-]|[Hne Hr]]; [done|].
    apply list_elem_of_filter. split; [done|eauto].
  - eauto.
  - eauto.
  - intros u r Hr. rewrite lookup_insert_Some in Hr. destruct Hr as [[<- <-]|[_ Hr]]; [rewrite E2|]; eauto.
  - by rewrite lookup_insert_ne.
  - intros u r Hr Hu Hs'. rewrite lookup_insert_ne in Hr by done. apply Hw; [done| |done].
    intros ->. congruence.
  - intros u r Hr Hu Hs'. rewrite lookup_insert_ne in Hr by done. apply Hs; [done| |done].
    intros ->. congruence.
Qed.

(** ** Wait queues *)

(** An entry that its process still waits for. *)
Definition current ps (e : qentry) : Prop :=
  exists p, ps !! process e = Some p /\ state p = WAITING /\ waitToken p = token e.

(** Removing entries from a queue: those of [x], and stale ones. *)
Lemma inv_wq_drop sw x ps rq sq ws q l l' :
  inv_of sw 0 ps rq sq ws -> ws !! q = Some l ->
  (forall e, e ∈ l' -> e ∈ l) ->
  (forall e, e ∈ l -> e ∈ l' \/ process e = x \/ ~ current ps e) ->
  inv_of sw x ps rq sq (<[q := l']> ws).
Proof.
  intros [Hnd Hlive Hav Hsl Hwt Htok Hnull Hw Hs] Hq Hsub Hdrop. split; try done.
  - intros q' m e Hm He. rewrite lookup_insert_Some in Hm. destruct Hm as [[<- <-]|[_ Hm]]; eauto.
  - intros t p Hp Hx Hst. assert (Ht0 : t <> 0) by (intros ->; congruence).
    destruct (Hw t p Hp Ht0 Hst) as (m & Hm & He).
    destruct (decide (waitable (wakeReason p) = q)) as [E|Hne].
    + exists l'. rewrite E, lookup_insert_eq. split; [done|]. rewrite E in Hm. simplify_eq.
      destruct (Hdrop _ He) as [?|[?|Hnc]]; [done|done|]. destruct Hnc. by exists p.
    + exists m. by rewrite lookup_insert_ne.
  - intros t p Hp _ Hst. apply Hs; [done| |done]. intros ->. congruence.
Qed.

(** The test of [WaitQueue::wake] on a live entry. *)
Definition wakes ps (e : qentry) : bool :=
  match ps !! process e with
  | Some p => bool_decide (state p = WAITING) && (waitToken p =? token e)
  | None => false
  end.

Lemma wakes_current ps e : wakes ps e = true <-> current ps e.
Proof.
  unfold wakes, current. destruct (ps !! process e) as [p|].
  - rewrite andb_true_iff, bool_decide_eq_true, Z.eqb_eq. naive_solver.
  - split; [done|]. by intros (p & ? & _).
Qed.

(** A process that [ready] or [wake] has made runnable. *)
Definition woke (r : wakeReason_t) (p : process_t) : process_t :=
  set_state AVAILABLE (set_waitToken (u64 (waitToken p + 1)) (set_wakeReason r p)).

(** The state after one entry of queue [q] was taken and its process resumed. *)
Definition resume k (t : Z) (p : process_t) (r : wakeReason_t) : kernel :=
  with_ready (with_procs k (<[t := woke r p]> (procs k))) (gReadyQueue k ++ [t]).

Definition take_entry k (q : Z) (e : qentry) : kernel :=
  match procs k !! process e with
  | Some p => if wakes (procs k) e then resume k (process e) p (mkWake false q) else k
  | None => k
  end.

Lemma reschedule_spec k t p :
  procs k !! t = Some p ->
  reschedule k t = Some (with_ready (with_procs k
    (<[t := set_state AVAILABLE (set_waitToken (u64 (waitToken p + 1)) p)]> (procs k))) (gReadyQueue k ++ [t])).
Proof. intros Hp. unfold reschedule, upd. by rewrite Hp. Qed.

Lemma ready_spec k t p q :
  procs k !! t = Some p -> state p <> AVAILABLE ->
  ready k t q = Some (resume k t p (mkWake false q)).
Proof.
  intros Hp Hst. unfold ready. rewrite Hp. cbn [mbind option_bind]. rewrite decide_False by done.
  unfold upd. rewrite Hp. cbn [mbind option_bind].
  rewrite (reschedule_spec _ t (set_wakeReason (mkWake false q) p)) by (simpl; apply lookup_insert_eq).
  unfold resume. simpl. by rewrite insert_insert_eq.
Qed.

Lemma good_not_null sw x ps rq sq ws e :
  inv_of sw x ps rq sq ws -> good ps e -> process e <> 0.
Proof. intros Hi (p & Hp & _) E. rewrite E, (i_null _ _ _ _ _ _ Hi) in Hp. done. Qed.

Lemma wq_wake_spec sw k q e l :
  inv_x sw 0 k -> wqs k !! q = Some l -> e ∈ l ->
  forall m, wq_wake (set_wq k q m) q e = Some (wakes (procs k) e, set_wq (take_entry k q e) q m).
Proof.
  intros Hi Hq He m. pose proof (i_wait _ _ _ _ _ _ Hi q l e Hq He) as Hg.
  unfold wq_wake, take_entry, wakes. destruct (Z.eqb_spec (process e) 0) as [E|_].
  { by eapply good_not_null in E. }
  destruct Hg as (p & Hp & _). simpl. rewrite Hp. cbn [mbind option_bind].
  destruct (decide (state p = WAITING)) as [Hst|Hst].
  - rewrite bool_decide_eq_true_2 by done. simpl. destruct (waitToken p =? token e); [|done].
    rewrite (ready_spec (set_wq k q m) (process e) p) by (simpl; congruence). done.
  - by rewrite bool_decide_eq_false_2.
Qed.

Lemma u64_token p : 0 <= waitToken p -> waitToken p + 1 < 2 ^ 64 -> u64 (waitToken p + 1) = waitToken p + 1.
Proof. intros. apply u64_id. unfold is_u. lia. Qed.

(** A process that is not runnable and not exited is not in the ready queue. *)
Lemma not_ready sw x k t p :
  inv_x sw x k -> procs k !! t = Some p -> state p <> AVAILABLE -> state p <> EXITED ->
  t ∉ gReadyQueue k.
Proof.
  intros Hi Hp H1 H2 Hin. destruct (i_live _ _ _ _ _ _ Hi t Hin) as (p' & ? & [?|[_ ?]]); congruence.
Qed.

Lemma resume_inv sw x k t p r :
  inv_x sw x k -> (x = t \/ x = 0) -> procs k !! t = Some p ->
  state p <> AVAILABLE -> state p <> EXITED -> fresh k ->
  inv_x sw 0 (resume k t p r).
Proof.
  intros Hi Hx Hp H1 H2 Hf. unfold inv_x, resume. simpl.
  pose proof (i_token _ _ _ _ _ _ Hi t p Hp) as Htok. pose proof (Hf t p Hp H1).
  eapply inv_resume; [done|done|done|by eapply not_ready|done|done|].
  simpl. apply u64_token; lia.
Qed.

Lemma resume_fresh k t p r : fresh k -> fresh (resume k t p r).
Proof.
  intros Hf u r'. simpl. rewrite lookup_insert_Some. intros [[<- <-]|[_ Hr]]; [done|]. by apply (Hf u).
Qed.

Lemma take_entry_inv sw k q e l :
  inv_x sw 0 k -> fresh k -> wqs k !! q = Some (e :: l) ->
  inv_x sw 0 (set_wq (take_entry k q e) q l) /\ fresh (set_wq (take_entry k q e) q l).
Proof.
  intros Hi Hf Hq. unfold take_entry.
  pose proof (i_wait _ _ _ _ _ _ Hi q _ e Hq ltac:(left)) as (p & Hp & _). rewrite Hp.
  destruct (wakes (procs k) e) eqn:Hw.
  - apply wakes_current in Hw as (p' & Hp' & Hst & _). simplify_eq.
    split; [|by apply resume_fresh].
    apply (resume_inv sw (process e) (set_wq k q l) (process e) p); try done; try congruence; [|by left].
    eapply inv_wq_drop; [done|done|by right|].
    intros e' [->|?]%elem_of_cons; [right; by left|by left].
  - split; [|done]. eapply inv_wq_drop; [done|done|by right|].
    intros e' [->|?]%elem_of_cons; [|by left]. right. right.
    intros Hc%wakes_current. simpl in Hc. congruence.
Qed.

(** What [wakeall] computes: the entries are taken in order. *)
Fixpoint take_all k (q : Z) (l : list qentry) : kernel :=
  match l with
  | [] => k
  | e :: l => take_all (take_entry k q e) q l
  end.

Lemma take_entry_wqs k q e m : take_entry (set_wq k q m) q e = set_wq (take_entry k q e) q m.
Proof.
  unfold take_entry. simpl. destruct (procs k !! process e); [|done].
  by destruct (wakes (procs k) e).
Qed.

Lemma take_all_wqs k q l m : take_all (set_wq k q m) q l = set_wq (take_all k q l) q m.
Proof.
  revert k. induction l as [|e l IH]; intros k; [done|]. simpl.
  by rewrite take_entry_wqs, IH.
Qed.

Lemma set_wq_twice k q m m' : set_wq (set_wq k q m) q m' = set_wq k q m'.
Proof. unfold set_wq. simpl. by rewrite insert_insert_eq. Qed.

Lemma wakeall_fuel_spec sw fuel k q l :
  inv_x sw 0 k -> fresh k -> wqs k !! q = Some l -> (length l < fuel)%nat ->
  wakeall_fuel fuel k q = Some (set_wq (take_all k q l) q [])
  /\ inv_x sw 0 (set_wq (take_all k q l) q []) /\ fresh (set_wq (take_all k q l) q []).
Proof.
  revert k l. induction fuel as [|fuel IH]; intros k l Hi Hf Hq Hlen; [lia|].
  cbn [wakeall_fuel]. rewrite Hq. cbn [mbind option_bind]. destruct l as [|e l].
  - simpl. assert (set_wq k q [] = k) as ->; [|done].
    unfold set_wq. rewrite insert_id by done. by destruct k.
  - cbn [DynQueue.empty DynQueue.pop v_size v_at v_erase_at list_ops length Nat.eqb].
    unfold DynQueue.pop. cbn [v_at v_erase_at list_ops]. simpl. cbn [mbind option_bind].
    rewrite (wq_wake_spec sw k q e (e :: l)) by (done || left). cbn [mbind option_bind].
    destruct (take_entry_inv sw k q e l Hi Hf Hq) as [Hi' Hf'].
    destruct (IH _ l Hi' Hf') as (-> & Hi'' & Hf''); [simpl; apply lookup_insert_eq|simpl in Hlen; lia|].
    rewrite take_all_wqs, set_wq_twice in *. done.
Qed.

Lemma wakeall_spec sw k q l :
  inv_x sw 0 k -> fresh k -> wqs k !! q = Some l ->
  wakeall k q = Some (set_wq (take_all k q l) q [])
  /\ inv_x sw 0 (set_wq (take_all k q l) q []) /\ fresh (set_wq (take_all k q l) q []).
Proof.
  intros Hi Hf Hq. unfold wakeall. rewrite Hq. cbn [mbind option_bind].
  apply wakeall_fuel_spec; [done|done|done|lia].
Qed.

Lemma take_entry_stale k q e : wakes (procs k) e = false -> take_entry k q e = k.
Proof. intros Hw. unfold take_entry. rewrite Hw. by destruct (procs k !! process e). Qed.

(** [wakeone] drops stale entries until one wakes its process. *)
Definition first_live ps (l : list qentry) : option (nat * qentry) := list_find (fun e => wakes ps e = true) l.

Lemma wakeone_fuel_spec sw fuel k q l :
  inv_x sw 0 k -> fresh k -> wqs k !! q = Some l -> (length l < fuel)%nat ->
  match first_live (procs k) l with
  | Some (i, e) => wakeone_fuel fuel k q = Some (process e, set_wq (take_entry k q e) q (drop (S i) l))
      /\ inv_x sw 0 (set_wq (take_entry k q e) q (drop (S i) l)) /\ fresh (set_wq (take_entry k q e) q (drop (S i) l))
  | None => wakeone_fuel fuel k q = Some (0, set_wq k q [])
      /\ inv_x sw 0 (set_wq k q []) /\ fresh (set_wq k q [])
  end.
Proof.
  revert k l. induction fuel as [|fuel IH]; intros k l Hi Hf Hq Hlen; [lia|].
  cbn [wakeone_fuel]. rewrite Hq. cbn [mbind option_bind]. destruct l as [|e l].
  - simpl. assert (set_wq k q [] = k) as ->; [|done].
    unfold set_wq. rewrite insert_id by done. by destruct k.
  - cbn [DynQueue.empty v_size list_ops length Nat.eqb].
    unfold DynQueue.pop. cbn [v_at v_erase_at list_ops]. simpl. cbn [mbind option_bind].
    rewrite (wq_wake_spec sw k q e (e :: l)) by (done || left). cbn [mbind option_bind].
    destruct (take_entry_inv sw k q e l Hi Hf Hq) as [Hi' Hf'].
    unfold first_live. cbn [list_find]. destruct (decide (wakes (procs k) e = true)) as [Hw|Hw].
    + rewrite Hw. simpl. by rewrite drop_0.
    + apply not_true_is_false in Hw. rewrite Hw. rewrite take_entry_stale in Hi', Hf' |- * by done.
      specialize (IH (set_wq k q l) l Hi' Hf' ltac:(simpl; apply lookup_insert_eq) ltac:(simpl in Hlen; lia)).
      unfold first_live in IH. change (procs (set_wq k q l)) with (procs k) in IH.
      destruct (list_find _ l) as [[i e']|]; simpl; rewrite ?take_entry_wqs, ?set_wq_twice in IH; done.
Qed.

(** ** What a wake leaves alone *)

(** Everything but the processes and the ready queue. *)
Definition rest k :=
  (gSleepQueue k, gProcessTable k, gExitedProcesses k, gCollectedProcessList k, gPidBitmap k, gGDTBitmap k,
   wqs k, ttys k, files k, gCurrentProcess k, gNumCtxSwitches k, now k, k_switching k, tasks k).

Lemma take_entry_rest k q e : rest (take_entry k q e) = rest k.
Proof. unfold take_entry. destruct (procs k !! process e); [|done]. by destruct (wakes (procs k) e). Qed.

Lemma take_all_rest k q l : rest (take_all k q l) = rest k.
Proof. revert k. induction l as [|e l IH]; intros k; [done|]. simpl. by rewrite IH, take_entry_rest. Qed.

Ltac by_rest k q l :=
  let H := fresh in pose proof (take_all_rest k q l) as H; unfold rest in H; congruence.

Lemma take_all_current k q l : gCurrentProcess (take_all k q l) = gCurrentProcess k.
Proof. by_rest k q l. Qed.
Lemma take_all_switching k q l : k_switching (take_all k q l) = k_switching k.
Proof. by_rest k q l. Qed.
Lemma take_all_sleep k q l : gSleepQueue (take_all k q l) = gSleepQueue k.
Proof. by_rest k q l. Qed.
Lemma take_all_queues k q l : wqs (take_all k q l) = wqs k.
Proof. by_rest k q l. Qed.
Lemma take_all_tasks k q l : tasks (take_all k q l) = tasks k.
Proof. by_rest k q l. Qed.

Definition woken_by ps (l : list qentry) (t : Z) : bool :=
  existsb (fun e => (process e =? t) && wakes ps e) l.

Lemma wakes_insert_ne ps t p e : process e <> t -> wakes (<[t := p]> ps) e = wakes ps e.
Proof. intros. unfold wakes. by rewrite lookup_insert_ne. Qed.

Lemma woken_by_insert_ne ps t p l u : u <> t -> woken_by (<[t := p]> ps) l u = woken_by ps l u.
Proof.
  intros Hne. unfold woken_by. induction l as [|e l IH]; simpl; [done|]. rewrite IH. f_equal.
  destruct (Z.eqb_spec (process e) u); [|done]. simpl. by rewrite wakes_insert_ne by congruence.
Qed.

Lemma woken_by_available ps t p l : ps !! t = Some p -> state p <> WAITING -> woken_by ps l t = false.
Proof.
  intros Hp Hst. unfold woken_by. apply existsb_none, list.Forall_forall. intros e _.
  destruct (Z.eqb_spec (process e) t) as [E|]; [|done]. simpl. unfold wakes. rewrite E, Hp.
  by rewrite bool_decide_eq_false_2.
Qed.

(** Exactly the processes that still wait with the token of an entry are woken. *)
Lemma take_all_procs k q l t :
  procs (take_all k q l) !! t =
    p ← procs k !! t; Some (if woken_by (procs k) l t then woke (mkWake false q) p else p).
Proof.
  revert k. induction l as [|e l IH]; intros k.
  { simpl. by destruct (procs k !! t). }
  cbn [take_all]. rewrite IH. unfold take_entry, woken_by. cbn [existsb]. fold (woken_by (procs k) l t).
  destruct (procs k !! process e) as [pe|] eqn:Hpe.
  - destruct (wakes (procs k) e) eqn:Hw.
    + unfold resume. simpl. destruct (Z.eqb_spec (process e) t) as [E|Hne].
      * rewrite <- E, lookup_insert_eq, Hpe. simpl.
        fold (woken_by (<[process e := woke (mkWake false q) pe]> (procs k)) l (process e)).
        by rewrite (woken_by_available _ _ (woke (mkWake false q) pe)) by (done || apply lookup_insert_eq).
      * rewrite lookup_insert_ne by done.
        fold (woken_by (<[process e := woke (mkWake false q) pe]> (procs k)) l t).
        by rewrite woken_by_insert_ne by congruence.
    + by rewrite andb_false_r.
  - assert (Hw : wakes (procs k) e = false) by (unfold wakes; by rewrite Hpe). by rewrite Hw, andb_false_r.
Qed.

(** The woken processes join the ready queue in queue order. *)
Lemma take_all_ready k q l :
  exists woken, gReadyQueue (take_all k q l) = gReadyQueue k ++ woken
    /\ sublist woken (map process l) /\ forall t, t ∈ woken <-> woken_by (procs k) l t = true.
Proof.
  revert k. induction l as [|e l IH]; intros k.
  { exists []. split_and!; [by rewrite app_nil_r|done|]. intros t. by split; [intros ?%elem_of_nil|]. }
  cbn [take_all map]. destruct (IH (take_entry k q e)) as (woken & Hr & Hsub & Hin).
  destruct (wakes (procs k) e) eqn:Hw.
  - assert (Hc := Hw). apply wakes_current in Hc as (p & Hp & Hst & Htok).
    assert (Ht : take_entry k q e = resume k (process e) p (mkWake false q)).
    { unfold take_entry. by rewrite Hp, Hw. }
    rewrite Ht in *. exists (process e :: woken). split_and!.
    + rewrite Hr. simpl. by rewrite <- app_assoc.
    + by apply sublist_skip.
    + intros t. rewrite elem_of_cons, Hin. unfold resume. simpl. unfold woken_by at 2. simpl.
      fold (woken_by (procs k) l t). rewrite Hw, andb_true_r, orb_true_iff, Z.eqb_eq.
      destruct (decide (t = process e)) as [->|Hne]; [naive_solver|].
      rewrite woken_by_insert_ne by done. naive_solver.
  - assert (Ht : take_entry k q e = k).
    { unfold take_entry. destruct (procs k !! process e); [|done]. by rewrite Hw. }
    rewrite Ht in *. exists woken. split_and!; [done|by apply sublist_cons|].
    intros t. rewrite Hin. unfold woken_by. simpl. by rewrite Hw, andb_false_r.
Qed.

(** ** Blocking *)

Lemma inv_weaken sw x ps rq sq ws : inv_of false x ps rq sq ws -> inv_of sw x ps rq sq ws.
Proof.
  intros [Hnd Hlive Hav Hsl Hwt Htok Hnull Hw Hs]. split; try done.
  intros t Ht. destruct (Hlive t Ht) as (p & ? & [?|[? _]]); [eauto|done].
Qed.

Lemma inv_push sw ps rq sq ws t p q l :
  inv_of sw t ps rq sq ws -> ps !! t = Some p -> state p = WAITING ->
  waitable (wakeReason p) = q -> ws !! q = Some l ->
  inv_of sw 0 ps rq sq (<[q := l ++ [mkEntry (waitToken p) t]]> ws).
Proof.
  intros [Hnd Hlive Hav Hsl Hwt Htok Hnull Hw Hs] Hp H1 Hq Hl. split; try done.
  - intros q' m e Hm He. rewrite lookup_insert_Some in Hm. destruct Hm as [[<- <-]|[_ Hm]]; [|eauto].
    apply elem_of_app in He as [He| ->%list_elem_of_singleton]; [eauto|]. exists p. split_and!; [done|done|by left; left].
  - intros u r Hr _ Hst. destruct (decide (u = t)) as [->|Hne].
    + simplify_eq. eexists. split; [by rewrite lookup_insert_eq|].
      apply elem_of_app. right. by apply list_elem_of_singleton.
    + destruct (Hw u r Hr Hne Hst) as (m & Hm & He).
      destruct (decide (waitable (wakeReason r) = q)) as [E|Hneq].
      * rewrite E, lookup_insert_eq. eexists. split; [done|]. apply elem_of_app. left. congruence.
      * exists m. by rewrite lookup_insert_ne.
  - intros u r Hr _ Hst. apply Hs; [done| |done]. intros ->. congruence.
Qed.

Lemma inv_sleep_push sw x ps rq sq sq' ws t p :
  inv_of sw x ps rq sq ws -> (x = 0 /\ state p <> SLEEPING \/ x = t /\ state p = SLEEPING /\ waitable (wakeReason p) = 0) ->
  ps !! t = Some p -> asleep p -> sq' ≡ₚ mkEntry (waitToken p) t :: sq ->
  inv_of sw 0 ps rq sq' ws.
Proof.
  intros [Hnd Hlive Hav Hsl Hwt Htok Hnull Hw Hs] Hx Hp H1 Hperm. split; try done.
  - intros e. rewrite Hperm, elem_of_cons. intros [->|?]; [|eauto]. exists p. split_and!; [done|done|by left].
  - intros u r Hr Hu Hst. apply Hw; [done| |done].
    destruct Hx as [[-> _]|(-> & Hns & _)]; [done|]. intros ->. congruence.
  - intros u r Hr Hu Hst. rewrite Hperm, elem_of_cons.
    destruct (decide (u = t)) as [->|Hne].
    + simplify_eq. destruct Hx as [[_ ?]|(_ & _ & ?)]; [done|]. by split; [left|].
    + assert (Hux : u <> x) by (destruct Hx as [[-> _]|(-> & _)]; done).
      destruct (Hs u r Hr Hux Hst) as [? ?]. by split; [right|].
Qed.

(** Popping the top entry of the sleep queue, for a process that does not sleep
    on it or is about to be woken. *)
Lemma inv_sleep_pop sw x ps rq sq sq' ws e :
  inv_of sw 0 ps rq sq ws -> sq ≡ₚ e :: sq' ->
  (process e = x \/ forall p, ps !! process e = Some p -> state p <> SLEEPING) ->
  inv_of sw x ps rq sq' ws.
Proof.
  intros [Hnd Hlive Hav Hsl Hwt Htok Hnull Hw Hs] Hperm Hx. split; try done.
  - intros e' He. apply Hsl. rewrite Hperm. by right.
  - intros u r Hr _ Hst. apply Hw; [done| |done]. intros ->. congruence.
  - intros u r Hr Hu Hst. assert (Hu0 : u <> 0) by (intros ->; congruence).
    destruct (Hs u r Hr Hu0 Hst) as [Hin Hz]. rewrite Hperm, elem_of_cons in Hin.
    destruct Hin as [<-|?]; [|done]. simpl in Hx. destruct Hx as [->|Hns]; [done|]. by apply Hns in Hr.
Qed.

(** ** What the tables see

    A step is quiet if the tables, the id bitmaps and the list of collected
    processes stay as they are, every process keeps its id, and the set of dead
    processes (exited and off the ready queue) is the same. *)

Definition dead k (t : Z) : Prop :=
  exists p, procs k !! t = Some p /\ state p = EXITED /\ t ∉ gReadyQueue k.

Record quiet k k' : Prop := {
  qt_table : gProcessTable k' = gProcessTable k;
  qt_exited : gExitedProcesses k' = gExitedProcesses k;
  qt_pids : gPidBitmap k' = gPidBitmap k;
  qt_gdts : gGDTBitmap k' = gGDTBitmap k;
  qt_collected : gCollectedProcessList k' = gCollectedProcessList k;
  qt_tasks : tasks k' = tasks k;
  qt_pid t : pid <$> procs k' !! t = pid <$> procs k !! t;
  qt_dead t : dead k' t <-> dead k t;
}.

#[global] Instance quiet_preorder : PreOrder quiet.
Proof.
  split.
  - by intros k.
  - intros k1 k2 k3 [] []. split; try congruence; intros; etrans; eauto.
Qed.

Lemma quiet_put k t p p' rq :
  procs k !! t = Some p -> pid p' = pid p ->
  (forall u, u <> t -> u ∈ rq <-> u ∈ gReadyQueue k) ->
  (state p' = EXITED /\ t ∉ rq <-> state p = EXITED /\ t ∉ gReadyQueue k) ->
  quiet k (with_ready (with_procs k (<[t := p']> (procs k))) rq).
Proof.
  intros Hp Hpid Hrq Hst. split; try done.
  - intros u. simpl. destruct (decide (t = u)) as [<-|Hne]; [|by rewrite lookup_insert_ne].
    rewrite lookup_insert_eq, Hp. simpl. by rewrite Hpid.
  - intros u. unfold dead. simpl. destruct (decide (t = u)) as [<-|Hne].
    + rewrite lookup_insert_eq, Hp. naive_solver.
    + rewrite lookup_insert_ne by done. by setoid_rewrite Hrq.
Qed.

Lemma quiet_upd k t p p' :
  procs k !! t = Some p -> pid p' = pid p -> (state p' = EXITED <-> state p = EXITED) ->
  quiet k (with_procs k (<[t := p']> (procs k))).
Proof. intros Hp Hpid Hst. apply (quiet_put k t p p' (gReadyQueue k)); try done. by rewrite Hst. Qed.

Lemma quiet_cpu k a b c : quiet k (with_cpu k a b c).
Proof. by split. Qed.
Lemma quiet_set_wq k q l : quiet k (set_wq k q l).
Proof. by split. Qed.
Lemma quiet_with_sleep k sq : quiet k (with_sleep k sq).
Proof. by split. Qed.

Lemma quiet_resume k t p r : procs k !! t = Some p -> state p <> EXITED -> quiet k (resume k t p r).
Proof.
  intros Hp Hst. apply (quiet_put k t p); try done.
  - intros u Hu. rewrite elem_of_app, list_elem_of_singleton. naive_solver.
  - simpl. naive_solver.
Qed.

Lemma quiet_block k t p s wq :
  procs k !! t = Some p -> state p <> EXITED -> s <> EXITED ->
  quiet k (with_ready (with_procs k (<[t := blocked s wq p]> (procs k))) (filter (fun y => y <> t) (gReadyQueue k))).
Proof.
  intros Hp Hst Hs. apply (quiet_put k t p); try done.
  - intros u Hu. rewrite list_elem_of_filter. naive_solver.
  - simpl. naive_solver.
Qed.

Lemma quiet_take_all k q l : quiet k (take_all k q l).
Proof.
  revert k. induction l as [|e l IH]; intros k; [done|]. simpl. etrans; [|apply IH].
  unfold take_entry. destruct (procs k !! process e) as [p|] eqn:Hp; [|done].
  destruct (wakes (procs k) e) eqn:Hw; [|done].
  apply wakes_current in Hw as (p' & ? & Hst & _). simplify_eq. apply quiet_resume; [done|congruence].
Qed.

(** ** The blocking operations *)

(** No token is about to wrap. *)
Definition roomy k : Prop := forall t p, procs k !! t = Some p -> waitToken p + 1 < 2 ^ 64.

Lemma roomy_fresh k : roomy k -> fresh k.
Proof. intros Hr t p Hp _. by apply (Hr t). Qed.

(** The running process, between two steps. *)
Definition running k (p : process_t) : Prop :=
  k_switching k = false /\ procs k !! gCurrentProcess k = Some p /\ state p = AVAILABLE.

Lemma neutral_stats x : neutral (set_stats x).
Proof. by intros p. Qed.
Lemma neutral_sleeptill x : neutral (set_sleeptill x).
Proof. by intros p. Qed.

Lemma yield_inv sw k p b :
  inv_x sw 0 k -> procs k !! gCurrentProcess k = Some p ->
  exists k', yield k b = Some k' /\ inv_x sw 0 k' /\ k_switching k' = true
    /\ gCurrentProcess k' = gCurrentProcess k /\ wqs k' = wqs k /\ gSleepQueue k' = gSleepQueue k
    /\ gReadyQueue k' = gReadyQueue k /\ quiet k k'.
Proof.
  intros Hi Hp. unfold yield, upd. rewrite Hp. cbn [mbind option_bind].
  eexists. split; [done|]. split_and!; try done.
  - unfold inv_x. simpl. by eapply inv_neutral.
  - etrans; [|apply quiet_cpu]. by eapply quiet_upd.
Qed.

(** [WaitQueue::wait] of the running process: it leaves the ready queue and is
    the last entry of the wait queue, with its current token. *)
Definition waiting k (q : Z) (p : process_t) (l : list qentry) : kernel :=
  let t := gCurrentProcess k in
  with_ready (with_procs (set_wq k q (l ++ [mkEntry (waitToken p) t]))
                         (<[t := blocked WAITING q p]> (procs k)))
             (filter (fun y => y <> t) (gReadyQueue k)).

Lemma wq_wait_spec k q p l :
  inv k -> running k p -> wqs k !! q = Some l ->
  wq_wait k q (gCurrentProcess k) = Some (waiting k q p l) /\ inv_x false 0 (waiting k q p l)
  /\ quiet k (waiting k q p l).
Proof.
  intros Hi (Hsw & Hp & Hst) Hq. unfold inv in Hi. rewrite Hsw in Hi.
  pose proof (i_avail _ _ _ _ _ _ Hi _ _ Hp Hst) as Hin.
  split_and!.
  - unfold wq_wait. rewrite Hq, Hp. cbn [mbind option_bind].
    rewrite (deschedule_spec _ _ p) by (apply Hi || done).
    simpl. by rewrite decide_True by done.
  - unfold inv_x, waiting. simpl.
    apply (inv_push _ _ _ _ _ _ (blocked WAITING q p)); try done; [|by rewrite lookup_insert_eq].
    by eapply inv_block.
  - etrans; [apply (quiet_set_wq k q (l ++ [mkEntry (waitToken p) (gCurrentProcess k)]))|].
    by apply (quiet_block (set_wq k q (l ++ [mkEntry (waitToken p) (gCurrentProcess k)]))); [|rewrite Hst|].
Qed.

Lemma sleep_insert k (q : list qentry) e :
  exists q', PQueue.insert (V := list) (compare k) q e = Some q' /\ q' ≡ₚ e :: q.
Proof.
  destruct (PQueue.insert_perm (V := list) (compare k) q q e) as (q' & l' & H & <- & Hp); [done|eauto].
Qed.

Lemma sleep_pop k (q : list qentry) e :
  exists q', PQueue.pop (V := list) (compare k) (e :: q) = Some (e, q') /\ q' ≡ₚ q.
Proof.
  destruct (PQueue.pop_perm (V := list) (compare k) (e :: q) e q) as (q' & l' & H & <- & Hp); [done|eauto].
Qed.

Lemma sleep_inv k p d :
  inv_x false 0 k -> fresh k -> procs k !! gCurrentProcess k = Some p ->
  state p = AVAILABLE \/ state p = WAITING -> waitToken p + 1 < 2 ^ 64 ->
  is_Some (wqs k !! awaker_queue (tasks k)) ->
  exists k', sleep k d = Some k' /\ inv k' /\ k_switching k' = true /\ quiet k k'.
Proof.
  intros Hi Hf Hp Hst Htok [lw Hlw]. unfold sleep, upd. rewrite Hp. cbn [mbind option_bind].
  set (p1 := set_sleeptill (u64 (now k + d)) p).
  set (k1 := with_procs k (<[gCurrentProcess k := p1]> (procs k))).
  assert (Hi1 : inv_x false 0 k1) by (unfold inv_x; simpl; by eapply inv_neutral).
  assert (Hp1 : procs k1 !! gCurrentProcess k = Some p1) by (simpl; apply lookup_insert_eq).
  rewrite (deschedule_spec k1 _ p1) by (apply Hi1 || done). cbn [mbind option_bind].
  assert (Hd : exists k2 p2 x, (if decide (gCurrentProcess k ∈ gReadyQueue k1)
      then with_ready (with_procs k1 (<[gCurrentProcess k := blocked SLEEPING 0 p1]> (procs k1)))
             (filter (fun y => y <> gCurrentProcess k) (gReadyQueue k1)) else k1) = k2
    /\ procs k2 !! gCurrentProcess k = Some p2 /\ asleep p2
    /\ inv_x false x k2
    /\ (x = 0 /\ state p2 <> SLEEPING \/ x = gCurrentProcess k /\ state p2 = SLEEPING /\ waitable (wakeReason p2) = 0)
    /\ fresh k2 /\ wqs k2 = wqs k /\ gCurrentProcess k2 = gCurrentProcess k /\ quiet k1 k2).
  { assert (Hf1 : forall s, fresh (with_procs k1 (<[gCurrentProcess k := blocked s 0 p1]> (procs k1)))).
    { intros s t r. simpl. rewrite insert_insert_eq, lookup_insert_Some. intros [[<- <-]|[_ Hr]] Hn; [done|].
      by apply (Hf t). }
    destruct (decide (state p = AVAILABLE)) as [Ha|Ha].
    - rewrite decide_True by (by eapply (i_avail _ _ _ _ _ _ Hi)).
      eexists _, _, (gCurrentProcess k). split; [done|]. split; [simpl; apply lookup_insert_eq|].
      split_and!; try done; [by right|by eapply inv_block|by right|apply (Hf1 SLEEPING)|].
      by apply quiet_block; [|simpl; rewrite Ha|].
    - destruct Hst as [?|Hw]; [done|].
      rewrite decide_False by (eapply (not_ready false 0 k _ p); try done; congruence).
      exists k1, p1, 0. split_and!; try done; [by left|left; split; [done|]; unfold p1; simpl; by rewrite Hw|].
      intros t r. simpl. rewrite lookup_insert_Some. intros [[<- <-]|[_ Hr]] Hn; [done|by apply (Hf t)]. }
  destruct Hd as (k2 & p2 & x & -> & Hp2 & Hn2 & Hi2 & Hx & Hf2 & Hw2 & Hc2 & Hq2).
  assert (Ht2 : tasks k2 = tasks k) by apply Hq2.
  rewrite Hp2. cbn [mbind option_bind].
  destruct (sleep_insert k2 (gSleepQueue k2) (mkEntry (waitToken p2) (gCurrentProcess k))) as (sq & -> & Hperm).
  cbn [mbind option_bind].
  assert (Hi3 : inv_x false 0 (with_sleep k2 sq)).
  { unfold inv_x. simpl. by eapply (inv_sleep_push _ _ _ _ _ _ _ _ _ Hi2). }
  destruct (wakeall_spec false (with_sleep k2 sq) (awaker_queue (tasks k2)) lw Hi3) as (-> & Hi4 & Hf4);
    [done|by rewrite Ht2; simpl; rewrite Hw2|].
  cbn [mbind option_bind].
  set (k4 := set_wq _ _ _) in *.
  assert (Hc4 : gCurrentProcess k4 = gCurrentProcess k).
  { unfold k4. simpl. by rewrite take_all_current. }
  assert (exists p4, procs k4 !! gCurrentProcess k4 = Some p4) as [p4 Hp4].
  { rewrite Hc4. unfold k4. simpl. rewrite take_all_procs. simpl. rewrite Hp2. simpl. by eexists. }
  destruct (yield_inv false k4 p4 false Hi4 Hp4) as (k5 & -> & Hi5 & Hsw & _ & _ & _ & _ & Hq5).
  exists k5. split_and!; try done; [unfold inv; rewrite Hsw; by apply inv_weaken|].
  transitivity k1; [by eapply quiet_upd|]. transitivity k2; [done|].
  transitivity k4; [|done]. etrans; [apply quiet_with_sleep|]. etrans; [apply quiet_take_all|apply quiet_set_wq].
Qed.

Lemma wq_yield_inv k q p l d :
  inv k -> roomy k -> running k p -> wqs k !! q = Some l ->
  is_Some (wqs k !! awaker_queue (tasks k)) ->
  exists k', wq_yield k q d = Some k' /\ inv k' /\ k_switching k' = true /\ quiet k k'.
Proof.
  intros Hi Hr Hrun Hq Haw. unfold wq_yield.
  destruct (wq_wait_spec k q p l Hi Hrun Hq) as (-> & Hi' & Hq'). cbn [mbind option_bind].
  destruct Hrun as (Hsw & Hp & Hst).
  assert (Hp' : procs (waiting k q p l) !! gCurrentProcess k = Some (blocked WAITING q p))
    by (simpl; apply lookup_insert_eq).
  destruct (Z.eqb_spec d 0).
  - destruct (yield_inv false _ _ false Hi' Hp') as (k' & -> & Hi'' & Hs & _ & _ & _ & _ & Hq'').
    exists k'. split_and!; try done; [unfold inv; rewrite Hs; by apply inv_weaken|by etrans].
  - destruct (sleep_inv (waiting k q p l) (blocked WAITING q p) d) as (k' & Hs & Hi'' & Hsw' & Hq'').
    + done.
    + intros t r. simpl. rewrite lookup_insert_Some. intros [[<- <-]|[_ Hu]] _; [exact (Hr _ _ Hp)|exact (Hr _ _ Hu)].
    + done.
    + by right.
    + exact (Hr _ _ Hp).
    + simpl. destruct Haw as [m Hm]. destruct (decide (q = awaker_queue (tasks k))) as [->|Hne].
      * rewrite lookup_insert_eq. by eexists.
      * rewrite lookup_insert_ne by done. by eexists.
    + exists k'. split_and!; try done. by etrans.
Qed.

End Sched.
