(* ===== verification/Tasks.v ===== *)
(** * The system tasks: scheduler, awaker, collector, deleter
    (kernel/src/tasks/scheduler.cpp, awaker.cpp, collector.cpp, deleter.cpp)

    Each task is an endless loop; the definitions are one round of it.  The
    lottery takes the two 32-bit numbers its generator returned. *)

From stdpp Require Import base numbers list gmap option.
From Stdlib Require Import ZArith Lia Permutation.
From S2P Require Import Prelude Vec PQueue Tables Files Kernel Lifecycle Sched.

Local Open Scope Z_scope.

Module Tasks.
Import Proc Kernel PM Life.

Implicit Types k : kernel.

(** ** Scheduler *)

(** The first loop of [lottery::next]: an exited process, or the tickets. *)
Fixpoint count_tickets (ps : gmap Z process_t) (l : list Z) (totalTickets : Z) : option (Z + Z) :=
  match l with
  | [] => Some (inr totalTickets)
  | t :: l =>
      p ← ps !! t;
      match state p with
      | EXITED => Some (inl t)
      | AVAILABLE => count_tickets ps l (u64 (totalTickets + scheduling_current (priority p)))
      | _ => count_tickets ps l totalTickets
      end
  end.

(** [loop_all]: an exited process leaves the ready queue and the count starts
    over. *)
Fixpoint loop_all (fuel : nat) k : option (Z * kernel) :=
  match fuel with
  | O => None
  | S fuel =>
      r ← count_tickets (procs k) (gReadyQueue k) 0;
      match r with
      | inl t => k ← enqueueForDeath k t;
                 loop_all fuel (with_ready k (remove_first (Z.eqb t) (gReadyQueue k)))
      | inr total => Some (total, k)
      end
  end.

(** The second loop: the process whose tickets reach the winning number. *)
Fixpoint pick (ps : gmap Z process_t) (l : list Z) (countedTickets currentWinner : Z) : option Z :=
  match l with
  | [] => None
  | t :: l =>
      p ← ps !! t;
      let counted := u64 (countedTickets + scheduling_current (priority p)) in
      if (counted >=? currentWinner) && bool_decide (state p = AVAILABLE) then Some t
      else pick ps l counted currentWinner
  end.

(** [lottery::next].  [None] also stands for the division by zero when no ticket
    was counted and for the panic when no winner was found. *)
Definition lottery_next k (r1 r2 : Z) : option (Z * kernel) :=
  '(totalTickets, k) ← loop_all (S (length (gReadyQueue k))) k;
  if totalTickets =? 0 then None
  else
    t ← pick (procs k) (gReadyQueue k) 0 (Z.lor r1 (Z.shiftl r2 32) mod totalTickets);
    Some (t, k).

(** One round of the scheduler task. *)
Definition schedule k (r1 r2 : Z) : option kernel :=
  '(next_task, k) ← lottery_next k r1 r2;
  k ← upd k next_task (set_due false);
  Some (ctxswitch k next_task).

(** [rr::next]: rotate the ready queue until a runnable process comes up. *)
Fixpoint rr_next (fuel : nat) k : option (Z * kernel) :=
  match fuel with
  | O => None
  | S fuel =>
      match gReadyQueue k with
      | [] => None
      | next_task :: rq =>
          p ← procs k !! next_task;
          match state p with
          | AVAILABLE => Some (next_task, with_ready k (rq ++ [next_task]))
          | EXITED => k ← enqueueForDeath (with_ready k rq) next_task; rr_next fuel k
          | _ => rr_next fuel (with_ready k rq)
          end
      end
  end.

(** ** Awaker *)

(** One round of the loops of the awaker task.  The result says whether the task
    gave up the CPU. *)
Definition awaker_round k : option (bool * kernel) :=
  match gSleepQueue k with
  | [] => k ← wq_yield k (awaker_queue (tasks k)) 0; Some (true, k)
  | _ =>
      top ← PQueue.top (V := list) (gSleepQueue k);
      p ← procs k !! process top;
      if decide (state p = EXITED) then
        '(top, sq) ← PQueue.pop (V := list) (compare k) (gSleepQueue k);
        k ← enqueueForDeath (with_sleep k sq) (process top);
        Some (false, k)
      else if sleeptill p <=? now k then
        if waitToken p =? token top then
          '(top, sq) ← PQueue.pop (V := list) (compare k) (gSleepQueue k);
          k ← wake (with_sleep k sq) (process top);
          Some (false, k)
        else Some (false, k)
      else k ← yield k false; Some (true, k)
  end.

(** ** Collector and deleter *)

(** One round of the collector: collect the first child, or wait for one. *)
Definition collector_round k : option kernel :=
  cur ← procs k !! gCurrentProcess k;
  match children cur with
  | [] => wq_yield k (collector_queue (tasks k)) 0
  | child :: _ =>
      c ← procs k !! child;
      '(_, k) ← collect k (pid c);
      Some k
  end.

Definition deleter_round k : option kernel :=
  r ← delete_one k;
  match r with
  | Some k => Some k
  | None => wq_yield k (deleter_queue (tasks k)) 0
  end.

End Tasks.
