(* ===== verification/Invariant.v ===== *)
(** * The invariant of the whole process system

    [safe] composes: an operation that is safe keeps the scheduling invariant and
    is quiet for the tables.  On top of it the file shows that the steps of the
    system (blocking, waking, exiting, collecting, scheduling, deleting, spawning)
    keep [sys_inv], which adds the process table, the table of exited processes
    and the id bitmap to the scheduling invariant. *)

From stdpp Require Import base numbers list gmap option.
From Stdlib Require Import ZArith Lia Permutation.
From S2P Require Import Prelude Vec PQueue Tables Files Kernel Lifecycle Sched Tasks.

Local Open Scope Z_scope.

Module Invariant.
Import Proc Kernel PM Life Sched Tasks.

Implicit Types k : kernel.

(** ** Safe operations *)

(** Runnable processes stay as they are. *)
Definition calm k k' : Prop :=
  forall t p, procs k !! t = Some p -> state p = AVAILABLE ->
    exists p', procs k' !! t = Some p' /\ state p' = AVAILABLE /\ waitToken p' = waitToken p.

Definition safe (sw : bool) k k' : Prop :=
  inv_x sw 0 k -> fresh k -> inv_x sw 0 k' /\ fresh k' /\ quiet k k' /\ calm k k'.

#[global] Instance safe_preorder sw : PreOrder (safe sw).
Proof.
  split.
  - intros k Hi Hf. split_and!; try done. intros t p; eauto.
  - intros k1 k2 k3 H1 H2 Hi Hf. destruct (H1 Hi Hf) as (Hi2 & Hf2 & Hq2 & Hc2).
    destruct (H2 Hi2 Hf2) as (Hi3 & Hf3 & Hq3 & Hc3). split_and!; try done; [by etrans|].
    intros t p Hp Hst. destruct (Hc2 t p Hp Hst) as (p2 & Hp2 & Hst2 & <-). by apply Hc3.
Qed.

Definition neutral_pid (f : process_t -> process_t) : Prop :=
  neutral f /\ forall p, pid (f p) = pid p.

Lemma safe_upd sw k t f k' : upd k t f = Some k' -> neutral_pid f -> safe sw k k'.
Proof.
  intros (p & Hp & ->)%upd_spec [Hn Hpid] Hi Hf. destruct (Hn p) as (E1 & E2 & E3). split_and!.
  - by eapply inv_neutral.
  - intros u r. simpl. rewrite lookup_insert_Some. intros [[<- <-]|[_ Hr]] Hst.
    + rewrite E2. apply (Hf t p Hp). congruence.
    + by apply (Hf u).
  - eapply quiet_upd; [done|done|by rewrite E1].
  - intros u r Hr Hst. simpl. destruct (decide (t = u)) as [<-|Hne].
    + rewrite lookup_insert_eq. eexists. split; [done|]. simplify_eq. by rewrite E1, E2.
    + rewrite lookup_insert_ne by done. eauto.
Qed.

Lemma neutral_ppid x : neutral_pid (set_ppid x). Proof. done. Qed.
Lemma neutral_children x : neutral_pid (set_children x). Proof. done. Qed.
Lemma neutral_add_child c : neutral_pid (fun p => set_children (children p ++ [c]) p). Proof. done. Qed.
Lemma neutral_exitstatus x : neutral_pid (set_exitstatus x). Proof. done. Qed.
Lemma neutral_due x : neutral_pid (set_due x). Proof. done. Qed.
Lemma neutral_fds x : neutral_pid (set_fds x). Proof. done. Qed.
Lemma neutral_args x : neutral_pid (set_args x). Proof. done. Qed.
Lemma neutral_usedticks x : neutral_pid (set_usedticks x). Proof. done. Qed.
#[local] Hint Resolve neutral_ppid neutral_children neutral_add_child neutral_exitstatus neutral_due
  neutral_fds neutral_args neutral_usedticks : puppy.

Lemma safe_wakeall sw k q k' : wakeall k q = Some k' -> safe sw k k'.
Proof.
  intros Hw Hi Hf. destruct (wqs k !! q) as [l|] eqn:Hq.
  - destruct (wakeall_spec sw k q l Hi Hf Hq) as (E & Hi' & Hf'). rewrite E in Hw. simplify_eq.
    split_and!; try done; [etrans; [apply quiet_take_all|apply quiet_set_wq]|].
    intros t p Hp Hst. exists p. simpl. rewrite take_all_procs, Hp. simpl.
    by rewrite (woken_by_available _ _ p) by congruence.
  - unfold wakeall in Hw. by rewrite Hq in Hw.
Qed.

Lemma safe_set_take sw k q e m :
  inv_x sw 0 (set_wq (take_entry k q e) q m) -> fresh (set_wq (take_entry k q e) q m) ->
  safe sw k (set_wq (take_entry k q e) q m).
Proof.
  intros Hi' Hf' Hi Hf. split_and!; try done.
  - etrans; [apply (quiet_take_all k q [e])|]. apply (quiet_set_wq (take_entry k q e)).
  - intros t p Hp Hst. exists p. change (procs (set_wq _ q m)) with (procs (take_all k q [e])).
    rewrite take_all_procs, Hp. cbn [mbind option_bind]. by rewrite (woken_by_available _ _ p) by congruence.
Qed.

Lemma safe_wakeone sw k q t k' : wakeone k q = Some (t, k') -> safe sw k k'.
Proof.
  intros Hw Hi Hf. unfold wakeone in Hw. apply bind_Some in Hw as (l & Hq & Hw).
  pose proof (wakeone_fuel_spec sw (S (length l)) k q l Hi Hf Hq ltac:(lia)) as Hs.
  destruct (first_live (procs k) l) as [[i e]|]; destruct Hs as (E & Hi' & Hf'); rewrite E in Hw; simplify_eq.
  - by apply safe_set_take.
  - split_and!; [done|done|apply quiet_set_wq|]. intros u p; eauto.
Qed.

(** What waking leaves alone, besides the tables. *)
Lemma wakeall_frame sw k q k' :
  inv_x sw 0 k -> fresh k -> wakeall k q = Some k' ->
  k_switching k' = k_switching k /\ gCurrentProcess k' = gCurrentProcess k /\ gSleepQueue k' = gSleepQueue k
  /\ forall t p, procs k !! t = Some p -> state p <> WAITING -> procs k' !! t = Some p.
Proof.
  intros Hi Hf Hw. destruct (wqs k !! q) as [l|] eqn:Hq; [|unfold wakeall in Hw; by rewrite Hq in Hw].
  destruct (wakeall_spec sw k q l Hi Hf Hq) as (E & _ & _). rewrite E in Hw. injection Hw as <-. simpl.
  rewrite take_all_switching, take_all_current, take_all_sleep. split_and!; try done.
  intros t p Hp Hst. rewrite take_all_procs, Hp. simpl. by rewrite (woken_by_available _ _ p).
Qed.

Lemma safe_files sw k st : safe sw k (with_files k st).
Proof. intros Hi Hf. split_and!; [done|done|by split|intros t p; eauto]. Qed.
Lemma safe_ttys sw k x : safe sw k (with_ttys k x).
Proof. intros Hi Hf. split_and!; [done|done|by split|intros t p; eauto]. Qed.

Lemma safe_reparent sw k cs k' : reparent k cs = Some k' -> safe sw k k'.
Proof.
  revert k. induction cs as [|c cs IH]; intros k; cbn [reparent]; [by intros [= ->]|].
  intros (cp & _ & (k1 & H1 & (k2 & H2 & (k3 & H3 & H)%bind_Some)%bind_Some)%bind_Some)%bind_Some.
  transitivity k1; [by eapply safe_upd; [done|auto with puppy]|].
  transitivity k2; [by eapply safe_upd; [done|auto with puppy]|].
  transitivity k3; [by eapply safe_wakeall|by apply IH].
Qed.

Lemma safe_popfg sw k t p r k' : popfg k t p = Some (r, k') -> safe sw k k'.
Proof.
  unfold popfg. intros (tt_ & _ & (init & _ & (k1 & H1 & (n & _ & [= _ <-])%bind_Some)%bind_Some)%bind_Some)%bind_Some.
  etrans; [|by eapply safe_wakeall]. apply safe_ttys.
Qed.

(** Resuming a process that is neither runnable nor dead. *)
Lemma safe_reschedule sw k t p k' :
  procs k !! t = Some p -> state p <> AVAILABLE -> state p <> EXITED ->
  reschedule k t = Some k' -> safe sw k k'.
Proof.
  intros Hp H1 H2. rewrite (reschedule_spec k t p Hp). intros [= <-] Hi Hf.
  assert (E : set_state AVAILABLE (set_waitToken (u64 (waitToken p + 1)) p) = woke (wakeReason p) p)
    by (by destruct p).
  rewrite E. change (with_ready _ _) with (resume k t p (wakeReason p)).
  split_and!; [by eapply resume_inv; eauto|by apply resume_fresh|by apply quiet_resume|].
  intros u r Hr Hst. exists r. simpl. rewrite lookup_insert_ne; [done|]. intros ->. congruence.
Qed.

(** The running process marks itself as exited and stays in the ready queue. *)
Lemma inv_exit ps rq sq ws t p p' :
  inv_of true 0 ps rq sq ws -> ps !! t = Some p -> state p = AVAILABLE ->
  state p' = EXITED -> waitToken p' = waitToken p ->
  inv_of true 0 (<[t := p']> ps) rq sq ws.
Proof.
  intros Hi Hp Hst E1 E2. pose proof (inv_block true ps rq sq ws t p p' Hi Hp Hst ltac:(congruence) E2) as Hb.
  pose proof (i_avail _ _ _ _ _ _ Hi t p Hp Hst) as Hin. destruct Hb as [Hnd Hlive Hav Hsl Hwt Htok Hnull Hw Hs].
  split; try done.
  - apply Hi.
  - intros u Hu. destruct (decide (u = t)) as [->|Hne].
    + exists p'. rewrite lookup_insert_eq. auto.
    + apply Hlive, list_elem_of_filter. done.
  - intros u r Hr Hs'. specialize (Hav u r Hr Hs'). by apply list_elem_of_filter in Hav as [_ ?].
  - intros u r Hr Hu Hs'. apply Hw; [done| |done]. intros ->. rewrite lookup_insert_eq in Hr. congruence.
  - intros u r Hr Hu Hs'. apply Hs; [done| |done]. intros ->. rewrite lookup_insert_eq in Hr. congruence.
Qed.

Lemma set_exited_inv k t p k' :
  procs k !! t = Some p -> state p = AVAILABLE -> waitToken p + 1 < 2 ^ 64 ->
  upd k t (set_state EXITED) = Some k' -> inv_x true 0 k -> fresh k ->
  inv_x true 0 k' /\ fresh k' /\ quiet k k'.
Proof.
  intros Hp Hst Htok (p' & Hp' & ->)%upd_spec Hi Hf. simplify_eq. split_and!.
  - by eapply inv_exit.
  - intros u r. simpl. rewrite lookup_insert_Some. intros [[<- <-]|[_ Hr]] ?; [done|by apply (Hf u)].
  - apply (quiet_put k t p _ (gReadyQueue k)); try done. simpl.
    pose proof (i_avail _ _ _ _ _ _ Hi t p Hp Hst). naive_solver congruence.
Qed.

(** [exit] of the running process. *)
Lemma exit_inv k p es k' :
  inv_x true 0 k -> fresh k -> procs k !! gCurrentProcess k = Some p -> state p = AVAILABLE ->
  waitToken p + 1 < 2 ^ 64 -> exit k (gCurrentProcess k) es = Some k' ->
  inv_x true 0 k' /\ fresh k' /\ quiet k k'.
Proof.
  intros Hi Hf Hp Hst Htok. unfold exit. rewrite Hp. cbn [mbind option_bind].
  destruct (system p); [done|].
  intros (k1 & H1 & (k2 & H2 & (st & _ & (k3 & H3 & H)%bind_Some)%bind_Some)%bind_Some)%bind_Some.
  apply bind_Some in H as ([n k4] & H4 & (k5 & H5 & (p5 & Hp5 & (par & Hpar & (pp & Hpp & H)%bind_Some)%bind_Some)%bind_Some)%bind_Some).
  assert (S2 : safe true k (with_files k2 st)).
  { transitivity k1; [by eapply safe_reparent|].
    transitivity k2; [by eapply safe_upd; [done|auto with puppy]|apply safe_files]. }
  destruct (S2 Hi Hf) as (Hi2 & Hf2 & Hq2 & Hc2). destruct (Hc2 _ _ Hp Hst) as (p2 & Hp2 & Hst2 & Htok2).
  destruct (set_exited_inv _ _ _ _ Hp2 Hst2 ltac:(lia) H3 Hi2 Hf2) as (Hi3 & Hf3 & Hq3).
  assert (S5 : safe true k3 k').
  { transitivity k4; [by eapply safe_popfg|].
    transitivity k5; [by eapply safe_upd; [done|auto with puppy]|].
    destruct (decide (state pp = COLLECTING)) as [Hc|]; [|by simplify_eq].
    eapply (safe_reschedule true k5 par pp); [done|by rewrite Hc|by rewrite Hc|done]. }
  destruct (S5 Hi3 Hf3) as (Hi5 & Hf5 & Hq5 & _). split_and!; try done.
  etrans; [done|]. by etrans.
Qed.

(** A whole step that ends by giving up the CPU. *)
Definition step_ok k k' : Prop := inv k' /\ k_switching k' = true /\ quiet k k'.

Lemma exit_current_inv k p es k' :
  inv k -> roomy k -> running k p -> exit_current k es = Some k' -> step_ok k k'.
Proof.
  intros Hi Hr (Hsw & Hp & Hst) (k1 & H1 & H2)%bind_Some. unfold inv in Hi. rewrite Hsw in Hi.
  destruct (exit_inv k p es k1) as (Hi1 & Hf1 & Hq1); try done.
  - by apply inv_weaken.
  - by apply roomy_fresh.
  - by apply (Hr _ _ Hp).
  - unfold yield in H2. apply bind_Some in H2 as (k2 & Hu & [= <-]).
    apply upd_spec in Hu as (p1 & Hp1 & ->).
    destruct (yield_inv true k1 p1 false Hi1 Hp1) as (k3 & Hy & Hi3 & Hs3 & _ & _ & _ & _ & Hq3).
    unfold yield, upd in Hy. rewrite Hp1 in Hy. cbn [mbind option_bind] in Hy. simplify_eq.
    split_and!; [unfold inv; by rewrite Hs3|done|by etrans].
Qed.

(** ** The tables *)

Abbreviation N := gNumProcesses.

(** The process table maps an id to the live process that has it; the table of
    exited processes holds exactly the dead ones; the ids of live processes are
    taken in the bitmap. *)
Record tbl k : Prop := {
  tb_pt : ProcessTable.ok (pid_of k) N (gProcessTable k);
  tb_et : ProcessTable.ok (pid_of k) N (gExitedProcesses k);
  tb_in t p : procs k !! t = Some p -> ProcessTable.get (gProcessTable k) (pid p) = Some (Some t);
  tb_live i t : ProcessTable.get (gProcessTable k) i = Some (Some t) -> is_Some (procs k !! t);
  tb_dead t : dead k t <-> ProcessTable.get (gExitedProcesses k) (pid_of k t) = Some (Some t);
  tb_elive i t : ProcessTable.get (gExitedProcesses k) i = Some (Some t) -> is_Some (procs k !! t);
  tb_pids : PidBitmap.ok N (gPidBitmap k);
  tb_used t p : procs k !! t = Some p -> PidBitmap.used (gPidBitmap k) (pid p) = true;
}.

Lemma table_ok_ext (f g : Z -> nat) (t : ProcessTable.table Z) :
  (forall x, f x = g x) -> ProcessTable.ok f N t -> ProcessTable.ok g N t.
Proof. intros E [H1 H2 H3]. split; try done. intros i p Hp. rewrite <- E. by apply H2. Qed.

Lemma quiet_pid_of k k' t : quiet k k' -> pid_of k' t = pid_of k t.
Proof.
  intros Hq. pose proof (qt_pid _ _ Hq t) as H. unfold pid_of.
  destruct (procs k !! t), (procs k' !! t); simpl in H; congruence.
Qed.

Lemma quiet_live k k' t : quiet k k' -> is_Some (procs k' !! t) <-> is_Some (procs k !! t).
Proof.
  intros Hq. pose proof (qt_pid _ _ Hq t) as H.
  rewrite <- (fmap_is_Some pid (procs k' !! t)), H. apply fmap_is_Some.
Qed.

Lemma quiet_back k k' t p' : quiet k k' -> procs k' !! t = Some p' ->
  exists p, procs k !! t = Some p /\ pid p' = pid p.
Proof.
  intros Hq Hp. pose proof (qt_pid _ _ Hq t) as H. rewrite Hp in H.
  destruct (procs k !! t) as [p|]; simpl in H; [|done]. exists p. split; [done|congruence].
Qed.

Lemma quiet_tbl k k' : quiet k k' -> tbl k -> tbl k'.
Proof.
  intros Hq [Hpt Het Hin Hlive Hdead Hel Hpids Hused].
  split; rewrite ?(qt_table _ _ Hq), ?(qt_exited _ _ Hq), ?(qt_pids _ _ Hq); try done.
  - eapply table_ok_ext; [|done]. intros. symmetry. by apply quiet_pid_of.
  - eapply table_ok_ext; [|done]. intros. symmetry. by apply quiet_pid_of.
  - intros t p' Hp'. destruct (quiet_back _ _ _ _ Hq Hp') as (p & Hp & ->). by apply Hin.
  - intros i t Ht. rewrite (quiet_live _ _ _ Hq). by eapply Hlive.
  - intros t. rewrite (qt_dead _ _ Hq), (quiet_pid_of _ _ _ Hq). apply Hdead.
  - intros i t Ht. rewrite (quiet_live _ _ _ Hq). by eapply Hel.
  - intros t p' Hp'. destruct (quiet_back _ _ _ _ Hq Hp') as (p & Hp & ->). by eapply Hused.
Qed.

(** Ids identify live processes. *)
Lemma pid_inj k t u p r :
  tbl k -> procs k !! t = Some p -> procs k !! u = Some r -> pid p = pid r -> t = u.
Proof.
  intros Ht Hp Hr E. pose proof (tb_in k Ht t p Hp) as H1. pose proof (tb_in k Ht u r Hr) as H2.
  rewrite E in H1. congruence.
Qed.

Lemma getprocess_live k t p : tbl k -> procs k !! t = Some p -> getprocess k (pid p) = Some t.
Proof. intros Ht Hp. unfold getprocess. by rewrite (tb_in k Ht t p Hp). Qed.

Lemma pid_bound k t p : tbl k -> procs k !! t = Some p -> (pid p < N)%nat.
Proof.
  intros Ht Hp. pose proof (tb_in k Ht t p Hp) as H. apply lookup_lt_Some in H.
  by rewrite (ProcessTable.t_len _ _ _ (tb_pt k Ht)) in H.
Qed.

(** ** Scheduling *)

Lemma remove_first_in t (l : list Z) u : NoDup l -> u ∈ remove_first (Z.eqb t) l <-> u ∈ l /\ u <> t.
Proof.
  induction 1 as [|y l Hy Hnd IH]; simpl; [rewrite elem_of_nil; naive_solver|].
  destruct (Z.eqb_spec t y) as [->|Hne]; rewrite !elem_of_cons, ?IH; naive_solver.
Qed.

(** The first loop finds an exited process, or counts the tickets of the
    runnable ones. *)
Definition tickets (ps : gmap Z process_t) (l : list Z) : Z :=
  foldr (fun t acc => match ps !! t with
                      | Some p => (if decide (state p = AVAILABLE) then scheduling_current (priority p) else 0) + acc
                      | None => acc
                      end) 0 l.

Lemma tickets_pos ps l :
  (forall t p, ps !! t = Some p -> 0 <= scheduling_current (priority p)) -> 0 <= tickets ps l.
Proof.
  intros Hpos. induction l as [|t l IH]; simpl; [lia|].
  destruct (ps !! t) as [p|] eqn:Hp; [|done]. pose proof (Hpos t p Hp). case_decide; lia.
Qed.

Lemma count_tickets_spec (ps : gmap Z process_t) l acc :
  (forall t p, ps !! t = Some p -> 0 <= scheduling_current (priority p)) ->
  Forall (fun t => is_Some (ps !! t)) l -> 0 <= acc -> acc + tickets ps l < 2 ^ 64 ->
  match count_tickets ps l acc with
  | Some (inl t) => t ∈ l /\ exists p, ps !! t = Some p /\ state p = EXITED
  | Some (inr total) => total = acc + tickets ps l
      /\ Forall (fun t => forall p, ps !! t = Some p -> state p <> EXITED) l
  | None => False
  end.
Proof.
  intros Hpos Hl. revert acc. induction Hl as [|t l [p Hp] Hl IH]; intros acc Hacc Hsum; simpl.
  { split; [lia|constructor]. }
  simpl in Hsum. rewrite Hp in Hsum |- *. cbn [mbind option_bind].
  pose proof (Hpos t p Hp). pose proof (tickets_pos ps l Hpos).
  destruct (state p) eqn:Est; simpl in Hsum;
    try (specialize (IH acc Hacc ltac:(lia)); destruct (count_tickets ps l acc) as [[u|total]|]; [| |done];
         [destruct IH as [? ?]; split; [by right|done]
         |destruct IH as [-> ?]; rewrite decide_False by done; split; [lia|]; constructor; [|done];
          intros ? ?; simplify_eq; congruence]).
  - rewrite u64_id by (unfold is_u; lia).
    specialize (IH (acc + scheduling_current (priority p)) ltac:(lia) ltac:(lia)).
    destruct (count_tickets ps l _) as [[u|total]|]; [| |done].
    + destruct IH as [? ?]. split; [by right|done].
    + destruct IH as [-> ?]. rewrite decide_True by done. split; [lia|].
      constructor; [|done]. intros ? ?; simplify_eq; congruence.
  - split; [by left|eauto].
Qed.

Lemma N_small : Z.of_nat N < 2 ^ 32. Proof. done. Qed.

(** An exited process in the ready queue has no entry yet. *)
Lemma death_slot k t p :
  inv_x true 0 k -> tbl k -> t ∈ gReadyQueue k -> procs k !! t = Some p ->
  ProcessTable.get (gExitedProcesses k) (pid p) = Some None.
Proof.
  intros Hi Ht Hin Hp.
  pose proof (pid_bound k t p Ht Hp) as Hb.
  rewrite <- (ProcessTable.t_len _ _ _ (tb_et k Ht)) in Hb.
  destruct (lookup_lt_is_Some_2 _ _ Hb) as [[u|] Hu]; [|done].
  destruct (tb_elive k Ht _ u Hu) as [r Hr].
  pose proof (ProcessTable.t_pid _ _ _ (tb_et k Ht) _ _ Hu) as Hpid. unfold pid_of in Hpid. rewrite Hr in Hpid.
  assert (u = t) as -> by (by eapply pid_inj).
  assert (Hd : dead k t) by (apply (tb_dead k Ht); unfold pid_of; by rewrite Hr, Hpid).
  destruct Hd as (? & _ & _ & ?). done.
Qed.

(** One exited process goes from the ready queue to the table of exited ones. *)
Lemma bury k t p :
  inv_x true 0 k -> tbl k -> t ∈ gReadyQueue k -> procs k !! t = Some p -> state p = EXITED ->
  exists et, enqueueForDeath k t = Some (with_exited k et)
    /\ inv_x true 0 (with_ready (with_exited k et) (remove_first (Z.eqb t) (gReadyQueue k)))
    /\ tbl (with_ready (with_exited k et) (remove_first (Z.eqb t) (gReadyQueue k))).
Proof.
  intros Hi Ht Hin Hp Hst. pose proof (i_nodup _ _ _ _ _ _ Hi) as Hnd.
  assert (Epid : pid_of k t = pid p) by (unfold pid_of; by rewrite Hp).
  pose proof (ProcessTable.table_set_spec (pid_of k) N N_small (gExitedProcesses k) t (tb_et k Ht)) as Hset.
  rewrite Epid in Hset. specialize (Hset (pid_bound k t p Ht Hp)).
  pose proof (death_slot k t p Hi Ht Hin Hp) as Hslot.
  unfold enqueueForDeath. rewrite Hp. cbn [mbind option_bind]. rewrite decide_True by done.
  destruct (ProcessTable.set (pid_of k) (gExitedProcesses k) (Some t)) as [et|]; [|destruct Hset as [? ?]; congruence].
  destruct Hset as (_ & Hok & _ & Hget). cbn [mbind option_bind]. exists et. split; [done|].
  pose proof (fun u => remove_first_in t (gReadyQueue k) u Hnd) as Hrm. split.
  - destruct Hi as [_ Hlive Hav Hsl Hwt Htok Hnull Hw Hs]. split; try done; simpl.
    + eapply sublist_NoDup; [done|apply remove_first_sublist].
    + intros u [Hu _]%Hrm. by apply Hlive.
    + intros u r Hr Hav'. apply Hrm. split; [eauto|]. intros ->. congruence.
  - pose proof Ht as [Hpt Het Hti Hlive Hdead Hel Hpids Hused]. split; simpl; try done.
    + intros u. unfold dead. simpl. setoid_rewrite Hrm; rewrite Hget. change (pid_of _ u) with (pid_of k u).
      destruct (decide (u = t)) as [->|Hne].
      * rewrite Epid, decide_True by done. naive_solver.
      * specialize (Hdead u). unfold dead in Hdead. split.
        -- intros (r & Hr & Hs & Hn). assert (Hd : dead k u) by (exists r; naive_solver).
           rewrite decide_False; [by apply Hdead|]. unfold pid_of. rewrite Hr. intros E.
           apply Hne. by eapply (pid_inj k u t r p).
        -- case_decide; [intros [= ->]; done|]. intros Hg%Hdead.
           destruct Hg as (r & ? & ? & ?). exists r. naive_solver.
    + intros i u. rewrite Hget. case_decide; [|by apply Hel]. intros [= ->]. by eexists.
Qed.

Definition exitedb (ps : gmap Z process_t) (t : Z) : bool :=
  match ps !! t with Some p => bool_decide (state p = EXITED) | None => false end.

Lemma inv_settled ps x rq sq ws :
  inv_of true x ps rq sq ws -> Forall (fun t => forall p, ps !! t = Some p -> state p <> EXITED) rq ->
  inv_of false x ps rq sq ws.
Proof.
  intros [Hnd Hlive Hav Hsl Hwt Htok Hnull Hw Hs] Hall. split; try done.
  intros t Ht. destruct (Hlive t Ht) as (p & Hp & [?|[_ ?]]); [eauto|].
  rewrite list.Forall_forall in Hall. by eapply Hall in Hp.
Qed.

(** Tickets do not depend on the exited processes. *)
Lemma tickets_bury ps l t p :
  ps !! t = Some p -> state p = EXITED -> tickets ps (remove_first (Z.eqb t) l) = tickets ps l.
Proof.
  intros Hp Hst. induction l as [|u l IH]; simpl; [done|].
  destruct (Z.eqb_spec t u) as [<-|Hne]; simpl; [|by rewrite IH].
  rewrite Hp, decide_False by congruence. lia.
Qed.

Lemma loop_all_spec fuel k :
  inv_x true 0 k -> tbl k ->
  (forall t p, procs k !! t = Some p -> 0 <= scheduling_current (priority p)) ->
  tickets (procs k) (gReadyQueue k) < 2 ^ 64 -> (length (gReadyQueue k) < fuel)%nat ->
  exists k', loop_all fuel k = Some (tickets (procs k) (gReadyQueue k), k')
    /\ inv_x false 0 k' /\ tbl k' /\ procs k' = procs k /\ gCurrentProcess k' = gCurrentProcess k
    /\ wqs k' = wqs k /\ gSleepQueue k' = gSleepQueue k /\ tasks k' = tasks k
    /\ sublist (gReadyQueue k') (gReadyQueue k)
    /\ tickets (procs k) (gReadyQueue k') = tickets (procs k) (gReadyQueue k).
Proof.
  revert k. induction fuel as [|fuel IH]; intros k Hi Ht Hpos Hsum Hf; [lia|]. cbn [loop_all].
  assert (Hall : Forall (fun t => is_Some (procs k !! t)) (gReadyQueue k)).
  { apply list.Forall_forall. intros t Hin. destruct (i_live _ _ _ _ _ _ Hi t Hin) as (p & Hp & _). by exists p. }
  pose proof (count_tickets_spec (procs k) (gReadyQueue k) 0 Hpos Hall ltac:(lia) ltac:(lia)) as Hc.
  destruct (count_tickets (procs k) (gReadyQueue k) 0) as [[t|total]|]; [| |done]; cbn [mbind option_bind].
  - destruct Hc as (Hin & p & Hp & Hst). destruct (bury k t p Hi Ht Hin Hp Hst) as (et & -> & Hi' & Ht').
    cbn [mbind option_bind].
    destruct (IH (with_ready (with_exited k et) (remove_first (Z.eqb t) (gReadyQueue k))) Hi' Ht' Hpos)
      as (k' & Hl & H1 & H2 & H3 & H4 & H5 & H6 & H7 & H8 & H9).
    + simpl. by rewrite (tickets_bury _ _ _ p).
    + simpl. pose proof (length_remove_first (Z.eqb t) (gReadyQueue k)) as Hlen.
      rewrite <- Hlen in Hf; [lia|]. apply existsb_some. exists t. split; [done|apply Z.eqb_refl].
    + exists k'. simpl in *. rewrite (tickets_bury _ _ _ p) in Hl, H9 by done.
      split_and!; try done. etrans; [done|apply remove_first_sublist].
  - destruct Hc as [-> Hall']. exists k. split_and!; try done. by apply inv_settled.
Qed.

(** The second loop stops at the process whose tickets reach the number drawn. *)
Lemma pick_spec ps l c w :
  (forall t, t ∈ l -> exists p, ps !! t = Some p /\ state p = AVAILABLE) ->
  (forall t p, ps !! t = Some p -> 0 <= scheduling_current (priority p)) ->
  0 <= c -> c + tickets ps l < 2 ^ 64 -> w <= c + tickets ps l -> l <> [] ->
  exists l1 t l2 p, pick ps l c w = Some t /\ l = l1 ++ t :: l2 /\ ps !! t = Some p
    /\ (l1 = [] \/ c + tickets ps l1 < w)
    /\ w <= c + tickets ps l1 + scheduling_current (priority p).
Proof.
  intros Hav Hpos. revert c. induction l as [|t l IH]; intros c Hc Hsum Hw Hne; [done|].
  destruct (Hav t ltac:(left)) as (p & Hp & Hst). simpl in Hsum, Hw. rewrite Hp, Hst, decide_True in Hsum, Hw by done.
  pose proof (Hpos t p Hp). pose proof (tickets_pos ps l Hpos).
  cbn [pick]. rewrite Hp. cbn [mbind option_bind]. rewrite u64_id by (unfold is_u; lia).
  rewrite (bool_decide_eq_true_2 (state p = AVAILABLE)), andb_true_r by done.
  rewrite Z.geb_leb. destruct (Z.leb_spec w (c + scheduling_current (priority p))) as [Hle|Hgt].
  - exists [], t, l, p. split_and!; try done; [by left|simpl; lia].
  - assert (Hl : l <> []) by (intros ->; simpl in *; lia).
    destruct (IH ltac:(intros; apply Hav; by right) (c + scheduling_current (priority p))) as
      (l1 & u & l2 & r & Hpick & -> & Hr & Hb & Ha); [lia|lia|lia|done|].
    exists (t :: l1), u, l2, r. simpl. rewrite Hp, Hst, decide_True by done.
    split_and!; try done; [|lia]. right. destruct Hb as [->|Hb]; simpl; lia.
Qed.

Definition prices_ok k : Prop :=
  forall t p, procs k !! t = Some p -> 0 <= scheduling_current (priority p).

(** One round of the scheduler on a system with tickets: it does not panic, the
    dead processes are gone from the ready queue, and the process that runs next
    is runnable. *)
Lemma schedule_spec k r1 r2 :
  inv_x true 0 k -> tbl k -> prices_ok k -> is_u32 r1 -> is_u32 r2 ->
  0 < tickets (procs k) (gReadyQueue k) < 2 ^ 64 ->
  exists k' p, schedule k r1 r2 = Some k' /\ inv k' /\ tbl k' /\ running k' p
    /\ gCurrentProcess k' ∈ gReadyQueue k.
Proof.
  intros Hi Ht Hpos Hr1 Hr2 Hsum. unfold schedule, lottery_next.
  destruct (loop_all_spec (S (length (gReadyQueue k))) k Hi Ht Hpos ltac:(lia) ltac:(lia))
    as (k1 & -> & Hi1 & Ht1 & Hp1 & _ & _ & _ & _ & Hsub & Htk).
  cbn [mbind option_bind]. destruct (Z.eqb_spec (tickets (procs k) (gReadyQueue k)) 0); [lia|].
  set (w := _ mod _). assert (Hw : 0 <= w < tickets (procs k) (gReadyQueue k)) by (apply Z.mod_pos_bound; lia).
  destruct (pick_spec (procs k) (gReadyQueue k1) 0 w) as (l1 & t & l2 & p & Hpick & Hl & Hp & _ & _); try done.
  - intros t Hin. destruct (i_live _ _ _ _ _ _ Hi1 t Hin) as (p & Hp & [?|[? _]]); [|done].
    rewrite Hp1 in Hp. eauto.
  - rewrite Htk. lia.
  - rewrite Htk. lia.
  - intros E. rewrite E in Htk. simpl in Htk. lia.
  - rewrite Hp1, Hpick. cbn [mbind option_bind]. unfold upd. rewrite Hp1, Hp. cbn [mbind option_bind].
    assert (Hin : t ∈ gReadyQueue k1) by (rewrite Hl; apply elem_of_app; right; left).
    destruct (i_live _ _ _ _ _ _ Hi1 t Hin) as (p' & Hp' & Hst). rewrite Hp1 in Hp'. simplify_eq.
    assert (Hst' : state p = AVAILABLE) by (by destruct Hst as [?|[? _]]).
    eexists _, (set_due false p). split; [done|]. split_and!.
    + unfold inv, inv_x. simpl. eapply inv_neutral; try done.
      by rewrite <- Hp1.
    + eapply quiet_tbl; [|exact Ht1]. etrans; [|apply quiet_cpu].
      rewrite <- Hp1. eapply quiet_upd; [by rewrite Hp1|done|done].
    + split_and!; [done|simpl; apply lookup_insert_eq|done].
    + simpl. by eapply sublist_subseteq.
Qed.

(** ** Collecting and deleting *)

(** A dead process changes to another state in which it takes no part. *)
Lemma inv_retire ps rq sq ws t p p' :
  inv_of false 0 ps rq sq ws -> ps !! t = Some p -> state p = EXITED ->
  state p' = COLLECTED -> waitToken p' = waitToken p -> inv_of false 0 (<[t := p']> ps) rq sq ws.
Proof.
  intros [Hnd Hlive Hav Hsl Hwt Htok Hnull Hw Hs] Hp Hst E1 E2.
  assert (Hgood : forall e, good ps e -> good (<[t := p']> ps) e).
  { intros e (r & Hr & ? & Ha). unfold good. destruct (decide (process e = t)) as [Heq|Hne].
    - rewrite Heq in *. simplify_eq. exists p'. rewrite lookup_insert_eq, E2. split_and!; try done.
      destruct Ha as [[|]|]; [congruence|congruence|by right].
    - exists r. by rewrite lookup_insert_ne. }
  assert (Hback : forall u r, <[t := p']> ps !! u = Some r -> state r <> COLLECTED -> ps !! u = Some r).
  { intros u r. rewrite lookup_insert_Some. intros [[<- <-]|[? ?]]; done. }
  split; try done.
  - intros u Hu. destruct (Hlive u Hu) as (r & Hr & Hst'). exists r.
    rewrite lookup_insert_ne; [done|]. intros ->. destruct Hst' as [?|[? _]]; congruence.
  - intros u r Hr Hs'. eapply Hav; [|done]. apply Hback; congruence.
  - eauto.
  - eauto.
  - intros u r Hr. rewrite lookup_insert_Some in Hr. destruct Hr as [[<- <-]|[_ Hr]]; [rewrite E2|]; eauto.
  - rewrite lookup_insert_ne; [done|]. intros ->. congruence.
  - intros u r Hr Hu Hs'. apply Hw; [apply Hback; congruence|done|done].
  - intros u r Hr Hu Hs'. apply Hs; [apply Hback; congruence|done|done].
Qed.

Lemma dead_settled k t p : inv_x false 0 k -> procs k !! t = Some p -> state p = EXITED -> dead k t.
Proof.
  intros Hi Hp Hst. exists p. split_and!; try done. intros Hin.
  destruct (i_live _ _ _ _ _ _ Hi t Hin) as (r & Hr & [?|[? _]]); congruence.
Qed.

(** Its entry leaves the table of exited processes with it. *)
Definition retired k (t : Z) (p : process_t) : kernel :=
  with_procs (with_exited k (ProcessTable.free (pid_of k) (gExitedProcesses k) t))
    (<[t := set_state COLLECTED p]> (procs k)).

Lemma tbl_retire k t p :
  inv_x false 0 k -> tbl k -> procs k !! t = Some p -> state p = EXITED -> tbl (retired k t p).
Proof.
  intros Hi Ht Hp Hst. pose proof (dead_settled k t p Hi Hp Hst) as Hd.
  assert (Epid : pid_of k t = pid p) by (unfold pid_of; by rewrite Hp).
  assert (Hpid : forall u, pid_of (retired k t p) u = pid_of k u).
  { intros u. unfold pid_of. simpl. destruct (decide (t = u)) as [<-|]; [by rewrite lookup_insert_eq, Hp|].
    by rewrite lookup_insert_ne. }
  pose proof (proj1 (tb_dead k Ht t) Hd) as Hg.
  destruct (ProcessTable.table_free_spec (pid_of k) N N_small (gExitedProcesses k) t (tb_et k Ht) Hg) as (Hok & _ & Hget).
  rewrite Epid in Hget. pose proof Ht as [Hpt Het Hti Hlive Hdead Hel Hpids Hused].
  assert (Hlv : forall u, is_Some (procs k !! u) -> is_Some (<[t := set_state COLLECTED p]> (procs k) !! u)).
  { intros u Hu. apply lookup_insert_is_Some'. by right. }
  split; simpl; try done.
  - eapply table_ok_ext; [|done]. done.
  - eapply table_ok_ext; [|done]. done.
  - intros u r. rewrite lookup_insert_Some. intros [[<- <-]|[_ ?]]; [exact (Hti t p Hp)|by apply Hti].
  - intros i u Hu. eapply Hlv, Hlive, Hu.
  - intros u. rewrite Hpid, Hget. unfold dead. simpl. destruct (decide (t = u)) as [<-|Hne].
    + rewrite lookup_insert_eq, Epid, decide_True by done.
      split; [intros (r & [= <-] & ? & _); done|done].
    + rewrite lookup_insert_ne by done. split.
      * intros Hdu. assert (Hdu' : dead k u) by done. destruct Hdu as (r & Hr & _ & _).
        rewrite decide_False; [by apply Hdead|]. unfold pid_of. rewrite Hr. intros E.
        apply Hne. symmetry. by eapply (pid_inj k u t r p).
      * case_decide; [done|]. intros ?%Hdead. done.
  - intros i u. rewrite Hget. case_decide; [done|]. intros Hu. eapply Hlv, Hel, Hu.
  - intros u r. rewrite lookup_insert_Some. intros [[<- <-]|[_ ?]]; [exact (Hused t p Hp)|by eapply Hused].
Qed.

(** The state after the bookkeeping of [collect] for a dead child. *)
Lemma collect_dead k t c k' :
  inv_x false 0 k -> tbl k -> fresh k -> procs k !! t = Some c -> state c = EXITED ->
  enqueueForCollection (retired k t c) t = Some k' ->
  inv_x false 0 k' /\ tbl k' /\ k_switching k' = k_switching k
  /\ gCollectedProcessList k' = gCollectedProcessList k ++ [t]
  /\ procs k' !! t = Some (set_state COLLECTED c) /\ gCurrentProcess k' = gCurrentProcess k
  /\ forall u p, u <> t -> procs k !! u = Some p -> state p <> WAITING -> procs k' !! u = Some p.
Proof.
  intros Hi Ht Hf Hc Hst. unfold enqueueForCollection.
  intros (c' & Hc' & H)%bind_Some. destruct (decide (state c' = COLLECTED)); [|done].
  assert (Ht2 : tbl (retired k t c)) by (by apply tbl_retire).
  assert (Hi2 : inv_x false 0 (retired k t c)) by (by eapply inv_retire).
  assert (Hf2 : fresh (retired k t c)).
  { intros u q. unfold retired. simpl. rewrite lookup_insert_Some. intros [[<- <-]|[_ Hu]] Hn; [|by eapply Hf].
    apply (Hf t c); [done|congruence]. }
  set (k2 := with_collected _ _) in H.
  destruct (safe_wakeall false _ _ _ H Hi2 Hf2) as (Hi3 & Hf3 & Hq3 & _).
  destruct (wakeall_frame false k2 _ _ Hi2 Hf2 H) as (Hsw & Hcu & _ & Hkeep). split_and!; try done.
  - eapply quiet_tbl; [done|]. destruct Ht2. by split.
  - by rewrite (qt_collected _ _ Hq3).
  - apply Hkeep; [|done]. simpl. by rewrite lookup_insert_eq.
  - intros u q Hu Hq Hw. apply Hkeep; [|done]. simpl. by rewrite lookup_insert_ne.
Qed.

(** The running process blocks until a child exits. *)
Lemma block_collecting k p k' :
  inv_x false 0 k -> procs k !! gCurrentProcess k = Some p -> state p = AVAILABLE ->
  (k1 ← deschedule k (gCurrentProcess k) COLLECTING 0; yield k1 false) = Some k' -> step_ok k k'.
Proof.
  intros Hi Hp Hst. rewrite (deschedule_spec k _ p) by (apply Hi || done).
  pose proof (i_avail _ _ _ _ _ _ Hi _ _ Hp Hst) as Hin. rewrite decide_True by done. cbn [mbind option_bind].
  set (k1 := with_ready _ _).
  assert (Hb : inv_x false (gCurrentProcess k) k1) by (by eapply inv_block).
  assert (Hme : procs k1 !! gCurrentProcess k = Some (blocked COLLECTING 0 p)) by (simpl; apply lookup_insert_eq).
  assert (Hi1 : inv_x false 0 k1).
  { destruct Hb as [B1 B2 B3 B4 B5 B6 B7 B8 B9]. split; try done.
    - intros u q Hq Hu Hs. apply B8; [done| |done]. intros ->. rewrite Hme in Hq. by simplify_eq.
    - intros u q Hq Hu Hs. apply B9; [done| |done]. intros ->. rewrite Hme in Hq. by simplify_eq. }
  destruct (yield_inv false k1 _ false Hi1 Hme) as (k3 & Hy & Hi3 & Hs3 & _ & _ & _ & _ & Hq3).
  intros H2. assert (k' = k3) as -> by congruence. split_and!; [unfold inv; rewrite Hs3; by apply inv_weaken|done|].
  etrans; [|exact Hq3]. by apply quiet_block; [|rewrite Hst|].
Qed.

(** [collect]: the parent waits, or it gets the status of the dead child, whose
    process object is handed to the deleter. *)
Lemma collect_inv k p pid_ r k' :
  inv k -> tbl k -> roomy k -> running k p -> collect k pid_ = Some (r, k') ->
  inv k' /\ tbl k' /\
  match r with
  | None => k_switching k' = true
  | Some es => exists t c, getprocess k pid_ = Some t /\ procs k !! t = Some c
      /\ state c = EXITED /\ exitstatus c = es /\ k_switching k' = false
      /\ gCollectedProcessList k' = gCollectedProcessList k ++ [t]
      /\ procs k' !! t = Some (set_state COLLECTED c) /\ exists p', running k' p'
  end.
Proof.
  intros Hi Ht Hr (Hsw & Hp & Hst). unfold inv in Hi. rewrite Hsw in Hi.
  intros (t & Hg & (c & Hc & H)%bind_Some)%bind_Some.
  destruct (decide _) as [Hpar|]; [|done]. destruct (decide (state c = EXITED)) as [Hex|Hex].
  - apply bind_Some in H as (p' & Hp' & H). destruct (decide (t ∈ children p')) as [Hch|]; [|done].
    apply bind_Some in H as (k1 & H1 & (k2 & H2 & (k3 & H3 & [= <- <-])%bind_Some)%bind_Some).
    destruct (safe_upd false _ _ _ _ H1 ltac:(auto with puppy) Hi ltac:(by apply roomy_fresh)) as (Hi1 & Hf1 & Hq1 & _).
    apply upd_spec in H1 as (p1 & Hp1 & ->).
    assert (Hne : t <> gCurrentProcess k) by (intros ->; congruence).
    set (k1 := with_procs k _) in *.
    assert (Hc' : procs k1 !! t = Some c) by (simpl; by rewrite lookup_insert_ne).
    apply upd_spec in H2 as (c' & Hc'' & ->). simpl in Hc''.
    rewrite lookup_insert_ne in Hc'' by done. assert (c' = c) as -> by congruence.
    destruct (collect_dead k1 t c k3) as (Hi3 & Ht3 & Hs3 & Hcol & Hget & Hcu & Hkeep); try done; [by eapply quiet_tbl|].
    split_and!; [unfold inv; by rewrite Hs3; simpl; rewrite Hsw|done|].
    exists t, c. split_and!; try done; [by rewrite Hs3|].
    assert (p1 = p) as -> by congruence.
    exists (set_children (remove_first (Z.eqb t) (children p')) p). split_and!; [by rewrite Hs3| |done].
    rewrite Hcu. apply Hkeep; [done|apply lookup_insert_eq|]. simpl. by rewrite Hst.
  - apply bind_Some in H as (k1 & H1 & (k2 & H2 & [= <- <-])%bind_Some).
    destruct (block_collecting k p k2 Hi Hp Hst) as (? & ? & ?); [by rewrite H1|].
    split_and!; try done. by eapply quiet_tbl.
Qed.

(** No queue entry points to the process. *)
Definition unreferenced k (t : Z) : Prop :=
  (forall e, e ∈ gSleepQueue k -> process e <> t)
  /\ forall q l e, wqs k !! q = Some l -> e ∈ l -> process e <> t.

Lemma inv_delete sw ps rq sq ws t p :
  inv_of sw 0 ps rq sq ws -> ps !! t = Some p -> state p = COLLECTED ->
  (forall e, e ∈ sq -> process e <> t) -> (forall q l e, ws !! q = Some l -> e ∈ l -> process e <> t) ->
  inv_of sw 0 (delete t ps) rq sq ws.
Proof.
  intros [Hnd Hlive Hav Hsl Hwt Htok Hnull Hw Hs] Hp Hst U1 U2.
  assert (Hgood : forall e, process e <> t -> good ps e -> good (delete t ps) e).
  { intros e Hne (r & Hr & ?). exists r. by rewrite lookup_delete_ne. }
  assert (Hback : forall u r, delete t ps !! u = Some r -> ps !! u = Some r).
  { intros u r. rewrite lookup_delete_Some. by intros [_ ?]. }
  split; try done; try (by eauto).
  - intros u Hu. destruct (Hlive u Hu) as (r & Hr & Hst'). exists r. rewrite lookup_delete_ne; [done|].
    intros ->. destruct Hst' as [?|[_ ?]]; congruence.
  - by apply lookup_delete_None; right.
Qed.

Lemma tbl_delete k t p :
  tbl k -> procs k !! t = Some p -> state p = COLLECTED ->
  tbl (with_procs (with_table (with_bitmaps k (PidBitmap.free (gPidBitmap k) (pid p)) (PidBitmap.free (gGDTBitmap k) (gdtidx p)))
         (ProcessTable.free (pid_of k) (gProcessTable k) t)) (delete t (procs k))).
Proof.
  intros Ht Hp Hst. pose proof Ht as [Hpt Het Hti Hlive Hdead Hel Hpids Hused].
  assert (Epid : pid_of k t = pid p) by (unfold pid_of; by rewrite Hp).
  set (k' := with_procs _ _).
  assert (Hpid : forall u, u <> t -> pid_of k' u = pid_of k u).
  { intros u Hu. unfold pid_of. simpl. by rewrite lookup_delete_ne. }
  pose proof (Hti t p Hp) as Hg. rewrite <- Epid in Hg.
  destruct (ProcessTable.table_free_spec (pid_of k) N N_small (gProcessTable k) t Hpt Hg) as (Hok & _ & Hget).
  rewrite Epid in Hget.
  assert (Hnt : ~ dead k t) by (intros (r & ? & ? & _); congruence).
  assert (Het' : forall i u, ProcessTable.get (gExitedProcesses k) i = Some (Some u) -> u <> t).
  { intros i u Hu ->. apply Hnt, Hdead. by rewrite (ProcessTable.t_pid _ _ _ Het i t Hu). }
  assert (Hpt' : forall i u, ProcessTable.get (ProcessTable.free (pid_of k) (gProcessTable k) t) i = Some (Some u) -> u <> t).
  { intros i u. rewrite Hget. case_decide as Hd; [done|]. intros Hu ->. apply Hd.
    by rewrite <- (ProcessTable.t_pid _ _ _ Hpt i t Hu), Epid. }
  split; simpl.
  - destruct Hok as [O1 O2 O3]. split; try done. intros i u Hu. rewrite Hpid by (by eapply Hpt'). by apply O2.
  - destruct Het as [O1 O2 O3]. split; try done. intros i u Hu. rewrite Hpid by (by eapply Het'). by apply O2.
  - intros u r [Hne Hr]%lookup_delete_Some. rewrite Hget. rewrite decide_False; [by apply Hti|].
    intros E. apply Hne. symmetry. by eapply (pid_inj k u t r p).
  - intros i u Hu. pose proof (Hpt' i u Hu). rewrite lookup_delete_ne by done.
    rewrite Hget in Hu. case_decide; [done|]. by eapply Hlive.
  - intros u. unfold dead. simpl. destruct (decide (u = t)) as [->|Hne].
    + rewrite lookup_delete_eq. split; [by intros (? & ? & _)|]. intros Hu. by apply Het' in Hu.
    + rewrite lookup_delete_ne by done. rewrite Hpid by done. apply (Hdead u).
  - intros i u Hu. pose proof (Het' i u Hu). rewrite lookup_delete_ne by done. by eapply Hel.
  - unfold PidBitmap.ok in *. simpl. by rewrite BitArray.length_clear.
  - intros u r [Hne Hr]%lookup_delete_Some. rewrite PidBitmap.bitmap_free_spec, (Hused u r Hr), andb_true_r.
    apply negb_true_iff, bool_decide_eq_false. intros E. apply Hne. by eapply (pid_inj k t u p r).
Qed.

Lemma delete_one_inv k t rest p :
  inv k -> tbl k -> gCollectedProcessList k = t :: rest -> procs k !! t = Some p -> state p = COLLECTED ->
  unreferenced k t ->
  exists k', delete_one k = Some (Some k') /\ inv k' /\ tbl k' /\ procs k' = delete t (procs k)
    /\ gCollectedProcessList k' = rest /\ k_switching k' = k_switching k
    /\ getprocess k' (pid p) = None /\ PidBitmap.used (gPidBitmap k') (pid p) = false.
Proof.
  intros Hi Ht Hc Hp Hst [U1 U2]. unfold delete_one. rewrite Hc, Hp. cbn [mbind option_bind].
  eexists. split; [done|].
  pose proof (tbl_delete k t p Ht Hp Hst) as Ht'. split_and!; try done.
  - by eapply inv_delete.
  - destruct Ht'. by split.
  - unfold getprocess, ProcessTable.get. simpl.
    assert (Epid : pid_of k t = pid p) by (unfold pid_of; by rewrite Hp).
    change (pid_of _ t) with (pid_of k t). rewrite Epid.
    rewrite list_lookup_insert_eq; [done|].
    rewrite (ProcessTable.t_len _ _ _ (tb_pt k Ht)). by apply (pid_bound k t p).
  - simpl. rewrite PidBitmap.bitmap_free_spec. by rewrite bool_decide_eq_true_2.
Qed.

(** ** The awaker *)

(** [wake] of a process that waits or sleeps: whatever queue it waited in, it
    leaves it, and runs with a timeout as the reason. *)
Lemma wake_inv sw k t p :
  inv_x sw t k -> fresh k -> procs k !! t = Some p -> asleep p ->
  (waitable (wakeReason p) = 0 \/ is_Some (wqs k !! waitable (wakeReason p))) ->
  exists k', wake k t = Some k' /\ inv_x sw 0 k' /\ quiet k k' /\ k_switching k' = k_switching k
    /\ procs k' = <[t := woke (mkWake true 0) p]> (procs k) /\ t ∈ gReadyQueue k'
    /\ gCurrentProcess k' = gCurrentProcess k /\ gSleepQueue k' = gSleepQueue k.
Proof.
  intros Hi Hf Hp Ha Hwq. unfold wake. rewrite Hp. cbn [mbind option_bind].
  assert (Hst : state p <> AVAILABLE /\ state p <> EXITED) by (destruct Ha as [->| ->]; done).
  rewrite decide_False by apply Hst.
  assert (Hk1 : exists k1, (if waitable (wakeReason p) =? 0 then Some k
      else wq_remove k (waitable (wakeReason p)) t) = Some k1
    /\ inv_x sw t k1 /\ fresh k1 /\ quiet k k1 /\ procs k1 = procs k /\ k_switching k1 = k_switching k
    /\ gCurrentProcess k1 = gCurrentProcess k /\ gSleepQueue k1 = gSleepQueue k).
  { destruct (Z.eqb_spec (waitable (wakeReason p)) 0) as [|Hne]; [by exists k; split_and!|].
    destruct Hwq as [?|[l Hl]]; [done|]. unfold wq_remove. rewrite Hl. simpl. eexists. split; [done|].
    split_and!; try done.
    destruct Hi as [Hnd Hlive Hav Hsl Hwt Htok Hnull Hw Hs]. split; try done; simpl.
    - intros q m e Hm He. rewrite lookup_insert_Some in Hm. destruct Hm as [[<- <-]|[_ ?]]; [|eauto].
      apply list_elem_of_filter in He as [_ ?]. eauto.
    - intros u r Hr Hu Hs'. destruct (Hw u r Hr Hu Hs') as (m & Hm & He).
      destruct (decide (waitable (wakeReason r) = waitable (wakeReason p))) as [E|E].
      + rewrite E, lookup_insert_eq. eexists. split; [done|]. apply list_elem_of_filter.
        split; [simpl; by apply Z.eqb_neq|congruence].
      + exists m. by rewrite lookup_insert_ne. }
  destruct Hk1 as (k1 & -> & Hi1 & Hf1 & Hq1 & Hp1 & Hs1 & Hc1 & Hsl1). cbn [mbind option_bind].
  unfold upd. rewrite Hp1, Hp. cbn [mbind option_bind].
  rewrite (reschedule_spec _ t (set_wakeReason (mkWake true 0) p)) by (simpl; apply lookup_insert_eq).
  simpl. rewrite insert_insert_eq. rewrite <- Hp1.
  exists (resume k1 t p (mkWake true 0)). split; [done|].
  assert (Hp' : procs k1 !! t = Some p) by (by rewrite Hp1).
  split_and!; try done.
  - apply (resume_inv sw t); try done; try apply Hst. by left.
  - etrans; [exact Hq1|]. by apply quiet_resume; [|apply Hst].
  - simpl. apply elem_of_app. right. by apply list_elem_of_singleton.
Qed.

(** The queue a sleeping process must be removed from exists. *)
Lemma asleep_queue sw k t p :
  inv_x sw 0 k -> procs k !! t = Some p -> asleep p ->
  waitable (wakeReason p) = 0 \/ is_Some (wqs k !! waitable (wakeReason p)).
Proof.
  intros Hi Hp Ha. assert (Ht : t <> 0) by (intros ->; rewrite (i_null _ _ _ _ _ _ Hi) in Hp; done).
  destruct Ha as [Hw|Hs].
  - destruct (i_waiting _ _ _ _ _ _ Hi t p Hp Ht Hw) as (l & Hl & _). right. by exists l.
  - left. apply (i_sleeping _ _ _ _ _ _ Hi t p Hp Ht Hs).
Qed.

(** The top entry is due and current: its process is made runnable. *)
Lemma awaker_due k e sq p :
  inv_x false 0 k -> fresh k -> gSleepQueue k = e :: sq -> procs k !! process e = Some p ->
  sleeptill p <= now k -> waitToken p = token e ->
  exists k', awaker_round k = Some (false, k') /\ inv_x false 0 k' /\ quiet k k'
    /\ k_switching k' = k_switching k
    /\ procs k' = <[process e := woke (mkWake true 0) p]> (procs k) /\ process e ∈ gReadyQueue k'
    /\ gSleepQueue k' ≡ₚ sq /\ gCurrentProcess k' = gCurrentProcess k /\ asleep p.
Proof.
  intros Hi Hf Hq Hp Hdue Htok. unfold awaker_round. rewrite Hq. cbn [mbind option_bind]. simpl. rewrite Hp. cbn [mbind option_bind].
  assert (Ha : asleep p).
  { destruct (i_sleep _ _ _ _ _ _ Hi e) as (p' & ? & _ & [?|?]); [rewrite Hq; left| |]; simplify_eq; [done|lia]. }
  rewrite decide_False by (destruct Ha as [->| ->]; done).
  destruct (Z.leb_spec (sleeptill p) (now k)); [|lia]. destruct (Z.eqb_spec (waitToken p) (token e)); [|done].
  destruct (sleep_pop k sq e) as (sq' & -> & Hperm). cbn [mbind option_bind].
  destruct (wake_inv false (with_sleep k sq') (process e) p) as (k' & Hw & Hi' & Hq' & Hs' & Hp' & Hin' & Hc' & Hsl'); try done.
  - eapply (inv_sleep_pop _ _ _ _ _ sq' _ e); [exact Hi|rewrite Hq; by constructor|by left].
  - by eapply (asleep_queue false k).
  - rewrite Hw. cbn [mbind option_bind]. exists k'. split; [done|]. split_and!; try done.
    + etrans; [|exact Hq']. apply quiet_with_sleep.
    + by rewrite Hsl'.
Qed.

(** The top entry belongs to a process that has exited: its id is in the table of
    exited processes already, and the attempt to enter it again panics. *)
Lemma awaker_exited k e sq p :
  inv_x false 0 k -> tbl k -> gSleepQueue k = e :: sq -> procs k !! process e = Some p ->
  state p = EXITED -> awaker_round k = None.
Proof.
  intros Hi Ht Hq Hp Hex. unfold awaker_round. rewrite Hq. simpl. rewrite Hp. cbn [mbind option_bind].
  rewrite decide_True by done. destruct (sleep_pop k sq e) as (sq' & -> & _). cbn [mbind option_bind].
  unfold enqueueForDeath. simpl. rewrite Hp. cbn [mbind option_bind]. rewrite decide_True by done.
  unfold ProcessTable.set. cbn [mbind option_bind].
  pose proof (proj1 (tb_dead k Ht _) (dead_settled k _ _ Hi Hp Hex)) as Hd. unfold ProcessTable.get in Hd.
  change (pid_of _ (process e)) with (pid_of k (process e)). by rewrite Hd.
Qed.

(** One round of the awaker keeps the invariants. *)
Lemma awaker_round_inv k p b k' :
  inv k -> tbl k -> roomy k -> running k p -> is_Some (wqs k !! awaker_queue (tasks k)) ->
  awaker_round k = Some (b, k') -> inv k' /\ tbl k' /\ k_switching k' = b /\ (b = false -> exists p', running k' p').
Proof.
  intros Hi Ht Hr Hrun [lw Hlw] H. pose proof Hrun as (Hsw & Hp & Hst).
  assert (Hi0 : inv_x false 0 k) by (unfold inv in Hi; by rewrite Hsw in Hi).
  destruct (gSleepQueue k) as [|e sq] eqn:Hq.
  - unfold awaker_round in H. rewrite Hq in H. apply bind_Some in H as (k1 & H1 & [= <- <-]).
    destruct (wq_yield_inv k _ p lw 0 Hi Hr Hrun Hlw ltac:(by exists lw)) as (k2 & E & Hi2 & Hs2 & Hq2).
    rewrite E in H1. injection H1 as <-. split_and!; try done. by eapply quiet_tbl.
  - destruct (i_sleep _ _ _ _ _ _ Hi0 e) as (pe & Hpe & _ & _); [rewrite Hq; left|].
    destruct (decide (state pe <> EXITED /\ sleeptill pe <= now k /\ waitToken pe = token e)) as [(H1 & H2 & H3)|Hn].
    + destruct (awaker_due k e sq pe Hi0 ltac:(by apply roomy_fresh) Hq Hpe H2 H3) as (k2 & E & Hi2 & Hq2 & Hs2 & Hp2 & _ & _ & Hc2 & Ha).
      rewrite E in H. injection H as <- <-. split_and!; [unfold inv; by rewrite Hs2, Hsw|by eapply quiet_tbl|congruence|].
      intros _. exists p. split_and!; [congruence| |done]. rewrite Hc2, Hp2, lookup_insert_ne; [done|].
      intros E'. rewrite E' in Hpe. simplify_eq. destruct Ha; congruence.
    + destruct (decide (state pe = EXITED)) as [Hex|Hex].
      { by rewrite (awaker_exited k e sq pe) in H. }
      unfold awaker_round in H. rewrite Hq in H. simpl in H. rewrite Hpe in H. cbn [mbind option_bind] in H.
      rewrite decide_False in H by done.
      destruct (Z.leb_spec (sleeptill pe) (now k)).
      * destruct (Z.eqb_spec (waitToken pe) (token e)); [by destruct Hn|]. injection H as <- <-. split_and!; try done. by exists p.
      * apply bind_Some in H as (k1 & H1 & [= <- <-]).
        destruct (yield_inv false k p false Hi0 Hp) as (k2 & E & Hi2 & Hs2 & _ & _ & _ & _ & Hq2).
        rewrite E in H1. injection H1 as <-. split_and!; try done; [|by eapply quiet_tbl].
        unfold inv. rewrite Hs2. by apply inv_weaken.
Qed.

(** ** Spawning *)

Lemma inv_add sw ps rq sq ws t p :
  inv_of sw 0 ps rq sq ws -> ps !! t = None -> t <> 0 -> state p = NEW -> waitToken p = 0 ->
  inv_of sw 0 (<[t := p]> ps) rq sq ws.
Proof.
  intros [Hnd Hlive Hav Hsl Hwt Htok Hnull Hw Hs] Hn Ht E1 E2.
  assert (Hgood : forall e, good ps e -> good (<[t := p]> ps) e).
  { intros e (r & Hr & ?). exists r. rewrite lookup_insert_ne; [done|]. intros ->. congruence. }
  assert (Hback : forall u r, <[t := p]> ps !! u = Some r -> state r <> NEW -> ps !! u = Some r).
  { intros u r. rewrite lookup_insert_Some. intros [[<- <-]|[? ?]]; done. }
  split; try done; try (by eauto).
  - intros u Hu. destruct (Hlive u Hu) as (r & Hr & ?). exists r. rewrite lookup_insert_ne; [done|]. intros ->. congruence.
  - intros u r Hr Hs'. eapply Hav; [|done]. apply Hback; congruence.
  - intros u r Hr. rewrite lookup_insert_Some in Hr. destruct Hr as [[<- <-]|[_ Hr]]; [lia|eauto].
  - by rewrite lookup_insert_ne.
  - intros u r Hr Hu Hs'. apply Hw; [apply Hback; congruence|done|done].
  - intros u r Hr Hu Hs'. apply Hs; [apply Hback; congruence|done|done].
Qed.

(** The table with a new process under a fresh id. *)
Lemma tbl_add k t p n pids gdts :
  tbl k -> procs k !! t = None -> PidBitmap.next N (gPidBitmap k) = Some (n, pids) ->
  pid p = n -> state p = NEW ->
  let k1 := with_procs (with_bitmaps k pids gdts) (<[t := p]> (procs k)) in
  exists pt, ProcessTable.set (pid_of k1) (gProcessTable k) (Some t) = Some pt /\ tbl (with_table k1 pt).
Proof.
  intros Ht Hn Hnext Hpid Hst k1. pose proof Ht as [Hpt Het Hti Hlive Hdead Hel Hpids Hused].
  pose proof (PidBitmap.next_spec N ltac:(unfold N; lia) (gPidBitmap k) Hpids) as Hspec. rewrite Hnext in Hspec.
  destruct Hspec as (HnN & Hfree & Hok' & Huse & _).
  assert (Eo : forall u, u <> t -> pid_of k1 u = pid_of k u).
  { intros u Hu. unfold pid_of. simpl. by rewrite lookup_insert_ne. }
  assert (Et : pid_of k1 t = n) by (unfold pid_of; simpl; by rewrite lookup_insert_eq).
  assert (Hold : forall tb i u, (forall j v, ProcessTable.get tb j = Some (Some v) -> is_Some (procs k !! v)) ->
    ProcessTable.get tb i = Some (Some u) -> u <> t).
  { intros tb i u Hl Hu ->. apply Hl in Hu. rewrite Hn in Hu. by destruct Hu. }
  assert (Hpt1 : ProcessTable.ok (pid_of k1) N (gProcessTable k)).
  { destruct Hpt as [O1 O2 O3]. split; try done. intros i u Hu. rewrite Eo by exact (Hold _ i u Hlive Hu). by apply O2. }
  pose proof (ProcessTable.table_set_spec (pid_of k1) N N_small (gProcessTable k) t Hpt1) as Hset. rewrite Et in Hset.
  specialize (Hset HnN).
  destruct (ProcessTable.set (pid_of k1) (gProcessTable k) (Some t)) as [pt|].
  2:{ destruct Hset as [u Hu]. destruct (Hlive _ _ Hu) as [r Hr].
      pose proof (ProcessTable.t_pid _ _ _ Hpt _ _ Hu) as E. unfold pid_of in E. rewrite Hr in E.
      pose proof (Hused u r Hr). congruence. }
  destruct Hset as (_ & Hptok & _ & Hget). exists pt. split; [done|].
  assert (Hlv : forall u, is_Some (procs k !! u) -> is_Some (<[t := p]> (procs k) !! u)).
  { intros u Hu. apply lookup_insert_is_Some'. by right. }
  split; simpl; try done.
  - destruct Het as [O1 O2 O3]. split; try done. intros i u Hu.
    change (pid_of _ u) with (pid_of k1 u). rewrite Eo by exact (Hold _ i u Hel Hu). by apply O2.
  - intros u r. rewrite Hget, lookup_insert_Some. intros [[<- <-]|[Hne Hr]]; [by rewrite decide_True|].
    rewrite decide_False; [by apply Hti|]. intros E. pose proof (Hused u r Hr). congruence.
  - intros i u. rewrite Hget. case_decide; [intros [= <-]; rewrite lookup_insert_eq; by eexists|].
    intros Hu. eapply Hlv, Hlive, Hu.
  - intros u. unfold dead. simpl. change (pid_of _ u) with (pid_of k1 u). destruct (decide (u = t)) as [->|Hne].
    + rewrite lookup_insert_eq. split; [intros (r & [= <-] & ? & _); congruence|].
      intros Hu%Hel. rewrite Hn in Hu. by destruct Hu.
    + rewrite lookup_insert_ne, Eo by done. apply (Hdead u).
  - intros i u Hu. eapply Hlv, Hel, Hu.
  - intros u r. rewrite Huse, lookup_insert_Some. intros [[<- <-]|[_ Hr]].
    + by rewrite bool_decide_eq_true_2.
    + by rewrite (Hused u r Hr), orb_true_r.
Qed.

End Invariant.
