(* ===== verification/System.v ===== *)
(** * Steps of the process system and reachable states

    [step] lists what can happen to the process system between two scheduling
    decisions; [sys_inv] holds in every state that is reachable from a state in
    which it holds.  The theorems about the process manager, the wait queues, the
    scheduler and the awaker are at the end. *)

From Stdlib Require Import String ZArith Lia Permutation.
From stdpp Require Import base numbers list gmap option.
From S2P Require Import Prelude Vec PQueue Tables Files Kernel Lifecycle Sched Tasks Invariant.

Local Open Scope Z_scope.

Module System.
Import Proc Kernel PM Life Sched Tasks Invariant.

Implicit Types k : kernel.

(** The state every step starts from and ends in. *)
Definition sys_inv k : Prop :=
  inv k /\ tbl k /\ (k_switching k = false -> exists p, running k p).

(** What a spawned process starts with. *)
Definition base_of (si : spawninfo_t) (cur : process_t) : process_t * process_t :=
  if si_clone si then clone cur new else (cur, copyEnvironment new (si_environment si)).

Lemma base_neutral si cur :
  let '(cur', base) := base_of si cur in
  state cur' = state cur /\ waitToken cur' = waitToken cur /\ wakeReason cur' = wakeReason cur
  /\ pid cur' = pid cur /\ state base = NEW /\ waitToken base = 0.
Proof. unfold base_of. by destruct (si_clone si). Qed.

Lemma enter_inv k p si cur base proc e0 e k' :
  inv_x false 0 k -> tbl k -> roomy k -> procs k !! gCurrentProcess k = Some p -> procs k !! proc = None -> proc <> 0 ->
  state cur = state p -> waitToken cur = waitToken p -> wakeReason cur = wakeReason p -> pid cur = pid p ->
  state base = NEW -> waitToken base = 0 ->
  spawn_enter k si cur base (proc, e0, e) = Some k' ->
  inv_x false 0 k' /\ tbl k' /\ fresh k' /\ k_switching k' = k_switching k /\ gCurrentProcess k' = gCurrentProcess k
  /\ procs k' !! gCurrentProcess k = Some cur
  /\ exists n g, procs k' !! proc = Some (init_process cur base si n g e0 e)
       /\ PidBitmap.used (gPidBitmap k) n = false.
Proof.
  intros Hi Ht Hr Hp Hfree Hp0 E1 E2 E3 E4 E5 E6.
  intros ([n pids] & Hn & ([g gdts] & Hg & H)%bind_Some)%bind_Some. cbn beta iota zeta in H.
  set (k0 := with_procs k (<[gCurrentProcess k := cur]> (procs k))).
  set (child := init_process cur base si n g e0 e) in *.
  assert (Hq0 : quiet k k0) by (by eapply quiet_upd; [|done|rewrite E1]).
  assert (Hi0 : inv_x false 0 k0) by (by eapply inv_neutral).
  assert (Hne : gCurrentProcess k <> proc) by (intros E; congruence).
  assert (Hf0 : procs k0 !! proc = None) by (simpl; by rewrite lookup_insert_ne).
  pose proof (PidBitmap.next_spec N ltac:(unfold N; lia) (gPidBitmap k) (tb_pids k Ht)) as Hspec.
  rewrite Hn in Hspec. destruct Hspec as (_ & Hunused & _).
  destruct (tbl_add k0 proc child n pids gdts) as (pt & Hset & Ht'); try done; [by eapply quiet_tbl|].
  apply bind_Some in H as (pt' & Hset' & [= <-]). assert (pt' = pt) as -> by (apply (inj Some); etrans; [symmetry; exact Hset'|exact Hset]).
  split_and!; try done.
  - by eapply inv_add.
  - intros t q. simpl. rewrite !lookup_insert_Some. intros [[<- <-]|[_ [[<- <-]|[_ Hq]]]] _.
    + simpl. rewrite E6. lia.
    + rewrite E2. by apply (Hr _ _ Hp).
    + by apply (Hr t).
  - simpl. rewrite lookup_insert_ne by done. apply lookup_insert_eq.
  - exists n, g. split; [|done]. simpl. apply lookup_insert_eq.
Qed.

(** The child as [spawn] leaves it: only its state, token and descriptors differ
    from what it was initialised with. *)
Definition same_child (c child : process_t) : Prop :=
  pid c = pid child /\ ppid c = ppid child /\ cwd c = cwd child /\ flags c = flags child
  /\ priority c = priority child /\ tss c = tss child.

Lemma finish_inv k cur si proc child tf k' :
  inv_x false 0 k -> fresh k -> procs k !! proc = Some child -> state child = NEW ->
  gCurrentProcess k <> proc -> spawn_finish k si cur proc tf = Some k' ->
  inv_x false 0 k' /\ quiet k k' /\ calm k k' /\ k_switching k' = k_switching k
  /\ gCurrentProcess k' = gCurrentProcess k
  /\ exists c, procs k' !! proc = Some c /\ same_child c child
       /\ state c = (if si_schedulable si then AVAILABLE else NEW).
Proof.
  intros Hi Hf Hc Hst Hne. unfold spawn_finish. rewrite Hc. cbn [mbind option_bind].
  intros (k1 & H1 & (cf & _ & ([st cf'] & _ & (k2 & H2 & H3)%bind_Some)%bind_Some)%bind_Some)%bind_Some.
  assert (S1 : safe false k k1).
  { destruct (si_schedulable si); [|by simplify_eq].
    eapply (safe_reschedule false k proc child); [done|by rewrite Hst|by rewrite Hst|done]. }
  assert (S3 : safe false k k').
  { transitivity k1; [done|]. transitivity (with_files k1 st); [apply safe_files|].
    transitivity k2; [by eapply safe_upd; [done|done]|]. by eapply safe_upd; [done|done]. }
  destruct (S3 Hi Hf) as (Hi3 & _ & Hq3 & Hc3).
  apply upd_spec in H2 as (c1 & Hc1 & ->). apply upd_spec in H3 as (c2 & Hc2 & ->). simpl in *.
  assert (Hk1 : gCurrentProcess k1 = gCurrentProcess k /\ k_switching k1 = k_switching k
    /\ same_child c1 child /\ state c1 = (if si_schedulable si then AVAILABLE else NEW)).
  { destruct (si_schedulable si).
    - rewrite (reschedule_spec k proc child) in H1 by done. injection H1 as <-. simpl in Hc1.
      rewrite lookup_insert_eq in Hc1. injection Hc1 as <-. by split_and!.
    - injection H1 as <-. assert (c1 = child) as -> by congruence. by split_and!. }
  destruct Hk1 as (Ecur & Esw & Hsame & Est). split_and!; try done.
  exists (set_fds cf' c1). rewrite Ecur, lookup_insert_ne, lookup_insert_eq by done. by split_and!.
Qed.

Lemma spawn_inv k p si proc e0 e tf r k' :
  inv k -> tbl k -> roomy k -> running k p -> procs k !! proc = None -> proc <> 0 ->
  spawn k si (proc, e0, e) tf = Some (r, k') ->
  inv k' /\ tbl k' /\ (exists p', running k' p')
  /\ match r with
     | None => k' = k /\ refused p si = true
     | Some t => t = proc /\ refused p si = false /\ exists c, procs k' !! proc = Some c
         /\ ppid c = pid p /\ state c = (if si_schedulable si then AVAILABLE else NEW)
         /\ getprocess k' (pid c) = Some proc /\ cwd c = cwd p /\ system c = si_system si
         /\ priority c = mkPriority (quantum (max_priority si)) (quantum (current_priority si))
                                    (scheduling (max_priority si)) (scheduling (current_priority si))
         /\ PidBitmap.used (gPidBitmap k) (pid c) = false
     end.
Proof.
  intros Hi Ht Hr Hrun Hfree Hp0. pose proof Hrun as (Hsw & Hp & Hst).
  assert (Hi0 : inv_x false 0 k) by (unfold inv in Hi; by rewrite Hsw in Hi).
  unfold spawn. destruct (si_cr3 si =? 0); [done|]. rewrite Hp. cbn [mbind option_bind].
  destruct (refused p si) eqn:Href; [intros [= <- <-]; split_and!; try done; by exists p|].
  pose proof (base_neutral si p) as Hb. assert (Hcwd : cwd (base_of si p).1 = cwd p) by (unfold base_of; by destruct (si_clone si)).
  fold (base_of si p). destruct (base_of si p) as [cur base]. simpl in Hcwd.
  destruct Hb as (E1 & E2 & E3 & E4 & E5 & E6).
  intros (k1 & H1 & (k2 & H2 & [= <- <-])%bind_Some)%bind_Some. simpl in H2.
  destruct (enter_inv k p si cur base proc e0 e k1) as (Hi1 & Ht1 & Hf1 & Hs1 & Hc1 & Hcur & n & g & Hch & Hun); try done.
  destruct (finish_inv k1 cur si proc _ tf k2 Hi1 Hf1 Hch) as (Hi2 & Hq2 & Hcalm & Hs2 & Hc2 & c & Hc & Hsame & Hcst); try done.
  { rewrite Hc1. intros E. congruence. }
  assert (Ht2 : tbl k2) by (by eapply quiet_tbl).
  assert (Hsw2 : k_switching k2 = false) by congruence.
  destruct (Hcalm (gCurrentProcess k) cur Hcur ltac:(congruence)) as (p' & Hp' & Hst' & _).
  destruct Hsame as (S1 & S2 & S3 & S4 & S5 & _). split_and!; try done.
  - unfold inv. by rewrite Hsw2.
  - exists p'. split_and!; try done. by rewrite Hc2, Hc1.
  - exists c. split_and!; try done.
    + by rewrite S2.
    + by apply getprocess_live.
    + by rewrite S3.
    + unfold system. by rewrite S4.
    + by rewrite S1.
Qed.

(** ** Steps *)

(** The system tasks have their queues, and no token is about to wrap. *)
Definition booted k : Prop := is_Some (wqs k !! awaker_queue (tasks k)) /\ roomy k.

(** What the running process, an interrupt or the scheduler does. *)
Inductive step : kernel -> kernel -> Prop :=
  | step_time k t : now k <= t -> step k (with_now k t)
  | step_tick k p b y k' : running k p -> tickForSchedule k b = Some (y, k') -> step k k'
  | step_yield k p b k' : running k p -> yield k b = Some k' -> step k k'
  | step_sleep k p d k' : running k p -> sleep k d = Some k' -> step k k'
  | step_wait k p q d k' : running k p -> wq_yield k q d = Some k' -> step k k'
  | step_wakeone k p q t k' : running k p -> wakeone k q = Some (t, k') -> step k k'
  | step_wakeall k p q k' : running k p -> wakeall k q = Some k' -> step k k'
  | step_exit k p es k' : running k p -> exit_current k es = Some k' -> step k k'
  | step_collect k p c r k' : running k p -> collect k c = Some (r, k') -> step k k'
  | step_spawn k p si proc e0 e tf r k' :
      running k p -> procs k !! proc = None -> proc <> 0 ->
      spawn k si (proc, e0, e) tf = Some (r, k') -> step k k'
  | step_awaker k p b k' : running k p -> awaker_round k = Some (b, k') -> step k k'
  | step_delete k p t rest k' :
      running k p -> gCollectedProcessList k = t :: rest ->
      (exists c, procs k !! t = Some c /\ state c = COLLECTED) -> unreferenced k t ->
      delete_one k = Some (Some k') -> step k k'
  | step_schedule k r1 r2 k' :
      k_switching k = true -> prices_ok k -> is_u32 r1 -> is_u32 r2 ->
      0 < tickets (procs k) (gReadyQueue k) < 2 ^ 64 ->
      schedule k r1 r2 = Some k' -> step k k'.

Lemma step_ok_sys k k' : tbl k -> step_ok k k' -> sys_inv k'.
Proof. intros Ht (Hi & Hs & Hq). split_and!; [done|by eapply quiet_tbl|congruence]. Qed.

(** Safe operations that do not give up the CPU. *)
Lemma safe_sys k k' :
  sys_inv k -> roomy k -> k_switching k = false -> safe false k k' ->
  k_switching k' = false -> gCurrentProcess k' = gCurrentProcess k -> sys_inv k'.
Proof.
  intros (Hi & Ht & Hrun) Hr Hsw Hs Hsw' Hc. destruct (Hrun Hsw) as (p & _ & Hp & Hst).
  unfold inv in Hi. rewrite Hsw in Hi.
  destruct (Hs Hi ltac:(by apply roomy_fresh)) as (Hi' & _ & Hq & Hcalm).
  destruct (Hcalm _ _ Hp Hst) as (p' & Hp' & Hst' & _).
  split_and!; [unfold inv; by rewrite Hsw'|by eapply quiet_tbl|]. intros _. exists p'. split_and!; try done. by rewrite Hc.
Qed.

Lemma tick_safe k b y k' : tickForSchedule k b = Some (y, k') ->
  safe false k k' /\ k_switching k' = k_switching k /\ gCurrentProcess k' = gCurrentProcess k.
Proof.
  unfold tickForSchedule. intros (p & Hp & H)%bind_Some. destruct (_ >? 0); [|by simplify_eq].
  apply bind_Some in H as (k1 & H1 & H). assert (S1 : safe false k k1) by (by eapply safe_upd; [done|done]).
  apply upd_spec in H1 as (p1 & _ & ->). destruct (_ >=? _); [|by simplify_eq]. destruct b; [by simplify_eq|].
  apply bind_Some in H as (k2 & H2 & [= <- <-]).
  assert (S2 : safe false (with_procs k (<[gCurrentProcess k := set_usedticks (u8 (usedticks p + 1)) p1]> (procs k))) k2)
    by (by eapply safe_upd; [done|done]).
  apply upd_spec in H2 as (p2 & _ & ->). split_and!; try done. by etrans.
Qed.

Lemma wakeone_frame k q t k' : wakeone k q = Some (t, k') -> inv_x false 0 k -> fresh k ->
  k_switching k' = k_switching k /\ gCurrentProcess k' = gCurrentProcess k.
Proof.
  intros Hw Hi Hf. unfold wakeone in Hw. apply bind_Some in Hw as (l & Hq & Hw).
  pose proof (wakeone_fuel_spec false (S (length l)) k q l Hi Hf Hq ltac:(lia)) as Hs.
  destruct (first_live (procs k) l) as [[i e]|]; destruct Hs as (E & _ & _); rewrite E in Hw; simplify_eq; [|done].
  simpl. pose proof (take_all_switching k q [e]). pose proof (take_all_current k q [e]). done.
Qed.

Lemma step_inv k k' : booted k -> sys_inv k -> step k k' -> sys_inv k'.
Proof.
  intros [Haw Hr] Hsys Hstep. pose proof Hsys as (Hi & Ht & Hrun).
  assert (Hi0 : forall p, running k p -> inv_x false 0 k).
  { intros p (Hsw & _). unfold inv in Hi. by rewrite Hsw in Hi. }
  assert (Hf : fresh k) by (by apply roomy_fresh).
  destruct Hstep as [k t Hle|k p b y k' Hp H|k p b k' Hp H|k p d k' Hp H|k p q d k' Hp H|k p q t k' Hp H
    |k p q k' Hp H|k p es k' Hp H|k p c r k' Hp H|k p si proc e0 e tf r k' Hp Hfr H0 H|k p b k' Hp H
    |k p t rest k' Hp Hcol (c & Hc & Hst) Hun H|k r1 r2 k' Hsw Hpr H1 H2 Htk H].
  - split_and!; [done|destruct Ht; by split|done].
  - destruct (tick_safe k b y k' H) as (Hs & E1 & E2). pose proof Hp as (Hsw & _).
    eapply safe_sys; eauto; congruence.
  - destruct (yield_inv false k p b (Hi0 p Hp) (proj1 (proj2 Hp))) as (k2 & E & Hi2 & Hs2 & _ & _ & _ & _ & Hq2).
    rewrite E in H. simplify_eq. apply (step_ok_sys k); [done|]. split_and!; try done.
    unfold inv. rewrite Hs2. by apply inv_weaken.
  - pose proof Hp as (Hsw & Hp1 & Hst). destruct (sleep_inv k p d (Hi0 p Hp) Hf Hp1) as (k2 & E & Hok); try done.
    { by left. } { by apply (Hr _ _ Hp1). }
    rewrite E in H. simplify_eq. by apply (step_ok_sys k).
  - destruct (wqs k !! q) as [l|] eqn:Hq; [|unfold wq_yield, wq_wait in H; by rewrite Hq in H].
    destruct (wq_yield_inv k q p l d Hi Hr Hp Hq Haw) as (k2 & E & Hok). rewrite E in H. simplify_eq. by apply (step_ok_sys k).
  - destruct (wakeone_frame k q t k' H (Hi0 p Hp) Hf) as (E1 & E2). pose proof Hp as (Hsw & _).
    apply (safe_sys k); [done|done|done|by eapply safe_wakeone|congruence|done].
  - destruct (wakeall_frame false k q k' (Hi0 p Hp) Hf H) as (E1 & E2 & _). pose proof Hp as (Hsw & _).
    apply (safe_sys k); [done|done|done|by eapply safe_wakeall|congruence|done].
  - apply (step_ok_sys k); [done|]. by eapply exit_current_inv.
  - destruct (collect_inv k p c r k' Hi Ht Hr Hp H) as (Hi' & Ht' & Hres). split_and!; try done.
    intros Hsw'. destruct r as [es|]; [|congruence]. by destruct Hres as (? & ? & _ & _ & _ & _ & _ & _ & _ & ?).
  - destruct (spawn_inv k p si proc e0 e tf r k' Hi Ht Hr Hp Hfr H0 H) as (Hi' & Ht' & Hrun' & _). by split_and!.
  - destruct (awaker_round_inv k p b k' Hi Ht Hr Hp Haw H) as (Hi' & Ht' & Hsw' & Hrun'). split_and!; try done.
    intros E. apply Hrun'. congruence.
  - destruct (delete_one_inv k t rest c Hi Ht Hcol Hc Hst Hun) as (k2 & E & Hi' & Ht' & Hp' & _ & Hs' & _).
    rewrite E in H. simplify_eq. split_and!; try done. intros _.
    destruct Hp as (Hsw & Hp1 & Hst1). exists p. split_and!; [congruence| |done].
    unfold delete_one in E. rewrite Hcol, Hc in E. cbn [mbind option_bind] in E. injection E as <-. simpl.
    rewrite lookup_delete_ne; [done|]. intros ->. congruence.
  - unfold inv in Hi. rewrite Hsw in Hi.
    destruct (schedule_spec k r1 r2 Hi Ht Hpr H1 H2 Htk) as (k2 & p & E & Hi' & Ht' & Hrun' & _).
    rewrite E in H. simplify_eq. split_and!; try done. by exists p.
Qed.

(** Runs in which the conditions of [booted] hold throughout. *)
Inductive reachable (k0 : kernel) : kernel -> Prop :=
  | reach_refl : reachable k0 k0
  | reach_step k k' : reachable k0 k -> booted k -> step k k' -> reachable k0 k'.

Lemma reachable_inv k0 k : sys_inv k0 -> reachable k0 k -> sys_inv k.
Proof. intros H0. induction 1 as [|k k' _ IH Hb Hs]; [done|]. by eapply step_inv. Qed.

(** ** The constructor of the process manager *)

(** [PM_GLOBAL] objects as they are before the constructor runs; the queues of the
    system tasks and of the first terminal exist. *)
Definition statics (ts : tasks_t) (tty_ fgq : Z) : kernel := {|
  procs := ∅; gReadyQueue := []; gSleepQueue := [];
  gProcessTable := ProcessTable.new gNumProcesses; gExitedProcesses := ProcessTable.new gNumProcesses;
  gCollectedProcessList := [];
  gPidBitmap := PidBitmap.new gNumProcesses; gGDTBitmap := PidBitmap.new gNumProcesses;
  wqs := <[awaker_queue ts := []]> (<[collector_queue ts := []]> (<[deleter_queue ts := []]> {[fgq := []]}));
  ttys := {[tty_ := mkTTY [] fgq]}; files := FsObject.mkState ∅ ∅;
  gCurrentProcess := 0; gNumCtxSwitches := 0; now := 0; k_switching := false; tasks := ts |}.

(** The loop that reserves the descriptors of the system. *)
Definition reserve_gdt (b : PidBitmap.bitmap) (num_reserved_gdt_selectors : nat) : PidBitmap.bitmap :=
  foldl PidBitmap.reserve b (seq 0 num_reserved_gdt_selectors).

(** The members of [gDummyProcess], with its state separate. *)
Definition dummy (cr3_ task0 stack tty_ : Z) (pid_ gdtidx_ : nat) (st : State) : process_t := {|
  pid := pid_; ppid := 0; gdtidx := gdtidx_;
  path := Some "kernel task"%string; args := None; cwd := "/"; environ := None;
  state := st;
  tss := mkTss cr3_ task0 0 (4096 + stack) 0x0b 0x13; espstart := 0; esp0start := 0;
  tty := tty_; fds := Handletable.new 64;
  priority := mkPriority 128 1 128 1; usedticks := 0;
  flags := mkFlags true false; runtimestats := mkStats 0 0;
  exitstatus := ofWord 0; children := [];
  sleeptill := 0; waitToken := 0; wakeReason := mkWake false 0 |}.

Definition boot (ts : tasks_t) (addr cr3_ task0 stack tty_ fgq : Z) (num_reserved_gdt_selectors : nat) : option kernel :=
  let k := statics ts tty_ fgq in
  let gdt := reserve_gdt (gGDTBitmap k) num_reserved_gdt_selectors in
  '(pid_, pids) ← PidBitmap.next gNumProcesses (gPidBitmap k);
  '(gdtidx_, gdts) ← PidBitmap.next gNumProcesses gdt;
  let k := with_bitmaps k pids gdts in
  let k := with_procs k {[addr := dummy cr3_ task0 stack tty_ pid_ gdtidx_ AVAILABLE]} in
  let k := with_cpu k addr 0 false in
  t ← ProcessTable.set (pid_of k) (gProcessTable k) (Some addr);
  Some (with_ready (with_table k t) (v_push_back (gReadyQueue k) addr)).

Lemma new_table_get {P} n i (x : option P) : ProcessTable.get (ProcessTable.new n) i = Some x -> x = None.
Proof. intros Hi. by apply lookup_replicate in Hi as [-> _]. Qed.

Lemma new_table_ok {P} (f : P -> nat) n : ProcessTable.ok f n (ProcessTable.new n).
Proof.
  split.
  - apply length_replicate.
  - intros i p Hi. by apply new_table_get in Hi.
  - cbn [ProcessTable.mTable ProcessTable.mSize ProcessTable.new]. by induction n.
Qed.

Lemma statics_tbl ts tty_ fgq : tbl (statics ts tty_ fgq).
Proof.
  split; unfold statics; cbn [procs gProcessTable gExitedProcesses gPidBitmap]; try done.
  - apply new_table_ok.
  - apply new_table_ok.
  - intros i t Hi. by apply new_table_get in Hi.
  - intros t. split; [by intros (p & Hp & _)|intros Hi; by apply new_table_get in Hi].
  - intros i t Hi. by apply new_table_get in Hi.
Qed.

Lemma boot_inv ts addr cr3_ task0 stack tty_ fgq n k :
  addr <> 0 -> boot ts addr cr3_ task0 stack tty_ fgq n = Some k -> sys_inv k /\ booted k.
Proof.
  intros Ha. unfold boot. intros ([p0 pids] & Hp & ([g gdts] & Hg & (t & Hs & [= <-])%bind_Some)%bind_Some)%bind_Some.
  set (d := dummy cr3_ task0 stack tty_ p0 g). set (k0 := statics ts tty_ fgq) in *.
  destruct (tbl_add k0 addr (d NEW) p0 pids gdts (statics_tbl ts tty_ fgq)) as (pt & Hset & Ht); [apply lookup_empty|exact Hp|reflexivity|reflexivity|].
  assert (pt = t) as ->.
  { apply (inj Some). rewrite <- Hset, <- Hs. unfold ProcessTable.set, pid_of. simpl.
    change (procs k0) with (∅ : gmap Z process_t). rewrite lookup_insert_eq. by rewrite lookup_singleton_eq. }
  split.
  - split_and!.
    + unfold inv, inv_x. simpl. split; simpl.
      * repeat constructor. by intros ?%not_elem_of_nil.
      * intros u ->%list_elem_of_singleton. exists (d AVAILABLE). split; [apply lookup_singleton_eq|by left].
      * intros u q [<- <-]%lookup_singleton_Some _. left.
      * by intros e ?%not_elem_of_nil.
      * intros q l e Hl He. assert (l = []) as ->; [|by apply not_elem_of_nil in He].
        rewrite !lookup_insert_Some, lookup_singleton_Some in Hl. clear -Hl.
        by destruct Hl as [[_ <-]|[_ [[_ <-]|[_ [[_ <-]|[_ [_ <-]]]]]]].
      * intros u q [<- <-]%lookup_singleton_Some. simpl. lia.
      * by rewrite lookup_singleton_ne.
      * by intros u q [<- <-]%lookup_singleton_Some _ ?.
      * by intros u q [<- <-]%lookup_singleton_Some _ ?.
    + eapply quiet_tbl; [|exact Ht].
      set (k1 := with_table _ t) in Ht |- *.
      assert (Hq : quiet k1 (with_ready (with_procs k1 (<[addr := d AVAILABLE]> (procs k1))) [addr])).
      { apply (quiet_put k1 addr (d NEW)); [simpl; apply lookup_insert_eq|done| |].
        - intros u Hu. simpl. rewrite list_elem_of_singleton. split; [done|by intros ?%not_elem_of_nil].
        - split; by intros [? _]. }
      etrans; [exact Hq|]. assert (E : <[addr := d AVAILABLE]> (procs k1) = {[addr := d AVAILABLE]}).
      { simpl. by rewrite insert_insert_eq. }
      rewrite E. by split.
    + intros _. exists (d AVAILABLE). split_and!; [done|apply lookup_singleton_eq|done].
  - split; simpl.
    + rewrite lookup_insert_eq. done.
    + intros u q. simpl. rewrite lookup_singleton_Some. intros [<- <-]. simpl. lia.
Qed.

End System.
