(* ===== verification/Synch.v ===== *)
(** * Semaphores, mutexes, events
    (kernel/src/synch/semaphore.cpp, mutex.cpp, event.cpp, waitobj.cpp)

    A blocking [wait] is cut at the points where it gives up the CPU: [*_wait] is
    the code from the head of the loop to the first yield or return, [*_resume]
    the code after the yield.  The kernel does not preempt kernel code, so each
    piece runs without interference and the pieces of different processes
    interleave.  Every object has its own wait queue. *)

From stdpp Require Import base numbers list gmap option.
From Stdlib Require Import ZArith Lia.
From S2P Require Import Prelude Vec PQueue Tables Files Kernel Lifecycle Sched Tasks Invariant.

Local Open Scope Z_scope.

(** What a piece of a blocking call ends with. *)
Inductive outcome := Done (ok : bool) | Blocked.

#[global] Instance outcome_eq_dec : EqDecision outcome.
Proof. solve_decision. Defined.

Module Semaphore.
Import Proc Kernel PM.

Record semaphore := mkSemaphore { mValue : Z; mMaxValue : Z; waitqueue : Z }.

Implicit Types (k : kernel) (s : semaphore).

Definition set_value s (v : Z) : semaphore := mkSemaphore v (mMaxValue s) (waitqueue s).
Definition set_max s (mv : Z) : semaphore := mkSemaphore (mValue s) mv (waitqueue s).

(** [__sync_bool_compare_and_swap(&mValue, v, v-1)] with [v] just read. *)
Definition take s : option semaphore :=
  if mValue s >? 0 then Some (set_value s (mValue s - 1)) else None.

(** The loop from its head, [wait] being true. *)
Definition wait k s (timeout : Z) : option (outcome * semaphore * kernel) :=
  if mValue s =? 0 then k ← wq_yield k (waitqueue s) timeout; Some (Blocked, s, k)
  else match take s with
       | Some s' => Some (Done true, s', k)
       | None => None
       end.

(** After the yield: a timeout ends the call; otherwise one more attempt, and
    another round only if there is a timeout. *)
Definition resume k s (timeout : Z) : option (outcome * semaphore * kernel) :=
  mine ← myWake k (waitqueue s);
  if negb mine then Some (Done false, s, k)
  else match take s with
       | Some s' => Some (Done true, s', k)
       | None => if timeout >? 0 then wait k s timeout else Some (Done false, s, k)
       end.

Definition signal k s : option (semaphore * kernel) :=
  k ← wakeall k (waitqueue s);
  let v := u32 (mValue s + 1) in
  Some (set_value s (if v >? mMaxValue s then mMaxValue s else v), k).

End Semaphore.

Module Mutex.
Import Proc Kernel PM.

Record mutex := mkMutex { mLocked : bool; mPid : nat; waitqueue : Z }.

Implicit Types (k : kernel) (m : mutex).

Definition dolock k m : option mutex :=
  p ← procs k !! gCurrentProcess k; Some (mkMutex true (pid p) (waitqueue m)).

Definition wait k m (timeout : Z) : option (outcome * mutex * kernel) :=
  if mLocked m then k ← wq_yield k (waitqueue m) timeout; Some (Blocked, m, k)
  else m ← dolock k m; Some (Done true, m, k).

(** After the yield: [wait = (timeout > 0)], then the loop from its head. *)
Definition resume k m (timeout : Z) : option (outcome * mutex * kernel) :=
  mine ← myWake k (waitqueue m);
  if negb mine then Some (Done false, m, k)
  else if mLocked m && negb (timeout >? 0) then Some (Done false, m, k)
  else wait k m timeout.

Definition trylock k m : option (bool * mutex) :=
  if mLocked m then Some (false, m) else m ← dolock k m; Some (true, m).

Definition unlock k m : option (mutex * kernel) :=
  p ← procs k !! gCurrentProcess k;
  if mLocked m && (mPid m =? pid p)%nat then
    k ← wakeall k (waitqueue m); Some (mkMutex false (mPid m) (waitqueue m), k)
  else Some (m, k).

End Mutex.

Module Event.
Import Proc Kernel PM.

Record event := mkEvent { mRaised : bool; waitqueue : Z }.

Implicit Types (k : kernel) (e : event).

Definition raise k e (level : bool) : option (event * kernel) :=
  let e := if level then mkEvent true (waitqueue e) else e in
  k ← wakeall k (waitqueue e); Some (e, k).

Definition lower e : event := mkEvent false (waitqueue e).

Definition wait k e (timeout : Z) : option (outcome * kernel) :=
  if mRaised e then Some (Done true, k)
  else k ← wq_yield k (waitqueue e) timeout; Some (Blocked, k).

Definition resume k e : option (outcome * kernel) :=
  mine ← myWake k (waitqueue e); Some (Done mine, k).

End Event.

Module SynchSpec.
Import Proc Kernel PM Sched Invariant.

Implicit Types k : kernel.

(** ** Runs of a mutex

    [holders] are the ids of the processes whose [wait] or [trylock] returned true
    and that have not unlocked since.  A run interleaves the pieces of the calls
    with anything that happens in the kernel meanwhile, as long as that adds
    nothing to the queue of the mutex. *)

Record mstate := mkM { m_kernel : kernel; m_mutex : Mutex.mutex; m_holders : list nat }.

Definition me k : nat := match procs k !! gCurrentProcess k with Some p => pid p | None => 0%nat end.

Definition acquired (o : outcome) k (h : list nat) : list nat :=
  match o with Done true => h ++ [me k] | _ => h end.

Inductive mstep : mstate -> mstate -> Prop :=
  | m_wait k m h t o m' k' :
      Mutex.wait k m t = Some (o, m', k') -> mstep (mkM k m h) (mkM k' m' (acquired o k h))
  | m_resume k m h t o m' k' :
      Mutex.resume k m t = Some (o, m', k') -> mstep (mkM k m h) (mkM k' m' (acquired o k h))
  | m_trylock k m h b m' :
      Mutex.trylock k m = Some (b, m') -> mstep (mkM k m h) (mkM k m' (acquired (Done b) k h))
  | m_unlock k m h m' k' :
      Mutex.unlock k m = Some (m', k') ->
      mstep (mkM k m h) (mkM k' m' (if Mutex.mLocked m && (Mutex.mPid m =? me k)%nat then [] else h))
  | m_kernel_step k m h k' :
      (forall l, wqs k !! Mutex.waitqueue m = Some l ->
         exists l', wqs k' !! Mutex.waitqueue m = Some l' /\ forall e, e ∈ l' -> e ∈ l) ->
      mstep (mkM k m h) (mkM k' m h).

(** Mutual exclusion, and no process is left in the queue of a free mutex. *)
Definition m_ok (s : mstate) : Prop :=
  m_holders s = (if Mutex.mLocked (m_mutex s) then [Mutex.mPid (m_mutex s)] else []).
Definition m_no_lost (s : mstate) : Prop :=
  Mutex.mLocked (m_mutex s) = false -> wqs (m_kernel s) !! Mutex.waitqueue (m_mutex s) = Some [].

Lemma wait_spec k m t o m' k' : Mutex.wait k m t = Some (o, m', k') ->
  Mutex.waitqueue m' = Mutex.waitqueue m /\
  ((Mutex.mLocked m = true /\ o = Blocked /\ m' = m /\ wq_yield k (Mutex.waitqueue m) t = Some k')
   \/ (Mutex.mLocked m = false /\ o = Done true /\ k' = k /\ m' = Mutex.mkMutex true (me k) (Mutex.waitqueue m))).
Proof.
  unfold Mutex.wait. destruct (Mutex.mLocked m).
  - intros (k1 & H & [= <- <- <-])%bind_Some. split; [done|]. by left.
  - intros (m1 & H & [= <- <- <-])%bind_Some. unfold Mutex.dolock in H. apply bind_Some in H as (p & Hp & [= <-]).
    split; [done|]. right. unfold me. by rewrite Hp.
Qed.

Lemma m_ok_wait k m h t o m' k' :
  m_ok (mkM k m h) -> Mutex.wait k m t = Some (o, m', k') -> m_ok (mkM k' m' (acquired o k h)).
Proof.
  intros Hok Hw. destruct (wait_spec _ _ _ _ _ _ Hw) as [_ [(Hl & -> & -> & _)|(Hl & -> & -> & ->)]];
    unfold m_ok in *; simpl in *; rewrite Hl in Hok; rewrite ?Hl; subst h; done.
Qed.

Lemma mstep_ok s s' : m_ok s -> mstep s s' -> m_ok s'.
Proof.
  intros Hok Hs. destruct Hs as [k m h t o m' k' H|k m h t o m' k' H|k m h b m' H|k m h m' k' H|k m h k' H].
  - by eapply m_ok_wait.
  - unfold Mutex.resume in H. apply bind_Some in H as (mine & _ & H).
    destruct (negb mine); [by simplify_eq|]. destruct (_ && _); [by simplify_eq|]. by eapply m_ok_wait.
  - unfold Mutex.trylock in H. destruct (Mutex.mLocked m) eqn:Hl; [by simplify_eq|].
    apply bind_Some in H as (m1 & H1 & [= <- <-]). unfold Mutex.dolock in H1. apply bind_Some in H1 as (p & Hp & [= <-]).
    unfold m_ok in *. simpl in *. rewrite Hl in Hok. subst h. unfold me. by rewrite Hp.
  - unfold Mutex.unlock in H. apply bind_Some in H as (p & Hp & H). unfold me. rewrite Hp.
    destruct (Mutex.mLocked m && (Mutex.mPid m =? pid p)%nat); [|by simplify_eq].
    by apply bind_Some in H as (k1 & _ & [= <- <-]).
  - done.
Qed.

Inductive mruns (s0 : mstate) : mstate -> Prop :=
  | mr_refl : mruns s0 s0
  | mr_step s s' : mruns s0 s -> mstep s s' -> mruns s0 s'.

Lemma mruns_ok s0 s : m_ok s0 -> mruns s0 s -> m_ok s.
Proof. intros H0. induction 1 as [|s s' _ IH Hs]; [done|]. by eapply mstep_ok. Qed.

(** The queue is emptied by [unlock] and grows only while the mutex is locked. *)
Lemma wakeall_empties k q k' :
  wakeall k q = Some k' -> inv_x false 0 k -> fresh k -> wqs k' !! q = Some [].
Proof.
  intros Hw Hi Hf. unfold wakeall in Hw. apply bind_Some in Hw as (l & Hq & Hw).
  destruct (wakeall_fuel_spec false (S (length l)) k q l Hi Hf Hq ltac:(lia)) as (E & _ & _).
  rewrite E in Hw. simplify_eq. simpl. apply lookup_insert_eq.
Qed.

Lemma mstep_no_lost s s' :
  inv_x false 0 (m_kernel s) -> fresh (m_kernel s) -> m_no_lost s -> mstep s s' -> m_no_lost s'.
Proof.
  intros Hi Hf Hok Hs. unfold m_no_lost in *.
  assert (Hw : forall k m t o m' k', Mutex.wait k m t = Some (o, m', k') -> Mutex.mLocked m' = true).
  { intros k m t o m' k' H. destruct (wait_spec _ _ _ _ _ _ H) as [_ [(? & _ & -> & _)|(_ & _ & _ & ->)]]; done. }
  destruct Hs as [k m h t o m' k' H|k m h t o m' k' H|k m h b m' H|k m h m' k' H|k m h k' H]; simpl in *.
  - apply Hw in H. congruence.
  - unfold Mutex.resume in H. apply bind_Some in H as (mine & _ & H).
    destruct (negb mine); [by simplify_eq|]. destruct (_ && _); [by simplify_eq|]. apply Hw in H. congruence.
  - unfold Mutex.trylock in H. destruct (Mutex.mLocked m) eqn:Hl; [simplify_eq; congruence|].
    apply bind_Some in H as (m1 & H1 & [= <- <-]). unfold Mutex.dolock in H1. by apply bind_Some in H1 as (p & Hp & [= <-]).
  - unfold Mutex.unlock in H. apply bind_Some in H as (p & Hp & H).
    destruct (Mutex.mLocked m && _) eqn:Hl; [|by simplify_eq].
    apply bind_Some in H as (k1 & Hw1 & [= <- <-]). intros _. simpl. by eapply wakeall_empties.
  - intros Hl. destruct (H _ (Hok Hl)) as (l' & Hl' & Hsub). rewrite Hl'. f_equal.
    destruct l' as [|e l']; [done|]. destruct (not_elem_of_nil e). apply Hsub. left.
Qed.

(** ** Semaphores *)

(** The value stays between 0 and the maximum (short of the largest 32-bit
    number, where the increment of [signal] would wrap to zero), and no process is left in the
    queue while a unit is available. *)
Record s_ok k (s : Semaphore.semaphore) : Prop := {
  so_range : 0 <= Semaphore.mValue s <= Semaphore.mMaxValue s;
  so_max : Semaphore.mMaxValue s < 2 ^ 32 - 1;
  so_queue : 0 < Semaphore.mValue s -> wqs k !! Semaphore.waitqueue s = Some [];
}.

Lemma sem_wait_spec k s t o s' k' :
  s_ok k s -> Semaphore.wait k s t = Some (o, s', k') ->
  (Semaphore.mValue s = 0 /\ o = Blocked /\ s' = s /\ wq_yield k (Semaphore.waitqueue s) t = Some k')
  \/ (0 < Semaphore.mValue s /\ o = Done true /\ k' = k /\ s' = Semaphore.set_value s (Semaphore.mValue s - 1)).
Proof.
  intros [Hr _ _]. unfold Semaphore.wait, Semaphore.take. destruct (Z.eqb_spec (Semaphore.mValue s) 0) as [E|E].
  - intros (k1 & H & [= <- <- <-])%bind_Some. by left.
  - rewrite Z.gtb_ltb. destruct (Z.ltb_spec 0 (Semaphore.mValue s)); [|done]. intros [= <- <- <-]. by right.
Qed.

Lemma sem_take_ok k s : s_ok k s -> 0 < Semaphore.mValue s -> s_ok k (Semaphore.set_value s (Semaphore.mValue s - 1)).
Proof. intros [Hr Hm Hq] Hp. split; simpl; [lia|done|]. intros _. by apply Hq. Qed.

Lemma sem_wait_ok k s t o s' k' : s_ok k s -> Semaphore.wait k s t = Some (o, s', k') -> s_ok k' s'.
Proof.
  intros Hok Hw. destruct (sem_wait_spec _ _ _ _ _ _ Hok Hw) as [(E & _ & -> & _)|(Hp & _ & -> & ->)].
  - destruct Hok as [Hr Hm _]. split; [done|done|lia].
  - by apply sem_take_ok.
Qed.

Lemma sem_resume_ok k s t o s' k' : s_ok k s -> Semaphore.resume k s t = Some (o, s', k') -> s_ok k' s'.
Proof.
  intros Hok. unfold Semaphore.resume. intros (mine & _ & H)%bind_Some. destruct (negb mine); [by simplify_eq|].
  unfold Semaphore.take in H. rewrite Z.gtb_ltb in H. destruct (Z.ltb_spec 0 (Semaphore.mValue s)).
  - simplify_eq. by apply sem_take_ok.
  - destruct (t >? 0); [by eapply sem_wait_ok|by simplify_eq].
Qed.

Lemma sem_signal_ok k s s' k' :
  s_ok k s -> inv_x false 0 k -> fresh k -> Semaphore.signal k s = Some (s', k') ->
  s_ok k' s' /\ Semaphore.mValue s' = Z.min (Semaphore.mValue s + 1) (Semaphore.mMaxValue s).
Proof.
  intros [Hr Hm Hq] Hi Hf. unfold Semaphore.signal. intros (k1 & Hw & [= <- <-])%bind_Some.
  assert (Hv : Semaphore.mValue (Semaphore.set_value s
    (if u32 (Semaphore.mValue s + 1) >? Semaphore.mMaxValue s then Semaphore.mMaxValue s else u32 (Semaphore.mValue s + 1)))
    = Z.min (Semaphore.mValue s + 1) (Semaphore.mMaxValue s)).
  { simpl. rewrite u32_id by (unfold is_u; lia). rewrite Z.gtb_ltb. destruct (Z.ltb_spec (Semaphore.mMaxValue s) (Semaphore.mValue s + 1)); lia. }
  split; [|done]. split; rewrite ?Hv; simpl; [lia|done|]. intros _. by eapply wakeall_empties.
Qed.

End SynchSpec.
