(* ===== verification/ProcessThms.v ===== *)
(** * Theorems about processes, scheduling and blocking

    The statements about kernel/src/process, kernel/src/tasks and
    kernel/src/synch, proved from the component files, with the small system
    [Demo] they are instantiated on. *)

From Stdlib Require Import String ZArith Lia Permutation.
From stdpp Require Import base numbers list gmap option.
From S2P Require Import Prelude Vec PQueue Tables Files Kernel Lifecycle Sched Tasks Invariant System Synch.

Local Open Scope Z_scope.

Import Proc Kernel PM Life Sched Tasks Invariant System.

Implicit Types k : kernel.

(** ** A small system to run the theorems on *)

Module Demo.

Lemma computed {A} (d : A) (o : option A) : match o with Some _ => true | None => false end = true -> o = Some (default d o).
Proof. by destruct o. Qed.

(** The queues of the awaker, the collector, the deleter and the terminal are at
    11 to 14; the collector is the process at 4096, which also plays init. *)
Definition ts : tasks_t := mkTasks 4096 4096 11 12 13.
Definition empty : kernel := statics ts 20 14.
Definition k0 : kernel := default empty (boot ts 4096 1 2 0 20 14 6).

Lemma k0_boot : boot ts 4096 1 2 0 20 14 6 = Some k0.
Proof. apply computed. vm_compute. reflexivity. Qed.

Definition si : spawninfo_t :=
  mkSpawn 5 6 (mkExecPriority 100 100) (mkExecPriority 3 10) 0 [] None "/" [] true false false.

(** A second process, started by the first one. *)
Definition k1 : kernel := (default (None, empty) (spawn k0 si (8192, 12288, 16384) 9000)).2.

Lemma spawned (t : Z) (d : option Z * kernel) o :
  match o with Some (Some t', _) => t' =? t | _ => false end = true -> o = Some (Some t, (default d o).2).
Proof. destruct o as [[[t'|] k]|]; [|done|done]. by intros ->%Z.eqb_eq. Qed.

Lemma k1_spawn : spawn k0 si (8192, 12288, 16384) 9000 = Some (Some 8192, k1).
Proof. apply spawned. vm_compute. reflexivity. Qed.

(** The first one waits on the terminal's queue, and the second one runs. *)
Definition k2 : kernel := default empty (wq_yield k1 14 0).
Lemma k2_wait : wq_yield k1 14 0 = Some k2.
Proof. apply computed. vm_compute. reflexivity. Qed.

Definition k3 : kernel := default empty (schedule k2 3 0).
Lemma k3_schedule : schedule k2 3 0 = Some k3.
Proof. apply computed. vm_compute. reflexivity. Qed.

(** Decidable versions of the side conditions of the steps. *)
Definition all_procs (f : process_t -> bool) k : bool := forallb (fun x => f x.2) (map_to_list (procs k)).

Lemma all_procs_spec f k t p : all_procs f k = true -> procs k !! t = Some p -> f p = true.
Proof.
  unfold all_procs. rewrite forallb_forall. intros H Hp. apply (H (t, p)), list_elem_of_In, elem_of_map_to_list, Hp.
Qed.

Lemma roomy_dec k : all_procs (fun p => waitToken p + 1 <? 2 ^ 64) k = true -> roomy k.
Proof. intros H t p Hp. apply Z.ltb_lt. by eapply (all_procs_spec (fun p => waitToken p + 1 <? 2 ^ 64)). Qed.

Lemma prices_dec k : all_procs (fun p => 0 <=? scheduling_current (priority p)) k = true -> prices_ok k.
Proof. intros H t p Hp. apply Z.leb_le. by eapply (all_procs_spec (fun p => 0 <=? scheduling_current (priority p))). Qed.

Definition cur k : process_t := default Proc.new (procs k !! gCurrentProcess k).

Lemma running_dec k :
  k_switching k = false -> bool_decide (is_Some (procs k !! gCurrentProcess k)) = true ->
  bool_decide (state (cur k) = AVAILABLE) = true -> running k (cur k).
Proof.
  intros Hs Hp Ha. apply bool_decide_eq_true in Hp as [p Hp]. apply bool_decide_eq_true in Ha.
  unfold cur in *. rewrite Hp in *. by split_and!.
Qed.

Lemma booted_dec k : bool_decide (is_Some (wqs k !! awaker_queue (tasks k))) = true ->
  all_procs (fun p => waitToken p + 1 <? 2 ^ 64) k = true -> booted k.
Proof. intros Hq Hr. split; [by apply bool_decide_eq_true in Hq|by apply roomy_dec]. Qed.

Ltac compute_fact := vm_compute; reflexivity.

Lemma k0_running : running k0 (cur k0).
Proof. apply running_dec; compute_fact. Qed.
Lemma k1_running : running k1 (cur k1).
Proof. apply running_dec; compute_fact. Qed.
Lemma k3_running : running k3 (cur k3).
Proof. apply running_dec; compute_fact. Qed.

Lemma k3_reachable : reachable k0 k3.
Proof.
  apply reach_step with k2; [apply reach_step with k1; [apply reach_step with k0; [constructor| |]| |]| |].
  - apply booted_dec; compute_fact.
  - eapply (step_spawn k0 (cur k0) si 8192 12288 16384 9000); [apply k0_running| |done|apply k1_spawn].
    apply eq_None_not_Some, (bool_decide_eq_false_1 (is_Some (procs k0 !! 8192))). compute_fact.
  - apply booted_dec; compute_fact.
  - eapply (step_wait k1 (cur k1) 14 0); [apply k1_running|apply k2_wait].
  - apply booted_dec; compute_fact.
  - eapply (step_schedule k2 3 0); [compute_fact|apply prices_dec; compute_fact|unfold is_u; lia|unfold is_u; lia| |apply k3_schedule].
    split; [apply Z.gtb_lt|apply Z.ltb_lt]; compute_fact.
Qed.

Lemma k3_inv : sys_inv k3 /\ booted k3.
Proof.
  split; [|apply booted_dec; compute_fact].
  apply (reachable_inv k0); [|apply k3_reachable].
  exact (proj1 (boot_inv ts 4096 1 2 0 20 14 6 k0 ltac:(discriminate) k0_boot)).
Qed.

Lemma k3_inv_x : inv_x false 0 k3.
Proof. destruct k3_inv as [(Hi & _) _]. unfold inv in Hi. assert (E : k_switching k3 = false) by compute_fact. rewrite E in Hi. exact Hi. Qed.

(** One more step of a run, with its side conditions computed. *)
Lemma run_yield k k' : reachable k0 k -> booted k -> running k (cur k) -> yield k false = Some k' -> reachable k0 k'.
Proof. intros Hr Hb Hp H. eapply reach_step; [exact Hr|exact Hb|]. eapply step_yield; [exact Hp|exact H]. Qed.
Lemma run_wait k q d k' : reachable k0 k -> booted k -> running k (cur k) -> wq_yield k q d = Some k' -> reachable k0 k'.
Proof. intros Hr Hb Hp H. eapply reach_step; [exact Hr|exact Hb|]. eapply step_wait; [exact Hp|exact H]. Qed.
Lemma run_sleep k d k' : reachable k0 k -> booted k -> running k (cur k) -> sleep k d = Some k' -> reachable k0 k'.
Proof. intros Hr Hb Hp H. eapply reach_step; [exact Hr|exact Hb|]. eapply step_sleep; [exact Hp|exact H]. Qed.
Lemma run_wakeall k q k' : reachable k0 k -> booted k -> running k (cur k) -> wakeall k q = Some k' -> reachable k0 k'.
Proof. intros Hr Hb Hp H. eapply reach_step; [exact Hr|exact Hb|]. eapply step_wakeall; [exact Hp|exact H]. Qed.
Lemma run_exit k es k' : reachable k0 k -> booted k -> running k (cur k) -> exit_current k es = Some k' -> reachable k0 k'.
Proof. intros Hr Hb Hp H. eapply reach_step; [exact Hr|exact Hb|]. eapply step_exit; [exact Hp|exact H]. Qed.
Lemma run_schedule k r k' : reachable k0 k -> booted k -> k_switching k = true ->
  all_procs (fun p => 0 <=? scheduling_current (priority p)) k = true -> is_u32 r ->
  (0 <? tickets (procs k) (gReadyQueue k)) && (tickets (procs k) (gReadyQueue k) <? 2 ^ 64) = true ->
  schedule k r 0 = Some k' -> reachable k0 k'.
Proof.
  intros Hr Hb Hs Hp Hu Ht H. eapply reach_step; [exact Hr|exact Hb|].
  apply andb_true_iff in Ht as [H1%Z.ltb_lt H2%Z.ltb_lt].
  eapply (step_schedule k r 0); [exact Hs|apply prices_dec; exact Hp|exact Hu|unfold is_u; lia|lia|exact H].
Qed.

Lemma u32_0 : is_u32 0.
Proof. unfold is_u. lia. Qed.
Lemma u32_3 : is_u32 3.
Proof. unfold is_u. lia. Qed.

Ltac step_facts :=
  lazymatch goal with
  | |- is_u32 0 => exact u32_0
  | |- is_u32 3 => exact u32_3
  | |- booted _ => apply booted_dec; vm_compute; reflexivity
  | |- running _ _ => apply running_dec; vm_compute; reflexivity
  | |- _ = Some _ => apply computed; vm_compute; reflexivity
  | |- _ => vm_compute; reflexivity
  end.

Lemma k1_reachable : reachable k0 k1.
Proof.
  eapply reach_step; [constructor|apply booted_dec; compute_fact|].
  eapply (step_spawn k0 (cur k0) si 8192 12288 16384 9000); [exact k0_running| |discriminate|exact k1_spawn].
  apply eq_None_not_Some, (bool_decide_eq_false_1 (is_Some (procs k0 !! 8192))). compute_fact.
Qed.

(** The second process exits, and the first one runs and finds it dead. *)
Definition k4 : kernel := default empty (exit_current k3 (mkStatus 1 42)).
Definition k5 : kernel := default empty (schedule k4 0 0).
Lemma k5_reachable : reachable k0 k5.
Proof.
  eapply (run_schedule k4 0); [eapply (run_exit k3 (mkStatus 1 42)); [exact k3_reachable|..]|..]; step_facts.
Qed.

Definition k6 : kernel := (default (None, empty) (collect k5 1)).2.

(** The first process sleeps for 10 ms, and at 100 ms it is due. *)
Definition a1 : kernel := default empty (sleep k1 10).
Definition a2 : kernel := default empty (schedule a1 0 0).
Definition a3 : kernel := with_now a2 100.
Lemma a3_reachable : reachable k0 a3.
Proof.
  apply reach_step with a2; [|apply booted_dec; compute_fact|exact (step_time a2 100 ltac:(apply Z.leb_le; compute_fact))].
  eapply (run_schedule a1 0); [eapply (run_sleep k1 10); [exact k1_reachable|..]|..]; step_facts.
Qed.

(** A wait with a timeout that ends by a wake-up leaves its sleep entry behind. *)
Definition b1 : kernel := default empty (wq_yield k1 14 10).
Definition b2 : kernel := default empty (schedule b1 0 0).
Definition b3 : kernel := default empty (wakeall b2 14).
Definition b4 : kernel := with_now b3 100.

(** The same for the second process, which exits afterwards. *)
Definition c1 : kernel := default empty (yield k1 false).
Definition c2 : kernel := default empty (schedule c1 3 0).
Definition c3 : kernel := default empty (wq_yield c2 14 10).
Definition c4 : kernel := default empty (schedule c3 0 0).
Definition c5 : kernel := default empty (wakeall c4 14).
Definition c6 : kernel := default empty (yield c5 false).
Definition c7 : kernel := default empty (schedule c6 3 0).
Definition c8 : kernel := default empty (exit_current c7 (mkStatus 1 0)).
Definition c9 : kernel := default empty (schedule c8 0 0).

Lemma c4_reachable : reachable k0 c4.
Proof.
  eapply (run_schedule c3 0); [eapply (run_wait c2 14 10); [eapply (run_schedule c1 3);
    [eapply (run_yield k1); [exact k1_reachable|..]|..]|..]|..]; step_facts.
Qed.
Lemma c9_reachable : reachable k0 c9.
Proof.
  eapply (run_schedule c8 0); [eapply (run_exit c7 (mkStatus 1 0)); [eapply (run_schedule c6 3);
    [eapply (run_yield c5); [eapply (run_wakeall c4 14); [exact c4_reachable|..]|..]|..]|..]|..]; step_facts.
Qed.

Lemma reachable_sys k : reachable k0 k -> sys_inv k.
Proof. apply reachable_inv. exact (proj1 (boot_inv ts 4096 1 2 0 20 14 6 k0 ltac:(discriminate) k0_boot)). Qed.

Lemma reachable_inv_x k b : reachable k0 k -> k_switching k = b -> inv_x b 0 k.
Proof. intros Hr <-. exact (proj1 (reachable_sys k Hr)). Qed.

Lemma reachable_tbl k : reachable k0 k -> tbl k.
Proof. intros Hr. exact (proj1 (proj2 (reachable_sys k Hr))). Qed.

End Demo.

(** ** The process system *)





(** [wakeall] empties the queue, makes available exactly the processes that
    wait with a current entry in it, in the order of their entries, and changes no
    other process. *)
Theorem wakeall_wakes_waiters k q l :
  inv_x false 0 k -> fresh k -> wqs k !! q = Some l ->
  exists k' woken, wakeall k q = Some k' /\ wqs k' !! q = Some []
    /\ gReadyQueue k' = gReadyQueue k ++ woken /\ sublist woken (process <$> l)
    /\ (forall t, t ∈ woken <-> exists e, e ∈ l /\ process e = t /\ current (procs k) e)
    /\ (forall t p, procs k !! t = Some p ->
          procs k' !! t = Some (if decide (t ∈ woken) then woke (mkWake false q) p else p)).
Proof.
  intros Hi Hf Hq. destruct (wakeall_spec false k q l Hi Hf Hq) as (E & _ & _).
  destruct (take_all_ready k q l) as (woken & Hrq & Hsub & Hin).
  assert (Hw : forall t, woken_by (procs k) l t = true <-> exists e, e ∈ l /\ process e = t /\ current (procs k) e).
  { intros t. unfold woken_by. rewrite existsb_exists. setoid_rewrite andb_true_iff. setoid_rewrite Z.eqb_eq.
    setoid_rewrite wakes_current. setoid_rewrite <- list_elem_of_In. naive_solver. }
  exists (set_wq (take_all k q l) q []), woken. split_and!; try done.
  - simpl. apply lookup_insert_eq.
  - intros t. by rewrite Hin, Hw.
  - intros t p Hp. simpl. rewrite take_all_procs, Hp. simpl. f_equal.
    case_decide as Ht; [apply Hin in Ht; by rewrite Ht|].
    destruct (woken_by (procs k) l t) eqn:E'; [|done]. by apply Hin in E'.
Qed.

(** [wakeone] wakes the first entry of the queue whose process still waits with
    that token, drops the entries before it as stale and keeps the ones after it;
    with no such entry it returns null and the queue is empty. *)
Theorem wakeone_first_waiter k q l :
  inv_x false 0 k -> fresh k -> wqs k !! q = Some l ->
  exists t k', wakeone k q = Some (t, k') /\
    ((exists l1 e l2, l = l1 ++ e :: l2 /\ process e = t /\ current (procs k) e
        /\ Forall (fun e => ~ current (procs k) e) l1 /\ wqs k' !! q = Some l2
        /\ gReadyQueue k' = gReadyQueue k ++ [t])
     \/ (t = 0 /\ Forall (fun e => ~ current (procs k) e) l /\ wqs k' !! q = Some [] /\ procs k' = procs k)).
Proof.
  intros Hi Hf Hq. unfold wakeone. rewrite Hq. cbn [mbind option_bind].
  pose proof (wakeone_fuel_spec false (S (length l)) k q l Hi Hf Hq ltac:(lia)) as H.
  destruct (first_live (procs k) l) as [[i e]|] eqn:E; destruct H as (Hw & _ & _); eexists _, _; (split; [exact Hw|]).
  - left. apply list_find_Some in E as (Hl & He & Hb). exists (take i l), e, (drop (S i) l).
    pose proof (proj1 (wakes_current (procs k) e) He) as Hc. split_and!; try done.
    + symmetry. by apply take_drop_middle.
    + apply list.Forall_forall. intros e' (j & Hj)%list_elem_of_lookup Hc'. apply lookup_take_Some in Hj as [Hj Hlt].
      apply (Hb j e' Hj Hlt). by apply wakes_current.
    + simpl. apply lookup_insert_eq.
    + simpl. unfold take_entry. destruct Hc as (p & Hp & _). by rewrite Hp, He.
  - right. apply list_find_None in E. split_and!; try done.
    + eapply list.Forall_impl; [exact E|]. intros e He Hc. apply He. by apply wakes_current.
    + simpl. apply lookup_insert_eq.
Qed.

Lemma wakeall_wakes_waiters_witness :
  exists k' woken, wakeall Demo.k3 14 = Some k' /\ wqs k' !! 14 = Some [] /\ gReadyQueue k' = gReadyQueue Demo.k3 ++ woken.
Proof.
  destruct (wakeall_wakes_waiters Demo.k3 14 (default [] (wqs Demo.k3 !! 14)))
    as (k' & woken & H1 & H2 & H3 & _);
    [exact Demo.k3_inv_x|exact (roomy_fresh _ (proj2 (proj2 Demo.k3_inv)))|apply Demo.computed; vm_compute; reflexivity|].
  exists k', woken. exact (conj H1 (conj H2 H3)).
Defined.

Lemma wakeone_first_waiter_witness : exists t k', wakeone Demo.k3 14 = Some (t, k').
Proof.
  destruct (wakeone_first_waiter Demo.k3 14 (default [] (wqs Demo.k3 !! 14))) as (t & k' & H & _);
    [exact Demo.k3_inv_x|exact (roomy_fresh _ (proj2 (proj2 Demo.k3_inv)))|apply Demo.computed; vm_compute; reflexivity|].
  exists t, k'. exact H.
Defined.

(** ** Scheduler *)

(** C27: when some process has a ticket, one round of the scheduler does not panic,
    whatever the generator returned: it buries the processes that have exited and
    gives the CPU to a process of the ready queue that is available. *)
Theorem schedule_runs_ready k r1 r2 :
  inv_x true 0 k -> tbl k -> prices_ok k -> is_u32 r1 -> is_u32 r2 ->
  0 < tickets (procs k) (gReadyQueue k) < 2 ^ 64 ->
  exists k' p, schedule k r1 r2 = Some k' /\ inv k' /\ tbl k' /\ running k' p
    /\ gCurrentProcess k' ∈ gReadyQueue k.
Proof. exact (schedule_spec k r1 r2). Qed.

Lemma schedule_runs_ready_witness : exists k' p, schedule Demo.k4 0 3 = Some k' /\ running k' p.
Proof.
  assert (Hr : reachable Demo.k0 Demo.k4)
    by (eapply (Demo.run_exit Demo.k3 (mkStatus 1 42)); [exact Demo.k3_reachable|..]; Demo.step_facts).
  destruct (schedule_runs_ready Demo.k4 0 3) as (k' & p & H & _ & _ & Hrun & _).
  - apply Demo.reachable_inv_x; [exact Hr|vm_compute; reflexivity].
  - apply Demo.reachable_tbl. exact Hr.
  - apply Demo.prices_dec. vm_compute. reflexivity.
  - exact Demo.u32_0.
  - exact Demo.u32_3.
  - split; [apply Z.ltb_lt|apply Z.ltb_lt]; vm_compute; reflexivity.
  - exists k', p. exact (conj H Hrun).
Defined.

Lemma tickets_app ps l1 l2 : tickets ps (l1 ++ l2) = tickets ps l1 + tickets ps l2.
Proof.
  induction l1 as [|t l1 IH]; [done|]. simpl. destruct (ps !! t); rewrite IH; [|done]. case_decide; lia.
Qed.

(** the ticket of the last process of the ready queue is never drawn.  The
    winner is the first process whose running count reaches a number below the
    total, so with the comparison [>=] the first process wins one number more than
    it has tickets, and a last process with a single ticket is never chosen. *)
Theorem lottery_last_ticket_never_wins ps l t p w :
  NoDup (l ++ [t]) -> l <> [] ->
  (forall u, u ∈ l ++ [t] -> exists p, ps !! u = Some p /\ state p = AVAILABLE) ->
  (forall u p, ps !! u = Some p -> 0 <= scheduling_current (priority p)) ->
  ps !! t = Some p -> scheduling_current (priority p) = 1 ->
  tickets ps (l ++ [t]) < 2 ^ 64 -> 0 <= w < tickets ps (l ++ [t]) ->
  pick ps (l ++ [t]) 0 w <> Some t.
Proof.
  intros Hnd Hl Hav Hpos Hp H1 Ht Hw Hpick.
  destruct (pick_spec ps (l ++ [t]) 0 w Hav Hpos) as (l1 & u & l2 & p' & Hpick' & Heq & Hu & Hlow & _); try lia.
  { by destruct l. }
  assert (u = t) as -> by congruence. assert (l1 = l /\ l2 = []) as [-> ->].
  { clear -Hnd Heq. assert (Hn1 : t ∉ l) by (apply list.NoDup_app in Hnd as (_ & H & _); intros Hin; apply (H t Hin); left).
    clear Hnd. revert l1 Heq. induction l as [|x l IH]; intros l1 Heq.
    - destruct l1 as [|y l1]; [by simplify_eq/=|]. exfalso. injection Heq as _ Heq. by destruct l1.
    - destruct l1 as [|y l1]; [exfalso; injection Heq as -> _; apply Hn1; left|].
      injection Heq as -> Heq. apply not_elem_of_cons in Hn1 as [_ Hn1].
      destruct (IH Hn1 l1 Heq) as [-> ->]. done. }
  destruct Hlow as [->|Hlow]; [done|]. rewrite tickets_app in Hw. simpl in Hw.
  rewrite Hp in Hw. destruct (Hav t) as (p2 & Hp2 & Hst); [apply elem_of_app; right; left|].
  assert (p2 = p) as -> by congruence. rewrite decide_True in Hw by done. lia.
Qed.

Lemma lottery_last_ticket_never_wins_witness :
  pick (<[1 := set_state AVAILABLE (set_priority (mkPriority 1 1 1 1) Proc.new)]>
        {[2 := set_state AVAILABLE (set_priority (mkPriority 1 1 1 1) Proc.new)]}) ([1] ++ [2]) 0 1 <> Some 2.
Proof.
  apply (lottery_last_ticket_never_wins _ [1] 2 (set_state AVAILABLE (set_priority (mkPriority 1 1 1 1) Proc.new)) 1).
  - apply (bool_decide_eq_true_1 (NoDup ([1] ++ [2]))). vm_compute. reflexivity.
  - discriminate.
  - intros u Hu. exists (set_state AVAILABLE (set_priority (mkPriority 1 1 1 1) Proc.new)).
    apply elem_of_cons in Hu as [->|Hu]; [split; [apply lookup_insert_eq|reflexivity]|].
    apply list_elem_of_singleton in Hu as ->. split; [reflexivity|reflexivity].
  - intros u p Hp. apply lookup_insert_Some in Hp as [[_ <-]|[_ Hp]]; [simpl; lia|].
    apply lookup_singleton_Some in Hp as [_ <-]. simpl. lia.
  - reflexivity.
  - reflexivity.
  - vm_compute. reflexivity.
  - vm_compute. split; [intros H; discriminate H|reflexivity].
Defined.

(** ** Awaker *)

(** when the first entry of the sleep queue is due and its token is the
    process's own, the round of the awaker takes it off the queue and makes the
    process available with a timeout as its wake reason. *)
Theorem awaker_wakes_due k e sq p :
  inv_x false 0 k -> fresh k -> gSleepQueue k = e :: sq -> procs k !! process e = Some p ->
  sleeptill p <= now k -> waitToken p = token e ->
  exists k', awaker_round k = Some (false, k') /\ inv_x false 0 k'
    /\ procs k' = <[process e := woke (mkWake true 0) p]> (procs k) /\ process e ∈ gReadyQueue k'
    /\ gSleepQueue k' ≡ₚ sq.
Proof.
  intros Hi Hf Hs Hp Hn Ht. destruct (awaker_due k e sq p Hi Hf Hs Hp Hn Ht) as (k' & H & Hi' & _ & _ & Hp' & Hr & Hsq & _).
  by exists k'.
Qed.

Definition first_sleeper k : qentry := default (mkEntry 0 0) (list.head (gSleepQueue k)).
Definition sleeper k : process_t := default Proc.new (procs k !! process (first_sleeper k)).

Lemma first_sleeper_head k : gSleepQueue k <> [] -> gSleepQueue k = first_sleeper k :: list.tail (gSleepQueue k).
Proof. unfold first_sleeper. by destruct (gSleepQueue k). Qed.

Ltac sleeper_facts :=
  lazymatch goal with
  | |- gSleepQueue _ = _ => apply first_sleeper_head; let H := fresh in intros H; vm_compute in H; discriminate H
  | |- _ = Some _ => apply Demo.computed; vm_compute; reflexivity
  | |- _ <= _ => apply Z.leb_le; vm_compute; reflexivity
  | |- _ <> _ => let H := fresh in intros H; vm_compute in H; discriminate H
  | |- _ => vm_compute; reflexivity
  end.

Lemma awaker_wakes_due_witness : exists k', awaker_round Demo.a3 = Some (false, k').
Proof.
  destruct (awaker_wakes_due Demo.a3 (first_sleeper Demo.a3) (list.tail (gSleepQueue Demo.a3)) (sleeper Demo.a3))
    as (k' & H & _).
  - apply Demo.reachable_inv_x; [exact Demo.a3_reachable|vm_compute; reflexivity].
  - apply roomy_fresh, Demo.roomy_dec. vm_compute. reflexivity.
  - sleeper_facts.
  - sleeper_facts.
  - sleeper_facts.
  - sleeper_facts.
  - exists k'. exact H.
Defined.

(** an entry of the sleep queue that a wake-up has made stale is never taken
    off by the awaker: once it is due, the round leaves the state as it is, so the
    loop of the task goes around it forever without giving up the CPU. *)
Theorem awaker_spins_on_stale_entry k e sq p :
  gSleepQueue k = e :: sq -> procs k !! process e = Some p -> state p <> EXITED ->
  sleeptill p <= now k -> waitToken p <> token e -> awaker_round k = Some (false, k).
Proof.
  intros Hs Hp Hst Hn Ht. unfold awaker_round. rewrite Hs.
  assert (PQueue.top (V := list) (e :: sq) = Some e) as -> by reflexivity. cbn [mbind option_bind].
  rewrite Hp. cbn [mbind option_bind]. rewrite decide_False by done.
  destruct (Z.leb_spec (sleeptill p) (now k)); [|lia]. destruct (Z.eqb_spec (waitToken p) (token e)); [done|]. done.
Qed.

Lemma awaker_spins_on_stale_entry_witness : awaker_round Demo.b4 = Some (false, Demo.b4).
Proof.
  apply (awaker_spins_on_stale_entry Demo.b4 (first_sleeper Demo.b4) (list.tail (gSleepQueue Demo.b4)) (sleeper Demo.b4));
    sleeper_facts.
Defined.

(** an entry of a process that has exited makes the awaker panic, since the
    scheduler already put that process into the table of exited processes and the
    awaker tries to enter it a second time. *)
Theorem awaker_panics_on_exited k e sq p :
  inv_x false 0 k -> tbl k -> gSleepQueue k = e :: sq -> procs k !! process e = Some p -> state p = EXITED ->
  awaker_round k = None.
Proof. exact (awaker_exited k e sq p). Qed.

Lemma awaker_panics_on_exited_witness : awaker_round Demo.c9 = None.
Proof.
  apply (awaker_panics_on_exited Demo.c9 (first_sleeper Demo.c9) (list.tail (gSleepQueue Demo.c9)) (sleeper Demo.c9)).
  - apply Demo.reachable_inv_x; [exact Demo.c9_reachable|vm_compute; reflexivity].
  - exact (Demo.reachable_tbl _ Demo.c9_reachable).
  - sleeper_facts.
  - sleeper_facts.
  - sleeper_facts.
Defined.

(** ** Life of a process *)

(** [spawn] either refuses the request, and then nothing has changed, or
    creates a process that is a child of the caller under an id that no process
    had, is found under it, and is available if it was to be scheduled. *)
Theorem spawn_creates_child k p si proc e0 e tf r k' :
  inv k -> tbl k -> roomy k -> running k p -> procs k !! proc = None -> proc <> 0 ->
  spawn k si (proc, e0, e) tf = Some (r, k') ->
  inv k' /\ tbl k' /\
  match r with
  | None => k' = k /\ refused p si = true
  | Some t => t = proc /\ refused p si = false /\ exists c, procs k' !! proc = Some c
      /\ ppid c = pid p /\ state c = (if si_schedulable si then AVAILABLE else NEW)
      /\ getprocess k' (pid c) = Some proc /\ PidBitmap.used (gPidBitmap k) (pid c) = false
  end.
Proof.
  intros Hi Ht Hr Hrun Hn H0 H.
  destruct (spawn_inv k p si proc e0 e tf r k' Hi Ht Hr Hrun Hn H0 H) as (Hi' & Ht' & _ & Hres).
  split_and!; try done. destruct r as [t|]; [|done]. destruct Hres as (E & Hre & c & Hc & H1 & H2 & H3 & _ & _ & _ & H4).
  split_and!; try done. by exists c.
Qed.

Lemma free_slot_dec k t : bool_decide (is_Some (procs k !! t)) = false -> procs k !! t = None.
Proof. intros H. apply eq_None_not_Some. by apply bool_decide_eq_false_1 in H. Qed.

Lemma spawn_creates_child_witness : exists c, procs Demo.k1 !! 8192 = Some c /\ state c = AVAILABLE.
Proof.
  pose proof (boot_inv Demo.ts 4096 1 2 0 20 14 6 Demo.k0 ltac:(discriminate) Demo.k0_boot) as [(Hi & Ht & _) [_ Hr]].
  destruct (spawn_creates_child Demo.k0 (Demo.cur Demo.k0) Demo.si 8192 12288 16384 9000 (Some 8192) Demo.k1
    Hi Ht Hr Demo.k0_running) as (_ & _ & _ & _ & c & Hc & _ & Hst & _).
  - apply free_slot_dec. vm_compute. reflexivity.
  - discriminate.
  - exact Demo.k1_spawn.
  - exists c. exact (conj Hc Hst).
Defined.

(** C35: no privilege escalation.  A process that is not a system process and calls
    [exec] gets, if anything, a child that is not a system process, whose maximal
    priorities are its own and whose current priorities do not exceed them. *)
Theorem exec_no_escalation k p new_cr3 loader path_ args_ env flags_ prio argp fops proc e0 e tf t k' :
  inv k -> tbl k -> roomy k -> running k p -> procs k !! proc = None -> proc <> 0 ->
  system p = false ->
  exec k new_cr3 loader path_ args_ env flags_ prio argp fops (proc, e0, e) tf = Some (Some t, k') ->
  exists c, procs k' !! t = Some c /\ system c = false
    /\ quantum_max (priority c) = quantum_max (priority p) /\ scheduling_max (priority c) = scheduling_max (priority p)
    /\ quantum_current (priority c) <= quantum_max (priority p)
    /\ scheduling_current (priority c) <= scheduling_max (priority p).
Proof.
  intros Hi Ht Hr Hrun Hn H0 Hsys. pose proof Hrun as (_ & Hp & _). unfold exec. rewrite Hp. cbn [mbind option_bind].
  intros ([r k1] & Hs & H)%bind_Some.
  destruct (spawn_inv k p _ proc e0 e tf r k1 Hi Ht Hr Hrun Hn H0 Hs) as (_ & _ & _ & Hres).
  destruct r as [t'|]; [|by destruct args_].
  destruct Hres as (-> & Href & c & Hc & _ & _ & _ & _ & Hcs & Hcp & _).
  assert (Hin : quantum prio <= quantum_max (priority p) /\ scheduling prio <= scheduling_max (priority p)).
  { unfold refused, out_of_range in Href. rewrite Hsys in Href. simpl in Href. bool_to_prop. lia. }
  assert (Hc' : exists c', procs k' !! t = Some c' /\ system c' = system c /\ priority c' = priority c).
  { destruct args_ as [a|]; [|injection H as <- <-; by exists c].
    apply bind_Some in H as (k2 & H2 & [= <- <-]). apply upd_spec in H2 as (c' & Hc' & ->).
    assert (c' = c) as -> by congruence. exists (set_args (Some a) c). simpl. by rewrite lookup_insert_eq. }
  destruct Hc' as (c' & Hc'' & Es & Ep). exists c'. rewrite Es, Ep, Hcs, Hcp. simpl.
  split_and!; try done; try apply Hin. rewrite Hsys. by destruct (negb _).
Qed.

(** The second process of the demo runs, and starts a third one. *)
Definition exec_k : kernel :=
  (default (None, Demo.empty)
     (exec Demo.k3 7 8 "/initrd/sh" None [] 8 (mkExecPriority 2 5) 0 [] (20480, 24576, 28672) 9500)).2.

Lemma exec_k_spec :
  exec Demo.k3 7 8 "/initrd/sh" None [] 8 (mkExecPriority 2 5) 0 [] (20480, 24576, 28672) 9500 = Some (Some 20480, exec_k).
Proof. apply Demo.spawned. vm_compute. reflexivity. Qed.

Lemma exec_no_escalation_witness : exists c, procs exec_k !! 20480 = Some c /\ system c = false.
Proof.
  destruct Demo.k3_inv as [(Hi & Ht & _) [_ Hr]].
  destruct (exec_no_escalation Demo.k3 (Demo.cur Demo.k3) 7 8 "/initrd/sh" None [] 8 (mkExecPriority 2 5) 0 []
    20480 24576 28672 9500 20480 exec_k Hi Ht Hr Demo.k3_running) as (c & Hc & Hs & _).
  - apply free_slot_dec. vm_compute. reflexivity.
  - discriminate.
  - vm_compute. reflexivity.
  - exact exec_k_spec.
  - exists c. exact (conj Hc Hs).
Defined.

(** the working directory asked for is ignored.  Whatever [cwd] the request of
    [spawn] names, as [exec] does from its flags, the child starts in the working
    directory of its parent. *)
Theorem spawn_ignores_cwd k p si proc e0 e tf k' :
  inv k -> tbl k -> roomy k -> running k p -> procs k !! proc = None -> proc <> 0 ->
  spawn k si (proc, e0, e) tf = Some (Some proc, k') ->
  exists c, procs k' !! proc = Some c /\ cwd c = cwd p.
Proof.
  intros Hi Ht Hr Hrun Hn H0 H.
  destruct (spawn_inv k p si proc e0 e tf (Some proc) k' Hi Ht Hr Hrun Hn H0 H) as (_ & _ & _ & _ & _ & c & Hc & _ & _ & _ & E & _).
  by exists c.
Qed.

Lemma spawn_ignores_cwd_witness : exists c, procs Demo.k1 !! 8192 = Some c /\ cwd c = cwd (Demo.cur Demo.k0).
Proof.
  pose proof (boot_inv Demo.ts 4096 1 2 0 20 14 6 Demo.k0 ltac:(discriminate) Demo.k0_boot) as [(Hi & Ht & _) [_ Hr]].
  apply (spawn_ignores_cwd Demo.k0 (Demo.cur Demo.k0) Demo.si 8192 12288 16384 9000 Demo.k1 Hi Ht Hr Demo.k0_running).
  - apply free_slot_dec. vm_compute. reflexivity.
  - discriminate.
  - exact Demo.k1_spawn.
Defined.

(** [collect] hands out the exit status of a child only once that child has
    exited; it then marks the child as collected and queues it for deletion.
    Otherwise the caller gives up the CPU and is to run the call again. *)
Theorem collect_returns_exit_status k p pid_ r k' :
  inv k -> tbl k -> roomy k -> running k p -> collect k pid_ = Some (r, k') ->
  inv k' /\ tbl k' /\
  match r with
  | None => k_switching k' = true
  | Some es => exists t c, getprocess k pid_ = Some t /\ procs k !! t = Some c
      /\ state c = EXITED /\ exitstatus c = es
      /\ gCollectedProcessList k' = gCollectedProcessList k ++ [t]
      /\ procs k' !! t = Some (set_state COLLECTED c)
  end.
Proof.
  intros Hi Ht Hr Hrun H. destruct (collect_inv k p pid_ r k' Hi Ht Hr Hrun H) as (Hi' & Ht' & Hres).
  split_and!; try done. destruct r as [es|]; [|done].
  destruct Hres as (t & c & H1 & H2 & H3 & H4 & _ & H5 & H6 & _). by exists t, c.
Qed.

Definition status_of (o : option (option exit_status * kernel)) : exit_status := default (mkStatus 0 0) (o ≫= fst).

Lemma collected (d : option exit_status * kernel) o (es : exit_status) :
  match o with Some (Some s, _) => bool_decide (s = es) | _ => false end = true -> o = Some (Some es, (default d o).2).
Proof. destruct o as [[[s|] k]|]; [|done|done]. by intros ->%bool_decide_eq_true. Qed.

Lemma collect_returns_exit_status_witness :
  exists t c, getprocess Demo.k5 1 = Some t /\ procs Demo.k5 !! t = Some c /\ exitstatus c = mkStatus 1 42.
Proof.
  destruct (Demo.reachable_sys _ Demo.k5_reachable) as (Hi & Ht & _).
  destruct (collect_returns_exit_status Demo.k5 (Demo.cur Demo.k5) 1 (Some (mkStatus 1 42)) Demo.k6 Hi Ht)
    as (_ & _ & t & c & H1 & H2 & _ & H3 & _).
  - apply Demo.roomy_dec. vm_compute. reflexivity.
  - apply Demo.running_dec; vm_compute; reflexivity.
  - apply collected. vm_compute. reflexivity.
  - exists t, c. exact (conj H1 (conj H2 H3)).
Defined.

(** the deleter removes a collected process for good: no object, no table
    entry, and its id is free again. *)
Theorem delete_frees_id k t rest p :
  inv k -> tbl k -> gCollectedProcessList k = t :: rest -> procs k !! t = Some p -> state p = COLLECTED ->
  unreferenced k t ->
  exists k', delete_one k = Some (Some k') /\ inv k' /\ tbl k' /\ procs k' = delete t (procs k)
    /\ gCollectedProcessList k' = rest
    /\ getprocess k' (pid p) = None /\ PidBitmap.used (gPidBitmap k') (pid p) = false.
Proof.
  intros Hi Ht Hc Hp Hst Hu. destruct (delete_one_inv k t rest p Hi Ht Hc Hp Hst Hu) as (k' & H1 & H2 & H3 & H4 & H5 & _ & H6 & H7).
  by exists k'.
Qed.

Definition unreferenced_dec k t : bool :=
  forallb (fun e => negb (process e =? t)) (gSleepQueue k)
  && forallb (fun x => forallb (fun e => negb (process e =? t)) x.2) (map_to_list (wqs k)).

Lemma unreferenced_dec_spec k t : unreferenced_dec k t = true -> unreferenced k t.
Proof.
  unfold unreferenced_dec. rewrite andb_true_iff, !forallb_forall. intros [H1 H2]. split.
  - intros e He E. specialize (H1 e ltac:(by apply list_elem_of_In)). subst t. by rewrite Z.eqb_refl in H1.
  - intros q l e Hl He E. specialize (H2 (q, l) ltac:(by apply list_elem_of_In, elem_of_map_to_list)).
    rewrite forallb_forall in H2. specialize (H2 e ltac:(by apply list_elem_of_In)). subst t. by rewrite Z.eqb_refl in H2.
Qed.

Lemma delete_frees_id_witness : exists k', delete_one Demo.k6 = Some (Some k') /\ PidBitmap.used (gPidBitmap k') 1 = false.
Proof.
  destruct (Demo.reachable_sys _ Demo.k5_reachable) as (Hi & Ht & _).
  destruct (collect_inv Demo.k5 (Demo.cur Demo.k5) 1 (Some (mkStatus 1 42)) Demo.k6 Hi Ht) as (Hi6 & Ht6 & _).
  - apply Demo.roomy_dec. vm_compute. reflexivity.
  - apply Demo.running_dec; vm_compute; reflexivity.
  - apply collected. vm_compute. reflexivity.
  - destruct (delete_frees_id Demo.k6 8192 [] (default Proc.new (procs Demo.k6 !! 8192)) Hi6 Ht6) as (k' & H1 & _ & _ & _ & _ & _ & H2).
    + vm_compute. reflexivity.
    + apply Demo.computed. vm_compute. reflexivity.
    + vm_compute. reflexivity.
    + apply unreferenced_dec_spec. vm_compute. reflexivity.
    + exists k'. exact (conj H1 H2).
Defined.

(** a process that is not a system process cannot kill a system process: the
    call reports failure and nothing has changed. *)
Theorem kill_respects_system k reaper n task t cur :
  getprocess k n = Some task -> procs k !! task = Some t -> procs k !! gCurrentProcess k = Some cur ->
  task <> gCurrentProcess k -> system t = true -> system cur = false ->
  kill k reaper n = Some (false, k).
Proof.
  intros Hg Ht Hc Hne Hs Hn. unfold kill. rewrite Hg, Hc. cbn [mbind option_bind]. rewrite Ht. cbn [mbind option_bind].
  destruct (Z.eqb_spec task (gCurrentProcess k)); [done|]. by rewrite Hs, Hn.
Qed.

Lemma kill_respects_system_witness : kill Demo.k3 100 0 = Some (false, Demo.k3).
Proof.
  apply (kill_respects_system Demo.k3 100 0 4096 (default Proc.new (procs Demo.k3 !! 4096)) (Demo.cur Demo.k3)).
  - vm_compute. reflexivity.
  - apply Demo.computed. vm_compute. reflexivity.
  - apply Demo.computed. vm_compute. reflexivity.
  - vm_compute. intros H. discriminate H.
  - vm_compute. reflexivity.
  - vm_compute. reflexivity.
Defined.

(** Burying the dead changes no process object. *)
Lemma loop_all_procs f : forall k total k', loop_all f k = Some (total, k') -> procs k' = procs k.
Proof.
  induction f as [|f IH]; intros k total k'; [done|]. cbn [loop_all].
  intros ([u|tt_] & _ & H)%bind_Some; [|by injection H as _ <-].
  apply bind_Some in H as (k1 & Hk1 & H). rewrite (IH _ _ _ H). simpl.
  unfold enqueueForDeath in Hk1. apply bind_Some in Hk1 as (q & _ & Hk1). case_decide; [|done].
  by apply bind_Some in Hk1 as (et & _ & [= <-]).
Qed.

(** a process that has used up its quantum does not get a new one.  The tick
    counter only grows: after the tick that ended the quantum, the yield and the
    scheduling decision that brings the process back, its next tick asks for the
    CPU again. *)
Theorem quantum_not_renewed k p b k1 k2 r1 r2 k3 :
  procs k !! gCurrentProcess k = Some p -> 0 < quantum_current (priority p) ->
  0 <= usedticks p -> usedticks p + 2 < 256 ->
  tickForSchedule k true = Some (true, k1) -> yield k1 b = Some k2 ->
  schedule k2 r1 r2 = Some k3 -> gCurrentProcess k3 = gCurrentProcess k ->
  exists k4, tickForSchedule k3 true = Some (true, k4).
Proof.
  intros Hp Hq Hu0 Hu H1 H2 H3 Hcur. unfold tickForSchedule in H1. rewrite Hp in H1. cbn [mbind option_bind] in H1.
  destruct (Z.gtb_spec (quantum_current (priority p)) 0); [|lia]. apply bind_Some in H1 as (ka & Ha & H1).
  apply upd_spec in Ha as (p0 & Hp0 & ->). assert (p0 = p) as -> by congruence.
  assert (Hw : u8 (usedticks p + 1) = usedticks p + 1) by (width; apply Z.mod_small; lia). rewrite Hw in *.
  destruct (Z.geb_spec (usedticks p + 1) (quantum_current (priority p))); [|done]. injection H1 as <-.
  unfold yield in H2. apply bind_Some in H2 as (kb & Hb & [= <-]). apply upd_spec in Hb as (p1 & Hp1 & ->).
  simpl in Hp1. rewrite lookup_insert_eq in Hp1. injection Hp1 as <-.
  unfold schedule in H3. apply bind_Some in H3 as ([t kc] & Hl & (kd & Hd & [= <-])%bind_Some).
  simpl in Hcur. subst t. apply upd_spec in Hd as (p2 & Hp2 & ->).
  assert (Hprocs : procs kc = procs (switchtoscheduler (with_procs k
     (<[gCurrentProcess k := set_stats (mkStats (if b then runtime (runtimestats p) else u64 (runtime (runtimestats p) + 1))
        (u64 (ctxswitches (runtimestats p) + 1))) (set_usedticks (usedticks p + 1) p)]>
        (<[gCurrentProcess k := set_usedticks (usedticks p + 1) p]> (procs k)))))).
  { unfold lottery_next in Hl. apply bind_Some in Hl as ([tot ke] & He & Hl). destruct (tot =? 0); [done|].
    apply bind_Some in Hl as (t & _ & [= _ <-]). exact (loop_all_procs _ _ _ _ He). }
  rewrite Hprocs in Hp2. simpl in Hp2. rewrite lookup_insert_eq in Hp2. injection Hp2 as <-.
  unfold tickForSchedule. simpl. rewrite Hprocs. simpl. rewrite lookup_insert_eq. cbn [mbind option_bind]. simpl.
  destruct (Z.gtb_spec (quantum_current (priority p)) 0); [|lia].
  unfold upd. simpl. rewrite !lookup_insert_eq. cbn [mbind option_bind].
  assert (Hw' : u8 (usedticks p + 1 + 1) = usedticks p + 1 + 1) by (width; apply Z.mod_small; lia). rewrite Hw'.
  destruct (Z.geb_spec (usedticks p + 1 + 1) (quantum_current (priority p))); [by eexists|lia].
Qed.

(** The second process has a quantum of 3 ticks and has used them all. *)
Definition q1 : kernel := default Demo.empty (upd Demo.k3 8192 (set_usedticks 2)).
Definition q2 : kernel := (default (false, Demo.empty) (tickForSchedule q1 true)).2.
Definition q3 : kernel := default Demo.empty (yield q2 true).
Definition q4 : kernel := default Demo.empty (schedule q3 0 0).

Lemma asked (o : option (bool * kernel)) d :
  match o with Some (b, _) => b | None => false end = true -> o = Some (true, (default d o).2).
Proof. destruct o as [[b k]|]; [|done]. by intros ->. Qed.

Lemma quantum_not_renewed_witness : exists k, tickForSchedule q4 true = Some (true, k).
Proof.
  apply (quantum_not_renewed q1 (Demo.cur q1) true q2 q3 0 0 q4).
  - apply Demo.computed. vm_compute. reflexivity.
  - apply Z.ltb_lt. vm_compute. reflexivity.
  - apply Z.leb_le. vm_compute. reflexivity.
  - apply Z.ltb_lt. vm_compute. reflexivity.
  - apply asked. vm_compute. reflexivity.
  - apply Demo.computed. vm_compute. reflexivity.
  - apply Demo.computed. vm_compute. reflexivity.
  - vm_compute. reflexivity.
Defined.

(** ** Machine words *)

(** the exit status survives its encoding in the word that [exit] and [collect]
    pass through registers. *)
Theorem exit_status_word_roundtrip s : is_u8 (reason s) -> is_u8 (status s) -> ofWord (toWord s) = s.
Proof.
  destruct s as [r st]. unfold is_u, toWord, ofWord. simpl. intros Hr Hs.
  assert (E : Z.lor st (u32 (Z.shiftl r 24)) = r * 2 ^ 24 + st).
  { rewrite u32_id; [by rewrite lor_fields by lia|]. rewrite Z.shiftl_mul_pow2 by lia. unfold is_u. lia. }
  rewrite E. f_equal.
  - rewrite Z.shiftr_div_pow2 by lia. rewrite Z.div_add_l by lia. rewrite (Z.div_small st) by lia.
    width. rewrite Z.add_0_r. apply Z.mod_small. lia.
  - change 255 with (Z.ones 8). rewrite Z.land_ones by lia.
    replace (r * 2 ^ 24) with (r * 2 ^ 16 * 2 ^ 8) by lia. rewrite Z.add_comm, Z_mod_plus_full. apply Z.mod_small. lia.
Qed.

Lemma exit_status_word_roundtrip_witness : ofWord (toWord (mkStatus 255 2)) = mkStatus 255 2.
Proof. apply (exit_status_word_roundtrip (mkStatus 255 2)); unfold is_u; simpl; lia. Defined.

Lemma shiftl_bit a n m : 0 <= n -> Z.testbit (Z.shiftl a n) m = (0 <=? m) && Z.testbit a (m - n).
Proof.
  intros Hn. destruct (Z.leb_spec 0 m); [by rewrite Z.shiftl_spec|]. by rewrite Z.testbit_neg_r.
Qed.

(** The bits of constant masks at indices that [lia] can place. *)
Ltac mask_bits :=
  repeat match goal with
    | |- context [Z.testbit (Z.ones ?k) ?m] =>
        first [ rewrite (Z.testbit_neg_r (Z.ones k) m) by lia | rewrite (Z.ones_spec_low k m) by lia
              | rewrite (Z.ones_spec_high k m) by lia ]
    | |- context [0 <=? ?m] =>
        first [ rewrite (proj2 (Z.leb_le 0 m)) by lia | rewrite (proj2 (Z.leb_gt 0 m)) by lia ]
    | |- context [Z.testbit 0xE9 ?m] =>
        first [ rewrite (Z.testbit_neg_r 0xE9 m) by lia | rewrite (testbit_above 0xE9 8 m) by lia ]
    end;
  rewrite ?andb_true_l, ?andb_true_r, ?andb_false_r, ?andb_false_l, ?orb_false_l, ?orb_false_r.

(** the address of a process is read back unchanged from the task descriptor
    built for it in the GDT. *)
Theorem gdt_entry_roundtrip process size : is_u32 process -> gdt_entry_to_tss_ptr (gdt_entry process size) = process.
Proof.
  intros Hp. unfold is_u in Hp. unfold gdt_entry_to_tss_ptr, gdt_entry. apply Z.bits_inj'. intros n Hn.
  change 0xFFFFFF0000 with (Z.shiftl (Z.ones 24) 16). change 0xFF00000000000000 with (Z.shiftl (Z.ones 8) 56).
  change 0xFFFFFF with (Z.ones 24). change 0xFF000000 with (Z.shiftl (Z.ones 8) 24). change 0xFFFF with (Z.ones 16).
  change 0xE90000000000 with (Z.shiftl 0xE9 40).
  rewrite !Z.lor_spec, !Z.shiftr_spec, !Z.land_spec, !Z.lor_spec by lia. 
  rewrite !shiftl_bit, !Z.land_spec, !shiftl_bit by lia.
  replace (n + 16 - 16) with n by lia. replace (n + 32 - 32) with n by lia.
  destruct (Z.lt_ge_cases n 24); [|destruct (Z.lt_ge_cases n 32)]; mask_bits.
  - done.
  - done.
  - by rewrite (testbit_above process 32 n) by lia.
Qed.

Lemma gdt_entry_roundtrip_witness : gdt_entry_to_tss_ptr (gdt_entry 0xC0123456 1000) = 0xC0123456.
Proof. apply (gdt_entry_roundtrip 0xC0123456 1000). unfold is_u. lia. Defined.

(** ** Mutexes and semaphores *)

Import SynchSpec.

(** C3: mutual exclusion.  In every run that starts with a free mutex, whatever
    waits, wake-ups, try-locks and unlocks of any processes are interleaved with
    other kernel activity, at most one process holds the mutex, and it is the one
    whose id the mutex records. *)
Theorem mutex_exclusion k m s :
  Mutex.mLocked m = false -> mruns (mkM k m []) s ->
  m_holders s = (if Mutex.mLocked (m_mutex s) then [Mutex.mPid (m_mutex s)] else []).
Proof. intros Hl Hr. apply (mruns_ok (mkM k m []) s); [|done]. unfold m_ok. simpl. by rewrite Hl. Qed.

Definition free_mutex : Mutex.mutex := Mutex.mkMutex false 0 14.
Definition taken_mutex : Mutex.mutex := Mutex.mkMutex true 1 14.

Lemma demo_trylock : Mutex.trylock Demo.k3 free_mutex = Some (true, taken_mutex).
Proof. vm_compute. reflexivity. Qed.

Lemma mutex_exclusion_witness :
  m_holders (mkM Demo.k3 taken_mutex (acquired (Done true) Demo.k3 [])) = [1%nat].
Proof.
  apply (mutex_exclusion Demo.k3 free_mutex (mkM Demo.k3 taken_mutex (acquired (Done true) Demo.k3 []))).
  - reflexivity.
  - eapply mr_step; [constructor|]. apply m_trylock. exact demo_trylock.
Defined.

(** C4: no lost wake-up.  Every operation on a mutex keeps the property that a
    process is only left in its wait queue while the mutex is locked. *)
Theorem mutex_no_lost_wakeup s s' :
  inv_x false 0 (m_kernel s) -> fresh (m_kernel s) -> mstep s s' ->
  (Mutex.mLocked (m_mutex s) = false -> wqs (m_kernel s) !! Mutex.waitqueue (m_mutex s) = Some []) ->
  Mutex.mLocked (m_mutex s') = false -> wqs (m_kernel s') !! Mutex.waitqueue (m_mutex s') = Some [].
Proof. intros Hi Hf Hs Hl. exact (mstep_no_lost s s' Hi Hf Hl Hs). Qed.

(** Unlocking while the first process waits in the queue. *)
Definition unlocked_k : kernel := default Demo.empty (wakeall Demo.k3 14).

Lemma demo_unlock : Mutex.unlock Demo.k3 taken_mutex = Some (Mutex.mkMutex false 1 14, unlocked_k).
Proof.
  unfold Mutex.unlock. assert (E : procs Demo.k3 !! gCurrentProcess Demo.k3 = Some (Demo.cur Demo.k3))
    by (apply Demo.computed; vm_compute; reflexivity).
  rewrite E. cbn [mbind option_bind].
  assert (Mutex.mLocked taken_mutex && (Mutex.mPid taken_mutex =? pid (Demo.cur Demo.k3))%nat = true) as ->
    by (vm_compute; reflexivity).
  assert (wakeall Demo.k3 14 = Some unlocked_k) as Hw by (apply Demo.computed; vm_compute; reflexivity).
  change (Mutex.waitqueue taken_mutex) with 14. rewrite Hw. reflexivity.
Qed.

Definition after_unlock : mstate :=
  mkM unlocked_k (Mutex.mkMutex false 1 14)
     (if Mutex.mLocked taken_mutex && (Mutex.mPid taken_mutex =? me Demo.k3)%nat then [] else [1%nat]).

Lemma mutex_no_lost_wakeup_witness :
  wqs (m_kernel after_unlock) !! Mutex.waitqueue (m_mutex after_unlock) = Some [].
Proof.
  apply (mutex_no_lost_wakeup (mkM Demo.k3 taken_mutex [1%nat]) after_unlock).
  - exact Demo.k3_inv_x.
  - exact (roomy_fresh _ (proj2 (proj2 Demo.k3_inv))).
  - exact (m_unlock Demo.k3 taken_mutex [1%nat] _ _ demo_unlock).
  - intros H. discriminate H.
  - reflexivity.
Defined.

(** a wait without a timeout can return without the mutex.  A process that is
    woken after another one took the mutex again does not go back to wait: the call
    returns false, and the mutex is as it was. *)
Theorem mutex_wait_forever_may_fail k m p :
  procs k !! gCurrentProcess k = Some p -> waitable (wakeReason p) = Mutex.waitqueue m ->
  Mutex.mLocked m = true -> Mutex.resume k m 0 = Some (Done false, m, k).
Proof.
  intros Hp Hw Hl. unfold Mutex.resume, myWake. rewrite Hp. cbn [mbind option_bind].
  rewrite Hw, Z.eqb_refl, Hl. done.
Qed.

(** The first process has been woken and runs; the mutex is taken. *)
Definition woken_k : kernel := default Demo.empty (schedule (default Demo.empty (sleep unlocked_k 10)) 0 0).

Lemma mutex_wait_forever_may_fail_witness : Mutex.resume woken_k taken_mutex 0 = Some (Done false, taken_mutex, woken_k).
Proof.
  apply (mutex_wait_forever_may_fail woken_k taken_mutex (Demo.cur woken_k)).
  - apply Demo.computed. vm_compute. reflexivity.
  - vm_compute. reflexivity.
  - reflexivity.
Defined.

(** the value of a semaphore stays between zero and its maximum and nobody is
    left waiting while it is positive; a wait that succeeds takes exactly one unit,
    one that blocks or fails takes none, and a signal adds one up to the maximum. *)
Theorem semaphore_counts k s :
  s_ok k s ->
  (forall t o s' k', Semaphore.wait k s t = Some (o, s', k') ->
     s_ok k' s' /\ Semaphore.mValue s' = Semaphore.mValue s - (if decide (o = Done true) then 1 else 0))
  /\ (forall t o s' k', Semaphore.resume k s t = Some (o, s', k') ->
     s_ok k' s' /\ Semaphore.mValue s' = Semaphore.mValue s - (if decide (o = Done true) then 1 else 0))
  /\ (inv_x false 0 k -> fresh k -> forall s' k', Semaphore.signal k s = Some (s', k') ->
     s_ok k' s' /\ Semaphore.mValue s' = Z.min (Semaphore.mValue s + 1) (Semaphore.mMaxValue s)).
Proof.
  intros Hok.
  assert (Hv : forall t o s' k', Semaphore.wait k s t = Some (o, s', k') ->
     Semaphore.mValue s' = Semaphore.mValue s - (if decide (o = Done true) then 1 else 0)).
  { intros t o s' k' H. destruct (sem_wait_spec k s t o s' k' Hok H) as [(_ & -> & -> & _)|(_ & -> & _ & ->)];
      [rewrite decide_False by done|rewrite decide_True by done]; simpl; lia. }
  split_and!.
  - intros t o s' k' H. split; [by eapply sem_wait_ok|by eapply Hv].
  - intros t o s' k' H. split; [by eapply sem_resume_ok|]. unfold Semaphore.resume in H.
    apply bind_Some in H as (mine & _ & H).
    destruct (negb mine); [injection H as <- <- <-; rewrite decide_False by done; lia|].
    destruct (Semaphore.take s) as [s1|] eqn:Ht.
    + injection H as <- <- <-. rewrite decide_True by done. unfold Semaphore.take in Ht.
      destruct (Semaphore.mValue s >? 0); [|done]. injection Ht as <-. done.
    + destruct (t >? 0); [by eapply Hv|]. injection H as <- <- <-. rewrite decide_False by done. lia.
  - intros Hi Hf s' k' H. by apply (sem_signal_ok k s s' k' Hok Hi Hf H).
Qed.

Lemma semaphore_counts_witness :
  Semaphore.wait Demo.k3 (Semaphore.mkSemaphore 2 5 15) 0 = Some (Done true, Semaphore.mkSemaphore 1 5 15, Demo.k3)
  /\ Semaphore.mValue (Semaphore.mkSemaphore 1 5 15) = 2 - 1.
Proof.
  split; [reflexivity|].
  assert (Hq : forall k, s_ok (set_wq k 15 []) (Semaphore.mkSemaphore 2 5 15)).
  { intros k. split; simpl; [lia|lia|]. intros _. apply lookup_insert_eq. }
  destruct (semaphore_counts (set_wq Demo.k3 15 []) (Semaphore.mkSemaphore 2 5 15) (Hq Demo.k3)) as [Hw _].
  destruct (Hw 0 (Done true) (Semaphore.mkSemaphore 1 5 15) (set_wq Demo.k3 15 []) eq_refl) as [_ E]. exact E.
Defined.
