(* ===== verification/Pipe.v ===== *)
(** * Pipes and message queues
    (kernel/src/synch/pipe.cpp, kernel/src/synch/msgueue.cpp)

    Both are bounded queues over a circular array with a count of free cells;
    [Ring] has the four operations they share and shows that they implement a
    FIFO.  [Pipe] and [MsgQueue] add the blocking loops, the open ends and the
    wake-ups of the other side. *)

From stdpp Require Import base numbers list gmap option.
From Stdlib Require Import ZArith Lia.
From S2P Require Import Prelude Vec PQueue Tables Files Kernel Sched Synch.

Local Open Scope nat_scope.

Module Ring.

Record ring (A : Type) := mkRing { mBuffer : list A; mReadPointer : nat; mWritePointer : nat; mFree : nat }.
Arguments mkRing {A} _ _ _ _.
Arguments mBuffer {A} _.
Arguments mReadPointer {A} _.
Arguments mWritePointer {A} _.
Arguments mFree {A} _.

Section Operations.
Context {A : Type} (size : nat).
Implicit Types r : ring A.

(** An array of [size] cells with initial contents. *)
Definition new (zero : A) : ring A := mkRing (replicate size zero) 0 0 size.

(** [if (++ptr == size) ptr = 0;] *)
Definition bump (ptr : nat) : nat := if S ptr =? size then 0 else S ptr.

Definition tryPut r (c : A) : option (ring A) :=
  if mFree r =? 0 then None
  else Some (mkRing (<[mWritePointer r := c]> (mBuffer r)) (mReadPointer r) (bump (mWritePointer r)) (mFree r - 1)).

Definition tryGet r : option (A * ring A) :=
  if mFree r =? size then None
  else
    c ← mBuffer r !! mReadPointer r;
    Some (c, mkRing (mBuffer r) (bump (mReadPointer r)) (mWritePointer r) (S (mFree r))).

(** [while (count < n && tryPutchar( *data )) ...]: the data that did not fit is
    left. *)
Fixpoint put_many r (data : list A) : nat * ring A :=
  match data with
  | [] => (0, r)
  | c :: data =>
      match tryPut r c with
      | Some r' => let '(n, r'') := put_many r' data in (S n, r'')
      | None => (0, r)
      end
  end.

Fixpoint get_many (n : nat) r : list A * ring A :=
  match n with
  | O => ([], r)
  | S n =>
      match tryGet r with
      | Some (c, r') => let '(l, r'') := get_many n r' in (c :: l, r'')
      | None => ([], r)
      end
  end.

(** ** The queue the array holds *)

Record rrep r (l : list A) : Prop := {
  rr_len : length (mBuffer r) = size;
  rr_read : mReadPointer r < size;
  rr_free : length l + mFree r = size;
  rr_write : mWritePointer r = (mReadPointer r + length l) mod size;
  rr_cells i x : l !! i = Some x -> mBuffer r !! ((mReadPointer r + i) mod size) = Some x;
}.

Context (size_pos : 0 < size).

Lemma bump_mod ptr : ptr < size -> bump ptr = S ptr mod size.
Proof.
  intros H. unfold bump. destruct (Nat.eqb_spec (S ptr) size) as [->|Hne].
  - by rewrite Nat.Div0.mod_same.
  - rewrite Nat.mod_small; lia.
Qed.

Lemma rrep_new zero : rrep (new zero) [].
Proof. split; simpl; [apply length_replicate|lia|lia|by rewrite Nat.mod_small|done]. Qed.

(** Cells of the queue are pairwise different. *)
Lemma cells_distinct r i j : i < size -> j < size -> i <> j ->
  (mReadPointer r + i) mod size <> (mReadPointer r + j) mod size.
Proof.
  intros Hi Hj Hne E. set (b := mReadPointer r) in *.
  pose proof (Nat.div_mod_eq (b + i) size). pose proof (Nat.div_mod_eq (b + j) size).
  assert ((b + i) / size = (b + j) / size \/ (b + i) / size < (b + j) / size \/ (b + j) / size < (b + i) / size) by lia.
  nia.
Qed.

Lemma tryPut_spec r l c : rrep r l ->
  if decide (length l = size) then tryPut r c = None
  else exists r', tryPut r c = Some r' /\ rrep r' (l ++ [c]).
Proof.
  intros [Hlen Hrd Hfree Hwr Hcells]. unfold tryPut. case_decide as Hd.
  - assert (mFree r = 0) as -> by lia. done.
  - destruct (Nat.eqb_spec (mFree r) 0); [lia|]. eexists. split; [done|].
    pose proof (Nat.mod_upper_bound (mReadPointer r + length l) size ltac:(lia)) as Hb.
    split; simpl.
    + by rewrite length_insert.
    + done.
    + rewrite length_app. simpl. lia.
    + rewrite bump_mod by (rewrite Hwr; done). rewrite Hwr, length_app. simpl.
      rewrite <- (Nat.add_1_r (_ mod size)), Nat.Div0.add_mod_idemp_l. f_equal. lia.
    + intros i x Hi. assert (Hil : i < size).
      { apply lookup_lt_Some in Hi. rewrite length_app in Hi. simpl in Hi. lia. }
      rewrite Hwr. apply lookup_snoc_Some in Hi as [[Hlt Hi]|[-> ->]].
      * rewrite list_lookup_insert_ne; [by apply Hcells|].
        apply not_eq_sym, cells_distinct; lia.
      * apply list_lookup_insert_eq. by rewrite Hlen.
Qed.

Lemma tryGet_spec r l : rrep r l ->
  match l with
  | [] => tryGet r = None
  | c :: l => exists r', tryGet r = Some (c, r') /\ rrep r' l
  end.
Proof.
  intros [Hlen Hrd Hfree Hwr Hcells]. unfold tryGet. destruct l as [|c l]; simpl in *.
  - destruct (Nat.eqb_spec (mFree r) size); [done|lia].
  - destruct (Nat.eqb_spec (mFree r) size); [lia|].
    pose proof (Hcells 0 c eq_refl) as H0. rewrite Nat.add_0_r, Nat.mod_small in H0 by done.
    rewrite H0. simpl. eexists. split; [done|]. split; simpl.
    + done.
    + rewrite bump_mod by done. apply Nat.mod_upper_bound. lia.
    + lia.
    + rewrite bump_mod, Nat.Div0.add_mod_idemp_l, Hwr by done. f_equal. lia.
    + intros i x Hi. rewrite bump_mod, Nat.Div0.add_mod_idemp_l by done.
      specialize (Hcells (S i) x Hi). by rewrite Nat.add_succ_r in Hcells.
Qed.

Lemma put_many_spec data : forall r l, rrep r l ->
  exists n r', put_many r data = (n, r') /\ n = min (length data) (size - length l)
    /\ rrep r' (l ++ take n data).
Proof.
  induction data as [|c data IH]; intros r l Hr; cbn [put_many length].
  - exists 0, r. split_and!; [done|done|]. by rewrite app_nil_r.
  - pose proof (rr_free r l Hr). pose proof (tryPut_spec r l c Hr) as Hp. case_decide as Hd.
    + rewrite Hp. exists 0, r. split_and!; [done|lia|]. by rewrite app_nil_r.
    + destruct Hp as (r1 & -> & Hr1). destruct (IH r1 (l ++ [c]) Hr1) as (n & r2 & -> & Hn & Hr2).
      exists (S n), r2. split_and!; [done| |].
      * rewrite length_app in Hn. cbn [length] in Hn. lia.
      * cbn [take]. by rewrite <- app_assoc in Hr2.
Qed.

Lemma get_many_spec n : forall r l, rrep r l ->
  exists r', get_many n r = (take n l, r') /\ rrep r' (drop n l).
Proof.
  induction n as [|n IH]; intros r l Hr; simpl; [by exists r; rewrite drop_0|].
  pose proof (tryGet_spec r l Hr) as Hg. destruct l as [|c l].
  - rewrite Hg. by exists r.
  - destruct Hg as (r1 & -> & Hr1). destruct (IH r1 l Hr1) as (r2 & -> & Hr2). by exists r2.
Qed.

End Operations.
End Ring.

Module Pipe.
Import Ring Proc Kernel PM.

Record pipe := mkPipe {
  buf : ring Z; mFullWQ : Z; mEmptyWQ : Z; mReadFileOpen : bool; mWriteFileOpen : bool }.

Definition gBufferSize : nat := 4096.

Implicit Types (k : kernel) (b : pipe).

Definition new (fullq emptyq : Z) : pipe := mkPipe (Ring.new gBufferSize 0%Z) fullq emptyq true true.
Definition set_buf b (r : ring Z) : pipe := mkPipe r (mFullWQ b) (mEmptyWQ b) (mReadFileOpen b) (mWriteFileOpen b).

Definition closeReadFile k b : option (pipe * kernel) :=
  k ← wakeall k (mFullWQ b); Some (mkPipe (buf b) (mFullWQ b) (mEmptyWQ b) false (mWriteFileOpen b), k).
Definition closeWriteFile k b : option (pipe * kernel) :=
  k ← wakeall k (mEmptyWQ b); Some (mkPipe (buf b) (mFullWQ b) (mEmptyWQ b) (mReadFileOpen b) false, k).

(** A piece of [read] or [write]: it blocks and will run again, or it returns. *)
Inductive result (T : Type) := Wait | Return (x : T).
Arguments Wait {T}.
Arguments Return {T} _.

Definition read k b (n : nat) : option (result (list Z) * pipe * kernel) :=
  if (mFree (buf b) =? gBufferSize) && mWriteFileOpen b then
    k ← wq_yield k (mEmptyWQ b) 0; Some (Wait, b, k)
  else
    let '(data, r) := get_many gBufferSize n (buf b) in
    k ← (if 0 <? length data then wakeall k (mFullWQ b) else Some k);
    Some (Return data, set_buf b r, k).

Definition write k b (data : list Z) : option (result nat * pipe * kernel) :=
  if mFree (buf b) =? 0 then
    if negb (mReadFileOpen b) then Some (Return (length data), b, k)
    else k ← wq_yield k (mFullWQ b) 0; Some (Wait, b, k)
  else
    let '(count, r) := put_many gBufferSize (buf b) data in
    k ← (if 0 <? count then wakeall k (mEmptyWQ b) else Some k);
    Some (Return count, set_buf b r, k).

(** [PipeManager::doClose]: which ends are closed, and whether the buffer is
    deleted with the file. *)
Definition doClose k b (isReadFile : bool) : option (option pipe * kernel) :=
  '(b, k) ← (if isReadFile then closeReadFile k b else closeWriteFile k b);
  Some (if negb (mReadFileOpen b) && negb (mWriteFileOpen b) then None else Some b, k).

(** ** What the ends of a pipe see *)

Definition holds b (l : list Z) : Prop := rrep gBufferSize (buf b) l.

Lemma size_pos : 0 < gBufferSize. Proof. unfold gBufferSize. lia. Qed.

Lemma pipe_read_spec k b l n r b' k' :
  holds b l -> read k b n = Some (r, b', k') ->
  match r with
  | Wait => l = [] /\ mWriteFileOpen b = true /\ b' = b
  | Return data => data = take n l /\ holds b' (drop n l) /\ (l = [] -> mWriteFileOpen b = false)
      /\ mReadFileOpen b' = mReadFileOpen b /\ mWriteFileOpen b' = mWriteFileOpen b
  end.
Proof.
  intros Hb. unfold read. pose proof (rr_free _ _ _ Hb) as Hf.
  destruct (_ && mWriteFileOpen b) eqn:Ht.
  - bool_to_prop. intros (k1 & _ & [= <- <- <-])%bind_Some. split_and!; try done.
    destruct l; [done|]. simpl in Hf. lia.
  - destruct (get_many_spec gBufferSize size_pos n (buf b) l Hb) as (r1 & -> & Hr1).
    intros (k1 & _ & [= <- <- <-])%bind_Some. split_and!; try done.
    intros ->. simpl in Hf. apply andb_false_iff in Ht as [Ht|Ht]; [bool_to_prop; lia|done].
Qed.

Lemma pipe_write_spec k b l data r b' k' :
  holds b l -> write k b data = Some (r, b', k') ->
  match r with
  | Wait => length l = gBufferSize /\ mReadFileOpen b = true /\ b' = b
  | Return count =>
      (length l = gBufferSize /\ mReadFileOpen b = false /\ count = length data /\ b' = b)
      \/ (length l < gBufferSize /\ count = min (length data) (gBufferSize - length l)
          /\ holds b' (l ++ take count data))
  end.
Proof.
  intros Hb. unfold write. pose proof (rr_free _ _ _ Hb) as Hf.
  destruct (Nat.eqb_spec (mFree (buf b)) 0) as [E|E].
  - destruct (mReadFileOpen b) eqn:Hro; cbn [negb].
    + intros (k1 & _ & [= <- <- <-])%bind_Some. split_and!; [lia|done|done].
    + intros [= <- <- <-]. left. split_and!; [lia|done|done|done].
  - destruct (put_many_spec gBufferSize size_pos data (buf b) l Hb) as (n & r1 & -> & Hn & Hr1).
    intros (k1 & _ & [= <- <- <-])%bind_Some. right. split_and!; [lia|done|done].
Qed.

End Pipe.

Module MsgQueue.
Import Ring Proc Kernel PM Pipe.

(** [message_t]: 4096 bytes, of which the header takes 16 on this target. *)
Record message_t := mkMessage { sender : nat; timestamp : Z; payload_size : nat; payload : list Z }.
Definition gTotalSize : nat := 4096.
Definition gBodySize : nat := 4080.

Record msgqueue := mkQueue {
  mq : ring message_t; mTotalSize : nat; mNumReaders : nat; mNumWriters : nat; mqFullWQ : Z; mqEmptyWQ : Z }.

Implicit Types (k : kernel) (q : msgqueue).

Definition zero_message : message_t := mkMessage 0 0 0 [].
Definition new (numMessages : nat) (fullq emptyq : Z) : msgqueue :=
  mkQueue (Ring.new numMessages zero_message) numMessages 0 0 fullq emptyq.

Definition set_mq q (r : ring message_t) : msgqueue :=
  mkQueue r (mTotalSize q) (mNumReaders q) (mNumWriters q) (mqFullWQ q) (mqEmptyWQ q).
Definition set_ends q (readers writers : nat) : msgqueue :=
  mkQueue (mq q) (mTotalSize q) readers writers (mqFullWQ q) (mqEmptyWQ q).

Definition openWriter q : msgqueue := set_ends q (mNumReaders q) (S (mNumWriters q)).
Definition openReader q : msgqueue := set_ends q (S (mNumReaders q)) (mNumWriters q).
Definition closeWriter q : msgqueue :=
  if 0 <? mNumWriters q then set_ends q (mNumReaders q) (mNumWriters q - 1) else q.
Definition closeReader q : msgqueue :=
  if 0 <? mNumReaders q then set_ends q (mNumReaders q - 1) (mNumWriters q) else q.

Definition tryWrite q (msg : message_t) : option msgqueue := r ← tryPut (mTotalSize q) (mq q) msg; Some (set_mq q r).
Definition tryRead q : option (message_t * msgqueue) := '(m, r) ← tryGet (mTotalSize q) (mq q); Some (m, set_mq q r).

(** [read]: the message, or nothing (the call returns 0). *)
Definition read k q (n : nat) (allowBlock : bool) : option (result (option message_t) * msgqueue * kernel) :=
  if negb (n =? gTotalSize) then Some (Return None, q, k)
  else if (mFree (mq q) =? mTotalSize q) && negb (mNumWriters q =? 0) then
    if allowBlock then k ← wq_yield k (mqEmptyWQ q) 0; Some (Wait, q, k)
    else Some (Return None, q, k)
  else
    match tryRead q with
    | Some (m, q) => k ← wakeall k (mqFullWQ q); Some (Return (Some m), q, k)
    | None => Some (Return None, q, k)
    end.

(** [write]: the number of bytes taken, all of them or none. *)
Definition write k q (src : list Z) (unixtime : Z) (allowBlock : bool)
    : option (result nat * msgqueue * kernel) :=
  let n := length src in
  if gBodySize <? n then Some (Return 0, q, k)
  else
    p ← procs k !! gCurrentProcess k;
    let msg := mkMessage (pid p) unixtime n src in
    if mFree (mq q) =? 0 then
      if allowBlock then k ← wq_yield k (mqFullWQ q) 0; Some (Wait, q, k)
      else Some (Return 0, q, k)
    else
      match tryWrite q msg with
      | Some q => k ← wakeall k (mqEmptyWQ q); Some (Return n, q, k)
      | None => Some (Return 0, q, k)
      end.

(** The flags [doOpen] looks at. *)
Definition FILE_OPEN_READ : Z := 1.
Definition FILE_OPEN_WRITE : Z := 2.
Definition FILE_OPEN_APPEND : Z := 0x10.
Definition has (mode x : Z) : bool := (Z.land mode x =? x)%Z.
Definition any (mode x : Z) : bool := negb (Z.land mode x =? 0)%Z.

(** ** Messages are delivered in order *)

Definition mqholds q (l : list message_t) : Prop := rrep (mTotalSize q) (mq q) l.

Section Spec.
Variables (q : msgqueue) (l : list message_t).
Hypothesis size_pos : 0 < mTotalSize q.
Hypothesis held : mqholds q l.

Lemma mq_read_spec k n b r q' k' :
  read k q n b = Some (r, q', k') ->
  match r with
  | Wait => l = [] /\ mNumWriters q <> 0 /\ b = true /\ q' = q
  | Return None => q' = q /\ (n <> gTotalSize \/ l = [])
  | Return (Some m) => n = gTotalSize /\ exists l', l = m :: l' /\ mqholds q' l' /\ mTotalSize q' = mTotalSize q
  end.
Proof.
  unfold read. pose proof (rr_free _ _ _ held) as Hf.
  destruct (Nat.eqb_spec n gTotalSize) as [->|Hn]; cbn [negb]; [|intros [= <- <- <-]; auto].
  destruct (_ && negb _) eqn:Ht.
  - apply andb_true_iff in Ht as [Ht1 Ht2]. bool_to_prop.
    assert (l = []) as -> by (destruct l; [done|simpl in Hf; lia]).
    destruct b; [|intros [= <- <- <-]; auto].
    by intros (k1 & _ & [= <- <- <-])%bind_Some.
  - pose proof (tryGet_spec (mTotalSize q) size_pos (mq q) l held) as Hg. destruct l as [|m l'].
    + unfold tryRead. rewrite Hg. intros [= <- <- <-]. auto.
    + destruct Hg as (r1 & Hg & Hr1). unfold tryRead. rewrite Hg. intros (k1 & _ & [= <- <- <-])%bind_Some. eauto.
Qed.

Lemma mq_write_spec k src now b r q' k' :
  write k q src now b = Some (r, q', k') ->
  match r with
  | Wait => length l = mTotalSize q /\ b = true /\ q' = q
  | Return n =>
      (n = 0 /\ q' = q /\ (gBodySize < length src \/ length l = mTotalSize q))
      \/ (n = length src /\ length src <= gBodySize /\ exists p, procs k !! gCurrentProcess k = Some p
          /\ mqholds q' (l ++ [mkMessage (pid p) now n src]) /\ mTotalSize q' = mTotalSize q)
  end.
Proof.
  unfold write. pose proof (rr_free _ _ _ held) as Hf.
  destruct (Nat.ltb_spec gBodySize (length src)) as [Hbig|Hsmall]; [intros [= <- <- <-]; auto|].
  intros (p & Hp & H)%bind_Some. destruct (Nat.eqb_spec (mFree (mq q)) 0).
  - destruct b; [apply bind_Some in H as (k1 & _ & [= <- <- <-]); split_and!; [lia|done|done]|].
    injection H as <- <- <-. left. split_and!; [done|done|right; lia].
  - pose proof (tryPut_spec (mTotalSize q) size_pos (mq q) l (mkMessage (pid p) now (length src) src) held) as Hput.
    rewrite decide_False in Hput by lia. destruct Hput as (r1 & Hput & Hr1). unfold tryWrite in H. rewrite Hput in H.
    apply bind_Some in H as (k1 & _ & [= <- <- <-]). right. split_and!; [done|done|]. by exists p.
Qed.

End Spec.
End MsgQueue.
