(* ===== verification/Phys.v ===== *)
(** * Physical pages and the kernel heap
    (kernel/include/mm/phys.h, kernel/src/mm/phys.cpp, kernel/src/mm/heap.cpp)

    [Phys] is the array of reference-counted physical pages, with the search of
    [alloc] and of [allocContiguousPages]; pages that were never added are the
    zero-initialised cells of the array.  [Heap] is the [sbrk] of the kernel heap. *)

From stdpp Require Import base numbers list gmap option.
From Stdlib Require Import ZArith Lia.
From S2P Require Import Prelude.

Local Open Scope Z_scope.

Module Phys.

Definition gPageSize : Z := 4096.

Record phys_page_t := mkPage { usable : bool; refcnt : Z }.

Record pmm := mkPmm {
  mPages : gmap Z phys_page_t; mLastChecked : Z; mTotalPages : Z;
  mLowestPage : Z; mHighestPage : Z; mFreePages : Z }.

Section Manager.
(** [4_GB / gPageSize] in the kernel. *)
Context (gNumPages : Z).
Implicit Types p : pmm.

Definition page p (i : Z) : phys_page_t := default (mkPage false 0) (mPages p !! i).
Definition set_page p (i : Z) (g : phys_page_t) : pmm :=
  mkPmm (<[i := g]> (mPages p)) (mLastChecked p) (mTotalPages p) (mLowestPage p) (mHighestPage p) (mFreePages p).
Definition set_free p (n : Z) : pmm :=
  mkPmm (mPages p) (mLastChecked p) (mTotalPages p) (mLowestPage p) (mHighestPage p) (u32 n).
Definition set_last p (i : Z) : pmm :=
  mkPmm (mPages p) i (mTotalPages p) (mLowestPage p) (mHighestPage p) (mFreePages p).

Definition new : pmm := mkPmm ∅ 0 0 0 0 0.

Definition offalignment (addr : Z) : Z := Z.land addr (gPageSize - 1).
Definition index (addr : Z) : Z := addr / gPageSize.

(** [phys_page_t::free], [incref] and [decref]: the count is an 8-bit number. *)
Definition free (g : phys_page_t) : bool := refcnt g =? 0.
Definition incref (g : phys_page_t) : phys_page_t := mkPage (usable g) (u8 (refcnt g + 1)).
Definition decref (g : phys_page_t) : phys_page_t :=
  mkPage (usable g) (if refcnt g =? 0 then 0 else refcnt g - 1).

Definition addpage p (base : Z) : pmm :=
  let i := index base in
  mkPmm (<[i := mkPage true (refcnt (page p i))]> (mPages p)) (mLastChecked p) (u32 (mTotalPages p + 1))
    (if i <? mLowestPage p then i else mLowestPage p) (if i >? mHighestPage p then i else mHighestPage p)
    (u32 (mFreePages p + 1)).

Fixpoint addpages_loop (fuel : nat) p (base len : Z) : pmm :=
  match fuel with
  | O => p
  | S fuel =>
      if len >=? gPageSize then addpages_loop fuel (addpage p base) (u32 (base + gPageSize)) (len - gPageSize)
      else p
  end.

Definition addpages p (base len : Z) : pmm :=
  let offset := offalignment base in
  let base' := if offset >? 0 then u32 (base - offset + gPageSize) else base in
  let len' := if offset >? 0 then u32 (len - (gPageSize - offset)) else len in
  addpages_loop (Z.to_nat (len' / gPageSize)) p base' len'.

(** [None]: the panic on a page that is not usable. *)
Definition reserve p (base : Z) : option pmm :=
  let idx := index base in
  let g := page p idx in
  if usable g then Some (set_free (set_page p idx (mkPage false (refcnt g))) (mFreePages p - 1)) else None.

Fixpoint reserve_loop (fuel : nat) p (begin end_ : Z) : option pmm :=
  match fuel with
  | O => if begin <? end_ then None else Some p
  | S fuel =>
      if begin <? end_ then p ← reserve p begin; reserve_loop fuel p (u32 (begin + gPageSize)) end_
      else Some p
  end.

Definition reserve_range p (begin end_ : Z) : option pmm :=
  let begin := begin - offalignment begin in
  reserve_loop (Z.to_nat ((end_ - begin + gPageSize - 1) / gPageSize)) p begin end_.

(** The search of [alloc]: at most [gNumPages] slots from [idx] on, going around. *)
Fixpoint alloc_loop (n : nat) p (idx : Z) : option Z :=
  match n with
  | O => None
  | S n =>
      let idx := if idx =? gNumPages then 0 else idx in
      if usable (page p idx) && free (page p idx) then Some idx else alloc_loop n p (idx + 1)
  end.

(** The status instead of an address when no page is free. *)
Definition alloc p : option (Z * pmm) :=
  match alloc_loop (Z.to_nat gNumPages) p (mLastChecked p) with
  | Some idx =>
      let g := incref (page p idx) in
      let p := set_last (set_page p idx g) idx in
      Some (gPageSize * idx, if refcnt g >? 0 then set_free p (mFreePages p - 1) else p)
  | None => None
  end.

(** [alloc(base)]: one more reference to a given page; [None] is the panic. *)
Definition alloc_at p (base : Z) : option pmm :=
  let idx := index base in
  if usable (page p idx) then
    let g := incref (page p idx) in
    let p := set_page p idx g in
    Some (if refcnt g =? 1 then set_free p (mFreePages p - 1) else p)
  else None.

Definition dealloc p (base : Z) : option pmm :=
  let idx := index base in
  if free (page p idx) || negb (usable (page p idx)) then None
  else
    let g := decref (page p idx) in
    let p := set_page p idx g in
    Some (if refcnt g =? 0 then set_free p (mFreePages p + 1) else p).

Definition refcount p (base : Z) : Z :=
  let g := page p (index base) in if usable g then refcnt g else 0.

(** The first of [n] pages from [page_idx] that is not available. *)
Fixpoint blocked_at p (page_idx : Z) (u n : nat) : option nat :=
  match n with
  | O => None
  | S n =>
      let g := page p (page_idx + Z.of_nat u) in
      if usable g && free g then blocked_at p page_idx (S u) n else Some u
  end.

Fixpoint alloc_run p (page_idx : Z) (u n : nat) : option pmm :=
  match n with
  | O => Some p
  | S n => p ← alloc_at p ((page_idx + Z.of_nat u) * gPageSize); alloc_run p page_idx (S u) n
  end.

(** The outer loop starts over after the page that was not available. *)
Fixpoint contiguous_loop (fuel : nat) p (page_idx : Z) (num : nat) : option (option Z * pmm) :=
  match fuel with
  | O => None
  | S fuel =>
      match blocked_at p page_idx 0 num with
      | None => p ← alloc_run p page_idx 0 num; Some (Some (page_idx * gPageSize), p)
      | Some u =>
          let page_idx := page_idx + Z.of_nat u + 1 in
          if page_idx >? mHighestPage p then Some (None, p) else contiguous_loop fuel p page_idx num
      end
  end.

Definition allocContiguousPages p (num : nat) : option (option Z * pmm) :=
  contiguous_loop (S (Z.to_nat (mHighestPage p - mLowestPage p + 1))) p (mLowestPage p) num.

Definition gettotalmem p : Z := u32 (mTotalPages p * gPageSize).
Definition getfreemem p : Z := u32 (mFreePages p * gPageSize).

(** ** The counter of free pages *)

Definition available (g : phys_page_t) : bool := usable g && free g.

Definition count_free (m : gmap Z phys_page_t) : Z :=
  map_fold (fun _ g n => (if available g then 1 else 0) + n) 0 m.

Record ok p : Prop := {
  ok_num : 0 < gNumPages < 2 ^ 20 + 1;
  ok_index i g : mPages p !! i = Some g -> 0 <= i < gNumPages;
  ok_count i g : mPages p !! i = Some g -> 0 <= refcnt g < 256;
  ok_last : 0 <= mLastChecked p < gNumPages;
  ok_free : mFreePages p = count_free (mPages p);
}.

Lemma count_insert_new m i g : m !! i = None -> count_free (<[i := g]> m) = (if available g then 1 else 0) + count_free m.
Proof. intros Hi. unfold count_free. rewrite map_fold_insert_L; [done| |done]. intros. lia. Qed.

Lemma free_count_insert m i g g0 : m !! i = Some g0 ->
  count_free (<[i := g]> m) = count_free m - (if available g0 then 1 else 0) + (if available g then 1 else 0).
Proof.
  intros Hi. rewrite <- (insert_delete_id m i g0) at 2 by done. rewrite <- insert_delete_eq.
  rewrite !count_insert_new by apply lookup_delete_eq. lia.
Qed.

Lemma count_nonneg m : 0 <= count_free m.
Proof.
  induction m as [|i g m Hi IH] using map_ind; [done|]. rewrite count_insert_new by done.
  destruct (available g); lia.
Qed.

Lemma count_zero m : count_free m = 0 -> forall i g, m !! i = Some g -> available g = false.
Proof.
  intros H0 i g Hi. rewrite <- (insert_delete_id m i g) in H0 by done.
  rewrite count_insert_new in H0 by apply lookup_delete_eq. pose proof (count_nonneg (delete i m)).
  destruct (available g); [lia|done].
Qed.

Lemma free_count_bound m (n : Z) : 0 <= n -> (forall i g, m !! i = Some g -> 0 <= i < n) -> count_free m <= n.
Proof.
  intros Hn Hm. assert (H : count_free m <= Z.of_nat (size m)).
  { clear. induction m as [|i g m Hi IH] using map_ind; [done|]. rewrite count_insert_new, map_size_insert_None by done.
    destruct (available g); lia. }
  assert (Hs : (size m <= Z.to_nat n)%nat); [|lia].
  rewrite <- size_dom. rewrite <- (length_seqZ 0 n). rewrite <- (size_list_to_set (C := gset Z) (seqZ 0 n)) by apply NoDup_seqZ.
  apply subseteq_size. intros i Hi. apply elem_of_dom in Hi as [g Hg]. apply Hm in Hg.
  apply elem_of_list_to_set, elem_of_seqZ. lia.
Qed.

Lemma free_range p : ok p -> 0 <= mFreePages p < 2 ^ 32.
Proof.
  intros [Hn Hi _ _ ->]. pose proof (count_nonneg (mPages p)).
  pose proof (free_count_bound (mPages p) gNumPages ltac:(lia) Hi). lia.
Qed.

(** ** Allocation *)

Lemma available_page p i : available (page p i) = true -> exists g, mPages p !! i = Some g /\ page p i = g.
Proof. unfold page. destruct (mPages p !! i) as [g|]; simpl; [eauto|done]. Qed.

Lemma alloc_loop_found n p idx i :
  0 <= idx <= gNumPages -> 0 < gNumPages -> alloc_loop n p idx = Some i ->
  0 <= i < gNumPages /\ available (page p i) = true.
Proof.
  intros Hidx HN. revert idx Hidx. induction n as [|n IH]; intros idx Hidx; [done|]. cbn [alloc_loop].
  set (idx' := if idx =? gNumPages then 0 else idx).
  assert (Hi' : 0 <= idx' < gNumPages) by (unfold idx'; destruct (Z.eqb_spec idx gNumPages); lia).
  destruct (usable (page p idx') && free (page p idx')) eqn:Hav.
  - intros [= <-]. by split.
  - apply IH. lia.
Qed.

Lemma alloc_loop_none n p idx :
  0 <= idx <= gNumPages -> 0 < gNumPages -> alloc_loop n p idx = None ->
  forall j, 0 <= j < Z.of_nat n -> available (page p ((idx + j) mod gNumPages)) = false.
Proof.
  intros Hidx HN. revert idx Hidx. induction n as [|n IH]; intros idx Hidx H j Hj; [lia|]. cbn [alloc_loop] in H.
  set (idx' := if idx =? gNumPages then 0 else idx) in H.
  assert (Hi' : 0 <= idx' < gNumPages /\ idx mod gNumPages = idx').
  { unfold idx'. destruct (Z.eqb_spec idx gNumPages) as [->|]; [rewrite Z.mod_same by lia|rewrite Z.mod_small by lia]; lia. }
  destruct Hi' as [Hi' Hmod]. destruct (usable (page p idx') && free (page p idx')) eqn:Hav; [done|].
  destruct (decide (j = 0)) as [->|Hj0].
  - rewrite Z.add_0_r, Hmod. exact Hav.
  - specialize (IH (idx' + 1) ltac:(lia) H (j - 1) ltac:(lia)).
    replace (idx' + 1 + (j - 1)) with (idx' + j) in IH by lia.
    rewrite <- Hmod, Zplus_mod_idemp_l in IH. done.
Qed.

(** Writing one cell of a consistent array. *)
Lemma ok_set_page p i g0 g n :
  ok p -> mPages p !! i = Some g0 -> 0 <= refcnt g < 256 ->
  n = count_free (mPages p) - (if available g0 then 1 else 0) + (if available g then 1 else 0) ->
  ok (set_free (set_page p i g) n) /\ mFreePages (set_free (set_page p i g) n) = n.
Proof.
  intros [Hn Hi Hc Hl Hf] Hg Hr ->. rewrite <- (free_count_insert _ _ _ _ Hg).
  assert (Hix : forall j h, <[i := g]> (mPages p) !! j = Some h -> 0 <= j < gNumPages).
  { intros j h. rewrite lookup_insert_Some. intros [[<- <-]|[_ ?]]; eauto. }
  assert (E : u32 (count_free (<[i := g]> (mPages p))) = count_free (<[i := g]> (mPages p))).
  { apply u32_id. pose proof (count_nonneg (<[i := g]> (mPages p))).
    pose proof (free_count_bound _ gNumPages ltac:(lia) Hix). unfold is_u. lia. }
  split; [|done]. split; simpl; try done.
  intros j h. rewrite lookup_insert_Some. intros [[<- <-]|[_ ?]]; [done|eauto].
Qed.

Lemma set_page_same_free p i g0 g :
  ok p -> mPages p !! i = Some g0 -> 0 <= refcnt g < 256 -> available g = available g0 ->
  ok (set_page p i g).
Proof.
  intros Hok Hg Hr Ha. destruct (ok_set_page p i g0 g (mFreePages p) Hok Hg Hr) as [[H1 H2 H3 H4 H5] H6].
  - rewrite Ha, (ok_free p Hok). lia.
  - split; try done. simpl in *. by rewrite <- H5, H6.
Qed.

Lemma page_set p i g j : page (set_page p i g) j = if decide (i = j) then g else page p j.
Proof. unfold page, set_page. simpl. rewrite lookup_insert. by case_decide. Qed.

(** [alloc] hands out a page nobody has, with one reference, and fails only when
    every page is taken. *)
Lemma alloc_spec p : ok p ->
  match alloc p with
  | Some (base, p') => exists i, base = gPageSize * i /\ 0 <= i < gNumPages
      /\ available (page p i) = true /\ page p' i = mkPage true 1
      /\ (forall j, j <> i -> page p' j = page p j)
      /\ mFreePages p' = mFreePages p - 1 /\ ok p'
  | None => mFreePages p = 0
  end.
Proof.
  intros Hok. pose proof Hok as [Hn Hi Hc Hl Hf]. unfold alloc.
  destruct (alloc_loop (Z.to_nat gNumPages) p (mLastChecked p)) as [i|] eqn:Ha.
  - apply alloc_loop_found in Ha as [Hir Hav]; [|lia|lia]. destruct (available_page p i Hav) as (g & Hg & Hpg).
    rewrite Hpg in Hav |- *. unfold available, free in Hav. apply andb_true_iff in Hav as [Hus Hfr%Z.eqb_eq].
    assert (Hinc : incref g = mkPage true 1) by (unfold incref; by rewrite Hus, Hfr). rewrite Hinc. simpl.
    assert (Hav : available g = true) by (unfold available, free; by rewrite Hus, Hfr).
    destruct (ok_set_page p i g (mkPage true 1) (mFreePages p - 1) Hok Hg) as [Hok' Hfree'].
    { simpl. lia. }
    { rewrite Hav, Hf. simpl. lia. }
    exists i. split_and!; try done; try lia.
    + by rewrite Hpg, Hav.
    + unfold page. simpl. by rewrite lookup_insert_eq.
    + intros j Hj. unfold page. simpl. by rewrite lookup_insert_ne.
    + destruct Hok' as [H1 H2 H3 H4 H5]. split; try done.
  - pose proof (alloc_loop_none (Z.to_nat gNumPages) p (mLastChecked p) ltac:(lia) ltac:(lia) Ha) as Hnone. rewrite Hf.
    assert (Hall : forall i g, mPages p !! i = Some g -> available g = false).
    { intros i g Hg. pose proof (Hi i g Hg) as Hir.
      specialize (Hnone ((i - mLastChecked p) mod gNumPages)). rewrite Z2Nat.id in Hnone by lia.
      specialize (Hnone (Z.mod_pos_bound (i - mLastChecked p) gNumPages ltac:(lia))).
      rewrite Zplus_mod_idemp_r in Hnone. replace (mLastChecked p + (i - mLastChecked p)) with i in Hnone by lia.
      rewrite Z.mod_small in Hnone by lia. unfold page in Hnone. by rewrite Hg in Hnone. }
    clear -Hall. induction (mPages p) as [|i g m Hi' IH] using map_ind; [done|].
    rewrite count_insert_new by done. rewrite (Hall i g) by (by rewrite lookup_insert_eq). rewrite IH; [done|].
    intros j h Hj. apply (Hall j). rewrite lookup_insert_ne; [done|]. intros ->. congruence.
Qed.

(** One more reference, and one less. *)
Lemma alloc_at_spec p base : ok p -> usable (page p (index base)) = true -> refcnt (page p (index base)) < 255 ->
  exists p', alloc_at p base = Some p' /\ ok p'
    /\ page p' (index base) = mkPage true (refcnt (page p (index base)) + 1)
    /\ forall j, j <> index base -> page p' j = page p j.
Proof.
  intros Hok Hus Hr. unfold alloc_at. rewrite Hus. set (i := index base) in *.
  assert (exists g, mPages p !! i = Some g /\ page p i = g) as (g & Hg & Hpg).
  { unfold page in *. destruct (mPages p !! i) as [g|]; [eauto|done]. }
  rewrite Hpg in *. pose proof (ok_count p Hok i g Hg) as Hc.
  assert (Hinc : incref g = mkPage true (refcnt g + 1)).
  { unfold incref. rewrite Hus. f_equal. width. apply Z.mod_small. lia. }
  rewrite Hinc. simpl. destruct (Z.eqb_spec (refcnt g + 1) 1) as [E|E].
  - destruct (ok_set_page p i g (mkPage true (refcnt g + 1)) (mFreePages p - 1) Hok Hg) as [Hok' _]; simpl.
    { lia. }
    { unfold available, free. rewrite Hus. simpl. rewrite E. assert (refcnt g = 0) as -> by lia. rewrite (ok_free p Hok). simpl. lia. }
    eexists. split; [done|]. split_and!; [done|unfold page; simpl; by rewrite lookup_insert_eq|].
    intros j Hj. unfold page. simpl. by rewrite lookup_insert_ne.
  - eexists. split; [done|]. split_and!; [|by rewrite page_set, decide_True|].
    + eapply set_page_same_free; [done|done|simpl; lia|]. unfold available, free. rewrite Hus. simpl.
      destruct (Z.eqb_spec (refcnt g + 1) 0), (Z.eqb_spec (refcnt g) 0); (done || lia).
    + intros j Hj. by rewrite page_set, decide_False.
Qed.

Lemma dealloc_spec p base : ok p -> usable (page p (index base)) = true -> 0 < refcnt (page p (index base)) ->
  exists p', dealloc p base = Some p' /\ ok p'
    /\ page p' (index base) = mkPage true (refcnt (page p (index base)) - 1)
    /\ forall j, j <> index base -> page p' j = page p j.
Proof.
  intros Hok Hus Hr. unfold dealloc. rewrite Hus. set (i := index base) in *.
  assert (exists g, mPages p !! i = Some g /\ page p i = g) as (g & Hg & Hpg).
  { unfold page in *. destruct (mPages p !! i) as [g|]; [eauto|done]. }
  rewrite Hpg in *. pose proof (ok_count p Hok i g Hg) as Hc. unfold free.
  destruct (Z.eqb_spec (refcnt g) 0); [lia|]. cbn [orb negb].
  assert (Hdec : decref g = mkPage true (refcnt g - 1)).
  { unfold decref. rewrite Hus. destruct (Z.eqb_spec (refcnt g) 0); [lia|done]. }
  rewrite Hdec. cbn [refcnt]. destruct (Z.eqb_spec (refcnt g - 1) 0) as [E|E].
  - destruct (ok_set_page p i g (mkPage true (refcnt g - 1)) (mFreePages p + 1) Hok Hg) as [Hok' _]; simpl.
    { lia. }
    { unfold available, free. rewrite Hus. simpl. rewrite E. destruct (Z.eqb_spec (refcnt g) 0); [lia|].
      rewrite (ok_free p Hok). simpl. lia. }
    eexists. split; [done|]. split_and!; [done|unfold page; simpl; by rewrite lookup_insert_eq|].
    intros j Hj. unfold page. simpl. by rewrite lookup_insert_ne.
  - eexists. split; [done|]. split_and!; [|by rewrite page_set, decide_True|].
    + eapply set_page_same_free; [done|done|simpl; lia|]. unfold available, free. rewrite Hus. simpl.
      destruct (Z.eqb_spec (refcnt g - 1) 0), (Z.eqb_spec (refcnt g) 0); (done || lia).
    + intros j Hj. by rewrite page_set, decide_False.
Qed.

End Manager.

Lemma index_frame i : index (gPageSize * i) = i.
Proof. unfold index, gPageSize. rewrite Z.mul_comm. apply Z.div_mul. lia. Qed.

End Phys.

Module Heap.
Import Phys.

(** [mRange.low], [mRange.high] and [mCurrent]. *)
Record heap := mkHeap { low : Z; high : Z; current : Z }.
Definition new (low high : Z) : heap := mkHeap low high low.
Definition size (h : heap) : Z := u32 (current h - low h).
Definition maxsize (h : heap) : Z := u32 (high h - low h).
Definition advance (h : heap) (blksz : Z) : heap := mkHeap (low h) (high h) (u32 (current h + blksz)).

Section Sbrk.
(** [oneblock] maps one more block at [current()]; it is the subclass that knows
    how, so its effect on the state [S] is an argument. *)
Context {S : Type} (blocksize : Z) (oneblock : Z -> S -> Z * S).

Definition round_up (amount : Z) : Z :=
  if amount mod blocksize =? 0 then amount else u32 (amount - amount mod blocksize + blocksize).

(** The loop of [sbrk]: [true] when it ran to its end, [false] on [return 0]. *)
Fixpoint sbrk_loop (fuel : nat) (h : heap) (amount : Z) (s : S) : option (bool * heap * S) :=
  if amount =? 0 then Some (true, h, s) else
  match fuel with
  | O => None
  | Datatypes.S fuel =>
      if current h >=? high h then Some (false, h, s) else
      let '(more, s) := oneblock (current h) s in
      if more =? 0 then Some (false, h, s) else
      sbrk_loop fuel (advance h blocksize) (u32 (amount - blocksize)) s
  end.

Definition sbrk (h : heap) (amount : Z) (s : S) : option (Z * heap * S) :=
  if amount =? 0 then Some (current h, h, s) else
  let cur := current h in
  let amount := round_up amount in
  '(finished, h, s) ← sbrk_loop (Z.to_nat (amount / blocksize)) h amount s;
  Some (if finished : bool then cur else 0, h, s).

(** The state after [n] calls of [oneblock] at consecutive blocks. *)
Fixpoint blocks (n : nat) (at_ : Z) (s : S) : S :=
  match n with O => s | Datatypes.S n => blocks n (at_ + blocksize) (oneblock at_ s).2 end.

Hypothesis blocksize_pos : 0 < blocksize < 2 ^ 32.

Lemma round_up_spec amount : 0 <= amount -> amount + blocksize <= 2 ^ 32 ->
  round_up amount mod blocksize = 0 /\ amount <= round_up amount < amount + blocksize.
Proof.
  intros Ha Hb. unfold round_up. destruct (Z.eqb_spec (amount mod blocksize) 0) as [E|E].
  - split; [done|lia].
  - pose proof (Z.mod_pos_bound amount blocksize ltac:(lia)) as Hm.
    rewrite u32_id by (unfold is_u; lia). split; [|lia].
    rewrite (Z.div_mod amount blocksize) at 1 by lia.
    replace (blocksize * (amount / blocksize) + amount mod blocksize - amount mod blocksize + blocksize)
      with ((amount / blocksize + 1) * blocksize) by lia. apply Z_mod_mult.
Qed.

(** [n] blocks fit below [high] and each of them can be had: the loop takes them
    all and stops. *)
Lemma sbrk_loop_spec n : forall h s,
  (forall a s, (oneblock a s).1 <> 0) ->
  0 <= current h -> current h + Z.of_nat n * blocksize < 2 ^ 32 ->
  current h + (Z.of_nat n - 1) * blocksize < high h ->
  sbrk_loop n h (Z.of_nat n * blocksize) s
    = Some (true, mkHeap (low h) (high h) (current h + Z.of_nat n * blocksize), blocks n (current h) s).
Proof.
  induction n as [|n IH]; intros h s Hone H0 Hw Hh.
  { destruct h as [lo hi cu]. cbn. by rewrite Z.add_0_r. }
  cbn [sbrk_loop]. destruct (Z.eqb_spec (Z.of_nat (Datatypes.S n) * blocksize) 0); [nia|].
  destruct (Z.geb_spec (current h) (high h)); [nia|].
  pose proof (Hone (current h) s) as Hm. cbn [blocks]. destruct (oneblock (current h) s) as [more s']. simpl in Hm |- *.
  destruct (Z.eqb_spec more 0); [done|]. unfold advance. rewrite !u32_id by (unfold is_u; nia).
  replace (Z.of_nat (Datatypes.S n) * blocksize - blocksize) with (Z.of_nat n * blocksize) by nia.
  rewrite IH; simpl; try done; try nia. do 3 f_equal. f_equal. nia.
Qed.

End Sbrk.
End Heap.
