(* ===== verification/Virt.v ===== *)
(** * Virtual memory (kernel/include/mm/virt.h, kernel/src/mm/virt.cpp)

    [Entry] is the bit layout of a page-table entry, [Indices] the split of an
    address into directory and table slots, [Virt] the operations of
    [VirtualPageManager] on the tables of the running address space, on the
    physical pages and on the contents of the frames.  [None] is the panic of the
    source.  TLB invalidation and logging have no state here. *)

From stdpp Require Import base numbers list gmap option.
From Stdlib Require Import ZArith Lia Bool.
From S2P Require Import Prelude Interval Phys.

Local Open Scope Z_scope.

Module Entry.

(** The accessors of [DEFINE_BOOL_FIELD] on a 32-bit [mValue]. *)
Definition get (v offset : Z) : bool := negb (Z.land v (Z.shiftl 1 offset) =? 0).
Definition set (offset : Z) (b : bool) (v : Z) : Z :=
  if b then Z.lor v (Z.shiftl 1 offset) else Z.land v (u32 (Z.lnot (Z.shiftl 1 offset))).

Definition bPresent := 0.
Definition bRw := 1.
Definition bUser := 2.
Definition bCacheoff := 4.
Definition bGlobal := 8.
Definition bFrompmm := 9.
(** Bit 10 is [cow] on a present page and [zpmap] on one that is not. *)
Definition bCow := 10.
Definition bZpmap := 10.

Definition gFlagsBitmask : Z := 0xFFF.

Definition page (v : Z) : Z := Z.land v 0xFFFFF000.
Definition set_page (value v : Z) : option Z :=
  if Z.land value gFlagsBitmask =? 0 then Some (Z.lor (Z.land v gFlagsBitmask) value) else None.

Lemma get_testbit v n : 0 <= n -> get v n = Z.testbit v n.
Proof.
  intros Hn. unfold get. rewrite Z.shiftl_1_l. destruct (Z.testbit v n) eqn:E.
  - apply negb_true_iff, Z.eqb_neq. intros H. assert (Z.testbit (Z.land v (2 ^ n)) n = false) as H'
      by (rewrite H; apply Z.bits_0). rewrite Z.land_spec, Z.pow2_bits_true, E in H' by done. done.
  - apply negb_false_iff, Z.eqb_eq. apply Z.bits_inj'. intros m Hm.
    rewrite Z.land_spec, Z.pow2_bits_eqb, Z.bits_0 by done. destruct (Z.eqb_spec n m) as [->|]; [by rewrite E|apply andb_false_r].
Qed.

Lemma testbit_high v m : is_u32 v -> 32 <= m -> Z.testbit v m = false.
Proof. intros Hv Hm. apply (testbit_above v 32); [exact Hv|lia]. Qed.

Lemma testbit_set n b v m : is_u32 v -> 0 <= n < 32 -> 0 <= m ->
  Z.testbit (set n b v) m = if n =? m then b else Z.testbit v m.
Proof.
  intros Hv Hn Hm. unfold set. rewrite Z.shiftl_1_l. destruct b.
  - rewrite Z.lor_spec, Z.pow2_bits_eqb by lia. destruct (n =? m); [apply orb_true_r|apply orb_false_r].
  - rewrite Z.land_spec. unfold u32, wrap. destruct (Z.lt_ge_cases m 32) as [Hlt|Hge].
    + rewrite Z.mod_pow2_bits_low by lia. rewrite Z.lnot_spec, Z.pow2_bits_eqb by lia.
      destruct (n =? m); simpl; [apply andb_false_r|apply andb_true_r].
    + rewrite Z.mod_pow2_bits_high by lia. rewrite (testbit_high v m) by done. destruct (n =? m); done.
Qed.

Lemma testbit_page v m : 0 <= m -> Z.testbit (page v) m = (12 <=? m) && (m <? 32) && Z.testbit v m.
Proof.
  intros Hm. unfold page. rewrite Z.land_spec. change 0xFFFFF000 with (Z.shiftl (Z.ones 20) 12).
  rewrite Z.shiftl_spec by done. destruct (Z.leb_spec 12 m); simpl.
  - rewrite testbit_ones by lia. destruct (Z.ltb_spec (m - 12) 20), (Z.ltb_spec m 32); try lia;
      (apply andb_true_r || apply andb_false_r).
  - rewrite (Z.testbit_neg_r _ (m - 12)) by lia. apply andb_false_r.
Qed.

Lemma is_u32_bits v : 0 <= v -> (forall m, 32 <= m -> Z.testbit v m = false) -> is_u32 v.
Proof.
  intros H0 H. unfold is_u. split; [done|]. destruct (Z.eq_dec v 0) as [->|]; [done|].
  apply Z.log2_lt_pow2; [lia|]. destruct (Z.lt_ge_cases (Z.log2 v) 32) as [|Hge]; [done|].
  specialize (H _ Hge). rewrite Z.bit_log2 in H by lia. done.
Qed.

Lemma set_u32 n b v : is_u32 v -> 0 <= n < 32 -> is_u32 (set n b v).
Proof.
  intros Hv Hn. apply is_u32_bits.
  - unfold set. unfold is_u in Hv. destruct b; [apply Z.lor_nonneg; split; [lia|apply Z.shiftl_nonneg; lia]|apply Z.land_nonneg; lia].
  - intros m Hm. rewrite testbit_set by (done || lia). destruct (Z.eqb_spec n m); [lia|]. by apply testbit_high.
Qed.

Lemma get_set n m b v : is_u32 v -> 0 <= n < 32 -> 0 <= m -> get (set n b v) m = if n =? m then b else get v m.
Proof. intros. rewrite !get_testbit by done. by apply testbit_set. Qed.

Lemma entry_page_set n b v : is_u32 v -> 0 <= n < 12 -> page (set n b v) = page v.
Proof.
  intros Hv Hn. apply Z.bits_inj'. intros m Hm. rewrite !testbit_page by done.
  destruct (Z.leb_spec 12 m); [|done]. rewrite testbit_set by (done || lia). destruct (Z.eqb_spec n m); [lia|done].
Qed.

(** A page-aligned 32-bit address. *)
Definition aligned (a : Z) : Prop := is_u32 a /\ Z.land a gFlagsBitmask = 0.

Lemma aligned_low a m : aligned a -> 0 <= m < 12 -> Z.testbit a m = false.
Proof.
  intros [_ H] Hm. assert (Z.testbit (Z.land a gFlagsBitmask) m = false) as H' by (rewrite H; apply Z.bits_0).
  rewrite Z.land_spec in H'. change gFlagsBitmask with (Z.ones 12) in H'. rewrite testbit_ones in H' by lia.
  destruct (Z.ltb_spec m 12); [|lia]. by rewrite andb_true_r in H'.
Qed.

Lemma set_page_spec value v : aligned value -> is_u32 v ->
  exists v', set_page value v = Some v' /\ is_u32 v' /\ page v' = value
    /\ forall n, 0 <= n < 12 -> get v' n = get v n.
Proof.
  intros Ha Hv. pose proof Ha as [Hu H]. unfold set_page. rewrite H. eexists. split; [done|].
  assert (Hb : forall m, 0 <= m -> Z.testbit (Z.lor (Z.land v gFlagsBitmask) value) m
                 = if m <? 12 then Z.testbit v m else Z.testbit value m).
  { intros m Hm. rewrite Z.lor_spec, Z.land_spec. change gFlagsBitmask with (Z.ones 12). rewrite testbit_ones by lia.
    destruct (Z.ltb_spec m 12).
    - rewrite (aligned_low value m) by (done || lia). by rewrite andb_true_r, orb_false_r.
    - by rewrite andb_false_r. }
  split_and!.
  - unfold is_u in *. apply is_u32_bits; [apply Z.lor_nonneg; split; [apply Z.land_nonneg; lia|lia]|].
    intros m Hm. rewrite Hb by lia. destruct (Z.ltb_spec m 12); [lia|]. by apply testbit_high.
  - apply Z.bits_inj'. intros m Hm. rewrite testbit_page, Hb by done.
    destruct (Z.leb_spec 12 m); simpl.
    + destruct (Z.ltb_spec m 12); [lia|]. destruct (Z.ltb_spec m 32); [done|]. by rewrite testbit_high.
    + rewrite (aligned_low value m) by (done || lia). done.
  - intros n Hn. rewrite !get_testbit, Hb by lia. destruct (Z.ltb_spec n 12); [done|lia].
Qed.

Lemma page_aligned v : is_u32 v -> aligned (page v).
Proof.
  intros Hv. assert (Hu : is_u32 (page v)).
  { apply is_u32_bits; [apply Z.land_nonneg; right; lia|]. intros m Hm. rewrite testbit_page by lia.
    destruct (Z.ltb_spec m 32); [lia|]. by rewrite andb_false_r. }
  split; [done|]. apply Z.bits_inj'. intros m Hm. rewrite Z.land_spec, Z.bits_0, testbit_page by done.
  change gFlagsBitmask with (Z.ones 12). rewrite testbit_ones by lia.
  destruct (Z.leb_spec 12 m), (Z.ltb_spec m 12); simpl; try lia; try done.
Qed.

#[global] Arguments set : simpl never.
#[global] Arguments get : simpl never.
#[global] Arguments page : simpl never.

End Entry.

Module Indices.

Record PagingIndices := mkIndices { dir : Z; tbl : Z }.

#[global] Instance indices_eq_dec : EqDecision PagingIndices.
Proof. solve_decision. Defined.

Definition of_address (virt : Z) : PagingIndices :=
  mkIndices (Z.shiftr virt 22) (Z.land (Z.shiftr virt 12) 0x3FF).

(** [operator++] *)
Definition next (i : PagingIndices) : PagingIndices :=
  if tbl i + 1 =? 1024 then mkIndices (if dir i + 1 =? 1024 then 0 else dir i + 1) 0
  else mkIndices (dir i) (tbl i + 1).

(** [operator<] as the source writes it. *)
Definition ltb (i j : PagingIndices) : bool := (dir i <? dir j) || (tbl i <? tbl j).

Definition address (i : PagingIndices) : Z := u32 (4194304 * dir i + 4096 * tbl i).

Definition wf (i : PagingIndices) : Prop := 0 <= dir i < 1024 /\ 0 <= tbl i < 1024.

(** The position of a slot among the 2^20 of the tables. *)
Definition number (i : PagingIndices) : Z := 1024 * dir i + tbl i.

Lemma of_address_div a : 0 <= a -> of_address a = mkIndices (a / 2 ^ 22) (a / 2 ^ 12 mod 2 ^ 10).
Proof.
  intros Ha. unfold of_address. rewrite !Z.shiftr_div_pow2 by lia. f_equal.
  change 0x3FF with (Z.ones 10). by apply Z.land_ones.
Qed.

Lemma of_address_number a : 0 <= a -> number (of_address a) = a / 4096.
Proof.
  intros Ha. rewrite of_address_div by done. unfold number. simpl dir. simpl tbl.
  change (2 ^ 22) with (2 ^ 12 * 2 ^ 10). rewrite <- Z.div_div by lia. change (2 ^ 10) with 1024.
  pose proof (Z.div_mod (a / 2 ^ 12) 1024). change 4096 with (2 ^ 12). lia.
Qed.

Lemma of_address_wf a : is_u32 a -> wf (of_address a).
Proof.
  intros Ha. unfold is_u in Ha. rewrite of_address_div by lia. unfold wf. simpl dir. simpl tbl.
  pose proof (Z.mod_pos_bound (a / 2 ^ 12) (2 ^ 10) ltac:(lia)). split; [|lia].
  split; [apply Z.div_pos; lia|apply Z.div_lt_upper_bound; lia].
Qed.

Lemma address_number i : wf i -> address i = 4096 * number i.
Proof. intros [Hd Ht]. unfold address, number. rewrite u32_id by (unfold is_u; lia). lia. Qed.

Lemma number_inj i j : wf i -> wf j -> number i = number j -> i = j.
Proof. destruct i, j. unfold wf, number. simpl. intros. f_equal; lia. Qed.

Lemma of_address_address i : wf i -> of_address (address i) = i.
Proof.
  intros Hi. assert (Ha : 0 <= number i < 2 ^ 20) by (destruct Hi; unfold number; lia).
  assert (is_u32 (address i)) by (rewrite address_number by done; unfold is_u; lia).
  apply number_inj; [by apply of_address_wf|done|]. rewrite of_address_number by (unfold is_u in *; lia).
  rewrite address_number by done. rewrite Z.mul_comm, Z.div_mul by lia. done.
Qed.

Lemma next_number i : wf i -> wf (next i) /\ number (next i) = (number i + 1) mod 2 ^ 20.
Proof.
  destruct i as [d t]. unfold wf, next, number. simpl. intros [Hd Ht].
  destruct (Z.eqb_spec (t + 1) 1024); simpl.
  - destruct (Z.eqb_spec (d + 1) 1024); simpl.
    + split; [lia|]. replace (1024 * d + t + 1) with (2 ^ 20) by lia. done.
    + split; [lia|]. rewrite Z.mod_small; lia.
  - split; [lia|]. rewrite Z.mod_small; lia.
Qed.

(** Below a bound in the order of the tables the comparison is that order. *)
Lemma ltb_below i j : wf i -> wf j -> number i <= number j -> ltb i j = (number i <? number j).
Proof.
  destruct i as [d t], j as [d' t']. unfold wf, ltb, number. simpl. intros.
  destruct (Z.ltb_spec d d'), (Z.ltb_spec t t'), (Z.ltb_spec (1024 * d + t) (1024 * d' + t')); simpl; (done || lia).
Qed.

End Indices.

Module Virt.
Import Entry Indices.

Record map_options_t := mkOpts {
  rw : bool; user : bool; clear : bool; frompmm : bool; cow : bool; cached : bool; global : bool }.

Definition default_options : map_options_t := mkOpts true false false false false true false.
Definition make_options (rw user clear frompmm : bool) : map_options_t := mkOpts rw user clear frompmm false true false.
Definition kernel_options : map_options_t := make_options true false false false.
Definition userspace_options : map_options_t := make_options true true false false.
Definition with_rw (o : map_options_t) b := mkOpts b (user o) (clear o) (frompmm o) (cow o) (cached o) (global o).
Definition with_clear (o : map_options_t) b := mkOpts (rw o) (user o) b (frompmm o) (cow o) (cached o) (global o).
Definition with_frompmm (o : map_options_t) b := mkOpts (rw o) (user o) (clear o) b (cow o) (cached o) (global o).
Definition with_cow (o : map_options_t) b := mkOpts (rw o) (user o) (clear o) (frompmm o) b (cached o) (global o).

Definition gPageSize : Z := 4096.
Definition gKernelBase : Z := 0xC0000000.
Definition gZeroPagePhysical : Z := 0.
(** What the page-granular calls return when they fail: not page aligned. *)
Definition no_page : Z := gPageSize - 1.

Definition page_of (addr : Z) : Z := Z.land addr (u32 (Z.lnot (gPageSize - 1))).
Definition offset (addr : Z) : Z := Z.land addr (gPageSize - 1).
Definition iskernel (addr : Z) : bool := gKernelBase <=? addr.

(** The tables of the running address space by slot, the physical pages, the
    contents of the frames, [gCurrentProcess != nullptr] with its
    [memstats.allocated], the scratch area and the kernel regions. *)
Record vm := mkVm {
  entries : gmap (Z * Z) Z; phys : Phys.pmm; frames : gmap Z (list Z);
  running : bool; allocated : Z; scratch_low : Z; scratch_high : Z;
  mKernelRegions : list Interval.interval_t }.

Definition entry (s : vm) (i : PagingIndices) : Z := default 0 (entries s !! (dir i, tbl i)).
Definition set_entry (s : vm) (i : PagingIndices) (v : Z) : vm :=
  mkVm (<[(dir i, tbl i) := v]> (entries s)) (phys s) (frames s) (running s) (allocated s) (scratch_low s) (scratch_high s) (mKernelRegions s).
Definition set_phys (s : vm) (p : Phys.pmm) : vm :=
  mkVm (entries s) p (frames s) (running s) (allocated s) (scratch_low s) (scratch_high s) (mKernelRegions s).
Definition set_frame (s : vm) (base : Z) (c : list Z) : vm :=
  mkVm (entries s) (phys s) (<[base := c]> (frames s)) (running s) (allocated s) (scratch_low s) (scratch_high s) (mKernelRegions s).
Definition set_allocated (s : vm) (n : Z) : vm :=
  mkVm (entries s) (phys s) (frames s) (running s) (u32 n) (scratch_low s) (scratch_high s) (mKernelRegions s).
Definition set_regions (s : vm) (l : list Interval.interval_t) : vm :=
  mkVm (entries s) (phys s) (frames s) (running s) (allocated s) (scratch_low s) (scratch_high s) l.

(** The accounting of a page to the running process. *)
Definition charge (s : vm) (counts : bool) (bytes : Z) : vm :=
  if running s && counts then set_allocated s (allocated s + bytes) else s.

Definition zeroes : list Z := replicate 4096 0.
Definition frame (s : vm) (base : Z) : list Z := default zeroes (frames s !! base).

(** [bzero] of a page through its mapping; only page-aligned addresses are
    cleared here, another one would run into the next page and is a stop. *)
Definition bzero_page (s : vm) (virt : Z) : option vm :=
  if offset virt =? 0 then Some (set_frame s (page (entry s (of_address virt))) zeroes) else None.

Definition memcopy_page (s : vm) (src dest : Z) : option vm :=
  if (offset src =? 0) && (offset dest =? 0) then
    Some (set_frame s (page (entry s (of_address dest))) (frame s (page (entry s (of_address src)))))
  else None.

Definition mapZeroPage (s : vm) (virt : Z) (opts : map_options_t) : option (Z * vm) :=
  let i := of_address virt in
  let e := set bUser (user opts) (set bRw (rw opts) (set bPresent false (entry s i))) in
  e ← set_page gZeroPagePhysical e;
  Some (virt, set_entry s i (set bFrompmm false (set bZpmap true e))).

Fixpoint mapZeroPage_loop (fuel : nat) (s : vm) (i to : Z) (opts : map_options_t) : option vm :=
  if i <=? to then
    match fuel with
    | O => None
    | S fuel => '(_, s) ← mapZeroPage s i opts; mapZeroPage_loop fuel s (u32 (i + gPageSize)) to opts
    end
  else Some s.

Definition mapZeroPage_range (s : vm) (from to : Z) (opts : map_options_t) : option (Z * vm) :=
  s ← mapZeroPage_loop (Z.to_nat ((to - from) / gPageSize + 1)) s from to opts;
  Some (from, s).

Definition isZeroPageAccess (s : vm) (virt : Z) : bool :=
  let e := entry s (of_address (page_of virt)) in
  (page e =? gZeroPagePhysical) && negb (get e bPresent).

Definition isCOWAccess (s : vm) (errcode virt : Z) : bool :=
  let e := entry s (of_address (page_of virt)) in
  if get e bPresent && negb (get e bRw) && get e bCow then 3 =? Z.land errcode 3 else false.

(** The value [map] writes before it touches the contents. *)
Definition map_entry (e phys : Z) (o : map_options_t) : option Z :=
  let mustprotect := clear o && negb (rw o) in
  let e := set bPresent true e in
  let e := set bRw (if mustprotect then true else rw o) e in
  let e := set bUser (user o) e in
  let e := set bCacheoff (negb (cached o)) e in
  let e := set bGlobal (global o) e in
  let e := set bFrompmm (frompmm o) e in
  let e := set bCow (cow o) e in
  set_page phys e.

(** Clearing the page through its new mapping, then protecting it. *)
Definition clear_mapped (s : vm) (virt : Z) (o : map_options_t) : option vm :=
  let i := of_address virt in
  let mustprotect := clear o && negb (rw o) in
  if clear o then
    s ← bzero_page s virt;
    Some (if mustprotect then set_entry s i (set bRw false (entry s i)) else s)
  else Some s.

Definition map (s : vm) (phys virt : Z) (o : map_options_t) : option (Z * vm) :=
  let i := of_address virt in
  let isuserspace := negb (iskernel virt) in
  e ← map_entry (entry s i) phys o;
  let s := set_entry s i e in
  s ← clear_mapped s virt o;
  Some (virt, charge s isuserspace gPageSize).

Fixpoint maprange_loop (fuel : nat) (s : vm) (phys physhigh virt : Z) (o : map_options_t) : option (Z * vm) :=
  if phys <? physhigh then
    match fuel with
    | O => None
    | S fuel =>
        '(_, s) ← map s phys virt o;
        maprange_loop fuel s (u32 (phys + gPageSize)) physhigh (u32 (virt + gPageSize)) o
    end
  else Some (virt, s).

Definition maprange (s : vm) (physlow physhigh virt : Z) (o : map_options_t) : option (Z * vm) :=
  let physlow := page_of physlow in
  let physhigh := if page_of physhigh <? physhigh then u32 (page_of physhigh + gPageSize) else physhigh in
  maprange_loop (Z.to_nat ((physhigh - physlow) / gPageSize + 1)) s physlow physhigh virt o.

Definition mapping (s : vm) (virt : Z) : Z :=
  let e := entry s (of_address (page_of virt)) in
  if get e bPresent then u32 (page e + offset virt) else 0.

(** The options read back from an entry into [opts]. *)
Definition read_options (e : Z) (opts : map_options_t) : map_options_t :=
  mkOpts (get e bRw) (get e bUser) (clear opts) (get e bFrompmm) (get e bCow) (negb (get e bCacheoff)) (get e bGlobal).

Definition mapped (s : vm) (virt : Z) (opts : map_options_t) : option map_options_t :=
  let e := entry s (of_address (page_of virt)) in
  if get e bPresent then Some (read_options e opts) else None.

Definition zeroPageMapped (s : vm) (virt : Z) (opts : map_options_t) : option map_options_t :=
  let e := entry s (of_address (page_of virt)) in
  if negb (get e bPresent) && get e bZpmap then Some (read_options e opts) else None.

Definition newoptions_entry (e : Z) (o : map_options_t) : Z :=
  set bCow (cow o) (set bFrompmm (frompmm o) (set bGlobal (global o) (set bCacheoff (negb (cached o))
    (set bUser (user o) (set bRw (rw o) e))))).

Definition newoptions (s : vm) (virt : Z) (o : map_options_t) : Z * vm :=
  let i := of_address (page_of virt) in
  let e := entry s i in
  if get e bPresent || get e bZpmap then (virt, set_entry s i (newoptions_entry e o)) else (no_page, s).

Definition markCOW (s : vm) (virt : Z) : Z * vm :=
  match mapped s virt default_options with
  | Some opts => newoptions s virt (with_cow (with_rw opts false) true)
  | None => (no_page, s)
  end.

Definition unmap (s : vm) (virt : Z) : option vm :=
  let i := of_address virt in
  let e := entry s i in
  let wasthere := get e bPresent in
  let isuserspace := negb (iskernel virt) in
  let isfrompmm := get e bFrompmm in
  if isfrompmm && negb wasthere then None else
  let e := set bFrompmm false (set bZpmap false (set bPresent false e)) in
  p ← (if isfrompmm then Phys.dealloc (phys s) (page e) else Some (phys s));
  e ← set_page 0 e;
  let s := set_phys (set_entry s i e) p in
  Some (charge s (wasthere && isuserspace) (- gPageSize)).

Fixpoint unmaprange_loop (fuel : nat) (s : vm) (low high : Z) : option vm :=
  if low <? high then
    match fuel with
    | O => None
    | S fuel => s ← unmap s low; unmaprange_loop fuel s (u32 (low + gPageSize)) high
    end
  else Some s.

Definition unmaprange (s : vm) (low high : Z) : option vm :=
  unmaprange_loop (Z.to_nat ((high - low) / gPageSize + 1)) s low high.

(** The pages tried by [findPageWithinRange]; [fuel] counts the slots from [ilow]
    to [ihigh] going around the tables, where the comparison is false. *)
Fixpoint findPage_loop (fuel : nat) (s : vm) (ilow ihigh : PagingIndices) : Z :=
  if ltb ilow ihigh then
    match mapped s (address ilow) default_options with
    | None => address ilow
    | Some _ => match fuel with O => no_page | S fuel => findPage_loop fuel s (next ilow) ihigh end
    end
  else no_page.

Definition findPageWithinRange (s : vm) (low high : Z) : Z :=
  let ilow := of_address low in
  let ihigh := of_address high in
  findPage_loop (Z.to_nat ((number ihigh - number ilow) mod 2 ^ 20)) s ilow ihigh.

Section Allocating.
(** The length of the array of physical pages. *)
Context (gNumPages : Z).

(** [PhysicalPageManager::alloc().result()]: extracting from a failure panics. *)
Definition alloc_result (s : vm) : option (Z * vm) :=
  '(base, p) ← Phys.alloc gNumPages (phys s); Some (base, set_phys s p).

Definition mapAnyPhysicalPage (s : vm) (virt : Z) (o : map_options_t) : option (Z * vm) :=
  match mapped s virt default_options with
  | Some _ => Some (virt, s)
  | None =>
      '(base, s) ← alloc_result s;
      '(_, s) ← map s base virt (with_frompmm o true);
      Some (virt, s)
  end.

Definition mapPageWithinRange (s : vm) (low high : Z) (o : map_options_t) : option (Z * vm) :=
  let pg := findPageWithinRange s low high in
  if Z.land pg 1 =? 0 then mapAnyPhysicalPage s pg o else Some (pg, s).

(** A scratch page for a given physical page, and its destructor. *)
Definition getScratchPage (s : vm) (phys : Z) (o : map_options_t) : option (Z * vm) :=
  let vaddr := findPageWithinRange s (scratch_low s) (scratch_high s) in
  '(_, s) ← map s phys vaddr o;
  Some (vaddr, s).

Definition dropScratchPage (s : vm) (address : Z) : option vm :=
  if negb (address =? 0) && (Z.land address 1 =? 0) then unmap s address else Some s.

(** [Some None] is the [OUT_OF_MEMORY] failure. *)
Definition clonePage (s : vm) (virt : Z) (options : map_options_t) : option (option Z * vm) :=
  let pg := page_of virt in
  match Phys.alloc gNumPages (phys s) with
  | None => Some (None, s)
  | Some (ph, p) =>
      '(sp, s) ← getScratchPage (set_phys s p) ph default_options;
      s ← memcopy_page s pg sp;
      s ← dropScratchPage s sp;
      let opts := with_rw (with_cow (with_frompmm options true) false) true in
      s ← unmap s pg;
      '(_, s) ← map s ph pg opts;
      Some (Some ph, s)
  end.

(** [KernelHeap::oneblock] maps a cleared page at the end of the heap. *)
Definition oneblock (current : Z) (s : vm) : option (Z * vm) :=
  '(block, s) ← alloc_result s;
  '(_, s) ← map s block current (with_clear default_options true);
  Some (current, s).

End Allocating.

Definition addKernelRegion (s : vm) (low high : Z) : vm :=
  set_regions s (IntervalList.add (mKernelRegions s)
    (Interval.mkInterval (u32 (low - gKernelBase)) (u32 (high - gKernelBase)))).

Definition findKernelRegion (s : vm) (size : Z) : option Interval.interval_t :=
  let size := if offset size >? 0 then u32 (size - offset size + gPageSize) else size in
  r ← IntervalList.findFree 1073741824 (mKernelRegions s) size;
  Some (Interval.mkInterval (u32 (Interval.from r + gKernelBase)) (u32 (Interval.to r + gKernelBase))).

Definition delKernelRegion (s : vm) (r : Interval.interval_t) : vm :=
  set_regions s (IntervalList.del (mKernelRegions s)
    (Interval.mkInterval (u32 (Interval.from r - gKernelBase)) (u32 (Interval.to r - gKernelBase)))).1.

Definition isWithinKernelRegion (s : vm) (address : Z) : option Interval.interval_t :=
  IntervalList.contains (mKernelRegions s) (u32 (address - gKernelBase)).

(** [ksbrk] panics on failure. *)
Definition ksbrk (gNumPages : Z) (h : Heap.heap) (amount : Z) (s : vm) : option (Z * Heap.heap * vm) :=
  let block c os := match os ≫= oneblock gNumPages c with Some (r, s) => (r, Some s) | None => (0, None) end in
  match Heap.sbrk gPageSize block h amount (Some s) with
  | Some (ptr, h, Some s) => if ptr =? 0 then None else Some (ptr, h, s)
  | _ => None
  end.

(** ** Addresses *)

Lemma page_of_eq a : page_of a = page a.
Proof. reflexivity. Qed.

Lemma page_of_div a : is_u32 a -> page_of a = 4096 * (a / 4096).
Proof.
  intros Ha. rewrite page_of_eq. transitivity (Z.shiftl (Z.shiftr a 12) 12).
  - apply Z.bits_inj'. intros m Hm. rewrite testbit_page, Z.shiftl_spec by done.
    destruct (Z.leb_spec 12 m); simpl; [|by rewrite Z.testbit_neg_r by lia].
    rewrite Z.shiftr_spec by lia. replace (m - 12 + 12) with m by lia.
    destruct (Z.ltb_spec m 32); [done|]. by rewrite testbit_high.
  - rewrite Z.shiftl_mul_pow2, Z.shiftr_div_pow2 by lia. change (2 ^ 12) with 4096. lia.
Qed.

Lemma offset_mod a : offset a = a mod 4096.
Proof. unfold offset. change (gPageSize - 1) with (Z.ones 12). by apply Z.land_ones. Qed.

Lemma page_of_range a : is_u32 a -> is_u32 (page_of a).
Proof.
  intros Ha. rewrite page_of_div by done. unfold is_u in *. pose proof (Z.div_mod a 4096 ltac:(lia)).
  pose proof (Z.mod_pos_bound a 4096 ltac:(lia)). lia.
Qed.

(** All addresses of a page have the slot of the page. *)
Lemma of_address_page a : is_u32 a -> of_address (page_of a) = of_address a.
Proof.
  intros Ha. pose proof (page_of_range a Ha) as Hp. apply number_inj; [by apply of_address_wf|by apply of_address_wf|].
  unfold is_u in *. rewrite !of_address_number by lia. rewrite page_of_div by done.
  by rewrite (Z.mul_comm 4096 (a / 4096)), Z.div_mul by lia.
Qed.

Lemma aligned_offset a : aligned a -> offset a = 0.
Proof. by intros [_ H]. Qed.

Lemma aligned_page_of a : aligned a -> page_of a = a.
Proof.
  intros [Hu H]. rewrite page_of_div by done. change gFlagsBitmask with (Z.ones 12) in H.
  rewrite Z.land_ones in H by lia. change (2 ^ 12) with 4096 in H. pose proof (Z.div_mod a 4096). lia.
Qed.

Lemma aligned_mul a i : a = Phys.gPageSize * i -> 0 <= i < 2 ^ 20 -> aligned a.
Proof.
  intros -> Hi. unfold Phys.gPageSize. split; [unfold is_u; lia|]. change gFlagsBitmask with (Z.ones 12).
  rewrite Z.land_ones by lia. change (2 ^ 12) with 4096. rewrite Z.mul_comm. apply Z_mod_mult.
Qed.

Lemma slot_page a b : is_u32 a -> is_u32 b -> of_address a = of_address b <-> page_of a = page_of b.
Proof.
  intros Ha Hb. split; intros H.
  - assert (number (of_address a) = number (of_address b)) as Hn by (by rewrite H).
    unfold is_u in *. rewrite !of_address_number in Hn by lia. rewrite !page_of_div by (unfold is_u; lia). by rewrite Hn.
  - by rewrite <- (of_address_page a), <- (of_address_page b), H.
Qed.

(** ** Entries *)

Definition entries_ok (s : vm) : Prop := forall k v, entries s !! k = Some v -> is_u32 v.

Lemma entry_u32 s i : entries_ok s -> is_u32 (entry s i).
Proof. intros H. unfold entry. destruct (entries s !! _) eqn:E; simpl; [eauto|unfold is_u; lia]. Qed.

Lemma entry_set s i v j : entry (set_entry s i v) j = if decide ((dir i, tbl i) = (dir j, tbl j)) then v else entry s j.
Proof. unfold entry, set_entry. simpl. rewrite lookup_insert. by case_decide. Qed.

Lemma entry_set_eq s i v : entry (set_entry s i v) i = v.
Proof. rewrite entry_set. by rewrite decide_True. Qed.

Lemma entry_set_ne s i v j : i <> j -> entry (set_entry s i v) j = entry s j.
Proof. intros H. rewrite entry_set. rewrite decide_False; [done|]. destruct i, j; simpl. congruence. Qed.

Lemma entries_ok_set s i v : entries_ok s -> is_u32 v -> entries_ok (set_entry s i v).
Proof. intros H Hv k w. simpl. rewrite lookup_insert_Some. intros [[_ <-]|[_ ?]]; eauto. Qed.

(** Reading back what was written, bit by bit. *)
Ltac bits := repeat (rewrite get_set by (first [done | lia | repeat apply set_u32; first [done | lia]])); simpl.

Record has_options (e phys : Z) (o : map_options_t) : Prop := {
  ho_u32 : is_u32 e; ho_page : page e = phys; ho_present : get e bPresent = true;
  ho_options c : read_options e (with_clear o c) = with_clear o c }.

Lemma map_entry_spec e phys o : is_u32 e -> aligned phys ->
  exists e', map_entry e phys o = Some e' /\ has_options e' phys (if clear o then with_rw o true else o).
Proof.
  intros He Hp. unfold map_entry.
  match goal with |- context [set_page phys ?v] => set (e1 := v) end.
  assert (Hu : is_u32 e1) by (unfold e1; repeat apply set_u32; first [done|unfold bPresent, bRw, bUser, bCacheoff, bGlobal, bFrompmm, bCow; lia]).
  destruct (set_page_spec phys e1 Hp Hu) as (e' & -> & Hu' & Hpg & Hget). exists e'. split; [done|].
  split; [done|done| |].
  - rewrite Hget by (unfold bPresent; lia). unfold e1, bPresent, bRw, bUser, bCacheoff, bGlobal, bFrompmm, bCow. bits. done.
  - intros c. unfold read_options. rewrite !Hget by (unfold bPresent, bRw, bUser, bCacheoff, bGlobal, bFrompmm, bCow; lia).
    unfold e1, bPresent, bRw, bUser, bCacheoff, bGlobal, bFrompmm, bCow. bits.
    destruct o as [r us cl fp cw ca gl]; simpl. destruct cl, r; simpl; by rewrite negb_involutive.
Qed.

Lemma protect_entry e phys o : has_options e phys o -> has_options (set bRw false e) phys (with_rw o false).
Proof.
  intros [Hu Hp Hpr Ho]. unfold bPresent, bRw in *. split.
  - apply set_u32; [done|lia].
  - by rewrite entry_page_set by (done || lia).
  - unfold bPresent. bits. done.
  - intros c. specialize (Ho c). destruct o as [r us cl fp cw ca gl]. unfold read_options, with_clear, with_rw in *. simpl in *.
    unfold bRw, bUser, bFrompmm, bCow, bCacheoff, bGlobal in *. injection Ho as H1 H2 H3 H4 H5 H6. bits. congruence.
Qed.

(** What no operation on one page changes. *)
Record same_setup (s s' : vm) : Prop := {
  ss_running : running s' = running s; ss_low : scratch_low s' = scratch_low s;
  ss_high : scratch_high s' = scratch_high s; ss_regions : mKernelRegions s' = mKernelRegions s }.

#[global] Instance same_setup_po : PreOrder same_setup.
Proof. split; [by split|]. intros s1 s2 s3 [] []. split; congruence. Qed.

Lemma charge_same s b n : entries (charge s b n) = entries s /\ phys (charge s b n) = phys s
  /\ frames (charge s b n) = frames s /\ same_setup s (charge s b n)
  /\ allocated (charge s b n) = if running s && b then u32 (allocated s + n) else allocated s.
Proof. unfold charge. by destruct (running s && b). Qed.

Lemma entry_charge s b n j : entry (charge s b n) j = entry s j.
Proof. unfold entry. by destruct (charge_same s b n) as (-> & _). Qed.

Lemma entries_ok_charge s b n : entries_ok s -> entries_ok (charge s b n).
Proof. unfold entries_ok. by destruct (charge_same s b n) as (-> & _). Qed.

(** The effect of [map] on a page that is aligned. *)
Record mapped_to (s s' : vm) (ph virt : Z) (o : map_options_t) : Prop := {
  mt_ok : entries_ok s';
  mt_entry : has_options (entry s' (of_address virt)) ph o;
  mt_other j : j <> of_address virt -> entry s' j = entry s j;
  mt_phys : phys s' = phys s;
  mt_frames : frames s' = (if clear o then <[ph := zeroes]> (frames s) else frames s);
  mt_allocated : allocated s'
    = (if running s && negb (iskernel virt) then u32 (allocated s + gPageSize) else allocated s);
  mt_setup : same_setup s s' }.

Lemma clear_mapped_spec s ph virt o :
  entries_ok s -> aligned virt ->
  has_options (entry s (of_address virt)) ph (if clear o then with_rw o true else o) ->
  exists s', clear_mapped s virt o = Some s' /\ entries_ok s'
    /\ has_options (entry s' (of_address virt)) ph o
    /\ (forall j, j <> of_address virt -> entry s' j = entry s j) /\ phys s' = phys s
    /\ frames s' = (if clear o then <[ph := zeroes]> (frames s) else frames s)
    /\ allocated s' = allocated s /\ same_setup s s'.
Proof.
  intros Hs Hv He. unfold clear_mapped, bzero_page. rewrite aligned_offset by done. set (i := of_address virt) in *.
  destruct (clear o) eqn:Hcl; [|exists s; by split_and!]. change (0 =? 0) with true. cbn [mbind option_bind andb].
  rewrite (ho_page _ _ _ He). eexists. split; [done|]. destruct (rw o) eqn:Hrw; cbn [negb].
  - assert (Hoo : with_rw o true = o) by (destruct o; simpl in *; by subst). rewrite Hoo in He. by split_and!.
  - apply protect_entry in He. assert (Hoo : with_rw (with_rw o true) false = o) by (destruct o; simpl in *; by subst).
    rewrite Hoo in He. change (entry (set_frame s ph zeroes) i) with (entry s i). split_and!; try done.
    + apply entries_ok_set; [done|apply He].
    + by rewrite entry_set_eq.
    + intros j Hj. by rewrite entry_set_ne.
Qed.

Lemma map_spec s ph virt o : entries_ok s -> aligned ph -> aligned virt ->
  exists s', map s ph virt o = Some (virt, s') /\ mapped_to s s' ph virt o.
Proof.
  intros Hs Hp Hv. unfold map. set (i := of_address virt).
  destruct (map_entry_spec (entry s i) ph o (entry_u32 s i Hs) Hp) as (e & -> & He). cbn [mbind option_bind].
  destruct (clear_mapped_spec (set_entry s i e) ph virt o) as (s2 & -> & H2 & He2 & Hj2 & Hp2 & Hf2 & Ha2 & Hs2); [|done| |].
  { apply entries_ok_set; [done|apply He]. }
  { by rewrite entry_set_eq. }
  cbn [mbind option_bind]. eexists. split; [done|].
  destruct (charge_same s2 (negb (iskernel virt)) gPageSize) as (_ & Hcp & Hcf & Hcs & Hca).
  split; [by apply entries_ok_charge|by rewrite entry_charge| |by rewrite Hcp, Hp2| | |].
  - intros j Hj. rewrite entry_charge, Hj2 by done. by rewrite entry_set_ne.
  - by rewrite Hcf, Hf2.
  - rewrite Hca, Ha2, (ss_running _ _ Hs2). done.
  - etrans; [|done]. destruct Hs2. by split.
Qed.

(** The effect of [unmap], with [p] the physical pages after it. *)
Record unmapped_from (s s' : vm) (virt : Z) (p : Phys.pmm) : Prop := {
  uf_ok : entries_ok s';
  uf_present : get (entry s' (of_address virt)) bPresent = false;
  uf_frompmm : get (entry s' (of_address virt)) bFrompmm = false;
  uf_zpmap : get (entry s' (of_address virt)) bZpmap = false;
  uf_page : page (entry s' (of_address virt)) = 0;
  uf_other j : j <> of_address virt -> entry s' j = entry s j;
  uf_phys : phys s' = p;
  uf_frames : frames s' = frames s;
  uf_allocated : allocated s'
    = (if running s && (get (entry s (of_address virt)) bPresent && negb (iskernel virt))
       then u32 (allocated s - gPageSize) else allocated s);
  uf_setup : same_setup s s' }.

Lemma unmap_spec s virt p : entries_ok s ->
  (if get (entry s (of_address virt)) bFrompmm
   then get (entry s (of_address virt)) bPresent = true
        /\ Phys.dealloc (phys s) (page (entry s (of_address virt))) = Some p
   else p = phys s) ->
  exists s', unmap s virt = Some s' /\ unmapped_from s s' virt p.
Proof.
  intros Hs Hp. unfold unmap. set (i := of_address virt) in *. set (e := entry s i) in *.
  assert (He : is_u32 e) by (by apply entry_u32).
  set (e1 := set bFrompmm false (set bZpmap false (set bPresent false e))).
  assert (He1 : is_u32 e1) by (unfold e1, bFrompmm, bZpmap, bPresent; repeat apply set_u32; (done || lia)).
  assert (Hpg : page e1 = page e).
  { unfold e1, bFrompmm, bZpmap, bPresent. rewrite !entry_page_set; try done; try lia; repeat apply set_u32; (done || lia). }
  assert (Hg : (if get e bFrompmm then Phys.dealloc (phys s) (page e1) else Some (phys s)) = Some p).
  { destruct (get e bFrompmm); [rewrite Hpg; apply Hp|by rewrite Hp]. }
  assert (Hn : get e bFrompmm && negb (get e bPresent) = false).
  { destruct (get e bFrompmm); [|done]. destruct Hp as [-> _]. done. }
  rewrite Hn, Hg. cbn [mbind option_bind].
  destruct (set_page_spec 0 e1) as (e2 & -> & He2 & Hpg2 & Hget); [split; [unfold is_u; lia|done]|done|].
  cbn [mbind option_bind]. eexists. split; [done|].
  match goal with |- context [charge ?x ?b ?n] => destruct (charge_same x b n) as (_ & Hcp & Hcf & Hcs & Hca); set (s1 := x) in * end.
  assert (Hbits : get e2 bPresent = false /\ get e2 bFrompmm = false /\ get e2 bZpmap = false).
  { rewrite !Hget by (unfold bPresent, bFrompmm, bZpmap; lia). unfold e1, bPresent, bFrompmm, bZpmap. bits. done. }
  assert (Hent : entry s1 i = e2) by apply (entry_set_eq s i e2).
  split; fold i; rewrite ?entry_charge, ?Hent; try apply Hbits; try done.
  - apply entries_ok_charge. by apply (entries_ok_set s i e2).
  - intros j Hj. rewrite entry_charge. by apply (entry_set_ne s i e2).
  - etrans; [|done]. by split.
Qed.

(** ** The first free page of a range *)

Lemma mapped_entry s i o : wf i -> mapped s (address i) o = if get (entry s i) bPresent then Some (read_options (entry s i) o) else None.
Proof.
  intros Hi. unfold mapped. rewrite aligned_page_of; [by rewrite of_address_address|].
  rewrite address_number by done. destruct Hi. eapply aligned_mul; [unfold Phys.gPageSize; done|unfold number; lia].
Qed.

Definition free_slot (s : vm) (i : PagingIndices) : Prop := wf i /\ get (entry s i) bPresent = false.

(** The loop from [ilow] up to [ihigh]: the first slot that is not present, or
    every slot before [ihigh] is. *)
Lemma findPage_loop_spec s ihigh n : forall ilow,
  wf ilow -> wf ihigh -> number ihigh - number ilow = Z.of_nat n ->
  (exists i, findPage_loop n s ilow ihigh = address i /\ free_slot s i /\ number ilow <= number i < number ihigh
     /\ forall j, wf j -> number ilow <= number j < number i -> get (entry s j) bPresent = true)
  \/ findPage_loop n s ilow ihigh = no_page
     /\ forall j, wf j -> number ilow <= number j < number ihigh -> get (entry s j) bPresent = true.
Proof.
  induction n as [|n IH]; intros ilow Hl Hh Hn; cbn [findPage_loop]; rewrite ltb_below by (done || lia).
  { destruct (Z.ltb_spec (number ilow) (number ihigh)); [lia|]. right. split; [done|]. intros. lia. }
  destruct (Z.ltb_spec (number ilow) (number ihigh)); [|lia].
  rewrite mapped_entry by done. destruct (get (entry s ilow) bPresent) eqn:Hp.
  - destruct (next_number ilow Hl) as [Hwn Hnn].
    rewrite Z.mod_small in Hnn by (destruct Hl, Hh; unfold number in *; lia).
    assert (Hfirst : forall j, wf j -> number ilow <= number j -> number j < number (next ilow) -> get (entry s j) bPresent = true).
    { intros j Hj H1 H2. by rewrite (number_inj j ilow Hj Hl) by lia. }
    destruct (IH (next ilow) Hwn Hh ltac:(lia)) as [(i & He & Hf & Hr & Hj)|[He Hj]].
    + left. exists i. split_and!; [done|done|lia|lia|]. intros j Hwj Hrj.
      destruct (Z.lt_ge_cases (number j) (number (next ilow))); [apply Hfirst; (done || lia)|apply Hj; (done || lia)].
    + right. split; [done|]. intros j Hwj Hrj.
      destruct (Z.lt_ge_cases (number j) (number (next ilow))); [apply Hfirst; (done || lia)|apply Hj; (done || lia)].
  - left. exists ilow. split_and!; [done|done|lia|lia|]. intros. lia.
Qed.

Lemma findPageWithinRange_spec s low high : is_u32 low -> is_u32 high -> low / 4096 <= high / 4096 ->
  (exists i, findPageWithinRange s low high = address i /\ free_slot s i /\ low / 4096 <= number i < high / 4096
     /\ forall j, wf j -> low / 4096 <= number j < number i -> get (entry s j) bPresent = true)
  \/ findPageWithinRange s low high = no_page
     /\ forall j, wf j -> low / 4096 <= number j < high / 4096 -> get (entry s j) bPresent = true.
Proof.
  intros Hl Hh Hle. pose proof (of_address_wf low Hl) as Hwl. pose proof (of_address_wf high Hh) as Hwh.
  unfold findPageWithinRange. unfold is_u in *.
  rewrite <- !of_address_number in * by lia.
  rewrite Z.mod_small by (destruct Hwl, Hwh; unfold number in *; lia).
  apply findPage_loop_spec; [done|done|]. lia.
Qed.

Lemma findPage_phys s p low high : findPageWithinRange (set_phys s p) low high = findPageWithinRange s low high.
Proof.
  unfold findPageWithinRange. generalize (Z.to_nat ((number (of_address high) - number (of_address low)) mod 2 ^ 20)).
  generalize (of_address low). intros i k. revert i. induction k as [|k IH]; intros i; cbn [findPage_loop];
    change (mapped (set_phys s p) (address i) default_options) with (mapped s (address i) default_options); [done|].
  by rewrite IH.
Qed.

(** ** A private copy of a shared page *)

Section Clone.
Context (N : Z).

(** A present page [pg] that is backed by a counted frame [old], and a free page
    [sp] for the copy. *)
Record clonable (s : vm) (pg old : Z) (sp : PagingIndices) : Prop := {
  cl_entries : entries_ok s;
  cl_phys : Phys.ok N (phys s); cl_num : N <= 2 ^ 20;
  cl_free : 0 < Phys.mFreePages (phys s);
  cl_pg : aligned pg;
  cl_present : get (entry s (of_address pg)) bPresent = true;
  cl_frompmm : get (entry s (of_address pg)) bFrompmm = true;
  cl_old : page (entry s (of_address pg)) = old;
  cl_usable : Phys.usable (Phys.page (phys s) (Phys.index old)) = true;
  cl_count : 0 < Phys.refcnt (Phys.page (phys s) (Phys.index old));
  cl_scratch : findPageWithinRange s (scratch_low s) (scratch_high s) = address sp;
  cl_scratch_free : free_slot s sp; cl_scratch_pos : 0 < number sp;
  cl_scratch_pmm : get (entry s sp) bFrompmm = false }.

Record cloned (s s' : vm) (pg old ph : Z) (sp : PagingIndices) (o : map_options_t) : Prop := {
  cd_entry : has_options (entry s' (of_address pg)) ph o;
  cd_copy : frame s' ph = frame s old;
  cd_frames a : a <> ph -> frame s' a = frame s a;
  cd_fresh : Phys.available (Phys.page (phys s) (Phys.index ph)) = true;
  cd_private : Phys.page (phys s') (Phys.index ph) = Phys.mkPage true 1;
  cd_released : Phys.page (phys s') (Phys.index old)
    = Phys.mkPage true (Phys.refcnt (Phys.page (phys s) (Phys.index old)) - 1);
  cd_pages j : j <> Phys.index ph -> j <> Phys.index old -> Phys.page (phys s') j = Phys.page (phys s) j;
  cd_phys : Phys.ok N (phys s');
  cd_scratch : free_slot s' sp;
  cd_others j : j <> of_address pg -> j <> sp -> entry s' j = entry s j;
  cd_ok : entries_ok s' }.

Lemma address_aligned i : wf i -> aligned (address i).
Proof.
  intros Hi. rewrite address_number by done. destruct Hi.
  eapply aligned_mul; [unfold Phys.gPageSize; done|unfold number; lia].
Qed.

Lemma even_address i : wf i -> Z.land (address i) 1 = 0.
Proof.
  intros Hi. rewrite address_number by done. change 1 with (Z.ones 1). rewrite Z.land_ones by lia.
  change (2 ^ 1) with 2. replace (4096 * number i) with (2048 * number i * 2) by lia. apply Z_mod_mult.
Qed.

Lemma drop_mapped s i p : entries_ok s -> wf i -> 0 < number i ->
  get (entry s i) bFrompmm = false -> p = phys s ->
  exists s', dropScratchPage s (address i) = Some s' /\ unmapped_from s s' (address i) p.
Proof.
  intros Hs Hi Hn Hf Hp. unfold dropScratchPage. rewrite even_address by done.
  destruct (Z.eqb_spec (address i) 0) as [E|]; [rewrite address_number in E by done; lia|]. simpl.
  apply unmap_spec; [done|]. by rewrite of_address_address, Hf by done.
Qed.

Lemma clonePage_spec s pg old sp o :
  clonable s pg old sp -> clear o = false ->
  exists ph s', clonePage N s pg o = Some (Some ph, s')
    /\ cloned s s' pg old ph sp (with_rw (with_cow (with_frompmm o true) false) true).
Proof.
  intros [Hs Hph HN Hfr Hpg Hpr Hfp Hold Hus Hcnt Hsc [Hwsp Hfsp] Hsp0 Hspf] Hcl. unfold clonePage.
  rewrite (aligned_page_of pg Hpg). pose proof (Phys.alloc_spec N (phys s) Hph) as Ha.
  destruct (Phys.alloc N (phys s)) as [[ph p]|]; [|lia].
  destruct Ha as (i & -> & Hi & Hav & Hpage & Hpj & Hfree & Hok).
  pose proof (Phys.index_frame i) as Hix.
  set (ph := Phys.gPageSize * i) in *. assert (Haph : aligned ph) by (eapply aligned_mul; [done|lia]).
  assert (Hne : Phys.index old <> i).
  { intros E. rewrite E in Hcnt. unfold Phys.available, Phys.free in Hav. rewrite E in Hus.
    destruct (Z.eqb_spec (Phys.refcnt (Phys.page (phys s) i)) 0); [lia|]. by rewrite andb_false_r in Hav. }
  unfold getScratchPage. rewrite findPage_phys.
  cbn [scratch_low scratch_high set_phys]. rewrite Hsc. assert (Hasp := address_aligned sp Hwsp).
  destruct (map_spec (set_phys s p) ph (address sp) default_options Hs Haph Hasp) as (s1 & -> & [Hs1 He1 Hj1 Hp1 Hf1 _ Hq1]).
  rewrite of_address_address in * by done. cbn [mbind option_bind]. simpl in Hp1, Hf1.
  assert (Hspg : of_address pg <> sp) by (intros E; rewrite E in Hpr; congruence).
  assert (Hpg1 : entry s1 (of_address pg) = entry s (of_address pg)) by (by apply Hj1).
  unfold memcopy_page. rewrite !aligned_offset by done. change (0 =? 0) with true. cbn [andb mbind option_bind].
  rewrite of_address_address by done. rewrite Hpg1, Hold, (ho_page _ _ _ He1).
  set (s2 := set_frame s1 ph (frame s1 old)).
  destruct (drop_mapped s2 sp p) as (s3 & -> & [Hs3 Hpr3 Hfp3 Hz3 Hpg3 Hj3 Hp3 Hf3 _ Hq3]); [done|done|done| |done|].
  { pose proof (ho_options _ _ _ He1 false) as Ho. unfold read_options, default_options, with_clear in Ho. simpl in Ho.
    by injection Ho. }
  rewrite of_address_address in * by done. cbn [mbind option_bind].
  assert (Hpg3' : entry s3 (of_address pg) = entry s (of_address pg)) by (rewrite Hj3 by done; exact Hpg1).
  destruct (Phys.dealloc_spec N p old Hok) as (p4 & Hde & Hok4 & Hold4 & Hpj4); [by rewrite Hpj|by rewrite Hpj|].
  destruct (unmap_spec s3 pg p4 Hs3) as (s4 & -> & [Hs4 Hpr4 Hfp4 Hz4 Hpg4 Hj4 Hp4 Hf4 _ Hq4]).
  { rewrite Hpg3', Hfp, Hpr, Hold, Hp3. done. }
  cbn [mbind option_bind].
  destruct (map_spec s4 ph pg (with_rw (with_cow (with_frompmm o true) false) true) Hs4 Haph Hpg)
    as (s5 & -> & [Hs5 He5 Hj5 Hp5 Hf5 _ Hq5]). cbn [mbind option_bind].
  simpl in Hf5. rewrite Hcl in Hf5.
  assert (Hframes : forall a, frame s5 a = if decide (ph = a) then frame s old else frame s a).
  { intros a. unfold frame. rewrite Hf5, Hf4, Hf3. unfold s2. simpl. rewrite lookup_insert. unfold frame. rewrite Hf1. by case_decide. }
  exists ph, s5. split; [done|]. split; rewrite ?Hix; try done.
  - by rewrite Hframes, decide_True.
  - intros a Hne'. by rewrite Hframes, decide_False.
  - by rewrite Hp5, Hp4, Hpj4.
  - rewrite Hp5, Hp4, Hold4. by rewrite Hpj.
  - intros j Hj Hj'. rewrite Hp5, Hp4, Hpj4, Hpj by done. done.
  - by rewrite Hp5, Hp4.
  - split; [done|]. rewrite Hj5, Hj4 by done. done.
  - intros j Hj Hj'. rewrite Hj5, Hj4, Hj3 by done. by apply Hj1.
Qed.

End Clone.

End Virt.
