(* ===== verification/MemMgr.v ===== *)
(** * The memory regions of a process and its page faults
    (kernel/include/mm/memmgr.h, kernel/src/mm/memmgr.cpp, kernel/src/mm/pagefault.cpp)

    [MemMgr] is the list of regions of an address space on top of the tables of
    [Virt]; [Fault] is the page-fault handler, which fills zero-mapped pages and
    breaks copy-on-write sharing. *)

From Stdlib Require Import String ZArith Lia Bool Sorted.
From stdpp Require Import base numbers list gmap option.
From S2P Require Import Prelude Interval Phys Virt Files.

Local Open Scope Z_scope.

Module MemMgr.
Import Interval Virt.

(** [region_t]: an [interval_t] with its permission and the file mapped into it. *)
Record region_t := mkRegion {
  range : interval_t; permission : map_options_t; fhandle : FsObject.handle; mmap_size : Z }.

#[global] Instance region_interval : IntervalList.HasInterval region_t := range.

Definition no_handle : FsObject.handle := FsObject.mkHandle 0 0 0.
Definition region (from to : Z) (p : map_options_t) : region_t := mkRegion (mkInterval from to) p no_handle 0.
Definition no_region : region_t := region 0 0 kernel_options.
Definition with_permission (r : region_t) (p : map_options_t) : region_t := mkRegion (range r) p (fhandle r) (mmap_size r).

Definition isMmapRegion (r : region_t) : bool := FsObject.handle_ok (fhandle r) && (mmap_size r >? 0).
Definition isKernelRegion (r : region_t) : bool := iskernel (from (range r)).

Definition gKernelInitial : Z := gKernelBase.
Definition gKernelFinal : Z := 0xFFFFFFFF.

(** The regions, their total size, and [memstats.available] of the running process. *)
Record mm := mkMm { mRegions : list region_t; mAllRegionsSize : Z; available : Z }.

(** The initial list: page zero and the kernel are never given out. *)
Definition new : mm :=
  mkMm (IntervalList.add (IntervalList.add [] (region 0 0xFFF kernel_options))
                         (region gKernelInitial gKernelFinal kernel_options)) 0 0.

Definition toPage (size : Z) : Z :=
  let m := size mod gPageSize in if m =? 0 then size else u32 (size - m + gPageSize).

Definition isWithinRegion (m : mm) (s : vm) (addr : Z) : option region_t :=
  if page_of addr =? 0 then None
  else if iskernel addr then
    ival ← isWithinKernelRegion s addr;
    Some (region (u32 (from ival + gKernelBase)) (u32 (to ival + gKernelBase)) kernel_options)
  else IntervalList.contains (mRegions m) addr.

(** The callback of [foreach]: change the first region with these bounds. *)
Fixpoint set_permission (l : list region_t) (r : region_t) (p : map_options_t) : list region_t :=
  match l with
  | [] => []
  | R :: l => if eqb (range R) (range r) then with_permission R p :: l else R :: set_permission l r p
  end.

(** One page of the loop that applies the new permission. *)
Definition protect_page (s : vm) (pp : Z) (new_opts : map_options_t) : vm :=
  match mapped s pp default_options with
  | Some page_opts =>
      if rw new_opts && cow page_opts then s else (newoptions s pp (with_rw page_opts (rw new_opts))).2
  | None =>
      match zeroPageMapped s pp default_options with
      | Some page_opts => (newoptions s pp (with_rw page_opts (rw new_opts))).2
      | None => s
      end
  end.

Fixpoint protect_loop (fuel : nat) (s : vm) (pp to : Z) (new_opts : map_options_t) : option vm :=
  if pp <=? to then
    match fuel with
    | O => None
    | S fuel => protect_loop fuel (protect_page s pp new_opts) (u32 (pp + gPageSize)) to new_opts
    end
  else Some s.

Definition pages (from to : Z) : nat := Z.to_nat ((to - from) / gPageSize + 1).

(** [None]: the loop does not end, which takes a region up to the last page. *)
Definition protectRegionAtAddress (m : mm) (s : vm) (address : Z) (new_opts : map_options_t)
  : option (bool * mm * vm) :=
  match isWithinRegion m s address with
  | None => Some (false, m, s)
  | Some rgn =>
      let m := mkMm (set_permission (mRegions m) rgn new_opts) (mAllRegionsSize m) (available m) in
      s ← protect_loop (pages (from (range rgn)) (to (range rgn))) s (from (range rgn)) (to (range rgn)) new_opts;
      Some (true, m, s)
  end.

Definition findRegionImpl (m : mm) (size : Z) : option region_t :=
  r ← IntervalList.findFree 0xFFFFFFFF (range <$> mRegions m) (toPage size);
  Some (mkRegion r kernel_options no_handle 0).

Definition findRegion (m : mm) (size : Z) : region_t := default no_region (findRegionImpl m size).

Definition addRegion (m : mm) (r : region_t) : region_t * mm :=
  (r, mkMm (IntervalList.add (mRegions m) r) (u32 (mAllRegionsSize m + size (range r)))
           (u32 (available m + size (range r)))).

Definition addMappedRegion (m : mm) (f t : Z) : region_t * mm := addRegion m (region f t kernel_options).
Definition addUnmappedRegion (m : mm) (f t : Z) : region_t * mm := addRegion m (region f t kernel_options).

Section Mapping.
Context (gNumPages : Z).

Fixpoint map_loop (fuel : nat) (s : vm) (base to : Z) (opts : map_options_t) : option vm :=
  if base <? to then
    match fuel with
    | O => None
    | S fuel => '(_, s) ← mapAnyPhysicalPage gNumPages s base opts; map_loop fuel s (u32 (base + gPageSize)) to opts
    end
  else Some s.

Definition findAndMapRegion (m : mm) (s : vm) (sz : Z) (opts : map_options_t) : option (region_t * mm * vm) :=
  match findRegionImpl m sz with
  | Some r =>
      let r := with_permission r opts in
      s ← map_loop (pages (from (range r)) (to (range r))) s (from (range r)) (to (range r)) opts;
      Some (addRegion m r, s)
  | None => Some (no_region, m, s)
  end.

Definition findAndZeroPageRegion (m : mm) (s : vm) (sz : Z) (opts : map_options_t) : option (region_t * mm * vm) :=
  match findRegionImpl m sz with
  | Some r =>
      let r := with_permission r opts in
      '(_, s) ← mapZeroPage_range s (from (range r)) (to (range r)) opts;
      Some (addRegion m r, s)
  | None => Some (no_region, m, s)
  end.

(** The mapping holds a reference of its own to the file. *)
Definition findAndFileMapRegion (m : mm) (s : vm) (st : FsObject.state) (h : FsObject.handle) (sz : Z)
  : option (region_t * mm * vm * FsObject.state) :=
  match (if FsObject.handle_ok h then findRegionImpl m sz else None) with
  | Some r =>
      let opts := userspace_options in
      '(_, s) ← mapZeroPage_range s (from (range r)) (to (range r)) opts;
      '(_, st) ← FsObject.incref st (FsObject.h_object h);
      let h := FsObject.mkHandle (FsObject.h_filesystem h) (FsObject.h_object h) (from (range r)) in
      Some (addRegion m (mkRegion (range r) opts h sz), s, st)
  | None => Some (no_region, m, s, st)
  end.

End Mapping.

Fixpoint unmap_loop (fuel : nat) (s : vm) (base to : Z) : option vm :=
  if base <? to then
    match fuel with
    | O => None
    | S fuel => s ← unmap s base; unmap_loop fuel s (u32 (base + gPageSize)) to
    end
  else Some s.

Definition removeRegion (m : mm) (s : vm) (st : FsObject.state) (r : region_t) : option (mm * vm * FsObject.state) :=
  let '(l, found) := IntervalList.del (mRegions m) r in
  if found : bool then
    let m := mkMm l (u32 (mAllRegionsSize m - size (range r))) (u32 (available m - size (range r))) in
    s ← unmap_loop (pages (from (range r)) (to (range r))) s (from (range r)) (to (range r));
    st ← (if isMmapRegion r then FsObject.handle_close st (fhandle r) else Some st);
    Some (m, s, st)
  else Some (m, s, st).

Definition getTotalRegionsSize (m : mm) : Z := mAllRegionsSize m.

(** [clone] of the regions into [ret]; the counts of the mapped files stay as they are. *)
Definition clone (m ret : mm) : mm := mkMm (mRegions m) (mAllRegionsSize m) (available ret).

(** ** The regions of an address space *)

Definition page_zero : interval_t := mkInterval 0 0xFFF.
Definition kernel_space : interval_t := mkInterval gKernelInitial gKernelFinal.

Definition page_sized (i : interval_t) : Prop := from i mod gPageSize = 0 /\ (to i + 1) mod gPageSize = 0.

(** In order, without overlap, made of whole pages, page zero and the kernel
    among them. *)
Record ok (m : mm) : Prop := {
  ok_ordered : IntervalList.ordered (range <$> mRegions m);
  ok_pages : Forall page_sized (range <$> mRegions m);
  ok_zero : page_zero ∈ range <$> mRegions m;
  ok_kernel : kernel_space ∈ range <$> mRegions m }.

Lemma toPage_spec sz : 0 <= sz -> sz + gPageSize <= 2 ^ 32 ->
  toPage sz mod gPageSize = 0 /\ sz <= toPage sz < sz + gPageSize.
Proof. exact (Heap.round_up_spec gPageSize ltac:(unfold gPageSize; lia) sz). Qed.

(** A region below the kernel and above page zero. *)
Definition in_user_space (i : interval_t) : Prop := gPageSize <= from i /\ to i < gKernelBase.

Lemma ok_below m i : ok m -> i ∈ removelast (range <$> mRegions m) -> to i < gKernelBase.
Proof.
  intros [Ho _ _ Hk] Hi. destruct (IntervalList.removelast_before _ _ Ho Hi) as (j & Hj & Hij).
  pose proof Ho as [Hwf _]. rewrite list.Forall_forall in Hwf. pose proof (Hwf _ Hj) as Hwj.
  assert (Hin : i ∈ range <$> mRegions m).
  { clear -Hi. induction (range <$> mRegions m) as [|k l IH]; [by apply not_elem_of_nil in Hi|].
    destruct l as [|k' l]; [by apply not_elem_of_nil in Hi|]. cbn [removelast] in Hi.
    apply elem_of_cons in Hi as [-> |Hi]; [left|right; by apply IH]. }
  pose proof (Hwf _ Hin) as Hwi. unfold wf, IntervalList.before, is_u in *.
  destruct (IntervalList.ordered_disjoint _ _ _ Ho Hin Hk) as [-> |Hd]; simpl in *.
  - unfold kernel_space, gKernelFinal in Hij. simpl in Hij. lia.
  - unfold disjoint, kernel_space, gKernelInitial, gKernelFinal in Hd. simpl in Hd. lia.
Qed.

Lemma find_gap_from l sz r : IntervalList.find_gap l sz = Some r ->
  exists i, i ∈ l /\ r = mkInterval (u32 (to i + 1)) (u32 (sz + to i)).
Proof.
  induction l as [|i0 l IH]; [done|]. destruct l as [|i1 l]; [done|]. cbn [IntervalList.find_gap].
  case_match; [intros [= <-]; exists i0; split; [left|done]|]. intros H'. destruct (IH H') as (i & Hi & ->).
  exists i. split; [by right|done].
Qed.

Lemma findFree_from l sz r : (2 <= length l)%nat -> IntervalList.findFree 0xFFFFFFFF l sz = Some r ->
  exists i, i ∈ l /\ r = mkInterval (u32 (to i + 1)) (u32 (sz + to i)).
Proof.
  intros Hl. unfold IntervalList.findFree. destruct (sz =? 0); [done|].
  destruct l as [|i0 [|i1 l]]; simpl in Hl; [lia|lia|].
  destruct (IntervalList.find_gap (i0 :: i1 :: l) sz) as [r'|] eqn:Hg; [intros [= <-]; by apply find_gap_from|].
  intros (i & Hi & H)%bind_Some. exists i. split; [by apply last_Some_elem_of|].
  unfold IntervalList.find_after in H. destruct (sz <=? u32 (0xFFFFFFFF - to i)); [by injection H|done].
Qed.

Lemma u32_mod_page z : u32 z mod gPageSize = z mod gPageSize.
Proof.
  unfold u32, wrap. change (2 ^ 32) with (gPageSize * 2 ^ 20).
  rewrite Z.rem_mul_r by (unfold gPageSize; lia). rewrite Z.mul_comm, Z_mod_plus_full. apply Zmod_mod.
Qed.

Lemma ok_two m : ok m -> (2 <= length (range <$> mRegions m))%nat.
Proof.
  intros [_ _ Hz Hk]. destruct (range <$> mRegions m) as [|a [|b l]]; simpl; [by apply not_elem_of_nil in Hz| |lia].
  apply list_elem_of_singleton in Hz as <-. apply list_elem_of_singleton in Hk. done.
Qed.

(** What [findRegionImpl] returns: whole pages of user space that no region has. *)
Lemma findRegion_spec m sz r : ok m -> 0 <= sz <= 2 ^ 30 -> findRegionImpl m sz = Some r ->
  IntervalList.usable 0xFFFFFFFF (range <$> mRegions m) (toPage sz) (range r)
  /\ page_sized (range r) /\ in_user_space (range r).
Proof.
  intros Hok Hsz. pose proof Hok as [Ho Hp Hz Hk].
  destruct (toPage_spec sz) as [Hm Hb]; [lia|unfold gPageSize; lia|].
  unfold findRegionImpl. intros (i & Hi & [= <-])%bind_Some. simpl.
  assert (Hwf : Forall (fun i => to i <= 0xFFFFFFFF) (range <$> mRegions m)).
  { destruct Ho as [Hwf _]. eapply list.Forall_impl; [exact Hwf|]. intros j Hj. unfold wf, is_u in Hj. lia. }
  assert (Hnw : IntervalList.no_wrap (toPage sz) (range <$> mRegions m)).
  { apply list.Forall_forall. intros j Hj. pose proof (ok_below m j Hok Hj). unfold gKernelBase, gPageSize in *.
    assert (toPage sz <= 2 ^ 30); [|lia]. unfold toPage, gPageSize in *. destruct (Z.eqb_spec (sz mod 4096) 0); [lia|].
    destruct (Z.eq_dec sz (2 ^ 30)) as [->|]; [done|].
    pose proof (Z.div_mod sz 4096 ltac:(lia)). pose proof (Z.mod_pos_bound sz 4096 ltac:(lia)).
    rewrite u32_id by (unfold is_u; lia). lia. }
  assert (Hu : IntervalList.usable 0xFFFFFFFF (range <$> mRegions m) (toPage sz) i).
  { apply IntervalList.findFree_sound; try done; unfold is_u, gPageSize in *; lia. }
  split; [done|]. split.
  - destruct (findFree_from _ _ _ (ok_two m Hok) Hi) as (j & Hj & ->). rewrite list.Forall_forall in Hp.
    destruct (Hp j Hj) as [_ Hto]. split; simpl; [by rewrite u32_mod_page|].
    rewrite Zplus_mod, u32_mod_page, <- Zplus_mod. replace (toPage sz + to j + 1) with (toPage sz + (to j + 1)) by lia.
    by rewrite Zplus_mod, Hm, Hto.
  - destruct Hu as (Hwfi & Hsize & _ & Hd). rewrite list.Forall_forall in Hd.
    pose proof (Hd _ Hz) as Hdz. pose proof (Hd _ Hk) as Hdk.
    unfold wf, is_u, disjoint, in_user_space, page_zero, kernel_space, gKernelInitial, gKernelFinal, gPageSize in *.
    simpl in *. lia.
Qed.

(** Adding such a region keeps the invariant, and so does changing permissions. *)
Lemma addRegion_ok m r : ok m -> wf (range r) -> page_sized (range r) ->
  Forall (disjoint (range r)) (range <$> mRegions m) -> ok (addRegion m r).2.
Proof.
  intros [Ho Hp Hz Hk] Hw Hs Hd. change (@fmap list list_fmap _ _ range) with (@fmap list list_fmap _ _ (@IntervalList.ival region_t _)) in *.
  assert (E : IntervalList.ival <$> mRegions (addRegion m r).2 = IntervalList.add_loop (IntervalList.ival <$> mRegions m) (range r)).
  { simpl. rewrite IntervalList.add_ival. apply IntervalList.add_add_loop. }
  split; (change (@fmap list list_fmap _ _ range) with (@fmap list list_fmap _ _ (@IntervalList.ival region_t _)); rewrite E).
  - by apply IntervalList.add_loop_ordered.
  - rewrite IntervalList.add_loop_perm. by constructor.
  - rewrite IntervalList.add_loop_perm. by right.
  - rewrite IntervalList.add_loop_perm. by right.
Qed.

Lemma new_ok : ok new.
Proof.
  split; simpl.
  - split; [|by repeat constructor].
    constructor; [|constructor; [|constructor]]; unfold wf, is_u, gKernelInitial, gKernelBase, gKernelFinal; simpl; lia.
  - repeat constructor.
  - left.
  - right. left.
Qed.

End MemMgr.

Module Fault.
Import Interval Virt MemMgr.

Definition P (err : Z) : bool := negb (Z.land err 0x01 =? 0).
Definition W (err : Z) : bool := negb (Z.land err 0x02 =? 0).
Definition U (err : Z) : bool := negb (Z.land err 0x04 =? 0).
Definition R (err : Z) : bool := negb (Z.land err 0x08 =? 0).
Definition I (err : Z) : bool := negb (Z.land err 0x10 =? 0).

Definition pageflt_description (err : Z) : string :=
  (if R err then
    if U err then "userspace attempt to modify reserved paging structure"
    else "attempt to modify reserved paging structure"
  else if P err then
    if I err then
      if U err then "userspace failed to fetch privileged instruction"
      else "privileged instruction could not be fetched"
    else if W err then
      if U err then "userspace write to privileged memory" else "write to privileged memory"
    else if U err then "userspace read from privileged memory" else "read from privileged memory"
  else
    if I err then
      if U err then "userspace failed to fetch invalid memory" else "invalid memory could not be executed"
    else if W err then
      if U err then "userspace write to invalid memory" else "write to invalid memory"
    else if U err then "userspace read from invalid memory" else "read from invalid memory")%string.

Section Handler.
Context (gNumPages : Z).
(** The virtual methods of the mapped file: [asFile], [seek], and the bytes of
    [read] from an offset. *)
Context (asFile : Z -> bool) (seek : Z -> Z -> bool) (read : Z -> Z -> list Z).

(** The page after [read] put its bytes at its beginning. *)
Definition fill (s : vm) (vpage : Z) (data : list Z) : vm :=
  let base := Entry.page (entry s (Indices.of_address vpage)) in
  set_frame s base (data ++ drop (length data) (frame s base)).

Definition mmap_fault_recover (s : vm) (vaddr : Z) (rgn : region_t) : option (bool * vm) :=
  let rgn_offset := u32 (vaddr - from (range rgn)) in
  let vpage := page_of vaddr in
  let base_offset := page_of rgn_offset in
  if rgn_offset >? mmap_size rgn then Some (false, s) else
  let file := fhandle rgn in
  if negb (FsObject.handle_ok file) then Some (false, s) else
  if negb (asFile (FsObject.h_object file)) then Some (false, s) else
  if negb (seek (FsObject.h_object file) base_offset) then Some (false, s) else
  '(_, s) ← mapAnyPhysicalPage gNumPages s vpage (with_clear (permission rgn) true);
  let data := take 4096 (read (FsObject.h_object file) base_offset) in
  Some (negb (length data =? 0)%nat, fill s vpage data).

Definition zeropage_recover (m : mm) (s : vm) (vaddr : Z) : option (bool * vm) :=
  match isWithinRegion m s vaddr with
  | Some region =>
      if isMmapRegion region then mmap_fault_recover s vaddr region
      else
        '(_, s) ← mapAnyPhysicalPage gNumPages s (page_of vaddr) (permission region);
        Some (true, s)
  | None => Some (false, s)
  end.

Definition cow_recover (s : vm) (vaddr : Z) : option (bool * vm) :=
  match mapped s vaddr default_options with
  | Some opts =>
      '(r, s) ← clonePage gNumPages s vaddr opts;
      Some (match r with Some phys => Z.land phys 1 =? 0 | None => false end, s)
  | None => Some (false, s)
  end.

(** The handler: [inl] is the return to the faulting instruction, [inr] the end
    of the process with its reason. *)
Definition pageflt_handler (m : mm) (s : vm) (error vaddr : Z) : option ((unit + string) * vm) :=
  '(recovered, s) ←
    (if isZeroPageAccess s vaddr then zeropage_recover m s vaddr
     else if isCOWAccess s error vaddr then cow_recover s vaddr
     else Some (false, s));
  Some (if recovered : bool then inl () else inr (pageflt_description error), s).

End Handler.

Lemma page_of_idem a : is_u32 a -> page_of (page_of a) = page_of a.
Proof. intros Ha. apply aligned_page_of. rewrite page_of_eq. by apply Entry.page_aligned. Qed.

Lemma clonePage_page N s a o : is_u32 a -> clonePage N s a o = clonePage N s (page_of a) o.
Proof. intros Ha. unfold clonePage. by rewrite page_of_idem. Qed.

(** The whole handler on a write to a shared page. *)
Lemma cow_fault_spec N asFile seek read m s error vaddr old sp :
  is_u32 vaddr -> clonable N s (page_of vaddr) old sp ->
  Z.land error 3 = 3 ->
  Entry.get (entry s (Indices.of_address vaddr)) Entry.bRw = false ->
  Entry.get (entry s (Indices.of_address vaddr)) Entry.bCow = true ->
  exists ph s', pageflt_handler N asFile seek read m s error vaddr = Some (inl (), s')
    /\ cloned N s s' (page_of vaddr) old ph sp
         (with_rw (with_cow (with_frompmm (read_options (entry s (Indices.of_address vaddr)) default_options) true) false) true).
Proof.
  intros Ha Hc Herr Hrw Hcow. pose proof (cl_present _ _ _ _ _ Hc) as Hpr. rewrite of_address_page in Hpr by done.
  unfold pageflt_handler, isZeroPageAccess, isCOWAccess, cow_recover, mapped. rewrite of_address_page by done.
  rewrite Hpr, Hrw, Hcow, Herr, andb_false_r. change (true && negb false && true) with true. change (3 =? 3) with true. cbv iota.
  rewrite clonePage_page by done.
  destruct (clonePage_spec N s (page_of vaddr) old sp (read_options (entry s (Indices.of_address vaddr)) default_options) Hc eq_refl)
    as (ph & s' & -> & Hcl). cbn [mbind option_bind].
  assert (Z.land ph 1 = 0) as ->; [|by exists ph, s'].
  pose proof (ho_page _ _ _ (cd_entry _ _ _ _ _ _ _ _ Hcl)) as Hpg.
  pose proof (Entry.page_aligned _ (ho_u32 _ _ _ (cd_entry _ _ _ _ _ _ _ _ Hcl))) as Hal. rewrite Hpg in Hal.
  pose proof (Entry.aligned_low ph 0 Hal ltac:(lia)) as Hbit. change 1 with (Z.ones 1). rewrite Z.land_ones by lia.
  change (2 ^ 1) with 2. rewrite Zmod_odd. rewrite <- Z.bit0_odd, Hbit. done.
Qed.

End Fault.
