(* ===== verification/Syscalls.v ===== *)
(** * System calls (kernel/src/syscalls)

    [Abi] has the result codes; [SyscallManager] the interrupt handler that finds
    and runs the handler of a call; [FsCalls], [MemCalls] and [ProcCalls] the
    handlers of impl/fs.cpp, impl/mem.cpp with impl/mmap.cpp, and impl/process.cpp,
    over the components they call.  The virtual methods of open files are
    parameters that work on the rest of the world. *)

From stdpp Require Import base numbers list gmap option strings.
From Stdlib Require Import ZArith Lia.
From S2P Require Import Prelude Tables Interval Phys Virt Files Kernel Lifecycle MemMgr.

Local Open Scope Z_scope.

(** ** Result codes *)

Module Abi.

Definition SYSCALL_SUCCESS : Z := 0.
Definition SYSCALL_ERROR : Z := 1.
Definition gNumActionBits : Z := 4.

Definition syscall_error_code (code : Z) : Z := Z.lor (u32 (Z.shiftl code (gNumActionBits + 1))) SYSCALL_ERROR.
Definition syscall_action_code (code : Z) : Z := Z.lor (u32 (Z.shiftl 1 (code + 1))) SYSCALL_ERROR.

Inductive error :=
  | NO_SUCH_SYSCALL | NO_SUCH_DEVICE | MSG_QUEUE_EMPTY | NO_SUCH_PROCESS | OUT_OF_MEMORY | DISK_IO_ERROR
  | NO_SUCH_FILE | UNIMPLEMENTED | OUT_OF_HANDLES | NO_SUCH_OBJECT | NOT_ALLOWED | ALREADY_LOCKED
  | NOT_A_FILE | TIMEOUT.

Definition error_value (e : error) : Z :=
  match e with
  | NO_SUCH_SYSCALL => 1 | NO_SUCH_DEVICE => 2 | MSG_QUEUE_EMPTY => 3 | NO_SUCH_PROCESS => 4
  | OUT_OF_MEMORY => 5 | DISK_IO_ERROR => 6 | NO_SUCH_FILE => 7 | UNIMPLEMENTED => 8 | OUT_OF_HANDLES => 9
  | NO_SUCH_OBJECT => 10 | NOT_ALLOWED => 11 | ALREADY_LOCKED => 12 | NOT_A_FILE => 13 | TIMEOUT => 14
  end.

(** [ERR(name)], [ACT(YIELD)], [OK], and [OK | (value << 1)] *)
Definition ERR (e : error) : Z := syscall_error_code (error_value e).
Definition ACT_YIELD : Z := syscall_action_code 0.
Definition OK : Z := SYSCALL_SUCCESS.
Definition OK_value (v : Z) : Z := Z.lor OK (u32 (Z.shiftl v 1)).

End Abi.

(** ** Dispatch *)

Module SyscallManager.
Import Abi.

Record Request := mkRequest {
  code : Z; arg1 : Z; arg2 : Z; arg3 : Z; arg4 : Z; arg5 : Z; r_eflags : Z; r_eip : Z }.
Record GPR := mkGPR { eax : Z; ebx : Z; ecx : Z; edx : Z; edi : Z; esi : Z }.
Record InterruptStack := mkStack { eflags : Z; eip : Z }.

Definition IRQ_RESPONSE_NONE : Z := 0.
Definition IRQ_RESPONSE_YIELD : Z := 2.

Section Dispatch.
(** The state of the system, with the flags of the current process *)
Context {S : Type} (is_system due_for_reschedule : S -> bool).

(** A handler may change the registers of the request; [None] is a panic. *)
Abbreviation Handler := (Request -> S -> option (Z * Request * S)).

Record syscall_handler_info_t := mkInfo {
  impl : option Handler; system : bool; numCalls : Z; numInsecureCalls : Z }.

Definition no_handler : syscall_handler_info_t := mkInfo None false 0 0.
Definition reset (i : Handler) (s : bool) : syscall_handler_info_t := mkInfo (Some i) s 0 0.

(** [gHandlers] *)
Definition new : list syscall_handler_info_t := replicate 256 no_handler.
Definition handle (gHandlers : list syscall_handler_info_t) (code : Z) (h : Handler) (systemOnly : bool) :=
  <[Z.to_nat (u8 code) := reset h systemOnly]> gHandlers.

Definition set_eax (v : Z) (g : GPR) : GPR := mkGPR v (ebx g) (ecx g) (edx g) (edi g) (esi g).

Definition request (g : GPR) (st : InterruptStack) : Request :=
  mkRequest (Z.land (eax g) 0xFF) (ebx g) (ecx g) (edx g) (edi g) (esi g) (eflags st) (eip st).

(** The switch on the result *)
Definition respond (g : GPR) (s : S) : Z * GPR :=
  if eax g =? ACT_YIELD then (IRQ_RESPONSE_YIELD, set_eax SYSCALL_SUCCESS g)
  else if due_for_reschedule s then (IRQ_RESPONSE_YIELD, g)
  else (IRQ_RESPONSE_NONE, g).

Definition syscall_irq_handler (gHandlers : list syscall_handler_info_t) (g : GPR) (st : InterruptStack) (s : S)
    : option (Z * GPR * InterruptStack * list syscall_handler_info_t * S) :=
  let req := request g st in
  handler ← gHandlers !! Z.to_nat (code req);
  match impl handler with
  | None =>
      let '(ret, g) := respond (set_eax (ERR NO_SUCH_SYSCALL) g) s in Some (ret, g, st, gHandlers, s)
  | Some run =>
      let counted calls :=
        <[Z.to_nat (code req) := mkInfo (Some run) (system handler) (u64 (numCalls handler + 1)) calls]> gHandlers in
      if system handler && negb (is_system s) then
        let '(ret, g) := respond (set_eax (ERR NOT_ALLOWED) g) s in
        Some (ret, g, st, counted (u64 (numInsecureCalls handler + 1)), s)
      else
        '(res, req, s) ← run req s;
        let '(ret, g) := respond (set_eax res g) s in
        Some (ret, g, mkStack (r_eflags req) (r_eip req), counted (numInsecureCalls handler), s)
  end.

End Dispatch.

End SyscallManager.

(** ** Files *)

Module FsCalls.
Import Abi FsObject.

Section Calls.
(** The mounts; the filesystem of the root directory; what the filesystems open *)
Context (mounts : list VFS.mount_t) (gVFSFilesystem : Z).
Context (doOpen : state -> Z -> string -> Z -> option (Z * Z)) (doOpendir : state -> Z -> string -> option (Z * Z)).
(** The virtual methods of an open object, the buffers of the caller in [W] *)
Context {W : Type}.
Context (m_read m_write : W -> Z -> Z -> Z -> option (Z * W)) (m_seek m_tell : W -> Z -> Z -> option (bool * W)).
(** [m_next] also copies the entry into the structure of the caller. *)
Context (m_ioctl : W -> Z -> Z -> Z -> option (Z * W)) (m_stat m_next : W -> Z -> Z -> option (bool * W)).

(** The open files, the descriptors of the current process, and the rest *)
Record fstate := mkF { f_st : state; f_fds : Handletable.table handle; f_world : W }.
Implicit Types s : fstate.

Definition gNumDescriptors : nat := 64.
Definition with_world s (w : W) : fstate := mkF (f_st s) (f_fds s) w.

(** [file_kinds.tbl]: a directory is 0, the other kinds are files. *)
Definition isDir (kind : Z) : bool := kind =? 0.

Definition vfs_open (st : state) (path : option string) (mode : Z) : option (handle * state) :=
  match VFS.resolve mounts path with
  | None => Some (mkHandle 0 0 0, st)
  | Some (fs, rest) =>
      '(o, st) ← open st fs (doOpen st fs rest mode);
      Some (mkHandle fs o 0, st)
  end.

Definition vfs_opendir (st : state) (path : option string) : option (handle * state) :=
  match VFS.resolve_dir mounts path with
  | None => Some (mkHandle 0 0 0, st)
  | Some where_ =>
      let '(fs, rest) := match where_ with
                         | inl _ => (gVFSFilesystem, default EmptyString path)
                         | inr fr => fr
                         end in
      '(o, st) ← open st fs (doOpendir st fs rest);
      Some (mkHandle fs o 0, st)
  end.

(** The end that [fopen] and [fopendir] share *)
Definition new_descriptor s (file : handle) (st : state) : option (Z * fstate) :=
  if (h_filesystem file =? 0) || (h_object file =? 0) then Some (ERR NO_SUCH_FILE, mkF st (f_fds s) (f_world s))
  else
    '(idx, fds) ← Handletable.set gNumDescriptors (f_fds s) file 0;
    Some (match idx with
          | Some i => OK_value (Z.of_nat i)
          | None => ERR UNIMPLEMENTED
          end, mkF st fds (f_world s)).

Definition fopen s (path : option string) (mode : Z) : option (Z * fstate) :=
  '(file, st) ← vfs_open (f_st s) path mode; new_descriptor s file st.

Definition fopendir s (path : option string) : option (Z * fstate) :=
  '(file, st) ← vfs_opendir (f_st s) path; new_descriptor s file st.

(** [fds.is(fid, &file)]: [None] reads outside of the table. *)
Definition descriptor s (fid : Z) : option (option handle) :=
  b ← Handletable.is_ (f_fds s) (Z.to_nat fid);
  if (b : bool) then h ← Handletable.value (f_fds s) (Z.to_nat fid); Some (Some h) else Some None.

Definition fclose s (fid : Z) : option (Z * fstate) :=
  file ← descriptor s fid;
  let clear st := mkF st (Handletable.clear (f_fds s) (Z.to_nat fid)) (f_world s) in
  match file with
  | Some h =>
      if handle_ok h then st ← handle_close (f_st s) h; Some (OK, clear st)
      else Some (ERR NO_SUCH_FILE, s)
  | None => Some (OK, clear (f_st s))
  end.

Definition fdup s (fid minNewFid : Z) : option (Z * fstate) :=
  file ← descriptor s fid;
  match file with
  | None => Some (ERR NO_SUCH_FILE, s)
  | Some h =>
      if h_object h =? 0 then Some (ERR NO_SUCH_FILE, s)
      else
        '(_, st) ← incref (f_st s) (h_object h);
        '(idx, fds) ← Handletable.set gNumDescriptors (f_fds s) h (Z.to_nat minNewFid);
        Some (match idx with
              | Some i => OK_value (Z.of_nat i)
              | None => ERR NO_SUCH_FILE
              end, mkF st fds (f_world s))
  end.

(** The object behind a descriptor, if it has the right kind *)
Definition object_of s (fid : Z) : option (error + Z * object) :=
  file ← descriptor s fid;
  match file with
  | None => Some (inl NO_SUCH_FILE)
  | Some h =>
      if h_object h =? 0 then Some (inl NO_SUCH_FILE)
      else ob ← objects (f_st s) !! h_object h; Some (inr (h_object h, ob))
  end.

Definition asFile (r : error + Z * object) : error + Z :=
  match r with
  | inl e => inl e
  | inr (o, ob) => if isDir (mKind ob) then inl NOT_A_FILE else inr o
  end.
Definition asDirectory (r : error + Z * object) : error + Z :=
  match r with
  | inl e => inl e
  | inr (o, ob) => if isDir (mKind ob) then inr o else inl NOT_A_FILE
  end.

(** A method that returns a number, and one that returns whether it worked *)
Definition call_value s (r : error + Z) (m : Z -> option (Z * W)) : option (Z * fstate) :=
  match r with
  | inl e => Some (ERR e, s)
  | inr o => '(n, w) ← m o; Some (OK_value n, with_world s w)
  end.
Definition call_bool s (r : error + Z) (m : Z -> option (bool * W)) : option (Z * fstate) :=
  match r with
  | inl e => Some (ERR e, s)
  | inr o => '(ok, w) ← m o; Some (if (ok : bool) then OK else ERR NO_SUCH_FILE, with_world s w)
  end.

Definition fread s (fid len buf : Z) : option (Z * fstate) :=
  r ← object_of s fid; call_value s (asFile r) (fun o => m_read (f_world s) o len buf).
Definition fwrite s (fid len buf : Z) : option (Z * fstate) :=
  r ← object_of s fid; call_value s (asFile r) (fun o => m_write (f_world s) o len buf).
Definition fioctl s (fid a1 a2 : Z) : option (Z * fstate) :=
  r ← object_of s fid; call_value s (asFile r) (fun o => m_ioctl (f_world s) o a1 a2).
Definition fseek s (fid pos : Z) : option (Z * fstate) :=
  r ← object_of s fid; call_bool s (asFile r) (fun o => m_seek (f_world s) o pos).
Definition ftell s (fid pos : Z) : option (Z * fstate) :=
  r ← object_of s (u16 fid); call_bool s (asFile r) (fun o => m_tell (f_world s) o pos).
Definition fstat s (fid dst : Z) : option (Z * fstate) :=
  r ← object_of s fid; call_bool s (match r with inl e => inl e | inr (o, _) => inr o end)
                         (fun o => m_stat (f_world s) o dst).
Definition freaddir s (fid info : Z) : option (Z * fstate) :=
  r ← object_of s (u16 fid); call_bool s (asDirectory r) (fun o => m_next (f_world s) o info).

End Calls.

End FsCalls.

(** ** Memory *)

Module MemCalls.
Import Abi Virt MemMgr Interval.

Definition REGION_ALLOW_WRITE : Z := 1.
Definition allow_write (perm : Z) : bool := REGION_ALLOW_WRITE =? Z.land perm REGION_ALLOW_WRITE.

(** The options of an anonymous region: user, cleared, cached *)
Definition region_options (perm : Z) : map_options_t :=
  with_rw (mkOpts true true true false false true false) (allow_write perm).

Definition mapregion (m : mm) (s : vm) (size perm : Z) : option (Z * mm * vm) :=
  if negb (offset size =? 0) then Some (ERR UNIMPLEMENTED, m, s)
  else
    '(rgn, m, s) ← findAndZeroPageRegion m s size (region_options perm);
    Some (if negb (from (range rgn) =? 0) then Z.lor OK (from (range rgn)) else ERR OUT_OF_MEMORY, m, s).

Definition setregionperms (m : mm) (s : vm) (address perm : Z) : option (Z * mm * vm) :=
  if iskernel address then Some (ERR NOT_ALLOWED, m, s)
  else
    match isWithinRegion m s address with
    | None => Some (ERR NO_SUCH_OBJECT, m, s)
    | Some rgn =>
        '(ok, m, s) ← protectRegionAtAddress m s address (with_rw (permission rgn) (allow_write perm));
        Some (if (ok : bool) then OK else ERR OUT_OF_MEMORY, m, s)
    end.

Definition unmapregion (m : mm) (s : vm) (st : FsObject.state) (address : Z)
    : option (Z * mm * vm * FsObject.state) :=
  if iskernel address then Some (ERR NOT_ALLOWED, m, s, st)
  else
    match isWithinRegion m s address with
    | None => Some (ERR NO_SUCH_OBJECT, m, s, st)
    | Some rgn => '(m, s, st) ← removeRegion m s st rgn; Some (OK, m, s, st)
    end.

(** [isSamePage(start, sz)]: the last byte is computed in 32 bits. *)
Definition stop_of (start sz : Z) : Z := u32 (u32 (start + sz) - 1).
Definition isSamePage (start sz : Z) : bool := page_of start =? page_of (stop_of start sz).

Definition isPageReadable (s : vm) (pg : Z) : bool :=
  match mapped s pg default_options with
  | Some o => user o
  | None => match zeroPageMapped s pg default_options with Some o => user o | None => false end
  end.
Definition isPageWritable (s : vm) (pg : Z) : bool :=
  match mapped s pg default_options with
  | Some o => user o && rw o
  | None => match zeroPageMapped s pg default_options with Some o => user o && rw o | None => false end
  end.

(** The loop ends after at most all pages of the address space, or it never does:
    the page after the last one is page zero. *)
Fixpoint check_loop (fuel : nat) (checkf : Z -> bool) (pg_start pg_stop : Z) : option bool :=
  if pg_stop <? pg_start then Some true
  else
    match fuel with
    | O => None
    | S fuel => if checkf pg_start then check_loop fuel checkf (u32 (pg_start + gPageSize)) pg_stop else Some false
    end.

Definition numPages : Z := 2 ^ 20.

Definition checkPageRange (address sz : Z) (checkf : Z -> bool) : option bool :=
  if isSamePage address sz then Some (checkf (page_of address))
  else check_loop (Z.to_nat numPages) checkf (page_of address) (page_of (stop_of address sz)).

Definition vmcheckreadable (s : vm) (address sz : Z) : option Z :=
  ok ← checkPageRange address sz (isPageReadable s); Some (if (ok : bool) then OK else ERR NOT_ALLOWED).
Definition vmcheckwritable (s : vm) (address sz : Z) : option Z :=
  ok ← checkPageRange address sz (isPageWritable s); Some (if (ok : bool) then OK else ERR NOT_ALLOWED).

(** [mmap]: the descriptor remembers where it is mapped; its address comes back
    shifted. *)
Definition mmap (m : mm) (s : vm) (st : FsObject.state) (fds : Handletable.table FsObject.handle) (size fd : Z)
    : option (Z * mm * vm * FsObject.state * Handletable.table FsObject.handle) :=
  let fail e := Some (ERR e, m, s, st, fds) in
  if fd <? 0 then fail NO_SUCH_FILE
  else
    b ← Handletable.is_ fds (Z.to_nat fd);
    if negb b then fail NOT_A_FILE
    else
      file ← Handletable.value fds (Z.to_nat fd);
      if negb (FsObject.handle_ok file) then fail NOT_A_FILE
      else if negb (FsObject.h_region file =? 0) then fail NOT_ALLOWED
      else
        ob ← FsObject.objects st !! FsObject.h_object file;
        if FsObject.mKind ob =? 0 then fail NOT_A_FILE
        else
          '(rgn, m, s, st) ← findAndFileMapRegion m s st file size;
          if from (range rgn) =? 0 then Some (ERR OUT_OF_MEMORY, m, s, st, fds)
          else
            '(_, fds) ← Handletable.reset fds (Z.to_nat fd)
               (FsObject.mkHandle (FsObject.h_filesystem file) (FsObject.h_object file) (from (range rgn)));
            Some (OK_value (from (range rgn)), m, s, st, fds).

End MemCalls.

(** ** Processes *)

Module ProcCalls.
Import Abi Proc Kernel PM.

(** [exec_priority_t], null when nothing is to be set *)
Record exec_priority_t := mkPrio { quantum : Z; scheduling : Z }.

(** Every assignment the function makes before it returns is kept. *)
Definition prioritize_current (p : priority_t) (prio_in : option exec_priority_t) : Z * priority_t :=
  match prio_in with
  | None => (OK, p)
  | Some i =>
      if negb (quantum i =? 0) && (quantum i >? quantum_max p) then (ERR NOT_ALLOWED, p)
      else
        let p := if quantum i =? 0 then p
                 else mkPriority (quantum_max p) (quantum i) (scheduling_max p) (scheduling_current p) in
        if negb (scheduling i =? 0) && (scheduling i >? scheduling_max p) then (ERR NOT_ALLOWED, p)
        else (OK, if scheduling i =? 0 then p
                  else mkPriority (quantum_max p) (quantum_current p) (scheduling_max p) (scheduling i))
  end.

Definition prioritize_max (p : priority_t) (prio_in : option exec_priority_t) : Z * priority_t :=
  match prio_in with
  | None => (OK, p)
  | Some i =>
      if negb (quantum i =? 0) && negb (quantum i <=? quantum_max p) then (ERR NOT_ALLOWED, p)
      else
        let p := if quantum i =? 0 then p
                 else mkPriority (quantum i) (if quantum_current p >? quantum i then quantum i else quantum_current p)
                        (scheduling_max p) (scheduling_current p) in
        if negb (scheduling i =? 0) && negb (scheduling i <=? scheduling_max p) then (ERR NOT_ALLOWED, p)
        else (OK, if scheduling i =? 0 then p
                  else mkPriority (quantum_max p) (quantum_current p) (scheduling i)
                         (if scheduling_current p >? scheduling i then scheduling i else scheduling_current p))
  end.

(** [prioritize_target] *)
Inductive prioritize_target := PRIORITIZE_SET_CURRENT | PRIORITIZE_SET_MAXIMUM.

(** The result, and what is written to [prio_out] when it is given *)
Definition prioritize (k : kernel) (pid : nat) (setmax : prioritize_target) (prio_in : option exec_priority_t)
    : option (Z * option exec_priority_t * kernel) :=
  match getprocess k pid with
  | None => Some (ERR NO_SUCH_PROCESS, None, k)
  | Some a =>
      process ← procs k !! a;
      cur ← procs k !! gCurrentProcess k;
      if system process && negb (system cur) && bool_decide (is_Some prio_in) then Some (ERR NOT_ALLOWED, None, k)
      else
        match setmax with
        | PRIORITIZE_SET_CURRENT =>
            let '(r, p) := prioritize_current (priority process) prio_in in
            k ← upd k a (set_priority p);
            Some (r, if r =? OK then Some (mkPrio (quantum_current p) (scheduling_current p)) else None, k)
        | PRIORITIZE_SET_MAXIMUM =>
            let '(r, p) := prioritize_max (priority process) prio_in in
            k ← upd k a (set_priority p);
            Some (r, if r =? OK then Some (mkPrio (quantum_max p) (scheduling_max p)) else None, k)
        end
  end.

Definition getpid (k : kernel) : option Z := cur ← procs k !! gCurrentProcess k; Some (OK_value (Z.of_nat (pid cur))).
Definition getppid (k : kernel) : option Z := cur ← procs k !! gCurrentProcess k; Some (OK_value (Z.of_nat (ppid cur))).

Definition kill (k : kernel) (reaper : Z) (pid : nat) : option (Z * kernel) :=
  '(ok, k) ← Life.kill k reaper pid; Some (if (ok : bool) then OK else ERR NOT_ALLOWED, k).

(** [getcurdir]: the required size, or the characters copied with their terminator *)
Definition getcurdir (cur : process_t) (dest_null : bool) (sz : Z) : Z * (Z + string) :=
  let real_sz := Z.of_nat (String.length (cwd cur)) in
  if (sz <=? real_sz) || dest_null then (ERR OUT_OF_MEMORY, inl (real_sz + 1))
  else (OK, inr (cwd cur)).

End ProcCalls.
