(* ===== verification/Volume.v ===== *)
(** * Volumes, partitions and the partition table
    (kernel/src/fs/vol/volume.cpp, partition.cpp, scanner.cpp, fsidents.cpp,
    kernel/include/fs/vol/ptable.h)

    A volume reads and writes sectors of a device through a sector cache.  What it
    needs from the device are two virtual methods, the operations of the class
    [Device], with the laws of a block store; a partition of a disk is such a
    device as long as it fits on 32-bit sector numbers.  [Volume.read_spec] and
    [Volume.write_spec] show that the cache is invisible. *)

From stdpp Require Import base numbers list gmap option.
From Stdlib Require Import ZArith Lia.
From S2P Require Import Prelude Hash Lru.

Local Open Scope Z_scope.

(** ** Devices *)

(** The contents of a sector *)
Abbreviation block := (list Z).

(** [doRead] and [doWrite] of one sector; [None] is [false]. *)
Class Device (D : Type) := {
  doRead : D -> Z -> option block;
  doWrite : D -> Z -> block -> option D;
}.

Class DeviceLaws (D : Type) `{Device D} := {
  read_written d s b d' : is_u32 s -> doWrite d s b = Some d' -> doRead d' s = Some b;
  read_other d s b d' s' : is_u32 s -> is_u32 s' -> doWrite d s b = Some d' -> s' <> s -> doRead d' s' = doRead d s';
}.

Module Volume.

Section Volume.
Context {D : Type} `{Device D}.

Definition gCacheSize : nat := 512.
Definition sectorsize : Z := 512.

Record volume := mkVolume {
  mDisk : D; mCache : @Lru.cache block;
  mNumSectorsRead : Z; mNumSectorsWritten : Z; mNumSectorCacheHits : Z;
  io_read : Z; io_written : Z;   (* [iostats] of the current process *)
}.

Implicit Types v : volume.

Definition new (d : D) : volume := mkVolume d (Lru.new gCacheSize) 0 0 0 0 0.

Definition set_cache v (c : Lru.cache) : volume :=
  mkVolume (mDisk v) c (mNumSectorsRead v) (mNumSectorsWritten v) (mNumSectorCacheHits v) (io_read v) (io_written v).
Definition set_disk v (d : D) : volume :=
  mkVolume d (mCache v) (mNumSectorsRead v) (mNumSectorsWritten v) (mNumSectorCacheHits v) (io_read v) (io_written v).
Definition hit v : volume :=
  mkVolume (mDisk v) (mCache v) (mNumSectorsRead v) (mNumSectorsWritten v) (u64 (mNumSectorCacheHits v + 1))
    (io_read v) (io_written v).

Definition readAccounting v (sectors : Z) : volume :=
  mkVolume (mDisk v) (mCache v) (u64 (mNumSectorsRead v + sectors)) (mNumSectorsWritten v) (mNumSectorCacheHits v)
    (u64 (io_read v + sectors * sectorsize)) (io_written v).
Definition writeAccounting v (sectors : Z) : volume :=
  mkVolume (mDisk v) (mCache v) (mNumSectorsRead v) (u64 (mNumSectorsWritten v + sectors)) (mNumSectorCacheHits v)
    (io_read v) (u64 (io_written v + sectors * sectorsize)).

(** No block in the result is [false]. *)
Definition tryReadSector v (sector : Z) (tryReadCache updateCache : bool) : option (option block * volume) :=
  '(found, v) ← (if tryReadCache then
                   '(c, payload) ← Lru.find gCacheSize (mCache v) sector true;
                   Some (payload, set_cache v c)
                 else Some (None, v));
  match found with
  | Some payload => Some (Some payload, hit v)
  | None =>
      match doRead (mDisk v) sector with
      | None => Some (None, v)
      | Some b =>
          c ← (if updateCache then Lru.insert gCacheSize (mCache v) sector b else Some (mCache v));
          Some (Some b, set_cache v c)
      end
  end.

Definition tryWriteSector v (sector : Z) (b : block) (updateCache : bool) : option (bool * volume) :=
  match doWrite (mDisk v) sector b with
  | None => Some (false, v)
  | Some d =>
      let v := set_disk v d in
      c ← (if updateCache then Lru.insert gCacheSize (mCache v) sector b else Some (mCache v));
      Some (true, set_cache v c)
  end.

(** [read] of [count] sectors, with the blocks it got before it failed *)
Fixpoint read v (sector : Z) (count : nat) : option (bool * list block * volume) :=
  match count with
  | O => Some (true, [], v)
  | S count =>
      '(r, v) ← tryReadSector v sector true true;
      match r with
      | None => Some (false, [], v)
      | Some b =>
          let v := readAccounting v 1 in
          '(ok, bs, v) ← read v (u32 (sector + 1)) count;
          Some (ok, b :: bs, v)
      end
  end.

Fixpoint write v (sector : Z) (buffer : list block) : option (bool * volume) :=
  match buffer with
  | [] => Some (true, v)
  | b :: buffer =>
      '(ok, v) ← tryWriteSector v sector b true;
      if (ok : bool) then write (writeAccounting v 1) (u32 (sector + 1)) buffer else Some (false, v)
  end.

(** ** The same without a cache *)

Fixpoint dev_read (d : D) (sector : Z) (count : nat) : bool * list block :=
  match count with
  | O => (true, [])
  | S count =>
      match doRead d sector with
      | None => (false, [])
      | Some b => let '(ok, bs) := dev_read d (u32 (sector + 1)) count in (ok, b :: bs)
      end
  end.

Fixpoint dev_write (d : D) (sector : Z) (buffer : list block) : bool * D :=
  match buffer with
  | [] => (true, d)
  | b :: buffer =>
      match doWrite d sector b with
      | None => (false, d)
      | Some d => dev_write d (u32 (sector + 1)) buffer
      end
  end.

(** Every cached sector has the contents of the device. *)
Definition coherent v : Prop :=
  exists l, Lru.crep gCacheSize (mCache v) l
    /\ Forall (fun e => is_u32 e.1 /\ doRead (mDisk v) e.1 = Some e.2) l.

Lemma cache_pos : (0 < gCacheSize)%nat.
Proof. unfold gCacheSize. lia. Qed.

Lemma new_coherent d : coherent (new d).
Proof. exists []. split; [apply Lru.crep_new, cache_pos|done]. Qed.

Lemma assoc_elem (l : list (Z * block)) sid b : Lru.assoc l sid = Some b -> (sid, b) ∈ l.
Proof.
  induction l as [|[k v] l IH]; simpl; [done|]. destruct (Z.eqb_spec k sid) as [->|].
  - intros [= ->]. left.
  - intros ?%IH. by right.
Qed.

Lemma without_sublist (l : list (Z * block)) sid : sublist (Lru.without l sid) l.
Proof. unfold Lru.without. apply sublist_filter. Qed.

Lemma insert_entries P (l : list (Z * block)) sid b : P (sid, b) -> Forall P l -> Forall P (Lru.spec_insert gCacheSize l sid b).
Proof.
  intros Hp Hl. unfold Lru.spec_insert. constructor; [done|]. eapply Forall_of_sublist; [apply without_sublist|].
  case_match; [|done]. eapply Forall_of_sublist; [apply removelast_sublist|done].
Qed.

Lemma find_entries P (l : list (Z * block)) sid u : Forall P l -> Forall P (Lru.spec_find l sid u).1.
Proof.
  intros Hl. unfold Lru.spec_find. destruct (Lru.assoc l sid) as [d|] eqn:Ha; [|done]. destruct u; [|done].
  constructor; [by eapply list.Forall_forall, assoc_elem|]. eapply Forall_of_sublist; [apply without_sublist|done].
Qed.

Lemma read_sector_spec v sector : coherent v -> is_u32 sector ->
  exists v', tryReadSector v sector true true = Some (doRead (mDisk v) sector, v') /\ coherent v' /\ mDisk v' = mDisk v.
Proof.
  intros (l & Hc & Hl) Hs. unfold tryReadSector.
  destruct (Lru.find_spec gCacheSize cache_pos (mCache v) l sector true Hc) as (c1 & -> & Hc1).
  cbn [mbind option_bind]. pose proof (find_entries _ l sector true Hl) as Hl1.
  destruct ((Lru.spec_find l sector true).2) as [b|] eqn:Hf.
  - assert (Hb : Lru.assoc l sector = Some b).
    { unfold Lru.spec_find in Hf. destruct (Lru.assoc l sector) as [d|]; [|done]. simpl in Hf. congruence. }
    apply assoc_elem in Hb. eapply list.Forall_forall in Hl as [_ Hd]; [|exact Hb]. simpl in Hd. rewrite Hd.
    eexists. split_and!; [done| |done]. eexists. by split.
  - destruct (doRead (mDisk v) sector) as [b|] eqn:Hd; cbn [mDisk set_cache]; rewrite Hd.
    + destruct (Lru.lru_insert_spec gCacheSize cache_pos c1 _ sector b Hc1) as (c2 & E & Hc2).
      cbn [mCache set_cache]. rewrite E. cbn [mbind option_bind]. eexists. split_and!; [done| |done].
      eexists. split; [exact Hc2|]. by apply insert_entries.
    + eexists. split_and!; [done| |done]. eexists. by split.
Qed.

Context `{!DeviceLaws D}.

Lemma write_sector_spec v sector b : coherent v -> is_u32 sector ->
  exists v', tryWriteSector v sector b true = Some (bool_decide (is_Some (doWrite (mDisk v) sector b)), v')
    /\ coherent v' /\ mDisk v' = default (mDisk v) (doWrite (mDisk v) sector b).
Proof.
  intros (l & Hc & Hl) Hs. unfold tryWriteSector. destruct (doWrite (mDisk v) sector b) as [d|] eqn:Hw.
  - rewrite bool_decide_eq_true_2 by eauto. cbn [mCache set_disk].
    destruct (Lru.lru_insert_spec gCacheSize cache_pos (mCache v) l sector b Hc) as (c2 & -> & Hc2).
    cbn [mbind option_bind]. eexists. split_and!; [done| |done]. eexists. split; [exact Hc2|]. simpl.
    pose proof (read_written _ _ _ _ Hs Hw) as Hr.
    unfold Lru.spec_insert. constructor; [done|]. apply list.Forall_forall. intros [k x] Hin.
    assert (Hne : k <> sector).
    { intros ->. apply (list_elem_of_fmap_2 fst) in Hin. simpl in Hin. rewrite Lru.elem_of_without in Hin. tauto. }
    assert (Hin' : (k, x) ∈ l).
    { eapply sublist_subseteq in Hin; [|apply without_sublist]. case_match; [|done].
      eapply sublist_subseteq in Hin; [done|]. apply removelast_sublist. }
    eapply list.Forall_forall in Hl as [Hk Hx]; [|exact Hin']. simpl in *. split; [done|].
    by rewrite (read_other _ _ _ _ _ Hs Hk Hw).
  - rewrite bool_decide_eq_false_2 by (by intros [??]). eexists. split_and!; [done| |done]. eexists. by split.
Qed.

(** A read returns what the device holds and leaves the device alone. *)
Lemma read_spec_volume count : forall v sector, coherent v -> is_u32 sector ->
  exists v', read v sector count = Some (dev_read (mDisk v) sector count, v') /\ coherent v' /\ mDisk v' = mDisk v.
Proof.
  induction count as [|count IH]; intros v sector Hc Hs; cbn [read dev_read]; [by exists v|].
  destruct (read_sector_spec v sector Hc Hs) as (v1 & -> & Hc1 & Hd1). cbn [mbind option_bind].
  destruct (doRead (mDisk v) sector) as [b|]; [|by exists v1].
  destruct (IH (readAccounting v1 1) (u32 (sector + 1)) Hc1 ltac:(apply u32_range)) as (v2 & -> & Hc2 & Hd2).
  cbn [mbind option_bind]. simpl in *. rewrite Hd1 in *.
  destruct (dev_read (mDisk v) (u32 (sector + 1)) count) as [ok bs]. by exists v2.
Qed.

(** A write changes the device as if there were no cache. *)
Lemma write_spec_volume buffer : forall v sector, coherent v -> is_u32 sector ->
  exists v', write v sector buffer = Some ((dev_write (mDisk v) sector buffer).1, v')
    /\ coherent v' /\ mDisk v' = (dev_write (mDisk v) sector buffer).2.
Proof.
  induction buffer as [|b buffer IH]; intros v sector Hc Hs; cbn [write dev_write]; [by exists v|].
  destruct (write_sector_spec v sector b Hc Hs) as (v1 & -> & Hc1 & Hd1). cbn [mbind option_bind].
  destruct (doWrite (mDisk v) sector b) as [d|]; simpl in Hd1.
  - rewrite bool_decide_eq_true_2 by eauto.
    destruct (IH (writeAccounting v1 1) (u32 (sector + 1)) Hc1 ltac:(apply u32_range)) as (v2 & -> & Hc2 & Hd2).
    simpl in *. rewrite Hd1 in *. by exists v2.
  - rewrite bool_decide_eq_false_2 by (by intros [??]). by exists v1.
Qed.

End Volume.
End Volume.

(** ** Partition table *)

Module Ptable.

Record chs_t := mkChs { head : Z; sec : Z; cyl : Z }.

Record diskpart_t := mkPart {
  bootable : Z; start : chs_t; sysid : Z; end_ : chs_t; sector : Z; size : Z;
}.

(** Bit fields are filled from the lowest bit on, words are little-endian. *)
Definition chs_of (b0 b1 b2 : Z) : chs_t :=
  let w := Z.lor b1 (Z.shiftl b2 8) in mkChs b0 (Z.land w 63) (Z.shiftr w 6).
Definition word_of (b0 b1 b2 b3 : Z) : Z :=
  Z.lor b0 (Z.lor (Z.shiftl b1 8) (Z.lor (Z.shiftl b2 16) (Z.shiftl b3 24))).

(** The sixteen bytes of an entry *)
Definition diskpart_of (l : list Z) : option diskpart_t :=
  match l with
  | b0 :: b1 :: b2 :: b3 :: b4 :: b5 :: b6 :: b7 :: b8 :: b9 :: b10 :: b11 :: b12 :: b13 :: b14 :: b15 :: _ =>
      Some (mkPart b0 (chs_of b1 b2 b3) b4 (chs_of b5 b6 b7) (word_of b8 b9 b10 b11) (word_of b12 b13 b14 b15))
  | _ => None
  end.

Definition gPartitionOffset (part : nat) : nat := (16 * part + 446)%nat.

Definition partition_n (mbr : list Z) (n : nat) : option diskpart_t := diskpart_of (drop (gPartitionOffset n) mbr).

(** [gKnownFilesystemTypes]: the number, and whether it has a name *)
Definition gKnownFilesystemTypes : list (Z * bool) :=
  [(0x00, true); (0x01, true); (0x04, true); (0x05, true); (0x06, true); (0x07, true); (0x0B, true); (0x0C, true);
   (0x0E, true); (0x0F, true); (0x3C, true); (0x42, true); (0x82, true); (0x83, true); (0x84, true); (0x8E, true);
   (0xA8, true); (0xAB, true); (0xAF, true); (0xEE, true); (0xEF, true); (0xFA, true); (0xFB, true); (0xFC, true);
   (0xFF, false)].

(** The loop of [scan]: it stops at an entry with number zero and no name; reading
    behind the table is [None]. *)
Fixpoint known (table : list (Z * bool)) (id : Z) : option bool :=
  match table with
  | [] => None
  | (sid, name) :: table =>
      if (sid =? 0) && negb name then Some false
      else if sid =? id then Some name
      else known table id
  end.

(** The partitions [scan] makes volumes of *)
Definition scan_part (dp : diskpart_t) : option (list diskpart_t) :=
  if (sysid dp =? 0) || (size dp =? 0) then Some []
  else parttype ← known gKnownFilesystemTypes (sysid dp); Some (if (parttype : bool) then [dp] else []).

Definition scan (mbr : list Z) : option (list diskpart_t) :=
  p0 ← partition_n mbr 0; p1 ← partition_n mbr 1; p2 ← partition_n mbr 2; p3 ← partition_n mbr 3;
  l0 ← scan_part p0; l1 ← scan_part p1; l2 ← scan_part p2; l3 ← scan_part p3;
  Some (l0 ++ l1 ++ l2 ++ l3).

(** The table ends with the number 0xFF, which the loop does not take for an end:
    the search for a number that is not in it runs behind the table. *)
Lemma scan_unknown dp : sysid dp <> 0 -> size dp <> 0 -> sysid dp ∉ gKnownFilesystemTypes.*1 -> scan_part dp = None.
Proof.
  intros Hid Hsz Hout. unfold scan_part.
  rewrite (proj2 (Z.eqb_neq _ 0) Hid), (proj2 (Z.eqb_neq _ 0) Hsz). cbn [orb].
  assert (Hk : forall t, Forall (fun e => e.1 <> 0 \/ e.2 = true) t -> sysid dp ∉ t.*1 -> known t (sysid dp) = None).
  { induction t as [|[s n] t IH]; intros Hall Hin; [done|]. apply Forall_cons_1 in Hall as [Hs Hall].
    rewrite fmap_cons, not_elem_of_cons in Hin. destruct Hin as [Hne Hin]. simpl in *.
    destruct ((s =? 0) && negb n) eqn:E; [bool_to_prop; destruct Hs; congruence|].
    rewrite (proj2 (Z.eqb_neq s (sysid dp))) by congruence. by apply IH. }
  rewrite Hk; [done| |done]. repeat (constructor; [by (right; reflexivity) || (left; done)|]). constructor.
Qed.

(** Partitions of unknown kinds aside, [scan] keeps the order and drops the
    empty entries. *)
Lemma scan_part_known dp b : sysid dp <> 0 -> size dp <> 0 -> known gKnownFilesystemTypes (sysid dp) = Some b ->
  scan_part dp = Some (if b then [dp] else []).
Proof.
  intros Hid Hsz Hk. unfold scan_part. rewrite (proj2 (Z.eqb_neq _ 0) Hid), (proj2 (Z.eqb_neq _ 0) Hsz). cbn [orb].
  by rewrite Hk.
Qed.

(** The words of the entry *)
Lemma word_of_sum b0 b1 b2 b3 : is_u8 b0 -> is_u8 b1 -> is_u8 b2 -> is_u8 b3 ->
  word_of b0 b1 b2 b3 = b0 + 256 * (b1 + 256 * (b2 + 256 * b3)).
Proof.
  intros H0 H1 H2 H3. unfold word_of. change 24 with (8 + 8 + 8). change 16 with (8 + 8).
  rewrite <- !Z.shiftl_shiftl, <- !Z.shiftl_lor by lia. width. rewrite !lor_fields by lia. lia.
Qed.

End Ptable.

(** ** Partitions *)

Module Partition.

Section Partition.
Context {D : Type} `{Device D}.

Record partition := mkPartition { p_disk : D; mPartition : Ptable.diskpart_t }.

#[export] Instance partition_device : Device partition := {
  doRead p sector :=
    if sector >=? Ptable.size (mPartition p) then None
    else doRead (p_disk p) (u32 (sector + Ptable.sector (mPartition p)));
  doWrite p sector b :=
    if sector >=? Ptable.size (mPartition p) then None
    else d ← doWrite (p_disk p) (u32 (sector + Ptable.sector (mPartition p))) b; Some (mkPartition d (mPartition p));
}.

Definition numsectors (p : partition) : Z := Ptable.size (mPartition p).

Lemma u32_shift_inj a b c : is_u32 a -> is_u32 b -> u32 (a + c) = u32 (b + c) -> a = b.
Proof.
  intros Ha Hb Heq. width. assert (E : (a + c - c) mod 4294967296 = (b + c - c) mod 4294967296).
  { rewrite Zminus_mod, Heq, <- Zminus_mod. done. }
  rewrite !Z.add_simpl_r, !Z.mod_small in E by lia. done.
Qed.

#[export] Instance partition_laws `{!DeviceLaws D} : DeviceLaws partition.
Proof.
  split.
  - intros p s b p' Hs Hw. unfold doWrite, partition_device in Hw.
    destruct (s >=? Ptable.size (mPartition p)) eqn:Hsz; [done|].
    apply bind_Some in Hw as (d & Hd & [= <-]). unfold doRead, partition_device. simpl. rewrite Hsz.
    by eapply (read_written (D := D)); [apply u32_range|].
  - intros p s b p' s' Hs Hs' Hw Hne. unfold doWrite, partition_device in Hw.
    destruct (s >=? Ptable.size (mPartition p)); [done|].
    apply bind_Some in Hw as (d & Hd & [= <-]). unfold doRead, partition_device. simpl.
    destruct (s' >=? Ptable.size (mPartition p)); [done|].
    eapply (read_other (D := D)); [apply u32_range|apply u32_range|exact Hd|]. intros E. apply Hne. by eapply u32_shift_inj.
Qed.

(** Two partitions that do not overlap *)
Definition apart (a b : Ptable.diskpart_t) : Prop :=
  0 <= Ptable.sector a /\ 0 <= Ptable.sector b /\
  Ptable.sector a + Ptable.size a <= 2 ^ 32 /\ Ptable.sector b + Ptable.size b <= 2 ^ 32 /\
  (Ptable.sector a + Ptable.size a <= Ptable.sector b \/ Ptable.sector b + Ptable.size b <= Ptable.sector a).

(** A write to one partition is invisible in the other. *)
Lemma partitions_isolated `{!DeviceLaws D} d a b s blk p' s' : apart a b -> is_u32 s -> is_u32 s' ->
  doWrite (mkPartition d a) s blk = Some p' ->
  doRead (mkPartition (p_disk p') b) s' = doRead (mkPartition d b) s'.
Proof.
  intros (Ha0 & Hb0 & Ha & Hb & Hab) Hs Hs' Hw. unfold doWrite, partition_device in Hw. cbn [mPartition p_disk] in Hw.
  destruct (Z.geb_spec s (Ptable.size a)); [done|]. apply bind_Some in Hw as (d' & Hd & [= <-]).
  unfold doRead, partition_device. cbn [mPartition p_disk]. destruct (Z.geb_spec s' (Ptable.size b)); [done|].
  eapply (read_other (D := D)); [apply u32_range|apply u32_range|exact Hd|].
  unfold u32. rewrite !wrap_id by (unfold is_u in *; lia). unfold is_u in *. lia.
Qed.

End Partition.
End Partition.
