(* ===== verification/Timer.v ===== *)
(** * The time manager (kernel/src/time/manager.cpp, kernel/src/time/callback.cpp)

    Uptime, wall clock and the table of tick handlers.  A handler is known by its
    function and baton; running it is a parameter that may change the rest of the
    system and votes whether the current process should yield. *)

From stdpp Require Import base numbers list option.
From Stdlib Require Import ZArith Lia.
From S2P Require Import Prelude.

Local Open Scope Z_scope.

Module Timer.

Lemma period_mod (N n : nat) : (S n mod (1 + N) = 0 <-> (N + n * N) mod (1 + N) = 0)%nat.
Proof.
  rewrite !Nat.Lcm0.mod_divide. split; intros [c Hc]; exists (S n - c)%nat; nia.
Qed.

Section Timer.
(** The functions with their batons, the rest of the system, and a call *)
Context {F S : Type} (call : F -> Z -> S -> option (bool * S)).

Definition gMaxTickFunctions : nat := 10.

Record handler := mkHandler { callback : option F; every_N : Z; every_countdown : Z }.

Record manager := mkManager {
  mMillisecondsSinceBoot : Z; mBootDurationMillis : Z; mUNIXTimestamp : Z;
  mTickHandlers : list handler; millisPerTick : Z;
}.

Implicit Types (m : manager) (h : handler).

Definition new : manager := mkManager 0 0 0 (replicate gMaxTickFunctions (mkHandler None 0 0)) 0.

Definition registerTimeSource m (ms : Z) : manager :=
  mkManager (mMillisecondsSinceBoot m) (mBootDurationMillis m) (mUNIXTimestamp m) (mTickHandlers m) ms.

Definition set_handlers m (l : list handler) : manager :=
  mkManager (mMillisecondsSinceBoot m) (mBootDurationMillis m) (mUNIXTimestamp m) l (millisPerTick m).

(** The first slot without a function; [-1] when there is none. *)
Fixpoint first_free (l : list handler) (i : nat) : option nat :=
  match l with
  | [] => None
  | h :: l => match callback h with Some _ => first_free l (i + 1) | None => Some i end
  end.

Definition registerTickHandler m (f : F) (n : Z) : Z * manager :=
  match first_free (mTickHandlers m) 0 with
  | Some i => (Z.of_nat i, set_handlers m (<[i := mkHandler (Some f) n n]> (mTickHandlers m)))
  | None => (u32 (-1), m)
  end.

Definition unregisterTickHandler m (i : Z) : manager :=
  if i =? u32 (-1) then m
  else if i >=? Z.of_nat gMaxTickFunctions then m
  else
    match mTickHandlers m !! Z.to_nat i with
    | Some h => set_handlers m (<[Z.to_nat i := mkHandler None (every_N h) (every_countdown h)]> (mTickHandlers m))
    | None => m
    end.

(** The body of the loop of [tick] for one slot *)
Definition tick_one h (new_count : Z) (s : S) : option (bool * handler * S) :=
  match callback h with
  | None => Some (false, h, s)
  | Some f =>
      if every_countdown h =? 0 then
        '(vote, s) ← call f new_count s;
        Some (vote, mkHandler (Some f) (every_N h) (every_N h), s)
      else Some (false, mkHandler (Some f) (every_N h) (every_countdown h - 1), s)
  end.

Fixpoint tick_all (l : list handler) (new_count : Z) (s : S) (want_yield : bool) : option (bool * list handler * S) :=
  match l with
  | [] => Some (want_yield, [], s)
  | h :: l =>
      '(vote, h, s) ← tick_one h new_count s;
      '(want_yield, l, s) ← tick_all l new_count s (if (vote : bool) then true else want_yield);
      Some (want_yield, h :: l, s)
  end.

(** [None] is also the panic without a time source. *)
Definition tick m (s : S) : option (bool * manager * S) :=
  if millisPerTick m =? 0 then None
  else
    let new_count := u64 (mMillisecondsSinceBoot m + millisPerTick m) in
    '(want_yield, l, s) ← tick_all (mTickHandlers m) new_count s false;
    Some (want_yield, mkManager new_count (mBootDurationMillis m) (mUNIXTimestamp m) l (millisPerTick m), s).

Definition millisUptime m : Z := mMillisecondsSinceBoot m.
Definition millisBootTime m : Z := mBootDurationMillis m.
Definition UNIXtime m : Z := mUNIXTimestamp m.
Definition UNIXtimeIncrement m (seconds : Z) : manager :=
  mkManager (mMillisecondsSinceBoot m) (mBootDurationMillis m) (u64 (mUNIXTimestamp m + seconds)) (mTickHandlers m) (millisPerTick m).
Definition bootCompleted m : manager :=
  mkManager (mMillisecondsSinceBoot m) (mMillisecondsSinceBoot m) (mUNIXTimestamp m) (mTickHandlers m) (millisPerTick m).

(** ** How often a handler runs *)

Fixpoint ticks m (s : S) (n : nat) : option (manager * S) :=
  match n with
  | O => Some (m, s)
  | Datatypes.S n => '(_, m, s) ← tick m s; ticks m s n
  end.

(** The slot after a tick does not depend on the other slots. *)
Definition step h : handler :=
  match callback h with
  | None => h
  | Some f => if every_countdown h =? 0 then mkHandler (Some f) (every_N h) (every_N h)
              else mkHandler (Some f) (every_N h) (every_countdown h - 1)
  end.

(** Whether it runs at the next tick *)
Definition due h : bool := match callback h with None => false | Some _ => every_countdown h =? 0 end.

Hypothesis call_total : forall f c s, is_Some (call f c s).

Lemma tick_one_spec h c s : exists v s', tick_one h c s = Some (v, step h, s').
Proof.
  unfold tick_one, step. destruct (callback h) as [f|] eqn:Hc; [|by eexists _, _].
  destruct (every_countdown h =? 0); [|by eexists _, _].
  destruct (call_total f c s) as [[v s'] ->]. by eexists _, _.
Qed.

Lemma tick_all_spec l c : forall s w, exists w' s', tick_all l c s w = Some (w', step <$> l, s').
Proof.
  induction l as [|h l IH]; intros s w; cbn [tick_all]; [by eexists _, _|].
  destruct (tick_one_spec h c s) as (v & s1 & ->). cbn [mbind option_bind].
  destruct (IH s1 (if v then true else w)) as (w' & s2 & ->). by eexists _, _.
Qed.

Lemma ticks_spec n : forall m s, millisPerTick m <> 0 ->
  exists m' s', ticks m s n = Some (m', s') /\ mTickHandlers m' = Nat.iter n (fmap step) (mTickHandlers m)
    /\ millisPerTick m' = millisPerTick m
    /\ (is_u64 (mMillisecondsSinceBoot m) ->
        mMillisecondsSinceBoot m' = u64 (mMillisecondsSinceBoot m + Z.of_nat n * millisPerTick m)).
Proof.
  induction n as [|n IH]; intros m s Hm; cbn [ticks].
  { exists m, s. split_and!; try done. intros Hu. rewrite Z.mul_0_l, Z.add_0_r. symmetry. by apply u64_id. }
  unfold tick. rewrite (proj2 (Z.eqb_neq _ 0)) by done.
  destruct (tick_all_spec (mTickHandlers m) (u64 (mMillisecondsSinceBoot m + millisPerTick m)) s false) as (w & s1 & ->).
  cbn [mbind option_bind].
  destruct (IH (mkManager (u64 (mMillisecondsSinceBoot m + millisPerTick m)) (mBootDurationMillis m) (mUNIXTimestamp m)
    (step <$> mTickHandlers m) (millisPerTick m)) s1 Hm) as (m' & s' & -> & Hl & Hp & Hms).
  exists m', s'. split_and!; try done.
  - rewrite Hl. cbn [mTickHandlers]. by rewrite Nat.iter_succ_r.
  - intros Hu. rewrite Hms by apply u64_range. simpl. unfold u64, wrap. rewrite Zplus_mod_idemp_l. f_equal. lia.
Qed.

(** The handler of a slot after some ticks *)
Lemma slot_after n m s i h : millisPerTick m <> 0 -> mTickHandlers m !! i = Some h ->
  exists m' s', ticks m s n = Some (m', s') /\ mTickHandlers m' !! i = Some (Nat.iter n step h).
Proof.
  intros Hm Hi. destruct (ticks_spec n m s Hm) as (m' & s' & E & Hl & _). exists m', s'. split; [done|]. rewrite Hl. clear -Hi.
  induction n as [|n IH]; [done|]. by rewrite !Nat.iter_succ, list_lookup_fmap, IH.
Qed.

Lemma step_iter f n (N : nat) : forall c : nat, (c <= N)%nat ->
  Nat.iter n step (mkHandler (Some f) (Z.of_nat N) (Z.of_nat c))
  = mkHandler (Some f) (Z.of_nat N) (Z.of_nat ((c + n * N) mod (1 + N))).
Proof.
  induction n as [|n IH]; intros c Hc.
  - rewrite Nat.mul_0_l, Nat.add_0_r, Nat.mod_small by lia. done.
  - rewrite Nat.iter_succ, IH by done. unfold step. cbn [callback every_countdown every_N].
    set (r := ((c + n * N) mod (1 + N))%nat).
    assert (Hr : ((c + Datatypes.S n * N) mod (1 + N) = (r + N) mod (1 + N))%nat).
    { unfold r. rewrite Nat.Div0.add_mod_idemp_l. f_equal. lia. }
    rewrite Hr. assert (Hlt : (r < 1 + N)%nat) by (apply Nat.mod_upper_bound; lia).
    destruct (Z.eqb_spec (Z.of_nat r) 0) as [E|E].
    + replace r with 0%nat by lia. rewrite Nat.add_0_l, Nat.mod_small by lia. done.
    + replace (r + N)%nat with (r - 1 + 1 * (1 + N))%nat by lia. rewrite Nat.Div0.mod_add, Nat.mod_small by lia.
      f_equal. lia.
Qed.

Lemma first_free_bound l : forall j k, first_free l j = Some k -> (j <= k < j + length l)%nat.
Proof.
  induction l as [|h l IH]; intros j k E; cbn [first_free] in E; [done|]. destruct (callback h).
  - apply IH in E. simpl. lia.
  - injection E as <-. simpl. lia.
Qed.

Lemma registered_clock m f n i m0 : registerTickHandler m f n = (i, m0) ->
  mMillisecondsSinceBoot m0 = mMillisecondsSinceBoot m /\ millisPerTick m0 = millisPerTick m.
Proof. unfold registerTickHandler. case_match; intros [= _ <-]; done. Qed.

(** A handler registered to run every [N] ticks runs at the ticks whose number is
    a multiple of [N + 1]. *)
Lemma handler_due m s f (N : nat) n i m0 : millisPerTick m <> 0 -> length (mTickHandlers m) = gMaxTickFunctions ->
  registerTickHandler m f (Z.of_nat N) = (i, m0) -> i <> u32 (-1) ->
  exists m' s' h, ticks m0 s n = Some (m', s') /\ mTickHandlers m' !! Z.to_nat i = Some h
    /\ callback h = Some f /\ (due h = true <-> (Datatypes.S n mod (1 + N) = 0)%nat).
Proof.
  intros Hm Hlen Hreg Hi. unfold registerTickHandler in Hreg.
  destruct (first_free (mTickHandlers m) 0) as [j|] eqn:Hj; [|congruence]. injection Hreg as <- <-.
  pose proof (first_free_bound _ _ _ Hj). rewrite Nat2Z.id.
  destruct (slot_after n (set_handlers m (<[j := mkHandler (Some f) (Z.of_nat N) (Z.of_nat N)]> (mTickHandlers m))) s j
    (mkHandler (Some f) (Z.of_nat N) (Z.of_nat N)) Hm) as (m' & s' & E & Hl).
  { simpl. apply list_lookup_insert_eq. lia. }
  rewrite step_iter in Hl by lia. exists m', s', (mkHandler (Some f) (Z.of_nat N) (Z.of_nat ((N + n * N) mod (1 + N)))).
  split_and!; [done|done|done|]. unfold due. cbn [callback every_countdown].
  rewrite Z.eqb_eq, period_mod. lia.
Qed.

End Timer.
End Timer.
