(* ===== verification/Keyboard.v ===== *)
(** * PS/2 keyboard driver (kernel/src/drivers/ps2/keyboard.cpp)

    The interrupt handler turns the bytes of scan code set 2 into key events with
    the state of the modifier keys and stores them in a circular buffer of 128
    events, from which the keyboard task reads.  [Keyboard.run] replays a sequence
    of interrupts and reads; [Keyboard.driver_fifo] shows that it delivers the
    decoded events in order as long as the buffer is not overrun, and
    [Keyboard.overrun_loses_all] what happens when it is. *)

From stdpp Require Import base numbers list option.
From Stdlib Require Import ZArith Lia.
From S2P Require Import Prelude Containers.

Local Open Scope Z_scope.

Module KeyEvent.

Inductive keymap_to_use := KEYMAP_CAPS_LOCK | KEYMAP_SHIFT | KEYMAP_LOWERCASE | KEYMAP_LONG.

Record key_event_t := mkKey { keymap : keymap_to_use; ctrldown : bool; altdown : bool; down : bool; keycode : Z }.

(** All members zero *)
Definition none : key_event_t := mkKey KEYMAP_CAPS_LOCK false false false 0.

Definition UP : Z := 0x0165.
Definition LFT : Z := 0x0166.
Definition RHT : Z := 0x0167.
Definition DWN : Z := 0x0168.
Definition F1 : Z := 0x0265.
Definition F2 : Z := 0x0266.
Definition F3 : Z := 0x0267.
Definition F4 : Z := 0x0268.
Definition F5 : Z := 0x0269.
Definition F6 : Z := 0x0270.
Definition F7 : Z := 0x0271.
Definition F8 : Z := 0x0272.
Definition F9 : Z := 0x0273.
Definition F10 : Z := 0x0274.
Definition F11 : Z := 0x0275.
Definition F12 : Z := 0x0276.
Definition ESC : Z := 0x0365.
Definition DEL : Z := 0x0366.
End KeyEvent.

Module Keyboard.
Import KeyEvent.

(** ** The scan code maps *)

Definition gCapslockScancodeMap : list Z := [
  0; 0; 0; 0; 0; 0; 0; 0; 0; 0; 0; 0; 0; 0; 96; 0;
  0; 0; 0; 0; 0; 81; 49; 0; 0; 0; 90; 83; 65; 87; 50; 0;
  0; 67; 88; 68; 69; 52; 51; 0; 0; 32; 86; 70; 84; 82; 53; 0;
  0; 78; 66; 72; 71; 89; 54; 0; 0; 0; 77; 74; 85; 55; 56; 0;
  0; 44; 75; 73; 79; 48; 57; 0; 0; 46; 47; 76; 59; 80; 45; 0;
  0; 0; 39; 0; 91; 61; 0; 0; 0; 0; 10; 93; 0; 92; 0; 0;
  0; 0; 0; 0; 0; 0; 8; 0; 0; 49; 0; 52; 55; 0; 0; 0;
  48; 46; 50; 53; 54; 56; 0; 0; 0; 43; 51; 45; 42; 57; 0; 0] ++ replicate 128 0.

Definition gShiftScancodeMap : list Z := [
  0; 0; 0; 0; 0; 0; 0; 0; 0; 0; 0; 0; 0; 0; 126; 0;
  0; 0; 0; 0; 0; 81; 33; 0; 0; 0; 90; 83; 65; 87; 64; 0;
  0; 67; 88; 68; 69; 36; 35; 0; 0; 32; 86; 70; 84; 82; 37; 0;
  0; 78; 66; 72; 71; 89; 94; 0; 0; 0; 77; 74; 85; 38; 42; 0;
  0; 60; 75; 73; 79; 41; 40; 0; 0; 62; 63; 76; 58; 80; 95; 0;
  0; 0; 34; 0; 123; 43; 0; 0; 0; 0; 10; 125; 0; 124; 0; 0;
  0; 0; 0; 0; 0; 0; 0; 0; 0; 49; 0; 52; 55; 0; 0; 0;
  48; 62; 50; 53; 54; 56; 0; 0; 0; 43; 51; 45; 42; 57; 0; 0] ++ replicate 128 0.

Definition gLowercaseScancodeMap : list Z := [
  0; F9; 0; F5; F3; F1; F2; F12; 0; F10; F8; F6; F4; 0; 96; 0;
  0; 0; 0; 0; 0; 113; 49; 0; 0; 0; 122; 115; 97; 119; 50; 0;
  0; 99; 120; 100; 101; 52; 51; 0; 0; 32; 118; 102; 116; 114; 53; 0;
  0; 110; 98; 104; 103; 121; 54; 0; 0; 0; 109; 106; 117; 55; 56; 0;
  0; 44; 107; 105; 111; 48; 57; 0; 0; 46; 47; 108; 59; 112; 45; 0;
  0; 0; 39; 0; 91; 61; 0; 0; 2; 0; 10; 93; 0; 92; 0; 0;
  0; 0; 0; 0; 0; 0; 8; 0; 0; 49; 0; 52; 55; 0; 0; 0;
  48; 46; 50; 53; 54; 56; ESC; 0; F11; 43; 51; 45; 42; 57; 0; 0;
  0; 0; 0; F7; 0; 0; 0; 0; 0; 0; 0; 0; 0; 0; 0; 0] ++ replicate 112 0.

Definition gLongScancodeMap : list Z := [
  0; 0; 0; 0; 0; 0; 0; 0; 0; 0; 0; 0; 0; 0; 0; 0;
  0; 0; 0; 0; 0; 0; 0; 0; 0; 0; 0; 0; 0; 0; 0; 0;
  0; 0; 0; 0; 0; 0; 0; 0; 0; 0; 0; 0; 0; 0; 0; 0;
  0; 0; 0; 0; 0; 0; 0; 0; 0; 0; 0; 0; 0; 0; 0; 0;
  0; 0; 0; 0; 0; 0; 0; 0; 0; 0; 47; 0; 0; 0; 0; 0;
  0; 0; 0; 0; 0; 0; 0; 0; 0; 0; 10; 0; 0; 0; 0; 0;
  0; 0; 0; 0; 0; 0; 0; 0; 0; 0; 0; LFT; 0; 0; 0; 0;
  0; DEL; DWN; 0; RHT; UP; 0; 0; 0; 0; 0; 0; 0; 0; 0; 0] ++ replicate 128 0.
(** ** State *)

Record modes := mkModes {
  gIsBreakCode : bool; gIsLong : bool; gCapsLock : bool; gShift : bool;
  gCtrlDown : bool; gAltDown : bool; gDeleteDown : bool;
}.

Definition gBufferSize : nat := 128.

Record keyboard := mkKeyboard { gKeyboardBuffer : Queue.queue key_event_t; gModes : modes }.

Definition new_modes : modes := mkModes false false false false false false false.
Definition new : keyboard := mkKeyboard (Queue.new gBufferSize none) new_modes.

(** ** The interrupt handler *)

(** The event for a byte that is not a prefix *)
Definition event_of (m : modes) (b : Z) : option key_event_t :=
  let '(map, which) :=
    if gIsLong m then (gLongScancodeMap, KEYMAP_LONG)
    else if gShift m then (gShiftScancodeMap, KEYMAP_SHIFT)
    else if gCapsLock m then (gCapslockScancodeMap, KEYMAP_CAPS_LOCK)
    else (gLowercaseScancodeMap, KEYMAP_LOWERCASE) in
  code ← map !! Z.to_nat b;
  Some (mkKey which (gCtrlDown m) (gAltDown m) (negb (gIsBreakCode m)) code).

(** The modifier keys, then the prefixes are forgotten *)
Definition modifiers (m : modes) (b : Z) : modes :=
  let brk := gIsBreakCode m in
  mkModes false false
    (if (b =? 0x58) && brk then negb (gCapsLock m) else gCapsLock m)
    (if (b =? 0x12) || (b =? 0x59) then negb brk else gShift m)
    (if b =? 0x14 then negb brk else gCtrlDown m)
    (if b =? 0x11 then negb brk else gAltDown m)
    (if b =? 0x71 then gIsLong m && negb brk else gDeleteDown m).

(** [parse_scan_code] for the byte read from the data port; the result tells
    whether the handler asks for a wake-up of the keyboard task. *)
Definition parse_scan_code (k : keyboard) (b : Z) : option (bool * keyboard) :=
  let m := gModes k in
  if b =? 0xE0 then
    Some (false, mkKeyboard (gKeyboardBuffer k)
      (mkModes (gIsBreakCode m) true (gCapsLock m) (gShift m) (gCtrlDown m) (gAltDown m) (gDeleteDown m)))
  else if b =? 0xF0 then
    Some (false, mkKeyboard (gKeyboardBuffer k)
      (mkModes true (gIsLong m) (gCapsLock m) (gShift m) (gCtrlDown m) (gAltDown m) (gDeleteDown m)))
  else
    event ← event_of m b;
    Some (true, mkKeyboard (Queue.write gBufferSize (gKeyboardBuffer k) event) (modifiers m b)).

Definition any (k : keyboard) : bool := negb (Queue.empty (gKeyboardBuffer k)).

(** [next]: no event when the buffer is empty *)
Definition next (k : keyboard) : option (option key_event_t * keyboard) :=
  if any k then
    '(evt, q) ← Queue.read gBufferSize (gKeyboardBuffer k);
    Some (Some evt, mkKeyboard q (gModes k))
  else Some (None, k).

(** ** Interrupts and reads in any order *)

Inductive op := Irq (b : Z) | Next.

Fixpoint run (k : keyboard) (os : list op) : option (list key_event_t * keyboard) :=
  match os with
  | [] => Some ([], k)
  | Irq b :: os => '(_, k) ← parse_scan_code k b; run k os
  | Next :: os =>
      '(e, k) ← next k;
      '(es, k) ← run k os;
      Some (match e with Some e => e :: es | None => es end, k)
  end.

(** Decoding alone, without the buffer *)
Definition prefix (b : Z) : bool := (b =? 0xE0) || (b =? 0xF0).

Fixpoint decode (m : modes) (bs : list Z) : list key_event_t :=
  match bs with
  | [] => []
  | b :: bs =>
      if b =? 0xE0 then
        decode (mkModes (gIsBreakCode m) true (gCapsLock m) (gShift m) (gCtrlDown m) (gAltDown m) (gDeleteDown m)) bs
      else if b =? 0xF0 then
        decode (mkModes true (gIsLong m) (gCapsLock m) (gShift m) (gCtrlDown m) (gAltDown m) (gDeleteDown m)) bs
      else match event_of m b with Some e => e :: decode (modifiers m b) bs | None => [] end
  end.

Definition bytes_of (os : list op) : list Z := omap (fun o => match o with Irq b => Some b | Next => None end) os.

(** With [n] events in the buffer, no interrupt finds it full. *)
Fixpoint fits (n : nat) (os : list op) : Prop :=
  match os with
  | [] => True
  | Irq b :: os =>
      if prefix b then fits n os else (S n < gBufferSize)%nat /\ fits (S n) os
  | Next :: os => fits (pred n) os
  end.

#[global] Instance fits_dec n os : Decision (fits n os).
Proof.
  revert n. induction os as [|[b|] os IH]; intros n; simpl; [apply _| |apply IH].
  destruct (prefix b); [apply IH|]. pose proof (IH (S n)). apply _.
Defined.

Lemma event_of_some m b : is_u8 b -> is_Some (event_of m b).
Proof.
  intros Hb. unfold event_of.
  set (p := if gIsLong m then _ else _).
  assert (Hl : length p.1 = 256%nat) by (unfold p; repeat case_match; reflexivity).
  destruct p as [map which]. simpl in Hl.
  assert (is_Some (map !! Z.to_nat b)) as [c ->] by (apply lookup_lt_is_Some_2; rewrite Hl; width; lia).
  simpl. eauto.
Qed.

Lemma decode_event m b bs e : prefix b = false -> event_of m b = Some e ->
  decode m (b :: bs) = e :: decode (modifiers m b) bs.
Proof. unfold prefix. intros [H1 H2]%orb_false_iff He. cbn [decode]. by rewrite H1, H2, He. Qed.

(** The driver delivers the decoded events in order. *)
Lemma driver_fifo os : forall k l, Forall is_u8 (bytes_of os) ->
  Queue.qrep gBufferSize (gKeyboardBuffer k) l -> fits (length l) os ->
  exists out k' l', run k os = Some (out, k') /\ Queue.qrep gBufferSize (gKeyboardBuffer k') l'
    /\ l ++ decode (gModes k) (bytes_of os) = out ++ l'.
Proof.
  induction os as [|[b|] os IH]; intros k l Hb Hq Hf.
  - exists [], k, l. split_and!; [done|done|]. by rewrite app_nil_r.
  - change (bytes_of (Irq b :: os)) with (b :: bytes_of os) in *. apply Forall_cons_1 in Hb as [Hb Hbs].
    destruct (prefix b) eqn:Hp.
    + cbn [fits] in Hf. rewrite Hp in Hf. unfold prefix in Hp. cbn [run]. unfold parse_scan_code. cbn [decode].
      destruct (b =? 0xE0); [|destruct (b =? 0xF0); [|done]]; cbn [mbind option_bind];
        apply (IH (mkKeyboard (gKeyboardBuffer k) _) l Hbs Hq Hf).
    + cbn [fits] in Hf. rewrite Hp in Hf. destruct Hf as [Hroom Hf].
      destruct (event_of_some (gModes k) b Hb) as [e He]. rewrite (decode_event _ _ _ e Hp He).
      unfold prefix in Hp. apply orb_false_iff in Hp as [H1 H2].
      cbn [run]. unfold parse_scan_code. rewrite H1, H2, He. cbn [mbind option_bind].
      destruct (IH (mkKeyboard (Queue.write gBufferSize (gKeyboardBuffer k) e) (modifiers (gModes k) b)) (l ++ [e]) Hbs)
        as (out & k' & l' & Hr & Hq' & Heq).
      * by apply Queue.queue_write_spec.
      * by rewrite length_app, Nat.add_1_r.
      * exists out, k', l'. split_and!; [done|done|]. by rewrite <- Heq, <- app_assoc.
  - change (bytes_of (Next :: os)) with (bytes_of os) in *. cbn [fits run] in *. unfold next, any.
    rewrite (Queue.queue_empty_spec gBufferSize _ l Hq). destruct l as [|x l].
    + rewrite bool_decide_eq_true_2 by done. cbn [negb mbind option_bind].
      destruct (IH k [] Hb Hq Hf) as (out & k' & l' & -> & Hq' & Heq). exists out, k', l'. by split_and!.
    + rewrite bool_decide_eq_false_2 by done. cbn [negb].
      destruct (Queue.queue_read_spec gBufferSize _ x l Hq) as (q' & -> & Hq2). cbn [mbind option_bind].
      destruct (IH (mkKeyboard q' (gModes k)) l Hb Hq2 Hf) as (out & k' & l' & -> & Hq' & Heq).
      exists (x :: out), k', l'. split_and!; [done|done|]. simpl in *. by rewrite Heq.
Qed.

Lemma new_empty : Queue.qrep gBufferSize (gKeyboardBuffer new) [].
Proof. apply Queue.qrep_new. unfold gBufferSize. lia. Qed.

(** One more event in a buffer that holds 127 and the driver reports no event at
    all: the indices are equal again. *)
Lemma overrun_loses_all k l b : is_u8 b -> prefix b = false ->
  Queue.qrep gBufferSize (gKeyboardBuffer k) l -> length l = 127%nat ->
  exists k', parse_scan_code k b = Some (true, k') /\ next k' = Some (None, k').
Proof.
  intros Hb Hp Hq Hl. unfold prefix in Hp. apply orb_false_iff in Hp as [H1 H2].
  destruct (event_of_some (gModes k) b Hb) as [e He]. unfold parse_scan_code. rewrite H1, H2, He. cbn [mbind option_bind].
  eexists. split; [done|]. unfold next, any, Queue.empty. simpl.
  rewrite (Queue.incr_write gBufferSize _ l Hq), Hl. change (S 127) with (1 * gBufferSize)%nat.
  rewrite Nat.Div0.mod_add, Nat.mod_small by apply Hq. by rewrite Nat.eqb_refl.
Qed.

(** ** Typing *)

(** Pressing and releasing a key *)
Definition stroke (b : Z) : list Z := [b; 0xF0; b].

(** A key that is not a prefix and not a modifier *)
Definition plain (b : Z) : bool :=
  negb (prefix b) && negb (existsb (Z.eqb b) [0x58; 0x12; 0x59; 0x14; 0x11; 0x71]).

Lemma decode_break m bs : decode m (0xF0 :: bs)
  = decode (mkModes true (gIsLong m) (gCapsLock m) (gShift m) (gCtrlDown m) (gAltDown m) (gDeleteDown m)) bs.
Proof. reflexivity. Qed.

Lemma modifiers_plain m b : plain b = true ->
  modifiers m b = mkModes false false (gCapsLock m) (gShift m) (gCtrlDown m) (gAltDown m) (gDeleteDown m).
Proof.
  intros [_ Hmod%negb_true_iff]%andb_true_iff. cbn [existsb] in Hmod.
  repeat (apply orb_false_iff in Hmod as [?H Hmod]). unfold modifiers.
  by rewrite H, H0, H1, H2, H3, H4.
Qed.

Lemma stroke_decode m b bs code : plain b = true -> gIsBreakCode m = false -> gIsLong m = false ->
  gShift m = false -> gCapsLock m = false ->
  gLowercaseScancodeMap !! Z.to_nat b = Some code ->
  decode m (stroke b ++ bs)
  = mkKey KEYMAP_LOWERCASE (gCtrlDown m) (gAltDown m) true code
    :: mkKey KEYMAP_LOWERCASE (gCtrlDown m) (gAltDown m) false code
    :: decode m bs.
Proof.
  intros Hp Hb Hl Hs Hc Hm. assert (Hpre : prefix b = false) by (apply andb_true_iff in Hp as [?%negb_true_iff _]; done).
  destruct m as [brk lng caps sh ctl alt del]. cbn in Hb, Hl, Hs, Hc. subst.
  change (stroke b ++ bs) with (b :: 0xF0 :: b :: bs).
  rewrite (decode_event _ _ _ (mkKey KEYMAP_LOWERCASE ctl alt true code) Hpre) by (unfold event_of; simpl; by rewrite Hm).
  rewrite modifiers_plain by done. rewrite decode_break. f_equal.
  rewrite (decode_event _ _ _ (mkKey KEYMAP_LOWERCASE ctl alt false code) Hpre) by (unfold event_of; simpl; by rewrite Hm).
  by rewrite modifiers_plain.
Qed.

(** Caps lock gives the capital letters, and so does shift. *)
Lemma letters_capital b c : is_u8 b -> gLowercaseScancodeMap !! Z.to_nat b = Some c -> 97 <= c <= 122 ->
  gCapslockScancodeMap !! Z.to_nat b = Some (c - 32) /\ gShiftScancodeMap !! Z.to_nat b = Some (c - 32).
Proof.
  intros Hb. set (i := Z.to_nat b). assert (Hi : (i < 256)%nat) by (width; lia).
  assert (Hall : forallb (fun i => match gLowercaseScancodeMap !! i with
    | Some c => if (97 <=? c) && (c <=? 122)
                then bool_decide (gCapslockScancodeMap !! i = Some (c - 32)) && bool_decide (gShiftScancodeMap !! i = Some (c - 32))
                else true
    | None => true end) (seq 0 256) = true) by reflexivity.
  rewrite forallb_forall in Hall. specialize (Hall i). rewrite in_seq in Hall. specialize (Hall ltac:(lia)).
  intros E Hc. rewrite E in Hall. rewrite (proj2 (Z.leb_le 97 c)), (proj2 (Z.leb_le c 122)) in Hall by lia.
  simpl in Hall. bool_to_prop. done.
Qed.

End Keyboard.
