(* ===== verification/Screen.v ===== *)
(** * Framebuffer console (kernel/src/drivers/framebuffer/fb.cpp)

    [Color] has the colours and their packed form; [Screen] the console: the video
    memory and the back buffer as arrays of 32-bit words, the cursor in pixels
    ([mX] counts lines from the top, [mY] pixels from the left), the three colour
    sets and the operations that draw.  An access outside of the two arrays is
    [None].  The glyphs are a parameter, since the font is a vendored table. *)

From stdpp Require Import base numbers list option.
From Stdlib Require Import ZArith Lia.
From S2P Require Import Prelude.

Local Open Scope Z_scope.

Module Color.

Record color_t := mkColor { r : Z; g : Z; b : Z }.

Definition black : color_t := mkColor 0 0 0.
Definition green : color_t := mkColor 0 255 0.

(** The constructor from components of a wider type *)
Definition of_rgb (r g b : Z) : color_t := mkColor (u8 r) (u8 g) (u8 b).

Definition to_word (c : color_t) : Z := Z.lor (Z.lor (Z.shiftl (r c) 16) (Z.shiftl (g c) 8)) (b c).

Definition of_word (clr : Z) : color_t :=
  let clr := Z.land clr 0xFFFFFF in
  mkColor (Z.shiftr (Z.land clr 0xFF0000) 16) (Z.shiftr (Z.land clr 0xFF00) 8) (Z.land clr 0xFF).

Definition wf (c : color_t) : Prop := is_u8 (r c) /\ is_u8 (g c) /\ is_u8 (b c).

Lemma to_word_sum c : wf c -> to_word c = r c * 65536 + g c * 256 + b c.
Proof.
  destruct c as [x y z]. unfold wf, to_word. simpl. intros (Hx & Hy & Hz).
  change 16 with (8 + 8). rewrite <- Z.shiftl_shiftl, <- Z.shiftl_lor, Z.lor_comm, (Z.lor_comm _ y) by lia.
  rewrite !lor_fields by (width; lia). lia.
Qed.

Lemma of_word_div w : 0 <= w -> of_word w = mkColor (w / 65536 mod 256) (w / 256 mod 256) (w mod 256).
Proof.
  intros Hw. unfold of_word.
  assert (Hland : forall v, Z.land v 255 = v mod 256) by (intros v; exact (Z.land_ones v 8 ltac:(lia))).
  rewrite !Z.shiftr_land, <- !Z.land_assoc.
  change (Z.land (Z.shiftr 0xFFFFFF 16) (Z.shiftr 0xFF0000 16)) with 255.
  change (Z.land (Z.shiftr 0xFFFFFF 8) (Z.shiftr 0xFF00 8)) with 255.
  change (Z.land 0xFFFFFF 0xFF) with 255. rewrite !Hland, !Z.shiftr_div_pow2 by lia. done.
Qed.

Lemma color_roundtrip c : wf c -> of_word (to_word c) = c.
Proof.
  intros Hw. rewrite to_word_sum by done. destruct c as [x y z]. destruct Hw as (Hx & Hy & Hz). simpl in *.
  rewrite of_word_div by (width; lia). width.
  f_equal; Z.to_euclidean_division_equations; lia.
Qed.

End Color.

Module Screen.
Import Color.

Definition FONT_WIDTH : Z := 8.
Definition FONT_HEIGHT : Z := 16.

Record color_set_t := mkSet { foreground : color_t; background : color_t }.

Record screen := mkScreen {
  mWidth : Z; mHeight : Z; mPitch : Z; mBytesPerPixel : Z;
  default_set : color_set_t; configured_set : color_set_t; current_set : color_set_t;
  mX : Z; mY : Z;
  vram : list Z; back : list Z;
}.

Definition move (s : screen) (x y : Z) : screen :=
  mkScreen (mWidth s) (mHeight s) (mPitch s) (mBytesPerPixel s) (default_set s) (configured_set s) (current_set s)
    x y (vram s) (back s).
Definition show (s : screen) (v w : list Z) : screen :=
  mkScreen (mWidth s) (mHeight s) (mPitch s) (mBytesPerPixel s) (default_set s) (configured_set s) (current_set s)
    (mX s) (mY s) v w.
Definition set_colors (s : screen) (d c n : color_set_t) : screen :=
  mkScreen (mWidth s) (mHeight s) (mPitch s) (mBytesPerPixel s) d c n (mX s) (mY s) (vram s) (back s).

(** The constructor followed by [map]: [vram0] is what the video memory shows
    (cleared), [back0] the uninitialised back buffer. *)
Definition new (width height pitch bpp : Z) (vram0 back0 : list Z) : screen :=
  let c := mkSet green black in
  mkScreen width height pitch (bpp / 8) c c c 0 0 vram0 back0.

Definition size (s : screen) : Z := mWidth s * mHeight s * mBytesPerPixel s.
Definition rows (s : screen) : Z := mHeight s / FONT_HEIGHT.
Definition columns (s : screen) : Z := mWidth s / FONT_WIDTH.
Definition row (s : screen) : Z := mX s / FONT_HEIGHT.
Definition column (s : screen) : Z := mY s / FONT_WIDTH.

Definition setRow (s : screen) (r : Z) : screen :=
  let x := r * FONT_HEIGHT in move s (if x >? mHeight s then mHeight s else x) (mY s).
Definition setCol (s : screen) (c : Z) : screen :=
  let y := c * FONT_WIDTH in move s (mX s) (if y >? mWidth s then mWidth s else y).

(** ** Pixels *)

(** [getpixel]: the index of the word of a pixel *)
Definition getpixel (s : screen) (x y : Z) : option nat :=
  let off := x * mPitch s + y * mBytesPerPixel s in
  if off mod 4 =? 0 then Some (Z.to_nat (off / 4)) else None.

Definition readPixel (s : screen) (x y : Z) : option Z := i ← getpixel s x y; back s !! i.

Definition poke (s : screen) (i : nat) (v : Z) : option screen :=
  _ ← vram s !! i; _ ← back s !! i; Some (show s (<[i := v]> (vram s)) (<[i := v]> (back s))).

Definition writePixel (s : screen) (x y value : Z) : option screen := i ← getpixel s x y; poke s i value.

(** One pixel of a glyph: only written when the back buffer differs. *)
Definition plot (s : screen) (i : nat) (fg : Z) : option screen :=
  cur ← back s !! i; if cur =? fg then Some s else poke s i fg.

(** The inner loop of [putdata] counts [j] down to zero. *)
Fixpoint plot_bits (s : screen) (p : nat) (fdi fg : Z) (j : nat) : option screen :=
  s ← (if Z.testbit fdi (Z.of_nat j) then plot s (p + j * Z.to_nat (Z.shiftr (mBytesPerPixel s) 2)) fg else Some s);
  match j with O => Some s | S j => plot_bits s p fdi fg j end.

Fixpoint plot_rows (s : screen) (p : nat) (fontdata : list Z) (fg : Z) (n : nat) {struct n} : option screen :=
  match n with
  | O => Some s
  | S n =>
      match fontdata with
      | fdi :: fontdata =>
          s ← plot_bits s p fdi fg 7;
          plot_rows s (p + Z.to_nat (Z.shiftr (mPitch s) 2)) fontdata fg n
      | [] => None
      end
  end.

Definition putdata (s : screen) (fontdata : list Z) (start_x start_y : Z) (color : color_t) : option screen :=
  p0 ← getpixel s start_x start_y; plot_rows s p0 fontdata (to_word color) (Z.to_nat FONT_HEIGHT).

Definition gFiller : list Z := replicate 40 0xFF.

Definition clearAtCursor (s : screen) : option screen :=
  putdata s gFiller (mX s) (mY s) (background (current_set s)).

(** [for (col = b; col < e; ++col) { setCol(col); clearAtCursor(); }] *)
Fixpoint clear_cols (s : screen) (b : Z) (n : nat) : option screen :=
  match n with
  | O => Some s
  | S n => s ← clearAtCursor (setCol s b); clear_cols s (b + 1) n
  end.

Definition clearLine (s : screen) (to_cursor from_cursor : bool) : option screen :=
  let col0 := column s in
  s ← (if to_cursor then s ← clear_cols s 0 (Z.to_nat (col0 + 1)); Some (setCol s col0) else Some s);
  if from_cursor then s ← clear_cols s col0 (Z.to_nat (columns s - col0)); Some (setCol s col0) else Some s.

(** ** Blocks of memory *)

(** [memset_pattern4] on an array of words, from word [i] on; the remainder goes
    into the low bytes of the next word. *)
Fixpoint fill_words (l : list Z) (i : nat) (pattern : Z) (n : nat) : option (list Z) :=
  match n with
  | O => Some l
  | S n => _ ← l !! i; fill_words (<[i := pattern]> l) (S i) pattern n
  end.

Definition memset_pattern4 (l : list Z) (i : nat) (pattern len : Z) : option (list Z) :=
  l ← fill_words l i pattern (Z.to_nat (len / 4));
  let rest := len mod 4 in
  if rest =? 0 then Some l
  else
    let j := (i + Z.to_nat (len / 4))%nat in
    old ← l !! j;
    let mask := Z.ones (8 * rest) in
    Some (<[j := Z.lor (Z.land pattern mask) (Z.ldiff old mask)]> l).

(** [memcpy] of [n] words *)
Definition copy_words (dst : list Z) (d : nat) (src : list Z) (i n : nat) : option (list Z) :=
  if ((d + n <=? length dst) && (i + n <=? length src))%nat
  then Some (take d dst ++ take n (drop i src) ++ drop (d + n) dst)
  else None.

Definition cls (s : screen) : option screen :=
  let bg := to_word (background (current_set s)) in
  v ← memset_pattern4 (vram s) 0 bg (size s);
  w ← memset_pattern4 (back s) 0 bg (size s);
  Some (setCol (setRow (show s v w) 0) 0).

(** [recolor]: line by line *)
Fixpoint recolor_line (s : screen) (x y : Z) (old new : Z) (n : nat) : option screen :=
  match n with
  | O => Some s
  | S n =>
      i ← getpixel s x y; cur ← back s !! i;
      s ← (if cur =? old then poke s i new else Some s);
      recolor_line s x (y + 1) old new n
  end.

Fixpoint recolor_lines (s : screen) (x : Z) (old new : Z) (n : nat) : option screen :=
  match n with
  | O => Some s
  | S n => s ← recolor_line s x 0 old new (Z.to_nat (mWidth s)); recolor_lines s (x + 1) old new n
  end.

Definition recolor (s : screen) (Old New : color_t) : option screen :=
  recolor_lines s 0 (to_word Old) (to_word New) (Z.to_nat (mHeight s)).

(** ** Cursor movement *)

Definition linefeed (s : screen) : screen := move s (mX s) 0.

(** [nl]: past the last line, everything moves up by the height of a line. *)
Definition nl (s : screen) : option screen :=
  let s := move s (u16 (mX s + FONT_HEIGHT)) 0 in
  if mX s + FONT_HEIGHT >? mHeight s then
    let line := FONT_HEIGHT * mPitch s in
    let sz := size s - line in
    let bg := to_word (background (current_set s)) in
    let row1 := Z.to_nat (line / 4) in
    let rowlast := Z.to_nat (sz / 4) in
    v ← copy_words (vram s) 0 (back s) row1 (Z.to_nat (sz / 4));
    w ← copy_words (back s) 0 (back s) row1 (Z.to_nat (sz / 4));
    v ← memset_pattern4 v rowlast bg line;
    w ← memset_pattern4 w rowlast bg line;
    Some (move (show s v w) (u16 (FONT_HEIGHT * (mHeight s / FONT_HEIGHT - 1))) 0)
  else Some s.

Definition advance (s : screen) : option screen :=
  let s := move s (mX s) (u16 (mY s + FONT_WIDTH)) in
  if mY s + FONT_WIDTH >=? mWidth s then nl s else Some s.

Definition rewind (s : screen) (erase : bool) : option screen :=
  let s :=
    if mY s >? 0 then move s (mX s) (u16 (mY s - FONT_WIDTH))
    else if mX s >? 0 then
      move s (u16 (mX s - FONT_HEIGHT)) (u16 (FONT_WIDTH * (mWidth s / FONT_WIDTH - 2)))
    else s in
  if erase then clearAtCursor s else Some s.

(** ** Colours *)

Definition DEFAULT_COLOR_SET : Z := 0.
Definition CONFIGURED_COLOR_SET : Z := 1.
Definition CURRENT_COLOR_SET : Z := 2.
Definition NUM_COLOR_SETS : Z := 3.

Definition with_fg (c : color_t) (x : color_set_t) : color_set_t := mkSet c (background x).
Definition with_bg (c : color_t) (x : color_set_t) : color_set_t := mkSet (foreground x) c.

Definition setForegroundColor (s : screen) (which : Z) (c : color_t) : screen :=
  let s := if which =? DEFAULT_COLOR_SET
           then set_colors s (with_fg c (default_set s)) (configured_set s) (current_set s) else s in
  let s := if (which =? DEFAULT_COLOR_SET) || (which =? CONFIGURED_COLOR_SET)
           then set_colors s (default_set s) (with_fg c (configured_set s)) (current_set s) else s in
  if (which =? DEFAULT_COLOR_SET) || (which =? CONFIGURED_COLOR_SET) || (which =? CURRENT_COLOR_SET)
  then set_colors s (default_set s) (configured_set s) (with_fg c (current_set s)) else s.

Definition setBackgroundColor (s : screen) (which : Z) (c : color_t) : option screen :=
  let s := if which =? DEFAULT_COLOR_SET
           then set_colors s (with_bg c (default_set s)) (configured_set s) (current_set s) else s in
  s ← (if (which =? DEFAULT_COLOR_SET) || (which =? CONFIGURED_COLOR_SET) then
         let oldBackground := background (configured_set s) in
         recolor (set_colors s (default_set s) (with_bg c (configured_set s)) (current_set s)) oldBackground c
       else Some s);
  Some (if (which =? DEFAULT_COLOR_SET) || (which =? CONFIGURED_COLOR_SET) || (which =? CURRENT_COLOR_SET)
        then set_colors s (default_set s) (configured_set s) (with_bg c (current_set s)) else s).

(** The test is [set <= NUM_COLOR_SETS]: one past the array is read. *)
Definition color_set (s : screen) (which : Z) : option color_set_t :=
  if which =? DEFAULT_COLOR_SET then Some (default_set s)
  else if which =? CONFIGURED_COLOR_SET then Some (configured_set s)
  else if which =? CURRENT_COLOR_SET then Some (current_set s)
  else if which <=? NUM_COLOR_SETS then None
  else Some (mkSet black black).
Definition getBackgroundColor (s : screen) (which : Z) : option color_t := background <$> color_set s which.
Definition getForegroundColor (s : screen) (which : Z) : option color_t := foreground <$> color_set s which.

(** ** Characters *)

Section Font.
(** The vendored table of glyphs, sixteen bytes for each character *)
Variable iso_font : list Z.

Definition putchar (s : screen) (start_x start_y chr : Z) (color : color_t) : option screen :=
  putdata s (drop (Z.to_nat (chr * FONT_HEIGHT)) iso_font) start_x start_y color.

(** [putc] for a character given as a byte *)
Definition putc (s : screen) (c : Z) (color : color_t) : option screen :=
  if c =? 10 then nl s
  else if c =? 8 then rewind s true
  else if c =? 13 then Some (linefeed s)
  else
    s ← clearAtCursor s;
    s ← putchar s (mX s) (mY s) c color;
    advance s.

Fixpoint write (s : screen) (str : list Z) (color : color_t) : option screen :=
  match str with
  | [] => Some s
  | c :: str => s ← putc s c color; write s str color
  end.

End Font.

(** ** Well-formed consoles *)

(** Four bytes for a pixel, lines without padding, and the back buffer mirrors the
    video memory *)
Record ok (s : screen) : Prop := {
  s_bpp : mBytesPerPixel s = 4;
  s_pitch : mPitch s = 4 * mWidth s;
  s_width : 16 <= mWidth s < 16384;
  s_height : 16 <= mHeight s < 65536;
  s_len : Z.of_nat (length (back s)) = mWidth s * mHeight s;
  s_mirror : vram s = back s;
}.

(** The cursor is at a character cell that is entirely visible. *)
Record on_screen (s : screen) : Prop := {
  c_x : 0 <= mX s <= mHeight s - FONT_HEIGHT;
  c_y : 0 <= mY s <= mWidth s - FONT_WIDTH;
  c_row : (FONT_HEIGHT | mX s);
  c_col : (FONT_WIDTH | mY s);
}.

#[export] Hint Resolve s_bpp s_pitch s_width s_height s_len s_mirror : puppy.

(** The same console with other contents in both buffers *)
Abbreviation shown s l := (show s l l).

Lemma shown_self s : ok s -> s = shown s (back s).
Proof. intros [_ _ _ _ _ H]. destruct s. simpl in *. by subst. Qed.

Lemma ok_shown s l : ok s -> length l = length (back s) -> ok (shown s l).
Proof. intros [? ? ? ? H ?] Hl. split; simpl; try done. by rewrite Hl. Qed.

Lemma ok_move s x y : ok s -> ok (move s x y).
Proof. intros []. by split. Qed.

Lemma getpixel_ok s x y : ok s -> 0 <= x -> 0 <= y ->
  getpixel s x y = Some (Z.to_nat (x * mWidth s + y)).
Proof.
  intros [Hb Hp _ _ _ _] Hx Hy. unfold getpixel. rewrite Hb, Hp.
  replace (x * (4 * mWidth s) + y * 4) with ((x * mWidth s + y) * 4) by lia.
  rewrite Z.mod_mul, Z.div_mul by lia. done.
Qed.

Lemma plot_spec s l i fg : (i < length l)%nat -> plot (shown s l) i fg = Some (shown s (<[i := fg]> l)).
Proof.
  intros Hi. destruct (lookup_lt_is_Some_2 l i Hi) as [c Hc]. unfold plot, poke. simpl. rewrite Hc. simpl.
  destruct (Z.eqb_spec c fg) as [->|]; [|done]. by rewrite list_insert_id.
Qed.

(** The words lit by the low [S j] bits of a byte drawn at [p] *)
Definition lit (p : nat) (fdi : Z) (j k : nat) : bool :=
  bool_decide (p <= k <= p + j)%nat && Z.testbit fdi (Z.of_nat (k - p)).

Lemma plot_bits_spec s fdi fg p j : forall l, mBytesPerPixel s = 4 -> (p + j < length l)%nat ->
  exists l', plot_bits (shown s l) p fdi fg j = Some (shown s l') /\ length l' = length l
    /\ forall k, l' !! k = if lit p fdi j k then Some fg else l !! k.
Proof.
  intros l Hb. revert l. induction j as [|j IH]; intros l Hl; cbn [plot_bits mBytesPerPixel show]; rewrite Hb;
    change (Z.to_nat (Z.shiftr 4 2)) with 1%nat; rewrite Nat.mul_1_r.
  - destruct (Z.testbit fdi (Z.of_nat 0)) eqn:Ht.
    + rewrite plot_spec by lia. simpl. eexists. split_and!; [done|by rewrite length_insert|].
      intros k. unfold lit. destruct (decide (k = p)) as [->|Hk].
      * rewrite bool_decide_eq_true_2 by lia. rewrite Nat.sub_diag, Ht. simpl.
        rewrite Nat.add_0_r. apply list_lookup_insert_eq. lia.
      * rewrite bool_decide_eq_false_2 by lia. simpl. apply list_lookup_insert_ne. lia.
    + simpl. eexists. split_and!; [done|done|]. intros k. unfold lit.
      case_bool_decide; [|done]. replace (k - p)%nat with 0%nat by lia. by rewrite Ht.
  - destruct (Z.testbit fdi (Z.of_nat (S j))) eqn:Ht.
    + rewrite plot_spec by lia. cbn [mbind option_bind].
      destruct (IH (<[(p + S j)%nat := fg]> l)) as (l' & -> & Hlen & Hk); [rewrite length_insert; lia|].
      rewrite length_insert in Hlen. eexists. split_and!; [done|done|]. intros k. rewrite Hk. unfold lit.
      destruct (decide (k = (p + S j)%nat)) as [->|Hne].
      * rewrite (bool_decide_eq_false_2 (p <= p + S j <= p + j)%nat) by lia. cbn [andb].
        rewrite bool_decide_eq_true_2 by lia. replace (p + S j - p)%nat with (S j) by lia. rewrite Ht. cbn [andb].
        apply list_lookup_insert_eq. lia.
      * rewrite list_lookup_insert_ne by done.
        rewrite (bool_decide_ext (p <= k <= p + S j)%nat (p <= k <= p + j)%nat) by lia. done.
    + cbn [mbind option_bind]. destruct (IH l) as (l' & -> & Hlen & Hk); [lia|].
      eexists. split_and!; [done|done|]. intros k. rewrite Hk. unfold lit.
      destruct (decide (k = (p + S j)%nat)) as [->|Hne].
      * rewrite (bool_decide_eq_false_2 (p <= p + S j <= p + j)%nat) by lia. cbn [andb].
        replace (p + S j - p)%nat with (S j) by lia. by rewrite Ht, andb_false_r.
      * rewrite (bool_decide_ext (p <= k <= p + S j)%nat (p <= k <= p + j)%nat) by lia. done.
Qed.

(** The words lit by [n] bytes drawn below each other in lines of [w] words *)
Fixpoint lit_rows (w p : nat) (fontdata : list Z) (n k : nat) {struct n} : bool :=
  match n, fontdata with
  | S n, fdi :: fontdata => lit p fdi 7 k || lit_rows w (p + w) fontdata n k
  | _, _ => false
  end.

Lemma plot_rows_spec s fg n : forall fontdata p l, ok s -> (n <= length fontdata)%nat ->
  (p + n * Z.to_nat (mWidth s) <= length l + Z.to_nat (mWidth s) - 8)%nat ->
  exists l', plot_rows (shown s l) p fontdata fg n = Some (shown s l') /\ length l' = length l
    /\ forall k, l' !! k = if lit_rows (Z.to_nat (mWidth s)) p fontdata n k then Some fg else l !! k.
Proof.
  induction n as [|n IH]; intros fontdata p l Hok Hf Hp; [by exists l|].
  destruct fontdata as [|fdi fontdata]; simpl in Hf; [lia|]. cbn [plot_rows].
  pose proof (s_width s Hok).
  destruct (plot_bits_spec s fdi fg p 7 l (s_bpp s Hok)) as (l1 & -> & Hlen & Hk1); [nia|].
  cbn [mbind option_bind mPitch show]. rewrite (s_pitch s Hok).
  replace (Z.to_nat (Z.shiftr (4 * mWidth s) 2)) with (Z.to_nat (mWidth s))
    by (rewrite Z.shiftr_div_pow2 by lia; f_equal; change (2 ^ 2) with 4; rewrite Z.mul_comm, Z.div_mul; lia).
  destruct (IH fontdata (p + Z.to_nat (mWidth s))%nat l1 Hok ltac:(lia) ltac:(lia)) as (l2 & -> & Hlen2 & Hk2).
  exists l2. split_and!; [done|lia|]. intros k. rewrite Hk2, Hk1. cbn [lit_rows].
  destruct (lit p fdi 7 k), (lit_rows (Z.to_nat (mWidth s)) (p + Z.to_nat (mWidth s)) fontdata n k); done.
Qed.

(** *** Drawing in coordinates *)

(** Whether a glyph drawn with its corner at [(x0, y0)] lights a pixel *)
Definition glyph (x0 y0 : Z) (fontdata : list Z) (n : nat) (x y : Z) : bool :=
  bool_decide (x0 <= x < x0 + Z.of_nat n /\ y0 <= y < y0 + FONT_WIDTH)
  && Z.testbit (nth (Z.to_nat (x - x0)) fontdata 0) (y - y0).

Lemma lit_coord w x0 y0 fdi x y : 0 <= x0 -> 0 <= y0 <= w - 8 -> 0 <= x -> 0 <= y < w ->
  lit (Z.to_nat (x0 * w + y0)) fdi 7 (Z.to_nat (x * w + y))
  = bool_decide (x = x0 /\ y0 <= y < y0 + 8) && Z.testbit fdi (y - y0).
Proof.
  intros Hx0 Hy0 Hx Hy. unfold lit. destruct (decide (x = x0 /\ y0 <= y < y0 + 8)) as [[-> Hin]|Hout].
  - rewrite (bool_decide_eq_true_2 (x0 = x0 /\ _)) by done. rewrite bool_decide_eq_true_2 by nia. cbn [andb].
    f_equal. nia.
  - rewrite (bool_decide_eq_false_2 (x = x0 /\ _)) by done. cbn [andb].
    rewrite bool_decide_eq_false_2; [done|]. intros [H1 H2]. apply Hout.
    assert (0 <= x * w + y - (x0 * w + y0) <= 7) by nia. assert (x = x0) by nia. subst. lia.
Qed.

Lemma lit_rows_coord w n : forall x0 y0 fd x y, 0 <= x0 -> 0 <= y0 <= w - 8 -> 0 <= x -> 0 <= y < w ->
  (n <= length fd)%nat ->
  lit_rows (Z.to_nat w) (Z.to_nat (x0 * w + y0)) fd n (Z.to_nat (x * w + y)) = glyph x0 y0 fd n x y.
Proof.
  induction n as [|n IH]; intros x0 y0 fd x y Hx0 Hy0 Hx Hy Hl; unfold glyph.
  { by rewrite bool_decide_eq_false_2 by lia. }
  destruct fd as [|fdi fd]; simpl in Hl; [lia|]. cbn [lit_rows]. rewrite (lit_coord w) by done.
  replace (Z.to_nat (x0 * w + y0) + Z.to_nat w)%nat with (Z.to_nat ((x0 + 1) * w + y0)) by nia.
  rewrite IH by lia. unfold glyph, FONT_WIDTH.
  destruct (decide (x = x0)) as [->|Hne].
  - replace (x0 - x0) with 0 by lia. change (nth (Z.to_nat 0) (fdi :: fd) 0) with fdi.
    rewrite (bool_decide_eq_false_2 (x0 + 1 <= x0 < _ /\ _)) by lia. rewrite andb_false_l, orb_false_r.
    f_equal. apply bool_decide_ext. lia.
  - rewrite (bool_decide_eq_false_2 (x = x0 /\ _)) by lia. rewrite andb_false_l, orb_false_l.
    destruct (decide (x0 <= x < x0 + Z.of_nat (S n) /\ y0 <= y < y0 + 8)) as [Hin|Hout].
    + rewrite !bool_decide_eq_true_2 by lia. replace (Z.to_nat (x - x0)) with (S (Z.to_nat (x - (x0 + 1)))) by lia. done.
    + rewrite !bool_decide_eq_false_2 by lia. done.
Qed.

(** The pixel of a buffer *)
Definition pix (s : screen) (l : list Z) (x y : Z) : option Z := l !! Z.to_nat (x * mWidth s + y).

Lemma putdata_spec s l fd x0 y0 c : ok (shown s l) -> 0 <= x0 <= mHeight s - FONT_HEIGHT -> 0 <= y0 <= mWidth s - FONT_WIDTH ->
  (16 <= length fd)%nat ->
  exists l', putdata (shown s l) fd x0 y0 c = Some (shown s l') /\ length l' = length l
    /\ forall x y, 0 <= x -> 0 <= y < mWidth s ->
         pix s l' x y = if glyph x0 y0 fd 16 x y then Some (to_word c) else pix s l x y.
Proof.
  unfold FONT_HEIGHT, FONT_WIDTH. intros Hok Hx Hy Hf. unfold putdata. rewrite getpixel_ok by (done || lia).
  cbn [mbind option_bind mWidth show].
  pose proof (s_len _ Hok) as Hlen. pose proof (s_width _ Hok) as Hw. simpl in Hlen, Hw.
  change (Z.to_nat FONT_HEIGHT) with 16%nat.
  destruct (plot_rows_spec (shown s l) (to_word c) 16 fd (Z.to_nat (x0 * mWidth s + y0)) l Hok Hf) as (l' & E & Hl & Hk).
  { simpl. nia. }
  exists l'. split_and!; [exact E|done|]. intros x y Hx' Hy'. unfold pix. rewrite Hk.
  cbn [mWidth show]. by rewrite lit_rows_coord by lia.
Qed.

(** A filler of ones lights the whole cell. *)
Lemma glyph_filler x0 y0 x y :
  glyph x0 y0 gFiller 16 x y = bool_decide (x0 <= x < x0 + 16 /\ y0 <= y < y0 + 8).
Proof.
  unfold glyph, FONT_WIDTH. change (Z.of_nat 16) with 16. case_bool_decide as H; [|done]. cbn [andb].
  assert (Hn : nth (Z.to_nat (x - x0)) gFiller 0 = 255).
  { unfold gFiller. rewrite nth_lookup, lookup_replicate_2 by lia. done. }
  rewrite Hn. change 255 with (Z.ones 8). rewrite testbit_ones by lia. apply Z.ltb_lt. lia.
Qed.

(** [clearAtCursor] paints the cell under the cursor in the background colour. *)
Lemma clearAtCursor_spec s l : ok (shown s l) -> on_screen s ->
  exists l', clearAtCursor (shown s l) = Some (shown s l') /\ length l' = length l
    /\ forall x y, 0 <= x -> 0 <= y < mWidth s ->
         pix s l' x y = if bool_decide (mX s <= x < mX s + 16 /\ mY s <= y < mY s + 8)
                        then Some (to_word (background (current_set s))) else pix s l x y.
Proof.
  intros Hok [Hx Hy _ _]. unfold clearAtCursor. cbn [mX mY current_set show].
  destruct (putdata_spec s l gFiller (mX s) (mY s) (background (current_set s)) Hok Hx Hy) as (l' & E & Hl & Hp).
  { unfold gFiller. rewrite length_replicate. lia. }
  exists l'. split_and!; [exact E|done|]. intros x y Hx' Hy'. rewrite Hp by done. by rewrite glyph_filler.
Qed.

(** *** Blocks *)

Lemma fill_words_spec pattern n : forall l i, (i + n <= length l)%nat ->
  fill_words l i pattern n = Some (take i l ++ replicate n pattern ++ drop (i + n) l).
Proof.
  induction n as [|n IH]; intros l i Hi; cbn [fill_words].
  - by rewrite Nat.add_0_r, app_nil_l, take_drop.
  - destruct (lookup_lt_is_Some_2 l i ltac:(lia)) as [c Hc]. rewrite Hc. cbn [mbind option_bind].
    rewrite IH by (rewrite length_insert; lia). f_equal.
    rewrite (take_S_r _ i pattern) by (apply list_lookup_insert_eq; lia).
    rewrite take_insert_ge by lia. rewrite drop_insert_lt by lia. rewrite <- app_assoc. f_equal.
    by replace (S i + n)%nat with (i + S n)%nat by lia.
Qed.

Lemma memset_spec l i pattern n : (i + n <= length l)%nat ->
  memset_pattern4 l i pattern (4 * Z.of_nat n) = Some (take i l ++ replicate n pattern ++ drop (i + n) l).
Proof.
  intros Hi. unfold memset_pattern4.
  rewrite (Z.mul_comm 4), Z.div_mul, Z.mod_mul, Nat2Z.id, fill_words_spec by lia. done.
Qed.

Lemma cls_spec s : ok s ->
  cls s = Some (move (shown s (replicate (length (back s)) (to_word (background (current_set s))))) 0 0).
Proof.
  intros Hok. unfold cls, size. rewrite (s_bpp s Hok), (s_mirror s Hok).
  pose proof (s_len s Hok) as Hl. pose proof (s_width s Hok). pose proof (s_height s Hok).
  replace (mWidth s * mHeight s * 4) with (4 * Z.of_nat (length (back s))) by lia.
  rewrite memset_spec by lia. cbn [mbind option_bind]. rewrite !Nat.add_0_l, drop_all, app_nil_r.
  cbn [take app]. unfold setRow, setCol. cbn [mHeight mWidth show move mX mY]. rewrite !Z.mul_0_l.
  repeat case_match; bool_to_prop; try lia. done.
Qed.

(** [nl] on the last line moves the picture up by the height of a line and paints
    the last lines in the background colour. *)
Definition scrolled (s : screen) (l : list Z) : list Z :=
  let n := Z.to_nat (FONT_HEIGHT * mWidth s) in
  drop n l ++ replicate n (to_word (background (current_set s))).

Lemma scroll_pix s l x y : ok (shown s l) -> 0 <= x < mHeight s -> 0 <= y < mWidth s ->
  pix s (scrolled s l) x y = if x <? mHeight s - FONT_HEIGHT then pix s l (x + FONT_HEIGHT) y
                             else Some (to_word (background (current_set s))).
Proof.
  intros Hok Hx Hy. pose proof (s_len _ Hok) as Hl. pose proof (s_width _ Hok) as Hw. simpl in Hl, Hw.
  unfold scrolled, pix, FONT_HEIGHT in *. destruct (Z.ltb_spec x (mHeight s - 16)).
  - rewrite lookup_app_l by (rewrite length_drop; nia). rewrite lookup_drop. f_equal. nia.
  - rewrite lookup_app_r by (rewrite length_drop; nia). apply lookup_replicate_2. rewrite length_drop. nia.
Qed.

Lemma length_scrolled s l : ok (shown s l) -> length (scrolled s l) = length l.
Proof.
  intros Hok. pose proof (s_len _ Hok) as Hl. pose proof (s_width _ Hok) as Hw. pose proof (s_height _ Hok).
  simpl in *. unfold scrolled, FONT_HEIGHT. rewrite length_app, length_drop, length_replicate. nia.
Qed.

Lemma nl_spec s l : ok (shown s l) -> 0 <= mX s <= mHeight s - FONT_HEIGHT ->
  nl (shown s l) = Some (
    if mX s + 2 * FONT_HEIGHT >? mHeight s
    then move (shown s (scrolled s l)) (FONT_HEIGHT * (mHeight s / FONT_HEIGHT - 1)) 0
    else move (shown s l) (mX s + FONT_HEIGHT) 0).
Proof.
  intros Hok Hx. pose proof (s_len _ Hok) as Hl. pose proof (s_width _ Hok) as Hw. pose proof (s_height _ Hok) as Hh.
  pose proof (s_bpp _ Hok) as Hb. pose proof (s_pitch _ Hok) as Hp. simpl in Hl, Hw, Hh, Hb, Hp. unfold FONT_HEIGHT in *.
  unfold nl, size, FONT_HEIGHT. cbn [mX mHeight mWidth mPitch mBytesPerPixel current_set vram back show move].
  rewrite Hb, Hp. unfold u16. rewrite !wrap_id by (split; [|change (2 ^ 16) with 65536]; pose proof (Z.div_mod (mHeight s) 16); Z.to_euclidean_division_equations; lia).
  replace (mX s + 16 + 16) with (mX s + 2 * 16) by lia. destruct (mX s + 2 * 16 >? mHeight s); [|done].
  set (n := Z.to_nat (16 * mWidth s)).
  replace (16 * (4 * mWidth s)) with (4 * Z.of_nat n) by lia.
  replace (mWidth s * mHeight s * 4 - 4 * Z.of_nat n) with (4 * Z.of_nat (length l - n)) by nia.
  rewrite !(Z.mul_comm 4), !Z.div_mul, !Nat2Z.id by lia. unfold copy_words. cbn [Nat.add].
  rewrite !(proj2 (Nat.leb_le _ _)) by nia. cbn [andb mbind option_bind take app].
  rewrite !(take_ge (drop n l)) by (rewrite length_drop; lia).
  rewrite !(Z.mul_comm _ 4), !take_0, !app_nil_l.
  rewrite memset_spec by (rewrite length_app, !length_drop; nia). cbn [mbind option_bind].
  rewrite take_app_le by (rewrite length_drop; nia). rewrite (take_ge (drop n l)) by (rewrite length_drop; nia).
  rewrite (drop_ge (drop n l ++ _)) by (rewrite length_app, !length_drop; nia). by rewrite app_nil_r.
Qed.

(** ** The console stays well-formed and no operation leaves its memory *)

Definition good (s : screen) : Prop := ok s /\ on_screen s.

Lemma on_screen_move s x y : ok s -> 0 <= x <= mHeight s - 16 -> 0 <= y <= mWidth s - 8 -> (16 | x) -> (8 | y) ->
  on_screen (move s x y).
Proof. by split. Qed.

Lemma on_screen_shown s l : on_screen s -> on_screen (shown s l).
Proof. intros []. by split. Qed.

Lemma good_shown s l : good s -> length l = length (back s) -> good (shown s l).
Proof. intros [? ?] ?. split; [by apply ok_shown|by apply on_screen_shown]. Qed.

Lemma good_move s x y : ok s -> 0 <= x <= mHeight s - 16 -> 0 <= y <= mWidth s - 8 -> (16 | x) -> (8 | y) ->
  good (move s x y).
Proof. split; [by apply ok_move|by apply on_screen_move]. Qed.

Lemma clearAtCursor_good s : good s -> exists l, clearAtCursor s = Some (shown s l) /\ length l = length (back s).
Proof.
  intros [Hok Hc]. destruct (clearAtCursor_spec s (back s)) as (l & E & Hl & _); [by apply ok_shown|done|].
  exists l. split; [|done]. rewrite <- E. f_equal. by apply shown_self.
Qed.

Lemma nl_good s : good s -> exists s', nl s = Some s' /\ good s'.
Proof.
  intros [Hok [Hx Hy Hr Hc]]. pose proof (s_width s Hok). pose proof (s_height s Hok). unfold FONT_HEIGHT, FONT_WIDTH in *.
  pose proof (ok_shown s (back s) Hok eq_refl) as Hsh. pose proof (nl_spec s (back s) Hsh Hx) as E.
  rewrite <- (shown_self s Hok) in E. rewrite E. eexists. split; [done|]. unfold FONT_HEIGHT.
  destruct (Z.gtb_spec (mX s + 2 * 16) (mHeight s)).
  - apply good_move; simpl; try lia.
    + apply ok_shown; [done|]. rewrite length_scrolled by done. done.
    + Z.to_euclidean_division_equations. lia.
    + exists (mHeight s / 16 - 1). lia.
    + by exists 0.
  - apply good_move; simpl; try lia; [done| |by exists 0].
    destruct Hr as [q ->]. exists (q + 1). lia.
Qed.

Lemma advance_good s : good s -> exists s', advance s = Some s' /\ good s'.
Proof.
  intros [Hok [Hx Hy Hr Hc]]. pose proof (s_width s Hok). unfold FONT_HEIGHT, FONT_WIDTH in *.
  unfold advance, FONT_WIDTH. cbn [mX mY mWidth move].
  unfold u16. rewrite wrap_id by (split; [|change (2 ^ 16) with 65536]; lia).
  destruct (Z.geb_spec (mY s + 8 + 8) (mWidth s)).
  - destruct (nl_good (move s (mX s) 0)) as (s' & E & Hg); [by apply good_move; [..|by exists 0]; try lia|].
    exists s'. split; [|done]. rewrite <- E. unfold nl. done.
  - eexists. split; [done|]. apply good_move; try done; try lia.
    destruct Hc as [q ->]. exists (q + 1). lia.
Qed.

Lemma rewind_good s b : good s -> exists s', rewind s b = Some s' /\ good s'.
Proof.
  intros [Hok [Hx Hy Hr Hc]]. pose proof (s_width s Hok). pose proof (s_height s Hok).
  unfold rewind, FONT_HEIGHT, FONT_WIDTH, u16 in *.
  set (s1 := if mY s >? 0 then _ else _).
  assert (Hg : good s1 /\ length (back s1) = length (back s)).
  { unfold s1. destruct Hr as [q Hr], Hc as [c Hc]. destruct (Z.gtb_spec (mY s) 0).
    - split; [|done]. rewrite wrap_id by (split; [|change (2 ^ 16) with 65536]; lia).
      apply good_move; try done; try lia; [by exists q|]. exists (c - 1). lia.
    - destruct (Z.gtb_spec (mX s) 0).
      + split; [|done]. rewrite !wrap_id by (split; [|change (2 ^ 16) with 65536]; Z.to_euclidean_division_equations; lia).
        apply good_move; try done; try lia.
        * Z.to_euclidean_division_equations; lia.
        * exists (q - 1). lia.
        * exists (mWidth s / 8 - 2). lia.
      + split; [|done]. split; [done|]. split; try done; by eexists. }
  destruct Hg as [Hg Hl]. destruct b; [|eauto].
  destruct (clearAtCursor_good s1 Hg) as (l & E & Hl'). exists (shown s1 l). split; [exact E|by apply good_shown].
Qed.

Section Glyphs.
Variable iso_font : list Z.
Hypothesis font_complete : length iso_font = 4096%nat.

(** Every character is drawn inside the memory and leaves the cursor on the
    screen. *)
Lemma putc_good s c color : good s -> is_u8 c -> exists s', putc iso_font s c color = Some s' /\ good s'.
Proof.
  intros Hg Hc. unfold putc.
  destruct (c =? 10); [by apply nl_good|]. destruct (c =? 8); [by apply rewind_good|].
  destruct (c =? 13).
  { eexists. split; [done|]. destruct Hg as [Hok [Hx Hy Hr Hcol]]. pose proof (s_width s Hok).
    apply good_move; try done; try (unfold FONT_HEIGHT, FONT_WIDTH in *; lia). by exists 0. }
  destruct (clearAtCursor_good s Hg) as (l & -> & Hl). cbn [mbind option_bind].
  pose proof (good_shown s l Hg Hl) as [Hok1 Hon1]. pose proof Hon1 as [Hx Hy _ _].
  unfold putchar. destruct (putdata_spec s l (drop (Z.to_nat (c * FONT_HEIGHT)) iso_font) (mX s) (mY s) color Hok1 Hx Hy)
    as (l2 & E & Hl2 & _).
  { rewrite length_drop, font_complete. unfold FONT_HEIGHT. width. lia. }
  cbn [mX mY show]. rewrite E. cbn [mbind option_bind].
  apply advance_good. apply good_shown; [done|congruence].
Qed.

Lemma write_good str color : forall s, good s -> Forall is_u8 str -> exists s', write iso_font s str color = Some s' /\ good s'.
Proof.
  induction str as [|c str IH]; intros s Hg Hc; cbn [write]; [eauto|].
  apply Forall_cons_1 in Hc as [Hc Hstr]. destruct (putc_good s c color Hg Hc) as (s1 & -> & Hg1).
  cbn [mbind option_bind]. by apply IH.
Qed.

(** A printable character that does not reach the right margin shows its glyph
    in the colour asked for on the background, and nothing else changes. *)
Lemma putc_draws s l c color : ok (shown s l) -> on_screen s -> is_u8 c ->
  c <> 8 -> c <> 10 -> c <> 13 -> mY s + 2 * FONT_WIDTH < mWidth s ->
  exists l', putc iso_font (shown s l) c color = Some (move (shown s l') (mX s) (mY s + FONT_WIDTH))
    /\ length l' = length l
    /\ forall x y, 0 <= x -> 0 <= y < mWidth s ->
         pix s l' x y =
           if bool_decide (mX s <= x < mX s + 16 /\ mY s <= y < mY s + 8)
           then Some (to_word (if Z.testbit (nth (Z.to_nat (x - mX s)) (drop (Z.to_nat (c * FONT_HEIGHT)) iso_font) 0) (y - mY s)
                               then color else background (current_set s)))
           else pix s l x y.
Proof.
  intros Hok Hon Hc H8 H10 H13 Hr. unfold putc.
  rewrite (proj2 (Z.eqb_neq c 10)), (proj2 (Z.eqb_neq c 8)), (proj2 (Z.eqb_neq c 13)) by done.
  destruct (clearAtCursor_spec s l Hok Hon) as (l1 & -> & Hl1 & Hp1). cbn [mbind option_bind].
  pose proof Hon as [Hx Hy _ _].
  assert (Hok1 : ok (shown s l1)) by (destruct Hok; split; simpl in *; congruence).
  unfold putchar. destruct (putdata_spec s l1 (drop (Z.to_nat (c * FONT_HEIGHT)) iso_font) (mX s) (mY s) color Hok1 Hx Hy)
    as (l2 & E & Hl2 & Hp2).
  { rewrite length_drop, font_complete. unfold FONT_HEIGHT. width. lia. }
  cbn [mX mY show]. rewrite E. cbn [mbind option_bind]. unfold advance. cbn [mX mY mWidth move show].
  pose proof (s_width _ Hok) as Hw. simpl in Hw. unfold FONT_WIDTH, u16 in *.
  rewrite wrap_id by (split; [|change (2 ^ 16) with 65536]; lia).
  destruct (Z.geb_spec (mY s + 8 + 8) (mWidth s)); [lia|]. exists l2. split_and!; [done|congruence|].
  intros x y Hx' Hy'. rewrite Hp2, Hp1 by done. unfold glyph, FONT_WIDTH. change (Z.of_nat 16) with 16.
  case_bool_decide; cbn [andb]; [by case_match|done].
Qed.

End Glyphs.

(** *** Clearing and colours *)

(** The sizes of a console do not change. *)
Definition same_size (s s' : screen) : Prop := mWidth s' = mWidth s /\ mHeight s' = mHeight s /\ mX s' = mX s.

Lemma setCol_good s c : good s -> 0 <= c -> c * 8 <= mWidth s - 8 ->
  good (setCol s c) /\ same_size s (setCol s c) /\ mY (setCol s c) = c * 8.
Proof.
  intros [Hok [Hx Hy Hr Hc]] Hc0 Hcw. unfold setCol, FONT_WIDTH, FONT_HEIGHT in *.
  destruct (Z.gtb_spec (c * 8) (mWidth s)); [lia|]. split_and!; [|done|done].
  apply good_move; try done; try lia. by exists c.
Qed.

Lemma setRow_good s r : good s -> 0 <= r < rows s -> good (setRow s r).
Proof.
  intros [Hok [Hx Hy Hrow Hc]] Hr. unfold setRow, rows, FONT_WIDTH, FONT_HEIGHT in *.
  pose proof (Z.mul_div_le (mHeight s) 16). destruct (Z.gtb_spec (r * 16) (mHeight s)); [lia|].
  apply good_move; try done; try lia. by exists r.
Qed.

Lemma clear_cols_good n : forall s b, good s -> 0 <= b -> (b + Z.of_nat n) * 8 <= mWidth s ->
  exists s', clear_cols s b n = Some s' /\ good s' /\ same_size s s'.
Proof.
  induction n as [|n IH]; intros s b Hg Hb Hn; cbn [clear_cols]; [by exists s|].
  destruct (setCol_good s b Hg Hb ltac:(lia)) as (Hg1 & (Hw & Hh & Hx) & _).
  destruct (clearAtCursor_good (setCol s b) Hg1) as (l & -> & Hl). cbn [mbind option_bind].
  destruct (IH (shown (setCol s b) l) (b + 1)) as (s' & -> & Hg' & (Hw' & Hh' & Hx')).
  - by apply good_shown.
  - lia.
  - simpl. lia.
  - exists s'. split_and!; [done|done|]. unfold same_size in *. simpl in *. split_and!; congruence.
Qed.

Lemma clearLine_good s b1 b2 : good s -> exists s', clearLine s b1 b2 = Some s' /\ good s'.
Proof.
  intros Hg. pose proof Hg as [Hok [Hx Hy Hr [q Hc]]]. pose proof (s_width s Hok). unfold FONT_WIDTH, FONT_HEIGHT in *.
  unfold clearLine, column, columns, FONT_WIDTH. set (col0 := mY s / 8).
  assert (Hcol : mY s = col0 * 8) by (unfold col0; rewrite Hc, Z.div_mul; lia).
  assert (H1 : exists s1, (if b1 then s ← clear_cols s 0 (Z.to_nat (col0 + 1)); Some (setCol s col0) else Some s) = Some s1
    /\ good s1 /\ same_size s s1).
  { destruct b1; [|by exists s].
    destruct (clear_cols_good (Z.to_nat (col0 + 1)) s 0 Hg ltac:(lia) ltac:(lia)) as (s' & -> & Hg' & Hs').
    cbn [mbind option_bind]. pose proof Hs' as (Hw' & Hh' & Hx').
    destruct (setCol_good s' col0 Hg' ltac:(lia) ltac:(lia)) as (Hg2 & (Hw2 & Hh2 & Hx2) & _).
    eexists. split_and!; [done|done|]. split_and!; congruence. }
  destruct H1 as (s1 & -> & Hg1 & (Hw1 & Hh1 & Hx1)). cbn [mbind option_bind]. destruct b2; [|eauto].
  rewrite Hw1. destruct (clear_cols_good (Z.to_nat (mWidth s / 8 - col0)) s1 col0 Hg1 ltac:(lia)) as (s' & -> & Hg' & (Hw' & _)).
  { rewrite Hw1. pose proof (Z.mul_div_le (mWidth s) 8). lia. }
  cbn [mbind option_bind]. destruct (setCol_good s' col0 Hg' ltac:(lia) ltac:(lia)) as (Hg2 & _). eauto.
Qed.

Lemma cls_good s : ok s -> exists s', cls s = Some s' /\ good s'.
Proof.
  intros Hok. rewrite cls_spec by done. eexists. split; [done|].
  pose proof (s_width s Hok). pose proof (s_height s Hok).
  apply good_move; simpl; try lia; [|by exists 0|by exists 0]. apply ok_shown; [done|]. by rewrite length_replicate.
Qed.

(** Replacing one colour by another *)
Definition repaint (old new v : Z) : Z := if v =? old then new else v.

Lemma recolor_line_spec s x old new n : forall l y, ok (shown s l) -> 0 <= x < mHeight s -> 0 <= y ->
  y + Z.of_nat n <= mWidth s ->
  exists l', recolor_line (shown s l) x y old new n = Some (shown s l') /\ length l' = length l
    /\ forall k, l' !! k = if bool_decide (x * mWidth s + y <= Z.of_nat k < x * mWidth s + y + Z.of_nat n)
                           then repaint old new <$> l !! k else l !! k.
Proof.
  induction n as [|n IH]; intros l y Hok Hx Hy Hn; cbn [recolor_line].
  { exists l. split_and!; [done|done|]. intros k. by rewrite bool_decide_eq_false_2 by lia. }
  rewrite getpixel_ok by (done || lia). cbn [mbind option_bind back show mWidth].
  pose proof (s_len _ Hok) as Hlen. simpl in Hlen. set (i := Z.to_nat (x * mWidth s + y)).
  assert (Hi : Z.of_nat i = x * mWidth s + y) by nia.
  destruct (lookup_lt_is_Some_2 l i ltac:(nia)) as [c Hc]. rewrite Hc. cbn [mbind option_bind].
  assert (H1 : (if c =? old then poke (shown s l) i new else Some (shown s l)) = Some (shown s (<[i := repaint old new c]> l))).
  { unfold repaint. destruct (c =? old); [|by rewrite list_insert_id]. unfold poke. simpl. by rewrite Hc. }
  rewrite H1. cbn [mbind option_bind].
  destruct (IH (<[i := repaint old new c]> l) (y + 1)) as (l' & -> & Hl & Hk).
  - destruct Hok; split; simpl in *; try done. by rewrite length_insert.
  - done.
  - lia.
  - lia.
  - rewrite length_insert in Hl. exists l'. split_and!; [done|done|]. intros k. rewrite Hk.
    destruct (decide (k = i)) as [->|Hne].
    + rewrite bool_decide_eq_false_2 by lia. rewrite bool_decide_eq_true_2 by lia. rewrite Hc. simpl.
      apply list_lookup_insert_eq. apply lookup_lt_is_Some. eauto.
    + rewrite list_lookup_insert_ne by done.
      rewrite (bool_decide_ext _ (x * mWidth s + y <= Z.of_nat k < x * mWidth s + y + Z.of_nat (S n))) by lia. done.
Qed.

Lemma recolor_lines_spec s old new n : forall l x, ok (shown s l) -> 0 <= x -> x + Z.of_nat n <= mHeight s ->
  exists l', recolor_lines (shown s l) x old new n = Some (shown s l') /\ length l' = length l
    /\ forall k, l' !! k = if bool_decide (x * mWidth s <= Z.of_nat k < (x + Z.of_nat n) * mWidth s)
                           then repaint old new <$> l !! k else l !! k.
Proof.
  induction n as [|n IH]; intros l x Hok Hx Hn; cbn [recolor_lines].
  { exists l. split_and!; [done|done|]. intros k. by rewrite bool_decide_eq_false_2 by lia. }
  pose proof (s_width _ Hok) as Hw. simpl in Hw. cbn [mWidth show].
  destruct (recolor_line_spec s x old new (Z.to_nat (mWidth s)) l 0 Hok ltac:(lia) ltac:(lia) ltac:(lia)) as (l1 & -> & Hl1 & Hk1).
  cbn [mbind option_bind].
  destruct (IH l1 (x + 1)) as (l2 & -> & Hl2 & Hk2).
  - destruct Hok; split; simpl in *; try done. by rewrite Hl1.
  - lia.
  - lia.
  - exists l2. split_and!; [done|congruence|]. intros k. rewrite Hk2, Hk1.
    repeat case_bool_decide; try done; exfalso; nia.
Qed.

Lemma recolor_spec s Old New : ok s ->
  recolor s Old New = Some (shown s (repaint (to_word Old) (to_word New) <$> back s)).
Proof.
  intros Hok. pose proof (s_height s Hok). pose proof (s_len s Hok) as Hlen. unfold recolor.
  destruct (recolor_lines_spec s (to_word Old) (to_word New) (Z.to_nat (mHeight s)) (back s) 0) as (l & E & Hl & Hk);
    [by apply ok_shown|lia|lia|]. rewrite <- (shown_self s Hok) in E. rewrite E. do 2 f_equal;
    apply list_eq; intros k; rewrite Hk, list_lookup_fmap; (case_bool_decide; [done|]);
    rewrite (lookup_ge_None_2 (back s)) by nia; done.
Qed.

Lemma good_colors s d c n : good s -> good (set_colors s d c n).
Proof. intros [[] []]. by split; split. Qed.

Lemma setForegroundColor_good s which c : good s -> good (setForegroundColor s which c).
Proof. intros. unfold setForegroundColor. repeat case_match; by repeat apply good_colors. Qed.

Lemma setBackgroundColor_good s which c : good s -> exists s', setBackgroundColor s which c = Some s' /\ good s'.
Proof.
  intros Hg. unfold setBackgroundColor. set (s1 := if which =? DEFAULT_COLOR_SET then _ else s).
  assert (Hg1 : good s1) by (unfold s1; case_match; [by apply good_colors|done]).
  destruct ((which =? DEFAULT_COLOR_SET) || (which =? CONFIGURED_COLOR_SET)); cbn [orb].
  - rewrite recolor_spec by (by apply good_colors). cbn [mbind option_bind]. eexists. split; [done|].
    apply good_colors, good_shown; [by apply good_colors|]. by rewrite length_fmap.
  - cbn [mbind option_bind]. eexists. split; [done|]. case_match; [by apply good_colors|done].
Qed.

End Screen.
