(* ===== verification/Terminal.v ===== *)
(** * Terminal: keyboard task, TTY and terminal file
    (kernel/src/tasks/keybqueue.cpp, kernel/src/tty/tty.cpp, kernel/src/tty/file.cpp)

    [KeybQueue] moves events from the driver to the queue the terminals read;
    [TTY] is the layer over the framebuffer and the foreground stack; [TTYFile] has
    the line disciplines with their input buffer and the machine that interprets
    escape sequences on output.  Writes to the terminal are modelled for a single
    writer: the semaphore of [TTY::write] is free when it is taken. *)

From stdpp Require Import base numbers list gmap option.
From Stdlib Require Import ZArith Lia.
From S2P Require Import Prelude Containers Keyboard Screen Kernel Lifecycle.

Local Open Scope Z_scope.

Module TTY.
Import Proc Kernel Color Screen KeyEvent.

(** ** Foreground *)

(** The test at the head of [readKeyEvent]: may the current process read? *)
Definition allowed (k : kernel) (t : Z) : option bool :=
  tt_ ← ttys k !! t;
  match list.last (mForeground tt_) with
  | None => Some true
  | Some fg => p ← procs k !! gCurrentProcess k; Some (fg =? pid p)%nat
  end.

Definition killForegroundProcess (k : kernel) (t reaper : Z) : option kernel :=
  tt_ ← ttys k !! t;
  match list.last (mForeground tt_) with
  | None => Some k
  | Some fg => snd <$> Life.kill k reaper fg
  end.

(** The filter at the end of [readKeyEvent] *)
Definition released (evt : key_event_t) : key_event_t :=
  if down evt || (keycode evt =? 0) then none else evt.

(** ** Output *)

Definition setPosition (s : screen) (row_ col : Z) : screen := setCol (setRow s row_) col.
Definition getPosition (s : screen) : Z * Z := (row s, column s).
Definition getSize (s : screen) : Z * Z := (rows s, columns s).

Definition getCurrentForegroundColor (s : screen) : option Z := to_word <$> getForegroundColor s CURRENT_COLOR_SET.
Definition getCurrentBackgroundColor (s : screen) : option Z := to_word <$> getBackgroundColor s CURRENT_COLOR_SET.
Definition setCurrentForegroundColor (s : screen) (c : Z) : screen := setForegroundColor s CURRENT_COLOR_SET (of_word c).
Definition setCurrentBackgroundColor (s : screen) (c : Z) : option screen := setBackgroundColor s CURRENT_COLOR_SET (of_word c).
Definition getConfiguredForegroundColor (s : screen) : option Z := to_word <$> getForegroundColor s CONFIGURED_COLOR_SET.
Definition getConfiguredBackgroundColor (s : screen) : option Z := to_word <$> getBackgroundColor s CONFIGURED_COLOR_SET.
Definition setConfiguredForegroundColor (s : screen) (c : Z) : screen := setForegroundColor s CONFIGURED_COLOR_SET (of_word c).
Definition setConfiguredBackgroundColor (s : screen) (c : Z) : option screen := setBackgroundColor s CONFIGURED_COLOR_SET (of_word c).

(** The parameters are called the other way around than those of the framebuffer
    they are passed to. *)
Definition clearLine (s : screen) (from_cursor to_cursor : bool) : option screen := Screen.clearLine s from_cursor to_cursor.
Definition clearScreen (s : screen) : option screen := cls s.

Definition resetGraphics (s : screen) : option screen :=
  fg ← getForegroundColor s CONFIGURED_COLOR_SET;
  let s := setForegroundColor s CURRENT_COLOR_SET fg in
  bg ← getBackgroundColor s CONFIGURED_COLOR_SET;
  setBackgroundColor s CURRENT_COLOR_SET bg.

Definition swapColors (s : screen) : option screen :=
  bg ← getCurrentBackgroundColor s;
  fg ← getCurrentForegroundColor s;
  setCurrentBackgroundColor (setCurrentForegroundColor s bg) fg.

Definition gANSIColors : list color_t :=
  [mkColor 0 0 0; mkColor 255 0 0; mkColor 0 170 0; mkColor 187 187 0;
   mkColor 0 0 187; mkColor 170 0 170; mkColor 0 170 170; mkColor 255 255 255].

Definition setANSIBackgroundColor (s : screen) (code : Z) : option screen :=
  if (code <? 40) || (code >? 49) then Some s
  else if code =? 48 then Some s
  else if code =? 49 then
    c ← getBackgroundColor s DEFAULT_COLOR_SET; setBackgroundColor s CURRENT_COLOR_SET c
  else c ← gANSIColors !! Z.to_nat (code - 40); setBackgroundColor s CURRENT_COLOR_SET c.

Definition setANSIForegroundColor (s : screen) (code : Z) : option screen :=
  if (code <? 30) || (code >? 39) then Some s
  else if code =? 38 then Some s
  else if code =? 39 then
    c ← getForegroundColor s DEFAULT_COLOR_SET; Some (setForegroundColor s CURRENT_COLOR_SET c)
  else c ← gANSIColors !! Z.to_nat (code - 30); Some (setForegroundColor s CURRENT_COLOR_SET c).

Definition setANSIBackgroundRGB (s : screen) (r g b : Z) : option screen :=
  setBackgroundColor s CURRENT_COLOR_SET (of_rgb r g b).
Definition setANSIForegroundRGB (s : screen) (r g b : Z) : screen :=
  setForegroundColor s CURRENT_COLOR_SET (of_rgb r g b).

(** [TTY::write] of one character, in the current foreground colour *)
Definition write (iso_font : list Z) (s : screen) (c : Z) : option screen :=
  putc iso_font s c (foreground (current_set s)).

End TTY.

Module KeybQueue.
Import Proc Kernel KeyEvent Keyboard.

Definition gQueueSize : nat := 2048.

Definition isKernelAttentionSequence (event : key_event_t) : bool :=
  if ctrldown event && altdown event
  then if (keycode event =? DEL) || (keycode event =? ESC) then negb (down event) else false
  else false.

(** The loop of the task over the events of the driver; [any] tells whether an
    event was put into the queue. *)
Fixpoint ingest (fuel : nat) (k : kernel) (kb : keyboard) (q : Queue.queue key_event_t) (t reaper : Z) (any : bool)
    : option (bool * kernel * keyboard * Queue.queue key_event_t) :=
  match fuel with
  | O => None
  | S fuel =>
      '(e, kb) ← next kb;
      match e with
      | None => Some (any, k, kb, q)
      | Some evt =>
          if isKernelAttentionSequence evt
          then k ← TTY.killForegroundProcess k t reaper; ingest fuel k kb q t reaper any
          else ingest fuel k kb (Queue.write gQueueSize q evt) t reaper true
      end
  end.

(** One round of the task, up to the wait for the next interrupt: [t] is the
    terminal of the task, [wq] the queue of readers without input. *)
Definition round (k : kernel) (kb : keyboard) (q : Queue.queue key_event_t) (t reaper wq : Z)
    : option (kernel * keyboard * Queue.queue key_event_t) :=
  '(any, k, kb, q) ← ingest (S gBufferSize) k kb q t reaper false;
  k ← (if (any : bool) then PM.wakeall k wq else Some k);
  Some (k, kb, q).

End KeybQueue.

Module TTYFile.
Import Proc Kernel KeyEvent.
Import Screen (screen, row, column, mX, mY, mWidth, mHeight).

(** ** The input buffer *)

Definition EOF_MARKER : Z := 0xFF.
Definition BUFSIZE : nat := 1024.

Record input_t := mkInput { buf : list Z; mNextWrite : nat; mNextRead : nat }.

Definition cleared : input_t := mkInput (replicate BUFSIZE 0) 0 0.

Definition emptyWrite (i : input_t) : bool := (mNextWrite i =? 0)%nat.
Definition emptyRead (i : input_t) : bool := (mNextWrite i =? mNextRead i)%nat.

Definition appendOne (i : input_t) (c : Z) : bool * input_t :=
  if (mNextWrite i =? BUFSIZE)%nat then (false, i)
  else (true, mkInput (<[mNextWrite i := c]> (buf i)) (S (mNextWrite i)) (mNextRead i)).

Definition undoAppend (i : input_t) : bool * input_t :=
  if emptyWrite i then (false, i) else (true, mkInput (buf i) (pred (mNextWrite i)) (mNextRead i)).

(** The character is [None] inside when there is none; a read outside of the
    buffer is [None]. *)
Definition consumeOne (i : input_t) : option (option Z * input_t) :=
  if emptyRead i then Some (None, i)
  else c ← buf i !! mNextRead i; Some (Some c, mkInput (buf i) (mNextWrite i) (S (mNextRead i))).

(** The character as a signed number *)
Definition peekOne (i : input_t) : option Z :=
  if emptyRead i then Some (-1) else c ← buf i !! mNextRead i; Some (if c >=? 128 then c - 256 else c).

(** ** The file *)

Inductive mode_t := READ_FROM_IRQ | CONSUME_BUFFER | ONLY_EOF.
Inductive discipline_t := RAW | CANONICAL.
Inductive escape_sequence_status_t := OFF | ESC_ | CSI.

#[global] Instance mode_eq_dec : EqDecision mode_t.
Proof. solve_decision. Defined.
#[global] Instance escape_eq_dec : EqDecision escape_sequence_status_t.
Proof. solve_decision. Defined.

Definition gNumEscapeInputs : nat := 6.

Record file := mkFile {
  mInput : input_t; mMode : mode_t; mDiscipline : discipline_t;
  mEscapeStatus : escape_sequence_status_t;
  mEscapeSequenceInput : list Z; mCurrentEscapeSequenceInput : nat;
}.

Definition new : file := mkFile cleared READ_FROM_IRQ CANONICAL OFF (replicate gNumEscapeInputs 0) 0.

Definition set_input (f : file) (i : input_t) : file :=
  mkFile i (mMode f) (mDiscipline f) (mEscapeStatus f) (mEscapeSequenceInput f) (mCurrentEscapeSequenceInput f).
Definition set_mode (f : file) (m : mode_t) : file :=
  mkFile (mInput f) m (mDiscipline f) (mEscapeStatus f) (mEscapeSequenceInput f) (mCurrentEscapeSequenceInput f).
Definition set_discipline (f : file) (d : discipline_t) : file :=
  mkFile (mInput f) (mMode f) d (mEscapeStatus f) (mEscapeSequenceInput f) (mCurrentEscapeSequenceInput f).
Definition set_escape (f : file) (e : escape_sequence_status_t) (l : list Z) (n : nat) : file :=
  mkFile (mInput f) (mMode f) (mDiscipline f) e l n.

(** ** Output: escape sequences *)

Definition ESCAPE : Z := 27.

(** [CURRENT_CSI_INPUT] *)
Definition input (f : file) : option Z := mEscapeSequenceInput f !! mCurrentEscapeSequenceInput f.
Definition set_csi (f : file) (v : Z) : file :=
  set_escape f (mEscapeStatus f) (<[mCurrentEscapeSequenceInput f := v]> (mEscapeSequenceInput f)) (mCurrentEscapeSequenceInput f).

(** A signed addition that overflows is undefined. *)
Definition s32 (z : Z) : option Z := if (- 2 ^ 31 <=? z) && (z <? 2 ^ 31) then Some z else None.

Definition inRange (value low high : Z) : bool := (low <=? value) && (value <? high).

(** The count of a cursor movement: zero stands for one. *)
Definition csi_count (f : file) : option (Z * file) :=
  v ← input f; if v =? 0 then Some (1, set_csi f 1) else Some (v, f).

Definition finish (f : file) : file :=
  set_escape f OFF (mEscapeSequenceInput f) (mCurrentEscapeSequenceInput f).

(** The command [m] *)
Definition graphics (f : file) (s : screen) : option screen :=
  let arg n := mEscapeSequenceInput f !! n in
  match S (mCurrentEscapeSequenceInput f) with
  | 1%nat =>
      v ← input f;
      s ← (if v =? 0 then TTY.resetGraphics s else Some s);
      s ← (if v =? 7 then TTY.swapColors s else Some s);
      s ← (if inRange v 30 39 then TTY.setANSIForegroundColor s v else Some s);
      if inRange v 40 49 then TTY.setANSIBackgroundColor s v else Some s
  | 2%nat =>
      v0 ← arg 0%nat; v1 ← arg 1%nat;
      s ← (if inRange v0 30 39 then TTY.setANSIForegroundColor s v0 else Some s);
      s ← (if inRange v1 30 39 then TTY.setANSIForegroundColor s v1 else Some s);
      s ← (if inRange v0 40 49 then TTY.setANSIBackgroundColor s v0 else Some s);
      if inRange v1 40 49 then TTY.setANSIBackgroundColor s v1 else Some s
  | 5%nat =>
      v0 ← arg 0%nat; v1 ← arg 1%nat; v2 ← arg 2%nat; v3 ← arg 3%nat; v4 ← arg 4%nat;
      let s := if (v0 =? 38) && (v1 =? 2) then TTY.setANSIForegroundRGB s v2 v3 v4 else s in
      if (v0 =? 48) && (v1 =? 2) then TTY.setANSIBackgroundRGB s v2 v3 v4 else Some s
  | _ => Some s
  end.

(** A character that is special only inside of a sequence; [None] outside when it
    is printed. *)
Definition command (f : file) (s : screen) (c : Z) : option (option (file * screen)) :=
  if c =? 65 (* A *) then Some (
    '(n, f) ← csi_count (finish f);
    let '(row_, col) := TTY.getPosition s in
    Some (f, TTY.setPosition s (if row_ >=? n then u16 (row_ - n) else 0) col))
  else if c =? 66 (* B *) then Some (
    '(n, f) ← csi_count (finish f);
    let '(row_, col) := TTY.getPosition s in
    Some (f, TTY.setPosition s (u16 (row_ + n)) col))
  else if c =? 67 (* C *) then Some (
    '(n, f) ← csi_count (finish f);
    let '(row_, col) := TTY.getPosition s in
    Some (f, TTY.setPosition s row_ (u16 (col + n))))
  else if c =? 68 (* D *) then Some (
    '(n, f) ← csi_count (finish f);
    let '(row_, col) := TTY.getPosition s in
    Some (f, TTY.setPosition s row_ (if col >=? n then u16 (col - n) else 0)))
  else if c =? 72 (* H *) then Some (Some (finish f, TTY.setPosition s 0 0))
  else if c =? 74 (* J *) then Some (
    v ← input f;
    s ← (if v =? 2 then TTY.clearScreen s else Some s);
    Some (finish f, s))
  else if c =? 75 (* K *) then Some (
    v ← input f;
    s ← (if v =? 0 then TTY.clearLine s false true else Some s);
    s ← (if v =? 1 then TTY.clearLine s true false else Some s);
    s ← (if v =? 2 then TTY.clearLine s true true else Some s);
    Some (finish f, s))
  else if c =? 109 (* m *) then Some (s ← graphics f s; Some (finish f, s))
  else None.

Definition isdigit (c : Z) : bool := (48 <=? c) && (c <=? 57).

(** Inside of a control sequence: digits, separators, commands *)
Definition csi (f : file) (s : screen) (c : Z) : option (option (file * screen)) :=
  if isdigit c then Some (
    v ← input f; v ← s32 (10 * v); v ← s32 (v + (c - 48)); Some (set_csi f v, s))
  else if c =? 59 (* ; *) then Some (Some (
    (if (mCurrentEscapeSequenceInput f =? gNumEscapeInputs - 1)%nat then f
     else set_escape f CSI (mEscapeSequenceInput f) (S (mCurrentEscapeSequenceInput f))), s))
  else command f s c.

Section Output.
Variable iso_font : list Z.

(** One turn of the loop of [write] *)
Definition write_one (f : file) (s : screen) (c : Z) : option (file * screen) :=
  let plain := s ← TTY.write iso_font s c; Some (f, s) in
  if c =? ESCAPE then Some (set_escape f ESC_ (replicate gNumEscapeInputs 0) 0, s)
  else
    match mEscapeStatus f with
    | OFF => plain
    | ESC_ => if c =? 91 (* [ *) then Some (set_escape f CSI (mEscapeSequenceInput f) (mCurrentEscapeSequenceInput f), s)
              else plain
    | CSI => match csi f s c with Some r => r | None => plain end
    end.

Fixpoint write (f : file) (s : screen) (buffer : list Z) : option (file * screen) :=
  match buffer with
  | [] => Some (f, s)
  | c :: buffer => '(f, s) ← write_one f s c; write f s buffer
  end.

End Output.

(** ** Input: chords and line disciplines *)

(** What the chord functions tell their caller *)
Inductive chord := Bubble | Handled | EofHappened.

Definition key (evt : key_event_t) (a b : Z) : bool := (keycode evt =? a) || (keycode evt =? b).

Definition interceptChords_Canonical (k : kernel) (t reaper : Z) (s : screen) (evt : key_event_t)
    : option (chord * kernel * screen) :=
  if down evt then Some (Bubble, k, s)
  else if ctrldown evt && altdown evt && key evt 75 107 then
    s ← TTY.clearScreen s; Some (Handled, k, s)
  else if ctrldown evt && key evt 67 99 then
    k ← TTY.killForegroundProcess k t reaper; Some (Handled, k, s)
  else if ctrldown evt && key evt 68 100 then Some (EofHappened, k, s)
  else Some (Bubble, k, s).

Section Input.
Variable iso_font : list Z.

Definition processOne_Canonical (k : kernel) (t reaper : Z) (f : file) (s : screen) (evt : key_event_t)
    : option (kernel * file * screen) :=
  '(ch, k, s) ← interceptChords_Canonical k t reaper s evt;
  match ch with
  | EofHappened => Some (k, set_mode (set_input f (appendOne (mInput f) EOF_MARKER).2) CONSUME_BUFFER, s)
  | Handled => Some (k, f, s)
  | Bubble =>
      if negb (Z.land (keycode evt) 0xFF00 =? 0) then Some (k, f, s)
      else
        let c := Z.land (keycode evt) 0x00FF in
        let '(f, swallow) :=
          if c =? 8 then
            if emptyWrite (mInput f) then (f, true) else (set_input f (undoAppend (mInput f)).2, false)
          else if (c =? 10) || (c =? EOF_MARKER) then
            (set_mode (set_input f (appendOne (mInput f) c).2) CONSUME_BUFFER, false)
          else
            let '(fit, i) := appendOne (mInput f) c in
            (if fit then set_input f i else set_mode f CONSUME_BUFFER, false) in
        if swallow then Some (k, f, s)
        else '(f, s) ← write iso_font f s [c]; Some (k, f, s)
  end.

(** The control characters of [interceptChords_Raw] *)
Definition raw_chord (evt : key_event_t) : option Z :=
  if down evt then None
  else if ctrldown evt then
    if key evt 65 97 then Some 1
    else if key evt 67 99 then Some 3
    else if key evt 68 100 then Some 4
    else if key evt 69 101 then Some 5
    else if key evt 75 107 then Some 11
    else if key evt 85 117 then Some 21
    else if key evt 87 119 then Some 23
    else None
  else None.

(** The sequences of the special keys *)
Definition raw_combo (ch : Z) : option (list Z) :=
  if ch =? UP then Some [27; 91; 65]
  else if ch =? DWN then Some [27; 91; 66]
  else if ch =? RHT then Some [27; 91; 67]
  else if ch =? LFT then Some [27; 91; 68]
  else if ch =? F1 then Some [27; 79; 80]
  else if ch =? F2 then Some [27; 79; 81]
  else if ch =? F3 then Some [27; 79; 82]
  else if ch =? F4 then Some [27; 79; 83]
  else if ch =? F5 then Some [27; 79; 116]
  else if ch =? F6 then Some [27; 79; 117]
  else if ch =? F7 then Some [27; 79; 118]
  else if ch =? F8 then Some [27; 79; 49]
  else if ch =? F9 then Some [27; 79; 119]
  else if ch =? F10 then Some [27; 79; 120]
  else if ch =? DEL then Some [27; 91; 51; 126]
  else None.

Definition appendAll (i : input_t) (cs : list Z) : input_t := foldl (fun i c => (appendOne i c).2) i cs.

Definition processOne_Raw (f : file) (evt : key_event_t) : file :=
  match raw_chord evt with
  | Some c => set_mode (set_input f (appendOne (mInput f) c).2) CONSUME_BUFFER
  | None =>
      let ch := keycode evt in
      if negb (Z.land ch 0xFF00 =? 0) then
        match raw_combo ch with
        | Some cs => set_mode (set_input f (appendAll (mInput f) cs)) CONSUME_BUFFER
        | None => f
        end
      else set_mode (set_input f (appendOne (mInput f) (Z.land ch 0x00FF)).2) CONSUME_BUFFER
  end.

(** ** Reading *)

(** [procureOne] on the events of the queue; [None] when it waits for more. *)
Fixpoint procureOne (keys : list key_event_t) : option (key_event_t * list key_event_t) :=
  match keys with
  | [] => None
  | e :: keys => let e := TTY.released e in if keycode e =? 0 then procureOne keys else Some (e, keys)
  end.

(** The first loop of [read]: [fuel] is the number of events.  The flag tells
    whether the process waits for input. *)
Fixpoint fill (fuel : nat) (k : kernel) (t reaper : Z) (f : file) (s : screen) (keys : list key_event_t)
    : option (bool * kernel * file * screen * list key_event_t) :=
  match mMode f with
  | READ_FROM_IRQ =>
      match fuel with
      | O => Some (true, k, f, s, [])
      | S fuel =>
          ok ← TTY.allowed k t;
          if (ok : bool) then
            match procureOne keys with
            | None => Some (true, k, f, s, [])
            | Some (e, keys) =>
                '(k, f, s) ← match mDiscipline f with
                             | CANONICAL => processOne_Canonical k t reaper f s e
                             | RAW => Some (k, processOne_Raw f e, s)
                             end;
                fill fuel k t reaper f s keys
            end
          else Some (true, k, f, s, keys)
      end
  | _ => Some (false, k, f, s, keys)
  end.

(** The second loop, with [n] bytes still wanted and [out] read so far; [inl]
    means that nothing was there and the call starts over. *)
Fixpoint consume (n : nat) (f : file) (out : list Z) : option ((file + (list Z * file))) :=
  match n with
  | O => Some (inr (out, f))
  | S n =>
      if emptyRead (mInput f) then
        match out with
        | [] => Some (inl (set_mode f READ_FROM_IRQ))
        | _ => Some (inr (out, set_mode (set_input f cleared) READ_FROM_IRQ))
        end
      else
        peek ← peekOne (mInput f);
        if peek =? -1 then
          match out with
          | [] => '(_, i) ← consumeOne (mInput f); Some (inr ([], set_mode (set_input f i) ONLY_EOF))
          | _ => Some (inr (out, f))
          end
        else
          '(c, i) ← consumeOne (mInput f);
          consume n (set_input f i) (out ++ match c with Some c => [c] | None => [] end)
  end.

Inductive outcome := Returned (data : list Z) | Waiting.

(** [read]: each round after the first uses up an event. *)
Fixpoint read_fuel (fuel : nat) (k : kernel) (t reaper : Z) (f : file) (s : screen) (keys : list key_event_t) (n : nat)
    : option (outcome * kernel * file * screen * list key_event_t) :=
  match fuel with
  | O => None
  | S fuel =>
      if (n =? 0)%nat then Some (Returned [], k, f, s, keys)
      else
        '(waiting, k, f, s, keys) ← fill (length keys) k t reaper f s keys;
        if (waiting : bool) then Some (Waiting, k, f, s, keys)
        else
          match mMode f with
          | ONLY_EOF => Some (Returned [], k, f, s, keys)
          | _ =>
              r ← consume n f [];
              match r with
              | inr (data, f) => Some (Returned data, k, f, s, keys)
              | inl f => read_fuel fuel k t reaper f s keys n
              end
          end
  end.

Definition read (k : kernel) (t reaper : Z) (f : file) (s : screen) (keys : list key_event_t) (n : nat) :=
  read_fuel (2 + length keys) k t reaper f s keys n.

End Input.

(** ** Controls *)

Inductive control := Foreground (p : nat) | Background | MoveCursor (w : Z) | VisibleArea | CursorPos
  | GetFgColor | GetBgColor | SetFgColor (c : Z) | SetBgColor (c : Z)
  | DisciplineRaw | DisciplineCanonical | DisciplineGet | WinSize | Unknown.

(** [ioctl]: the values it stores through its pointer argument, and the result *)
Definition ioctl (k : kernel) (t : Z) (f : file) (s : screen) (c : control)
    : option (list Z * Z * kernel * file * screen) :=
  match c with
  | Foreground p => k ← Life.pushfg k t p; Some ([], 1, k, f, s)
  | Background => p ← procs k !! gCurrentProcess k; '(_, k) ← Life.popfg k t (pid p); Some ([], 1, k, f, s)
  | MoveCursor w => Some ([], 1, k, f, TTY.setPosition s (u16 (Z.shiftr w 16)) (Z.land w 0xFFFF))
  | VisibleArea => let '(r, c) := TTY.getSize s in Some ([c; r], 1, k, f, s)
  | CursorPos => let '(r, c) := TTY.getPosition s in Some ([c; r], 1, k, f, s)
  | GetFgColor => v ← TTY.getConfiguredForegroundColor s; Some ([v], 1, k, f, s)
  | GetBgColor => v ← TTY.getConfiguredBackgroundColor s; Some ([v], 1, k, f, s)
  | SetFgColor c => Some ([], 1, k, f, TTY.setConfiguredForegroundColor s c)
  | SetBgColor c => s ← TTY.setConfiguredBackgroundColor s c; Some ([], 1, k, f, s)
  | DisciplineRaw => Some ([], 1, k, set_discipline f RAW, s)
  | DisciplineCanonical => Some ([], 1, k, set_discipline f CANONICAL, s)
  | DisciplineGet => Some ([match mDiscipline f with RAW => 10 | CANONICAL => 11 end], 1, k, f, s)
  | WinSize => let '(r, c) := TTY.getSize s in Some ([r; c; u16 (c * 8); u16 (c * 16)], 1, k, f, s)
  | Unknown => Some ([], 0, k, f, s)
  end.

(** ** The buffer holds the characters of a line *)

Record irep (i : input_t) (r : nat) (l : list Z) : Prop := {
  i_len : length (buf i) = BUFSIZE;
  i_read : mNextRead i = r;
  i_write : mNextWrite i = (r + length l)%nat;
  i_room : (r + length l <= BUFSIZE)%nat;
  i_cells : forall j, (j < length l)%nat -> buf i !! (r + j)%nat = l !! j;
}.

Lemma irep_cleared : irep cleared 0 [].
Proof. split; simpl; try done; try (unfold BUFSIZE; lia). Qed.

Lemma appendOne_spec i r l c : irep i r l -> (r + length l < BUFSIZE)%nat ->
  exists i', appendOne i c = (true, i') /\ irep i' r (l ++ [c]).
Proof.
  intros [Hlen Hr Hw _ Hc] Hroom. unfold appendOne. destruct (Nat.eqb_spec (mNextWrite i) BUFSIZE); [lia|].
  eexists. split; [done|]. split; simpl; rewrite ?length_insert, ?length_app; simpl; try lia.
  intros j Hj. rewrite Hw. destruct (decide (j = length l)) as [->|].
  - rewrite list_lookup_insert_eq by lia. by rewrite list_lookup_middle.
  - rewrite list_lookup_insert_ne by lia. rewrite lookup_app_l by lia. apply Hc. lia.
Qed.

Lemma undoAppend_spec i r l c : irep i r (l ++ [c]) -> exists i', undoAppend i = (true, i') /\ irep i' r l.
Proof.
  intros [Hlen Hr Hw Hroom Hc]. rewrite length_app in *. simpl in *. unfold undoAppend, emptyWrite.
  destruct (Nat.eqb_spec (mNextWrite i) 0); [lia|]. eexists. split; [done|].
  split; simpl; try lia; try done. intros j Hj. rewrite Hc by lia. by apply lookup_app_l.
Qed.

Lemma emptyRead_spec i r l : irep i r l -> emptyRead i = bool_decide (l = []).
Proof.
  intros [_ Hr Hw _ _]. unfold emptyRead. rewrite Hr, Hw. destruct l; simpl.
  - apply Nat.eqb_eq. lia.
  - apply Nat.eqb_neq. lia.
Qed.

Lemma consumeOne_spec i r c l : irep i r (c :: l) ->
  peekOne i = Some (if c >=? 128 then c - 256 else c)
  /\ exists i', consumeOne i = Some (Some c, i') /\ irep i' (S r) l.
Proof.
  intros Hi. unfold peekOne, consumeOne. rewrite (emptyRead_spec i r (c :: l) Hi), bool_decide_eq_false_2 by done.
  destruct Hi as [Hlen Hr Hw Hroom Hc]. simpl in *. pose proof (Hc 0%nat ltac:(lia)) as H0.
  rewrite Nat.add_0_r in H0. rewrite Hr, H0. split; [done|]. simpl. eexists. split; [done|].
  split; simpl; try lia; try done. intros j Hj. change (l !! j) with ((c :: l) !! S j). rewrite <- (Hc (S j)) by lia. f_equal. lia.
Qed.

(** Reading at most [n] characters of the buffer *)
Lemma consume_spec n : forall f r l out, irep (mInput f) r l -> Forall (fun c => 0 <= c < EOF_MARKER) l ->
  (out <> [] \/ l <> []) ->
  exists f', consume n f out = Some (inr (out ++ take n l, f'))
    /\ mDiscipline f' = mDiscipline f /\ mEscapeStatus f' = mEscapeStatus f
    /\ if (length l <? n)%nat then mMode f' = READ_FROM_IRQ /\ irep (mInput f') 0 []
       else mMode f' = mMode f /\ irep (mInput f') (r + n) (drop n l).
Proof.
  induction n as [|n IH]; intros f r l out Hi Hl Hne; cbn [consume].
  { exists f. rewrite take_0, app_nil_r, drop_0, Nat.add_0_r. by split_and!. }
  rewrite (emptyRead_spec _ r l Hi). destruct l as [|c l].
  - rewrite bool_decide_eq_true_2 by done. destruct out as [|o out]; [by destruct Hne|]. eexists.
    split_and!; [by rewrite take_nil, app_nil_r|done|done|]. simpl. split; [done|apply irep_cleared].
  - rewrite bool_decide_eq_false_2 by done. destruct (consumeOne_spec _ r c l Hi) as [-> (i' & Hc & Hi')].
    apply Forall_cons_1 in Hl as [Hcr Hl]. unfold EOF_MARKER in Hcr. cbn [mbind option_bind].
    rewrite (proj2 (Z.eqb_neq _ (-1))) by (destruct (Z.geb_spec c 128); lia). rewrite Hc. cbn [mbind option_bind].
    destruct (IH (set_input f i') (S r) l (out ++ [c]) Hi' Hl) as (f' & -> & Hd & He & Hrest).
    { left. by destruct out. }
    exists f'. split_and!; [by rewrite <- app_assoc|done|done|]. simpl in *.
    change (S (length l) <? S n)%nat with (length l <? n)%nat.
    destruct (length l <? n)%nat; [done|]. by rewrite Nat.add_succ_r.
Qed.

(** ** A line typed in canonical mode *)

(** The keys released, without the control key, give these codes; other events
    are ignored by the terminal. *)
Inductive types : list key_event_t -> list Z -> Prop :=
  | types_nil : types [] []
  | types_skip e ks cs : keycode (TTY.released e) = 0 -> types ks cs -> types (e :: ks) cs
  | types_key e ks cs : down e = false -> ctrldown e = false -> 0 < keycode e < EOF_MARKER -> types ks cs ->
      types (e :: ks) (keycode e :: cs).

Lemma types_procure ks c cs rest : types ks (c :: cs) ->
  exists e ks', procureOne (ks ++ rest) = Some (e, ks' ++ rest) /\ types ks' cs /\ (length ks' < length ks)%nat
    /\ keycode e = c /\ down e = false /\ ctrldown e = false /\ 0 < c < EOF_MARKER.
Proof.
  intros H. remember (c :: cs) as l eqn:El. induction H as [|e ks l Hz Ht IH|e ks l Hd Hctl Hc Ht _]; [done| |].
  - specialize (IH El). destruct IH as (e' & ks' & Hp & Ht' & Hlen & Hrest). exists e', ks'. cbn [procureOne app].
    rewrite Hz. simpl. split_and!; try done; try lia; by apply Hrest.
  - injection El as Ec ->. subst c. exists e, ks. cbn [procureOne app]. unfold TTY.released. rewrite Hd. cbn [orb].
    rewrite (proj2 (Z.eqb_neq (keycode e) 0)) by lia. rewrite (proj2 (Z.eqb_neq (keycode e) 0)) by lia.
    split_and!; try done; simpl; lia.
Qed.

(** What the editing keys do to the line *)
Definition edit (l : list Z) (c : Z) : list Z := if c =? 8 then removelast l else l ++ [c].

Definition typable (c : Z) : Prop := 0 < c < EOF_MARKER /\ c <> 10 /\ c <> ESCAPE.

Lemma edit_length l c : (length (edit l c) <= S (length l))%nat.
Proof.
  unfold edit. case_match; [|rewrite length_app; simpl; lia].
  destruct l as [|x l] using rev_ind; [simpl; lia|]. rewrite removelast_last, length_app. simpl. lia.
Qed.

Lemma edit_chars l c : typable c -> Forall (fun c => 0 <= c < EOF_MARKER) l -> Forall (fun c => 0 <= c < EOF_MARKER) (edit l c).
Proof.
  intros [Hc _] Hl. unfold edit. case_match; [|apply Forall_app; split; [done|]; constructor; [lia|done]].
  destruct l as [|x l] using rev_ind; [done|]. rewrite removelast_last. by apply Forall_app in Hl as [? _].
Qed.

(** The state of the file while a line is being typed *)
Record typing (f : file) (l : list Z) : Prop := {
  t_mode : mMode f = READ_FROM_IRQ;
  t_canonical : mDiscipline f = CANONICAL;
  t_escape : mEscapeStatus f = OFF;
  t_input : irep (mInput f) 0 l;
}.

Lemma code_bytes c : 0 < c < EOF_MARKER -> (Z.land c 0xFF00 =? 0) = true /\ Z.land c 0x00FF = c.
Proof.
  unfold EOF_MARKER. intros Hc.
  assert (H1 : Z.land c 255 = c) by (change 255 with (Z.ones 8); rewrite Z.land_ones by lia; apply Z.mod_small; lia).
  split; [|done]. apply Z.eqb_eq. rewrite <- H1, <- Z.land_assoc. change (Z.land 255 65280) with 0. apply Z.land_0_r.
Qed.

(** ** Output of text *)

Section Text.
Variable iso_font : list Z.
Hypothesis font_complete : length iso_font = 4096%nat.

(** Text without escape characters stays inside the memory of the console. *)
Lemma write_text buffer : forall f s, Screen.good s -> mEscapeStatus f = OFF ->
  Forall (fun c => is_u8 c /\ c <> ESCAPE) buffer ->
  exists s', write iso_font f s buffer = Some (f, s') /\ Screen.good s'.
Proof.
  induction buffer as [|c buffer IH]; intros f s Hg He Hb; cbn [write]; [eauto|].
  apply Forall_cons_1 in Hb as [[Hc Hesc] Hb]. unfold write_one. rewrite (proj2 (Z.eqb_neq c ESCAPE)) by done.
  rewrite He. unfold TTY.write.
  destruct (Screen.putc_good iso_font font_complete s c (Screen.foreground (Screen.current_set s)) Hg Hc) as (s1 & -> & Hg1).
  cbn [mbind option_bind]. by apply IH.
Qed.

Lemma no_chord k t reaper s e : down e = false -> ctrldown e = false ->
  interceptChords_Canonical k t reaper s e = Some (Bubble, k, s).
Proof. intros Hd Hc. unfold interceptChords_Canonical. by rewrite Hd, Hc. Qed.

(** The character is put into the line, taken off it, or ends it, and is echoed. *)
Lemma type_char k t reaper f s e l : typing f l -> (length l < BUFSIZE)%nat -> Screen.good s ->
  down e = false -> ctrldown e = false -> typable (keycode e) ->
  exists f' s', processOne_Canonical iso_font k t reaper f s e = Some (k, f', s') /\ typing f' (edit l (keycode e))
    /\ Screen.good s'.
Proof.
  intros [Hm Hd He Hi] Hl Hg Hdn Hctl (Hc & Hnl & Hesc). unfold processOne_Canonical. rewrite no_chord by done.
  cbn [mbind option_bind]. destruct (code_bytes _ Hc) as [-> ->]. cbn [negb]. set (c := keycode e) in *.
  assert (Hecho : forall g, mEscapeStatus g = OFF -> exists s', write iso_font g s [c] = Some (g, s') /\ Screen.good s').
  { intros g Hge. apply write_text; try done. constructor; [|done]. split; [|done]. unfold EOF_MARKER in Hc. width. lia. }
  unfold edit. destruct (Z.eqb_spec c 8) as [Hbs|Hbs].
  - unfold emptyWrite. rewrite (i_write _ _ _ Hi). destruct l as [|x l0] using rev_ind.
    + exists f, s. by split_and!.
    + clear IHl0. rewrite length_app, (proj2 (Nat.eqb_neq _ 0)) by (simpl; lia).
      destruct (undoAppend_spec _ 0 l0 x Hi) as (i' & -> & Hi'). cbn [snd].
      destruct (Hecho (set_input f i') He) as (s' & -> & Hg'). cbn [mbind option_bind]. eexists _, _. split_and!; [done| |done].
      rewrite removelast_last. by split.
  - rewrite (proj2 (Z.eqb_neq c 10)) by done. rewrite (proj2 (Z.eqb_neq c EOF_MARKER)) by (unfold EOF_MARKER in *; lia).
    cbn [orb]. destruct (appendOne_spec _ 0 l c Hi Hl) as (i' & -> & Hi').
    destruct (Hecho (set_input f i') He) as (s' & -> & Hg'). simpl. eexists _, _. split_and!; [done| |done]. by split.
Qed.

Lemma type_newline k t reaper f s e l : typing f l -> (length l < BUFSIZE)%nat -> Screen.good s ->
  down e = false -> ctrldown e = false -> keycode e = 10 ->
  exists f' s', processOne_Canonical iso_font k t reaper f s e = Some (k, f', s') /\ Screen.good s'
    /\ mMode f' = CONSUME_BUFFER /\ mDiscipline f' = CANONICAL /\ mEscapeStatus f' = OFF /\ irep (mInput f') 0 (l ++ [10]).
Proof.
  intros [Hm Hd He Hi] Hl Hg Hdn Hctl Hc. unfold processOne_Canonical. rewrite no_chord by done. rewrite Hc.
  cbn [mbind option_bind]. change (Z.land 10 255) with 10. change (negb (Z.land 10 65280 =? 0)) with false.
  change (10 =? 8) with false. change ((10 =? 10) || (10 =? EOF_MARKER)) with true. cbv iota.
  destruct (appendOne_spec _ 0 l 10 Hi Hl) as (i' & -> & Hi').
  destruct (write_text [10] (set_mode (set_input f i') CONSUME_BUFFER) s Hg He) as (s' & E & Hg').
  { constructor; [|done]. by split. }
  cbn [snd]. rewrite E. cbn [mbind option_bind]. eexists _, _. by split_and!.
Qed.

(** Typing a whole line fills the buffer with the edited line. *)
Lemma fill_line k t reaper cs : forall fuel ks rest f s l, TTY.allowed k t = Some true ->
  types ks (cs ++ [10]) -> Forall typable cs -> (length ks <= fuel)%nat ->
  typing f l -> (length l + length cs < BUFSIZE)%nat -> Forall (fun c => 0 <= c < EOF_MARKER) l -> Screen.good s ->
  exists f' s' ks', fill iso_font fuel k t reaper f s (ks ++ rest) = Some (false, k, f', s', ks' ++ rest)
    /\ types ks' [] /\ Screen.good s' /\ mMode f' = CONSUME_BUFFER /\ mDiscipline f' = CANONICAL /\ mEscapeStatus f' = OFF
    /\ irep (mInput f') 0 (foldl edit l cs ++ [10]).
Proof.
  induction cs as [|c cs IH]; intros fuel ks rest f s l Hal Hty Hcs Hfuel Hf Hlen Hl Hg; simpl in Hty, Hlen.
  - destruct (types_procure _ _ _ rest Hty) as (e & ks' & Hp & Ht' & Hlt & Hk & Hd & Hctl & _).
    destruct fuel as [|fuel]; [lia|]. cbn [fill]. rewrite (t_mode _ _ Hf), Hal. cbn [mbind option_bind].
    rewrite Hp, (t_canonical _ _ Hf).
    destruct (type_newline k t reaper f s e l Hf ltac:(lia) Hg Hd Hctl Hk) as (f' & s' & -> & Hg' & Hm & Hdi & He & Hi).
    cbn [mbind option_bind]. exists f', s', ks'. split_and!; try done. destruct fuel; cbn [fill]; by rewrite Hm.
  - destruct (types_procure _ _ _ rest Hty) as (e & ks' & Hp & Ht' & Hlt & Hk & Hd & Hctl & _).
    apply Forall_cons_1 in Hcs as [Hc Hcs]. subst c.
    destruct fuel as [|fuel]; [lia|]. cbn [fill]. rewrite (t_mode _ _ Hf), Hal. cbn [mbind option_bind].
    rewrite Hp, (t_canonical _ _ Hf).
    destruct (type_char k t reaper f s e l Hf ltac:(lia) Hg Hd Hctl Hc) as (f' & s' & -> & Hf' & Hg').
    cbn [mbind option_bind]. pose proof (edit_length l (keycode e)).
    apply (IH fuel ks' rest f' s' (edit l (keycode e))); try done; try lia. by apply edit_chars.
Qed.

(** A read in canonical mode returns the line as the editing keys left it, and
    the terminal is ready for the next line. *)
Lemma read_line k t reaper cs ks rest f s n : TTY.allowed k t = Some true ->
  types ks (cs ++ [10]) -> Forall typable cs -> typing f [] -> (length cs < BUFSIZE)%nat -> Screen.good s ->
  (S (length (foldl edit [] cs)) < n)%nat ->
  exists f' s' ks', read iso_font k t reaper f s (ks ++ rest) n
      = Some (Returned (foldl edit [] cs ++ [10]), k, f', s', ks' ++ rest)
    /\ typing f' [] /\ types ks' [] /\ Screen.good s'.
Proof.
  intros Hal Hty Hcs Hf Hlen Hg Hn. unfold read. cbn [read_fuel Nat.add]. rewrite (proj2 (Nat.eqb_neq n 0)) by lia.
  destruct (fill_line k t reaper cs (length (ks ++ rest)) ks rest f s [] Hal Hty Hcs) as
    (f1 & s1 & ks1 & -> & Ht1 & Hg1 & Hm1 & Hd1 & He1 & Hi1); try done; [rewrite length_app; lia|].
  cbn [mbind option_bind]. rewrite Hm1.
  assert (Hchars : Forall (fun c => 0 <= c < EOF_MARKER) (foldl edit [] cs ++ [10])).
  { apply Forall_app. split; [|by constructor].
    assert (Hall : forall l, Forall (fun c => 0 <= c < EOF_MARKER) l -> Forall (fun c => 0 <= c < EOF_MARKER) (foldl edit l cs)).
    { clear -Hcs. induction Hcs as [|c cs Hc _ IH]; intros l Hl; simpl; [done|]. apply IH. by apply edit_chars. }
    by apply Hall. }
  destruct (consume_spec n f1 0 _ [] Hi1 Hchars) as (f2 & -> & Hd2 & He2 & Hrest); [right; by destruct (foldl edit [] cs)|].
  cbn [mbind option_bind app]. rewrite length_app, Nat.add_comm in Hrest. simpl in Hrest.
  rewrite (proj2 (Nat.ltb_lt _ _)) in Hrest by done. destruct Hrest as [Hm2 Hi2].
  rewrite take_ge by (rewrite length_app; simpl; lia).
  exists f2, s1, ks1. split_and!; try done. split; congruence || done.
Qed.

End Text.

(** ** Raw mode, one byte at a time *)

Section Raw.
Variable iso_font : list Z.
Implicit Types (k : kernel) (f : file).

(** A key of one character *)
Definition raw_key (e : key_event_t) : Prop := down e = false /\ ctrldown e = false /\ 0 < keycode e < EOF_MARKER.

Lemma raw_key_code f e : raw_key e ->
  procureOne [e] = Some (e, []) /\ processOne_Raw f e = set_mode (set_input f (appendOne (mInput f) (keycode e)).2) CONSUME_BUFFER.
Proof.
  intros (Hd & Hc & Hk). cbn [procureOne]. unfold TTY.released, processOne_Raw, raw_chord. rewrite Hd, Hc. cbn [orb].
  rewrite !(proj2 (Z.eqb_neq (keycode e) 0)) by lia. destruct (code_bytes _ Hk) as [-> ->]. done.
Qed.

Lemma procure_cons e keys : raw_key e -> procureOne (e :: keys) = Some (e, keys).
Proof.
  intros (Hd & _ & Hk). cbn [procureOne]. unfold TTY.released. rewrite Hd. cbn [orb].
  by rewrite !(proj2 (Z.eqb_neq (keycode e) 0)) by lia.
Qed.

(** A round of [read] that starts by waiting for a key *)
Lemma raw_round fuel k t reaper f s e keys r : TTY.allowed k t = Some true -> raw_key e ->
  mMode f = READ_FROM_IRQ -> mDiscipline f = RAW -> irep (mInput f) r [] -> (r < BUFSIZE)%nat ->
  exists f', read_fuel iso_font (S fuel) k t reaper f s (e :: keys) 1 = Some (Returned [keycode e], k, f', s, keys)
    /\ mMode f' = CONSUME_BUFFER /\ mDiscipline f' = RAW /\ irep (mInput f') (S r) [].
Proof.
  intros Hal He Hm Hd Hi Hr. cbn [read_fuel Nat.eqb length fill]. rewrite Hm, Hal. cbn [mbind option_bind].
  rewrite procure_cons, Hd, (proj2 (raw_key_code f e He)) by done. cbn [mbind option_bind].
  destruct (appendOne_spec _ r [] (keycode e) Hi ltac:(simpl; lia)) as (i' & -> & Hi'). cbn [snd app] in *.
  set (f1 := set_mode (set_input f i') CONSUME_BUFFER).
  assert (Hfill : fill iso_font (length keys) k t reaper f1 s keys = Some (false, k, f1, s, keys)) by (by destruct keys).
  rewrite Hfill. cbn [mbind option_bind]. change (mMode f1) with CONSUME_BUFFER. cbv iota.
  destruct (consume_spec 1 f1 r [keycode e] [] Hi') as (f2 & -> & Hd2 & _ & Hrest); [|by right|].
  { constructor; [|done]. destruct He as (_ & _ & ?). lia. }
  cbn [mbind option_bind app take]. simpl in Hrest. destruct Hrest as [Hm2 Hi2].
  exists f2. rewrite Nat.add_1_r in Hi2. split_and!; try done. by rewrite Hd2.
Qed.

Lemma raw_read1 k t reaper f s e keys r : TTY.allowed k t = Some true -> raw_key e ->
  mMode f <> ONLY_EOF -> mDiscipline f = RAW -> irep (mInput f) r [] -> (r < BUFSIZE)%nat ->
  exists f', read iso_font k t reaper f s (e :: keys) 1 = Some (Returned [keycode e], k, f', s, keys)
    /\ mMode f' = CONSUME_BUFFER /\ mDiscipline f' = RAW /\ irep (mInput f') (S r) [].
Proof.
  intros Hal He Hm Hd Hi Hr. unfold read. destruct (mMode f) eqn:Em; [by apply (raw_round _ _ _ _ _ _ _ _ r)| |done].
  cbn [Nat.add]. remember (S (length (e :: keys))) as fuel eqn:Ef. cbn [read_fuel Nat.eqb length fill]. rewrite Em.
  cbn [mbind option_bind consume]. rewrite Em, (emptyRead_spec _ r [] Hi). cbn [mbind option_bind].
  rewrite bool_decide_eq_true_2 by done. cbn [mbind option_bind]. rewrite Ef.
  by apply (raw_round _ _ _ _ _ _ _ _ r).
Qed.

(** The buffer is used up: every slot was written and read. *)
Definition stuck f : Prop := mDiscipline f = RAW /\ mMode f <> ONLY_EOF /\ mNextWrite (mInput f) = BUFSIZE /\ mNextRead (mInput f) = BUFSIZE.

Lemma append_stuck i cs : mNextWrite i = BUFSIZE -> appendAll i cs = i.
Proof.
  intros Hi. induction cs as [|c cs IH]; [done|]. unfold appendAll in *. cbn [foldl].
  assert (E : (appendOne i c).2 = i) by (unfold appendOne; by rewrite Hi). by rewrite E.
Qed.

Lemma process_stuck f e : stuck f -> stuck (processOne_Raw f e).
Proof.
  intros (Hd & Hm & Hw & Hr). unfold processOne_Raw.
  assert (Ha : forall c, (appendOne (mInput f) c).2 = mInput f) by (intros c; unfold appendOne; by rewrite Hw).
  repeat case_match; rewrite ?Ha, ?append_stuck by done; by split_and!.
Qed.

Lemma procure_shorter keys e keys' : procureOne keys = Some (e, keys') -> (length keys' < length keys)%nat.
Proof.
  induction keys as [|x keys IH]; [done|]. cbn [procureOne length]. case_match.
  - intros H'. apply IH in H'. lia.
  - intros [= _ <-]. lia.
Qed.

Lemma fill_stuck fuel k t reaper : forall f s keys, TTY.allowed k t = Some true -> stuck f -> (length keys <= fuel)%nat ->
  exists w f' keys', fill iso_font fuel k t reaper f s keys = Some (w, k, f', s, keys') /\ stuck f'
    /\ (if (w : bool) then keys' = [] else mMode f' = CONSUME_BUFFER)
    /\ (length keys' <= length keys)%nat /\ (mMode f = READ_FROM_IRQ -> w = false -> (length keys' < length keys)%nat).
Proof.
  induction fuel as [|fuel IH]; intros f s keys Hal Hst Hlen; cbn [fill].
  - destruct keys; [|simpl in Hlen; lia]. pose proof Hst as (_ & Hm & _).
    destruct (mMode f) eqn:Em; [|by exists false, f, []|done]. exists true, f, []. by split_and!.
  - pose proof Hst as (Hd & Hm & _). destruct (mMode f) eqn:Em; [|by exists false, f, keys|done].
    rewrite Hal. cbn [mbind option_bind]. destruct (procureOne keys) as [[e keys1]|] eqn:Ep.
    + rewrite Hd. cbn [mbind option_bind]. pose proof (procure_shorter _ _ _ Ep).
      destruct (IH (processOne_Raw f e) s keys1 Hal (process_stuck f e Hst) ltac:(lia)) as (w & f' & keys' & E & Hst' & Hw & Hl & _).
      exists w, f', keys'. split_and!; try done; lia.
    + exists true, f, []. split_and!; try done. simpl. lia.
Qed.

Lemma read_stuck_fuel k t reaper s n : TTY.allowed k t = Some true -> n <> 0%nat -> forall fuel f keys, stuck f ->
  (length keys + (if decide (mMode f = READ_FROM_IRQ) then 1 else 2) <= fuel)%nat ->
  exists f', read_fuel iso_font fuel k t reaper f s keys n = Some (Waiting, k, f', s, []) /\ stuck f'.
Proof.
  intros Hal Hn. induction fuel as [|fuel IH]; intros f keys Hst Hfuel; [case_decide; lia|].
  cbn [read_fuel]. rewrite (proj2 (Nat.eqb_neq n 0)) by done.
  destruct (fill_stuck (length keys) k t reaper f s keys Hal Hst ltac:(lia)) as (w & f1 & keys1 & -> & Hst1 & Hw & Hl & Hlt).
  cbn [mbind option_bind]. destruct w; [subst; by exists f1|]. rewrite Hw.
  destruct n as [|n]; [done|]. cbn [consume]. pose proof Hst1 as (Hd1 & Hm1 & Hw1 & Hr1). unfold emptyRead.
  rewrite Hw1, Hr1, Nat.eqb_refl. cbn [mbind option_bind].
  apply (IH (set_mode f1 READ_FROM_IRQ) keys1); [by split_and!|].
  rewrite decide_True by done. case_decide; [specialize (Hlt ltac:(done) eq_refl); lia|lia].
Qed.

(** Reads of one byte each, one after the other *)
Fixpoint reads (m : nat) k (t reaper : Z) f (s : screen) (keys : list key_event_t)
    : option (list Z * file * list key_event_t) :=
  match m with
  | O => Some ([], f, keys)
  | S m =>
      r ← read iso_font k t reaper f s keys 1;
      match r with
      | (Returned data, _, f, s, keys) => '(rest, f, keys) ← reads m k t reaper f s keys; Some (data ++ rest, f, keys)
      | (Waiting, _, _, _, _) => None
      end
  end.

Lemma reads_spec k t reaper s ks : forall f r rest, TTY.allowed k t = Some true -> Forall raw_key ks ->
  mMode f <> ONLY_EOF -> mDiscipline f = RAW -> irep (mInput f) r [] -> (r + length ks <= BUFSIZE)%nat ->
  exists f', reads (length ks) k t reaper f s (ks ++ rest) = Some (keycode <$> ks, f', rest)
    /\ mMode f' <> ONLY_EOF /\ mDiscipline f' = RAW /\ irep (mInput f') (r + length ks) [].
Proof.
  induction ks as [|e ks IH]; intros f r rest Hal Hks Hm Hd Hi Hr; cbn [reads length app].
  { exists f. rewrite Nat.add_0_r. by split_and!. }
  apply Forall_cons_1 in Hks as [He Hks]. simpl in Hr.
  destruct (raw_read1 k t reaper f s e (ks ++ rest) r Hal He Hm Hd Hi ltac:(lia)) as (f1 & -> & Hm1 & Hd1 & Hi1).
  cbn [mbind option_bind].
  destruct (IH f1 (S r) rest Hal Hks ltac:(congruence) Hd1 Hi1 ltac:(lia)) as (f2 & -> & Hm2 & Hd2 & Hi2).
  cbn [mbind option_bind]. exists f2. split_and!; try done. by rewrite Nat.add_succ_r.
Qed.

End Raw.

(** ** Cursor movements *)

Section Escapes.
Variable iso_font : list Z.

Lemma write_app l l' : forall f s,
  write iso_font f s (l ++ l') = ('(f, s) ← write iso_font f s l; write iso_font f s l').
Proof.
  induction l as [|x l IH]; intros f s; [done|]. cbn [write app].
  destruct (write_one iso_font f s x) as [[f1 s1]|]; [|done]. cbn [mbind option_bind]. apply IH.
Qed.

(** The number written by a list of digits *)
Definition number (v : Z) (ds : list Z) : Z := foldl (fun v d => 10 * v + d) v ds.

Lemma number_ge ds : forall v, 0 <= v -> Forall (fun d => 0 <= d <= 9) ds -> v <= number v ds.
Proof.
  induction ds as [|d ds IH]; intros v Hv Hds; [simpl; lia|]. apply Forall_cons_1 in Hds as [Hd Hds].
  change (number v (d :: ds)) with (number (10 * v + d) ds). specialize (IH (10 * v + d) ltac:(lia) Hds). lia.
Qed.

Lemma input_set_csi f v w : input f = Some w -> input (set_csi f v) = Some v.
Proof. intros H. unfold input in *. simpl. apply list_lookup_insert_eq. by apply lookup_lt_Some in H. Qed.

Lemma set_csi_twice f v w : set_csi (set_csi f v) w = set_csi f w.
Proof. unfold set_csi, set_escape. simpl. by rewrite list_insert_insert_eq. Qed.

Lemma set_csi_id f v : input f = Some v -> set_csi f v = f.
Proof. intros H. destruct f. unfold set_csi, set_escape, input in *. simpl in *. by rewrite list_insert_id. Qed.

Lemma s32_small z : 0 <= z < 2 ^ 31 -> s32 z = Some z.
Proof.
  intros Hz. unfold s32. rewrite (proj2 (Z.leb_le (- 2 ^ 31) z)), (proj2 (Z.ltb_lt z (2 ^ 31))) by lia. done.
Qed.

Lemma write_digits s ds : forall f v, Forall (fun d => 0 <= d <= 9) ds -> mEscapeStatus f = CSI -> input f = Some v ->
  0 <= v -> number v ds < 2 ^ 31 ->
  write iso_font f s (Z.add 48 <$> ds) = Some (set_csi f (number v ds), s).
Proof.
  induction ds as [|d ds IH]; intros f v Hds He Hi Hv Hn.
  { simpl. by rewrite set_csi_id. }
  apply Forall_cons_1 in Hds as [Hd Hds]. change (number v (d :: ds)) with (number (10 * v + d) ds) in *.
  pose proof (number_ge ds (10 * v + d) ltac:(lia) Hds) as Hge.
  rewrite fmap_cons. cbn [write]. unfold write_one. rewrite (proj2 (Z.eqb_neq _ ESCAPE)) by (unfold ESCAPE; lia).
  rewrite He. unfold csi, isdigit. rewrite (proj2 (Z.leb_le 48 _)), (proj2 (Z.leb_le _ 57)) by lia. cbn [andb].
  rewrite Hi. cbn [mbind option_bind]. rewrite s32_small by lia. cbn [mbind option_bind].
  replace (10 * v + (48 + d - 48)) with (10 * v + d) by lia. rewrite s32_small by lia. cbn [mbind option_bind].
  rewrite (IH (set_csi f (10 * v + d)) (10 * v + d)); try done; try lia; [by rewrite set_csi_twice|].
  by eapply input_set_csi.
Qed.

(** The file after a complete sequence *)
Definition after (f : file) (v : Z) : file := set_escape f OFF (<[0%nat := v]> (replicate gNumEscapeInputs 0)) 0.

(** [ESC \[ n c] for a command [c] that takes a count *)
Lemma write_csi f s ds c : Forall (fun d => 0 <= d <= 9) ds -> number 0 ds < 2 ^ 31 -> isdigit c = false -> c <> 59 -> c <> ESCAPE ->
  write iso_font f s (ESCAPE :: 91 :: (Z.add 48 <$> ds) ++ [c])
  = match command (set_csi (set_escape f CSI (replicate gNumEscapeInputs 0) 0) (number 0 ds)) s c with
    | Some r => r
    | None => s ← TTY.write iso_font s c;
              Some (set_csi (set_escape f CSI (replicate gNumEscapeInputs 0) 0) (number 0 ds), s)
    end.
Proof.
  intros Hds Hn Hdig Hsep Hesc. set (f1 := set_escape f CSI (replicate gNumEscapeInputs 0) 0).
  change (write iso_font f s (ESCAPE :: 91 :: (Z.add 48 <$> ds) ++ [c]))
    with (write iso_font f1 s ((Z.add 48 <$> ds) ++ [c])).
  rewrite write_app, (write_digits s ds f1 0) by done. cbn [mbind option_bind write].
  unfold write_one. rewrite (proj2 (Z.eqb_neq c ESCAPE)) by done. cbn [mEscapeStatus set_csi set_escape f1].
  unfold csi. rewrite Hdig, (proj2 (Z.eqb_neq c 59)) by done.
  destruct (command _ s c) as [[[g s']|]|]; [done|done|]. by destruct (TTY.write iso_font s c).
Qed.

Lemma csi_count_spec f v : input f = Some v -> exists g, csi_count f = Some (if v =? 0 then 1 else v, g)
  /\ g = set_csi f (if v =? 0 then 1 else v).
Proof.
  intros H. unfold csi_count. rewrite H. cbn [mbind option_bind]. destruct (v =? 0); eexists; [done|].
  split; [done|]. by rewrite set_csi_id.
Qed.

(** Moving up or to the left stays on the screen, draws nothing, and zero counts
    as one. *)
Lemma cursor_up f s ds : Screen.good s -> Forall (fun d => 0 <= d <= 9) ds -> number 0 ds < 2 ^ 31 ->
  exists f', write iso_font f s (ESCAPE :: 91 :: (Z.add 48 <$> ds) ++ [65])
      = Some (f', Screen.move s (16 * Z.max 0 (row s - Z.max 1 (number 0 ds))) (mY s)) /\ mEscapeStatus f' = OFF.
Proof.
  intros [Hok [Hx Hy [q Hr] [c Hc]]] Hds Hn. rewrite write_csi by done. pose proof (number_ge ds 0 ltac:(lia) Hds) as Hge.
  pose proof (Screen.s_height s Hok) as Hh. pose proof (Screen.s_width s Hok) as Hw.
  set (g := set_csi _ (number 0 ds)). assert (Hg : input (finish g) = Some (number 0 ds)) by reflexivity.
  unfold command. cbn [Z.eqb Pos.eqb]. destruct (csi_count_spec (finish g) _ Hg) as (f' & -> & ->). cbn [mbind option_bind].
  unfold TTY.getPosition, TTY.setPosition, row, column.
  exists (set_csi (finish g) (if number 0 ds =? 0 then 1 else number 0 ds)). split; [|done]. do 2 f_equal.
  unfold Screen.FONT_HEIGHT, Screen.FONT_WIDTH in *. rewrite Hr, Hc, !Z.div_mul by lia.
  replace (if number 0 ds =? 0 then 1 else number 0 ds) with (Z.max 1 (number 0 ds)) by (destruct (Z.eqb_spec (number 0 ds) 0); lia).
  set (n := Z.max 1 (number 0 ds)). assert (1 <= n) by lia.
  replace (if q >=? n then u16 (q - n) else 0) with (Z.max 0 (q - n)).
  2: { destruct (Z.geb_spec q n); [|lia]. unfold u16. rewrite wrap_id; [lia|]. split; [|change (2 ^ 16) with 65536]; lia. }
  unfold Screen.setRow, Screen.setCol, Screen.FONT_HEIGHT, Screen.FONT_WIDTH. cbn [Screen.mX Screen.mWidth Screen.mHeight Screen.move].
  destruct (Z.gtb_spec (Z.max 0 (q - n) * 16) (mHeight s)); [lia|]. destruct (Z.gtb_spec (c * 8) (mWidth s)); [lia|].
  f_equal; lia.
Qed.

(** Moving down is only stopped below the last line, and what is printed there is
    written behind the end of the buffers. *)
Lemma cursor_down_overruns f s x : Screen.good s -> mEscapeStatus f = OFF -> is_u8 x ->
  x <> 8 -> x <> 10 -> x <> 13 -> x <> ESCAPE ->
  write iso_font f s [ESCAPE; 91; 57; 57; 57; 57; 66; x] = None.
Proof.
  intros Hg He Hx H8 H10 H13 H27. pose proof Hg as [Hok [Hmx Hmy [q Hr] [c Hc]]].
  pose proof (Screen.s_height s Hok) as Hh. pose proof (Screen.s_width s Hok) as Hw.
  change [ESCAPE; 91; 57; 57; 57; 57; 66; x] with ((ESCAPE :: 91 :: (Z.add 48 <$> [9; 9; 9; 9]) ++ [66]) ++ [x]).
  rewrite write_app, write_csi by (repeat constructor; lia || done).
  set (g := set_csi _ _). assert (Hgi : input (finish g) = Some 9999) by reflexivity.
  unfold command. cbn [Z.eqb Pos.eqb]. destruct (csi_count_spec (finish g) _ Hgi) as (f' & -> & ->). cbn [mbind option_bind].
  unfold TTY.getPosition, TTY.setPosition, row, column. unfold Screen.FONT_HEIGHT, Screen.FONT_WIDTH in *.
  rewrite Hr, Hc, !Z.div_mul by lia.
  assert (Hrow : u16 (q + 9999) = q + 9999) by (unfold u16; apply wrap_id; split; [|change (2 ^ 16) with 65536]; lia).
  change (if 9999 =? 0 then 1 else 9999) with 9999. rewrite Hrow.
  assert (Hpos : Screen.setCol (Screen.setRow s (q + 9999)) c = Screen.move s (mHeight s) (mY s)).
  { unfold Screen.setRow, Screen.setCol, Screen.FONT_HEIGHT, Screen.FONT_WIDTH. cbn [Screen.mX Screen.mWidth Screen.mHeight Screen.move].
    destruct (Z.gtb_spec ((q + 9999) * 16) (mHeight s)); [|lia]. destruct (Z.gtb_spec (c * 8) (mWidth s)); [lia|].
    unfold Screen.move. simpl. f_equal. lia. }
  rewrite Hpos. cbn [write]. unfold write_one. rewrite (proj2 (Z.eqb_neq x ESCAPE)) by done.
  cbn [mbind option_bind]. change (mEscapeStatus _) with OFF. cbv iota. unfold TTY.write, Screen.putc.
  rewrite (proj2 (Z.eqb_neq x 10)), (proj2 (Z.eqb_neq x 8)), (proj2 (Z.eqb_neq x 13)) by done.
  unfold Screen.clearAtCursor, Screen.putdata. rewrite Screen.getpixel_ok by first [by apply Screen.ok_move | simpl; lia].
  cbn [mbind option_bind Screen.mX Screen.mY Screen.mWidth Screen.move].
  change (Z.to_nat Screen.FONT_HEIGHT) with 16%nat. unfold Screen.gFiller. cbn [replicate Screen.plot_rows Screen.plot_bits].
  change (Z.testbit 255 (Z.of_nat 7)) with true. cbv iota. unfold Screen.plot. cbn [Screen.back Screen.move Screen.mBytesPerPixel].
  rewrite lookup_ge_None_2; [done|]. pose proof (Screen.s_len s Hok). nia.
Qed.

End Escapes.

End TTYFile.

(** ** From scan codes to a line *)

Module Typing.
Import Kernel KeyEvent Keyboard.

(** No attention sequence among the events *)
Definition ordinary (e : key_event_t) : Prop := KeybQueue.isKernelAttentionSequence e = false.

(** The task moves all events of the driver to the queue of the terminals. *)
Lemma ingest_spec k t reaper fuel : forall kb q l ks any, Queue.qrep gBufferSize (gKeyboardBuffer kb) l ->
  Queue.qrep KeybQueue.gQueueSize q ks -> (length ks + length l < KeybQueue.gQueueSize)%nat -> Forall ordinary l ->
  (length l < fuel)%nat ->
  exists kb' q' any', KeybQueue.ingest fuel k kb q t reaper any = Some (any', k, kb', q')
    /\ Queue.qrep gBufferSize (gKeyboardBuffer kb') [] /\ Queue.qrep KeybQueue.gQueueSize q' (ks ++ l)
    /\ gModes kb' = gModes kb.
Proof.
  induction fuel as [|fuel IH]; intros kb q l ks any Hkb Hq Hroom Hord Hlen; [lia|]. cbn [KeybQueue.ingest].
  unfold next, Keyboard.any. rewrite (Queue.queue_empty_spec gBufferSize _ l Hkb). destruct l as [|e l].
  - rewrite bool_decide_eq_true_2 by done. cbn [negb mbind option_bind]. exists kb, q, any. rewrite app_nil_r. by split_and!.
  - rewrite bool_decide_eq_false_2 by done. cbn [negb].
    destruct (Queue.queue_read_spec gBufferSize _ e l Hkb) as (kq & -> & Hkq). cbn [mbind option_bind].
    apply Forall_cons_1 in Hord as [He Hord]. rewrite He. simpl in Hroom, Hlen.
    destruct (IH (mkKeyboard kq (gModes kb)) (Queue.write KeybQueue.gQueueSize q e) l (ks ++ [e]) true Hkq) as
      (kb' & q' & any' & E & Hkb' & Hq' & Hm).
    + apply Queue.queue_write_spec; [done|lia].
    + rewrite length_app. simpl. lia.
    + done.
    + lia.
    + exists kb', q', any'. split_and!; try done. by rewrite <- app_assoc in Hq'.
Qed.

(** Pressing and releasing keys, with a run of the keyboard task after each *)
Fixpoint strike (k : kernel) (t reaper : Z) (kb : keyboard) (q : Queue.queue key_event_t) (bs : list Z)
    : option (keyboard * Queue.queue key_event_t) :=
  match bs with
  | [] => Some (kb, q)
  | b :: bs =>
      '(_, kb) ← run kb (Irq <$> stroke b);
      '(_, _, kb, q) ← KeybQueue.ingest (S gBufferSize) k kb q t reaper false;
      strike k t reaper kb q bs
  end.

(** A key that gives this character without modifiers *)
Definition types_as (b c : Z) : Prop :=
  is_u8 b /\ plain b = true /\ gLowercaseScancodeMap !! Z.to_nat b = Some c.

#[global] Instance types_as_dec b c : Decision (types_as b c).
Proof. unfold types_as. apply _. Defined.

Lemma strike_spec k t reaper bs cs : Forall2 types_as bs cs -> forall kb q ks,
  Forall (fun c => 0 < c < TTYFile.EOF_MARKER) cs ->
  Queue.qrep gBufferSize (gKeyboardBuffer kb) [] -> gModes kb = new_modes ->
  Queue.qrep KeybQueue.gQueueSize q ks -> (length ks + 2 * length cs < KeybQueue.gQueueSize)%nat ->
  exists kb' q' ks', strike k t reaper kb q bs = Some (kb', q') /\ Queue.qrep KeybQueue.gQueueSize q' (ks ++ ks')
    /\ TTYFile.types ks' cs.
Proof.
  induction 1 as [|b c bs cs (Hb & Hp & Hm) Hall IH]; intros kb q ks Hcs Hkb Hmo Hq Hroom; cbn [strike].
  { exists kb, q, []. rewrite app_nil_r. split_and!; [done|done|constructor]. }
  apply Forall_cons_1 in Hcs as [Hc Hcs]. simpl in Hroom.
  assert (Hpre : prefix b = false) by (apply andb_true_iff in Hp as [?%negb_true_iff _]; done).
  set (e1 := mkKey KEYMAP_LOWERCASE false false true c). set (e2 := mkKey KEYMAP_LOWERCASE false false false c).
  assert (Hrun : exists kb1, run kb (Irq <$> stroke b) = Some ([], kb1) /\ Queue.qrep gBufferSize (gKeyboardBuffer kb1) [e1; e2]
    /\ gModes kb1 = new_modes).
  { unfold prefix in Hpre. apply orb_false_iff in Hpre as [H1 H2].
    assert (He : forall m, gIsLong m = false -> gShift m = false -> gCapsLock m = false -> gCtrlDown m = false -> gAltDown m = false ->
      event_of m b = Some (mkKey KEYMAP_LOWERCASE false false (negb (gIsBreakCode m)) c)).
    { intros m Hl Hs Hcl Hct Hal. unfold event_of. rewrite Hl, Hs, Hcl, Hct, Hal. by rewrite Hm. }
    cbn [stroke fmap list_fmap run]. unfold parse_scan_code. rewrite H1, H2, Hmo, He by done. cbn [mbind option_bind].
    rewrite modifiers_plain by done. cbn [gModes gKeyboardBuffer].
    change (0xF0 =? 0xE0) with false. change (0xF0 =? 0xF0) with true. cbv iota. cbn [mbind option_bind gModes gKeyboardBuffer].
    rewrite He by done. cbn [mbind option_bind]. rewrite modifiers_plain by done. eexists. split; [done|]. split; [|done].
    simpl. apply (Queue.queue_write_spec gBufferSize _ [e1]); [|unfold gBufferSize; simpl; lia].
    apply (Queue.queue_write_spec gBufferSize _ []); [done|unfold gBufferSize; simpl; lia]. }
  destruct Hrun as (kb1 & -> & Hkb1 & Hm1). cbn [mbind option_bind].
  destruct (ingest_spec k t reaper (S gBufferSize) kb1 q [e1; e2] ks false Hkb1 Hq) as (kb2 & q2 & any & -> & Hkb2 & Hq2 & Hm2).
  { simpl. lia. }
  { repeat constructor. }
  { unfold gBufferSize. simpl. lia. }
  cbn [mbind option_bind].
  destruct (IH kb2 q2 (ks ++ [e1; e2]) Hcs Hkb2 ltac:(congruence) Hq2) as (kb' & q' & ks' & -> & Hq' & Ht).
  { rewrite length_app. simpl. lia. }
  exists kb', q', (e1 :: e2 :: ks'). split_and!; [done|by rewrite <- app_assoc in Hq'|].
  apply TTYFile.types_skip; [done|]. by apply (TTYFile.types_key e2).
Qed.

End Typing.
