(* ===== verification/LibraryThms.v ===== *)
(** * Theorems about the kernel library, the file layer and pipes

    The statements about kernel/include/libc, kernel/src/fs and kernel/src/time,
    most of them about whole sequences of operations. *)

From Stdlib Require Import String ZArith Lia Permutation Sorted.
From stdpp Require Import base numbers list gmap option strings.
From S2P Require Import Prelude Vec PQueue SList Interval Hash Lru Tables Time Files Kernel Pipe.

Local Open Scope Z_scope.

(** ** Priority queue *)

(** filling the array-based priority queue with any elements and emptying it
    again never fails and gives the same elements, the greatest first, for any
    comparison that decides a preorder. *)
Theorem pqueue_sorts {A} (compare : A -> A -> Z) (ord : A -> A -> Prop) (l : list A) :
  PQueue.Comparator compare ord ->
  exists q out, PQueue.insert_all (V := Vec.vector) compare v_new l = Some q
    /\ PQueue.drain (V := Vec.vector) compare (length l) q = Some out
    /\ out ≡ₚ l /\ StronglySorted (fun a b => ord b a) out.
Proof.
  intros Hc. destruct (PQueue.insert_all_spec (V := Vec.vector) compare ord v_new [] l) as (q & l' & Hq & Hr & Hp).
  { split; [apply v_rep_new|]. intros i. unfold PQueue.edge, PQueue.ile. by intros _ x y ?. }
  destruct (PQueue.drain_spec (V := Vec.vector) compare ord q l' Hr) as (out & Hd & Ho & Hs).
  rewrite app_nil_r in Hp. exists q, out. split_and!; try done; [by rewrite <- Hp|by etrans].
Qed.

#[global] Instance sub_comparator : PQueue.Comparator Z.sub Z.le.
Proof. split; intros; lia. Qed.

Lemma pqueue_sorts_witness : exists q out, PQueue.insert_all (V := Vec.vector) Z.sub v_new [3; 1; 2] = Some q
  /\ PQueue.drain (V := Vec.vector) Z.sub 3 q = Some out /\ out ≡ₚ [3; 1; 2].
Proof.
  destruct (pqueue_sorts Z.sub Z.le [3; 1; 2] sub_comparator) as (q & out & H1 & H2 & H3 & _).
  exists q, out. exact (conj H1 (conj H2 H3)).
Defined.

(** ** Linked list *)

Module ListTrace.
Import SList.

(** The calls a client makes; positions outside the list are skipped. *)
Inductive op := Add (x : Z) | AddHead (x : Z) | InsertAt (n : nat) (x : Z) | RemoveAt (n : nat)
  | Remove (x : Z) | RemoveAll (x : Z) | Pop | Clear.

Definition run1 (s : slist Z) (o : op) : option (slist Z) :=
  match o with
  | Add x => add s x
  | AddHead x => Some (add_head s x)
  | InsertAt n x => if (n <? size s)%nat then i ← iter_nth s n; insert_at s i x else Some s
  | RemoveAt n => if (n <? size s)%nat then i ← iter_nth s n; remove_at s i else Some s
  | Remove x => fst <$> remove s x
  | RemoveAll x => removeAll s x
  | Pop => if (size s =? 0)%nat then Some s else snd <$> pop s
  | Clear => clear s
  end.

Definition spec1 (l : list Z) (o : op) : list Z :=
  match o with
  | Add x => l ++ [x]
  | AddHead x => x :: l
  | InsertAt n x => if (n <? length l)%nat then take n l ++ x :: drop n l else l
  | RemoveAt n => if (n <? length l)%nat then delete n l else l
  | Remove x => remove_first (fun y => bool_decide (y = x)) l
  | RemoveAll x => filter (fun y => bool_decide (y = x) = false) l
  | Pop => list.tail l
  | Clear => []
  end.

Fixpoint run (s : slist Z) (os : list op) : option (slist Z) :=
  match os with [] => Some s | o :: os => s' ← run1 s o; run s' os end.

Lemma run1_spec s l o : lrep s l -> exists s', run1 s o = Some s' /\ lrep s' (spec1 l o).
Proof.
  intros Hr. destruct o as [x|x|n x|n|x|x| |]; cbn [run1 spec1].
  - by apply (lrep_add s l x).
  - eexists. split; [done|]. by apply lrep_add_head.
  - rewrite (lrep_size s l Hr). destruct (Nat.ltb_spec n (length l)); [|by exists s].
    destruct (lrep_insert_at s l n x Hr) as (i & s' & -> & H' & ?); [done|]. exists s'. done.
  - rewrite (lrep_size s l Hr). destruct (Nat.ltb_spec n (length l)); [|by exists s].
    destruct (lrep_remove_at s l n Hr) as (i & s' & -> & H' & ?); [done|]. exists s'. done.
  - unfold remove. destruct (lrep_remove_if s l (fun y => bool_decide (y = x)) Hr) as (s' & -> & ?). by exists s'.
  - unfold removeAll. apply removeAll_fuel_spec; [done|]. rewrite (lrep_size s l Hr). lia.
  - rewrite (lrep_size s l Hr). destruct l as [|x l]; [by exists s|]. simpl.
    destruct (lrep_pop s x l Hr) as (s' & -> & ?). by exists s'.
  - by apply (lrep_clear s l).
Qed.

Lemma list_run_spec os : forall s l, lrep s l -> exists s', run s os = Some s' /\ lrep s' (foldl spec1 l os).
Proof.
  induction os as [|o os IH]; intros s l Hr; [by exists s|]. cbn [run foldl].
  destruct (run1_spec s l o Hr) as (s1 & -> & Hr1). cbn [mbind option_bind]. by apply IH.
Qed.

(** What an iteration over the list sees. *)
Definition elements (s : slist Z) : option (list Z) := foreach (fun acc x => (acc ++ [x], true)) [] s.

Lemma collect_all (l acc : list Z) : foreach_stop (fun acc x => (acc ++ [x], true)) acc l = acc ++ l.
Proof. revert acc. induction l as [|x l IH]; intros acc; simpl; [by rewrite app_nil_r|]. by rewrite IH, <- app_assoc. Qed.

(** the pointer structure of the singly linked list implements sequences.  Any
    sequence of insertions, removals and clears from the empty list runs without
    touching a dangling pointer, and iterating over the result, its count and its
    last element are those of the same operations on plain lists. *)
Theorem slist_refines_list (os : list op) :
  exists s, run new os = Some s /\ elements s = Some (foldl spec1 [] os)
    /\ count s = length (foldl spec1 [] os)
    /\ (foldl spec1 [] os <> [] -> back s = list.last (foldl spec1 [] os)).
Proof.
  destruct (list_run_spec os new [] lrep_new) as (s & Hs & Hr). exists s. split_and!; [done| |by apply lrep_size|].
  - unfold elements. rewrite (lrep_foreach _ _ s _ Hr). by rewrite collect_all.
  - intros Hne. destruct (foldl spec1 [] os) as [|x l _] using rev_ind; [done|].
    rewrite (lrep_back s l x Hr). by rewrite last_snoc.
Qed.

End ListTrace.

(** ** Intervals *)

(** the range [findFree] returns has the size asked for, lies inside the space
    and overlaps no interval of the list, and adding it keeps the list in order
    and free of overlaps, provided the size does not wrap around past an interval. *)
Theorem findFree_add_disjoint max l sz r :
  is_u32 max -> IntervalList.ordered l -> Forall (fun i => Interval.to i <= max) l -> is_u32 sz -> sz <= max ->
  IntervalList.no_wrap sz l -> IntervalList.findFree max l sz = Some r ->
  Interval.to r - Interval.from r + 1 = sz /\ Interval.to r <= max /\ Forall (Interval.disjoint r) l
  /\ IntervalList.ordered (IntervalList.add l r) /\ IntervalList.add l r ≡ₚ r :: l.
Proof.
  intros Hm Ho Hto Hsz Hle Hnw Hf.
  destruct (IntervalList.findFree_sound max l sz r Hm Ho Hto Hsz Hle Hnw Hf) as (Hwf & Hs & Hmax & Hd).
  rewrite IntervalList.add_add_loop. split_and!; try done; [by apply IntervalList.add_loop_ordered|apply IntervalList.add_loop_perm].
Qed.

Lemma findFree_add_disjoint_witness :
  IntervalList.ordered (IntervalList.add [Interval.mkInterval 0 0xFFF; Interval.mkInterval 0xC0000000 0xFFFFFFFF]
                                         (Interval.mkInterval 0x1000 0x2FFF)).
Proof.
  apply (findFree_add_disjoint 0xFFFFFFFF [Interval.mkInterval 0 0xFFF; Interval.mkInterval 0xC0000000 0xFFFFFFFF] 0x2000).
  - unfold is_u. lia.
  - split; [|repeat constructor]. constructor; [|constructor; [|constructor]]; unfold Interval.wf, is_u; simpl; lia.
  - repeat constructor; simpl; lia.
  - unfold is_u. lia.
  - lia.
  - unfold IntervalList.no_wrap. repeat constructor; simpl; lia.
  - reflexivity.
Defined.

(** the search is done in 32 bits and wraps around.  Asked for 4 GB less one
    page between two regions, it returns a range whose end is below its beginning
    and inside which the second region begins. *)
Theorem findFree_wraps :
  exists l r, IntervalList.ordered l /\ IntervalList.findFree 0xFFFFFFFF l 0xFFFFF000 = Some r
    /\ Interval.to r < Interval.from r
    /\ exists i, i ∈ l /\ Interval.from r <= Interval.from i < Interval.from r + 0xFFFFF000.
Proof.
  exists [Interval.mkInterval 0x1000 0x1FFF; Interval.mkInterval 0xF0000000 0xF0000FFF], (Interval.mkInterval 0x2000 0xFFF).
  split_and!.
  - split; [|repeat constructor]. constructor; [|constructor; [|constructor]]; unfold Interval.wf, is_u; simpl; lia.
  - reflexivity.
  - simpl. lia.
  - exists (Interval.mkInterval 0xF0000000 0xF0000FFF). split; [right; left|simpl; lia].
Qed.

(** ** Sector cache *)

Module LruTrace.
Import Lru.

Section Trace.
Context {D : Type} (size : nat).

Inductive op := Find (sid : Z) (update : bool) | Insert (sid : Z) (d : D).

(** What each call answers: the data found, or nothing. *)
Fixpoint run (c : cache) (os : list op) : option (cache * list (option D)) :=
  match os with
  | [] => Some (c, [])
  | Find sid u :: os => '(c, r) ← find size c sid u; '(c, rs) ← run c os; Some (c, r :: rs)
  | Insert sid d :: os => c ← insert size c sid d; '(c, rs) ← run c os; Some (c, None :: rs)
  end.

(** The same on the list of entries, the most recently used first. *)
Fixpoint spec (l : list (Z * D)) (os : list op) : list (Z * D) * list (option D) :=
  match os with
  | [] => (l, [])
  | Find sid u :: os => let '(l, r) := spec_find l sid u in let '(l, rs) := spec l os in (l, r :: rs)
  | Insert sid d :: os => let '(l, rs) := spec (spec_insert size l sid d) os in (l, None :: rs)
  end.

Lemma lru_run_spec (Hs : (0 < size)%nat) os : forall c l, crep size c l ->
  exists c', run c os = Some (c', (spec l os).2) /\ crep size c' (spec l os).1.
Proof.
  induction os as [|[sid u|sid d] os IH]; intros c l Hc; cbn [run spec]; [by exists c| |].
  - destruct (find_spec size Hs c l sid u Hc) as (c1 & -> & Hc1). cbn [mbind option_bind].
    destruct (spec_find l sid u) as [l1 r]. simpl in *. destruct (IH c1 l1 Hc1) as (c2 & -> & Hc2).
    cbn [mbind option_bind]. destruct (spec l1 os). by exists c2.
  - destruct (lru_insert_spec size Hs c l sid d Hc) as (c1 & -> & Hc1). cbn [mbind option_bind].
    destruct (IH c1 _ Hc1) as (c2 & -> & Hc2). cbn [mbind option_bind]. destruct (spec (spec_insert size l sid d) os). by exists c2.
Qed.

(** the sector cache, a list of keys beside a hash table, answers every sequence
    of lookups and insertions as one list of entries in the order of their last
    use would, never fails and never holds more entries than its size. *)
Theorem lru_refines (os : list op) : (0 < size)%nat ->
  exists c, run (new size) os = Some (c, (spec [] os).2) /\ mData c = (spec [] os).1.*1
    /\ (length (mData c) <= size)%nat.
Proof.
  intros Hs. destruct (lru_run_spec Hs os (new size) [] (crep_new size Hs)) as (c & Hr & [H1 H2 H3 H4 H5]).
  exists c. rewrite H2, length_fmap. done.
Qed.

End Trace.

Lemma lru_refines_witness :
  exists c, run 2 (new 2) [Insert 1 10; Insert 2 20; Find 1 true; Insert 3 30; Find 2 false] = Some (c, [None; None; Some 10; None; None]).
Proof.
  destruct (lru_refines 2 [Insert 1 10; Insert 2 20; Find 1 true; Insert 3 30; Find 2 false] ltac:(lia)) as (c & H & _).
  exists c. exact H.
Defined.

End LruTrace.

(** ** Descriptors *)

(** setting a value in the table of handles uses the first free slot from the
    given index on, going around, and touches no other slot; it fails only when no
    slot is free, and then changes nothing. *)
Theorem handle_table_set {T} (N : nat) (t : Handletable.table T) (v : T) (idx0 : nat) :
  (0 < N)%nat -> Handletable.ok N t ->
  exists r t', Handletable.set N t v idx0 = Some (r, t') /\ Handletable.ok N t' /\
    match r with
    | Some i => (i < N)%nat /\ Handletable.lookup t i = None
        /\ (forall j, Handletable.lookup t' j = if decide (i = j) then Some v else Handletable.lookup t j)
        /\ exists d, i = ((idx0 + d) mod N)%nat
             /\ forall d', (d' < d)%nat -> is_Some (Handletable.lookup t ((idx0 + d') mod N))
    | None => t' = t /\ forall j, (j < N)%nat -> is_Some (Handletable.lookup t j)
    end.
Proof. intros HN Hok. exact (Handletable.handle_set_spec N HN t v idx0 Hok). Qed.

Lemma handle_table_set_witness : exists r t', Handletable.set 64 (Handletable.new 64) 7 0 = Some (r, t') /\ Handletable.ok 64 t'.
Proof.
  destruct (handle_table_set 64 (Handletable.new 64) 7 0 ltac:(lia) (Handletable.handle_ok_new 64 ltac:(lia) eq_refl)) as (r & t' & H1 & H2 & _).
  exists r, t'. exact (conj H1 H2).
Defined.

(** ** Dates *)

(** converting a date and time to seconds since 1970 and back is the identity on
    all valid dates up to the year 65535. *)
Theorem calendar_roundtrip d t :
  Calendar.valid_date d -> Calendar.valid_time t ->
  exists e, Calendar.date_components_to_epoch d = Some e
    /\ Calendar.epoch_to_time_and_date_components (e + Calendar.time_components_to_epoch t) = (d, t).
Proof.
  intros Hd Ht. exists (Calendar.gSecondsInDay * Calendar.day_number d).
  split; [by apply Calendar.date_to_epoch_spec|by apply Calendar.epoch_inverse].
Qed.

Lemma calendar_roundtrip_witness :
  exists e, Calendar.date_components_to_epoch (Calendar.mkDate 29 2 2024) = Some e.
Proof.
  destruct (calendar_roundtrip (Calendar.mkDate 29 2 2024) (Calendar.mkTime 23 59 59)) as (e & H & _).
  - unfold Calendar.valid_date. vm_compute. repeat split; intros H; discriminate H.
  - unfold Calendar.valid_time. simpl. lia.
  - exists e. exact H.
Defined.

(** ** Files *)

Section FileCounts.
Import FsObject.

(** an object that was opened and referenced [n] times in all stays alive
    through the first [n - 1] closes; the last one deletes it, and only then does
    the number of open objects of its filesystem go down. *)
Theorem close_balances_references n st fs o ob f :
  objects st !! o = Some ob -> mRefcount ob = Z.of_nat (S n) ->
  filesystems st !! fs = Some f -> 0 < mOpenObjcts f < 2 ^ 64 ->
  (forall i, (i <= n)%nat -> exists st' ob', close_times i st fs o = Some st' /\ objects st' !! o = Some ob'
     /\ mRefcount ob' = mRefcount ob - Z.of_nat i /\ filesystems st' = filesystems st)
  /\ close_times (S n) st fs o = Some (mkState (delete o (objects st))
       (<[fs := mkFilesystem (fsRefcount f) (mOpenObjcts f - 1)]> (filesystems st))).
Proof.
  intros Ho Hr Hf Hn. split; [|by eapply close_times_all]. intros i Hi.
  rewrite (close_times_more i st fs o ob Ho) by lia. case_decide as E.
  - subst i. exists st, ob. split_and!; try done. lia.
  - eexists _, _. split; [done|]. simpl. rewrite lookup_insert_eq. split_and!; done.
Qed.
End FileCounts.

Lemma close_balances_references_witness :
  FsObject.close_times 2 (FsObject.mkState {[5 := FsObject.mkObject 2 0]} {[9 := FsObject.mkFilesystem 1 1]}) 9 5
  = Some (FsObject.mkState (delete 5 {[5 := FsObject.mkObject 2 0]})
            (<[9 := FsObject.mkFilesystem 1 0]> {[9 := FsObject.mkFilesystem 1 1]})).
Proof.
  destruct (close_balances_references 1 (FsObject.mkState {[5 := FsObject.mkObject 2 0]} {[9 := FsObject.mkFilesystem 1 1]})
           9 5 (FsObject.mkObject 2 0) (FsObject.mkFilesystem 1 1)) as [_ H]; [reflexivity|reflexivity|reflexivity|simpl; lia|].
  exact H.
Defined.

Section Paths.
Import VFS.

(** a path that is resolved has no component that begins with a dot, so it
    cannot step out of a directory, and it is served by the first mount of the
    table whose name is a prefix of it that ends at a slash or at the end; the
    filesystem gets what follows the name. *)
Theorem resolve_at_component_boundary l p fs rest :
  resolve l (Some p) = Some (fs, rest) ->
  Forall (fun w => ~ dotted w) (list.tail (components p))
  /\ exists l1 m l2, l = l1 ++ m :: l2 /\ m_fs m = fs
       /\ p = String slash (m_path m +:+ rest) /\ at_boundary rest = true
       /\ Forall (fun m' => forall r, skip_slash p = m_path m' +:+ r -> at_boundary r = false) l1.
Proof.
  unfold resolve. destruct (isAbsolutePath (Some p)) eqn:Ha; [|done]. destruct p as [|c p]; [done|].
  cbn [isAbsolutePath] in Ha. apply andb_true_iff in Ha as [->%Ascii.eqb_eq Hc%negb_true_iff].
  change (getfs l (Some (String slash p))) with (getfs_loop l p). intros Hg. split.
  - apply list.Forall_forall. intros w Hw Hd. assert (H : contains "/." (String slash p) = true); [|congruence].
    apply components_dotted. apply list.Exists_exists. by exists w.
  - apply getfs_loop_spec in Hg as (l1 & m & l2 & -> & Hfs & Hp & Hb & Hall). exists l1, m, l2. split_and!; try done.
    by rewrite Hp.
Qed.
End Paths.

Lemma resolve_at_component_boundary_witness :
  VFS.resolve [VFS.mkMount "initrd" 0 1 7; VFS.mkMount "init" 0 1 8] (Some "/init/x"%string) = Some (8, "/x"%string)
  /\ exists l1 m l2, [VFS.mkMount "initrd" 0 1 7; VFS.mkMount "init" 0 1 8] = l1 ++ m :: l2 /\ VFS.m_fs m = 8.
Proof.
  assert (E : VFS.resolve [VFS.mkMount "initrd" 0 1 7; VFS.mkMount "init" 0 1 8] (Some "/init/x"%string) = Some (8, "/x"%string))
    by reflexivity.
  split; [exact E|]. destruct (resolve_at_component_boundary _ _ _ _ E) as (_ & l1 & m & l2 & H1 & H2 & _).
  exists l1, m, l2. exact (conj H1 H2).
Defined.

Section Mounts.
Import FsObject VFS.

(** unmounting keeps the count of every filesystem equal to the number of
    entries of the mount table it serves; the filesystem is deleted exactly when
    the entry removed was its last one. *)
Theorem unmount_keeps_counts l st path :
  counted l st -> Z.of_nat (length l) < 2 ^ 32 ->
  exists ok l' st', unmount l st path = Some (ok, l', st') /\ counted l' st'
    /\ (ok = true -> exists i m, l !! i = Some m /\ m_path m = skip_slash path /\ l' = delete i l
          /\ (is_Some (filesystems st' !! m_fs m) <-> (0 < served (m_fs m) l')%nat)).
Proof.
  intros Hc Hl. destruct (unmount_counted l st path Hc Hl) as (ok & l' & st' & H1 & H2 & _ & H3). by exists ok, l', st'.
Qed.
End Mounts.

Lemma unmount_keeps_counts_witness :
  exists ok l' st', VFS.unmount [VFS.mkMount "a" 0 1 7] (FsObject.mkState ∅ {[7 := FsObject.mkFilesystem 1 0]}) "/a" = Some (ok, l', st').
Proof.
  destruct (unmount_keeps_counts [VFS.mkMount "a" 0 1 7] (FsObject.mkState ∅ {[7 := FsObject.mkFilesystem 1 0]}) "/a")
    as (ok & l' & st' & H & _).
  - intros fs Hfs. unfold VFS.served in *. simpl in *. rewrite filter_cons in *. simpl in *.
    destruct (decide (7 = fs)) as [<-|]; [|simpl in Hfs; lia]. exists (FsObject.mkFilesystem 1 0). split; reflexivity.
  - simpl. lia.
  - exists ok, l', st'. exact H.
Defined.

(** ** Pipes *)

Module PipeTrace.
Import Pipe Kernel.

(** The bytes written and read so far while the reading end is open; other
    activity of the kernel may happen between the calls. *)
Inductive run : pipe -> list Z -> list Z -> Prop :=
  | run_new fullq emptyq : run (new fullq emptyq) [] []
  | run_write k b w r data n b' k' :
      run b w r -> mReadFileOpen b = true -> write k b data = Some (Return n, b', k') -> run b' (w ++ take n data) r
  | run_read k b w r n data b' k' : run b w r -> read k b n = Some (Return data, b', k') -> run b' w (r ++ data)
  | run_close k b w r b' k' : run b w r -> closeWriteFile k b = Some (b', k') -> run b' w r.

Lemma run_holds b w r : run b w r -> exists l, holds b l /\ w = r ++ l.
Proof.
  induction 1 as [fullq emptyq|k b w r data n b' k' _ (l & Hh & ->) Ho H|k b w r n data b' k' _ (l & Hh & ->) H
    |k b w r b' k' _ (l & Hh & ->) H].
  - exists []. split; [|done]. apply (Ring.rrep_new gBufferSize size_pos).
  - destruct (pipe_write_spec k b l data (Return n) b' k' Hh H) as [(_ & ? & _)|(_ & _ & Hh')]; [congruence|].
    exists (l ++ take n data). split; [done|]. by rewrite app_assoc.
  - destruct (pipe_read_spec k b l n (Return data) b' k' Hh H) as (-> & Hh' & _).
    exists (drop n l). split; [done|]. by rewrite <- app_assoc, take_drop.
  - unfold closeWriteFile in H. apply bind_Some in H as (k1 & _ & [= <- <-]). by exists l.
Qed.

(** a pipe is a first-in first-out stream.  In every run of reads and writes,
    in pieces of any size, the bytes read are a prefix of the bytes accepted from
    the writer, nothing is lost, duplicated or reordered, and at most a buffer full
    of them is still in the pipe; a read from a pipe that holds nothing returns no
    bytes only when the writing end is closed. *)
Theorem pipe_is_fifo b w r :
  run b w r ->
  (exists l, w = r ++ l /\ (length l <= gBufferSize)%nat)
  /\ forall k n b' k', (0 < n)%nat -> read k b n = Some (Return [], b', k') -> mWriteFileOpen b = false /\ w = r.
Proof.
  intros Hr. destruct (run_holds b w r Hr) as (l & Hh & ->). split.
  - exists l. split; [done|]. unfold holds in Hh. destruct Hh. lia.
  - intros k n b' k' Hn H. destruct (pipe_read_spec k b l n (Return []) b' k' Hh H) as (E & _ & Hc & _).
    destruct l as [|x l]; [|by destruct n; simplify_eq/=; lia]. split; [by apply Hc|by rewrite app_nil_r].
Qed.

Lemma pipe_is_fifo_witness : exists l : list Z, [] = [] ++ l /\ (length l <= gBufferSize)%nat.
Proof. exact (proj1 (pipe_is_fifo (new 1 2) [] [] (run_new 1 2))). Defined.

End PipeTrace.
