(* ===== verification/MemoryThms.v ===== *)
(** * Theorems about memory

    The statements about kernel/src/mm: physical pages, the kernel heap, the page
    tables, memory regions and the page-fault handler. *)

From Stdlib Require Import String ZArith Lia Bool Sorted.
From stdpp Require Import base numbers list gmap option.
From S2P Require Import Prelude Interval Phys Virt MemMgr.

Local Open Scope Z_scope.

(** ** Physical pages *)

(** [alloc] hands out a page that nobody had, with one reference and without
    touching another page, and fails only when the count of free pages is zero; the
    count always tells the number of free pages, and giving the page back restores
    every page and the count. *)
Theorem alloc_dealloc_restores N p : Phys.ok N p ->
  match Phys.alloc N p with
  | None => Phys.mFreePages p = 0
  | Some (base, p') => exists i, base = Phys.gPageSize * i /\ 0 <= i < N
      /\ Phys.available (Phys.page p i) = true /\ Phys.page p' i = Phys.mkPage true 1
      /\ (forall j, j <> i -> Phys.page p' j = Phys.page p j)
      /\ Phys.mFreePages p' = Phys.mFreePages p - 1 /\ Phys.ok N p'
      /\ exists p'', Phys.dealloc p' base = Some p'' /\ Phys.ok N p'' /\ forall j, Phys.page p'' j = Phys.page p j
  end.
Proof.
  intros Hok. pose proof (Phys.alloc_spec N p Hok) as H. destruct (Phys.alloc N p) as [[base p']|]; [|done].
  destruct H as (i & -> & Hi & Hav & Hp & Hj & Hf & Hok'). exists i. split_and!; try done; try lia.
  assert (Hix : Phys.index (Phys.gPageSize * i) = i)
    by (unfold Phys.index, Phys.gPageSize; rewrite Z.mul_comm; apply Z.div_mul; lia).
  destruct (Phys.dealloc_spec N p' (Phys.gPageSize * i) Hok') as (p'' & Hd & Hok'' & Hp'' & Hj''); rewrite ?Hix, ?Hp; try done.
  rewrite Hix, Hp in *. exists p''. split_and!; try done. intros j. destruct (decide (j = i)) as [->|Hne].
  - rewrite Hp''. unfold Phys.available, Phys.free in Hav. apply andb_true_iff in Hav as [Hu Hr%Z.eqb_eq].
    simpl. destruct (Phys.page p i); simpl in *. by subst.
  - by rewrite Hj'', Hj.
Qed.

(** Four pages, of which the second and the third exist. *)
Definition small : Phys.pmm := Phys.mkPmm (<[1 := Phys.mkPage true 0]> {[2 := Phys.mkPage true 0]}) 0 2 0 2 2.

Lemma small_ok : Phys.ok 4 small.
Proof.
  assert (H : forall i g, Phys.mPages small !! i = Some g -> (i = 1 \/ i = 2) /\ g = Phys.mkPage true 0).
  { intros i g. simpl. rewrite lookup_insert_Some, lookup_singleton_Some. intros [[<- <-]|[_ [<- <-]]]; auto. }
  split; simpl; try lia.
  - intros i g [[-> | ->] _]%H; lia.
  - intros i g [_ ->]%H. simpl. lia.
  - vm_compute. reflexivity.
Qed.

Lemma alloc_dealloc_restores_witness : exists p', Phys.alloc 4 small = Some (4096, p') /\ Phys.ok 4 p'.
Proof.
  pose proof (alloc_dealloc_restores 4 small small_ok) as H.
  assert (E : Phys.alloc 4 small = Some (4096, Phys.set_free (Phys.set_last (Phys.set_page small 1 (Phys.mkPage true 1)) 1) 1))
    by reflexivity.
  rewrite E in H. destruct H as (i & _ & _ & _ & _ & _ & _ & Hok & _). eexists. exact (conj E Hok).
Defined.

(** the reference count of a page has eight bits and wraps around: one more
    reference to a page that has 255 leaves it with none, so that it counts as free
    while all its users still have it. *)
Theorem page_references_wrap p base :
  Phys.usable (Phys.page p (Phys.index base)) = true -> Phys.refcnt (Phys.page p (Phys.index base)) = 255 ->
  exists p', Phys.alloc_at p base = Some p' /\ Phys.available (Phys.page p' (Phys.index base)) = true
    /\ Phys.refcount p' base = 0.
Proof.
  intros Hu Hr. unfold Phys.alloc_at. rewrite Hu. unfold Phys.incref. rewrite Hr, Hu. eexists. split; [done|].
  unfold Phys.refcount. change (u8 (255 + 1)) with 0. simpl.
  rewrite Phys.page_set, decide_True by done. done.
Qed.

Lemma page_references_wrap_witness :
  exists p', Phys.alloc_at (Phys.set_page small 1 (Phys.mkPage true 255)) 4096 = Some p' /\ Phys.refcount p' 4096 = 0.
Proof.
  destruct (page_references_wrap (Phys.set_page small 1 (Phys.mkPage true 255)) 4096) as (p' & H1 & _ & H2);
    [reflexivity|reflexivity|]. exists p'. exact (conj H1 H2).
Defined.

(** ** Kernel heap *)

(** a growth of the heap that fits below its end and for which every block can
    be had takes exactly the blocks that cover the amount, at consecutive addresses
    from the old end, returns the old end and moves the end behind them. *)
Theorem sbrk_grows {S} blocksize (oneblock : Z -> S -> Z * S) h amount s :
  1 < blocksize < 2 ^ 32 -> (forall a s, (oneblock a s).1 <> 0) ->
  0 < amount -> amount + blocksize <= 2 ^ 32 -> 0 <= Heap.current h ->
  Heap.current h + Heap.round_up blocksize amount < 2 ^ 32 ->
  Heap.current h + Heap.round_up blocksize amount <= Heap.high h + 1 ->
  exists n, Heap.round_up blocksize amount = Z.of_nat n * blocksize
    /\ Heap.sbrk blocksize oneblock h amount s
       = Some (Heap.current h, Heap.mkHeap (Heap.low h) (Heap.high h) (Heap.current h + Z.of_nat n * blocksize),
               Heap.blocks blocksize oneblock n (Heap.current h) s)
    /\ amount <= Z.of_nat n * blocksize < amount + blocksize.
Proof.
  intros Hb1 Hone Ha Hw Hc Hc2 Hhi. assert (Hb : 0 < blocksize < 2 ^ 32) by lia. destruct (Heap.round_up_spec blocksize Hb amount ltac:(lia) Hw) as [Hm Hr].
  set (r := Heap.round_up blocksize amount) in *. exists (Z.to_nat (r / blocksize)).
  assert (Hd : 0 <= r / blocksize) by (apply Z.div_pos; lia).
  assert (Er : r = Z.of_nat (Z.to_nat (r / blocksize)) * blocksize).
  { rewrite Z2Nat.id by done. pose proof (Z.div_mod r blocksize ltac:(lia)). lia. }
  split; [done|]. split; [|lia]. unfold Heap.sbrk. destruct (Z.eqb_spec amount 0); [lia|]. fold r.
  rewrite Er at 2. rewrite (Heap.sbrk_loop_spec blocksize oneblock Hb); [done|done|done|lia|].
  rewrite Z.mul_sub_distr_r, <- Er. lia.
Qed.

Lemma sbrk_grows_witness :
  exists n, Heap.sbrk 4096 (fun _ c => (1, c + 1)) (Heap.new 0x10000 0x1FFFF) 5000 0
    = Some (0x10000, Heap.mkHeap 0x10000 0x1FFFF (0x10000 + Z.of_nat n * 4096), Heap.blocks 4096 (fun _ c => (1, c + 1)) n 0x10000 0).
Proof.
  destruct (sbrk_grows 4096 (fun _ c => (1, c + 1)) (Heap.new 0x10000 0x1FFFF) 5000 0) as (n & _ & H & _);
    try (vm_compute; intuition congruence).
  exists n. exact H.
Defined.

(** rounding a huge amount up to a multiple of the block size wraps to zero, and
    [sbrk] then reports success without having taken any memory. *)
Theorem sbrk_huge_takes_nothing {S} (oneblock : Z -> S -> Z * S) h amount s :
  0xFFFFF000 < amount < 2 ^ 32 -> Heap.sbrk 4096 oneblock h amount s = Some (Heap.current h, h, s).
Proof.
  intros Ha. unfold Heap.sbrk. destruct (Z.eqb_spec amount 0); [lia|].
  assert (E : Heap.round_up 4096 amount = 0).
  { unfold Heap.round_up. assert (Hm : amount mod 4096 = amount - 0xFFFFF000).
    { symmetry. apply (Zmod_unique _ _ 0xFFFFF); lia. }
    rewrite Hm. destruct (Z.eqb_spec (amount - 0xFFFFF000) 0); [lia|].
    replace (amount - (amount - 0xFFFFF000) + 4096) with (2 ^ 32) by lia. reflexivity. }
  rewrite E. reflexivity.
Qed.

Lemma sbrk_huge_takes_nothing_witness :
  Heap.sbrk 4096 (fun _ c => (1, c + 1)) (Heap.new 0x10000 0x1FFFF) 0xFFFFFFFF 0 = Some (0x10000, Heap.new 0x10000 0x1FFFF, 0).
Proof. apply (sbrk_huge_takes_nothing (fun _ c => (1, c + 1)) (Heap.new 0x10000 0x1FFFF) 0xFFFFFFFF 0). lia. Defined.

(** ** Page tables *)

Section Tables.
Import Entry Indices Virt.

Lemma frame_offset ph a : aligned ph -> u32 (ph + offset a) = ph + offset a.
Proof.
  intros [Hu Hl]. change gFlagsBitmask with (Z.ones 12) in Hl. rewrite Z.land_ones in Hl by lia. change (2 ^ 12) with 4096 in Hl.
  rewrite offset_mod. pose proof (Z.mod_pos_bound a 4096 ltac:(lia)). pose proof (Z.div_mod ph 4096 ltac:(lia)).
  apply u32_id. unfold is_u in *. assert (ph / 4096 < 2 ^ 20) by (apply Z.div_lt_upper_bound; lia). lia.
Qed.

(** C10: after [map], every address of the virtual page translates to the same offset
    of the physical page, the options read back are those asked for, the page is
    zeroed if that was asked for, and no other page is translated differently. *)
Theorem map_translates s ph virt o : entries_ok s -> aligned ph -> aligned virt ->
  exists s', map s ph virt o = Some (virt, s')
    /\ (forall a, is_u32 a -> page_of a = virt -> mapping s' a = ph + offset a)
    /\ mapped s' virt default_options = Some (with_clear o false)
    /\ (clear o = true -> frame s' ph = zeroes)
    /\ (forall a, is_u32 a -> page_of a <> virt -> mapping s' a = mapping s a).
Proof.
  intros Hs Hp Hv. destruct (map_spec s ph virt o Hs Hp Hv) as (s' & Hm & [Hok He Hj _ Hf _ _]).
  assert (Hvu : is_u32 virt) by apply Hv. exists s'. split; [done|]. split_and!.
  - intros a Ha Hpg. unfold mapping. rewrite Hpg, (ho_present _ _ _ He), (ho_page _ _ _ He). by apply frame_offset.
  - unfold mapped. rewrite (aligned_page_of virt Hv), (ho_present _ _ _ He). f_equal. apply (ho_options _ _ _ He false).
  - intros Hc. unfold frame. rewrite Hf, Hc. by rewrite lookup_insert_eq.
  - intros a Ha Hne. unfold mapping. rewrite Hj; [done|]. rewrite of_address_page by done. intros E.
    apply slot_page in E; [|done|done]. rewrite (aligned_page_of virt Hv) in E. done.
Qed.
End Tables.

Definition empty_vm : Virt.vm := Virt.mkVm ∅ small ∅ true 0 0x8000 0x9000 [].

Lemma map_translates_witness : exists s', Virt.map empty_vm 0x1000 0x5000 Virt.userspace_options = Some (0x5000, s').
Proof.
  destruct (map_translates empty_vm 0x1000 0x5000 Virt.userspace_options) as (s' & H & _).
  - intros k v Hk. simpl in Hk. rewrite lookup_empty in Hk. discriminate Hk.
  - split; [unfold is_u; lia|reflexivity].
  - split; [unfold is_u; lia|reflexivity].
  - exists s'. exact H.
Defined.

(** ** Regions *)

(** a region found for a process consists of whole pages, covers the size asked
    for, lies above page zero and below the kernel, overlaps no region the process
    has, and adding it keeps the regions in order, disjoint and page aligned. *)
Theorem region_found_is_fresh m sz r perm :
  MemMgr.ok m -> 0 <= sz <= 2 ^ 30 -> MemMgr.findRegionImpl m sz = Some r ->
  MemMgr.page_sized (MemMgr.range r) /\ MemMgr.in_user_space (MemMgr.range r)
  /\ sz <= Interval.to (MemMgr.range r) - Interval.from (MemMgr.range r) + 1 < sz + 4096
  /\ (forall r', r' ∈ MemMgr.mRegions m -> Interval.disjoint (MemMgr.range r) (MemMgr.range r'))
  /\ MemMgr.ok (MemMgr.addRegion m (MemMgr.with_permission r perm)).2.
Proof.
  intros Hok Hsz Hr. destruct (MemMgr.findRegion_spec m sz r Hok Hsz Hr) as ((Hwf & Hs & _ & Hd) & Hp & Hu).
  destruct (MemMgr.toPage_spec sz) as [_ Hb]; [lia|unfold Virt.gPageSize; lia|]. unfold Virt.gPageSize in Hb.
  split_and!; try done; try lia.
  - intros r' Hr'. rewrite list.Forall_forall in Hd. apply Hd. by apply list_elem_of_fmap_2.
  - by apply MemMgr.addRegion_ok.
Qed.

Lemma region_found_is_fresh_witness :
  MemMgr.ok (MemMgr.addRegion MemMgr.new (MemMgr.with_permission (MemMgr.region 0x1000 0x2FFF Virt.kernel_options) Virt.userspace_options)).2.
Proof.
  apply (region_found_is_fresh MemMgr.new 5000 (MemMgr.region 0x1000 0x2FFF Virt.kernel_options) Virt.userspace_options).
  - exact MemMgr.new_ok.
  - lia.
  - reflexivity.
Defined.

(** ** Copy on write *)

Section Cow.
Import Entry Indices Virt Fault.


(** Page 5 is shared copy-on-write, frame 1 has two users and frame 2 is free. *)
Definition shared_vm : vm :=
  mkVm {[(0, 5) := 0x1605]} (Phys.mkPmm (<[1 := Phys.mkPage true 2]> {[2 := Phys.mkPage true 0]}) 0 2 0 2 1)
       {[0x1000 := [1; 2; 3]]} true 0 0x8000 0x9000 [].

Lemma shared_clonable : clonable 4 shared_vm (page_of 0x5010) 0x1000 (mkIndices 0 8).
Proof.
  assert (Hp : forall i g, Phys.mPages (phys shared_vm) !! i = Some g -> (i = 1 /\ g = Phys.mkPage true 2) \/ (i = 2 /\ g = Phys.mkPage true 0)).
  { intros i g. simpl. rewrite lookup_insert_Some, lookup_singleton_Some. intros [[<- <-]|[_ [<- <-]]]; auto. }
  split; try reflexivity.
  - intros k v Hk. simpl in Hk. apply lookup_singleton_Some in Hk as [_ <-]. unfold is_u. lia.
  - split; simpl; try lia.
    + intros i g [[-> _]|[-> _]]%Hp; lia.
    + intros i g [[_ ->]|[_ ->]]%Hp; simpl; lia.
    + vm_compute. reflexivity.
  - lia.
  - change (page_of 0x5010) with 0x5000. split; [unfold is_u; lia|reflexivity].
  - split; [unfold wf; simpl; lia|reflexivity].
Qed.

End Cow.
