(* ===== verification/SyscallThms.v ===== *)
(** * Theorems on system calls

    The check of a memory range decides what it promises as long as the range does
    not wrap, and accepts any range that does; descriptors and references to open
    files agree after every sequence of calls; a process cannot give priorities
    above the maximum. *)

From stdpp Require Import base numbers list gmap option strings.
From Stdlib Require Import ZArith Lia.
From S2P Require Import Prelude Tables Interval Phys Virt Files Kernel Lifecycle MemMgr Syscalls.

Local Open Scope Z_scope.

(** ** Memory ranges *)

Module RangeSpec.
Import Abi Virt MemCalls.

Lemma check_loop_spec checkf fuel : forall i j,
  0 <= i -> 0 <= j < 2 ^ 20 - 1 -> i <= j + 1 -> (Z.to_nat (j + 1 - i) <= fuel)%nat ->
  exists b, check_loop fuel checkf (4096 * i) (4096 * j) = Some b
    /\ (b = true <-> forall k, i <= k <= j -> checkf (4096 * k) = true).
Proof.
  induction fuel as [|fuel IH]; intros i j Hi Hj Hij Hf; cbn [check_loop].
  - destruct (Z.ltb_spec (4096 * j) (4096 * i)); [|lia]. exists true. split; [done|]. split; [lia|done].
  - destruct (Z.ltb_spec (4096 * j) (4096 * i)).
    { exists true. split; [done|]. split; [lia|done]. }
    destruct (checkf (4096 * i)) eqn:Ec.
    + rewrite u32_id by (unfold is_u, gPageSize; lia).
      replace (4096 * i + gPageSize) with (4096 * (i + 1)) by (unfold gPageSize; lia).
      destruct (IH (i + 1) j) as (b & Hb & Hiff); [lia..|]. exists b. split; [done|]. rewrite Hiff.
      split; intros Hall k Hk; [|apply Hall; lia]. destruct (decide (k = i)) as [->|]; [done|]. apply Hall. lia.
    + exists false. split; [done|]. split; [done|]. intros Hall. rewrite (Hall i) in Ec by lia. done.
Qed.

Lemma checkPageRange_spec checkf address sz :
  is_u32 address -> 0 < sz -> address + sz <= 0xFFFFF000 ->
  exists b, checkPageRange address sz checkf = Some b
    /\ (b = true <-> forall a, address <= a < address + sz -> checkf (page_of a) = true).
Proof.
  intros Ha Hs Hend. unfold is_u in Ha.
  assert (Hp : forall a, address <= a < address + sz -> page_of a = 4096 * (a / 4096)).
  { intros a Hr. apply page_of_div. unfold is_u. lia. }
  assert (Hstop : stop_of address sz = address + sz - 1).
  { unfold stop_of. rewrite !u32_id; unfold is_u; rewrite ?u32_id by (unfold is_u; lia); lia. }
  unfold checkPageRange, isSamePage. rewrite Hstop, !Hp by lia.
  assert (Hle : address / 4096 <= (address + sz - 1) / 4096) by (apply Z.div_le_mono; lia).
  assert (Hpage : forall k, address / 4096 <= k <= (address + sz - 1) / 4096 ->
    exists a, address <= a < address + sz /\ a / 4096 = k).
  { intros k Hk. exists (Z.max address (4096 * k)).
    pose proof (Z.div_mod address 4096 ltac:(lia)). pose proof (Z.mod_pos_bound address 4096 ltac:(lia)).
    pose proof (Z.div_mod (address + sz - 1) 4096 ltac:(lia)).
    pose proof (Z.mod_pos_bound (address + sz - 1) 4096 ltac:(lia)).
    split; [lia|]. destruct (Z.max_spec address (4096 * k)) as [[? ->]|[? ->]].
    - rewrite Z.mul_comm. apply Z.div_mul. lia.
    - lia. }
  assert (Hall : (forall k, address / 4096 <= k <= (address + sz - 1) / 4096 -> checkf (4096 * k) = true)
    <-> (forall a, address <= a < address + sz -> checkf (page_of a) = true)).
  { split.
    - intros H a Hr. rewrite Hp by done. apply H. split; apply Z.div_le_mono; lia.
    - intros H k Hk. destruct (Hpage k Hk) as (a & Hr & <-). rewrite <- Hp by done. by apply H. }
  destruct (Z.eqb_spec (4096 * (address / 4096)) (4096 * ((address + sz - 1) / 4096))) as [He|He].
  - eexists. split; [done|]. rewrite <- Hall. split.
    + intros H k Hk. by replace k with (address / 4096) by lia.
    + intros H. apply H. lia.
  - destruct (check_loop_spec checkf (Z.to_nat numPages) (address / 4096) ((address + sz - 1) / 4096))
      as (b & Hb & Hiff).
    + apply Z.div_pos; lia.
    + split; [apply Z.div_pos; lia|]. apply Z.div_lt_upper_bound; lia.
    + lia.
    + unfold numPages. pose proof (Z.div_pos address 4096 ltac:(lia) ltac:(lia)).
      assert ((address + sz - 1) / 4096 < 2 ^ 20) by (apply Z.div_lt_upper_bound; lia). lia.
    + exists b. split; [done|]. by rewrite <- Hall.
Qed.

End RangeSpec.

Import RangeSpec.

(** C30: the range checks of the kernel decide what they promise.  For a range that
    is not empty and ends below the last page, [vmcheckwritable] and
    [vmcheckreadable] return, and they return OK exactly when every byte of the
    range is on a page that the user may write or read; for a range that wraps
    around the end of the address space to a lower page, however, both return OK
    whatever is mapped. *)
Theorem range_check_decides s address sz :
  is_u32 address -> is_u32 sz -> 0 < sz ->
  (address + sz <= 0xFFFFF000 ->
     exists r w, MemCalls.vmcheckreadable s address sz = Some r /\ MemCalls.vmcheckwritable s address sz = Some w
       /\ (r = Abi.OK <-> forall a, address <= a < address + sz -> MemCalls.isPageReadable s (Virt.page_of a) = true)
       /\ (w = Abi.OK <-> forall a, address <= a < address + sz -> MemCalls.isPageWritable s (Virt.page_of a) = true))
  /\ (2 ^ 32 < address + sz -> Virt.page_of (address + sz - 1 - 2 ^ 32) < Virt.page_of address ->
     MemCalls.vmcheckreadable s address sz = Some Abi.OK /\ MemCalls.vmcheckwritable s address sz = Some Abi.OK).
Proof.
  intros Ha Hs Hpos. split.
  - intros Hend. unfold MemCalls.vmcheckreadable, MemCalls.vmcheckwritable.
    destruct (checkPageRange_spec (MemCalls.isPageReadable s) address sz) as (r & -> & Hr); [done..|].
    destruct (checkPageRange_spec (MemCalls.isPageWritable s) address sz) as (w & -> & Hw); [done..|].
    cbn [mbind option_bind]. eexists _, _. split_and!; [done|done|rewrite <- Hr|rewrite <- Hw].
    + by destruct r.
    + by destruct w.
  - intros Hwrap Hlt. unfold is_u in Ha, Hs.
    assert (Hstop : MemCalls.stop_of address sz = address + sz - 1 - 2 ^ 32).
    { unfold MemCalls.stop_of, u32, wrap. rewrite <- (Z_mod_plus_full (address + sz) (-1) (2 ^ 32)).
      rewrite (Z.mod_small (address + sz + -1 * 2 ^ 32)) by lia. rewrite Z.mod_small; lia. }
    assert (Hchk : forall f, MemCalls.checkPageRange address sz f = Some true).
    { intros f. unfold MemCalls.checkPageRange, MemCalls.isSamePage. rewrite Hstop.
      destruct (Z.eqb_spec (Virt.page_of address) (Virt.page_of (address + sz - 1 - 2 ^ 32))); [lia|].
      destruct (Z.to_nat MemCalls.numPages); cbn [MemCalls.check_loop];
        by destruct (Z.ltb_spec (Virt.page_of (address + sz - 1 - 2 ^ 32)) (Virt.page_of address)); [|lia]. }
    unfold MemCalls.vmcheckreadable, MemCalls.vmcheckwritable. by rewrite !Hchk.
Qed.

(** An address space with nothing in it *)
Definition bare_vm : Virt.vm := Virt.mkVm ∅ (Phys.mkPmm ∅ 0 0 0 0 0) ∅ true 0 0x8000 0x9000 [].

Lemma range_check_decides_witness :
  (exists r, MemCalls.vmcheckreadable bare_vm 0x1800 0x1000 = Some r)
  /\ MemCalls.vmcheckwritable bare_vm 0xC0000000 0x50000000 = Some Abi.OK.
Proof.
  split.
  - destruct (range_check_decides bare_vm 0x1800 0x1000) as [H _]; [by vm_compute..|lia|].
    destruct H as (r & w & Hr & _); [lia|]. by exists r.
  - apply (range_check_decides bare_vm 0xC0000000 0x50000000); [by vm_compute..|lia|lia|by vm_compute].
Defined.

(** ** Descriptors and references *)

Module FdSpec.
Import Abi FsObject FsCalls.

Definition bump (others : Z -> nat) (o x : Z) : nat := if decide (x = o) then S (others x) else others x.

(** The descriptors of a table that refer to an object *)
Definition refs (t : Handletable.table handle) (o : Z) : nat :=
  length (filter (fun i => h_object <$> Handletable.lookup t i = Some o) (seq 0 gNumDescriptors)).

Lemma filter_ext_in (P Q : nat -> Prop) `{!forall i, Decision (P i), !forall i, Decision (Q i)} (l : list nat) :
  (forall j, j ∈ l -> P j <-> Q j) -> filter P l = filter Q l.
Proof.
  induction l as [|x l IH]; intros Hl; [done|]. rewrite !filter_cons, IH by (intros; apply Hl; by constructor).
  assert (P x <-> Q x) by (apply Hl; by constructor). repeat case_decide; tauto || done.
Qed.

Lemma filter_point (P Q : nat -> Prop) `{!forall i, Decision (P i), !forall i, Decision (Q i)} i n :
  (i < n)%nat -> (forall j, j <> i -> P j <-> Q j) -> ~ P i ->
  length (filter Q (seq 0 n)) = (length (filter P (seq 0 n)) + (if decide (Q i) then 1 else 0))%nat.
Proof.
  intros Hi Hother Hp. replace n with (i + (1 + (n - i - 1)))%nat by lia. rewrite !seq_app, !list.filter_app, !length_app.
  cbn [seq]. replace (0 + i)%nat with i by lia. rewrite !filter_cons, !filter_nil. rewrite (decide_False (P := P i)) by done.
  assert (Hext : forall a k, (forall j, (a <= j < a + k)%nat -> j <> i) -> filter P (seq a k) = filter Q (seq a k)).
  { intros a k Hk. apply filter_ext_in. intros j Hj%elem_of_seq. apply Hother. by apply Hk. }
  rewrite (Hext 0%nat i) by lia. rewrite (Hext (i + 1)%nat) by lia. case_decide; simpl; lia.
Qed.

Lemma refs_bound t o : (refs t o <= 64)%nat.
Proof. unfold refs. etrans; [apply length_filter|]. by rewrite length_seq. Qed.

(** A descriptor more *)
Lemma refs_insert t t' i h o : (i < gNumDescriptors)%nat -> Handletable.lookup t i = None ->
  (forall j, Handletable.lookup t' j = if decide (i = j) then Some h else Handletable.lookup t j) ->
  refs t' o = (refs t o + (if decide (h_object h = o) then 1 else 0))%nat.
Proof.
  intros Hi Hn Hl. unfold refs. rewrite (filter_point (fun i => h_object <$> Handletable.lookup t i = Some o)
    (fun i => h_object <$> Handletable.lookup t' i = Some o) i); [|done| |by rewrite Hn].
  - f_equal. assert (Hi' : Handletable.lookup t' i = Some h) by (rewrite Hl; by rewrite decide_True).
    rewrite Hi'. simpl. repeat case_decide; naive_solver.
  - intros j Hj. by rewrite Hl, decide_False.
Qed.

(** A descriptor less *)
Lemma refs_remove t t' i h o : (i < gNumDescriptors)%nat -> Handletable.lookup t i = Some h ->
  (forall j, Handletable.lookup t' j = if decide (i = j) then None else Handletable.lookup t j) ->
  refs t o = (refs t' o + (if decide (h_object h = o) then 1 else 0))%nat.
Proof.
  intros Hi Hn Hl. unfold refs. rewrite (filter_point (fun i => h_object <$> Handletable.lookup t' i = Some o)
    (fun i => h_object <$> Handletable.lookup t i = Some o) i); [|done| |].
  - f_equal. rewrite Hn. simpl. repeat case_decide; naive_solver.
  - intros j Hj. by rewrite Hl, decide_False.
  - by rewrite Hl, decide_True.
Qed.

Section Inv.
Context {W : Type} (home : Z -> Z).
Implicit Types (s : @fstate W) (others : Z -> nat).

(** The live objects of a filesystem *)
Definition live (st : state) (fs : Z) : nat := size (filter (fun p => home p.1 = fs) (objects st)).

(** [others]: the references that are not in the table of this process *)
Record inv others s : Prop := mkInv {
  i_table : Handletable.ok gNumDescriptors (f_fds s);
  i_handles i h : Handletable.lookup (f_fds s) i = Some h -> handle_ok h = true /\ h_filesystem h = home (h_object h);
  i_refs o : match objects (f_st s) !! o with
             | Some ob => mRefcount ob = Z.of_nat (refs (f_fds s) o + others o) /\ 0 < mRefcount ob
             | None => (refs (f_fds s) o + others o = 0)%nat
             end;
  i_home o ob : objects (f_st s) !! o = Some ob -> is_Some (filesystems (f_st s) !! home o);
  i_open fs f : filesystems (f_st s) !! fs = Some f -> mOpenObjcts f = Z.of_nat (live (f_st s) fs);
}.

Definition same_filesystems (st st' : state) : Prop :=
  forall fs, is_Some (filesystems st' !! fs) <-> is_Some (filesystems st !! fs).

Lemma live_objects st st' fs : objects st = objects st' -> live st fs = live st' fs.
Proof. unfold live. by intros ->. Qed.

Lemma live_insert st o ob fs : objects st !! o = None ->
  live (put_object st o ob) fs = (live st fs + (if decide (home o = fs) then 1 else 0))%nat.
Proof.
  intros Hn. unfold live. cbn [put_object objects]. case_decide as Hh.
  - rewrite map_filter_insert_True by done. rewrite map_size_insert_None; [lia|]. apply map_lookup_filter_None. by left.
  - rewrite map_filter_insert_False by done. rewrite delete_id by done. lia.
Qed.

Lemma live_update st o ob ob' fs : objects st !! o = Some ob -> live (put_object st o ob') fs = live st fs.
Proof.
  intros Ho. unfold live. cbn [put_object objects]. destruct (decide (home o = fs)) as [Hh|Hh].
  - rewrite map_filter_insert_True by done. apply map_size_insert_Some. exists ob. by apply map_lookup_filter_Some.
  - rewrite map_filter_insert_False by done. rewrite map_filter_delete. rewrite delete_id; [done|].
    apply map_lookup_filter_None. right. intros x Hx. done.
Qed.

Lemma live_delete st o ob fsm fs : objects st !! o = Some ob ->
  live st fs = (live (mkState (delete o (objects st)) fsm) fs + (if decide (home o = fs) then 1 else 0))%nat.
Proof.
  intros Ho. unfold live. cbn [objects]. rewrite map_filter_delete. case_decide as Hh.
  - rewrite map_size_delete_Some; [|exists ob; by apply map_lookup_filter_Some].
    enough (size (filter (λ p : Z * object, home p.1 = fs) (objects st)) ≠ 0%nat) by lia.
    apply map_size_ne_0_lookup. exists o. exists ob. by apply map_lookup_filter_Some.
  - rewrite delete_id; [lia|]. apply map_lookup_filter_None. right. intros x Hx. done.
Qed.

Lemma live_le st fs : (live st fs <= size (objects st))%nat.
Proof. unfold live. apply map_size_filter. Qed.

(** A new object, referred to by the handle [open] returns *)
Lemma inv_open others s fs o kind : inv others s -> is_Some (filesystems (f_st s) !! fs) ->
  o <> 0 -> objects (f_st s) !! o = None -> home o = fs -> Z.of_nat (size (objects (f_st s))) + 1 < 2 ^ 64 ->
  exists st', open (f_st s) fs (Some (o, kind)) = Some (o, st')
    /\ inv (bump others o) (mkF st' (f_fds s) (f_world s)) /\ same_filesystems (f_st s) st'
    /\ (size (objects st') <= S (size (objects (f_st s))))%nat.
Proof.
  intros Hinv [f Hf] Ho Hn Hh Hsz. unfold open, openObject. cbn [put_object filesystems]. rewrite Hf.
  cbn [mbind option_bind]. eexists. split; [done|].
  pose proof (i_refs _ _ Hinv) as Hr. pose proof (live_le (f_st s) fs).
  split; [|split; [intros x; cbn [put_fs filesystems]; rewrite lookup_insert_is_Some; destruct (decide (fs = x)); naive_solver|]].
  2: { cbn [put_fs put_object objects]. rewrite map_size_insert_None by done. lia. }
  constructor; cbn [f_fds f_st f_world put_fs put_object objects filesystems].
  - apply (i_table _ _ Hinv).
  - apply (i_handles _ _ Hinv).
  - intros x. specialize (Hr x). unfold bump. destruct (decide (x = o)) as [->|Hx].
    + rewrite lookup_insert_eq. rewrite Hn in Hr. cbn [mRefcount]. lia.
    + rewrite lookup_insert_ne by done. done.
  - intros x ob. destruct (decide (x = o)) as [->|Hx].
    + intros _. rewrite Hh, lookup_insert_is_Some. by left.
    + rewrite lookup_insert_ne by done. intros Hx'%(i_home _ _ Hinv). rewrite lookup_insert_is_Some.
      destruct (decide (fs = home x)); naive_solver.
  - intros x f'. rewrite (live_objects _ (put_object (f_st s) o (mkObject 1 kind))) by done. rewrite live_insert by done.
    destruct (decide (fs = x)) as [->|Hx].
    + rewrite lookup_insert_eq. intros [= <-]. cbn [mOpenObjcts]. rewrite (i_open _ _ Hinv _ _ Hf).
      rewrite u64_id by (unfold is_u; lia). rewrite decide_True by done. lia.
    + rewrite lookup_insert_ne by done. intros Hf'. rewrite (i_open _ _ Hinv _ _ Hf').
      rewrite decide_False by congruence. lia.
Qed.

(** One reference more to an object that is alive *)
Lemma inv_incref others s o ob : inv others s -> objects (f_st s) !! o = Some ob ->
  Z.of_nat (others o) + 64 < UINT32_MAX ->
  exists n st', incref (f_st s) o = Some (n, st') /\ inv (bump others o) (mkF st' (f_fds s) (f_world s))
    /\ same_filesystems (f_st s) st' /\ size (objects st') = size (objects (f_st s)).
Proof.
  intros Hinv Ho Hb. unfold incref. rewrite Ho. cbn [mbind option_bind].
  pose proof (i_refs _ _ Hinv) as Hr. pose proof (refs_bound (f_fds s) o) as Hrb.
  assert (Hinc : inc_wanted (mRefcount ob) = mRefcount ob + 1).
  { unfold inc_wanted. destruct (Z.eqb_spec (mRefcount ob) UINT32_MAX); [|done]. specialize (Hr o).
    rewrite Ho in Hr. lia. }
  rewrite Hinc. eexists _, _. split; [done|]. split; [|split; [done|]].
  2: { cbn [put_object objects]. apply map_size_insert_Some. eauto. }
  constructor; cbn [f_fds f_st f_world put_object objects filesystems].
  - apply (i_table _ _ Hinv).
  - apply (i_handles _ _ Hinv).
  - intros x. specialize (Hr x). unfold bump. destruct (decide (x = o)) as [->|Hx].
    + rewrite lookup_insert_eq. rewrite Ho in Hr. cbn [mRefcount]. lia.
    + by rewrite lookup_insert_ne.
  - intros x ob'. destruct (decide (x = o)) as [->|Hx].
    + intros _. by apply (i_home _ _ Hinv o ob).
    + rewrite lookup_insert_ne by done. apply (i_home _ _ Hinv).
  - intros x f'. rewrite (live_update _ o ob) by done. apply (i_open _ _ Hinv).
Qed.

(** The handle goes into the table. *)
Lemma inv_set others s h idx0 : inv (bump others (h_object h)) s ->
  handle_ok h = true -> h_filesystem h = home (h_object h) ->
  exists r t', Handletable.set gNumDescriptors (f_fds s) h idx0 = Some (r, t')
    /\ match r with
       | Some _ => inv others (mkF (f_st s) t' (f_world s))
       | None => inv (bump others (h_object h)) (mkF (f_st s) t' (f_world s))
                 /\ forall j, (j < gNumDescriptors)%nat -> is_Some (Handletable.lookup (f_fds s) j)
       end.
Proof.
  intros Hinv Hok Hh.
  destruct (Handletable.handle_set_spec gNumDescriptors ltac:(unfold gNumDescriptors; lia) (f_fds s) h idx0
    (i_table _ _ Hinv)) as (r & t' & Hs & Hok' & Hr).
  exists r, t'. split; [done|]. destruct r as [i|].
  - destruct Hr as (Hi & Hn & Hl & _). constructor; cbn [f_fds f_st f_world].
    + done.
    + intros j h'. rewrite Hl. case_decide; [by intros [= <-]|apply (i_handles _ _ Hinv)].
    + intros o. pose proof (i_refs _ _ Hinv o) as Hr. rewrite (refs_insert _ _ i h o Hi Hn Hl).
      unfold bump in Hr. destruct (objects (f_st s) !! o); repeat case_decide; subst; try congruence; lia.
    + apply (i_home _ _ Hinv).
    + apply (i_open _ _ Hinv).
  - destruct Hr as [-> Hfull]. split; [|done]. by destruct s.
Qed.

(** A descriptor is cleared; its reference is now the caller's. *)
Lemma inv_clear others s i h : inv others s -> (i < gNumDescriptors)%nat -> Handletable.lookup (f_fds s) i = Some h ->
  inv (bump others (h_object h)) (mkF (f_st s) (Handletable.clear (f_fds s) i) (f_world s)).
Proof.
  intros Hinv Hi Hl.
  destruct (Handletable.handle_clear_spec gNumDescriptors (f_fds s) i (i_table _ _ Hinv)) as [Hok Hc].
  constructor; cbn [f_fds f_st f_world].
  - done.
  - intros j h'. rewrite Hc. case_decide; [done|apply (i_handles _ _ Hinv)].
  - intros o. pose proof (i_refs _ _ Hinv o) as Hr. rewrite (refs_remove _ _ i h o Hi Hl Hc) in Hr.
    unfold bump. destruct (objects (f_st s) !! o); repeat case_decide; subst; try congruence; lia.
  - apply (i_home _ _ Hinv).
  - apply (i_open _ _ Hinv).
Qed.

(** The caller gives its reference back. *)
Lemma inv_close others s h : inv (bump others (h_object h)) s -> handle_ok h = true ->
  h_filesystem h = home (h_object h) -> Z.of_nat (size (objects (f_st s))) < 2 ^ 64 ->
  exists st', handle_close (f_st s) h = Some st' /\ inv others (mkF st' (f_fds s) (f_world s))
    /\ same_filesystems (f_st s) st' /\ (size (objects st') <= size (objects (f_st s)))%nat.
Proof.
  intros Hinv Hok Hh Hsz. unfold handle_close. rewrite Hok. set (o := h_object h) in *. rewrite Hh.
  pose proof (i_refs _ _ Hinv) as Hr. pose proof (Hr o) as Hro. unfold bump in Hro. rewrite decide_True in Hro by done.
  destruct (objects (f_st s) !! o) as [ob|] eqn:Eo; [|lia].
  destruct (i_home _ _ Hinv o ob Eo) as [f Hf]. pose proof (i_open _ _ Hinv _ _ Hf) as Hop.
  destruct (decide (1 < mRefcount ob)) as [Hm|Hm].
  - rewrite (close_more _ _ o ob) by done. eexists. split; [done|]. split; [|split; [done|]].
    2: { cbn [put_object objects]. rewrite map_size_insert_Some by eauto. lia. }
    constructor; cbn [f_fds f_st f_world put_object objects filesystems].
    + apply (i_table _ _ Hinv).
    + apply (i_handles _ _ Hinv).
    + intros x. specialize (Hr x). unfold bump in Hr. destruct (decide (x = o)) as [->|Hx].
      * rewrite lookup_insert_eq. cbn [mRefcount]. lia.
      * by rewrite lookup_insert_ne.
    + intros x ob'. destruct (decide (x = o)) as [->|Hx]; [intros _; by apply (i_home _ _ Hinv o ob)|].
      rewrite lookup_insert_ne by done. apply (i_home _ _ Hinv).
    + intros x f'. rewrite (live_update _ o ob) by done. apply (i_open _ _ Hinv).
  - pose proof (live_delete (f_st s) o ob (filesystems (f_st s)) (home o) Eo) as Hld. rewrite decide_True in Hld by done.
    pose proof (live_le (f_st s) (home o)).
    rewrite (close_last _ _ o ob f) by (done || lia). eexists. split; [done|]. split; [|split].
    3: { cbn [objects]. rewrite map_size_delete_Some by eauto. lia. }
    2: { intros x. cbn [filesystems]. rewrite lookup_insert_is_Some. destruct (decide (home o = x)); naive_solver. }
    constructor; cbn [f_fds f_st f_world objects filesystems].
    + apply (i_table _ _ Hinv).
    + apply (i_handles _ _ Hinv).
    + intros x. specialize (Hr x). unfold bump in Hr. destruct (decide (x = o)) as [->|Hx].
      * rewrite lookup_delete_eq. lia.
      * by rewrite lookup_delete_ne.
    + intros x ob'. destruct (decide (x = o)) as [->|Hx]; [by rewrite lookup_delete_eq|].
      rewrite lookup_delete_ne by done. intros Hx'%(i_home _ _ Hinv). rewrite lookup_insert_is_Some.
      destruct (decide (home o = home x)); naive_solver.
    + intros x f'. pose proof (live_delete (f_st s) o ob (<[home o:=mkFilesystem (fsRefcount f) (mOpenObjcts f - 1)]> (filesystems (f_st s))) x Eo) as Hl.
      destruct (decide (home o = x)) as [Hx|Hx].
      * subst x. rewrite lookup_insert_eq. intros [= <-]. cbn [mOpenObjcts].
        lia.
      * rewrite lookup_insert_ne by done. intros Hf'. rewrite (i_open _ _ Hinv _ _ Hf'). lia.
Qed.

End Inv.

(** ** Sequences of calls *)

Inductive call :=
  | Open (path : option string) (mode : Z) | Opendir (path : option string) | Close (fid : Z) | Dup (fid minNewFid : Z).

(** The descriptors a call names are below the size of the table. *)
Definition in_table (c : call) : Prop :=
  match c with
  | Close fid => 0 <= fid < 64
  | Dup fid _ => 0 <= fid < 64
  | _ => True
  end.

Definition takes_descriptor (c : call) : bool := match c with Close _ => false | _ => true end.

Definition full (t : Handletable.table handle) : bool :=
  forallb (fun i => bool_decide (is_Some (Handletable.lookup t i))) (seq 0 gNumDescriptors).

Section Run.
Context {W : Type} (home : Z -> Z).
Context (mounts : list VFS.mount_t) (gVFSFilesystem : Z).
Context (doOpen : state -> Z -> string -> Z -> option (Z * Z)) (doOpendir : state -> Z -> string -> option (Z * Z)).
Implicit Types (s : @fstate W) (others : Z -> nat).

Definition run1 s (c : call) : option (Z * @fstate W) :=
  match c with
  | Open path mode => fopen mounts doOpen s path mode
  | Opendir path => fopendir mounts gVFSFilesystem doOpendir s path
  | Close fid => fclose s fid
  | Dup fid m => fdup s fid m
  end.

(** The results, whether a call found the table full, and the state *)
Fixpoint run s (cs : list call) : option (list Z * bool * @fstate W) :=
  match cs with
  | [] => Some ([], false, s)
  | c :: cs =>
      '(r, s') ← run1 s c;
      '(rs, leaked, s'') ← run s' cs;
      Some (r :: rs, (takes_descriptor c && full (f_fds s)) || leaked, s'')
  end.

(** The mounted filesystems, and the filesystem of the root directory, exist. *)
Definition mounted (st : state) : Prop :=
  (forall m, m ∈ mounts -> VFS.m_fs m <> 0 /\ is_Some (filesystems st !! VFS.m_fs m))
  /\ gVFSFilesystem <> 0 /\ is_Some (filesystems st !! gVFSFilesystem).

(** A filesystem opens new objects of its own. *)
Definition opens_fresh : Prop :=
  (forall st fs p m o k, doOpen st fs p m = Some (o, k) -> o <> 0 /\ objects st !! o = None /\ home o = fs)
  /\ (forall st fs p o k, doOpendir st fs p = Some (o, k) -> o <> 0 /\ objects st !! o = None /\ home o = fs).

(** The counters do not reach their ends within [n] calls. *)
Definition room (n : nat) others s : Prop :=
  (forall o, Z.of_nat (others o) + 64 + Z.of_nat n < UINT32_MAX)
  /\ Z.of_nat (size (objects (f_st s))) + Z.of_nat n < 2 ^ 64.

Context (Hfresh : opens_fresh).

(** What a call does to the invariant: nothing, or a reference more that no
    descriptor has, when the table was full. *)
Definition stepped others s (c : call) s' : Prop :=
  same_filesystems (f_st s) (f_st s') /\ (size (objects (f_st s')) <= S (size (objects (f_st s))))%nat
  /\ (inv home others s' \/ takes_descriptor c && full (f_fds s) = true /\ exists o, inv home (bump others o) s').

Lemma full_table_spec (t : Handletable.table handle) :
  (forall j, (j < gNumDescriptors)%nat -> is_Some (Handletable.lookup t j)) -> full t = true.
Proof.
  intros H. unfold full. apply forallb_forall. intros j Hj%in_seq. apply bool_decide_eq_true_2, H. lia.
Qed.

Lemma new_descriptor_step others s fs o kind c : takes_descriptor c = true ->
  inv home others s -> room 1 others s -> fs <> 0 -> is_Some (filesystems (f_st s) !! fs) ->
  o <> 0 -> objects (f_st s) !! o = None -> home o = fs ->
  exists r s', ('(o, st) ← open (f_st s) fs (Some (o, kind)); new_descriptor s (mkHandle fs o 0) st) = Some (r, s')
    /\ stepped others s c s'.
Proof.
  intros Hc Hinv [_ Hroom] Hfs Hf Ho Hn Hh.
  destruct (inv_open home others s fs o kind) as (st' & Hop & Hinv' & Hsame & Hsz); [done..|lia|].
  rewrite Hop. cbn [mbind option_bind]. unfold new_descriptor. cbn [h_filesystem h_object].
  destruct (Z.eqb_spec fs 0); [done|]. destruct (Z.eqb_spec o 0); [done|]. cbn [orb].
  destruct (inv_set home others _ (mkHandle fs o 0) 0 Hinv') as (r & t' & Hset & Hr).
  { unfold handle_ok. cbn [h_filesystem h_object]. destruct (Z.eqb_spec fs 0); [done|]. by destruct (Z.eqb_spec o 0). }
  { done. }
  cbn [f_fds] in Hset. rewrite Hset. cbn [mbind option_bind]. eexists _, _. split; [done|].
  split; [done|]. split; [done|]. destruct r as [i|]; [by left|]. right. destruct Hr as [Hr Hfull].
  split; [|by exists o]. rewrite Hc. by apply full_table_spec.
Qed.

Lemma no_file_step others s c : inv home others s ->
  exists r s', new_descriptor s (mkHandle 0 0 0) (f_st s) = Some (r, s') /\ stepped others s c s'.
Proof. intros Hinv. eexists _, s. split; [by destruct s|]. split; [done|]. split; [lia|by left]. Qed.

Lemma getfs_in root fs rest : VFS.getfs mounts root = Some (fs, rest) -> exists m, m ∈ mounts /\ VFS.m_fs m = fs.
Proof.
  unfold VFS.getfs. destruct root as [[|c r]|]; [done| |done].
  intros (l1 & m & l2 & -> & Hm & _)%VFS.getfs_loop_spec. exists m. split; [|done]. apply elem_of_app. right. left.
Qed.

(** Opening with what a filesystem found, or did not *)
Lemma opened_step others s fs found c : takes_descriptor c = true ->
  inv home others s -> room 1 others s -> fs <> 0 -> is_Some (filesystems (f_st s) !! fs) ->
  (forall o k, found = Some (o, k) -> o <> 0 /\ objects (f_st s) !! o = None /\ home o = fs) ->
  exists r s', ('(o, st) ← open (f_st s) fs found; new_descriptor s (mkHandle fs o 0) st) = Some (r, s')
    /\ stepped others s c s'.
Proof.
  intros Hc Hinv Hroom Hfs Hf Hfound. destruct found as [[o k]|].
  - destruct (Hfound o k eq_refl) as (Ho & Hn & Hh). by apply new_descriptor_step.
  - cbn [open mbind option_bind]. unfold new_descriptor. cbn [h_filesystem h_object].
    rewrite orb_true_r. eexists _, s. split; [by destruct s|]. split; [done|]. split; [lia|by left].
Qed.

Lemma open_step others s path mode : inv home others s -> room 1 others s -> mounted (f_st s) ->
  exists r s', fopen mounts doOpen s path mode = Some (r, s') /\ stepped others s (Open path mode) s'.
Proof.
  intros Hinv Hroom [Hm _]. unfold fopen, vfs_open, VFS.resolve.
  destruct (VFS.isAbsolutePath path); [|by apply no_file_step].
  destruct (VFS.getfs mounts path) as [[fs rest]|] eqn:Eg; [|by apply no_file_step].
  destruct (getfs_in _ _ _ Eg) as (m & Hin & <-). destruct (Hm m Hin) as [Hfs Hf].
  destruct (opened_step others s (VFS.m_fs m) (doOpen (f_st s) (VFS.m_fs m) rest mode) (Open path mode))
    as (r & s' & Hs & Hst); try done.
  { intros o k. apply (proj1 Hfresh). }
  exists r, s'. split; [|done]. rewrite <- Hs. destruct (open _ _ _) as [[o st]|]; done.
Qed.

Lemma resolve_dir_in path fs rest : VFS.resolve_dir mounts path = Some (inr (fs, rest)) ->
  exists m, m ∈ mounts /\ VFS.m_fs m = fs.
Proof.
  unfold VFS.resolve_dir. destruct (VFS.isAbsolutePath path); [|done]. destruct path as [[|c [|c' p]]|]; try done.
  - destruct (Ascii.eqb c VFS.slash); [done|]. intros ([fs' rest'] & Hg & [= -> ->])%fmap_Some. by eapply getfs_in.
  - intros ([fs' rest'] & Hg & [= -> ->])%fmap_Some. by eapply getfs_in.
Qed.

Lemma opendir_step others s path : inv home others s -> room 1 others s -> mounted (f_st s) ->
  exists r s', fopendir mounts gVFSFilesystem doOpendir s path = Some (r, s') /\ stepped others s (Opendir path) s'.
Proof.
  intros Hinv Hroom (Hm & Hv & Hvf). unfold fopendir, vfs_opendir.
  assert (Hgo : forall fs rest, fs <> 0 -> is_Some (filesystems (f_st s) !! fs) ->
    exists r s', ('(file, st) ← ('(o, st) ← open (f_st s) fs (doOpendir (f_st s) fs rest); Some (mkHandle fs o 0, st));
                  new_descriptor s file st) = Some (r, s') /\ stepped others s (Opendir path) s').
  { intros fs rest Hfs Hf.
    destruct (opened_step others s fs (doOpendir (f_st s) fs rest) (Opendir path)) as (r & s' & Hs & Hst); try done.
    { intros o k. apply (proj2 Hfresh). }
    exists r, s'. split; [|done]. rewrite <- Hs. destruct (open _ _ _) as [[o st]|]; done. }
  destruct (VFS.resolve_dir mounts path) as [[[]|[fs rest]]|] eqn:Er; [by apply Hgo| |by apply no_file_step].
  destruct (resolve_dir_in _ _ _ Er) as (m & Hin & <-). destruct (Hm m Hin). by apply Hgo.
Qed.

(** What [fds.is] finds in the table *)
Lemma descriptor_spec others s fid : inv home others s -> 0 <= fid < 64 ->
  descriptor s fid = Some (Handletable.lookup (f_fds s) (Z.to_nat fid)).
Proof.
  intros Hinv Hfid. pose proof (i_table _ _ _ Hinv) as Hok. unfold descriptor, Handletable.is_, Handletable.lookup.
  assert (Hi : (Z.to_nat fid < gNumDescriptors)%nat) by (unfold gNumDescriptors; lia).
  rewrite BitArray.is_set_bit by (apply BitArray.byte_index; pose proof (Handletable.h_valid _ _ Hok); lia).
  cbn [mbind option_bind]. destruct (BitArray.bit (Handletable.mValid (f_fds s)) (Z.to_nat fid)) eqn:Eb; [|done].
  destruct (Handletable.h_init _ _ Hok _ Hi Eb) as [h ->]. done.
Qed.

Lemma close_step others s fid : inv home others s -> room 1 others s -> 0 <= fid < 64 ->
  exists r s', fclose s fid = Some (r, s') /\ stepped others s (Close fid) s'.
Proof.
  intros Hinv [_ Hroom] Hfid. unfold fclose. rewrite (descriptor_spec others) by done. cbn [mbind option_bind].
  destruct (Handletable.lookup (f_fds s) (Z.to_nat fid)) as [h|] eqn:El.
  - destruct (i_handles _ _ _ Hinv _ _ El) as [Hok Hh]. rewrite Hok.
    assert (Hi : (Z.to_nat fid < gNumDescriptors)%nat) by (unfold gNumDescriptors; lia).
    pose proof (inv_clear home others s (Z.to_nat fid) h Hinv Hi El) as Hcl.
    destruct (inv_close home others _ h Hcl Hok Hh) as (st' & Hcs & Hinv' & Hsame & Hsz); [cbn [f_st]; lia|].
    cbn [f_st f_fds f_world] in *. rewrite Hcs. cbn [mbind option_bind]. eexists _, _. split; [done|].
    split; [done|]. cbn [f_st]. split; [lia|by left].
  - eexists _, _. split; [done|]. split; [done|]. cbn [f_st]. split; [lia|]. left.
    destruct (Handletable.handle_clear_spec gNumDescriptors (f_fds s) (Z.to_nat fid) (i_table _ _ _ Hinv)) as [Hok Hc].
    assert (Hsame : forall j, Handletable.lookup (Handletable.clear (f_fds s) (Z.to_nat fid)) j = Handletable.lookup (f_fds s) j).
    { intros j. rewrite Hc. case_decide; [by subst|done]. }
    constructor; cbn [f_fds f_st f_world]; [done| | |apply (i_home _ _ _ Hinv)|apply (i_open _ _ _ Hinv)].
    + intros i h. rewrite Hsame. apply (i_handles _ _ _ Hinv).
    + intros o. pose proof (i_refs _ _ _ Hinv o) as Hr.
      replace (refs (Handletable.clear (f_fds s) (Z.to_nat fid)) o) with (refs (f_fds s) o); [done|].
      unfold refs. f_equal. apply filter_ext_in. intros j _. by rewrite Hsame.
Qed.

Lemma dup_step others s fid m : inv home others s -> room 1 others s -> 0 <= fid < 64 ->
  exists r s', fdup s fid m = Some (r, s') /\ stepped others s (Dup fid m) s'.
Proof.
  intros Hinv [Hroom _] Hfid. unfold fdup. rewrite (descriptor_spec others) by done. cbn [mbind option_bind].
  assert (Hsame : stepped others s (Dup fid m) s) by (split; [done|]; split; [lia|by left]).
  destruct (Handletable.lookup (f_fds s) (Z.to_nat fid)) as [h|] eqn:El; [|by eexists _, _].
  destruct (i_handles _ _ _ Hinv _ _ El) as [Hok Hh]. destruct (Z.eqb_spec (h_object h) 0); [by eexists _, _|].
  destruct (objects (f_st s) !! h_object h) as [ob|] eqn:Eo.
  - specialize (Hroom (h_object h)).
    destruct (inv_incref home others s (h_object h) ob) as (k & st' & Hic & Hinv' & Hs & Hsz); [done..|lia|].
    rewrite Hic. cbn [mbind option_bind].
    destruct (inv_set home others _ h (Z.to_nat m) Hinv' Hok Hh) as (r & t' & Hset & Hr).
    cbn [f_fds f_st f_world] in *. rewrite Hset. cbn [mbind option_bind]. eexists _, _. split; [done|].
    split; [done|]. cbn [f_st]. split; [lia|]. destruct r as [i|]; [by left|]. right. destruct Hr as [Hr Hfull].
    split; [by apply full_table_spec|by eexists].
  - exfalso. pose proof (i_refs _ _ _ Hinv (h_object h)) as Hr. rewrite Eo in Hr.
    assert (refs (f_fds s) (h_object h) <> 0%nat); [|lia]. unfold refs. intros Hz%nil_length_inv.
    assert (Z.to_nat fid ∈ filter (fun i => h_object <$> Handletable.lookup (f_fds s) i = Some (h_object h))
      (seq 0 gNumDescriptors)) as Hin; [|rewrite Hz in Hin; by apply not_elem_of_nil in Hin].
    apply list_elem_of_filter. rewrite El. split; [done|]. apply elem_of_seq. unfold gNumDescriptors. lia.
Qed.

Lemma run1_step others s c : inv home others s -> room 1 others s -> mounted (f_st s) -> in_table c ->
  exists r s', run1 s c = Some (r, s') /\ stepped others s c s'.
Proof.
  intros Hinv Hroom Hm Hc. destruct c; cbn [run1].
  - by apply open_step.
  - by apply opendir_step.
  - by apply close_step.
  - by apply dup_step.
Qed.

Lemma room_step n others s c s' : room (S n) others s -> stepped others s c s' ->
  exists others', inv home others' s' /\ room n others' s' /\ (forall o, (others o <= others' o)%nat)
    /\ (takes_descriptor c && full (f_fds s) = false -> forall o, others' o = others o).
Proof.
  intros [Hr1 Hr2] (_ & Hsz & [Hinv|[Hfull [o Hinv]]]).
  - exists others. split_and!; try done. split; [intros x; specialize (Hr1 x); lia|lia].
  - exists (bump others o). split_and!; [done| |intros x; unfold bump; case_decide; lia|congruence].
    split; [intros x; specialize (Hr1 x); unfold bump; case_decide; lia|lia].
Qed.

Lemma mounted_step st st' : mounted st -> same_filesystems st st' -> mounted st'.
Proof.
  intros (Hm & Hv & Hvf) Hs. split; [|split; [done|by apply Hs]]. intros m Hin. destruct (Hm m Hin).
  split; [done|by apply Hs].
Qed.

Lemma run_spec_fd cs : forall others s, inv home others s -> room (length cs) others s -> mounted (f_st s) ->
  Forall in_table cs ->
  exists rs leaked s' others', run s cs = Some (rs, leaked, s') /\ inv home others' s'
    /\ (forall o, (others o <= others' o)%nat) /\ (leaked = false -> forall o, others' o = others o).
Proof.
  induction cs as [|c cs IH]; intros others s Hinv Hroom Hm Hall.
  - by exists [], false, s, others.
  - apply Forall_cons_iff in Hall as [Hc Hall]. cbn [run length] in *.
    destruct (run1_step others s c) as (r & s1 & Hr & Hst); try done.
    { destruct Hroom as [H1 H2]. split; [intros o; specialize (H1 o)|]; lia. }
    rewrite Hr. cbn [mbind option_bind].
    destruct (room_step (length cs) others s c s1 Hroom Hst) as (others1 & Hinv1 & Hroom1 & Hle1 & Heq1).
    destruct (IH others1 s1) as (rs & leaked & s2 & others2 & Hrun & Hinv2 & Hle2 & Heq2); try done.
    { eapply mounted_step; [done|]. apply Hst. }
    rewrite Hrun. cbn [mbind option_bind]. eexists _, _, _, others2. split; [done|]. split; [done|]. split.
    + intros o. specialize (Hle1 o). specialize (Hle2 o). lia.
    + intros [H1 H2]%orb_false_iff o. rewrite Heq2, Heq1 by done. done.
Qed.

End Run.

End FdSpec.

Import FdSpec.


Module SampleFds.
Import FsObject FsCalls.

Definition home (o : Z) : Z := 1.
Definition mounts : list VFS.mount_t := [VFS.mkMount "disk" 0 0 1].
Definition doOpen (st : state) (fs : Z) (p : string) (m : Z) : option (Z * Z) :=
  if decide (objects st !! 7 = None /\ fs = 1) then Some (7, 1) else None.
Definition doOpendir (st : state) (fs : Z) (p : string) : option (Z * Z) := None.
Definition start : @fstate unit := mkF (mkState ∅ {[1 := mkFilesystem 1 0]}) (Handletable.new gNumDescriptors) tt.
Definition calls : list call := [Open (Some "/disk/a"%string) 1; Dup 0 0; Close 0; Close 1].

Lemma no_descriptor i : Handletable.lookup (Handletable.new gNumDescriptors : Handletable.table handle) i = None.
Proof. unfold Handletable.lookup. cbn [Handletable.new Handletable.mValid]. by rewrite BitArray.bit_zero. Qed.

Lemma start_inv : inv home (fun _ => 0%nat) start.
Proof.
  constructor; cbn [start f_fds f_st objects filesystems].
  - apply Handletable.handle_ok_new; [unfold gNumDescriptors; lia|done].
  - intros i h. by rewrite no_descriptor.
  - intros o. rewrite lookup_empty. unfold refs.
    rewrite (filter_ext_in _ (fun _ => False)); [by induction (seq 0 gNumDescriptors)|].
    intros j _. rewrite no_descriptor. by split.
  - intros o ob. by rewrite lookup_empty.
  - intros fs f [<- <-]%lookup_singleton_Some. done.
Qed.

End SampleFds.


(** The calls of the sample and what they return *)
Example sample_calls_return : fst <$> run SampleFds.mounts 1 SampleFds.doOpen SampleFds.doOpendir SampleFds.start SampleFds.calls
  = Some ([Abi.OK_value 0; Abi.OK_value 1; Abi.OK; Abi.OK], false).
Proof. vm_compute. reflexivity. Qed.

(** A descriptor outside of the table makes the kernel read, and for [fclose]
    write, outside of it. *)
Lemma descriptor_not_checked {W} (s : @FsCalls.fstate W) fid :
  Handletable.ok FsCalls.gNumDescriptors (FsCalls.f_fds s) -> 64 <= fid -> FsCalls.fclose s fid = None.
Proof.
  intros Hok Hf. unfold FsCalls.fclose, FsCalls.descriptor, Handletable.is_, BitArray.is_set.
  rewrite (proj2 (lookup_ge_None _ _)); [done|]. pose proof (Handletable.h_valid _ _ Hok) as Hv.
  unfold FsCalls.gNumDescriptors in Hv. apply Nat.div_le_lower_bound; lia.
Qed.

(** ** Priorities *)

Module PrioritySpec.
Import Abi Proc ProcCalls.

Definition below (p : priority_t) : Prop :=
  quantum_current p <= quantum_max p /\ scheduling_current p <= scheduling_max p.
Definition not_raised (p p' : priority_t) : Prop :=
  quantum_max p' <= quantum_max p /\ scheduling_max p' <= scheduling_max p.

(** Neither function raises a maximum or lets a priority exceed it. *)
Lemma prioritize_below p i : below p ->
  (below (prioritize_current p i).2 /\ not_raised p (prioritize_current p i).2)
  /\ (below (prioritize_max p i).2 /\ not_raised p (prioritize_max p i).2).
Proof.
  unfold below, not_raised, prioritize_current, prioritize_max. intros [Hq Hs].
  destruct i as [i|]; [|by repeat split]. rewrite !Z.gtb_ltb.
  destruct (Z.eqb_spec (quantum i) 0), (Z.eqb_spec (scheduling i) 0); cbn [negb andb];
    repeat (match goal with
            | |- context [Z.ltb ?a ?b] => destruct (Z.ltb_spec a b)
            | |- context [Z.leb ?a ?b] => destruct (Z.leb_spec a b)
            end; cbn [negb andb snd quantum_max quantum_current scheduling_max scheduling_current] in *); cbn [snd]; lia.
Qed.

(** A request that is refused for its scheduling priority has already changed the
    quantum. *)
Lemma prioritize_refused_in_part p i :
  0 < quantum i <= quantum_max p -> scheduling_max p < scheduling i -> 0 <= scheduling_max p ->
  prioritize_current p (Some i)
  = (ERR NOT_ALLOWED, mkPriority (quantum_max p) (quantum i) (scheduling_max p) (scheduling_current p)).
Proof.
  intros Hq Hs H0. unfold prioritize_current. rewrite !Z.gtb_ltb.
  destruct (Z.eqb_spec (quantum i) 0), (Z.eqb_spec (scheduling i) 0); try lia. cbn [negb andb].
  destruct (Z.ltb_spec (quantum_max p) (quantum i)); [lia|]. cbn [scheduling_max].
  destruct (Z.ltb_spec (scheduling_max p) (scheduling i)); [done|lia].
Qed.

End PrioritySpec.
