(* ===== verification/TerminalThms.v ===== *)
(** * Theorems on keyboard, screen and terminal

    Keys are delivered in order, a typed line is what a read returns, text stays
    inside of the video memory, and the places where the code lets go of these. *)

From stdpp Require Import base numbers list gmap option.
From Stdlib Require Import ZArith Lia.
From S2P Require Import Prelude Containers Keyboard Screen Kernel Lifecycle System Terminal.

Local Open Scope Z_scope.

(** ** A small console and a kernel with one terminal *)

Module Sample.

Definition font : list Z := replicate 4096 0x81.
Definition screen : Screen.screen := Screen.new 64 32 256 32 (replicate 2048 0) (replicate 2048 0).
Definition kernel : Kernel.kernel :=
  Kernel.with_ttys (System.statics (Kernel.mkTasks 0 0 1 2 3) 5 6) {[5 := Kernel.mkTTY [] 6]}.
Definition key (c : Z) : KeyEvent.key_event_t := KeyEvent.mkKey KeyEvent.KEYMAP_LOWERCASE false false false c.

Lemma screen_good : Screen.good screen.
Proof.
  split.
  - split; try done.
  - split; try done; try (by exists 0); simpl; unfold Screen.FONT_HEIGHT, Screen.FONT_WIDTH; lia.
Qed.

Lemma kernel_allowed : TTY.allowed kernel 5 = Some true.
Proof. reflexivity. Qed.

End Sample.

(** the keyboard driver decodes the bytes of its interrupts and delivers the key events in order. In every sequence of interrupts and reads in which no interrupt finds its buffer of 128 slots full, the events read are a prefix of the decoded ones, and what is missing is still in the buffer. *)
Theorem keyboard_delivers_in_order (os : list Keyboard.op) :
  Forall is_u8 (Keyboard.bytes_of os) -> Keyboard.fits 0 os ->
  exists out k pending, Keyboard.run Keyboard.new os = Some (out, k)
    /\ Keyboard.decode Keyboard.new_modes (Keyboard.bytes_of os) = out ++ pending
    /\ Queue.qrep Keyboard.gBufferSize (Keyboard.gKeyboardBuffer k) pending.
Proof.
  intros Hb Hf. destruct (Keyboard.driver_fifo os Keyboard.new [] Hb Keyboard.new_empty Hf) as (out & k & l & Hr & Hq & He).
  by exists out, k, l.
Qed.

Lemma keyboard_delivers_in_order_witness :
  exists out k pending,
    Keyboard.run Keyboard.new [Keyboard.Irq 0x1C; Keyboard.Next; Keyboard.Irq 0xF0; Keyboard.Irq 0x1C] = Some (out, k)
    /\ Keyboard.decode Keyboard.new_modes [0x1C; 0xF0; 0x1C] = out ++ pending
    /\ Queue.qrep Keyboard.gBufferSize (Keyboard.gKeyboardBuffer k) pending.
Proof.
  apply (keyboard_delivers_in_order [Keyboard.Irq 0x1C; Keyboard.Next; Keyboard.Irq 0xF0; Keyboard.Irq 0x1C]).
  - repeat constructor; done.
  - simpl. unfold Keyboard.gBufferSize. lia.
Defined.



(** a printable character that does not reach the right margin is drawn pixel by pixel as its glyph in the given colour on the current background, in the cell of the cursor and nowhere else, and the cursor moves to the next cell. *)
Theorem putc_draws_glyph iso_font s c color :
  length iso_font = 4096%nat -> Screen.good s -> is_u8 c -> c <> 8 -> c <> 10 -> c <> 13 ->
  Screen.mY s + 2 * Screen.FONT_WIDTH < Screen.mWidth s ->
  exists s', Screen.putc iso_font s c color = Some s'
    /\ Screen.mX s' = Screen.mX s /\ Screen.mY s' = Screen.mY s + Screen.FONT_WIDTH
    /\ forall x y, 0 <= x < Screen.mHeight s -> 0 <= y < Screen.mWidth s ->
         Screen.readPixel s' x y =
           if bool_decide (Screen.mX s <= x < Screen.mX s + 16 /\ Screen.mY s <= y < Screen.mY s + 8)
           then Some (Color.to_word
                  (if Z.testbit (nth (Z.to_nat (16 * c + (x - Screen.mX s))) iso_font 0) (y - Screen.mY s)
                   then color else Screen.background (Screen.current_set s)))
           else Screen.readPixel s x y.
Proof.
  intros Hfont [Hok Hon] Hc H8 H10 H13 Hm.
  destruct (Screen.putc_draws iso_font Hfont s (Screen.back s) c color) as (l & E & Hl & Hp); try done.
  { by apply Screen.ok_shown. }
  rewrite <- (Screen.shown_self s Hok) in E. eexists. split_and!; [exact E|done|done|].
  intros x y Hx Hy. unfold Screen.readPixel.
  assert (Hok' : Screen.ok (Screen.move (Screen.show s l l) (Screen.mX s) (Screen.mY s + Screen.FONT_WIDTH)))
    by (apply Screen.ok_move, Screen.ok_shown; done).
  rewrite !Screen.getpixel_ok by (done || lia). cbn [mbind option_bind].
  specialize (Hp x y ltac:(lia) Hy). unfold Screen.pix in Hp. simpl. rewrite Hp.
  case_bool_decide as Hin; [|done]. do 3 f_equal. rewrite !nth_lookup, lookup_drop. f_equal.
  unfold Screen.FONT_HEIGHT. width. replace (Z.to_nat (c * 16) + Z.to_nat (x - Screen.mX s))%nat with (Z.to_nat (16 * c + (x - Screen.mX s))) by lia. done.
Qed.

Lemma putc_draws_glyph_witness :
  exists s', Screen.putc Sample.font Sample.screen 65 (Color.mkColor 255 255 255) = Some s'
    /\ Screen.mX s' = 0 /\ Screen.mY s' = 8
    /\ forall x y, 0 <= x < 32 -> 0 <= y < 64 ->
         Screen.readPixel s' x y =
           if bool_decide (0 <= x < 0 + 16 /\ 0 <= y < 0 + 8)
           then Some (Color.to_word
                  (if Z.testbit (nth (Z.to_nat (16 * 65 + (x - 0))) Sample.font 0) (y - 0)
                   then Color.mkColor 255 255 255 else Color.black))
           else Screen.readPixel Sample.screen x y.
Proof.
  exact (putc_draws_glyph Sample.font Sample.screen 65 (Color.mkColor 255 255 255) eq_refl Sample.screen_good
           ltac:(width; lia) ltac:(lia) ltac:(lia) ltac:(lia) eq_refl).
Defined.

(** a newline on the last line scrolls: every line of pixels moves up by the height of a character, the lines at the bottom get the background colour, and the cursor is at the beginning of the last line of characters. *)
Theorem newline_scrolls iso_font s color :
  Screen.good s -> Screen.mX s + 2 * Screen.FONT_HEIGHT > Screen.mHeight s ->
  exists s', Screen.putc iso_font s 10 color = Some s'
    /\ Screen.row s' = Screen.rows s - 1 /\ Screen.column s' = 0
    /\ forall x y, 0 <= x < Screen.mHeight s -> 0 <= y < Screen.mWidth s ->
         Screen.readPixel s' x y =
           if x <? Screen.mHeight s - Screen.FONT_HEIGHT then Screen.readPixel s (x + Screen.FONT_HEIGHT) y
           else Some (Color.to_word (Screen.background (Screen.current_set s))).
Proof.
  intros [Hok [Hx Hy Hr Hc]] Hlast. pose proof (Screen.ok_shown s (Screen.back s) Hok eq_refl) as Hsh.
  pose proof (Screen.nl_spec s (Screen.back s) Hsh Hx) as E. rewrite <- (Screen.shown_self s Hok) in E.
  unfold Screen.putc. cbn [Z.eqb Pos.eqb]. rewrite E.
  rewrite (proj2 (Z.gtb_lt _ _)) by lia. eexists. split; [done|].
  set (s' := Screen.move _ _ _). assert (Hok' : Screen.ok s').
  { apply Screen.ok_move, Screen.ok_shown; [done|]. by apply Screen.length_scrolled. }
  split_and!.
  - unfold Screen.row, s', Screen.rows. simpl. rewrite Z.mul_comm, Z.div_mul by done. done.
  - done.
  - intros x y Hx' Hy'. unfold Screen.readPixel. rewrite !Screen.getpixel_ok by (done || unfold Screen.FONT_HEIGHT; lia).
    exact (Screen.scroll_pix s (Screen.back s) x y Hsh Hx' Hy').
Qed.

Lemma newline_scrolls_witness :
  exists s', Screen.putc Sample.font (Screen.setRow Sample.screen 1) 10 Color.green = Some s'
    /\ Screen.row s' = 1 /\ Screen.column s' = 0
    /\ forall x y, 0 <= x < 32 -> 0 <= y < 64 ->
         Screen.readPixel s' x y = if x <? 16 then Screen.readPixel (Screen.setRow Sample.screen 1) (x + 16) y
                                   else Some (Color.to_word Color.black).
Proof.
  exact (newline_scrolls Sample.font (Screen.setRow Sample.screen 1) Color.green
           (Screen.setRow_good Sample.screen 1 Sample.screen_good ltac:(vm_compute; split; congruence)) eq_refl).
Defined.

(** in canonical mode a read returns exactly one line, as the backspaces among the keys left it, ended by the newline; every key was echoed without leaving the screen, keys typed ahead stay queued, and the terminal is ready for the next line. *)
Theorem canonical_read_returns_edited_line iso_font k t reaper f s ks rest cs n :
  length iso_font = 4096%nat -> TTY.allowed k t = Some true -> Screen.good s -> TTYFile.typing f [] ->
  TTYFile.types ks (cs ++ [10]) -> Forall TTYFile.typable cs -> (length cs < TTYFile.BUFSIZE)%nat ->
  (S (length (foldl TTYFile.edit [] cs)) < n)%nat ->
  exists f' s' ks', TTYFile.read iso_font k t reaper f s (ks ++ rest) n
      = Some (TTYFile.Returned (foldl TTYFile.edit [] cs ++ [10]), k, f', s', ks' ++ rest)
    /\ TTYFile.typing f' [] /\ TTYFile.types ks' [] /\ Screen.good s'.
Proof. intros. by apply TTYFile.read_line. Qed.

Lemma new_typing : TTYFile.typing TTYFile.new [].
Proof. split; try done. apply TTYFile.irep_cleared. Qed.

Lemma canonical_read_returns_edited_line_witness :
  exists f' s' ks', TTYFile.read Sample.font Sample.kernel 5 0 TTYFile.new Sample.screen
        ([Sample.key 97; Sample.key 98; Sample.key 8; Sample.key 99; Sample.key 10] ++ [Sample.key 100]) 1024
      = Some (TTYFile.Returned [97; 99; 10], Sample.kernel, f', s', ks' ++ [Sample.key 100])
    /\ TTYFile.typing f' [] /\ TTYFile.types ks' [] /\ Screen.good s'.
Proof.
  apply (canonical_read_returns_edited_line Sample.font Sample.kernel 5 0 TTYFile.new Sample.screen
           [Sample.key 97; Sample.key 98; Sample.key 8; Sample.key 99; Sample.key 10] [Sample.key 100] [97; 98; 8; 99] 1024).
  - reflexivity.
  - exact Sample.kernel_allowed.
  - exact Sample.screen_good.
  - exact new_typing.
  - repeat (apply (TTYFile.types_key (Sample.key _)); [reflexivity|reflexivity|unfold TTYFile.EOF_MARKER; simpl; lia|]).
    constructor.
  - repeat constructor; unfold TTYFile.EOF_MARKER, TTYFile.ESCAPE; lia.
  - unfold TTYFile.BUFSIZE. simpl. lia.
  - simpl. lia.
Defined.

(** C32: from the keys to the line. Pressing and releasing keys of characters and then the return key, with interrupts decoded by the driver and passed on by the keyboard task, makes a read of the terminal return those characters and a newline. *)
Theorem typed_line_is_read iso_font k t reaper s bs cs n q :
  length iso_font = 4096%nat -> TTY.allowed k t = Some true -> Screen.good s ->
  Forall2 Typing.types_as bs cs -> Forall (fun c => TTYFile.typable c /\ c <> 8) cs -> (length cs < 1000)%nat -> (S (length cs) < n)%nat ->
  q = Queue.new KeybQueue.gQueueSize KeyEvent.none ->
  exists kb q' ks f' s' ks', Typing.strike k t reaper Keyboard.new q (bs ++ [0x5A]) = Some (kb, q')
    /\ Queue.qrep KeybQueue.gQueueSize q' ks
    /\ TTYFile.read iso_font k t reaper TTYFile.new s ks n = Some (TTYFile.Returned (cs ++ [10]), k, f', s', ks')
    /\ Screen.good s'.
Proof.
  intros Hfont Hal Hg Hbs Hcs Hlen Hn ->.
  destruct (Typing.strike_spec k t reaper (bs ++ [0x5A]) (cs ++ [10])
    ltac:(apply Forall2_app; [done|repeat constructor; vm_compute; congruence])
    Keyboard.new (Queue.new KeybQueue.gQueueSize KeyEvent.none) []) as (kb & q' & ks & E & Hq & Ht).
  - apply Forall_app. split; [|repeat constructor; unfold TTYFile.EOF_MARKER; lia].
    eapply list.Forall_impl; [exact Hcs|]. by intros c [[? _] _].
  - apply Keyboard.new_empty.
  - done.
  - apply Queue.qrep_new. unfold KeybQueue.gQueueSize. lia.
  - unfold KeybQueue.gQueueSize. rewrite length_app. simpl. lia.
  - assert (Hedit : forall l, foldl TTYFile.edit l cs = l ++ cs).
    { clear -Hcs. induction Hcs as [|c cs [_ H8] _ IH]; intros l; simpl; [by rewrite app_nil_r|].
      rewrite IH. unfold TTYFile.edit. rewrite (proj2 (Z.eqb_neq c 8)) by done. by rewrite <- app_assoc. }
    destruct (TTYFile.read_line iso_font Hfont k t reaper cs ks [] TTYFile.new s n Hal Ht) as (f' & s' & ks' & Er & _ & _ & Hg');
      try done.
    + eapply list.Forall_impl; [exact Hcs|]. by intros c [? _].
    + apply new_typing.
    + unfold TTYFile.BUFSIZE. lia.
    + by rewrite Hedit.
    + rewrite app_nil_r, Hedit in Er. by exists kb, q', ks, f', s', (ks' ++ []).
Qed.

Lemma typed_line_is_read_witness :
  exists kb q' ks f' s' ks', Typing.strike Sample.kernel 5 0 Keyboard.new (Queue.new KeybQueue.gQueueSize KeyEvent.none)
      ([0x4B; 0x1B] ++ [0x5A]) = Some (kb, q')
    /\ Queue.qrep KeybQueue.gQueueSize q' ks
    /\ TTYFile.read Sample.font Sample.kernel 5 0 TTYFile.new Sample.screen ks 80
       = Some (TTYFile.Returned [108; 115; 10], Sample.kernel, f', s', ks')
    /\ Screen.good s'.
Proof.
  apply (typed_line_is_read Sample.font Sample.kernel 5 0 Sample.screen [0x4B; 0x1B] [108; 115] 80).
  - reflexivity.
  - exact Sample.kernel_allowed.
  - exact Sample.screen_good.
  - repeat constructor; vm_compute; congruence.
  - repeat constructor; unfold TTYFile.EOF_MARKER, TTYFile.ESCAPE; lia.
  - simpl. lia.
  - simpl. lia.
  - reflexivity.
Defined.

(** a terminal in raw mode that is read one byte at a time stops for good after 1024 keys. The first 1024 reads return a key each, but the input buffer is not reset when a read takes exactly what it holds; with all its slots used, no later read returns, whatever is typed. *)
Theorem raw_reads_starve iso_font k t reaper s ks rest :
  TTY.allowed k t = Some true -> Forall TTYFile.raw_key ks -> length ks = TTYFile.BUFSIZE ->
  exists f, TTYFile.reads iso_font TTYFile.BUFSIZE k t reaper (TTYFile.set_discipline TTYFile.new TTYFile.RAW) s (ks ++ rest)
      = Some (KeyEvent.keycode <$> ks, f, rest)
    /\ forall keys n, n <> 0%nat -> exists f', TTYFile.read iso_font k t reaper f s keys n = Some (TTYFile.Waiting, k, f', s, []).
Proof.
  intros Hal Hks Hlen.
  destruct (TTYFile.reads_spec iso_font k t reaper s ks (TTYFile.set_discipline TTYFile.new TTYFile.RAW) 0 rest Hal Hks)
    as (f & E & Hm & Hd & Hi); try done; [apply TTYFile.irep_cleared|lia|].
  rewrite Hlen in E, Hi. exists f. split; [done|]. intros keys n Hn. unfold TTYFile.read.
  destruct Hi as [_ Hr Hw _ _]. destruct (TTYFile.read_stuck_fuel iso_font k t reaper s n Hal Hn (2 + length keys) f keys) as (f' & E' & _).
  - split_and!; [done|done|rewrite Hw; cbn [length]; lia|done].
  - case_decide; lia.
  - eauto.
Qed.

Lemma raw_reads_starve_witness :
  exists f, TTYFile.reads Sample.font TTYFile.BUFSIZE Sample.kernel 5 0 (TTYFile.set_discipline TTYFile.new TTYFile.RAW) Sample.screen
        (replicate 1024 (Sample.key 97) ++ []) = Some (KeyEvent.keycode <$> replicate 1024 (Sample.key 97), f, [])
    /\ forall keys n, n <> 0%nat -> exists f', TTYFile.read Sample.font Sample.kernel 5 0 f Sample.screen keys n
         = Some (TTYFile.Waiting, Sample.kernel, f', Sample.screen, []).
Proof.
  apply (raw_reads_starve Sample.font Sample.kernel 5 0 Sample.screen (replicate 1024 (Sample.key 97)) []).
  - exact Sample.kernel_allowed.
  - apply Forall_replicate. split; [reflexivity|split; [reflexivity|]]. unfold TTYFile.EOF_MARKER. simpl. lia.
  - apply length_replicate.
Defined.

(** the cursor can be sent below the screen. The escape sequence that moves it down is only stopped at the height of the screen, where no line is left, and the next character printed there is written behind the end of the video memory and of the back buffer. *)
Theorem cursor_down_leaves_screen iso_font f s x :
  Screen.good s -> TTYFile.mEscapeStatus f = TTYFile.OFF -> is_u8 x ->
  x <> 8 -> x <> 10 -> x <> 13 -> x <> TTYFile.ESCAPE ->
  TTYFile.write iso_font f s [TTYFile.ESCAPE; 91; 57; 57; 57; 57; 66; x] = None.
Proof. intros. by apply TTYFile.cursor_down_overruns. Qed.

Lemma cursor_down_leaves_screen_witness :
  TTYFile.write Sample.font TTYFile.new Sample.screen [TTYFile.ESCAPE; 91; 57; 57; 57; 57; 66; 33] = None.
Proof.
  apply (cursor_down_leaves_screen Sample.font TTYFile.new Sample.screen 33 Sample.screen_good);
    try reflexivity; try (unfold TTYFile.ESCAPE; lia). done.
Defined.
