(* ===== verification/Cpu.v ===== *)
(** * Memory accesses of the kernel

    [Bytes] are little-endian words and C strings; [Cpu] is a load or a store of
    the kernel through the page tables of [Virt], with the page fault it may take
    (kernel/src/mm/pagefault.cpp), and the view of memory as a partial function
    from addresses to bytes. *)

From stdpp Require Import base numbers list gmap option strings.
From Stdlib Require Import ZArith Lia Bool Ascii.
From S2P Require Import Prelude Interval Phys Virt Files MemMgr.

Local Open Scope Z_scope.

(** ** Bytes and words *)

Module Bytes.

(** Little-endian words *)
Fixpoint word (l : list Z) : Z :=
  match l with
  | [] => 0
  | b :: l => b + 256 * word l
  end.

Fixpoint bytes (n : nat) (v : Z) : list Z :=
  match n with
  | O => []
  | S n => v mod 256 :: bytes n (v / 256)
  end.

Definition field (l : list Z) (off n : nat) : Z := word (take n (drop off l)).

(** The characters of a string, as a C string has them without its terminator *)
Definition chars (s : string) : list Z := (fun c => Z.of_nat (nat_of_ascii c)) <$> String.list_ascii_of_string s.

Definition string_of (l : list Z) : string :=
  String.string_of_list_ascii ((fun b => ascii_of_nat (Z.to_nat b)) <$> l).

Lemma word_bytes n : forall v, 0 <= v < 256 ^ Z.of_nat n -> word (bytes n v) = v.
Proof.
  induction n as [|n IH]; intros v Hv; cbn [bytes word]; [change (256 ^ Z.of_nat 0) with 1 in Hv; lia|].
  rewrite Nat2Z.inj_succ, Z.pow_succ_r in Hv by lia. rewrite IH.
  - pose proof (Z.div_mod v 256 ltac:(lia)). lia.
  - split; [apply Z.div_pos; lia|]. apply Z.div_lt_upper_bound; lia.
Qed.

Lemma bytes_length n v : length (bytes n v) = n.
Proof. revert v. induction n as [|n IH]; intros v; simpl; [done|]. by rewrite IH. Qed.

Lemma string_of_chars s : string_of (chars s) = s.
Proof.
  unfold string_of, chars. rewrite <- list_fmap_compose.
  rewrite (list_fmap_ext _ id _).
  - rewrite list_fmap_id. apply String.string_of_list_ascii_of_string.
  - intros i c _. unfold compose. rewrite Nat2Z.id. apply ascii_nat_embedding.
Qed.

End Bytes.

(** ** Memory accesses of the kernel *)

Module Cpu.
Import Entry Indices Virt MemMgr.

Definition frame_of (s : vm) (v : Z) : Z := page (entry s (of_address v)).
Definition readable (s : vm) (v : Z) : bool := get (entry s (of_address v)) bPresent.
(** Write protection holds for the kernel as well (boot/loader.s sets CR0.WP). *)
Definition writable (s : vm) (v : Z) : bool :=
  get (entry s (of_address v)) bPresent && get (entry s (of_address v)) bRw.

Definition peek (s : vm) (v : Z) : Z := default 0 (frame s (frame_of s v) !! Z.to_nat (offset v)).
Definition poke (s : vm) (v b : Z) : vm :=
  set_frame s (frame_of s v) (<[Z.to_nat (offset v) := b]> (frame s (frame_of s v))).

Section Access.
Context (gNumPages : Z) (asFile : Z -> bool) (seek : Z -> Z -> bool) (read : Z -> Z -> list Z).
Context (m : mm).

(** The fault handler returns to the instruction, or the access never completes. *)
Definition fault (s : vm) (error v : Z) : option vm :=
  '(r, s) ← Fault.pageflt_handler gNumPages asFile seek read m s error v;
  match r with inl _ => Some s | inr _ => None end.

Definition load (s : vm) (v : Z) : option (Z * vm) :=
  s ← (if readable s v then Some s else fault s 0 v);
  if readable s v then Some (peek s v, s) else None.

Definition store (s : vm) (v b : Z) : option vm :=
  s ← (if writable s v then Some s else fault s (if readable s v then 3 else 2) v);
  if writable s v then Some (poke s v b) else None.

Fixpoint load_bytes (s : vm) (v : Z) (n : nat) : option (list Z * vm) :=
  match n with
  | O => Some ([], s)
  | S n => '(b, s) ← load s v; '(l, s) ← load_bytes s (u32 (v + 1)) n; Some (b :: l, s)
  end.

Fixpoint store_bytes (s : vm) (v : Z) (l : list Z) : option vm :=
  match l with
  | [] => Some s
  | b :: l => s ← store s v b; store_bytes s (u32 (v + 1)) l
  end.

(** [memcopy(src, dst, len)] *)
Fixpoint memcopy (s : vm) (src dst : Z) (n : nat) : option vm :=
  match n with
  | O => Some s
  | S n => '(b, s) ← load s src; s ← store s dst b; memcopy s (u32 (src + 1)) (u32 (dst + 1)) n
  end.

(** ** Memory as a partial function *)

Definition mem (s : vm) (v : Z) : option Z := if readable s v then Some (peek s v) else None.

(** No other page shows the frame of [v]. *)
Definition exclusive (s : vm) (v : Z) : Prop :=
  forall i, wf i -> get (entry s i) bPresent = true -> page (entry s i) = frame_of s v -> i = of_address v.

Definition frames_ok (s : vm) : Prop := forall b, length (frame s b) = 4096%nat.

Lemma load_mem s v b : mem s v = Some b -> load s v = Some (b, s).
Proof. unfold mem, load. destruct (readable s v) eqn:E; [|done]. intros [= <-]. cbn [mbind option_bind]. by rewrite E. Qed.

Lemma store_writable s v b : writable s v = true -> store s v b = Some (poke s v b).
Proof. intros E. unfold store. rewrite E. cbn [mbind option_bind]. by rewrite E. Qed.

End Access.

Lemma same_page_offset v w : is_u32 v -> is_u32 w -> of_address v = of_address w -> offset v = offset w -> v = w.
Proof.
  intros Hv Hw Hi Ho. apply (slot_page v w Hv Hw) in Hi. rewrite !page_of_div in Hi by done. rewrite !offset_mod in Ho.
  pose proof (Z.div_mod v 4096 ltac:(lia)). pose proof (Z.div_mod w 4096 ltac:(lia)). lia.
Qed.

Lemma slot_div a b : is_u32 a -> is_u32 b -> of_address a = of_address b <-> a / 4096 = b / 4096.
Proof. intros Ha Hb. rewrite slot_page, !page_of_div by done. lia. Qed.

Lemma offset_bound v : (Z.to_nat (offset v) < 4096)%nat.
Proof. rewrite offset_mod. pose proof (Z.mod_pos_bound v 4096 ltac:(lia)). lia. Qed.

Lemma frames_ok_poke s v b : frames_ok s -> frames_ok (poke s v b).
Proof.
  intros Hf a. unfold poke, frame, set_frame. simpl. rewrite lookup_insert. case_decide; simpl.
  - rewrite length_insert. apply Hf.
  - apply Hf.
Qed.

(** A store changes one byte. *)
Lemma mem_poke s v b w : is_u32 v -> is_u32 w -> frames_ok s -> exclusive s v -> readable s v = true ->
  mem (poke s v b) w = if decide (v = w) then Some b else mem s w.
Proof.
  intros Hv Hw Hf Hex Hr. unfold mem. change (readable (poke s v b) w) with (readable s w).
  case_decide as Hd.
  - subst w. rewrite Hr. f_equal. unfold peek. change (frame_of (poke s v b) v) with (frame_of s v).
    unfold frame at 1, poke, set_frame. simpl. rewrite lookup_insert_eq. simpl.
    rewrite list_lookup_insert_eq; [done|]. rewrite Hf. apply offset_bound.
  - destruct (readable s w) eqn:E; [|done]. f_equal. unfold peek. change (frame_of (poke s v b) w) with (frame_of s w).
    unfold frame at 1, poke, set_frame. simpl. rewrite lookup_insert. case_decide as Hfr; [|done]. simpl.
    assert (Hi : of_address w = of_address v) by (apply Hex; [by apply of_address_wf|exact E|done]).
    rewrite list_lookup_insert_ne; [by rewrite Hfr|]. intros Ho. apply Hd.
    apply same_page_offset; [done|done|done|]. rewrite !offset_mod in *.
    pose proof (Z.mod_pos_bound v 4096 ltac:(lia)). pose proof (Z.mod_pos_bound w 4096 ltac:(lia)). lia.
Qed.

(** What stores to mapped pages leave alone *)
Record same_tables (s s' : vm) : Prop := {
  st_entries : entries s' = entries s; st_phys : phys s' = phys s; st_allocated : allocated s' = allocated s;
  st_setup : same_setup s s' }.

#[global] Instance same_tables_po : PreOrder same_tables.
Proof. split; [by split|]. intros s1 s2 s3 [] []. split; try congruence. by etrans. Qed.

Lemma same_tables_poke s v b : same_tables s (poke s v b).
Proof. by split. Qed.

Lemma same_entry s s' i : same_tables s s' -> entry s' i = entry s i.
Proof. intros [E _ _ _]. unfold entry. by rewrite E. Qed.

Lemma same_writable s s' v : same_tables s s' -> writable s' v = writable s v.
Proof. intros E. unfold writable. by rewrite (same_entry _ _ _ E). Qed.

Lemma same_readable s s' v : same_tables s s' -> readable s' v = readable s v.
Proof. intros E. unfold readable. by rewrite (same_entry _ _ _ E). Qed.

Lemma same_exclusive s s' v : same_tables s s' -> exclusive s v -> exclusive s' v.
Proof. intros E H i. unfold frame_of. rewrite !(same_entry _ _ _ E). apply H. Qed.

Lemma writable_readable s v : writable s v = true -> readable s v = true.
Proof. unfold writable, readable. by intros [? _]%andb_true_iff. Qed.

Section Runs.
Context (gNumPages : Z) (asFile : Z -> bool) (seek : Z -> Z -> bool) (read : Z -> Z -> list Z).
Context (m : mm).

(** A run of bytes that may be written *)
Definition writable_run (s : vm) (v : Z) (n : nat) : Prop :=
  0 <= v /\ v + Z.of_nat n <= 2 ^ 32 /\ forall k, v <= k < v + Z.of_nat n -> writable s k = true /\ exclusive s k.

Lemma writable_run_cons s v n b : writable_run s v (S n) ->
  writable s v = true /\ exclusive s v /\ is_u32 v /\ writable_run (poke s v b) (v + 1) n.
Proof.
  intros (H0 & H1 & H). destruct (H v ltac:(lia)) as [Hw Hex]. split_and!; try done; [unfold is_u; lia|].
  split; [lia|]. split; [lia|]. intros k Hk. destruct (H k ltac:(lia)) as [Hwk Hek].
  split; [exact Hwk|]. by apply (same_exclusive s); [apply same_tables_poke|].
Qed.

Lemma next_address v n : 0 <= v -> v + Z.of_nat (S (S n)) <= 2 ^ 32 -> u32 (v + 1) = v + 1.
Proof. intros H0 H1. apply u32_id. unfold is_u. lia. Qed.

Lemma store_bytes_spec l : forall s v, frames_ok s -> writable_run s v (length l) ->
  exists s', store_bytes gNumPages asFile seek read m s v l = Some s' /\ same_tables s s' /\ frames_ok s'
    /\ forall w, is_u32 w -> mem s' w = if decide (v <= w < v + Z.of_nat (length l)) then l !! Z.to_nat (w - v) else mem s w.
Proof.
  induction l as [|b l IH]; intros s v Hf Hrun; cbn [store_bytes].
  { exists s. split_and!; try done. intros w Hw. rewrite decide_False by (simpl; lia). done. }
  destruct (writable_run_cons s v (length l) b Hrun) as (Hw & Hex & Hu & Hrun').
  rewrite store_writable by done. cbn [mbind option_bind].
  assert (Hnext : store_bytes gNumPages asFile seek read m (poke s v b) (u32 (v + 1)) l
    = store_bytes gNumPages asFile seek read m (poke s v b) (v + 1) l).
  { destruct l as [|b' l]; [done|]. destruct Hrun as (? & ? & _). by rewrite (next_address v (length l)). }
  rewrite Hnext. destruct (IH (poke s v b) (v + 1) (frames_ok_poke s v b Hf) Hrun') as (s' & E & Hst & Hf' & Hmem).
  exists s'. split; [done|]. split; [etrans; [apply (same_tables_poke s v b)|done]|]. split; [done|].
  intros w Hw'. rewrite Hmem by done. rewrite mem_poke by (done || by apply writable_readable). cbn [length].
  destruct (decide (v = w)) as [<-|Hne].
  - rewrite decide_False by lia. rewrite decide_True by lia. by rewrite Z.sub_diag.
  - destruct (decide (v + 1 <= w < v + 1 + Z.of_nat (length l))).
    + rewrite decide_True by lia. replace (Z.to_nat (w - v)) with (S (Z.to_nat (w - (v + 1)))) by lia. done.
    + by rewrite decide_False by lia.
Qed.

Lemma load_bytes_spec l : forall s v, 0 <= v -> v + Z.of_nat (length l) <= 2 ^ 32 ->
  (forall k b, l !! k = Some b -> mem s (v + Z.of_nat k) = Some b) ->
  load_bytes gNumPages asFile seek read m s v (length l) = Some (l, s).
Proof.
  induction l as [|b l IH]; intros s v H0 H1 Hl; [done|]. cbn [length load_bytes].
  rewrite (load_mem _ _ _ _ m s v b) by (rewrite <- (Hl 0%nat b eq_refl); f_equal; lia). cbn [mbind option_bind].
  assert (E : load_bytes gNumPages asFile seek read m s (u32 (v + 1)) (length l)
    = load_bytes gNumPages asFile seek read m s (v + 1) (length l)).
  { destruct l as [|b' l]; [done|]. by rewrite (next_address v (length l)) by (simpl in *; lia). }
  rewrite E, IH; [done|lia|simpl in *; lia|].
  intros k b' Hk. rewrite <- (Hl (S k) b' Hk). f_equal. lia.
Qed.

(** Copying to a page that holds none of the source. *)
Lemma memcopy_spec f n : forall s src dst, frames_ok s -> writable_run s dst n ->
  0 <= src -> src + Z.of_nat n <= 2 ^ 32 ->
  (forall k, 0 <= k < Z.of_nat n -> mem s (src + k) = Some (f k)) ->
  (forall k, 0 <= k < Z.of_nat n -> ~ (dst <= src + k < dst + Z.of_nat n)) ->
  exists s', memcopy gNumPages asFile seek read m s src dst n = Some s' /\ same_tables s s' /\ frames_ok s'
    /\ forall w, is_u32 w -> mem s' w = if decide (dst <= w < dst + Z.of_nat n) then Some (f (w - dst)) else mem s w.
Proof.
  revert f. induction n as [|n IH]; intros f s src dst Hf Hrun H0 H1 Hsrc Hdis; cbn [memcopy].
  { exists s. split_and!; try done. intros w Hw. by rewrite decide_False by lia. }
  destruct (writable_run_cons s dst n (f 0) Hrun) as (Hw & Hex & Hu & Hrun').
  rewrite (load_mem _ _ _ _ m s src (f 0)) by (rewrite <- (Hsrc 0) by lia; f_equal; lia). cbn [mbind option_bind].
  rewrite store_writable by done. cbn [mbind option_bind].
  assert (Hnext : memcopy gNumPages asFile seek read m (poke s dst (f 0)) (u32 (src + 1)) (u32 (dst + 1)) n
    = memcopy gNumPages asFile seek read m (poke s dst (f 0)) (src + 1) (dst + 1) n).
  { destruct n as [|n]; [done|]. destruct Hrun as (? & ? & _).
    by rewrite (next_address src n), (next_address dst n) by lia. }
  rewrite Hnext.
  destruct (IH (fun k => f (k + 1)) (poke s dst (f 0)) (src + 1) (dst + 1)) as (s' & E & Hst & Hf' & Hmem);
    [by apply frames_ok_poke|done|lia|lia| |intros k Hk; specialize (Hdis (k + 1) ltac:(lia)); lia|].
  { intros k Hk. assert (Hne : dst <> src + 1 + k) by (specialize (Hdis (k + 1) ltac:(lia)); lia).
    rewrite mem_poke by first [done | by apply writable_readable | unfold is_u; lia]. rewrite decide_False by done.
    rewrite <- (Hsrc (k + 1)) by lia. f_equal. lia. }
  exists s'. split; [done|]. split; [etrans; [apply (same_tables_poke s dst (f 0))|done]|]. split; [done|].
  intros w Hw'. rewrite Hmem by done. rewrite mem_poke by (done || by apply writable_readable).
  destruct (decide (dst = w)) as [<-|Hne].
  - rewrite decide_False by lia. rewrite decide_True by lia. by rewrite Z.sub_diag.
  - destruct (decide (dst + 1 <= w < dst + 1 + Z.of_nat n)).
    + rewrite decide_True by lia. do 2 f_equal. lia.
    + by rewrite decide_False by lia.
Qed.

End Runs.

(** ** Address spaces whose frames are accounted for *)

Section Sane.
Context (N : Z).

Record sane (s : vm) : Prop := {
  sn_entries : entries_ok s;
  sn_phys : Phys.ok N (phys s);
  sn_frames : frames_ok s;
  sn_owned i : wf i -> get (entry s i) bPresent = true ->
    Phys.available (Phys.page (phys s) (Phys.index (page (entry s i)))) = false }.

Lemma sane_same_tables s s' : same_tables s s' -> frames_ok s' -> sane s -> sane s'.
Proof.
  intros E Hf' [He Hp Hf Ho]. pose proof E as [Ee Ep _ _]. split; [|by rewrite Ep|done|].
  - unfold entries_ok. by rewrite Ee.
  - intros i Hi. rewrite (same_entry _ _ _ E), Ep. by apply Ho.
Qed.

(** The effect of mapping a cleared page where there was none *)
Record fresh_page (s s' : vm) (v : Z) (o : map_options_t) : Prop := {
  fp_sane : sane s';
  fp_entry : exists ph, has_options (entry s' (of_address v)) ph o;
  fp_other j : j <> of_address v -> entry s' j = entry s j;
  fp_mem w : is_u32 w -> mem s' w = if decide (of_address w = of_address v) then Some 0 else mem s w;
  fp_exclusive w : of_address w = of_address v -> exclusive s' w;
  fp_still w : is_u32 w -> readable s w = true -> of_address w <> of_address v -> exclusive s w -> exclusive s' w;
  fp_free : Phys.mFreePages (phys s') = Phys.mFreePages (phys s) - 1;
  fp_setup : same_setup s s' }.

Lemma map_fresh s v o : sane s -> aligned v -> get (entry s (of_address v)) bPresent = false ->
  0 < Phys.mFreePages (phys s) -> clear o = true ->
  exists s', mapAnyPhysicalPage N s v o = Some (v, s') /\ fresh_page s s' v (with_frompmm o true).
Proof.
  intros [He Hp Hf Ho] Hv Hpr Hfree Hcl. unfold mapAnyPhysicalPage, mapped.
  rewrite aligned_page_of, Hpr by done. unfold alloc_result.
  pose proof (Phys.alloc_spec N (phys s) Hp) as Ha. destruct (Phys.alloc N (phys s)) as [[base p]|]; [|lia].
  destruct Ha as (i & -> & Hi & Hav & Hpage & Hpj & Hfr & Hok). cbn [mbind option_bind].
  set (ph := Phys.gPageSize * i) in *.
  assert (Haph : aligned ph) by (eapply aligned_mul; [done|]; destruct Hok; lia).
  destruct (map_spec (set_phys s p) ph v (with_frompmm o true) He Haph Hv) as (s' & -> & [Hs' Hent Hoth Hph Hfrm _ Hset]).
  cbn [mbind option_bind]. exists s'. split; [done|]. simpl in Hph, Hfrm. rewrite Hcl in Hfrm.
  assert (Hfresh : forall j, wf j -> get (entry s j) bPresent = true -> page (entry s j) <> ph).
  { intros j Hj Hpj' E. pose proof (Ho j Hj Hpj') as Hn. rewrite E in Hn. unfold ph in Hn. rewrite Phys.index_frame in Hn. congruence. }
  assert (Hframe : forall b, frame s' b = if decide (ph = b) then zeroes else frame s b).
  { intros b. unfold frame. rewrite Hfrm, lookup_insert. by case_decide. }
  split; try done.
  - split; [done|by rewrite Hph| |].
    + intros b. rewrite Hframe. case_decide; [by unfold zeroes; rewrite length_replicate|apply Hf].
    + intros j Hj Hpj'. rewrite Hph. destruct (decide (j = of_address v)) as [->|Hne].
      * rewrite (ho_page _ _ _ Hent). unfold ph. by rewrite Phys.index_frame, Hpage.
      * rewrite Hoth in * by done. change (entry (set_phys s p) j) with (entry s j) in *.
        rewrite Hpj; [by apply Ho|]. intros E. apply (Ho j Hj) in Hpj'. rewrite E in Hpj'. congruence.
  - by exists ph.
  - intros w Hw. unfold mem, readable, peek, frame_of. case_decide as Hd.
    + rewrite Hd, (ho_present _ _ _ Hent), (ho_page _ _ _ Hent). rewrite Hframe, decide_True by done.
      unfold zeroes. rewrite lookup_replicate_2; [done|apply offset_bound].
    + rewrite Hoth by done. change (entry (set_phys s p) (of_address w)) with (entry s (of_address w)).
      destruct (get (entry s (of_address w)) bPresent) eqn:E; [|done].
      rewrite Hframe, decide_False; [done|]. intros E'. by apply (Hfresh (of_address w)); [apply of_address_wf|..].
  - intros w Hw j Hj Hpj'. unfold frame_of. rewrite Hw, (ho_page _ _ _ Hent). intros E.
    destruct (decide (j = of_address v)) as [|Hne]; [done|]. rewrite Hoth in * by done. by destruct (Hfresh j).
  - intros w Hw Hr Hne Hex j Hj Hpj'. unfold frame_of. rewrite (Hoth (of_address w)) by done.
    change (entry (set_phys s p) (of_address w)) with (entry s (of_address w)). intros E.
    destruct (decide (j = of_address v)) as [->|Hnj].
    + exfalso. rewrite (ho_page _ _ _ Hent) in E. by apply (Hfresh (of_address w)); [apply of_address_wf|..].
    + rewrite Hoth in * by done. by apply Hex.
  - by rewrite Hph.
  - destruct Hset. by split.
Qed.

(** New options for a present page *)
Lemma get_newoptions e o : is_u32 e ->
  is_u32 (newoptions_entry e o) /\ page (newoptions_entry e o) = page e
  /\ get (newoptions_entry e o) bPresent = get e bPresent
  /\ get (newoptions_entry e o) bRw = rw o /\ get (newoptions_entry e o) bUser = user o.
Proof.
  intros He. unfold newoptions_entry, bPresent, bRw, bUser, bCacheoff, bGlobal, bFrompmm, bCow.
  split_and!; [repeat apply set_u32; (done || lia)| | | |];
    first [(rewrite !entry_page_set by (first [lia | repeat apply set_u32; first [done | lia]])); done
          | (repeat (rewrite get_set by (first [lia | repeat apply set_u32; first [done | lia]]))); done].
Qed.

Lemma newoptions_spec s v o : sane s -> is_u32 v -> readable s v = true ->
  let s' := (newoptions s v o).2 in
  sane s' /\ (forall w, mem s' w = mem s w) /\ (forall w, exclusive s w -> exclusive s' w)
  /\ get (entry s' (of_address v)) bRw = rw o /\ get (entry s' (of_address v)) bUser = user o
  /\ get (entry s' (of_address v)) bPresent = true
  /\ (forall j, j <> of_address v -> entry s' j = entry s j)
  /\ phys s' = phys s /\ same_setup s s'.
Proof.
  intros [He Hp Hf Ho] Hv Hr. unfold newoptions. rewrite of_address_page by done. unfold readable in Hr. rewrite Hr. cbn [orb snd].
  set (i := of_address v) in *. set (e := newoptions_entry (entry s i) o).
  destruct (get_newoptions (entry s i) o (entry_u32 s i He)) as (Hu & Hpg & Hpr & Hrw & Hus). fold e in Hu, Hpg, Hpr, Hrw, Hus.
  assert (Hent : forall j, page (entry (set_entry s i e) j) = page (entry s j)
                  /\ get (entry (set_entry s i e) j) bPresent = get (entry s j) bPresent).
  { intros j. destruct (decide (i = j)) as [<-|Hne]; [by rewrite entry_set_eq|by rewrite entry_set_ne]. }
  split_and!.
  - split; [by apply entries_ok_set|done|done|]. intros j Hj. destruct (Hent j) as [-> ->]. by apply Ho.
  - intros w. unfold mem, readable, peek, frame_of. destruct (Hent (of_address w)) as [-> ->]. done.
  - intros w Hex j Hj. unfold frame_of. destruct (Hent j) as [-> ->], (Hent (of_address w)) as [-> _]. by apply Hex.
  - by rewrite entry_set_eq.
  - by rewrite entry_set_eq.
  - by rewrite entry_set_eq, Hpr.
  - intros j Hj. by apply entry_set_ne.
  - done.
  - by split.
Qed.

(** A run of fresh pages: the pages [a] to [a + n - 1] *)
Record fresh_run (s s' : vm) (a n : Z) : Prop := {
  fr_sane : sane s';
  fr_mem w : is_u32 w -> mem s' w = if decide (a <= w / 4096 < a + n) then Some 0 else mem s w;
  fr_writable w : is_u32 w -> a <= w / 4096 < a + n -> writable s' w = true /\ exclusive s' w;
  fr_other w : is_u32 w -> ~ (a <= w / 4096 < a + n) -> entry s' (of_address w) = entry s (of_address w);
  fr_still w : is_u32 w -> ~ (a <= w / 4096 < a + n) -> readable s w = true -> exclusive s w -> exclusive s' w;
  fr_setup : same_setup s s' }.

Lemma map_loop_spec n : forall s a o, sane s -> 0 <= a -> a + Z.of_nat n < 2 ^ 20 ->
  (forall w, is_u32 w -> a <= w / 4096 < a + Z.of_nat n -> readable s w = false) ->
  Z.of_nat n <= Phys.mFreePages (phys s) -> clear o = true -> rw o = true ->
  exists s', map_loop N n s (4096 * a) (4096 * (a + Z.of_nat n) - 1) o = Some s' /\ fresh_run s s' a (Z.of_nat n).
Proof.
  induction n as [|n IH]; intros s a o Hs Ha0 Ha1 Hun Hfree Hcl Hrw.
  { exists s. split.
    - cbn [map_loop]. rewrite (proj2 (Z.ltb_ge _ _)) by lia. done.
    - split; [done|..]; [|lia|done|done|done]. intros w Hw. by rewrite decide_False by lia. }
  cbn [map_loop]. rewrite (proj2 (Z.ltb_lt _ _)) by lia.
  assert (Hu : is_u32 (4096 * a)) by (unfold is_u; lia).
  assert (Hd : 4096 * a / 4096 = a) by (rewrite Z.mul_comm; apply Z.div_mul; lia).
  destruct (map_fresh s (4096 * a) o Hs) as (s1 & -> & [F1 [ph F2] F3 F4 F5 F6 F7 F8]); [|apply Hun; [done|lia]|lia|done|].
  { apply (aligned_mul _ a); [done|lia]. }
  cbn [mbind option_bind]. rewrite (u32_id (4096 * a + gPageSize)) by (unfold is_u, gPageSize; lia).
  replace (4096 * a + gPageSize) with (4096 * (a + 1)) by (unfold gPageSize; lia).
  assert (Hslot : forall w, is_u32 w -> of_address w = of_address (4096 * a) <-> w / 4096 = a).
  { intros w Hw. by rewrite slot_div, Hd. }
  destruct (IH s1 (a + 1) o F1) as (s2 & E & [G1 G2 G3 G4 G5 G6]); [lia|lia| |lia|done|done|].
  { intros w Hw Hin. unfold readable. rewrite F3 by (rewrite Hslot by done; lia). apply Hun; [done|lia]. }
  replace (4096 * (a + Z.of_nat (S n)) - 1) with (4096 * (a + 1 + Z.of_nat n) - 1) by lia. exists s2. split; [done|].
  split; [done|..].
  - intros w Hw. rewrite G2, F4 by done. destruct (decide (a + 1 <= w / 4096 < a + 1 + Z.of_nat n)); [by rewrite decide_True by lia|].
    destruct (decide (of_address w = of_address (4096 * a))) as [Es|Es]; rewrite Hslot in Es by done.
    + by rewrite decide_True by lia.
    + by rewrite decide_False by lia.
  - intros w Hw Hin. destruct (decide (a + 1 <= w / 4096)); [apply G3; [done|lia]|].
    assert (Es : of_address w = of_address (4096 * a)) by (apply Hslot; [done|lia]).
    assert (Hw1 : writable s1 w = true).
    { unfold writable. rewrite Es, (ho_present _ _ _ F2). pose proof (ho_options _ _ _ F2 false) as Ho. by injection Ho as -> _. }
    split; [unfold writable in *; by rewrite G4 by (try done; lia)|].
    apply G5; [done|lia|by apply writable_readable|by apply F5].
  - intros w Hw Hin. rewrite G4 by (try done; lia). apply F3. rewrite Hslot by done. lia.
  - intros w Hw Hin Hr Hex. assert (Hne : of_address w <> of_address (4096 * a)) by (rewrite Hslot by done; lia).
    apply G5; [done|lia|unfold readable; by rewrite F3|]. by apply F6.
  - by etrans.
Qed.

End Sane.
End Cpu.
