(* ===== verification/Space.v ===== *)
(** * Address spaces (kernel/src/mm/virt.cpp: createAddressSpace, cloneAddressSpace,
    cleanAddressSpace, mapOtherProcessPage)

    An address space other than the running one is its page directory, the frames
    of its page tables and the entries of its user half; the tables of the kernel
    half are shared.  The source writes the new tables through scratch mappings of
    their frames, which it takes and drops again; here the entries are written
    directly.  The directories 1022 and 1023, which map the tables themselves, have
    entries without the bit that says that a frame belongs to the page. *)

From stdpp Require Import base numbers list gmap option.
From Stdlib Require Import ZArith Lia Bool.
From S2P Require Import Prelude Interval Phys Virt.

Local Open Scope Z_scope.

Module Space.
Import Entry Indices Virt.

Record space := mkSpace { cr3 : Z; tables : list Z; user_entries : gmap (Z * Z) Z }.

Definition space_entry (sp : space) (i : PagingIndices) : Z := default 0 (user_entries sp !! (dir i, tbl i)).

(** The page tables of a new space: 768 of user space and the last two *)
Definition user_dirs : Z := 768.
Definition new_tables : nat := 770.
Definition user_slots : nat := Z.to_nat (user_dirs * 1024).
Definition first_slot : PagingIndices := mkIndices 0 0.

Lemma user_slots_bound : Z.of_nat user_slots = 768 * 1024.
Proof. unfold user_slots, user_dirs. rewrite Z2Nat.id by lia. done. Qed.

(** Never to be counted out *)
#[global] Opaque user_slots.

Section Allocating.
Context (gNumPages : Z).

Fixpoint alloc_frames (n : nat) (s : vm) : option (list Z * vm) :=
  match n with
  | O => Some ([], s)
  | S n => '(base, s) ← alloc_result gNumPages s; '(l, s) ← alloc_frames n s; Some (base :: l, s)
  end.

(** [tables] is the order of allocation: user space first, then 1022 and 1023. *)
Definition createAddressSpace (s : vm) : option (space * vm) :=
  '(pPageDir, s) ← alloc_result gNumPages s;
  '(l, s) ← alloc_frames new_tables s;
  Some (mkSpace pPageDir l ∅, s).

(** The body of the inner loop of [cloneAddressSpace] *)
Definition clone_slot (i : PagingIndices) (s : vm) (child : gmap (Z * Z) Z) : option (gmap (Z * Z) Z * vm) :=
  let e := entry s i in
  if negb (get e bPresent) then Some (child, s)
  else
    let s := if get e bRw then (markCOW s (address i)).2 else s in
    let e := if get e bRw then set bRw false (set bCow true e) else e in
    p ← (if get e bFrompmm then Phys.alloc_at (phys s) (page e) else Some (phys s));
    Some (<[(dir i, tbl i) := e]> child, set_phys s p).

Fixpoint clone_slots (n : nat) (i : PagingIndices) (s : vm) (child : gmap (Z * Z) Z) : option (gmap (Z * Z) Z * vm) :=
  match n with
  | O => Some (child, s)
  | S n => '(child, s) ← clone_slot i s child; clone_slots n (next i) s child
  end.

(** [n] slots, which are all those of user space *)
Definition clone_space (n : nat) (s : vm) : option (space * vm) :=
  '(sp, s) ← createAddressSpace s;
  '(child, s) ← clone_slots n first_slot s (user_entries sp);
  Some (mkSpace (cr3 sp) (tables sp) child, s).

Definition cloneAddressSpace (s : vm) : option (space * vm) := clone_space user_slots s.

End Allocating.

(** [cleanAddressSpace] of a space: the frames its pages own, then its tables. *)
Fixpoint clean_slots (n : nat) (i : PagingIndices) (sp : space) (p : Phys.pmm) : option Phys.pmm :=
  match n with
  | O => Some p
  | S n =>
      let e := space_entry sp i in
      p ← (if get e bPresent && get e bFrompmm then Phys.dealloc p (page e) else Some p);
      clean_slots n (next i) sp p
  end.

Fixpoint dealloc_all (l : list Z) (p : Phys.pmm) : option Phys.pmm :=
  match l with
  | [] => Some p
  | a :: l => p ← Phys.dealloc p a; dealloc_all l p
  end.

Definition clean_space (n : nat) (sp : space) (p : Phys.pmm) : option Phys.pmm :=
  p ← clean_slots n first_slot sp p;
  dealloc_all (tables sp) p.

Definition cleanAddressSpace (sp : space) (p : Phys.pmm) : option Phys.pmm := clean_space user_slots sp p.

(** What is left goes when the process object does (kernel/src/tasks/deleter.cpp). *)
Definition dropSpace (sp : space) (p : Phys.pmm) : option Phys.pmm :=
  p ← cleanAddressSpace sp p; Phys.dealloc p (cr3 sp).

(** [mapOtherProcessPage]: the page of another space, in this one *)
Definition mapOtherProcessPage (s : vm) (other : space) (otherVirt selfVirt : Z) (op : map_options_t) : option (Z * vm) :=
  let e := space_entry other (of_address otherVirt) in
  if negb (get e bPresent) then Some (0, s)
  else
    let isFromPMM := get e bFrompmm in
    p ← (if isFromPMM then Phys.alloc_at (phys s) (page e) else Some (phys s));
    '(_, s) ← map (set_phys s p) (page e) selfVirt (with_frompmm op isFromPMM);
    Some (selfVirt, s).

(** ** Frames *)

Fixpoint alloc_all (l : list Z) (p : Phys.pmm) : option Phys.pmm :=
  match l with
  | [] => Some p
  | a :: l => p ← Phys.alloc_at p a; alloc_all l p
  end.

(** How often a list names the frame with number [j] *)
Definition uses (l : list Z) (j : Z) : Z := Z.of_nat (length (filter (fun a => Phys.index a = j) l)).

Lemma uses_cons a l j : uses (a :: l) j = (if decide (Phys.index a = j) then 1 else 0) + uses l j.
Proof. unfold uses. rewrite filter_cons. case_decide; simpl; lia. Qed.

Lemma uses_nonneg l j : 0 <= uses l j.
Proof. unfold uses. lia. Qed.

Lemma uses_app l1 l2 j : uses (l1 ++ l2) j = uses l1 j + uses l2 j.
Proof. unfold uses. rewrite list.filter_app, length_app. lia. Qed.

Section Frames.
Context (N : Z).

(** [p] counts [k j] more users of the frame [j] than [q] *)
Definition more (p q : Phys.pmm) (k : Z -> Z) : Prop :=
  forall j, Phys.page p j = Phys.mkPage (Phys.usable (Phys.page q j)) (Phys.refcnt (Phys.page q j) + k j).

Lemma page_eta g : g = Phys.mkPage (Phys.usable g) (Phys.refcnt g).
Proof. by destruct g. Qed.

(** One more user of each frame of a list *)
Lemma alloc_all_spec l : forall p, Phys.ok N p ->
  (forall a, a ∈ l -> Phys.usable (Phys.page p (Phys.index a)) = true
                      /\ Phys.refcnt (Phys.page p (Phys.index a)) + uses l (Phys.index a) < 256) ->
  exists p', alloc_all l p = Some p' /\ Phys.ok N p' /\ more p' p (uses l).
Proof.
  induction l as [|a l IH]; intros p Hp Hl; cbn [alloc_all].
  { exists p. split_and!; [done..|]. intros j. unfold uses. simpl. rewrite Z.add_0_r. apply page_eta. }
  destruct (Hl a ltac:(left)) as [Hu Hr]. rewrite uses_cons, decide_True in Hr by done. pose proof (uses_nonneg l (Phys.index a)).
  destruct (Phys.alloc_at_spec N p a Hp Hu ltac:(lia)) as (p1 & -> & Hp1 & Ha & Ho). cbn [mbind option_bind].
  destruct (IH p1 Hp1) as (p2 & -> & Hp2 & Hm).
  { intros b Hb. destruct (Hl b ltac:(by right)) as [Hub Hrb]. rewrite uses_cons in Hrb.
    destruct (decide (Phys.index b = Phys.index a)) as [E|E].
    - rewrite E in *. rewrite Ha. rewrite decide_True in Hrb by done. simpl. split; [done|lia].
    - rewrite Ho by done. rewrite decide_False in Hrb by congruence. split; [done|lia]. }
  exists p2. split_and!; [done..|]. intros j. rewrite Hm, uses_cons. destruct (decide (Phys.index a = j)) as [<-|E].
  - rewrite Ha, Hu. simpl. f_equal. lia.
  - rewrite Ho by congruence. f_equal.
Qed.

(** One user less *)
Lemma dealloc_all_spec l : forall p, Phys.ok N p ->
  (forall a, a ∈ l -> Phys.usable (Phys.page p (Phys.index a)) = true
                      /\ uses l (Phys.index a) <= Phys.refcnt (Phys.page p (Phys.index a))) ->
  exists p', dealloc_all l p = Some p' /\ Phys.ok N p' /\ more p' p (fun j => - uses l j).
Proof.
  induction l as [|a l IH]; intros p Hp Hl; cbn [dealloc_all].
  { exists p. split_and!; [done..|]. intros j. unfold uses. simpl. rewrite Z.add_0_r. apply page_eta. }
  destruct (Hl a ltac:(left)) as [Hu Hr]. rewrite uses_cons, decide_True in Hr by done. pose proof (uses_nonneg l (Phys.index a)).
  destruct (Phys.dealloc_spec N p a Hp Hu ltac:(lia)) as (p1 & -> & Hp1 & Ha & Ho). cbn [mbind option_bind].
  destruct (IH p1 Hp1) as (p2 & -> & Hp2 & Hm).
  { intros b Hb. destruct (Hl b ltac:(by right)) as [Hub Hrb]. rewrite uses_cons in Hrb.
    destruct (decide (Phys.index b = Phys.index a)) as [E|E].
    - rewrite E in *. rewrite Ha. rewrite decide_True in Hrb by done. simpl. split; [done|lia].
    - rewrite Ho by done. rewrite decide_False in Hrb by congruence. split; [done|lia]. }
  exists p2. split_and!; [done..|]. intros j. rewrite Hm, uses_cons. destruct (decide (Phys.index a = j)) as [<-|E].
  - rewrite Ha, Hu. simpl. f_equal. lia.
  - rewrite Ho by congruence. f_equal.
Qed.

(** The number of free pages only depends on the pages. *)
Lemma count_free_filter m : Phys.count_free m = Z.of_nat (size (filter (fun kv => Phys.available kv.2 = true) m)).
Proof.
  induction m as [|i g m Hi IH] using map_ind; [done|]. rewrite Phys.count_insert_new by done. rewrite map_filter_insert. simpl.
  destruct (decide (Phys.available g = true)) as [Hg|Hg].
  - rewrite Hg, IH. rewrite map_size_insert_None; [lia|]. apply map_lookup_filter_None. by left.
  - rewrite IH, delete_id by done. by destruct (Phys.available g).
Qed.

Lemma free_pages p q : Phys.ok N p -> Phys.ok N q -> (forall j, Phys.page p j = Phys.page q j) -> Phys.mFreePages p = Phys.mFreePages q.
Proof.
  intros Hp Hq E. rewrite (Phys.ok_free _ _ Hp), (Phys.ok_free _ _ Hq), !count_free_filter. do 2 f_equal.
  assert (Hsub : forall a b, (forall j, Phys.page a j = Phys.page b j) -> forall i g,
    filter (fun kv => Phys.available kv.2 = true) (Phys.mPages a) !! i = Some g ->
    filter (fun kv => Phys.available kv.2 = true) (Phys.mPages b) !! i = Some g).
  { intros a b Hab i g. rewrite !map_lookup_filter_Some. intros [Hi Hg]. split; [|done]. specialize (Hab i). unfold Phys.page in Hab.
    rewrite Hi in Hab. simpl in *. destruct (Phys.mPages b !! i) as [g'|]; simpl in Hab; subst; done. }
  apply map_eq. intros i. apply option_eq. intros g. split; apply Hsub; [exact E|intros j; by rewrite E].
Qed.

Lemma refcnt_nonneg p j : Phys.ok N p -> 0 <= Phys.refcnt (Phys.page p j).
Proof.
  intros Hp. unfold Phys.page. destruct (Phys.mPages p !! j) as [g|] eqn:E; simpl; [|lia].
  pose proof (Phys.ok_count _ _ Hp _ _ E). lia.
Qed.

Lemma more_trans p q r k1 k2 : more p q k1 -> more q r k2 -> more p r (fun j => k1 j + k2 j).
Proof. intros H1 H2 j. rewrite H1, H2. simpl. f_equal. lia. Qed.

Lemma more_ext p q k1 k2 : (forall j, k1 j = k2 j) -> more p q k1 -> more p q k2.
Proof. intros E H j. by rewrite H, E. Qed.

Lemma dealloc_all_app l1 l2 p : dealloc_all (l1 ++ l2) p = dealloc_all l1 p ≫= dealloc_all l2.
Proof.
  revert p. induction l1 as [|a l1 IH]; intros p; [done|]. cbn [app dealloc_all].
  destruct (Phys.dealloc p a) as [p1|]; [|done]. cbn [mbind option_bind]. apply IH.
Qed.

(** Giving back what was taken restores every page and the number of free ones. *)
Lemma dealloc_restores l p q : Phys.ok N p -> Phys.ok N q -> more q p (uses l) ->
  (forall a, a ∈ l -> Phys.usable (Phys.page p (Phys.index a)) = true) ->
  exists p', dealloc_all l q = Some p' /\ Phys.ok N p' /\ (forall j, Phys.page p' j = Phys.page p j)
    /\ Phys.mFreePages p' = Phys.mFreePages p.
Proof.
  intros Hp Hq Hm Hu. destruct (dealloc_all_spec l q Hq) as (p' & -> & Hp' & Hm').
  { intros a Ha. rewrite Hm. simpl. split; [by apply Hu|]. pose proof (refcnt_nonneg p (Phys.index a) Hp). lia. }
  assert (E : forall j, Phys.page p' j = Phys.page p j).
  { intros j. rewrite Hm', Hm. simpl. rewrite (page_eta (Phys.page p j)) at 3. f_equal. lia. }
  exists p'. split_and!; try done. by apply free_pages.
Qed.

(** What fresh frames change *)
Record took (s s' : vm) (l : list Z) : Prop := {
  tk_ok : Phys.ok N (phys s');
  tk_more : more (phys s') (phys s) (uses l);
  tk_fresh a : a ∈ l -> Phys.available (Phys.page (phys s) (Phys.index a)) = true;
  tk_free : Phys.mFreePages (phys s') = Phys.mFreePages (phys s) - Z.of_nat (length l);
  tk_same : s' = set_phys s (phys s') }.

Lemma alloc_result_spec s : Phys.ok N (phys s) -> 0 < Phys.mFreePages (phys s) ->
  exists a s', alloc_result N s = Some (a, s') /\ took s s' [a].
Proof.
  intros Hp Hf. unfold alloc_result. pose proof (Phys.alloc_spec N (phys s) Hp) as Ha.
  destruct (Phys.alloc N (phys s)) as [[base p]|]; [|lia]. destruct Ha as (i & -> & Hi & Hav & Hpg & Ho & Hfr & Hok).
  cbn [mbind option_bind]. eexists _, _. split; [done|]. split; [done| | |done|done].
  - intros j. rewrite uses_cons, Phys.index_frame. cbn [set_phys phys]. change (uses [] j) with 0. case_decide as E.
    + subst j. rewrite Hpg. unfold Phys.available, Phys.free in Hav. apply andb_true_iff in Hav as [-> Hz%Z.eqb_eq]. by rewrite Hz.
    + rewrite Ho by congruence. rewrite Z.add_0_l, Z.add_0_r. apply page_eta.
  - intros a Ha%list_elem_of_singleton. subst a. by rewrite Phys.index_frame.
Qed.

Lemma took_trans s s1 s2 l1 l2 : Phys.ok N (phys s) -> took s s1 l1 -> took s1 s2 l2 -> took s s2 (l1 ++ l2).
Proof.
  intros Hp [A1 A2 A3 A4 A5] [B1 B2 B3 B4 B5]. split; [done| | | |].
  - eapply more_ext; [|by eapply more_trans]. intros j. rewrite uses_app. lia.
  - intros a [Ha|Ha]%elem_of_app; [by apply A3|]. specialize (B3 a Ha). rewrite A2 in B3.
    unfold Phys.available, Phys.free in *. simpl in B3. apply andb_true_iff in B3 as [-> Hz%Z.eqb_eq]. simpl.
    pose proof (uses_nonneg l1 (Phys.index a)). pose proof (refcnt_nonneg (phys s) (Phys.index a) Hp). apply Z.eqb_eq. lia.
  - rewrite B4, A4, length_app. lia.
  - rewrite B5, A5. done.
Qed.

Lemma took_nil s : Phys.ok N (phys s) -> took s s [].
Proof.
  intros Hp. split; [done| |intros a Ha; by apply not_elem_of_nil in Ha|simpl; lia|by destruct s].
  intros j. change (uses [] j) with 0. rewrite Z.add_0_r. apply page_eta.
Qed.

Lemma alloc_frames_spec n : forall s, Phys.ok N (phys s) -> Z.of_nat n <= Phys.mFreePages (phys s) ->
  exists l s', alloc_frames N n s = Some (l, s') /\ took s s' l /\ length l = n.
Proof.
  induction n as [|n IH]; intros s Hp Hf; cbn [alloc_frames].
  { exists [], s. split; [done|]. split; [by apply took_nil|done]. }
  destruct (alloc_result_spec s Hp ltac:(lia)) as (a & s1 & -> & H1). cbn [mbind option_bind].
  destruct (IH s1 (tk_ok _ _ _ H1)) as (l & s2 & -> & H2 & Hlen); [rewrite (tk_free _ _ _ H1); simpl; lia|].
  cbn [mbind option_bind]. exists (a :: l), s2. split; [done|]. split; [by eapply (took_trans s s1 s2 [a] l)|simpl; lia].
Qed.

Lemma create_spec s : Phys.ok N (phys s) -> Z.of_nat (S new_tables) <= Phys.mFreePages (phys s) ->
  exists sp s', createAddressSpace N s = Some (sp, s') /\ took s s' (cr3 sp :: tables sp) /\ user_entries sp = ∅.
Proof.
  intros Hp Hf. unfold createAddressSpace.
  destruct (alloc_result_spec s Hp ltac:(lia)) as (a & s1 & -> & H1). cbn [mbind option_bind].
  destruct (alloc_frames_spec new_tables s1 (tk_ok _ _ _ H1)) as (l & s2 & -> & H2 & Hlen).
  { rewrite (tk_free _ _ _ H1). cbn [length]. lia. }
  cbn [mbind option_bind]. eexists _, s2. split; [done|]. split; [|done]. by eapply (took_trans s s1 s2 [a] l).
Qed.

End Frames.

(** ** Sharing pages *)

(** The entry of a page that two spaces share *)
Definition cow_entry (e : Z) : Z := if get e bPresent && get e bRw then set bRw false (set bCow true e) else e.

Lemma newoptions_cow e : is_u32 e ->
  newoptions_entry e (with_cow (with_rw (read_options e default_options) false) true) = set bRw false (set bCow true e).
Proof.
  intros He. unfold newoptions_entry, read_options, with_cow, with_rw. cbn [rw user cow cached global frompmm].
  rewrite negb_involutive. unfold bRw, bUser, bCacheoff, bGlobal, bFrompmm, bCow.
  apply Z.bits_inj'. intros k Hk. repeat (rewrite testbit_set by (first [lia | repeat apply set_u32; first [done | lia]])).
  rewrite !get_testbit by lia.
  destruct (Z.eqb_spec 10 k) as [<-|]; [done|]. destruct (Z.eqb_spec 9 k) as [<-|]; [done|]. destruct (Z.eqb_spec 8 k) as [<-|]; [done|].
  destruct (Z.eqb_spec 4 k) as [<-|]; [done|]. destruct (Z.eqb_spec 2 k) as [<-|]; done.
Qed.

Lemma cow_entry_spec e : is_u32 e ->
  is_u32 (cow_entry e) /\ page (cow_entry e) = page e /\ get (cow_entry e) bPresent = get e bPresent
  /\ get (cow_entry e) bFrompmm = get e bFrompmm /\ get (cow_entry e) bUser = get e bUser
  /\ (get e bPresent = true -> get (cow_entry e) bRw = false)
  /\ (get e bPresent = true -> get e bRw = true -> get (cow_entry e) bCow = true).
Proof.
  intros He. unfold cow_entry. destruct (get e bPresent) eqn:Hp, (get e bRw) eqn:Hr; cbn [andb]; try (by split_and!).
  unfold bPresent, bRw, bCow, bFrompmm, bUser in *.
  split_and!; [repeat apply set_u32; (done || lia)|..]; try (intros _; try intros _);
    first [rewrite !entry_page_set by (first [lia | repeat apply set_u32; first [done | lia]]); done
          |repeat (rewrite get_set by (first [lia | repeat apply set_u32; first [done | lia]])); done].
Qed.

Lemma markCOW_spec s i : entries_ok s -> wf i -> get (entry s i) bPresent = true ->
  (markCOW s (address i)).2 = set_entry s i (set bRw false (set bCow true (entry s i))).
Proof.
  intros Hs Hi Hp. unfold markCOW. rewrite mapped_entry, Hp by done. unfold newoptions.
  rewrite aligned_page_of, of_address_address, Hp by (done || by apply address_aligned). cbn [orb snd].
  by rewrite newoptions_cow by (by apply entry_u32).
Qed.

(** The frames that the pages of some slots own *)
Fixpoint owned (ent : PagingIndices -> Z) (n : nat) (i : PagingIndices) : list Z :=
  match n with
  | O => []
  | S n => (if get (ent i) bPresent && get (ent i) bFrompmm then [page (ent i)] else []) ++ owned ent n (next i)
  end.

Definition in_slots (i : PagingIndices) (n : nat) (j : PagingIndices) : Prop := number i <= number j < number i + Z.of_nat n.

#[global] Instance in_slots_dec i n j : Decision (in_slots i n j).
Proof. unfold in_slots. apply _. Defined.

Lemma owned_ext n : forall i e1 e2, wf i -> number i + Z.of_nat n <= 2 ^ 20 ->
  (forall j, wf j -> in_slots i n j -> get (e1 j) bPresent = get (e2 j) bPresent /\
     (get (e1 j) bPresent = true -> get (e1 j) bFrompmm = get (e2 j) bFrompmm /\ page (e1 j) = page (e2 j))) ->
  owned e1 n i = owned e2 n i.
Proof.
  induction n as [|n IH]; intros i e1 e2 Hi Hn H; [done|]. cbn [owned].
  destruct (H i Hi ltac:(unfold in_slots; lia)) as [Hp Hf]. rewrite <- Hp. f_equal.
  - destruct (get (e1 i) bPresent); [|done]. destruct (Hf eq_refl) as [-> ->]. done.
  - destruct n as [|n]; [done|]. destruct (next_number i Hi) as [Hw Hnum]. rewrite Z.mod_small in Hnum by (destruct Hi; unfold number in *; lia).
    apply IH; [done|lia|]. intros j Hj Hin. apply H; [done|]. unfold in_slots in *. lia.
Qed.

Lemma clean_slots_owned n : forall i sp p, clean_slots n i sp p = dealloc_all (owned (space_entry sp) n i) p.
Proof.
  induction n as [|n IH]; intros i sp p; [done|]. cbn [clean_slots owned].
  destruct (get (space_entry sp i) bPresent && get (space_entry sp i) bFrompmm); cbn [app dealloc_all]; [|apply IH].
  destruct (Phys.dealloc p (page (space_entry sp i))); [|done]. cbn [mbind option_bind]. apply IH.
Qed.

(** What the loop over the slots does to both spaces *)
Record shared (s s' : vm) (child child' : gmap (Z * Z) Z) (i : PagingIndices) (n : nat) : Prop := {
  sh_entries : entries_ok s';
  sh_parent j : wf j -> entry s' j = if decide (in_slots i n j) then cow_entry (entry s j) else entry s j;
  sh_child j : wf j -> default 0 (child' !! (dir j, tbl j))
    = if decide (in_slots i n j /\ get (entry s j) bPresent = true) then cow_entry (entry s j) else default 0 (child !! (dir j, tbl j));
  sh_frames : frames s' = frames s }.

Lemma clone_slot_spec i s child p : entries_ok s -> wf i ->
  alloc_all (if get (entry s i) bPresent && get (entry s i) bFrompmm then [page (entry s i)] else []) (phys s) = Some p ->
  exists child' s', clone_slot i s child = Some (child', s') /\ phys s' = p /\ shared s s' child child' i 1.
Proof.
  intros Hs Hi Hp. unfold clone_slot. assert (He : is_u32 (entry s i)) by (by apply entry_u32).
  assert (Hone : forall j, wf j -> in_slots i 1 j <-> j = i).
  { intros j Hj. unfold in_slots. split; [intros H; apply number_inj; [done|done|lia]|intros ->; lia]. }
  destruct (get (entry s i) bPresent) eqn:Hpr; cbn [andb negb] in *.
  - destruct (cow_entry_spec (entry s i) He) as (Hu & Hpg & _ & Hfp & _).
    set (e := if get (entry s i) bRw then set bRw false (set bCow true (entry s i)) else entry s i).
    assert (Ee : e = cow_entry (entry s i)) by (unfold e, cow_entry; by rewrite Hpr).
    set (s1 := if get (entry s i) bRw then (markCOW s (address i)).2 else s).
    assert (Es : entry s1 i = cow_entry (entry s i) /\ (forall j, j <> i -> entry s1 j = entry s j)
      /\ entries_ok s1 /\ phys s1 = phys s /\ frames s1 = frames s).
    { unfold s1, cow_entry. rewrite Hpr. destruct (get (entry s i) bRw) eqn:Hrw; cbn [andb]; [|by split_and!].
      rewrite markCOW_spec by done. split_and!; [by rewrite entry_set_eq|intros j Hj; by rewrite entry_set_ne| |done|done].
      apply entries_ok_set; [done|]. unfold bRw, bCow. repeat apply set_u32; (done || lia). }
    destruct Es as (E1 & E2 & E3 & E4 & E5). rewrite Ee, Hfp, Hpg, E4.
    assert (Ha : (if get (entry s i) bFrompmm then Phys.alloc_at (phys s) (page (entry s i)) else Some (phys s)) = Some p).
    { destruct (get (entry s i) bFrompmm); [|done]. cbn [alloc_all] in Hp. by destruct (Phys.alloc_at (phys s) (page (entry s i))). }
    rewrite Ha. cbn [mbind option_bind]. eexists _, _. split; [done|]. split; [done|]. split; [done| | |done].
    + intros j Hj. change (entry (set_phys s1 p) j) with (entry s1 j). destruct (decide (in_slots i 1 j)) as [Hin|Hin]; rewrite Hone in Hin by done.
      * by subst j.
      * by apply E2.
    + intros j Hj. destruct (decide (j = i)) as [->|Hne].
      * rewrite lookup_insert_eq, decide_True; [done|]. split; [by apply Hone|done].
      * rewrite lookup_insert_ne by (intros [= ? ?]; destruct i, j; simpl in *; congruence).
        rewrite decide_False; [done|]. intros [Hin _]. by apply Hone in Hin.
  - injection Hp as <-. eexists _, s. split; [done|]. split; [done|]. split; [done| | |done].
    + intros j Hj. case_decide as Hin; [|done]. apply Hone in Hin as ->; [|done]. unfold cow_entry. by rewrite Hpr.
    + intros j Hj. rewrite decide_False; [done|]. intros [Hin Hpj]. apply Hone in Hin as ->; [congruence|done].
Qed.

Lemma alloc_all_app l1 l2 p : alloc_all (l1 ++ l2) p = alloc_all l1 p ≫= alloc_all l2.
Proof.
  revert p. induction l1 as [|a l1 IH]; intros p; [done|]. cbn [app alloc_all].
  destruct (Phys.alloc_at p a) as [p1|]; [|done]. cbn [mbind option_bind]. apply IH.
Qed.

Lemma clone_slots_spec n : forall i s child p, entries_ok s -> wf i -> number i + Z.of_nat n <= 2 ^ 20 ->
  alloc_all (owned (entry s) n i) (phys s) = Some p ->
  exists child' s', clone_slots n i s child = Some (child', s') /\ phys s' = p /\ shared s s' child child' i n.
Proof.
  induction n as [|n IH]; intros i s child p Hs Hi Hn Hp; cbn [clone_slots].
  { injection Hp as <-. exists child, s. split; [done|]. split; [done|]. split; [done| | |done]; intros j Hj;
      rewrite decide_False; try done; unfold in_slots; lia. }
  cbn [owned] in Hp. rewrite alloc_all_app in Hp. apply bind_Some in Hp as (p1 & Hp1 & Hp2).
  destruct (clone_slot_spec i s child p1 Hs Hi Hp1) as (c1 & s1 & -> & Hph & [A1 A2 A3 A4]). cbn [mbind option_bind].
  destruct n as [|n].
  { cbn [clone_slots]. injection Hp2 as <-. exists c1, s1. by split_and!. }
  destruct (next_number i Hi) as [Hw Hnum]. rewrite Z.mod_small in Hnum by (destruct Hi; unfold number in *; lia).
  destruct (IH (next i) s1 c1 p A1 Hw) as (c2 & s2 & -> & Hph2 & [B1 B2 B3 B4]); [lia| |].
  { rewrite Hph. rewrite <- Hp2. f_equal. apply owned_ext; [done|lia|]. intros j Hj Hin. unfold in_slots in Hin.
    rewrite A2, decide_False by (try done; unfold in_slots; lia). done. }
  exists c2, s2. split; [done|]. split; [done|]. split; [done| | |by rewrite B4].
  - intros j Hj. rewrite B2, A2 by done. unfold in_slots in *. repeat case_decide; try done; lia.
  - intros j Hj. rewrite B3, A3, A2 by done. destruct (decide (j = i)) as [->|Hne].
    + rewrite (decide_False (P := in_slots (next i) (S n) i /\ _)) by (unfold in_slots; lia).
      destruct (get (entry s i) bPresent).
      * rewrite !decide_True; [done| |]; (split; [unfold in_slots; lia|done]).
      * rewrite !decide_False by (by intros [_ ?]). done.
    + assert (Hni : ~ in_slots i 1 j).
      { intros Hin. apply Hne, number_inj; [done|done|]. unfold in_slots in Hin. lia. }
      rewrite (decide_False (P := in_slots i 1 j)) by done. rewrite (decide_False (P := in_slots i 1 j /\ _)) by tauto.
      assert (Hiff : in_slots i (S (S n)) j <-> in_slots (next i) (S n) j) by (unfold in_slots in *; lia).
      destruct (decide (in_slots (next i) (S n) j /\ get (entry s j) bPresent = true)) as [[H1 H2]|H].
      * rewrite decide_True; [done|]. by rewrite Hiff.
      * rewrite decide_False; [done|]. by rewrite Hiff.
Qed.

End Space.
