(* ===== verification/RamFs.v ===== *)
(** * Filesystems in memory
    (kernel/src/fs/memfs, kernel/src/fs/devfs, kernel/src/fs/initrd,
    kernel/src/drivers/ramdisk/devicefile.cpp, initrd/gen.py)

    [MemFS] is the tree of directories and files behind /devices: entities live in
    a store by address, a directory finds its children through the hash table of
    [Hash], a path is taken apart with [strsep].  What a file contains is known
    through the class [FileBuffer] only.  [DevFS] makes the directories of the
    drivers; [RamVolume] is a disk in memory.  [InitRd] reads the
    packed image the boot loader passes to the kernel and writes it as gen.py does. *)

From stdpp Require Import base numbers list gmap option strings.
From Stdlib Require Import ZArith Lia Ascii.
From S2P Require Import Prelude Hash KeyedStore Lru Interval Phys Virt Files MemMgr Volume Cpu.

Local Open Scope Z_scope.

Module MemFS.
Import KStr.

Inductive kind_t :=
  | directory | file | blockdevice | chardevice | pipe | msgqueue | tty | semaphore | mutex | event.

#[global] Instance kind_t_eq_dec : EqDecision kind_t.
Proof. solve_decision. Defined.

Definition dir_like (k : kind_t) : bool := match k with directory => true | _ => false end.

Definition FILE_OPEN_READ : Z := 1.
Definition FILE_OPEN_WRITE : Z := 2.
Definition FILE_OPEN_NEW : Z := 4.
Definition FILE_OPEN_APPEND : Z := 16.

Record file_stat_t := mkStat { st_kind : kind_t; st_size : Z; st_time : Z }.
Record file_info_t := mkInfo { fi_size : Z; fi_time : Z; fi_name : list Z; fi_kind : kind_t }.

(** *** Contents

    [b_get]: [at(idx, &dest)], [None] when it returns false; [b_put]: [at(idx, c)]. *)
Class FileBuffer (B : Type) := {
  b_len : B -> Z;
  b_get : B -> Z -> option Z;
  b_put : B -> Z -> Z -> option B;
}.

(** What the readers rely on: the bytes are those below the length. *)
Class FileBufferLaws (B : Type) `{FileBuffer B} := {
  b_content : B -> list Z;
  b_len_content : forall b, b_len b = Z.of_nat (length (b_content b));
  b_get_content : forall b i, 0 <= i -> b_get b i = b_content b !! Z.to_nat i;
}.

Inductive EmptyBuffer := emptyBuffer.
#[global] Instance EmptyBuffer_FileBuffer : FileBuffer EmptyBuffer := {
  b_len _ := 0;
  b_get _ _ := None;
  b_put _ _ _ := None;
}.

Definition uchar (c : ascii) : Z := Z.of_nat (nat_of_ascii c).

Inductive StringBuffer := stringBuffer (mData : kstring).
Definition sb_data (b : StringBuffer) : kstring := match b with stringBuffer s => s end.
(** [mData[idx]] below the size *)
Definition sb_at (b : StringBuffer) (idx : Z) : option Z :=
  if Z.of_nat (KStr.size (sb_data b)) <=? idx then None
  else s ← mBuffer (sb_data b); uchar <$> String.get (Z.to_nat idx) s.
#[global] Instance StringBuffer_FileBuffer : FileBuffer StringBuffer := {
  b_len b := Z.of_nat (KStr.size (sb_data b));
  b_get := sb_at;
  b_put _ _ _ := None;
}.

(** The [mSize] bytes at [mBuffer], or a null pointer. *)
Inductive ExternalDataBuffer := externalDataBuffer (mBuffer : option (list Z)).
Definition xb_len (b : ExternalDataBuffer) : Z :=
  match b with
  | externalDataBuffer (Some d) => Z.of_nat (length d)
  | externalDataBuffer None => 0
  end.
Definition xb_at (b : ExternalDataBuffer) (idx : Z) : option Z :=
  if xb_len b <=? idx then None
  else match b with externalDataBuffer d => d ← d; d !! Z.to_nat idx end.
#[global] Instance ExternalDataBuffer_FileBuffer : FileBuffer ExternalDataBuffer := {
  b_len := xb_len;
  b_get := xb_at;
  b_put _ _ _ := None;
}.

Section Content.
Context {B : Type} `{FileBuffer B}.

(** [FileBuffer::write]: the characters that were refused are not counted. *)
Fixpoint write_loop (b : B) (pos i : Z) (data : list Z) : B * Z :=
  match data with
  | [] => (b, 0)
  | c :: data =>
      match b_put b (u32 (pos + i)) c with
      | Some b' => let '(b'', total) := write_loop b' pos (u32 (i + 1)) data in (b'', total + 1)
      | None => write_loop b pos (u32 (i + 1)) data
      end
  end.
Definition buffer_write (b : B) (pos : Z) (data : list Z) : B * Z := write_loop b pos 0 data.

(** [FileBuffer::read]: the bytes stored at [dest], one after the other; the
    length is compared after a byte has been stored. *)
Fixpoint read_loop (fuel : nat) (b : B) (pos len idx : Z) : option (list Z) :=
  match fuel with
  | O => None
  | S fuel =>
      match b_get b (u32 (pos + idx)) with
      | None => Some []
      | Some c =>
          if u32 (idx + 1) =? len then Some [c]
          else rest ← read_loop fuel b pos len (u32 (idx + 1)); Some (c :: rest)
      end
  end.
Definition buffer_read (b : B) (pos len : Z) : option (list Z) :=
  read_loop (S (Z.to_nat (b_len b))) b pos len 0.

(** *** Open files *)

Record FileStream := mkStream { mFile : Z; s_content : B; mIndex : Z; mMode : Z }.
Implicit Types f : FileStream.

Definition at_index f (i : Z) : FileStream := mkStream (mFile f) (s_content f) i (mMode f).

Definition stream_seek f (index : Z) : FileStream * bool :=
  if index <? b_len (s_content f) then (at_index f index, true) else (f, false).

Definition stream_tell f : Z := mIndex f.

Definition stream_read f (n : Z) : option (FileStream * list Z) :=
  if Z.land (mMode f) FILE_OPEN_READ =? 0 then Some (f, [])
  else
    data ← buffer_read (s_content f) (mIndex f) n;
    Some (at_index f (u32 (mIndex f + Z.of_nat (length data))), data).

Definition stream_write f (src : list Z) : FileStream * Z :=
  if Z.land (mMode f) FILE_OPEN_WRITE =? 0 then (f, 0)
  else
    let '(b, len) := buffer_write (s_content f) (mIndex f) src in
    (mkStream (mFile f) b (u32 (mIndex f + len)) (mMode f), len).

End Content.

(** *** Entities *)

(** [key[0]] as [size_t]; the terminator for the empty string *)
Definition index (key : kstring) : Z :=
  match mBuffer key with
  | Some (String c _) => u32 (KeyedStore.schar c)
  | _ => 0
  end.

Definition buckets : nat := 256.

Record directory_t := mkDirectory {
  mContent : list (list (kstring * Z));
  mIterableContent : list Z;
  mLocked : Z;
}.

Section Tree.
(** [C]: the objects of the classes derived from [MemFS::File]; [content] is
    their virtual method, null when it has nothing to give. *)
Context {C B : Type} `{FileBuffer B} (content : C -> option B).

Inductive body := Dir (d : directory_t) | Reg (c : C).

Record entity := mkEntity { mKind : kind_t; mName : kstring; mTime : Z; mBody : body }.

(** The entities that exist, by address *)
Abbreviation store := (gmap Z entity).
Implicit Types (st : store) (d e : Z).

Definition newDirectory (name : option string) (now : Z) : entity :=
  mkEntity directory (of_cstr name) now (Dir (mkDirectory (Hash.new buckets) [] 0)).
Definition newFile (name : option string) (now : Z) (c : C) : entity :=
  mkEntity file (of_cstr name) now (Reg c).

Definition dir_of st d : option directory_t :=
  en ← st !! d; match mBody en with Dir dd => Some dd | Reg _ => None end.
Definition set_dir st d (dd : directory_t) : store :=
  match st !! d with
  | Some en => <[d := mkEntity (mKind en) (mName en) (mTime en) (Dir dd)]> st
  | None => st
  end.

(** [None]: a null or dangling pointer, or an object of the wrong class. *)
Definition add st d e : option (store * bool) :=
  dd ← dir_of st d;
  if negb (mLocked dd =? 0) then Some (st, false)
  else
    en ← st !! e;
    name ← mBuffer (mName en);
    tbl ← Hash.insert index eqb buckets (mContent dd) (of_cstr (Some name)) e;
    Some (set_dir st d (mkDirectory tbl (mIterableContent dd ++ [e]) (mLocked dd)), true).

(** [strsep(&s, "/")]: the token, and what is behind the separator *)
Fixpoint strsep (s : string) : string * option string :=
  match s with
  | EmptyString => (EmptyString, None)
  | String c s =>
      if Ascii.eqb c VFS.slash then (EmptyString, Some s)
      else let '(tok, rest) := strsep s in (String c tok, rest)
  end.

Fixpoint get_loop (fuel : nat) st (result : Z) (s : string) : option (option Z) :=
  match fuel with
  | O => None
  | S fuel =>
      let '(tok, stringp) := strsep s in
      en ← st !! result;
      if negb (bool_decide (mKind en = directory)) then Some None
      else
        dd ← dir_of st result;
        found ← Hash.find index eqb buckets (mContent dd) (of_cstr (Some tok));
        match found with
        | None => Some None
        | Some entity =>
            match stringp with
            | None => Some (Some entity)
            | Some s => get_loop fuel st entity s
            end
        end
  end.

(** [Some None] is a null pointer. *)
Definition get st d (path : option string) : option (option Z) :=
  path ← path;
  let s := VFS.skip_slash path in
  match s with
  | EmptyString => Some (Some d)
  | _ => get_loop (S (String.length s)) st d s
  end.

Definition lock st d : option store :=
  dd ← dir_of st d;
  Some (set_dir st d (mkDirectory (mContent dd) (mIterableContent dd) (u32 (mLocked dd + 1)))).
Definition unlock st d : option store :=
  dd ← dir_of st d;
  Some (if mLocked dd =? 0 then st
        else set_dir st d (mkDirectory (mContent dd) (mIterableContent dd) (mLocked dd - 1))).

(** *** The filesystem *)

Context (root : Z).

Definition doOpen st (path : string) (mode : Z) : option (option FileStream) :=
  found ← get st root (Some path);
  match found with
  | None => Some None
  | Some e =>
      en ← st !! e;
      if dir_like (mKind en) then Some None
      else
        match mBody en with
        | Dir _ => None
        | Reg c =>
            match content c with
            | None => Some None
            | Some b => Some (Some (mkStream e b 0 mode))
            end
        end
  end.

Definition stream_stat st (f : FileStream) : option file_stat_t :=
  en ← st !! mFile f;
  Some (mkStat (mKind en) (b_len (s_content f)) (mTime en)).

(** The node an iterator of the list stands at, or null behind the last one *)
Record DirectoryIterator := mkIterator { mDirectory : Z; mCurrent : option nat }.

Definition node (l : list Z) (i : nat) : option nat := if decide (i < length l)%nat then Some i else None.

Definition doOpendir st (path : string) : option (store * option DirectoryIterator) :=
  found ← get st root (Some path);
  match found with
  | None => Some (st, None)
  | Some e =>
      en ← st !! e;
      if negb (bool_decide (mKind en = directory)) then Some (st, None)
      else
        st' ← lock st e;
        dd ← dir_of st' e;
        Some (st', Some (mkIterator e (node (mIterableContent dd) 0)))
  end.

(** [strncpy] into a zeroed buffer of [n] bytes *)
Definition strncpy (n : nat) (src : list Z) : list Z := take n src ++ replicate (n - length src) 0.

Definition dir_next st (it : DirectoryIterator) : option (option (file_info_t * DirectoryIterator)) :=
  match mCurrent it with
  | None => Some None
  | Some i =>
      dd ← dir_of st (mDirectory it);
      e ← mIterableContent dd !! i;
      en ← st !! e;
      name ← mBuffer (mName en);
      Some (Some (mkInfo 0 (mTime en) (strncpy 256 (Bytes.chars name)) (mKind en),
                  mkIterator (mDirectory it) (node (mIterableContent dd) (S i))))
  end.

Definition dir_stat st (it : DirectoryIterator) : option file_stat_t :=
  en ← st !! mDirectory it; Some (mkStat directory 0 (mTime en)).

(** [doClose] deletes the object, which unlocks the directory of an iterator. *)
Definition close_dir st (it : DirectoryIterator) : option store := unlock st (mDirectory it).

End Tree.

End MemFS.

(** ** Files with a string as their content (memfs/simplefiles.cpp) *)

Module SimpleFiles.
Import KStr MemFS.

(** [StringFile] *)
Record StringFile := mkStringFile { mData : kstring }.
Definition content (f : StringFile) : option StringBuffer := Some (stringBuffer (copy (mData f))).
Definition fromString (name : option string) (value : option string) (now : Z) : entity :=
  newFile name now (mkStringFile (of_cstr value)).

End SimpleFiles.

(** ** The directories of the drivers *)

Module DevFS.
Import KStr MemFS.

Section DevFS.
Context {C : Type} (root : Z).

(** [a] is the address of the new directory. *)
Definition makeDirectory (st : gmap Z (@entity C)) (device : string) (a now : Z)
    : option (gmap Z (@entity C) * Z) :=
  '(st, _) ← add (<[a := newDirectory (Some device) now]> st) root a;
  Some (st, a).

Definition getDeviceDirectory (st : gmap Z (@entity C)) (device : string) (a now : Z)
    : option (gmap Z (@entity C) * Z) :=
  found ← get st root (Some device);
  match found with
  | Some f =>
      en ← st !! f;
      if negb (bool_decide (mKind en = directory)) then Some (st, f)
      else makeDirectory st device a now
  | None => makeDirectory st device a now
  end.

End DevFS.

End DevFS.

(** ** A disk in memory (drivers/ramdisk/devicefile.cpp) *)

Module RamVolume.

(** [VolumeFile]: the bytes allocated for it *)
Record VolumeFile := mkVolumeFile { mId : Z; mByteSize : Z; mData : list Z }.
Implicit Types v : VolumeFile.

(** [allocate] returns [size] bytes as it finds them. *)
Definition newVolumeFile (id size : Z) (memory : list Z) : VolumeFile :=
  mkVolumeFile id size (take (Z.to_nat size) memory).

Definition numsectors v : Z := mByteSize v / Volume.sectorsize.

(** The offset of [data(sector)] *)
Definition data (sector : Z) : Z := u32 (sector * 512).

(** [None] is an access outside of the data. *)
Definition ram_read v (sector count : Z) : option (option (list Z)) :=
  if u32 (sector + count) >=? numsectors v then Some None
  else
    let n := Z.to_nat (count * Volume.sectorsize) in
    let off := Z.to_nat (data sector) in
    if decide (off + n <= length (mData v))%nat then Some (Some (take n (drop off (mData v)))) else None.

Definition ram_write v (sector count : Z) (buffer : list Z) : option (option VolumeFile) :=
  if u32 (sector + count) >=? numsectors v then Some None
  else
    let n := Z.to_nat (count * Volume.sectorsize) in
    let off := Z.to_nat (data sector) in
    if decide (off + n <= length (mData v) /\ n <= length buffer)%nat
    then Some (Some (mkVolumeFile (mId v) (mByteSize v)
           (take off (mData v) ++ take n buffer ++ drop (off + n) (mData v))))
    else None.

End RamVolume.

(** ** The initial image *)

Module InitRd.
Import MemFS.

(** A little-endian number of [n] bytes at an offset; [None] leaves the image. *)
Definition read_at (img : list Z) (off n : nat) : option Z :=
  if decide (off + n <= length img)%nat then Some (Bytes.field img off n) else None.

Definition sizeof_header : nat := 16.
Definition sizeof_file : nat := 80.
Definition sizeof_preamble : nat := sizeof_header + 4 + sizeof_file * 64.

Definition gExpectedVersion : Z := 3.

Record initrd := mkInitrd { image : list Z; mTotalSize : Z }.

Definition count (img : list Z) : option Z := read_at img sizeof_header 4.

(** The offset of [&mFiles->files[idx]], and its members *)
Definition file_offset (idx : nat) : nat := (sizeof_header + 4 + sizeof_file * idx)%nat.
Definition f_size (img : list Z) (idx : nat) : option Z := read_at img (file_offset idx + 64) 4.
Definition f_start (img : list Z) (idx : nat) : option Z := read_at img (file_offset idx + 68) 4.
Definition f_timestamp (img : list Z) (idx : nat) : option Z := read_at img (file_offset idx + 72) 8.

Fixpoint total_loop (img : list Z) (n i : nat) (total : Z) : option Z :=
  match n with
  | O => Some total
  | S n => s ← f_size img i; total_loop img n (S i) (u64 (total + s))
  end.

Definition newInitrd (img : list Z) : option initrd :=
  c ← count img;
  total ← total_loop img (Z.to_nat c) 0 0;
  Some (mkInitrd img total).

(** [Some None] is a null pointer. *)
Definition tryget (img : list Z) : option (option initrd) :=
  m0 ← read_at img 0 1; m1 ← read_at img 1 1; m2 ← read_at img 2 1; m3 ← read_at img 3 1;
  if negb (m0 =? 0x80) || negb (m1 =? uchar "I") || negb (m2 =? uchar "R") || negb (m3 =? uchar "D")
  then Some None
  else
    ver ← read_at img 4 1;
    if negb (ver =? gExpectedVersion) then Some None
    else ird ← newInitrd img; Some (Some ird).

(** [0 == strcmp(a, path)] for a C string in memory *)
Fixpoint strcmp_eq (a : list Z) (path : list Z) : option bool :=
  match a, path with
  | [], _ => None
  | c :: _, [] => Some (c =? 0)
  | c :: a, x :: path => if c =? x then strcmp_eq a path else Some false
  end.

(** [InitrdFile]: offset in the image *)
Record InitrdFile := mkInitrdFile { mPointer : Z; mSizeLeft : Z; mFileSize : Z; mTimestamp : Z }.

Fixpoint open_loop (img : list Z) (n i : nat) (path : list Z) : option (option InitrdFile) :=
  match n with
  | O => Some None
  | S n =>
      eq ← strcmp_eq (drop (file_offset i) img) path;
      if (eq : bool) then
        start ← f_start img i; size ← f_size img i; time ← f_timestamp img i;
        Some (Some (mkInitrdFile start size size time))
      else open_loop img n (S i) path
  end.

Definition doOpen (ird : initrd) (path : string) (mode : Z) : option (option InitrdFile) :=
  if negb (Z.land mode (Z.lor FILE_OPEN_WRITE (Z.lor FILE_OPEN_APPEND FILE_OPEN_NEW)) =? 0) then Some None
  else
    c ← count (image ird);
    open_loop (image ird) (Z.to_nat c) 0 (Bytes.chars (VFS.skip_slash path)).

Definition seek (f : InitrdFile) (index : Z) : bool := false.

Definition read (ird : initrd) (f : InitrdFile) (n : Z) : option (InitrdFile * list Z) :=
  let n := if n >? mSizeLeft f then mSizeLeft f else n in
  if decide (mPointer f + n <= Z.of_nat (length (image ird))) then
    Some (mkInitrdFile (mPointer f + n) (mSizeLeft f - n) (mFileSize f) (mTimestamp f),
          take (Z.to_nat n) (drop (Z.to_nat (mPointer f)) (image ird)))
  else None.

(** [InitrdDirectory]: its position *)
Definition doOpendir (path : option string) : option (option nat) :=
  path ← path;
  if String.eqb path "/" || String.eqb path "" then Some (Some O) else Some None.

(** The characters [strncpy] copies *)
Fixpoint cstr_upto (n : nat) (a : list Z) : option (list Z) :=
  match n with
  | O => Some []
  | S n =>
      match a with
      | [] => None
      | c :: a => if c =? 0 then Some [] else l ← cstr_upto n a; Some (c :: l)
      end
  end.

Definition gMaxPathSize : nat := 255.

Definition next (ird : initrd) (mIndex : nat) : option (option (file_info_t * nat)) :=
  c ← count (image ird);
  if c <=? Z.of_nat mIndex then Some None
  else
    size ← f_size (image ird) mIndex;
    time ← f_timestamp (image ird) mIndex;
    name ← cstr_upto gMaxPathSize (drop (file_offset mIndex) (image ird));
    Some (Some (mkInfo size time (strncpy 256 name) file, S mIndex)).

(** [fillInfo]: the serial number, the free size and the size *)
Definition fillInfo (ird : initrd) : option (Z * Z * Z) :=
  serial ← read_at (image ird) 8 8; Some (serial, 0, mTotalSize ird).

(** *** The packer (initrd/gen.py) *)

(** Base name and contents of an input file *)
Record InputFile := mkInput { in_name : string; in_data : list Z }.

Definition VERSION : Z := 3.

Definition writeHeader (serial : Z) : list Z :=
  [0x80; uchar "I"; uchar "R"; uchar "D"; VERSION; 0; 0; 0] ++ Bytes.bytes 8 serial.

(** [struct.pack('64s', name)] cuts or pads the name. *)
Definition writeFile (now : Z) (f : InputFile) (offset : Z) : list Z :=
  strncpy 64 (Bytes.chars (in_name f)) ++ Bytes.bytes 4 (Z.of_nat (length (in_data f)))
  ++ Bytes.bytes 4 offset ++ Bytes.bytes 8 now.

(** [genInputFiles] gives every file the offset behind the one before it. *)
Fixpoint writeEntries (now : Z) (files : list InputFile) (offset : Z) : list Z :=
  match files with
  | [] => []
  | f :: files => writeFile now f offset ++ writeEntries now files (offset + Z.of_nat (length (in_data f)))
  end.

Definition writeTable (now : Z) (files : list InputFile) : list Z :=
  Bytes.bytes 4 (Z.of_nat (length files)) ++ writeEntries now files 5140
  ++ replicate (sizeof_file * (64 - length files)) 0.

Definition writeFiles (files : list InputFile) : list Z := concat (in_data <$> files).

(** The script; [None] is one of its errors. *)
Definition generate (serial now : Z) (files : list InputFile) : option (list Z) :=
  if (64 <? length files)%nat then None
  else if existsb (fun f => (length (in_data f) =? 0)%nat) files then None
  else Some (writeHeader serial ++ writeTable now files ++ writeFiles files).

End InitRd.
