(* ===== verification/Loader.v ===== *)
(** * Loading a program (kernel/src/process/loadelf.cpp, kernel/include/process/elf.h,
    kernel/src/process/shebang.cpp, kernel/src/process/fileloader.cpp)

    [Elf] loads the segments of an image, the stack and the
    argument arrays of the new process; [Shebang] hands a script to its
    interpreter and [FileLoader] ties them together.  The virtual methods of the
    files are parameters. *)

From stdpp Require Import base numbers list gmap option strings.
From Stdlib Require Import ZArith Lia Bool Ascii.
From S2P Require Import Prelude Interval Phys Virt Files Kernel MemMgr Cpu.

Local Open Scope Z_scope.

(** ** ELF images *)

Module Elf.
Import Bytes Virt MemMgr.

Record elf_program_t := mkProgram {
  p_type : Z; p_offset : Z; p_vaddr : Z; p_paddr : Z; p_filesz : Z; p_memsz : Z; p_flags : Z; p_align : Z;
}.

Definition program_of (l : list Z) : elf_program_t :=
  mkProgram (field l 0 4) (field l 4 4) (field l 8 4) (field l 12 4) (field l 16 4) (field l 20 4) (field l 24 4) (field l 28 4).

Definition writable (p : elf_program_t) : bool := 2 =? Z.land (p_flags p) 2.
Definition loadable (p : elf_program_t) : bool := p_type p =? 1.
Definition content (p : elf_program_t) (base : Z) : Z := u32 (base + p_offset p).

Record elf_header_t := mkHeader {
  magic : Z; arch : Z; order : Z; ver : Z; e_type : Z; machine : Z; entry : Z; phoff : Z; shoff : Z;
  ehsize : Z; phentsize : Z; phnum : Z; shentsize : Z; shnum : Z; shstrndx : Z;
}.

Definition header_of (l : list Z) : elf_header_t :=
  mkHeader (field l 0 4) (field l 4 1) (field l 5 1) (field l 6 1) (field l 16 2) (field l 18 2) (field l 24 4)
    (field l 28 4) (field l 32 4) (field l 40 2) (field l 42 2) (field l 44 2) (field l 46 2) (field l 48 2) (field l 50 2).

Definition et_exec : Z := 2.
Definition et_dyn : Z := 3.

Definition isDylib (h : elf_header_t) : bool := e_type h =? et_dyn.
Definition sanitycheck (h : elf_header_t) : bool :=
  if negb (magic h =? 0x464c457f) then false
  else if negb (arch h =? 1) then false
  else if negb (order h =? 1) then false
  else if negb (ver h =? 1) then false
  else if negb ((e_type h =? et_exec) || (e_type h =? et_dyn)) then false
  else if negb (machine h =? 3) then false
  else true.

Section Loading.
Context (gNumPages : Z) (asFile : Z -> bool) (seek : Z -> Z -> bool) (read : Z -> Z -> list Z).

Abbreviation load_bytes := (Cpu.load_bytes gNumPages asFile seek read).
Abbreviation store_bytes := (Cpu.store_bytes gNumPages asFile seek read).
Abbreviation memcopy := (Cpu.memcopy gNumPages asFile seek read).

(** The header and the [n]-th program header of the image at [base] *)
Definition header_at (m : mm) (s : vm) (base : Z) : option (elf_header_t * vm) :=
  '(l, s) ← load_bytes m s base 52; Some (header_of l, s).
Definition program_at (m : mm) (s : vm) (base : Z) (h : elf_header_t) (n : nat) : option (elf_program_t * vm) :=
  '(l, s) ← load_bytes m s (u32 (base + phoff h + 32 * Z.of_nat n)) 32; Some (program_of l, s).

(** The variables of the loop over a segment *)
Record cursor := mkCursor { len : Z; flen : Z; src : Z; vaddr : Z; vaddr1 : Z; mapopts : map_options_t; maxprogaddr : Z }.

(** One turn of [while(len != 0)]; [None] inside is the segment that reaches into
    the kernel. *)
Definition chunk_step (m : mm) (s : vm) (p : elf_program_t) (c : cursor) : option (option cursor * vm) :=
  let vaddr_Page := page_of (vaddr c) in
  let vaddr_PageDelta := u32 (vaddr c - vaddr_Page) in
  let residualPage := gPageSize - vaddr_PageDelta in
  if iskernel vaddr_Page then Some (None, s)
  else
    let mapopts := with_rw (mapopts c) true in
    '(_, s) ← mapAnyPhysicalPage gNumPages s vaddr_Page mapopts;
    let vaddr1 := u32 (vaddr_Page + gPageSize) in
    let chunk := if len c >? residualPage then residualPage else len c in
    s ← (if chunk <=? flen c then memcopy m s (src c) (vaddr c) (Z.to_nat chunk)
         else if flen c >? 0 then memcopy m s (src c) (vaddr c) (Z.to_nat (flen c))
         else Some s);
    let flen := if chunk <=? flen c then flen c - chunk else 0 in
    let mapopts := with_rw (default mapopts (mapped s (vaddr c) mapopts)) (writable p) in
    let s := (newoptions s (vaddr c) mapopts).2 in
    let vaddr := u32 (vaddr c + chunk) in
    Some (Some (mkCursor (len c - chunk) flen (u32 (src c + chunk)) vaddr vaddr1 mapopts
                  (if vaddr >? maxprogaddr c then vaddr else maxprogaddr c)), s).

Fixpoint chunks (fuel : nat) (m : mm) (s : vm) (p : elf_program_t) (c : cursor) : option (option cursor * vm) :=
  if len c =? 0 then Some (Some c, s)
  else
    match fuel with
    | O => None
    | S fuel =>
        '(r, s) ← chunk_step m s p c;
        match r with
        | None => Some (None, s)
        | Some c => chunks fuel m s p c
        end
    end.

Inductive load_error := NonPageAligned | InKernelMemory.

(** The body of the loop over the program headers, for an aligned one; a segment
    has at most one page more than its length needs. *)
Definition load_segment (m : mm) (s : vm) (base : Z) (p : elf_program_t) (maxprogaddr0 : Z)
    : option ((load_error + Z * mm) * vm) :=
  let mapopts := with_clear (mkOpts true true false false false true false) true in
  let c := mkCursor (p_memsz p) (p_filesz p) (content p base) (p_vaddr p) (p_vaddr p) mapopts maxprogaddr0 in
  '(r, s) ← chunks (Z.to_nat (p_memsz p / gPageSize + 2)) m s p c;
  match r with
  | None => Some (inl InKernelMemory, s)
  | Some c =>
      let '(_, m) := addMappedRegion m (p_vaddr p) (u32 (vaddr1 c - 1)) in
      Some (inr (maxprogaddr c, m), s)
  end.

(** The length of the array [loaded_headers]; a store behind it is [None]. *)
Definition max_headers : nat := 10.

Fixpoint load_headers (todo : nat) (m : mm) (s : vm) (base : Z) (h : elf_header_t) (i loaded_header_idx : nat) (maxprogaddr : Z)
    : option ((load_error + Z) * mm * vm) :=
  match todo with
  | O => Some (inr maxprogaddr, m, s)
  | S todo =>
      '(p, s) ← program_at m s base h i;
      if negb (loadable p) then load_headers todo m s base h (i + 1) loaded_header_idx maxprogaddr
      else if negb (p_align p =? gPageSize) then Some (inl NonPageAligned, m, s)
      else if (max_headers <=? loaded_header_idx)%nat then None
      else
        '(r, s) ← load_segment m s base p maxprogaddr;
        match r with
        | inl e => Some (inl e, m, s)
        | inr (maxprogaddr, m) => load_headers todo m s base h (i + 1) (loaded_header_idx + 1) maxprogaddr
        end
  end.

Definition load_elf_image (m : mm) (s : vm) (base : Z) (h : elf_header_t) : option ((load_error + Z) * mm * vm) :=
  load_headers (Z.to_nat (phnum h)) m s base h 0 0 (entry h).

(** *** The arguments and the environment of the new process *)

Definition array_total (l : list string) : Z :=
  4 * Z.of_nat (length l) + foldr (fun x n => Z.of_nat (length (chars x)) + n) 0 l + Z.of_nat (length l) + 4.

(** The pointers go up from [dest_environ], the strings from behind the last one. *)
Fixpoint copy_strings (m : mm) (s : vm) (dest_environ dest_payloads : Z) (l : list string) : option vm :=
  match l with
  | [] => Some s
  | x :: l =>
      s ← store_bytes m s dest_environ (bytes 4 dest_payloads);
      s ← store_bytes m s dest_payloads (chars x ++ [0]);
      copy_strings m s (u32 (dest_environ + 4)) (u32 (dest_payloads + Z.of_nat (length (chars x)) + 1)) l
  end.

Definition copyStringArrayToUserland (m : mm) (s : vm) (l : list string) : option (Z * mm * vm) :=
  let map_opts := mkOpts true true true false false true false in
  '(r, m, s) ← findAndMapRegion gNumPages m s (u32 (array_total l)) map_opts;
  let dest_environ := Interval.from (range r) in
  s ← copy_strings m s dest_environ (u32 (dest_environ + 4 * (Z.of_nat (length l) + 1))) l;
  Some (dest_environ, m, s).

(** [*stack = copyStringArrayToUserland(...)], or null *)
Definition push_array (m : mm) (s : vm) (stack : Z) (a : option (list string)) : option (mm * vm) :=
  '(ptr, m, s) ← (match a with
                  | Some l => copyStringArrayToUserland m s l
                  | None => Some (0, m, s)
                  end);
  s ← store_bytes m s stack (bytes 4 ptr);
  Some (m, s).

Record process_loadinfo_t := mkLoadinfo { eip : Z; stack : Z }.

(** [load_main_binary] for the current process [cur] *)
Definition load_main_binary (m : mm) (s : vm) (cur : Proc.process_t) (base stacksize : Z)
    : option (process_loadinfo_t * mm * vm) :=
  let unhappy := mkLoadinfo 0 0 in
  '(h, s) ← header_at m s base;
  if negb (sanitycheck h) then Some (unhappy, m, s)
  else if isDylib h then Some (unhappy, m, s)
  else
    '(r, m, s) ← load_elf_image m s base h;
    match r with
    | inl _ => Some (unhappy, m, s)
    | inr max_load_addr =>
        let maxprogaddr := page_of max_load_addr in
        let '(_, m) := addUnmappedRegion m maxprogaddr (u32 (maxprogaddr + gPageSize - 1)) in
        let stackpermission := with_clear userspace_options true in
        '(stackregion, m, s) ← findAndZeroPageRegion m s stacksize stackpermission;
        let stackbegin := Interval.to (range stackregion) in
        let maxprogaddr := page_of (u32 (stackbegin + 1)) in
        let '(_, m) := addUnmappedRegion m maxprogaddr (u32 (maxprogaddr + gPageSize - 1)) in
        let stk := u32 (stackbegin - 20) in
        '(m, s) ← push_array m s stk (Proc.environ cur);
        '(m, s) ← push_array m s (u32 (stk - 4)) (Proc.args cur);
        Some (mkLoadinfo (entry h) (u32 (stk - 8)), m, s)
    end.

Definition elf_can_load (m : mm) (s : vm) (load0 : Z) : option (bool * vm) :=
  '(h, s) ← header_at m s load0; Some (sanitycheck h, s).

End Loading.
End Elf.

(** ** Scripts *)

Module Shebang.
Import Bytes Virt MemMgr.

Definition newline : Z := 10.
Definition space_char : Z := 32.
(** The size of [path_name_t] *)
Definition path_size : Z := 256.

Section Shebang.
Context (gNumPages : Z) (asFile : Z -> bool) (seek : Z -> Z -> bool) (read : Z -> Z -> list Z).
Abbreviation load := (Cpu.load gNumPages asFile seek read).
Abbreviation load_bytes := (Cpu.load_bytes gNumPages asFile seek read).

Definition shebang_can_load (m : mm) (s : vm) (load0 : Z) : option (bool * vm) :=
  '(b0, s) ← load m s load0;
  if negb (b0 =? 35) then Some (false, s)
  else
    '(b1, s) ← load m s (u32 (load0 + 1));
    if negb (b1 =? 33) then Some (false, s)
    else '(b2, s) ← load m s (u32 (load0 + 2)); Some (b2 =? 47, s).

(** [strchr]: [fuel] is the rest of the buffer; a search that leaves it is [None]. *)
Fixpoint strchr (fuel : nat) (m : mm) (s : vm) (a c : Z) : option (option Z * vm) :=
  match fuel with
  | O => None
  | S fuel =>
      '(b, s) ← load m s a;
      if b =? c then Some (Some a, s)
      else if b =? 0 then Some (None, s)
      else strchr fuel m s (u32 (a + 1)) c
  end.

(** [memcpy] of a part of the text into a [path_name_t] that was zero; [None] when
    it does not fit with its terminator. *)
Definition copy_name (m : mm) (s : vm) (a n : Z) : option (string * vm) :=
  if path_size <=? n then None
  else '(l, s) ← load_bytes m s a (Z.to_nat n); Some (string_of l, s).

(** [newArgs]; an array filled to its last slot has no end. *)
Definition expand (interp arg : string) (path : option string) (args : option (list string)) : option (list string) :=
  let old := default [] args in
  let head := if String.eqb arg "" then [interp] else [interp; arg] in
  let l := match path with Some p => head ++ p :: drop 1 old | None => head end in
  if (length old + 3 <=? length l)%nat then None else Some l.

(** [shebang_do_load] up to the load of the interpreter: no interpreter is the
    script without a newline. *)
Definition shebang_prepare (m : mm) (s : vm) (cur : Proc.process_t) (size load0 : Z)
    : option (option string * Proc.process_t * vm) :=
  let bangspec := u32 (load0 + 2) in
  '(space, s) ← strchr (Z.to_nat (size - 2)) m s bangspec space_char;
  '(nl, s) ← strchr (Z.to_nat (size - 2)) m s bangspec newline;
  match nl with
  | None => Some (None, cur, s)
  | Some nl =>
      '(interp, arg, s) ←
        (match space with
         | Some space =>
             if space <? nl then
               '(interp, s) ← copy_name m s bangspec (space - bangspec);
               '(arg, s) ← copy_name m s (u32 (space + 1)) (nl - (space + 1));
               Some (interp, arg, s)
             else '(interp, s) ← copy_name m s bangspec (nl - bangspec); Some (interp, ""%string, s)
         | None => '(interp, s) ← copy_name m s bangspec (nl - bangspec); Some (interp, ""%string, s)
         end);
      newArgs ← expand interp arg (Proc.path cur) (Proc.args cur);
      Some (Some interp, Proc.set_args (Some newArgs) cur, s)
  end.

End Shebang.
End Shebang.

(** ** Files *)

Module FileLoader.
Import Bytes Virt MemMgr.

Section FileLoader.
Context (gNumPages : Z) (asFile : Z -> bool) (seek : Z -> Z -> bool) (read : Z -> Z -> list Z).
(** The mount table, the [doOpen] of the filesystems, and of the open files
    [doStat] (the size) and [read] from the start. *)
Context (mounts : list VFS.mount_t) (doOpen : FsObject.state -> Z -> string -> option (Z * Z)).
Context (doStat : Z -> option Z) (file_read : Z -> Z -> list Z).

(** What loading works on: the current process and its memory, and the open files *)
Record lstate := mkL { l_mm : mm; l_vm : vm; l_fs : FsObject.state; l_cur : Proc.process_t }.

Inductive outcome := Loaded (i : Elf.process_loadinfo_t) | Exited (w : Z).

Definition kernelError : Z := 0xFF.
Definition kernelError_noSuchFile : Z := 1.
Definition kernelError_malformedFile : Z := 2.
Definition gDefaultStackSize : Z := 4 * 1024 * 1024.

Definition vfs_open (st : FsObject.state) (path : string) : option (FsObject.handle * FsObject.state) :=
  match VFS.resolve mounts (Some path) with
  | None => Some (FsObject.mkHandle 0 0 0, st)
  | Some (fs, rest) =>
      '(o, st) ← FsObject.open st fs (doOpen st fs rest);
      Some (FsObject.mkHandle fs o 0, st)
  end.

(** The macro [UNHAPPY] *)
Definition unhappy (l : lstate) (h : FsObject.handle) (code : Z) : option (outcome * lstate) :=
  st ← FsObject.handle_close (l_fs l) h;
  Some (Exited (Proc.toWord (Proc.mkStatus kernelError code)), mkL (l_mm l) (l_vm l) st (l_cur l)).

(** The file in a fresh region of the kernel's own *)
Definition read_file (l : lstate) (h : FsObject.handle) (size : Z) : option (option region_t * lstate) :=
  let bufferopts := mkOpts true false true false false true false in
  '(rgn, m, s) ← findAndZeroPageRegion (l_mm l) (l_vm l) size bufferopts;
  let data := take (Z.to_nat size) (file_read (FsObject.h_object h) size) in
  s ← Cpu.store_bytes gNumPages asFile seek read m s (Interval.from (range rgn)) data;
  let l := mkL m s (l_fs l) (l_cur l) in
  Some (match data with [] => None | _ => Some rgn end, l).

(** [load_binary]; [fuel] bounds the interpreters of interpreters. *)
Fixpoint load_binary (fuel : nat) (l : lstate) (path : string) {struct fuel} : option (outcome * lstate) :=
  match fuel with
  | O => None
  | S fuel =>
      '(h, st) ← vfs_open (l_fs l) path;
      let l := mkL (l_mm l) (l_vm l) st (l_cur l) in
      if negb (FsObject.handle_ok h) then unhappy l h kernelError_noSuchFile
      else
        match doStat (FsObject.h_object h) with
        | None => unhappy l h kernelError_noSuchFile
        | Some size =>
            if size =? 0 then unhappy l h kernelError_malformedFile
            else
              '(r, l) ← read_file l h size;
              match r with
              | None => unhappy l h kernelError_noSuchFile
              | Some rgn =>
                  st ← FsObject.handle_close (l_fs l) h;
                  let l := mkL (l_mm l) (l_vm l) st (l_cur l) in
                  let from := Interval.from (range rgn) in
                  '(elf, s) ← Elf.elf_can_load gNumPages asFile seek read (l_mm l) (l_vm l) from;
                  let l := mkL (l_mm l) s (l_fs l) (l_cur l) in
                  '(out, l) ←
                    (if (elf : bool) then
                       '(i, m, s) ← Elf.load_main_binary gNumPages asFile seek read (l_mm l) (l_vm l) (l_cur l) from gDefaultStackSize;
                       Some (Loaded i, mkL m s (l_fs l) (l_cur l))
                     else
                       '(script, s) ← Shebang.shebang_can_load gNumPages asFile seek read (l_mm l) (l_vm l) from;
                       let l := mkL (l_mm l) s (l_fs l) (l_cur l) in
                       if (script : bool) then
                         '(interp, cur, s) ← Shebang.shebang_prepare gNumPages asFile seek read (l_mm l) (l_vm l) (l_cur l)
                                               (Interval.size (range rgn)) from;
                         let l := mkL (l_mm l) s (l_fs l) cur in
                         match interp with
                         | None => Some (Loaded (Elf.mkLoadinfo 0 0), l)
                         | Some interp => load_binary fuel l interp
                         end
                       else unhappy l no_handle kernelError_malformedFile);
                  match out with
                  | Exited _ => Some (out, l)
                  | Loaded _ =>
                      '(m, s, st) ← removeRegion (l_mm l) (l_vm l) (l_fs l) rgn;
                      Some (out, mkL m s st (l_cur l))
                  end
              end
        end
  end.

(** [fileloader] up to the jump to ring three *)
Definition fileloader (fuel : nat) (l : lstate) : option (outcome * lstate) :=
  path ← Proc.path (l_cur l);
  '(out, l) ← load_binary fuel l path;
  match out with
  | Exited _ => Some (out, l)
  | Loaded i =>
      if (Elf.eip i =? 0) || (Elf.stack i =? 0)
      then Some (Exited (Proc.toWord (Proc.mkStatus kernelError kernelError_malformedFile)), l)
      else Some (out, l)
  end.

End FileLoader.
End FileLoader.
