(* ===== verification/DeviceThms.v ===== *)
(** * Theorems on volumes, partitions and the clock

    The sector cache of a volume is invisible to a sequence of reads and writes,
    partitions that do not overlap do not see each other's writes, a partition of
    an unknown kind makes the scanner read behind its table, and a tick handler
    runs every [N + 1] ticks. *)

From stdpp Require Import base numbers list gmap option.
From Stdlib Require Import ZArith Lia.
From S2P Require Import Prelude Hash Lru Volume Timer.

Local Open Scope Z_scope.

(** ** A disk in memory, for the examples *)

Module RamDisk.

Record ramdisk := mkRam { sectors : gmap Z (list Z); capacity : Z }.

#[export] Instance ram_device : Device ramdisk := {
  doRead d s := if s <? capacity d then Some (default [] (sectors d !! s)) else None;
  doWrite d s b := if s <? capacity d then Some (mkRam (<[s := b]> (sectors d)) (capacity d)) else None;
}.

#[export] Instance ram_laws : DeviceLaws ramdisk.
Proof.
  split.
  - intros d s b d' _ Hw. simpl in *. destruct (s <? capacity d) eqn:E; [|done]. injection Hw as <-. simpl.
    by rewrite E, lookup_insert_eq.
  - intros d s b d' s' _ _ Hw Hne. simpl in *. destruct (s <? capacity d); [|done]. injection Hw as <-. simpl.
    by rewrite lookup_insert_ne.
Qed.

Definition small : ramdisk := mkRam ∅ 100.

End RamDisk.

Import RamDisk Partition.

(** ** Volumes *)

Module VolumeTrace.

Section Trace.
Context {D : Type} `{Device D}.

Inductive op := ORead (sector : Z) (count : nat) | OWrite (sector : Z) (buffer : list block).

(** What a client sees of an operation *)
Definition run1 (v : @Volume.volume D) (o : op) : option ((bool * list block) * @Volume.volume D) :=
  match o with
  | ORead s n => '(ok, bs, v) ← Volume.read v s n; Some (ok, bs, v)
  | OWrite s b => '(ok, v) ← Volume.write v s b; Some (ok, [], v)
  end.

Fixpoint run (v : @Volume.volume D) (os : list op) : option (list (bool * list block) * @Volume.volume D) :=
  match os with
  | [] => Some ([], v)
  | o :: os => '(r, v) ← run1 v o; '(rs, v) ← run v os; Some (r :: rs, v)
  end.

(** The same on the bare device *)
Definition dev_run1 (d : D) (o : op) : (bool * list block) * D :=
  match o with
  | ORead s n => (Volume.dev_read d s n, d)
  | OWrite s b => let '(ok, d) := Volume.dev_write d s b in ((ok, []), d)
  end.

Fixpoint dev_run (d : D) (os : list op) : list (bool * list block) * D :=
  match os with
  | [] => ([], d)
  | o :: os => let '(r, d) := dev_run1 d o in let '(rs, d) := dev_run d os in (r :: rs, d)
  end.

Definition op_ok (o : op) : Prop := match o with ORead s _ | OWrite s _ => is_u32 s end.

Context `{!DeviceLaws D}.

Lemma run1_spec_volume v o : Volume.coherent v -> op_ok o ->
  exists v', run1 v o = Some ((dev_run1 (Volume.mDisk v) o).1, v') /\ Volume.coherent v'
    /\ Volume.mDisk v' = (dev_run1 (Volume.mDisk v) o).2.
Proof.
  intros Hc Ho. destruct o as [s n|s b]; cbn [run1 dev_run1 op_ok] in *.
  - destruct (Volume.read_spec_volume n v s Hc Ho) as (v' & -> & Hc' & Hd').
    destruct (Volume.dev_read (Volume.mDisk v) s n). by exists v'.
  - destruct (Volume.write_spec_volume b v s Hc Ho) as (v' & -> & Hc' & Hd').
    destruct (Volume.dev_write (Volume.mDisk v) s b). by exists v'.
Qed.

Lemma run_spec_volume os : forall v, Volume.coherent v -> Forall op_ok os ->
  exists v', run v os = Some ((dev_run (Volume.mDisk v) os).1, v')
    /\ Volume.mDisk v' = (dev_run (Volume.mDisk v) os).2.
Proof.
  induction os as [|o os IH]; intros v Hc Hos; cbn [run dev_run]; [by exists v|].
  apply Forall_cons_1 in Hos as [Ho Hos].
  destruct (run1_spec_volume v o Hc Ho) as (v1 & -> & Hc1 & Hd1). cbn [mbind option_bind].
  destruct (IH v1 Hc1 Hos) as (v2 & -> & Hd2). cbn [mbind option_bind].
  rewrite Hd1 in *. destruct (dev_run1 (Volume.mDisk v) o) as [r d]. simpl in *.
  destruct (dev_run d os) as [rs d']. by exists v2.
Qed.

(** C17: a volume behaves as its bare device.  Any sequence of reads and writes of
    any number of sectors, those that fail half way included, returns through the
    sector cache exactly what the device returns without it, and leaves the same
    contents on the device: the cache never serves a stale sector and never loses
    a write. *)
Theorem cached_volume_transparent d os : Forall op_ok os ->
  exists v', run (Volume.new d) os = Some ((dev_run d os).1, v') /\ Volume.mDisk v' = (dev_run d os).2.
Proof. apply (run_spec_volume os (Volume.new d)), Volume.new_coherent. Qed.

End Trace.

Lemma cached_volume_transparent_witness :
  let os := [OWrite 3 [[1]; [2]]; ORead 3 2; OWrite 4 [[7]]; ORead 3 3; ORead 99 2] in
  Forall op_ok os /\
  (exists v', run (Volume.new RamDisk.small) os
    = Some ([(true, []); (true, [[1]; [2]]); (true, []); (true, [[1]; [7]; []]); (false, [[]])], v')).
Proof.
  split; [repeat constructor; width; lia|].
  destruct (cached_volume_transparent RamDisk.small
    [OWrite 3 [[1]; [2]]; ORead 3 2; OWrite 4 [[7]]; ORead 3 3; ORead 99 2]) as (v' & E & _);
    [repeat constructor; width; lia|].
  exists v'. rewrite E. vm_compute. reflexivity.
Defined.

End VolumeTrace.

(** ** Partitions *)

(** partitions that do not overlap on the disk are isolated.  A sector written
    through one of them leaves every sector read through the other as it was, for
    all sector numbers including those out of range, on every disk that behaves as
    a block store. *)
Theorem partitions_are_isolated {D} `{DeviceLaws D} (d : D) a b s blk p' s' :
  Partition.apart a b -> is_u32 s -> is_u32 s' ->
  doWrite (Partition.mkPartition d a) s blk = Some p' ->
  doRead (Partition.mkPartition (Partition.p_disk p') b) s' = doRead (Partition.mkPartition d b) s'.
Proof. apply Partition.partitions_isolated. Qed.

Definition sample_part (sector size : Z) : Ptable.diskpart_t :=
  Ptable.mkPart 0 (Ptable.mkChs 0 0 0) 0x0C (Ptable.mkChs 0 0 0) sector size.

Lemma partitions_are_isolated_witness :
  exists p', doWrite (Partition.mkPartition RamDisk.small (sample_part 10 20)) 19 [5] = Some p' /\
    doRead (Partition.mkPartition (Partition.p_disk p') (sample_part 30 20)) 0
    = doRead (Partition.mkPartition RamDisk.small (sample_part 30 20)) 0.
Proof.
  eexists. split; [reflexivity|].
  eapply (partitions_are_isolated RamDisk.small (sample_part 10 20) (sample_part 30 20) 19 [5]);
    [unfold Partition.apart; simpl; lia|width; lia|width; lia|reflexivity].
Defined.

(** the scanner cannot reject a kind of partition it does not know.  For an
    entry that is in use and whose kind is not listed, the search runs over the end
    of the table of known kinds, since the last row of the table is not the one the
    loop stops at. *)
Theorem unknown_partition_overruns dp : Ptable.sysid dp <> 0 -> Ptable.size dp <> 0 ->
  Ptable.sysid dp ∉ Ptable.gKnownFilesystemTypes.*1 -> Ptable.scan_part dp = None.
Proof. apply Ptable.scan_unknown. Qed.

Lemma unknown_partition_overruns_witness :
  Ptable.scan_part (Ptable.mkPart 0x80 (Ptable.mkChs 0 1 0) 0xA5 (Ptable.mkChs 3 4 5) 63 1000) = None.
Proof.
  apply unknown_partition_overruns; simpl; [done|done|]. apply (bool_decide_eq_true_1 _). vm_compute. reflexivity.
Defined.

(** ** Ticks *)

(** a handler registered with [every_N = N] runs at every tick whose number
    since the registration is a multiple of [N + 1], and at no other, whatever the
    other handlers do; the header says that it runs every [N] ticks.  The clock has
    by then advanced by the length of as many ticks. *)
Theorem tick_handler_period {F St} (call : F -> Z -> St -> option (bool * St)) m s f (N : nat) n i m0 :
  (forall f c s, is_Some (call f c s)) -> Timer.millisPerTick m <> 0 ->
  length (Timer.mTickHandlers m) = Timer.gMaxTickFunctions -> is_u64 (Timer.mMillisecondsSinceBoot m) ->
  Timer.registerTickHandler m f (Z.of_nat N) = (i, m0) -> i <> u32 (-1) ->
  exists m' s' h, Timer.ticks call m0 s n = Some (m', s')
    /\ Timer.mTickHandlers m' !! Z.to_nat i = Some h /\ Timer.callback h = Some f
    /\ (Timer.due h = true <-> (S n mod (1 + N) = 0)%nat)
    /\ Timer.millisUptime m' = u64 (Timer.millisUptime m + Z.of_nat n * Timer.millisPerTick m).
Proof.
  intros Hcall Hm Hlen Hu Hreg Hi.
  destruct (Timer.handler_due call Hcall m s f N n i m0 Hm Hlen Hreg Hi) as (m' & s' & h & E & Hh & Hf & Hdue).
  destruct (Timer.registered_clock m f (Z.of_nat N) i m0 Hreg) as [Hms Hpt].
  destruct (Timer.ticks_spec call Hcall n m0 s) as (m2 & s2 & E2 & _ & _ & Hclock); [by rewrite Hpt|].
  rewrite E in E2. injection E2 as <- <-. exists m', s', h. split_and!; [done..|].
  unfold Timer.millisUptime. rewrite Hclock by (by rewrite Hms). by rewrite Hms, Hpt.
Qed.

Lemma tick_handler_period_witness :
  exists m' s' h,
    Timer.ticks (fun (f : nat) _ (s : list nat) => Some (false, f :: s))
      (Timer.registerTickHandler (Timer.registerTimeSource Timer.new 10) 7%nat 4).2 [] 14 = Some (m', s')
    /\ Timer.mTickHandlers m' !! 0%nat = Some h /\ Timer.due h = true /\ Timer.millisUptime m' = 140.
Proof.
  destruct (tick_handler_period (fun (f : nat) _ (s : list nat) => Some (false, f :: s))
    (Timer.registerTimeSource Timer.new 10) [] 7%nat 4 14 0
    (Timer.registerTickHandler (Timer.registerTimeSource Timer.new 10) 7%nat 4).2)
    as (m' & s' & h & E & Hh & _ & Hd & Hu);
    [by eexists|done|done|width; simpl; lia|reflexivity|done|].
  exists m', s', h. split_and!; [exact E|exact Hh|by apply Hd|exact Hu].
Defined.
