(* ===== verification/LoaderThms.v ===== *)
(** * Theorems on the program loader

    An ELF image lies in memory byte by byte as its headers say, zeroes behind what
    the file has, with the permissions of the headers, and nothing else changes; the
    arguments copied to the new process read back as they were; the first line of a
    script is taken apart as a reference parser does. *)

From stdpp Require Import base numbers list gmap option strings.
From Stdlib Require Import ZArith Lia Bool Ascii.
From S2P Require Import Prelude Interval Phys Virt Files Kernel MemMgr Cpu Loader.

Local Open Scope Z_scope.

Module ElfSpec.
Import Elf Entry Indices Virt MemMgr Cpu.

Section Spec.
Context (N : Z) (asFile : Z -> bool) (seek : Z -> Z -> bool) (read : Z -> Z -> list Z).
Context (m : mm) (p : elf_program_t) (img : Z -> Z).

(** The pages of the rest of a segment *)
Definition in_pages (v n w : Z) : Prop := v / 4096 <= w / 4096 <= (v + n - 1) / 4096.

#[global] Instance in_pages_dec v n w : Decision (in_pages v n w).
Proof. unfold in_pages. apply _. Defined.

(** The byte the segment wants at an address of its pages *)
Definition seg_byte (v fl sr w : Z) : Z := if decide (v <= w < v + fl) then img (sr + (w - v)) else 0.

Record ready (s : vm) (c : cursor) : Prop := {
  rd_sane : sane N s;
  rd_len : 0 < len c; rd_flen : 0 <= flen c <= len c;
  rd_vaddr : 0 <= vaddr c; rd_user : vaddr c + len c <= gKernelBase;
  rd_src : 0 <= src c /\ src c + flen c <= 2 ^ 32;
  rd_unmapped w : is_u32 w -> in_pages (vaddr c) (len c) w -> readable s w = false;
  rd_image k : 0 <= k < flen c -> mem s (src c + k) = Some (img (src c + k));
  rd_free : (vaddr c + len c - 1) / 4096 - vaddr c / 4096 < Phys.mFreePages (phys s);
  rd_opts : user (mapopts c) = true /\ clear (mapopts c) = true }.

Definition ready_range (c : cursor) : Prop := 0 < len c /\ 0 <= vaddr c /\ vaddr c + len c <= gKernelBase.

Lemma ready_in_range s c : ready s c -> ready_range c.
Proof. by intros []. Qed.

(** What a run of chunks over [n] bytes from [v] on does *)
Record loaded (s s' : vm) (v n fl sr : Z) : Prop := {
  ld_sane : sane N s';
  ld_mem w : is_u32 w -> mem s' w = if decide (in_pages v n w) then Some (seg_byte v fl sr w) else mem s w;
  ld_perm w : is_u32 w -> in_pages v n w ->
    get (entry s' (of_address w)) bRw = Elf.writable p /\ get (entry s' (of_address w)) bUser = true;
  ld_exclusive w : is_u32 w -> in_pages v n w -> exclusive s' w;
  ld_other w : is_u32 w -> ~ in_pages v n w -> entry s' (of_address w) = entry s (of_address w);
  ld_still w : is_u32 w -> ~ in_pages v n w -> readable s w = true -> exclusive s w -> exclusive s' w;
  ld_free : Phys.mFreePages (phys s') = Phys.mFreePages (phys s) - ((v + n - 1) / 4096 - v / 4096 + 1);
  ld_setup : same_setup s s' }.

(** The length of the next chunk *)
Definition chunk (c : cursor) : Z := Z.min (len c) (4096 - vaddr c mod 4096).

Lemma chunk_bounds c : 0 < len c -> 0 <= vaddr c -> 0 < chunk c <= len c
  /\ (vaddr c + chunk c - 1) / 4096 = vaddr c / 4096
  /\ (chunk c = len c \/ vaddr c + chunk c = 4096 * (vaddr c / 4096 + 1)).
Proof.
  intros Hl Hv. unfold chunk. pose proof (Z.mod_pos_bound (vaddr c) 4096 ltac:(lia)).
  pose proof (Z.div_mod (vaddr c) 4096 ltac:(lia)). split; [lia|]. split; [|lia].
  symmetry. eapply Z.div_unique with (r := vaddr c mod 4096 + Z.min (len c) (4096 - vaddr c mod 4096) - 1); lia.
Qed.

Lemma copy_part s c n : 0 <= flen c -> 0 < n ->
  (if n <=? flen c then Cpu.memcopy N asFile seek read m s (src c) (vaddr c) (Z.to_nat n)
   else if flen c >? 0 then Cpu.memcopy N asFile seek read m s (src c) (vaddr c) (Z.to_nat (flen c)) else Some s)
  = Cpu.memcopy N asFile seek read m s (src c) (vaddr c) (Z.to_nat (Z.min n (flen c))).
Proof.
  intros H0 Hn. destruct (Z.leb_spec n (flen c)); [by rewrite Z.min_l by lia|].
  rewrite Z.min_r by lia. destruct (Z.gtb_spec (flen c) 0); [done|]. by replace (flen c) with 0 by lia.
Qed.

Definition next_cursor (c : cursor) (o : map_options_t) : cursor :=
  let n := chunk c in
  mkCursor (len c - n) (Z.max 0 (flen c - n)) (u32 (src c + n)) (vaddr c + n)
    (4096 * (vaddr c / 4096 + 1)) o (Z.max (vaddr c + n) (maxprogaddr c)).

Lemma page_of_cursor c : 0 <= vaddr c < gKernelBase ->
  aligned (page_of (vaddr c)) /\ of_address (page_of (vaddr c)) = of_address (vaddr c)
  /\ iskernel (page_of (vaddr c)) = false /\ u32 (vaddr c - page_of (vaddr c)) = vaddr c mod 4096
  /\ u32 (page_of (vaddr c) + gPageSize) = 4096 * (vaddr c / 4096 + 1).
Proof.
  unfold gKernelBase. intros Hv. assert (Hu : is_u32 (vaddr c)) by (unfold is_u; lia).
  pose proof (Z.div_mod (vaddr c) 4096 ltac:(lia)). pose proof (Z.mod_pos_bound (vaddr c) 4096 ltac:(lia)).
  split_and!; [rewrite page_of_eq; by apply page_aligned|by apply of_address_page|..]; rewrite page_of_div by done.
  - unfold iskernel, gKernelBase. apply Z.leb_gt. lia.
  - rewrite u32_id by (unfold is_u; lia). lia.
  - unfold gPageSize. rewrite u32_id by (unfold is_u; lia). lia.
Qed.

Lemma chunk_pages c w : ready_range c -> is_u32 w ->
  in_pages (vaddr c) (chunk c) w <-> of_address w = of_address (vaddr c).
Proof.
  intros (Hl & Hv & Hus) Hw. unfold gKernelBase in Hus. rewrite slot_div by (done || (unfold is_u; lia)).
  unfold in_pages. destruct (chunk_bounds c Hl Hv) as (_ & -> & _). lia.
Qed.

Lemma chunk_inside c w : ready_range c -> is_u32 w -> in_pages (vaddr c) (chunk c) w -> in_pages (vaddr c) (len c) w.
Proof.
  intros (Hl & Hv & _) Hw. unfold in_pages. destruct (chunk_bounds c Hl Hv) as (Hc & _ & _).
  pose proof (Z.div_le_mono (vaddr c + chunk c - 1) (vaddr c + len c - 1) 4096 ltac:(lia) ltac:(lia)). lia.
Qed.

Lemma run_in_pages c w : ready_range c -> vaddr c <= w < vaddr c + chunk c -> in_pages (vaddr c) (chunk c) w.
Proof.
  intros (Hl & Hv & _) Hw. unfold in_pages. split; apply Z.div_le_mono; lia.
Qed.

(** The fresh page under the chunk *)
Lemma map_chunk s c : ready s c ->
  exists s1, mapAnyPhysicalPage N s (page_of (vaddr c)) (with_rw (mapopts c) true) = Some (page_of (vaddr c), s1)
    /\ fresh_page N s s1 (vaddr c) (with_frompmm (with_rw (mapopts c) true) true).
Proof.
  intros Hr. pose proof (ready_in_range _ _ Hr) as Hrg. destruct Hr as [Hs Hl Hfl Hv Hus Hsr Hun Himg Hfree [Hou Hoc]].
  assert (Hu : is_u32 (vaddr c)) by (unfold is_u, gKernelBase in *; lia).
  destruct (page_of_cursor c ltac:(lia)) as (Hal & Hslot & _).
  pose proof (Z.div_le_mono (vaddr c) (vaddr c + len c - 1) 4096 ltac:(lia) ltac:(lia)).
  destruct (map_fresh N s (page_of (vaddr c)) (with_rw (mapopts c) true) Hs Hal) as (s1 & E & Hf); [|lia|done|].
  { rewrite Hslot. apply Hun; [done|]. apply chunk_inside; [done..|]. by apply chunk_pages. }
  exists s1. split; [done|]. destruct Hf as [Hf1 Hf2 Hf3 Hf4 Hf5 Hf6 Hf7 Hf8]. rewrite Hslot in *. by split.
Qed.

(** The bytes of the file in it *)
Lemma copy_chunk s s1 c o : ready s c -> fresh_page N s s1 (vaddr c) o -> rw o = true ->
  exists s2, Cpu.memcopy N asFile seek read m s1 (src c) (vaddr c) (Z.to_nat (Z.min (chunk c) (flen c))) = Some s2
    /\ same_tables s1 s2 /\ sane N s2
    /\ forall w, is_u32 w -> mem s2 w = if decide (in_pages (vaddr c) (chunk c) w)
                                     then Some (seg_byte (vaddr c) (flen c) (src c) w) else mem s w.
Proof.
  intros Hr [Hs1 [ph He1] Hj1 Hm1 Hx1 _ _ _] Hrw. pose proof (ready_in_range _ _ Hr) as Hrg.
  destruct Hr as [Hs Hl Hfl Hv Hus [Hsr0 Hsr1] Hun Himg Hfree _].
  destruct (chunk_bounds c Hl Hv) as (Hck & Hpage & Hend).
  assert (Hout : forall k, 0 <= k < flen c -> ~ in_pages (vaddr c) (chunk c) (src c + k)).
  { intros k Hk Hinp. assert (Hsk : is_u32 (src c + k)) by (unfold is_u; lia). pose proof (Himg k Hk) as Hm. unfold mem in Hm.
    rewrite Hun in Hm; [done|done|]. by apply chunk_inside. }
  destruct (Cpu.memcopy_spec N asFile seek read m (fun k => img (src c + k)) (Z.to_nat (Z.min (chunk c) (flen c))) s1 (src c) (vaddr c))
    as (s2 & -> & Htab & Hf2 & Hm2); [apply Hs1| |lia|lia| | |].
  { split; [lia|]. split; [unfold gKernelBase in Hus; lia|]. intros k Hk.
    assert (E : of_address k = of_address (vaddr c)).
    { apply chunk_pages; [done|unfold is_u, gKernelBase in *; lia|]. apply run_in_pages; [done|lia]. }
    split; [|by apply Hx1]. unfold Cpu.writable. rewrite E, (ho_present _ _ _ He1).
    pose proof (ho_options _ _ _ He1 false) as Ho. injection Ho as -> _. done. }
  { intros k Hk. assert (Hsk : is_u32 (src c + k)) by (unfold is_u; lia). rewrite Hm1 by done.
    rewrite decide_False; [apply Himg; lia|]. intros E. apply (Hout k); [lia|]. by apply chunk_pages. }
  { intros k Hk Hin. apply (Hout k); [lia|]. apply run_in_pages; [done|lia]. }
  exists s2. split; [done|]. split; [done|]. split; [by eapply sane_same_tables|].
  intros w Hw. rewrite Hm2, Hm1 by done. unfold seg_byte.
  destruct (decide (in_pages (vaddr c) (chunk c) w)) as [Hin|Hin].
  - rewrite (decide_True (P := of_address w = _)) by (by apply chunk_pages). unfold in_pages in Hin. rewrite Hpage in Hin.
    assert (Hwc : w < vaddr c + flen c -> w < vaddr c + Z.min (chunk c) (flen c)).
    { pose proof (Z.div_mod w 4096 ltac:(lia)). pose proof (Z.mod_pos_bound w 4096 ltac:(lia)). lia. }
    destruct (decide (vaddr c <= w < vaddr c + flen c)); [by rewrite decide_True by lia|by rewrite decide_False by lia].
  - rewrite decide_False by (intros Hr; apply Hin, run_in_pages; [done|lia]).
    rewrite decide_False; [done|]. intros E. apply Hin. by apply chunk_pages.
Qed.

Lemma read_fresh e ph o : has_options e ph (with_frompmm (with_rw o true) true) -> clear o = true ->
  read_options e (with_rw o true) = with_frompmm (with_rw o true) true.
Proof.
  intros [_ _ _ Ho] Hc. specialize (Ho true). destruct o as [r us cl fp cw ca gl]. simpl in Hc. subst cl. exact Ho.
Qed.

(** The options of the header on the page *)
Lemma protect_chunk s s1 s2 c o : ready s c -> fresh_page N s s1 (vaddr c) (with_frompmm (with_rw (mapopts c) true) true) ->
  same_tables s1 s2 -> sane N s2 -> rw o = Elf.writable p -> user o = true ->
  (forall w, is_u32 w -> mem s2 w = if decide (in_pages (vaddr c) (chunk c) w)
                              then Some (seg_byte (vaddr c) (flen c) (src c) w) else mem s w) ->
  loaded s (newoptions s2 (vaddr c) o).2 (vaddr c) (chunk c) (flen c) (src c).
Proof.
  intros Hr [Hs1 [ph He1] Hj1 Hm1 Hx1 Hst1 Hf1 Hq1] Htab Hs2 Hrw Hus Hm2. pose proof (ready_in_range _ _ Hr) as Hrg.
  assert (Hu : is_u32 (vaddr c)) by (destruct Hrg as (_ & ? & ?); unfold is_u, gKernelBase in *; destruct Hr; lia).
  assert (He2 : forall i, entry s2 i = entry s1 i) by (intros i; by apply same_entry).
  destruct (newoptions_spec N s2 (vaddr c) o Hs2 Hu) as (Hs3 & Hm3 & Hx3 & Hrw3 & Hus3 & Hpr3 & Hj3 & Hp3 & Hq3).
  { unfold Cpu.readable. rewrite He2. apply He1. }
  split; try done.
  - intros w Hw. by rewrite Hm3, Hm2.
  - intros w Hw Hin. apply chunk_pages in Hin as ->; [|done..]. rewrite Hrw3, Hus3. by split.
  - intros w Hw Hin. apply Hx3, (same_exclusive s1); [done|]. apply Hx1. by apply chunk_pages.
  - intros w Hw Hin. rewrite chunk_pages in Hin by done. rewrite Hj3, He2 by done. by apply Hj1.
  - intros w Hw Hin Hrd Hex. rewrite chunk_pages in Hin by done. apply Hx3, (same_exclusive s1); [done|]. by apply Hst1.
  - destruct Hrg as (Hl & Hv & _). destruct (chunk_bounds c Hl Hv) as (_ & -> & _).
    rewrite Hp3, (st_phys _ _ Htab), Hf1. lia.
  - etrans; [exact Hq1|]. etrans; [apply Htab|done].
Qed.

Lemma chunk_step_spec s c : ready s c ->
  exists s' o, chunk_step N asFile seek read m s p c = Some (Some (next_cursor c o), s')
    /\ loaded s s' (vaddr c) (chunk c) (flen c) (src c) /\ user o = true /\ clear o = true.
Proof.
  intros Hr. pose proof (ready_in_range _ _ Hr) as Hrg. destruct Hrg as (Hl & Hv & Hus). pose proof (rd_flen _ _ Hr) as Hfl.
  destruct (rd_opts _ _ Hr) as [Hou Hoc]. destruct (chunk_bounds c Hl Hv) as (Hck & _).
  destruct (page_of_cursor c ltac:(lia)) as (_ & _ & Hk & Hd & Hnext).
  destruct (map_chunk s c Hr) as (s1 & Em & Hfp). destruct (fp_entry _ _ _ _ _ Hfp) as [ph He1].
  destruct (copy_chunk s s1 c _ Hr Hfp eq_refl) as (s2 & Ec & Htab & Hs2 & Hm2).
  set (o := with_rw (with_frompmm (with_rw (mapopts c) true) true) (Elf.writable p)).
  exists (newoptions s2 (vaddr c) o).2, o. split_and!; [|by eapply protect_chunk|done|done].
  unfold chunk_step. rewrite Hk, Hd, Em, Hnext. cbn [mbind option_bind]. unfold gPageSize.
  assert (Hchunk : (if len c >? 4096 - vaddr c mod 4096 then 4096 - vaddr c mod 4096 else len c) = chunk c).
  { unfold chunk. destruct (Z.gtb_spec (len c) (4096 - vaddr c mod 4096)); lia. }
  assert (Hu : is_u32 (vaddr c)) by (unfold is_u, gKernelBase in *; lia).
  assert (Hmp : mapped s2 (vaddr c) (with_rw (mapopts c) true) = Some (with_frompmm (with_rw (mapopts c) true) true)).
  { unfold mapped. rewrite of_address_page, (same_entry _ _ _ Htab), (ho_present _ _ _ He1) by done. f_equal. by eapply read_fresh. }
  rewrite Hchunk, copy_part, Ec by lia. cbn [mbind option_bind]. rewrite Hmp. cbn [default].
  fold o. unfold next_cursor. rewrite (u32_id (vaddr c + chunk c)) by (unfold is_u, gKernelBase in *; lia).
  assert (Hmax : forall a b, (if a >? b then a else b) = Z.max a b) by (intros a b; destruct (Z.gtb_spec a b); lia).
  assert (Hsub : (if chunk c <=? flen c then flen c - chunk c else 0) = Z.max 0 (flen c - chunk c))
    by (destruct (Z.leb_spec (chunk c) (flen c)); lia).
  by rewrite Hmax, Hsub.
Qed.

Lemma in_pages_split v n1 n2 w : 0 <= v -> 0 < n1 -> 0 < n2 -> (v + n1) mod 4096 = 0 ->
  in_pages v (n1 + n2) w <-> in_pages v n1 w \/ in_pages (v + n1) n2 w.
Proof.
  intros Hv H1 H2 Hm. unfold in_pages. pose proof (Z.div_mod (v + n1) 4096 ltac:(lia)) as Hd. rewrite Hm in Hd.
  assert (E : (v + n1 - 1) / 4096 = (v + n1) / 4096 - 1).
  { symmetry. apply Z.div_unique with (r := 4095); lia. }
  replace (v + (n1 + n2) - 1) with (v + n1 + n2 - 1) by lia. rewrite E.
  pose proof (Z.div_le_mono (v + n1) (v + n1 + n2 - 1) 4096 ltac:(lia) ltac:(lia)).
  pose proof (Z.div_le_mono v (v + n1 - 1) 4096 ltac:(lia) ltac:(lia)). lia.
Qed.

Lemma in_pages_disjoint v n1 n2 w : (v + n1) mod 4096 = 0 -> in_pages v n1 w -> ~ in_pages (v + n1) n2 w.
Proof.
  intros Hm. unfold in_pages. pose proof (Z.div_mod (v + n1) 4096 ltac:(lia)) as Hd. rewrite Hm in Hd.
  assert (E : (v + n1 - 1) / 4096 = (v + n1) / 4096 - 1).
  { symmetry. apply Z.div_unique with (r := 4095); lia. }
  lia.
Qed.

Lemma seg_byte_next v n1 n2 fl sr w : (v + n1) mod 4096 = 0 -> 0 < n1 -> 0 <= sr -> sr + fl <= 2 ^ 32 -> in_pages (v + n1) n2 w ->
  seg_byte (v + n1) (Z.max 0 (fl - n1)) (u32 (sr + n1)) w = seg_byte v fl sr w.
Proof.
  intros Hm H1 H0 Hs [Hw _]. unfold seg_byte. pose proof (Z.div_mod (v + n1) 4096 ltac:(lia)) as Hd.
  pose proof (Z.div_mod w 4096 ltac:(lia)). pose proof (Z.mod_pos_bound w 4096 ltac:(lia)).
  destruct (decide (v <= w < v + fl)).
  - rewrite decide_True by lia. rewrite u32_id by (unfold is_u; lia). f_equal. lia.
  - by rewrite decide_False by lia.
Qed.

Lemma mem_readable s s' w : entry s' (of_address w) = entry s (of_address w) -> readable s' w = readable s w.
Proof. unfold readable. by intros ->. Qed.

Lemma loaded_trans s s1 s2 v n1 n2 fl sr : 0 <= v -> 0 < n1 -> 0 < n2 -> (v + n1) mod 4096 = 0 ->
  0 <= sr -> sr + fl <= 2 ^ 32 ->
  loaded s s1 v n1 fl sr -> loaded s1 s2 (v + n1) n2 (Z.max 0 (fl - n1)) (u32 (sr + n1)) ->
  loaded s s2 v (n1 + n2) fl sr.
Proof.
  intros Hv H1 H2 Hm H0 Hs [L1 L2 L3 L4 L5 L6 L7 L8] [M1 M2 M3 M4 M5 M6 M7 M8].
  pose proof (fun w => in_pages_split v n1 n2 w Hv H1 H2 Hm) as Hsp.
  pose proof (fun w => in_pages_disjoint v n1 n2 w Hm) as Hdj.
  split; [done|..].
  - intros w Hw. rewrite M2 by done. destruct (decide (in_pages (v + n1) n2 w)) as [Hi|Hi].
    + rewrite decide_True by (apply Hsp; by right). f_equal. by eapply seg_byte_next.
    + rewrite L2 by done. destruct (decide (in_pages v n1 w)).
      * by rewrite decide_True by (apply Hsp; by left).
      * by rewrite decide_False by (rewrite Hsp; tauto).
  - intros w Hw [Hi|Hi]%Hsp; [|by apply M3]. rewrite M5 by (try done; by apply Hdj). by apply L3.
  - intros w Hw [Hi|Hi]%Hsp; [|by apply M4]. apply M6; [done|by apply Hdj| |by apply L4].
    pose proof (L2 w Hw) as E. rewrite decide_True in E by done. unfold mem in E. by destruct (readable s1 w).
  - intros w Hw Hi. rewrite Hsp in Hi. rewrite M5 by (try done; tauto). apply L5; [done|tauto].
  - intros w Hw Hi Hr Hex. rewrite Hsp in Hi. apply M6; [done|tauto| |apply L6; [done|tauto|done|done]].
    rewrite (mem_readable s s1) by (apply L5; [done|tauto]). done.
  - rewrite M7, L7. pose proof (Z.div_mod (v + n1) 4096 ltac:(lia)) as Hd. rewrite Hm in Hd.
    assert (E : (v + n1 - 1) / 4096 = (v + n1) / 4096 - 1) by (symmetry; apply Z.div_unique with (r := 4095); lia).
    rewrite E. replace (v + (n1 + n2) - 1) with (v + n1 + n2 - 1) by lia. lia.
  - by etrans.
Qed.

Lemma ready_next s s1 c o : ready s c -> loaded s s1 (vaddr c) (chunk c) (flen c) (src c) ->
  user o = true -> clear o = true -> chunk c < len c -> ready s1 (next_cursor c o).
Proof.
  intros Hr HL Hou Hoc Hlt. pose proof (ready_in_range _ _ Hr) as Hrg. destruct Hrg as (Hl & Hv & Hus).
  destruct (chunk_bounds c Hl Hv) as (Hck & Hpage & [?|Hend]); [lia|].
  destruct (rd_flen _ _ Hr) as [Hf0 Hf1]. destruct (rd_src _ _ Hr) as [Hs0 Hs1].
  assert (Hmod : (vaddr c + chunk c) mod 4096 = 0) by (rewrite Hend, Z.mul_comm; apply Z_mod_mult).
  pose proof (fun w => in_pages_split (vaddr c) (chunk c) (len c - chunk c) w Hv ltac:(lia) ltac:(lia) Hmod) as Hsp.
  replace (chunk c + (len c - chunk c)) with (len c) in Hsp by lia.
  split; unfold next_cursor; cbn [len flen src vaddr mapopts]; try lia; try done.
  - apply HL.
  - pose proof (u32_range (src c + chunk c)) as Hu. unfold is_u in Hu.
    destruct (Z.le_gt_cases (flen c) (chunk c)); [lia|]. rewrite u32_id by (unfold is_u; lia). lia.
  - intros w Hw Hi. rewrite (mem_readable s s1).
    + apply (rd_unmapped _ _ Hr w Hw). apply Hsp. by right.
    + apply (ld_other _ _ _ _ _ _ HL w Hw). intros Hi'. by apply (in_pages_disjoint _ _ (len c - chunk c) w Hmod Hi').
  - intros k Hk. rewrite u32_id by (unfold is_u; lia).
    assert (Hu : is_u32 (src c + chunk c + k)) by (unfold is_u; lia).
    rewrite (ld_mem _ _ _ _ _ _ HL) by done. pose proof (rd_image _ _ Hr (chunk c + k) ltac:(lia)) as Himg.
    rewrite Z.add_assoc in Himg. rewrite decide_False; [done|]. intros Hi. unfold mem in Himg.
    rewrite (rd_unmapped _ _ Hr _ Hu) in Himg; [done|]. apply Hsp. by left.
  - rewrite (ld_free _ _ _ _ _ _ HL), Hpage. pose proof (rd_free _ _ Hr) as Hfr.
    replace (vaddr c + chunk c + (len c - chunk c) - 1) with (vaddr c + len c - 1) by lia.
    rewrite Hend, (Z.mul_comm 4096), Z.div_mul by lia. lia.
Qed.

(** All chunks of a segment: as many turns as it has pages *)
Lemma chunks_spec fuel : forall s c, ready s c ->
  (vaddr c + len c - 1) / 4096 - vaddr c / 4096 < Z.of_nat fuel ->
  exists s' c', chunks N asFile seek read fuel m s p c = Some (Some c', s')
    /\ loaded s s' (vaddr c) (len c) (flen c) (src c)
    /\ vaddr1 c' = 4096 * ((vaddr c + len c - 1) / 4096 + 1) /\ maxprogaddr c' = Z.max (vaddr c + len c) (maxprogaddr c).
Proof.
  induction fuel as [|fuel IH]; intros s c Hr Hfuel; pose proof (ready_in_range _ _ Hr) as (Hl & Hv & Hus).
  { pose proof (Z.div_le_mono (vaddr c) (vaddr c + len c - 1) 4096 ltac:(lia) ltac:(lia)). lia. }
  cbn [chunks]. rewrite (proj2 (Z.eqb_neq (len c) 0)) by lia.
  destruct (chunk_step_spec s c Hr) as (s1 & o & -> & HL & Hou & Hoc). cbn [mbind option_bind].
  destruct (chunk_bounds c Hl Hv) as (Hck & Hpage & Hend).
  destruct (Z.eq_dec (chunk c) (len c)) as [Hlast|Hmore].
  - exists s1, (next_cursor c o). rewrite Hlast in HL. split_and!; [|done|..].
    + assert (E : len (next_cursor c o) = 0) by (unfold next_cursor; cbn [len]; lia).
      destruct fuel; cbn [chunks]; by rewrite E.
    + cbn [next_cursor vaddr1]. rewrite Hlast in Hpage. by rewrite Hpage.
    + cbn [next_cursor maxprogaddr]. by rewrite Hlast.
  - destruct Hend as [?|Hend]; [lia|]. pose proof (ready_next s s1 c o Hr HL Hou Hoc ltac:(lia)) as Hr1.
    assert (Hq : (vaddr c + chunk c) / 4096 = vaddr c / 4096 + 1) by (rewrite Hend, Z.mul_comm; apply Z.div_mul; lia).
    destruct (IH s1 (next_cursor c o) Hr1) as (s2 & c' & E & HL2 & Hv1 & Hmx).
    { cbn [next_cursor vaddr len]. replace (vaddr c + chunk c + (len c - chunk c) - 1) with (vaddr c + len c - 1) by lia. lia. }
    cbn [next_cursor vaddr len flen src maxprogaddr] in HL2, Hv1, Hmx. exists s2, c'.
    replace (vaddr c + chunk c + (len c - chunk c)) with (vaddr c + len c) in Hv1, Hmx by lia.
    split_and!; [done| |done|rewrite Hmx; lia].
    replace (len c) with (chunk c + (len c - chunk c)) by lia. destruct (rd_src _ _ Hr).
    eapply loaded_trans; try done; try lia.
Qed.

End Spec.

(** *** The whole image *)

Section Image.
Context (N : Z) (asFile : Z -> bool) (seek : Z -> Z -> bool) (read : Z -> Z -> list Z).
Context (img : Z -> Z) (base : Z) (h : elf_header_t).

Definition pages_of (q : elf_program_t) (w : Z) : Prop := loadable q = true /\ in_pages (p_vaddr q) (p_memsz q) w.

(** The number of pages of a segment *)
Definition page_count (q : elf_program_t) : Z :=
  if loadable q then (p_vaddr q + p_memsz q - 1) / 4096 - p_vaddr q / 4096 + 1 else 0.
Definition total_pages (ps : list elf_program_t) : Z := foldr (fun q n => page_count q + n) 0 ps.

(** A segment the kernel can load into [s] *)
Record segment_ok (s : vm) (q : elf_program_t) : Prop := {
  so_align : p_align q = gPageSize;
  so_size : 0 <= p_filesz q <= p_memsz q /\ 0 < p_memsz q;
  so_user : 0 <= p_vaddr q /\ p_vaddr q + p_memsz q <= gKernelBase;
  so_content : content q base + p_filesz q <= 2 ^ 32;
  so_unmapped w : is_u32 w -> in_pages (p_vaddr q) (p_memsz q) w -> readable s w = false;
  so_image k : 0 <= k < p_filesz q -> mem s (content q base + k) = Some (img (content q base + k)) }.

Definition table_entry (i : nat) : Z := base + phoff h + 32 * Z.of_nat i.

(** The program headers from the [i]-th on, as they lie in memory *)
Definition table_ok (s : vm) (i : nat) (ps : list elf_program_t) : Prop :=
  0 <= table_entry i /\ table_entry (i + length ps) <= 2 ^ 32 /\
  forall k q, ps !! k = Some q -> exists l, length l = 32%nat /\ program_of l = q
    /\ forall j b, l !! j = Some b -> mem s (table_entry (i + k) + Z.of_nat j) = Some b.

Definition separate (q r : elf_program_t) : Prop := forall w, pages_of q w -> ~ pages_of r w.

Record image_ok (s : vm) (i : nat) (ps : list elf_program_t) : Prop := {
  im_sane : sane N s;
  im_table : table_ok s i ps;
  im_segments q : q ∈ ps -> loadable q = true -> segment_ok s q;
  im_separate : ForallOrdPairs separate ps;
  im_free : total_pages ps <= Phys.mFreePages (phys s) }.

(** The regions of the segments, and the highest address *)
Fixpoint image_regions (m : mm) (ps : list elf_program_t) : mm :=
  match ps with
  | [] => m
  | q :: ps =>
      image_regions (if loadable q then (addMappedRegion m (p_vaddr q)
        (4096 * ((p_vaddr q + p_memsz q - 1) / 4096 + 1) - 1)).2 else m) ps
  end.
Definition image_top (mx : Z) (ps : list elf_program_t) : Z :=
  foldl (fun mx q => if loadable q then Z.max (p_vaddr q + p_memsz q) mx else mx) mx ps.

(** What is in memory afterwards *)
Record image_loaded (s s' : vm) (ps : list elf_program_t) : Prop := {
  il_sane : sane N s';
  il_segment q w : q ∈ ps -> pages_of q w -> is_u32 w ->
    mem s' w = Some (seg_byte img (p_vaddr q) (p_filesz q) (content q base) w)
    /\ get (entry s' (of_address w)) bRw = Elf.writable q /\ get (entry s' (of_address w)) bUser = true;
  il_other w : is_u32 w -> (forall q, q ∈ ps -> ~ pages_of q w) ->
    mem s' w = mem s w /\ entry s' (of_address w) = entry s (of_address w) }.

Lemma load_segment_spec m s q mx : sane N s -> segment_ok s q -> loadable q = true ->
  page_count q <= Phys.mFreePages (phys s) ->
  exists s', load_segment N asFile seek read m s base q mx
    = Some (inr (Z.max (p_vaddr q + p_memsz q) mx, image_regions m [q]), s')
    /\ loaded N q img s s' (p_vaddr q) (p_memsz q) (p_filesz q) (content q base).
Proof.
  intros Hs [Ha [Hsz Hpos] [Hv Hus] Hc Hun Himg] Hl Hfree. unfold load_segment. unfold page_count in Hfree. rewrite Hl in Hfree.
  match goal with |- context [chunks _ _ _ _ _ _ _ _ ?x] => set (c := x) end.
  pose proof (u32_range (base + p_offset q)) as Hcu. fold (content q base) in Hcu. unfold is_u in Hcu.
  destruct (chunks_spec N asFile seek read m q img (Z.to_nat (p_memsz q / gPageSize + 2)) s c) as (s' & c' & -> & HL & Hv1 & Hmx).
  { split; unfold c; cbn [len flen src vaddr mapopts]; try done; try lia. }
  { unfold c. cbn [vaddr len]. unfold gPageSize.
    assert (0 <= p_memsz q / 4096) by (apply Z.div_pos; lia). rewrite Z2Nat.id by lia. lia. }
  cbn [mbind option_bind]. unfold c in *. cbn [vaddr len flen src maxprogaddr] in *. rewrite Hv1, Hmx.
  exists s'. split; [|done]. cbn [image_regions]. rewrite Hl. do 5 f_equal.
  rewrite u32_id; [done|]. unfold is_u, gKernelBase in *. lia.
Qed.

Lemma separate_head q ps r w : ForallOrdPairs separate (q :: ps) -> r ∈ ps -> pages_of q w -> ~ pages_of r w.
Proof.
  inversion_clear 1 as [|? ? Hall _]. intros Hr. rewrite Stdlib.Lists.List.Forall_forall in Hall.
  apply (Hall r). by apply list_elem_of_In.
Qed.

(** Loading one segment leaves the rest of the image ready. *)
Lemma image_ok_next s s1 i q ps : image_ok s i (q :: ps) -> loadable q = true ->
  loaded N q img s s1 (p_vaddr q) (p_memsz q) (p_filesz q) (content q base) -> image_ok s1 (i + 1) ps.
Proof.
  intros [Hs (Ht0 & Ht1 & Ht) Hseg Hsep Hfree] Hl HL.
  pose proof (Hseg q ltac:(left) Hl) as Hq.
  assert (Hkeep : forall a b, is_u32 a -> mem s a = Some b -> mem s1 a = Some b).
  { intros a b Ha E. rewrite (ld_mem _ _ _ _ _ _ _ _ _ HL) by done. rewrite decide_False; [done|].
    intros Hi. unfold mem in E. by rewrite (so_unmapped _ _ Hq a Ha Hi) in E. }
  split; [apply HL| | |by inversion Hsep|].
  - cbn [length] in Ht1. replace (i + S (length ps))%nat with (i + 1 + length ps)%nat in Ht1 by lia. unfold table_entry in *.
    unfold table_ok, table_entry. split; [lia|]. split; [exact Ht1|]. intros k r Hk. destruct (Ht (S k) r Hk) as (l & Hlen & Hp & Hb). exists l.
    split_and!; [done..|]. intros j b Hj. pose proof (lookup_lt_Some _ _ _ Hj). pose proof (lookup_lt_Some _ _ _ Hk).
    apply Hkeep; [unfold is_u; lia|]. rewrite <- (Hb j b Hj). f_equal. lia.
  - intros r Hr Hlr. pose proof (Hseg r ltac:(by right) Hlr) as [Ra Rs Ru Rc Run Rimg]. split; try done.
    + intros w Hw Hi. rewrite (mem_readable s s1); [by apply Run|]. apply (ld_other _ _ _ _ _ _ _ _ _ HL w Hw).
      intros Hiq. by apply (separate_head q ps r w Hsep Hr).
    + intros k Hk. apply Hkeep; [|by apply Rimg].
      pose proof (u32_range (base + p_offset r)) as Hu. fold (content r base) in Hu. unfold is_u in *. lia.
  - rewrite (ld_free _ _ _ _ _ _ _ _ _ HL). cbn [total_pages foldr] in Hfree. unfold page_count in Hfree at 1. rewrite Hl in Hfree.
    unfold total_pages. lia.
Qed.

Lemma image_ok_skip s i q ps : image_ok s i (q :: ps) -> loadable q = false -> image_ok s (i + 1) ps.
Proof.
  intros [Hs (Ht0 & Ht1 & Ht) Hseg Hsep Hfree] Hl. split; [done| | |by inversion Hsep|].
  - cbn [length] in Ht1. replace (i + S (length ps))%nat with (i + 1 + length ps)%nat in Ht1 by lia. unfold table_entry in *.
    unfold table_ok, table_entry. split; [lia|]. split; [exact Ht1|]. intros k r Hk. destruct (Ht (S k) r Hk) as (l & Hlen & Hp & Hb). exists l.
    split_and!; [done..|]. intros j b Hj. rewrite <- (Hb j b Hj). f_equal. lia.
  - intros r Hr. apply Hseg. by right.
  - cbn [total_pages foldr] in Hfree. unfold page_count in Hfree at 1. rewrite Hl in Hfree. unfold total_pages. lia.
Qed.

Lemma total_pages_nonneg s ps : (forall q, q ∈ ps -> loadable q = true -> segment_ok s q) -> 0 <= total_pages ps.
Proof.
  intros Hseg. induction ps as [|q ps IH]; [done|]. cbn [total_pages foldr].
  assert (0 <= total_pages ps) by (apply IH; intros r Hr; apply Hseg; by right). unfold total_pages in *. unfold page_count at 1.
  destruct (loadable q) eqn:E; [|lia]. destruct (Hseg q ltac:(left) E) as [_ [_ ?] [? _] _ _ _].
  pose proof (Z.div_le_mono (p_vaddr q) (p_vaddr q + p_memsz q - 1) 4096 ltac:(lia) ltac:(lia)). lia.
Qed.

Lemma image_loaded_cons s s1 s2 q ps : segment_ok s q -> loadable q = true -> ForallOrdPairs separate (q :: ps) ->
  loaded N q img s s1 (p_vaddr q) (p_memsz q) (p_filesz q) (content q base) ->
  image_loaded s1 s2 ps -> image_loaded s s2 (q :: ps).
Proof.
  intros Hq Hl Hsep HL [I1 I2 I3]. split; [done|..].
  - intros r w [->|Hr]%elem_of_cons Hp Hw; [|by apply I2].
    destruct (I3 w Hw) as [-> ->]; [intros r' Hr'; by apply (separate_head q ps r' w Hsep)|].
    destruct Hp as [_ Hp]. rewrite (ld_mem _ _ _ _ _ _ _ _ _ HL) by done. rewrite decide_True by done. split; [done|].
    by apply (ld_perm _ _ _ _ _ _ _ _ _ HL).
  - intros w Hw Hout. destruct (I3 w Hw) as [-> ->]; [intros r Hr; apply Hout; by right|].
    assert (Hn : ~ in_pages (p_vaddr q) (p_memsz q) w) by (intros Hi; apply (Hout q); [left|by split]).
    rewrite (ld_mem _ _ _ _ _ _ _ _ _ HL) by done. rewrite decide_False by done. split; [done|].
    by apply (ld_other _ _ _ _ _ _ _ _ _ HL).
Qed.

Lemma image_loaded_skip s s' q ps : loadable q = false -> image_loaded s s' ps -> image_loaded s s' (q :: ps).
Proof.
  intros Hl [I1 I2 I3]. split; [done|..].
  - intros r w [->|Hr]%elem_of_cons Hp Hw; [|by apply I2]. destruct Hp. congruence.
  - intros w Hw Hout. apply I3; [done|]. intros r Hr. apply Hout. by right.
Qed.

Definition loadables (ps : list elf_program_t) : nat := length (filter (fun q => loadable q = true) ps).

Lemma program_at_spec m s i q ps : image_ok s i (q :: ps) -> program_at N asFile seek read m s base h i = Some (q, s).
Proof.
  intros [_ (Ht0 & Ht1 & Ht) _ _ _]. destruct (Ht 0%nat q eq_refl) as (l & Hlen & <- & Hb). unfold program_at.
  unfold table_entry in *. cbn [length] in Ht1. rewrite u32_id by (unfold is_u; lia).
  rewrite <- Hlen at 1. rewrite load_bytes_spec; [done|lia|lia|].
  intros k b Hk. rewrite <- (Hb k b Hk). f_equal. lia.
Qed.

Lemma load_headers_spec ps : forall m s i idx mx, image_ok s i ps -> (idx + loadables ps <= max_headers)%nat ->
  exists s', load_headers N asFile seek read (length ps) m s base h i idx mx
    = Some (inr (image_top mx ps), image_regions m ps, s') /\ image_loaded s s' ps.
Proof.
  induction ps as [|q ps IH]; intros m s i idx mx Hok Hidx; cbn [length load_headers].
  { exists s. split; [done|]. split; [apply Hok| |done]. intros q w Hq. by apply not_elem_of_nil in Hq. }
  rewrite (program_at_spec m s i q ps Hok). cbn [mbind option_bind image_top foldl image_regions].
  unfold loadables in Hidx. rewrite filter_cons in Hidx.
  destruct (loadable q) eqn:Hl; cbn [negb].
  - rewrite decide_True in Hidx by done. cbn [length] in Hidx.
    pose proof (im_segments _ _ _ Hok q ltac:(left) Hl) as Hq. rewrite (so_align _ _ Hq). change (gPageSize =? gPageSize) with true.
    cbn [negb]. rewrite (proj2 (Nat.leb_gt max_headers idx)) by lia.
    pose proof (im_free _ _ _ Hok) as Hfree. cbn [total_pages foldr] in Hfree.
    destruct (load_segment_spec m s q mx (im_sane _ _ _ Hok) Hq Hl) as (s1 & -> & HL).
    { pose proof (total_pages_nonneg s ps (fun r Hr => im_segments _ _ _ Hok r (list_elem_of_further _ _ _ Hr))).
      unfold total_pages in *. lia. }
    cbn [mbind option_bind image_regions]. rewrite Hl.
    destruct (IH (addMappedRegion m (p_vaddr q) (4096 * ((p_vaddr q + p_memsz q - 1) / 4096 + 1) - 1)).2 s1 (i + 1)%nat (idx + 1)%nat
      (Z.max (p_vaddr q + p_memsz q) mx)) as (s2 & -> & HI); [by eapply image_ok_next|unfold loadables; lia|].
    exists s2. split; [done|]. eapply image_loaded_cons; try done. apply Hok.
  - rewrite decide_False in Hidx by done.
    destruct (IH m s (i + 1)%nat idx mx) as (s2 & -> & HI); [by eapply image_ok_skip|unfold loadables; lia|].
    exists s2. split; [done|]. by apply image_loaded_skip.
Qed.

End Image.
End ElfSpec.

(** ** ELF images *)

Section ImageTheorem.
Import Elf Entry Indices Virt MemMgr Cpu ElfSpec.

(** C9: the loader puts an ELF image into memory as its program headers say.  For
    an image whose loadable segments are page-aligned, lie in user space on pages
    of their own that are not mapped yet, number at most ten and fit into the free
    frames, [load_elf_image] succeeds: every byte of every page of a segment is the
    byte of the file for that address, or zero behind the part the file has; every
    such page is a user page and writable exactly when the header says so; every
    other address keeps its byte and its mapping; the segments become regions of
    the process and the top is the highest address any of them uses. *)
Theorem elf_image_loaded N asFile seek read img base h ps m s :
  image_ok N img base h s 0 ps -> Z.to_nat (phnum h) = length ps -> (loadables ps <= max_headers)%nat ->
  exists s', load_elf_image N asFile seek read m s base h
    = Some (inr (image_top (Elf.entry h) ps), image_regions m ps, s')
  /\ (forall q w, q ∈ ps -> pages_of q w -> is_u32 w ->
        mem s' w = Some (if decide (p_vaddr q <= w < p_vaddr q + p_filesz q)
                         then img (content q base + (w - p_vaddr q)) else 0)
        /\ get (entry s' (of_address w)) bRw = Elf.writable q /\ get (entry s' (of_address w)) bUser = true)
  /\ (forall w, is_u32 w -> (forall q, q ∈ ps -> ~ pages_of q w) ->
        mem s' w = mem s w /\ entry s' (of_address w) = entry s (of_address w)).
Proof.
  intros Hok Hlen Hmax.
  destruct (load_headers_spec N asFile seek read img base h ps m s 0 0 (Elf.entry h) Hok Hmax) as (s' & E & [_ I2 I3]).
  exists s'. unfold load_elf_image. by rewrite Hlen.
Qed.

End ImageTheorem.

Module SampleElf.
Import Elf Entry Indices Virt MemMgr Cpu ElfSpec.

(** An image at 0x1000 with one segment of ten bytes, three of them in the file,
    over the end of a page *)
Definition bytes_of_image : list Z :=
  Bytes.bytes 4 1 ++ Bytes.bytes 4 32 ++ Bytes.bytes 4 0x08000FFE ++ Bytes.bytes 4 0 ++ Bytes.bytes 4 3 ++ Bytes.bytes 4 10
  ++ Bytes.bytes 4 5 ++ Bytes.bytes 4 4096 ++ [11; 22; 33].

Definition img (a : Z) : Z := default 0 (bytes_of_image !! Z.to_nat (a - 0x1000)).

Definition segment : elf_program_t := mkProgram 1 32 0x08000FFE 0 3 10 5 4096.
Definition header : elf_header_t := mkHeader 0x464c457f 1 1 1 2 3 0x08000FFE 0 0 52 32 1 0 0 0.

(** One page at 0x1000 that begins with these bytes, and two free frames *)
Definition holding (l : list Z) : vm :=
  mkVm {[(0, 1) := 0x5203]}
    (Phys.mkPmm (<[5 := Phys.mkPage true 1]> (<[6 := Phys.mkPage true 0]> {[7 := Phys.mkPage true 0]})) 0 3 0 3 2)
    {[0x5000 := l ++ replicate (4096 - length l) 0]} true 0 0xD0000000 0xD0001000 [].

Definition start : vm := holding bytes_of_image.

Lemma holding_entry l w : is_u32 w -> entry (holding l) (of_address w) = if decide (w / 4096 = 1) then 0x5203 else 0.
Proof.
  intros Hw. unfold entry, holding. cbn [entries]. rewrite lookup_singleton.
  pose proof (of_address_wf w Hw) as Hwf. pose proof (of_address_number w ltac:(unfold is_u in Hw; lia)) as Hn.
  unfold number, wf in *. destruct (of_address w) as [d t]. cbn [dir tbl] in *.
  destruct (decide (w / 4096 = 1)).
  - rewrite decide_True; [done|]. f_equal; lia.
  - rewrite decide_False; [done|]. intros [= <- <-]. lia.
Qed.

Lemma start_sane : sane 16 start.
Proof.
  assert (Hp : forall i g, Phys.mPages (phys start) !! i = Some g ->
    (i = 5 /\ g = Phys.mkPage true 1) \/ ((i = 6 \/ i = 7) /\ g = Phys.mkPage true 0)).
  { intros i g. simpl. rewrite !lookup_insert_Some, lookup_singleton_Some.
    intros [[<- <-]|[_ [[<- <-]|[_ [<- <-]]]]]; auto. }
  split.
  - intros k v Hk. simpl in Hk. apply lookup_singleton_Some in Hk as [_ <-]. unfold is_u. lia.
  - split; simpl; try lia.
    + intros i g [[-> _]|[[-> | ->] _]]%Hp; lia.
    + intros i g [[_ ->]|[_ ->]]%Hp; simpl; lia.
    + vm_compute. reflexivity.
  - intros b. unfold frame, start. simpl. rewrite lookup_singleton. case_decide; [vm_compute; reflexivity|].
    apply length_replicate.
  - intros i Hi. destruct (decide (i = mkIndices 0 1)) as [->|Hne]; [done|]. unfold entry, start. simpl.
    rewrite lookup_singleton_ne; [done|]. intros [= E1 E2]. apply Hne. destruct i. simpl in *. congruence.
Qed.

Lemma holding_mem l k b : (length l <= 4096)%nat -> l !! k = Some b -> mem (holding l) (0x1000 + Z.of_nat k) = Some b.
Proof.
  intros Hl Hk. pose proof (lookup_lt_Some _ _ _ Hk) as Hlt.
  assert (Hw : is_u32 (0x1000 + Z.of_nat k)) by (unfold is_u; lia).
  assert (Hd : (0x1000 + Z.of_nat k) / 4096 = 1) by (symmetry; apply Z.div_unique with (r := Z.of_nat k); lia).
  unfold mem, readable, peek, frame_of. rewrite holding_entry, decide_True by done.
  change (get 0x5203 bPresent) with true. change (page 0x5203) with 0x5000. f_equal.
  assert (Ho : Z.to_nat (offset (0x1000 + Z.of_nat k)) = k).
  { rewrite offset_mod. replace (0x1000 + Z.of_nat k) with (Z.of_nat k + 1 * 4096) by lia.
    rewrite Z_mod_plus_full, Z.mod_small by lia. lia. }
  rewrite Ho. unfold frame, holding. cbn [frames]. rewrite lookup_singleton_eq.
  change (default 0 ((l ++ replicate (4096 - length l) 0) !! k) = b). by rewrite lookup_app, Hk.
Qed.

Lemma start_mem k b : bytes_of_image !! k = Some b -> mem start (0x1000 + Z.of_nat k) = Some b.
Proof. apply holding_mem. vm_compute. lia. Qed.

Lemma start_image : image_ok 16 img 0x1000 header start 0 [segment].
Proof.
  split; [apply start_sane| | |repeat constructor|vm_compute; done].
  - unfold table_ok, table_entry. simpl. split; [lia|]. split; [lia|]. intros [|k] q Hq; [|done]. injection Hq as <-.
    exists (take 32 bytes_of_image). split; [done|]. split; [vm_compute; reflexivity|].
    intros j b Hj. apply lookup_take_Some in Hj as [Hj _]. exact (start_mem j b Hj).
  - intros q Hq _. apply list_elem_of_singleton in Hq as ->. split; try done.
    + intros w Hw [H1 H2]. unfold readable. unfold start. rewrite holding_entry by done. rewrite decide_False; [done|].
      change (p_vaddr segment) with 0x08000FFE in H1. change (0x08000FFE / 4096) with 0x8000 in H1. lia.
    + intros k Hk. change (content segment 4096) with (0x1000 + 32). change (p_filesz segment) with 3 in Hk.
      assert (E : exists b, bytes_of_image !! (32 + Z.to_nat k)%nat = Some b).
      { apply lookup_lt_is_Some_2. change (length bytes_of_image) with 35%nat. lia. }
      destruct E as [b E]. pose proof (start_mem _ _ E) as Hm. replace (0x1000 + 32 + k) with (0x1000 + Z.of_nat (32 + Z.to_nat k)) by lia.
      rewrite Hm. unfold img. replace (Z.to_nat (0x1000 + Z.of_nat (32 + Z.to_nat k) - 0x1000)) with (32 + Z.to_nat k)%nat by lia.
      by rewrite E.
Qed.

End SampleElf.

Lemma elf_image_loaded_witness :
  exists m' s', Elf.load_elf_image 16 (fun _ => false) (fun _ _ => false) (fun _ _ => []) MemMgr.new SampleElf.start 0x1000 SampleElf.header
    = Some (inr 0x08001008, m', s')
    /\ Cpu.mem s' 0x08000FFE = Some 11 /\ Cpu.mem s' 0x08001000 = Some 33 /\ Cpu.mem s' 0x08001001 = Some 0.
Proof.
  destruct (elf_image_loaded 16 (fun _ => false) (fun _ _ => false) (fun _ _ => []) SampleElf.img 0x1000 SampleElf.header
    [SampleElf.segment] MemMgr.new SampleElf.start SampleElf.start_image eq_refl ltac:(vm_compute; lia)) as (s' & E & Hseg & _).
  eexists _, s'. split; [exact E|].
  assert (Hin : forall w, 0x08000FFE <= w < 0x08001008 -> ElfSpec.pages_of SampleElf.segment w).
  { intros w Hw. split; [reflexivity|]. unfold ElfSpec.in_pages. cbn [Elf.p_vaddr Elf.p_memsz SampleElf.segment].
    split; apply Z.div_le_mono; lia. }
  split_and!.
  - exact (proj1 (Hseg SampleElf.segment 0x08000FFE ltac:(left) (Hin 0x08000FFE ltac:(lia)) ltac:(unfold is_u; lia))).
  - exact (proj1 (Hseg SampleElf.segment 0x08001000 ltac:(left) (Hin 0x08001000 ltac:(lia)) ltac:(unfold is_u; lia))).
  - exact (proj1 (Hseg SampleElf.segment 0x08001001 ltac:(left) (Hin 0x08001001 ltac:(lia)) ltac:(unfold is_u; lia))).
Defined.

(** ** Arguments and environment *)

Module ArraySpec.
Import Bytes Virt MemMgr Cpu Elf.

(** How the program reads a string, and an array of strings, up to the null *)
Fixpoint cstring (fuel : nat) (s : vm) (a : Z) : option (list Z) :=
  match fuel with
  | O => None
  | S fuel => b ← mem s a; if b =? 0 then Some [] else l ← cstring fuel s (a + 1); Some (b :: l)
  end.

Definition pointer (s : vm) (a : Z) : option Z :=
  b0 ← mem s a; b1 ← mem s (a + 1); b2 ← mem s (a + 2); b3 ← mem s (a + 3); Some (word [b0; b1; b2; b3]).

Fixpoint string_array (fuel len : nat) (s : vm) (a : Z) : option (list string) :=
  match fuel with
  | O => None
  | S fuel =>
      p ← pointer s a;
      if p =? 0 then Some []
      else x ← cstring len s p; l ← string_array fuel len s (a + 4); Some (string_of x :: l)
  end.

Definition bytes_at (s : vm) (a : Z) (l : list Z) : Prop := forall k b, l !! k = Some b -> mem s (a + Z.of_nat k) = Some b.

Lemma cstring_at s x : forall a fuel, bytes_at s a (x ++ [0]) -> 0 ∉ x -> (length x < fuel)%nat -> cstring fuel s a = Some x.
Proof.
  induction x as [|b x IH]; intros a fuel Hb Hx Hf; destruct fuel as [|fuel]; try (simpl in Hf; lia); cbn [cstring].
  - pose proof (Hb 0%nat 0 eq_refl) as Hm. rewrite Z.add_0_r in Hm. by rewrite Hm.
  - pose proof (Hb 0%nat b eq_refl) as Hm. rewrite Z.add_0_r in Hm. rewrite Hm. cbn [mbind option_bind].
    rewrite not_elem_of_cons in Hx. destruct Hx as [Hne Hx].
    rewrite (proj2 (Z.eqb_neq b 0)) by done. rewrite IH; [done| |done|simpl in Hf; lia].
    intros k c Hk. rewrite <- (Hb (S k) c Hk). f_equal. lia.
Qed.

Lemma pointer_at s a v : bytes_at s a (bytes 4 v) -> 0 <= v < 2 ^ 32 -> pointer s a = Some v.
Proof.
  intros Hb Hv. unfold pointer. pose proof (word_bytes 4 v Hv) as Hw. cbn [bytes] in *.
  pose proof (Hb 0%nat _ eq_refl) as H0. pose proof (Hb 1%nat _ eq_refl) as H1.
  pose proof (Hb 2%nat _ eq_refl) as H2. pose proof (Hb 3%nat _ eq_refl) as H3.
  rewrite Z.add_0_r in H0. change (Z.of_nat 1) with 1 in H1. change (Z.of_nat 2) with 2 in H2. change (Z.of_nat 3) with 3 in H3.
  rewrite H0, H1, H2, H3. cbn [mbind option_bind]. f_equal. exact Hw.
Qed.

(** The strings of [l] behind the pointers at [e], the first of them at [q] *)
Fixpoint array_at (s : vm) (e q : Z) (l : list string) : Prop :=
  match l with
  | [] => True
  | x :: l => bytes_at s e (bytes 4 q) /\ bytes_at s q (chars x ++ [0])
      /\ array_at s (e + 4) (q + Z.of_nat (length (chars x)) + 1) l
  end.

Definition payload (l : list string) : Z := foldr (fun x n => Z.of_nat (length (chars x)) + 1 + n) 0 l.

Lemma payload_nonneg l : 0 <= payload l.
Proof. induction l as [|x l IH]; cbn [payload foldr]; [done|]. fold (payload l). lia. Qed.

Lemma payload_elem x l : x ∈ l -> Z.of_nat (length (chars x)) < payload l.
Proof.
  induction l as [|y l IH]; intros Hx; [by apply not_elem_of_nil in Hx|].
  cbn [payload foldr]. fold (payload l). pose proof (payload_nonneg l).
  apply elem_of_cons in Hx as [->|Hx]; [lia|]. specialize (IH Hx). lia.
Qed.

Lemma array_at_mono s s' e q l : 0 <= e -> e + 4 * Z.of_nat (length l) <= q -> q + payload l <= 2 ^ 32 ->
  (forall w, is_u32 w -> e <= w < e + 4 * Z.of_nat (length l) \/ q <= w < q + payload l -> mem s' w = mem s w) ->
  array_at s e q l -> array_at s' e q l.
Proof.
  revert e q. induction l as [|x l IH]; intros e q H0 H1 H2 Hk; [done|]. cbn [array_at payload foldr length] in *. fold (payload l) in *.
  pose proof (payload_nonneg l). intros (A & B & C). split_and!.
  - intros k b Hb. pose proof (lookup_lt_Some _ _ _ Hb) as Hlt. rewrite bytes_length in Hlt.
    rewrite Hk; [by apply A|unfold is_u; lia|lia].
  - intros k b Hb. pose proof (lookup_lt_Some _ _ _ Hb) as Hlt. rewrite length_app in Hlt. simpl in Hlt.
    rewrite Hk; [by apply B|unfold is_u; lia|lia].
  - apply IH; [lia|lia|lia| |done]. intros w Hw Hr. apply Hk; [done|lia].
Qed.

Lemma string_array_at s l : forall e q len fuel, 0 < q -> 0 <= e -> e + 4 * Z.of_nat (length l) <= q -> q + payload l <= 2 ^ 32 ->
  array_at s e q l -> Forall (fun x => 0 ∉ chars x /\ (length (chars x) < len)%nat) l -> (length l < fuel)%nat ->
  pointer s (e + 4 * Z.of_nat (length l)) = Some 0 -> string_array fuel len s e = Some l.
Proof.
  induction l as [|x l IH]; intros e q len fuel Hq He Hd Hb Ha Hl Hf Hp;
    (destruct fuel as [|fuel]; [simpl in Hf; lia|]); cbn [string_array].
  - rewrite Z.mul_0_r, Z.add_0_r in Hp. by rewrite Hp.
  - cbn [array_at payload foldr length] in *. fold (payload l) in *. destruct Ha as (A & B & C). pose proof (payload_nonneg l).
    rewrite (pointer_at s e q A) by lia. cbn [mbind option_bind]. rewrite (proj2 (Z.eqb_neq q 0)) by lia.
    apply Forall_cons_1 in Hl as [[Hx Hlen] Hl]. rewrite (cstring_at s (chars x) q len B Hx Hlen). cbn [mbind option_bind].
    rewrite (IH (e + 4) (q + Z.of_nat (length (chars x)) + 1) len fuel); try done; try lia.
    + cbn [mbind option_bind]. by rewrite string_of_chars.
    + rewrite <- Hp. f_equal. lia.
Qed.

Lemma writable_run_sub s s' a n b k : same_tables s s' -> writable_run s a n -> a <= b -> b + Z.of_nat k <= a + Z.of_nat n ->
  writable_run s' b k.
Proof.
  intros Ht (H0 & H1 & H) Hb Hk. split; [lia|]. split; [lia|]. intros w Hw. destruct (H w ltac:(lia)) as [Hr Hex].
  split; [by rewrite (same_writable s s')|by apply (same_exclusive s)].
Qed.

Section Copy.
Context (N : Z) (asFile : Z -> bool) (seek : Z -> Z -> bool) (read : Z -> Z -> list Z) (m : mm).

Lemma copy_strings_spec l : forall s e q, frames_ok s ->
  0 <= e -> e + 4 * Z.of_nat (length l) <= q -> q + payload l < 2 ^ 32 ->
  writable_run s e (4 * length l) -> writable_run s q (Z.to_nat (payload l)) ->
  exists s', copy_strings N asFile seek read m s e q l = Some s' /\ same_tables s s' /\ frames_ok s' /\ array_at s' e q l
    /\ forall w, is_u32 w -> ~ (e <= w < e + 4 * Z.of_nat (length l)) -> ~ (q <= w < q + payload l) -> mem s' w = mem s w.
Proof.
  induction l as [|x l IH]; intros s e q Hf He Hd Hb Hre Hrq; cbn [copy_strings].
  { exists s. by split_and!. }
  cbn [payload foldr length] in *. fold (payload l) in *. pose proof (payload_nonneg l).
  set (n := Z.of_nat (length (chars x))) in *.
  destruct (store_bytes_spec N asFile seek read m (bytes 4 q) s e Hf) as (s1 & -> & T1 & F1 & M1).
  { rewrite bytes_length. eapply writable_run_sub; [reflexivity|exact Hre|lia|lia]. }
  rewrite bytes_length in M1. cbn [mbind option_bind].
  destruct (store_bytes_spec N asFile seek read m (chars x ++ [0]) s1 q F1) as (s2 & -> & T2 & F2 & M2).
  { eapply writable_run_sub; [exact T1|exact Hrq|lia|]. rewrite length_app. simpl. lia. }
  rewrite length_app in M2. cbn [mbind option_bind length] in *.
  rewrite (u32_id (e + 4)) by (unfold is_u; lia). rewrite (u32_id (q + n + 1)) by (unfold is_u; lia).
  assert (T12 : same_tables s s2) by (by etrans).
  destruct (IH s2 (e + 4) (q + n + 1) F2) as (s3 & E3 & T3 & F3 & A3 & M3); [lia|lia|lia| | |].
  { eapply writable_run_sub; [exact T12|exact Hre|lia|lia]. }
  { eapply writable_run_sub; [exact T12|exact Hrq|lia|lia]. }
  exists s3. cbn [array_at]. split_and!; [done|by etrans|done| | |done|].
  - intros k b Hk. pose proof (lookup_lt_Some _ _ _ Hk) as Hlt. rewrite bytes_length in Hlt.
    assert (Hu : is_u32 (e + Z.of_nat k)) by (unfold is_u; lia).
    rewrite M3, M2, M1 by (done || lia). rewrite decide_False, decide_True by lia. by replace (Z.to_nat (e + Z.of_nat k - e)) with k by lia.
  - intros k b Hk. pose proof (lookup_lt_Some _ _ _ Hk) as Hlt. rewrite length_app in Hlt. simpl in Hlt.
    assert (Hu : is_u32 (q + Z.of_nat k)) by (unfold is_u; lia).
    rewrite M3, M2 by (done || lia). rewrite decide_True by lia. by replace (Z.to_nat (q + Z.of_nat k - q)) with k by lia.
  - intros w Hw H1 H2. rewrite M3, M2, M1 by (done || lia). rewrite !decide_False by lia. done.
Qed.

End Copy.
End ArraySpec.

Section ArrayTheorem.
Import Bytes Virt MemMgr Cpu Elf ArraySpec.

Lemma array_total_payload l : array_total l = 4 * (Z.of_nat (length l) + 1) + payload l.
Proof.
  unfold array_total. induction l as [|x l IH]; [done|]. cbn [payload foldr length] in *. fold (payload l) in *. lia.
Qed.

(** The whole pages of a region found for an array *)
Lemma region_pages m l r : ok m -> array_total l <= 2 ^ 30 -> findRegionImpl m (array_total l) = Some r ->
  exists a n : Z, Interval.from (range r) = 4096 * a /\ Interval.to (range r) = 4096 * (a + n) - 1
    /\ 0 < a /\ 0 < n /\ a + n <= 0xC0000 /\ array_total l <= 4096 * n /\ pages (4096 * a) (4096 * (a + n) - 1) = Z.to_nat n.
Proof.
  intros Hm Ht Hr. pose proof (payload_nonneg l). pose proof (array_total_payload l).
  destruct (findRegion_spec m (array_total l) r Hm ltac:(lia) Hr) as ((Hwf & Hsz & _) & [Hp1 Hp2] & [Hu1 Hu2]).
  destruct (toPage_spec (array_total l)) as [Htm Htb]; [lia|unfold gPageSize; lia|].
  unfold gPageSize, gKernelBase in *. pose proof (Z.div_mod (Interval.from (range r)) 4096 ltac:(lia)) as Hd1.
  pose proof (Z.div_mod (toPage (array_total l)) 4096 ltac:(lia)) as Hd2.
  exists (Interval.from (range r) / 4096), (toPage (array_total l) / 4096).
  split_and!; try lia. unfold pages, gPageSize.
  replace (4096 * (Interval.from (range r) / 4096 + toPage (array_total l) / 4096) - 1 - 4096 * (Interval.from (range r) / 4096))
    with (4095 + (toPage (array_total l) / 4096 - 1) * 4096) by lia.
  rewrite Z.div_add by lia. f_equal. change (4095 / 4096) with 0. lia.
Qed.

(** C31: the arguments and the environment reach the new program unchanged.  An array
    of strings copied to user space into a fresh region reads back there, by
    following its pointers up to the null pointer and each string up to its
    terminator, as the same array; the copy returns the start of the region, adds
    the region to the process and changes no byte outside of it. *)
Theorem string_array_roundtrip N asFile seek read m s l r :
  sane N s -> ok m -> array_total l <= 2 ^ 30 -> Forall (fun x => 0 ∉ chars x) l ->
  findRegionImpl m (array_total l) = Some r ->
  (forall w, Interval.from (range r) <= w <= Interval.to (range r) -> readable s w = false) ->
  Interval.size (range r) / 4096 <= Phys.mFreePages (phys s) ->
  exists m' s', copyStringArrayToUserland N asFile seek read m s l = Some (Interval.from (range r), m', s')
    /\ string_array (S (length l)) (Z.to_nat (array_total l)) s' (Interval.from (range r)) = Some l
    /\ range <$> mRegions m' = IntervalList.add (range <$> mRegions m) (range r)
    /\ (forall w, is_u32 w -> ~ (Interval.from (range r) <= w <= Interval.to (range r)) -> mem s' w = mem s w).
Proof.
  intros Hs Hm Ht Hnul Hr Hun Hfree. pose proof (payload_nonneg l). pose proof (array_total_payload l) as Htp.
  destruct (region_pages m l r Hm Ht Hr) as (a & n & Hfrom & Hto & Ha & Hn & Hus & Hfit & Hpg).
  rewrite Hfrom, Hto in *. unfold Interval.size in Hfree. rewrite Hfrom, Hto in Hfree.
  replace (4096 * (a + n) - 1 - 4096 * a + 1) with (n * 4096) in Hfree by lia.
  rewrite u32_id, Z.div_mul in Hfree by (try (unfold is_u); lia).
  set (o := mkOpts true true true false false true false).
  destruct (map_loop_spec N (Z.to_nat n) s a o Hs) as (s1 & Eml & [R1 R2 R3 R4 R5 R6]); [lia|lia| |lia|done|done|].
  { intros w Hw Hin. apply Hun. pose proof (Z.div_mod w 4096 ltac:(lia)). pose proof (Z.mod_pos_bound w 4096 ltac:(lia)). lia. }
  rewrite !Z2Nat.id in * by lia.
  assert (Hin : forall w, 4096 * a <= w <= 4096 * (a + n) - 1 -> is_u32 w /\ a <= w / 4096 < a + n).
  { intros w Hw. split; [unfold is_u; lia|]. split; [apply Z.div_le_lower_bound; lia|apply Z.div_lt_upper_bound; lia]. }
  assert (Hrun : writable_run s1 (4096 * a) (Z.to_nat (4096 * n))).
  { split; [lia|]. split; [lia|]. intros w Hw. destruct (Hin w ltac:(lia)). by apply R3. }
  set (m' := (addRegion m (with_permission r o)).2).
  destruct (copy_strings_spec N asFile seek read m' l s1 (4096 * a) (4096 * a + 4 * (Z.of_nat (length l) + 1)))
    as (s2 & Ecp & T2 & F2 & A2 & M2); [apply R1|lia|lia|lia| | |].
  { eapply (writable_run_sub s1 s1); [by split|exact Hrun|lia|lia]. }
  { eapply (writable_run_sub s1 s1); [by split|exact Hrun|lia|lia]. }
  exists m', s2. split_and!.
  - unfold copyStringArrayToUserland, findAndMapRegion. rewrite (u32_id (array_total l)) by (unfold is_u; lia).
    rewrite Hr. cbn [with_permission range]. rewrite Hfrom, Hto, Hpg. fold o. rewrite Eml. cbn [mbind option_bind].
    change (addRegion m (with_permission r o)) with (with_permission r o, m'). cbn [with_permission range]. rewrite Hfrom.
    rewrite (u32_id (4096 * a + 4 * (Z.of_nat (length l) + 1))) by (unfold is_u; lia). by rewrite Ecp.
  - apply (string_array_at s2 l _ (4096 * a + 4 * (Z.of_nat (length l) + 1))); try done; try lia.
    + apply list.Forall_forall. intros x Hx. split; [by eapply list.Forall_forall in Hnul; [|exact Hx]|].
      pose proof (payload_elem x l Hx). lia.
    + assert (Hz : forall k, 0 <= k < 4 -> mem s2 (4096 * a + 4 * Z.of_nat (length l) + k) = Some 0).
      { intros k Hk. destruct (Hin (4096 * a + 4 * Z.of_nat (length l) + k) ltac:(lia)) as [Hu Hi].
        rewrite M2, R2, decide_True by (done || lia). done. }
      unfold pointer. pose proof (Hz 0 ltac:(lia)) as H0. rewrite Z.add_0_r in H0.
      rewrite H0, (Hz 1), (Hz 2), (Hz 3) by lia. done.
  - unfold m', addRegion. cbn [mRegions snd]. exact (IntervalList.add_ival (mRegions m) (with_permission r o)).
  - intros w Hw Hout. rewrite M2, R2, decide_False; try done; lia.
Qed.

End ArrayTheorem.

Module SampleArgs.
Import Virt MemMgr Cpu.

(** An address space without pages *)
Definition bare : vm := mkVm ∅ (phys SampleElf.start) ∅ true 0 0xD0000000 0xD0001000 [].

Lemma bare_sane : sane 16 bare.
Proof.
  split; [done|apply SampleElf.start_sane| |].
  - intros b. unfold frame, bare. cbn [frames]. rewrite lookup_empty. apply length_replicate.
  - done.
Qed.

End SampleArgs.

Lemma string_array_roundtrip_witness :
  exists m' s', Elf.copyStringArrayToUserland 16 (fun _ => false) (fun _ _ => false) (fun _ _ => []) MemMgr.new SampleArgs.bare
      ["ls"; "-l"]%string = Some (0x1000, m', s')
    /\ ArraySpec.string_array 3 18 s' 0x1000 = Some ["ls"; "-l"]%string.
Proof.
  destruct (string_array_roundtrip 16 (fun _ => false) (fun _ _ => false) (fun _ _ => []) MemMgr.new SampleArgs.bare
    ["ls"; "-l"]%string (MemMgr.region 0x1000 0x1FFF Virt.kernel_options)) as (m' & s' & E & Hr & _);
    [apply SampleArgs.bare_sane|apply MemMgr.new_ok|vm_compute; done|
     repeat constructor; apply (bool_decide_eq_true_1 _); reflexivity|reflexivity|done|vm_compute; done|].
  exists m', s'. split; [exact E|exact Hr].
Defined.

(** ** Scripts *)

Module ShebangSpec.
Import Bytes Virt MemMgr Cpu Elf Shebang ArraySpec.

(** The interpreter line of a script, and its two halves *)
Definition first (c : Z) (l : list Z) : option nat := fst <$> list_find (fun b => b = c) l.
Definition first_line (l : list Z) : option (list Z) := (fun k => take k l) <$> first newline l.
Definition halves (line : list Z) : list Z * list Z :=
  match first space_char line with
  | Some k => (take k line, drop (S k) line)
  | None => (line, [])
  end.

Lemma first_cons c b l : first c (b :: l) = if decide (b = c) then Some 0%nat else S <$> first c l.
Proof.
  unfold first. cbn [list_find]. case_decide; [done|]. destruct (list_find (fun b => b = c) l) as [[k x]|]; done.
Qed.

Lemma first_bound c l k : first c l = Some k -> (k < length l)%nat.
Proof.
  revert k. induction l as [|b l IH]; intros k; [done|]. rewrite first_cons. case_decide; [intros [= <-]; simpl; lia|].
  destruct (first c l) as [j|]; [|done]. intros [= <-]. specialize (IH j eq_refl). simpl. lia.
Qed.

Lemma first_take c l n k : first c l = Some k -> (k < n)%nat -> first c (take n l) = Some k.
Proof.
  revert n k. induction l as [|b l IH]; intros n k Hk Hn; [done|]. destruct n as [|n]; [lia|]. cbn [take].
  rewrite first_cons in *. case_decide; [done|]. destruct (first c l) as [j|] eqn:E; [|done]. injection Hk as <-.
  by rewrite (IH n j eq_refl) by lia.
Qed.

Lemma first_take_none c l n : (forall k, first c l = Some k -> (n <= k)%nat) -> first c (take n l) = None.
Proof.
  revert n. induction l as [|b l IH]; intros n Hk; [by destruct n|]. destruct n as [|n]; [done|]. cbn [take].
  rewrite first_cons in *. case_decide as Hd; [specialize (Hk 0%nat eq_refl); lia|].
  rewrite IH; [done|]. intros k E. specialize (Hk (S k)). rewrite E in Hk. specialize (Hk eq_refl). lia.
Qed.

Section Spec.
Context (N : Z) (asFile : Z -> bool) (seek : Z -> Z -> bool) (read : Z -> Z -> list Z) (m : mm) (s : vm).

Lemma bytes_at_app a l1 l2 : bytes_at s a (l1 ++ l2) -> bytes_at s a l1 /\ bytes_at s (a + Z.of_nat (length l1)) l2.
Proof.
  intros H. split.
  - intros k b Hk. apply H. by apply lookup_app_l_Some.
  - intros k b Hk. rewrite <- (H (length l1 + k)%nat b); [f_equal; lia|]. rewrite lookup_app_r by lia.
    by replace (length l1 + k - length l1)%nat with k by lia.
Qed.

Lemma bytes_at_slice a l i n : bytes_at s a l -> bytes_at s (a + Z.of_nat i) (take n (drop i l)).
Proof.
  intros H k b Hk. apply lookup_take_Some in Hk as [Hk _]. rewrite lookup_drop in Hk. rewrite <- (H _ _ Hk). f_equal. lia.
Qed.

Lemma strchr_spec c l : forall fuel a, c <> 0 -> bytes_at s a (l ++ [0]) -> 0 ∉ l -> (length l < fuel)%nat ->
  0 <= a -> a + Z.of_nat (length l) < 2 ^ 32 ->
  strchr N asFile seek read fuel m s a c = Some ((fun k => a + Z.of_nat k) <$> first c l, s).
Proof.
  induction l as [|b l IH]; intros fuel a Hc Hb H0 Hf Ha Hw; (destruct fuel as [|fuel]; [simpl in Hf; lia|]); cbn [strchr].
  - pose proof (Hb 0%nat 0 eq_refl) as Hm. rewrite Z.add_0_r in Hm. rewrite (load_mem _ _ _ _ _ _ _ _ Hm). cbn [mbind option_bind].
    rewrite (proj2 (Z.eqb_neq 0 c)) by done. done.
  - pose proof (Hb 0%nat b eq_refl) as Hm. rewrite Z.add_0_r in Hm. rewrite (load_mem _ _ _ _ _ _ _ _ Hm). cbn [mbind option_bind].
    rewrite first_cons. rewrite not_elem_of_cons in H0. destruct H0 as [Hne H0]. cbn [length] in *.
    destruct (Z.eqb_spec b c) as [->|Hbc]; [rewrite decide_True by done; simpl; do 3 f_equal; lia|].
    rewrite decide_False by done. rewrite (proj2 (Z.eqb_neq b 0)) by done.
    rewrite (u32_id (a + 1)) by (unfold is_u; lia). rewrite IH; [|done| |done|lia|lia|lia].
    + destruct (first c l) as [k|]; [|done]. simpl. do 3 f_equal. lia.
    + intros k x Hk. rewrite <- (Hb (S k) x Hk). f_equal. lia.
Qed.

Lemma copy_name_spec a l n : bytes_at s a l -> 0 <= a -> a + Z.of_nat (length l) <= 2 ^ 32 -> n = Z.of_nat (length l) -> n < path_size ->
  copy_name N asFile seek read m s a n = Some (string_of l, s).
Proof.
  intros Hb Ha Hw -> Hn. unfold copy_name. rewrite (proj2 (Z.leb_gt _ _)) by lia. rewrite Nat2Z.id.
  by rewrite load_bytes_spec.
Qed.

(** The scan of the loader finds what the interpreter line says. *)
Lemma shebang_prepare_spec cur load0 size l : bytes_at s (load0 + 2) (l ++ [0]) -> 0 ∉ l ->
  Z.of_nat (length l) + 2 < size -> 0 <= load0 -> load0 + size < 2 ^ 32 ->
  (forall line, first_line l = Some line -> Z.of_nat (length line) < path_size) ->
  shebang_prepare N asFile seek read m s cur size load0
  = match first_line l with
    | None => Some (None, cur, s)
    | Some line =>
        newArgs ← expand (string_of (halves line).1) (string_of (halves line).2) (Proc.path cur) (Proc.args cur);
        Some (Some (string_of (halves line).1), Proc.set_args (Some newArgs) cur, s)
    end.
Proof.
  intros Hb H0 Hsz Hl0 Hl1 Hline. unfold shebang_prepare. rewrite (u32_id (load0 + 2)) by (unfold is_u; lia).
  rewrite (strchr_spec space_char l) by (done || lia). cbn [mbind option_bind].
  rewrite (strchr_spec newline l) by (done || lia). cbn [mbind option_bind]. unfold first_line in *.
  destruct (first newline l) as [k|] eqn:Hk; [|done]. pose proof (first_bound _ _ _ Hk) as Hkl.
  specialize (Hline (take k l) eq_refl). rewrite length_take_le in Hline by lia. cbn [fmap option_fmap option_map] in *.
  destruct (bytes_at_app (load0 + 2) l [0] Hb) as [Hbl _]. unfold halves.
  pose proof (bytes_at_slice (load0 + 2) l 0 k Hbl) as Hwhole. rewrite drop_0, Z.add_0_r in Hwhole.
  assert (Hnone : first space_char (take k l) = None ->
    copy_name N asFile seek read m s (load0 + 2) (load0 + 2 + Z.of_nat k - (load0 + 2)) = Some (string_of (take k l), s)).
  { intros _. apply copy_name_spec; [done|lia|rewrite length_take_le by lia; lia|rewrite length_take_le by lia; lia|lia]. }
  destruct (first space_char l) as [j|] eqn:Hj; cbn [fmap option_fmap option_map].
  - destruct (Z.ltb_spec (load0 + 2 + Z.of_nat j) (load0 + 2 + Z.of_nat k)) as [Hjk|Hjk].
    + rewrite (first_take _ _ k j Hj) by lia. rewrite take_take, Nat.min_l by lia.
      pose proof (bytes_at_slice (load0 + 2) l 0 j Hbl) as Hi. rewrite drop_0, Z.add_0_r in Hi.
      rewrite (copy_name_spec (load0 + 2) (take j l)); [|done|lia|rewrite length_take_le by lia; lia|rewrite length_take_le by lia; lia|lia].
      cbn [mbind option_bind]. rewrite (u32_id (load0 + 2 + Z.of_nat j + 1)) by (unfold is_u; lia).
      assert (Harg : bytes_at s (load0 + 2 + Z.of_nat j + 1) (drop (S j) (take k l))).
      { intros i x Hx. rewrite lookup_drop in Hx. rewrite <- (Hwhole _ _ Hx). f_equal. lia. }
      rewrite (copy_name_spec _ (drop (S j) (take k l))); try done; rewrite ?length_drop, ?length_take_le by lia; try lia.
    + rewrite (first_take_none _ l k) in * by (intros i Hi; rewrite Hj in Hi; injection Hi as <-; lia).
      rewrite Hnone by done. cbn [mbind option_bind]. done.
  - rewrite (first_take_none _ l k) in * by (intros i Hi; congruence). rewrite Hnone by done. done.
Qed.

End Spec.
End ShebangSpec.

Section ScriptTheorem.
Import Bytes Virt MemMgr Cpu Elf Shebang ArraySpec ShebangSpec.

(** the first line of a script is taken apart as a reference parser does it.  For
    a text that ends with a null byte inside its buffer and whose first line is
    shorter than a path, the pointer search of the loader finds no interpreter
    exactly when there is no newline; otherwise the interpreter is the line up to
    its first space, its argument the rest of the line, spaces included, and the new
    arguments of the process are the interpreter, the argument unless it is empty,
    the path of the script and the old arguments without the first. *)
Theorem script_line_is_parsed N asFile seek read m s cur load0 size l path a0 args :
  bytes_at s (load0 + 2) (l ++ [0]) -> 0 ∉ l ->
  Z.of_nat (length l) + 2 < size -> 0 <= load0 -> load0 + size < 2 ^ 32 ->
  (forall line, first_line l = Some line -> Z.of_nat (length line) < path_size) ->
  Proc.path cur = Some path -> Proc.args cur = Some (a0 :: args) ->
  shebang_prepare N asFile seek read m s cur size load0
  = Some (match first_line l with
          | None => (None, cur, s)
          | Some line =>
              let '(interp, arg) := halves line in
              (Some (string_of interp),
               Proc.set_args (Some (string_of interp :: (if String.eqb (string_of arg) "" then [] else [string_of arg])
                                    ++ path :: args)) cur, s)
          end).
Proof.
  intros Hb H0 Hsz Hl0 Hl1 Hline Hp Ha.
  rewrite (shebang_prepare_spec N asFile seek read m s cur load0 size l Hb H0 Hsz Hl0 Hl1 Hline), Hp, Ha.
  destruct (first_line l) as [line|]; [|done]. destruct (halves line) as [interp arg]. unfold expand. cbn [default fst snd].
  change (drop 1 (id (a0 :: args))) with args. change (id (a0 :: args)) with (a0 :: args).
  destruct (String.eqb (string_of arg) ""); rewrite (proj2 (Nat.leb_gt _ _)) by (rewrite length_app; simpl; lia); done.
Qed.

End ScriptTheorem.

(** A process that runs [/bin/run fast] *)
Definition script_process : Proc.process_t :=
  let p := Proc.new in
  Proc.mkProcess 7 1 3 (Some "/bin/run"%string) (Some ["run"; "fast"]%string) "/" None Proc.NEW (Proc.tss p) 0 0 0 (Proc.fds p)
    (Proc.priority p) 0 (Proc.flags p) (Proc.runtimestats p) (Proc.exitstatus p) [] 0 0 (Proc.wakeReason p).

Lemma script_line_is_parsed_witness :
  Shebang.shebang_prepare 16 (fun _ => false) (fun _ _ => false) (fun _ _ => []) MemMgr.new
    (SampleElf.holding (Bytes.chars "#!/bin/sh -x" ++ [10; 108; 115; 0])) script_process 4096 0x1000
  = Some (Some "/bin/sh"%string, Proc.set_args (Some ["/bin/sh"; "-x"; "/bin/run"; "fast"]%string) script_process,
      SampleElf.holding (Bytes.chars "#!/bin/sh -x" ++ [10; 108; 115; 0])).
Proof.
  refine (script_line_is_parsed 16 (fun _ => false) (fun _ _ => false) (fun _ _ => []) MemMgr.new
    (SampleElf.holding (Bytes.chars "#!/bin/sh -x" ++ [10; 108; 115; 0])) script_process 0x1000 4096
    (Bytes.chars "/bin/sh -x" ++ [10; 108; 115]) "/bin/run" "run" ["fast"%string] _ _ _ _ _ _ eq_refl eq_refl).
  - intros k b Hk. replace (0x1000 + 2 + Z.of_nat k) with (0x1000 + Z.of_nat (2 + k)) by lia.
    apply SampleElf.holding_mem; [vm_compute; lia|exact Hk].
  - apply (bool_decide_eq_true_1 _). reflexivity.
  - vm_compute. reflexivity.
  - lia.
  - lia.
  - intros line E. injection E as <-. vm_compute. reflexivity.
Defined.
