(* ===== verification/SpaceThms.v ===== *)
(** * Theorems on address spaces

    A cloned address space shares every user page with its parent, read-only and
    marked copy-on-write on both sides, and gives back exactly the frames it took
    when it goes. *)

From stdpp Require Import base numbers list gmap option.
From Stdlib Require Import ZArith Lia Bool.
From S2P Require Import Prelude Interval Phys Virt Space.

Local Open Scope Z_scope.

Module CloneSpec.
Import Entry Indices Virt Space.

(** The frames that the first [n] slots own *)
Definition slot_frames (n : nat) (s : vm) : list Z := owned (entry s) n first_slot.

(** A process that can be cloned: frames for the tables, and room in the counts
    of the frames to be shared *)
Record can_clone_slots (n : nat) (N : Z) (s : vm) : Prop := {
  cc_entries : entries_ok s;
  cc_phys : Phys.ok N (phys s);
  cc_free : Z.of_nat (S new_tables) <= Phys.mFreePages (phys s);
  cc_frames a : a ∈ slot_frames n s ->
    Phys.usable (Phys.page (phys s) (Phys.index a)) = true /\ 0 < Phys.refcnt (Phys.page (phys s) (Phys.index a))
    /\ Phys.refcnt (Phys.page (phys s) (Phys.index a)) + uses (slot_frames n s) (Phys.index a) < 256 }.

Definition can_clone : Z -> vm -> Prop := can_clone_slots user_slots.

Record clone_result (n : nat) (s s' : vm) (sp : space) : Prop := {
  cr_child j : wf j -> dir j < user_dirs ->
    space_entry sp j = if get (entry s j) bPresent then cow_entry (entry s j) else 0;
  cr_parent j : wf j -> entry s' j = if decide (dir j < user_dirs) then cow_entry (entry s j) else entry s j;
  cr_frames : frames s' = frames s;
  cr_more : more (phys s') (phys s) (uses (slot_frames n s ++ tables sp ++ [cr3 sp]));
  cr_usable a : a ∈ slot_frames n s ++ tables sp ++ [cr3 sp] -> Phys.usable (Phys.page (phys s) (Phys.index a)) = true }.

Lemma available_usable g : Phys.available g = true -> Phys.usable g = true /\ Phys.refcnt g = 0.
Proof. unfold Phys.available, Phys.free. intros [? ?%Z.eqb_eq]%andb_true_iff. done. Qed.

Lemma uses_zero l j : (forall a, a ∈ l -> Phys.index a <> j) -> uses l j = 0.
Proof.
  induction l as [|a l IH]; intros H; [done|]. rewrite uses_cons, decide_False by (apply H; left).
  rewrite IH; [lia|]. intros b Hb. apply H. by right.
Qed.

Section Slots.
Context (n : nat) (Hn : Z.of_nat n = 768 * 1024).

Lemma user_slot i : wf i -> in_slots first_slot n i <-> dir i < user_dirs.
Proof.
  intros [Hd Ht]. unfold in_slots, number, first_slot, user_dirs. rewrite Hn. cbn [dir tbl]. lia.
Qed.

Lemma slots_fit : number first_slot + Z.of_nat n <= 2 ^ 20.
Proof. rewrite Hn. done. Qed.

Lemma clone_spec N s : can_clone_slots n N s ->
  exists sp s', clone_space N n s = Some (sp, s') /\ clone_result n s s' sp /\ Phys.ok N (phys s').
Proof.
  intros [He Hp Hf Hfr]. unfold clone_space.
  destruct (create_spec N s Hp Hf) as (sp & s1 & -> & [T1 T2 T3 T4 T5] & Hue). cbn [mbind option_bind].
  assert (Hent : forall i, entry s1 i = entry s i) by (intros i; by rewrite T5).
  assert (He1 : entries_ok s1) by (rewrite T5; exact He).
  assert (HL : owned (entry s1) n first_slot = slot_frames n s).
  { apply owned_ext; [done|exact slots_fit|]. intros j _ _. by rewrite Hent. }
  destruct (alloc_all_spec N (slot_frames n s) (phys s1) T1) as (p & Ea & Hok & Hmore).
  { intros a Ha. destruct (Hfr a Ha) as (Hu & Hpos & Hlt). rewrite T2. simpl.
    rewrite (uses_zero (cr3 sp :: tables sp)); [split; [done|lia]|].
    intros b Hb E. apply T3, available_usable in Hb as [_ Hb]. rewrite E in Hb. lia. }
  destruct (clone_slots_spec n first_slot s1 (user_entries sp) p He1) as (child & s2 & -> & Hph & [A1 A2 A3 A4]);
    [done|exact slots_fit|by rewrite HL|].
  cbn [mbind option_bind]. eexists _, s2. split; [done|]. split; [|by rewrite Hph]. split.
  - intros j Hj Hd. unfold space_entry. cbn [user_entries]. rewrite A3, Hent, Hue by done. rewrite lookup_empty.
    apply user_slot in Hd; [|done]. destruct (get (entry s j) bPresent).
    + by rewrite decide_True.
    + rewrite decide_False; [done|]. by intros [_ ?].
  - intros j Hj. rewrite A2, Hent by done. pose proof (user_slot j Hj) as Hiff.
    destruct (decide (in_slots first_slot n j)), (decide (dir j < user_dirs)); tauto.
  - rewrite A4, T5. done.
  - rewrite Hph. eapply more_ext; [|by eapply more_trans]. intros j. cbn [tables cr3].
    rewrite !uses_app, !uses_cons. change (uses [] j) with 0. lia.
  - cbn [tables cr3]. intros a Ha. rewrite elem_of_app in Ha. destruct Ha as [Ha|Ha]; [by apply Hfr|].
    apply available_usable, T3. rewrite elem_of_app, list_elem_of_singleton in Ha. rewrite elem_of_cons. tauto.
Qed.

Lemma clean_spec N s s' sp : Phys.ok N (phys s) -> Phys.ok N (phys s') -> entries_ok s -> clone_result n s s' sp ->
  exists p, clean_space n sp (phys s') ≫= (fun p => Phys.dealloc p (cr3 sp)) = Some p
    /\ (forall j, Phys.page p j = Phys.page (phys s) j) /\ Phys.mFreePages p = Phys.mFreePages (phys s).
Proof.
  intros Hp Hp' He [C1 C2 C3 C4 C5].
  destruct (dealloc_restores N _ _ _ Hp Hp' C4 C5) as (p & E & _ & Hpg & Hfree). exists p. split; [|done].
  unfold clean_space. rewrite clean_slots_owned.
  assert (HL : owned (space_entry sp) n first_slot = slot_frames n s).
  { apply owned_ext; [done|exact slots_fit|]. intros j Hj Hin. apply user_slot in Hin; [|done].
    rewrite C1 by done. destruct (cow_entry_spec (entry s j) (entry_u32 s j He)) as (_ & Hpage & Hpres & Hpmm & _).
    destruct (get (entry s j) bPresent) eqn:Hpr; [|done]. by rewrite Hpres, Hpmm, Hpage. }
  rewrite HL. rewrite !dealloc_all_app in E. destruct (dealloc_all (slot_frames n s) (phys s')) as [p1|]; [|done].
  cbn [mbind option_bind] in *. rewrite dealloc_all_app in E. destruct (dealloc_all (tables sp) p1) as [p2|]; [|done].
  cbn [mbind option_bind dealloc_all] in *. by destruct (Phys.dealloc p2 (cr3 sp)).
Qed.

End Slots.
End CloneSpec.

Section CloneTheorems.
Import Entry Indices Virt Space CloneSpec.



End CloneTheorems.

(** ** A process to clone *)

Module SampleSpace.
Import Entry Indices Virt Space CloneSpec.

(** A writable page at 0x5000 in frame 900, and 900 free frames *)
Definition many : Phys.pmm :=
  Phys.mkPmm (list_to_map ((fun i => (Z.of_nat i, Phys.mkPage true (if (i =? 900)%nat then 1 else 0))) <$> seq 0 901)) 0 901 0 900 900.

Definition parent : vm := mkVm {[(0, 5) := 0x384207]} many {[0x384000 := [1; 2; 3]]} true 4096 0xD0000000 0xD0010000 [].

Lemma many_ok : Phys.ok 901 many.
Proof.
  assert (H : map_Forall (fun i g => 0 <= i < 901 /\ 0 <= Phys.refcnt g < 256) (Phys.mPages many))
    by (apply (bool_decide_eq_true_1 _); vm_compute; reflexivity).
  split; [lia|intros i g Hg; apply (H i g Hg)|intros i g Hg; apply (H i g Hg)|simpl; lia|vm_compute; reflexivity].
Qed.

Lemma parent_entry j : entry parent j = if decide (j = mkIndices 0 5) then 0x384207 else 0.
Proof.
  unfold entry, parent. cbn [entries]. rewrite lookup_singleton. destruct j as [d t]. cbn [dir tbl].
  repeat case_decide; try done; congruence.
Qed.

Lemma owned_after ent i0 n : (forall j, get (ent j) bPresent = true -> j = i0) ->
  forall i, wf i -> number i + Z.of_nat n <= 2 ^ 20 -> number i0 < number i -> owned ent n i = [].
Proof.
  intros Honly. induction n as [|n IH]; intros i Hi Hn Hlt; [done|]. cbn [owned].
  destruct (get (ent i) bPresent) eqn:Hp; [apply Honly in Hp as ->; lia|]. cbn [andb app].
  destruct n as [|n]; [done|]. destruct (next_number i Hi) as [Hw Hnum].
  rewrite Z.mod_small in Hnum by (destruct Hi; unfold number in *; lia). apply IH; [done|lia|lia].
Qed.

Lemma owned_single ent i0 n : (forall j, get (ent j) bPresent = true -> j = i0) ->
  forall i, wf i -> number i + Z.of_nat n <= 2 ^ 20 -> owned ent n i = [] \/ owned ent n i = [page (ent i0)].
Proof.
  intros Honly. induction n as [|n IH]; intros i Hi Hn; [by left|]. cbn [owned].
  destruct (next_number i Hi) as [Hw Hnum].
  assert (Hrest : n = 0%nat \/ number (next i) = number i + 1).
  { destruct n; [by left|]. right. rewrite Hnum, Z.mod_small; [done|destruct Hi; unfold number in *; lia]. }
  destruct (get (ent i) bPresent) eqn:Hp; cbn [andb app].
  - pose proof (Honly _ Hp) as ->. assert (E : owned ent n (next i0) = []).
    { destruct Hrest as [->|Hr]; [done|]. apply (owned_after ent i0); [done|done|lia|lia]. }
    rewrite E. destruct (get (ent i0) bFrompmm); [by right|by left].
  - destruct Hrest as [->|Hr]; [by left|]. apply IH; [done|lia].
Qed.

Lemma parent_clonable : can_clone 901 parent.
Proof.
  assert (Hf : slot_frames user_slots parent = [] \/ slot_frames user_slots parent = [0x384000]).
  { apply (owned_single (entry parent) (mkIndices 0 5)); [|done|rewrite user_slots_bound; done].
    intros j. rewrite parent_entry. by case_decide. }
  split.
  - intros k v Hk. cbn [entries parent] in Hk. apply lookup_singleton_Some in Hk as [_ <-]. unfold is_u. lia.
  - exact many_ok.
  - vm_compute. done.
  - intros a Ha. destruct Hf as [Hf|Hf]; rewrite Hf in *; [by apply not_elem_of_nil in Ha|].
    apply list_elem_of_singleton in Ha as ->. split_and!; vm_compute; done.
Qed.

End SampleSpace.


