(* ===== verification/RamFsThms.v ===== *)
(** * Theorems on the filesystems in memory

    An image that gen.py writes is read back by the kernel file by file; an entity
    added to a directory is found under its path; the second request for the
    directory of a driver hides the first one. *)

From stdpp Require Import base numbers list gmap option strings.
From Stdlib Require Import ZArith Lia Ascii.
From S2P Require Import Prelude Hash KeyedStore Lru Interval Phys Virt Files MemMgr Volume Cpu RamFs.

Local Open Scope Z_scope.

(** ** Reading in pieces *)

Fixpoint pieces {A} (ns : list Z) (l : list A) : list (list A) :=
  match ns with
  | [] => []
  | n :: ns => take (Z.to_nat n) l :: pieces ns (drop (Z.to_nat n) l)
  end.

(** ** The initial image *)

Module InitRdSpec.
Import MemFS InitRd.

Fixpoint read_all (ird : initrd) (h : InitrdFile) (ns : list Z) : option (list (list Z)) :=
  match ns with
  | [] => Some []
  | n :: ns => '(h, d) ← read ird h n; ds ← read_all ird h ns; Some (d :: ds)
  end.

Definition cstring (s : string) : Prop := 0 ∉ Bytes.chars s.
Definition named (f : InputFile) : Prop := cstring (in_name f) /\ (String.length (in_name f) < 64)%nat.

Definition data_size (files : list InputFile) : nat := length (writeFiles files).
Definition first_named (s : string) (files : list InputFile) : option InputFile :=
  snd <$> list_find (fun f => in_name f = s) files.

Lemma chars_length s : length (Bytes.chars s) = String.length s.
Proof. unfold Bytes.chars. rewrite length_fmap. induction s as [|c s IH]; simpl; [done|]. by rewrite IH. Qed.

Lemma cstring_skip s : cstring s -> cstring (VFS.skip_slash s).
Proof.
  destruct s as [|c s]; [done|]. unfold cstring, VFS.skip_slash. destruct (Ascii.eqb c _); [|done].
  intros [_ Hs]%not_elem_of_cons. exact Hs.
Qed.

Lemma chars_inj a b : Bytes.chars a = Bytes.chars b -> a = b.
Proof. intros E. by rewrite <- (Bytes.string_of_chars a), E, Bytes.string_of_chars. Qed.

Lemma length_strncpy n l : length (strncpy n l) = n.
Proof. unfold strncpy. rewrite length_app, length_take, length_replicate. lia. Qed.

Lemma strncpy_short n l : (length l < n)%nat ->
  strncpy n l = l ++ 0 :: replicate (n - S (length l)) 0.
Proof.
  intros Hl. unfold strncpy. rewrite take_ge by lia. f_equal.
  by replace (n - length l)%nat with (S (n - S (length l))) by lia.
Qed.

Lemma strcmp_eq_spec a b r : 0 ∉ a -> 0 ∉ b -> strcmp_eq (a ++ 0 :: r) b = Some (bool_decide (a = b)).
Proof.
  revert b. induction a as [|x a IH]; intros b Ha Hb; cbn [strcmp_eq app].
  - destruct b as [|y b]; [done|]. apply not_elem_of_cons in Hb as [Hy _].
    destruct (Z.eqb_spec 0 y); [by subst|]. by rewrite bool_decide_eq_false_2.
  - apply not_elem_of_cons in Ha as [Hx Ha]. destruct b as [|y b].
    + destruct (Z.eqb_spec x 0); [by subst|]. by rewrite bool_decide_eq_false_2.
    + apply not_elem_of_cons in Hb as [Hy Hb]. destruct (Z.eqb_spec x y) as [->|Hne].
      * rewrite IH by done. f_equal. apply bool_decide_ext. naive_solver.
      * rewrite bool_decide_eq_false_2; naive_solver.
Qed.

Lemma read_at_bytes pre n v post : 0 <= v < 256 ^ Z.of_nat n ->
  read_at (pre ++ Bytes.bytes n v ++ post) (length pre) n = Some v.
Proof.
  intros Hv. unfold read_at. rewrite decide_True by (rewrite !length_app, Bytes.bytes_length; lia).
  unfold Bytes.field. rewrite drop_app_length, take_app_length' by (by rewrite Bytes.bytes_length).
  by rewrite Bytes.word_bytes.
Qed.

Lemma length_writeFile now f o : length (writeFile now f o) = sizeof_file.
Proof. unfold writeFile. by rewrite !length_app, length_strncpy, !Bytes.bytes_length. Qed.

Lemma length_writeEntries now files o : length (writeEntries now files o) = (sizeof_file * length files)%nat.
Proof.
  revert o. induction files as [|f files IH]; intros o; cbn [writeEntries]; [simpl; lia|].
  rewrite length_app, length_writeFile, IH. cbn [length]. lia.
Qed.

Lemma data_size_app fs1 fs2 : data_size (fs1 ++ fs2) = (data_size fs1 + data_size fs2)%nat.
Proof. unfold data_size, writeFiles. by rewrite fmap_app, concat_app, length_app. Qed.

Lemma data_size_cons f files : data_size (f :: files) = (length (in_data f) + data_size files)%nat.
Proof. unfold data_size, writeFiles. cbn [fmap list_fmap concat]. by rewrite length_app. Qed.

Lemma writeEntries_app now fs1 fs2 o :
  writeEntries now (fs1 ++ fs2) o = writeEntries now fs1 o ++ writeEntries now fs2 (o + Z.of_nat (data_size fs1)).
Proof.
  revert o. induction fs1 as [|f fs1 IH]; intros o; cbn [writeEntries app].
  - f_equal. unfold data_size. simpl. lia.
  - rewrite IH, <- app_assoc, data_size_cons. do 3 f_equal. lia.
Qed.

Lemma length_writeTable now files : (length files <= 64)%nat -> length (writeTable now files) = (4 + sizeof_file * 64)%nat.
Proof.
  intros. unfold writeTable. rewrite !length_app, Bytes.bytes_length, length_writeEntries, length_replicate.
  unfold sizeof_file. lia.
Qed.

(** Reads of a file that is whole in the image *)
Lemma read_all_spec img t ns : Forall (fun n => 0 <= n) ns -> forall p left_ size time,
  0 <= p -> 0 <= left_ -> p + left_ <= Z.of_nat (length img) ->
  read_all (mkInitrd img t) (mkInitrdFile p left_ size time) ns
  = Some (pieces ns (take (Z.to_nat left_) (drop (Z.to_nat p) img))).
Proof.
  induction 1 as [|n ns Hn _ IH]; intros p left_ size time Hp Hl Hb; [done|].
  cbn [read_all]. unfold read. cbn [mSizeLeft mPointer image mFileSize mTimestamp].
  assert (Hmin : (if n >? left_ then left_ else n) = Z.min n left_)
    by (rewrite Z.gtb_ltb; destruct (Z.ltb_spec left_ n); lia).
  rewrite Hmin, decide_True by lia. cbn [mbind option_bind]. rewrite IH by lia. cbn [mbind option_bind pieces].
  rewrite take_take, skipn_firstn_comm, drop_drop. do 2 f_equal.
  - f_equal. lia.
  - destruct (Z.le_gt_cases n left_).
    + replace (Z.to_nat (p + Z.min n left_)) with (Z.to_nat p + Z.to_nat n)%nat by lia.
      by replace (Z.to_nat left_ - Z.to_nat n)%nat with (Z.to_nat (left_ - Z.min n left_)) by lia.
    + replace (Z.to_nat (left_ - Z.min n left_)) with 0%nat by lia.
      by replace (Z.to_nat left_ - Z.to_nat n)%nat with 0%nat by lia.
Qed.

Lemma cstr_upto_spec n a r : 0 ∉ a -> (length a < n)%nat -> cstr_upto n (a ++ 0 :: r) = Some a.
Proof.
  revert n. induction a as [|c a IH]; intros n Ha Hn; (destruct n as [|n]; [simpl in Hn; lia|]); [done|].
  apply not_elem_of_cons in Ha as [Hc Ha]. cbn [cstr_upto app]. destruct (Z.eqb_spec c 0); [by subst|].
  simpl in Hn. rewrite IH by (done || lia). done.
Qed.

Lemma preamble_size : Z.of_nat sizeof_preamble = 5140.
Proof. done. Qed.

Section Image.
Context (serial now : Z) (files : list InputFile) (img : list Z).
Context (Hgen : generate serial now files = Some img).
Context (Hnames : Forall named files) (Hsize : Z.of_nat (length img) < 2 ^ 32).
Context (Hserial : is_u64 serial) (Hnow : is_u64 now).

Lemma image_shape : (length files <= 64)%nat /\ img = writeHeader serial ++ writeTable now files ++ writeFiles files.
Proof using All.
  revert Hgen. unfold generate. destruct (Nat.ltb_spec 64 (length files)) as [|Hn]; [done|].
  destruct (existsb _ files); [done|]. intros [= E]. split; [exact Hn|by symmetry].
Qed.

Lemma image_count : count img = Some (Z.of_nat (length files)).
Proof using All.
  destruct image_shape as [Hn ->]. unfold writeTable. rewrite <- !(app_assoc (Bytes.bytes 4 _)).
  unfold count. replace sizeof_header with (length (writeHeader serial)) by done.
  apply read_at_bytes. change (256 ^ Z.of_nat 4) with (2 ^ 32). lia.
Qed.

(** The image around the entry of a file *)
Lemma image_entry fs1 f fs2 : files = fs1 ++ f :: fs2 ->
  exists pre post, length pre = file_offset (length fs1)
    /\ img = pre ++ writeFile now f (5140 + Z.of_nat (data_size fs1)) ++ post.
Proof using All.
  intros Hf. destruct image_shape as [_ ->]. unfold writeTable. rewrite Hf, writeEntries_app. cbn [writeEntries].
  exists (writeHeader serial ++ Bytes.bytes 4 (Z.of_nat (length files)) ++ writeEntries now fs1 5140).
  eexists. split.
  - rewrite !length_app, Bytes.bytes_length, length_writeEntries. unfold file_offset, sizeof_header. simpl. lia.
  - rewrite Hf, <- !app_assoc. do 3 f_equal.
Qed.

(** The contents of a file *)
Lemma image_data fs1 f fs2 : files = fs1 ++ f :: fs2 ->
  drop (sizeof_preamble + data_size fs1) img = in_data f ++ writeFiles fs2.
Proof using All.
  intros Hf. destruct image_shape as [Hn ->]. rewrite app_assoc.
  assert (H0 : length (writeHeader serial ++ writeTable now files) = sizeof_preamble).
  { rewrite length_app, length_writeTable by done. done. }
  rewrite drop_app_ge by lia. rewrite H0.
  replace (sizeof_preamble + data_size fs1 - sizeof_preamble)%nat with (data_size fs1) by lia.
  rewrite Hf. unfold data_size, writeFiles. rewrite fmap_app, concat_app, drop_app_length. done.
Qed.

Lemma image_length : length img = (sizeof_preamble + data_size files)%nat.
Proof using All.
  destruct image_shape as [Hn ->]. rewrite !length_app, length_writeTable by done. done.
Qed.

Lemma entry_fields fs1 f fs2 : files = fs1 ++ f :: fs2 ->
  f_size img (length fs1) = Some (Z.of_nat (length (in_data f)))
  /\ f_start img (length fs1) = Some (5140 + Z.of_nat (data_size fs1))
  /\ f_timestamp img (length fs1) = Some now
  /\ exists r, drop (file_offset (length fs1)) img = Bytes.chars (in_name f) ++ 0 :: r.
Proof using All.
  intros Hf. destruct (image_entry fs1 f fs2 Hf) as (pre & post & Hpre & Himg).
  assert (Hb : (data_size fs1 + length (in_data f) <= data_size files)%nat).
  { rewrite Hf, data_size_app, data_size_cons. lia. }
  pose proof image_length as Hl. pose proof preamble_size as Hps.
  assert (Hnm : named f).
  { rewrite Hf in Hnames. apply Forall_app in Hnames as [_ [Hn _]%Forall_cons_iff]. exact Hn. }
  destruct Hnm as [Hc Hlen].
  set (nm := strncpy 64 (Bytes.chars (in_name f))) in *.
  assert (Hn64 : length nm = 64%nat) by apply length_strncpy.
  unfold writeFile in Himg. fold nm in Himg. rewrite <- !app_assoc in Himg. split_and!.
  - unfold f_size. rewrite Himg, (app_assoc pre nm).
    replace (file_offset (length fs1) + 64)%nat with (length (pre ++ nm)) by (rewrite length_app; lia).
    apply read_at_bytes. change (256 ^ Z.of_nat 4) with (2 ^ 32). lia.
  - unfold f_start. rewrite Himg, (app_assoc pre nm), (app_assoc (pre ++ nm)).
    match goal with |- read_at (?a ++ _) _ _ = _ =>
      replace (file_offset (length fs1) + 68)%nat with (length a) by (rewrite !length_app, Bytes.bytes_length; lia) end.
    apply read_at_bytes. change (256 ^ Z.of_nat 4) with (2 ^ 32). lia.
  - unfold f_timestamp. rewrite Himg, (app_assoc pre nm), (app_assoc (pre ++ nm)), (app_assoc ((pre ++ nm) ++ _)).
    match goal with |- read_at (?a ++ _) _ _ = _ =>
      replace (file_offset (length fs1) + 72)%nat with (length a) by (rewrite !length_app, !Bytes.bytes_length; lia) end.
    apply read_at_bytes. change (256 ^ Z.of_nat 8) with (2 ^ 64). apply Hnow.
  - rewrite Himg, <- Hpre, drop_app_length. subst nm. rewrite strncpy_short by (by rewrite chars_length).
    rewrite <- app_assoc. simpl. eauto.
Qed.

Lemma total_loop_spec fs2 : forall fs1 total, files = fs1 ++ fs2 -> total = Z.of_nat (data_size fs1) ->
  total_loop img (length fs2) (length fs1) total = Some (Z.of_nat (data_size files)).
Proof using All.
  induction fs2 as [|f fs2 IH]; intros fs1 total Hf ->; cbn [total_loop length].
  - by rewrite Hf, app_nil_r.
  - destruct (entry_fields fs1 f fs2 Hf) as (Hs & _). rewrite Hs. cbn [mbind option_bind].
    assert (Hb : (data_size fs1 + length (in_data f) <= data_size files)%nat).
    { rewrite Hf, data_size_app, data_size_cons. lia. }
    pose proof image_length. pose proof preamble_size. rewrite u64_id by (unfold is_u; lia).
    replace (S (length fs1)) with (length (fs1 ++ [f])) by (rewrite length_app; simpl; lia).
    apply IH; [by rewrite <- app_assoc|]. rewrite data_size_app, data_size_cons. unfold data_size at 3. simpl. lia.
Qed.

Lemma tryget_image : tryget img = Some (Some (mkInitrd img (Z.of_nat (data_size files)))).
Proof using All.
  unfold tryget.
  assert (Hm : forall i v, writeHeader serial !! i = Some v -> read_at img i 1 = Some v).
  { intros i v Hi. destruct image_shape as [_ ->]. apply lookup_lt_Some in Hi as Hlt. unfold read_at.
    rewrite decide_True by (rewrite length_app; lia). unfold Bytes.field.
    rewrite (drop_S _ v) by (by rewrite lookup_app_l). simpl. f_equal. lia. }
  rewrite (Hm 0%nat 0x80), (Hm 1%nat (uchar "I")), (Hm 2%nat (uchar "R")), (Hm 3%nat (uchar "D")), (Hm 4%nat VERSION)
    by done.
  cbn [mbind option_bind]. unfold newInitrd. rewrite image_count. cbn [mbind option_bind]. rewrite Nat2Z.id.
  pose proof (total_loop_spec files [] 0 eq_refl eq_refl) as Ht. cbn [length] in Ht. rewrite Ht. done.
Qed.

(** [open] returns the file that was packed first under the name. *)
Definition handle_of (fs1 : list InputFile) (f : InputFile) : InitrdFile :=
  mkInitrdFile (5140 + Z.of_nat (data_size fs1)) (Z.of_nat (length (in_data f)))
    (Z.of_nat (length (in_data f))) now.

Lemma open_loop_spec p fs2 : cstring p -> forall fs1, files = fs1 ++ fs2 ->
  match list_find (fun f => in_name f = p) fs2 with
  | None => open_loop img (length fs2) (length fs1) (Bytes.chars p) = Some None
  | Some (i, f) => exists fs3, fs1 ++ take i fs2 = fs3 /\ (exists fs4, files = fs3 ++ f :: fs4)
      /\ open_loop img (length fs2) (length fs1) (Bytes.chars p) = Some (Some (handle_of fs3 f))
  end.
Proof using All.
  intros Hp. induction fs2 as [|f fs2 IH]; intros fs1 Hf; [done|].
  destruct (entry_fields fs1 f fs2 Hf) as (Hs & Hst & Ht & r & Hn). cbn [list_find length open_loop].
  assert (Hnm : cstring (in_name f)).
  { rewrite Hf in Hnames. apply Forall_app in Hnames as [_ [Hn' _]%Forall_cons_iff]. apply Hn'. }
  rewrite Hn, strcmp_eq_spec by done. cbn [mbind option_bind]. case_decide as Heq.
  - rewrite Heq, bool_decide_eq_true_2 by done. rewrite Hst, Hs, Ht. cbn [mbind option_bind take].
    exists fs1. rewrite app_nil_r. eauto.
  - rewrite bool_decide_eq_false_2 by (intros E; by apply Heq, chars_inj).
    specialize (IH (fs1 ++ [f])). rewrite <- app_assoc in IH. specialize (IH Hf).
    replace (S (length fs1)) with (length (fs1 ++ [f])) by (rewrite length_app; simpl; lia).
    destruct (list_find _ fs2) as [[i g]|]; simpl; [|done].
    destruct IH as (fs3 & E & IH). exists fs3. split; [|done]. by rewrite <- E, <- app_assoc.
Qed.

Lemma initrd_next_spec fs1 f fs2 : files = fs1 ++ f :: fs2 ->
  next (mkInitrd img (Z.of_nat (data_size files))) (length fs1)
  = Some (Some (mkInfo (Z.of_nat (length (in_data f))) now (strncpy 256 (Bytes.chars (in_name f))) file, S (length fs1))).
Proof using All.
  intros Hf. destruct (entry_fields fs1 f fs2 Hf) as (Hs & _ & Ht & r & Hn). unfold next. cbn [image].
  rewrite image_count. cbn [mbind option_bind].
  assert (Hnm : named f).
  { rewrite Hf in Hnames. apply Forall_app in Hnames as [_ [Hn' _]%Forall_cons_iff]. exact Hn'. }
  destruct Hnm as [Hc Hlen]. rewrite <- chars_length in Hlen.
  destruct (Z.leb_spec (Z.of_nat (length files)) (Z.of_nat (length fs1))) as [Hle|_].
  { rewrite Hf, length_app in Hle. simpl in Hle. lia. }
  rewrite Hs, Ht, Hn, cstr_upto_spec by (unfold gMaxPathSize; done || lia). done.
Qed.

Lemma fillInfo_image : fillInfo (mkInitrd img (Z.of_nat (data_size files))) = Some (serial, 0, Z.of_nat (data_size files)).
Proof using All.
  unfold fillInfo. cbn [image mTotalSize]. destruct image_shape as [_ ->]. unfold writeHeader. rewrite <- app_assoc.
  match goal with |- context [?a ++ Bytes.bytes 8 _ ++ _] => rewrite (read_at_bytes a 8) end; [done|].
  change (256 ^ Z.of_nat 8) with (2 ^ 64). apply Hserial.
Qed.

Lemma open_reads path : cstring path ->
  match first_named (VFS.skip_slash path) files with
  | None => doOpen (mkInitrd img (Z.of_nat (data_size files))) path FILE_OPEN_READ = Some None
  | Some f => exists h, doOpen (mkInitrd img (Z.of_nat (data_size files))) path FILE_OPEN_READ = Some (Some h)
      /\ forall ns, Forall (fun n => 0 <= n) ns ->
           read_all (mkInitrd img (Z.of_nat (data_size files))) h ns = Some (pieces ns (in_data f))
  end.
Proof using All.
  intros Hp. unfold doOpen. cbn [image]. rewrite image_count.
  change (negb (Z.land FILE_OPEN_READ _ =? 0)) with false. cbn [mbind option_bind]. rewrite Nat2Z.id.
  pose proof (open_loop_spec (VFS.skip_slash path) files (cstring_skip path Hp) [] eq_refl) as Ho.
  unfold first_named. destruct (list_find _ files) as [[i f]|]; [|done]. simpl.
  destruct Ho as (fs3 & _ & (fs4 & Hf) & Ho). exists (handle_of fs3 f). split; [exact Ho|]. intros ns Hns.
  assert (Hd : (data_size fs3 + length (in_data f) <= data_size files)%nat).
  { rewrite Hf, data_size_app, data_size_cons. lia. }
  pose proof image_length as Hl. pose proof preamble_size as Hps. unfold handle_of.
  rewrite read_all_spec by (done || lia).
  replace (Z.to_nat (5140 + Z.of_nat (data_size fs3))) with (sizeof_preamble + data_size fs3)%nat by lia.
  rewrite (image_data fs3 f fs4 Hf), Nat2Z.id, take_app_length. done.
Qed.

End Image.

End InitRdSpec.

Import InitRdSpec.

(** C40: the initial image is read back as it was packed.  An image that gen.py
    writes from any files with names of less than 64 bytes is accepted by the
    kernel; opening a path finds the first file packed under that name, and no
    file when there is none; reading it in pieces of any sizes returns its contents
    from the start to the end, and nothing behind it; the directory lists the files
    in order with their names, sizes and times, and the information on the
    filesystem has the serial number and the sum of the sizes. *)
Theorem initrd_roundtrip serial now files img :
  InitRd.generate serial now files = Some img ->
  Forall named files -> Z.of_nat (length img) < 2 ^ 32 -> is_u64 serial -> is_u64 now ->
  exists ird, InitRd.tryget img = Some (Some ird)
    /\ InitRd.fillInfo ird = Some (serial, 0, Z.of_nat (data_size files))
    /\ (forall path, cstring path ->
          match first_named (VFS.skip_slash path) files with
          | None => InitRd.doOpen ird path MemFS.FILE_OPEN_READ = Some None
          | Some f => exists h, InitRd.doOpen ird path MemFS.FILE_OPEN_READ = Some (Some h)
              /\ forall ns, Forall (fun n => 0 <= n) ns ->
                   read_all ird h ns = Some (pieces ns (InitRd.in_data f))
          end)
    /\ (forall i f, files !! i = Some f ->
          InitRd.next ird i = Some (Some (MemFS.mkInfo (Z.of_nat (length (InitRd.in_data f))) now
            (MemFS.strncpy 256 (Bytes.chars (InitRd.in_name f))) MemFS.file, S i)))
    /\ InitRd.next ird (length files) = Some None.
Proof.
  intros Hgen Hnames Hsize Hserial Hnow.
  exists (InitRd.mkInitrd img (Z.of_nat (data_size files))). split_and!.
  - by apply (tryget_image serial now).
  - by apply (fillInfo_image serial now).
  - intros path Hp. by apply (open_reads serial now).
  - intros i f (fs1 & fs2 & -> & ->)%lookup_split. by apply (initrd_next_spec serial now _ img Hgen Hnames Hsize Hserial Hnow _ _ fs2).
  - unfold InitRd.next. cbn [InitRd.image]. rewrite (image_count serial now files img) by done.
    cbn [mbind option_bind]. by rewrite Z.leb_refl.
Qed.

Definition sample_files : list InitRd.InputFile :=
  [InitRd.mkInput "init" [1; 2; 3]; InitRd.mkInput "cfg" [9; 8]].
Definition sample_image : list Z := default [] (InitRd.generate 77 5 sample_files).

Lemma initrd_roundtrip_witness : exists ird, InitRd.tryget sample_image = Some (Some ird)
  /\ exists h, InitRd.doOpen ird "/cfg" MemFS.FILE_OPEN_READ = Some (Some h)
       /\ read_all ird h [1; 5] = Some [[9]; [8]].
Proof.
  destruct (initrd_roundtrip 77 5 sample_files sample_image) as (ird & Ht & _ & Ho & _).
  - vm_compute. reflexivity.
  - apply (bool_decide_eq_true_1 _). vm_compute. reflexivity.
  - vm_compute. reflexivity.
  - by vm_compute.
  - by vm_compute.
  - exists ird. split; [exact Ht|]. specialize (Ho "/cfg").
    destruct Ho as (h & Hh & Hr); [apply (bool_decide_eq_true_1 _); vm_compute; reflexivity|].
    exists h. split; [exact Hh|]. rewrite Hr by (repeat constructor; lia). reflexivity.
Defined.

(** ** The tree of a [MemFS] *)

Module MemSpec.
Import KStr MemFS.

Section Tree.
Context {C : Type}.
Implicit Types (st : gmap Z (@entity C)).

(** The entity a directory has under a name *)
Definition child st (a : Z) (t : string) : option Z :=
  dd ← dir_of st a; Hash.get index eqb buckets (mContent dd) (of_cstr (Some t)).

Fixpoint walk st (a : Z) (ts : list string) : option Z :=
  match ts with
  | [] => Some a
  | t :: ts => x ← child st a t; walk st x ts
  end.

(** Directories are directories by kind, their tables are hash tables, and what is
    in them exists. *)
Record wf st : Prop := mkWf {
  wf_kind a en : st !! a = Some en -> mKind en = directory <-> exists dd, mBody en = Dir dd;
  wf_table a dd : dir_of st a = Some dd -> Hash.ok index buckets (mContent dd);
  wf_child a t x : child st a t = Some x -> is_Some (st !! x);
}.

Lemma child_of st a dd t : dir_of st a = Some dd ->
  child st a t = Hash.get index eqb buckets (mContent dd) (of_cstr (Some t)).
Proof. intros E. unfold child. by rewrite E. Qed.

Lemma strsep_components s : VFS.components s =
  (strsep s).1 :: match (strsep s).2 with None => [] | Some r => VFS.components r end.
Proof.
  induction s as [|c s IH]; [done|]. cbn [VFS.components strsep]. destruct (Ascii.eqb c VFS.slash); [done|].
  rewrite IH. by destruct (strsep s) as [tok [r|]].
Qed.

Lemma strsep_length s r : (strsep s).2 = Some r -> (String.length r < String.length s)%nat.
Proof.
  revert r. induction s as [|c s IH]; intros r; [done|]. cbn [strsep String.length].
  destruct (Ascii.eqb c VFS.slash); [intros [= ->]; lia|].
  destruct (strsep s) as [tok [q|]]; simpl; [|done]. intros [= ->]. specialize (IH r eq_refl). lia.
Qed.

Lemma get_loop_walk st : wf st -> forall fuel a s, is_Some (st !! a) -> (String.length s < fuel)%nat ->
  get_loop fuel st a s = Some (walk st a (VFS.components s)).
Proof.
  intros Hwf. induction fuel as [|fuel IH]; intros a s [en Ha] Hf; [lia|].
  cbn [get_loop]. rewrite (strsep_components s). pose proof (strsep_length s) as Hl.
  destruct (strsep s) as [tok rest]. cbn [fst snd walk] in *. rewrite Ha. cbn [mbind option_bind].
  pose proof (wf_kind st Hwf a en Ha) as Hk. destruct (mBody en) as [dd|c] eqn:Eb.
  - assert (Hd : dir_of st a = Some dd) by (unfold dir_of; rewrite Ha; cbn [mbind option_bind]; by rewrite Eb).
    rewrite bool_decide_eq_true_2 by (apply Hk; eauto). cbn [negb]. rewrite Hd. cbn [mbind option_bind].
    rewrite (child_of st a dd tok Hd), (Hash.find_get index eqb buckets);
      [|unfold buckets; lia|by apply (wf_table st Hwf a)].
    cbn [mbind option_bind]. destruct (Hash.get _ _ _ _ _) as [x|] eqn:Eg; [|done]. cbn [mbind option_bind].
    destruct rest as [r|]; [|done]. apply IH.
    + apply (wf_child st Hwf a tok). by rewrite (child_of st a dd).
    + specialize (Hl r eq_refl). lia.
  - rewrite bool_decide_eq_false_2 by (intros E; apply Hk in E as [? ?]; done). cbn [negb].
    unfold child, dir_of. rewrite Ha. cbn [mbind option_bind]. by rewrite Eb.
Qed.

(** [get] follows the names between the slashes. *)
Lemma get_walk st a p : wf st -> is_Some (st !! a) ->
  get st a (Some p) = Some (if decide (VFS.skip_slash p = "") then Some a
                            else walk st a (VFS.components (VFS.skip_slash p))).
Proof.
  intros Hwf Ha. unfold get. cbn [mbind option_bind]. destruct (VFS.skip_slash p) as [|c s] eqn:E; [done|].
  rewrite decide_False by done. apply get_loop_walk; [done|done|lia].
Qed.

Lemma set_dir_lookup st d dd a : set_dir st d dd !! a =
  if decide (a = d) then (fun en => mkEntity (mKind en) (mName en) (mTime en) (Dir dd)) <$> st !! a else st !! a.
Proof.
  unfold set_dir. destruct (st !! d) as [en|] eqn:E; case_decide as Ha; subst; try rewrite E; try done.
  - by rewrite lookup_insert_eq.
  - by rewrite lookup_insert_ne.
Qed.

Lemma set_dir_dir_of st d dd dd' a : dir_of st d = Some dd ->
  dir_of (set_dir st d dd') a = if decide (a = d) then Some dd' else dir_of st a.
Proof.
  unfold dir_of at 1. intros (en & Hen & _)%bind_Some. unfold dir_of. rewrite set_dir_lookup.
  case_decide; [|done]. subst. by rewrite Hen.
Qed.

(** [add] to a directory that is not locked *)
Lemma memfs_add_spec st d dd e en n :
  wf st -> dir_of st d = Some dd -> mLocked dd = 0 -> st !! e = Some en -> mBuffer (mName en) = Some n ->
  exists st' dd', add st d e = Some (st', true) /\ wf st'
    /\ (forall a, is_Some (st' !! a) <-> is_Some (st !! a))
    /\ (forall a t, child st' a t = if decide (a = d /\ t = n) then Some e else child st a t)
    /\ dir_of st' d = Some dd' /\ mIterableContent dd' = mIterableContent dd ++ [e] /\ mLocked dd' = 0
    /\ (forall a, a <> d -> st' !! a = st !! a).
Proof.
  intros Hwf Hd Hl He Hn. unfold add. rewrite Hd. cbn [mbind option_bind]. rewrite Hl. cbn [Z.eqb negb].
  rewrite He. cbn [mbind option_bind]. rewrite Hn. cbn [mbind option_bind].
  destruct (Hash.hash_insert_spec index eqb buckets eqb_spec ltac:(unfold buckets; lia) (mContent dd)
    (of_cstr (Some n)) e (wf_table st Hwf d dd Hd)) as (tbl & Hi & Hok & Hget).
  rewrite Hi. cbn [mbind option_bind].
  set (dd' := mkDirectory tbl (mIterableContent dd ++ [e]) 0). exists (set_dir st d dd'), dd'. split; [done|].
  assert (Hdom : forall a, is_Some (set_dir st d dd' !! a) <-> is_Some (st !! a)).
  { intros a. rewrite set_dir_lookup. case_decide; [|done]. by rewrite fmap_is_Some. }
  assert (Hch : forall a t, child (set_dir st d dd') a t = if decide (a = d /\ t = n) then Some e else child st a t).
  { intros a t. unfold child. rewrite (set_dir_dir_of st d dd dd') by done.
    destruct (decide (a = d)) as [->|Ha]; [|by rewrite decide_False by naive_solver].
    cbn [mbind option_bind]. subst dd'. cbn [mContent]. rewrite Hget, Hd. cbn [mbind option_bind].
    destruct (eqb _ _) eqn:E.
    - apply eqb_spec in E. injection E as ->. by rewrite decide_True.
    - rewrite decide_False; [done|]. intros [_ ->]. assert (eqb (of_cstr (Some n)) (of_cstr (Some n)) = true) by (by apply eqb_spec).
      congruence. }
  split_and!; try done.
  - constructor.
    + intros a en'. rewrite set_dir_lookup. case_decide as Ha; [|apply (wf_kind st Hwf)]. subst a.
      intros (en0 & Hen0 & ->)%fmap_Some. cbn [mKind mBody]. split; [eauto|]. intros _.
      apply (wf_kind st Hwf d en0 Hen0). revert Hd. unfold dir_of. rewrite Hen0. cbn [mbind option_bind].
      destruct (mBody en0); [eauto|done].
    + intros a dd0. rewrite (set_dir_dir_of st d dd dd') by done. case_decide; [|apply (wf_table st Hwf)].
      by intros [= <-].
    + intros a t x. rewrite Hch. intros Hx. apply Hdom. case_decide; [|by eapply (wf_child st Hwf)].
      injection Hx as <-. by rewrite He.
  - rewrite (set_dir_dir_of st d dd dd') by done. by rewrite decide_True.
  - intros a Ha. rewrite set_dir_lookup. by rewrite decide_False.
Qed.

(** A new directory that is not linked yet *)
Lemma new_directory_wf st a n now : wf st -> st !! a = None ->
  wf (<[a := newDirectory (Some n) now]> st)
  /\ forall x t, child (<[a := newDirectory (Some n) now]> st) x t = child st x t.
Proof.
  intros Hwf Ha. set (st1 := <[a := _]> st).
  assert (Hch : forall x t, child st1 x t = child st x t).
  { intros x t. unfold child, dir_of, st1. destruct (decide (x = a)) as [->|Hx].
    - rewrite lookup_insert_eq, Ha. cbn [mbind option_bind newDirectory mBody mContent].
      apply Hash.get_new.
    - by rewrite lookup_insert_ne. }
  split; [|exact Hch]. constructor.
  - intros x en. unfold st1. destruct (decide (x = a)) as [->|Hx].
    + rewrite lookup_insert_eq. intros [= <-]. cbn [newDirectory mKind mBody]. split; eauto.
    + rewrite lookup_insert_ne by done. apply (wf_kind st Hwf).
  - intros x dd. unfold dir_of, st1. destruct (decide (x = a)) as [->|Hx].
    + rewrite lookup_insert_eq. cbn [mbind option_bind newDirectory mBody]. intros [= <-]. cbn [mContent].
      apply Hash.hash_ok_new.
    + rewrite lookup_insert_ne by done. apply (wf_table st Hwf).
  - intros x t y. rewrite Hch. intros Hy. unfold st1. rewrite lookup_insert_is_Some.
    destruct (decide (a = y)); [by left|]. right. split; [done|]. by eapply (wf_child st Hwf).
Qed.

Lemma new_file_wf st a n now c : wf st -> st !! a = None -> wf (<[a := newFile n now c]> st).
Proof.
  intros Hwf Ha. set (st1 := <[a := _]> st).
  assert (Hch : forall x t, child st1 x t = child st x t).
  { intros x t. unfold child, dir_of, st1. destruct (decide (x = a)) as [->|Hx].
    - by rewrite lookup_insert_eq, Ha.
    - by rewrite lookup_insert_ne. }
  constructor.
  - intros x en. unfold st1. destruct (decide (x = a)) as [->|Hx].
    + rewrite lookup_insert_eq. intros [= <-]. cbn [newFile mKind mBody]. split; [done|]. by intros [? ?].
    + rewrite lookup_insert_ne by done. apply (wf_kind st Hwf).
  - intros x dd. unfold dir_of, st1. destruct (decide (x = a)) as [->|Hx].
    + by rewrite lookup_insert_eq.
    + rewrite lookup_insert_ne by done. apply (wf_table st Hwf).
  - intros x t y. rewrite Hch. intros Hy. unfold st1. rewrite lookup_insert_is_Some.
    destruct (decide (a = y)); [by left|]. right. split; [done|]. by eapply (wf_child st Hwf).
Qed.

Lemma empty_wf : wf (∅ : gmap Z (@entity C)).
Proof. by constructor. Qed.

(** A name that is new hides no path. *)
Lemma walk_mono st st' d n e a ts x :
  child st d n = None ->
  (forall a t, child st' a t = if decide (a = d /\ t = n) then Some e else child st a t) ->
  walk st a ts = Some x -> walk st' a ts = Some x.
Proof.
  intros Hn Hch. revert a. induction ts as [|t ts IH]; intros a; [done|]. cbn [walk]. rewrite Hch.
  intros (y & Hy & Hw)%bind_Some. case_decide as Hc; [destruct Hc as [-> ->]; congruence|].
  rewrite Hy. by apply IH.
Qed.

Lemma walk_app st a ts us : walk st a (ts ++ us) = x ← walk st a ts; walk st x us.
Proof.
  revert a. induction ts as [|t ts IH]; intros a; [done|]. cbn [walk app].
  destruct (child st a t); [|done]. apply IH.
Qed.

End Tree.

Lemma components_slash a b : VFS.components (a +:+ String VFS.slash b) = VFS.components a ++ VFS.components b.
Proof.
  induction a as [|c a IH]; [done|].
  change (String c a +:+ String VFS.slash b) with (String c (a +:+ String VFS.slash b)). cbn [VFS.components].
  destruct (Ascii.eqb c VFS.slash); [by rewrite IH|]. rewrite IH.
  destruct (VFS.components_head a) as (w & ws & -> & _). done.
Qed.

(** A name without slashes is one component. *)
Definition plain (n : string) : Prop := n <> "" /\ VFS.components n = [n].

Lemma plain_skip n : plain n -> VFS.skip_slash n = n.
Proof.
  intros [Hne Hc]. destruct n as [|c n]; [done|]. revert Hc. cbn [VFS.components VFS.skip_slash].
  by destruct (Ascii.eqb c VFS.slash).
Qed.

Lemma plain_skip_app n r : plain n -> VFS.skip_slash (n +:+ r) = n +:+ r.
Proof.
  intros Hp. pose proof (plain_skip n Hp) as Hs. destruct Hp as [Hne Hc]. destruct n as [|c n]; [done|].
  revert Hc. change (String c n +:+ r) with (String c (n +:+ r)). cbn [VFS.components VFS.skip_slash].
  by destruct (Ascii.eqb c VFS.slash).
Qed.

End MemSpec.

Import MemSpec.

(** A root directory with a string file that is not linked yet, and the same with a
    directory added to the root *)
Module SampleTree.
Import MemFS SimpleFiles.

Definition tree0 : gmap Z (@entity StringFile) :=
  <[2 := fromString (Some "uptime") (Some "42") 0]> (<[1 := newDirectory (Some "/") 0]> ∅).
Definition linked (a : Z) (st : gmap Z (@entity StringFile)) : gmap Z (@entity StringFile) :=
  match add st 1 a with Some (st, _) => st | None => ∅ end.
Definition tree1 := linked 3 (<[3 := newDirectory (Some "ramdisk") 0]> tree0).
Definition tree2 := linked 2 tree0.

Lemma tree0_wf : wf tree0.
Proof. apply new_file_wf; [apply new_directory_wf; [apply empty_wf|done]|done]. Qed.

Lemma tree1_wf : wf tree1.
Proof.
  unfold tree1, linked.
  destruct (memfs_add_spec (<[3 := newDirectory (Some "ramdisk") 0]> tree0) 1
    (mkDirectory (Hash.new buckets) [] 0) 3 (newDirectory (Some "ramdisk") 0) "ramdisk")
    as (st & dd & -> & Hwf & _); [|done..|exact Hwf].
  apply new_directory_wf; [apply tree0_wf|done].
Qed.

End SampleTree.
Import SampleTree.

(** an entity that is added to a directory is found under its path.  In a
    well-formed tree, adding an entity with a new name without slashes to a
    directory that is not being listed succeeds; the path of the directory followed
    by a slash and the name then leads to the entity, every path that led somewhere
    still leads there, the directory lists the entity last, and the tree stays
    well-formed. *)
Theorem added_entity_is_found {C} (st : gmap Z (@MemFS.entity C)) root p d dd e en n :
  wf st -> is_Some (st !! root) -> p <> "/" ->
  MemFS.get st root (Some p) = Some (Some d) ->
  MemFS.dir_of st d = Some dd -> MemFS.mLocked dd = 0 ->
  st !! e = Some en -> KStr.mBuffer (MemFS.mName en) = Some n -> plain n -> child st d n = None ->
  exists st' dd', MemFS.add st d e = Some (st', true)
    /\ MemFS.get st' root (Some (p +:+ String VFS.slash n)) = Some (Some e)
    /\ (forall q x, MemFS.get st root (Some q) = Some (Some x) -> MemFS.get st' root (Some q) = Some (Some x))
    /\ MemFS.dir_of st' d = Some dd'
    /\ MemFS.mIterableContent dd' = MemFS.mIterableContent dd ++ [e]
    /\ wf st'.
Proof.
  intros Hwf Hroot Hp Hget Hd Hl He Hn [Hne Hpl] Hnew.
  destruct (memfs_add_spec st d dd e en n) as (st' & dd' & Ha & Hwf' & Hdom & Hch & Hd' & Hit & _); try done.
  assert (Hroot' : is_Some (st' !! root)) by (by apply Hdom).
  assert (Hmono : forall q x, MemFS.get st root (Some q) = Some (Some x) -> MemFS.get st' root (Some q) = Some (Some x)).
  { intros q x. rewrite !get_walk by done. case_decide; [done|]. intros [= Hw]. f_equal. by eapply walk_mono. }
  exists st', dd'. split_and!; try done.
  apply Hmono in Hget. revert Hget. rewrite !get_walk by done.
  assert (Hstep : child st' d n = Some e) by (rewrite Hch; by rewrite decide_True).
  destruct p as [|c p].
  - change (VFS.skip_slash ("" +:+ String VFS.slash n)) with n. rewrite decide_True, decide_False by done.
    intros [= ->]. rewrite Hpl. cbn [walk]. by rewrite Hstep.
  - change (String c p +:+ String VFS.slash n) with (String c (p +:+ String VFS.slash n)). cbn [VFS.skip_slash].
    destruct (Ascii.eqb_spec c VFS.slash) as [->|Hc].
    + rewrite (decide_False (P := p = "")) by (by intros ->).
      rewrite decide_False by (by destruct p). intros [= Hw]. f_equal.
      rewrite components_slash, walk_app, Hw, Hpl. cbn [mbind option_bind walk]. by rewrite Hstep.
    + rewrite !decide_False by done. intros Hw%(inj Some). f_equal.
      change (String c (p +:+ String VFS.slash n)) with (String c p +:+ String VFS.slash n).
      rewrite components_slash, walk_app, Hw, Hpl. cbn [mbind option_bind walk]. by rewrite Hstep.
Qed.

Lemma added_entity_is_found_witness : exists st', MemFS.add tree0 1 2 = Some (st', true)
  /\ MemFS.get st' 1 (Some "/uptime") = Some (Some 2).
Proof.
  destruct (added_entity_is_found tree0 1 "" 1 (MemFS.mkDirectory (Hash.new MemFS.buckets) [] 0) 2
    (SimpleFiles.fromString (Some "uptime") (Some "42") 0) "uptime") as (st' & dd' & Ha & Hg & _);
    [apply tree0_wf|by eexists|done..|exists st'; split; [exact Ha|exact Hg]].
Defined.

(** asking for the directory of a driver a second time hides the first one.
    The test for the kind of what is found is the wrong way around: when the
    directory exists already, a new, empty one takes its name; the old one still
    exists, but no path that starts with the name of the device leads to a file. *)
Theorem device_directory_recreated {C} (st : gmap Z (@MemFS.entity C)) root dd device d en a now :
  wf st -> MemFS.dir_of st root = Some dd -> MemFS.mLocked dd = 0 -> plain device ->
  MemFS.get st root (Some device) = Some (Some d) -> st !! d = Some en -> MemFS.mKind en = MemFS.directory ->
  st !! a = None ->
  exists st', DevFS.getDeviceDirectory root st device a now = Some (st', a)
    /\ MemFS.get st' root (Some device) = Some (Some a) /\ d <> a /\ is_Some (st' !! d)
    /\ forall n, plain n -> MemFS.get st' root (Some (device +:+ String VFS.slash n)) = Some None.
Proof.
  intros Hwf Hr Hl [Hne Hpl] Hget Hd Hk Ha.
  destruct (new_directory_wf st a device now Hwf Ha) as [Hwf1 Hch1].
  set (st1 := <[a := _]> st) in *.
  assert (Hra : root <> a) by (intros ->; unfold MemFS.dir_of in Hr; by rewrite Ha in Hr).
  assert (Hr1 : MemFS.dir_of st1 root = Some dd) by (unfold MemFS.dir_of, st1; by rewrite lookup_insert_ne).
  destruct (memfs_add_spec st1 root dd a (MemFS.newDirectory (Some device) now) device)
    as (st' & dd' & Hadd & Hwf' & Hdom & Hch & _ & _ & _ & Hother); try done.
  { apply lookup_insert_eq. }
  assert (Hd1 : forall x, is_Some (st !! x) -> is_Some (st' !! x)).
  { intros x Hx. apply Hdom. unfold st1. rewrite lookup_insert_is_Some. destruct (decide (a = x)); auto. }
  assert (Hroot' : is_Some (st' !! root)).
  { apply Hd1. unfold MemFS.dir_of in Hr. apply bind_Some in Hr as (? & ? & _). eauto. }
  assert (Hdev : child st' root device = Some a) by (rewrite Hch; by rewrite decide_True).
  exists st'. split_and!.
  - unfold DevFS.getDeviceDirectory, DevFS.makeDirectory. rewrite Hget. cbn [mbind option_bind]. rewrite Hd.
    cbn [mbind option_bind]. rewrite bool_decide_eq_true_2 by done. cbn [negb]. fold st1. by rewrite Hadd.
  - rewrite get_walk, plain_skip by done. rewrite decide_False, Hpl by done. cbn [walk]. by rewrite Hdev.
  - intros ->. congruence.
  - apply Hd1. eauto.
  - intros n [Hn Hpn]. rewrite get_walk, plain_skip_app by done.
    rewrite decide_False by (by destruct device). rewrite components_slash, walk_app, Hpl.
    cbn [mbind option_bind walk]. rewrite Hdev. cbn [mbind option_bind]. rewrite Hpn. cbn [walk].
    rewrite Hch, decide_False by (intros [? _]; congruence). rewrite Hch1.
    unfold child, MemFS.dir_of. by rewrite Ha.
Qed.

Lemma device_directory_recreated_witness : exists st',
  DevFS.getDeviceDirectory 1 tree1 "ramdisk" 4 9 = Some (st', 4)
  /\ MemFS.get tree1 1 (Some "ramdisk") = Some (Some 3) /\ MemFS.get st' 1 (Some "ramdisk") = Some (Some 4).
Proof.
  destruct (device_directory_recreated tree1 1
    (default (MemFS.mkDirectory [] [] 0) (MemFS.dir_of tree1 1)) "ramdisk" 3
    (MemFS.newDirectory (Some "ramdisk") 0) 4 9) as (st' & Hd & Hg & _);
    [apply tree1_wf|vm_compute; reflexivity|vm_compute; reflexivity|done|vm_compute; reflexivity..|].
  exists st'. split; [exact Hd|]. split; [vm_compute; reflexivity|exact Hg].
Defined.

(** ** Contents of files *)

Module BufferSpec.
Import KStr MemFS.

#[export] Instance EmptyBuffer_laws : FileBufferLaws EmptyBuffer.
Proof.
  refine {| b_content _ := [] |}; by intros.
Defined.

Lemma string_get_chars s i : uchar <$> String.get i s = Bytes.chars s !! i.
Proof.
  revert i. induction s as [|c s IH]; intros i; [by destruct i|].
  change (Bytes.chars (String c s)) with (uchar c :: Bytes.chars s). destruct i as [|i]; [done|]. apply IH.
Qed.

#[export] Instance StringBuffer_laws : FileBufferLaws StringBuffer.
Proof.
  refine {| b_content b := match mBuffer (sb_data b) with Some s => Bytes.chars s | None => [] end |}.
  - intros [[[s|]]]; cbn; [|done]. unfold KStr.size. simpl. by rewrite chars_length.
  - intros [[[s|]]] i Hi; cbn [b_get StringBuffer_FileBuffer]; unfold sb_at, KStr.size; cbn [sb_data mBuffer];
      cbn [mbind option_bind]; [|by destruct (_ <=? _)].
    destruct (Z.leb_spec (Z.of_nat (String.length s)) i).
    + symmetry. apply lookup_ge_None_2. rewrite chars_length. lia.
    + apply string_get_chars.
Defined.

#[export] Instance ExternalDataBuffer_laws : FileBufferLaws ExternalDataBuffer.
Proof.
  refine {| b_content b := match b with externalDataBuffer d => default [] d end |}.
  - by intros [[d|]].
  - intros [[d|]] i Hi; cbn [b_get ExternalDataBuffer_FileBuffer]; unfold xb_at, xb_len; cbn [default mbind option_bind];
      [|by destruct (_ <=? _)].
    destruct (Z.leb_spec (Z.of_nat (length d)) i); [|done]. symmetry. apply lookup_ge_None_2. simpl. lia.
Defined.

Section Streams.
Context {B : Type} `{HL : FileBufferLaws B}.

(** What the loop has left to copy: all of it, when the length does not come up. *)
Lemma read_loop_spec (b : B) pos len fuel : forall idx,
  is_u32 (b_len b) -> 0 <= pos -> 0 <= idx -> 0 <= len -> pos + idx <= b_len b ->
  (len = 0 \/ idx < len) -> (Z.to_nat (b_len b - (pos + idx)) < fuel)%nat ->
  read_loop fuel b pos len idx
  = Some (let rest := drop (Z.to_nat (pos + idx)) (b_content b) in
          if decide (len = 0) then rest else take (Z.to_nat (len - idx)) rest).
Proof.
  induction fuel as [|fuel IH]; intros idx Hlen Hpos Hidx Hl Hb Hcase Hf; [lia|].
  pose proof (b_len_content b) as Hc. pose proof Hlen as Hlen'. unfold is_u in Hlen'. cbn [read_loop]. rewrite u32_id by (unfold is_u; lia).
  rewrite b_get_content by lia. destruct (b_content b !! Z.to_nat (pos + idx)) as [c|] eqn:Ec.
  - apply lookup_lt_Some in Ec as Hlt. rewrite (drop_S _ c) by done. rewrite u32_id by (unfold is_u; lia).
    destruct (Z.eqb_spec (idx + 1) len) as [He|He].
    + rewrite decide_False by lia. by replace (Z.to_nat (len - idx)) with 1%nat by lia.
    + rewrite IH by (done || lia). cbn [mbind option_bind].
      replace (Z.to_nat (pos + (idx + 1))) with (S (Z.to_nat (pos + idx))) by lia. case_decide; [done|].
      by replace (Z.to_nat (len - idx)) with (S (Z.to_nat (len - (idx + 1)))) by lia.
  - apply lookup_ge_None_1 in Ec. rewrite drop_ge by lia. case_decide; [done|]. by rewrite take_nil.
Qed.

Lemma buffer_read_spec (b : B) pos len : is_u32 (b_len b) -> 0 <= pos <= b_len b -> 0 <= len ->
  buffer_read b pos len = Some (if decide (len = 0) then drop (Z.to_nat pos) (b_content b)
                                else take (Z.to_nat len) (drop (Z.to_nat pos) (b_content b))).
Proof.
  intros Hl Hp Hn. unfold buffer_read. rewrite read_loop_spec by (done || lia). by rewrite Z.add_0_r, Z.sub_0_r.
Qed.

Fixpoint stream_read_all (f : @FileStream B) (ns : list Z) : option (list (list Z)) :=
  match ns with
  | [] => Some []
  | n :: ns => '(f, d) ← stream_read f n; ds ← stream_read_all f ns; Some (d :: ds)
  end.

Lemma stream_read_spec (f : @FileStream B) n :
  is_u32 (b_len (s_content f)) -> 0 <= mIndex f <= b_len (s_content f) -> 0 < n ->
  Z.land (mMode f) FILE_OPEN_READ <> 0 ->
  let d := take (Z.to_nat n) (drop (Z.to_nat (mIndex f)) (b_content (s_content f))) in
  stream_read f n = Some (at_index f (mIndex f + Z.of_nat (length d)), d)
  /\ 0 <= mIndex f + Z.of_nat (length d) <= b_len (s_content f).
Proof.
  intros Hl Hi Hn Hm d. unfold stream_read. destruct (Z.eqb_spec (Z.land (mMode f) FILE_OPEN_READ) 0); [done|].
  rewrite buffer_read_spec, decide_False by (done || lia). cbn [mbind option_bind]. fold d.
  pose proof (b_len_content (s_content f)).
  assert (mIndex f + Z.of_nat (length d) <= b_len (s_content f))
    by (subst d; rewrite length_take, length_drop; lia).
  rewrite u32_id by (unfold is_u in *; lia). split; [done|lia].
Qed.

Lemma stream_read_all_spec ns : Forall (fun n => 0 < n) ns -> forall (f : @FileStream B),
  is_u32 (b_len (s_content f)) -> 0 <= mIndex f <= b_len (s_content f) ->
  Z.land (mMode f) FILE_OPEN_READ <> 0 ->
  stream_read_all f ns = Some (pieces ns (drop (Z.to_nat (mIndex f)) (b_content (s_content f)))).
Proof.
  induction 1 as [|n ns Hn _ IH]; intros f Hl Hi Hm; [done|]. cbn [stream_read_all pieces].
  destruct (stream_read_spec f n Hl Hi Hn Hm) as [-> Hi']. cbn [mbind option_bind].
  rewrite IH by (cbn [at_index s_content mIndex mMode]; done). cbn [mbind option_bind at_index mIndex s_content].
  rewrite drop_drop. do 3 f_equal. pose proof (b_len_content (s_content f)) as Hc.
  rewrite length_take, length_drop in *.
  destruct (decide (Z.to_nat n <= length (b_content (s_content f)) - Z.to_nat (mIndex f))%nat).
  - f_equal. lia.
  - rewrite !drop_ge by lia. done.
Qed.

End Streams.

End BufferSpec.

Import BufferSpec.

(** a file is read through a stream as its content.  Opening the path of an
    entity that is not a directory and reading in pieces of any positive sizes
    returns the content from the start to the end, whatever kind of buffer the file
    hands out; a read of zero bytes, however, does not stop before the end of the
    content and stores all of it behind the caller's pointer. *)
Theorem memfs_file_is_read {C B} `{HB : MemFS.FileBufferLaws B} (content : C -> option B)
    (st : gmap Z (@MemFS.entity C)) root path e en c b mode :
  MemFS.get st root (Some path) = Some (Some e) -> st !! e = Some en ->
  MemFS.mKind en <> MemFS.directory -> MemFS.mBody en = MemFS.Reg c -> content c = Some b ->
  is_u32 (MemFS.b_len b) -> Z.land mode MemFS.FILE_OPEN_READ <> 0 ->
  exists f, MemFS.doOpen content root st path mode = Some (Some f)
    /\ (forall ns, Forall (fun n => 0 < n) ns -> stream_read_all f ns = Some (pieces ns (MemFS.b_content b)))
    /\ (exists f', MemFS.stream_read f 0 = Some (f', MemFS.b_content b)).
Proof.
  intros Hg He Hk Hb Hc Hl Hm. exists (MemFS.mkStream e b 0 mode).
  pose proof (MemFS.b_len_content b) as Hlc. split_and!.
  - unfold MemFS.doOpen. rewrite Hg. cbn [mbind option_bind]. rewrite He. cbn [mbind option_bind].
    destruct (MemFS.dir_like (MemFS.mKind en)) eqn:Ed; [by destruct (MemFS.mKind en)|]. by rewrite Hb, Hc.
  - intros ns Hns. rewrite stream_read_all_spec by (cbn [MemFS.s_content MemFS.mIndex MemFS.mMode]; done || lia). done.
  - unfold MemFS.stream_read. cbn [MemFS.s_content MemFS.mIndex MemFS.mMode].
    destruct (Z.eqb_spec (Z.land mode MemFS.FILE_OPEN_READ) 0); [done|].
    rewrite buffer_read_spec by (done || lia). rewrite decide_True by done. eauto.
Qed.

Lemma memfs_file_is_read_witness : exists f,
  MemFS.doOpen SimpleFiles.content 1 tree2 "/uptime" MemFS.FILE_OPEN_READ = Some (Some f)
  /\ stream_read_all f [1; 5] = Some [[52]; [50]].
Proof.
  destruct (memfs_file_is_read SimpleFiles.content tree2 1 "/uptime" 2
    (SimpleFiles.fromString (Some "uptime") (Some "42") 0) (SimpleFiles.mkStringFile (KStr.of_cstr (Some "42")))
    (MemFS.stringBuffer (KStr.of_cstr (Some "42"))) MemFS.FILE_OPEN_READ) as (f & Ho & Hr & _);
    [vm_compute; reflexivity|vm_compute; reflexivity|done|done|done|by vm_compute|done|].
  exists f. split; [exact Ho|]. rewrite Hr by (repeat constructor; lia). reflexivity.
Defined.

(** ** The disk in memory is a block device *)

Lemma splice_lookup {A} (l b : list A) off i : (off + length b <= length l)%nat ->
  (take off l ++ b ++ drop (off + length b) l) !! i =
  if decide (off <= i < off + length b)%nat then b !! (i - off)%nat else l !! i.
Proof.
  intros Hl. case_decide as Hd.
  - rewrite lookup_app_r by (rewrite length_take; lia). rewrite length_take_le by lia. apply lookup_app_l. lia.
  - destruct (decide (i < off)%nat).
    + rewrite lookup_app_l by (rewrite length_take; lia). by apply lookup_take_lt.
    + rewrite !lookup_app_r by (rewrite ?length_take; lia). rewrite length_take_le by lia.
      rewrite lookup_drop. f_equal. lia.
Qed.

Lemma splice_read {A} (l b : list A) off : (off + length b <= length l)%nat ->
  take (length b) (drop off (take off l ++ b ++ drop (off + length b) l)) = b.
Proof.
  intros Hl. rewrite drop_app_length' by (rewrite length_take; lia). by rewrite take_app_length.
Qed.

Lemma splice_read_other {A} (l b : list A) off off' n : (off + length b <= length l)%nat ->
  (off' + n <= off \/ off + length b <= off')%nat ->
  take n (drop off' (take off l ++ b ++ drop (off + length b) l)) = take n (drop off' l).
Proof.
  intros Hl Ho. apply list_eq. intros i. destruct (decide (i < n)%nat) as [Hi|Hi].
  - rewrite !lookup_take_lt, !lookup_drop, splice_lookup by done. rewrite decide_False by lia. done.
  - rewrite !lookup_take_ge by lia. done.
Qed.

Module RamVolumeSpec.
Import RamVolume.

(** A disk has all the bytes it was made with. *)
Definition disk_ok (v : VolumeFile) : Prop :=
  Z.of_nat (length (mData v)) = mByteSize v /\ is_u32 (mByteSize v).

Lemma new_disk_ok id size memory : is_u32 size -> size <= Z.of_nat (length memory) ->
  disk_ok (newVolumeFile id size memory).
Proof. intros [? ?] ?. unfold disk_ok, newVolumeFile. cbn [mData mByteSize]. rewrite length_take. split; [lia|done]. Qed.

(** The sectors that are accepted lie inside of the data, but for the last 32-bit
    number, for which the test wraps. *)
Lemma accepted v s : disk_ok v -> is_u32 s -> (u32 (s + 1) >=? numsectors v) = false ->
  s = 2 ^ 32 - 1 \/ data s = 512 * s /\ 512 * s + 512 <= mByteSize v.
Proof.
  intros [Hl Hb] Hs. unfold is_u in Hs, Hb. unfold numsectors, Volume.sectorsize. rewrite Z.geb_leb, Z.leb_gt. intros Hg.
  destruct (decide (s = 2 ^ 32 - 1)) as [->|Hne]; [by left|]. right. rewrite u32_id in Hg by (unfold is_u; lia).
  pose proof (Z.mul_div_le (mByteSize v) 512 ltac:(lia)). unfold data.
  rewrite u32_id by (unfold is_u; lia). split; lia.
Qed.

Lemma read_one v s : disk_ok v -> is_u32 s ->
  mjoin (ram_read v s 1) =
  if (u32 (s + 1) >=? numsectors v) || (s =? 2 ^ 32 - 1) then None
  else Some (take (Z.to_nat (1 * Volume.sectorsize)) (drop (Z.to_nat (512 * s)) (mData v))).
Proof.
  intros Hok Hs. unfold ram_read. destruct (u32 (s + 1) >=? numsectors v) eqn:Eg; [done|]. cbn [orb].
  destruct (accepted v s Hok Hs Eg) as [->|[Hd Hin]]; destruct Hok as [Hl Hb]; unfold is_u in Hb.
  - rewrite Z.eqb_refl. rewrite decide_False; [done|]. change (Z.to_nat (data (2 ^ 32 - 1))) with (Z.to_nat (2 ^ 32 - 512)).
    unfold Volume.sectorsize. lia.
  - unfold is_u in Hs. destruct (Z.eqb_spec s (2 ^ 32 - 1)); [lia|].
    rewrite Hd, decide_True by (unfold Volume.sectorsize; lia). done.
Qed.

Lemma write_one v s b v' : disk_ok v -> is_u32 s -> length b = Z.to_nat (1 * Volume.sectorsize) ->
  mjoin (ram_write v s 1 b) = Some v' ->
  (u32 (s + 1) >=? numsectors v) || (s =? 2 ^ 32 - 1) = false
  /\ (Z.to_nat (512 * s) + length b <= length (mData v))%nat
  /\ v' = mkVolumeFile (mId v) (mByteSize v)
            (take (Z.to_nat (512 * s)) (mData v) ++ b ++ drop (Z.to_nat (512 * s) + length b) (mData v))
  /\ disk_ok v'.
Proof.
  intros Hok Hs Hlb. unfold ram_write. rewrite <- Hlb. destruct (u32 (s + 1) >=? numsectors v) eqn:Eg; [done|].
  case_decide as Hd; [|done]. cbn. rewrite firstn_all.
  destruct (accepted v s Hok Hs Eg) as [->|[Hdat Hin]]; destruct Hok as [Hl Hb].
  - exfalso. change (Z.to_nat (data (2 ^ 32 - 1))) with (Z.to_nat (2 ^ 32 - 512)) in Hd.
    unfold is_u in Hb. unfold Volume.sectorsize in Hlb. lia.
  - rewrite Hdat in *. intros [= <-]. destruct Hd as [Hd _].
    destruct (Z.eqb_spec s (2 ^ 32 - 1)); [unfold is_u in *; lia|]. split_and!; try done.
    split; [|exact Hb]. cbn [mData mByteSize]. rewrite <- Hl, !length_app, length_take, length_drop. lia.
Qed.

(** The last sector of a disk can neither be read nor written. *)
Lemma last_sector_refused v b : disk_ok v -> 0 < numsectors v ->
  ram_read v (numsectors v - 1) 1 = Some None /\ ram_write v (numsectors v - 1) 1 b = Some None.
Proof.
  intros [Hl Hb] Hn. unfold is_u in Hb. unfold ram_read, ram_write.
  assert (numsectors v <= mByteSize v) by (unfold numsectors, Volume.sectorsize; apply Z.div_le_upper_bound; lia).
  replace (numsectors v - 1 + 1) with (numsectors v) by lia. rewrite u32_id by (unfold is_u; lia).
  by rewrite Z.geb_leb, Z.leb_refl.
Qed.

(** The test wraps for the last sector number, and the access leaves the data. *)
Lemma last_number_overruns v : disk_ok v -> 0 < numsectors v -> ram_read v (2 ^ 32 - 1) 1 = None.
Proof.
  intros [Hl Hb] Hn. unfold ram_read. change (u32 (2 ^ 32 - 1 + 1)) with 0. rewrite Z.geb_leb.
  destruct (Z.leb_spec (numsectors v) 0); [lia|]. rewrite decide_False; [done|].
  change (Z.to_nat (data (2 ^ 32 - 1))) with (Z.to_nat (2 ^ 32 - 512)). unfold is_u in Hb. unfold Volume.sectorsize. lia.
Qed.

(** The disks a driver makes, as devices of [Volume] *)
Record disk := mkDisk { d_file : VolumeFile; d_ok : disk_ok d_file }.

#[export] Instance ram_volume : Device disk := {
  doRead d s := mjoin (ram_read (d_file d) s 1);
  doWrite d s b :=
    if decide (length b = Z.to_nat (1 * Volume.sectorsize)) then
      v ← mjoin (ram_write (d_file d) s 1 b);
      match decide (disk_ok v) with left H => Some (mkDisk v H) | right _ => None end
    else None;
}.

#[export] Instance ram_volume_laws : DeviceLaws disk.
Proof.
  assert (Hw : forall d s b d', is_u32 s -> doWrite d s b = Some d' ->
    length b = Z.to_nat (1 * Volume.sectorsize) /\ mjoin (ram_write (d_file d) s 1 b) = Some (d_file d')).
  { intros d s b d' Hs. cbn [doWrite ram_volume]. case_decide as Hb; [|done]. intros (v & Hv & Hd)%bind_Some.
    case_decide; [|done]. injection Hd as <-. done. }
  split.
  - intros d s b d' Hs Hd. destruct (Hw d s b d' Hs Hd) as [Hb Hwr].
    destruct (write_one _ s b _ (d_ok d) Hs Hb Hwr) as (Hg & Hin & Hv & Hok). cbn [doRead ram_volume].
    rewrite read_one by done. unfold numsectors in *. rewrite Hv. cbn [mByteSize mData]. rewrite Hg, <- Hb.
    by rewrite splice_read.
  - intros d s b d' s' Hs Hs' Hd Hne. destruct (Hw d s b d' Hs Hd) as [Hb Hwr].
    destruct (write_one _ s b _ (d_ok d) Hs Hb Hwr) as (Hg & Hin & Hv & Hok). cbn [doRead ram_volume].
    rewrite !read_one by (done || apply d_ok). unfold numsectors in *. rewrite Hv. cbn [mByteSize mData].
    destruct (_ || (s' =? _)); [done|]. f_equal. apply splice_read_other; [done|].
    unfold Volume.sectorsize, is_u in *. lia.
Qed.

End RamVolumeSpec.
