(* ===== verification/SynchFs.v ===== *)
(** * The file systems of named synchronisation objects
    (kernel/src/synch/semaphorefs.cpp, mutexfs.cpp, eventfs.cpp)

    Opening /semaphores/x, /mutexes/x or /events/x gives a file whose object is
    shared by everybody who has the same name open.  The three classes differ in
    their object and in [ioctl]; what they share is [NamedFs], over the store of
    [KeyedStore].  The file also holds the proof that the sharing is right. *)

From stdpp Require Import base numbers list gmap option strings.
From Stdlib Require Import ZArith Lia.
From S2P Require Import Prelude Hash KeyedStore Vec PQueue Tables Files Kernel Lifecycle Synch ProcessThms.

Local Open Scope Z_scope.

Module NamedFs.
Import KStr KeyedStore.

Section Fs.
Context {T Args : Type} (make : option string -> Args -> T) (key : T -> option string) (N : nat).
(** the arguments of the constructor in [getOrCreate] *)
Context (args : Args).

(** [Store::getOrCreate] *)
Definition getOrCreate (s : store) (name : option string) : option (store * option nat) :=
  '(s, o) ← getOrNull N s name;
  match o with
  | Some o => Some (s, Some o)
  | None => makeOrNull make N s name args
  end.

(** [doOpen]: the object the new file holds *)
Definition doOpen (s : store) (name : string) : option (store * option nat) := getOrCreate s (Some name).

(** [doClose]: the reference goes by the name the object has; [None]: the object is
    gone *)
Definition doClose (s : store) (file : nat) : option (store * bool) :=
  x ← objs s !! file; release N s (key x).

(** ** Files that are open *)

Context (N_pos : (0 < N)%nat) (key_make : forall k a, key (make k a) = k).

(** [o] is the object of the name [k]. *)
Definition names (s : store) (k : kstring) (o : nat) : Prop :=
  exists p n x, hget N s k = Some p /\ vals s !! p = Some (o, n) /\ objs s !! o = Some x /\ of_cstr (key x) = k.

Definition count (k : kstring) (files : list (kstring * nat)) : Z :=
  Z.of_nat (length (filter (fun f => f.1 = k) files)).

(** The store and the files that are open, by name and object. *)
Record inv (s : store) (files : list (kstring * nat)) : Prop := {
  inv_rep : srep N s (fun k => count k files);
  inv_names : Forall (fun f => names s f.1 f.2) files;
  inv_live : forall k p o n, hget N s k = Some p -> vals s !! p = Some (o, n) -> names s k o;
  inv_objs : forall o, is_Some (objs s !! o) -> exists k, names s k o }.

Lemma count_cons k f files : count k (f :: files) = (if decide (f.1 = k) then 1 else 0) + count k files.
Proof. unfold count. rewrite filter_cons. case_decide; cbn; lia. Qed.

Lemma srep_ext (s : @store T) refs refs' : (forall k, refs k = refs' k) -> srep N s refs -> srep N s refs'.
Proof.
  intros He [H1 H2 H3 H4 H5]. split; auto.
  - intros k p Hk. rewrite <- He. auto.
  - intros k Hk. rewrite <- He. auto.
Qed.

Lemma count_upd k0 o files n k : n = count k0 files + 1 ->
  upd (fun k => count k files) k0 n k = count k ((k0, o) :: files).
Proof.
  intros ->. rewrite count_cons. cbn. destruct (decide (k0 = k)) as [->|Hne].
  - rewrite upd_same. lia.
  - rewrite upd_other by done. lia.
Qed.

Lemma inv_new : inv (KeyedStore.new N) [].
Proof.
  assert (Hn : forall k, hget N (@KeyedStore.new T N) k = None) by (intros; apply Hash.get_new).
  split; [|done| |].
  - eapply srep_ext; [|by apply srep_new]. done.
  - intros k p o n Hk. by rewrite Hn in Hk.
  - intros o [x Hx]. cbn in Hx. by rewrite lookup_empty in Hx.
Qed.

(** The same table and objects, with another count behind a pointer. *)
Lemma names_count s p o n n' k' o' :
  vals s !! p = Some (o, n) -> names s k' o' ->
  names (mkStore (mHash s) (<[p := (o, n')]> (vals s)) (objs s) (brk s)) k' o'.
Proof.
  intros Hp (q & m & x & Hk & Hq & Ho & Hx). destruct (decide (p = q)) as [->|Hne].
  - exists q, n', x. rewrite Hp in Hq. simplify_eq. split_and!; try done. cbn. apply lookup_insert_eq.
  - exists q, m, x. split_and!; try done. cbn. by rewrite lookup_insert_ne.
Qed.

Lemma live_count s p o n n' :
  vals s !! p = Some (o, n) ->
  (forall k p o n, hget N s k = Some p -> vals s !! p = Some (o, n) -> names s k o) ->
  forall k q o' m, hget N s k = Some q -> <[p := (o, n')]> (vals s) !! q = Some (o', m) ->
    names (mkStore (mHash s) (<[p := (o, n')]> (vals s)) (objs s) (brk s)) k o'.
Proof.
  intros Hp Hl k q o' m Hk Hq. apply (names_count s p o n); [done|]. rewrite lookup_insert in Hq. case_decide; simplify_eq; eauto.
Qed.

Lemma open_existing s files name p :
  inv s files -> Z.of_nat (length files) + 1 < 2 ^ 32 -> hget N s (of_cstr name) = Some p ->
  exists s' o, getOrNull N s name = Some (s', Some o) /\ inv s' ((of_cstr name, o) :: files) /\ names s (of_cstr name) o.
Proof.
  intros [Hr Hn Hl Ho'] Hlen Hk. set (k := of_cstr name) in *.
  destruct (s_live _ _ _ Hr k p Hk) as (o & x & Hv & Ho & Hc & _).
  assert (Hcount : count k files <= Z.of_nat (length files)).
  { unfold count. pose proof (length_filter (fun f : kstring * nat => f.1 = k) files). lia. }
  unfold getOrNull. rewrite (find_hget N N_pos s _ name Hr). fold k. rewrite Hk. cbn [mbind option_bind]. rewrite Hv.
  cbn [mbind option_bind fst snd]. rewrite u32_id by (unfold is_u; lia).
  eexists _, o. split; [done|]. assert (Hname : names s k o) by (by eapply Hl). split; [|done]. split.
  - eapply srep_ext; [|eapply (srep_set_count N s _ k p o (count k files + 1) Hr Hk Hv); lia].
    intros k'. by apply count_upd.
  - constructor; [by apply (names_count s p o (count k files))|]. eapply list.Forall_impl; [exact Hn|].
    intros f Hf. by apply (names_count s p o (count k files)).
  - intros k' q o' m Hk' Hq. by eapply (live_count s p o (count k files)).
  - intros o' Hx. destruct (Ho' o' Hx) as [k' Hk']. exists k'. by apply (names_count s p o (count k files)).
Qed.

Lemma open_fresh s files name :
  inv s files -> hget N s (of_cstr name) = None ->
  exists s' o, makeOrNull make N s name args = Some (s', Some o) /\ inv s' ((of_cstr name, o) :: files)
    /\ forall k, ~ names s k o.
Proof.
  intros [Hr Hn Hl Hob] Hk. destruct (makeOrNull_spec make N N_pos s _ name args Hr) as (s' & r & E & Hnone & Hr').
  destruct r as [o|]; [|by destruct (proj1 Hnone eq_refl)].
  set (k := of_cstr name) in *. exists s', o. split; [done|].
  unfold makeOrNull in E. rewrite (find_hget N N_pos s _ name Hr) in E. fold k in E. rewrite Hk in E. cbn [mbind option_bind] in E.
  destruct (Hash.hash_insert_spec index eqb N eqb_spec N_pos (mHash s) k (S (brk s)) (s_ok _ _ _ Hr)) as (h & Eh & _ & Hget).
  rewrite Eh in E. cbn [mbind option_bind] in E. injection E as <- <-.
  assert (Hold : forall k' o', names s k' o' -> (o' < brk s)%nat /\ k' <> k /\
    names (mkStore h (<[S (brk s) := (brk s, 1)]> (vals s)) (<[brk s := make name args]> (objs s)) (S (S (brk s)))) k' o').
  { intros k' o' (q & m & x & Hk' & Hq & Ho & Hx). assert (Hne : k' <> k) by congruence.
    destruct (s_live _ _ _ Hr k' q Hk') as (o2 & x2 & Hv & _ & _ & Hq' & Ho'). rewrite Hv in Hq. simplify_eq.
    split; [done|]. split; [done|]. exists q, (count (of_cstr (key x)) files), x. split_and!; try done.
    - unfold hget. cbn [mHash]. rewrite Hget. destruct (eqb (of_cstr (key x)) k) eqn:Eq; [by apply eqb_spec in Eq|done].
    - cbn. by rewrite lookup_insert_ne by lia.
    - cbn. by rewrite lookup_insert_ne by lia. }
  assert (Hnew : names (mkStore h (<[S (brk s) := (brk s, 1)]> (vals s)) (<[brk s := make name args]> (objs s)) (S (S (brk s)))) k (brk s)).
  { exists (S (brk s)), 1, (make name args). split_and!.
    - unfold hget. cbn [mHash]. rewrite Hget. by rewrite (proj2 (eqb_spec k k)).
    - cbn. apply lookup_insert_eq.
    - cbn. apply lookup_insert_eq.
    - by rewrite key_make. }
  split; [split|].
  - eapply srep_ext; [|exact Hr']. intros k'. apply count_upd. pose proof (s_dead _ _ _ Hr k Hk). lia.
  - constructor; [done|]. eapply list.Forall_impl; [exact Hn|]. intros f Hf. by apply Hold.
  - intros k' q o' m Hk' Hq. unfold hget in Hk'. cbn [mHash vals] in *. rewrite Hget in Hk'. destruct (eqb k' k) eqn:Eq.
    + apply eqb_spec in Eq as ->. simplify_eq. rewrite lookup_insert_eq in Hq. by simplify_eq.
    + change (hget N s k' = Some q) in Hk'. destruct (s_live _ _ _ Hr k' q Hk') as (o2 & x2 & Hv & _ & _ & Hq' & _).
      rewrite lookup_insert_ne in Hq by lia. apply Hold. by eapply Hl.
  - intros o' Ho'. cbn in Ho'. destruct (decide (brk s = o')) as [<-|Hne]; [by exists k|].
    rewrite lookup_insert_ne in Ho' by done. destruct (Hob o' Ho') as [k' Hk']. exists k'. by apply Hold.
  - intros k' Hk'. apply Hold in Hk' as [Hlt _]. lia.
Qed.

(** Opening a name gives the object of those who have it open, or a new one. *)
Lemma open_spec s files name :
  inv s files -> Z.of_nat (length files) + 1 < 2 ^ 32 ->
  exists s' o, doOpen s name = Some (s', Some o) /\ inv s' ((of_cstr (Some name), o) :: files)
    /\ (hget N s (of_cstr (Some name)) = None -> forall k, ~ names s k o).
Proof.
  intros Hi Hlen. unfold doOpen, getOrCreate. destruct (hget N s (of_cstr (Some name))) as [p|] eqn:Hk.
  - destruct (open_existing s files (Some name) p Hi Hlen Hk) as (s' & o & -> & Hi' & _). cbn [mbind option_bind].
    exists s', o. split_and!; done.
  - assert (getOrNull N s (Some name) = Some (s, None)) as ->.
    { unfold getOrNull. rewrite (find_hget N N_pos s _ (Some name) (inv_rep _ _ Hi)). by rewrite Hk. }
    cbn [mbind option_bind]. destruct (open_fresh s files (Some name) Hi Hk) as (s' & o & -> & Hi' & Hf).
    exists s', o. split_and!; done.
Qed.

(** Two files have the same object exactly when they have the same name. *)
Lemma names_functional s files k k' o o' :
  inv s files -> names s k o -> names s k' o' -> k = k' <-> o = o'.
Proof.
  intros [Hr _ _ _] (p & n & x & Hk & Hp & _) (p' & n' & x' & Hk' & Hp' & _). split; intros E.
  - subst k'. assert (p = p') by congruence. congruence.
  - subst o'. by eapply (s_inj _ _ _ Hr).
Qed.

Lemma count_remove k k0 o0 f1 f2 :
  count k (f1 ++ f2) = count k (f1 ++ (k0, o0) :: f2) - (if decide (k0 = k) then 1 else 0).
Proof.
  unfold count. rewrite !filter_app, !length_app, filter_cons. cbn. case_decide; cbn; lia.
Qed.

(** What [release] does to the store: the count goes down, or the name, its cell and
    its object go. *)
Lemma release_cases (s : @store T) refs key0 p o (s' : @store T) b :
  srep N s refs -> hget N s (of_cstr key0) = Some p -> vals s !! p = Some (o, refs (of_cstr key0)) ->
  release N s key0 = Some (s', b) ->
  (b = false /\ refs (of_cstr key0) <> 1
     /\ s' = mkStore (mHash s) (<[p := (o, refs (of_cstr key0) - 1)]> (vals s)) (objs s) (brk s))
  \/ (b = true /\ refs (of_cstr key0) = 1 /\ vals s' = delete p (vals s) /\ objs s' = delete o (objs s)
     /\ forall k, hget N s' k = if eqb k (of_cstr key0) then None else hget N s k).
Proof.
  intros Hr Hk Hv E. destruct (s_live _ _ _ Hr _ p Hk) as (o1 & x & Hv1 & _ & Hc & _).
  unfold release in E. rewrite (find_hget N N_pos s _ key0 Hr), Hk in E. cbn [mbind option_bind] in E.
  rewrite Hv in E. cbn [mbind option_bind fst snd] in E. rewrite u32_id in E by (unfold is_u; lia).
  destruct (Z.eqb_spec (refs (of_cstr key0) - 1) 0) as [Ez|Ez].
  - destruct (Hash.erase_spec index eqb N eqb_spec N_pos (mHash s) (of_cstr key0) (s_ok _ _ _ Hr)) as (h & Eh & _ & Hget).
    rewrite Eh in E. cbn [mbind option_bind fst] in E. injection E as <- <-. right. split_and!; try done; lia.
  - injection E as <- <-. left. split_and!; try done. lia.
Qed.

(** The other names, and this one while references are left, keep their objects. *)
Lemma release_names (s : @store T) files k o (s' : @store T) b key0 :
  inv s files -> names s k o -> of_cstr key0 = k -> release N s key0 = Some (s', b) ->
  (forall k' o', names s k' o' -> k' <> k \/ b = false -> names s' k' o')
  /\ (forall k' q o' m, hget N s' k' = Some q -> vals s' !! q = Some (o', m) -> names s' k' o')
  /\ (b = true -> objs s' !! o = None)
  /\ (forall o', is_Some (objs s' !! o') -> exists k', names s' k' o').
Proof.
  intros [Hr Hn Hl Hob] (p & n & x & Hk & Hp & Ho & Hx) Hkey E. subst k. rewrite <- Hkey in *.
  destruct (s_live _ _ _ Hr _ p Hk) as (o1 & x1 & Hv & _). assert (o1 = o) as -> by congruence.
  destruct (release_cases s _ key0 p o s' b Hr Hk Hv E) as [(-> & Hne & ->)|(-> & He & Hvals & Hobjs & Hget)].
  - split_and!; [|exact (live_count s p o _ _ Hv Hl)|done|].
    + intros k' o' Hn' _. exact (names_count s p o _ _ k' o' Hv Hn').
    + intros o' Ho'. destruct (Hob o' Ho') as [k' Hk']. exists k'. exact (names_count s p o _ _ k' o' Hv Hk').
  - assert (Hkeep : forall k' o', names s k' o' -> k' <> of_cstr key0 -> names s' k' o').
    { intros k' o' (q & m & y & Hk' & Hq & Hy & Hky) Hne. exists q, m, y.
      assert (p <> q) by (intros ->; apply Hne; by eapply (s_inj_p _ _ _ Hr)).
      assert (o <> o') by (intros ->; apply Hne; by eapply (s_inj _ _ _ Hr)).
      rewrite Hget, Hvals, Hobjs, !lookup_delete_ne by done. split_and!; try done.
      destruct (eqb k' (of_cstr key0)) eqn:Eq; [by apply eqb_spec in Eq|done]. }
    split_and!.
    + intros k' o' Hn' [Hne|?]; [by apply Hkeep|done].
    + intros k' q o' m Hq Hv'. rewrite Hget in Hq. destruct (eqb k' (of_cstr key0)) eqn:Eq; [done|].
      apply Hkeep; [|intros ->; by rewrite (proj2 (eqb_spec _ _) eq_refl) in Eq].
      rewrite Hvals in Hv'. apply lookup_delete_Some in Hv' as [_ Hv']. by eapply Hl.
    + intros _. rewrite Hobjs. apply lookup_delete_eq.
    + intros o' Ho'. rewrite Hobjs in Ho'. destruct (decide (o = o')) as [<-|Hne]; [rewrite lookup_delete_eq in Ho'; by destruct Ho'|].
      rewrite lookup_delete_ne in Ho' by done. destruct (Hob o' Ho') as [k' Hk']. exists k'. apply Hkeep; [done|].
      intros ->. destruct Hk' as (q & m & y & Hq & Hm & _). congruence.
Qed.

(** Closing a file that is open takes one reference; the object goes with the last
    one. *)
Lemma close_spec (s : @store T) f1 f2 k o :
  inv s (f1 ++ (k, o) :: f2) ->
  exists s' b, doClose s o = Some (s', b) /\ inv s' (f1 ++ f2)
    /\ b = (count k (f1 ++ f2) =? 0) /\ (b = true -> objs s' !! o = None).
Proof.
  intros Hi. assert (Hi' := Hi). destruct Hi' as [Hr Hn Hl Hob]. set (files := f1 ++ (k, o) :: f2) in *.
  assert (Hfs : Forall (fun f => names s f.1 f.2) f1 /\ names s k o /\ Forall (fun f => names s f.1 f.2) f2)
    by (apply Forall_app in Hn as [? [? ?]%Forall_cons]; done).
  destruct Hfs as (Hf1 & Hko & Hf2). assert (Hko' := Hko). destruct Hko' as (p & n & x & Hk & Hp & Ho & Hx).
  unfold doClose. rewrite Ho. cbn [mbind option_bind].
  destruct (release_spec N N_pos s _ (key x) Hr) as (s' & b & E & Hb & Hr' & _). rewrite Hx in Hb, Hr'.
  destruct (release_names s files k o s' b (key x) Hi Hko Hx E) as (Hnames & Hlive & Hgone & Hob').
  pose proof (count_remove k k o f1 f2) as Hcr. fold files in Hcr. rewrite decide_True in Hcr by done.
  assert (Hb' : b = (count k (f1 ++ f2) =? 0)).
  { rewrite Hb, Hcr. destruct (Z.eqb_spec (count k files) 1), (Z.eqb_spec (count k files - 1) 0); done || lia. }
  assert (Hstill : forall f, f ∈ f1 ++ f2 -> names s f.1 f.2 -> names s' f.1 f.2).
  { intros f Hin Hf. apply Hnames; [done|]. destruct b; [left|by right]. intros Ek. symmetry in Hb'. apply Z.eqb_eq in Hb'.
    unfold count in Hb'. assert (Hin' : f ∈ filter (fun f => f.1 = k) (f1 ++ f2)) by (by apply list_elem_of_filter).
    destruct (filter _ (f1 ++ f2)); [by apply elem_of_nil in Hin'|cbn in Hb'; lia]. }
  exists s', b. split; [done|]. split; [|by split]. split; [| |done|done].
  - eapply srep_ext; [|exact Hr']. intros k'. cbn. pose proof (count_remove k' k o f1 f2) as Hcr'. fold files in Hcr'.
    assert (0 <= count k (f1 ++ f2)) by (unfold count; lia).
    destruct (decide (k = k')) as [<-|Hne']; [rewrite upd_same|rewrite upd_other by done]; lia.
  - apply list.Forall_forall. intros f Hin. apply Hstill; [done|]. apply elem_of_app in Hin as [Hin|Hin];
      [by apply (proj1 (list.Forall_forall _ _) Hf1)|by apply (proj1 (list.Forall_forall _ _) Hf2)].
Qed.

(** An operation on an object that keeps its name. *)
Definition set_obj (s : @store T) (o : nat) (x : T) : store :=
  mkStore (mHash s) (vals s) (<[o := x]> (objs s)) (brk s).

Lemma set_obj_inv s files o x y :
  inv s files -> objs s !! o = Some x -> key y = key x -> inv (set_obj s o y) files.
Proof.
  intros [Hr Hn Hl Hob] Ho Hy.
  assert (Hnames : forall k o', names s k o' -> names (set_obj s o y) k o').
  { intros k o' (p & n & z & Hk & Hp & Hz & Hkz). unfold names. cbn. destruct (decide (o = o')) as [<-|Hne].
    - exists p, n, y. rewrite lookup_insert_eq. rewrite Ho in Hz. simplify_eq. split_and!; try done. by rewrite Hy.
    - exists p, n, z. by rewrite lookup_insert_ne. }
  split.
  - destruct Hr as [H1 H2 H3 H4 H5]. split; auto. intros k p Hk. destruct (H2 k p Hk) as (o' & z & Hv & Hz & Hc & Hb1 & Hb2).
    cbn. destruct (decide (o = o')) as [<-|Hne].
    + exists o, y. by rewrite lookup_insert_eq.
    + exists o', z. by rewrite lookup_insert_ne.
  - eapply list.Forall_impl; [exact Hn|]. intros f. apply Hnames.
  - intros k p o' n Hk Hp. apply Hnames. by eapply Hl.
  - intros o' Ho'. cbn in Ho'. destruct (decide (o = o')) as [<-|Hne].
    + destruct (Hob o (mk_is_Some _ _ Ho)) as [k Hk]. exists k. by apply Hnames.
    + rewrite lookup_insert_ne in Ho' by done. destruct (Hob o' Ho') as [k Hk]. exists k. by apply Hnames.
Qed.

(** The objects are those of the files that are open. *)
Lemma live_iff_open s files o :
  inv s files -> is_Some (objs s !! o) <-> exists k, (k, o) ∈ files.
Proof.
  intros Hi. split.
  - intros Ho. destruct (inv_objs _ _ Hi o Ho) as [k Hk]. exists k.
    assert (Hk' := Hk). destruct Hk' as (p & n & x & Hp & Hv & _).
    destruct (s_live _ _ _ (inv_rep _ _ Hi) k p Hp) as (o1 & y & Hv1 & _ & Hc & _).
    unfold count in Hc. destruct (filter (fun f => f.1 = k) files) as [|[k1 o2] l] eqn:E; [cbn in Hc; lia|].
    assert (Hin : (k1, o2) ∈ filter (fun f => f.1 = k) files) by (rewrite E; left).
    apply list_elem_of_filter in Hin as [Hk1 Hin]. cbn in Hk1. subst k1.
    pose proof (proj1 (list.Forall_forall _ _) (inv_names _ _ Hi) _ Hin) as Hn2. cbn in Hn2.
    by rewrite (proj1 (names_functional s files k k o o2 Hi Hk Hn2) eq_refl).
  - intros [k Hin]. destruct (proj1 (list.Forall_forall _ _) (inv_names _ _ Hi) _ Hin) as (p & n & x & _ & _ & Ho & _).
    by exists x.
Qed.
End Fs.
End NamedFs.

(** What a call of [ioctl] does: return a number, return 1 having filled the caller's
    [semaphore_info_t], or put the caller to sleep. *)
Inductive answer := Ret (v : Z) | Info (value max : Z) | Sleeps.

(** What the file systems need of their objects. *)
Class SynchObject (T Args : Type) := {
  make : option string -> Args -> T;
  key : T -> option string;
  ioctl : Kernel.kernel -> T -> Z -> Z -> option (answer * T * Kernel.kernel);
  (** the rest of a call that slept *)
  ioctl_wake : Kernel.kernel -> T -> Z -> option (answer * T * Kernel.kernel);
  key_make k a : key (make k a) = k;
  key_ioctl k x a b r x' k' : ioctl k x a b = Some (r, x', k') -> key x' = key x;
  key_wake k x a r x' k' : ioctl_wake k x a = Some (r, x', k') -> key x' = key x }.

Module SemaphoreFS.
Import Kernel.

(** [Semaphore] with its [mKey]. *)
Record named := mkNamed { mKey : option string; sema : Semaphore.semaphore }.

Definition IOCTL_SEMAPHORE_WAIT : Z := 0x5EA01111.
Definition IOCTL_SEMAPHORE_SIGNAL : Z := 0x5EA02222.
Definition IOCTL_SEMAPHORE_GET_INFO : Z := 0x5EA03333.
Definition IOCTL_SEMAPHORE_SET_MAX : Z := 0x5EA03334.

(** [makeOrNull(name, 0, 1)]; the argument is the wait queue of the new object *)
Definition makeSemaphore (name : option string) (wq : Z) : named :=
  mkNamed name (Semaphore.mkSemaphore 0 1 wq).

Definition fileIoctl (k : kernel) (x : named) (a b : Z) : option (answer * named * kernel) :=
  let s := sema x in
  if a =? IOCTL_SEMAPHORE_SIGNAL then
    '(s, k) ← Semaphore.signal k s; Some (Ret 1, mkNamed (mKey x) s, k)
  else if a =? IOCTL_SEMAPHORE_WAIT then
    '(o, s, k) ← Semaphore.wait k s 0;
    Some (match o with Done _ => Ret 1 | Blocked => Sleeps end, mkNamed (mKey x) s, k)
  else if a =? IOCTL_SEMAPHORE_GET_INFO then Some (Info (Semaphore.mValue s) (Semaphore.mMaxValue s), x, k)
  else if a =? IOCTL_SEMAPHORE_SET_MAX then Some (Ret 1, mkNamed (mKey x) (Semaphore.set_max s b), k)
  else Some (Ret 0, x, k).

(** only [wait] sleeps *)
Definition fileWake (k : kernel) (x : named) (a : Z) : option (answer * named * kernel) :=
  if a =? IOCTL_SEMAPHORE_WAIT then
    '(o, s, k) ← Semaphore.resume k (sema x) 0;
    Some (match o with Done _ => Ret 1 | Blocked => Sleeps end, mkNamed (mKey x) s, k)
  else Some (Ret 0, x, k).

#[global] Instance semaphore_object : SynchObject named Z.
Proof.
  refine {| make := makeSemaphore; key := mKey; ioctl := fileIoctl; ioctl_wake := fileWake |}.
  - done.
  - unfold fileIoctl. intros k x a b r x' k' H. repeat case_match; simplify_option_eq; repeat case_match; by simplify_eq.
  - unfold fileWake. intros k x a r x' k' H. repeat case_match; simplify_option_eq; repeat case_match; by simplify_eq.
Defined.
End SemaphoreFS.

Module MutexFS.
Import Kernel.

Record named := mkNamed { mKey : option string; mtx : Mutex.mutex }.

Definition IOCTL_MUTEX_LOCK : Z := 0x561410C7.
Definition IOCTL_MUTEX_UNLOCK : Z := 0x561410C8.
Definition IOCTL_MUTEX_TRYLOCK : Z := 0x561410C9.

(** The constructor leaves [mPid] as the heap has it: it is part of the argument. *)
Definition makeMutex (name : option string) (a : nat * Z) : named :=
  mkNamed name (Mutex.mkMutex false a.1 a.2).

Definition fileIoctl (k : kernel) (x : named) (a _b : Z) : option (answer * named * kernel) :=
  if a =? IOCTL_MUTEX_LOCK then
    '(o, m, k) ← Mutex.wait k (mtx x) 0;
    Some (match o with Done _ => Ret 1 | Blocked => Sleeps end, mkNamed (mKey x) m, k)
  else if a =? IOCTL_MUTEX_UNLOCK then
    '(m, k) ← Mutex.unlock k (mtx x); Some (Ret 1, mkNamed (mKey x) m, k)
  else if a =? IOCTL_MUTEX_TRYLOCK then
    '(ok, m) ← Mutex.trylock k (mtx x); Some (Ret (if ok : bool then 1 else 0), mkNamed (mKey x) m, k)
  else Some (Ret 0, x, k).

Definition fileWake (k : kernel) (x : named) (a : Z) : option (answer * named * kernel) :=
  if a =? IOCTL_MUTEX_LOCK then
    '(o, m, k) ← Mutex.resume k (mtx x) 0;
    Some (match o with Done _ => Ret 1 | Blocked => Sleeps end, mkNamed (mKey x) m, k)
  else Some (Ret 0, x, k).

#[global] Instance mutex_object : SynchObject named (nat * Z).
Proof.
  refine {| make := makeMutex; key := mKey; ioctl := fileIoctl; ioctl_wake := fileWake |}.
  - done.
  - unfold fileIoctl. intros k x a b r x' k' H. repeat case_match; simplify_option_eq; repeat case_match; by simplify_eq.
  - unfold fileWake. intros k x a r x' k' H. repeat case_match; simplify_option_eq; repeat case_match; by simplify_eq.
Defined.

(** A process woken after somebody else has taken the mutex is told 1, although it
    does not hold it. *)
Lemma lock_answers_without_lock k x :
  PM.myWake k (Mutex.waitqueue (mtx x)) = Some true -> Mutex.mLocked (mtx x) = true ->
  fileWake k x IOCTL_MUTEX_LOCK = Some (Ret 1, x, k).
Proof.
  intros Hw Hl. unfold fileWake. cbn [Z.eqb]. rewrite Z.eqb_refl. unfold Mutex.resume. rewrite Hw. cbn. rewrite Hl. cbn.
  by destruct x.
Qed.
End MutexFS.

Module EventFS.
Import Kernel.

Record named := mkNamed { mKey : option string; event : Event.event }.

Definition IOCTL_EVENT_RAISE : Z := 0xE117AAAA.
Definition IOCTL_EVENT_LOWER : Z := 0xE117BBBB.

Definition makeEvent (name : option string) (wq : Z) : named := mkNamed name (Event.mkEvent false wq).

Definition fileIoctl (k : kernel) (x : named) (a b : Z) : option (answer * named * kernel) :=
  if a =? IOCTL_EVENT_RAISE then
    '(e, k) ← Event.raise k (event x) (b =? 0); Some (Ret 1, mkNamed (mKey x) e, k)
  else if a =? IOCTL_EVENT_LOWER then Some (Ret 1, mkNamed (mKey x) (Event.lower (event x)), k)
  else Some (Ret 0, x, k).

#[global] Instance event_object : SynchObject named Z.
Proof.
  refine {| make := makeEvent; key := mKey; ioctl := fileIoctl; ioctl_wake := fun k x _ => Some (Ret 0, x, k) |}.
  - done.
  - unfold fileIoctl. intros k x a b r x' k' H. repeat case_match; simplify_option_eq; repeat case_match; by simplify_eq.
  - intros. by simplify_eq.
Defined.
End EventFS.

(** ** Runs

    Processes open and close names and operate on what they have open, in any order. *)
Module FsRuns.
Import KStr KeyedStore NamedFs.

Section Runs.
Context {T Args : Type} `{O : SynchObject T Args} (N : nat).

Record sys := mkSys { kern : Kernel.kernel; objects : @store T; opened : list (kstring * nat) }.

Inductive step : sys -> sys -> Prop :=
  | s_open σ name args s o :
      (** reference counts are [uint32_t] *)
      Z.of_nat (length (opened σ)) + 1 < 2 ^ 32 ->
      doOpen make N args (objects σ) name = Some (s, Some o) ->
      step σ (mkSys (kern σ) s ((of_cstr (Some name), o) :: opened σ))
  | s_close σ f1 k o f2 s erased :
      opened σ = f1 ++ (k, o) :: f2 -> doClose key N (objects σ) o = Some (s, erased) ->
      step σ (mkSys (kern σ) s (f1 ++ f2))
  | s_ioctl σ k o x a b r x' k' :
      (k, o) ∈ opened σ -> objs (objects σ) !! o = Some x -> ioctl (kern σ) x a b = Some (r, x', k') ->
      step σ (mkSys k' (set_obj (objects σ) o x') (opened σ))
  | s_wake σ k o x a r x' k' :
      (k, o) ∈ opened σ -> objs (objects σ) !! o = Some x -> ioctl_wake (kern σ) x a = Some (r, x', k') ->
      step σ (mkSys k' (set_obj (objects σ) o x') (opened σ))
  | s_kernel σ k' : step σ (mkSys k' (objects σ) (opened σ)).

Inductive reachable : sys -> Prop :=
  | r_init k : reachable (mkSys k (KeyedStore.new N) [])
  | r_step σ σ' : reachable σ -> step σ σ' -> reachable σ'.

Context (N_pos : (0 < N)%nat).

Lemma runs_inv σ : reachable σ -> inv key N (objects σ) (opened σ).
Proof.
  induction 1 as [k|σ σ' _ IH Hs]; [by apply inv_new|].
  destruct Hs as [σ name args s o Hlen E|σ f1 k o f2 s b Ef E|σ k o x a b r x' k' _ Ho E|σ k o x a r x' k' _ Ho E|σ k']; cbn.
  - destruct (open_spec make key N args N_pos key_make _ _ name IH Hlen) as (s' & o' & E' & Hi & _).
    rewrite E in E'. by simplify_eq.
  - rewrite Ef in IH. destruct (close_spec key N N_pos _ _ _ _ _ IH) as (s' & b' & E' & Hi & _).
    rewrite E in E'. by simplify_eq.
  - eapply set_obj_inv; [done|done|]. by eapply key_ioctl.
  - eapply set_obj_inv; [done|done|]. by eapply key_wake.
  - done.
Qed.
End Runs.
End FsRuns.

Module SynchFsThms.
Import KStr KeyedStore NamedFs FsRuns.

(** C23: /semaphores, /mutexes and /events share objects by name.  Over any interleaving of
    opens, closes, ioctls and kernel activity: two open files have the same object exactly
    when they were opened by the same name; the objects in memory are exactly those some
    open file has, so none leaks and none is freed while in use; an open always succeeds;
    and a close always succeeds and frees the object exactly when no other file has the
    name. *)
Theorem named_objects_are_shared {T Args} {O : SynchObject T Args} (N : nat) (σ : @sys T) :
  (0 < N)%nat -> @reachable T Args O N σ ->
  (forall k o k' o', (k, o) ∈ opened σ -> (k', o') ∈ opened σ -> k = k' <-> o = o')
  /\ (forall o, is_Some (objs (objects σ) !! o) <-> exists k, (k, o) ∈ opened σ)
  /\ (forall name args, Z.of_nat (length (opened σ)) + 1 < 2 ^ 32 ->
        exists s o, doOpen make N args (objects σ) name = Some (s, Some o)
          /\ ((exists o', (of_cstr (Some name), o') ∈ opened σ) -> (of_cstr (Some name), o) ∈ opened σ))
  /\ (forall f1 k o f2, opened σ = f1 ++ (k, o) :: f2 ->
        exists s erased, doClose key N (objects σ) o = Some (s, erased)
          /\ (erased = true <-> forall o', (k, o') ∉ f1 ++ f2) /\ (erased = true -> objs s !! o = None)).
Proof.
  intros HN Hr. apply (runs_inv N HN) in Hr as Hi.
  assert (Hnm : forall k o, (k, o) ∈ opened σ -> names key N (objects σ) k o).
  { intros k o Hin. exact (proj1 (list.Forall_forall _ _) (inv_names _ _ _ _ Hi) _ Hin). }
  split_and!.
  - intros k o k' o' H1 H2. eapply names_functional; eauto.
  - intros o. by eapply live_iff_open.
  - intros name args Hlen. destruct (open_spec make key N args HN key_make _ _ name Hi Hlen) as (s & o & E & Hi' & _).
    exists s, o. split; [done|]. intros [o' Ho'].
    destruct (Hnm _ _ Ho') as (p & _ & _ & Hp & _).
    destruct (open_existing key N HN _ _ (Some name) p Hi Hlen Hp) as (s2 & o2 & E2 & _ & Hn2).
    unfold doOpen, getOrCreate in E. rewrite E2 in E. cbn in E. simplify_eq.
    by rewrite <- (proj1 (names_functional key N _ _ _ _ _ _ Hi (Hnm _ _ Ho') Hn2) eq_refl).
  - intros f1 k o f2 E. rewrite E in Hi. destruct (close_spec key N HN _ _ _ _ _ Hi) as (s & b & Ec & _ & Hb & Hgone).
    exists s, b. split; [done|]. split; [|done]. rewrite Hb, Z.eqb_eq. unfold count.
    split.
    + intros H0 o' Hin. assert (Hin' : (k, o') ∈ filter (fun f => f.1 = k) (f1 ++ f2)) by (by apply list_elem_of_filter).
      destruct (filter _ (f1 ++ f2)); [by apply elem_of_nil in Hin'|cbn in H0; lia].
    + intros Hno. destruct (filter (fun f => f.1 = k) (f1 ++ f2)) as [|[k1 o1] l] eqn:Ef; [done|].
      assert (Hin' : (k1, o1) ∈ filter (fun f => f.1 = k) (f1 ++ f2)) by (rewrite Ef; left).
      apply list_elem_of_filter in Hin' as [Hk1 Hin']. cbn in Hk1. subst k1. by destruct (Hno o1).
Qed.

(** Two files on the mutex "a" and one on "b": the process of the small system locks "a"
    through the first file, and the other file on "a" has the locked mutex. *)
Definition s0 : @sys MutexFS.named := mkSys Demo.k3 (KeyedStore.new 4) [].

Definition opens (σ : @sys MutexFS.named) (name : string) (args : nat * Z) : sys :=
  match doOpen make 4 args (objects σ) name with
  | Some (s, Some o) => mkSys (kern σ) s ((of_cstr (Some name), o) :: opened σ)
  | _ => σ
  end.

Lemma opens_reachable σ name args :
  @reachable _ _ MutexFS.mutex_object 4 σ -> Z.of_nat (length (opened σ)) + 1 < 2 ^ 32 ->
  @reachable _ _ MutexFS.mutex_object 4 (opens σ name args).
Proof.
  intros Hr Hlen. unfold opens. destruct (doOpen make 4 args (objects σ) name) as [[s [o|]]|] eqn:E; [|done|done].
  eapply r_step; [done|]. by eapply s_open.
Qed.

Definition s3 : @sys MutexFS.named := opens (opens (opens s0 "a" (0%nat, 31)) "b" (0%nat, 32)) "a" (0%nat, 33).

Definition locks (σ : @sys MutexFS.named) (o : nat) : @sys MutexFS.named :=
  match x ← objs (objects σ) !! o; ioctl (kern σ) x MutexFS.IOCTL_MUTEX_LOCK 0 with
  | Some (_, x', k') => mkSys k' (set_obj (objects σ) o x') (opened σ)
  | None => σ
  end.

Lemma locks_reachable σ k o :
  @reachable _ _ MutexFS.mutex_object 4 σ -> (k, o) ∈ opened σ -> @reachable _ _ MutexFS.mutex_object 4 (locks σ o).
Proof.
  intros Hr Hin. unfold locks. destruct (objs (objects σ) !! o) as [x|] eqn:Ho; cbn [mbind option_bind]; [|done].
  destruct (ioctl (kern σ) x MutexFS.IOCTL_MUTEX_LOCK 0) as [[[r x'] k']|] eqn:E; [|done].
  eapply r_step; [done|]. by eapply s_ioctl.
Qed.

Lemma named_objects_are_shared_witness :
  exists oa ob, opened (locks s3 oa) = [(of_cstr (Some "a"), oa); (of_cstr (Some "b"), ob); (of_cstr (Some "a"), oa)]
    /\ (x ← objs (objects (locks s3 oa)) !! oa; Some (Mutex.mLocked (MutexFS.mtx x))) = Some true
    /\ oa <> ob.
Proof.
  assert (E : opened (locks s3 0) = [(of_cstr (Some "a"), 0%nat); (of_cstr (Some "b"), 2%nat); (of_cstr (Some "a"), 0%nat)])
    by (vm_compute; reflexivity).
  exists 0%nat, 2%nat. split; [exact E|]. split; [vm_compute; reflexivity|].
  assert (Hr : @reachable _ _ MutexFS.mutex_object 4 (locks s3 0)).
  { apply (locks_reachable _ (of_cstr (Some "a"))); [|left].
    repeat (apply opens_reachable; [|vm_compute; reflexivity]). apply r_init. }
  destruct (@named_objects_are_shared _ _ MutexFS.mutex_object 4 _ ltac:(lia) Hr) as [Hs _]. rewrite E in Hs.
  intros Heq. assert (Hab : of_cstr (Some "a") = of_cstr (Some "b")); [|discriminate].
  apply (Hs _ 0%nat _ 2%nat); [left|right; left|exact Heq].
Defined.
End SynchFsThms.
