(* ===== verification/Machine.v ===== *)
(** The hardware the kernel programs: [IoPorts] (src/i386/ioports.cpp and
    src/drivers/ioports/ioports.cpp), [Pic] (src/drivers/pic/pic.cpp), [Rtc]
    (src/drivers/rtc/rtc.cpp), [Pit] (src/drivers/pit/pit.cpp), [Idt]
    (src/i386/idt.cpp, idt.h, idt_setup.cpp, idt_file.cpp and the exceptions of
    src/process/exceptions.cpp), [Mtrr] (src/i386/mtrr.cpp), [Pci]
    (src/drivers/pci/bus.cpp).

    The machine behind the ports is a state of its own; the class [Ports] has the
    instructions the kernel uses. *)

From Stdlib Require Import ZArith Lia.
From stdpp Require Import base list option gmap sets.
From S2P Require Import Prelude Tables Time Files Kernel Lifecycle Virt Timer.

#[local] Open Scope Z_scope.

(** [in] and [out] *)
Class Ports (W : Type) := {
  inb : Z -> W -> Z * W;
  outb : Z -> Z -> W -> W;
  inl_ : Z -> W -> Z * W;
  outl : Z -> Z -> W -> W }.

(** ** IOPortsManager *)
Module IoPorts.

(** The allocated ports. *)
Abbreviation manager := (gset Z).

Definition isPortFree (m : manager) (port : Z) : bool := negb (bool_decide (port ∈ m)).
Definition allocatePort (m : manager) (port : Z) : bool * manager :=
  if isPortFree m port then (true, {[ port ]} ∪ m) else (false, m).
Definition freePort (m : manager) (port : Z) : bool * manager :=
  if isPortFree m port then (false, m) else (true, m ∖ {[ port ]}).
Definition getPort (m : manager) (port : Z) : option Z := if isPortFree m port then None else Some port.

(** The open port of an [IOPortFile]; reads and writes of 1, 2 or 4 bytes. *)
Definition width (n : Z) : bool := (n =? 1) || (n =? 2) || (n =? 4).

(** [ioctl(X86_IOPORT_OPEN, b)]: the port, a file for it, a descriptor in the
    current process; the answer is -1 or the descriptor. *)
Definition open_port (m : manager) (fds : Handletable.table FsObject.handle) (h : FsObject.handle) (b : Z)
    : option (Z * manager * Handletable.table FsObject.handle) :=
  let portnum := u16 b in
  let '(ok, m) := allocatePort m portnum in
  if negb ok then Some (u32 (-1), m, fds)
  else
    '(r, fds) ← Handletable.set 64 fds h 0;
    match r with
    | Some descriptor => Some (Z.of_nat descriptor, m, fds)
    | None => Some (u32 (-1), m, fds)
    end.

(** closing the file *)
Definition close_port (m : manager) (port : Z) : manager := snd (freePort m port).

End IoPorts.

(** ** The interrupt controllers *)
Module Pic.
Section Pic.
Context {W : Type} `{Ports W}.

Definition gEndOfInterrupt : Z := 0x20.
Definition commandPort (pic : Z) : Z := if pic =? 0 then 0x20 else 0xA0.
Definition dataPort (pic : Z) : Z := if pic =? 0 then 0x21 else 0xA1.
Definition gOffset (pic : Z) : Z := u8 (0x40 + 8 * pic).
Definition gIRQNumber (irq : Z) : Z := u8 (0x40 + irq).

Definition eoi (irq : Z) (w : W) : W :=
  let w := if irq >=? 8 then outb (commandPort 1) gEndOfInterrupt w else w in
  outb (commandPort 0) gEndOfInterrupt w.

(** the controller and the line of an interrupt *)
Definition split_irq (irq : Z) : Z * Z := if irq <? 8 then (0, irq) else (1, u8 (irq - 8)).

Definition ignore (irq : Z) (w : W) : W :=
  let '(pic, line) := split_irq irq in
  let '(data, w) := inb (dataPort pic) w in
  outb (dataPort pic) (u8 (Z.lor data (Z.shiftl 1 line))) w.

Definition accept (irq : Z) (w : W) : W :=
  let '(pic, line) := split_irq irq in
  let '(data, w) := inb (dataPort pic) w in
  outb (dataPort pic) (u8 (Z.land data (Z.lnot (Z.shiftl 1 line)))) w.

Definition irr (pic : Z) (w : W) : Z * W := inb (commandPort pic) (outb (commandPort pic) 0x0A w).
Definition isr (pic : Z) (w : W) : Z * W := inb (commandPort pic) (outb (commandPort pic) 0x0B w).

(** The constructor, with the ports it reserves. *)
Definition new (m : IoPorts.manager) (w : W) : IoPorts.manager * W :=
  let m := snd (IoPorts.allocatePort m (dataPort 0)) in
  let m := snd (IoPorts.allocatePort m (dataPort 1)) in
  let '(a0, w) := inb (dataPort 0) w in
  let '(a1, w) := inb (dataPort 1) w in
  let w := outb (commandPort 0) 0x11 w in
  let w := outb (commandPort 1) 0x11 w in
  let w := outb (dataPort 0) (gOffset 0) w in
  let w := outb (dataPort 1) (gOffset 1) w in
  let w := outb (dataPort 0) 4 w in
  let w := outb (dataPort 1) 2 w in
  let w := outb (dataPort 0) 1 w in
  let w := outb (dataPort 1) 1 w in
  let w := outb (dataPort 0) a0 w in
  let w := outb (dataPort 1) a1 w in
  let w := foldl (fun w i => ignore i w) w (seqZ 0 16) in
  (m, accept 2 w).

End Pic.
End Pic.

(** ** The clock *)
Module Rtc.
Import Calendar.

(** [cmos_now_t] *)
Record cmos_now_t := mkNow { hour : Z; minute : Z; second : Z; day : Z; month : Z; year : Z }.

#[global] Instance cmos_eq_dec : EqDecision cmos_now_t.
Proof. solve_decision. Defined.

Definition timestamp (n : cmos_now_t) : option Z :=
  d ← date_components_to_epoch (mkDate (day n) (month n) (year n));
  Some (u64 (d + time_components_to_epoch (mkTime (hour n) (minute n) (second n)))).

Section Read.
Context {W : Type} `{Ports W}.

Definition gSelectPort : Z := 0x70.
Definition gDataPort : Z := 0x71.
Definition gNMI : Z := 0x80.
Definition gSecondsRegister : Z := 0x00.
Definition gMinutesRegister : Z := 0x02.
Definition gHoursRegister : Z := 0x04.
Definition gDayRegister : Z := 0x07.
Definition gMonthRegister : Z := 0x08.
Definition gYearRegister : Z := 0x09.
Definition gStatusRegisterA : Z := 0x0A.
Definition gStatusRegisterB : Z := 0x0B.
Definition gStatusRegisterC : Z := 0x0C.

Definition read (reg : Z) (w : W) : Z * W := inb gDataPort (outb gSelectPort (Z.lor reg gNMI) w).
Definition write (reg value : Z) (w : W) : W := outb gDataPort value (outb gSelectPort (Z.lor reg gNMI) w).
Definition updating (w : W) : bool * W :=
  let '(a, w) := read gStatusRegisterA w in (negb (Z.land 0x80 a =? 0), w).

Definition now (w : W) : cmos_now_t * W :=
  let '(h, w) := read gHoursRegister w in
  let '(mi, w) := read gMinutesRegister w in
  let '(s, w) := read gSecondsRegister w in
  let '(d, w) := read gDayRegister w in
  let '(mo, w) := read gMonthRegister w in
  let '(y, w) := read gYearRegister w in
  (mkNow h mi s d mo y, w).

(** [while(updating());] for at most [fuel] rounds *)
Fixpoint wait_update (fuel : nat) (w : W) : option W :=
  match fuel with
  | O => None
  | S fuel => let '(u, w) := updating w in if (u : bool) then wait_update fuel w else Some w
  end.

(** Two equal readings in a row. *)
Fixpoint steady (fuel : nat) (w : W) : option (cmos_now_t * W) :=
  match fuel with
  | O => None
  | S fuel =>
      w ← wait_update fuel w;
      let '(now1, w) := now w in
      w ← wait_update fuel w;
      let '(now2, w) := now w in
      if bool_decide (now1 = now2) then Some (now1, w) else steady fuel w
  end.

Definition bcd_to_binary (bcd : Z) : Z := Z.land bcd 0x0F + bcd / 16 * 10.

(** What the constructor makes of the registers; bytes stay bytes. *)
Definition adjust (binary militarytime : bool) (n : cmos_now_t) : cmos_now_t :=
  if binary then n
  else
    let n := mkNow (u8 (bcd_to_binary (hour n))) (u8 (bcd_to_binary (minute n))) (u8 (bcd_to_binary (second n)))
                   (u8 (bcd_to_binary (day n))) (u8 (bcd_to_binary (month n))) (u16 (bcd_to_binary (year n))) in
    let h := if militarytime then hour n
             else if hour n =? 12 then 0
             else if negb (Z.land (hour n) 0x80 =? 0) then u8 (12 + Z.land (hour n) 0x7F)
             else hour n in
    mkNow h (minute n) (second n) (day n) (month n)
          (u16 (if year n >=? 18 then year n + 2000 else year n + 2100)).

(** The constructor: the time at boot; then interrupts twice a second. *)
Definition new (fuel : nat) (m : IoPorts.manager) (w : W) : option (option Z * IoPorts.manager * W) :=
  let m := snd (IoPorts.allocatePort m gSelectPort) in
  let m := snd (IoPorts.allocatePort m gDataPort) in
  let '(regb, w) := read gStatusRegisterB w in
  let militarytime := negb (Z.land regb 2 =? 0) in
  let binary := negb (Z.land regb 4 =? 0) in
  '(rightnow, w) ← steady fuel w;
  let boot := timestamp (adjust binary militarytime rightnow) in
  let '(regA, w) := read gStatusRegisterA w in
  let w := write gStatusRegisterA (Z.lor regA 0xF) w in
  let '(regB, w) := read gStatusRegisterB w in
  let w := write gStatusRegisterB (Z.lor regB 0x40) w in
  let '(_, w) := read gStatusRegisterC w in
  Some (boot, m, w).

(** [rtchandler]: [gIncrement] alternates *)
Definition rtchandler {F} (gIncrement : Z) (tm : @Timer.manager F) (w : W) : Z * @Timer.manager F * W :=
  let w := outb gSelectPort (Z.lor gNMI gStatusRegisterC) w in
  let '(_, w) := inb gDataPort w in
  let tm := Timer.UNIXtimeIncrement tm gIncrement in
  (u8 (1 - gIncrement), tm, Pic.eoi 8 w).

End Read.
End Rtc.

(** ** The timer *)
Module Pit.
Section Pit.
Context {W F S G : Type} `{Ports W}.
(** The tick handlers of the time manager, and the functions of the timer itself with
    the system they act on. *)
Context (call : F -> Z -> S -> option (bool * S)) (pit_call : G -> Z -> S -> bool * S).
Context `{EqDecision G}.

Definition gNumFunctions : nat := 5.
Definition gCommandPort : Z := 0x43.
Definition gDataPort : Z := 0x40.
Definition gTickDuration : Z := 10.

Fixpoint addInterruptFunction (fs : list (option G)) (f : G) : bool * list (option G) :=
  match fs with
  | [] => (false, [])
  | None :: fs => (true, Some f :: fs)
  | Some g :: fs => let '(ok, fs) := addInterruptFunction fs f in (ok, Some g :: fs)
  end.
Definition removeInterruptFunction (fs : list (option G)) (f : G) : list (option G) :=
  map (fun g => if bool_decide (g = Some f) then None else g) fs.

Fixpoint run_functions (fs : list (option G)) (now : Z) (s : S) : list (option G) * S :=
  match fs with
  | [] => ([], s)
  | None :: fs => let '(fs, s) := run_functions fs now s in (None :: fs, s)
  | Some f :: fs =>
      let '(keep, s) := pit_call f now s in
      let '(fs, s) := run_functions fs now s in
      ((if (keep : bool) then Some f else None) :: fs, s)
  end.

(** [timer]: whether the process is to yield *)
Definition timer (tm : @Timer.manager F) (fs : list (option G)) (s : S) (w : W)
    : option (bool * @Timer.manager F * list (option G) * S * W) :=
  let w := Pic.eoi 0 w in
  '(decision, tm, s) ← Timer.tick call tm s;
  let '(fs, s) := run_functions fs (Timer.millisUptime tm) s in
  Some (decision, tm, fs, s, w).

(** The divisor the constructor programs. *)
Definition new (w : W) : W := outb gDataPort 0x2E (outb gDataPort 0x9B (outb gCommandPort 0x34 w)).
Definition divisor : Z := Z.lor (Z.shiftl 0x2E 8) 0x9B.

End Pit.
End Pit.

(** ** Interrupts *)
Module Idt.

Definition IRQ_RESPONSE_NONE : Z := 0.
Definition IRQ_RESPONSE_YIELD : Z := Z.shiftl 1 1.
Definition IRQ_RESPONSE_WAKE : Z := Z.shiftl 1 2.

(** [Interrupts::Entry] *)
Record Entry := mkEntry { mOffsetLow : Z; mSelector : Z; mReserved : Z; mInfo : Z; mOffsetHigh : Z }.

Definition flags (userspace mask : bool) : Z :=
  Z.lor (if mask then 0x0E else 0x0F) (if userspace then 0xE0 else 0x80).
Definition entry (handler : Z) (userspace mask : bool) : Entry :=
  mkEntry (Z.land handler 0xFFFF) 8 0 (flags userspace mask) (Z.shiftr (Z.land handler 0xFFFF0000) 16).

(** [handler_t]; [wq] is the address of a wait queue, 0 for none *)
Record handler_t (F : Type) := mkHandler { func : option F; name : list Z; wq : Z; count : Z }.
Arguments mkHandler {F} _ _ _ _.
Arguments func {F} _.
Arguments name {F} _.
Arguments wq {F} _.
Arguments count {F} _.

Section Idt.
(** A handler of the kernel: its answer and the state after it, or no answer when it
    does not come back ([reaper], [panic]). *)
Context {F K : Type} (run : F -> K -> (Z * K) + K).

Record interrupts := mkInterrupts {
  mEntries : list Entry; mHandlers : list (handler_t F); mCliCount : Z; gIRQDepthCounter : Z;
  eflags_if : bool  (* the interrupt flag of the processor *) }.

Definition with_handlers i l : interrupts :=
  mkInterrupts (mEntries i) l (mCliCount i) (gIRQDepthCounter i) (eflags_if i).
Definition with_depth i d : interrupts :=
  mkInterrupts (mEntries i) (mHandlers i) (mCliCount i) d (eflags_if i).
Definition with_cli i c (e : bool) : interrupts :=
  mkInterrupts (mEntries i) (mHandlers i) c (gIRQDepthCounter i) e.

(** The constructor; [stubs] are the entry points of idt.s *)
Definition new (stubs : list Z) (enabled : bool) : interrupts :=
  mkInterrupts (imap (fun n s => if (n =? 128)%nat then entry s true false else entry s false true) stubs)
    (replicate 256 (mkHandler None (replicate 16 0) 0 0)) (if enabled then 1 else 0) 0 enabled.

Definition enable i : interrupts :=
  if mCliCount i =? 0 then with_cli i 1 true
  else if mCliCount i <? 0 then with_cli i (mCliCount i + 1) (eflags_if i)
  else i.
Definition disable i : interrupts :=
  if mCliCount i =? 1 then with_cli i 0 false
  else if mCliCount i <=? 0 then with_cli i (mCliCount i - 1) (eflags_if i)
  else i.
Definition enabled i : bool := eflags_if i.

(** [strncpy] of at most 15 bytes into the cleared name *)
Definition set_name (n : list Z) : list Z := take 15 n ++ replicate (16 - length (take 15 n)) 0.

Definition sethandler i (irq : nat) (n : list Z) (f : option F) (q : Z) : interrupts :=
  with_handlers i (alter (fun h => mkHandler f (set_name n) q (count h)) irq (mHandlers i)).
Definition setWakeQueue i (irq : nat) (q : Z) : interrupts :=
  with_handlers i (alter (fun h => mkHandler (func h) (name h) q (count h)) irq (mHandlers i)).
Definition setFlags i (irq : nat) (userspace mask : bool) : interrupts :=
  mkInterrupts (alter (fun e => mkEntry (mOffsetLow e) (mSelector e) (mReserved e) (flags userspace mask) (mOffsetHigh e))
                  irq (mEntries i)) (mHandlers i) (mCliCount i) (gIRQDepthCounter i) (eflags_if i).
Definition getNumOccurrences i (irq : nat) : option Z := count <$> mHandlers i !! irq.
Definition getName i (irq : nat) : option (list Z) := name <$> mHandlers i !! irq.

(** [interrupt_handler] up to the final yield: what remains is whether to yield, or
    nothing when the handler did not come back.  [wakeall] is that of the process
    manager, [current] whether a process runs. *)
Context (wakeall : K -> Z -> option K) (current : K -> bool).

Definition interrupt_handler i (irqnumber : nat) (k : K) : option (option bool * interrupts * K) :=
  let i := with_depth i (u32 (gIRQDepthCounter i + 1)) in
  h ← mHandlers i !! irqnumber;
  let h := mkHandler (func h) (name h) (wq h) (u64 (count h + 1)) in
  let i := with_handlers i (<[irqnumber := h]> (mHandlers i)) in
  match func h with
  | None => Some (Some false, with_depth i (u32 (gIRQDepthCounter i - 1)), k)
  | Some f =>
      match run f k with
      | inr k => Some (None, i, k)
      | inl (action, k) =>
          k ← (if (Z.land action IRQ_RESPONSE_WAKE =? IRQ_RESPONSE_WAKE) && negb (wq h =? 0) then wakeall k (wq h)
               else Some k);
          let yield_on_exit := (Z.land action IRQ_RESPONSE_YIELD =? IRQ_RESPONSE_YIELD) && current k in
          Some (Some yield_on_exit, with_depth i (u32 (gIRQDepthCounter i - 1)), k)
      end
  end.

(** The file "irqs": id, name and count of each interrupt; the loop stops before
    the last of the 256 records. *)
Definition irqs_file i : list (Z * list Z * Z) :=
  imap (fun n h => if (n <? 255)%nat then (Z.of_nat n, name h, count h) else (0, [], 0)) (mHandlers i).

End Idt.
End Idt.

(** ** Exceptions *)
Module Exceptions.
Import Proc.

Record InterruptStack := mkStack { irqnumber : Z; eip : Z; cs : Z }.

Definition isKernelStack (stack : InterruptStack) : bool :=
  Virt.iskernel (eip stack) && (Z.land (cs stack) 1 =? 0).

(** The vectors whose handler is made by [EXCEPTIONHANDLER]; 7, 13 and 14 have their
    own. *)
Definition installed : list Z :=
  [0x00; 0x04; 0x05; 0x06; 0x08; 0x0A; 0x0B; 0x0C; 0x10; 0x11; 0x12; 0x13; 0x14; 0x1E].

(** [appkiller]: the status word it hands to [reaper] *)
Definition appkiller (stack : InterruptStack) : Z := toWord (mkStatus 2 (u8 (irqnumber stack))).

(** [reaper]: the process exits with the status of the word *)
Definition reaper (k : Kernel.kernel) (exitword : Z) : option Kernel.kernel :=
  Life.exit k (Kernel.gCurrentProcess k) (ofWord exitword).

(** A handler of [EXCEPTIONHANDLER]; [None]: the panic of the kernel itself *)
Definition handler (k : Kernel.kernel) (stack : InterruptStack) : option Kernel.kernel :=
  if isKernelStack stack then None else reaper k (appkiller stack).

End Exceptions.

(** ** Memory types *)
Module Mtrr.

(** the model-specific registers *)
Abbreviation msrs := (gmap Z Z).
Definition readmsr (m : msrs) (r : Z) : Z := default 0 (m !! r).
Definition writemsr (m : msrs) (r v : Z) : msrs := <[r := v]> m.

Definition gIA32_MTRRCAP : Z := 0xFE.
Definition gIA32_MTRR_DEF_TYPE : Z := 767.
Definition gIA32_MTRR_PHYS_BASE (n : nat) : Z := 0x200 + 2 * Z.of_nat n.
Definition gIA32_MTRR_PHYS_MASK (n : nat) : Z := gIA32_MTRR_PHYS_BASE n + 1.
Definition gWriteCombiningMode : Z := 1.
Definition bit11 : Z := 2 ^ 11.

Record mtrr := mkMtrr { mVCNT : nat; mWC : bool }.

Definition valid (m : msrs) (n : nat) : bool := negb (Z.land (readmsr m (gIA32_MTRR_PHYS_MASK n)) bit11 =? 0).

(** [clearVariableRanges] for ranges [i], [i]+1, ... *)
Fixpoint clear_ranges (n i : nat) (ifEnabled : bool) (m : msrs) : msrs :=
  match n with
  | O => m
  | S n =>
      let size := readmsr m (gIA32_MTRR_PHYS_MASK i) in
      let m := if ifEnabled && valid m i then writemsr m (gIA32_MTRR_PHYS_MASK i) (Z.land size (u32 (Z.lnot bit11)))
               else m in
      clear_ranges n (S i) ifEnabled m
  end.

Fixpoint next_range (n i : nat) (m : msrs) : option nat :=
  match n with
  | O => None
  | S n => if valid m i then next_range n (S i) m else Some i
  end.

(** The constructor; [None]: the panic when support cannot be enabled.  [sticks] is
    whether the processor takes the bit. *)
Definition new (sticks : bool) (m : msrs) : option (mtrr * msrs) :=
  let cap := readmsr m gIA32_MTRRCAP in
  let t := mkMtrr (Z.to_nat (Z.land cap 0xFF)) (negb (Z.land cap (2 ^ 10) =? 0)) in
  let def := readmsr m gIA32_MTRR_DEF_TYPE in
  if negb (Z.land def bit11 =? 0) then Some (t, clear_ranges (mVCNT t) 0 false m)
  else if sticks then
    let m := writemsr m gIA32_MTRR_DEF_TYPE (Z.lor def bit11) in
    Some (t, clear_ranges (mVCNT t) 0 false m)
  else None.

Definition setAsWriteCombining (t : mtrr) (m : msrs) (base size : Z) : bool * msrs :=
  if negb (mWC t) then (false, m)
  else if negb (Z.land 0xFFF base =? 0) then (false, m)
  else if negb (Z.land 0xFFF size =? 0) then (false, m)
  else match next_range (mVCNT t) 0 m with
       | None => (false, m)
       | Some id =>
           let m := writemsr m (gIA32_MTRR_PHYS_BASE id) (Z.lor base gWriteCombiningMode) in
           (true, writemsr m (gIA32_MTRR_PHYS_MASK id) (Z.lor size bit11))
       end.

(** What the processor does with a valid range: an address belongs to it when it
    agrees with the base on the bits of the mask. *)
Definition in_range (m : msrs) (n : nat) (addr : Z) : bool :=
  let mask := Z.land (readmsr m (gIA32_MTRR_PHYS_MASK n)) (Z.lnot 0xFFF) in
  valid m n && (Z.land addr mask =? Z.land (readmsr m (gIA32_MTRR_PHYS_BASE n)) mask).

End Mtrr.

(** ** PCI *)
Module Pci.

Record endpoint_t := mkEndpoint { bus : Z; slot : Z; func : Z }.
Record ident_t := mkIdent {
  vendor : Z; device : Z; status : Z; command : Z; clazz : Z; subclazz : Z; progif : Z; revision : Z;
  bist : Z; header : Z; latency : Z; cache : Z }.
Record pci_hdr_0 := mkHdr {
  endpoint : endpoint_t; ident : ident_t;
  bar0 : Z; bar1 : Z; bar2 : Z; bar3 : Z; bar4 : Z; bar5 : Z;
  cardbus : Z; subsystem : Z; subvendor : Z; rombase : Z; cap : Z; irql : Z; irqp : Z; mingrant : Z; maxlatency : Z }.

#[global] Instance endpoint_eq_dec : EqDecision endpoint_t.
Proof. solve_decision. Defined.
#[global] Instance ident_eq_dec : EqDecision ident_t.
Proof. solve_decision. Defined.

Definition address (e : endpoint_t) : Z :=
  Z.lor (Z.lor (Z.lor 0x80000000 (Z.shiftl (bus e) 16)) (Z.shiftl (slot e) 11)) (Z.shiftl (func e) 8).

Definition hi16 (w : Z) : Z := Z.shiftr (Z.land w 0xFFFF0000) 16.
Definition lo16 (w : Z) : Z := Z.land w 0xFFFF.
Definition byte3 (w : Z) : Z := Z.shiftr (Z.land w 0xFF000000) 24.
Definition byte2 (w : Z) : Z := Z.shiftr (Z.land w 0xFF0000) 16.
Definition byte1 (w : Z) : Z := Z.shiftr (Z.land w 0xFF00) 8.
Definition byte0 (w : Z) : Z := Z.land w 0xFF.

Section Pci.
Context {W : Type} `{Ports W}.

Definition gConfigAddress : Z := 0xCF8.
Definition gConfigData : Z := 0xCFC.

Definition readword (e : endpoint_t) (word : Z) (w : W) : Z * W :=
  inl_ gConfigData (outl gConfigAddress (Z.lor (address e) (Z.shiftl word 2)) w).

Definition identify (e : endpoint_t) (w : W) : ident_t * W :=
  let '(word0, w) := readword e 0 w in
  let '(word1, w) := readword e 1 w in
  let '(word2, w) := readword e 2 w in
  let '(word3, w) := readword e 3 w in
  (mkIdent (lo16 word0) (hi16 word0) (hi16 word1) (lo16 word1) (byte3 word2) (byte2 word2) (byte1 word2) (byte0 word2)
     (byte3 word3) (byte2 word3) (byte1 word3) (byte0 word3), w).

Definition fill (ep : endpoint_t) (id : ident_t) (w : W) : pci_hdr_0 * W :=
  let '(word4, w) := readword ep 4 w in
  let '(word5, w) := readword ep 5 w in
  let '(word6, w) := readword ep 6 w in
  let '(word7, w) := readword ep 7 w in
  let '(word8, w) := readword ep 8 w in
  let '(word9, w) := readword ep 9 w in
  let '(word10, w) := readword ep 10 w in
  let '(word11, w) := readword ep 11 w in
  let '(word12, w) := readword ep 12 w in
  let '(word13, w) := readword ep 13 w in
  let '(word15, w) := readword ep 15 w in
  (mkHdr ep id word4 word5 word6 word7 word8 word9 word10 (hi16 word11) (lo16 word11) word12 (byte0 word13)
     (byte0 word15) (byte1 word15) (byte2 word15) (byte3 word15), w).

(** [PCIDeviceData] *)
Record device_data := mkData { mEndpoint : endpoint_t; mIdent : ident_t; mHeader0 : option pci_hdr_0 }.

(** One endpoint of the scan. *)
Definition probe (ep : endpoint_t) (l : list device_data) (w : W) : list device_data * W :=
  let '(id, w) := identify ep w in
  if vendor id =? 0xFFFF then (l, w)
  else if header id =? 0 then
    let '(hdr, w) := fill ep id w in (l ++ [mkData (endpoint hdr) (ident hdr) (Some hdr)], w)
  else (l ++ [mkData ep id None], w).

Fixpoint probe_all (eps : list endpoint_t) (l : list device_data) (w : W) : list device_data * W :=
  match eps with
  | [] => (l, w)
  | ep :: eps => let '(l, w) := probe ep l w in probe_all eps l w
  end.

(** The order of the three loops; [bus] is a byte and the outer one ends when it is
    0 again. *)
Definition endpoints : list endpoint_t :=
  b ← seqZ 0 256; s ← seqZ 0 32; f ← seqZ 0 8; [mkEndpoint b s f].

Definition new (w : W) : list device_data * W := probe_all endpoints [] w.

End Pci.

(** [pci_device_match_data_t] *)
Record match_data := mkMatch { k_clazz : Z; k_subclazz : Z; k_interface : Z; i_vendor : Z; i_device : Z; flags : Z }.

Definition agrees (any a b : Z) : bool := (a =? any) || (b =? any) || (a =? b).

Definition isMatch (d : device_data) (m : match_data) : bool :=
  let id := mIdent d in
  if negb (Z.land (flags m) 1 =? 0) then
    agrees 0xFF (clazz id) (k_clazz m) && agrees 0xFF (subclazz id) (k_subclazz m)
    && agrees 0xFF (progif id) (k_interface m)
  else if negb (Z.land (flags m) 2 =? 0) then
    agrees 0xFFFF (vendor id) (i_vendor m) && agrees 0xFFFF (device id) (i_device m)
  else false.

(** [tryDiscoverDevices]: which driver is offered which device, in order *)
Definition tryDiscoverDevices {H} (data : list device_data) (drivers : list (match_data * H)) : list (H * device_data) :=
  d ← data; m ← List.filter (fun m => isMatch d (fst m)) drivers; [(snd m, d)].

End Pci.
