(* ===== verification/Shell.v ===== *)
(** The command language of the shell: src/apps/shell/src/lexer.l ([Flex],
    [Lexer]), src/apps/shell/src/command.cpp ([Cmd]) and
    src/apps/shell/src/parser.cpp with the history and the input buffer
    ([Parser]).

    A [std::string] and a C string are lists of characters.  The buffer the lexer
    reads is global in the program; here it is a component of the parser's state,
    and [setInputBuffer] replaces it. *)

From Stdlib Require Import ZArith Lia Ascii String.
From stdpp Require Import base list option.
From S2P Require Import Prelude.

Abbreviation text := (list ascii).
Definition txt (s : string) : text := list_ascii_of_string s.

(** ** The matching rule of flex: the longest match, and of equally long ones the
    first rule. *)
Module Flex.

Inductive regex :=
| Void
| Eps
| Chr (c : ascii -> bool)
| Seq (r s : regex)
| Alt (r s : regex)
| Star (r : regex).

Definition Plus (r : regex) : regex := Seq r (Star r).

(** The language of a pattern. *)
Inductive matches : regex -> text -> Prop :=
| m_eps : matches Eps []
| m_chr c a : c a = true -> matches (Chr c) [a]
| m_seq r s u v : matches r u -> matches s v -> matches (Seq r s) (u ++ v)
| m_alt_l r s u : matches r u -> matches (Alt r s) u
| m_alt_r r s u : matches s u -> matches (Alt r s) u
| m_star_nil r : matches (Star r) []
| m_star_cons r u v : u <> [] -> matches r u -> matches (Star r) v -> matches (Star r) (u ++ v).

#[local] Hint Constructors matches : core.

Fixpoint nullable (r : regex) : bool :=
  match r with
  | Void | Chr _ => false
  | Eps | Star _ => true
  | Seq r s => nullable r && nullable s
  | Alt r s => nullable r || nullable s
  end.

(** Constructors that drop empty branches, so that the state of the automaton
    stays small. *)
Definition seq (r s : regex) : regex :=
  match r with Void => Void | Eps => s | _ => Seq r s end.
Definition alt (r s : regex) : regex :=
  match r, s with Void, _ => s | _, Void => r | _, _ => Alt r s end.

(** The state after one character. *)
Fixpoint deriv (a : ascii) (r : regex) : regex :=
  match r with
  | Void | Eps => Void
  | Chr c => if c a then Eps else Void
  | Seq r s => let d := seq (deriv a r) s in if nullable r then alt d (deriv a s) else d
  | Alt r s => alt (deriv a r) (deriv a s)
  | Star r => seq (deriv a r) (Star r)
  end.

(** The length of the longest prefix of the input that matches. *)
Fixpoint longest (r : regex) (s : text) : option nat :=
  match s with
  | [] => if nullable r then Some 0 else None
  | a :: s =>
      match longest (deriv a r) s with
      | Some n => Some (S n)
      | None => if nullable r then Some 0 else None
      end
  end.

(** The rule that fires, with the length of its match; rules do not match the
    empty text. *)
Fixpoint fire {A} (rules : list (regex * A)) (s : text) : option (nat * A) :=
  match rules with
  | [] => None
  | (r, a) :: rules =>
      match longest r s with
      | Some (S n) => match fire rules s with
                      | Some (n', a') => if (S n <? n')%nat then Some (n', a') else Some (S n, a)
                      | None => Some (S n, a)
                      end
      | _ => fire rules s
      end
  end.

(** *** The automaton decides the language *)

Lemma nullable_matches r : nullable r = true <-> matches r [].
Proof.
  split.
  - induction r; simpl; intros H; bool_to_prop; try done; auto.
    + change (@nil ascii) with (@nil ascii ++ @nil ascii). auto.
    + apply orb_true_iff in H as [H|H]; auto.
  - remember [] as w eqn:Hw. induction 1; simpl; try done.
    + apply app_eq_nil in Hw as [-> ->]. by rewrite IHmatches1, IHmatches2.
    + by rewrite IHmatches.
    + rewrite IHmatches by done. apply orb_true_r.
Qed.

Lemma matches_seq r s w : matches (seq r s) w <-> matches (Seq r s) w.
Proof.
  destruct r; simpl; try done; split; intros H.
  - inversion H.
  - inversion H as [| |? ? u v Hu| | | |]; subst. inversion Hu.
  - change w with ([] ++ w). auto.
  - inversion H as [| |? ? u v Hu| | | |]; subst. by inversion Hu; subst.
Qed.

Lemma matches_alt r s w : matches (alt r s) w <-> matches (Alt r s) w.
Proof.
  assert (Hl : forall r, matches (Alt Void r) w <-> matches r w)
    by (split; [inversion 1 as [| | |? ? ? Hx|? ? ? Hx| |]; subst; [by inversion Hx|done]|auto]).
  assert (Hr : forall r, matches (Alt r Void) w <-> matches r w)
    by (split; [inversion 1 as [| | |? ? ? Hx|? ? ? Hx| |]; subst; [done|by inversion Hx]|auto]).
  destruct r; simpl; try (by rewrite Hl); destruct s; simpl; by rewrite ?Hr, ?Hl.
Qed.

Lemma deriv_matches a r w : matches (deriv a r) w <-> matches r (a :: w).
Proof.
  revert w. induction r as [| |c|r IHr s IHs|r IHr s IHs|r IHr]; intros w; simpl.
  - split; inversion 1.
  - split; inversion 1.
  - destruct (c a) eqn:Hc; split; inversion 1; subst; auto; congruence.
  - assert (Hd : matches (Seq (deriv a r) s) w <-> exists u v, w = u ++ v /\ matches r (a :: u) /\ matches s v).
    { split.
      - inversion 1; subst. setoid_rewrite <- IHr. eauto.
      - intros (u & v & -> & Hu & Hv). apply IHr in Hu. auto. }
    assert (Hc : matches (Seq r s) (a :: w) <->
      (exists u v, w = u ++ v /\ matches r (a :: u) /\ matches s v) \/ (matches r [] /\ matches s (a :: w))).
    { split.
      - inversion 1 as [| |? ? u v Hu Hv Heq| | | |]; subst.
        destruct u as [|b u]; simpl in *; [right; by simplify_eq|left]. simplify_eq. eauto.
      - intros [(u & v & -> & Hu & Hv)|[Hr Hs]].
        + change (a :: u ++ v) with ((a :: u) ++ v). auto.
        + change (a :: w) with ([] ++ a :: w). auto. }
    rewrite Hc, <- nullable_matches. destruct (nullable r).
    + rewrite matches_alt. split.
      * inversion 1; subst; [left; apply Hd, matches_seq; done|right; by rewrite <- IHs].
      * intros [H|[_ H]]; [apply m_alt_l, matches_seq, Hd; done|apply m_alt_r; by apply IHs].
    + rewrite matches_seq, Hd. naive_solver.
  - rewrite matches_alt. split; inversion 1; subst; naive_solver.
  - rewrite matches_seq. split.
    + inversion 1; subst. change (a :: u ++ v) with ((a :: u) ++ v). apply m_star_cons; [done| |done]. by apply IHr.
    + inversion 1 as [| | | | | |? u v Hne Hu Hv Heq]; subst. destruct u as [|b u]; [done|].
      simpl in *. simplify_eq. apply m_seq; [by apply IHr|done].
Qed.

(** [longest] finds the longest matching prefix. *)
Lemma longest_spec r s :
  match longest r s with
  | Some n => (n <= length s)%nat /\ matches r (take n s)
      /\ forall m, (n < m <= length s)%nat -> ~ matches r (take m s)
  | None => forall m, (m <= length s)%nat -> ~ matches r (take m s)
  end.
Proof.
  revert r. induction s as [|a s IH]; intros r; simpl.
  - destruct (nullable r) eqn:Hn.
    + split; [done|]. split; [by apply nullable_matches|]. lia.
    + intros m _ H. rewrite take_nil in H. apply nullable_matches in H. congruence.
  - specialize (IH (deriv a r)). destruct (longest (deriv a r) s) as [n|].
    + destruct IH as (Hl & Hm & Hmax). split; [lia|]. split; [by apply deriv_matches|].
      intros [|m] Hr; [lia|]. simpl. rewrite <- deriv_matches. apply Hmax. lia.
    + destruct (nullable r) eqn:Hn.
      * split; [lia|]. split; [by apply nullable_matches|].
        intros [|m] Hr; [lia|]. simpl. rewrite <- deriv_matches. apply IH. lia.
      * intros [|m] Hr; simpl.
        -- rewrite <- nullable_matches. congruence.
        -- rewrite <- deriv_matches. apply IH. lia.
Qed.

Lemma longest_intro r u v :
  matches r u -> (forall w z, w <> [] -> v = w ++ z -> ~ matches r (u ++ w)) ->
  longest r (u ++ v) = Some (length u).
Proof.
  intros Hm Hmax. pose proof (longest_spec r (u ++ v)) as Hs.
  assert (Hu : take (length u) (u ++ v) = u) by (by rewrite take_app_length).
  destruct (longest r (u ++ v)) as [n|].
  - destruct Hs as (Hl & Hn & Hno). f_equal.
    destruct (lt_eq_lt_dec n (length u)) as [[Hlt|Heq]|Hgt]; [exfalso|done|exfalso].
    + apply (Hno (length u)); [rewrite length_app; lia|]. by rewrite Hu.
    + rewrite length_app in Hl.
      apply (Hmax (take (n - length u) v) (drop (n - length u) v)).
      * intros E%(f_equal length). rewrite length_take in E. simpl in E. lia.
      * by rewrite take_drop.
      * rewrite <- take_app_ge; [done|lia].
  - exfalso. apply (Hs (length u)); [rewrite length_app; lia|]. by rewrite Hu.
Qed.

Lemma longest_none r s :
  (forall w z, s = w ++ z -> ~ matches r w) -> longest r s = None.
Proof.
  intros H. pose proof (longest_spec r s) as Hs. destruct (longest r s) as [n|]; [|done].
  exfalso. destruct Hs as (_ & Hm & _). apply (H (take n s) (drop n s)); [by rewrite take_drop|done].
Qed.

(** The shapes of pattern the lexer uses. *)
Lemma matches_plus_chr c w : matches (Plus (Chr c)) w <-> w <> [] /\ Forall (fun a => c a = true) w.
Proof.
  assert (Hs : forall w, matches (Star (Chr c)) w <-> Forall (fun a => c a = true) w).
  { clear. intros w. split.
    - remember (Star (Chr c)) as r eqn:Hr. induction 1; try done.
      simplify_eq. inversion H0; subst. constructor; auto.
    - induction 1 as [|a w Ha Hw IH]; [auto|]. change (a :: w) with ([a] ++ w). auto. }
  split.
  - inversion 1 as [| |? ? u v Hu Hv| | | |]; subst. inversion Hu; subst.
    split; [done|]. constructor; [done|]. by apply Hs.
  - intros [Hne Hf]. destruct Hf as [|a w Ha Hf]; [done|].
    change (a :: w) with ([a] ++ w). apply m_seq; [auto|by apply Hs].
Qed.

Lemma matches_first r c w :
  (forall a, c a = false -> deriv a r = Void) -> nullable r = false -> matches r w ->
  exists a w', w = a :: w' /\ c a = true.
Proof.
  intros Hd Hn Hm. destruct w as [|a w].
  - apply nullable_matches in Hm. congruence.
  - exists a, w. split; [done|]. destruct (c a) eqn:E; [done|].
    apply deriv_matches in Hm. rewrite Hd in Hm by done. inversion Hm.
Qed.

End Flex.

(** ** lexer.l *)
Module Lexer.
Import Flex.

(** [symbol_kind_t] (symboltypes.tbl) *)
Inductive symbol_kind_t :=
| INVALID | ARGUMENT | OUTREDIR | INREDIR | PIPE | TERMINATOR | ENVIRONMENT
| QUOTED | BACKGROUND | SUCCESSCONCAT | HISTORY.

(** their numbers in the table *)
Definition code (k : symbol_kind_t) : nat :=
  match k with
  | INVALID => 0 | ARGUMENT => 1 | OUTREDIR => 2 | INREDIR => 3 | PIPE => 4 | TERMINATOR => 5
  | ENVIRONMENT => 6 | QUOTED => 7 | BACKGROUND => 8 | SUCCESSCONCAT => 9 | HISTORY => 10
  end.
Definition same_kind (k l : symbol_kind_t) : bool := (code k =? code l)%nat.

#[global] Instance symbol_kind_eq_dec : EqDecision symbol_kind_t.
Proof. solve_decision. Defined.

Definition eqc (c : ascii) (a : ascii) : bool := (c =? a)%char.
Definition between (lo hi : ascii) (a : ascii) : bool := (lo <=? a)%char && (a <=? hi)%char.

(** the class of the characters of an argument *)
Definition isargument (a : ascii) : bool :=
  eqc "," a || between "0" "9" a || between "A" "Z" a || between "a" "z" a || eqc ":" a || eqc "/" a
  || eqc "-" a || eqc "_" a || eqc "=" a || eqc "." a || eqc "~" a.

Definition newline : ascii := "010".
Definition tab : ascii := "009".
Definition quote : ascii := "034".
Definition backslash : ascii := "\".

Definition chr (c : ascii) : regex := Chr (eqc c).
Definition isblank (a : ascii) : bool := eqc " " a || eqc tab a.
Definition isterminator (a : ascii) : bool := eqc ";" a || eqc newline a.
Definition isplain (a : ascii) : bool := negb (eqc backslash a || eqc quote a).

(** what stands between the quotes *)
Definition quoted_item : regex := Alt (Seq (chr backslash) (Chr (fun a => negb (eqc newline a)))) (Chr isplain).

Inductive action := Skip | Return (k : symbol_kind_t).

(** The rules, in the order of the file. *)
Definition rules : list (regex * action) := [
  (Seq (chr "$") (Seq (chr "(") (Seq (Plus (Chr isargument)) (chr ")"))), Return ENVIRONMENT);
  (Plus (Chr isargument), Return ARGUMENT);
  (chr ">", Return OUTREDIR);
  (chr "<", Return INREDIR);
  (chr "|", Return PIPE);
  (Plus (Chr isblank), Skip);
  (Chr isterminator, Return TERMINATOR);
  (Seq (chr "&") (chr "&"), Return SUCCESSCONCAT);
  (chr "&", Return BACKGROUND);
  (Seq (chr "!") (chr "!"), Return HISTORY);
  (Seq (chr quote) (Seq (Star quoted_item) (chr quote)), Return QUOTED)].

(** A [Symbol].  The parser reads the value of arguments, quoted texts and
    variables only; the rules of the other kinds leave [yylval] as it was and their
    value here is empty. *)
Record symbol := mkSymbol { kind : symbol_kind_t; value : text }.

Definition has_value (k : symbol_kind_t) : bool :=
  same_kind k ARGUMENT || same_kind k QUOTED || same_kind k ENVIRONMENT.

(** [yylex] with what it echoes (the default rule: a character that starts no
    match), the symbol unless the input ends, and the input that remains. *)
Fixpoint yylex_fuel (fuel : nat) (s : text) : text * option symbol * text :=
  match fuel, s with
  | S fuel, a :: s' =>
      match fire rules s with
      | None => let '(e, r, rest) := yylex_fuel fuel s' in (a :: e, r, rest)
      | Some (n, Skip) => yylex_fuel fuel (drop n s)
      | Some (n, Return k) => ([], Some (mkSymbol k (if has_value k then take n s else [])), drop n s)
      end
  | _, _ => ([], None, s)
  end.

Definition yylex (s : text) : text * option symbol * text := yylex_fuel (length s) s.

End Lexer.

(** ** command.cpp *)
Module Cmd.

Inductive Command := mkCommand {
  mWords : list text;
  mOutRedirect : option text;
  mInRedirect : option text;
  mPipeTarget : option Command;
  mRunIfSuccess : option Command;
  mBackground : bool }.

Definition empty : Command := mkCommand [] None None None None false.

Definition setBackground (b : bool) (c : Command) : Command :=
  mkCommand (mWords c) (mOutRedirect c) (mInRedirect c) (mPipeTarget c) (mRunIfSuccess c) b.
Definition addWord (word : text) (c : Command) : Command :=
  match word with
  | [] => c
  | _ => mkCommand (mWords c ++ [word]) (mOutRedirect c) (mInRedirect c) (mPipeTarget c) (mRunIfSuccess c)
           (mBackground c)
  end.
Definition redirectStdout (target : text) (c : Command) : Command :=
  mkCommand (mWords c) (Some target) (mInRedirect c) (mPipeTarget c) (mRunIfSuccess c) (mBackground c).
Definition redirectStdin (target : text) (c : Command) : Command :=
  mkCommand (mWords c) (mOutRedirect c) (Some target) (mPipeTarget c) (mRunIfSuccess c) (mBackground c).

(** The copy constructor: the words go through [addWord], the rest is copied or
    shared. *)
Definition copy (rhs : Command) : Command :=
  let c := foldl (fun c w => addWord w c) empty (mWords rhs) in
  mkCommand (mWords c) (mOutRedirect rhs) (mInRedirect rhs) (mPipeTarget rhs) (mRunIfSuccess rhs)
    (mBackground rhs).

Definition setPipe (cmd c : Command) : Command :=
  mkCommand (mWords c) (mOutRedirect c) (mInRedirect c) (Some (copy cmd)) (mRunIfSuccess c) (mBackground c).
Definition setSuccessChain (cmd c : Command) : Command :=
  mkCommand (mWords c) (mOutRedirect c) (mInRedirect c) (mPipeTarget c) (Some (copy cmd)) (mBackground c).

(** [clear] resets every member but [mBackground]. *)
Definition clear (c : Command) : Command := mkCommand [] None None None None (mBackground c).

Definition operator_bool (c : Command) : bool := match mWords c with [] => false | _ => true end.

(** [printf]: what it writes. *)
Fixpoint printf (c : Command) : text :=
  concat (map (fun w => w ++ [" "%char]) (mWords c))
  ++ (match mOutRedirect c with Some t => txt "> " ++ t ++ [" "%char] | None => [] end)
  ++ (match mInRedirect c with Some t => txt "< " ++ t ++ [" "%char] | None => [] end)
  ++ (if mBackground c then txt "& " else [])
  ++ (match mPipeTarget c with Some p => txt "| " ++ printf p | None => [] end)
  ++ (match mRunIfSuccess c with Some p => txt "&& " ++ printf p | None => [] end).

End Cmd.

(** ** parser.cpp, history.cpp, input.cpp *)
Module Parser.
Import Lexer Cmd.

(** [History::get] *)
Definition get (mHistory : list text) (idx : Z) : option text :=
  if (idx >=? Z.of_nat (length mHistory))%Z then None else mHistory !! Z.to_nat idx.

(** [atoi]: blanks, a sign and digits; the value is held within [int]. *)
Definition isspace (a : ascii) : bool := eqc " " a || between "009" "013" a.
Fixpoint skip_space (s : text) : text :=
  match s with a :: s' => if isspace a then skip_space s' else s | [] => [] end.
Fixpoint digits (acc : Z) (s : text) : Z :=
  match s with
  | a :: s => if between "0" "9" a then digits (acc * 10 + (Z.of_nat (nat_of_ascii a) - 48))%Z s else acc
  | [] => acc
  end.
Definition atoi (s : text) : Z :=
  let s := skip_space s in
  let v := match s with
           | a :: s' => if eqc "-" a then (- digits 0 s')%Z else if eqc "+" a then digits 0 s' else digits 0 s
           | [] => 0%Z
           end in
  Z.max (-2 ^ 31) (Z.min (2 ^ 31 - 1) v).

(** The members of the parser with the lexer's buffer.  [cmds] holds the command
    objects a [Command&] can refer to: [mCurrentCommand] at 0 and, above it, the
    local [temp] of each call of [parseCommand] that has one. *)
Record state := mkState {
  buffer : text; echoed : text; errors : list string; mSymbol : symbol; cmds : list Command }.

Definition init (buffer : text) : state := mkState buffer [] [] (mkSymbol INVALID []) [empty].

Definition with_cmds st (l : list Command) : state := mkState (buffer st) (echoed st) (errors st) (mSymbol st) l.
Definition on_cmd (d : nat) (f : Command -> Command) st : state := with_cmds st (alter f d (cmds st)).
Definition error (msg : string) st : state :=
  mkState (buffer st) (echoed st) (errors st ++ [msg]) (mSymbol st) (cmds st).

(** [setInputBuffer] *)
Definition setInputBuffer (buf : text) st : state :=
  mkState (buf ++ [";"%char]) (echoed st) (errors st) (mSymbol st) (cmds st).

Definition nextsym st : bool * state :=
  let '(e, sym, rest) := yylex (buffer st) in
  match sym with
  | Some s => (true, mkState rest (echoed st ++ e) (errors st) s (cmds st))
  | None => (false, mkState rest (echoed st ++ e) (errors st) (mSymbol st) (cmds st))
  end.

Definition accept st (k : symbol_kind_t) : bool := same_kind (kind (mSymbol st)) k.
Definition acceptNext st (k : symbol_kind_t) : bool * state :=
  let '(ok, st) := nextsym st in if ok then (accept st k, st) else (false, st).

Section Parse.

(** [getenv] and the history do not change while a command is parsed. *)
Variable getenv : text -> option text.
Variable mHistory : list text.

Definition acceptText st : option text :=
  let v := value (mSymbol st) in
  if accept st ARGUMENT then Some v
  else if accept st QUOTED then Some (removelast (tail v))
  else if accept st ENVIRONMENT then
    Some (default [] (getenv (removelast (drop 2 v))))
  else None.

Definition parseOutRedirect (d : nat) st : bool * state :=
  if negb (accept st OUTREDIR) then (false, error "redirect not found" st)
  else
    let '(ok, st) := nextsym st in
    if negb ok then (false, error "redirect requires a valid file path" st)
    else match acceptText st with
         | Some word => (true, on_cmd d (redirectStdout word) st)
         | None => (false, error "redirect requires a path" st)
         end.

Definition parseInRedirect (d : nat) st : bool * state :=
  if negb (accept st INREDIR) then (false, error "redirect not found" st)
  else
    let '(ok, st) := nextsym st in
    if negb ok then (false, error "redirect requires a valid file path" st)
    else match acceptText st with
         | Some word => (true, on_cmd d (redirectStdin word) st)
         | None => (false, error "redirect requires a path" st)
         end.

(** [!!]: the line of the history that is to be parsed instead. *)
Definition history_line st : option text * state :=
  let '(ok, st) := nextsym st in
  if negb ok then (None, error "history requires a command id" st)
  else match acceptText st with
       | None => (None, error "history requires a numeric command id" st)
       | Some id =>
           let i := atoi id in
           if (i <=? 0)%Z then (None, error "history requires a positive numeric command id" st)
           else match get mHistory (i - 1) with
                | None => (None, error "history requires a valid numeric command id" st)
                | Some line => (Some line, st)
                end
       end.

(** A symbol [PIPE] or [SUCCESSCONCAT]: the command after it is parsed into [temp]
    by [sub], and [set] stores it. *)
Definition chained (sub : nat -> state -> option (bool * state)) (msg : string)
    (set : Command -> Command -> Command) (d : nat) st : option (bool * state) :=
  let '(ok, st) := nextsym st in
  if negb ok then Some (false, error msg st)
  else
    let temp := length (cmds st) in
    '(ok, st) ← sub temp (with_cmds st (cmds st ++ [empty]));
    c ← cmds st !! temp;
    let st := with_cmds st (take temp (cmds st)) in
    if (ok : bool) then Some (true, on_cmd d (set c) st) else Some (false, error msg st).

(** [parse], [parseCommand] and the rounds of its loop; [None]: out of fuel. *)
Fixpoint parse (fuel : nat) st : option (bool * state) :=
  match fuel with
  | 0%nat => None
  | S fuel =>
      let st := on_cmd 0 clear st in
      let '(ok, st) := nextsym st in
      if ok then parseCommand fuel 0 st else Some (false, st)
  end
with parseCommand (fuel : nat) (dest : nat) st : option (bool * state) :=
  match fuel with
  | 0%nat => None
  | S fuel =>
      if accept st HISTORY then
        match history_line st with
        | (None, st) => Some (false, st)
        | (Some line, st) => parse fuel (setInputBuffer line st)
        end
      else parse_loop fuel dest st
  end
with parse_loop (fuel : nat) (dest : nat) st : option (bool * state) :=
  match fuel with
  | 0%nat => None
  | S fuel =>
      if accept st TERMINATOR then Some (true, st)
      else
        let st := match acceptText st with Some word => on_cmd dest (addWord word) st | None => st end in
        let '(ok, st) := if accept st OUTREDIR then parseOutRedirect dest st else (true, st) in
        if negb ok then Some (false, st)
        else
          let '(ok, st) := if accept st INREDIR then parseInRedirect dest st else (true, st) in
          if negb ok then Some (false, st)
          else if accept st PIPE then
            chained (parseCommand fuel) "pipe requires a valid command" setPipe dest st
          else if accept st SUCCESSCONCAT then
            chained (parseCommand fuel) "concatenation requires a valid command" setSuccessChain dest st
          else if accept st BACKGROUND then
            let st := on_cmd dest (setBackground true) st in
            let '(ok, st) := acceptNext st TERMINATOR in
            if ok then Some (true, st)
            else Some (false, error "cannot add more arguments after a background" st)
          else
            let '(ok, st) := nextsym st in
            if ok then parse_loop fuel dest st else Some (true, st)
  end.

(** [command] *)
Definition command st : option Command := cmds st !! 0%nat.

End Parse.
End Parser.
