(* ===== verification/ShellRun.v ===== *)
(** Running commands: the environment of a process ([Env]: getenv_r.c, setenv_r.c
    and putenv_r.c of newlib), src/slibs/shell ([Expand], [Path]) and the rest of
    src/apps/shell ([Run]: exec.cpp, builtin.cpp with the builtins, runline.cpp,
    runfile.cpp, exit.cpp, cwd.cpp, str.cpp, the loop of main.cpp).

    The calls into the C library that reach the kernel are the operations of the
    class [Os], on a state of their own. *)

From Stdlib Require Import ZArith Lia Ascii String.
From stdpp Require Import base list option pretty.
From S2P Require Import Prelude Shell Lifecycle.

(** ** The environment: entries "name=value" in the order of [environ] *)
Module Env.
Import Lexer.

Definition has_eq (name : text) : bool := existsb (eqc "="%char) name.

(** The value if the entry is the one of [name]. *)
Fixpoint value_of (name entry : text) : option text :=
  match name, entry with
  | [], a :: v => if eqc "="%char a then Some v else None
  | b :: name, a :: entry => if eqc a b then value_of name entry else None
  | _, [] => None
  end.

(** [_findenv_r] *)
Fixpoint find_from (name : text) (environ : list text) : option (nat * text) :=
  match environ with
  | [] => None
  | e :: environ => match value_of name e with
                    | Some v => Some (0, v)
                    | None => '(i, v) ← find_from name environ; Some (S i, v)
                    end
  end.
Definition findenv (name : text) (environ : list text) : option (nat * text) :=
  if has_eq name then None else find_from name environ.

Definition getenv (name : text) (environ : list text) : option text := snd <$> findenv name environ.

(** [_setenv_r] with [rewrite] *)
Definition setenv (name val : text) (environ : list text) : list text :=
  if has_eq name then environ
  else
    let entry := name ++ "="%char :: val in
    match findenv name environ with
    | Some (offset, _) => <[offset := entry]> environ
    | None => environ ++ [entry]
    end.

(** [_unsetenv_r]: every entry of the name goes *)
Definition unsetenv (name : text) (environ : list text) : list text :=
  match name with
  | [] => environ
  | _ => if has_eq name then environ
         else List.filter (fun e => match value_of name e with Some _ => false | None => true end) environ
  end.

(** the text before the first '=' and after it *)
Fixpoint split_eq (s : text) : option (text * text) :=
  match s with
  | [] => None
  | a :: s => if eqc "="%char a then Some ([], s) else '(n, v) ← split_eq s; Some (a :: n, v)
  end.

(** [_putenv_r] *)
Definition putenv (str : text) (environ : list text) : list text :=
  match split_eq str with Some (name, v) => setenv name v environ | None => environ end.

End Env.

(** ** expand.cpp *)
Module Expand.
Import Lexer.

Inductive parser_state_t := ORDINARY | QUOTE | ESCAPE.

Record state := mkState { result : list text; buffer : text; pstate : list parser_state_t }.

Definition append_non_empty st : state :=
  match buffer st with
  | [] => st
  | b => mkState (result st ++ [b]) [] (pstate st)
  end.
Definition new_state p st : state := mkState (result st) (buffer st) (p :: pstate st).
Definition back_state st : state := mkState (result st) (buffer st) (tail (pstate st)).
Definition append_to_buf c st : state := mkState (result st) (buffer st ++ [c]) (pstate st).

(** One character; [None]: the stack of states is empty. *)
Definition step st (c : ascii) : option state :=
  match pstate st with
  | [] => None
  | ORDINARY :: _ => Some
      (if eqc backslash c then new_state ESCAPE st
       else if eqc quote c then new_state QUOTE st
       else if eqc " "%char c then append_non_empty st
       else append_to_buf c st)
  | QUOTE :: _ => Some
      (if eqc quote c then back_state st
       else if eqc backslash c then new_state ESCAPE st
       else append_to_buf c st)
  | ESCAPE :: _ => Some (back_state (append_to_buf c st))
  end.

Fixpoint steps st (s : text) : option state :=
  match s with [] => Some st | c :: s => st ← step st c; steps st s end.

Definition parseCommandLine (cmdline : text) : option (list text) :=
  st ← steps (mkState [] [] [ORDINARY]) cmdline;
  Some (result (append_non_empty st)).

End Expand.

(** ** path.cpp of slibs/shell *)
Module Path.
Import Lexer.

(** [splitList] *)
Fixpoint split_from (item s : text) : list text :=
  match s with
  | [] => [item]
  | a :: s => if eqc ":"%char a then item :: split_from [] s else split_from (item ++ [a]) s
  end.
Definition splitList (l : option text) : list text :=
  match l with None | Some [] => [] | Some s => split_from [] s end.

(** [program_s.find("./") != npos] *)
Fixpoint has_dot_slash (s : text) : bool :=
  match s with
  | a :: ((b :: _) as s') => (eqc "."%char a && eqc "/"%char b) || has_dot_slash s'
  | _ => false
  end.

(** [stat] succeeds on the paths [exists_] holds of. *)
Definition findInPotentialPaths (exists_ : text -> bool) (program : text) (l : option text) : option text :=
  if match program with a :: _ => eqc "/"%char a | [] => false end then Some program
  else if has_dot_slash program then Some program
  else if match last program with Some a => eqc "/"%char a | None => false end then Some program
  else List.find exists_ (map (fun c => c ++ "/"%char :: program) (splitList l)).

End Path.

(** ** Exit statuses: interface.cpp and sys/wait.h of the C library *)
Module Wait.

(** [processexitstatus2wait], on the two bytes of [process_exit_status_t] *)
Definition processexitstatus2wait (reason status : Z) : Z :=
  if (reason =? 1)%Z then Z.shiftl status 8
  else if (reason =? 2)%Z || (reason =? 255)%Z then Z.land status 0x7f
  else if (reason =? 3)%Z then 0x0909
  else -1.

Definition WIFEXITED (w : Z) : bool := (Z.land w 0xff =? 0)%Z.
Definition WIFSIGNALED (w : Z) : bool := (0 <? Z.land w 0x7f)%Z && (Z.land w 0x7f <? 0x7f)%Z.
Definition WEXITSTATUS (w : Z) : Z := Z.land (Z.shiftr w 8) 0xff.
Definition WTERMSIG (w : Z) : Z := Z.land w 0x7f.

(** [waitpid] and [wait] over the two system calls: [collect] gives the exit status
    of a child, [collectany] also the child; [None] is a failed call.  The result
    is the value returned and what is stored in [*stat_loc], if anything is. *)
Definition wait (collectany : option (Z * Z * Z)) : Z * option Z :=
  match collectany with
  | None => (-1, None)%Z
  | Some (pid, reason, status) =>
      let w := processexitstatus2wait reason status in ((if (w =? -1)%Z then -1 else pid)%Z, Some w)
  end.
Definition waitpid (pid : Z) (collectany : option (Z * Z * Z)) (collect : Z -> option (Z * Z)) : Z * option Z :=
  if (pid =? -1)%Z || (pid =? 0)%Z then wait collectany
  else match collect pid with
       | None => (-1, None)%Z
       | Some (reason, status) =>
           let w := processexitstatus2wait reason status in ((if (w =? -1)%Z then -1 else pid)%Z, Some w)
       end.

End Wait.

(** ** The shell *)
Module Run.
Import Lexer Cmd Env Path Wait.

(** What the shell asks of the system through the C library. *)
Class Os (O : Type) := {
  os_exists : O -> text -> bool;                             (* stat succeeds *)
  os_getcwd : O -> text;
  os_chdir : text -> O -> option O;
  os_fopen : text -> bool -> O -> option nat * O;            (* true: for writing; the descriptor *)
  os_fclose : nat -> O -> O;
  os_contents : text -> O -> option text;                    (* a file that is read from start to end *)
  os_spawn : text -> list text -> list text -> Z -> list Life.fileop -> O -> Z * O;
  os_waitpid : Z -> O -> option Z * O;                       (* the status stored, if one is *)
  os_wait : O -> option (Z * Z) * O;
  os_history : O -> list text                                (* linenoise's own history *)
}.

Section Shell.
Context {O : Type} `{Os O}.

Record shell := mkShell {
  os : O; environ : list text; input : text; out : text; err : text; dirStack : list text;
  mHistory : list text }.

Definition with_os s o : shell := mkShell o (environ s) (input s) (out s) (err s) (dirStack s) (mHistory s).
Definition with_environ s e : shell := mkShell (os s) e (input s) (out s) (err s) (dirStack s) (mHistory s).
Definition with_input s i : shell := mkShell (os s) (environ s) i (out s) (err s) (dirStack s) (mHistory s).
Definition with_dirs s d : shell := mkShell (os s) (environ s) (input s) (out s) (err s) d (mHistory s).
Definition with_history s h : shell := mkShell (os s) (environ s) (input s) (out s) (err s) (dirStack s) h.
Definition print (t : text) s : shell :=
  mkShell (os s) (environ s) (input s) (out s ++ t) (err s) (dirStack s) (mHistory s).
Definition eprint (t : text) s : shell :=
  mkShell (os s) (environ s) (input s) (out s) (err s ++ t) (dirStack s) (mHistory s).

(** A call returns, or the shell exits in it, or it reads outside of an object. *)
Inductive outcome (A : Type) := Returned (a : A) | Exited (code : Z) | Undefined.
#[global] Arguments Returned {A} a.
#[global] Arguments Exited {A} code.
#[global] Arguments Undefined {A}.

(** Effects of the shell; [None]: out of fuel. *)
Definition M (A : Type) : Type := shell -> option (outcome A * shell).
#[global] Instance M_ret : MRet M := fun A a s => Some (Returned a, s).
#[global] Instance M_bind : MBind M := fun A B f m s =>
  match m s with
  | Some (Returned a, s) => f a s
  | Some (Exited c, s) => Some (Exited c, s)
  | Some (Undefined, s) => Some (Undefined, s)
  | None => None
  end.
Definition gets {A} (f : shell -> A) : M A := fun s => Some (Returned (f s), s).
Definition modify (f : shell -> shell) : M unit := fun s => Some (Returned tt, f s).
Definition fail {A} : M A := fun s => Some (Undefined, s).
Definition printf (t : text) : M unit := modify (print t).
Definition eprintf (t : text) : M unit := modify (eprint t).
Definition on_os {A} (f : O -> A * O) : M A := fun s => let '(a, o) := f (os s) in Some (Returned a, with_os s o).

Definition num (z : Z) : text := txt (pretty z).
Definition nl : text := [newline].
Definition red : text := "027"%char :: txt "[31m".
Definition plain : text := "027"%char :: txt "[0m".

(** *** exit.cpp *)
Definition handleExitStatus (pid exitcode : Z) (anyExit : bool) : M bool :=
  if WIFEXITED exitcode then
    let status := WEXITSTATUS exitcode in
    let bad := negb (status =? 0)%Z in
    _ ← (if bad || anyExit then
           printf ((if bad then red else []) ++ txt "[child " ++ num pid ++ txt "] exited - status " ++ num status
                   ++ (if bad then plain else []) ++ nl)
         else mret tt);
    mret (negb bad)
  else if WIFSIGNALED exitcode then
    let sig := WTERMSIG exitcode in
    _ ← printf (red ++ txt "[child " ++ num pid
                ++ (if (sig =? 1)%Z then txt "] terminated - file not found"
                    else if (sig =? 2)%Z then txt "] terminated - file not executable"
                    else txt "] terminated - signal " ++ num sig)
                ++ plain ++ nl);
    mret false
  else
    _ ← printf (red ++ txt "[child " ++ num pid ++ txt "] terminated - exit status " ++ num exitcode ++ plain ++ nl);
    mret false.

Definition tryCollect : M unit :=
  r ← on_os os_wait;
  match r with
  | Some (pid, exitcode) => _ ← handleExitStatus (u16 pid) exitcode true; mret tt
  | None => mret tt
  end.

(** *** The builtins *)
Definition do_chdir (dir : text) : M bool := fun s =>
  match os_chdir dir (os s) with
  | None => Some (Returned false, print (txt "can't set cwd to '" ++ dir ++ txt "'" ++ nl) s)
  | Some o => Some (Returned true, with_environ (with_os s o) (setenv (txt "PWD") (os_getcwd o) (environ s)))
  end.
Definition do_pushd (dir : text) : M bool :=
  cur_dir ← gets (fun s => os_getcwd (os s));
  ok ← do_chdir dir;
  if (ok : bool) then _ ← modify (fun s => with_dirs s (dirStack s ++ [cur_dir])); mret true else mret false.
Definition do_popd : M bool :=
  dirs ← gets dirStack;
  match last dirs with
  | None => mret false
  | Some dir => _ ← modify (fun s => with_dirs s (removelast dirs)); do_chdir dir
  end.
Definition cd_exec (argv : list text) : M bool :=
  match argv with
  | [_; dir] => if bool_decide (dir = txt "-") then do_popd else do_pushd dir
  | _ => mret false
  end.
Definition dirs_exec (argv : list text) : M bool :=
  dirs ← gets dirStack;
  _ ← printf (concat (map (fun d => d ++ [" "%char]) dirs) ++ nl);
  mret true.

Definition set_env (arg : text) : M unit :=
  match split_eq arg with
  | None => e ← gets environ;
            printf (arg ++ "="%char :: default (txt "(null)") (getenv arg e) ++ nl)
  | Some (name, []) => modify (fun s => with_environ s (unsetenv name (environ s)))
  | Some _ => modify (fun s => with_environ s (putenv arg (environ s)))
  end.
Fixpoint for_each {A} (f : A -> M unit) (l : list A) : M unit :=
  match l with [] => mret tt | a :: l => _ ← f a; for_each f l end.
Definition env_exec (argv : list text) : M bool :=
  match argv with
  | [_] => e ← gets environ; _ ← printf (concat (map (fun x => x ++ nl) e)); mret true
  | _ => _ ← for_each set_env (tail argv); mret true
  end.
Definition exit_exec (argv : list text) : M bool := fun s =>
  Some (Exited (match argv with _ :: a :: _ => Parser.atoi a | _ => 0%Z end), s).
Definition history_exec (argv : list text) : M bool :=
  match argv with
  | [_] => h ← gets (fun s => os_history (os s));
           _ ← printf (concat (imap (fun i l => num (Z.of_nat i + 1) ++ txt ": " ++ l ++ nl) h));
           mret true
  | _ => mret true
  end.

(** *** str.cpp, runline.cpp, runfile.cpp *)
Fixpoint trim_left (s : text) : text :=
  match s with a :: s' => if eqc " "%char a then trim_left s' else s | [] => [] end.
Definition trim (s : text) : text := reverse (trim_left (reverse (trim_left s))).

(** [Parser::parse] on the buffer the lexer has, with what it writes. *)
Definition parser_parse (fuel : nat) (p : Parser.state) : M (bool * Parser.state) := fun s =>
  let p := Parser.mkState (input s) [] [] (Parser.mSymbol p) (Parser.cmds p) in
  '(ok, p) ← Parser.parse (fun n => getenv n (environ s)) (mHistory s) fuel p;
  let s := print (Parser.echoed p) (with_input s (Parser.buffer p)) in
  let s := eprint (concat (map (fun m => txt "error: " ++ txt m ++ nl) (Parser.errors p))) s in
  Some (Returned (ok, p), s).

(** The loop of [runline]; [exec] runs a command. *)
Fixpoint run_loop (exec : Command -> M unit) (fuel : nat) (p : Parser.state) : M bool :=
  match fuel with
  | 0 => fun _ => None
  | S fuel' =>
      '(ok, p) ← parser_parse fuel p;
      if (ok : bool) then
        cmd ← match Parser.command p with Some c => mret (copy c) | None => fail end;
        _ ← (if operator_bool cmd then exec cmd else mret tt);
        run_loop exec fuel' p
      else mret true
  end.

Definition runline_with (exec : Command -> M unit) (fuel : nat) (cmdline : text) : M bool :=
  match trim cmdline with
  | [] => mret true
  | a :: l => if eqc "#"%char a then mret true
              else _ ← modify (fun s => with_input s ((a :: l) ++ [";"%char]));
                   run_loop exec fuel (Parser.init [])
  end.

(** The lines of a script, the last one possibly empty. *)
Fixpoint lines_from (line s : text) : list text :=
  match s with
  | [] => [line]
  | a :: s => if eqc newline a then line :: lines_from [] s else lines_from (line ++ [a]) s
  end.
Definition runfile_with (exec : Command -> M unit) (fuel : nat) (file : text) : M unit :=
  c ← gets (fun s => os_contents file (os s));
  match c with
  | None => mret tt
  | Some c => for_each (fun l => _ ← runline_with exec fuel l; mret tt) (lines_from [] c)
  end.

(** *** builtin.cpp: the registered commands, [run] for the one that runs a file *)
Definition builtin (run : text -> M unit) (program : text) : option (list text -> M bool) :=
  if bool_decide (program = txt "cd") then Some cd_exec
  else if bool_decide (program = txt "dirs") then Some dirs_exec
  else if bool_decide (program = txt "env") then Some env_exec
  else if bool_decide (program = txt "exit") then Some exit_exec
  else if bool_decide (program = txt "history") then Some history_exec
  else if bool_decide (program = txt "script") then
    Some (fun argv => match argv with [_; file] => _ ← run file; mret true | _ => mret false end)
  else None.

Definition tryExecBuiltin (run : text -> M unit) (program : text) (argv : list text) : M bool :=
  match program with
  | [] => mret true
  | a :: _ => if eqc "#"%char a then mret true
              else match builtin run program with None => mret false | Some f => f argv end
  end.

(** *** exec.cpp *)

(** [getProgramPath] *)
Definition getProgramPath (program : text) s : text :=
  default [] (findInPotentialPaths (os_exists (os s)) program (getenv (txt "PATH") (environ s))).

(** One redirection: the file, and the two operations that put it in place. *)
Definition redirect (target : option text) (write : bool) (child_fd : nat) : M (option nat * list Life.fileop) :=
  match target with
  | None => mret (None, [])
  | Some t =>
      fd ← on_os (os_fopen t write);
      match fd with
      | Some fd => mret (Some fd, [Life.CLOSE_CHILD_FD child_fd; Life.DUP_PARENT_FD fd])
      | None => _ ← eprintf (txt "redirect: failed" ++ nl); mret (None, [])
      end
  end.
Definition close_redirect (fd : option nat) : M unit :=
  match fd with Some fd => on_os (fun o => (tt, os_fclose fd o)) | None => mret tt end.

Definition STDIN_FILENO : nat := 0.
Definition STDOUT_FILENO : nat := 1.
Definition spawn_flags (background : bool) : Z := Z.lor 2 (Z.lor (if background then 0 else 1) 0).

(** The part of [Command::exec] after the builtins: the child, unless the program
    is not found.  [next] runs the command after [&&]. *)
Definition exec_program (next : Command -> M unit) (c : Command) (program : text) : M unit :=
  real_program ← gets (getProgramPath program);
  match real_program with
  | [] => eprintf (program ++ txt ": not found in PATH" ++ nl)
  | _ =>
      '(outRedir, fops1) ← redirect (mOutRedirect c) true STDOUT_FILENO;
      '(inRedir, fops2) ← redirect (mInRedirect c) false STDIN_FILENO;
      e ← gets environ;
      chld ← on_os (os_spawn real_program (mWords c) e (spawn_flags (mBackground c)) (fops1 ++ fops2));
      _ ← close_redirect outRedir;
      _ ← close_redirect inRedir;
      if mBackground c then printf (txt "[child " ++ num (u32 chld) ++ txt "] spawned" ++ nl)
      else
        exitcode ← on_os (os_waitpid chld);
        ok ← handleExitStatus (u16 chld) (default 0%Z exitcode) false;
        match mRunIfSuccess c with
        | Some next_cmd => if (ok : bool) then next next_cmd else mret tt
        | None => mret tt
        end
  end.

Fixpoint exec (fuel : nat) (c : Command) : M unit :=
  match fuel with
  | 0 => fun _ => None
  | S fuel =>
      _ ← match mPipeTarget c with Some _ => eprintf (txt "pipe: unimplemented" ++ nl) | None => mret tt end;
      match mWords c with
      | [] => fail
      | program :: _ =>
          done_ ← tryExecBuiltin (runfile_with (exec fuel) fuel) program (mWords c);
          if (done_ : bool) then mret tt else exec_program (exec fuel) c program
      end
  end.

Definition runline (fuel : nat) (cmdline : text) : M bool := runline_with (exec fuel) fuel cmdline.
Definition runfile (fuel : nat) (file : text) : M unit := runfile_with (exec fuel) fuel file.

(** *** One round of [interactiveLoop]; [line] is what linenoise returned. *)
Definition interactive_round (fuel : nat) (line : text) : M unit :=
  _ ← tryCollect;
  ok ← runline fuel line;
  if (ok : bool) then modify (fun s => with_history s (mHistory s ++ [line])) else mret tt.

End Shell.
End Run.
