(* ===== verification/Libc.v ===== *)
(** The system's part of the C library: src/newlib/syscalls.  [Absolutize]:
    absolutize.cpp, the paths that reach the kernel; [Calls]: the calls of
    interface.cpp that translate arguments and results; [Stat], [Cwd], [Brk] and
    [Spawn]: those over the kernel's calls on file information, the current
    directory, memory and processes.

    A C string is a list of characters; a function that returns null returns
    [None] in the inner option, and [None] in the outer one is a read through a null
    pointer. *)

From Stdlib Require Import ZArith Lia Ascii String.
From stdpp Require Import base list option strings.
From S2P Require Import Prelude Virt Kernel Lifecycle MemMgr RamFs Syscalls Shell.

Module Absolutize.
Import Lexer.

Definition gMaxPathSize : nat := 255.
Definition slash : ascii := "/".
Definition dot : ascii := ".".

Definition starts_slash (s : text) : bool := match s with a :: _ => eqc slash a | [] => false end.
Definition ends_slash (s : text) : bool := match last s with Some a => eqc slash a | None => false end.

(** [concatPaths]: [strlen] is taken before the pointers are tested. *)
Definition concatPaths (p1 : option text) (p2 : text) : option text :=
  p1 ← p1;
  Some match p1, p2 with
       | [], _ => p2
       | _, [] => p1
       | _, c :: p2' =>
           if ends_slash p1 && starts_slash p2 then p1 ++ p2'
           else if negb (ends_slash p1) && negb (starts_slash p2) then p1 ++ slash :: p2
           else p1 ++ p2
       end.

(** [strstr(path, "/.")] *)
Fixpoint has_slash_dot (s : text) : bool :=
  match s with
  | a :: ((b :: _) as s') => (eqc slash a && eqc dot b) || has_slash_dot s'
  | _ => false
  end.

Definition isAbsolutePath (path : text) : bool := starts_slash path && negb (has_slash_dot path).

(** An entry of the table; a null [value] is what [bzero] leaves. *)
Record entry := mkEntry { value : option text; used : bool }.

(** The components [strtok_r] returns for the separator '/'. *)
Fixpoint strtok_from (cur s : text) : list text :=
  match s with
  | [] => match cur with [] => [] | _ => [cur] end
  | a :: s => if eqc slash a then match cur with [] => strtok_from [] s | _ => cur :: strtok_from [] s end
              else strtok_from (cur ++ [a]) s
  end.
Definition strtok (s : text) : list text := strtok_from [] s.

Definition isDot (v : text) : bool := bool_decide (v = [dot]).
Definition isDotDot (e : entry) : option bool := v ← value e; Some (bool_decide (v = [dot; dot])).

(** The text without its last character if that is a slash. *)
Definition drop_last_slash (s : text) : text := if ends_slash s then removelast s else s.

(** [splitPath] into a table of [num] entries: the entries in use, the whole table
    for the root; [None]: false. *)
Definition splitPath (path : text) (num : nat) : option (list entry) :=
  if negb (starts_slash path) then None
  else if (num =? 0)%nat then None
  else match tail path with
       | [] => Some (mkEntry (Some []) true :: replicate (num - 1) (mkEntry None false))
       | buf =>
           let l := List.filter (fun c => negb (isDot c)) (strtok (drop_last_slash buf)) in
           if (num <? 1 + length l)%nat then None
           else Some (mkEntry (Some []) true :: map (fun c => mkEntry (Some c) true) l)
       end.

Definition clear_used (e : entry) : entry := mkEntry (value e) false.

(** the inner loop: [j] goes down to the nearest entry that is in use *)
Fixpoint drop_back (parts : list entry) (j : nat) : option (list entry) :=
  match j with
  | 0 => Some parts
  | S j' =>
      e ← parts !! j;
      dd ← isDotDot e;
      if dd || negb (used e) then drop_back parts j' else Some (alter clear_used j parts)
  end.

(** the first loop of [mergePath], from entry [i] on for [n] entries *)
Fixpoint resolve_dots (parts : list entry) (i n : nat) : option (list entry) :=
  match n with
  | 0 => Some parts
  | S n =>
      e ← parts !! i;
      dd ← isDotDot e;
      parts ← (if (dd : bool) then parts' ← drop_back parts (i - 1); Some (alter clear_used i parts') else Some parts);
      resolve_dots parts (S i) n
  end.

(** the second loop: [dest] holds the text so far, [idx] its length in the buffer of
    [size] bytes; [None] in the inner option: it does not fit *)
Fixpoint write_parts (parts : list entry) (first : bool) (dest : text) (size : nat) : option (option text) :=
  match parts with
  | [] => Some (Some dest)
  | e :: parts =>
      if negb (used e) then write_parts parts first dest size
      else if first then write_parts parts false dest size
      else
        v ← value e;
        if (size <=? length dest + length v + 1)%nat then Some None
        else write_parts parts false (dest ++ slash :: v) size
  end.

(** [mergePath]: the buffer starts with a slash, which the first component
    overwrites. *)
Definition mergePath (parts : list entry) (size : nat) : option (option text) :=
  if (length parts =? 0)%nat || (size =? 0)%nat then Some None
  else
    parts ← resolve_dots parts 0 (length parts);
    r ← write_parts parts true [] size;
    Some (match r with Some [] => Some [slash] | r => r end).

Definition doRealpath (path : text) : option (option text) :=
  match path with
  | [] => Some None
  | _ =>
      if starts_slash path && negb (existsb (eqc dot) path) then Some (Some path)
      else match splitPath path gMaxPathSize with
           | None => Some None
           | Some entries => mergePath entries gMaxPathSize
           end
  end.

Definition isHomePath (path : text) : bool := match path with a :: _ => eqc "~"%char a | [] => false end.

(** [makeAbsolutePath]; [home] is the variable HOME, [cwd] what [getcwd] returns *)
Definition makeAbsolutePath (home cwd : option text) (path : text) : option (option text) :=
  if isAbsolutePath path then Some (Some path)
  else if isHomePath path then
    match home with
    | None => Some None
    | Some h => p ← concatPaths (Some h) (tail path); doRealpath p
    end
  else p ← concatPaths cwd path; doRealpath p.

End Absolutize.

Module Calls.

(** fcntl.h *)
Definition O_RDONLY : Z := 0.
Definition O_WRONLY : Z := 1.
Definition O_RDWR : Z := 2.
Definition O_APPEND : Z := 8.
Definition O_TRUNC : Z := 0x400.

(** the kernel's flags *)
Definition FILE_OPEN_READ : Z := 1.
Definition FILE_OPEN_WRITE : Z := 2.
Definition FILE_OPEN_NEW : Z := 4.
Definition FILE_OPEN_APPEND : Z := 16.

(** [FLAG_TEST], [FLAG_MATCH] *)
Definition flag_test (flags flag : Z) : bool := (flag =? Z.land flags flag)%Z.
Definition flag_match (flags c p puppy_flags : Z) : Z := if flag_test flags c then Z.lor puppy_flags p else puppy_flags.

Definition open_flags (flags : Z) : Z :=
  if (flags =? O_RDONLY)%Z then FILE_OPEN_READ
  else
    let f := flag_match flags O_WRONLY FILE_OPEN_WRITE 0 in
    let f := flag_match flags O_APPEND FILE_OPEN_APPEND f in
    let f := flag_match flags O_TRUNC FILE_OPEN_NEW f in
    flag_match flags O_RDWR (Z.lor FILE_OPEN_READ FILE_OPEN_WRITE) f.

(** [open]: [fopen_syscall] is the system call; the answer has its error bit below
    the value.  [-1]: an error. *)
Definition response (r : Z) : Z := if negb (Z.land r 1 =? 0)%Z then -1 else Z.shiftr r 1.

Definition open (fopen_syscall : text -> Z -> Z) (home cwd : option text) (name : text) (flags : Z) : option Z :=
  match name with
  | [] => Some (-1)%Z
  | _ =>
      rp ← Absolutize.makeAbsolutePath home cwd name;
      match rp with
      | None => Some (-1)%Z
      | Some p => Some (response (fopen_syscall p (open_flags flags)))
      end
  end.

(** [chdir], [mkdir] and [unlink] refuse an empty path before and after it is made
    absolute. *)
Definition path_call (syscall : text -> Z) (home cwd : option text) (path : text) : option Z :=
  match path with
  | [] => Some (-1)%Z
  | _ =>
      rp ← Absolutize.makeAbsolutePath home cwd path;
      match rp with
      | None | Some [] => Some (-1)%Z
      | Some p => Some (if (syscall p =? 0)%Z then 0 else -1)%Z
      end
  end.

(** [lseek] on the size of a regular file ([None]: [fstat] fails or it is not one);
    [fseek] answers with its error code, [ftell] with the position. *)
Inductive whence := SEEK_SET | SEEK_CUR | SEEK_END | SEEK_OTHER.

Section Lseek.
Context {F : Type} (fseek : Z -> F -> Z * F) (ftell : F -> option Z).

Definition seek_tell (pos : Z) (f : F) : Z * F :=
  let '(e, f') := fseek (u32 pos) f in
  if negb (e =? 0)%Z then (-1, f')%Z
  else (default (-1)%Z (ftell f'), f').

Definition lseek (size : option Z) (ptr : Z) (dir : whence) (f : F) : Z * F :=
  match dir with
  | SEEK_END => match size with None => (-1, f)%Z | Some pos => seek_tell pos f end
  | SEEK_CUR =>
      match ftell f with
      | None => (-1, f)%Z
      | Some pos => if (ptr =? 0)%Z then (pos, f) else seek_tell (pos + ptr) f
      end
  | SEEK_SET => seek_tell ptr f
  | SEEK_OTHER => (-1, f)%Z
  end.
End Lseek.

End Calls.

(** ** Kinds of files: sys/stat.h and [fstat] *)
Module Stat.
Import MemFS.
Local Open Scope Z_scope.

Definition S_IFMT : Z := 0xF000.
Definition S_IFDIR : Z := 0x4000.
Definition S_IFCHR : Z := 0x2000.
Definition S_IFBLK : Z := 0x6000.
Definition S_IFREG : Z := 0x8000.
Definition S_IFIFO : Z := 0x1000.
Definition S_IFQUEUE : Z := 0xE000.
Definition S_IFTTY : Z := 0x10000.
Definition S_IFSEMAPHORE : Z := 0x14000.
Definition S_IFMUTEX : Z := 0x17000.
Definition S_IFEVENT : Z := 0x18000.

Definition S_ISDIR (m : Z) : bool := Z.land m S_IFMT =? S_IFDIR.
Definition S_ISREG (m : Z) : bool := Z.land m S_IFMT =? S_IFREG.

(** the [MATCH] cases *)
Definition mode_of (k : kind_t) : Z :=
  match k with
  | file => S_IFREG | directory => S_IFDIR | chardevice => S_IFCHR | blockdevice => S_IFBLK | pipe => S_IFIFO
  | msgqueue => S_IFQUEUE | tty => S_IFTTY | semaphore => S_IFSEMAPHORE | mutex => S_IFMUTEX | event => S_IFEVENT
  end.

Record stat_t := mkStatT { st_mode : Z; st_len : Z; st_atime : Z }.

(** what the system call stored, if it succeeded *)
Definition fstat (r : option file_stat_t) : Z * stat_t :=
  match r with
  | Some fs => (0, mkStatT (mode_of (st_kind fs)) (st_size fs) (st_time fs))
  | None => (-1, mkStatT 0 0 0)
  end.
Definition isatty (r : option file_stat_t) : Z :=
  let '(ok, st) := fstat r in if (ok =? 0) && (st_mode st =? S_IFTTY) then 1 else 0.

(** [stat] opens the file, and closes it whatever [fstat] says. *)
Definition stat {F} (open : F -> Z * F) (fstat_syscall : Z -> F -> option file_stat_t) (close : Z -> F -> F)
    (f : F) : Z * stat_t * F :=
  let '(fd, f) := open f in
  if fd =? -1 then (-1, mkStatT 0 0 0, f)
  else let '(ok, st) := fstat (fstat_syscall fd f) in (ok, st, close fd f).

End Stat.

(** ** [getcwd], over the system call of [ProcCalls] *)
Module Cwd.
Import ProcCalls Proc.
Local Open Scope Z_scope.

(** [None]: null.  The buffer that is allocated after the first call has a byte more
    than the call asked for, but the size passed is the one it asked for. *)
Definition getcwd (cur : process_t) (buf_null : bool) (sz : Z) : option string :=
  let sz := if buf_null then 0 else sz in
  match getcurdir cur buf_null sz with
  | (_, inr s) => Some s
  | (_, inl sz) =>
      if buf_null then match getcurdir cur false sz with (_, inr s) => Some s | (_, inl _) => None end
      else None
  end.
End Cwd.

(** ** [sbrk], over [mapregion] *)
Module Brk.
Import MemMgr MemCalls.
Local Open Scope Z_scope.

Definition gRegion : Z := 256 * 1024 * 1024.

(** [ptr]: [gSbrkPointer], 0 before the first call.  The answer and the new pointer. *)
Definition sbrk (ptr incr : Z) (m : mm) (s : Virt.vm) : option (Z * Z * mm * Virt.vm) :=
  '(ptr, m, s) ← (if ptr =? 0 then mapregion m s gRegion 1 else Some (ptr, m, s));
  Some (ptr, u32 (ptr + incr), m, s).

Fixpoint sbrks (ptr : Z) (incs : list Z) (m : mm) (s : Virt.vm) : option (list Z * Z * mm * Virt.vm) :=
  match incs with
  | [] => Some ([], ptr, m, s)
  | i :: incs =>
      '(a, ptr, m, s) ← sbrk ptr i m s;
      '(l, ptr, m, s) ← sbrks ptr incs m s;
      Some (a :: l, ptr, m, s)
  end.
End Brk.

(** ** Processes *)
Module Spawn.
Local Open Scope Z_scope.

Definition PROCESS_IS_FOREGROUND : Z := 1.
Definition PROCESS_INHERITS_CWD : Z := 2.
Definition PROCESS_EMPTY_ENVIRONMENT : Z := 4.
Definition SIGKILL : Z := 9.

(** The call: path, arguments, environment, flags, file operations. *)
Section Calls.
Context (exec_syscall : text -> list text -> option (list text) -> Z -> list Life.fileop -> Z).
Context (home cwd : option text) (environ : list text).

Definition newProcessImpl (path : text) (args : list text) (env : option (list text)) (flags : Z)
    (fops : list Life.fileop) : option Z :=
  match path with
  | [] => Some (-1)
  | _ =>
      rp ← Absolutize.makeAbsolutePath home cwd path;
      match rp with
      | None | Some [] => Some (-1)
      | Some p => Some (Calls.response (exec_syscall p args env flags fops))
      end
  end.

Definition execve (path : text) (argv : list text) (env : option (list text)) : option Z :=
  newProcessImpl path argv env (Z.lor PROCESS_IS_FOREGROUND PROCESS_INHERITS_CWD) [].
Definition execv (path : text) (argv : list text) : option Z := execve path argv (Some environ).

Definition spawn (path : text) (argv : list text) (flags : Z) (fops : list Life.fileop) : option Z :=
  let clear_env := PROCESS_EMPTY_ENVIRONMENT =? Z.land flags PROCESS_EMPTY_ENVIRONMENT in
  newProcessImpl path argv (if clear_env then None else Some environ)
    (Z.land flags (Z.lnot PROCESS_EMPTY_ENVIRONMENT)) fops.
End Calls.

Definition kill (kill_syscall : Z -> Z) (pid sig : Z) : Z :=
  if negb (sig =? SIGKILL) then -1 else if kill_syscall pid =? 0 then 0 else -1.
Definition dup2 (fdup_syscall : Z -> Z -> Z) (oldfd newfd : Z) : Z := Calls.response (fdup_syscall oldfd newfd).
Definition dup (fdup_syscall : Z -> Z -> Z) (oldfd : Z) : Z := dup2 fdup_syscall oldfd 0.

End Spawn.
