(* ===== verification/MachineThms.v ===== *)
(** Properties of the code that programs the hardware. *)

From Stdlib Require Import ZArith Lia.
From stdpp Require Import base list option gmap sets.
From S2P Require Import Prelude PQueue Tables Time Files Kernel Sched System ProcessThms Timer Machine.

#[local] Open Scope Z_scope.

(** ** Nested disabling of interrupts *)
Module Cli.
Import Idt.

Section Cli.
Context {F : Type}.
Abbreviation interrupts := (@Idt.interrupts F).

(** What the kernel does with the flag. *)
Inductive reach (stubs : list Z) (b : bool) : interrupts -> Prop :=
| r_new : reach stubs b (new stubs b)
| r_enable i : reach stubs b i -> reach stubs b (enable i)
| r_disable i : reach stubs b i -> reach stubs b (disable i)
| r_handler i irq n f q : reach stubs b i -> reach stubs b (sethandler i irq n f q)
| r_wake i irq q : reach stubs b i -> reach stubs b (setWakeQueue i irq q).

Definition cli_ok (i : interrupts) : Prop := mCliCount i <= 1 /\ eflags_if i = (mCliCount i =? 1).

Lemma enable_ok i : cli_ok i -> cli_ok (enable i).
Proof.
  unfold cli_ok, enable. intros [Hc He]. case_tests; cbn; bool_to_prop; try done; split; try lia.
  rewrite He. destruct (Z.eqb_spec (mCliCount i) 1), (Z.eqb_spec (mCliCount i + 1) 1); try done; lia.
Qed.
Lemma disable_ok i : cli_ok i -> cli_ok (disable i).
Proof.
  unfold cli_ok, disable. intros [Hc He]. case_tests; cbn; bool_to_prop; try done; split; try lia.
  rewrite He. destruct (Z.eqb_spec (mCliCount i) 1), (Z.eqb_spec (mCliCount i - 1) 1); try done; lia.
Qed.

Lemma reach_ok stubs b i : reach stubs b i -> cli_ok i.
Proof.
  induction 1; [by destruct b|by apply enable_ok|by apply disable_ok|done|done].
Qed.

Fixpoint times (n : nat) (f : interrupts -> interrupts) (i : interrupts) : interrupts :=
  match n with O => i | S n => times n f (f i) end.

Lemma times_S n f i : times (S n) f i = f (times n f i).
Proof. revert i. induction n as [|n IH]; intros i; [done|]. cbn [times] in *. apply IH. Qed.

(** One scope: the state comes back. *)
Lemma enable_disable i : cli_ok i -> enable (disable i) = i.
Proof.
  intros [Hc He]. destruct i as [en hs c d e]. cbn in *. unfold enable, disable, with_cli. cbn.
  destruct (Z.eqb_spec c 1) as [->|Hne]; cbn; [by rewrite He|].
  destruct (Z.leb_spec c 0); [|lia]. cbn. destruct (Z.eqb_spec (c - 1) 0); [lia|].
  destruct (Z.ltb_spec (c - 1) 0); [|lia]. f_equal. lia.
Qed.

Lemma disable_off i : cli_ok i -> eflags_if (disable i) = false.
Proof.
  intros [Hc He]. unfold disable. destruct (Z.eqb_spec (mCliCount i) 1) as [E|Hne]; [done|].
  destruct (Z.leb_spec (mCliCount i) 0); [|lia]. done.
Qed.

Lemma times_ok n i : cli_ok i -> cli_ok (times n disable i).
Proof. revert i. induction n as [|n IH]; intros i Hi; [done|]. cbn [times]. by apply IH, disable_ok. Qed.
End Cli.
End Cli.



(** ** Gates *)

(** of the 256 gates only 0x80, that of the system calls, can be called from
    user space, and each gate leads to its own entry point. *)
Theorem only_syscall_gate_from_user {F} (stubs : list Z) (b : bool) (n : nat) (s : Z) :
  Forall is_u32 stubs -> stubs !! n = Some s ->
  exists e, Idt.mEntries (@Idt.new F stubs b) !! n = Some e
    /\ (Z.land (Idt.mInfo e) 0x60 = 0x60 <-> n = 128%nat)
    /\ (Z.land (Idt.mInfo e) 0x60 = 0 <-> n <> 128%nat)
    /\ Idt.mOffsetLow e + 2 ^ 16 * Idt.mOffsetHigh e = s.
Proof.
  intros Hs Hn. cbn [Idt.new Idt.mEntries]. rewrite list_lookup_imap, Hn. cbn [fmap option_fmap option_map].
  eexists. split; [done|].
  assert (Hoff : forall h m, Idt.mOffsetLow (Idt.entry s h m) + 2 ^ 16 * Idt.mOffsetHigh (Idt.entry s h m) = s).
  { intros h m. cbn. assert (Hu : is_u32 s) by (by eapply list.Forall_forall; [|eapply list_elem_of_lookup_2]).
    unfold is_u in Hu. change 65535 with (Z.ones 16). rewrite Z.land_ones by lia.
    replace (Z.shiftr (Z.land s 4294901760) 16) with (s / 2 ^ 16).
    - pose proof (Z.div_mod s (2 ^ 16)). lia.
    - rewrite Z.shiftr_land. change (Z.shiftr 4294901760 16) with (Z.ones 16). rewrite Z.land_ones, Z.shiftr_div_pow2 by lia.
      rewrite Z.mod_small; [done|]. split; [apply Z.div_pos; lia|apply Z.div_lt_upper_bound; lia]. }
  destruct (Nat.eqb_spec n 128) as [->|Hne]; (split; [|split; [|apply Hoff]]); cbn; try done.
Qed.

Lemma only_syscall_gate_from_user_witness :
  exists e, Idt.mEntries (@Idt.new unit (replicate 256 0xC0101234) true) !! 128%nat = Some e
    /\ (Z.land (Idt.mInfo e) 0x60 = 0x60 <-> 128%nat = 128%nat)
    /\ (Z.land (Idt.mInfo e) 0x60 = 0 <-> 128%nat <> 128%nat)
    /\ Idt.mOffsetLow e + 2 ^ 16 * Idt.mOffsetHigh e = 0xC0101234.
Proof.
  apply (only_syscall_gate_from_user (replicate 256 0xC0101234) true 128 0xC0101234); [|reflexivity].
  apply Forall_replicate. unfold is_u. lia.
Defined.

(** ** The interrupt mask *)
Module PicMask.
Import Pic.

(** The 8259 as its data sheet has it: [mask] is the mask register of a controller,
    [pending] how many initialisation words it still expects on its data port; a
    command with bit 4 set starts the initialisation and clears the mask. *)
Class Pic8259 (W : Type) `{Ports W} := {
  mask : Z -> W -> Z;
  pending : Z -> W -> nat;
  mask_byte p w : p = 0 \/ p = 1 -> is_u8 (mask p w);
  read_data p w : p = 0 \/ p = 1 ->
    fst (inb (dataPort p) w) = mask p w
    /\ forall q, mask q (snd (inb (dataPort p) w)) = mask q w /\ pending q (snd (inb (dataPort p) w)) = pending q w;
  write_data p v w q : p = 0 \/ p = 1 -> q = 0 \/ q = 1 -> is_u8 v ->
    mask q (outb (dataPort p) v w) = (if (p =? q) && (pending p w =? 0)%nat then v else mask q w)
    /\ pending q (outb (dataPort p) v w) = (if p =? q then Nat.pred (pending q w) else pending q w);
  write_command p v w q : p = 0 \/ p = 1 -> q = 0 \/ q = 1 ->
    mask q (outb (commandPort p) v w) = (if (p =? q) && Z.testbit v 4 then 0 else mask q w)
    /\ pending q (outb (commandPort p) v w) = (if (p =? q) && Z.testbit v 4 then 3%nat else pending q w) }.

Section Mask.
Context {W : Type} `{Pic8259 W}.

(** Interrupts 0 to 15 that reach the processor. *)
Definition accepted (irq : Z) (w : W) : bool :=
  let '(p, line) := split_irq irq in negb (Z.testbit (mask p w) line).

Definition idle (w : W) : Prop := pending 0 w = 0%nat /\ pending 1 w = 0%nat.

Lemma split_irq_ok irq : 0 <= irq < 16 ->
  exists p l, split_irq irq = (p, l) /\ (p = 0 \/ p = 1) /\ 0 <= l < 8 /\ irq = 8 * p + l.
Proof.
  intros Hi. unfold split_irq. destruct (Z.ltb_spec irq 8).
  - exists 0, irq. split_and!; auto; lia.
  - exists 1, (irq - 8). unfold u8. rewrite wrap_id by (unfold is_u; lia). split_and!; auto; lia.
Qed.

Lemma testbit_u8 z n : 0 <= n < 8 -> Z.testbit (u8 z) n = Z.testbit z n.
Proof. intros Hn. unfold u8, wrap. by rewrite Z.mod_pow2_bits_low by lia. Qed.

Lemma is_u8_u8 z : is_u8 (u8 z).
Proof. unfold is_u, u8, wrap. apply Z.mod_pos_bound. lia. Qed.

(** Writing the mask of one controller when it expects no initialisation word. *)
Lemma write_mask (f : Z -> Z) p w : (p = 0 \/ p = 1) -> idle w ->
  let w' := outb (dataPort p) (u8 (f (fst (inb (dataPort p) w)))) (snd (inb (dataPort p) w)) in
  idle w' /\ forall q, q = 0 \/ q = 1 -> mask q w' = if p =? q then u8 (f (mask p w)) else mask q w.
Proof.
  intros Hp [Hz Ho] w'. destruct (read_data p w Hp) as [Hr Hs]. unfold w'. rewrite Hr. split.
  - split.
    + destruct (write_data p (u8 (f (mask p w))) (snd (inb (dataPort p) w)) 0 Hp (or_introl eq_refl) (is_u8_u8 _)) as [_ ->].
      rewrite (proj2 (Hs 0)), Hz. by destruct (p =? 0).
    + destruct (write_data p (u8 (f (mask p w))) (snd (inb (dataPort p) w)) 1 Hp (or_intror eq_refl) (is_u8_u8 _)) as [_ ->].
      rewrite (proj2 (Hs 1)), Ho. by destruct (p =? 1).
  - intros q Hq. destruct (write_data p (u8 (f (mask p w))) (snd (inb (dataPort p) w)) q Hp Hq (is_u8_u8 _)) as [-> _].
    rewrite (proj2 (Hs p)), (proj1 (Hs q)). destruct Hp as [-> | ->]; rewrite ?Hz, ?Ho; by rewrite andb_true_r.
Qed.

Lemma accept_spec irq w : 0 <= irq < 16 -> idle w ->
  idle (accept irq w) /\ forall j, 0 <= j < 16 -> accepted j (accept irq w) = bool_decide (j = irq) || accepted j w.
Proof.
  intros Hi Hw. destruct (split_irq_ok irq Hi) as (p & l & E & Hp & Hl & ->).
  destruct (write_mask (fun d => Z.land d (Z.lnot (Z.shiftl 1 l))) p w Hp Hw) as [Hidle Hm].
  unfold accept. rewrite E. destruct (inb (dataPort p) w) as [data w1]. cbn [fst snd] in *.
  split; [done|]. intros j Hj. unfold accepted. destruct (split_irq_ok j Hj) as (q & m & -> & Hq & Hml & ->).
  rewrite Hm by done. destruct (Z.eqb_spec p q) as [->|Hne].
  - rewrite testbit_u8, Z.land_spec, Z.lnot_spec, Z.shiftl_spec, negb_andb by lia.
    rewrite negb_involutive. destruct (decide (m = l)) as [->|Hml'].
    + rewrite Z.sub_diag. change (Z.testbit 1 0) with true. rewrite orb_true_r. by rewrite bool_decide_eq_true_2 by lia.
    + rewrite bool_decide_eq_false_2 by lia. replace (Z.testbit 1 (m - l)) with false; [by rewrite orb_false_r|].
      symmetry. destruct (Z.lt_ge_cases (m - l) 0); [by apply Z.testbit_neg_r|]. apply Z.bits_above_log2; cbn; lia.
  - by rewrite bool_decide_eq_false_2 by lia.
Qed.

Lemma ignore_spec irq w : 0 <= irq < 16 -> idle w ->
  idle (ignore irq w) /\ forall j, 0 <= j < 16 -> accepted j (ignore irq w) = negb (bool_decide (j = irq)) && accepted j w.
Proof.
  intros Hi Hw. destruct (split_irq_ok irq Hi) as (p & l & E & Hp & Hl & ->).
  destruct (write_mask (fun d => Z.lor d (Z.shiftl 1 l)) p w Hp Hw) as [Hidle Hm].
  unfold ignore. rewrite E. destruct (inb (dataPort p) w) as [data w1]. cbn [fst snd] in *.
  split; [done|]. intros j Hj. unfold accepted. destruct (split_irq_ok j Hj) as (q & m & -> & Hq & Hml & ->).
  rewrite Hm by done. destruct (Z.eqb_spec p q) as [->|Hne].
  - rewrite testbit_u8, Z.lor_spec, Z.shiftl_spec, negb_orb by lia.
    destruct (decide (m = l)) as [->|Hml'].
    + rewrite Z.sub_diag. change (Z.testbit 1 0) with true. cbn [negb]. rewrite andb_false_r.
      by rewrite bool_decide_eq_true_2 by lia.
    + rewrite bool_decide_eq_false_2 by lia. replace (Z.testbit 1 (m - l)) with false; [by rewrite andb_true_r|].
      symmetry. destruct (Z.lt_ge_cases (m - l) 0); [by apply Z.testbit_neg_r|]. apply Z.bits_above_log2; cbn; lia.
  - by rewrite bool_decide_eq_false_2 by lia.
Qed.

Lemma ignore_all l w : Forall (fun i => 0 <= i < 16) l -> idle w ->
  let w' := foldl (fun w i => ignore i w) w l in
  idle w' /\ forall j, 0 <= j < 16 -> accepted j w' = negb (bool_decide (j ∈ l)) && accepted j w.
Proof.
  intros Hl. revert w. induction Hl as [|i l Hi Hl IH]; intros w Hw; cbn [foldl].
  - split; [done|]. intros j _. rewrite bool_decide_eq_false_2 by set_solver. done.
  - destruct (ignore_spec i w Hi Hw) as [Hw1 H1]. destruct (IH _ Hw1) as [Hw2 H2]. split; [done|].
    intros j Hj. rewrite H2, H1 by done. rewrite andb_assoc. f_equal. rewrite <- negb_orb. f_equal.
    rewrite <- bool_decide_or. apply bool_decide_ext. set_solver.
Qed.

(** What a sequence of port writes leaves of a controller's initialisation. *)
Lemma data_pending p q v w : (p = 0 \/ p = 1) -> (q = 0 \/ q = 1) -> is_u8 v ->
  pending q (outb (dataPort p) v w) = if p =? q then Nat.pred (pending q w) else pending q w.
Proof. intros Hp Hq Hv. apply (write_data p v w q Hp Hq Hv). Qed.
Lemma init_pending p q w : (p = 0 \/ p = 1) -> (q = 0 \/ q = 1) ->
  pending q (outb (commandPort p) 0x11 w) = if p =? q then 3%nat else pending q w.
Proof. intros Hp Hq. destruct (write_command p 0x11 w q Hp Hq) as [_ ->]. by rewrite andb_true_r. Qed.

Lemma new_spec m w : idle (snd (new m w)) /\ forall j, 0 <= j < 16 -> accepted j (snd (new m w)) = bool_decide (j = 2).
Proof.
  assert (Hz : 0 = 0 \/ 0 = 1) by auto. assert (Ho : 1 = 0 \/ 1 = 1) by auto.
  unfold new. pose proof (read_data 0 w Hz) as [Ha0 _]. pose proof (mask_byte 0 w Hz) as Hb0.
  destruct (inb (dataPort 0) w) as [a0 w0]. cbn [fst] in Ha0. subst a0.
  pose proof (read_data 1 w0 Ho) as [Ha1 _]. pose proof (mask_byte 1 w0 Ho) as Hb1.
  destruct (inb (dataPort 1) w0) as [a1 w1]. cbn [fst] in Ha1. subst a1. cbn [snd].
  set (wi := outb (dataPort 1) (mask 1 w0) _).
  assert (Hidle : idle wi).
  { unfold wi. split; rewrite !data_pending, !init_pending by (first [done|unfold is_u; cbn; lia]); done. }
  clearbody wi.
  destruct (ignore_all (seqZ 0 16) wi) as [Hi Hall]; [|done|].
  { apply list.Forall_forall. intros i Hi%elem_of_seqZ. lia. }
  destruct (accept_spec 2 (foldl (fun w i => ignore i w) wi (seqZ 0 16)) ltac:(lia) Hi) as [Hi2 Hacc].
  split; [done|]. intros j Hj. rewrite Hacc, Hall by done.
  rewrite (bool_decide_eq_true_2 (j ∈ seqZ 0 16)) by (apply elem_of_seqZ; lia). apply orb_false_r.
Qed.

(** A driver's use of the controllers, and what it is to mean. *)
Inductive op := Accept (irq : Z) | Ignore (irq : Z).
Definition op_irq (o : op) : Z := match o with Accept i | Ignore i => i end.
Definition apply (w : W) (o : op) : W := match o with Accept i => accept i w | Ignore i => ignore i w end.
Definition meant (s : gset Z) (o : op) : gset Z := match o with Accept i => {[ i ]} ∪ s | Ignore i => s ∖ {[ i ]} end.

Lemma ops_spec ops w s : Forall (fun o => 0 <= op_irq o < 16) ops -> idle w ->
  (forall j, 0 <= j < 16 -> accepted j w = bool_decide (j ∈ s)) ->
  forall j, 0 <= j < 16 -> accepted j (foldl apply w ops) = bool_decide (j ∈ foldl meant s ops).
Proof.
  intros Hops. revert w s. induction Hops as [|o ops Ho Hops IH]; intros w s Hw Hs; [done|]. cbn [foldl].
  destruct o as [i|i]; cbn [op_irq apply meant] in *.
  - destruct (accept_spec i w Ho Hw) as [Hw1 H1]. apply IH; [done|]. intros j Hj. rewrite H1, Hs by done.
    rewrite <- bool_decide_or. apply bool_decide_ext. set_solver.
  - destruct (ignore_spec i w Ho Hw) as [Hw1 H1]. apply IH; [done|]. intros j Hj. rewrite H1, Hs by done.
    rewrite <- bool_decide_not, <- bool_decide_and. apply bool_decide_ext. set_solver.
Qed.
End Mask.
End PicMask.

(** whatever state the interrupt controllers are in at boot, after the
    constructor and any sequence of [accept] and [ignore] the interrupts that reach
    the processor are those the sequence asks for, starting from the cascade (2)
    alone. *)
Theorem pic_accepts_what_is_asked {W} `{PicMask.Pic8259 W} (m : IoPorts.manager) (w : W) (ops : list PicMask.op) (j : Z) :
  Forall (fun o => 0 <= PicMask.op_irq o < 16) ops -> 0 <= j < 16 ->
  PicMask.accepted j (foldl PicMask.apply (snd (Pic.new m w)) ops) = bool_decide (j ∈ foldl PicMask.meant {[ 2 ]} ops).
Proof.
  intros Hops Hj. destruct (PicMask.new_spec m w) as [Hi Hn]. apply PicMask.ops_spec; [done|done| |done].
  intros i Hi'. rewrite Hn by done. apply bool_decide_ext. set_solver.
Qed.

(** Two such controllers. *)
Module Chips.
Import Pic PicMask.

Record chips := mkChips { m0 : Z; m1 : Z; p0 : nat; p1 : nat }.

Definition write (port v : Z) (c : chips) : chips :=
  if port =? 0x21 then mkChips (if (p0 c =? 0)%nat then u8 v else m0 c) (m1 c) (Nat.pred (p0 c)) (p1 c)
  else if port =? 0xA1 then mkChips (m0 c) (if (p1 c =? 0)%nat then u8 v else m1 c) (p0 c) (Nat.pred (p1 c))
  else if (port =? 0x20) && Z.testbit v 4 then mkChips 0 (m1 c) 3 (p1 c)
  else if (port =? 0xA0) && Z.testbit v 4 then mkChips (m0 c) 0 (p0 c) 3
  else c.

#[global] Instance chips_ports : Ports chips := {
  inb port c := (u8 (if port =? 0x21 then m0 c else if port =? 0xA1 then m1 c else 0), c);
  outb := write; inl_ _ c := (0, c); outl _ _ c := c }.

#[global] Program Instance chips_8259 : Pic8259 chips := {
  mask p c := u8 (if p =? 0 then m0 c else m1 c); pending p c := if p =? 0 then p0 c else p1 c }.
Next Obligation. intros. apply is_u8_u8. Qed.
Next Obligation. intros p w [-> | ->]; done. Qed.
Next Obligation.
  intros p v w q [-> | ->] [-> | ->] Hv; cbn; try done; destruct (p0 w), (p1 w); cbn; split; try done;
    unfold u8; by rewrite !(wrap_id 8 v Hv).
Qed.
Next Obligation.
  intros p v w q [-> | ->] [-> | ->]; unfold outb; cbn [chips_ports]; unfold write; destruct (Z.testbit v 4); done.
Qed.
End Chips.

Lemma pic_accepts_what_is_asked_witness :
  PicMask.accepted 8 (foldl PicMask.apply (snd (Pic.new ∅ (Chips.mkChips 255 0 0 1))) [PicMask.Accept 8; PicMask.Ignore 2]) = true.
Proof.
  rewrite (pic_accepts_what_is_asked ∅ (Chips.mkChips 255 0 0 1) [PicMask.Accept 8; PicMask.Ignore 2] 8).
  - reflexivity.
  - repeat constructor; cbn; lia.
  - lia.
Defined.

(** ** The clock *)
Module Clock.
Import Rtc.

(** Two decimal digits of a byte. *)
Definition bcd (x : Z) : Z := x / 10 * 16 + x mod 10.

Lemma bcd_range x : 0 <= x < 100 -> 0 <= bcd x < 256 /\ bcd_to_binary (bcd x) = x.
Proof.
  intros Hx. assert (Hall : forallb (fun x => (0 <=? bcd x) && (bcd x <? 256) && (bcd_to_binary (bcd x) =? x)) (seqZ 0 100) = true)
    by (vm_compute; reflexivity).
  rewrite forallb_forall in Hall.
  assert (Hin : In x (seqZ 0 100)) by (apply list_elem_of_In, elem_of_seqZ; lia).
  specialize (Hall x Hin). bool_to_prop. lia.
Qed.

(** The registers of a clock in the form most machines have: two digits each, 24 hours. *)
Definition registers (d : Calendar.date_components_t) (t : Calendar.time_components_t) : cmos_now_t :=
  mkNow (bcd (Calendar.hour t)) (bcd (Calendar.minute t)) (bcd (Calendar.second t))
        (bcd (Calendar.day d)) (bcd (Calendar.month d)) (bcd (Calendar.year d mod 100)).

Lemma wrap_bcd w x : 8 <= w -> 0 <= x < 100 -> wrap w (bcd_to_binary (bcd x)) = x.
Proof.
  intros Hw Hx. rewrite (proj2 (bcd_range x Hx)). apply wrap_id. unfold is_u.
  assert (2 ^ 8 <= 2 ^ w) by (apply Z.pow_le_mono_r; lia). lia.
Qed.

Lemma adjust_registers d t : Calendar.valid_date d -> Calendar.valid_time t -> 2018 <= Calendar.year d < 2118 ->
  adjust false true (registers d t)
  = mkNow (Calendar.hour t) (Calendar.minute t) (Calendar.second t) (Calendar.day d) (Calendar.month d) (Calendar.year d).
Proof.
  intros (_ & Hm & Hd) (Hh & Hmi & Hs) Hy.
  pose proof (Calendar.month_length_bound (Calendar.year d) (Calendar.month d) Hm).
  unfold adjust, registers. cbn [hour minute second day month year]. unfold u8, u16.
  assert (Hyr : 0 <= Calendar.year d mod 100 < 100) by (apply Z.mod_pos_bound; lia).
  rewrite !wrap_bcd by lia. f_equal.
  rewrite wrap_id.
  - destruct (Z.geb_spec (Calendar.year d mod 100) 18); lia.
  - unfold is_u. destruct (Z.geb_spec (Calendar.year d mod 100) 18); lia.
Qed.

(** A machine whose clock shows the date and the time and does not change meanwhile. *)
Class Shows (W : Type) `{Ports W} (n : cmos_now_t) (regb : Z) (inside : W -> Prop) := {
  shows_now w : inside w -> exists w', now w = (n, w') /\ inside w';
  shows_regb w : inside w -> exists w', read gStatusRegisterB w = (regb, w') /\ inside w';
  shows_update w : inside w -> exists w', updating w = (false, w') /\ inside w' }.

Lemma steady_shows {W} `{Shows W n regb inside} fuel (w : W) : (2 <= fuel)%nat -> inside w ->
  exists w', steady fuel w = Some (n, w') /\ inside w'.
Proof.
  intros Hf Hw. destruct fuel as [|[|fuel]]; [lia..|]. cbn [steady wait_update].
  destruct (shows_update w Hw) as (w1 & -> & H1). cbn [mbind option_bind].
  destruct (shows_now w1 H1) as (w2 & -> & H2).
  destruct (shows_update w2 H2) as (w3 & -> & H3). cbn [mbind option_bind].
  destruct (shows_now w3 H3) as (w4 & -> & H4). rewrite bool_decide_eq_true_2 by done. eauto.
Qed.
End Clock.

(** with a clock that keeps two decimal digits per register and 24 hours, the
    time read at boot, a date from 2018 to 2117, is the one the library's calendar
    gives back for the timestamp the kernel starts from. *)
Theorem boot_time_is_clock_time {W} `{Ports W} (d : Calendar.date_components_t) (t : Calendar.time_components_t)
    (regb : Z) (inside : W -> Prop) `{!Clock.Shows W (Clock.registers d t) regb inside}
    (fuel : nat) (m : IoPorts.manager) (w : W) :
  Calendar.valid_date d -> Calendar.valid_time t -> 2018 <= Calendar.year d < 2118 ->
  Z.land regb 2 <> 0 -> Z.land regb 4 = 0 -> (2 <= fuel)%nat -> inside w ->
  exists ts m' w', Rtc.new fuel m w = Some (Some ts, m', w')
    /\ Calendar.epoch_to_time_and_date_components ts = (d, t).
Proof.
  intros Hd Ht Hy H24 Hbin Hf Hw. unfold Rtc.new.
  destruct (Clock.shows_regb w Hw) as (w1 & -> & H1).
  replace (Z.land regb 2 =? 0) with false by (symmetry; by apply Z.eqb_neq). rewrite Hbin. cbn [negb Z.eqb].
  destruct (Clock.steady_shows fuel w1 Hf H1) as (w2 & -> & H2). cbn [mbind option_bind].
  rewrite Clock.adjust_registers by done. unfold Rtc.timestamp. cbn [Rtc.hour Rtc.minute Rtc.second Rtc.day Rtc.month Rtc.year].
  replace (Calendar.mkDate _ _ _) with d by (by destruct d). replace (Calendar.mkTime _ _ _) with t by (by destruct t).
  rewrite (Calendar.date_to_epoch_spec d Hd). cbn [mbind option_bind].
  destruct (Rtc.read Rtc.gStatusRegisterA w2) as [ra w3].
  destruct (Rtc.read Rtc.gStatusRegisterB _) as [rb w4]. destruct (Rtc.read Rtc.gStatusRegisterC _) as [rc w5].
  eexists _, _, _. split; [done|]. rewrite u64_id; [by apply Calendar.epoch_inverse|].
  pose proof (Calendar.day_number_bound d Hd) as Hdn. unfold Calendar.time_components_to_epoch, Calendar.gSecondsInDay.
  destruct Ht as (Hh & Hmi & Hs). rewrite u64_id; unfold is_u; lia.
Qed.

(** A clock with its address register. *)
Module Cmos.
Import Rtc.

Record cmos := mkCmos { sel : Z; regs : Z -> Z }.
#[global] Instance cmos_ports : Ports cmos := {
  inb _ c := (regs c (Z.land (sel c) 0x7F), c);
  outb port v c := if port =? 0x70 then mkCmos v (regs c) else c;
  inl_ _ c := (0, c); outl _ _ c := c }.

(** 23:59:58 on 29 February 2024, register B saying 24 hours *)
Definition table (r : Z) : Z :=
  if r =? 4 then 0x23 else if r =? 2 then 0x59 else if r =? 0 then 0x58 else if r =? 7 then 0x29
  else if r =? 8 then 0x02 else if r =? 9 then 0x24 else if r =? 0x0B then 0x02 else 0.

#[global] Program Instance cmos_shows :
  Clock.Shows cmos (Clock.registers (Calendar.mkDate 29 2 2024) (Calendar.mkTime 23 59 58)) 2 (fun c => regs c = table).
Next Obligation. intros [s r] Hr. cbn in Hr. subst r. eexists. split; reflexivity. Qed.
Next Obligation. intros [s r] Hr. cbn in Hr. subst r. eexists. split; reflexivity. Qed.
Next Obligation. intros [s r] Hr. cbn in Hr. subst r. eexists. split; reflexivity. Qed.
End Cmos.

Lemma boot_time_is_clock_time_witness :
  exists ts m' w', Rtc.new 2 ∅ (Cmos.mkCmos 0 Cmos.table) = Some (Some ts, m', w')
    /\ Calendar.epoch_to_time_and_date_components ts = (Calendar.mkDate 29 2 2024, Calendar.mkTime 23 59 58).
Proof.
  apply (boot_time_is_clock_time (Calendar.mkDate 29 2 2024) (Calendar.mkTime 23 59 58) 2 (fun c => Cmos.regs c = Cmos.table)
           2 ∅ (Cmos.mkCmos 0 Cmos.table)).
  - change (Calendar.valid_date (Calendar.mkDate 29 2 2024)) with (1970 <= 2024 <= 65535 /\ 1 <= 2 <= 12 /\ 1 <= 29 <= 29). lia.
  - change (0 <= 23 < 24 /\ 0 <= 59 < 60 /\ 0 <= 58 < 60). lia.
  - change (2018 <= 2024 < 2118). lia.
  - discriminate.
  - reflexivity.
  - lia.
  - reflexivity.
Defined.

(** In 12-hour mode the bit for the afternoon is lost in the conversion: one in the
    afternoon is hour 81. *)
Theorem afternoon_hour_is_lost (h : Z) (n : Rtc.cmos_now_t) : 1 <= h <= 12 ->
  Rtc.hour n = Z.lor 0x80 (Clock.bcd h) -> Rtc.hour (Rtc.adjust false false n) = 80 + h.
Proof.
  intros Hh Hn. unfold Rtc.adjust. cbn [Rtc.hour]. rewrite Hn.
  assert (h = 1 \/ h = 2 \/ h = 3 \/ h = 4 \/ h = 5 \/ h = 6 \/ h = 7 \/ h = 8 \/ h = 9 \/ h = 10 \/ h = 11 \/ h = 12) as Hc by lia.
  repeat destruct Hc as [Hc|Hc]; subst h; reflexivity.
Qed.

#[local] Ltac Zify.zify_post_hook ::= Z.div_mod_to_equations.

(** [n] clock interrupts *)
Definition rtc_after {F W} `{Ports W} (n : nat) (inc : Z) (tm : @Timer.manager F) (w : W) : Z * @Timer.manager F * W :=
  Nat.iter n (fun '(inc, tm, w) => Rtc.rtchandler inc tm w) (inc, tm, w).

(** The clock interrupts twice a second and the kernel counts every other interrupt:
    after [n] of them the time has gone on by [n] / 2 seconds. *)
Theorem clock_ticks_are_half_seconds {F W} `{Ports W} (n : nat) (tm : @Timer.manager F) (w : W) :
  is_u64 (Timer.mUNIXTimestamp tm) ->
  exists inc w', rtc_after n 0 tm w
    = (inc, Timer.mkManager (Timer.mMillisecondsSinceBoot tm) (Timer.mBootDurationMillis tm)
              (u64 (Timer.mUNIXTimestamp tm + Z.of_nat n / 2)) (Timer.mTickHandlers tm) (Timer.millisPerTick tm), w')
    /\ inc = Z.of_nat n mod 2.
Proof.
  intros Hu. induction n as [|n (inc & w' & IH & Hinc)].
  - exists 0, w. split; [|done]. cbn. rewrite Z.add_0_r, u64_id by done. by destruct tm.
  - unfold rtc_after in *. rewrite Nat.iter_succ, IH. unfold Rtc.rtchandler.
    destruct (inb _ _) as [v w1]. unfold Timer.UNIXtimeIncrement. cbn.
    eexists _, _. split.
    + do 3 f_equal. unfold u64, wrap. rewrite Zplus_mod_idemp_l. f_equal. subst inc. lia.
    + subst inc. assert (Z.of_nat n mod 2 = 0 \/ Z.of_nat n mod 2 = 1) as [E|E] by lia; rewrite E;
        [change (u8 (1 - 0)) with 1|change (u8 (1 - 1)) with 0]; lia.
Qed.

(** ** The scan of the PCI bus *)
Module PciScan.
Import Pci.

Definition in_range (e : endpoint_t) : Prop := 0 <= bus e < 256 /\ 0 <= slot e < 32 /\ 0 <= func e < 8.

Lemma elem_of_endpoints e : e ∈ endpoints <-> in_range e.
Proof.
  unfold endpoints, in_range. setoid_rewrite list_elem_of_bind. setoid_rewrite list_elem_of_bind. setoid_rewrite list_elem_of_bind.
  setoid_rewrite elem_of_seqZ. destruct e as [b s f]. cbn. split.
  - intros (b' & (s' & (f' & Hin & ?) & ?) & ?). apply list_elem_of_singleton in Hin. simplify_eq. lia.
  - intros (Hb & Hs & Hf). exists b. split; [|lia]. exists s. split; [|lia]. exists f. split; [|lia].
    by apply list_elem_of_singleton.
Qed.

Lemma NoDup_endpoints : NoDup endpoints.
Proof.
  unfold endpoints.
  assert (Hf : forall b s e, e ∈ (seqZ 0 8 ≫= (fun f => [mkEndpoint b s f])) -> bus e = b /\ slot e = s).
  { intros b s e (f & He & _)%list_elem_of_bind. apply list_elem_of_singleton in He. by subst e. }
  assert (Hs : forall b e, e ∈ (seqZ 0 32 ≫= (fun s => seqZ 0 8 ≫= (fun f => [mkEndpoint b s f]))) -> bus e = b).
  { intros b e (s & He & _)%list_elem_of_bind. by apply Hf in He as [? _]. }
  apply NoDup_bind; [|intros b _; apply NoDup_bind; [|intros s _; apply NoDup_bind|]|].
  - intros b1 b2 e _ _ H1%Hs H2%Hs. congruence.
  - intros s1 s2 e _ _ [_ H1]%Hf [_ H2]%Hf. congruence.
  - intros f1 f2 e _ _ H1%list_elem_of_singleton H2%list_elem_of_singleton. congruence.
  - intros f _. apply NoDup_singleton.
  - apply NoDup_seqZ.
  - apply NoDup_seqZ.
  - apply NoDup_seqZ.
Qed.

(** Each endpoint has an address of its own. *)
Lemma address_fields e : in_range e ->
  bus e = Z.land (Z.shiftr (address e) 16) 0xFF /\ slot e = Z.land (Z.shiftr (address e) 11) 0x1F
  /\ func e = Z.land (Z.shiftr (address e) 8) 0x7.
Proof.
  intros (Hb & Hs & Hf). destruct e as [b s f]. cbn in *. unfold address. cbn.
  assert (Hbits : forall z w n, 0 <= z < 2 ^ w -> 0 <= w <= n -> Z.testbit z n = false).
  { intros z w n Hz Hw. destruct (decide (z = 0)) as [->|]; [apply Z.bits_0|]. apply Z.bits_above_log2; [lia|].
    apply Z.log2_lt_pow2; [lia|]. assert (2 ^ w <= 2 ^ n) by (apply Z.pow_le_mono_r; lia). lia. }
  assert (Hsplit : forall z w k, 0 <= z < 2 ^ w -> 0 <= w -> 0 <= k ->
    (forall n, 0 <= n < w -> Z.testbit z n
       = Z.testbit (Z.lor (Z.lor (Z.lor 2147483648 (Z.shiftl b 16)) (Z.shiftl s 11)) (Z.shiftl f 8)) (n + k)) ->
    z = Z.land (Z.shiftr (Z.lor (Z.lor (Z.lor 2147483648 (Z.shiftl b 16)) (Z.shiftl s 11)) (Z.shiftl f 8)) k) (Z.ones w)).
  { intros z w k Hz Hw Hk Hn. apply Z.bits_inj'. intros n Hn0. rewrite Z.land_spec, Z.shiftr_spec by lia.
    destruct (Z.lt_ge_cases n w).
    - rewrite Z.ones_spec_low, andb_true_r by lia. apply Hn. lia.
    - rewrite Z.ones_spec_high, andb_false_r by lia. by apply (Hbits z w). }
  assert (Htop : forall n, 0 <= n < 31 -> Z.testbit 2147483648 n = false).
  { intros n Hn. change 2147483648 with (2 ^ 31). by rewrite Z.pow2_bits_false by lia. }
  split_and!.
  - apply (Hsplit b 8 16); [lia..|]. intros n Hn. rewrite !Z.lor_spec, !Z.shiftl_spec, Htop by lia. cbn [orb].
    rewrite (Hbits s 5 (n + 16 - 11)), (Hbits f 3 (n + 16 - 8)), !orb_false_r by lia. f_equal. lia.
  - apply (Hsplit s 5 11); [lia..|]. intros n Hn. rewrite !Z.lor_spec, !Z.shiftl_spec, Htop by lia. cbn [orb].
    rewrite (Z.testbit_neg_r b) by lia. rewrite (Hbits f 3 (n + 11 - 8)), !orb_false_r by lia. cbn [orb]. f_equal. lia.
  - apply (Hsplit f 3 8); [lia..|]. intros n Hn. rewrite !Z.lor_spec, !Z.shiftl_spec, Htop by lia. cbn [orb].
    rewrite (Z.testbit_neg_r b), (Z.testbit_neg_r s) by lia. cbn [orb]. f_equal. lia.
Qed.

Lemma address_inj e e' : in_range e -> in_range e' -> address e = address e' -> e = e'.
Proof.
  intros H1%address_fields H2%address_fields E. destruct e as [b s f], e' as [b' s' f']. cbn in *. rewrite E in H1.
  destruct H1 as (A & B & C), H2 as (A' & B' & C'). f_equal; congruence.
Qed.

Section Scan.
Context {W : Type} `{Ports W} (cfg : endpoint_t -> Z -> Z).
Context (reads : forall e n (w : W), in_range e -> fst (readword e n w) = cfg e n).

Lemma identify_vendor e w : in_range e -> vendor (fst (identify e w)) = lo16 (cfg e 0).
Proof.
  intros He. unfold identify. pose proof (reads e 0 w He) as H0. destruct (readword e 0 w) as [w0 s0]. cbn [fst] in H0.
  destruct (readword e 1 s0) as [w1 s1], (readword e 2 s1) as [w2 s2], (readword e 3 s2) as [w3 s3]. cbn. by rewrite H0.
Qed.

Lemma probe_spec e l w : in_range e ->
  map mEndpoint (fst (probe e l w)) = map mEndpoint l ++ (if lo16 (cfg e 0) =? 0xFFFF then [] else [e]).
Proof.
  intros He. pose proof (identify_vendor e w He) as Hv. unfold probe. destruct (identify e w) as [id w1]. cbn [fst] in Hv.
  rewrite Hv. destruct (lo16 (cfg e 0) =? 65535); [by rewrite app_nil_r|]. destruct (header id =? 0).
  - destruct (fill e id w1) as [hdr w2] eqn:Ef. cbn [fst]. rewrite map_app. cbn.
    unfold fill in Ef. repeat destruct (readword e _ _) in Ef. by injection Ef as <- _.
  - cbn [fst]. by rewrite map_app.
Qed.

Lemma probe_all_spec eps l w : Forall in_range eps ->
  map mEndpoint (fst (probe_all eps l w)) = map mEndpoint l ++ filter (fun e => lo16 (cfg e 0) <> 0xFFFF) eps.
Proof.
  intros He. revert l w. induction He as [|e eps He Heps IH]; intros l w; [by rewrite app_nil_r|]. cbn [probe_all].
  pose proof (probe_spec e l w He) as Hp. destruct (probe e l w) as [l' w']. cbn [fst] in Hp.
  rewrite IH, Hp, <- app_assoc. f_equal. rewrite filter_cons.
  destruct (Z.eqb_spec (lo16 (cfg e 0)) 65535); case_decide; done.
Qed.
End Scan.
End PciScan.

(** when configuration reads answer for the endpoint they address, the scan at
    boot finds every function of the 256 buses that is present, each once, and
    nothing else; the addresses it uses tell the endpoints apart. *)
Theorem pci_scan_complete {W} `{Ports W} (cfg : Pci.endpoint_t -> Z -> Z) (w : W) :
  (forall e n (w : W), PciScan.in_range e -> fst (Pci.readword e n w) = cfg e n) ->
  let found := map Pci.mEndpoint (fst (Pci.new w)) in
  NoDup found
  /\ (forall e, e ∈ found <-> PciScan.in_range e /\ Pci.lo16 (cfg e 0) <> 0xFFFF)
  /\ (forall e e', PciScan.in_range e -> PciScan.in_range e' -> Pci.address e = Pci.address e' -> e = e').
Proof.
  intros Hr found. unfold found, Pci.new.
  rewrite (PciScan.probe_all_spec cfg Hr) by (apply list.Forall_forall; intros e; by rewrite PciScan.elem_of_endpoints).
  cbn [map app]. split_and!.
  - apply NoDup_filter, PciScan.NoDup_endpoints.
  - intros e. rewrite list_elem_of_filter, PciScan.elem_of_endpoints. tauto.
  - apply PciScan.address_inj.
Qed.

(** A bus with one function, at slot 1 of bus 0. *)
Module OneDevice.
Import Pci.
Record bus := mkBus { latch : Z }.
Definition answer (addr : Z) : Z := if addr =? 0x80000800 then 0x12348086 else 0xFFFFFFFF.
#[global] Instance bus_ports : Ports bus := {
  inb _ b := (0, b); outb _ _ b := b; inl_ _ b := (answer (latch b), b); outl _ v _ := mkBus v }.
Definition cfg (e : endpoint_t) (n : Z) : Z := answer (Z.lor (address e) (Z.shiftl n 2)).
End OneDevice.

Lemma pci_scan_complete_witness :
  let found := map Pci.mEndpoint (fst (Pci.new (OneDevice.mkBus 0))) in
  NoDup found /\ Pci.mkEndpoint 0 1 0 ∈ found.
Proof.
  destruct (pci_scan_complete OneDevice.cfg (OneDevice.mkBus 0)) as (Hn & He & _); [reflexivity|].
  split; [exact Hn|]. apply He. split; [unfold PciScan.in_range; cbn; lia|discriminate].
Defined.

(** ** Memory types *)

(** write combining is set up in a range register that is not in use, and no
    other register changes: ranges that are in force stay as they are; the call fails
    only without support, for an address or a size that is not a multiple of a page,
    or when all ranges are taken. *)
Theorem write_combining_keeps_ranges (t : Mtrr.mtrr) (m : Mtrr.msrs) (base size : Z) :
  match Mtrr.setAsWriteCombining t m base size with
  | (true, m') => exists n, (n < Mtrr.mVCNT t)%nat /\ Mtrr.valid m n = false
      /\ (forall k, (k < n)%nat -> Mtrr.valid m k = true)
      /\ forall r, r <> Mtrr.gIA32_MTRR_PHYS_BASE n -> r <> Mtrr.gIA32_MTRR_PHYS_MASK n ->
           Mtrr.readmsr m' r = Mtrr.readmsr m r
  | (false, m') => m' = m /\ (Mtrr.mWC t = false \/ Z.land 0xFFF base <> 0 \/ Z.land 0xFFF size <> 0
      \/ forall k, (k < Mtrr.mVCNT t)%nat -> Mtrr.valid m k = true)
  end.
Proof.
  assert (Hnext : forall n i, match Mtrr.next_range n i m with
    | Some k => (i <= k < i + n)%nat /\ Mtrr.valid m k = false /\ forall j, (i <= j < k)%nat -> Mtrr.valid m j = true
    | None => forall j, (i <= j < i + n)%nat -> Mtrr.valid m j = true end).
  { induction n as [|n IH]; intros i; cbn [Mtrr.next_range]; [intros; lia|].
    destruct (Mtrr.valid m i) eqn:Hv; [|split; [lia|split; [done|lia]]].
    specialize (IH (S i)). destruct (Mtrr.next_range n (S i) m) as [k|].
    - destruct IH as (Hk & Hf & Hall). split; [lia|]. split; [done|]. intros j Hj.
      destruct (decide (j = i)) as [->|]; [done|]. apply Hall. lia.
    - intros j Hj. destruct (decide (j = i)) as [->|]; [done|]. apply IH. lia. }
  unfold Mtrr.setAsWriteCombining.
  destruct (Mtrr.mWC t); cbn [negb]; [|by split; auto].
  destruct (Z.eqb_spec (Z.land 4095 base) 0); cbn [negb]; [|by split; auto].
  destruct (Z.eqb_spec (Z.land 4095 size) 0); cbn [negb]; [|by split; auto].
  specialize (Hnext (Mtrr.mVCNT t) 0%nat). destruct (Mtrr.next_range (Mtrr.mVCNT t) 0 m) as [n'|].
  - destruct Hnext as (Hn & Hv & Hall). exists n'. split; [lia|]. split; [done|]. split; [intros; apply Hall; lia|].
    intros r Hb Hm. unfold Mtrr.readmsr, Mtrr.writemsr. by rewrite !lookup_insert_ne by done.
  - split; [done|]. right. right. right. intros k Hk. apply Hnext. lia.
Qed.

(** The register that should hold a mask is given the size: with 4 megabytes of
    video memory at 0xFD000000, address 0 becomes write combining as well. *)
Example write_combining_range_too_wide :
  let '(ok, m) := Mtrr.setAsWriteCombining (Mtrr.mkMtrr 8 true) ∅ 0xFD000000 0x400000 in
  ok = true /\ Mtrr.in_range m 0 0xFD000000 = true /\ Mtrr.in_range m 0 0 = true.
Proof. vm_compute. done. Qed.

(** ** I/O ports *)

(** a port has one owner at a time: it is given out only while it is free and is
    free again when its file is closed; other ports are not affected. *)
Theorem io_port_is_exclusive (m : IoPorts.manager) (p : Z) :
  match IoPorts.allocatePort m p with
  | (true, m') => IoPorts.isPortFree m p = true /\ fst (IoPorts.allocatePort m' p) = false
      /\ IoPorts.close_port m' p = m /\ IoPorts.getPort m' p = Some p
      /\ forall q, q <> p -> IoPorts.isPortFree m' q = IoPorts.isPortFree m q
  | (false, m') => m' = m /\ IoPorts.getPort m p = Some p
  end.
Proof.
  unfold IoPorts.allocatePort, IoPorts.close_port, IoPorts.freePort, IoPorts.getPort.
  assert (Hf : forall (s : IoPorts.manager) x, IoPorts.isPortFree s x = bool_decide (x ∉ s)).
  { intros s x. unfold IoPorts.isPortFree. symmetry. apply bool_decide_not. }
  destruct (IoPorts.isPortFree m p) eqn:E; [|done]. rewrite Hf in E. apply bool_decide_eq_true in E.
  assert (Hp : IoPorts.isPortFree ({[ p ]} ∪ m) p = false) by (rewrite Hf; apply bool_decide_eq_false; set_solver).
  rewrite Hp. cbn. split_and!; try done.
  - apply set_eq. set_solver.
  - intros q Hq. rewrite !Hf. apply bool_decide_ext. set_solver.
Qed.

(** When the process has no descriptor left the port stays taken, without an owner. *)
Theorem port_leaks_without_descriptor (m : IoPorts.manager) fds h (b : Z) :
  Handletable.ok 64 fds -> (forall j, (j < 64)%nat -> is_Some (Handletable.lookup fds j)) ->
  IoPorts.isPortFree m (u16 b) = true ->
  IoPorts.open_port m fds h b = Some (u32 (-1), {[ u16 b ]} ∪ m, fds).
Proof.
  intros Hok Hfull Hfree. unfold IoPorts.open_port, IoPorts.allocatePort. rewrite Hfree. cbn [negb].
  destruct (Handletable.handle_set_spec 64 ltac:(lia) fds h 0 Hok) as (r & t' & -> & _ & Hr). cbn [mbind option_bind].
  destruct r as [i|]; [|by destruct Hr as [-> _]].
  destruct Hr as (Hi & Hnone & _). destruct (Hfull i Hi) as [x Hx]. congruence.
Qed.

(** ** An interrupt and the processes that wait for it *)


(** A handler that does not come back, such as the one that kills a process for a
    fault, leaves the depth one higher for good. *)
Theorem killed_process_leaves_depth {F K} (run : F -> K -> (Z * K) + K) wakeall current (i : Idt.interrupts) irq h f k k1 :
  Idt.mHandlers i !! irq = Some h -> Idt.func h = Some f -> run f k = inr k1 ->
  exists i', Idt.interrupt_handler run wakeall current i irq k = Some (None, i', k1)
    /\ Idt.gIRQDepthCounter i' = u32 (Idt.gIRQDepthCounter i + 1).
Proof.
  intros Hh Hf Hrun. unfold Idt.interrupt_handler. cbn [Idt.with_depth Idt.mHandlers]. rewrite Hh.
  cbn [mbind option_bind Idt.func]. rewrite Hf, Hrun. by eexists.
Qed.

