(* ===== verification/ShellThms.v ===== *)
(** Properties of the shell. *)

From Stdlib Require Import ZArith Lia Ascii String.
From stdpp Require Import base list option pretty.
From stdpp Require Import gmap.
From S2P Require Import Prelude Tables Files Kernel Lifecycle Machine Shell ShellRun.

(** ** Lexing what [Command::printf] prints *)
Module Printed.
Import Flex Lexer Cmd.

Definition isword (w : text) : bool := negb (bool_decide (w = [])) && forallb isargument w.
Definition isword_opt (t : option text) : bool := match t with Some t => isword t | None => true end.

(** The commands whose printed form is unambiguous: words and targets are plain
    arguments, a command is piped or chained but not both, and one in the background
    is neither. *)
Fixpoint printable (c : Command) : bool :=
  forallb isword (mWords c) && isword_opt (mOutRedirect c) && isword_opt (mInRedirect c)
  && match mPipeTarget c, mRunIfSuccess c with
     | None, None => true
     | Some p, None | None, Some p => negb (mBackground c) && printable p
     | Some _, Some _ => false
     end.

Definition sym (k : symbol_kind_t) : symbol := mkSymbol k [].
Definition arg (w : text) : symbol := mkSymbol ARGUMENT w.
Definition redir (k : symbol_kind_t) (t : option text) : list symbol :=
  match t with Some t => [sym k; arg t] | None => [] end.

(** The symbols of a command. *)
Fixpoint tokens (c : Command) : list symbol :=
  map arg (mWords c) ++ redir OUTREDIR (mOutRedirect c) ++ redir INREDIR (mInRedirect c)
  ++ (if mBackground c then [sym BACKGROUND] else [])
  ++ (match mPipeTarget c with Some p => sym PIPE :: tokens p | None => [] end)
  ++ (match mRunIfSuccess c with Some p => sym SUCCESSCONCAT :: tokens p | None => [] end).

Definition show (t : symbol) : text :=
  match kind t with
  | ARGUMENT => value t
  | OUTREDIR => txt ">"
  | INREDIR => txt "<"
  | PIPE => txt "|"
  | BACKGROUND => txt "&"
  | SUCCESSCONCAT => txt "&&"
  | _ => []
  end.

Definition printed (t : symbol) : Prop :=
  match kind t with
  | ARGUMENT => isword (value t) = true
  | OUTREDIR | INREDIR | PIPE | BACKGROUND | SUCCESSCONCAT => value t = []
  | _ => False
  end.

(** Lexing [s] gives the symbols [ts] and leaves [rest]; nothing is echoed. *)
Fixpoint feeds (s : text) (ts : list symbol) (rest : text) : Prop :=
  match ts with
  | [] => s = rest
  | t :: ts => exists s', yylex s = ([], Some t, s') /\ feeds s' ts rest
  end.

(** Structural induction that reaches the commands behind [|] and [&&]. *)
Lemma command_ind (P : Command -> Prop) :
  (forall ws o i p n b, (forall c, p = Some c -> P c) -> (forall c, n = Some c -> P c) -> P (mkCommand ws o i p n b)) ->
  forall c, P c.
Proof.
  intros H. fix IH 1. intros [ws o i p n b]. apply H.
  - destruct p as [p|]; [|discriminate]. intros c [= <-]. apply IH.
  - destruct n as [n|]; [|discriminate]. intros c [= <-]. apply IH.
Qed.

(** *** One symbol *)

Lemma longest_void s : longest Void s = None.
Proof. induction s as [|a s IH]; [done|]. simpl. by rewrite IH. Qed.
Lemma longest_eps s : longest Eps s = Some 0.
Proof. destruct s as [|a s]; [done|]. simpl. by rewrite longest_void. Qed.

Definition head_is (p : ascii -> bool) (s : text) : Prop := match s with a :: _ => p a = true | [] => False end.

Lemma argument_char a : isargument a = true ->
  forallb (fun c => negb (eqc c a))
    ["$"; ">"; "<"; "|"; " "; tab; ";"; newline; "&"; "!"; quote; ")"]%char = true.
Proof. destruct a as [[] [] [] [] [] [] [] []]; vm_compute; congruence. Qed.

Lemma longest_word w s : isword w = true -> head_is (eqc " "%char) s ->
  longest (Plus (Chr isargument)) (w ++ s) = Some (length w).
Proof.
  intros Hw Hs. unfold isword in Hw. bool_to_prop.
  assert (Hf : Forall (fun a => isargument a = true) w) by (by apply list.Forall_forall; intros; eapply forallb_forall; [|apply list_elem_of_In]).
  apply longest_intro.
  - apply matches_plus_chr. done.
  - intros u z Hu -> Hm. apply matches_plus_chr in Hm as [_ Hm]. apply Forall_app in Hm as [_ Hm].
    destruct u as [|a u]; [done|]. apply Forall_cons in Hm as [Ha _]. simpl in Hs.
    apply argument_char in Ha. simpl in Ha. rewrite Hs in Ha. bool_to_prop. done.
Qed.

Lemma fire_dead {A} r (act : A) rest a s : nullable r = false -> deriv a r = Void ->
  fire ((r, act) :: rest) (a :: s) = fire rest (a :: s).
Proof. intros Hn Hd. simpl. by rewrite Hd, longest_void, Hn. Qed.

Ltac rewrite_all_false := repeat match goal with E : ?x = false |- context [?x] => rewrite E end.

(** Rules that cannot start with the first character are passed over. *)
Ltac pass_rules :=
  repeat (rewrite fire_dead;
          [|reflexivity
           |cbn [deriv nullable chr Plus];
            rewrite_all_false; reflexivity]).

Lemma fire_dead2 {A} r (act : A) rest a b s :
  nullable r = false -> nullable (deriv a r) = false -> deriv b (deriv a r) = Void ->
  fire ((r, act) :: rest) (a :: b :: s) = fire rest (a :: b :: s).
Proof. intros Hn Hn2 Hd. simpl. by rewrite Hd, longest_void, Hn2, Hn. Qed.

Lemma fire_hit {A} r (act : A) rest s n :
  longest r s = Some (S n) ->
  match fire rest s with Some (n', _) => (n' <= S n)%nat | None => True end ->
  fire ((r, act) :: rest) s = Some (S n, act).
Proof.
  intros Hl Hr. cbn [fire]. rewrite Hl. destruct (fire rest s) as [[n' a']|]; [|done].
  by replace (S n <? n')%nat with false by (symmetry; apply Nat.ltb_ge; lia).
Qed.

Lemma longest_one r a s : deriv a r = Eps -> longest r (a :: s) = Some 1.
Proof. intros Hd. simpl. by rewrite Hd, longest_eps. Qed.

Lemma fire_word w s : isword w = true -> head_is (eqc " "%char) s ->
  fire rules (w ++ s) = Some (length w, Return ARGUMENT).
Proof.
  intros Hw Hs. pose proof (longest_word w s Hw Hs) as Hl.
  destruct w as [|a w]; [done|].
  assert (Ha : isargument a = true) by (unfold isword in Hw; simpl in Hw; bool_to_prop; done).
  pose proof (argument_char a Ha) as Hc. cbn [forallb] in Hc. bool_to_prop.
  assert (Hb : isblank a = false) by (unfold isblank; by rewrite_all_false).
  assert (Ht : isterminator a = false) by (unfold isterminator; by rewrite_all_false).
  unfold rules. change ((a :: w) ++ s) with (a :: w ++ s) in *. pass_rules.
  apply fire_hit; [done|]. pass_rules. done.
Qed.

(** A symbol of one character, before a blank. *)
Lemma fire_sym t s : printed t -> kind t <> ARGUMENT -> kind t <> SUCCESSCONCAT ->
  fire rules (show t ++ " "%char :: s) = Some (1, Return (kind t)).
Proof.
  destruct t as [k v]. cbn [kind show printed]. intros Hp H1 H2.
  destruct k; try done; cbn [show kind txt list_ascii_of_string app]; unfold rules; pass_rules;
    try (rewrite fire_dead2 by reflexivity);
    (apply fire_hit; [by apply longest_one|]; pass_rules; done).
Qed.

Lemma fire_and s : fire rules ("&" :: "&" :: s)%char = Some (2, Return SUCCESSCONCAT).
Proof.
  unfold rules. pass_rules. apply fire_hit.
  - cbn [longest]. change (longest _ s) with (longest Eps s). by rewrite longest_eps.
  - erewrite (fire_hit (chr "&") _ _ _ 0); [lia|by apply longest_one|]. pass_rules. done.
Qed.

Lemma fire_terminator s : fire rules (";"%char :: s) = Some (1, Return TERMINATOR).
Proof. unfold rules. pass_rules. apply fire_hit; [by apply longest_one|]. pass_rules. done. Qed.

Lemma fire_blank s : ~ head_is isblank s -> fire rules (" "%char :: s) = Some (1, Skip).
Proof.
  intros Hs. unfold rules. pass_rules. apply fire_hit.
  - change (" "%char :: s) with ([" "%char] ++ s). apply longest_intro.
    + by apply matches_plus_chr; split; [|repeat constructor].
    + intros w z Hw -> Hm. apply matches_plus_chr in Hm as [_ Hm]. destruct w as [|a w]; [done|].
      apply Forall_cons in Hm as [_ [Ha _]%Forall_cons]. done.
  - pass_rules. done.
Qed.

(** *** [yylex] on printed symbols *)

Lemma yylex_return s k n : s <> [] -> fire rules s = Some (n, Return k) ->
  yylex s = ([], Some (mkSymbol k (if has_value k then take n s else [])), drop n s).
Proof. intros Hs Hf. unfold yylex. destruct s as [|a s]; [done|]. cbn [length yylex_fuel]. by rewrite Hf. Qed.

Lemma yylex_blank s : ~ head_is isblank s -> yylex (" "%char :: s) = yylex s.
Proof. intros Hs. unfold yylex. cbn [length yylex_fuel]. by rewrite fire_blank. Qed.

Lemma yylex_printed t s : printed t -> yylex (show t ++ " "%char :: s) = ([], Some t, " "%char :: s).
Proof.
  intros Hp. destruct t as [k v]. destruct (decide (k = ARGUMENT)) as [->|Hk].
  - cbn [printed show kind value] in *. rewrite (yylex_return _ ARGUMENT (length v)).
    + cbn. by rewrite take_app_length, drop_app_length.
    + by destruct v.
    + by apply fire_word.
  - destruct (decide (k = SUCCESSCONCAT)) as [->|Hk2].
    + cbn in Hp. subst v. rewrite (yylex_return _ SUCCESSCONCAT 2); [done|done|apply fire_and].
    + rewrite (yylex_return _ k 1); [|by destruct k|by apply (fire_sym (mkSymbol k v))].
      by destruct k; cbn in Hp; subst.
Qed.

Lemma yylex_terminator s : yylex (";"%char :: s) = ([], Some (sym TERMINATOR), s).
Proof. by rewrite (yylex_return _ TERMINATOR 1) by (done || apply fire_terminator). Qed.

Lemma show_no_blank t s : printed t -> ~ head_is isblank (show t ++ s).
Proof.
  destruct t as [k v]. destruct k; try done. cbn. intros Hp Hb. destruct v as [|a v]; [done|].
  unfold isword in Hp. cbn in Hp, Hb. bool_to_prop.
  match goal with E : isargument a = true |- _ => apply argument_char in E; cbn [forallb] in E end.
  bool_to_prop. unfold isblank in Hb. apply orb_true_iff in Hb as [Hb|Hb]; congruence.
Qed.

(** *** A printed command *)

Definition show_all (ts : list symbol) : text := concat (map (fun t => show t ++ [" "%char]) ts).

Lemma show_all_app ts us : show_all (ts ++ us) = show_all ts ++ show_all us.
Proof. unfold show_all. by rewrite map_app, concat_app. Qed.

Lemma show_all_args ws : show_all (map arg ws) = concat (map (fun w => w ++ [" "%char]) ws).
Proof. unfold show_all. by rewrite map_map. Qed.

Lemma printf_tokens c : printf c = show_all (tokens c).
Proof.
  induction c as [ws o i p n b Hp Hn] using command_ind. cbn [printf tokens].
  rewrite !show_all_app, show_all_args. cbn [mWords mOutRedirect mInRedirect mPipeTarget mRunIfSuccess mBackground].
  assert (Hr : forall k t, show_all (redir k (Some t)) = show (sym k) ++ " "%char :: t ++ [" "%char])
    by (intros; unfold show_all; cbn; by rewrite app_nil_r, <- app_assoc).
  destruct p as [p|], n as [n|]; rewrite ?(Hp _ eq_refl), ?(Hn _ eq_refl);
    destruct o, i, b; rewrite ?Hr; reflexivity.
Qed.

Lemma printed_redir k t : isword_opt t = true -> k = OUTREDIR \/ k = INREDIR -> Forall printed (redir k t).
Proof. intros Ht Hk. destruct t as [t|]; [|done]. repeat constructor; [|done]. by destruct Hk as [-> | ->]. Qed.

Lemma printed_tokens c : printable c = true -> Forall printed (tokens c).
Proof.
  induction c as [ws o i p n b Hp Hn] using command_ind. cbn. intros Hc. bool_to_prop.
  rewrite !Forall_app. repeat split.
  - rewrite Forall_map. apply list.Forall_forall. intros w Hw. cbn.
    eapply forallb_forall; [eassumption|]. by apply list_elem_of_In.
  - apply printed_redir; auto.
  - apply printed_redir; auto.
  - destruct b; by repeat constructor.
  - destruct p as [p|]; [|done]. constructor; [done|]. destruct n; [done|]. bool_to_prop. auto.
  - destruct n as [n|]; [|done]. constructor; [done|]. destruct p; [done|]. bool_to_prop. auto.
Qed.

Lemma feeds_printed ts rest : Forall printed ts ->
  feeds (show_all ts ++ ";"%char :: rest) (ts ++ [sym TERMINATOR]) rest.
Proof.
  induction 1 as [|t ts Ht Hts IH]; cbn [show_all map concat app feeds].
  - rewrite yylex_terminator. eauto.
  - rewrite <- !app_assoc. cbn [app]. rewrite yylex_printed by done. eexists. split; [done|].
    destruct Hts as [|u ts Hu Hts].
    + cbn [map concat app feeds]. rewrite yylex_blank by (cbn; done). rewrite yylex_terminator. eauto.
    + cbn [show_all map concat app feeds] in *. rewrite <- !app_assoc in *. cbn [app] in *.
      rewrite yylex_blank by (by apply show_no_blank). done.
Qed.
End Printed.

(** ** Parsing what [Command::printf] prints *)
Module Parsed.
Import Lexer Cmd Parser Printed.

Section Env.
Context (getenv : text -> option text) (mHistory : list text).

Lemma on_last f pre c s e er t :
  on_cmd (length pre) f (mkState s e er t (pre ++ [c])) = mkState s e er t (pre ++ [f c]).
Proof. unfold on_cmd, with_cmds. cbn. by rewrite alter_app_r_alt, Nat.sub_diag by lia. Qed.

Lemma nextsym_feeds s t ts rest e er t0 cs : feeds s (t :: ts) rest ->
  exists s', feeds s' ts rest /\ nextsym (mkState s e er t0 cs) = (true, mkState s' e er t cs).
Proof.
  intros (s' & Hy & Hf). exists s'. split; [done|]. unfold nextsym. cbn [buffer]. rewrite Hy. cbn. by rewrite app_nil_r.
Qed.

Definition add_words (ws : list text) (c : Command) : Command := foldl (fun c w => addWord w c) c ws.

(** The state with the current symbol [t] and [s] still to be lexed, in which [c] is
    the command being built. *)
Abbreviation at_ t s c pre e er := (mkState s e er t (pre ++ [c])).
Abbreviation loop := (parse_loop getenv mHistory).

(** A round of the loop on a known symbol. *)
Ltac run_round :=
  cbn [parse_loop accept mSymbol kind arg sym same_kind code Nat.eqb acceptText value negb];
  rewrite ?on_last;
  cbn [parse_loop accept mSymbol kind arg sym same_kind code Nat.eqb acceptText value negb].

Lemma loop_word fuel w pre c e er s u us rest :
  feeds s (u :: us) rest ->
  exists s', feeds s' us rest
    /\ loop (S fuel) (length pre) (at_ (arg w) s c pre e er) = loop fuel (length pre) (at_ u s' (addWord w c) pre e er).
Proof.
  intros Hf. destruct (nextsym_feeds s u us rest e er (arg w) (pre ++ [addWord w c]) Hf) as (s' & Hf' & Hn).
  exists s'. split; [done|]. run_round. by rewrite Hn.
Qed.

Lemma loop_words fuel ws pre e er rest v vs t s us c :
  map arg ws ++ v :: vs = t :: us -> feeds s us rest ->
  exists s', feeds s' vs rest
    /\ loop (length ws + fuel) (length pre) (at_ t s c pre e er)
       = loop fuel (length pre) (at_ v s' (add_words ws c) pre e er).
Proof.
  revert t s us c. induction ws as [|w ws IH]; intros t s us c Heq Hf; cbn in Heq; simplify_eq; [by eauto|].
  cbn [length add_words foldl Nat.add].
  destruct (map arg ws ++ v :: vs) as [|u us] eqn:E; [by destruct ws|].
  destruct (loop_word (length ws + fuel) w pre c e er s u us rest Hf) as (s' & Hf' & ->).
  by apply (IH u s' us).
Qed.

Definition set_redirect (k : symbol_kind_t) (t : text) : Command -> Command :=
  match k with OUTREDIR => redirectStdout t | _ => redirectStdin t end.
Definition redirect_opt (k : symbol_kind_t) (o : option text) (c : Command) : Command :=
  match o with Some t => set_redirect k t c | None => c end.
Definition count_opt {A} (o : option A) : nat := match o with Some _ => 1 | None => 0 end.

Lemma loop_redirect fuel k o pre e er rest v vs t s us c :
  k = OUTREDIR \/ k = INREDIR ->
  redir k o ++ v :: vs = t :: us -> feeds s us rest ->
  exists s', feeds s' vs rest
    /\ loop (count_opt o + fuel) (length pre) (at_ t s c pre e er)
       = loop fuel (length pre) (at_ v s' (redirect_opt k o c) pre e er).
Proof.
  intros Hk Heq Hf. destruct o as [w|]; cbn in Heq; simplify_eq; [|by eauto].
  destruct (nextsym_feeds s (arg w) (v :: vs) rest e er (sym k) (pre ++ [c]) Hf) as (s1 & Hf1 & Hn1).
  destruct (nextsym_feeds s1 v vs rest e er (arg w) (pre ++ [redirect_opt k (Some w) c]) Hf1) as (s2 & Hf2 & Hn2).
  exists s2. split; [done|]. cbn [count_opt Nat.add].
  destruct Hk as [-> | ->]; cbn [redirect_opt set_redirect] in *; run_round; unfold parseOutRedirect, parseInRedirect; run_round;
    rewrite Hn1; run_round; by rewrite Hn2.
Qed.

(** The background flag of the object that is filled stays as it was. *)
Definition stick (b : bool) (c : Command) : Command :=
  mkCommand (mWords c) (mOutRedirect c) (mInRedirect c) (mPipeTarget c) (mRunIfSuccess c) (b || mBackground c).
Definition blank (b : bool) : Command := mkCommand [] None None None None b.

Lemma isword_cons w : isword w = true -> exists a l, w = a :: l.
Proof. destruct w as [|a l]; [done|]. eauto. Qed.

Lemma add_words_all ws c : forallb isword ws = true ->
  add_words ws c = mkCommand (mWords c ++ ws) (mOutRedirect c) (mInRedirect c) (mPipeTarget c) (mRunIfSuccess c)
                     (mBackground c).
Proof.
  revert c. induction ws as [|w ws IH]; intros [cw o i p n b]; cbn [forallb add_words foldl]; intros Hw.
  - cbn. by rewrite app_nil_r.
  - bool_to_prop. destruct (isword_cons w) as (a & l & ->); [done|]. unfold add_words in IH. rewrite IH by done.
    cbn. by rewrite <- app_assoc.
Qed.

Lemma copy_printable c : printable c = true -> copy c = c.
Proof.
  destruct c as [ws o i p n b]. cbn. intros Hc. bool_to_prop. unfold copy. cbn.
  change (foldl _ empty ws) with (add_words ws empty). by rewrite add_words_all.
Qed.

Lemma stick_false c : stick false c = c.
Proof. by destruct c. Qed.

(** The command behind [|] or [&&] is parsed into a fresh object. *)
Lemma chained_parses sub msg set d pre c0 e er k c s rest :
  printable c = true -> kind k = PIPE \/ kind k = SUCCESSCONCAT ->
  feeds s (tokens c ++ [sym TERMINATOR]) rest -> d = length pre ->
  (forall t s' us, feeds s' us rest -> t :: us = tokens c ++ [sym TERMINATOR] ->
     sub (length (pre ++ [c0])) (at_ t s' empty (pre ++ [c0]) e er)
     = Some (true, mkState rest e er (sym TERMINATOR) ((pre ++ [c0]) ++ [c]))) ->
  chained sub msg set d (at_ k s c0 pre e er)
  = Some (true, mkState rest e er (sym TERMINATOR) (pre ++ [set c c0])).
Proof.
  intros Hc Hk Hf -> Hsub. destruct (tokens c ++ [sym TERMINATOR]) as [|t us] eqn:Et; [by destruct (tokens c)|].
  destruct (nextsym_feeds s t us rest e er k (pre ++ [c0]) Hf) as (s' & Hf' & Hn).
  unfold chained. rewrite Hn. unfold with_cmds. cbn [negb buffer echoed errors mSymbol cmds].
  rewrite (Hsub t s' us Hf' eq_refl). cbn [mbind option_bind cmds buffer echoed errors mSymbol].
  rewrite lookup_app_r, Nat.sub_diag by lia. cbn [lookup list_lookup mbind option_bind].
  rewrite take_app_length. by rewrite on_last.
Qed.

(** What follows the words and the redirections. *)
Definition ending (p n : option Command) (b : bool) : list symbol :=
  (if b then [sym BACKGROUND] else [])
  ++ (match p with Some p => sym PIPE :: tokens p | None => [] end)
  ++ (match n with Some p => sym SUCCESSCONCAT :: tokens p | None => [] end).

Definition parses (c : Command) : Prop := forall fuel pre b e er t s us rest,
  t :: us = tokens c ++ [sym TERMINATOR] -> feeds s us rest -> (2 * length (tokens c) < fuel)%nat ->
  loop fuel (length pre) (at_ t s (blank b) pre e er)
  = Some (true, mkState rest e er (sym TERMINATOR) (pre ++ [stick b c])).

Lemma no_history c t us : printable c = true -> t :: us = tokens c ++ [sym TERMINATOR] -> kind t <> HISTORY.
Proof.
  intros Hc Heq Hk. pose proof (printed_tokens c Hc) as Hp.
  destruct (tokens c) as [|u ts]; cbn in Heq; simplify_eq.
  apply Forall_cons in Hp as [Hp _]. unfold printed in Hp. by rewrite Hk in Hp.
Qed.

Lemma parseCommand_parses c fuel pre b e er t s us rest :
  printable c = true -> parses c ->
  t :: us = tokens c ++ [sym TERMINATOR] -> feeds s us rest -> (2 * length (tokens c) + 1 < fuel)%nat ->
  parseCommand getenv mHistory fuel (length pre) (at_ t s (blank b) pre e er)
  = Some (true, mkState rest e er (sym TERMINATOR) (pre ++ [stick b c])).
Proof.
  intros Hc Hp Heq Hf Hfuel. destruct fuel as [|fuel]; [lia|]. cbn [parseCommand].
  replace (accept _ HISTORY) with false
    by (pose proof (no_history c t us Hc Heq); destruct t as [[] ?]; done).
  apply (Hp fuel pre b e er t s us rest Heq Hf). lia.
Qed.

Lemma loop_ending fuel pre c0 e er t s us rest p n b :
  (forall c, p = Some c -> parses c) -> (forall c, n = Some c -> parses c) ->
  match p, n with
  | None, None => true
  | Some c, None | None, Some c => negb b && printable c
  | Some _, Some _ => false
  end = true ->
  t :: us = ending p n b ++ [sym TERMINATOR] -> feeds s us rest ->
  (2 * length (ending p n b) < fuel)%nat ->
  mPipeTarget c0 = None -> mRunIfSuccess c0 = None ->
  loop fuel (length pre) (at_ t s c0 pre e er)
  = Some (true, mkState rest e er (sym TERMINATOR)
      (pre ++ [mkCommand (mWords c0) (mOutRedirect c0) (mInRedirect c0) p n (mBackground c0 || b)])).
Proof.
  intros Hp Hn Hok Heq Hf Hfuel Hp0 Hn0. destruct fuel as [|fuel]; [lia|].
  destruct c0 as [w0 o0 i0 p0 n0 b0]. cbn in Hp0, Hn0. subst p0 n0.
  assert (Hrun : forall set c, parses c -> printable c = true ->
    us = tokens c ++ [sym TERMINATOR] -> (2 * length (tokens c) + 1 < fuel)%nat ->
    forall msg k, kind k = PIPE \/ kind k = SUCCESSCONCAT ->
    chained (parseCommand getenv mHistory fuel) msg set (length pre) (at_ k s (mkCommand w0 o0 i0 None None b0) pre e er)
    = Some (true, mkState rest e er (sym TERMINATOR) (pre ++ [set c (mkCommand w0 o0 i0 None None b0)]))).
  { intros set c Hpc Hc -> Hl msg k Hk. apply chained_parses with (c := c); [done..|].
    intros t' s' us' Hf' Heq'. rewrite (parseCommand_parses c fuel _ false e er t' s' us' rest); try done.
    by rewrite stick_false. }
  destruct b; cbn [ending app] in *.
  - destruct p as [p|], n as [n|]; try done. cbn in *. simplify_eq.
    destruct (nextsym_feeds s (sym TERMINATOR) [] rest e er (sym BACKGROUND)
      (pre ++ [setBackground true (mkCommand w0 o0 i0 None None b0)]) Hf) as (s' & Hf' & Hn').
    cbn in Hf'. subst s'. run_round. unfold acceptNext. rewrite Hn'. run_round. cbn. by rewrite orb_true_r.
  - destruct p as [p|], n as [n|]; try done; cbn in *; simplify_eq; bool_to_prop; rewrite ?length_app in Hfuel; cbn in Hfuel.
    + run_round. rewrite (Hrun setPipe p); [|by apply Hp|done|by rewrite app_nil_r|lia|by left].
      unfold setPipe. cbn. by rewrite copy_printable, orb_false_r.
    + run_round. rewrite (Hrun setSuccessChain n); [|by apply Hn|done|done|lia|by right].
      unfold setSuccessChain. cbn. by rewrite copy_printable, orb_false_r.
    + change (s = rest) in Hf. subst s. run_round. by rewrite orb_false_r.
Qed.

Lemma loop_parses c : printable c = true -> parses c.
Proof.
  induction c as [ws o i p n b Hp Hn] using command_ind. intros Hc fuel pre b0 e er t s us rest Heq Hf Hfuel.
  cbn [printable mWords mOutRedirect mInRedirect mPipeTarget mRunIfSuccess mBackground tokens] in *.
  fold (ending p n b) in *.
  apply andb_true_iff in Hc as [[[Hws Ho]%andb_true_iff Hi]%andb_true_iff Hend].
  assert (Hsub : (forall c, p = Some c -> parses c) /\ (forall c, n = Some c -> parses c)).
  { split; intros c Hc; [apply (Hp c Hc)|apply (Hn c Hc)]; subst; [destruct n|destruct p]; by bool_to_prop. }
  rewrite !length_app, length_map in Hfuel.
  assert (Hlo : (count_opt o <= length (redir OUTREDIR o))%nat) by (destruct o; cbn; lia).
  assert (Hli : (count_opt i <= length (redir INREDIR i))%nat) by (destruct i; cbn; lia).
  replace fuel with (length ws + (count_opt o + (count_opt i + (fuel - length ws - count_opt o - count_opt i))))%nat
    by lia.
  rewrite <- !app_assoc in Heq.
  destruct (ending p n b ++ [sym TERMINATOR]) as [|v3 us3] eqn:E3; [by destruct (ending p n b)|].
  destruct (redir INREDIR i ++ v3 :: us3) as [|v2 us2] eqn:E2; [by destruct i|].
  destruct (redir OUTREDIR o ++ v2 :: us2) as [|v1 us1] eqn:E1; [by destruct o|].
  edestruct (loop_words (count_opt o + (count_opt i + (fuel - length ws - count_opt o - count_opt i))) ws pre e er rest)
    as (s1 & Hf1 & ->); [symmetry; exact Heq|exact Hf|].
  edestruct (loop_redirect (count_opt i + (fuel - length ws - count_opt o - count_opt i)) OUTREDIR o pre e er rest)
    as (s2 & Hf2 & ->); [by left|exact E1|exact Hf1|].
  edestruct (loop_redirect (fuel - length ws - count_opt o - count_opt i) INREDIR i pre e er rest)
    as (s3 & Hf3 & ->); [by right|exact E2|exact Hf2|].
  rewrite add_words_all by done.
  rewrite (loop_ending _ pre _ e er v3 s3 us3 rest p n b); try tauto; try done; [|lia|by destruct o, i|by destruct o, i].
  by destruct o, i.
Qed.

Lemma tokens_length c : printable c = true -> (2 * length (tokens c) <= length (Cmd.printf c))%nat.
Proof.
  intros Hc%printed_tokens. rewrite printf_tokens. induction Hc as [|t ts Ht Hts IH]; [cbn; lia|].
  cbn [length show_all map concat]. rewrite !length_app. cbn [length].
  assert (1 <= length (show t))%nat.
  { destruct t as [k v]. destruct k; try done; try (cbn; lia). cbn in Ht |- *.
    destruct (isword_cons v Ht) as (a & l & ->). cbn. lia. }
  unfold show_all in IH. lia.
Qed.

Lemma parse_S fuel st : parse getenv mHistory (S fuel) st =
  (let '(ok, st) := nextsym (on_cmd 0 clear st) in
   if ok then parseCommand getenv mHistory fuel 0 st else Some (false, st)).
Proof. reflexivity. Qed.

(** [Parser::parse] on a printed command and its terminator *)
Lemma parse_printed c fuel rest e er t0 c0 :
  printable c = true -> (length (Cmd.printf c) + 2 < fuel)%nat ->
  parse getenv mHistory fuel (mkState (Cmd.printf c ++ ";"%char :: rest) e er t0 [c0])
  = Some (true, mkState rest e er (sym TERMINATOR) [stick (mBackground c0) c]).
Proof.
  intros Hc Hfuel. destruct fuel as [|fuel]; [lia|]. rewrite parse_S.
  change (on_cmd 0 clear _) with
    (mkState (Cmd.printf c ++ ";"%char :: rest) e er t0 ([] ++ [blank (mBackground c0)])).
  pose proof (feeds_printed (tokens c) rest (printed_tokens c Hc)) as Hf. rewrite <- printf_tokens in Hf.
  destruct (tokens c ++ [sym TERMINATOR]) as [|t us] eqn:E; [by destruct (tokens c)|].
  destruct (nextsym_feeds _ t us rest e er t0 ([] ++ [blank (mBackground c0)]) Hf) as (s' & Hf' & Hn).
  rewrite Hn. pose proof (tokens_length c Hc).
  by rewrite (parseCommand_parses c fuel [] _ e er t s' us rest Hc (loop_parses c Hc)) by (done || lia).
Qed.
End Env.
End Parsed.

(** ** Running printed lines *)
Module RunThms.
Import Lexer Cmd Env Run Printed Parsed.

Section Shell.
Context {O : Type} `{Os O}.
Abbreviation M := (@Run.M O).
Abbreviation shell := (@Run.shell O).

(** The commands of a line, each printed and terminated. *)
Definition line (cs : list Command) : text := concat (map (fun c => Cmd.printf c ++ [";"%char]) cs).

(** The commands of [cs] one after the other; [b]: an earlier one was in the
    background.  While a command runs, the lexer holds the rest of the line. *)
Fixpoint run_all (fuel : nat) (b : bool) (cs : list Command) : M bool :=
  match cs with
  | [] => _ ← modify (fun s => with_input s []); mret true
  | c :: cs =>
      _ ← modify (fun s => with_input s (line cs ++ [";"%char]));
      _ ← (if operator_bool c then exec fuel (stick b c) else mret tt);
      run_all fuel (b || mBackground c) cs
  end.

(** A command that does not run a script, nor does one chained to it. *)
Fixpoint scriptless (c : Command) : bool :=
  match mWords c with w :: _ => negb (bool_decide (w = txt "script")) | [] => true end
  && match mRunIfSuccess c with Some n => scriptless n | None => true end.

(** *** What leaves the lexer's buffer alone *)
Definition keeps {A} (m : M A) : Prop := forall s r s', m s = Some (r, s') -> input s' = input s.

Lemma keeps_ret {A} (a : A) : keeps (mret a).
Proof. intros s r s' [= <- <-]. done. Qed.
Lemma keeps_bind {A B} (m : M A) (f : A -> M B) : keeps m -> (forall a, keeps (f a)) -> keeps (m ≫= f).
Proof.
  intros Hm Hf s r s' Hb. unfold mbind, M_bind in Hb. destruct (m s) as [[[a|c|] s1]|] eqn:E; try discriminate Hb.
  - rewrite (Hf a _ _ _ Hb). by apply (Hm s _ _ E).
  - injection Hb as <- <-. by apply (Hm s _ _ E).
  - injection Hb as <- <-. by apply (Hm s _ _ E).
Qed.
Lemma keeps_modify f : (forall s, input (f s) = input s) -> keeps (modify f).
Proof. intros Hf s r s' [= <- <-]. apply Hf. Qed.
Lemma keeps_gets {A} (f : shell -> A) : keeps (gets f).
Proof. by intros s r s' [= <- <-]. Qed.
Lemma keeps_on_os {A} (f : O -> A * O) : keeps (on_os f).
Proof. intros s r s' Hs. unfold on_os in Hs. destruct (f (os s)). by injection Hs as <- <-. Qed.
Lemma keeps_fail {A} : keeps (@fail O A).
Proof. by intros s r s' [= <- <-]. Qed.
Lemma keeps_do_chdir d : keeps (do_chdir d).
Proof. intros s r s' Hs. unfold do_chdir in Hs. destruct (os_chdir d (os s)); by injection Hs as <- <-. Qed.
Lemma keeps_exit l : keeps (exit_exec l).
Proof. by intros s r s' [= <- <-]. Qed.
Lemma keeps_for_each {A} (f : A -> M unit) l : (forall a, keeps (f a)) -> keeps (for_each f l).
Proof. intros Hf. induction l as [|a l IH]; cbn; [apply keeps_ret|]. by apply keeps_bind. Qed.

Create HintDb keeps.
#[local] Hint Resolve keeps_ret keeps_gets keeps_on_os keeps_fail keeps_do_chdir keeps_exit : keeps.

(** Binds, tests and matches down to the primitive effects. *)
Ltac keep :=
  repeat first
    [ solve [auto with keeps]
    | progress intros
    | apply keeps_bind
    | apply keeps_for_each
    | solve [apply keeps_modify; intros; reflexivity]
    | match goal with |- keeps (match ?x with _ => _ end) => destruct x end ].

Lemma keeps_handleExitStatus pid code any : keeps (handleExitStatus pid code any).
Proof. unfold handleExitStatus, printf. keep. Qed.

Lemma keeps_tryExecBuiltin run program argv :
  program <> txt "script" -> keeps (tryExecBuiltin run program argv).
Proof.
  intros Hp. unfold tryExecBuiltin. destruct program as [|a l] eqn:E; [keep|]. rewrite <- E in *. destruct (eqc _ a); [keep|].
  unfold builtin. repeat case_bool_decide; try done;
    unfold cd_exec, dirs_exec, env_exec, history_exec, do_popd, do_pushd, set_env, printf; keep.
Qed.

Lemma keeps_exec_program next c program :
  (forall n, mRunIfSuccess c = Some n -> keeps (next n)) -> keeps (exec_program next c program).
Proof.
  intros Hn. unfold exec_program, redirect, close_redirect, printf, eprintf.
  assert (Hh : forall p x a, keeps (handleExitStatus p x a)) by (intros; apply keeps_handleExitStatus).
  destruct (mRunIfSuccess c) as [n|]; [specialize (Hn n eq_refl)|]; keep.
Qed.

Lemma exec_keeps_input fuel c : scriptless c = true -> keeps (exec fuel c).
Proof.
  revert c. induction fuel as [|fuel IH]; intros c Hc; [by intros s r s'|]. cbn [exec].
  apply keeps_bind; [unfold eprintf; keep|]. intros _. destruct c as [ws o i p n b]. cbn in *.
  destruct ws as [|w ws]; [keep|]. bool_to_prop. apply keeps_bind; [by apply keeps_tryExecBuiltin|].
  intros []; [keep|]. apply keeps_exec_program. intros n' Hn. cbn in Hn. subst n. auto.
Qed.

Lemma scriptless_stick b c : scriptless (stick b c) = scriptless c.
Proof. by destruct c. Qed.

(** *** The loop of [runline] *)

Lemma bind_returned {A B} (m : M A) (f : A -> M B) s a s' :
  m s = Some (Returned a, s') -> (m ≫= f) s = f a s'.
Proof. intros E. unfold mbind, M_bind. by rewrite E. Qed.

(** Two continuations that agree on what [m] can return. *)
Lemma bind_ext {A B} (m : M A) (f g : A -> M B) s :
  (forall a s', m s = Some (Returned a, s') -> f a s' = g a s') -> (m ≫= f) s = (m ≫= g) s.
Proof. intros E. unfold mbind, M_bind. destruct (m s) as [[[a|c|] s1]|]; auto. Qed.

Lemma parser_parse_printed fuel c rest c0 (s : shell) p :
  printable c = true -> (length (Cmd.printf c) + 2 < fuel)%nat -> input s = Cmd.printf c ++ ";"%char :: rest ->
  Parser.cmds p = [c0] ->
  parser_parse fuel p s
  = Some (Returned (true, Parser.mkState rest [] [] (sym TERMINATOR) [stick (mBackground c0) c]), with_input s rest).
Proof.
  intros Hc Hf Hi Hp. unfold parser_parse. rewrite Hi, Hp, parse_printed by done.
  cbn. unfold print, eprint, with_input. cbn. by rewrite !app_nil_r.
Qed.

Lemma parser_parse_end fuel p c0 (s : shell) :
  input s = [] -> Parser.cmds p = [c0] ->
  parser_parse (S fuel) p s
  = Some (Returned (false, Parser.mkState [] [] [] (Parser.mSymbol p) [clear c0]), with_input s []).
Proof.
  intros Hi Hp. unfold parser_parse. rewrite Hi, Hp. cbn. unfold print, eprint, with_input. cbn. by rewrite !app_nil_r.
Qed.

Lemma stick_copy b c : printable c = true -> copy (stick b c) = stick b c.
Proof.
  intros Hc. apply copy_printable in Hc. destruct c as [ws o i p n bg]. unfold copy in *. cbn in *. by injection Hc as ->.
Qed.

Lemma run_loop_lines efuel cs fuel (s : shell) p c0 :
  forallb printable cs = true -> forallb scriptless cs = true ->
  (length (line cs) + 4 < fuel)%nat ->
  input s = line cs ++ [";"%char] -> Parser.cmds p = [c0] ->
  run_loop (exec efuel) fuel p s = run_all efuel (mBackground c0) cs s.
Proof.
  revert fuel s p c0. induction cs as [|c cs IH]; intros fuel s p c0 Hp Hs Hf Hi Hc.
  - destruct fuel as [|[|fuel]]; [cbn in Hf; lia..|]. cbn [run_loop run_all].
    erewrite bind_returned; [|eapply (parser_parse_printed _ empty []); [done|cbn in *; lia|done|done]].
    cbn [Parser.command Parser.cmds lookup list_lookup].
    rewrite !(bind_returned _ _ _ _ _ eq_refl).
    erewrite bind_returned; [|by eapply parser_parse_end].
    done.
  - cbn [forallb] in Hp, Hs. bool_to_prop. destruct fuel as [|fuel]; [lia|]. cbn [run_loop run_all].
    cbn [line map concat] in Hi, Hf. fold (line cs) in *. rewrite !length_app in Hf. cbn [length] in Hf.
    erewrite bind_returned.
    2:{ eapply (parser_parse_printed _ c (line cs ++ [";"%char])); [done|lia| |done].
        rewrite Hi. by rewrite <- !app_assoc. }
    cbn [Parser.command Parser.cmds lookup list_lookup].
    rewrite (bind_returned _ _ _ _ _ eq_refl). rewrite (bind_returned (modify _) _ _ _ _ eq_refl).
    rewrite stick_copy by done. apply bind_ext. intros [] s' Hx.
    apply (IH fuel s' _ (stick (mBackground c0) c)); try done; [lia|].
    assert (Hk : keeps (if operator_bool (stick (mBackground c0) c) then exec efuel (stick (mBackground c0) c) else mret tt)).
    { destruct (operator_bool _); [|keep]. apply exec_keeps_input. by rewrite scriptless_stick. }
    by rewrite (Hk _ _ _ Hx).
Qed.

(** *** [runline] *)

Lemma trim_left_head a l : eqc " "%char a = false -> trim_left (a :: l) = a :: l.
Proof. intros E. cbn [trim_left]. by rewrite E. Qed.

Lemma trim_id a l b : eqc " "%char a = false -> eqc " "%char b = false -> trim ((a :: l) ++ [b]) = (a :: l) ++ [b].
Proof.
  intros Ha Hb. unfold trim. cbn [app]. rewrite trim_left_head by done. change (a :: l ++ [b]) with ((a :: l) ++ [b]).
  rewrite reverse_app, reverse_singleton. cbn [app]. rewrite trim_left_head by done.
  by rewrite reverse_cons, reverse_involutive.
Qed.

Lemma line_head c cs : printable c = true ->
  exists a l, line (c :: cs) = a :: l /\ eqc " "%char a = false /\ eqc "#"%char a = false.
Proof.
  intros Hc%printed_tokens. cbn [line map concat]. rewrite printf_tokens.
  destruct Hc as [|t ts Ht _]; [by eauto|]. cbn [show_all map concat]. rewrite <- !app_assoc.
  destruct t as [k v]. destruct k; try done; try (by eauto). cbn in Ht |- *.
  destruct v as [|a v]; [done|]. exists a. eexists. split; [done|].
  unfold isword in Ht. cbn in Ht. bool_to_prop. match goal with E : isargument a = true |- _ => revert E end.
  clear. destruct a as [[] [] [] [] [] [] [] []]; vm_compute; try done; congruence.
Qed.

Lemma line_last c cs : exists l, line (c :: cs) = l ++ [";"%char].
Proof.
  revert c. induction cs as [|d cs IH]; intros c.
  - exists (Cmd.printf c). cbn. by rewrite app_nil_r.
  - destruct (IH d) as [l Hl]. exists ((Cmd.printf c ++ [";"%char]) ++ l).
    change (line (c :: d :: cs)) with ((Cmd.printf c ++ [";"%char]) ++ line (d :: cs)). by rewrite Hl, app_assoc.
Qed.

Lemma trim_line c cs : printable c = true -> trim (line (c :: cs)) = line (c :: cs).
Proof.
  intros Hc. destruct (line_head c cs Hc) as (a & l & Hl & Ha & _). destruct (line_last c cs) as [m Hm].
  destruct m as [|a' m].
  - by rewrite Hm.
  - rewrite Hm in Hl |- *. cbn in Hl. simplify_eq. by apply trim_id.
Qed.
End Shell.
End RunThms.

(** ** Parsing ends *)
Module Ends.
Import Flex Lexer Cmd Parser.

Lemma fire_pos {A} (rs : list (regex * A)) s n a : fire rs s = Some (n, a) -> (0 < n)%nat.
Proof.
  revert n a. induction rs as [|[r b] rs IH]; cbn [fire]; [done|]. intros n a Hf.
  destruct (longest r s) as [[|m]|]; try (by eapply IH).
  destruct (fire rs s) as [[n' a']|]; [|by simplify_eq; lia].
  destruct (_ <? _)%nat; simplify_eq; [by eapply IH|lia].
Qed.

(** A symbol uses up input, and the input ends only when it is all used. *)
Lemma yylex_suffix fuel s e r rest : yylex_fuel fuel s = (e, r, rest) ->
  exists u, s = u ++ rest /\ (match r with Some _ => u <> [] | None => (length s <= fuel)%nat -> rest = [] end).
Proof.
  revert s e r rest. induction fuel as [|fuel IH]; intros s e r rest Hy; cbn [yylex_fuel] in Hy.
  - destruct s; simplify_eq; exists []; split; try done. cbn. lia.
  - destruct s as [|a s]; [by simplify_eq; exists []|].
    assert (Hcons : forall u v, (v = a :: s \/ exists n, v = drop n (a :: s)) -> v = u ++ rest ->
      exists u', a :: s = u' ++ rest /\ (u <> [] -> u' <> [])).
    { intros u v [->|[n ->]] Hv; [by exists u|]. exists (take n (a :: s) ++ u). split.
      - by rewrite <- app_assoc, <- Hv, take_drop.
      - intros Hu [_ ->]%app_eq_nil. done. }
    destruct (fire rules (a :: s)) as [[n [|k]]|] eqn:Hf.
    + destruct (IH _ _ _ _ Hy) as (u & Hu & Hr). destruct (Hcons u _ (or_intror (ex_intro _ n eq_refl)) Hu) as (u' & Hu' & Hne).
      exists u'. split; [done|]. destruct r; [by auto|]. intros Hl. apply Hr. apply fire_pos in Hf.
      rewrite length_drop. cbn in *. lia.
    + simplify_eq. exists (take n (a :: s)). split; [by rewrite take_drop|]. apply fire_pos in Hf. by destruct n; [lia|].
    + destruct (yylex_fuel fuel s) as [[e' r'] rest'] eqn:E. simplify_eq. destruct (IH _ _ _ _ E) as (u & -> & Hr).
      exists (a :: u). split; [done|]. destruct r; [done|]. intros Hl. apply Hr. cbn in Hl. lia.
Qed.

Section Measure.
Context (getenv : text -> option text) (mHistory : list text).

(** [good] is kept by lexing; in a good input a [HISTORY] symbol is followed by the
    parse of a line that ends within [bound] rounds. *)
Context (good : text -> Prop) (goodsym : symbol -> Prop) (bound : nat).

Definition ends (st : state) (r : option (bool * state)) : Prop :=
  exists ok st', r = Some (ok, st') /\ length (cmds st') = length (cmds st).

Hypothesis lex_good : forall s e t rest, good s -> yylex s = (e, Some t, rest) -> goodsym t /\ good rest.
Hypothesis history_ends : forall t st line fuel,
  goodsym t -> kind t = HISTORY -> line ∈ mHistory -> (bound <= fuel)%nat ->
  ends st (parse getenv mHistory fuel (setInputBuffer line st)).

Definition ok_state (n : nat) (st : state) : Prop :=
  good (buffer st) /\ goodsym (mSymbol st) /\ (length (buffer st) <= n)%nat.

Lemma nextsym_ends n st ok st' : good (buffer st) -> (length (buffer st) <= n)%nat -> nextsym st = (ok, st') ->
  cmds st' = cmds st /\ (ok = true -> (0 < n)%nat /\ ok_state (n - 1) st').
Proof.
  intros Hg Hl Hn. unfold nextsym, yylex in Hn. destruct (yylex_fuel _ (buffer st)) as [[e r] rest] eqn:E.
  destruct (yylex_suffix _ _ _ _ _ E) as (u & Hu & Hr).
  destruct r as [t|]; simplify_eq; split; try done. intros _. cbn.
  assert (0 < length u)%nat by (destruct u; [done|cbn; lia]).
  destruct (lex_good _ _ _ _ Hg E) as [Ht Hrest].
  rewrite Hu, length_app in Hl. split; [lia|]. repeat split; cbn; try done. lia.
Qed.

Lemma ok_on_cmd n d f st : ok_state n st -> ok_state n (on_cmd d f st).
Proof. done. Qed.

Lemma length_on_cmd d f st : length (cmds (on_cmd d f st)) = length (cmds st).
Proof. unfold on_cmd. cbn. apply length_alter. Qed.

Lemma ends_length st st1 r : length (cmds st1) = length (cmds st) -> ends st1 r -> ends st r.
Proof. intros Hl (ok & st' & -> & Hs). exists ok, st'. split; [done|lia]. Qed.

Lemma ends_now st st1 ok : length (cmds st1) = length (cmds st) -> ends st (Some (ok, st1)).
Proof. intros Hl. by exists ok, st1. Qed.

Lemma redirect_ends n (out : bool) d st ok st' : ok_state n st ->
  (if out then parseOutRedirect getenv d st else parseInRedirect getenv d st) = (ok, st') ->
  length (cmds st') = length (cmds st) /\ (ok = true -> ok_state n st').
Proof.
  intros (Hg & Ht & Hl) Hr. destruct (nextsym st) as [ok1 st1] eqn:Hn.
  destruct (nextsym_ends n st ok1 st1 Hg Hl Hn) as [Hc Hok].
  assert (Hw : forall f, ok1 = true -> ok_state n (on_cmd d f st1)).
  { intros f E. apply ok_on_cmd. destruct (Hok E) as (Hpos & H1 & H2 & H3). split; [done|]. split; [done|lia]. }
  unfold parseOutRedirect, parseInRedirect in Hr. rewrite Hn in Hr.
  destruct out, (accept st _), ok1, (acceptText getenv st1); cbn [negb] in Hr; simplify_eq;
    rewrite ?length_on_cmd; cbn [error cmds]; rewrite ?Hc; split; auto; discriminate.
Qed.

Lemma chained_ends n sub msg set d st : ok_state n st ->
  (forall d' st', (0 < n)%nat -> ok_state (n - 1) st' -> ends st' (sub d' st')) ->
  ends st (chained sub msg set d st).
Proof.
  intros (Hg & Ht & Hl) Hsub. unfold chained. destruct (nextsym st) as [ok st1] eqn:Hn.
  destruct (nextsym_ends n st ok st1 Hg Hl Hn) as [Hc Hok].
  destruct ok; cbn [negb]; [|apply ends_now; cbn; by rewrite Hc].
  destruct (Hok eq_refl) as [Hpos Hst].
  destruct (Hsub (length (cmds st1)) (with_cmds st1 (cmds st1 ++ [empty])) Hpos Hst) as (ok2 & st2 & -> & Hlen).
  cbn [mbind option_bind]. cbn [with_cmds cmds] in Hlen. rewrite length_app in Hlen. cbn [length] in Hlen.
  destruct (lookup_lt_is_Some_2 (cmds st2) (length (cmds st1))) as [c Hc2]; [lia|].
  rewrite Hc2. cbn [mbind option_bind].
  assert (Htk : length (take (length (cmds st1)) (cmds st2)) = length (cmds st)) by (rewrite length_take, <- Hc; lia).
  destruct ok2; apply ends_now; rewrite ?length_on_cmd; done.
Qed.

Lemma history_line_ends n st r st' : ok_state n st -> history_line getenv mHistory st = (r, st') ->
  cmds st' = cmds st /\ (forall line, r = Some line -> line ∈ mHistory).
Proof.
  intros (Hg & Ht & Hl) Hh. unfold history_line, get in Hh. destruct (nextsym st) as [ok st1] eqn:Hn.
  destruct (nextsym_ends n st ok st1 Hg Hl Hn) as [Hc _].
  destruct ok; cbn [negb] in Hh; [|by simplify_eq].
  destruct (acceptText getenv st1); [|by simplify_eq].
  destruct (_ <=? 0)%Z; [by simplify_eq|]. destruct (_ >=? _)%Z; [by simplify_eq|].
  destruct (mHistory !! _) eqn:E; simplify_eq; split; try done.
  intros ? [= <-]. by eapply list_elem_of_lookup_2.
Qed.

Lemma opt_redirect_ends n (out : bool) d st ok st' : ok_state n st ->
  (if accept st (if out then OUTREDIR else INREDIR)
   then (if out then parseOutRedirect getenv d st else parseInRedirect getenv d st) else (true, st)) = (ok, st') ->
  length (cmds st') = length (cmds st) /\ (ok = true -> ok_state n st').
Proof. intros Hst Hr. destruct (accept st _); [by eapply redirect_ends|by simplify_eq]. Qed.

(** A round, when the commands and the rounds after it end. *)
Lemma round_ends n fuel d st : ok_state n st ->
  (forall d' st', (0 < n)%nat -> ok_state (n - 1) st' -> ends st' (parseCommand getenv mHistory fuel d' st')) ->
  (forall d' st', (0 < n)%nat -> ok_state (n - 1) st' -> ends st' (parse_loop getenv mHistory fuel d' st')) ->
  ends st (parse_loop getenv mHistory (S fuel) d st).
Proof.
  intros Hst Hsub Hnext. cbn [parse_loop]. destruct (accept st TERMINATOR); [by apply ends_now|].
  set (st1 := match acceptText getenv st with Some _ => _ | None => _ end).
  assert (H1 : ok_state n st1 /\ length (cmds st1) = length (cmds st)).
  { unfold st1. destruct (acceptText getenv st); [|done]. by rewrite length_on_cmd. }
  clearbody st1. destruct H1 as [H1 Hl1].
  destruct (if accept st1 OUTREDIR then _ else _) as [ok2 st2] eqn:E2.
  destruct (opt_redirect_ends n true d st1 ok2 st2 H1 E2) as [Hl2 H2]. clear E2.
  destruct ok2; cbn [negb]; [|apply ends_now; lia]. specialize (H2 eq_refl).
  destruct (if accept st2 INREDIR then _ else _) as [ok3 st3] eqn:E3.
  destruct (opt_redirect_ends n false d st2 ok3 st3 H2 E3) as [Hl3 H3]. clear E3.
  destruct ok3; cbn [negb]; [|apply ends_now; lia]. specialize (H3 eq_refl).
  apply (ends_length st st3); [lia|].
  destruct (accept st3 PIPE); [by apply (chained_ends n)|].
  destruct (accept st3 SUCCESSCONCAT); [by apply (chained_ends n)|].
  destruct (accept st3 BACKGROUND).
  - unfold acceptNext. destruct (nextsym (on_cmd d (setBackground true) st3)) as [ok4 st4] eqn:E4.
    destruct (nextsym_ends n (on_cmd d (setBackground true) st3) _ _ (proj1 H3) (proj2 (proj2 H3)) E4) as [Hc4 _].
    assert (Hl4 : length (cmds st4) = length (cmds st3)) by (rewrite Hc4, length_on_cmd; done).
    destruct ok4; [destruct (accept st4 TERMINATOR)|]; by apply ends_now.
  - destruct (nextsym st3) as [ok4 st4] eqn:E4.
    destruct (nextsym_ends n _ _ _ (proj1 H3) (proj2 (proj2 H3)) E4) as [Hc4 H4].
    destruct ok4; [|apply ends_now; by rewrite Hc4]. destruct (H4 eq_refl) as [Hpos H4'].
    apply (ends_length st3 st4); [by rewrite Hc4|auto].
Qed.

Lemma parser_ends n :
  (forall fuel d st, ok_state n st -> (2 * n + bound + 1 <= fuel)%nat ->
     ends st (parse_loop getenv mHistory fuel d st))
  /\ (forall fuel d st, ok_state n st -> (2 * n + bound + 2 <= fuel)%nat ->
     ends st (parseCommand getenv mHistory fuel d st)).
Proof.
  induction n as [n IH] using lt_wf_ind.
  assert (Hloop : forall fuel d st, ok_state n st -> (2 * n + bound + 1 <= fuel)%nat ->
     ends st (parse_loop getenv mHistory fuel d st)).
  { intros fuel d st Hst Hf. destruct fuel as [|fuel]; [lia|]. apply (round_ends n); [done| |];
      intros d' st' Hpos Hs; apply (IH (n - 1)%nat); (done || lia). }
  split; [done|]. intros fuel d st Hst Hf. destruct fuel as [|fuel]; [lia|]. cbn [parseCommand].
  destruct (accept st HISTORY) eqn:Ha; [|apply Hloop; [done|lia]].
  destruct (history_line getenv mHistory st) as [[line|] st1] eqn:Hh;
    destruct (history_line_ends n st _ st1 Hst Hh) as [Hc1 Hin].
  - apply (ends_length st st1); [by rewrite Hc1|]. apply (history_ends (mSymbol st)); [apply Hst| |by apply Hin|lia].
    unfold accept in Ha. by destruct (kind (mSymbol st)).
  - apply ends_now. by rewrite Hc1.
Qed.

Lemma parse_ends fuel st :
  good (buffer st) -> (2 * length (buffer st) + bound + 3 <= fuel)%nat ->
  ends st (parse getenv mHistory fuel st).
Proof.
  intros Hg Hf. destruct fuel as [|fuel]; [lia|]. rewrite Parsed.parse_S.
  destruct (nextsym (on_cmd 0 clear st)) as [ok st1] eqn:E.
  destruct (nextsym_ends (length (buffer st)) (on_cmd 0 clear st) _ _ Hg (le_n _) E) as [Hc Hok].
  assert (Hl : length (cmds st1) = length (cmds st)) by (rewrite Hc, length_on_cmd; done).
  destruct ok; [|by apply ends_now]. destruct (Hok eq_refl) as [Hpos Hst].
  apply (ends_length st st1); [done|]. eapply parser_ends; [done|]. lia.
Qed.
End Measure.

(** *** Lines without the history mark *)

Definition nobang (s : text) : Prop := Forall (fun a => eqc "!"%char a = false) s.

Lemma fire_in {A} (rs : list (regex * A)) s n a : fire rs s = Some (n, a) ->
  exists r, In (r, a) rs /\ longest r s = Some n.
Proof.
  revert n a. induction rs as [|[r b] rs IH]; cbn [fire]; [done|]. intros n a Hf.
  assert (Hrest : fire rs s = Some (n, a) -> exists r', In (r', a) ((r, b) :: rs) /\ longest r' s = Some n).
  { intros (r' & Hin & Hl)%IH. exists r'. split; [by right|done]. }
  destruct (longest r s) as [[|m]|] eqn:Hl; auto.
  destruct (fire rs s) as [[n' a']|] eqn:Hr; [destruct (_ <? _)%nat|]; simplify_eq; auto;
    exists r; split; try done; by left.
Qed.

Lemma fire_history s n : fire rules s = Some (n, Return HISTORY) -> ~ nobang s.
Proof.
  intros (r & Hin & Hl)%fire_in Hs.
  assert (Hr : r = Seq (chr "!") (chr "!")) by (cbn [In rules] in Hin; intuition congruence).
  pose proof (longest_spec r s) as Hspec. rewrite Hl in Hspec. destruct Hspec as (_ & Hm & _). subst r.
  inversion Hm as [| |? ? u v Hu Hv Heq| | | |]; subst. inversion Hu as [|? a Ha| | | | |]; subst.
  assert (Hn : nobang (take n s)) by (by apply Forall_take).
  match goal with E : _ = take n s |- _ => rewrite <- E in Hn end.
  apply Forall_cons in Hn as [Hn _]. congruence.
Qed.

Lemma nobang_lex s e t rest : nobang s -> yylex s = (e, Some t, rest) -> kind t <> HISTORY /\ nobang rest.
Proof.
  intros Hs Hy. unfold yylex in Hy. generalize dependent (length s). intros fuel. revert s e Hs.
  induction fuel as [|fuel IH]; intros s e Hs Hy; cbn [yylex_fuel] in Hy; [by destruct s|].
  destruct s as [|a s]; [done|]. destruct (fire rules (a :: s)) as [[n [|k]]|] eqn:Hf.
  - apply (IH (drop n (a :: s)) e); [by apply Forall_drop|done].
  - simplify_eq. split; [|by apply Forall_drop]. intros Hk. cbn in Hk. subst k. by apply fire_history in Hf.
  - destruct (yylex_fuel fuel s) as [[e' r'] rest'] eqn:E. simplify_eq. apply (IH s e'); [by inversion Hs|done].
Qed.

(** The longest line of the history. *)
Definition longest_line (h : list text) : nat := foldr (fun l n => Nat.max (length l) n) 0 h.

Lemma longest_line_ge h l : l ∈ h -> (length l <= longest_line h)%nat.
Proof. unfold longest_line. induction 1; cbn [foldr]; lia. Qed.
End Ends.

(** ** Redirections meet the kernel's file operations *)
Module Redirect.
Import Tables.Handletable Life.

Abbreviation tok := (@Handletable.ok FsObject.handle 64).

Lemma lookup_valid (t : table FsObject.handle) i h : tok t -> (i < 64)%nat -> lookup t i = Some h ->
  is_ t i = Some true /\ value t i = Some h.
Proof.
  intros Hok Hi Hl. unfold lookup in Hl. destruct (BitArray.bit (mValid t) i) eqn:Hb; [|done]. split; [|done].
  unfold is_. rewrite BitArray.is_set_bit, Hb; [done|]. apply BitArray.byte_index. pose proof (h_valid 64 t Hok). lia.
Qed.

(** Closing descriptor [k] of the child and giving it one of the parent puts the
    parent's file at [k], when everything below is taken. *)
Lemma close_dup st parent child k fd h h0 ob rest :
  tok parent -> tok child -> (k < 64)%nat -> (fd < 64)%nat ->
  (forall j, (j < k)%nat -> is_Some (lookup child j)) ->
  lookup child k = Some h0 -> FsObject.handle_ok h0 = false ->
  lookup parent fd = Some h -> FsObject.h_object h <> 0%Z -> FsObject.objects st !! FsObject.h_object h = Some ob ->
  exists st' child', execFileops st parent child (CLOSE_CHILD_FD k :: DUP_PARENT_FD fd :: rest)
      = execFileops st' parent child' rest
    /\ tok child' /\ (forall o, is_Some (FsObject.objects st !! o) -> is_Some (FsObject.objects st' !! o))
    /\ forall j, lookup child' j = if decide (k = j) then Some h else lookup child j.
Proof.
  intros Hp Hc Hk Hfd Hbelow Hl0 Hh0 Hl Hobj Hob.
  destruct (lookup_valid child k h0 Hc Hk Hl0) as [Hi Hv]. destruct (lookup_valid parent fd h Hp Hfd Hl) as [Hi2 Hv2].
  destruct (handle_clear_spec 64 child k Hc) as [Hc1 Hcl].
  destruct (handle_set_spec 64 ltac:(lia) (clear child k) h 0 Hc1) as (r & child' & Hs & Hok' & Hr).
  cbn [execFileops]. rewrite Hi, Hv, Hi2, Hv2. cbn [mbind option_bind]. rewrite Hh0.
  cbn [mbind option_bind]. unfold FsObject.incref. rewrite Hob. cbn [mbind option_bind].
  replace (FsObject.h_object h =? 0)%Z with false by (symmetry; by apply Z.eqb_neq).
  rewrite Hs. cbn [mbind option_bind]. eexists _, child'. split; [done|]. split; [done|]. split.
  - intros o [x Hx]. cbn. destruct (decide (FsObject.h_object h = o)) as [<-|Hne];
      [rewrite lookup_insert_eq|rewrite lookup_insert_ne by done]; eauto.
  - destruct r as [i|].
    + destruct Hr as (Hi64 & Hfree & Hall & d & Hd & Hbel).
      assert (i = k) as ->.
      { destruct (lt_eq_lt_dec i k) as [[Hlt|Heq]|Hgt]; [|done|].
        - rewrite Hcl in Hfree. case_decide; [lia|]. destruct (Hbelow i Hlt) as [? E]. congruence.
        - assert (Hki : is_Some (lookup (clear child k) ((0 + k) mod 64))).
          { apply Hbel. cbn [Nat.add] in Hd. destruct (Nat.lt_ge_cases d 64) as [Hlt|Hge].
            - rewrite Nat.mod_small in Hd by done. lia.
            - lia. }
          cbn [Nat.add] in Hki. rewrite Nat.mod_small, Hcl in Hki by done. case_decide; [|done]. by destruct Hki. }
      intros j. rewrite Hall, Hcl. by case_decide.
    + destruct Hr as [_ Hfull]. destruct (Hfull k Hk) as [x Hx]. rewrite Hcl in Hx. by case_decide.
Qed.

(** The descriptors a process starts with are its terminal. *)
Lemma forward_tty ttyfile child : forwardTTY (Handletable.new 64) ttyfile = Some child ->
  tok child /\ forall j, (j < 3)%nat -> lookup child j = Some (FsObject.mkHandle 0 ttyfile 0).
Proof.
  intros Hf. cbv in Hf. injection Hf as <-. split.
  - split; [done..|]. intros i Hi. do 64 (destruct i as [|i]; [vm_compute; intros; first [discriminate|eexists; reflexivity]|]). lia.
  - intros [|[|[|j]]] Hj; [done..|lia].
Qed.

(** What the parent holds at the descriptor of a redirection, or the terminal. *)
Definition target (parent : table FsObject.handle) (tty : FsObject.handle) (fd : option nat) : option FsObject.handle :=
  match fd with Some fd => lookup parent fd | None => Some tty end.

(** The parent's descriptor is that of an open file. *)
Definition open_at (st : FsObject.state) (parent : table FsObject.handle) (fd : option nat) : Prop :=
  match fd with
  | None => True
  | Some fd => (fd < 64)%nat /\ exists h, lookup parent fd = Some h /\ FsObject.h_object h <> 0%Z
      /\ is_Some (FsObject.objects st !! FsObject.h_object h)
  end.

Lemma redirect_ops {O} `{Run.Os O} t w k (s : @Run.shell O) fd ops s' :
  Run.redirect t w k s = Some (Run.Returned (fd, ops), s') ->
  ops = match fd with Some fd => [CLOSE_CHILD_FD k; DUP_PARENT_FD fd] | None => [] end.
Proof.
  unfold Run.redirect, mbind, Run.M_bind. destruct t as [t|]; [|by intros [= <- <- <-]].
  unfold Run.on_os. destruct (Run.os_fopen t w (Run.os s)) as [[f|] o]; by intros [= <- <- <-].
Qed.

(** One redirection into descriptor [k], which holds the terminal. *)
Lemma redirect_runs st parent child k fd tty rest :
  tok parent -> tok child -> (k < 64)%nat -> open_at st parent fd ->
  (forall j, (j < k)%nat -> is_Some (lookup child j)) -> lookup child k = Some tty -> FsObject.handle_ok tty = false ->
  exists st' child',
    execFileops st parent child (match fd with Some fd => [CLOSE_CHILD_FD k; DUP_PARENT_FD fd] | None => [] end ++ rest)
      = execFileops st' parent child' rest
    /\ tok child' /\ (forall o, is_Some (FsObject.objects st !! o) -> is_Some (FsObject.objects st' !! o))
    /\ forall j, lookup child' j = if decide (k = j) then target parent tty fd else lookup child j.
Proof.
  intros Hp Hc Hk Ho Hb Hl Ht. destruct fd as [fd|].
  - destruct Ho as (Hfd & h & Hh & Hobj & ob & Hob). cbn [app target]. rewrite Hh. by eapply close_dup.
  - exists st, child. split_and!; try done. intros j. case_decide; [by subst j|done].
Qed.
End Redirect.

(** C25: parsing a command ends, on every input and in every environment, when no
    line of the history itself refers to the history: the rounds are bounded by the
    input and the longest line that can be recalled. *)
Theorem parse_terminates getenv mHistory (st : Parser.state) (fuel : nat) :
  Forall Ends.nobang mHistory ->
  (2 * length (Parser.buffer st) + 2 * Ends.longest_line mHistory + 8 <= fuel)%nat ->
  exists ok st', Parser.parse getenv mHistory fuel st = Some (ok, st').
Proof.
  intros Hh Hf.
  destruct (Ends.parse_ends getenv mHistory (fun _ => True) (fun _ => True)
              (2 * S (Ends.longest_line mHistory) + 3)%nat) with (fuel := fuel) (st := st) as (ok & st' & Hp & _);
    [done| |done|lia|by eauto].
  intros t st1 line fuel1 _ _ Hin Hf1.
  apply (Ends.ends_length st1 (Parser.setInputBuffer line st1)); [done|].
  apply (Ends.parse_ends getenv mHistory Ends.nobang (fun t => Lexer.kind t <> Lexer.HISTORY) 0).
  - intros s e u rest. apply Ends.nobang_lex.
  - intros u st2 l2 f2 Hu Hk. done.
  - cbn. apply Forall_app. split; [|by repeat constructor]. by apply (proj1 (list.Forall_forall _ _) Hh).
  - apply Ends.longest_line_ge in Hin. cbn. rewrite length_app. cbn [length]. lia.
Qed.

Lemma parse_terminates_witness :
  exists ok st', Parser.parse (fun _ => None) [txt "ls"] 100 (Parser.init (txt "!! 1;")) = Some (ok, st').
Proof.
  apply (parse_terminates (fun _ => None) [txt "ls"] (Parser.init (txt "!! 1;")) 100); [by repeat constructor|].
  vm_compute. lia.
Defined.

(** A line of the history that recalls itself is expanded without end. *)
Theorem history_recursion_never_ends getenv (fuel : nat) :
  Parser.parse getenv [txt "!! 1"] fuel (Parser.init (txt "!! 1;")) = None.
Proof.
  assert (Hgen : forall fuel st, Parser.buffer st = txt "!! 1;" -> Parser.parse getenv [txt "!! 1"] fuel st = None).
  { clear. intros fuel. induction fuel as [fuel IH] using lt_wf_ind. intros [b e er t cs] Hb. cbn in Hb. subst b.
    destruct fuel as [|fuel]; [done|]. rewrite Parsed.parse_S. cbn [Parser.on_cmd Parser.with_cmds].
    unfold Parser.nextsym at 1. cbn [Parser.buffer Parser.on_cmd Parser.with_cmds].
    change (Lexer.yylex (txt "!! 1;")) with (@nil ascii, Some (Lexer.mkSymbol Lexer.HISTORY []), txt " 1;").
    destruct fuel as [|fuel]; [done|]. cbn [Parser.parseCommand].
    unfold Parser.history_line, Parser.nextsym. cbn [Parser.buffer].
    change (Lexer.yylex (txt " 1;")) with (@nil ascii, Some (Lexer.mkSymbol Lexer.ARGUMENT (txt "1")), txt ";").
    apply IH; [lia|done]. }
  by apply Hgen.
Qed.

(** C20: the file operations the shell passes to [spawn] for the redirections of a
    command make the kernel give the child the opened files as its descriptors 0 and
    1, while 2, and what is not redirected, stays the terminal. *)
Theorem redirections_reach_child {O} `{Run.Os O} (c : Cmd.Command) (s s1 s2 : @Run.shell O) fo fi ops1 ops2
    (st : FsObject.state) (parent child : Handletable.table FsObject.handle) (ttyfile : Z) :
  Run.redirect (Cmd.mOutRedirect c) true Run.STDOUT_FILENO s = Some (Run.Returned (fo, ops1), s1) ->
  Run.redirect (Cmd.mInRedirect c) false Run.STDIN_FILENO s1 = Some (Run.Returned (fi, ops2), s2) ->
  Handletable.ok 64 parent -> Redirect.open_at st parent fo -> Redirect.open_at st parent fi ->
  Life.forwardTTY (Handletable.new 64) ttyfile = Some child ->
  exists st' child', Life.execFileops st parent child (ops1 ++ ops2) = Some (st', child')
    /\ Handletable.lookup child' 0 = Redirect.target parent (FsObject.mkHandle 0 ttyfile 0) fi
    /\ Handletable.lookup child' 1 = Redirect.target parent (FsObject.mkHandle 0 ttyfile 0) fo
    /\ Handletable.lookup child' 2 = Some (FsObject.mkHandle 0 ttyfile 0).
Proof.
  intros ->%Redirect.redirect_ops ->%Redirect.redirect_ops Hp Ho Hi [Hc Htty]%Redirect.forward_tty.
  unfold Run.STDOUT_FILENO, Run.STDIN_FILENO.
  destruct (Redirect.redirect_runs st parent child 1 fo (FsObject.mkHandle 0 ttyfile 0)
    (match fi with Some fd => [Life.CLOSE_CHILD_FD 0; Life.DUP_PARENT_FD fd] | None => [] end))
    as (st1 & child1 & -> & Hc1 & Hobj & Hl1); try done; [lia|intros j Hj; rewrite Htty by lia; eauto|by apply Htty; lia|].
  destruct (Redirect.redirect_runs st1 parent child1 0 fi (FsObject.mkHandle 0 ttyfile 0) [])
    as (st2 & child2 & He & Hc2 & _ & Hl2); try done; [lia| |lia|by rewrite Hl1, decide_False, Htty by lia|].
  - destruct fi as [fd|]; [|done]. destruct Hi as (Hfd & h & Hh & Hne & Hob). split; [done|]. eauto.
  - rewrite app_nil_r in He. exists st2, child2. split; [by rewrite He|].
    rewrite !Hl2, !Hl1, !Htty by lia. done.
Qed.

(** ** Exit statuses *)

(** Statuses that come out of [processexitstatus2wait] as a clean exit with 0. *)
Definition counts_as_success (reason status : Z) : bool :=
  (reason =? 1)%Z && (status =? 0)%Z || ((reason =? 2)%Z || (reason =? 255)%Z) && (Z.land status 127 =? 0)%Z.

Lemma wait_status_ok reason status : is_u8 status -> reason ∈ [1; 2; 3; 255]%Z ->
  let w := Wait.processexitstatus2wait reason status in
  (Wait.WIFEXITED w && (Wait.WEXITSTATUS w =? 0)%Z) = counts_as_success reason status.
Proof.
  intros Hs Hr w. unfold w. clear w.
  assert (Hall : forallb (fun r => forallb (fun x => Bool.eqb
      (let w := Wait.processexitstatus2wait r x in Wait.WIFEXITED w && (Wait.WEXITSTATUS w =? 0)%Z)
      (counts_as_success r x)) (seqZ 0 256)) [1; 2; 3; 255]%Z = true) by (vm_compute; reflexivity).
  rewrite forallb_forall in Hall. specialize (Hall reason (proj1 (list_elem_of_In _ _) Hr)).
  rewrite forallb_forall in Hall. specialize (Hall status).
  apply Bool.eqb_prop, Hall. apply list_elem_of_In, elem_of_seqZ. unfold is_u in Hs. lia.
Qed.

(** C36: a status that the kernel records for a child and the C library translates
    lets the shell go on after [&&] exactly when the child exited with 0 or was
    terminated for a reason whose code is a multiple of 128; a division by zero,
    exception 0, is of that kind. *)
Theorem success_of_exit_status {O} `{Run.Os O} (reason status pid : Z) (anyExit : bool) (s : @Run.shell O) :
  is_u8 status -> reason ∈ [1; 2; 3; 255]%Z ->
  exists s', Run.handleExitStatus pid (Wait.processexitstatus2wait reason status) anyExit s
             = Some (Run.Returned (counts_as_success reason status), s').
Proof.
  intros Hs Hr. rewrite <- wait_status_ok by done. cbn zeta.
  unfold Run.handleExitStatus. destruct (Wait.WIFEXITED _); cbn [andb].
  - destruct (Wait.WEXITSTATUS _ =? 0)%Z; destruct anyExit; cbn [negb orb]; eexists; reflexivity.
  - destruct (Wait.WIFSIGNALED _); eexists; reflexivity.
Qed.

(** A program that divides by zero ends, for the shell, as one that succeeded: the
    status of exception 0 reads as a clean exit. *)
Example division_by_zero_counts_as_success :
  let es := Proc.ofWord (Exceptions.appkiller (Exceptions.mkStack 0 0x1000 0x1B)) in
  Proc.reason es = 2%Z /\ counts_as_success (Proc.reason es) (Proc.status es) = true.
Proof. vm_compute. done. Qed.

(** ** The environment *)
Module EnvLaws.
Import Lexer Env.

Lemma value_of_some name entry v : value_of name entry = Some v <-> entry = name ++ "="%char :: v.
Proof.
  assert (Heq : forall a b, eqc a b = true <-> a = b) by (intros; apply Ascii.eqb_eq).
  revert entry. induction name as [|b name IH]; intros [|a entry]; cbn [value_of app]; try done.
  - destruct (eqc "="%char a) eqn:E; [apply Heq in E; subst; naive_solver|].
    split; [done|]. intros [= -> _]. done.
  - destruct (eqc a b) eqn:E.
    + apply Heq in E. subst. rewrite IH. naive_solver.
    + split; [done|]. intros [= -> _]. assert (eqc b b = true) by (by apply Heq). congruence.
Qed.

Lemma no_eq_inj n m v w : has_eq n = false -> has_eq m = false ->
  n ++ "="%char :: v = m ++ "="%char :: w -> n = m /\ v = w.
Proof.
  revert m. induction n as [|a n IH]; intros [|b m]; cbn [has_eq existsb app]; intros Hn Hm E; simplify_eq; try done.
  apply orb_false_iff in Hn as [_ Hn], Hm as [_ Hm].
  destruct (IH m Hn Hm) as [-> ->]; done.
Qed.

Lemma find_from_app name e1 e2 : find_from name e1 = None ->
  find_from name (e1 ++ e2) = ('(i, v) ← find_from name e2; Some (length e1 + i, v)).
Proof.
  induction e1 as [|e e1 IH]; cbn [find_from app length]; [by destruct (find_from name e2) as [[]|]|].
  destruct (value_of name e); [done|]. destruct (find_from name e1) as [[]|]; [done|]. intros _. rewrite IH by done.
  by destruct (find_from name e2) as [[]|].
Qed.

Lemma find_from_other name entry e2 e1 : value_of name entry = None ->
  snd <$> find_from name (e1 ++ entry :: e2) = snd <$> find_from name (e1 ++ e2).
Proof.
  intros He. induction e1 as [|e e1 IH]; cbn [find_from app].
  - rewrite He. by destruct (find_from name e2) as [[]|].
  - destruct (value_of name e); [done|].
    destruct (find_from name (e1 ++ entry :: e2)) as [[]|], (find_from name (e1 ++ e2)) as [[]|]; by cbn in *; simplify_eq.
Qed.

Lemma find_from_split name e i v : find_from name e = Some (i, v) ->
  exists e1 e2, e = e1 ++ (name ++ "="%char :: v) :: e2 /\ length e1 = i /\ find_from name e1 = None.
Proof.
  revert i. induction e as [|x e IH]; intros i; cbn [find_from]; [done|].
  destruct (value_of name x) eqn:Hx.
  - intros [= <- <-]. apply value_of_some in Hx. subst x. by exists [], e.
  - destruct (find_from name e) as [[j w]|] eqn:E; [|done]. intros [= <- <-].
    destruct (IH j eq_refl) as (e1 & e2 & -> & <- & Hn). exists (x :: e1), e2. cbn [find_from]. by rewrite Hx, Hn.
Qed.

Lemma find_from_filter name p e :
  (forall x v, value_of name x = Some v -> p x = true) ->
  snd <$> find_from name (List.filter p e) = snd <$> find_from name e.
Proof.
  intros Hp. induction e as [|x e IH]; [done|]. cbn [List.filter]. destruct (p x) eqn:Ex; cbn [find_from].
  - destruct (value_of name x); [done|].
    destruct (find_from name (List.filter p e)) as [[]|], (find_from name e) as [[]|]; by cbn in *; simplify_eq.
  - destruct (value_of name x) eqn:Hx; [by rewrite (Hp _ _ Hx) in Ex|]. rewrite IH. by destruct (find_from name e) as [[]|].
Qed.

Lemma find_from_gone name e :
  find_from name (List.filter (fun e => match value_of name e with Some _ => false | None => true end) e) = None.
Proof.
  induction e as [|x e IH]; [done|]. cbn [List.filter]. destruct (value_of name x) eqn:Hx; [done|].
  cbn [find_from]. by rewrite Hx, IH.
Qed.
End EnvLaws.

(** The variables of a process behave as a map from names to values. *)
Theorem environment_is_map (name v : text) (environ : list text) : Env.has_eq name = false ->
  Env.getenv name (Env.setenv name v environ) = Some v
  /\ (forall m, m <> name -> Env.getenv m (Env.setenv name v environ) = Env.getenv m environ)
  /\ (name <> [] -> Env.getenv name (Env.unsetenv name environ) = None)
  /\ (forall m, m <> name -> Env.getenv m (Env.unsetenv name environ) = Env.getenv m environ).
Proof.
  intros Hn. unfold Env.getenv, Env.setenv, Env.unsetenv, Env.findenv. rewrite Hn.
  assert (Hself : Env.value_of name (name ++ "="%char :: v) = Some v) by (by apply EnvLaws.value_of_some).
  assert (Hother : forall m w, Env.has_eq m = false -> m <> name -> Env.value_of m (name ++ "="%char :: w) = None).
  { intros m w Hm Hne. destruct (Env.value_of m _) eqn:E; [|done]. apply EnvLaws.value_of_some in E.
    by apply EnvLaws.no_eq_inj in E as [-> _]. }
  split_and!.
  - destruct (Env.find_from name environ) as [[i w]|] eqn:E.
    + apply EnvLaws.find_from_split in E as (e1 & e2 & -> & <- & He). rewrite insert_app_r_alt, Nat.sub_diag by lia.
      rewrite EnvLaws.find_from_app by done. cbn [insert list_insert Env.find_from]. by rewrite Hself.
    + rewrite EnvLaws.find_from_app by done. cbn [Env.find_from]. by rewrite Hself.
  - intros m Hne. destruct (Env.has_eq m) eqn:Hm; [done|].
    destruct (Env.find_from name environ) as [[i w]|] eqn:E.
    + apply EnvLaws.find_from_split in E as (e1 & e2 & -> & <- & He). rewrite insert_app_r_alt, Nat.sub_diag by lia.
      cbn [insert list_insert]. by rewrite !EnvLaws.find_from_other by auto.
    + rewrite EnvLaws.find_from_other by auto. by rewrite app_nil_r.
  - intros Hne. destruct name; [done|]. by rewrite EnvLaws.find_from_gone.
  - intros m Hne. destruct (Env.has_eq m) eqn:Hm; [done|]. destruct name as [|a name]; [done|].
    apply EnvLaws.find_from_filter. intros x w Hx. apply EnvLaws.value_of_some in Hx. subst x.
    destruct (Env.value_of (a :: name) (m ++ _)) eqn:E; [|done]. apply EnvLaws.value_of_some in E.
    by apply EnvLaws.no_eq_inj in E as [-> _].
Qed.

(** ** [parseCommandLine] reads back what was quoted *)
Module Quoting.
Import Lexer Expand.

Definition escape (w : text) : text :=
  concat (map (fun a => if eqc quote a || eqc backslash a then [backslash; a] else [a]) w).
Definition quote_arg (w : text) : text := quote :: escape w ++ [quote].
Fixpoint join (args : list text) : text :=
  match args with [] => [] | [w] => quote_arg w | w :: args => quote_arg w ++ " "%char :: join args end.

Lemma steps_app st s s' : steps st (s ++ s') = (st ← steps st s; steps st s').
Proof. revert st. induction s as [|a s IH]; intros st; cbn [steps app]; [done|]. by destruct (step st a); cbn. Qed.

Lemma steps_escape w r b : steps (mkState r b [QUOTE; ORDINARY]) (escape w) = Some (mkState r (b ++ w) [QUOTE; ORDINARY]).
Proof.
  revert b. induction w as [|a w IH]; intros b; [by rewrite app_nil_r|].
  change (escape (a :: w)) with ((if eqc quote a || eqc backslash a then [backslash; a] else [a]) ++ escape w).
  rewrite steps_app.
  assert (Ha : steps (mkState r b [QUOTE; ORDINARY]) (if eqc quote a || eqc backslash a then [backslash; a] else [a])
    = Some (mkState r (b ++ [a]) [QUOTE; ORDINARY])).
  { destruct (eqc quote a) eqn:Hq; [done|]. destruct (eqc backslash a) eqn:Hb; [done|]. cbn [orb steps step pstate].
    by rewrite Hq, Hb. }
  rewrite Ha. cbn [mbind option_bind]. by rewrite IH, <- app_assoc.
Qed.

Lemma steps_quoted w r b : steps (mkState r b [ORDINARY]) (quote_arg w) = Some (mkState r (b ++ w) [ORDINARY]).
Proof.
  unfold quote_arg. cbn [steps]. change (step (mkState r b [ORDINARY]) quote) with (Some (mkState r b [QUOTE; ORDINARY])).
  cbn [mbind option_bind]. by rewrite steps_app, steps_escape.
Qed.

Lemma steps_join args r : Forall (fun w => w <> []) args ->
  exists st, steps (mkState r [] [ORDINARY]) (join args) = Some st /\ result (append_non_empty st) = r ++ args.
Proof.
  intros Ha. revert r. induction Ha as [|w args Hw Ha IH]; intros r.
  - eexists. split; [done|]. cbn. by rewrite app_nil_r.
  - destruct w as [|a w]; [done|]. destruct args as [|w' args].
    + cbn [join]. rewrite steps_quoted. by eexists.
    + change (join ((a :: w) :: w' :: args)) with (quote_arg (a :: w) ++ " "%char :: join (w' :: args)).
      rewrite steps_app, steps_quoted. cbn [mbind option_bind steps].
      change (step (mkState r ([] ++ a :: w) [ORDINARY]) " "%char) with (Some (mkState (r ++ [a :: w]) [] [ORDINARY])).
      cbn [mbind option_bind]. destruct (IH (r ++ [a :: w])) as (st & -> & Hr). exists st. by rewrite <- app_assoc in Hr.
Qed.

(** The stack of states is never empty: it is one of three. *)
Definition stack_ok (l : list parser_state_t) : Prop :=
  l = [ORDINARY] \/ l = [QUOTE; ORDINARY] \/ l = [ESCAPE; ORDINARY] \/ l = [ESCAPE; QUOTE; ORDINARY].

Lemma step_ok st a : stack_ok (pstate st) -> exists st', step st a = Some st' /\ stack_ok (pstate st').
Proof.
  unfold stack_ok. destruct st as [r b p]. cbn [pstate]. intros Hp.
  destruct Hp as [-> | [-> | [-> | ->]]]; unfold step; cbn [pstate];
    repeat match goal with |- context [if ?x then _ else _] => destruct x end;
    eexists; split; try done; cbn; try (destruct b; cbn); auto.
Qed.

Lemma steps_ok st s : stack_ok (pstate st) -> exists st', steps st s = Some st'.
Proof.
  revert st. induction s as [|a s IH]; intros st Hst; cbn [steps]; [by eauto|].
  destruct (step_ok st a Hst) as (st' & -> & Hst'). cbn [mbind option_bind]. auto.
Qed.
End Quoting.

(** [parseCommandLine] returns on every text, and splits a line of quoted
    arguments, in which quotes and backslashes are escaped, into these arguments;
    an empty argument cannot be passed. *)
Theorem command_line_roundtrip (args : list text) :
  (forall s, is_Some (Expand.parseCommandLine s))
  /\ (Forall (fun w => w <> []) args -> Expand.parseCommandLine (Quoting.join args) = Some args).
Proof.
  unfold Expand.parseCommandLine. split.
  - intros s. destruct (Quoting.steps_ok (Expand.mkState [] [] [Expand.ORDINARY]) s) as (st & ->); [by left|]. by eexists.
  - intros Ha. destruct (Quoting.steps_join args [] Ha) as (st & -> & Hr). cbn [mbind option_bind]. by rewrite Hr.
Qed.


(** ** A system for the witnesses: it logs what is spawned *)
Module Demo.
Import Run.

Record world := mkWorld { spawned : list (text * list text * Z * list Life.fileop); next_fd : nat }.

#[global] Instance demo_os : Os world := {
  os_exists _ p := bool_decide (p = txt "/bin/ls") || bool_decide (p = txt "/bin/cat");
  os_getcwd _ := txt "/";
  os_chdir _ w := Some w;
  os_fopen _ _ w := (Some (next_fd w), mkWorld (spawned w) (S (next_fd w)));
  os_fclose _ w := w;
  os_contents p _ := if bool_decide (p = txt "s") then Some (txt "ls") else None;
  os_spawn p argv _ f fops w := (7%Z, mkWorld (spawned w ++ [(p, argv, f, fops)]) (next_fd w));
  os_waitpid _ w := (Some 0%Z, w);
  os_wait w := (None, w);
  os_history _ := [] }.

Definition start : @shell world := mkShell (mkWorld [] 3) [txt "PATH=/bin"] [] [] [] [] [].

(** ls -l > out & ; cat x && ls *)
Definition ls : Cmd.Command := Cmd.mkCommand [txt "ls"; txt "-l"] (Some (txt "out")) None None None true.
Definition cat : Cmd.Command :=
  Cmd.mkCommand [txt "cat"; txt "x"] None None None
    (Some (Cmd.mkCommand [txt "ls"] None None None None false)) false.

Definition outcome_log (r : option (outcome bool * @shell world)) : option (list (text * list text * Z * list Life.fileop)) :=
  match r with Some (Returned _, s) => Some (spawned (os s)) | _ => None end.
End Demo.


Lemma redirections_reach_child_witness :
  exists st' child',
    Life.execFileops (FsObject.mkState {[ 40%Z := FsObject.mkObject 1 0 ]} ∅)
      (Handletable.mkTable [8; 0; 0; 0; 0; 0; 0; 0]%Z
         (<[3%nat := Some (FsObject.mkHandle 9 40 0)]> (replicate 64 None)))
      (default (Handletable.new 64) (Life.forwardTTY (Handletable.new 64) 77)) [Life.CLOSE_CHILD_FD 1; Life.DUP_PARENT_FD 3]
    = Some (st', child')
    /\ Handletable.lookup child' 0 = Some (FsObject.mkHandle 0 77 0)
    /\ Handletable.lookup child' 1 = Some (FsObject.mkHandle 9 40 0)
    /\ Handletable.lookup child' 2 = Some (FsObject.mkHandle 0 77 0).
Proof.
  refine (redirections_reach_child Demo.ls Demo.start _ _ (Some 3%nat) None
    [Life.CLOSE_CHILD_FD 1; Life.DUP_PARENT_FD 3] []
    (FsObject.mkState {[ 40%Z := FsObject.mkObject 1 0 ]} ∅)
    (Handletable.mkTable [8; 0; 0; 0; 0; 0; 0; 0]%Z
       (<[3%nat := Some (FsObject.mkHandle 9 40 0)]> (replicate 64 None))) _ 77 eq_refl eq_refl _ _ _ _).
  - split; [reflexivity..|]. intros i Hi.
    do 64 (destruct i as [|i]; [vm_compute; intros; first [discriminate|eexists; reflexivity]|]). lia.
  - split; [lia|]. eexists. split; [reflexivity|]. split; [discriminate|]. vm_compute. by eexists.
  - exact I.
  - vm_compute. reflexivity.
Defined.

Lemma success_of_exit_status_witness :
  exists s', Run.handleExitStatus 7 (Wait.processexitstatus2wait 2 0) false Demo.start = Some (Run.Returned true, s').
Proof. apply (success_of_exit_status 2 0 7 false Demo.start); [unfold is_u; lia|]. right. left. Defined.

Lemma command_line_roundtrip_witness :
  (forall s, is_Some (Expand.parseCommandLine s))
  /\ Expand.parseCommandLine (Quoting.join [txt "a b"; txt "c\d"]) = Some [txt "a b"; txt "c\d"].
Proof.
  destruct (command_line_roundtrip [txt "a b"; txt "c\d"]) as [Ht Hr]. split; [exact Ht|].
  apply Hr. repeat constructor; discriminate.
Defined.

(** ** What the shell gets wrong *)

(** A line that ends in [&&] runs an empty command after a successful one:
    [Command::exec] then reads the first of no words. *)
Example dangling_and_is_undefined :
  exists s, Run.runline 20 (txt "ls &&") Demo.start = Some (Run.Undefined, s).
Proof. vm_compute. eexists. reflexivity. Qed.

(** The builtin [script] gives the lexer a new buffer, so what follows it on the
    line is lost: [cat x] never runs. *)
Example script_drops_rest_of_line :
  Demo.outcome_log (Run.runline 30 (txt "script s; cat x") Demo.start) = Some [(txt "/bin/ls", [txt "ls"], 3%Z, [])].
Proof. vm_compute. reflexivity. Qed.

(** A recalled line replaces the command it is chained to: [cat] is lost. *)
Example history_replaces_command :
  Demo.outcome_log
    (Run.runline 30 (txt "cat x | !! 1") (Run.with_history Demo.start [txt "ls"]))
  = Some [(txt "/bin/ls", [txt "ls"], 3%Z, [])].
Proof. vm_compute. reflexivity. Qed.

(** A builtin that fails is looked for as a program. *)
Example failed_builtin_is_searched :
  match Run.runline 30 (txt "cd") Demo.start with
  | Some (Run.Returned _, s) => Run.err s = txt "cd: not found in PATH" ++ Run.nl
  | _ => False
  end.
Proof. vm_compute. reflexivity. Qed.
