(* ===== verification/LibcThms.v ===== *)
(** Properties of the C library over the kernel: the paths it passes, the heap it gives a
    program, the current directory, the kinds of files. *)

From Stdlib Require Import ZArith Lia Ascii String.
From stdpp Require Import base list option strings.
From S2P Require Import Prelude Interval Virt Files Kernel MemMgr LoaderThms RamFs Syscalls Shell Libc.

Module PathThms.
Import Lexer Absolutize.

(** ** What a path means: its components, read from left to right *)
Definition dotdot : text := [dot; dot].
Definition walk (dirs : list text) (c : text) : list text :=
  if isDot c then dirs else if bool_decide (c = dotdot) then removelast dirs else dirs ++ [c].
Definition normalise (dirs comps : list text) : list text := foldl walk dirs comps.
Definition slashed (dirs : list text) : text := concat (map (fun c => slash :: c) dirs).
Definition render (dirs : list text) : text := match dirs with [] => [slash] | _ => slashed dirs end.

(** ** [strtok] *)

Lemma strtok_from_app cur p q : strtok_from cur (p ++ slash :: q) = strtok_from cur p ++ strtok_from [] q.
Proof.
  revert cur. induction p as [|a p IH]; intros cur; cbn [app strtok_from].
  - change (eqc slash slash) with true. by destruct cur.
  - destruct (eqc slash a); [|apply IH]. destruct cur; [apply IH|]. cbn [app]. by rewrite IH.
Qed.
Lemma strtok_app p q : strtok (p ++ slash :: q) = strtok p ++ strtok q.
Proof. apply strtok_from_app. Qed.
Lemma strtok_slash q : strtok (slash :: q) = strtok q.
Proof. apply (strtok_app [] q). Qed.

Lemma ends_slash_spec s : ends_slash s = true -> s = removelast s ++ [slash].
Proof.
  unfold ends_slash. destruct (last s) as [a|] eqn:E; [|done]. intros Ha%Ascii.eqb_eq. subst a.
  apply last_Some in E as [l ->]. by rewrite removelast_last.
Qed.

Lemma strtok_drop_last s : strtok (drop_last_slash s) = strtok s.
Proof.
  unfold drop_last_slash. destruct (ends_slash s) eqn:E; [|done]. apply ends_slash_spec in E.
  rewrite E at 2. rewrite strtok_app. by rewrite app_nil_r.
Qed.

Lemma starts_slash_spec s : starts_slash s = true -> exists t, s = slash :: t.
Proof. destruct s as [|a t]; [done|]. cbn [starts_slash]. intros Ha%Ascii.eqb_eq. subst a. by eauto. Qed.

(** ** Marking entries is taking the last directory away *)

Definition mk (c : text) : entry := mkEntry (Some c) true.

(** The components in use; the first entry stands for the root. *)
Definition live (P : list entry) : list text := omap (fun e => if used e then value e else None) (tail P).

Definition fine (e : entry) : Prop := is_Some (value e) /\ (used e = true -> value e <> Some dotdot).
Record inv (P : list entry) : Prop := {
  inv_head : head P = Some (mk []);
  inv_fine : Forall fine P }.

Lemma live_snoc P e : P <> [] -> live (P ++ [e]) = live P ++ (if used e then option_list (value e) else []).
Proof.
  destruct P as [|e0 P]; [done|]. intros _. unfold live. cbn [app tail]. rewrite omap_app. f_equal.
  cbn. destruct (used e); [|done]. by destruct (value e).
Qed.

Lemma inv_snoc P e : P <> [] -> inv (P ++ [e]) <-> inv P /\ fine e.
Proof.
  intros Hne. split.
  - intros [Hh Hf]. apply Forall_app in Hf as [Hf He]. apply Forall_cons in He as [He _].
    split; [|done]. split; [by destruct P|done].
  - intros [[Hh Hf] He]. split; [by destruct P|]. apply Forall_app. split; [done|by apply Forall_singleton].
Qed.

Lemma isDotDot_fine e : fine e -> isDotDot e = Some (bool_decide (value e = Some dotdot)).
Proof.
  intros [[v Hv] _]. unfold isDotDot. rewrite Hv. cbn. f_equal. apply bool_decide_ext. naive_solver.
Qed.

Lemma alter_middle {A} (f : A -> A) P e R : alter f (length P) (P ++ e :: R) = P ++ f e :: R.
Proof. by rewrite alter_app_r_alt, Nat.sub_diag by lia. Qed.

Lemma drop_back_spec Q U R : inv Q -> Forall (fun e => used e = false) U ->
  exists Q', drop_back (Q ++ U ++ R) (length Q - 1) = Some (Q' ++ U ++ R)
    /\ length Q' = length Q /\ inv Q' /\ live Q' = removelast (live Q).
Proof.
  revert U. induction Q as [|e Q IH] using rev_ind; intros U HQ HS; [by pose proof (inv_head [] HQ)|].
  destruct Q as [|q Q].
  - exists [e]. split_and!; done.
  - assert (Hne : q :: Q <> []) by done. set (Q0 := q :: Q) in *. clearbody Q0. clear q Q.
    apply inv_snoc in HQ as [HQ He]; [|done]. rewrite length_app. cbn [length].
    replace (length Q0 + 1 - 1)%nat with (length Q0) by lia. rewrite <- app_assoc. cbn [app].
    destruct (length Q0) as [|j] eqn:Hl; [by destruct Q0|]. cbn [drop_back]. rewrite <- Hl.
    rewrite list_lookup_middle by done. cbn [mbind option_bind]. rewrite isDotDot_fine by done. cbn [mbind option_bind].
    destruct (used e) eqn:Hu.
    + rewrite bool_decide_eq_false_2 by (by apply He). cbn [orb negb]. rewrite alter_middle.
      exists (Q0 ++ [clear_used e]). rewrite <- app_assoc. split_and!; [done|rewrite !length_app; done| |].
      * apply inv_snoc; [done|]. split; [done|]. split; [apply He|done].
      * rewrite !live_snoc by done. cbn [clear_used used]. rewrite Hu, app_nil_r.
        destruct He as [[v ->] _]. change (option_list (Some v)) with [v]. by rewrite removelast_last.
    + rewrite orb_true_r. destruct (IH (e :: U)) as (Q' & Hd & Hlen & Hi & Hlive); [done|by constructor|].
      rewrite Nat.sub_1_r in Hd. cbn [Nat.pred app] in Hd. rewrite Hd.
      exists (Q' ++ [e]). rewrite <- app_assoc. assert (Q' <> []) by (by intros ->).
      split_and!; [done|rewrite length_app; cbn; lia|by apply inv_snoc|].
      rewrite !live_snoc by done. by rewrite Hu, !app_nil_r.
Qed.

Lemma resolve_dots_spec l P : inv P -> Forall (fun c => isDot c = false) l ->
  exists P', resolve_dots (P ++ map mk l) (length P) (length l) = Some P'
    /\ inv P' /\ live P' = normalise (live P) l.
Proof.
  revert P. induction l as [|c l IH]; intros P HP Hl; [rewrite app_nil_r; by eauto|].
  apply Forall_cons in Hl as [Hc Hl]. cbn [map length resolve_dots normalise foldl].
  assert (Hne : P <> []) by (by intros ->; pose proof (inv_head [] HP)).
  rewrite list_lookup_middle by done. cbn [mbind option_bind isDotDot mk value].
  change (bool_decide (c = [dot; dot])) with (bool_decide (c = dotdot)).
  unfold walk at 2. rewrite Hc. case_bool_decide as Hdd.
  - destruct (drop_back_spec P [] (mk c :: map mk l) HP) as (Q & Hd & Hlen & HQ & Hlive); [done|].
    cbn [app] in Hd. rewrite Hd. cbn [mbind option_bind]. rewrite <- Hlen, alter_middle.
    destruct (IH (Q ++ [clear_used (mk c)])) as (P' & Hr & HP' & Hl').
    + apply inv_snoc; [by intros ->; destruct P|]. split; [done|]. split; [by eexists|done].
    + done.
    + rewrite <- app_assoc, length_app in Hr. cbn [app length] in Hr. rewrite Nat.add_1_r in Hr.
      exists P'. split; [done|]. split; [done|]. rewrite Hl', live_snoc by (by intros ->; destruct P).
      cbn [clear_used used]. by rewrite app_nil_r, Hlive.
  - cbn [mbind option_bind]. destruct (IH (P ++ [mk c])) as (P' & Hr & HP' & Hl').
    + apply inv_snoc; [done|]. split; [done|]. split; [by eexists|]. intros _ [= ->]. done.
    + done.
    + rewrite <- app_assoc, length_app in Hr. cbn [app length] in Hr. rewrite Nat.add_1_r in Hr.
      exists P'. split; [done|]. split; [done|]. by rewrite Hl', live_snoc.
Qed.

Lemma write_parts_spec T dest size : Forall fine T -> (length dest < size)%nat ->
  let r := dest ++ slashed (omap (fun e => if used e then value e else None) T) in
  write_parts T false dest size = Some (if (length r <? size)%nat then Some r else None).
Proof.
  revert dest. induction T as [|e T IH]; intros dest HT Hd r; unfold r; clear r.
  - change (slashed _) with (@nil ascii). rewrite app_nil_r. apply Nat.ltb_lt in Hd. by rewrite Hd.
  - apply Forall_cons in HT as [[[v Hv] _] HT]. cbn [write_parts omap list_omap]. rewrite Hv.
    destruct (used e); cbn [negb]; [|by apply IH]. cbn [mbind option_bind slashed map concat].
    destruct (Nat.leb_spec size (length dest + length v + 1)) as [Hle|Hgt].
    + replace (_ <? size)%nat with false; [done|]. symmetry. apply Nat.ltb_ge. rewrite !length_app. cbn [length]. lia.
    + rewrite IH; [|done|rewrite length_app; cbn; lia]. by rewrite <- app_assoc.
Qed.

(** ** [doRealpath] *)

Lemma normalise_dots l dirs : normalise dirs (List.filter (fun c => negb (isDot c)) l) = normalise dirs l.
Proof.
  revert dirs. induction l as [|c l IH]; intros dirs; [done|]. cbn [List.filter normalise foldl].
  destruct (isDot c) eqn:Hc; cbn [negb].
  - unfold walk at 3. rewrite Hc. apply IH.
  - cbn [foldl]. apply IH.
Qed.

(** The number of entries and the text must fit. *)
Definition kept (path : text) : list text := List.filter (fun c => negb (isDot c)) (strtok path).
Definition fits (path : text) (dirs : list text) : bool :=
  (length (kept path) <? gMaxPathSize)%nat && (length (slashed dirs) <? gMaxPathSize)%nat.

Lemma splitPath_spec a rest : splitPath (slash :: a :: rest) gMaxPathSize =
  if (length (kept (slash :: a :: rest)) <? gMaxPathSize)%nat then Some (mk [] :: map mk (kept (slash :: a :: rest))) else None.
Proof.
  unfold splitPath, kept. cbn [starts_slash negb tail]. rewrite strtok_slash, strtok_drop_last.
  change (eqc slash slash) with true. cbn [negb]. change (gMaxPathSize =? 0)%nat with false. cbn iota.
  destruct (Nat.ltb_spec gMaxPathSize (1 + length (List.filter (fun c => negb (isDot c)) (strtok (a :: rest))))) as [Hlt|Hge];
    destruct (Nat.ltb_spec (length (List.filter (fun c => negb (isDot c)) (strtok (a :: rest)))) gMaxPathSize); done || lia.
Qed.

Lemma merge_spec l : Forall (fun c => isDot c = false) l ->
  let dirs := normalise [] l in
  mergePath (mk [] :: map mk l) gMaxPathSize =
  Some (if (length (slashed dirs) <? gMaxPathSize)%nat then Some (render dirs) else None).
Proof.
  intros Hl dirs. unfold mergePath. cbn [length Nat.eqb orb]. change (gMaxPathSize =? 0)%nat with false. cbn iota.
  assert (H0 : inv [mk []]) by (split; [done|]; repeat constructor; [by eexists|by intros _ [=]]).
  destruct (resolve_dots_spec l [mk []] H0 Hl) as (P & Hr & [Hh Hf] & Hlive).
  cbn [resolve_dots list_lookup lookup]. cbn [mbind option_bind isDotDot mk value].
  rewrite length_map. change (mk [] :: map mk l) with ([mk []] ++ map mk l).
  change (length [mk []]) with 1%nat in Hr.
  change (bool_decide ([] = [dot; dot])) with false. cbn [mbind option_bind]. rewrite Hr. cbn [mbind option_bind].
  destruct P as [|e P]; [done|]. cbn in Hh. injection Hh as ->.
  apply Forall_cons in Hf as [_ Hf]. cbn [write_parts mk used negb].
  rewrite write_parts_spec by (done || (cbn; unfold gMaxPathSize; lia)). cbn [mbind option_bind app].
  unfold live in Hlive. cbn [tail] in Hlive. rewrite Hlive.
  change (omap _ []) with (@nil text). fold dirs. clearbody dirs.
  destruct (_ <? gMaxPathSize)%nat; [|done]. by destruct dirs.
Qed.

(** A rooted path with a dot in it is walked component by component. *)
Lemma realpath_spec a rest : existsb (eqc dot) (a :: rest) = true ->
  let path := slash :: a :: rest in
  let dirs := normalise [] (strtok path) in
  doRealpath path = Some (if fits path dirs then Some (render dirs) else None).
Proof.
  intros Hd path dirs. unfold doRealpath, path.
  assert (Hdot : existsb (eqc dot) (slash :: a :: rest) = true) by exact Hd.
  rewrite Hdot. cbn [starts_slash negb]. rewrite andb_false_r, splitPath_spec. unfold fits.
  destruct (length (kept (slash :: a :: rest)) <? gMaxPathSize)%nat; [|done]. cbn [andb].
  rewrite merge_spec; [unfold kept; rewrite normalise_dots; done|].
  apply list.Forall_forall. intros c Hc%list_elem_of_In. apply filter_In in Hc as [_ Hc]. by bool_to_prop.
Qed.

(** Every way of joining two paths has the components of both. *)
Lemma concat_spec w path : starts_slash w = true -> path <> [] ->
  exists p, concatPaths (Some w) path = Some (slash :: p) /\ strtok (slash :: p) = strtok w ++ strtok path
    /\ existsb (eqc dot) p = existsb (eqc dot) (w ++ path).
Proof.
  intros Hw Hp. destruct w as [|b w']; [done|]. pose proof (starts_slash_spec _ Hw) as [? [= -> <-]].
  destruct path as [|c path]; [done|]. cbn [concatPaths mbind option_bind].
  assert (Hex : forall x, existsb (eqc dot) ((slash :: w') ++ x) = existsb (eqc dot) (w' ++ x)) by done.
  destruct (ends_slash (slash :: w')) eqn:He.
  - apply ends_slash_spec in He. set (w0 := removelast (slash :: w')) in *. clearbody w0.
    destruct (starts_slash (c :: path)) eqn:Hs; cbn [andb negb].
    + apply starts_slash_spec in Hs as [t Ht]. injection Ht as -> ->.
      exists (w' ++ t). split; [done|]. split; [|rewrite Hex, !existsb_app; cbn; done].
      change (slash :: w' ++ t) with ((slash :: w') ++ t). rewrite He, <- app_assoc. cbn [app].
      by rewrite !strtok_app, strtok_slash, app_nil_r.
    + exists (w' ++ c :: path). split; [done|]. split; [|by rewrite Hex].
      change (slash :: w' ++ c :: path) with ((slash :: w') ++ c :: path). rewrite He, <- app_assoc. cbn [app].
      by rewrite !strtok_app, app_nil_r.
  - destruct (starts_slash (c :: path)) eqn:Hs; cbn [andb negb].
    + apply starts_slash_spec in Hs as [t Ht]. injection Ht as -> ->.
      exists (w' ++ slash :: t). split; [done|]. split; [|by rewrite Hex].
      change (slash :: w' ++ slash :: t) with ((slash :: w') ++ slash :: t). by rewrite strtok_app, (strtok_slash t).
    + exists (w' ++ slash :: c :: path). split; [done|]. split; [|rewrite Hex, !existsb_app; cbn; done].
      change (slash :: w' ++ slash :: c :: path) with ((slash :: w') ++ slash :: c :: path). apply strtok_app.
Qed.

(** ** The two definitions of an absolute path *)

Lemma contains_dot_cons a s : VFS.contains "/." (String a s) =
  match VFS.strprefix "/." (String a s) with Some _ => true | None => VFS.contains "/." s end.
Proof. reflexivity. Qed.

Lemma contains_slash_dot s : VFS.contains "/." (string_of_list_ascii s) = has_slash_dot s.
Proof.
  assert (Hs : forall a b, Ascii.eqb a b = eqc a b) by done.
  induction s as [|a s IH]; [done|]. cbn [string_of_list_ascii]. rewrite contains_dot_cons, IH.
  destruct s as [|b s]; cbn [string_of_list_ascii VFS.strprefix]; rewrite ?Hs; unfold has_slash_dot; fold has_slash_dot.
  - by destruct (eqc _ a).
  - change (eqc slash a) with (eqc "/"%char a). change (eqc dot b) with (eqc "."%char b).
    change ("." =? b)%char with (eqc "."%char b). by destruct (eqc "/"%char a), (eqc "."%char b).
Qed.
End PathThms.

(** the library and the kernel agree on which paths are absolute, as the
    comment in absolutize.cpp demands. *)
Theorem absolute_path_agrees (path : text) :
  VFS.isAbsolutePath (Some (string_of_list_ascii path)) = Absolutize.isAbsolutePath path.
Proof.
  unfold Absolutize.isAbsolutePath. rewrite <- PathThms.contains_slash_dot. destruct path as [|a path]; [done|].
  cbn [VFS.isAbsolutePath string_of_list_ascii Absolutize.starts_slash].
  by rewrite Ascii.eqb_sym.
Qed.

(** C26: a path that is not plainly absolute and has a dot in it is resolved by
    walking its components from the current directory, ".." leaving a directory and
    "." staying in it; when the table or the text is too small the result is null.
    The path may start with a slash: then too it is resolved from the current
    directory. *)
Theorem path_is_walked (home : option text) (cwd path : text) :
  Absolutize.starts_slash cwd = true -> path <> [] ->
  Absolutize.isAbsolutePath path = false -> Absolutize.isHomePath path = false ->
  existsb (Lexer.eqc Absolutize.dot) (cwd ++ path) = true ->
  let dirs := PathThms.normalise (PathThms.normalise [] (Absolutize.strtok cwd)) (Absolutize.strtok path) in
  exists whole, Absolutize.concatPaths (Some cwd) path = Some whole
    /\ Absolutize.makeAbsolutePath home (Some cwd) path
       = Some (if PathThms.fits whole dirs then Some (PathThms.render dirs) else None).
Proof.
  intros Hc Hp Ha Hh Hd dirs. destruct (PathThms.concat_spec cwd path Hc Hp) as (p & Hcat & Htok & Hdot).
  exists (Absolutize.slash :: p). split; [done|].
  unfold Absolutize.makeAbsolutePath. rewrite Ha, Hh, Hcat. cbn [mbind option_bind].
  rewrite Hd in Hdot. destruct p as [|a p]; [done|].
  rewrite PathThms.realpath_spec by done. rewrite Htok. unfold PathThms.normalise. by rewrite foldl_app.
Qed.

Lemma path_is_walked_witness :
  exists whole, Absolutize.concatPaths (Some (txt "/usr")) (txt "/etc/../home") = Some whole
    /\ Absolutize.makeAbsolutePath None (Some (txt "/usr")) (txt "/etc/../home") = Some (Some (txt "/usr/home")).
Proof.
  destruct (path_is_walked None (txt "/usr") (txt "/etc/../home")) as (whole & Hw & Hm); [done..|].
  exists whole. split; [exact Hw|]. rewrite Hm. vm_compute in Hw. injection Hw as <-. vm_compute. reflexivity.
Defined.

(** ** The heap of a program *)
Module Heap.
Import MemMgr MemCalls Brk.
Local Open Scope Z_scope.

Definition total (incs : list Z) : Z := foldr Z.add 0 incs.

Fixpoint addresses (base : Z) (incs : list Z) : list Z :=
  match incs with [] => [] | i :: incs => base :: addresses (base + i) incs end.

Lemma total_nonneg incs : Forall (fun i => 0 <= i) incs -> 0 <= total incs.
Proof. induction 1; cbn; [done|]. fold (total l). lia. Qed.

Lemma sbrks_from base incs m s :
  0 < base -> Forall (fun i => 0 <= i) incs -> base + total incs < 2 ^ 32 ->
  sbrks base incs m s = Some (addresses base incs, base + total incs, m, s).
Proof.
  revert base. induction incs as [|i incs IH]; intros base Hb Hi Ht; cbn [sbrks addresses]; [by rewrite Z.add_0_r|].
  apply Forall_cons in Hi as [Hi Hl]. pose proof (total_nonneg incs Hl).
  change (total (i :: incs)) with (i + total incs) in *. unfold sbrk.
  destruct (Z.eqb_spec base 0); [lia|]. cbn [mbind option_bind]. rewrite u32_id by (unfold is_u; lia).
  rewrite IH by (done || lia). cbn [mbind option_bind]. do 4 f_equal. lia.
Qed.

Lemma length_addresses base incs : length (addresses base incs) = length incs.
Proof. revert base. induction incs; intros base; cbn; auto. Qed.

(** Where the blocks lie. *)
Lemma addresses_block base incs i a n :
  Forall (fun i => 0 <= i) incs -> addresses base incs !! i = Some a -> incs !! i = Some n ->
  base <= a /\ a + n <= base + total incs
  /\ forall j b, (i < j)%nat -> addresses base incs !! j = Some b -> a + n <= b.
Proof.
  intros Hi. revert base i a n. induction Hi as [|x incs Hx Hl IH]; intros base i a n Ha Hn; [done|].
  change (total (x :: incs)) with (x + total incs). pose proof (total_nonneg incs Hl). destruct i as [|i]; cbn in Ha, Hn.
  - simplify_eq. split_and!; [lia|lia|]. intros [|j] b Hj Hb; [lia|]. cbn in Hb.
    destruct (incs !! j) as [y|] eqn:Ey.
    + by destruct (IH _ _ _ _ Hb Ey) as [? _].
    + apply lookup_lt_Some in Hb. rewrite length_addresses in Hb. apply lookup_ge_None in Ey. lia.
  - destruct (IH _ _ _ _ Ha Hn) as (H1 & H2 & H3). split_and!; [lia|lia|]. intros [|j] b Hj Hb; [lia|]. cbn in Hb. eapply (H3 j); [lia|done].
Qed.

(** What [mapregion] answers: the start of a new region, or an error. *)
Lemma mapregion_spec m s base m1 s1 : ok m -> mapregion m s gRegion 1 = Some (base, m1, s1) ->
  base <> Abi.ERR Abi.OUT_OF_MEMORY ->
  exists r, r ∈ mRegions m1 /\ Interval.from (range r) = base /\ 0 < base /\ base + gRegion - 1 <= Interval.to (range r) < 2 ^ 32 - 1
    /\ forall r', r' ∈ mRegions m -> Interval.disjoint (range r) (range r').
Proof.
  intros Hok. unfold mapregion, findAndZeroPageRegion. change (Virt.offset gRegion =? 0) with true. cbn [negb].
  destruct (findRegionImpl m gRegion) as [r|] eqn:Er; cbn [mbind option_bind].
  - destruct (findRegion_spec m gRegion r Hok) as ((Hwf & Hs & _ & Hd) & _ & [Hlo Hhi]); [done..|].
    destruct (Virt.mapZeroPage_range _ _ _ _) as [[b s2]|]; cbn [mbind option_bind]; [|done].
    unfold Virt.gPageSize, Virt.gKernelBase in *. change (toPage gRegion) with gRegion in Hs.
    cbn [addRegion fst snd range with_permission]. destruct (Z.eqb_spec (Interval.from (range r)) 0) as [E|_]; [lia|].
    cbn [negb]. change Abi.OK with 0. rewrite Z.lor_0_l. intros [= <- <- <-] _. exists (with_permission r (region_options 1)). cbn [range with_permission mRegions].
    split_and!; [|done|lia..|].
    + rewrite IntervalList.add_add_loop, IntervalList.add_loop_perm. left.
    + intros r' Hr'. rewrite list.Forall_forall in Hd. apply Hd. by apply list_elem_of_fmap_2.
  - intros [= <- <- <-] Hne. by destruct Hne.
Qed.
End Heap.

(** C28: the heap of a program is memory that nothing else has.  When the first [sbrk] of a
    program is given its region by the kernel, every later call succeeds, and as long as
    no more than the region is asked for, all blocks lie in one new region of the
    process, which overlaps none that it had, one after the other and without overlap. *)
Theorem heap_blocks_are_fresh (m m1 : MemMgr.mm) (s s1 : Virt.vm) (base : Z) (incs : list Z) :
  MemMgr.ok m -> MemCalls.mapregion m s Brk.gRegion 1 = Some (base, m1, s1) ->
  base <> Abi.ERR Abi.OUT_OF_MEMORY -> incs <> [] -> Forall (fun i => 0 <= i)%Z incs -> (Heap.total incs <= Brk.gRegion)%Z ->
  exists r l, r ∈ MemMgr.mRegions m1
    /\ (forall r', r' ∈ MemMgr.mRegions m -> Interval.disjoint (MemMgr.range r) (MemMgr.range r'))
    /\ Brk.sbrks 0 incs m s = Some (l, base + Heap.total incs, m1, s1)%Z /\ length l = length incs
    /\ forall i a n, l !! i = Some a -> incs !! i = Some n ->
         (Interval.from (MemMgr.range r) <= a /\ a + n - 1 <= Interval.to (MemMgr.range r))%Z
         /\ forall j b, (i < j)%nat -> l !! j = Some b -> (a + n <= b)%Z.
Proof.
  intros Hok Hmap Hne Hnil Hpos Htot. destruct incs as [|i0 incs]; [done|].
  assert (Hmap' := Hmap). apply Heap.mapregion_spec in Hmap' as (r & Hin & Hfrom & Hb & Hsize & Hfresh); [|done|done].
  exists r, (Heap.addresses base (i0 :: incs)). pose proof (Heap.total_nonneg _ Hpos).
  split; [done|]. split; [done|]. split; [|split; [apply Heap.length_addresses|]].
  - rewrite <- (Heap.sbrks_from base (i0 :: incs) m1 s1) by (done || lia). cbn [Brk.sbrks]. unfold Brk.sbrk at 1.
    cbn [Z.eqb]. rewrite Hmap. cbn [mbind option_bind]. unfold Brk.sbrk.
    destruct (Z.eqb_spec base 0); [lia|]. done.
  - intros i a n Ha Hn. destruct (Heap.addresses_block _ _ _ _ _ Hpos Ha Hn) as (H1 & H2 & H3).
    split; [lia|done].
Qed.

(** In an empty address space: three blocks from 0x1000 on. *)
Lemma first_heap : exists m1 s1, MemCalls.mapregion MemMgr.new SampleArgs.bare Brk.gRegion 1 = Some (0x1000%Z, m1, s1).
Proof.
  assert (Hb : option_map (fun r => r.1.1) (MemCalls.mapregion MemMgr.new SampleArgs.bare Brk.gRegion 1) = Some 0x1000%Z)
    by (vm_compute; reflexivity).
  destruct (MemCalls.mapregion _ _ _ _) as [[[b m] s]|]; [|done]. cbn in Hb. injection Hb as ->. by exists m, s.
Qed.

Lemma heap_blocks_are_fresh_witness :
  exists m1 s1 l, Brk.sbrks 0 [100; 0; 4096]%Z MemMgr.new SampleArgs.bare = Some (l, 0x2064%Z, m1, s1) /\ length l = 3.
Proof.
  destruct first_heap as (m1 & s1 & Hf).
  destruct (heap_blocks_are_fresh MemMgr.new m1 SampleArgs.bare s1 0x1000 [100; 0; 4096]%Z MemMgr.new_ok Hf)
    as (r & l & _ & _ & E & Hl & _); [discriminate|done|repeat constructor; lia|discriminate|].
  exists m1, s1, l. split; [exact E|exact Hl].
Defined.

(** The region is not the limit: a call that asks for more than what is left of it is
    answered like any other, although the memory behind it is not the program's. *)
Theorem heap_has_no_end (m : MemMgr.mm) (s : Virt.vm) (ptr incr : Z) :
  ptr <> 0%Z -> Brk.sbrk ptr incr m s = Some (ptr, u32 (ptr + incr), m, s).
Proof. intros Hp. unfold Brk.sbrk. by destruct (Z.eqb_spec ptr 0). Qed.

(** ** The current directory *)

(** [getcwd] without a buffer returns the directory the kernel has for the process,
    whatever its length; with a buffer, when it fits with its null. *)
Theorem getcwd_is_cwd (cur : Proc.process_t) (sz : Z) :
  Cwd.getcwd cur true sz = Some (Proc.cwd cur)
  /\ Cwd.getcwd cur false sz
     = if (sz <=? Z.of_nat (String.length (Proc.cwd cur)))%Z then None else Some (Proc.cwd cur).
Proof.
  unfold Cwd.getcwd, ProcCalls.getcurdir. split.
  - rewrite orb_true_r, orb_false_r. cbn match.
    destruct (Z.leb_spec (Z.of_nat (String.length (Proc.cwd cur)) + 1) (Z.of_nat (String.length (Proc.cwd cur)))); [lia|done].
  - rewrite orb_false_r. by destruct (sz <=? _)%Z.
Qed.

(** ** Kinds of files *)

(** The kinds added to sys/stat.h lie outside of the mask, so that for [S_ISDIR] a
    semaphore is a directory and for [S_ISREG] an event is a regular file. *)
Example semaphore_is_a_directory :
  Stat.S_ISDIR (Stat.mode_of MemFS.semaphore) = true /\ Stat.S_ISREG (Stat.mode_of MemFS.event) = true.
Proof. done. Qed.
