(* ===== verification/Init.v ===== *)
(** * The first user program (src/apps/init/init.cpp)

    init reads the list of services of the system, starts them and, from then on,
    starts again each one that ends.  The JSON library is an interface, and so are
    the system calls.  The file also holds the proof that the services are kept
    running. *)

From Stdlib Require Import Ascii String.
From stdpp Require Import base numbers list gmap option strings pretty.
From S2P Require Import Prelude Shell ShellRun ShellThms.

Local Open Scope Z_scope.

Module Init.
Import Lexer.

Record init_service_t := mkService {
  name : text; path : text; args : text; foreground : bool; wait : bool; system : bool }.

(** What init uses of parson. *)
Class Parson (J : Type) := {
  json_parse_string : text -> option J;
  json_value_get_array : J -> option (list J);
  json_value_get_object : J -> option J;
  json_object_get_string : J -> text -> option text;
  (** 1, 0, or -1 *)
  json_object_get_boolean : J -> text -> Z }.

(** What init uses of the system; a status is its reason and its code. *)
Class InitOs (O : Type) := {
  file_contents : O -> text -> option text;
  (** what lies behind a fresh block of that many bytes *)
  behind_block : O -> nat -> text;
  exec_syscall : option text -> option (list text) -> Z -> O -> Z * O;
  collect_syscall : Z -> O -> option (Z * Z) * O;
  (** waits; the id and the status *)
  collectany_syscall : O -> option (Z * (Z * Z)) * O }.

Definition gServicesList : text := txt "/system/config/init.svc".
Definition PROCESS_IS_FOREGROUND : Z := 1.
Definition PROCESS_INHERITS_SYSTEM : Z := 8.
Definition cleanExit : Z := 1.

Inductive InitScriptResult := OK | FILE_NOT_FOUND | FILE_EMPTY | READ_ERROR.

Section Init.
Context {J O : Type} `{Parson J} `{InitOs O}.

(** The services that run, by process id, what was printed, and the system. *)
Record state := mkState { services : gmap Z init_service_t; out : list text; os : O }.

Implicit Types (st : state) (svc : init_service_t).

Definition with_services st m : state := mkState m (out st) (os st).
Definition with_os st o : state := mkState (services st) (out st) o.
Definition printf (t : text) st : state := mkState (services st) (out st ++ [t]) (os st).

Definition not_started : text := txt "[init] process did not start".
Definition not_clean : text := txt "[init] process did not exit cleanly".

(** A C string: what stands before the first null. *)
Fixpoint cstr (t : text) : text :=
  match t with [] => [] | a :: t => if eqc "000"%char a then [] else a :: cstr t end.

(** The block has the size of the file, and no room for the null. *)
Definition readInitScript (p : text) st : InitScriptResult * text * state :=
  match file_contents (os st) p with
  | None => (FILE_NOT_FOUND, [], printf (txt "[init] warning: " ++ p ++ txt " not found") st)
  | Some [] => (FILE_EMPTY, [], st)
  | Some c => (OK, cstr (c ++ behind_block (os st) (length c)), st)
  end.

Definition service_flags svc : Z :=
  Z.lor (if foreground svc then PROCESS_IS_FOREGROUND else 0) (if system svc then PROCESS_INHERITS_SYSTEM else 0).

(** The program and the arguments of the call. *)
Definition service_call svc : option (option text * option (list text)) :=
  match args svc with
  | [] => Some (Some (path svc), None)
  | _ => argv ← Expand.parseCommandLine (path svc ++ [" "%char] ++ args svc); Some (head argv, Some argv)
  end.

(** The id of the new process, or 0; [kpid_t] has sixteen bits. *)
Definition spawnService svc st : option (Z * state) :=
  '(program, argv) ← service_call svc;
  let '(r, o) := exec_syscall program argv (service_flags svc) (os st) in
  let pid := u16 r in
  Some (if pid =? 0 then 0 else if negb (Z.land pid 1 =? 0) then 0 else Z.shiftr pid 1, with_os st o).

(** [emplace] leaves an entry that is there. *)
Definition emplace (pid : Z) svc (m : gmap Z init_service_t) : gmap Z init_service_t :=
  match m !! pid with Some _ => m | None => <[pid := svc]> m end.

(** [collect] of the C library: a status of 0 when the call fails *)
Definition collect (pid : Z) st : Z * Z * state :=
  let '(r, o) := collect_syscall pid (os st) in (default (0, 0) r, with_os st o).

Definition spawnInitService svc st : option (bool * state) :=
  '(pid, st) ← spawnService svc st;
  if pid =? 0 then Some (false, printf not_started st)
  else if wait svc then
    let '(reason, status, st) := collect pid st in
    if negb (reason =? cleanExit) || negb (status =? 0) then Some (false, printf not_clean st) else Some (true, st)
  else Some (true, with_services st (emplace pid svc (services st))).

Definition flag (b : Z) : bool := (if b =? -1 then 0 else b) =? 1.

(** One element of the array. *)
Definition parseService (v : J) : option init_service_t :=
  s ← json_value_get_object v;
  name ← json_object_get_string s (txt "name");
  path ← json_object_get_string s (txt "path");
  args ← json_object_get_string s (txt "args");
  Some (mkService name path args (flag (json_object_get_boolean s (txt "foreground")))
          (flag (json_object_get_boolean s (txt "wait"))) (flag (json_object_get_boolean s (txt "system")))).

Definition parseInitServices (content : text) st : option (list init_service_t) * state :=
  match json_parse_string content with
  | None => (None, printf (txt "[init] init.svc is not valid JSON") st)
  | Some root =>
      match json_value_get_array root with
      | None => (None, printf (txt "[init] init.svc is not a valid JSON array") st)
      | Some l => (Some (omap parseService l), st)
      end
  end.

Fixpoint spawn_all (allow_spawn_fail : bool) (l : list init_service_t) st : option (bool * state) :=
  match l with
  | [] => Some (true, st)
  | svc :: l =>
      '(ok, st) ← spawnInitService svc st;
      if negb ok && negb allow_spawn_fail then Some (false, st) else spawn_all allow_spawn_fail l st
  end.

Definition loadInitServices (allow_missing_or_empty allow_spawn_fail : bool) st : option (bool * state) :=
  let '(r, content, st) := readInitScript gServicesList st in
  match r with
  | FILE_NOT_FOUND | FILE_EMPTY => Some (allow_missing_or_empty, st)
  | READ_ERROR => Some (false, st)
  | OK =>
      let '(l, st) := parseInitServices content st in
      match l with
      | None => Some (false, st)
      | Some l => spawn_all allow_spawn_fail l st
      end
  end.

Definition watchForServicesDie st : option state :=
  let '(r, o) := collectany_syscall (os st) in
  let st := with_os st o in
  match r with
  | None => Some st
  | Some (pid, _) =>
      match services st !! pid with
      | None => Some st
      | Some svc => snd <$> spawnInitService svc (with_services st (delete pid (services st)))
      end
  end.

(** [n] turns of the loop of [main] *)
Fixpoint watch (n : nat) st : option state :=
  match n with 0%nat => Some st | S n => st ← watchForServicesDie st; watch n st end.

(** [main] up to [n] turns; [None] on the left: it exits with 1 *)
Definition main (n : nat) st : option (option state) :=
  '(ok, st) ← loadInitServices true false st;
  if negb ok then Some None else Some <$> watch n st.

End Init.
End Init.

Module InitThms.
Import Init.

(** The children of init that it has not collected: a new one has an id that none of
    them has (below 2^15, so that twice the id fits [kpid_t]), and one that ends is
    reported once. *)
Class Children (O : Type) `{InitOs O} (live : O -> gset Z) := {
  exec_children p a f o r o' : exec_syscall p a f o = (r, o') ->
    (exists pid, 0 < pid < 2 ^ 15 /\ r = 2 * pid /\ pid ∉ live o /\ live o' = {[ pid ]} ∪ live o)
    \/ (Z.odd r = true /\ live o' = live o);
  collect_children pid o r o' : collect_syscall pid o = (r, o') -> live o' = live o ∖ {[ pid ]};
  any_children o r o' : collectany_syscall o = (r, o') ->
    match r with Some (pid, _) => pid ∈ live o /\ live o' = live o ∖ {[ pid ]} | None => live o' = live o end }.

Section Proofs.
Context {J O : Type} `{Parson J} `{InitOs O} (live : O -> gset Z) `{!Children O live}.

Implicit Types (st : @state O) (svc : init_service_t).

Definition running st : list init_service_t := (map_to_list (services st)).*2.
Definition alive st : Prop := forall pid, is_Some (services st !! pid) -> pid ∈ live (os st).

Lemma service_call_total svc : is_Some (service_call svc).
Proof.
  unfold service_call. destruct (args svc) as [|a l]; [by eexists|]. unfold Expand.parseCommandLine.
  destruct (Quoting.steps_ok (Expand.mkState [] [] [Expand.ORDINARY]) (path svc ++ [" "%char] ++ a :: l)) as (st & ->); [by left|].
  by eexists.
Qed.

Lemma land_1 x : Z.land x 1 = x mod 2.
Proof. change 1 with (Z.ones 1). by rewrite Z.land_ones. Qed.

(** A start gives a new child, or fails and changes nothing. *)
Lemma spawnService_spec svc st : exists pid o, spawnService svc st = Some (pid, with_os st o)
  /\ ((0 < pid /\ pid ∉ live (os st) /\ live o = {[ pid ]} ∪ live (os st)) \/ (pid = 0 /\ live o = live (os st))).
Proof.
  unfold spawnService. destruct (service_call_total svc) as [[p a] ->]. cbn [mbind option_bind].
  destruct (exec_syscall p a (service_flags svc) (os st)) as [r o] eqn:E. eexists _, o. split; [done|].
  destruct (exec_children _ _ _ _ _ _ E) as [(pid & Hp & -> & Hn & Hl)|[Hodd Hl]].
  - left. assert (Hu : u16 (2 * pid) = 2 * pid) by (unfold u16, wrap; apply Z.mod_small; lia). rewrite Hu, land_1.
    replace (2 * pid) with (pid * 2) by lia. destruct (Z.eqb_spec (pid * 2) 0); [lia|].
    rewrite Z.mod_mul by lia. cbn [Z.eqb negb]. rewrite Z.shiftr_div_pow2 by lia. change (2 ^ 1) with 2.
    rewrite Z.div_mul by lia. split_and!; [lia|done|done].
  - right. split; [|done]. destruct (_ =? 0); [done|]. rewrite land_1.
    assert (Hm : u16 r mod 2 = 1).
    { unfold u16, wrap. change (2 ^ 16) with (2 * 2 ^ 15). rewrite Z.rem_mul_r by lia.
      rewrite Z.mul_comm, Z.mod_add by lia. rewrite Z.mod_mod by lia. rewrite Zmod_odd. by rewrite Hodd. }
    by rewrite Hm.
Qed.

Lemma running_emplace svc pid st o : services st !! pid = None ->
  running (with_services (with_os st o) (emplace pid svc (services st))) ≡ₚ svc :: running st.
Proof. intros Hn. unfold running, emplace. cbn. rewrite Hn, map_to_list_insert by done. done. Qed.

(** What a start does to the services that run. *)
Lemma spawnInitService_spec svc st : alive st -> exists b st', spawnInitService svc st = Some (b, st') /\ alive st'
  /\ (if wait svc then running st' = running st /\ (b = true -> out st' = out st)
      else if b : bool then running st' ≡ₚ svc :: running st /\ out st' = out st
      else running st' = running st /\ out st' = out st ++ [not_started]).
Proof.
  intros Ha. unfold spawnInitService. destruct (spawnService_spec svc st) as (pid & o & -> & Hp). cbn [mbind option_bind].
  destruct Hp as [(Hpos & Hn & Hl)|[-> Hl]].
  - destruct (Z.eqb_spec pid 0); [lia|]. destruct (wait svc).
    + unfold collect. cbn [os with_os]. destruct (collect_syscall pid o) as [r o'] eqn:E. apply collect_children in E.
      destruct (default (0, 0) r) as [reason status]. destruct (_ || _).
      all: eexists _, _; split; [done|]; split; [|split; done].
      all: intros q Hq; cbn in *; rewrite E, Hl; apply Ha in Hq as Hq'; set_solver.
    + eexists _, _. split; [done|]. assert (Hnone : services st !! pid = None).
      { apply eq_None_not_Some. intros Hs. by apply Hn, Ha. }
      split; [|split; [exact (running_emplace svc pid st o Hnone)|done]].
      intros q Hq. cbn in *. rewrite Hl. unfold emplace in Hq. rewrite Hnone in Hq. rewrite lookup_insert in Hq.
      case_decide; [set_solver|]. apply Ha in Hq. set_solver.
  - cbn [Z.eqb]. eexists _, _. split; [done|]. split; [|by destruct (wait svc)].
    intros q Hq. cbn in *. rewrite Hl. by apply Ha.
Qed.

Lemma spawn_all_spec l st : alive st -> exists b st', spawn_all false l st = Some (b, st')
  /\ (b = true -> alive st' /\ out st' = out st
      /\ running st' ≡ₚ reverse (filter (fun s => wait s = false) l) ++ running st).
Proof.
  revert st. induction l as [|svc l IH]; intros st Ha; cbn [spawn_all]; [by eexists _, _|].
  destruct (spawnInitService_spec svc st Ha) as (b & st1 & -> & Ha1 & Hr). cbn [mbind option_bind].
  destruct b; cbn [negb andb]; [|by eexists _, _].
  destruct (IH st1 Ha1) as (b & st2 & -> & Hb). eexists _, _. split; [done|]. intros ->.
  destruct (Hb eq_refl) as (Ha2 & Ho2 & Hr2). split; [done|].
  rewrite filter_cons. destruct (wait svc).
  - destruct Hr as [Hr1 Ho1]. rewrite decide_False by done. rewrite Ho2, Ho1, Hr2, Hr1 by done. done.
  - destruct Hr as [Hr1 Ho1]. rewrite decide_True by done. split; [congruence|].
    rewrite Hr2, Hr1, reverse_cons. by rewrite <- app_assoc.
Qed.

(** One turn of the loop keeps the services that run, or loses the one whose start
    failed, and says so. *)
Lemma watch_round st : alive st -> (forall s, s ∈ running st -> wait s = false) ->
  exists st' lost, watchForServicesDie st = Some st' /\ alive st' /\ running st' ++ lost ≡ₚ running st
    /\ out st' = out st ++ replicate (length lost) not_started.
Proof.
  intros Ha Hw. unfold watchForServicesDie. destruct (collectany_syscall (os st)) as [r o] eqn:E.
  apply any_children in E. destruct r as [[pid status]|].
  2: { exists (with_os st o), []. split; [done|]. split; [intros q Hq; cbn in *; rewrite E; by apply Ha|].
       by rewrite !app_nil_r. }
  destruct E as [_ E]. cbn [services with_os]. destruct (services st !! pid) as [svc|] eqn:Hs.
  2: { exists (with_os st o), []. split; [done|]. split; [|by rewrite !app_nil_r].
       intros q Hq. cbn in *. rewrite E. assert (q <> pid) by (intros ->; rewrite Hs in Hq; by destruct Hq).
       apply Ha in Hq. set_solver. }
  set (st1 := with_services (with_os st o) (delete pid (services st))).
  assert (Ha1 : alive st1).
  { intros q Hq. cbn in *. rewrite E. assert (q <> pid) by (intros ->; rewrite lookup_delete_eq in Hq; by destruct Hq).
    rewrite lookup_delete_ne in Hq by done. apply Ha in Hq. set_solver. }
  assert (Hr1 : running st ≡ₚ svc :: running st1).
  { unfold running, st1. cbn. by rewrite <- (map_to_list_delete _ _ _ Hs). }
  assert (Hsvc : wait svc = false) by (apply Hw; rewrite Hr1; left).
  destruct (spawnInitService_spec svc st1 Ha1) as (b & st2 & E2 & Ha2 & Hr2). rewrite Hsvc in Hr2.
  change (with_services (with_os st o) (delete pid (services st))) with st1. rewrite E2. destruct b.
  - exists st2, []. destruct Hr2 as [Hr2 Ho2]. split; [done|]. split; [done|]. rewrite !app_nil_r. split; [by rewrite Hr2, Hr1|done].
  - exists st2, [svc]. destruct Hr2 as [Hr2 Ho2]. split; [done|]. split; [done|]. split; [|done].
    by rewrite Hr2, Hr1, Permutation_app_comm.
Qed.

Lemma watch_spec n st : alive st -> (forall s, s ∈ running st -> wait s = false) ->
  exists st' lost, watch n st = Some st' /\ alive st' /\ running st' ++ lost ≡ₚ running st
    /\ out st' = out st ++ replicate (length lost) not_started.
Proof.
  revert st. induction n as [|n IH]; intros st Ha Hw; cbn [watch].
  - exists st, []. by rewrite !app_nil_r.
  - destruct (watch_round st Ha Hw) as (st1 & l1 & -> & Ha1 & Hr1 & Ho1). cbn [mbind option_bind].
    destruct (IH st1 Ha1) as (st2 & l2 & -> & Ha2 & Hr2 & Ho2).
    { intros s Hs. apply Hw. rewrite <- Hr1. apply elem_of_app. by left. }
    exists st2, (l2 ++ l1). split; [done|]. split; [done|]. split; [by rewrite app_assoc, Hr2, Hr1|].
    rewrite Ho2, Ho1, length_app, <- app_assoc, <- replicate_add. do 2 f_equal. lia.
Qed.
End Proofs.

(** C24: init keeps the services of the system running.  When the list of services is
    read, [main] runs without fault; if it does not give up because a start failed, then
    after any number of turns of its loop, whichever processes end in which order, each
    service that is not waited for has exactly one entry, whose process is a child that
    has not been collected, except for those whose restart failed, which are reported
    and lost. *)
Theorem init_keeps_services {J O} `{Parson J} `{InitOs O} (live : O -> gset Z) `{!Children O live}
    (n : nat) (st : @state O) (content : text) (ss : list init_service_t) :
  services st = ∅ -> readInitScript gServicesList st = (OK, content, st) ->
  parseInitServices content st = (Some ss, st) ->
  exists r, main n st = Some r /\ forall st', r = Some st' ->
    exists lost, running st' ++ lost ≡ₚ filter (fun s => wait s = false) ss
      /\ out st' = out st ++ replicate (length lost) not_started
      /\ (forall pid svc, services st' !! pid = Some svc -> pid ∈ live (os st')).
Proof.
  intros Hst Hread Hparse. unfold main, loadInitServices. rewrite Hread, Hparse.
  assert (Ha : alive live st) by (intros q Hq; rewrite Hst, lookup_empty in Hq; by destruct Hq).
  destruct (spawn_all_spec live ss st Ha) as (b & st1 & -> & Hb). cbn [mbind option_bind].
  destruct b; cbn [negb]; [|by eexists]. destruct (Hb eq_refl) as (Ha1 & Ho1 & Hr1).
  assert (Hnil : running st = []) by (unfold running; by rewrite Hst, map_to_list_empty).
  rewrite Hnil, app_nil_r, reverse_Permutation in Hr1.
  destruct (watch_spec live n st1 Ha1) as (st2 & lost & -> & Ha2 & Hr2 & Ho2).
  { intros s Hs. rewrite Hr1 in Hs. by apply list_elem_of_filter in Hs as [? _]. }
  eexists. split; [done|]. intros st' [= <-]. exists lost. rewrite Hr2, Hr1, Ho2, Ho1. split_and!; [done|done|].
  intros pid svc Hs. apply Ha2. by eexists.
Qed.

(** ** A small system

    Ids count up; the processes end in the order of their ids; the list has a service
    that runs a setup program and one that stays. *)
Module Demo.

Record world := mkWorld { next : Z; kids : gset Z }.

Inductive js := Arr (l : list js) | Obj (nm : text) (w : Z).

#[global] Instance js_parson : Parson js := {|
  json_parse_string t := Some (Arr [Obj (txt "setup") 1; Obj (txt "shell") 0]);
  json_value_get_array j := match j with Arr l => Some l | _ => None end;
  json_value_get_object j := match j with Obj _ _ => Some j | _ => None end;
  json_object_get_string j k := match j with
    | Obj nm _ => if bool_decide (k = txt "args") then Some [] else Some nm
    | _ => None end;
  json_object_get_boolean j k := match j with Obj _ w => if bool_decide (k = txt "wait") then w else -1 | _ => -1 end |}.

Definition first (s : gset Z) : option Z := head (elements s).

#[global] Instance world_os : InitOs world := {|
  file_contents _ _ := Some (txt "[]");
  behind_block _ _ := ["000"%char];
  exec_syscall _ _ _ w :=
    if bool_decide (0 < next w < 2 ^ 15 /\ next w ∉ kids w) then
      (2 * next w, mkWorld (next w + 1) ({[ next w ]} ∪ kids w))
    else (1, w);
  collect_syscall pid w := (Some (1, 0), mkWorld (next w) (kids w ∖ {[ pid ]}));
  collectany_syscall w := match first (kids w) with
    | Some pid => (Some (pid, (1, 0)), mkWorld (next w) (kids w ∖ {[ pid ]}))
    | None => (None, w) end |}.

#[global] Instance world_children : Children world kids.
Proof.
  split.
  - intros p a f w r w' E. cbn in E. case_bool_decide as Hb; simplify_eq; [|by right].
    left. exists (next w). cbn. split_and!; naive_solver.
  - intros pid w r w' E. cbn in E. by simplify_eq.
  - intros w r w' E. cbn in E. unfold first in E. destruct (elements (kids w)) as [|x l] eqn:El; cbn in E; simplify_eq; [done|].
    split; [|done]. apply elem_of_elements. rewrite El. left.
Qed.

Definition start : @state world := mkState ∅ [] (mkWorld 2 ∅).
Definition shell : init_service_t := mkService (txt "shell") (txt "shell") [] false false false.
End Demo.

(** Five turns: the shell was started five times more, and is running. *)
Lemma init_keeps_services_witness :
  exists st', main (J := Demo.js) 5 Demo.start = Some (Some st')
    /\ services st' !! 8 = Some Demo.shell /\ 8 ∈ Demo.kids (os st').
Proof.
  destruct (@init_keeps_services Demo.js Demo.world _ _ Demo.kids Demo.world_children 5 Demo.start (txt "[]")
    [mkService (txt "setup") (txt "setup") [] false true false; Demo.shell]
    eq_refl ltac:(vm_compute; reflexivity) ltac:(vm_compute; reflexivity)) as (r & Hr & Hall).
  assert (Hm : exists st', main (J := Demo.js) 5 Demo.start = Some (Some st') /\ services st' !! 8 = Some Demo.shell).
  { eexists. split; [vm_compute; reflexivity|]. vm_compute. reflexivity. }
  destruct Hm as (st' & Hm & Hs). exists st'. split; [done|]. split; [done|].
  rewrite Hm in Hr. injection Hr as <-. destruct (Hall st' eq_refl) as (lost & _ & _ & Hl). exact (Hl 8 _ Hs).
Defined.
End InitThms.
