(* ===== verification/Ide.v ===== *)
(** * The disk controller (kernel/src/drivers/pci/ide/ide.cpp)

    Two channels of two drives each, reached through ports: registers are written one
    byte at a time, data passes word by word, and the driver polls the status.  [Ide]
    is the driver over any machine with ports; its proofs are in [IdeThms]. *)

From Stdlib Require Import ZArith Lia.
From stdpp Require Import base list option gmap sets.
From S2P Require Import Prelude Machine.

#[local] Open Scope Z_scope.

(** [inw] and [outw] *)
Class WordPorts (W : Type) := {
  inw : Z -> W -> Z * W;
  outw : Z -> Z -> W -> W }.

Module Ide.

Definition gDataRegister : Z := 0x00.
Definition gFeatureRegister : Z := 0x01.
Definition gSectorCountRegister : Z := 0x02.
Definition gLBA0Register : Z := 0x03.
Definition gLBA1Register : Z := 0x04.
Definition gLBA2Register : Z := 0x05.
Definition gDiskSelectorRegister : Z := 0x06.
Definition gStatusRegister : Z := 0x07.
Definition gCommandRegister : Z := 0x07.
Definition gExtSectorCountRegister : Z := 0x08.
Definition gControlRegister : Z := 0x0C.
Definition gAltStatusRegister : Z := 0x0C.

Definition gReadPIOCommand : Z := 0x20.
Definition gReadLBA48PIOCommand : Z := 0x24.
Definition gWritePIOCommand : Z := 0x30.
Definition gWriteLBA48PIOCommand : Z := 0x34.
Definition gIdentifyCommand : Z := 0xEC.
Definition gFlushCommand : Z := 0xE7.
Definition gFlush48Command : Z := 0xEA.
Definition gSetFeaturesCommand : Z := 0xEF.
Definition gSetFeatures_TransferMode : Z := 3.

Definition gStatusError : Z := 0x01.
Definition gStatusRequestReady : Z := 0x08.
Definition gStatusDeviceFault : Z := 0x20.
Definition gStatusDriveReady : Z := 0x40.
Definition gStatusBusy : Z := 0x80.

Definition g48BitAddressing : Z := Z.shiftl 1 26.

Definition gIdentityDeviceType : nat := 0x00.
Definition gIdentitySerial : nat := 0x14.
Definition gIdentityModel : nat := 0x36.
Definition gIdentityPIOModes : nat := 0x40.
Definition gIdentityCapabilities : nat := 0x62.
Definition gIdentityMaxLBA : nat := 0x78.
Definition gIdentityCommandSets : nat := 0xA4.
Definition gIdentityMaxLBAExt : nat := 0xC8.

(** [channel_t] without its devices *)
Record channel_t := mkChannel { iobase : Z; ctrlbase : Z; master : Z; irqoff : Z }.

Inductive kind_t := ata | atapi | sata.

(** [device_t] *)
Record device_t := mkDevice {
  present : bool; kind : kind_t; modes : Z; serial : list Z; signature : Z; features : Z; cmdsets : Z;
  sectors : Z; model : list Z }.

(** [disk_t]: channel and place on the bus *)
Record disk_t := mkDisk { chan : channel_t; bus : Z }.

Section Driver.
Context {W : Type} `{Ports W} `{WordPorts W}.

Implicit Types (ch : channel_t) (w : W).

(** Where a register lies. *)
Definition port ch (reg : Z) : option Z :=
  if reg <? 0x08 then Some (u16 (iobase ch + reg))
  else if reg <? 0x0C then Some (u16 (iobase ch + reg - 0x06))
  else if reg <? 0x0E then Some (u16 (ctrlbase ch + reg - 0x0A))
  else if reg <? 0x16 then Some (u16 (master ch + reg - 0x0E))
  else None.

Definition put ch (reg data : Z) w : W := match port ch reg with Some p => outb p data w | None => w end.
Definition get ch (reg : Z) w : Z * W := match port ch reg with Some p => inb p w | None => (0, w) end.

(** The registers 8 to 11 share ports with 2 to 5 and need a bit of the control
    register. *)
Definition shared (reg : Z) : bool := (7 <? reg) && (reg <? 0x0C).

Definition write_reg ch (reg data : Z) w : W :=
  let w := if shared reg then put ch gControlRegister (Z.lor 0x80 (irqoff ch)) w else w in
  let w := put ch reg data w in
  if shared reg then put ch gControlRegister (irqoff ch) w else w.

Definition read_reg ch (reg : Z) w : Z * W :=
  let w := if shared reg then put ch gControlRegister (Z.lor 0x80 (irqoff ch)) w else w in
  let '(r, w) := get ch reg w in
  (r, if shared reg then put ch gControlRegister (irqoff ch) w else w).

Definition wait400 ch w : W :=
  let w := snd (read_reg ch gAltStatusRegister w) in
  let w := snd (read_reg ch gAltStatusRegister w) in
  let w := snd (read_reg ch gAltStatusRegister w) in
  snd (read_reg ch gAltStatusRegister w).

Definition bit_set (status bit : Z) : bool := negb (Z.land status bit =? 0).

(** [pio_op_params_t] *)
Record pio_op_params_t := mkParams {
  lba48 : bool; command : Z; sector0 : Z; sector1 : Z; sector2 : Z; sector3 : Z; sel : Z; flushcmd : Z; count : Z }.

(** The constructor and the command its callers add.  For large sectors [sector[4]] is
    not initialised: [junk] is the byte that is there. *)
Definition params (junk : Z) (disk : disk_t) (sec num cmd28 cmd48 : Z) : pio_op_params_t :=
  let lba48 := sec >=? 0x10000000 in
  let sector4 := if lba48 then junk else Z.shiftr (Z.land sec 0xF000000) 24 in
  mkParams lba48 (if lba48 then cmd48 else cmd28)
    (Z.land sec 0xFF) (Z.shiftr (Z.land sec 0xFF00) 8) (Z.shiftr (Z.land sec 0xFF0000) 16)
    (Z.shiftr (Z.land sec 0xFF000000) 24)
    (Z.lor (Z.lor 0xE0 sector4) (Z.shiftl (bus disk) 4)) (if lba48 then gFlush48Command else gFlushCommand) (u8 num).

(** The loops of [preparepio]: [tries] readings of the status until it is right. *)
Fixpoint await (tries : nat) ch (ready : bool) w : bool * W :=
  match tries with
  | O => (false, w)
  | S tries =>
      let '(status, w) := read_reg ch gStatusRegister w in
      if bit_set status gStatusBusy then await tries ch ready w
      else if ready && negb (bit_set status gStatusDriveReady) then await tries ch ready w
      else (true, w)
  end.

Definition preparepio (disk : disk_t) (p : pio_op_params_t) w : bool * W :=
  let ch := chan disk in
  let '(ok, w) := await 500 ch false w in
  if negb ok then (false, w)
  else
    let w := wait400 ch (write_reg ch gDiskSelectorRegister (sel p) w) in
    let w := if lba48 p then
               write_reg ch gLBA2Register 0 (write_reg ch gLBA1Register 0
                 (write_reg ch gLBA0Register (sector3 p) (write_reg ch gExtSectorCountRegister 0 w)))
             else w in
    let w := write_reg ch gSectorCountRegister (count p) w in
    let w := write_reg ch gLBA0Register (sector0 p) w in
    let w := write_reg ch gLBA1Register (sector1 p) w in
    let w := write_reg ch gLBA2Register (sector2 p) w in
    let '(ok, w) := await 500 ch true w in
    if negb ok then (false, w)
    else (true, wait400 ch (write_reg ch gCommandRegister (command p) w)).

(** [while(read(chan, gStatusRegister) & gStatusBusy);] *)
Fixpoint while_busy (fuel : nat) ch w : option W :=
  match fuel with
  | O => None
  | S fuel =>
      let '(status, w) := read_reg ch gStatusRegister w in
      if bit_set status gStatusBusy then while_busy fuel ch w else Some w
  end.

Definition poll (fuel : nat) ch (check checkRQRDY checkDRDY : bool) w : option (bool * W) :=
  w ← while_busy fuel ch (wait400 ch w);
  if check then
    let '(status, w) := read_reg ch gStatusRegister w in
    if bit_set status gStatusError || bit_set status gStatusDeviceFault then
      Some (false, snd (read_reg ch gStatusError w))
    else if checkRQRDY && negb (bit_set status gStatusRequestReady) then Some (false, w)
    else if checkDRDY && negb (bit_set status gStatusDriveReady) then Some (false, w)
    else Some (true, w)
  else Some (true, w).

(** [n] words from the data port, as bytes; and back *)
Fixpoint read_words (n : nat) (p : Z) w : list Z * W :=
  match n with
  | O => ([], w)
  | S n =>
      let '(v, w) := inw p w in
      let '(l, w) := read_words n p w in
      (Z.land v 0xFF :: Z.land (Z.shiftr v 8) 0xFF :: l, w)
  end.

Fixpoint write_words (n : nat) (p : Z) (l : list Z) w : W :=
  match n, l with
  | S n, b0 :: b1 :: l => write_words n p l (outw p (Z.lor b0 (Z.shiftl b1 8)) w)
  | _, _ => w
  end.

(** The loop of [doread] over [n] sectors: what it put into the buffer. *)
Fixpoint read_sectors (fuel n : nat) ch w : option (bool * list Z * W) :=
  match n with
  | O => Some (true, [], w)
  | S n =>
      '(ok, w) ← poll fuel ch true true false w;
      if negb ok then Some (false, [], w)
      else
        let '(l, w) := read_words 256 (iobase ch) w in
        '(ok, l', w) ← read_sectors fuel n ch w;
        Some (ok, l ++ l', w)
  end.

Definition doread (fuel : nat) (junk : Z) (disk : disk_t) (sector num : Z) w : option (bool * list Z * W) :=
  let '(ok, w) := preparepio disk (params junk disk sector num gReadPIOCommand gReadLBA48PIOCommand) w in
  if negb ok then Some (false, [], w)
  else read_sectors fuel (Z.to_nat (u8 num)) (chan disk) w.

Fixpoint write_sectors (fuel n : nat) ch (buffer : list Z) w : option (bool * W) :=
  match n with
  | O => Some (true, w)
  | S n =>
      '(ok, w) ← poll fuel ch true true false w;
      if negb ok then Some (false, w)
      else write_sectors fuel n ch (drop 512 buffer) (write_words 256 (iobase ch) (take 512 buffer) w)
  end.

Definition dowrite (fuel : nat) (junk : Z) (disk : disk_t) (sector num : Z) (buffer : list Z) w : option (bool * W) :=
  let p := params junk disk sector num gWritePIOCommand gWriteLBA48PIOCommand in
  let '(ok, w) := preparepio disk p w in
  if negb ok then Some (false, w)
  else
    '(ok, w) ← write_sectors fuel (Z.to_nat (u8 num)) (chan disk) buffer w;
    if negb ok then Some (false, w)
    else poll fuel (chan disk) false true false (write_reg (chan disk) gCommandRegister (flushcmd p) w).

Definition implseclimit : Z := 255.

(** [read] and [write] of up to 65535 sectors, 255 at a time; [turns] bounds the loop *)
Fixpoint read_turns (turns fuel : nat) (junk : Z) (disk : disk_t) (sec0 num : Z) w : option (bool * list Z * W) :=
  if num >? implseclimit then
    match turns with
    | O => None
    | S turns =>
        '(ok, l, w) ← doread fuel junk disk sec0 implseclimit w;
        if negb ok then Some (false, l, w)
        else
          '(ok, l', w) ← read_turns turns fuel junk disk (u32 (sec0 + implseclimit)) (num - implseclimit) w;
          Some (ok, l ++ l', w)
    end
  else if negb (num =? 0) then doread fuel junk disk sec0 num w
  else Some (true, [], w).

Definition read (fuel : nat) (junk : Z) (disk : disk_t) (sec0 num : Z) w : option (bool * list Z * W) :=
  read_turns (Z.to_nat num) fuel junk disk sec0 num w.

Fixpoint write_turns (turns fuel : nat) (junk : Z) (disk : disk_t) (sec0 num : Z) (buffer : list Z) w : option (bool * W) :=
  if num >? implseclimit then
    match turns with
    | O => None
    | S turns =>
        '(ok, w) ← dowrite fuel junk disk sec0 implseclimit buffer w;
        if negb ok then Some (false, w)
        else write_turns turns fuel junk disk (u32 (sec0 + implseclimit)) (num - implseclimit)
               (drop (Z.to_nat (implseclimit * 512)) buffer) w
    end
  else if negb (num =? 0) then dowrite fuel junk disk sec0 num buffer w
  else Some (true, w).

Definition write (fuel : nat) (junk : Z) (disk : disk_t) (sec0 num : Z) (buffer : list Z) w : option (bool * W) :=
  write_turns (Z.to_nat num) fuel junk disk sec0 num buffer w.

(** *** Discovery *)

Definition byte_at (buf : list Z) (i : nat) : Z := default 0 (buf !! i).
Definition word_at (buf : list Z) (i : nat) : Z := byte_at buf (2 * i) + 2 ^ 8 * byte_at buf (2 * i + 1).
Definition dword_at (buf : list Z) (i : nat) : Z := word_at buf (2 * i) + 2 ^ 16 * word_at buf (2 * i + 1).

(** The loops that fill [model] and [serial]; the second one moves by one. *)
Definition swap_into (buf : list Z) (from : nat) (dst : list Z) (k : nat) : list Z :=
  <[S k := byte_at buf (from + k)]> (<[k := byte_at buf (from + k + 1)]> dst).
Definition model_of (buf : list Z) : list Z :=
  foldl (swap_into buf gIdentityModel) (replicate 41 0) ((fun k => 2 * k)%nat <$> seq 0 20).
Definition serial_of (buf : list Z) : list Z :=
  foldl (swap_into buf gIdentitySerial) (replicate 21 0) (seq 0 20).

Definition kind_of (lba1 lba2 : Z) : kind_t :=
  if (lba1 =? 0x14) && (lba2 =? 0xEB) then atapi
  else if (lba1 =? 0x69) && (lba2 =? 0x96) then atapi
  else if (lba1 =? 0x3c) && (lba2 =? 0xc3) then sata
  else ata.

Definition identified (k : kind_t) (buf : list Z) : device_t :=
  let cmdsets := dword_at buf (gIdentityCommandSets / 4) in
  mkDevice true k (u8 (word_at buf gIdentityPIOModes)) (serial_of buf) (word_at buf (gIdentityDeviceType / 2))
    (word_at buf (gIdentityCapabilities / 2)) cmdsets
    (if bit_set cmdsets g48BitAddressing then dword_at buf (gIdentityMaxLBAExt / 4) else dword_at buf (gIdentityMaxLBA / 4))
    (model_of buf).

Definition absent : device_t := mkDevice false ata 0 (replicate 21 0) 0 0 0 0 (replicate 41 0).

(** The loop that waits for an answer: whether there is an error. *)
Fixpoint answer (fuel : nat) ch w : option (bool * W) :=
  match fuel with
  | O => None
  | S fuel =>
      let '(status, w) := read_reg ch gStatusRegister w in
      if bit_set status gStatusError then Some (true, w)
      else if negb (bit_set status gStatusBusy) && bit_set status gStatusRequestReady then Some (false, w)
      else answer fuel ch w
  end.

Definition discover (fuel : nat) ch (busid : Z) w : option (device_t * W) :=
  let w := wait400 ch (write_reg ch gDiskSelectorRegister (Z.lor 0xA0 (Z.shiftl busid 4)) w) in
  let w := write_reg ch gSectorCountRegister 0 w in
  let w := write_reg ch gLBA0Register 0 w in
  let w := write_reg ch gLBA1Register 0 w in
  let w := write_reg ch gLBA2Register 0 w in
  let w := wait400 ch (write_reg ch gCommandRegister gIdentifyCommand w) in
  let '(status, w) := read_reg ch gStatusRegister w in
  if status =? 0 then Some (absent, w)
  else
    '(error, w) ← answer fuel ch w;
    if (error : bool) then Some (absent, w)
    else
      let '(lba1, w) := read_reg ch gLBA1Register w in
      let '(lba2, w) := read_reg ch gLBA2Register w in
      let '(buf, w) := read_words 256 (u16 (iobase ch + gDataRegister)) w in
      Some (identified (kind_of lba1 lba2) buf, w).

(** One drive of [configurepio]: whether it was counted *)
Definition pio_mode (dev : device_t) : Z :=
  if present dev && bit_set (modes dev) 2 then 12 else if present dev && bit_set (modes dev) 1 then 6 else 0.

Definition configure (fuel : nat) ch (d : Z) (dev : device_t) w : option (bool * W) :=
  let mode := pio_mode dev in
  if mode =? 0 then Some (false, w)
  else
    let w := wait400 ch (write_reg ch gDiskSelectorRegister (Z.lor 0xA0 (Z.shiftl d 4)) w) in
    let w := write_reg ch gFeatureRegister gSetFeatures_TransferMode w in
    let w := write_reg ch gSectorCountRegister mode w in
    let w := wait400 ch (write_reg ch gCommandRegister gSetFeaturesCommand w) in
    poll fuel ch true false true w.

(** *** The constructor *)

Definition isio (bar : Z) : bool := (Z.land bar 1 =? 1) || (bar =? 0).
Definition adjust (bar def : Z) : Z := if (bar =? 0) || (bar =? 1) then def else Z.land bar 0xFFFFFFFC.

(** The channels of the controller; [None] is the panic. *)
Definition channels (h : Pci.pci_hdr_0) : option (channel_t * channel_t) :=
  if isio (Pci.bar0 h) && isio (Pci.bar1 h) && isio (Pci.bar2 h) && isio (Pci.bar3 h) && isio (Pci.bar4 h) then
    let bar4 := Z.land (Pci.bar4 h) 0xFFFFFFFC in
    Some (mkChannel (u16 (adjust (Pci.bar0 h) 0x1F0)) (u16 (adjust (Pci.bar1 h) 0x3F6)) (u16 bar4) 1,
          mkChannel (u16 (adjust (Pci.bar2 h) 0x170)) (u16 (adjust (Pci.bar3 h) 0x376)) (u16 (bar4 + 8)) 1)
  else None.

(** The drives that [fill] accepts, in the order in which the manager gets them. *)
Fixpoint discover_all (fuel : nat) (l : list (channel_t * Z)) w : option (list (disk_t * device_t) * W) :=
  match l with
  | [] => Some ([], w)
  | (ch, b) :: l =>
      '(dev, w) ← discover fuel ch b w;
      '(ds, w) ← discover_all fuel l w;
      Some ((mkDisk ch b, dev) :: ds, w)
  end.

Fixpoint configurepio (fuel : nat) (l : list (disk_t * device_t)) w : option (nat * W) :=
  match l with
  | [] => Some (0%nat, w)
  | (d, dev) :: l =>
      '(ok, w) ← configure fuel (chan d) (bus d) dev w;
      '(n, w) ← configurepio fuel l w;
      Some (((if ok : bool then 1 else 0) + n)%nat, w)
  end.

(** [ALLOC_PORTS] *)
Definition alloc_ports (m : IoPorts.manager) (base : Z) : IoPorts.manager :=
  foldl (fun m i => snd (IoPorts.allocatePort m (u16 (base + i)))) m (seqZ 0 8).

Definition new (fuel : nat) (h : Pci.pci_hdr_0) (m : IoPorts.manager) w
    : option (list (disk_t * device_t) * IoPorts.manager * W) :=
  '(c0, c1) ← channels h;
  let m := alloc_ports (alloc_ports m (iobase c0)) (iobase c1) in
  let w := write_reg c1 gControlRegister 2 (write_reg c0 gControlRegister 2 w) in
  '(ds, w) ← discover_all fuel [(c0, 0); (c0, 1); (c1, 0); (c1, 1)] w;
  '(_, w) ← configurepio fuel ds w;
  Some (filter (fun d => present d.2 = true) ds, m, w).

End Driver.
End Ide.
