(* ===== verification/IdeThms.v ===== *)
(** * The disk driver moves sectors

    [Ata] is a channel with its drives as the ATA standard describes PIO transfers: the
    registers, of which the standard's 48-bit commands use the last two bytes written,
    a status that is busy for a while after each command and each sector, and the
    words of a sector in order.  How long a drive is busy is up to it, below the 500
    readings of the status that the driver grants.  A machine is a channel of that kind
    when its ports act on the drives in this way ([AtaChannel]).

    The driver's reads and writes of any number of sectors are shown to read and write
    these sectors, and a drive behind it to be a block device. *)

From Stdlib Require Import ZArith Lia.
From stdpp Require Import base list option.
From S2P Require Import Prelude Volume Machine Ide.

#[local] Open Scope Z_scope.

Module Ata.

(** Idle; the bytes left of the sector being read and the sectors after it; the bytes
    received of the sector being written, its number and the sectors after it *)
Inductive phase_t := Idle | In (buf : list Z) (next : list Z) | Out (buf : list Z) (s : Z) (next : list Z).

(** [false] is the master, [true] the slave; a register with what it held before *)
Record ata := mkAta {
  contents : bool -> Z -> list Z; size : bool -> Z;
  a_count : Z * Z; a_lba0 : Z * Z; a_lba1 : Z * Z; a_lba2 : Z * Z; a_select : Z;
  busy : nat; phase : phase_t; failed : bool;
  (** how long the drive will be busy, from now on *)
  delays : nat -> nat }.

Implicit Types a : ata.

Definition drive a : bool := Z.testbit (a_select a) 4.
Definition with_busy a n : ata :=
  mkAta (contents a) (size a) (a_count a) (a_lba0 a) (a_lba1 a) (a_lba2 a) (a_select a) n (phase a) (failed a) (delays a).

(** a new phase, busy for a while *)
Definition enter a (p : phase_t) (f : bool) : ata :=
  mkAta (contents a) (size a) (a_count a) (a_lba0 a) (a_lba1 a) (a_lba2 a) (a_select a) (delays a 0%nat) p f
    (fun n => delays a (S n)).
Definition store a (s : Z) (b : list Z) : ata :=
  mkAta (fun d s' => if Bool.eqb d (drive a) && (s' =? s) then b else contents a d s') (size a) (a_count a) (a_lba0 a)
    (a_lba1 a) (a_lba2 a) (a_select a) (busy a) (phase a) (failed a) (delays a).

(** A reading of the status, and of the alternate status *)
Definition status a : Z :=
  if (0 <? busy a)%nat then 0x80
  else Z.lor 0x40 (Z.lor (match phase a with Idle => 0 | _ => 0x08 end) (if failed a then 1 else 0)).
Definition status_read a : ata := with_busy a (Nat.pred (busy a)).

Definition push (r : Z * Z) (v : Z) : Z * Z := (v, r.1).

Definition lba28 a : Z :=
  Z.land (a_select a) 0x0F * 2 ^ 24 + (a_lba2 a).1 * 2 ^ 16 + (a_lba1 a).1 * 2 ^ 8 + (a_lba0 a).1.
Definition lba48 a : Z :=
  (a_lba2 a).2 * 2 ^ 40 + (a_lba1 a).2 * 2 ^ 32 + (a_lba0 a).2 * 2 ^ 24
  + (a_lba2 a).1 * 2 ^ 16 + (a_lba1 a).1 * 2 ^ 8 + (a_lba0 a).1.
Definition count28 a : Z := if (a_count a).1 =? 0 then 256 else (a_count a).1.
Definition count48 a : Z := let n := (a_count a).2 * 2 ^ 8 + (a_count a).1 in if n =? 0 then 65536 else n.

(** A transfer of [n] sectors from [s] on, refused beyond [limit] *)
Definition transfer a (out : bool) (s n limit : Z) : ata :=
  if (size a (drive a) <? s + n) || (limit <? s + n) || negb (Z.testbit (a_select a) 6) then enter a Idle true
  else enter a (if out then Out [] s (seqZ (s + 1) (n - 1)) else In (contents a (drive a) s) (seqZ (s + 1) (n - 1))) false.

Definition run a (cmd : Z) : ata :=
  if cmd =? 0x20 then transfer a false (lba28 a) (count28 a) (2 ^ 28)
  else if cmd =? 0x24 then transfer a false (lba48 a) (count48 a) (2 ^ 48)
  else if cmd =? 0x30 then transfer a true (lba28 a) (count28 a) (2 ^ 28)
  else if cmd =? 0x34 then transfer a true (lba48 a) (count48 a) (2 ^ 48)
  else if (cmd =? 0xE7) || (cmd =? 0xEA) then enter a Idle false
  else enter a Idle true.

(** A byte to register [r]; a drive that is busy does not take it *)
Definition reg_write a (r v : Z) : ata :=
  if (0 <? busy a)%nat then a
  else if r =? 2 then mkAta (contents a) (size a) (push (a_count a) v) (a_lba0 a) (a_lba1 a) (a_lba2 a) (a_select a) (busy a) (phase a) (failed a) (delays a)
  else if r =? 3 then mkAta (contents a) (size a) (a_count a) (push (a_lba0 a) v) (a_lba1 a) (a_lba2 a) (a_select a) (busy a) (phase a) (failed a) (delays a)
  else if r =? 4 then mkAta (contents a) (size a) (a_count a) (a_lba0 a) (push (a_lba1 a) v) (a_lba2 a) (a_select a) (busy a) (phase a) (failed a) (delays a)
  else if r =? 5 then mkAta (contents a) (size a) (a_count a) (a_lba0 a) (a_lba1 a) (push (a_lba2 a) v) (a_select a) (busy a) (phase a) (failed a) (delays a)
  else if r =? 6 then mkAta (contents a) (size a) (a_count a) (a_lba0 a) (a_lba1 a) (a_lba2 a) v (busy a) (phase a) (failed a) (delays a)
  else if r =? 7 then run a v
  else a.

(** What follows a sector that has been read or written *)
Definition more_in a (next : list Z) : ata :=
  match next with [] => enter a Idle false | s :: next => enter a (In (contents a (drive a) s) next) false end.
Definition more_out a (next : list Z) : ata :=
  match next with [] => enter a Idle false | s :: next => enter a (Out [] s next) false end.

Definition set_phase a p : ata :=
  mkAta (contents a) (size a) (a_count a) (a_lba0 a) (a_lba1 a) (a_lba2 a) (a_select a) (busy a) p (failed a) (delays a).

(** The data register *)
Definition word_read a : Z * ata :=
  match phase a with
  | In (b0 :: b1 :: buf) next =>
      (b0 + 2 ^ 8 * b1, match buf with [] => more_in a next | _ => set_phase a (In buf next) end)
  | _ => (0, a)
  end.
Definition word_write a (v : Z) : ata :=
  match phase a with
  | Out buf s next =>
      let buf := buf ++ [v mod 2 ^ 8; v / 2 ^ 8 mod 2 ^ 8] in
      if (length buf =? 512)%nat then more_out (store a s buf) next else set_phase a (Out buf s next)
  | _ => a
  end.

End Ata.

(** A machine whose ports at [ch] belong to such a channel. *)
Class AtaChannel (W : Type) `{Ports W} `{WordPorts W} (ch : Ide.channel_t) := {
  abs : W -> Ata.ata;
  (** ports are sixteen bits wide, and the control register has no reset in it *)
  ch_irqoff : Z.testbit (Ide.irqoff ch) 2 = false;
  in_status w : fst (inb (u16 (Ide.iobase ch + 7)) w) = Ata.status (abs w)
    /\ abs (snd (inb (u16 (Ide.iobase ch + 7)) w)) = Ata.status_read (abs w);
  (** a reading of the alternate status takes time, and changes nothing else *)
  in_alt w : exists n, (n <= Ata.busy (abs w))%nat /\ abs (snd (inb (u16 (Ide.ctrlbase ch + 2)) w)) = Ata.with_busy (abs w) n;
  in_error w : abs (snd (inb (u16 (Ide.iobase ch + 1)) w)) = abs w;
  out_reg r v w : 2 <= r <= 7 -> abs (outb (u16 (Ide.iobase ch + r)) v w) = Ata.reg_write (abs w) r v;
  out_control v w : Z.testbit v 2 = false -> abs (outb (u16 (Ide.ctrlbase ch + 2)) v w) = abs w;
  in_data w : Ata.busy (abs w) = 0%nat ->
    fst (inw (Ide.iobase ch) w) = fst (Ata.word_read (abs w)) /\ abs (snd (inw (Ide.iobase ch) w)) = snd (Ata.word_read (abs w));
  out_data v w : Ata.busy (abs w) = 0%nat -> abs (outw (Ide.iobase ch) v w) = Ata.word_write (abs w) v }.

Module Proofs.
Import Ide Ata.

(** ** Numbers in the registers *)

Lemma field x k n : 0 <= k -> 0 <= n -> Z.shiftr (Z.land x (Z.shiftl (Z.ones n) k)) k = x / 2 ^ k mod 2 ^ n.
Proof.
  intros Hk Hn. rewrite Z.shiftr_land, Z.shiftr_shiftl_l, Z.sub_diag, Z.shiftl_0_r by lia.
  by rewrite Z.land_ones, Z.shiftr_div_pow2.
Qed.

Lemma sector_bytes x :
  Z.land x 0xFF = x mod 2 ^ 8 /\ Z.shiftr (Z.land x 0xFF00) 8 = x / 2 ^ 8 mod 2 ^ 8
  /\ Z.shiftr (Z.land x 0xFF0000) 16 = x / 2 ^ 16 mod 2 ^ 8 /\ Z.shiftr (Z.land x 0xFF000000) 24 = x / 2 ^ 24 mod 2 ^ 8
  /\ Z.shiftr (Z.land x 0xF000000) 24 = x / 2 ^ 24 mod 2 ^ 4.
Proof.
  split_and!.
  - exact (Z.land_ones x 8 ltac:(lia)).
  - exact (field x 8 8 ltac:(lia) ltac:(lia)).
  - exact (field x 16 8 ltac:(lia) ltac:(lia)).
  - exact (field x 24 8 ltac:(lia) ltac:(lia)).
  - exact (field x 24 4 ltac:(lia) ltac:(lia)).
Qed.

Lemma select28 s4 b : 0 <= s4 < 16 -> b = 0 \/ b = 1 ->
  let sel := Z.lor (Z.lor 0xE0 s4) (Z.shiftl b 4) in
  Z.land sel 0x0F = s4 /\ Z.testbit sel 4 = (b =? 1) /\ Z.testbit sel 6 = true.
Proof.
  intros Hs Hb. cbn zeta.
  assert (Hall : forallb (fun s4 => forallb (fun b => let sel := Z.lor (Z.lor 0xE0 s4) (Z.shiftl b 4) in
    (Z.land sel 0x0F =? s4) && Bool.eqb (Z.testbit sel 4) (b =? 1) && Z.testbit sel 6) [0; 1]) (seqZ 0 16) = true)
    by (vm_compute; reflexivity).
  rewrite forallb_forall in Hall. specialize (Hall s4 ltac:(apply list_elem_of_In, elem_of_seqZ; lia)).
  rewrite forallb_forall in Hall. specialize (Hall b ltac:(cbn; destruct Hb; auto)). cbn zeta in Hall.
  apply andb_prop in Hall as [[?%Z.eqb_eq ?%Bool.eqb_prop]%andb_prop ?]. done.
Qed.

Lemma select48 junk b : b = 0 \/ b = 1 ->
  let sel := Z.lor (Z.lor 0xE0 junk) (Z.shiftl b 4) in
  Z.testbit sel 4 = Z.testbit junk 4 || (b =? 1) /\ Z.testbit sel 6 = true.
Proof.
  intros Hb. cbn zeta. rewrite !Z.lor_spec. destruct Hb as [-> | ->]; cbn.
  - by rewrite !orb_false_r.
  - by rewrite !orb_true_r.
Qed.

(** ** The registers through the driver *)

Section Channel.
Context {W : Type} `{AtaChannel W ch}.

Implicit Types (w : W) (a : ata).

Lemma port_low r : 0 <= r < 8 -> port ch r = Some (u16 (iobase ch + r)).
Proof. intros Hr. unfold port. by destruct (Z.ltb_spec r 8); [|lia]. Qed.

Lemma abs_write_reg r v w : 2 <= r <= 7 -> abs (write_reg ch r v w) = reg_write (abs w) r v.
Proof.
  intros Hr. unfold write_reg, shared, put. destruct (Z.ltb_spec 7 r); [lia|]. cbn [andb].
  rewrite port_low by lia. by apply out_reg.
Qed.

Lemma abs_control v w : Z.testbit v 2 = false -> abs (put ch gControlRegister v w) = abs w.
Proof.
  intros Hv. unfold put, gControlRegister. change (port ch 12) with (Some (u16 (ctrlbase ch + 12 - 10))).
  replace (ctrlbase ch + 12 - 10) with (ctrlbase ch + 2) by lia. by apply out_control.
Qed.

Lemma abs_write_ext v w : abs (write_reg ch gExtSectorCountRegister v w) = reg_write (abs w) 2 v.
Proof.
  unfold write_reg, gExtSectorCountRegister. cbn [shared Z.ltb Z.compare andb Pos.compare Pos.compare_cont].
  rewrite abs_control by apply ch_irqoff. unfold put at 1. change (port ch 8) with (Some (u16 (iobase ch + 8 - 6))).
  replace (iobase ch + 8 - 6) with (iobase ch + 2) by lia. rewrite out_reg by lia. f_equal. apply abs_control.
  by rewrite Z.lor_spec, ch_irqoff.
Qed.

Lemma abs_status w : exists w', read_reg ch gStatusRegister w = (status (abs w), w') /\ abs w' = status_read (abs w).
Proof.
  unfold read_reg, get, gStatusRegister. change (shared 7) with false. cbn match. rewrite port_low by lia.
  destruct (inb _ w) as [r w'] eqn:E. destruct (in_status w) as [Hr Hw]. rewrite E in Hr, Hw. cbn in Hr, Hw. subst r. eauto.
Qed.

Lemma abs_alt w : exists n, (n <= busy (abs w))%nat /\ abs (snd (read_reg ch gAltStatusRegister w)) = with_busy (abs w) n.
Proof.
  unfold read_reg, get, gAltStatusRegister. change (shared 12) with false. cbn match.
  change (port ch 12) with (Some (u16 (ctrlbase ch + 12 - 10))). replace (ctrlbase ch + 12 - 10) with (ctrlbase ch + 2) by lia.
  pose proof (in_alt w) as E. by destruct (inb _ w).
Qed.

Lemma abs_error w : abs (snd (read_reg ch gStatusError w)) = abs w.
Proof.
  unfold read_reg, get, gStatusError. change (shared 1) with false. cbn match. rewrite port_low by lia.
  pose proof (in_error w) as E. by destruct (inb _ w).
Qed.

Lemma abs_wait400 w : exists n, (n <= busy (abs w))%nat /\ abs (wait400 ch w) = with_busy (abs w) n.
Proof.
  unfold wait400. destruct (abs_alt w) as (n1 & H1' & E1). set (w1 := snd (read_reg ch gAltStatusRegister w)) in *.
  destruct (abs_alt w1) as (n2 & H2' & E2). set (w2 := snd (read_reg ch gAltStatusRegister w1)) in *.
  destruct (abs_alt w2) as (n3 & H3' & E3). set (w3 := snd (read_reg ch gAltStatusRegister w2)) in *.
  destruct (abs_alt w3) as (n4 & H4' & E4). exists n4. rewrite E3 in E4, H4'. rewrite E2 in E4, H3'. rewrite E1 in E4, H2'.
  cbn in *. split; [lia|done].
Qed.

(** What the bits of the status say. *)
Lemma status_busy a : bit_set (status a) gStatusBusy = (0 <? busy a)%nat.
Proof. unfold status. destruct (0 <? busy a)%nat; [done|]. by destruct (phase a), (failed a). Qed.

Definition requesting a : bool := match phase a with Idle => false | _ => true end.

Lemma status_calm a : busy a = 0%nat ->
  bit_set (status a) gStatusDriveReady = true /\ bit_set (status a) gStatusError = failed a
  /\ bit_set (status a) gStatusDeviceFault = false /\ bit_set (status a) gStatusRequestReady = requesting a.
Proof. intros Hb. unfold status, requesting. rewrite Hb. by destruct (phase a), (failed a). Qed.

Definition calm a : ata := with_busy a 0.

Lemma await_spec tries w : (busy (abs w) < tries)%nat ->
  exists w', await tries ch false w = (true, w') /\ abs w' = calm (abs w).
Proof.
  revert w. induction tries as [|tries IH]; intros w Hb; [lia|]. cbn [await].
  destruct (abs_status w) as (w' & -> & E). rewrite status_busy. destruct (Nat.ltb_spec 0 (busy (abs w))) as [Hlt|Hle].
  - destruct (IH w') as (w2 & -> & E2); [rewrite E; cbn; lia|]. exists w2. split; [done|]. rewrite E2, E. done.
  - exists w'. split; [done|]. rewrite E. unfold status_read, calm. f_equal. lia.
Qed.

Lemma await_ready tries w : busy (abs w) = 0%nat ->
  exists w', await (S tries) ch true w = (true, w') /\ abs w' = abs w.
Proof.
  intros Hb. cbn [await]. destruct (abs_status w) as (w' & -> & E). rewrite status_busy, Hb. cbn [Nat.ltb Nat.leb].
  destruct (status_calm _ Hb) as (-> & _). cbn [negb andb]. exists w'. split; [done|]. rewrite E. unfold status_read, with_busy.
  rewrite Hb. destruct (abs w); cbn in *; by subst.
Qed.

Lemma while_busy_spec fuel w : (busy (abs w) < fuel)%nat -> exists w', while_busy fuel ch w = Some w' /\ abs w' = calm (abs w).
Proof.
  revert w. induction fuel as [|fuel IH]; intros w Hb; [lia|]. cbn [while_busy].
  destruct (abs_status w) as (w' & -> & E). rewrite status_busy. destruct (Nat.ltb_spec 0 (busy (abs w))) as [Hlt|Hle].
  - destruct (IH w') as (w2 & -> & E2); [rewrite E; cbn; lia|]. exists w2. split; [done|]. rewrite E2, E. done.
  - exists w'. split; [done|]. rewrite E. unfold status_read, calm. f_equal. lia.
Qed.

(** [poll] waits, and tells whether the drive wants data. *)
Lemma poll_spec fuel w : (busy (abs w) < fuel)%nat ->
  exists w', poll fuel ch true true false w = Some (negb (failed (abs w)) && requesting (abs w), w') /\ abs w' = calm (abs w).
Proof.
  intros Hb. unfold poll. destruct (abs_wait400 w) as (n & Hn & En).
  destruct (while_busy_spec fuel (wait400 ch w)) as (w1 & -> & E1); [rewrite En; cbn; lia|].
  cbn [mbind option_bind]. rewrite En in E1. change (calm (with_busy (abs w) n)) with (calm (abs w)) in E1.
  destruct (abs_status w1) as (w2 & -> & E2). assert (Hc : busy (abs w1) = 0%nat) by (by rewrite E1).
  destruct (status_calm _ Hc) as (_ & -> & -> & ->). rewrite E1. cbn [failed calm with_busy]. rewrite E1 in E2.
  change (status_read (calm (abs w))) with (calm (abs w)) in E2. change (requesting (calm (abs w))) with (requesting (abs w)).
  rewrite orb_false_r. destruct (failed (abs w)); cbn [negb andb]; [eexists; split; [done|]; by rewrite abs_error|].
  destruct (requesting (abs w)); cbn [negb]; eauto.
Qed.

Lemma poll_unchecked fuel w : (busy (abs w) < fuel)%nat ->
  exists w', poll fuel ch false true false w = Some (true, w') /\ abs w' = calm (abs w).
Proof.
  intros Hb. unfold poll. destruct (abs_wait400 w) as (n & Hn & En).
  destruct (while_busy_spec fuel (wait400 ch w)) as (w1 & -> & E1); [rewrite En; cbn; lia|].
  cbn [mbind option_bind]. eexists. split; [done|]. by rewrite E1, En.
Qed.

(** ** Commands *)

(** The registers as [preparepio] leaves them. *)
Definition prepared a (p : pio_op_params_t) : ata :=
  mkAta (contents a) (size a)
    (count p, if Ide.lba48 p then 0 else (a_count a).1) (sector0 p, if Ide.lba48 p then sector3 p else (a_lba0 a).1)
    (sector1 p, if Ide.lba48 p then 0 else (a_lba1 a).1) (sector2 p, if Ide.lba48 p then 0 else (a_lba2 a).1)
    (sel p) 0 (phase a) (failed a) (delays a).

Lemma preparepio_spec b p w : (busy (abs w) < 500)%nat ->
  exists w', preparepio (mkDisk ch b) p w = (true, w')
    /\ let a := run (prepared (abs w) p) (command p) in exists n, (n <= busy a)%nat /\ abs w' = with_busy a n.
Proof.
  intros Hb. unfold preparepio. cbn [chan]. destruct (await_spec 500 w Hb) as (w1 & -> & E1). cbn [negb].
  set (w2 := wait400 ch (write_reg ch gDiskSelectorRegister (sel p) w1)).
  assert (E2 : abs w2 = reg_write (calm (abs w)) 6 (sel p)).
  { destruct (abs_wait400 (write_reg ch gDiskSelectorRegister (sel p) w1)) as (n & Hn & En). unfold w2. rewrite En.
    rewrite abs_write_reg, E1 in * by (unfold gDiskSelectorRegister; lia). cbn in Hn. by replace n with 0%nat by lia. }
  set (w3 := if Ide.lba48 p then _ else w2).
  set (w4 := write_reg ch gLBA2Register (sector2 p) _).
  assert (E4 : abs w4 = prepared (abs w) p).
  { unfold w4, w3, gLBA0Register, gLBA1Register, gLBA2Register, gSectorCountRegister. rewrite !abs_write_reg by lia.
    destruct (Ide.lba48 p) eqn:El.
    - rewrite !abs_write_reg, abs_write_ext, E2 by lia. unfold prepared. by rewrite El.
    - rewrite E2. unfold prepared. by rewrite El. }
  destruct (await_ready 499 w4) as (w5 & -> & E5); [by rewrite E4|]. cbn [negb].
  eexists. split; [done|]. cbn zeta. destruct (abs_wait400 (write_reg ch gCommandRegister (command p) w5)) as (n & Hn & En).
  rewrite abs_write_reg, E5, E4 in * by (unfold gCommandRegister; lia). by exists n.
Qed.

(** ** Sectors *)

Section Disk.
Context (D : nat) (D_small : (D < 500)%nat).

(** The drives hold [c], and are never busy for more than [D] readings. *)
Record sound (c : bool -> Z -> list Z) (sz : bool -> Z) a : Prop := {
  so_contents d s : contents a d s = c d s;
  so_size d : size a d = sz d;
  so_busy : (busy a <= D)%nat;
  so_delays n : (delays a n <= D)%nat }.

Definition blocks (c : bool -> Z -> list Z) : Prop := forall d s, length (c d s) = 512%nat /\ Forall is_u8 (c d s).

Definition ready c sz w : Prop := sound c sz (abs w) /\ phase (abs w) = Idle.

Lemma sound_enter c sz a p f : sound c sz a -> sound c sz (enter a p f).
Proof. intros [? ? ? Hd]. split; cbn; auto. Qed.

Lemma sound_busy c sz a n : sound c sz a -> (n <= D)%nat -> sound c sz (with_busy a n).
Proof. intros [? ? ? Hd] Hn. by split. Qed.

Lemma sound_calm c sz a : sound c sz a -> sound c sz (calm a).
Proof. intros Hs. apply sound_busy; [done|lia]. Qed.

(** The drive understands the numbers the driver writes. *)
Definition op_params (junk b sec num : Z) (out : bool) : pio_op_params_t :=
  params junk (mkDisk ch b) sec num (if out then gWritePIOCommand else gReadPIOCommand)
    (if out then gWriteLBA48PIOCommand else gReadLBA48PIOCommand).

Lemma run_params a junk b sec num out : b = 0 \/ b = 1 -> 0 <= sec -> 0 < num < 256 -> sec + num <= 2 ^ 32 ->
  (sec + num <= 2 ^ 28 \/ (2 ^ 28 <= sec /\ Z.testbit junk 4 = false)) ->
  let a' := prepared a (op_params junk b sec num out) in
  exists limit, run a' (command (op_params junk b sec num out)) = transfer a' out sec num limit
    /\ sec + num <= limit /\ drive a' = (b =? 1) /\ Z.testbit (a_select a') 6 = true.
Proof.
  intros Hb Hsec Hnum H32 Hside a'.
  destruct (sector_bytes sec) as (B0 & B1 & B2 & B3 & B4).
  assert (Hn : u8 num = num) by (unfold u8, wrap; apply Z.mod_small; lia).
  assert (Hn0 : (num =? 0) = false) by (apply Z.eqb_neq; lia).
  destruct (Z.ltb_spec sec (2 ^ 28)) as [Hlt|Hge].
  - assert (Hl : (sec >=? 0x10000000) = false) by (rewrite Z.geb_leb; apply Z.leb_gt; lia).
    destruct (select28 (sec / 2 ^ 24 mod 2 ^ 4) b) as (S0 & S4 & S6); [apply Z.mod_pos_bound; lia|done|].
    exists (2 ^ 28). unfold a', op_params, params. rewrite Hl, B0, B1, B2, B4. cbn [command].
    split; [|split_and!; [lia|exact S4|exact S6]].
    set (a2 := prepared _ _).
    assert (L : Ata.lba28 a2 = sec).
    { unfold Ata.lba28, a2. cbn [a_select a_lba0 a_lba1 a_lba2 prepared fst sel bus sector0 sector1 sector2]. rewrite S0.
      clear -Hsec Hlt. Z.div_mod_to_equations. lia. }
    assert (C : count28 a2 = num) by (unfold count28, a2; cbn [a_count prepared fst count]; by rewrite Hn, Hn0).
    destruct out; unfold run; cbn [Z.eqb gWritePIOCommand gReadPIOCommand Pos.eqb]; by rewrite L, C.
  - destruct Hside as [?|[_ Hj]]; [lia|]. assert (Hl : (sec >=? 0x10000000) = true) by (rewrite Z.geb_leb; apply Z.leb_le; lia).
    destruct (select48 junk b Hb) as [S4 S6]. rewrite Hj in S4.
    exists (2 ^ 48). unfold a', op_params, params. rewrite Hl, B0, B1, B2, B3. cbn [command].
    split; [|split_and!; [lia|exact S4|exact S6]].
    set (a2 := prepared _ _).
    assert (L : Ata.lba48 a2 = sec).
    { unfold Ata.lba48, a2. cbn [a_lba0 a_lba1 a_lba2 prepared fst snd sector0 sector1 sector2 sector3 Ide.lba48].
      clear -Hsec H32 Hnum. Z.div_mod_to_equations. lia. }
    assert (C : count48 a2 = num) by (unfold count48, a2; cbn [a_count prepared fst snd count Ide.lba48]; rewrite Z.mul_0_l, Z.add_0_l, Hn; by rewrite Hn0).
    destruct out; unfold run; cbn [Z.eqb gWriteLBA48PIOCommand gReadLBA48PIOCommand Pos.eqb]; by rewrite L, C.
Qed.

(** A command for [num] sectors from [sec] on. *)
Lemma transfer_spec c sz b junk sec num (out : bool) w :
  ready c sz w -> b = 0 \/ b = 1 -> 0 <= sec -> 0 < num < 256 -> sec + num <= 2 ^ 32 ->
  (sec + num <= 2 ^ 28 \/ (2 ^ 28 <= sec /\ Z.testbit junk 4 = false)) ->
  let d := b =? 1 in
  exists w', preparepio (mkDisk ch b)
      (if out then params junk (mkDisk ch b) sec num gWritePIOCommand gWriteLBA48PIOCommand
       else params junk (mkDisk ch b) sec num gReadPIOCommand gReadLBA48PIOCommand) w = (true, w')
    /\ sound c sz (abs w') /\ drive (abs w') = d
    /\ (if sz d <? sec + num then phase (abs w') = Idle /\ failed (abs w') = true
        else phase (abs w') = (if out then Out [] sec (seqZ (sec + 1) (num - 1)) else In (c d sec) (seqZ (sec + 1) (num - 1)))
             /\ failed (abs w') = false).
Proof.
  intros [Hs Hp] Hb Hsec Hnum H32 Hside d.
  set (p := if out then _ else _).
  destruct (preparepio_spec b p w) as (w' & E & n & Hn & Ha); [destruct Hs; lia|]. exists w'. split; [done|].
  assert (Hp' : p = op_params junk b sec num out) by (unfold p; by destruct out). rewrite Hp' in Ha, Hn. clear E Hp'.
  destruct (run_params (abs w) junk b sec num out Hb Hsec Hnum H32 Hside) as (limit & Er & Hlim & Hd & H6).
  rewrite Er in Ha, Hn. rewrite Ha. clear Ha Er p.
  assert (Hs' : sound c sz (prepared (abs w) (op_params junk b sec num out))) by (destruct Hs; split; cbn; auto; lia).
  set (a := prepared (abs w) (op_params junk b sec num out)) in *.
  assert (Hn' : (n <= D)%nat).
  { etransitivity; [exact Hn|]. unfold transfer. destruct (_ || _); exact (so_delays _ _ _ Hs' 0%nat). }
  unfold transfer. rewrite Hd, H6, (so_size _ _ _ Hs'). fold d.
  replace (limit <? sec + num) with false by (symmetry; apply Z.ltb_ge; lia).
  rewrite !orb_false_r. destruct (sz d <? sec + num).
  - split; [|done]. apply sound_busy; [by apply sound_enter|done].
  - split; [apply sound_busy; [by apply sound_enter|done]|].
    split; [done|]. split; [|done]. cbn. destruct out; [done|]. by rewrite (so_contents _ _ _ Hs).
Qed.

Lemma read_word_bytes b0 b1 : is_u8 b0 -> is_u8 b1 ->
  Z.land (b0 + 2 ^ 8 * b1) 0xFF = b0 /\ Z.land (Z.shiftr (b0 + 2 ^ 8 * b1) 8) 0xFF = b1.
Proof.
  intros H1' H2'. unfold is_u in *. rewrite Z.shiftr_div_pow2 by lia. change 0xFF with (Z.ones 8). rewrite !Z.land_ones by lia.
  Z.div_mod_to_equations. lia.
Qed.

Lemma read_words_S n (q : Z) w :
  read_words (S n) q w = let '(v, w) := inw q w in let '(l, w) := read_words n q w in
    (Z.land v 0xFF :: Z.land (Z.shiftr v 8) 0xFF :: l, w).
Proof. done. Qed.

Lemma more_in_phase a p next : more_in (set_phase a p) next = more_in a next.
Proof. by destruct next. Qed.

(** The words of a sector come in order, and the drive goes on to the next. *)
Lemma read_words_spec n buf next w :
  busy (abs w) = 0%nat -> phase (abs w) = In buf next -> length buf = (2 * S n)%nat -> Forall is_u8 buf ->
  exists w', read_words (S n) (iobase ch) w = (buf, w') /\ abs w' = more_in (abs w) next.
Proof.
  revert buf w. induction n as [|n IH]; intros buf w Hb Hp Hl Hu; rewrite read_words_S.
  all: destruct buf as [|b0 [|b1 buf]]; cbn [length] in Hl; [lia|lia|].
  all: apply list.Forall_cons in Hu as [Hu0 Hu]; apply list.Forall_cons in Hu as [Hu1 Hu].
  all: destruct (in_data w Hb) as [Hv Hw]; unfold word_read in Hv, Hw; rewrite Hp in Hv, Hw; cbn [fst snd] in Hv, Hw.
  all: destruct (inw (iobase ch) w) as [v w1]; cbn [fst snd] in Hv, Hw; subst v; destruct (read_word_bytes b0 b1 Hu0 Hu1) as [-> ->].
  - destruct buf; [|cbn in Hl; lia]. cbn [read_words]. eauto.
  - destruct buf as [|b2 buf]; cbn [length] in Hl; [lia|].
    destruct (IH (b2 :: buf) w1) as (w' & -> & E); [by rewrite Hw|by rewrite Hw|cbn [length]; lia|done|].
    exists w'. split; [done|]. by rewrite E, Hw, more_in_phase.
Qed.

Lemma more_in_sound c sz a next : sound c sz a -> sound c sz (more_in a next).
Proof. intros Hs. destruct next; by apply sound_enter. Qed.

Lemma seqZ_first s n : 0 < n -> seqZ s n = s :: seqZ (s + 1) (n - 1).
Proof. intros Hn. rewrite seqZ_cons by done. f_equal. Qed.

Lemma read_sectors_S fuel n w :
  read_sectors fuel (S n) ch w =
    ('(ok, w) ← poll fuel ch true true false w;
     if negb ok then Some (false, [], w)
     else
       let '(l, w) := read_words 256 (iobase ch) w in
       '(ok, l', w) ← read_sectors fuel n ch w;
       Some (ok, l ++ l', w)).
Proof. done. Qed.

(** [num] sectors, the first of which the drive has ready *)
Lemma read_sectors_spec fuel c sz d (n : nat) s w :
  (D < fuel)%nat -> blocks c -> sound c sz (abs w) -> drive (abs w) = d -> failed (abs w) = false ->
  phase (abs w) = In (c d s) (seqZ (s + 1) (Z.of_nat n)) ->
  exists w', read_sectors fuel (S n) ch w = Some (true, concat (c d <$> seqZ s (Z.of_nat (S n))), w') /\ ready c sz w'.
Proof.
  intros Hf Hc. revert s w. induction n as [|n IH]; intros s w Hs Hd Hfail Hp.
  all: rewrite read_sectors_S.
  all: destruct (poll_spec fuel w) as (w1 & -> & E1); [destruct Hs; lia|].
  all: unfold requesting; rewrite Hfail, Hp; cbn [negb andb mbind option_bind].
  all: destruct (Hc d s) as [Hlen Hu].
  all: edestruct (read_words_spec 255 (c d s)) as (w2 & E' & E2); [by rewrite E1|rewrite E1; exact Hp|by rewrite Hlen|done|].
  all: rewrite E'; clear E'.
  - cbn [read_sectors mbind option_bind]. exists w2. rewrite app_nil_r.
    split; [rewrite (seqZ_first s) by lia; cbn; by rewrite app_nil_r|].
    unfold ready. rewrite E2, E1. split; [by apply more_in_sound, sound_calm|done].
  - rewrite seqZ_first in E2 by lia. cbn [more_in] in E2. rewrite E1 in E2.
    destruct (IH (s + 1) w2) as (w3 & E3 & Hr).
    + rewrite E2. by apply sound_enter, sound_calm.
    + by rewrite E2.
    + by rewrite E2.
    + rewrite E2. cbn [phase enter]. change (drive (calm (abs w))) with (drive (abs w)).
      change (contents (calm (abs w))) with (contents (abs w)). rewrite Hd, (so_contents _ _ _ Hs). f_equal. f_equal; lia.
    + rewrite E3. cbn [mbind option_bind]. exists w3. split; [|done].
      rewrite (seqZ_first s) by lia. replace (Z.of_nat (S (S n)) - 1) with (Z.of_nat (S n)) by lia. done.
Qed.

Lemma doread_spec fuel c sz b junk sec num w :
  (D < fuel)%nat -> blocks c -> ready c sz w -> b = 0 \/ b = 1 -> 0 <= sec -> 0 < num < 256 -> sec + num <= 2 ^ 32 ->
  (sec + num <= 2 ^ 28 \/ (2 ^ 28 <= sec /\ Z.testbit junk 4 = false)) ->
  let d := b =? 1 in
  exists w', doread fuel junk (mkDisk ch b) sec num w
      = Some (if sz d <? sec + num then (false, [], w') else (true, concat (c d <$> seqZ sec num), w'))
    /\ ready c sz w'.
Proof.
  intros Hf Hc Hr Hb Hsec Hnum H32 Hside d. unfold doread.
  destruct (transfer_spec c sz b junk sec num false w Hr Hb Hsec Hnum H32 Hside) as (w1 & -> & Hs & Hd & Hph). cbn [negb chan].
  assert (Hn : u8 num = num) by (unfold u8, wrap; apply Z.mod_small; lia). rewrite Hn.
  destruct (Z.to_nat num) as [|n] eqn:En; [lia|]. fold d in Hd, Hph. destruct (sz d <? sec + num).
  - destruct Hph as [Hp Hfail]. rewrite read_sectors_S. destruct (poll_spec fuel w1) as (w2 & -> & E2); [destruct Hs; lia|].
    rewrite Hfail. cbn [negb andb mbind option_bind]. exists w2. split; [done|]. unfold ready. rewrite E2. split; [by apply sound_calm|done].
  - destruct Hph as [Hp Hfail]. replace (num - 1) with (Z.of_nat n) in Hp by lia.
    destruct (read_sectors_spec fuel c sz d n sec w1 Hf Hc Hs Hd Hfail Hp) as (w2 & -> & Hr2). exists w2.
    split; [|done]. by replace (Z.of_nat (S n)) with num by lia.
Qed.

(** ** Writing *)

Definition upd (c : bool -> Z -> list Z) (d : bool) (s : Z) (b : list Z) : bool -> Z -> list Z :=
  fun d' s' => if Bool.eqb d' d && (s' =? s) then b else c d' s'.

(** the sectors of a buffer from [s] on *)
Fixpoint put_all (c : bool -> Z -> list Z) (d : bool) (s : Z) (n : nat) (buffer : list Z) : bool -> Z -> list Z :=
  match n with
  | O => c
  | S n => put_all (upd c d s (take 512 buffer)) d (s + 1) n (drop 512 buffer)
  end.

Lemma write_word_bytes b0 b1 : is_u8 b0 -> is_u8 b1 ->
  Z.lor b0 (Z.shiftl b1 8) mod 2 ^ 8 = b0 /\ Z.lor b0 (Z.shiftl b1 8) / 2 ^ 8 mod 2 ^ 8 = b1.
Proof.
  intros H1' H2'. unfold is_u in *.
  rewrite lor_fields by lia. Z.div_mod_to_equations. lia.
Qed.

Lemma write_words_S n (q : Z) b0 b1 l w :
  write_words (S n) q (b0 :: b1 :: l) w = write_words n q l (outw q (Z.lor b0 (Z.shiftl b1 8)) w).
Proof. done. Qed.

(** The words of a sector fill it. *)
Lemma write_words_spec n l buf s next w :
  busy (abs w) = 0%nat -> phase (abs w) = Out buf s next -> length l = (2 * S n)%nat -> (length buf + length l = 512)%nat ->
  Forall is_u8 l ->
  abs (write_words (S n) (iobase ch) l w) = more_out (store (abs w) s (buf ++ l)) next.
Proof.
  revert l buf w. induction n as [|n IH]; intros l buf w Hb Hp Hl Hlen Hu.
  all: destruct l as [|b0 [|b1 l]]; cbn [length] in Hl, Hlen; [lia|lia|].
  all: apply list.Forall_cons in Hu as [Hu0 Hu]; apply list.Forall_cons in Hu as [Hu1 Hu].
  all: rewrite write_words_S; pose proof (out_data (Z.lor b0 (Z.shiftl b1 8)) w Hb) as Hw; unfold word_write in Hw.
  all: rewrite Hp in Hw; destruct (write_word_bytes b0 b1 Hu0 Hu1) as [E0 E1]; rewrite E0, E1 in Hw; cbn zeta in Hw.
  - destruct l; [|cbn in Hl; lia]. cbn [write_words]. rewrite Hw, length_app. cbn [length] in *.
    by replace (length buf + 2)%nat with 512%nat by lia.
  - rewrite length_app in Hw. cbn [length] in Hw.
    destruct (Nat.eqb_spec (length buf + 2) 512) as [E|_]; [cbn in Hlen; lia|].
    rewrite (IH l (buf ++ [b0; b1])); [|by rewrite Hw|by rewrite Hw|lia|rewrite length_app; cbn; lia|done].
    rewrite Hw, <- app_assoc. by destruct next.
Qed.

Lemma sound_store c sz a s b d : sound c sz a -> drive a = d -> sound (upd c d s b) sz (store a s b).
Proof.
  intros [Hc ? ? ?] Hd. split; [|by auto..]. intros d' s'. unfold upd, store. cbn [contents]. rewrite Hd.
  by destruct (Bool.eqb d' d && _).
Qed.

Lemma write_sectors_S fuel n buffer w :
  write_sectors fuel (S n) ch buffer w =
    ('(ok, w) ← poll fuel ch true true false w;
     if negb ok then Some (false, w)
     else write_sectors fuel n ch (drop 512 buffer) (write_words 256 (iobase ch) (take 512 buffer) w)).
Proof. done. Qed.

Lemma write_sectors_spec fuel c sz d (n : nat) s buffer w :
  (D < fuel)%nat -> sound c sz (abs w) -> drive (abs w) = d -> failed (abs w) = false ->
  phase (abs w) = Out [] s (seqZ (s + 1) (Z.of_nat n)) -> (512 * S n <= length buffer)%nat -> Forall is_u8 buffer ->
  exists w', write_sectors fuel (S n) ch buffer w = Some (true, w') /\ ready (put_all c d s (S n) buffer) sz w'.
Proof.
  intros Hf. revert c s buffer w. induction n as [|n IH]; intros c s buffer w Hs Hd Hfail Hp Hlen Hu.
  all: rewrite write_sectors_S; destruct (poll_spec fuel w) as (w1 & -> & E1); [destruct Hs; lia|].
  all: unfold requesting; rewrite Hfail, Hp; cbn [negb andb mbind option_bind].
  all: assert (Ew : abs (write_words 256 (iobase ch) (take 512 buffer) w1)
      = more_out (store (abs w1) s (take 512 buffer)) (seqZ (s + 1) (Z.of_nat _)))
    by (apply (write_words_spec 255 _ []); [by rewrite E1|rewrite E1; exact Hp|rewrite length_take; lia|
        cbn [length]; rewrite length_take; lia|by apply Forall_take]).
  all: assert (Hs1 : sound (upd c d s (take 512 buffer)) sz (store (abs w1) s (take 512 buffer)))
    by (rewrite E1; apply sound_store; [by apply sound_calm|done]).
  - cbn [write_sectors put_all]. eexists. split; [done|]. unfold ready. rewrite Ew. split; [by apply sound_enter|done].
  - rewrite seqZ_first in Ew by lia. cbn [more_out] in Ew.
    destruct (IH (upd c d s (take 512 buffer)) (s + 1) (drop 512 buffer) (write_words 256 (iobase ch) (take 512 buffer) w1))
      as (w2 & -> & Hr); [rewrite Ew; by apply sound_enter|by rewrite Ew, E1|by rewrite Ew| |rewrite length_drop; lia|by apply Forall_drop|by eauto].
    rewrite Ew. cbn [phase enter]. f_equal. f_equal; lia.
Qed.

Lemma dowrite_spec fuel c sz b junk sec num buffer w :
  (D < fuel)%nat -> ready c sz w -> b = 0 \/ b = 1 -> 0 <= sec -> 0 < num < 256 -> sec + num <= 2 ^ 32 ->
  (sec + num <= 2 ^ 28 \/ (2 ^ 28 <= sec /\ Z.testbit junk 4 = false)) ->
  (512 * Z.to_nat num <= length buffer)%nat -> Forall is_u8 buffer ->
  let d := b =? 1 in
  exists w', dowrite fuel junk (mkDisk ch b) sec num buffer w = Some (negb (sz d <? sec + num), w')
    /\ ready (if sz d <? sec + num then c else put_all c d sec (Z.to_nat num) buffer) sz w'.
Proof.
  intros Hf Hr Hb Hsec Hnum H32 Hside Hlen Hu d. unfold dowrite.
  destruct (transfer_spec c sz b junk sec num true w Hr Hb Hsec Hnum H32 Hside) as (w1 & -> & Hs & Hd & Hph). cbn [negb chan].
  assert (Hn : u8 num = num) by (unfold u8, wrap; apply Z.mod_small; lia). rewrite Hn.
  destruct (Z.to_nat num) as [|n] eqn:En; [lia|]. fold d in Hd, Hph. destruct (sz d <? sec + num); cbn [negb].
  - destruct Hph as [Hp Hfail]. rewrite write_sectors_S. destruct (poll_spec fuel w1) as (w2 & -> & E2); [destruct Hs; lia|].
    rewrite Hfail. cbn [negb andb mbind option_bind]. exists w2. split; [done|]. unfold ready. rewrite E2. split; [by apply sound_calm|done].
  - destruct Hph as [Hp Hfail]. replace (num - 1) with (Z.of_nat n) in Hp by lia.
    destruct (write_sectors_spec fuel c sz d n sec buffer w1 Hf Hs Hd Hfail Hp Hlen Hu) as (w2 & -> & Hs2 & Hp2).
    cbn [mbind option_bind negb]. set (p := params _ _ _ _ _ _). set (w3 := write_reg ch gCommandRegister (flushcmd p) w2).
    assert (H3 : ready (put_all c d sec (S n) buffer) sz w3).
    { unfold ready, w3. rewrite abs_write_reg by (unfold gCommandRegister; lia). unfold reg_write.
      destruct (0 <? busy (abs w2))%nat; [by split|].
      assert (Ef : run (abs w2) (flushcmd p) = enter (abs w2) Idle false)
        by (unfold p, params; destruct (sec >=? 0x10000000); reflexivity).
      change (run (abs w2) (flushcmd p)) with (run (abs w2) (flushcmd p)). cbn [Z.eqb gCommandRegister Pos.eqb]. rewrite Ef.
      split; [by apply sound_enter|done]. }
    destruct H3 as [Hs3 Hp3]. destruct (poll_unchecked fuel w3) as (w4 & -> & E4); [destruct Hs3; lia|].
    exists w4. split; [done|]. unfold ready. rewrite E4. split; [by apply sound_calm|done].
Qed.

(** ** Any number of sectors *)

Lemma seqZ_split s n m : 0 <= n -> 0 <= m -> seqZ s (n + m) = seqZ s n ++ seqZ (s + n) m.
Proof. intros Hn Hm. by rewrite seqZ_app by lia. Qed.

Lemma sides sec n num junk :
  (sec + num <= 2 ^ 28 \/ (2 ^ 28 <= sec /\ Z.testbit junk 4 = false)) -> 0 <= n <= num ->
  (sec + n <= 2 ^ 28 \/ (2 ^ 28 <= sec /\ Z.testbit junk 4 = false))
  /\ (sec + n + (num - n) <= 2 ^ 28 \/ (2 ^ 28 <= sec + n /\ Z.testbit junk 4 = false)).
Proof. intros [?|[? ?]] ?; split; try (left; lia); right; split; done || lia. Qed.

Lemma read_turns_spec turns fuel c sz b junk sec num w :
  (D < fuel)%nat -> blocks c -> ready c sz w -> b = 0 \/ b = 1 -> 0 <= sec -> 0 <= num <= 255 * (Z.of_nat turns + 1) ->
  sec + num <= 2 ^ 32 -> sec + num <= sz (b =? 1) ->
  (sec + num <= 2 ^ 28 \/ (2 ^ 28 <= sec /\ Z.testbit junk 4 = false)) ->
  exists w', read_turns turns fuel junk (mkDisk ch b) sec num w = Some (true, concat (c (b =? 1) <$> seqZ sec num), w')
    /\ ready c sz w'.
Proof.
  intros Hf Hc. revert sec num w. induction turns as [|turns IH]; intros sec num w Hr Hb Hsec Hnum H32 Hsz Hside.
  all: cbn [read_turns]; unfold implseclimit; rewrite Z.gtb_ltb; destruct (Z.ltb_spec 255 num) as [Hlt|Hle]; [|].
  all: try lia.
  1,3: destruct (Z.eqb_spec num 0) as [->|Hne]; cbn [negb]; [by exists w|].
  1,2: destruct (doread_spec fuel c sz b junk sec num w Hf Hc Hr Hb Hsec ltac:(lia) ltac:(lia) Hside) as (w' & E & Hr');
    destruct (Z.ltb_spec (sz (b =? 1)) (sec + num)) as [?|_]; [lia|by eauto].
  destruct (sides sec 255 num junk Hside) as [Hs1 Hs2]; [lia..|].
  destruct (doread_spec fuel c sz b junk sec 255 w Hf Hc Hr Hb Hsec ltac:(lia) ltac:(lia) Hs1) as (w1 & E & Hr1).
  destruct (Z.ltb_spec (sz (b =? 1)) (sec + 255)) as [?|_]; [lia|]. rewrite E. cbn [mbind option_bind negb].
  rewrite u32_id by (unfold is_u; lia).
  destruct (IH (sec + 255) (num - 255) w1 Hr1 Hb) as (w2 & -> & Hr2); [lia..|done|]. cbn [mbind option_bind].
  exists w2. split; [|done]. replace num with (255 + (num - 255)) at 2 by lia. rewrite seqZ_split by lia.
  by rewrite fmap_app, concat_app.
Qed.

Lemma put_all_app c d s n m buffer :
  put_all c d s (n + m) buffer = put_all (put_all c d s n buffer) d (s + Z.of_nat n) m (drop (512 * n) buffer).
Proof.
  revert c s buffer. induction n as [|n IH]; intros c s buffer; cbn [Nat.add put_all].
  - by rewrite Z.add_0_r.
  - rewrite IH, drop_drop. f_equal; [lia|f_equal; lia].
Qed.

Lemma write_turns_spec turns fuel c sz b junk sec num buffer w :
  (D < fuel)%nat -> ready c sz w -> b = 0 \/ b = 1 -> 0 <= sec -> 0 <= num <= 255 * (Z.of_nat turns + 1) ->
  sec + num <= 2 ^ 32 -> sec + num <= sz (b =? 1) ->
  (sec + num <= 2 ^ 28 \/ (2 ^ 28 <= sec /\ Z.testbit junk 4 = false)) ->
  (512 * Z.to_nat num <= length buffer)%nat -> Forall is_u8 buffer ->
  exists w', write_turns turns fuel junk (mkDisk ch b) sec num buffer w = Some (true, w')
    /\ ready (put_all c (b =? 1) sec (Z.to_nat num) buffer) sz w'.
Proof.
  intros Hf. revert c sec num buffer w. induction turns as [|turns IH]; intros c sec num buffer w Hr Hb Hsec Hnum H32 Hsz Hside Hlen Hu.
  all: cbn [write_turns]; unfold implseclimit; rewrite Z.gtb_ltb; destruct (Z.ltb_spec 255 num) as [Hlt|Hle]; [|].
  all: try lia.
  1,3: destruct (Z.eqb_spec num 0) as [->|Hne]; cbn [negb]; [by exists w|].
  1,2: destruct (dowrite_spec fuel c sz b junk sec num buffer w Hf Hr Hb Hsec ltac:(lia) ltac:(lia) Hside Hlen Hu) as (w' & E & Hr');
    destruct (Z.ltb_spec (sz (b =? 1)) (sec + num)) as [?|_]; [lia|by eauto].
  destruct (sides sec 255 num junk Hside) as [Hs1 Hs2]; [lia..|].
  destruct (dowrite_spec fuel c sz b junk sec 255 buffer w Hf Hr Hb Hsec ltac:(lia) ltac:(lia) Hs1 ltac:(lia) Hu) as (w1 & E & Hr1).
  destruct (Z.ltb_spec (sz (b =? 1)) (sec + 255)) as [?|_]; [lia|]. rewrite E. cbn [mbind option_bind negb].
  rewrite u32_id by (unfold is_u; lia).
  destruct (IH _ (sec + 255) (num - 255) (drop (Z.to_nat (255 * 512)) buffer) w1 Hr1 Hb) as (w2 & -> & Hr2);
    [lia..|done|rewrite length_drop; lia|by apply Forall_drop|].
  exists w2. split; [done|]. replace (Z.to_nat num) with (Z.to_nat 255 + Z.to_nat (num - 255))%nat by lia.
  rewrite put_all_app. replace (sec + Z.of_nat (Z.to_nat 255)) with (sec + 255) by lia.
  by replace (512 * Z.to_nat 255)%nat with (Z.to_nat (255 * 512)) by lia.
Qed.

(** Where the sectors of a buffer end up. *)
Lemma put_all_lookup c d s n buffer d' s' :
  put_all c d s n buffer d' s'
  = if Bool.eqb d' d && (s <=? s') && (s' <? s + Z.of_nat n) then take 512 (drop (512 * Z.to_nat (s' - s)) buffer) else c d' s'.
Proof.
  clear D_small D.
  revert c s buffer. induction n as [|n IH]; intros c s buffer; cbn [put_all].
  - destruct (Z.leb_spec s s'), (Z.ltb_spec s' (s + Z.of_nat 0)); rewrite ?andb_false_r; done || lia.
  - rewrite IH. unfold upd. destruct (Bool.eqb d' d); cbn [andb]; [|done].
    destruct (Z.leb_spec (s + 1) s'), (Z.ltb_spec s' (s + 1 + Z.of_nat n)), (Z.leb_spec s s'), (Z.ltb_spec s' (s + Z.of_nat (S n))),
      (Z.eqb_spec s' s); cbn [andb]; try lia; try done.
    + rewrite drop_drop. do 2 f_equal. lia.
    + subst s'. by rewrite Z.sub_diag.
Qed.

End Disk.
End Channel.
End Proofs.

(** the disk driver reads and writes the sectors it is asked for.  On a channel whose
    drives behave as the ATA standard says and are never busy for 500 readings of the
    status, a read of any number of sectors of a drive returns their contents and changes
    nothing, and a write stores the buffer in them, sector by sector, and touches no other
    sector of either drive; both leave the channel ready for the next call.  Sectors
    from 2^28 on need the uninitialised byte of the selector to have bit 4 clear. *)
Theorem ide_moves_sectors {W} `{AtaChannel W ch} (D fuel : nat) (c : bool -> Z -> list Z) (sz : bool -> Z)
    (b junk sec num : Z) (w : W) :
  (D < 500)%nat -> (D < fuel)%nat -> Proofs.blocks c -> Proofs.ready D c sz w ->
  b = 0 \/ b = 1 -> 0 <= sec -> 0 <= num < 2 ^ 16 -> sec + num <= 2 ^ 32 -> sec + num <= sz (b =? 1) ->
  (sec + num <= 2 ^ 28 \/ (2 ^ 28 <= sec /\ Z.testbit junk 4 = false)) ->
  (exists w', Ide.read fuel junk (Ide.mkDisk ch b) sec num w = Some (true, concat (c (b =? 1) <$> seqZ sec num), w')
     /\ Proofs.ready D c sz w')
  /\ (forall buffer, length buffer = (512 * Z.to_nat num)%nat -> Forall is_u8 buffer ->
      exists w' c', Ide.write fuel junk (Ide.mkDisk ch b) sec num buffer w = Some (true, w') /\ Proofs.ready D c' sz w'
        /\ forall d s, c' d s = if Bool.eqb d (b =? 1) && (sec <=? s) && (s <? sec + num)
                                then take 512 (drop (512 * Z.to_nat (s - sec)) buffer) else c d s).
Proof.
  intros HD Hf Hc Hr Hb Hsec Hnum H32 Hsz Hside. split.
  - unfold Ide.read. by apply (Proofs.read_turns_spec D HD); [..|lia| | |].
  - intros buffer Hlen Hu. unfold Ide.write.
    destruct (Proofs.write_turns_spec D HD (Z.to_nat num) fuel c sz b junk sec num buffer w) as (w' & E & Hr'); try done; [lia..|].
    eexists w', _. split; [exact E|]. split; [exact Hr'|]. intros d s.
    rewrite Proofs.put_all_lookup. by replace (Z.of_nat (Z.to_nat num)) with num by lia.
Qed.

(** ** A drive is a block device *)

Module BlockStore.

Record disk := mkStore { data : Z -> block; count : Z }.

#[global] Instance store_device : Device disk := {|
  doRead d s := if s <? count d then Some (data d s) else None;
  doWrite d s b := if s <? count d then Some (mkStore (fun s' => if s' =? s then b else data d s') (count d)) else None |}.

#[global] Instance store_laws : DeviceLaws disk.
Proof.
  split.
  - intros d s b d' _. cbn. destruct (s <? count d) eqn:E; [|done]. intros [= <-]. cbn. by rewrite E, Z.eqb_refl.
  - intros d s b d' s' _ _. cbn. destruct (s <? count d); [|done]. intros [= <-] Hne. cbn.
    by destruct (Z.eqb_spec s' s).
Qed.

Inductive op := Rd (s : Z) | Wr (s : Z) (b : block).

(** The answers of any device: the sector that was read, nothing for a failure. *)
Definition step {D} `{Device D} (d : D) (o : op) : option block * D :=
  match o with
  | Rd s => (doRead d s, d)
  | Wr s b => match doWrite d s b with Some d' => (Some [], d') | None => (None, d) end
  end.
Fixpoint steps {D} `{Device D} (d : D) (l : list op) : list (option block) * D :=
  match l with
  | [] => ([], d)
  | o :: l => let '(r, d) := step d o in let '(rs, d) := steps d l in (r :: rs, d)
  end.

(** The same through the driver; each call finds some byte on its stack. *)
Section Drive.
Context {W : Type} `{Ports W} `{WordPorts W} (fuel : nat) (disk : Ide.disk_t).

Definition ide_step (junk : Z) (o : op) (w : W) : option (option block * W) :=
  match o with
  | Rd s => '(ok, l, w) ← Ide.read fuel junk disk s 1 w; Some (if ok : bool then Some l else None, w)
  | Wr s b => '(ok, w) ← Ide.write fuel junk disk s 1 b w; Some (if ok : bool then Some [] else None, w)
  end.
Fixpoint ide_steps (l : list (Z * op)) (w : W) : option (list (option block) * W) :=
  match l with
  | [] => Some ([], w)
  | (junk, o) :: l => '(r, w) ← ide_step junk o w; '(rs, w) ← ide_steps l w; Some (r :: rs, w)
  end.
End Drive.

(** A call with a 32-bit sector, a whole block, and a good byte if the sector is large *)
Definition valid (jo : Z * op) : Prop :=
  let s := match jo.2 with Rd s | Wr s _ => s end in
  is_u32 s /\ (s < 2 ^ 28 \/ Z.testbit jo.1 4 = false)
  /\ match jo.2 with Rd _ => True | Wr _ b => length b = 512%nat /\ Forall is_u8 b end.

Section Proof.
Context {W : Type} `{AtaChannel W ch} (D fuel : nat) (D_small : (D < 500)%nat) (D_fuel : (D < fuel)%nat).
Context (sz : bool -> Z) (b : Z) (b_ok : b = 0 \/ b = 1).

(** The drive holds what the store holds; the other one holds [other]. *)
Record shows (other : Z -> block) (st : disk) (w : W) : Prop := {
  sh_contents : exists c, Proofs.blocks c /\ Proofs.ready D c sz w
    /\ (forall s, c (b =? 1) s = data st s) /\ (forall s, c (negb (b =? 1)) s = other s);
  sh_count : count st = sz (b =? 1) }.

Lemma step_shows other st w jo : shows other st w -> valid jo ->
  exists w', ide_step fuel (Ide.mkDisk ch b) jo.1 jo.2 w = Some ((step st jo.2).1, w') /\ shows other (step st jo.2).2 w'.
Proof.
  destruct jo as [junk o]. intros [(c & Hc & Hr & Hd & Ho) Hcount] (Hs & Hj & Hb). cbn [fst snd] in *.
  assert (Hside : forall s, (s < 2 ^ 28 \/ Z.testbit junk 4 = false) -> s + 1 <= 2 ^ 28 \/ (2 ^ 28 <= s /\ Z.testbit junk 4 = false)).
  { intros s Hx. destruct (Z.lt_ge_cases s (2 ^ 28)); [left; lia|right]. destruct Hx; [lia|done]. }
  unfold is_u in Hs. destruct o as [s|s blk]; cbn [ide_step step doRead doWrite store_device].
  - change (Ide.read fuel junk (Ide.mkDisk ch b) s 1 w) with (Ide.doread fuel junk (Ide.mkDisk ch b) s 1 w).
    destruct (Proofs.doread_spec D D_small fuel c sz b junk s 1 w D_fuel Hc Hr b_ok ltac:(lia) ltac:(lia) ltac:(lia) (Hside s Hj))
      as (w' & -> & Hr'). cbn zeta. cbn [mbind option_bind]. exists w'. rewrite Hcount.
    destruct (Z.ltb_spec (sz (b =? 1)) (s + 1)), (Z.ltb_spec s (sz (b =? 1))); try lia; cbn [mbind option_bind fst snd].
    + split; [done|]. split; [by exists c|done].
    + split; [|split; [by exists c|done]]. rewrite Proofs.seqZ_first by lia. cbn. by rewrite app_nil_r, Hd.
  - destruct Hb as [Hlen Hu].
    change (Ide.write fuel junk (Ide.mkDisk ch b) s 1 blk w) with (Ide.dowrite fuel junk (Ide.mkDisk ch b) s 1 blk w).
    destruct (Proofs.dowrite_spec D D_small fuel c sz b junk s 1 blk w D_fuel Hr b_ok ltac:(lia) ltac:(lia) ltac:(lia) (Hside s Hj)
      ltac:(cbn; lia) Hu) as (w' & -> & Hr'). cbn zeta in Hr'. cbn [mbind option_bind]. exists w'. rewrite Hcount.
    destruct (Z.ltb_spec (sz (b =? 1)) (s + 1)), (Z.ltb_spec s (sz (b =? 1))); try lia; cbn [negb fst snd].
    + split; [done|]. split; [by exists c|done].
    + split; [done|]. split; [|done]. exists (Proofs.upd c (b =? 1) s blk).
      assert (Ht : take 512 blk = blk) by (apply take_ge; lia). 
      change (Proofs.put_all c (b =? 1) s (Z.to_nat 1) blk) with (Proofs.upd c (b =? 1) s (take 512 blk)) in Hr'.
      rewrite Ht in Hr'. split_and!; [|exact Hr'| |].
      * intros d s'. unfold Proofs.upd. destruct (Bool.eqb d (b =? 1) && (s' =? s)); [done|apply Hc].
      * intros s'. unfold Proofs.upd. cbn [data]. rewrite Bool.eqb_reflx. cbn [andb]. by destruct (s' =? s).
      * intros s'. rewrite <- Ho. unfold Proofs.upd. by destruct (b =? 1).
Qed.

Lemma steps_shows other l st w : shows other st w -> Forall valid l ->
  exists w', ide_steps fuel (Ide.mkDisk ch b) l w = Some ((steps st l.*2).1, w') /\ shows other (steps st l.*2).2 w'.
Proof.
  intros Hsh Hl. revert st w Hsh. induction Hl as [|[junk o] l Hv Hl IH]; intros st w Hsh; [by exists w|].
  destruct (step_shows other st w (junk, o) Hsh Hv) as (w1 & E1 & Hsh1). cbn [ide_steps fst snd] in *. rewrite E1.
  cbn [mbind option_bind]. cbn [fmap list_fmap steps snd]. destruct (step st o) as [r st1]. cbn [fst snd] in *.
  destruct (IH st1 w1 Hsh1) as (w2 & -> & Hsh2). cbn [mbind option_bind].
  change (list_fmap (Z * op)%type op snd l) with (l.*2). destruct (steps st1 l.*2) as [rs st2]. cbn [fst snd] in *. by exists w2.
Qed.
End Proof.
End BlockStore.


(** ** A channel

    The drives themselves, at the ports of the first channel of a PC. *)
Module Cable.
Import Ata.

Definition ch : Ide.channel_t := Ide.mkChannel 0x1F0 0x3F4 0 1.

#[global] Instance ata_ports : Ports ata := {|
  inb p a := if p =? 0x1F7 then (status a, status_read a) else if p =? 0x3F6 then (status a, status_read a) else (0, a);
  outb p v a := if (0x1F2 <=? p) && (p <=? 0x1F7) then reg_write a (p - 0x1F0) v else a;
  inl_ p a := (0, a);
  outl p v a := a |}.
#[global] Instance ata_words : WordPorts ata := {|
  inw p a := if p =? 0x1F0 then word_read a else (0, a);
  outw p v a := if p =? 0x1F0 then word_write a v else a |}.

#[global] Instance ata_channel : AtaChannel ata ch.
Proof.
  refine {| abs := fun a => a |}.
  - done.
  - done.
  - intros a. exists (Nat.pred (busy a)). split; [lia|done].
  - done.
  - intros r v a Hr. assert (Hc : u16 (Ide.iobase ch + r) = 0x1F0 + r) by (unfold u16, wrap; cbn; apply Z.mod_small; lia).
    rewrite Hc. cbn [outb ata_ports]. destruct (Z.leb_spec 0x1F2 (0x1F0 + r)), (Z.leb_spec (0x1F0 + r) 0x1F7); try lia.
    cbn [andb]. f_equal. lia.
  - done.
  - done.
  - done.
Defined.

(** 1000 sectors on the master and 2^29 on the slave; a drive is busy for three readings *)
Definition sector (d : bool) (s : Z) : list Z := replicate 512 (u8 (s + (if d then 100 else 0))).
Definition sz (d : bool) : Z := if d then 2 ^ 29 else 1000.
Definition start : ata := mkAta sector sz (0, 0) (0, 0) (0, 0) (0, 0) 0 2 Idle false (fun _ => 3%nat).

Lemma sectors_ok : Proofs.blocks sector.
Proof.
  intros d s. split; [apply length_replicate|]. apply list.Forall_forall. intros x Hx. apply elem_of_replicate in Hx as [-> _].
  unfold is_u, u8, wrap. apply Z.mod_pos_bound. lia.
Qed.

Lemma start_ready : Proofs.ready (ch := ch) 3 sector sz start.
Proof. split; [|done]. split; cbn; auto. Qed.
End Cable.

(** Two sectors of the slave. *)
Lemma ide_moves_sectors_witness :
  exists w', Ide.read 10 0 (Ide.mkDisk Cable.ch 1) 7 2 Cable.start
    = Some (true, Cable.sector true 7 ++ Cable.sector true 8, w').
Proof.
  destruct (ide_moves_sectors (ch := Cable.ch) 3 10 Cable.sector Cable.sz 1 0 7 2 Cable.start) as [(w' & E & _) _];
    [lia|lia|exact Cable.sectors_ok|exact Cable.start_ready|by right|lia|lia|lia|by vm_compute|left; lia|].
  exists w'. rewrite E. change (seqZ 7 2) with [7; 8]. cbn [fmap list_fmap concat]. by rewrite app_nil_r.
Defined.


(** ** Defects *)

(** The byte of the selector that is not initialised for large sectors decides which
    drive answers: with bit 4 set, a read from the master returns the sector of the
    slave. *)
Example large_sector_reaches_slave :
  option_map fst (Ide.read 10 0x10 (Ide.mkDisk Cable.ch 0) (2 ^ 28) 1
    (Ata.mkAta Cable.sector (fun _ => 2 ^ 29) (0, 0) (0, 0) (0, 0) (0, 0) 0 2 Ata.Idle false (fun _ => 3%nat)))
  = Some (true, Cable.sector true (2 ^ 28)).
Proof. vm_compute. reflexivity. Qed.

(** The control register is two ports above its base, and the default base is already the
    port of the register: on a controller in compatibility mode the driver uses the
    first serial port instead. *)
Example default_control_port (h : Pci.pci_hdr_0) :
  Pci.bar0 h = 0 -> Pci.bar1 h = 0 -> Pci.bar2 h = 0 -> Pci.bar3 h = 0 -> Pci.bar4 h = 0 ->
  option_map (fun c => Ide.port c.1 Ide.gControlRegister) (Ide.channels h) = Some (Some 0x3F8).
Proof. intros H0 H1 H2 H3 H4. unfold Ide.channels. by rewrite H0, H1, H2, H3, H4. Qed.

(** The loop that copies the serial number moves by one and undoes half of its work: the
    bytes come out shifted and not swapped. *)
Example serial_is_scrambled :
  take 4 (Ide.serial_of (replicate 20 0 ++ [66; 65; 68; 67; 70; 69] ++ replicate 486 0)) = [65; 68; 67; 70]
  /\ take 4 (Ide.model_of (replicate 54 0 ++ [66; 65; 68; 67] ++ replicate 454 0)) = [65; 66; 67; 68].
Proof. vm_compute. done. Qed.
