(* ===== verification/Dlfcn.v ===== *)
(** * Dynamic libraries (src/newlib/syscalls/dlfcn.cpp, src/newlib/syscalls/vm.cpp,
    kernel/include/process/elf.h)

    [Vm] is the memory of a user program as the class [UserVm]: bytes that can be
    loaded and stored, and the two system calls on regions; [Dl] reads an ELF library
    from its file, maps and relocates it, runs its initialisers and looks up symbols.
    A result [None] is an access outside of a buffer or of the mapped memory. *)

From stdpp Require Import base numbers list gmap option.
From Stdlib Require Import ZArith Lia Bool.
From S2P Require Import Prelude Cpu Loader.

Local Open Scope Z_scope.

(** ** The memory of a program *)

Module Vm.

Class UserVm (W : Type) := {
  load : W -> Z -> option Z;
  store : W -> Z -> Z -> option W;
  mapregion_syscall : W -> Z -> Z -> Z * W;
  setregionperms_syscall : W -> Z -> Z -> Z * W;
}.

Definition VM_REGION_READONLY : Z := 0.
Definition VM_REGION_READWRITE : Z := 1.
Definition REGION_ALLOW_WRITE : Z := 1.

Section Vm.
Context {W : Type} `{!UserVm W}.

Definition region_perm (perm : Z) : Z := if perm =? VM_REGION_READWRITE then REGION_ALLOW_WRITE else 0.

(** 0 is the null pointer *)
Definition mapregion (w : W) (sz perm : Z) : Z * W :=
  let '(mo, w) := mapregion_syscall w sz (region_perm perm) in
  (if negb (Z.land mo 1 =? 0) then 0 else mo, w).

Definition protect (w : W) (p perm : Z) : Z * W :=
  let '(mo, w) := setregionperms_syscall w p (region_perm perm) in
  (if mo =? 0 then mo else -1, w).

(** [memcpy] from a buffer that is not in [W], and [bzero] *)
Fixpoint store_list (w : W) (a : Z) (l : list Z) : option W :=
  match l with
  | [] => Some w
  | b :: l => w ← store w a b; store_list w (u32 (a + 1)) l
  end.

Fixpoint load_list (w : W) (a : Z) (n : nat) : option (list Z) :=
  match n with
  | O => Some []
  | S n => b ← load w a; l ← load_list w (u32 (a + 1)) n; Some (b :: l)
  end.

Definition load_word (w : W) (a : Z) : option Z := l ← load_list w a 4; Some (Bytes.word l).
Definition store_word (w : W) (a v : Z) : option W := store_list w a (Bytes.bytes 4 v).

End Vm.
End Vm.

(** ** Libraries *)

Module Dl.
Import Bytes Elf Vm.

Definition gPageSize : Z := 4096.
Definition gMaxProgramHeaders : Z := 10.

Definition roundToPages (s : Z) : Z :=
  let mod_ := s mod gPageSize in
  if mod_ =? 0 then s else u32 (s - mod_ + gPageSize).

(** *** The file *)

Record elf_section_t := mkSection {
  sh_name : Z; sh_type : Z; sh_flags : Z; sh_addr : Z; sh_offset : Z; sh_size : Z; sh_link : Z; sh_info : Z;
  sh_addralign : Z; sh_entsize : Z;
}.

Definition section_of (l : list Z) : elf_section_t :=
  mkSection (field l 0 4) (field l 4 4) (field l 8 4) (field l 12 4) (field l 16 4) (field l 20 4) (field l 24 4)
    (field l 28 4) (field l 32 4) (field l 36 4).

Definition dynamicInfo (s : elf_section_t) : bool := sh_type s =? 0xb.
Definition stringTable (s : elf_section_t) : bool := sh_type s =? 0x3.
Definition symbolTable (s : elf_section_t) : bool := sh_type s =? 0x2.
Definition p_dynamicInfo (p : elf_program_t) : bool := p_type p =? 0x2.

Record elf_symtab_entry_t := mkSymbol { st_name : Z; st_value : Z; st_size : Z; st_info : Z; st_other : Z; st_secheader : Z }.

Definition symbol_of (l : list Z) : elf_symtab_entry_t :=
  mkSymbol (field l 0 4) (field l 4 4) (field l 8 4) (field l 12 1) (field l 13 1) (field l 14 2).

Record elf_rel_t := mkRel { r_offset : Z; r_info : Z }.

Definition rel_of (l : list Z) : elf_rel_t := mkRel (field l 0 4) (field l 4 4).
Definition kind (r : elf_rel_t) : Z := Z.land (r_info r) 0xFF.
Definition idx (r : elf_rel_t) : Z := Z.shiftr (r_info r) 8.

Definition R_386_32 : Z := 1.
Definition R_386_PC32 : Z := 2.

(** [n] bytes of the buffer [f] that holds the file, from [off] on *)
Definition read_at (f : list Z) (off n : Z) : option (list Z) :=
  if (0 <=? off) && (0 <=? n) && (off + n <=? Z.of_nat (length f))
  then Some (take (Z.to_nat n) (drop (Z.to_nat off) f)) else None.

Definition header (f : list Z) : option elf_header_t := l ← read_at f 0 52; Some (header_of l).
Definition section (f : list Z) (h : elf_header_t) (n : Z) : option elf_section_t :=
  l ← read_at f (shoff h + 40 * n) 40; Some (section_of l).
Definition program (f : list Z) (h : elf_header_t) (n : Z) : option elf_program_t :=
  l ← read_at f (phoff h + 32 * n) 32; Some (program_of l).

(** The loops over [shnum] sections and [phnum] program headers, from [i] on for [n]
    turns; the inner option is the null pointer *)
Fixpoint find_section (p : elf_section_t -> bool) (f : list Z) (h : elf_header_t) (i : Z) (n : nat)
    : option (option elf_section_t) :=
  match n with
  | O => Some None
  | S n => s ← section f h i; if (p s : bool) then Some (Some s) else find_section p f h (i + 1) n
  end.

Fixpoint find_program (p : elf_program_t -> bool) (f : list Z) (h : elf_header_t) (i : Z) (n : nat)
    : option (option elf_program_t) :=
  match n with
  | O => Some None
  | S n => s ← program f h i; if (p s : bool) then Some (Some s) else find_program p f h (i + 1) n
  end.

Definition getDynamicSymbols (f : list Z) (h : elf_header_t) : option (option elf_section_t) :=
  find_section dynamicInfo f h 0 (Z.to_nat (shnum h)).
Definition getSymbolTable (f : list Z) (h : elf_header_t) : option (option elf_section_t) :=
  find_section symbolTable f h 0 (Z.to_nat (shnum h)).
Definition getDynamic (f : list Z) (h : elf_header_t) : option (option elf_program_t) :=
  find_program p_dynamicInfo f h 0 (Z.to_nat (phnum h)).

(** *** The image *)

Record ph_load_info := mkInfo { offset : Z; size : Z; start : Z; virt_start : Z; virt_end : Z; readonly : bool }.

Record rel_info_t := mkRelInfo { rel_offset : Z; entry_size : Z; table_size : Z }.

Definition rel_info_ok (r : rel_info_t) : bool :=
  negb (rel_offset r =? 0) && negb (entry_size r =? 0) && negb (table_size r =? 0).
Definition rel_count (r : rel_info_t) : Z := table_size r / entry_size r.
(** [get]: the entries are as long as the type is, whatever [entry_size] says *)
Definition rel_get (r : rel_info_t) (f : list Z) (n : Z) : option elf_rel_t :=
  l ← read_at f (rel_offset r + 8 * n) 8; Some (rel_of l).

Record array_t := mkArray { location : Z; array_size : Z }.

(** [headers]: the entries of [info] below [count] *)
Record loaded_elf_image_t := mkImage {
  path : list Z; stringtab : list Z; symbols : list elf_symtab_entry_t; headers : list ph_load_info;
  rela : rel_info_t; rel : rel_info_t; init_array : array_t; fini_array : array_t;
}.

Definition blank (path : list Z) : loaded_elf_image_t :=
  mkImage path [] [] [] (mkRelInfo 0 0 0) (mkRelInfo 0 0 0) (mkArray 0 0) (mkArray 0 0).

Definition set_headers (f : list ph_load_info -> list ph_load_info) (d : loaded_elf_image_t) : loaded_elf_image_t :=
  mkImage (path d) (stringtab d) (symbols d) (f (headers d)) (rela d) (rel d) (init_array d) (fini_array d).
Definition set_stringtab (l : list Z) (d : loaded_elf_image_t) : loaded_elf_image_t :=
  mkImage (path d) l (symbols d) (headers d) (rela d) (rel d) (init_array d) (fini_array d).
Definition set_symbols (l : list elf_symtab_entry_t) (d : loaded_elf_image_t) : loaded_elf_image_t :=
  mkImage (path d) (stringtab d) l (headers d) (rela d) (rel d) (init_array d) (fini_array d).
Definition set_rel (g : rel_info_t -> rel_info_t) (d : loaded_elf_image_t) : loaded_elf_image_t :=
  mkImage (path d) (stringtab d) (symbols d) (headers d) (rela d) (g (rel d)) (init_array d) (fini_array d).
Definition set_rela (g : rel_info_t -> rel_info_t) (d : loaded_elf_image_t) : loaded_elf_image_t :=
  mkImage (path d) (stringtab d) (symbols d) (headers d) (g (rela d)) (rel d) (init_array d) (fini_array d).
Definition set_init (g : array_t -> array_t) (d : loaded_elf_image_t) : loaded_elf_image_t :=
  mkImage (path d) (stringtab d) (symbols d) (headers d) (rela d) (rel d) (g (init_array d)) (fini_array d).
Definition set_fini (g : array_t -> array_t) (d : loaded_elf_image_t) : loaded_elf_image_t :=
  mkImage (path d) (stringtab d) (symbols d) (headers d) (rela d) (rel d) (init_array d) (g (fini_array d)).

(** 0: not in any segment *)
Fixpoint findRealAddress (l : list ph_load_info) (off : Z) : Z :=
  match l with
  | [] => 0
  | phdr :: l =>
      if (start phdr <=? off) && (off <? u32 (start phdr + size phdr))
      then u32 (virt_start phdr + off - start phdr) else findRealAddress l off
  end.

(** *** Loading *)

Section Load.
Context {W : Type} `{!UserVm W}.

Definition do_copy_program (w : W) (f : list Z) (dst : Z) (phdr : elf_program_t) : option W :=
  let len := p_memsz phdr in
  let flen := p_filesz phdr in
  l ← read_at f (p_offset phdr) (if len =? flen then len else flen);
  store_list w dst l.

(** [false]: the library cannot be loaded; what was mapped stays mapped *)
Definition do_load_program (w : W) (f : list Z) (phdr : elf_program_t) (dest : loaded_elf_image_t)
    : option (bool * loaded_elf_image_t * W) :=
  if negb (loadable phdr) then Some (true, dest, w)
  else if negb (p_align phdr =? gPageSize) then Some (false, dest, w)
  else
    let rgn_size := roundToPages (p_memsz phdr) in
    let '(rgn_ptr, w) := mapregion w rgn_size VM_REGION_READWRITE in
    if rgn_ptr =? 0 then Some (false, dest, w)
    else
      w ← store_list w rgn_ptr (replicate (Z.to_nat rgn_size) 0);
      w ← do_copy_program w f rgn_ptr phdr;
      let info := mkInfo (p_offset phdr) (p_memsz phdr) (p_vaddr phdr) rgn_ptr (u32 (rgn_ptr + p_memsz phdr - 1))
                    (negb (writable phdr)) in
      Some (true, set_headers (fun l => l ++ [info]) dest, w).

Fixpoint load_programs (w : W) (f : list Z) (h : elf_header_t) (dest : loaded_elf_image_t) (i : Z) (n : nat)
    : option (bool * loaded_elf_image_t * W) :=
  match n with
  | O => Some (true, dest, w)
  | S n =>
      phdr ← program f h i;
      '(ok, dest, w) ← do_load_program w f phdr dest;
      if (ok : bool) then load_programs w f h dest (i + 1) n else Some (false, dest, w)
  end.

Definition do_load_programs (w : W) (f : list Z) (h : elf_header_t) (dest : loaded_elf_image_t)
    : option (bool * loaded_elf_image_t * W) :=
  if gMaxProgramHeaders <? phnum h then Some (false, dest, w)
  else load_programs w f h dest 0 (Z.to_nat (phnum h)).

(** One entry of the dynamic table *)
Definition dyn_entry (tag value : Z) (dest : loaded_elf_image_t) : loaded_elf_image_t :=
  if tag =? 17 then set_rel (fun r => mkRelInfo value (entry_size r) (table_size r)) dest
  else if tag =? 7 then set_rela (fun r => mkRelInfo value (entry_size r) (table_size r)) dest
  else if tag =? 19 then set_rel (fun r => mkRelInfo (rel_offset r) value (table_size r)) dest
  else if tag =? 9 then set_rela (fun r => mkRelInfo (rel_offset r) value (table_size r)) dest
  else if tag =? 18 then set_rel (fun r => mkRelInfo (rel_offset r) (entry_size r) value) dest
  else if tag =? 8 then set_rela (fun r => mkRelInfo (rel_offset r) (entry_size r) value) dest
  else if tag =? 25 then set_init (fun a => mkArray value (array_size a)) dest
  else if tag =? 26 then set_fini (fun a => mkArray value (array_size a)) dest
  else if tag =? 27 then set_init (fun a => mkArray (location a) value) dest
  else if tag =? 28 then set_fini (fun a => mkArray (location a) value) dest
  else dest.

(** The walk over the table, on the bytes from it to the end of the file *)
Fixpoint dyn_entries (l : list Z) (dest : loaded_elf_image_t) : option loaded_elf_image_t :=
  match l with
  | t0 :: t1 :: t2 :: t3 :: l =>
      if word [t0; t1; t2; t3] =? 0 then Some dest
      else
        match l with
        | v0 :: v1 :: v2 :: v3 :: l => dyn_entries l (dyn_entry (word [t0; t1; t2; t3]) (word [v0; v1; v2; v3]) dest)
        | _ => None
        end
  | _ => None
  end.

Definition do_discover_relocations (f : list Z) (h : elf_header_t) (dest : loaded_elf_image_t)
    : option (bool * loaded_elf_image_t) :=
  dyn_sec ← getDynamic f h;
  match dyn_sec with
  | None => Some (false, dest)
  | Some dyn_sec => dest ← dyn_entries (drop (Z.to_nat (p_offset dyn_sec)) f) dest; Some (rel_info_ok (rel dest), dest)
  end.

(** [symtab]: the offset of the symbols in the file *)
Definition do_perform_relocation (w : W) (f : list Z) (dest : loaded_elf_image_t) (symtab : Z) (relocation : elf_rel_t)
    : option (bool * W) :=
  l ← read_at f (symtab + 16 * idx relocation) 16;
  let symbol := symbol_of l in
  let virt_dest := findRealAddress (headers dest) (r_offset relocation) in
  let virt_value := findRealAddress (headers dest) (st_value symbol) in
  if kind relocation =? R_386_32 then
    if virt_dest =? 0 then Some (false, w)
    else w ← store_word w virt_dest virt_value; Some (true, w)
  else if kind relocation =? R_386_PC32 then
    if virt_dest =? 0 then Some (false, w)
    else w ← store_word w virt_dest (u32 (virt_value - virt_dest - 4)); Some (true, w)
  else Some (false, w).

Fixpoint relocate (w : W) (f : list Z) (dest : loaded_elf_image_t) (symtab i : Z) (n : nat) : option (bool * W) :=
  match n with
  | O => Some (true, w)
  | S n =>
      relocation ← rel_get (rel dest) f i;
      '(ok, w) ← do_perform_relocation w f dest symtab relocation;
      if (ok : bool) then relocate w f dest symtab (i + 1) n else Some (false, w)
  end.

Definition do_perform_relocations (w : W) (f : list Z) (h : elf_header_t) (dest : loaded_elf_image_t)
    : option (bool * W) :=
  symsec ← getDynamicSymbols f h;
  match symsec with
  | None => Some (false, w)
  | Some symsec => relocate w f dest (sh_offset symsec) 0 (Z.to_nat (rel_count (rel dest)))
  end.

(** [strcmp] of the string at the start of [l] and the string [s]; [None]: the end of
    the buffer comes before the comparison ends *)
Fixpoint streq (l s : list Z) : option bool :=
  match l, s with
  | [], _ => None
  | c :: _, [] => Some (c =? 0)
  | c :: l, d :: s => if c =? d then streq l s else Some false
  end.

Definition dot_strtab : list Z := [46; 115; 116; 114; 116; 97; 98].

Fixpoint find_strtab (f : list Z) (h : elf_header_t) (sec_names i : Z) (n : nat) : option (option elf_section_t) :=
  match n with
  | O => Some None
  | S n =>
      sec ← section f h i;
      if stringTable sec then
        eq ← streq (drop (Z.to_nat (sec_names + sh_name sec)) f) dot_strtab;
        if (eq : bool) then Some (Some sec) else find_strtab f h sec_names (i + 1) n
      else find_strtab f h sec_names (i + 1) n
  end.

Definition do_get_string_table (f : list Z) (h : elf_header_t) (dest : loaded_elf_image_t)
    : option (bool * loaded_elf_image_t) :=
  names ← section f h (shstrndx h);
  sec ← find_strtab f h (sh_offset names) 0 (Z.to_nat (shnum h));
  match sec with
  | None => Some (false, dest)
  | Some sec => l ← read_at f (sh_offset sec) (sh_size sec); Some (true, set_stringtab l dest)
  end.

(** The entries of a table of bytes *)
Fixpoint symbols_of (l : list Z) (n : nat) : list elf_symtab_entry_t :=
  match n with
  | O => []
  | S n => symbol_of (take 16 l) :: symbols_of (drop 16 l) n
  end.

(** The copy is as long as the section, the buffer a multiple of the length of an entry *)
Definition do_get_symbol_table (f : list Z) (h : elf_header_t) (dest : loaded_elf_image_t)
    : option (bool * loaded_elf_image_t) :=
  symtab ← getSymbolTable f h;
  match symtab with
  | None => Some (true, dest)
  | Some symtab =>
      let num_symbols := sh_size symtab / 16 in
      if negb (sh_size symtab mod 16 =? 0) then None
      else l ← read_at f (sh_offset symtab) (sh_size symtab); Some (true, set_symbols (symbols_of l (Z.to_nat num_symbols)) dest)
  end.

(** [call]: the code of the library at an address.  When the size is not a multiple of
    four the count misses zero, and the loop leaves the array. *)
Context (call : W -> Z -> W).

Fixpoint init_loop (w : W) (init_ptr size : Z) (fuel : nat) : option W :=
  if size =? 0 then Some w
  else
    match fuel with
    | O => None
    | S fuel =>
        w ← (if negb (init_ptr =? 0) then p ← load_word w init_ptr; Some (if negb (p =? 0) then call w p else w) else Some w);
        init_loop w (u32 (init_ptr + 4)) (u32 (size - 4)) fuel
    end.

Definition do_execute_init (w : W) (dest : loaded_elf_image_t) : option W :=
  if (location (init_array dest) =? 0) || (array_size (init_array dest) =? 0) then Some w
  else init_loop w (findRealAddress (headers dest) (location (init_array dest))) (array_size (init_array dest))
         (Z.to_nat (array_size (init_array dest) / 4)).

(** The answers of [protect] are not looked at *)
Fixpoint do_protect_readonly (w : W) (l : list ph_load_info) : W :=
  match l with
  | [] => w
  | phdr :: l => do_protect_readonly (if readonly phdr then snd (protect w (virt_start phdr) VM_REGION_READONLY) else w) l
  end.

(** [dylibs]: the images reached from [dylibs_set], up to the empty node at the end *)
Definition do_insert_dylib (dylib : loaded_elf_image_t) (dylibs : list loaded_elf_image_t) : list loaded_elf_image_t :=
  dylibs ++ [dylib].

Definition do_load_elf (w : W) (f : list Z) (dest : loaded_elf_image_t) (dylibs : list loaded_elf_image_t)
    : option (bool * loaded_elf_image_t * W * list loaded_elf_image_t) :=
  h ← header f;
  if negb (sanitycheck h) then Some (false, dest, w, dylibs)
  else if negb (isDylib h) then Some (false, dest, w, dylibs)
  else
    '(ok, dest, w) ← do_load_programs w f h dest;
    if negb ok then Some (false, dest, w, dylibs)
    else
      '(ok, dest) ← do_discover_relocations f h dest;
      if negb ok then Some (false, dest, w, dylibs)
      else
        '(ok, w) ← do_perform_relocations w f h dest;
        if negb ok then Some (false, dest, w, dylibs)
        else
          '(ok, dest) ← do_get_string_table f h dest;
          if negb ok then Some (false, dest, w, dylibs)
          else
            '(ok, dest) ← do_get_symbol_table f h dest;
            if negb ok then Some (false, dest, w, dylibs)
            else
              w ← do_execute_init w dest;
              let w := do_protect_readonly w (headers dest) in
              Some (true, dest, w, do_insert_dylib dest dylibs).

(** [file]: what reading the file at [path] gives, [None] when it cannot be opened.  The
    image returned is the handle. *)
Definition dlopen (w : W) (dylibs : list loaded_elf_image_t) (path : list Z) (file : option (list Z))
    : option (option loaded_elf_image_t * W * list loaded_elf_image_t) :=
  match file with
  | None => Some (None, w, dylibs)
  | Some data =>
      '(ok, elf_img, w, dylibs) ← do_load_elf w data (blank path) dylibs;
      Some (if (ok : bool) then Some elf_img else None, w, dylibs)
  end.

End Load.

(** *** Symbols *)

Fixpoint dlsym_loop (segs : list ph_load_info) (names : list Z) (syms : list elf_symtab_entry_t) (target : list Z)
    : option Z :=
  match syms with
  | [] => Some 0
  | symbol :: syms =>
      if st_name symbol =? 0 then dlsym_loop segs names syms target
      else
        eq ← streq (drop (Z.to_nat (st_name symbol)) names) target;
        if (eq : bool) then Some (findRealAddress segs (st_value symbol)) else dlsym_loop segs names syms target
  end.

Definition do_dlsym (elf_image : loaded_elf_image_t) (target : list Z) : option Z :=
  dlsym_loop (headers elf_image) (stringtab elf_image) (symbols elf_image) target.

Fixpoint dlsym_default (dylibs : list loaded_elf_image_t) (target : list Z) : option Z :=
  match dylibs with
  | [] => Some 0
  | dylib :: dylibs =>
      candidate ← do_dlsym dylib target;
      if negb (candidate =? 0) then Some candidate else dlsym_default dylibs target
  end.

Inductive handle_t := RTLD_DEFAULT | Null | Image (elf_image : loaded_elf_image_t).

Definition dlsym (dylibs : list loaded_elf_image_t) (handle : handle_t) (target : list Z) : option Z :=
  match handle with
  | RTLD_DEFAULT => dlsym_default dylibs target
  | Null => Some 0
  | Image elf_image => do_dlsym elf_image target
  end.

End Dl.
