(* ===== verification/DlfcnThms.v ===== *)
(** * Dynamic libraries: the segments, relocations and symbols of a loaded library

    Against the class [UserVmLaws] of what the memory of a program does, a well-formed
    library is loaded: its segments hold the bytes of the file, every relocated word
    holds the address it should, and a symbol is found where its bytes are. *)

From stdpp Require Import base numbers list gmap option.
From Stdlib Require Import ZArith Lia Bool.
From S2P Require Import Prelude Cpu Loader Dlfcn.

Local Open Scope Z_scope.

Import Bytes Elf Vm Dl.

(** ** The memory of a program *)

(** [writable]: where a store succeeds; [room]: for how many bytes regions can still be
    mapped *)
Class UserVmLaws (W : Type) `{!UserVm W} := {
  writable : W -> Z -> Prop;
  room : W -> Z;
  writable_mapped w x : writable w x -> is_Some (load w x);
  store_law w a b : writable w a ->
    exists w', store w a b = Some w' /\ (forall x, load w' x = if decide (x = a) then Some b else load w x) /\
      (forall x, writable w' x <-> writable w x) /\ room w' = room w;
  map_law w sz a w' : 0 < sz <= room w -> sz mod 4096 = 0 -> mapregion_syscall w sz REGION_ALLOW_WRITE = (a, w') ->
    0 < a /\ a + sz <= 2 ^ 32 /\ a mod 4096 = 0 /\ room w' = room w - sz /\
    (forall x, a <= x < a + sz -> load w x = None /\ writable w' x) /\
    (forall x, ~ (a <= x < a + sz) -> load w' x = load w x) /\
    (forall x, writable w x -> writable w' x);
  perms_law w p perm x : load (snd (setregionperms_syscall w p perm)) x = load w x;
}.

Section Memory.
Context {W : Type} `{UserVmLaws W}.

(** [w'] is [w] after the bytes [l] are written at [a] *)
Record patched (w w' : W) (a : Z) (l : list Z) : Prop := {
  pt_in : forall k, 0 <= k < Z.of_nat (length l) -> load w' (a + k) = l !! Z.to_nat k;
  pt_out : forall x, ~ (a <= x < a + Z.of_nat (length l)) -> load w' x = load w x;
  pt_writable : forall x, writable w' x <-> writable w x;
  pt_room : room w' = room w;
}.

Lemma store_list_patched l : forall w a,
  0 <= a -> a + Z.of_nat (length l) <= 2 ^ 32 -> (forall x, a <= x < a + Z.of_nat (length l) -> writable w x) ->
  exists w', store_list w a l = Some w' /\ patched w w' a l.
Proof.
  induction l as [|b l IH]; intros w a Ha Hl Hw.
  { exists w. split; [done|]. constructor; try done. intros k Hk. simpl in Hk. lia. }
  cbn [length] in Hl, Hw. rewrite Nat2Z.inj_succ in Hl, Hw.
  destruct (store_law w a b) as (w1 & E1 & L1 & P1 & R1); [apply Hw; lia|].
  cbn [store_list]. rewrite E1; cbn [mbind option_bind].
  destruct (decide (l = [])) as [->|Hne].
  { exists w1. split; [done|]. constructor; try done.
    - intros k Hk. simpl in Hk. replace k with 0 by lia. rewrite L1, Z.add_0_r, decide_True by done. done.
    - intros x Hx. simpl in Hx. rewrite L1, decide_False by lia. done. }
  assert (0 < length l)%nat by (destruct l; [done|simpl; lia]).
  replace (u32 (a + 1)) with (a + 1) by (width; rewrite Z.mod_small by lia; done).
  destruct (IH w1 (a + 1)) as (w2 & E2 & P2); [lia|lia| |].
  { intros x Hx. apply P1, Hw. lia. }
  exists w2. split; [done|]. constructor.
  - intros k Hk. simpl in Hk. destruct (decide (k = 0)) as [->|].
    + rewrite (pt_out _ _ _ _ P2) by lia. rewrite L1, Z.add_0_r, decide_True by done. done.
    + replace (a + k) with (a + 1 + (k - 1)) by lia. rewrite (pt_in _ _ _ _ P2) by lia.
      replace (Z.to_nat k) with (S (Z.to_nat (k - 1))) by lia. done.
  - intros x Hx. simpl in Hx. rewrite (pt_out _ _ _ _ P2) by lia. rewrite L1, decide_False by lia. done.
  - intros x. rewrite (pt_writable _ _ _ _ P2). apply P1.
  - rewrite (pt_room _ _ _ _ P2). done.
Qed.

Lemma load_list_spec l : forall w a,
  0 <= a -> a + Z.of_nat (length l) <= 2 ^ 32 ->
  (forall k, 0 <= k < Z.of_nat (length l) -> load w (a + k) = l !! Z.to_nat k) ->
  load_list w a (length l) = Some l.
Proof.
  induction l as [|b l IH]; intros w a Ha Hl Hw; [done|]. cbn [length load_list] in *.
  rewrite Nat2Z.inj_succ in Hl, Hw. pose proof (Hw 0 ltac:(lia)) as H0. rewrite Z.add_0_r in H0. rewrite H0.
  cbn [mbind option_bind Z.to_nat lookup list_lookup]. destruct (decide (l = [])) as [->|Hne]; [done|].
  assert (0 < length l)%nat by (destruct l; [done|simpl; lia]).
  replace (u32 (a + 1)) with (a + 1) by (width; rewrite Z.mod_small by lia; done).
  rewrite IH; [done|lia|lia|]. intros k Hk. replace (a + 1 + k) with (a + (k + 1)) by lia. rewrite Hw by lia.
  by replace (Z.to_nat (k + 1)) with (S (Z.to_nat k)) by lia.
Qed.

(** What the system call promises is what [mapregion] does: the region is not null *)
Lemma mapregion_gives_zeros w sz : 0 < sz <= room w -> sz mod 4096 = 0 ->
  exists a w', mapregion w sz VM_REGION_READWRITE = (a, w') /\ mapregion_syscall w sz REGION_ALLOW_WRITE = (a, w') /\ a <> 0.
Proof.
  intros Hsz Hm. unfold mapregion, region_perm. cbn [Z.eqb VM_REGION_READWRITE Pos.eqb].
  destruct (mapregion_syscall w sz REGION_ALLOW_WRITE) as [a w'] eqn:E.
  destruct (map_law w sz a w' Hsz Hm E) as (H0 & _ & Ha & _). exists a, w'.
  assert (Z.land a 1 = 0) as ->.
  { change 1 with (Z.ones 1). rewrite Z.land_ones by lia. change (2 ^ 1) with 2.
    rewrite (Z.div_mod a 4096) by lia. rewrite Ha. Z.to_euclidean_division_equations; lia. }
  split; [done|]. split; [done|lia].
Qed.

End Memory.

(** ** Segments *)

Definition in_seg (p : elf_program_t) (y : Z) : Prop := p_vaddr p <= y < p_vaddr p + p_memsz p.
Definition in_virt (i : ph_load_info) (x : Z) : Prop := virt_start i <= x < virt_start i + size i.

(** A segment that can be loaded from [f] *)
Record seg_ok (f : list Z) (p : elf_program_t) : Prop := {
  so_align : p_align p = gPageSize;
  so_size : 0 < p_memsz p <= 2 ^ 32 - gPageSize;
  so_filesz : 0 <= p_filesz p <= p_memsz p;
  so_file : 0 <= p_offset p /\ p_offset p + p_filesz p <= Z.of_nat (length f);
  so_vaddr : 0 <= p_vaddr p /\ p_vaddr p + p_memsz p < 2 ^ 32;
}.

(** The byte at offset [k] of a segment: from the file, then zero *)
Definition image_byte (f : list Z) (p : elf_program_t) (k : Z) : option Z :=
  if k <? p_filesz p then f !! Z.to_nat (p_offset p + k) else Some 0.

(** [i] describes where [p] was put *)
Record placed (i : ph_load_info) (p : elf_program_t) : Prop := {
  pl_start : start i = p_vaddr p;
  pl_size : size i = p_memsz p;
  pl_virt : 0 < virt_start i /\ virt_start i + p_memsz p <= 2 ^ 32;
  pl_readonly : readonly i = negb (Elf.writable p);
}.

(** The loadable ones among the program headers *)
Abbreviation segments progs := (filter (fun p => loadable p = true) progs).

Section Segments.
Context {W : Type} `{UserVmLaws W}.

Record loaded (f : list Z) (w0 w : W) (infos : list ph_load_info) (segs : list elf_program_t) : Prop := {
  ld_placed : Forall2 placed infos segs;
  ld_apart : forall j k i i' x, infos !! j = Some i -> infos !! k = Some i' -> in_virt i x -> in_virt i' x -> j = k;
  ld_bytes : forall j i p k, infos !! j = Some i -> segs !! j = Some p -> 0 <= k < p_memsz p ->
    load w (virt_start i + k) = image_byte f p k /\ writable w (virt_start i + k);
  ld_fresh : forall j i x, infos !! j = Some i -> in_virt i x -> load w0 x = None;
  ld_outside : forall x, is_Some (load w0 x) -> load w x = load w0 x;
}.

Lemma loaded_nil f w : loaded f w w [] [].
Proof. constructor; [constructor|..]; intros *; rewrite ?lookup_nil; done. Qed.

Lemma roundToPages_spec s : 0 < s <= 2 ^ 32 - gPageSize -> s <= roundToPages s /\ roundToPages s mod 4096 = 0.
Proof.
  intros Hs. unfold roundToPages, gPageSize in *. destruct (Z.eqb_spec (s mod 4096) 0) as [E|E]; [lia|].
  pose proof (Z.mod_pos_bound s 4096 ltac:(lia)). pose proof (Z.div_mod s 4096 ltac:(lia)).
  replace (u32 _) with (s - s mod 4096 + 4096) by (width; rewrite (Z.mod_small (_ - _ + _)) by lia; done).
  split; [lia|]. replace (s - s mod 4096 + 4096) with ((s / 4096 + 1) * 4096) by lia. apply Z.mod_mul. lia.
Qed.

Lemma read_at_spec f off n : 0 <= off -> 0 <= n -> off + n <= Z.of_nat (length f) ->
  read_at f off n = Some (take (Z.to_nat n) (drop (Z.to_nat off) f)).
Proof.
  intros. unfold read_at. rewrite (proj2 (Z.leb_le 0 off)), (proj2 (Z.leb_le 0 n)), (proj2 (Z.leb_le _ _)) by lia. done.
Qed.

Lemma image_byte_some f p k : seg_ok f p -> 0 <= k < p_memsz p -> is_Some (image_byte f p k).
Proof.
  intros Hp Hk. unfold image_byte. destruct (Z.ltb_spec k (p_filesz p)); [|eauto].
  apply lookup_lt_is_Some. destruct (so_file _ _ Hp). lia.
Qed.

(** The region of a segment after zeroing and copying *)
Lemma segment_filled f p w a :
  seg_ok f p -> 0 < a -> a + roundToPages (p_memsz p) <= 2 ^ 32 ->
  (forall x, a <= x < a + roundToPages (p_memsz p) -> writable w x) ->
  exists w1 w2, store_list w a (replicate (Z.to_nat (roundToPages (p_memsz p))) 0) = Some w1 /\
    do_copy_program w1 f a p = Some w2 /\
    (forall k, 0 <= k < p_memsz p -> load w2 (a + k) = image_byte f p k) /\
    (forall x, ~ (a <= x < a + roundToPages (p_memsz p)) -> load w2 x = load w x) /\
    (forall x, writable w2 x <-> writable w x) /\ room w2 = room w.
Proof.
  intros Hp Ha Hl Hw. destruct (roundToPages_spec _ (so_size _ _ Hp)) as [Hr _].
  destruct (so_file _ _ Hp), (so_filesz _ _ Hp), (so_size _ _ Hp).
  destruct (store_list_patched (replicate (Z.to_nat (roundToPages (p_memsz p))) 0) w a) as (w1 & E1 & P1);
    rewrite ?length_replicate, ?Z2Nat.id in * by lia; [lia|lia|done|].
  set (src := take (Z.to_nat (p_filesz p)) (drop (Z.to_nat (p_offset p)) f)).
  assert (Hls : Z.of_nat (length src) = p_filesz p) by (unfold src; rewrite length_take, length_drop; lia).
  destruct (store_list_patched src w1 a) as (w2 & E2 & P2); [lia|lia| |].
  { intros x Hx. apply (pt_writable _ _ _ _ P1), Hw. lia. }
  exists w1, w2. split; [done|]. split; [|split; [|split; [|split]]].
  - unfold do_copy_program. replace (if p_memsz p =? p_filesz p then p_memsz p else p_filesz p) with (p_filesz p) by (destruct (Z.eqb_spec (p_memsz p) (p_filesz p)); lia).
    rewrite read_at_spec by lia. done.
  - intros k Hk. unfold image_byte. destruct (Z.ltb_spec k (p_filesz p)).
    + rewrite (pt_in _ _ _ _ P2) by lia. unfold src. rewrite lookup_take_lt by lia. rewrite lookup_drop. f_equal; lia.
    + rewrite (pt_out _ _ _ _ P2) by lia. rewrite (pt_in _ _ _ _ P1) by (rewrite length_replicate; lia).
      rewrite lookup_replicate_2 by lia. done.
  - intros x Hx. rewrite (pt_out _ _ _ _ P2) by lia. apply (pt_out _ _ _ _ P1). rewrite length_replicate. lia.
  - intros x. rewrite (pt_writable _ _ _ _ P2). apply (pt_writable _ _ _ _ P1).
  - rewrite (pt_room _ _ _ _ P2). apply (pt_room _ _ _ _ P1).
Qed.

Lemma loaded_mapped f w0 w infos segs j i x : Forall (seg_ok f) segs -> loaded f w0 w infos segs ->
  infos !! j = Some i -> in_virt i x -> is_Some (load w x).
Proof.
  intros Hs L Hi Hx. destruct (Forall2_lookup_l _ _ _ _ _ (ld_placed _ _ _ _ _ L) Hi) as (p & Hp & P).
  unfold in_virt in Hx. rewrite (pl_size _ _ P) in Hx. destruct (ld_bytes _ _ _ _ _ L j i p (x - virt_start i) Hi Hp) as [E _]; [lia|].
  replace (virt_start i + (x - virt_start i)) with x in E by lia. rewrite E.
  apply image_byte_some; [|lia]. by eapply Forall_lookup_1.
Qed.

(** One more segment, filled as [segment_filled] says into a region that was free *)
Lemma loaded_snoc f w0 w w' infos segs p i a sz :
  Forall (seg_ok f) segs -> loaded f w0 w infos segs -> seg_ok f p -> placed i p -> virt_start i = a -> p_memsz p <= sz ->
  (forall x, a <= x < a + sz -> load w x = None) ->
  (forall k, 0 <= k < p_memsz p -> load w' (a + k) = image_byte f p k /\ writable w' (a + k)) ->
  (forall x, ~ (a <= x < a + sz) -> load w' x = load w x) ->
  (forall x, writable w x -> writable w' x) ->
  loaded f w0 w' (infos ++ [i]) (segs ++ [p]).
Proof.
  intros Hs L Hp P Ha Hsz Hfree Hin Hout Hw.
  assert (Hold : forall j i' x, infos !! j = Some i' -> in_virt i' x -> ~ (a <= x < a + sz)).
  { intros j i' x Hi Hx Hc. destruct (loaded_mapped _ _ _ _ _ _ _ _ Hs L Hi Hx) as [b Hb]. rewrite Hfree in Hb by lia. done. }
  assert (Hnew : forall x, in_virt i x -> a <= x < a + sz) by (intros x; unfold in_virt; rewrite (pl_size _ _ P); lia).
  constructor.
  - apply Forall2_app; [apply (ld_placed _ _ _ _ _ L)|]. constructor; [done|constructor].
  - intros j k i1 i2 x H1 H2 X1 X2. rewrite !lookup_snoc_Some in *.
    destruct H1 as [[? H1]|[-> <-]], H2 as [[? H2]|[-> <-]]; [|exfalso|exfalso|done].
    + by eapply (ld_apart _ _ _ _ _ L).
    + by eapply Hold; [exact H1|exact X1|apply Hnew].
    + by eapply Hold; [exact H2|exact X2|apply Hnew].
  - intros j i1 p1 k H1 H2 Hk. rewrite !lookup_snoc_Some in *.
    pose proof (Forall2_length (ld_placed _ _ _ _ _ L)) as Hlen.
    destruct H1 as [[? H1]|[-> <-]], H2 as [[? H2]|[? <-]]; [|lia|lia|rewrite Ha; by apply Hin].
    destruct (ld_bytes _ _ _ _ _ L _ _ _ k H1 H2 Hk) as [E Ew]. split; [|by apply Hw].
    rewrite Hout; [done|]. eapply Hold; [exact H1|]. unfold in_virt.
    destruct (Forall2_lookup_l _ _ _ _ _ (ld_placed _ _ _ _ _ L) H1) as (p' & Hp' & P'). simplify_eq.
    rewrite (pl_size _ _ P'). lia.
  - intros j i1 x H1 X1. rewrite lookup_snoc_Some in H1. destruct H1 as [[? H1]|[-> <-]]; [by eapply (ld_fresh _ _ _ _ _ L)|].
    destruct (load w0 x) as [b|] eqn:E0; [|done]. pose proof (ld_outside _ _ _ _ _ L x ltac:(eauto)) as E.
    rewrite Hfree in E by auto. congruence.
  - intros x Hx. rewrite <- (ld_outside _ _ _ _ _ L x Hx). apply Hout. intros Hc. rewrite <- (ld_outside _ _ _ _ _ L x Hx), Hfree in Hx by done.
    by destruct Hx.
Qed.

Lemma do_load_program_ok f w0 w infos segs p dest :
  Forall (seg_ok f) segs -> loaded f w0 w infos segs -> seg_ok f p -> loadable p = true ->
  roundToPages (p_memsz p) <= room w ->
  exists w' i, do_load_program w f p dest = Some (true, set_headers (fun l => l ++ [i]) dest, w') /\
    loaded f w0 w' (infos ++ [i]) (segs ++ [p]) /\ room w' = room w - roundToPages (p_memsz p).
Proof.
  intros Hs L Hp Hl Hr. destruct (roundToPages_spec _ (so_size _ _ Hp)) as [Hge Hmod]. pose proof (so_size _ _ Hp) as Hsz.
  destruct (mapregion_gives_zeros w (roundToPages (p_memsz p))) as (a & w1 & E1 & M & Ha); [lia|done|].
  assert (Hrange : 0 < roundToPages (p_memsz p) <= room w) by lia.
  destruct (map_law w _ a w1 Hrange Hmod M) as (Hpos & Hend & _ & Hroom & Hin & Hout & Hw).
  destruct (segment_filled f p w1 a Hp Hpos Hend) as (w2 & w3 & E2 & E3 & B & O & Wr & R); [by intros x Hx; apply Hin|].
  unfold do_load_program. rewrite Hl, (so_align _ _ Hp), Z.eqb_refl, E1; cbn [negb].
  rewrite (proj2 (Z.eqb_neq a 0)), E2 by done; cbn [mbind option_bind]. rewrite E3; cbn [mbind option_bind].
  exists w3. eexists. split; [done|]. split; [|lia].
  eapply (loaded_snoc _ _ w) with (a := a) (sz := roundToPages (p_memsz p)); try done.
  - constructor; try done; cbn [virt_start]. lia.
  - by apply Hin.
  - intros k Hk. split; [by apply B|]. apply Wr, Hin. lia.
  - intros x Hx. rewrite O, Hout by done. done.
  - intros x Hx. by apply Wr, Hw.
Qed.

Definition total_pages (segs : list elf_program_t) : Z := foldr (fun p n => roundToPages (p_memsz p) + n) 0 segs.

Lemma set_headers_app g g' d : set_headers g (set_headers g' d) = set_headers (g ∘ g') d.
Proof. done. Qed.

Lemma load_programs_ok f h w0 progs : forall w infos segs dest i,
  Forall (seg_ok f) segs -> loaded f w0 w infos segs -> headers dest = infos ->
  (forall j p, progs !! j = Some p -> program f h (i + Z.of_nat j) = Some p) ->
  Forall (seg_ok f) (segments progs) -> total_pages (segments progs) <= room w ->
  exists w' l, load_programs w f h dest i (length progs) = Some (true, set_headers (fun _ => infos ++ l) dest, w') /\
    loaded f w0 w' (infos ++ l) (segs ++ segments progs).
Proof.
  induction progs as [|p progs IH]; intros w infos segs dest i Hs L Hd Hf Hok Hr; cbn [length load_programs].
  { exists w, []. rewrite filter_nil, !app_nil_r. split; [|done]. by destruct dest; simpl in *; subst. }
  pose proof (Hf 0%nat p eq_refl) as E. rewrite Z.add_0_r in E. rewrite E; cbn [mbind option_bind].
  assert (Hf' : forall j q, progs !! j = Some q -> program f h (i + 1 + Z.of_nat j) = Some q).
  { intros j q Hq. rewrite <- (Hf (S j) q Hq). f_equal. lia. }
  rewrite filter_cons in *. destruct (decide (loadable p = true)) as [El|El].
  - inversion Hok as [|? ? Hp Hok']; subst. cbn [total_pages foldr] in Hr.
    assert (0 <= total_pages (segments progs)).
    { clear -Hok'. induction Hok' as [|q l Hq _ IHl]; cbn [total_pages foldr]; [lia|].
      pose proof (roundToPages_spec _ (so_size _ _ Hq)). pose proof (so_size _ _ Hq). fold (total_pages l). lia. }
    fold (total_pages (segments progs)) in Hr.
    destruct (do_load_program_ok f w0 w _ segs p dest Hs L Hp El) as (w1 & j & E1 & L1 & R1); [lia|].
    rewrite E1; cbn [mbind option_bind].
    assert (Hs' : Forall (seg_ok f) (segs ++ [p])) by (apply Forall_app; split; [done|by constructor]).
    assert (Hr' : total_pages (segments progs) <= room w1) by lia.
    destruct (IH w1 _ _ (set_headers (fun l => l ++ [j]) dest) (i + 1) Hs' L1 eq_refl Hf' Hok' Hr') as (w2 & l & E2 & L2).
    exists w2, (j :: l). rewrite E2. rewrite set_headers_app, <- !app_assoc in *. done.
  - unfold do_load_program. apply not_true_iff_false in El. rewrite El; cbn [negb].
    by apply IH.
Qed.
End Segments.

(** ** Addresses *)

Definition segs_apart (segs : list elf_program_t) : Prop :=
  forall j k p q y, segs !! j = Some p -> segs !! k = Some q -> in_seg p y -> in_seg q y -> j = k.

Lemma real_in f infos : forall segs j i p y,
  Forall2 placed infos segs -> Forall (seg_ok f) segs -> segs_apart segs ->
  infos !! j = Some i -> segs !! j = Some p -> in_seg p y ->
  findRealAddress infos y = virt_start i + (y - p_vaddr p).
Proof.
  induction infos as [|i0 infos IH]; intros segs j i p y F Hs Ha Hi Hp Hy; [done|].
  inversion F as [|? p0 ? segs' P0 F' E1 E2]; subst. inversion Hs as [|? ? Hp0 Hs']; subst. cbn [findRealAddress].
  destruct (so_vaddr _ _ Hp0), (so_size _ _ Hp0), (pl_virt _ _ P0).
  rewrite (pl_start _ _ P0), (pl_size _ _ P0).
  replace (u32 (p_vaddr p0 + p_memsz p0)) with (p_vaddr p0 + p_memsz p0) by (width; rewrite Z.mod_small by lia; done).
  destruct j as [|j]; simpl in Hi, Hp.
  - simplify_eq. unfold in_seg in Hy. rewrite (proj2 (Z.leb_le _ _)), (proj2 (Z.ltb_lt _ _)) by lia. cbn [andb].
    width. rewrite Z.mod_small by lia. lia.
  - destruct ((p_vaddr p0 <=? y) && (y <? p_vaddr p0 + p_memsz p0)) eqn:E; bool_to_prop.
    + pose proof (Ha 0%nat (S j) p0 p y eq_refl Hp ltac:(unfold in_seg; lia) Hy). lia.
    + eapply IH; try done. intros a b q r z Ra Rb Za Zb.
      pose proof (Ha (S a) (S b) q r z Ra Rb Za Zb). lia.
Qed.

Section Addresses.
Context {W : Type} `{UserVmLaws W}.
Context (f : list Z) (w0 w1 : W) (infos : list ph_load_info) (segs : list elf_program_t).
Context (L : loaded f w0 w1 infos segs) (Hs : Forall (seg_ok f) segs) (Ha : segs_apart segs).

Abbreviation real := (findRealAddress infos).
Definition inside (y : Z) : Prop := exists j p, segs !! j = Some p /\ in_seg p y.

Lemma inside_real y : inside y ->
  exists j i p, infos !! j = Some i /\ segs !! j = Some p /\ in_seg p y /\ placed i p /\ seg_ok f p /\
    real y = virt_start i + (y - p_vaddr p) /\ in_virt i (real y).
Proof.
  intros (j & p & Hp & Hy). destruct (Forall2_lookup_r _ _ _ _ _ (ld_placed _ _ _ _ _ L) Hp) as (i & Hi & P).
  pose proof (real_in _ _ _ _ _ _ _ (ld_placed _ _ _ _ _ L) Hs Ha Hi Hp Hy) as E.
  exists j, i, p. refine (conj Hi (conj Hp (conj Hy (conj P (conj (Forall_lookup_1 _ _ _ _ Hs Hp) (conj E _)))))).
  unfold in_virt. rewrite E, (pl_size _ _ P). unfold in_seg in Hy. lia.
Qed.

Lemma real_inj y y' : inside y -> inside y' -> real y = real y' -> y = y'.
Proof.
  intros Hy Hy' E. destruct (inside_real _ Hy) as (j & i & p & Hi & Hp & _ & _ & _ & E1 & V1).
  destruct (inside_real _ Hy') as (j' & i' & p' & Hi' & Hp' & _ & _ & _ & E2 & V2).
  rewrite E in V1. pose proof (ld_apart _ _ _ _ _ L _ _ _ _ _ Hi Hi' V1 V2) as <-. simplify_eq. lia.
Qed.

Lemma real_writable y : inside y -> writable w1 (real y) /\ load w1 (real y) <> None.
Proof.
  intros Hy. destruct (inside_real _ Hy) as (j & i & p & Hi & Hp & X & _ & Hok & -> & _). unfold in_seg in X.
  destruct (ld_bytes _ _ _ _ _ L _ _ _ (y - p_vaddr p) Hi Hp) as [E Hw]; [lia|]. split; [done|].
  rewrite E. destruct (image_byte_some f p (y - p_vaddr p) Hok) as [b ->]; [lia|done].
Qed.

(** ** Relocations *)

(** A relocation of a word that lies in a segment *)
Definition rel_ok (r : elf_rel_t) : Prop :=
  (kind r = R_386_32 \/ kind r = R_386_PC32) /\
  exists j p, segs !! j = Some p /\ p_vaddr p <= r_offset r /\ r_offset r + 4 <= p_vaddr p + p_memsz p.

Definition overlap (r r' : elf_rel_t) : Prop := r_offset r < r_offset r' + 4 /\ r_offset r' < r_offset r + 4.
Definition at_place (r : elf_rel_t) (y : Z) : Prop := r_offset r <= y < r_offset r + 4.

(** What the relocation [r] with symbol [s] puts into its word *)
Definition reloc_value (r : elf_rel_t) (s : elf_symtab_entry_t) : Z :=
  if kind r =? R_386_32 then real (st_value s) else u32 (real (st_value s) - real (r_offset r) - 4).

Lemma rel_place r k : rel_ok r -> 0 <= k < 4 -> inside (r_offset r + k) /\ real (r_offset r + k) = real (r_offset r) + k.
Proof.
  intros (_ & j & p & Hp & H1 & H2) Hk.
  assert (I : forall k, 0 <= k < 4 -> inside (r_offset r + k)) by (intros k' ?; exists j, p; split; [done|]; unfold in_seg; lia).
  split; [by apply I|]. destruct (Forall2_lookup_r _ _ _ _ _ (ld_placed _ _ _ _ _ L) Hp) as (i & Hi & P).
  rewrite !(real_in f _ segs j i p); try done; try apply (ld_placed _ _ _ _ _ L); unfold in_seg; lia.
Qed.

Lemma real_range y : inside y -> 0 < real y < 2 ^ 32.
Proof.
  intros Hy. destruct (inside_real _ Hy) as (j & i & p & _ & _ & X & P & _ & -> & _). destruct (pl_virt _ _ P).
  unfold in_seg in X. lia.
Qed.

(** The memory [w] in which the relocations [done] have been performed *)
Record relocated (w : W) (done : list (elf_rel_t * elf_symtab_entry_t)) : Prop := {
  rl_words : forall j r s k, done !! j = Some (r, s) -> 0 <= k < 4 ->
    load w (real (r_offset r) + k) = bytes 4 (reloc_value r s) !! Z.to_nat k;
  rl_bytes : forall y, inside y -> (forall j r s, done !! j = Some (r, s) -> ~ at_place r y) -> load w (real y) = load w1 (real y);
  rl_outside : forall x, is_Some (load w0 x) -> load w x = load w0 x;
  rl_writable : forall x, writable w x <-> writable w1 x;
}.

Lemma relocated_nil : relocated w1 [].
Proof. constructor; try done. apply (ld_outside _ _ _ _ _ L). Qed.

Lemma relocated_snoc w w' done r s :
  Forall (fun q => rel_ok q.1) done -> relocated w done -> rel_ok r ->
  (forall j r' s', done !! j = Some (r', s') -> ~ overlap r r') ->
  patched w w' (real (r_offset r)) (bytes 4 (reloc_value r s)) ->
  relocated w' (done ++ [(r, s)]).
Proof.
  intros Hd R Hr Hov P.
  assert (Hin : forall x, real (r_offset r) <= x < real (r_offset r) + 4 -> exists k, 0 <= k < 4 /\ x = real (r_offset r + k)).
  { intros x Hx. exists (x - real (r_offset r)). split; [lia|]. rewrite (proj2 (rel_place r (x - real (r_offset r)) Hr ltac:(lia))). lia. }
  assert (Hout : forall y, inside y -> ~ at_place r y -> load w' (real y) = load w (real y)).
  { intros y Hy Hny. apply (pt_out _ _ _ _ P). rewrite bytes_length. intros Hx. destruct (Hin _ Hx) as (k & Hk & E).
    apply Hny. rewrite (real_inj y (r_offset r + k) Hy (proj1 (rel_place r k Hr Hk)) E). unfold at_place. lia. }
  constructor.
  - intros j r' s' k Hj Hk. rewrite lookup_snoc_Some in Hj. destruct Hj as [[_ Hj]|[_ E]].
    + assert (Hr' : rel_ok r') by apply (Forall_lookup_1 _ _ _ _ Hd Hj).
      rewrite <- (rl_words _ _ R _ _ _ _ Hj Hk). rewrite <- (proj2 (rel_place r' k Hr' Hk)).
      apply Hout; [by apply rel_place|]. intros A. apply (Hov _ _ _ Hj). unfold at_place, overlap in *. lia.
    + simplify_eq. apply (pt_in _ _ _ _ P). rewrite bytes_length. lia.
  - intros y Hy Hny. rewrite Hout; [apply (rl_bytes _ _ R); [done|]|done|].
    + intros j r' s' Hj. apply (Hny j r' s'). rewrite lookup_snoc_Some. left. split; [by eapply lookup_lt_Some|done].
    + apply (Hny (length done) r s). by rewrite lookup_snoc_Some; right.
  - intros x Hx. rewrite <- (rl_outside _ _ R x Hx). apply (pt_out _ _ _ _ P). rewrite bytes_length. intros Hc.
    destruct (Hin _ Hc) as (k & Hk & ->). destruct (inside_real _ (proj1 (rel_place r k Hr Hk))) as (j & i & p & Hi & _ & _ & _ & _ & _ & V).
    rewrite (ld_fresh _ _ _ _ _ L _ _ _ Hi V) in Hx. by destruct Hx.
  - intros x. rewrite (pt_writable _ _ _ _ P). apply (rl_writable _ _ R).
Qed.

Lemma do_perform_relocation_ok w done r s l dest symtab :
  headers dest = infos -> Forall (fun q => rel_ok q.1) done -> relocated w done -> rel_ok r ->
  (forall j r' s', done !! j = Some (r', s') -> ~ overlap r r') ->
  read_at f (symtab + 16 * idx r) 16 = Some l -> symbol_of l = s ->
  exists w', do_perform_relocation w f dest symtab r = Some (true, w') /\ relocated w' (done ++ [(r, s)]).
Proof.
  intros Hd Hdone R Hr Hov El Es. unfold do_perform_relocation. rewrite El; cbn [mbind option_bind]. rewrite Es, Hd.
  destruct (rel_place r 0 Hr ltac:(lia)) as [I0 _]. rewrite Z.add_0_r in I0. pose proof (real_range _ I0) as Hrng.
  destruct (rel_place r 3 Hr ltac:(lia)) as [I3 E3]. pose proof (real_range _ I3) as Hrng3.
  rewrite (proj2 (Z.eqb_neq (real (r_offset r)) 0)) by lia.
  destruct (store_list_patched (bytes 4 (reloc_value r s)) w (real (r_offset r))) as (w' & E & P); rewrite ?bytes_length; [lia|lia| |].
  { intros x Hx. apply (rl_writable _ _ R). replace x with (real (r_offset r) + (x - real (r_offset r))) by lia.
    destruct (rel_place r (x - real (r_offset r)) Hr ltac:(lia)) as [I <-]. by apply real_writable. }
  exists w'. split; [|by eapply relocated_snoc].
  unfold store_word. unfold reloc_value in E. destruct Hr as [[Ek|Ek] _]; rewrite Ek in *.
  - rewrite Z.eqb_refl in *. rewrite E. done.
  - change (R_386_PC32 =? R_386_32) with false in *. rewrite Z.eqb_refl. cbn iota in E. rewrite E. done.
Qed.

Lemma relocate_ok dest symtab rest : forall w done i,
  headers dest = infos -> Forall (fun q => rel_ok q.1) (done ++ rest) -> relocated w done ->
  (forall j k q q', (done ++ rest) !! j = Some q -> (done ++ rest) !! k = Some q' -> overlap q.1 q'.1 -> j = k) ->
  (forall j r s, rest !! j = Some (r, s) -> rel_get (rel dest) f (i + Z.of_nat j) = Some r /\
    exists l, read_at f (symtab + 16 * idx r) 16 = Some l /\ symbol_of l = s) ->
  exists w', relocate w f dest symtab i (length rest) = Some (true, w') /\ relocated w' (done ++ rest).
Proof.
  induction rest as [|[r s] rest IH]; intros w done i Hd Hok R Hov Hf; cbn [length relocate].
  { exists w. by rewrite app_nil_r. }
  destruct (Hf 0%nat r s eq_refl) as (E & l & El & Es). rewrite Z.add_0_r in E. rewrite E; cbn [mbind option_bind].
  destruct (proj1 (Forall_app _ _ _) Hok) as [Hdone Hrest]. inversion Hrest as [|? ? Hr Hrest']; subst.
  destruct (do_perform_relocation_ok w done r (symbol_of l) l dest symtab Hd Hdone R Hr) as (w' & E' & R'); [|done|done|].
  { intros j r' s' Hj Ho. pose proof (lookup_lt_Some _ _ _ Hj).
    enough (length done = j) by lia. apply (Hov _ _ (r, symbol_of l) (r', s')); [by rewrite list_lookup_middle|by rewrite lookup_app_l|done]. }
  rewrite E'; cbn [mbind option_bind].
  replace (done ++ (r, symbol_of l) :: rest) with ((done ++ [(r, symbol_of l)]) ++ rest) in * by (by rewrite <- app_assoc).
  apply IH; try done. intros j r' s' Hj. destruct (Hf (S j) r' s' Hj) as (E2 & l2 & ? & ?).
  split; [rewrite <- E2; f_equal; lia|eauto].
Qed.
End Addresses.

(** ** Libraries *)

(** A library file: its program headers, the relocations with their symbols, the names
    and the symbols that [dlsym] searches, and the dynamic table as [d] has it *)
Record library (f name : list Z) (h : elf_header_t) (progs : list elf_program_t)
    (rels : list (elf_rel_t * elf_symtab_entry_t)) (strs : list Z) (syms : list elf_symtab_entry_t)
    (d : loaded_elf_image_t) : Prop := {
  lib_header : header f = Some h /\ sanitycheck h = true /\ isDylib h = true;
  lib_phnum : phnum h = Z.of_nat (length progs) /\ phnum h <= gMaxProgramHeaders;
  lib_programs : forall j p, progs !! j = Some p -> program f h (Z.of_nat j) = Some p;
  lib_segments : Forall (seg_ok f) (segments progs) /\ segs_apart (segments progs);
  lib_dynamic : exists p, getDynamic f h = Some (Some p) /\
    dyn_entries (drop (Z.to_nat (p_offset p)) f) (blank name) = Some d /\ rel_info_ok (rel d) = true;
  lib_rels : rel_count (rel d) = Z.of_nat (length rels) /\ Forall (fun q => rel_ok (segments progs) q.1) rels;
  lib_places : forall j k q q', rels !! j = Some q -> rels !! k = Some q' -> overlap q.1 q'.1 -> j = k;
  lib_dynsym : exists sec, getDynamicSymbols f h = Some (Some sec) /\
    forall j r s, rels !! j = Some (r, s) -> rel_get (rel d) f (Z.of_nat j) = Some r /\
      exists l, read_at f (sh_offset sec + 16 * idx r) 16 = Some l /\ symbol_of l = s;
  lib_strtab : exists names sec, section f h (shstrndx h) = Some names /\
    find_strtab f h (sh_offset names) 0 (Z.to_nat (shnum h)) = Some (Some sec) /\
    read_at f (sh_offset sec) (sh_size sec) = Some strs;
  lib_symtab : exists sec l, getSymbolTable f h = Some (Some sec) /\ sh_size sec mod 16 = 0 /\
    read_at f (sh_offset sec) (sh_size sec) = Some l /\ symbols_of l (Z.to_nat (sh_size sec / 16)) = syms;
}.

Lemma dyn_entry_headers tag value g d : dyn_entry tag value (set_headers g d) = set_headers g (dyn_entry tag value d).
Proof. unfold dyn_entry. by repeat case_match. Qed.

Fixpoint dyn_entries_headers g (l : list Z) {struct l} : forall d,
  dyn_entries l (set_headers g d) = set_headers g <$> dyn_entries l d.
Proof.
  destruct l as [|t0 [|t1 [|t2 [|t3 l]]]]; intros d; try reflexivity. cbn [dyn_entries].
  destruct (word [t0; t1; t2; t3] =? 0); [reflexivity|].
  destruct l as [|v0 [|v1 [|v2 [|v3 l]]]]; try reflexivity. rewrite dyn_entry_headers. apply dyn_entries_headers.
Qed.

Lemma findRealAddress_range infos y : 0 <= findRealAddress infos y < 2 ^ 32.
Proof.
  induction infos as [|i infos IH]; cbn [findRealAddress]; [lia|]. case_match; [|done].
  width. apply Z.mod_pos_bound. lia.
Qed.

Lemma reloc_value_range infos r s : 0 <= reloc_value infos r s < 256 ^ Z.of_nat 4.
Proof.
  unfold reloc_value. change (256 ^ Z.of_nat 4) with (2 ^ 32). case_match; [apply findRealAddress_range|].
  width. apply Z.mod_pos_bound. lia.
Qed.

(** What [dlopen] has put into the memory [w1] when it comes to the initialisers *)
Record laid_out {W} `{UserVmLaws W} (f : list Z) (w0 w1 : W) (segs : list elf_program_t)
    (rels : list (elf_rel_t * elf_symtab_entry_t)) (infos : list ph_load_info) : Prop := {
  lo_placed : Forall2 placed infos segs;
  lo_apart : forall j k i i' x, infos !! j = Some i -> infos !! k = Some i' -> in_virt i x -> in_virt i' x -> j = k;
  lo_real : forall j i p y, infos !! j = Some i -> segs !! j = Some p -> in_seg p y ->
    findRealAddress infos y = virt_start i + (y - p_vaddr p);
  lo_bytes : forall j p y, segs !! j = Some p -> in_seg p y -> (forall q, q ∈ rels -> ~ at_place q.1 y) ->
    load w1 (findRealAddress infos y) = image_byte f p (y - p_vaddr p);
  lo_words : forall r s, (r, s) ∈ rels -> load_word w1 (findRealAddress infos (r_offset r)) = Some (reloc_value infos r s);
  lo_outside : forall x, is_Some (load w0 x) -> load w1 x = load w0 x;
}.

Section Library.
Context {W : Type} `{UserVmLaws W}.

Lemma laid_out_of f w0 w w1 infos segs rels :
  loaded f w0 w infos segs -> Forall (seg_ok f) segs -> segs_apart segs -> Forall (fun q => rel_ok segs q.1) rels ->
  relocated w0 w infos segs w1 rels -> laid_out f w0 w1 segs rels infos.
Proof.
  intros L Hs Ha Hr R. constructor.
  - apply (ld_placed _ _ _ _ _ L).
  - apply (ld_apart _ _ _ _ _ L).
  - intros j i p y Hi Hp Hy. by eapply real_in; [apply (ld_placed _ _ _ _ _ L)|..].
  - intros j p y Hp Hy Hn. rewrite (rl_bytes _ _ _ _ _ _ R).
    + destruct (Forall2_lookup_r _ _ _ _ _ (ld_placed _ _ _ _ _ L) Hp) as (i & Hi & P).
      rewrite (real_in f infos segs j i p y (ld_placed _ _ _ _ _ L) Hs Ha Hi Hp Hy).
      apply (ld_bytes _ _ _ _ _ L _ _ _ _ Hi Hp). unfold in_seg in Hy. lia.
    + by exists j, p.
    + intros k r s Hk. apply (Hn (r, s)). by eapply list_elem_of_lookup_2.
  - intros r s Hin. apply list_elem_of_lookup_1 in Hin as [j Hj].
    pose proof (Forall_lookup_1 _ _ _ _ Hr Hj) as Hok. cbn [fst] in Hok.
    destruct (rel_place f w0 w infos segs L Hs Ha r 0 Hok ltac:(lia)) as [I0 _].
    destruct (rel_place f w0 w infos segs L Hs Ha r 3 Hok ltac:(lia)) as [I3 E3].
    pose proof (real_range f w0 w infos segs L Hs Ha _ I3). rewrite Z.add_0_r in I0.
    pose proof (real_range f w0 w infos segs L Hs Ha _ I0).
    unfold load_word. change 4%nat with (length (bytes 4 (reloc_value infos r s))).
    rewrite load_list_spec; rewrite ?bytes_length; [|lia|lia|].
    + cbn [mbind option_bind]. f_equal. apply word_bytes, reloc_value_range.
    + intros k Hk. by eapply (rl_words _ _ _ _ _ _ R).
  - apply (rl_outside _ _ _ _ _ _ R).
Qed.

Lemma do_load_elf_ok call w0 dylibs f name h progs rels strs syms d :
  library f name h progs rels strs syms d -> total_pages (segments progs) <= room w0 ->
  exists w1 img, laid_out f w0 w1 (segments progs) rels (headers img) /\ stringtab img = strs /\ symbols img = syms /\
    init_array img = init_array d /\
    do_load_elf call w0 f (blank name) dylibs =
      w2 ← do_execute_init call w1 img; Some (true, img, do_protect_readonly w2 (headers img), dylibs ++ [img]).
Proof.
  intros Hlib Hr. destruct (lib_header _ _ _ _ _ _ _ _ Hlib) as (E1 & E2 & E3).
  destruct (lib_phnum _ _ _ _ _ _ _ _ Hlib) as [E4 E5]. destruct (lib_segments _ _ _ _ _ _ _ _ Hlib) as [Hs Ha].
  destruct (load_programs_ok f h w0 progs w0 [] [] (blank name) 0 ltac:(constructor) (loaded_nil f w0) eq_refl
    (lib_programs _ _ _ _ _ _ _ _ Hlib) Hs Hr) as (w & infos & E6 & L).
  destruct (lib_dynamic _ _ _ _ _ _ _ _ Hlib) as (dyn & E7 & E8 & E9).
  destruct (lib_rels _ _ _ _ _ _ _ _ Hlib) as [E10 Hok]. destruct (lib_dynsym _ _ _ _ _ _ _ _ Hlib) as (dsec & E11 & E12).
  destruct (relocate_ok f w0 w infos (segments progs) L Hs Ha (set_headers (fun _ => infos) d) (sh_offset dsec) rels w [] 0
    eq_refl Hok (relocated_nil _ _ _ _ _ L) (lib_places _ _ _ _ _ _ _ _ Hlib) E12) as (w1 & E13 & R).
  destruct (lib_strtab _ _ _ _ _ _ _ _ Hlib) as (names & ssec & E14 & E15 & E16).
  destruct (lib_symtab _ _ _ _ _ _ _ _ Hlib) as (ysec & l & E17 & E18 & E19 & E20).
  exists w1, (set_symbols syms (set_stringtab strs (set_headers (fun _ => infos) d))).
  split; [by eapply laid_out_of|]. split_and!; try done.
  unfold do_load_elf. rewrite E1; cbn [mbind option_bind]. rewrite E2, E3; cbn [negb].
  unfold do_load_programs. rewrite (proj2 (Z.ltb_ge _ _)) by done. rewrite E4, Nat2Z.id, E6; cbn [mbind option_bind negb].
  unfold do_discover_relocations. rewrite E7; cbn [mbind option_bind]. rewrite dyn_entries_headers, E8; cbn [fmap option_fmap option_map mbind option_bind].
  change (rel (set_headers _ d)) with (rel d). rewrite E9; cbn [negb].
  unfold do_perform_relocations. rewrite E11; cbn [mbind option_bind].
  change (rel (set_headers _ d)) with (rel d). rewrite E10, Nat2Z.id. cbn [app] in E13 |- *. rewrite E13; cbn [mbind option_bind negb].
  unfold do_get_string_table. rewrite E14; cbn [mbind option_bind]. rewrite E15; cbn [mbind option_bind]. rewrite E16; cbn [mbind option_bind negb].
  unfold do_get_symbol_table. rewrite E17; cbn [mbind option_bind]. rewrite E18; cbn [Z.eqb negb]. rewrite E19; cbn [mbind option_bind negb].
  rewrite E20. done.
Qed.

(** ** Initialisers *)

(** What one entry of the array does: a null pointer is skipped *)
Definition init_one (call : W -> Z -> W) (w : W) (p : Z) : W := if negb (p =? 0) then call w p else w.

Lemma init_loop_ok call ptrs : forall w a,
  0 < a -> a + 4 * Z.of_nat (length ptrs) < 2 ^ 32 ->
  (forall w p x, a <= x < a + 4 * Z.of_nat (length ptrs) -> load (call w p) x = load w x) ->
  (forall k p, ptrs !! k = Some p -> load_word w (a + 4 * Z.of_nat k) = Some p) ->
  init_loop call w a (4 * Z.of_nat (length ptrs)) (length ptrs) = Some (foldl (init_one call) w ptrs).
Proof.
  induction ptrs as [|p ptrs IH]; intros w a Ha Hl Hcall Hp; [done|].
  cbn [length] in *. rewrite Nat2Z.inj_succ in *. cbn [init_loop foldl].
  rewrite (proj2 (Z.eqb_neq _ 0)) by lia. rewrite (proj2 (Z.eqb_neq a 0)) by lia. cbn [negb].
  pose proof (Hp 0%nat p eq_refl) as E. rewrite Z.mul_0_r, Z.add_0_r in E. rewrite E; cbn [mbind option_bind].
  change (if negb (p =? 0) then call w p else w) with (init_one call w p).
  replace (u32 (a + 4)) with (a + 4) by (width; rewrite Z.mod_small by lia; done).
  replace (u32 (4 * Z.succ (Z.of_nat (length ptrs)) - 4)) with (4 * Z.of_nat (length ptrs)) by (width; rewrite Z.mod_small by lia; lia).
  apply IH; [lia|lia| |].
  - intros w' q x Hx. apply Hcall. lia.
  - intros k q Hk. pose proof (lookup_lt_Some _ _ _ Hk). rewrite <- (Hp (S k) q Hk).
    replace (a + 4 * Z.of_nat (S k)) with (a + 4 + 4 * Z.of_nat k) by lia.
    unfold load_word, init_one. case_match; [|done].
    assert (El : forall x, a <= x < a + 4 * Z.succ (Z.of_nat (length ptrs)) -> load (call w p) x = load w x) by (intros x Hx; by apply Hcall).
    cbn [load_list]. rewrite !El; [done|..]; width; repeat rewrite Z.mod_small by lia; lia.
Qed.

(** ** Symbols *)

(** [s] is the first symbol of the table with the name [target] *)
Definition first_named (strs : list Z) (syms : list elf_symtab_entry_t) (target : list Z) (s : elf_symtab_entry_t) : Prop :=
  exists j, syms !! j = Some s /\ st_name s <> 0 /\ streq (drop (Z.to_nat (st_name s)) strs) target = Some true /\
    forall k s', (k < j)%nat -> syms !! k = Some s' -> st_name s' = 0 \/ streq (drop (Z.to_nat (st_name s')) strs) target = Some false.

(** no symbol of the table has it *)
Definition not_named (strs : list Z) (syms : list elf_symtab_entry_t) (target : list Z) : Prop :=
  forall s, s ∈ syms -> st_name s = 0 \/ streq (drop (Z.to_nat (st_name s)) strs) target = Some false.

Lemma dlsym_loop_first segs strs syms target : forall s,
  first_named strs syms target s -> dlsym_loop segs strs syms target = Some (findRealAddress segs (st_value s)).
Proof.
  induction syms as [|s0 syms IH]; intros s (j & Hj & Hn & Heq & Hbefore); [done|]. cbn [dlsym_loop].
  destruct j as [|j]; simpl in Hj.
  - simplify_eq. rewrite (proj2 (Z.eqb_neq _ 0)), Heq by done. done.
  - assert (E : dlsym_loop segs strs syms target = Some (findRealAddress segs (st_value s))).
    { apply IH. exists j. split_and!; try done. intros k s' Hk. apply (Hbefore (S k)). lia. }
    destruct (Hbefore 0%nat s0 ltac:(lia) eq_refl) as [->| ->]; [done|]. by destruct (st_name s0 =? 0).
Qed.

Lemma dlsym_loop_none segs strs syms target : not_named strs syms target -> dlsym_loop segs strs syms target = Some 0.
Proof.
  induction syms as [|s0 syms IH]; intros Hn; [done|]. cbn [dlsym_loop].
  assert (E : dlsym_loop segs strs syms target = Some 0) by (apply IH; intros s Hs; apply Hn; by right).
  destruct (Hn s0 ltac:(by left)) as [->| ->]; [done|]. by destruct (st_name s0 =? 0).
Qed.

Lemma dlsym_default_app target l img :
  Forall (fun i => not_named (stringtab i) (symbols i) target) l ->
  dlsym_default (l ++ [img]) target = dlsym_default [img] target.
Proof.
  induction 1 as [|i l Hi _ IH]; [done|]. cbn [app dlsym_default]. unfold do_dlsym at 1.
  rewrite (dlsym_loop_none _ _ _ _ Hi). cbn [mbind option_bind Z.eqb negb]. done.
Qed.

Lemma protect_keeps_memory l : forall w x, load (do_protect_readonly w l) x = load w x.
Proof.
  induction l as [|i l IH]; intros w x; [done|]. cbn [do_protect_readonly]. rewrite IH. destruct (readonly i); [|done].
  unfold protect. destruct (setregionperms_syscall w (virt_start i) (region_perm VM_REGION_READONLY)) as [mo w'] eqn:E.
  pose proof (perms_law w (virt_start i) (region_perm VM_REGION_READONLY) x) as L. rewrite E in L. done.
Qed.

(** ** Properties *)


(** C16: a symbol that a library without initialisers defines is found by [dlsym], through the
    handle and, when the libraries loaded before do not have the name, also through all of
    them: the address is not null and the bytes there are those of the symbol in the file,
    up to relocated words. *)
Theorem dlsym_finds_bytes call w0 dylibs f name h progs rels strs syms d target s j p :
  library f name h progs rels strs syms d -> total_pages (segments progs) <= room w0 ->
  location (init_array d) = 0 \/ array_size (init_array d) = 0 ->
  first_named strs syms target s -> segments progs !! j = Some p ->
  in_seg p (st_value s) -> 0 <= st_size s -> st_value s + st_size s <= p_vaddr p + p_memsz p ->
  Forall (fun i => not_named (stringtab i) (symbols i) target) dylibs ->
  exists img w' a, dlopen call w0 dylibs name (Some f) = Some (Some img, w', dylibs ++ [img]) /\
    dlsym (dylibs ++ [img]) (Image img) target = Some a /\ dlsym (dylibs ++ [img]) RTLD_DEFAULT target = Some a /\ a <> 0 /\
    forall k, 0 <= k < st_size s -> (forall q, q ∈ rels -> ~ at_place q.1 (st_value s + k)) ->
      load w' (a + k) = image_byte f p (st_value s - p_vaddr p + k).
Proof.
  intros Hlib Hr Hinit Hs Hp Hin Hsz Hend Hdy.
  destruct (do_load_elf_ok call w0 dylibs f name h progs rels strs syms d Hlib Hr) as (w1 & img & L & E1 & E2 & E3 & E).
  destruct (Forall2_lookup_r _ _ _ _ _ (lo_placed _ _ _ _ _ _ L) Hp) as (i & Hi & P).
  exists img, (do_protect_readonly w1 (headers img)), (findRealAddress (headers img) (st_value s)).
  assert (Ex : do_execute_init call w1 img = Some w1).
  { unfold do_execute_init. rewrite E3. destruct Hinit as [->| ->]; [done|]. by rewrite orb_true_r. }
  assert (Ea : do_dlsym img target = Some (findRealAddress (headers img) (st_value s))).
  { unfold do_dlsym. rewrite E1, E2. by apply dlsym_loop_first. }
  assert (Hreal : forall k, 0 <= k <= st_size s -> in_seg p (st_value s + k) ->
    findRealAddress (headers img) (st_value s + k) = virt_start i + (st_value s + k - p_vaddr p)).
  { intros k Hk Hy. by apply (lo_real _ _ _ _ _ _ L j). }
  pose proof (Hreal 0 ltac:(lia) ltac:(by rewrite Z.add_0_r)) as E0. rewrite Z.add_0_r in E0.
  assert (Hne : findRealAddress (headers img) (st_value s) <> 0) by (destruct (pl_virt _ _ P); unfold in_seg in Hin; lia).
  split_and!; [|done| |done|].
  - unfold dlopen. rewrite E, Ex. done.
  - cbn [dlsym]. rewrite dlsym_default_app by done. cbn [dlsym_default]. rewrite Ea; cbn [mbind option_bind].
    rewrite (proj2 (Z.eqb_neq _ 0)) by done. done.
  - intros k Hk Hn. rewrite protect_keeps_memory.
    assert (Hy : in_seg p (st_value s + k)) by (unfold in_seg in *; lia).
    replace (findRealAddress (headers img) (st_value s) + k) with (findRealAddress (headers img) (st_value s + k))
      by (rewrite (Hreal k) by (lia || done); lia).
    rewrite (lo_bytes _ _ _ _ _ _ L j p _ Hp Hy Hn). f_equal. lia.
Qed.

(** The initialisers run once each in the order of the array, null pointers aside, and the loop ends. *)
Theorem initialisers_run_in_order call w img ptrs :
  let a := findRealAddress (headers img) (location (init_array img)) in
  location (init_array img) <> 0 -> array_size (init_array img) = 4 * Z.of_nat (length ptrs) -> 0 < a ->
  a + 4 * Z.of_nat (length ptrs) < 2 ^ 32 ->
  (forall w p x, a <= x < a + 4 * Z.of_nat (length ptrs) -> load (call w p) x = load w x) ->
  (forall k p, ptrs !! k = Some p -> load_word w (a + 4 * Z.of_nat k) = Some p) ->
  do_execute_init call w img = Some (foldl (init_one call) w ptrs).
Proof.
  intros a Hloc Hsz Ha Hl Hc Hp. unfold do_execute_init. rewrite (proj2 (Z.eqb_neq _ 0)) by done. rewrite Hsz; cbn [orb].
  destruct (Z.eqb_spec (4 * Z.of_nat (length ptrs)) 0) as [E0|E0]; [by destruct ptrs|].
  rewrite (Z.mul_comm 4), Z.div_mul, Nat2Z.id, Z.mul_comm by lia. by apply init_loop_ok.
Qed.
End Library.

(** ** A flat memory and a small library *)

Module Flat.

(** Regions are put one behind the other from [next] on *)
Record flat := mkFlat { cells : gmap Z Z; next : Z }.

Definition zeros (a : Z) (n : nat) : gmap Z Z := list_to_map ((fun k => (a + Z.of_nat k, 0)) <$> seq 0 n).

Definition tidy (w : flat) : Prop := 0 < next w /\ next w mod 4096 = 0 /\ map_Forall (fun k _ => k < next w) (cells w).
#[global] Instance tidy_dec w : Decision (tidy w).
Proof. unfold tidy. apply _. Defined.

#[global] Instance flat_vm : UserVm flat := {
  load w a := cells w !! a;
  store w a b := if decide (is_Some (cells w !! a)) then Some (mkFlat (<[a:=b]> (cells w)) (next w)) else None;
  mapregion_syscall w sz _ :=
    if next w + sz <=? 2 ^ 32 then (next w, mkFlat (zeros (next w) (Z.to_nat sz) ∪ cells w) (next w + sz)) else (1, w);
  setregionperms_syscall w _ _ := (0, w);
}.

Lemma zeros_lookup a n x : zeros a n !! x = if decide (a <= x < a + Z.of_nat n) then Some 0 else None.
Proof.
  unfold zeros. case_decide as Hx.
  - apply elem_of_list_to_map_1.
    + rewrite <- list_fmap_compose. apply NoDup_fmap_2_strong; [|apply NoDup_seq]. intros i j _ _. simpl. lia.
    + apply list_elem_of_fmap. exists (Z.to_nat (x - a)). split; [f_equal; lia|]. apply elem_of_seq. lia.
  - apply not_elem_of_list_to_map_1. rewrite <- list_fmap_compose. intros (k & -> & Hk)%list_elem_of_fmap.
    apply elem_of_seq in Hk. simpl in Hx. lia.
Qed.

#[global] Program Instance flat_laws : UserVmLaws flat := {
  writable w x := is_Some (cells w !! x);
  room w := if decide (tidy w) then 2 ^ 32 - next w else 0;
}.
Next Obligation. done. Qed.
Next Obligation.
  intros w a b Hw. cbn. rewrite decide_True by done. eexists. split; [done|]. cbn. split_and!.
  - intros x. case_decide as E; [by subst; rewrite lookup_insert_eq|by rewrite lookup_insert_ne].
  - intros x. destruct (decide (a = x)) as [->|]; [rewrite lookup_insert_eq|by rewrite lookup_insert_ne]. split; eauto.
  - assert (Ht : tidy (mkFlat (<[a:=b]> (cells w)) (next w)) <-> tidy w).
    { unfold tidy; cbn. split; intros (? & ? & F); split_and!; try done.
      - intros k v Hk. destruct (decide (k = a)) as [->|]; [apply (F a b), lookup_insert_eq|].
        apply (F k v). by rewrite lookup_insert_ne.
      - intros k v Hk. destruct (decide (k = a)) as [->|]; [destruct Hw as [c Hc]; by apply (F a c)|].
        rewrite lookup_insert_ne in Hk by done. by apply (F k v). }
    by rewrite (decide_ext _ _ _ _ Ht).
Qed.
Next Obligation.
  intros w sz a w' Hsz Hm E. cbn in E, Hsz. case_decide as Ht; [|lia]. rewrite (proj2 (Z.leb_le _ _)) in E by lia.
  simplify_eq. destruct Ht as (H0 & Hn & F).
  assert (Hl : forall x, (zeros (next w) (Z.to_nat sz) ∪ cells w) !! x =
    if decide (next w <= x < next w + sz) then Some 0 else cells w !! x).
  { intros x. rewrite lookup_union, zeros_lookup, Z2Nat.id by lia. repeat case_decide; try done.
    - by destruct (cells w !! x).
    - by destruct (cells w !! x). }
  assert (Hf : forall x, next w <= x -> cells w !! x = None).
  { intros x Hx. destruct (cells w !! x) as [v|] eqn:E; [|done]. specialize (F x v E). simpl in F. lia. }
  split_and!; try lia; try done.
  - cbn. rewrite (decide_True (P := tidy w)) by done. rewrite decide_True; [cbn; lia|]. unfold tidy; cbn. split_and!; [lia| |].
    + rewrite Z.add_mod, Hn, Hm by lia. done.
    + intros k v Hk. rewrite Hl in Hk. case_decide; [lia|]. specialize (F k v Hk). simpl in F. lia.
  - intros x Hx. cbn. rewrite Hl, decide_True by lia. split; [apply Hf; lia|done].
  - intros x Hx. cbn. rewrite Hl, decide_False by lia. done.
  - intros x Hx. cbn. rewrite Hl. by case_decide.
Qed.
Next Obligation. done. Qed.

Definition words (l : list Z) : list Z := l ≫= bytes 4.

Definition small_header : list Z :=
  [0x7f; 0x45; 0x4c; 0x46; 1; 1; 1] ++ replicate 9 0 ++ [3; 0; 3; 0] ++ words [1; 0; 52; 224; 0] ++
  [52; 0; 32; 0; 2; 0; 40; 0; 5; 0; 4; 0].
Definition small_programs : list Z := words [1; 0; 0; 0; 212; 300; 6; 4096; 2; 116; 116; 0; 32; 32; 6; 4].
Definition small_dynamic : list Z := words [17; 148; 18; 16; 19; 8; 0; 0].
(** two words that refer to the symbol 1, one of them relative to its place *)
Definition small_rels : list Z := words [196; 257; 200; 258].
Definition small_symbols : list Z := replicate 16 0 ++ words [1; 204; 4] ++ [0; 0; 1; 0].
Definition small_data : list Z := words [8; 0; 0x04030201].
Definition small_strings : list Z := [0; 118; 0; 0] ++ [0; 46; 115; 116; 114; 116; 97; 98; 0; 0; 0; 0].
Definition small_sections : list Z :=
  replicate 40 0 ++ words [0; 0xb; 0; 0; 164; 32; 0; 0; 0; 16] ++ words [0; 2; 0; 0; 164; 32; 0; 0; 0; 16] ++
  words [1; 3; 0; 0; 208; 3; 0; 0; 0; 0] ++ words [0; 3; 0; 0; 212; 9; 0; 0; 0; 0].

Definition small : list Z :=
  small_header ++ small_programs ++ small_dynamic ++ small_rels ++ small_symbols ++ small_data ++ small_strings ++ small_sections.

Definition start_memory : flat := mkFlat ∅ 0x1000000.
Definition no_call (w : flat) (_ : Z) : flat := w.

Definition opened := dlopen no_call start_memory [] [108] (Some small).

(** The words at the two places and the one the symbol stands for *)
Definition opened_words : option (option Z * option Z * option Z * option Z) :=
  '(img, w, dylibs) ← opened; img ← img;
  Some (load_word w (0x1000000 + 196), load_word w (0x1000000 + 200), load_word w (0x1000000 + 204),
    dlsym dylibs RTLD_DEFAULT [118]).

(** The first word held the addend 8, which is overwritten *)
Example small_opened :
  opened_words = Some (Some (0x1000000 + 204), Some 0, Some 0x04030201, Some (0x1000000 + 204)).
Proof. vm_compute. reflexivity. Qed.

Definition small_h : elf_header_t := header_of (take 52 small).
Definition small_load : elf_program_t := program_of (take 32 small_programs).
Definition small_dyn : elf_program_t := program_of (drop 32 small_programs).
Definition small_symbol : elf_symtab_entry_t := symbol_of (drop 16 small_symbols).
Definition small_relocations : list (elf_rel_t * elf_symtab_entry_t) :=
  [(rel_of (take 8 small_rels), small_symbol); (rel_of (drop 8 small_rels), small_symbol)].
Definition small_image : loaded_elf_image_t :=
  mkImage [108] [] [] [] (mkRelInfo 0 0 0) (mkRelInfo 148 8 16) (mkArray 0 0) (mkArray 0 0).
Definition small_names : list Z := [0; 118; 0].

Lemma small_library :
  library small [108] small_h [small_load; small_dyn] small_relocations small_names
    (symbols_of small_symbols 2) small_image.
Proof.
  constructor.
  - vm_compute. done.
  - vm_compute. done.
  - intros [|[|j]] p Hp; simplify_eq/=; vm_compute; done.
  - change (segments [small_load; small_dyn]) with [small_load]. split.
    + constructor; [constructor; split_and?; by vm_compute|constructor].
    + intros [|j] [|k] p q y Hp Hq; simplify_eq/=; done.
  - exists small_dyn. split_and!; vm_compute; done.
  - split; [by vm_compute|]. change (segments [small_load; small_dyn]) with [small_load].
    constructor; [|constructor; [|constructor]].
    + split; [by left; vm_compute|exists 0%nat, small_load; split_and!; by vm_compute].
    + split; [by right; vm_compute|exists 0%nat, small_load; split_and!; by vm_compute].
  - intros [|[|j]] [|[|k]] q q' Hq Hq'; simplify_eq/=; try done; intros [H1 H2]; vm_compute in H1, H2; done.
  - exists (section_of (take 40 (drop 40 small_sections))). split; [by vm_compute|].
    intros [|[|j]] r s Hj; simplify_eq/=; (split; [by vm_compute|eexists; split; by vm_compute]).
  - exists (section_of (drop 160 small_sections)), (section_of (take 40 (drop 120 small_sections))). split_and!; by vm_compute.
  - exists (section_of (take 40 (drop 80 small_sections))), small_symbols. split_and!; by vm_compute.
Qed.

Lemma small_fits : total_pages (segments [small_load; small_dyn]) <= room start_memory.
Proof. vm_compute. done. Qed.


Lemma dlsym_finds_bytes_witness :
  exists img w' a, dlopen no_call start_memory [] [108] (Some small) = Some (Some img, w', [img]) /\
    dlsym [img] (Image img) [118] = Some a /\ dlsym [img] RTLD_DEFAULT [118] = Some a /\ a <> 0 /\
    forall k, 0 <= k < 4 -> (forall q, q ∈ small_relocations -> ~ at_place q.1 (204 + k)) ->
      load w' (a + k) = image_byte small small_load (204 - 0 + k).
Proof.
  apply (dlsym_finds_bytes no_call start_memory [] small [108] small_h _ _ _ _ _ [118] small_symbol 0 small_load
    small_library small_fits).
  - left. reflexivity.
  - exists 1%nat. split_and!; try (by vm_compute). intros [|k] s' Hk Hs; [|lia]. simplify_eq/=. left. by vm_compute.
  - reflexivity.
  - by vm_compute.
  - by vm_compute.
  - by vm_compute.
  - constructor.
Defined.

End Flat.
