(* ===== verification/Boot.v ===== *)
(** * From the boot loader to the first process (kernel/src/boot, kernel/src/sys/config.cpp,
    the constructor and [setheap] of kernel/src/mm/virt.cpp)

    [Multiboot] is what the boot loader leaves in memory, [Config] the kernel command
    line, [Phases] the table of boot phases and its run, [Paging] the first page tables as
    words in physical frames with the walk of the processor over them, and [EarlyBoot] the
    set-up of physical memory, kernel regions, screen and modules over [Phys] and [Virt].
    A result [None] is a panic or a hang. *)

From stdpp Require Import base numbers list gmap option strings.
From Stdlib Require Import ZArith Lia Bool Ascii.
From S2P Require Import Prelude Interval Phys Virt Files MemMgr Cpu.

Local Open Scope Z_scope.

(** ** The data of the boot loader *)

Module Multiboot.
Import Bytes.

Section Memory.
(** The byte at an address, as the boot loader left it *)
Context (mem : Z -> Z).

Definition read (a : Z) (n : nat) : Z := word ((fun k => mem (u32 (a + Z.of_nat k))) <$> seq 0 n).

(** The fields of the header that the kernel reads *)
Record multiboot_info := mkInfo {
  flags : Z; cmdline : Z; mods_count : Z; mods_addr : Z; mmap_length : Z; mmap_addr : Z;
  framebuffer_addr : Z; framebuffer_pitch : Z; framebuffer_width : Z; framebuffer_height : Z; framebuffer_bpp : Z;
}.

Definition info_at (a : Z) : multiboot_info :=
  mkInfo (read a 4) (read (a + 16) 4) (read (a + 20) 4) (read (a + 24) 4) (read (a + 44) 4) (read (a + 48) 4)
    (read (a + 88) 8) (read (a + 96) 4) (read (a + 100) 4) (read (a + 104) 4) (read (a + 108) 1).

Record mmap_entry := mkEntry { e_size : Z; e_addr : Z; e_len : Z; e_type : Z }.

Definition entry_at (a : Z) : mmap_entry := mkEntry (read a 4) (read (a + 4) 8) (read (a + 12) 8) (read (a + 20) 4).

Record mod_list := mkMod { mod_start : Z; mod_end : Z; mod_cmdline : Z }.

Definition mod_at (a : Z) : mod_list := mkMod (read a 4) (read (a + 4) 4) (read (a + 8) 4).

(** The bytes of a C string before its terminator, [n] at most *)
Fixpoint cstring (a : Z) (n : nat) : list Z :=
  match n with
  | O => []
  | S n => if mem a =? 0 then [] else mem a :: cstring (u32 (a + 1)) n
  end.

(** [kernel_cmdline_t::fill]: the text and [actualSize] *)
Definition gCmdlineMaxSize : nat := 1024.
Definition fill (arg : Z) : list Z * Z :=
  let text := cstring arg (gCmdlineMaxSize - 1) in
  (text, if (length text =? 0)%nat then 0 else Z.of_nat (length text) - 1).

Record framebuf_info_t := mkFb { width : Z; height : Z; pitch : Z; bpp : Z; videoram : Z }.

Definition framebuf_info (mbi : multiboot_info) : framebuf_info_t :=
  mkFb (u16 (framebuffer_width mbi)) (u16 (framebuffer_height mbi)) (u16 (framebuffer_pitch mbi)) (u8 (framebuffer_bpp mbi))
    (u32 (framebuffer_addr mbi)).

End Memory.
End Multiboot.

(** ** The command line of the kernel *)

Module Config.
Import Bytes.

Record kernel_config_t := mkConfig { logging : Z; mainfs : option (list Z); logsize : Z }.

Definition gFullLogging : Z := 255.
Definition gDefaultLogsize : Z := 64.
Definition default_config : kernel_config_t := mkConfig gFullLogging None gDefaultLogsize.

Definition space : Z := 32.
Definition equals : Z := 61.

(** [strtok_r] with the one delimiter; [cur]: the token so far *)
Fixpoint tokens_from (cur s : list Z) : list (list Z) :=
  match s with
  | [] => match cur with [] => [] | _ => [cur] end
  | c :: s =>
      if c =? space then match cur with [] => tokens_from [] s | _ => cur :: tokens_from [] s end
      else tokens_from (cur ++ [c]) s
  end.
Definition tokens (s : list Z) : list (list Z) := tokens_from [] s.

(** [atoi] of the C library: blanks, a sign, digits, held within the range of a [long] *)
Definition is_digit (c : Z) : bool := (48 <=? c) && (c <=? 57).
Definition is_blank (c : Z) : bool := (c =? 32) || ((9 <=? c) && (c <=? 13)).

Fixpoint digits (acc : Z) (s : list Z) : Z :=
  match s with
  | c :: s => if is_digit c then digits (10 * acc + (c - 48)) s else acc
  | [] => acc
  end.

Fixpoint skip_blanks (s : list Z) : list Z :=
  match s with
  | c :: s' => if is_blank c then skip_blanks s' else s
  | [] => []
  end.

Definition clamp (z : Z) : Z := Z.max (- 2 ^ 31) (Z.min z (2 ^ 31 - 1)).

Definition atoi (s : list Z) : Z :=
  match skip_blanks s with
  | [] => 0
  | c :: s => if c =? 45 then clamp (- digits 0 s) else if c =? 43 then clamp (digits 0 s) else clamp (digits 0 (c :: s))
  end.

(** [strchr(option, '=')]: what is before and behind it *)
Fixpoint split_eq (s : list Z) : option (list Z * list Z) :=
  match s with
  | [] => None
  | c :: s => if c =? equals then Some ([], s) else '(k, v) ← split_eq s; Some (c :: k, v)
  end.

(** [matches]: equal lengths, then [strncmp] *)
Definition matches (x y : list Z) : bool := if (length x =? length y)%nat then bool_decide (x = y) else false.

Definition set_option (kcfg : kernel_config_t) (key value : list Z) : kernel_config_t :=
  if matches key (chars "loglevel") then mkConfig (u8 (atoi value)) (mainfs kcfg) (logsize kcfg)
  else if matches key (chars "mainfs") then mkConfig (logging kcfg) (Some value) (logsize kcfg)
  else if matches key (chars "logsize") then
    let v := u16 (atoi value) in
    mkConfig (logging kcfg) (mainfs kcfg) (if v =? 0 then gDefaultLogsize else v)
  else kcfg.

(** [None]: without an equals sign the terminator is written through a null pointer *)
Definition parseOption (kcfg : kernel_config_t) (opt : list Z) : option kernel_config_t :=
  '(key, value) ← split_eq opt; Some (set_option kcfg key value).

Fixpoint parse_options (kcfg : kernel_config_t) (l : list (list Z)) : option kernel_config_t :=
  match l with
  | [] => Some kcfg
  | next :: l => kcfg ← parseOption kcfg next; parse_options kcfg l
  end.

Definition parseKernelCommandLine (kcmdline : list Z) : option kernel_config_t :=
  parse_options default_config (tokens kcmdline).

End Config.

(** ** Boot phases *)

Module Phases.

(** The name spaces of [boot] that have an [init] *)
Inductive phase_ns :=
| ns_config
| ns_logging
| ns_info
| ns_time
| ns_pic
| ns_pit
| ns_irq
| ns_i386
| ns_smbios
| ns_acpica
| ns_apic
| ns_pmtimer
| ns_klog
| ns_proc_manager
| ns_scheduler_tick
| ns_vfs
| ns_ramdisk
| ns_prng
| ns_ramdevice
| ns_pci
| ns_mount
| ns_syscalls
| ns_irqcount
| ns_time_files
| ns_msg_queue
| ns_eventfs
| ns_semaphorefs
| ns_mutexfs
| ns_fb_file
| ns_magicfiles
| ns_ioports.

#[global] Instance phase_ns_eq_dec : EqDecision phase_ns.
Proof. solve_decision. Defined.

Section Phases.
(** [K]: the state of the kernel; the operation, what runs after success and after
    failure.  The answer of [onFailure] says whether to go on. *)
Context {K : Type}.

Record bootphase_t := mkPhase {
  description : string; visible : bool; operation : option (K -> Z * K); onSuccess : option (K -> K);
  onFailure : option (Z -> K -> bool * K);
}.

Definition gSuccess : Z := 0.
Definition gContinueBoot : bool := true.
Definition gPanic : bool := false.
Definition gNumPhases : nat := 32.

Definition nop : bootphase_t := mkPhase EmptyString false None None None.

(** [gBootPhases] up to [gCurrentWriteIdx] *)
Definition registerBootPhase (t : list bootphase_t) (data : bootphase_t) : list bootphase_t :=
  if (gNumPhases <=? length t)%nat then t else t ++ [data].

Definition getBootPhase (t : list bootphase_t) (i : nat) : bootphase_t := default nop (t !! i).

(** One phase; [None]: the panic *)
Definition run_phase (k : K) (phase : bootphase_t) (op : K -> Z * K) : option K :=
  let '(ok, k) := op k in
  if ok =? gSuccess then Some (match onSuccess phase with Some f => f k | None => k end)
  else
    let '(musthang, k) := match onFailure phase with Some f => f ok k | None => (gContinueBoot, k) end in
    if Bool.eqb musthang gPanic then None else Some k.

(** The loop of [_runBootPhases] stops at the first entry without an operation, at the
    latest behind the table *)
Fixpoint run_from (t : list bootphase_t) (phaseidx n : nat) (k : K) : option K :=
  match n with
  | O => Some k
  | S n =>
      match operation (getBootPhase t phaseidx) with
      | None => Some k
      | Some op => k ← run_phase k (getBootPhase t phaseidx) op; run_from t (S phaseidx) n k
      end
  end.
Definition runBootPhases (t : list bootphase_t) (k : K) : option K := run_from t 0 (S (length t)) k.

(** The constructors of the image up to the first null pointer *)
Fixpoint runGlobalConstructors (ctors : list (option (K -> K))) (k : K) : K :=
  match ctors with
  | Some f :: ctors => runGlobalConstructors ctors (f k)
  | _ => k
  end.

(** [init] and [fail] of each name space *)
Context (init : phase_ns -> K -> Z * K) (fail : phase_ns -> Z -> K -> bool * K).

Definition phase (d : string) (ns : phase_ns) (fails : bool) : bootphase_t :=
  mkPhase d false (Some (init ns)) None (if fails then Some (fail ns) else None).


Definition first_phases : list bootphase_t :=
  [phase "Parse Kernel Commandline" ns_config false;
   phase "Configure logging" ns_logging false;
   phase "Parse Time Manager" ns_time false;
   phase "Initialize VFS layer" ns_vfs true;
   phase "Prepare events support" ns_eventfs true;
   phase "Prepare message queues support" ns_msg_queue true;
   phase "Prepare semaphores support" ns_semaphorefs true;
   phase "Prepare mutex support" ns_mutexfs true;
   phase "Create initial process" ns_proc_manager true;
   phase "Setup Interrupt Controller" ns_pic true;
   phase "Setup Legacy PIT" ns_pit true;
   phase "Enable IRQs" ns_irq true;
   phase "ACPICA initialization" ns_acpica true;
   phase "Print System Info" ns_info false;
   phase "Setup CPU state" ns_i386 false;
   phase "APIC discovery" ns_apic false].

Definition last_phases : list bootphase_t :=
  [phase "PM Timer discovery" ns_pmtimer false;
   phase "PCI" ns_pci false;
   phase "Volume discovery" ns_mount true;
   phase "Prepare system calls handlers" ns_syscalls true;
   phase "Forward interrupt counters to userspace" ns_irqcount true;
   phase "Forward date/time to userspace" ns_time_files false;
   phase "Install RAMDisk driver" ns_ramdisk false;
   phase "Install PRNG driver" ns_prng false;
   phase "Install x86 I/O space driver" ns_ioports false;
   phase "Setup magic file devices" ns_magicfiles false;
   phase "Install RAM driver" ns_ramdevice false;
   phase "Framebuffer driver" ns_fb_file false;
   phase "SMBIOS discovery" ns_smbios false;
   phase "Register Kernel Log Driver" ns_klog true;
   phase "Enter multitasking" ns_scheduler_tick true].


Definition loadBootPhases : list bootphase_t := foldl registerBootPhase [] (first_phases ++ last_phases).

End Phases.
End Phases.

(** ** The first page tables *)

Module Paging.
Import Indices.

Definition gPresentBit : Z := 0x1.
Definition gWritableBit : Z := 0x2.
Definition gUserBit : Z := 0x4.
Definition gGlobalBit : Z := 0x100.
Definition pagedirAttrib : Z := Z.lor gPresentBit (Z.lor gWritableBit gUserBit).
Definition kerneltblAttrib : Z := Z.lor gPresentBit (Z.lor gWritableBit gGlobalBit).
Definition gPageDirectoryAddress : Z := 0xffbff000.
Definition gKernelBase : Z := 0xC0000000.

(** The words of the frames that hold tables, by physical address and index.  The
    window of [scratchMap] shows the frame it is asked for. *)
Abbreviation tables := (gmap Z (gmap Z Z)).

Definition word_of (t : tables) (frame i : Z) : Z := default 0 (t !! frame ≫= (.!! i)).
Definition set_word (t : tables) (frame i v : Z) : tables := <[frame := <[i := v]> (default ∅ (t !! frame))]> t.
Definition zero_frame (t : tables) (frame : Z) : tables := <[frame := ∅]> t.

(** [~attrib] at 32 bits *)
Definition without (attrib v : Z) : Z := Z.land v (u32 (Z.lnot attrib)).

Section Setup.
Context (gNumPages : Z).

(** A table for each entry of the directory, from [i] on for [n] entries *)
Fixpoint alloc_tables (p : Phys.pmm) (t : tables) (pPde i : Z) (n : nat) : option (Phys.pmm * tables) :=
  match n with
  | O => Some (p, t)
  | S n =>
      '(pa, p) ← Phys.alloc gNumPages p;
      alloc_tables p (zero_frame (set_word t pPde i (Z.lor pa pagedirAttrib)) pa) pPde (i + 1) n
  end.

(** The pages of the kernel, from [cur] to [end_] *)
Fixpoint map_kernel (t : tables) (pPde : Z) (kernelidx : PagingIndices) (cur end_ : Z) (fuel : nat) : option tables :=
  if cur <? end_ then
    match fuel with
    | O => None
    | S fuel =>
        let pt := without pagedirAttrib (word_of t pPde (dir kernelidx)) in
        map_kernel (set_word t pt (tbl kernelidx) (Z.lor cur kerneltblAttrib)) pPde (next kernelidx) (u32 (cur + 4096)) end_ fuel
    end
  else Some t.

(** The entries of the directory as pages, from [i] on for [n] entries *)
Fixpoint map_tables (t : tables) (pPde : Z) (pagingidx : PagingIndices) (i : Z) (n : nat) : tables :=
  match n with
  | O => t
  | S n =>
      let pt := without pagedirAttrib (word_of t pPde (dir pagingidx)) in
      let t := if word_of t pPde i =? 0 then t
               else set_word t pt (tbl pagingidx) (without gUserBit (word_of t pPde i)) in
      map_tables t pPde (next pagingidx) (i + 1) n
  end.

(** The constructor of [VirtualPageManager]: the directory, and the state of memory *)
Definition build (p : Phys.pmm) (t : tables) (kernel_start kernel_end : Z) : option (Z * Phys.pmm * tables) :=
  '(pPde, p) ← Phys.alloc gNumPages p;
  '(p, t) ← alloc_tables p t pPde 0 1024;
  let cur := u32 (kernel_start - gKernelBase) in
  let end_ := u32 (kernel_end - gKernelBase) in
  t ← map_kernel t pPde (of_address kernel_start) cur end_ (Z.to_nat ((end_ - cur) / 4096 + 1));
  let pagingidx := of_address gPageDirectoryAddress in
  let pt := without pagedirAttrib (word_of t pPde (dir pagingidx)) in
  let t := set_word t pt (tbl pagingidx) (Z.lor pPde pagedirAttrib) in
  Some (pPde, p, map_tables t pPde (next pagingidx) 0 1024).

End Setup.

(** The walk of the processor from the directory [cr3]; [None]: a fault *)
Definition walk (t : tables) (cr3 v : Z) : option Z :=
  let pde := word_of t cr3 (dir (of_address v)) in
  if negb (Entry.get pde Entry.bPresent) then None
  else
    let pte := word_of t (Entry.page pde) (tbl (of_address v)) in
    if negb (Entry.get pte Entry.bPresent) then None else Some (Entry.page pte + v mod 4096).

(** The entries of all tables as [Virt] has them *)
Definition table_at (t : tables) (cr3 : Z) (d : nat) : gmap Z Z := default ∅ (t !! Entry.page (word_of t cr3 (Z.of_nat d))).
Definition entries_of (t : tables) (cr3 : Z) : gmap (Z * Z) Z :=
  foldr (fun (d : nat) (m : gmap (Z * Z) Z) => kmap (fun e => (Z.of_nat d, e)) (table_at t cr3 d) ∪ m) ∅ (seq 0 1024).

End Paging.

(** ** Early boot *)

Module EarlyBoot.
Import Multiboot Virt.

Definition gMultibootValid : Z := 0x2BADB002.
Definition gFourMB : Z := 4 * 1024 * 1024.

Definition fourMBPageForMultiboot (multiboot_data : Z) : Z := multiboot_data / gFourMB.
Definition multibootOffset (multiboot_data : Z) : Z := multiboot_data mod gFourMB.

Section Boot.
Context (gNumPages : Z) (mem : Z -> Z).

(** The address at which the header is read: the index of the large page, not its
    address, is the base *)
Definition multiboot_hdr (multiboot_data : Z) : Z :=
  u32 (fourMBPageForMultiboot multiboot_data + multibootOffset multiboot_data).

Definition getMultiboot (multiboot_data multiboot_magic : Z) : option multiboot_info :=
  if negb (multiboot_magic =? gMultibootValid) then None
  else
    let mbi := info_at mem (multiboot_hdr multiboot_data) in
    if negb (Z.land (flags mbi) 0x1041 =? 0x1041) then None else Some mbi.

Definition threshold : Z := 1048576.

(** One block of the memory map: what is added, if anything, as 64-bit numbers *)
Definition usable_block (e : mmap_entry) : option (Z * Z) :=
  if e_type e =? 1 then
    let '(start, len) :=
      if (e_addr e <? threshold) && (threshold <=? e_len e) then (threshold, u64 (e_len e - u64 (e_addr e - threshold)))
      else (e_addr e, e_len e) in
    if threshold <=? start then Some (start, len) else None
  else None.

Definition add_block (p : Phys.pmm) (e : mmap_entry) : Phys.pmm :=
  match usable_block e with
  | Some (start, len) => Phys.addpages p (u32 start) (u32 len)
  | None => p
  end.

Fixpoint physical_memory (p : Phys.pmm) (mmap stop : Z) (fuel : nat) : option Phys.pmm :=
  if mmap <? stop then
    match fuel with
    | O => None
    | S fuel =>
        let e := entry_at mem mmap in
        physical_memory (add_block p e) (u32 (mmap + e_size e + 4)) stop fuel
    end
  else Some p.

(** Every entry takes at least four bytes *)
Definition setupPhysicalMemory (p : Phys.pmm) (mb : multiboot_info) : option Phys.pmm :=
  physical_memory p (mmap_addr mb) (u32 (mmap_addr mb + mmap_length mb)) (Z.to_nat (mmap_length mb / 4 + 1)).

Record module_info := mkModule { m_start : Z; m_end : Z; m_args : list Z; m_vmstart : Z }.

Definition gMaxModules : Z := 128.
Definition gBootVirtualOffset : Z := 0xC0000000.

Fixpoint reserve_modules (p : Phys.pmm) (mods_addr mod_id : Z) (n : nat) : option (Phys.pmm * list module_info) :=
  match n with
  | O => Some (p, [])
  | S n =>
      let m := mod_at mem (u32 (mods_addr + 16 * mod_id)) in
      let bootmodule := mkModule (mod_start m) (mod_end m) (cstring mem (mod_cmdline m) 256) 0 in
      p ← Phys.reserve_range p (mod_start m) (mod_end m);
      '(p, l) ← reserve_modules p mods_addr (mod_id + 1) n;
      Some (p, bootmodule :: l)
  end.

Definition reserveMemory (p : Phys.pmm) (mb : multiboot_info) (kernel_start kernel_end : Z)
    : option (Phys.pmm * list module_info) :=
  p ← Phys.reserve_range p (u32 (kernel_start - gBootVirtualOffset)) (u32 (kernel_end - gBootVirtualOffset));
  let count := if gMaxModules <? mods_count mb then gMaxModules else mods_count mb in
  reserve_modules p (mods_addr mb) 0 (Z.to_nat count).

(** [setheap] *)
Definition gScratchPagesSize : Z := 8 * 1024 * 1024 + 4096.
Definition gKernelHeapSize : Z := 128 * 1024 * 1024.

Definition set_scratch (s : vm) (low high : Z) : vm :=
  mkVm (entries s) (phys s) (frames s) (running s) (allocated s) low high (mKernelRegions s).

Definition setheap (mKernelHeap : option Heap.heap) (s : vm) (kernel_start heap size : Z) : option (Heap.heap * vm) :=
  match mKernelHeap with
  | Some _ => None
  | None =>
      if size =? 0 then None
      else
        let h := Heap.new heap (u32 (heap + size - 1)) in
        let s := addKernelRegion s kernel_start (Heap.high h) in
        spr ← findKernelRegion s gScratchPagesSize;
        let s := set_scratch s (Interval.from spr) (Interval.to spr) in
        Some (h, addKernelRegion s (Interval.from spr) (Interval.to spr))
  end.

Definition setupKernelHeap (s : vm) (kernel_start kernel_end : Z) : option (Heap.heap * vm) :=
  let kernel_high := u32 (page_of kernel_end + gPageSize - 1) in
  setheap None s kernel_start (u32 (kernel_high + 1 + gPageSize)) gKernelHeapSize.

(** [Framebuffer::map]: the pages from [b] to [e], both included *)
Definition fb_options : map_options_t := mkOpts true false true false false true true.

Fixpoint fb_map (s : vm) (physical vmbase b e : Z) (fuel : nat) : option vm :=
  if b <=? e then
    match fuel with
    | O => None
    | S fuel => '(_, s) ← map s (u32 (physical + b)) (u32 (vmbase + b)) fb_options; fb_map s physical vmbase (u32 (b + gPageSize)) e fuel
    end
  else Some s.

Definition fb_size (f : framebuf_info_t) : Z := u32 (width f * height f * (bpp f / 8)).

Definition setupFramebuffer (s : vm) (f : framebuf_info_t) : option (Z * vm) :=
  fb_region ← findKernelRegion s (fb_size f);
  s ← fb_map s (videoram f) (Interval.from fb_region) 0 (fb_size f) (Z.to_nat (fb_size f / gPageSize + 1));
  Some (Interval.from fb_region, addKernelRegion s (Interval.from fb_region) (Interval.to fb_region)).

Fixpoint loadModules (s : vm) (l : list module_info) : option (vm * list module_info) :=
  match l with
  | [] => Some (s, [])
  | m :: l =>
      module_rgn ← findKernelRegion s (u32 (m_end m - m_start m));
      let s := addKernelRegion s (Interval.from module_rgn) (Interval.to module_rgn) in
      '(_, s) ← maprange s (m_start m) (m_end m) (Interval.from module_rgn) kernel_options;
      '(s, l) ← loadModules s l;
      Some (s, mkModule (m_start m) (m_end m) (m_args m) (Interval.from module_rgn) :: l)
  end.

(** What [_earlyBoot] leaves to [_kmain] *)
Record booted := mkBooted {
  b_cmdline : list Z; b_framebuffer : Z; b_modules : list module_info; b_heap : Heap.heap; b_vm : vm; b_cr3 : Z;
}.

(** The page tables are made when the virtual memory manager is used for the first time *)
Definition earlyBoot (multiboot_data multiboot_magic kernel_start kernel_end : Z) (t : Paging.tables) : option booted :=
  mb ← getMultiboot multiboot_data multiboot_magic;
  let '(text, _) := fill mem (cmdline mb) in
  let framebuf := framebuf_info mb in
  p ← setupPhysicalMemory Phys.new mb;
  '(p, mods) ← reserveMemory p mb kernel_start kernel_end;
  '(cr3, p, t) ← Paging.build gNumPages p t kernel_start kernel_end;
  let s := mkVm (Paging.entries_of t cr3) p ∅ false 0 0 0 [] in
  '(h, s) ← setupKernelHeap s kernel_start kernel_end;
  '(fb, s) ← setupFramebuffer s framebuf;
  '(s, mods) ← loadModules s mods;
  Some (mkBooted text fb mods h s cr3).

End Boot.
End EarlyBoot.
