(* ===== verification/BootThms.v ===== *)
(** * Boot: the memory map, the reserved memory, the first page tables and the command line *)

From stdpp Require Import base numbers list gmap option strings.
From Stdlib Require Import ZArith Lia Bool Ascii.
From S2P Require Import Prelude Interval Phys Virt Files MemMgr Cpu Boot.

Local Open Scope Z_scope.

(** ** Physical pages *)

Section Pages.
Import Phys.
Context (N : Z).

Lemma ok_new : 0 < N < 2 ^ 20 + 1 -> ok N new.
Proof. intros HN. constructor; try done; try (intros i g; by rewrite lookup_empty). simpl. lia. Qed.

Lemma page_addpage p base j :
  page (addpage p base) j = if decide (index base = j) then mkPage true (refcnt (page p (index base))) else page p j.
Proof. unfold page at 1, addpage. simpl. rewrite lookup_insert. by case_decide. Qed.

Lemma ok_addpage p base : ok N p -> 0 <= index base < N -> page p (index base) = mkPage false 0 -> ok N (addpage p base).
Proof.
  intros Hok Hi Hp. pose proof Hok as [Hn Hix Hc Hl Hf]. set (i := index base) in *.
  assert (Hix' : forall j g, <[i:=mkPage true 0]> (mPages p) !! j = Some g -> 0 <= j < N).
  { intros j g. rewrite lookup_insert_Some. intros [[<- _]|[_ Hj]]; [done|eauto]. }
  assert (Hcnt : count_free (<[i:=mkPage true 0]> (mPages p)) = mFreePages p + 1).
  { rewrite Hf. destruct (mPages p !! i) as [g|] eqn:E.
    - rewrite (free_count_insert _ _ _ _ E). unfold page in Hp. rewrite E in Hp. simpl in Hp. subst g. simpl. lia.
    - rewrite count_insert_new by done. simpl. lia. }
  pose proof (count_nonneg (<[i:=mkPage true 0]> (mPages p))).
  pose proof (free_count_bound _ N ltac:(lia) Hix').
  unfold addpage. fold i. rewrite Hp. cbn [refcnt]. constructor; simpl; try done.
  - intros j g. rewrite lookup_insert_Some. intros [[_ <-]|[_ Hj]]; [simpl; lia|eauto].
  - rewrite u32_id by (unfold is_u; lia). lia.
Qed.

(** [addpages] from a page boundary on *)
Lemma addpages_loop_spec n : forall p b len,
  ok N p -> 0 <= b -> Z.of_nat n = len / gPageSize -> 0 <= len -> gPageSize * b + len <= 2 ^ 32 -> b + Z.of_nat n <= N ->
  (forall i, b <= i < b + Z.of_nat n -> page p i = mkPage false 0) ->
  ok N (addpages_loop n p (gPageSize * b) len) /\
  forall i, page (addpages_loop n p (gPageSize * b) len) i
    = if decide (b <= i < b + Z.of_nat n) then mkPage true 0 else page p i.
Proof.
  unfold gPageSize. induction n as [|n IH]; intros p b len Hok Hb Hn Hlen Hmax HN Hfree; cbn [addpages_loop].
  { split; [done|]. intros i. by rewrite decide_False by lia. }
  assert (4096 <= len).
  { destruct (Z.le_gt_cases 4096 len); [done|]. rewrite Z.div_small in Hn by lia. lia. }
  unfold gPageSize. rewrite Z.geb_leb, (proj2 (Z.leb_le _ _)) by done.
  assert (Hi : index (4096 * b) = b) by apply index_frame.
  assert (Hdiv : (len - 4096) / 4096 = len / 4096 - 1).
  { replace (len - 4096) with (len + -1 * 4096) by lia. rewrite Z.div_add by lia. lia. }
  assert (Hpage : forall i, page (addpage p (4096 * b)) i = if decide (b = i) then mkPage true 0 else page p i).
  { intros i. rewrite page_addpage, Hi. case_decide; [|done]. rewrite Hfree by lia. done. }
  assert (Hok' : ok N (addpage p (4096 * b))) by (apply ok_addpage; rewrite ?Hi; [done|lia|apply Hfree; lia]).
  destruct (Nat.eq_dec n 0) as [->|Hn0].
  { cbn [addpages_loop]. split; [done|]. intros i. rewrite Hpage. repeat case_decide; try done; lia. }
  assert (u32 (4096 * b + 4096) = 4096 * (b + 1)) as ->.
  { assert (2 <= len / 4096) by lia. pose proof (Z.mul_div_le len 4096 ltac:(lia)). rewrite u32_id by (unfold is_u; lia). lia. }
  destruct (IH (addpage p (4096 * b)) (b + 1) (len - 4096)) as [IHok IHp]; try done; try lia.
  { intros i Hin. rewrite Hpage, decide_False by lia. apply Hfree. lia. }
  split; [done|]. intros i. rewrite IHp, Hpage. repeat case_decide; try done; lia.
Qed.

(** The pages that lie in a block of memory *)
Definition covers (base len i : Z) : Prop := base <= gPageSize * i /\ gPageSize * (i + 1) <= base + len.
#[local] Instance covers_dec base len i : Decision (covers base len i).
Proof. unfold covers. apply _. Defined.

Lemma offalignment_mod a : offalignment a = a mod 4096.
Proof. unfold offalignment, gPageSize. change (4096 - 1) with (Z.ones 12). by rewrite Z.land_ones by lia. Qed.

Lemma addpages_spec p base len :
  ok N p -> 0 <= base -> 4096 <= len -> base + len <= gPageSize * N ->
  (forall i, covers base len i -> page p i = mkPage false 0) ->
  ok N (addpages p base len) /\ forall i, page (addpages p base len) i = if decide (covers base len i) then mkPage true 0 else page p i.
Proof.
  intros Hok Hb Hl HN Hfree. pose proof (ok_num _ _ Hok) as HN'. unfold addpages. rewrite offalignment_mod. unfold covers, gPageSize in *.
  pose proof (Z.div_mod base 4096 ltac:(lia)). pose proof (Z.mod_pos_bound base 4096 ltac:(lia)).
  set (b := (base + 4095) / 4096). set (len' := base + len - 4096 * b).
  assert (Hbb : 4096 * b - 4096 < base <= 4096 * b) by (unfold b; Z.to_euclidean_division_equations; lia).
  assert (Hbase : (if base mod 4096 >? 0 then u32 (base - base mod 4096 + 4096) else base) = 4096 * b).
  { rewrite Z.gtb_ltb. destruct (Z.ltb_spec 0 (base mod 4096)).
    - rewrite u32_id by (unfold is_u; lia). unfold b. Z.to_euclidean_division_equations; lia.
    - unfold b. Z.to_euclidean_division_equations; lia. }
  assert (Hlen : (if base mod 4096 >? 0 then u32 (len - (4096 - base mod 4096)) else len) = len').
  { rewrite Z.gtb_ltb. unfold len'. destruct (Z.ltb_spec 0 (base mod 4096)).
    - rewrite u32_id by (unfold is_u; lia). rewrite <- Hbase, Z.gtb_ltb, (proj2 (Z.ltb_lt _ _)) by lia.
      rewrite u32_id by (unfold is_u; lia). lia.
    - rewrite <- Hbase, Z.gtb_ltb, (proj2 (Z.ltb_ge _ _)) by lia. lia. }
  rewrite Hbase, Hlen.
  assert (Hlen0 : 0 <= len') by (unfold len'; lia).
  assert (Hq : 0 <= len' / 4096 /\ 4096 * (len' / 4096) <= len' < 4096 * (len' / 4096) + 4096)
    by (clear - Hlen0; Z.to_euclidean_division_equations; lia).
  assert (Hin : forall i, b <= i < b + len' / 4096 <-> base <= 4096 * i /\ 4096 * (i + 1) <= base + len) by (unfold len' in *; intros i; lia).
  destruct (addpages_loop_spec (Z.to_nat (len' / 4096)) p b len') as [Hok' Hp]; unfold gPageSize; rewrite ?Z2Nat.id by lia; try done; try (unfold len' in *; lia).
  { intros i Hi. by apply Hfree, Hin. }
  split; [done|]. intros i. unfold gPageSize in Hp. rewrite Hp, Z2Nat.id by lia. apply decide_ext. apply Hin.
Qed.

Lemma reserve_page_spec p i : ok N p -> page p i = mkPage true 0 -> 0 <= i ->
  exists p', reserve p (gPageSize * i) = Some p' /\ ok N p' /\ forall j, page p' j = if decide (i = j) then mkPage false 0 else page p j.
Proof.
  intros Hok Hp Hi. unfold reserve. rewrite index_frame, Hp. cbn [usable refcnt]. eexists. split; [done|].
  assert (exists g, mPages p !! i = Some g /\ g = mkPage true 0) as (g & Hg & ->).
  { unfold page in Hp. destruct (mPages p !! i) as [g|]; [simpl in Hp; eauto|done]. }
  destruct (ok_set_page N p i _ (mkPage false 0) (mFreePages p - 1) Hok Hg) as [Hok' _]; [simpl; lia| |].
  { rewrite (ok_free _ _ Hok). simpl. lia. }
  split; [done|]. intros j. change (page (set_free ?q _) j) with (page q j). apply page_set.
Qed.

Lemma reserve_loop_spec n : forall p b e,
  ok N p -> 0 <= b -> gPageSize * (b + Z.of_nat n) < e + gPageSize -> e <= gPageSize * (b + Z.of_nat n) -> e <= 2 ^ 32 - gPageSize ->
  (forall i, b <= i < b + Z.of_nat n -> page p i = mkPage true 0) ->
  exists p', reserve_loop n p (gPageSize * b) e = Some p' /\ ok N p' /\
    forall j, page p' j = if decide (b <= j < b + Z.of_nat n) then mkPage false 0 else page p j.
Proof.
  unfold gPageSize. induction n as [|n IH]; intros p b e Hok Hb Hlo Hhi Hmax Hin; cbn [reserve_loop].
  { rewrite (proj2 (Z.ltb_ge _ _)) by lia. exists p. split_and!; try done. intros j. by rewrite decide_False by lia. }
  rewrite (proj2 (Z.ltb_lt _ _)) by lia.
  destruct (reserve_page_spec p b Hok (Hin b ltac:(lia)) Hb) as (p1 & E1 & Hok1 & P1). unfold gPageSize in E1.
  rewrite E1; cbn [mbind option_bind].
  destruct (Nat.eq_dec n 0) as [->|Hn0].
  { exists p1. cbn [reserve_loop]. rewrite (proj2 (Z.ltb_ge _ _)).
    - split_and!; try done. intros j. rewrite P1. repeat case_decide; try done; lia.
    - unfold gPageSize. destruct (decide (4096 * b + 4096 < 2 ^ 32)); [rewrite u32_id by (unfold is_u; lia); lia|].
      exfalso. lia. }
  unfold gPageSize. assert (u32 (4096 * b + 4096) = 4096 * (b + 1)) as -> by (rewrite u32_id by (unfold is_u; lia); lia).
  destruct (IH p1 (b + 1) e) as (p2 & E2 & Hok2 & P2); try done; try lia.
  { intros i Hi. rewrite P1, decide_False by lia. apply Hin. lia. }
  exists p2. split_and!; try done. intros j. rewrite P2, P1. repeat case_decide; try done; lia.
Qed.

(** The pages that an address range touches *)
Definition touches (b e i : Z) : Prop := b < gPageSize * (i + 1) /\ gPageSize * i < e.
#[local] Instance touches_dec b e i : Decision (touches b e i).
Proof. unfold touches. apply _. Defined.

(** The last page of the address space is left out: the loop would start over at zero. *)
Lemma reserve_range_spec p b e :
  ok N p -> 0 <= b < e -> e <= 2 ^ 32 - gPageSize ->
  (forall i, touches b e i -> page p i = mkPage true 0) ->
  exists p', reserve_range p b e = Some p' /\ ok N p' /\
    forall j, page p' j = if decide (touches b e j) then mkPage false 0 else page p j.
Proof.
  intros Hok Hb He Hin. unfold reserve_range. rewrite offalignment_mod. unfold touches, gPageSize in *.
  pose proof (Z.div_mod b 4096 ltac:(lia)). replace (b - b mod 4096) with (4096 * (b / 4096)) by lia.
  set (q := b / 4096) in *. pose proof (Z.mod_pos_bound b 4096 ltac:(lia)).
  set (n := (e - 4096 * q + 4096 - 1) / 4096).
  assert (Hn : 4096 * n < e - 4096 * q + 4096 /\ e - 4096 * q <= 4096 * n /\ 0 <= n) by (unfold n; Z.to_euclidean_division_equations; lia).
  assert (Hiff : forall i, q <= i < q + n <-> b < 4096 * (i + 1) /\ 4096 * i < e) by (intros i; lia).
  destruct (reserve_loop_spec (Z.to_nat n) p q e) as (p' & E & Hok' & P); unfold gPageSize; rewrite ?Z2Nat.id by lia; try done; try lia.
  { intros i Hi. by apply Hin, Hiff. }
  unfold gPageSize in E. exists p'. split_and!; try done. intros j. rewrite P, Z2Nat.id by lia. apply decide_ext, Hiff.
Qed.

(** ** Which pages can ever be handed out *)

(** The operations of the running kernel on physical pages *)
Inductive phys_step : pmm -> pmm -> Prop :=
| step_alloc p a p' : alloc N p = Some (a, p') -> phys_step p p'
| step_alloc_at p a p' : alloc_at p a = Some p' -> phys_step p p'
| step_dealloc p a p' : dealloc p a = Some p' -> phys_step p p'
| step_contiguous p n r p' : allocContiguousPages p n = Some (r, p') -> phys_step p p'.

Lemma usable_set_page p i g j : usable g = usable (page p i) -> usable (page (set_page p i g) j) = usable (page p j).
Proof. intros Hg. rewrite page_set. case_decide; [by subst|done]. Qed.

Lemma usable_alloc_at p a p' : alloc_at p a = Some p' -> forall j, usable (page p' j) = usable (page p j).
Proof.
  unfold alloc_at. intros E j. destruct (usable (page p (index a))) eqn:Eu; [|done]. simplify_eq.
  transitivity (usable (page (set_page p (index a) (incref (page p (index a)))) j)); [by case_match|by apply usable_set_page].
Qed.

Lemma usable_alloc_run n : forall p i u p', alloc_run p i u n = Some p' -> forall j, usable (page p' j) = usable (page p j).
Proof.
  induction n as [|n IH]; intros p i u p' E j; cbn [alloc_run] in E; [by simplify_eq|].
  destruct (alloc_at p ((i + Z.of_nat u) * gPageSize)) as [p1|] eqn:E1; [|done]. cbn [mbind option_bind] in E.
  by rewrite (IH _ _ _ _ E j), (usable_alloc_at _ _ _ E1 j).
Qed.

Lemma usable_contiguous f : forall p i n r p', contiguous_loop f p i n = Some (r, p') -> forall j, usable (page p' j) = usable (page p j).
Proof.
  induction f as [|f IH]; intros p i n r p' E j; cbn [contiguous_loop] in E; [done|].
  case_match; [case_match; [by simplify_eq|by eapply IH]|].
  destruct (alloc_run p i 0 n) as [p1|] eqn:E1; [|done]. cbn [mbind option_bind] in E. simplify_eq.
  by eapply usable_alloc_run.
Qed.

Lemma usable_step p p' : phys_step p p' -> forall j, usable (page p' j) = usable (page p j).
Proof.
  intros [q a q' E|q a q' E|q a q' E|q n r q' E] j.
  - unfold alloc in E. case_match; [|done]. simplify_eq.
    change (page _ j) with (page (set_page q z (incref (page q z))) j) || case_match.
    all: by apply (usable_set_page q z (incref (page q z))).
  - by eapply usable_alloc_at.
  - unfold dealloc in E. case_match; [done|]. simplify_eq.
    transitivity (usable (page (set_page q (index a) (decref (page q (index a)))) j)); [by case_match|by apply usable_set_page].
  - by eapply usable_contiguous.
Qed.

Lemma usable_steps p p' : rtc phys_step p p' -> forall j, usable (page p' j) = usable (page p j).
Proof. induction 1 as [|p p1 p2 H1 _ IH]; [done|]. intros j. by rewrite IH, (usable_step _ _ H1). Qed.

(** The pages are those of [P], all of them free *)
Definition described (p : pmm) (P : Z -> Prop) : Prop :=
  ok N p /\ forall i, (P i /\ page p i = mkPage true 0) \/ (~ P i /\ page p i = mkPage false 0).

Lemma described_in p P i : described p P -> P i -> page p i = mkPage true 0.
Proof. intros [_ D] Hi. by destruct (D i) as [[_ ?]|[? _]]. Qed.

Lemma described_out p P i : described p P -> ~ P i -> page p i = mkPage false 0.
Proof. intros [_ D] Hi. by destruct (D i) as [[? _]|[_ ?]]. Qed.

Lemma described_iff p P Q : (forall i, P i <-> Q i) -> described p P -> described p Q.
Proof. intros H [Hok D]. split; [done|]. intros i. rewrite <- H. apply D. Qed.

Lemma described_reserve p P b e : described p P -> 0 <= b < e -> e <= 2 ^ 32 - gPageSize ->
  (forall i, touches b e i -> P i) ->
  exists p', reserve_range p b e = Some p' /\ described p' (fun i => P i /\ ~ touches b e i).
Proof.
  intros D Hb He Hin. pose proof D as [Hok _].
  destruct (reserve_range_spec p b e Hok Hb He) as (p' & E & Hok' & Hp).
  { intros i Hi. by apply (described_in _ _ _ D), Hin. }
  exists p'. split; [done|]. split; [done|]. intros i. rewrite Hp. case_decide as Ht; [right; split; [tauto|done]|].
  destruct (proj2 D i) as [[? ?]|[? ?]]; [left|right]; tauto.
Qed.

(** ** The memory map *)

Import Multiboot EarlyBoot.

Definition ram_block (e : mmap_entry) : Prop := e_type e = 1 /\ threshold <= e_addr e.
Definition ram_page (es : list mmap_entry) (i : Z) : Prop := exists e, e ∈ es /\ ram_block e /\ covers (e_addr e) (e_len e) i.

(** A block below the first megabyte, a block above it, or no memory at all *)
Definition block_ok (e : mmap_entry) : Prop :=
  e_type e <> 1 \/ (e_addr e < threshold /\ e_len e < threshold) \/
  (threshold <= e_addr e /\ gPageSize <= e_len e /\ e_addr e + e_len e <= gPageSize * N).

Definition map_ok (es : list mmap_entry) : Prop :=
  Forall block_ok es /\
  forall j k e e' i, es !! j = Some e -> es !! k = Some e' -> ram_block e -> ram_block e' ->
    covers (e_addr e) (e_len e) i -> covers (e_addr e') (e_len e') i -> j = k.

Lemma add_block_spec p P e :
  described p P -> block_ok e -> (forall i, ram_block e -> covers (e_addr e) (e_len e) i -> ~ P i) ->
  described (add_block p e) (fun i => P i \/ (ram_block e /\ covers (e_addr e) (e_len e) i)).
Proof.
  intros D Hb Hnew. pose proof D as [Hok _]. pose proof (ok_num _ _ Hok). unfold add_block, usable_block.
  destruct (Z.eqb_spec (e_type e) 1) as [Et|Et].
  2: { eapply described_iff; [|done]. intros i. unfold ram_block. tauto. }
  destruct Hb as [?|[[Ha Hl]|(Ha & Hl & Hend)]]; [done| |].
  - rewrite (proj2 (Z.leb_gt threshold (e_len e))) by done. rewrite andb_false_r. rewrite (proj2 (Z.leb_gt _ _)) by done.
    eapply described_iff; [|done]. intros i. split; [tauto|]. intros [?|[[_ ?] _]]; [done|lia].
  - rewrite (proj2 (Z.ltb_ge (e_addr e) threshold)) by done. cbn [andb]. rewrite (proj2 (Z.leb_le _ _)) by done.
    unfold threshold, gPageSize in *. rewrite !u32_id by (unfold is_u; lia).
    destruct (addpages_spec p (e_addr e) (e_len e) Hok) as [Hok' Hp]; try (unfold gPageSize; lia).
    { intros i Hi. apply (described_out _ _ _ D), Hnew; [by split|done]. }
    split; [done|]. intros i. rewrite Hp. case_decide as Hc.
    + left. split; [right; split; [by split|done]|done].
    + destruct (proj2 D i) as [[? ?]|[? ?]]; [left|right]; tauto.
Qed.

Section Map.
Context (mem : Z -> Z).

(** The entries [es] lie in memory from [a] to [stop] *)
Fixpoint entries_at (a : Z) (es : list mmap_entry) (stop : Z) : Prop :=
  match es with
  | [] => a = stop
  | e :: es => entry_at mem a = e /\ 0 <= e_size e /\ a + e_size e + 4 <= stop /\ entries_at (a + e_size e + 4) es stop
  end.

Lemma entries_at_le es : forall a stop, entries_at a es stop -> a + 4 * Z.of_nat (length es) <= stop.
Proof. induction es as [|e es IH]; intros a stop; simpl; [lia|]. intros (_ & ? & ? & H%IH). lia. Qed.

Lemma physical_memory_ok es : forall p P a stop fuel,
  0 <= a -> stop < 2 ^ 32 -> entries_at a es stop -> (length es <= fuel)%nat ->
  described p P -> map_ok es -> (forall e i, e ∈ es -> ram_block e -> covers (e_addr e) (e_len e) i -> ~ P i) ->
  exists p', physical_memory mem p a stop fuel = Some p' /\ described p' (fun i => P i \/ ram_page es i).
Proof.
  induction es as [|e es IH]; intros p P a stop fuel Ha Hs He Hf D Hok Hnew.
  { exists p. simpl in He. subst. split; [destruct fuel; cbn [physical_memory]; by rewrite Z.ltb_irrefl|].
    eapply described_iff; [|done]. intros i. split; [tauto|]. intros [?|(e & ?%not_elem_of_nil & _)]; done. }
  pose proof (entries_at_le _ _ _ He) as Hle. simpl in Hle. destruct He as (E & H0 & H1 & He).
  destruct fuel as [|fuel]; [simpl in Hf; lia|]. cbn [physical_memory]. rewrite (proj2 (Z.ltb_lt _ _)) by lia. rewrite E.
  rewrite u32_id by (unfold is_u; lia). destruct Hok as [Hb Hd]. inversion Hb as [|? ? Hbe Hbes]; subst.
  set (e := entry_at mem a) in *.
  assert (D' := add_block_spec p P e D Hbe (fun i Hr Hc => Hnew e i ltac:(by left) Hr Hc)).
  destruct (IH _ _ (a + e_size e + 4) stop fuel ltac:(lia) Hs He ltac:(simpl in Hf; lia) D') as (p' & E' & D'').
  - split; [done|]. intros j k e1 e2 i E1 E2 R1 R2 C1 C2. pose proof (Hd (S j) (S k) e1 e2 i E1 E2 R1 R2 C1 C2). lia.
  - intros e1 i He1 R1 C1 [Hp|[R2 C2]]; [by apply (Hnew e1 i); [right|..]|].
    apply list_elem_of_lookup_1 in He1 as [j Hj]. pose proof (Hd 0%nat (S j) e e1 i eq_refl Hj R2 R1 C2 C1). lia.
  - exists p'. split; [done|]. eapply described_iff; [|done]. intros i. unfold ram_page. split.
    + intros [[?|[? ?]]|(e1 & ? & ?)]; [by left|right; exists e; split; [by left|done]|right; exists e1; split; [by right|done]].
    + intros [?|(e1 & [->|?]%elem_of_cons & ? & ?)]; [tauto|tauto|right; eauto].
Qed.

(** Modules as the boot loader lists them *)
Lemma reserve_modules_ok mods : forall p P mods_addr k,
  described p P ->
  (forall j m, mods !! j = Some m -> mod_at mem (u32 (mods_addr + 16 * (k + Z.of_nat j))) = m) ->
  Forall (fun m => 0 <= mod_start m < mod_end m /\ mod_end m <= 2 ^ 32 - gPageSize) mods ->
  (forall m i, m ∈ mods -> touches (mod_start m) (mod_end m) i -> P i) ->
  (forall j k m m' i, mods !! j = Some m -> mods !! k = Some m' -> touches (mod_start m) (mod_end m) i ->
     touches (mod_start m') (mod_end m') i -> j = k) ->
  exists p', reserve_modules mem p mods_addr k (length mods)
      = Some (p', (fun m => mkModule (mod_start m) (mod_end m) (cstring mem (mod_cmdline m) 256) 0) <$> mods) /\
    described p' (fun i => P i /\ forall m, m ∈ mods -> ~ touches (mod_start m) (mod_end m) i).
Proof.
  induction mods as [|m mods IH]; intros p P ma k D Hm Hr Hin Hd; cbn [length reserve_modules].
  { exists p. split; [done|]. eapply described_iff; [|done]. intros i. split; [|tauto]. intros ?. split; [done|].
    by intros m ?%not_elem_of_nil. }
  pose proof (Hm 0%nat m eq_refl) as E. rewrite Z.add_0_r in E. rewrite E.
  apply Forall_cons_1 in Hr as [[H1 H2] Hr'].
  destruct (described_reserve p P _ _ D H1 H2) as (p1 & E1 & D1); [intros i Hi; by apply (Hin m); [left|]|].
  rewrite E1; cbn [mbind option_bind].
  destruct (IH p1 _ ma (k + 1) D1) as (p2 & E2 & D2); try done.
  - intros j m' Hj. rewrite <- (Hm (S j) m' Hj). f_equal. f_equal. lia.
  - intros m' i Hm' Ht. split; [by apply (Hin m'); [right|]|]. intros Ht'.
    apply list_elem_of_lookup_1 in Hm' as [j Hj]. pose proof (Hd 0%nat (S j) m m' i eq_refl Hj Ht' Ht). lia.
  - intros j1 j2 m1 m2 i E3 E4 T1 T2. pose proof (Hd (S j1) (S j2) m1 m2 i E3 E4 T1 T2). lia.
  - rewrite E2; cbn [mbind option_bind]. exists p2. split; [done|]. eapply described_iff; [|done].
    intros i. split.
    + intros [[? ?] Hall]. split; [done|]. by intros m' [->|?]%elem_of_cons; [|apply Hall].
    + intros [? Hall]. split; [split; [done|apply Hall; by left]|]. intros m' ?. apply Hall. by right.
Qed.

(** What the boot loader has to provide: a memory map, and a kernel and modules that
    lie in memory it lists, without sharing a page *)
Record boot_data (mb : multiboot_info) (es : list mmap_entry) (mods : list mod_list) (ks ke : Z) : Prop := {
  bd_num : 0 < N < 2 ^ 20 + 1;
  bd_map : 0 <= mmap_addr mb /\ 0 <= mmap_length mb /\ mmap_addr mb + mmap_length mb < 2 ^ 32 /\
    entries_at (mmap_addr mb) es (mmap_addr mb + mmap_length mb);
  bd_map_ok : map_ok es;
  bd_kernel : gBootVirtualOffset <= ks < ke /\ ke <= 2 ^ 32 - gPageSize;
  bd_kernel_ram : forall i, touches (ks - gBootVirtualOffset) (ke - gBootVirtualOffset) i -> ram_page es i;
  bd_mods : mods_count mb = Z.of_nat (length mods) /\ mods_count mb <= gMaxModules /\
    forall j m, mods !! j = Some m -> mod_at mem (u32 (mods_addr mb + 16 * Z.of_nat j)) = m;
  bd_mods_range : Forall (fun m => 0 <= mod_start m < mod_end m /\ mod_end m <= 2 ^ 32 - gPageSize) mods;
  bd_mods_ram : forall m i, m ∈ mods -> touches (mod_start m) (mod_end m) i ->
    ram_page es i /\ ~ touches (ks - gBootVirtualOffset) (ke - gBootVirtualOffset) i;
  bd_mods_apart : forall j k m m' i, mods !! j = Some m -> mods !! k = Some m' -> touches (mod_start m) (mod_end m) i ->
    touches (mod_start m') (mod_end m') i -> j = k;
}.

(** The pages the kernel may use as it likes *)
Definition spare (es : list mmap_entry) (mods : list mod_list) (ks ke i : Z) : Prop :=
  ram_page es i /\ ~ touches (ks - gBootVirtualOffset) (ke - gBootVirtualOffset) i /\
  forall m, m ∈ mods -> ~ touches (mod_start m) (mod_end m) i.

Lemma boot_memory_described mb es mods ks ke : boot_data mb es mods ks ke ->
  exists p0 p, setupPhysicalMemory mem new mb = Some p0 /\
    reserveMemory mem p0 mb ks ke
      = Some (p, (fun m => mkModule (mod_start m) (mod_end m) (cstring mem (mod_cmdline m) 256) 0) <$> mods) /\
    described p (spare es mods ks ke).
Proof.
  intros B. destruct (bd_map _ _ _ _ _ B) as (H1 & H2 & H3 & He).
  assert (D0 : described new (fun _ => False)).
  { split; [apply ok_new, (bd_num _ _ _ _ _ B)|]. intros i. right. split; [tauto|done]. }
  pose proof (entries_at_le _ _ _ He) as Hle.
  destruct (physical_memory_ok es new (fun _ => False) _ _ (Z.to_nat (mmap_length mb / 4 + 1)) H1 H3 He) as (p0 & E0 & Dm); try done.
  { assert (Z.of_nat (length es) <= mmap_length mb / 4) by (apply Z.div_le_lower_bound; lia). lia. }
  { apply (bd_map_ok _ _ _ _ _ B). }
  { intros; tauto. }
  destruct (bd_kernel _ _ _ _ _ B) as [[Hk1 Hk2] Hk3]. unfold gBootVirtualOffset, gPageSize in *.
  destruct (described_reserve p0 _ (ks - 0xC0000000) (ke - 0xC0000000) Dm) as (p1 & E1 & D1); try (unfold gPageSize; lia).
  { intros i Hi. right. by apply (bd_kernel_ram _ _ _ _ _ B). }
  destruct (bd_mods _ _ _ _ _ B) as (Hc & Hc' & Hm).
  destruct (reserve_modules_ok mods p1 _ (mods_addr mb) 0 D1 Hm (bd_mods_range _ _ _ _ _ B)) as (p2 & E2 & D2).
  { intros m i Hin Ht. destruct (bd_mods_ram _ _ _ _ _ B m i Hin Ht) as [? ?]. split; [by right|done]. }
  { apply (bd_mods_apart _ _ _ _ _ B). }
  exists p0, p2. split_and!.
  - unfold setupPhysicalMemory. rewrite u32_id by (unfold is_u; lia). done.
  - unfold reserveMemory, gBootVirtualOffset. rewrite !u32_id by (unfold is_u; lia). rewrite E1; cbn [mbind option_bind].
    rewrite (proj2 (Z.ltb_ge _ _)) by done. rewrite Hc, Nat2Z.id. done.
  - eapply described_iff; [|done]. intros i. unfold spare. cbn beta. tauto.
Qed.

Lemma alloc_loop_usable n : forall p idx i, alloc_loop N n p idx = Some i -> usable (page p i) = true.
Proof.
  induction n as [|n IH]; intros p idx i; cbn [alloc_loop]; [done|]. case_match eqn:E; [|by apply IH].
  intros [= <-]. by apply andb_true_iff in E as [-> _].
Qed.

Lemma blocked_at_usable n : forall p i u, blocked_at p i u n = None ->
  forall k, (u <= k < u + n)%nat -> usable (page p (i + Z.of_nat k)) = true.
Proof.
  induction n as [|n IH]; intros p i u E k Hk; [lia|]. cbn [blocked_at] in E. case_match eqn:Eu; [|done].
  destruct (decide (k = u)) as [->|]; [by apply andb_true_iff in Eu as [-> _]|]. apply (IH p i (S u) E). lia.
Qed.

Lemma contiguous_usable f : forall p i n a p', contiguous_loop f p i n = Some (Some a, p') ->
  forall k, 0 <= k < Z.of_nat n -> usable (page p (index a + k)) = true.
Proof.
  induction f as [|f IH]; intros p i n a p' E k Hk; cbn [contiguous_loop] in E; [done|].
  destruct (blocked_at p i 0 n) as [u|] eqn:Eb; [case_match; [done|by eapply IH]|].
  destruct (alloc_run p i 0 n) as [p1|]; [|done]. cbn [mbind option_bind] in E. simplify_eq.
  unfold index. rewrite Z.div_mul by done. rewrite <- (Z2Nat.id k) by lia. apply (blocked_at_usable _ _ _ _ Eb). lia.
Qed.

(** After the boot loader's memory map is read and the kernel and the modules are set aside,
    every other page of the map above the first megabyte is free, and whatever pages the
    kernel takes and gives back from then on, no page it is handed, alone or in a
    contiguous run, lies outside of that memory, in the image of the kernel or in a
    module. *)
Theorem boot_secures_memory mb es mods ks ke : boot_data mb es mods ks ke ->
  exists p0 p l, setupPhysicalMemory mem new mb = Some p0 /\ reserveMemory mem p0 mb ks ke = Some (p, l) /\ ok N p /\
    (fun m => (m_start m, m_end m)) <$> l = (fun m => (mod_start m, mod_end m)) <$> mods /\
    (forall i, spare es mods ks ke i -> available (page p i) = true) /\
    forall p', rtc phys_step p p' ->
      (forall a p'', alloc N p' = Some (a, p'') -> spare es mods ks ke (index a)) /\
      (forall n a p'' k, allocContiguousPages p' n = Some (Some a, p'') -> 0 <= k < Z.of_nat n -> spare es mods ks ke (index a + k)).
Proof.
  intros B. destruct (boot_memory_described _ _ _ _ _ B) as (p0 & p & E0 & E1 & D).
  exists p0, p. eexists. split_and!; try done; [apply D|by rewrite <- list_fmap_compose| |].
  { intros i Hi. by rewrite (described_in _ _ _ D Hi). }
  intros p' Hp'. assert (Hsp : forall i, usable (page p' i) = true -> spare es mods ks ke i).
  { intros i Hu. rewrite (usable_steps _ _ Hp') in Hu. destruct (proj2 D i) as [[? _]|[_ E]]; [done|]. by rewrite E in Hu. }
  split.
  - intros a p'' Ea. apply Hsp. unfold alloc in Ea. destruct (alloc_loop _ _ _ _) as [i|] eqn:El; [|done].
    simplify_eq. rewrite index_frame. by eapply alloc_loop_usable.
  - intros n a p'' k Ea Hk. apply Hsp. by eapply contiguous_usable.
Qed.
End Map.
End Pages.

(** ** The first page tables *)

Section Tables.
Import Phys Indices Paging.
Context (N : Z).

Lemma word_of_set t f i v g j : word_of (set_word t f i v) g j = if decide (f = g /\ i = j) then v else word_of t g j.
Proof.
  unfold word_of, set_word. destruct (decide (f = g)) as [->|Hf].
  - rewrite lookup_insert_eq; cbn [mbind option_bind]. destruct (decide (i = j)) as [->|Hi].
    + by rewrite lookup_insert_eq, decide_True.
    + rewrite lookup_insert_ne, decide_False by (done || tauto). by destruct (t !! g).
  - rewrite lookup_insert_ne, decide_False by (done || tauto). done.
Qed.

Lemma word_of_zero t f g j : word_of (zero_frame t f) g j = if decide (f = g) then 0 else word_of t g j.
Proof.
  unfold word_of, zero_frame. case_decide as E; [subst; by rewrite lookup_insert_eq|by rewrite lookup_insert_ne].
Qed.

Lemma testbit_low c m : 0 <= c < 4096 -> 12 <= m -> Z.testbit c m = false.
Proof.
  intros Hc Hm. destruct (decide (c = 0)) as [->|]; [apply Z.testbit_0_l|]. apply Z.bits_above_log2; [lia|].
  apply Z.lt_le_trans with 12; [|done]. apply Z.log2_lt_pow2; lia.
Qed.

(** A frame number with the bits below it *)
Lemma land_frame j c : 0 <= c < 4096 -> Z.land (4096 * j) c = 0.
Proof.
  intros Hc. apply Z.bits_inj'. intros m Hm. rewrite Z.land_spec, Z.bits_0. destruct (Z.lt_ge_cases m 12).
  - change 4096 with (2 ^ 12). rewrite Z.mul_comm, Z.mul_pow2_bits_low by lia. done.
  - rewrite (testbit_low c) by done. apply andb_false_r.
Qed.

Lemma lor_frame j c : 0 <= c < 4096 -> Z.lor (4096 * j) c = 4096 * j + c.
Proof. intros Hc. rewrite <- Z.add_nocarry_lor; [done|]. by apply land_frame. Qed.

Lemma page_frame j c : 0 <= j < 2 ^ 20 -> 0 <= c < 4096 -> Entry.page (4096 * j + c) = 4096 * j.
Proof.
  intros Hj Hc. rewrite <- Virt.page_of_eq, Virt.page_of_div by (unfold is_u; lia).
  replace (4096 * j + c) with (j * 4096 + c) by lia. rewrite Z.div_add_l, Z.div_small by lia. lia.
Qed.

Lemma present_frame j c : 0 <= c < 4096 -> Entry.get (4096 * j + c) Entry.bPresent = Z.odd c.
Proof.
  intros Hc. rewrite Entry.get_testbit by done. change Entry.bPresent with 0. rewrite Z.bit0_odd, Z.odd_add, Z.odd_mul. done.
Qed.

Lemma without_frame j c mask c' : 0 <= j < 2 ^ 20 -> 0 <= c < 4096 -> 0 <= mask < 4096 -> Z.land c (u32 (Z.lnot mask)) = c' ->
  without mask (4096 * j + c) = Z.lor (4096 * j) c'.
Proof.
  intros Hj Hc Hm E. unfold without. rewrite <- lor_frame, Z.land_lor_distr_l, E by done. f_equal.
  apply Z.bits_inj'. intros m Hm0. rewrite Z.land_spec. unfold u32, wrap. rewrite <- Z.land_ones, Z.land_spec, Z.lnot_spec by lia.
  destruct (Z.lt_ge_cases m 12).
  { change 4096 with (2 ^ 12). rewrite Z.mul_comm, Z.mul_pow2_bits_low by lia. done. }
  destruct (Z.lt_ge_cases m 32).
  - rewrite Z.ones_spec_low by lia. rewrite (testbit_low mask) by lia. by rewrite andb_true_r.
  - rewrite (Entry.testbit_high (4096 * j)) by (unfold is_u; lia). done.
Qed.

Lemma without_attrib j : 0 <= j < 2 ^ 20 -> without pagedirAttrib (4096 * j + 7) = 4096 * j.
Proof. intros Hj. change pagedirAttrib with 7. rewrite (without_frame j 7 7 0); try done; try lia. by rewrite Z.lor_0_r. Qed.

Lemma without_user j : 0 <= j < 2 ^ 20 -> without gUserBit (4096 * j + 7) = 4096 * j + 3.
Proof. intros Hj. change gUserBit with 4. rewrite (without_frame j 7 4 3); try done; try lia. by rewrite lor_frame by lia. Qed.

(** The directory at frame [q] has the tables at the frames [fs] *)
Record directory (t : tables) (q : Z) (fs : list Z) : Prop := {
  di_length : length fs = 1024%nat;
  di_nodup : NoDup (q :: fs);
  di_range : Forall (fun j => 0 <= j < 2 ^ 20) (q :: fs);
  di_words : forall k j, fs !! k = Some j -> word_of t (4096 * q) (Z.of_nat k) = 4096 * j + 7;
}.

(** The word of slot [i] in these tables *)
Definition pte (t : tables) (fs : list Z) (i : PagingIndices) : Z := word_of t (4096 * default 0 (fs !! Z.to_nat (dir i))) (tbl i).

Lemma directory_lookup t q fs i : directory t q fs -> wf i -> exists j, fs !! Z.to_nat (dir i) = Some j /\ 0 <= j < 2 ^ 20 /\ j <> q /\
  word_of t (4096 * q) (dir i) = 4096 * j + 7.
Proof.
  intros D [Hd _]. destruct (lookup_lt_is_Some_2 fs (Z.to_nat (dir i))) as [j Hj]; [rewrite (di_length _ _ _ D); lia|].
  exists j. pose proof (di_range _ _ _ D) as [_ Hr]%Forall_cons_1. pose proof (di_nodup _ _ _ D) as [Hn _]%NoDup_cons.
  split_and!; try done; try (apply (Forall_lookup_1 _ _ _ _ Hr Hj)).
  - intros ->. apply Hn. by eapply list_elem_of_lookup_2.
  - pose proof (di_words _ _ _ D _ _ Hj) as E. by rewrite Z2Nat.id in E by lia.
Qed.

(** Writing a slot of a table *)
Lemma set_slot t q fs i j v : directory t q fs -> wf i -> fs !! Z.to_nat (dir i) = Some j ->
  directory (set_word t (4096 * j) (tbl i) v) q fs /\
  forall i', wf i' -> pte (set_word t (4096 * j) (tbl i) v) fs i' = if decide (i = i') then v else pte t fs i'.
Proof.
  intros D Hi Hj. pose proof (di_nodup _ _ _ D) as [Hq Hn]%NoDup_cons. split.
  - constructor; try apply D. intros k j' Hk. rewrite word_of_set, decide_False; [by apply D|].
    intros [E _]. apply Hq. assert (j = q) as <- by lia. by eapply list_elem_of_lookup_2.
  - intros i' Hi'. destruct (directory_lookup _ _ _ _ D Hi') as (j' & Hj' & _). unfold pte. rewrite Hj'. cbn [default from_option id].
    rewrite word_of_set. apply decide_ext. split.
    + intros [E1 E2]. assert (j = j') as <- by lia. pose proof (NoDup_lookup _ _ _ _ Hn Hj Hj') as E.
      destruct i, i', Hi, Hi'; simpl in *. f_equal; lia.
    + intros ->. split; [f_equal; congruence|done].
Qed.

Lemma alloc_tables_spec n : forall p t q i,
  ok N p -> Z.of_nat n <= mFreePages p -> available (page p q) = false ->
  exists p' t' fs, alloc_tables N p t (4096 * q) i n = Some (p', t') /\ ok N p' /\ length fs = n /\ NoDup fs /\
    Forall (fun j => 0 <= j < N /\ available (page p j) = true) fs /\
    (forall k j, fs !! k = Some j -> word_of t' (4096 * q) (i + Z.of_nat k) = 4096 * j + 7) /\
    (forall k j e, fs !! k = Some j -> word_of t' (4096 * j) e = 0) /\
    (forall f e, f <> 4096 * q -> (forall j, j ∈ fs -> f <> 4096 * j) -> word_of t' f e = word_of t f e) /\
    (forall e, e < i -> word_of t' (4096 * q) e = word_of t (4096 * q) e).
Proof.
  induction n as [|n IH]; intros p t q i Hok Hfree Hq; cbn [alloc_tables].
  { exists p, t, []. split_and!; try done. constructor. }
  pose proof (alloc_spec N p Hok) as Ha. destruct (alloc N p) as [[pa p1]|]; [|lia].
  destruct Ha as (j & -> & Hj & Hav & Hp1 & Hother & Hf1 & Hok1). cbn [mbind option_bind]. unfold gPageSize.
  assert (Hjq : j <> q) by (intros ->; congruence).
  destruct (IH p1 (zero_frame (set_word t (4096 * q) i (Z.lor (4096 * j) pagedirAttrib)) (4096 * j)) q (i + 1) Hok1)
    as (p' & t' & fs & E & Hok' & Hlen & Hnd & Hr & Hw & Hz & Ho & Hlow); [lia|by rewrite Hother|].
  assert (Hnew : forall k, k ∈ fs -> k <> j /\ 0 <= k < N /\ available (page p k) = true).
  { intros k Hk. pose proof (proj1 (Forall_forall _ _) Hr k Hk) as [Hkr Hka]. simpl in *.
    assert (k <> j) by (intros ->; rewrite Hp1 in Hka; done). rewrite Hother in Hka by done. done. }
  exists p', t', (j :: fs). split_and!; try done.
  - simpl. by rewrite Hlen.
  - apply NoDup_cons. split; [|done]. intros Hin. by destruct (Hnew j Hin).
  - constructor; [done|]. apply Forall_forall. intros k Hk. by destruct (Hnew k Hk) as (_ & ? & ?).
  - intros [|k] j' Hk; simpl in Hk.
    + simplify_eq. rewrite Z.add_0_r, Hlow by lia. rewrite word_of_zero, decide_False by lia.
      rewrite word_of_set, decide_True by done. change pagedirAttrib with 7. apply lor_frame. lia.
    + rewrite <- (Hw k j' Hk). f_equal. lia.
  - intros [|k] j' e Hk; simpl in Hk; [|by eapply Hz]. simplify_eq. rewrite Ho.
    + by rewrite word_of_zero, decide_True.
    + lia.
    + intros k Hk. destruct (Hnew k Hk). lia.
  - intros f e Hf Hn. rewrite Ho; [|done|].
    + rewrite word_of_zero, decide_False by (intros Hc; apply (Hn j); [by left|done]).
      rewrite word_of_set, decide_False by (intros [? ?]; done). done.
    + intros k Hk. apply Hn. by right.
  - intros e He. rewrite Hlow by lia. rewrite word_of_zero, decide_False by lia. rewrite word_of_set, decide_False by lia. done.
Qed.

(** The loop over the kernel from slot [i] on: [c] is the frame, [n] the pages to go *)
Lemma map_kernel_spec q fs n : forall t i c e,
  directory t q fs -> wf i -> 0 <= c -> number i + Z.of_nat n <= 2 ^ 20 - 1 ->
  e <= 4096 * (c + Z.of_nat n) -> 4096 * (c + Z.of_nat n) < e + 4096 -> c + Z.of_nat n < 2 ^ 20 ->
  exists t', map_kernel t (4096 * q) i (4096 * c) e n = Some t' /\ directory t' q fs /\
    forall i', wf i' -> pte t' fs i' =
      if decide (number i <= number i' < number i + Z.of_nat n) then 4096 * (c + (number i' - number i)) + 0x103 else pte t fs i'.
Proof.
  induction n as [|n IH]; intros t i c e D Hi Hc Hn He1 He2 Hmax; cbn [map_kernel].
  { rewrite (proj2 (Z.ltb_ge _ _)) by lia. exists t. split_and!; try done. intros i' _. by rewrite decide_False by lia. }
  destruct (Z.ltb_spec (4096 * c) e) as [Hlt|Hge]; [|lia].
  destruct (directory_lookup _ _ _ _ D Hi) as (j & Hj & Hjr & _ & Hw). rewrite Hw, without_attrib by done.
  change kerneltblAttrib with 0x103. rewrite lor_frame by lia.
  rewrite u32_id by (unfold is_u; lia). replace (4096 * c + 4096) with (4096 * (c + 1)) by lia.
  destruct (set_slot t q fs i j (4096 * c + 0x103) D Hi Hj) as [D1 P1].
  destruct (next_number i Hi) as [Hi1 Hn1]. rewrite Z.mod_small in Hn1 by (destruct Hi; unfold number in *; lia).
  destruct (IH _ (next i) (c + 1) e D1 Hi1) as (t' & E & D' & P'); try lia.
  exists t'. split_and!; try done. intros i' Hi'. rewrite P', P1 by done.
  destruct (decide (i = i')) as [->|Hne]; repeat case_decide; try lia; try done.
  exfalso. apply Hne, number_inj; try done. lia.
Qed.

Lemma map_kernel_more q n : forall t i c e t', map_kernel t q i c e n = Some t' -> map_kernel t q i c e (S n) = Some t'.
Proof.
  induction n as [|n IH]; intros t i c e t' E; cbn [map_kernel] in E |- *; [by destruct (c <? e)|].
  destruct (c <? e); [|done]. by apply IH in E.
Qed.

(** The loop over the directory: the tables from [i] on become the pages of the last one *)
Lemma map_tables_spec q fs n : forall t i,
  directory t q fs -> 0 <= i -> i + Z.of_nat n = 1024 ->
  exists t', map_tables t (4096 * q) (mkIndices 1023 i) i n = t' /\ directory t' q fs /\
    forall i', wf i' -> pte t' fs i' = if decide (dir i' = 1023 /\ i <= tbl i') then 4096 * default 0 (fs !! Z.to_nat (tbl i')) + 3 else pte t fs i'.
Proof.
  induction n as [|n IH]; intros t i D H0 Hn; cbn [map_tables].
  { eexists. split; [done|]. split; [done|]. intros i' [? ?]. rewrite decide_False by lia. done. }
  assert (Hi : wf (mkIndices 1023 i)) by (unfold wf; simpl; lia).
  destruct (directory_lookup _ _ _ _ D Hi) as (j & Hj & Hjr & _ & Hw). cbn [dir tbl] in *. rewrite Hw, without_attrib by done.
  assert (Hi2 : wf (mkIndices i 0)) by (unfold wf; simpl; lia).
  destruct (directory_lookup _ _ _ _ D Hi2) as (j2 & Hj2 & Hjr2 & _ & Hw2). cbn [dir] in *.
  rewrite Hw2, (proj2 (Z.eqb_neq _ 0)) by lia. rewrite without_user by done.
  destruct (set_slot t q fs (mkIndices 1023 i) j (4096 * j2 + 3) D Hi Hj) as [D1 P1]. cbn [tbl] in *.
  destruct (decide (n = 0%nat)) as [->|Hn0].
  { eexists. split; [done|]. cbn [map_tables]. split; [done|]. intros i' Hi'. rewrite P1 by done.
    destruct i' as [d e], Hi' as [Hd He]; simpl in *. destruct (decide (mkIndices 1023 i = mkIndices d e)) as [E|E].
    - simplify_eq. rewrite decide_True by lia. by rewrite Hj2.
    - rewrite decide_False; [done|]. intros [-> ?]. apply E. f_equal. lia. }
  assert (Hnext : next (mkIndices 1023 i) = mkIndices 1023 (i + 1)).
  { unfold next. cbn [tbl dir]. rewrite (proj2 (Z.eqb_neq _ _)) by lia. done. }
  rewrite Hnext. destruct (IH _ (i + 1) D1 ltac:(lia) ltac:(lia)) as (t' & E & D' & P').
  exists t'. split; [done|]. split; [done|]. intros i' Hi'. rewrite P', P1 by done.
  destruct i' as [d e], Hi' as [Hd He]; simpl in *. destruct (decide (mkIndices 1023 i = mkIndices d e)) as [E1|E1].
  - simplify_eq. rewrite decide_False, decide_True by lia. by rewrite Hj2.
  - repeat case_decide; try done; try lia. exfalso. apply E1. f_equal; lia.
Qed.

(** The slots after the constructor *)
Definition first_pte (q : Z) (fs : list Z) (ks ke : Z) (i : PagingIndices) : Z :=
  if decide (ks / 4096 <= number i < (ke + 4095) / 4096) then 4096 * (number i - 0xC0000) + 0x103
  else if decide (i = mkIndices 1022 1023) then 4096 * q + 7
  else if decide (dir i = 1023) then 4096 * default 0 (fs !! Z.to_nat (tbl i)) + 3
  else 0.

Lemma build_spec p t ks ke :
  ok N p -> N <= 2 ^ 20 -> 1025 <= mFreePages p ->
  gKernelBase <= ks < ke -> ke <= gPageDirectoryAddress -> ks mod 4096 = 0 ->
  exists q fs p' t', build N p t ks ke = Some (4096 * q, p', t') /\ ok N p' /\ directory t' q fs /\
    forall i, wf i -> pte t' fs i = first_pte q fs ks ke i.
Proof.
  intros Hok HN Hfree Hks Hke Hal. unfold build. pose proof (alloc_spec N p Hok) as Ha.
  destruct (alloc N p) as [[pa p1]|]; [|lia]. destruct Ha as (q & -> & Hq & _ & Hp1 & _ & Hf1 & Hok1).
  cbn [mbind option_bind]. unfold Phys.gPageSize.
  assert (Hqa : available (page p1 q) = false) by (by rewrite Hp1).
  destruct (alloc_tables_spec 1024 p1 t q 0 Hok1) as (p2 & t2 & fs & E2 & Hok2 & Hlen & Hnd & Hr & Hw & Hz & _); [lia|exact Hqa|].
  rewrite E2; cbn [mbind option_bind].
  assert (Hall : forall j, j ∈ fs -> 0 <= j < N /\ j <> q).
  { intros j Hj. pose proof (proj1 (Forall_forall _ _) Hr j Hj) as [Hjr Hja]. split; [exact Hjr|]. intros ->. congruence. }
  assert (D2 : directory t2 q fs).
  { constructor; [done| | |].
    - apply NoDup_cons. split; [|done]. intros Hin. by destruct (Hall q Hin).
    - constructor; [lia|]. apply Forall_forall. intros j Hj. destruct (Hall j Hj). lia.
    - intros k j Hk. by rewrite <- (Hw k j Hk). }
  assert (P2 : forall i, wf i -> pte t2 fs i = 0).
  { intros i Hi. destruct (directory_lookup _ _ _ _ D2 Hi) as (j & Hj & _). unfold pte. rewrite Hj. by eapply Hz. }
  unfold gKernelBase, gPageDirectoryAddress in Hks, Hke. set (s := ks / 4096).
  assert (Hs : ks = 4096 * s) by (unfold s; pose proof (Z.div_mod ks 4096 ltac:(lia)); lia).
  set (n := (ke + 4095) / 4096 - s).
  assert (Hn : 4096 * (s + n) < ke + 4096 /\ ke <= 4096 * (s + n) /\ 0 < n) by (unfold n; Z.to_euclidean_division_equations; lia).
  assert (Hi0 : number (of_address ks) = s) by (apply of_address_number; lia).
  unfold gKernelBase. rewrite !u32_id by (unfold is_u; lia).
  replace (ks - 0xC0000000) with (4096 * (s - 0xC0000)) by lia.
  assert (Hfuel : Z.to_nat ((ke - 0xC0000000 - 4096 * (s - 0xC0000)) / 4096 + 1) = Z.to_nat n \/
    Z.to_nat ((ke - 0xC0000000 - 4096 * (s - 0xC0000)) / 4096 + 1) = S (Z.to_nat n)).
  { assert (n - 1 <= (ke - 0xC0000000 - 4096 * (s - 0xC0000)) / 4096 <= n); [|lia].
    split; [apply Z.div_le_lower_bound; lia|]. apply Z.lt_succ_r, Z.div_lt_upper_bound; lia. }
  destruct (map_kernel_spec q fs (Z.to_nat n) t2 (of_address ks) (s - 0xC0000) (ke - 0xC0000000) D2) as (t3 & E3 & D3 & P3);
    rewrite ?Hi0, ?Z2Nat.id by lia; try lia; [apply of_address_wf; unfold is_u; lia|].
  assert (E3' : map_kernel t2 (4096 * q) (of_address ks) (4096 * (s - 0xC0000)) (ke - 0xC0000000)
    (Z.to_nat ((ke - 0xC0000000 - 4096 * (s - 0xC0000)) / 4096 + 1)) = Some t3).
  { destruct Hfuel as [-> | ->]; [done|]. by apply map_kernel_more. }
  rewrite E3'; cbn [mbind option_bind].
  change (of_address gPageDirectoryAddress) with (mkIndices 1022 1023). cbn [dir tbl].
  assert (Hi1 : wf (mkIndices 1022 1023)) by (unfold wf; simpl; lia).
  destruct (directory_lookup _ _ _ _ D3 Hi1) as (j & Hj & Hjr & _ & Hjw). cbn [dir] in *. rewrite Hjw, without_attrib by done.
  change pagedirAttrib with 7. rewrite lor_frame by lia.
  destruct (set_slot t3 q fs (mkIndices 1022 1023) j (4096 * q + 7) D3 Hi1 Hj) as [D4 P4]. cbn [tbl] in *.
  change (next (mkIndices 1022 1023)) with (mkIndices 1023 0).
  destruct (map_tables_spec q fs 1024 _ 0 D4 ltac:(lia) ltac:(lia)) as (t5 & E5 & D5 & P5). rewrite E5.
  exists q, fs, p2, t5. split; [reflexivity|]. split; [exact Hok2|]. split; [exact D5|]. intros i Hi. rewrite P5, P4, P3, P2 by done. unfold first_pte. clear E2 E3 E3' E5 P2 P3 P4 P5 D2 D3 D4 D5 Hw Hz Hjw Hfuel.
  rewrite Z2Nat.id by lia. rewrite Hi0. fold s. replace ((ke + 4095) / 4096) with (s + n) by (unfold n; lia).
  assert (Hlim : number (mkIndices 1022 1023) = 1047551) by done.
  destruct i as [d e], Hi as [Hd He]. cbn [dir tbl] in *. unfold number in *. cbn [dir tbl] in *.
  destruct (decide (s <= 1024 * d + e < s + n)) as [Hk|Hk].
  - rewrite decide_False by lia. rewrite decide_False by (intros [= <- <-]; lia). lia.
  - destruct (decide (mkIndices 1022 1023 = mkIndices d e)) as [E|E].
    + simplify_eq. rewrite decide_False by lia. by rewrite decide_True.
    + rewrite (decide_False (P := mkIndices d e = _)) by done. repeat case_decide; try done; lia.
Qed.

(** C12: the page tables made at boot translate, on the processor, exactly the pages of the kernel
    image to the memory it was loaded into, the page before the last four megabytes to the
    directory, and the last four megabytes to the tables, table by table, which lie in
    pages of their own; every other address faults. *)
Theorem first_tables_translate p t ks ke :
  ok N p -> N <= 2 ^ 20 -> 1025 <= mFreePages p ->
  gKernelBase <= ks < ke -> ke <= gPageDirectoryAddress -> ks mod 4096 = 0 ->
  exists q fs p' t', build N p t ks ke = Some (4096 * q, p', t') /\ ok N p' /\ length fs = 1024%nat /\ NoDup (q :: fs) /\
    forall v, is_u32 v -> walk t' (4096 * q) v =
      if decide (ks <= v < 4096 * ((ke + 4095) / 4096)) then Some (v - gKernelBase)
      else if decide (gPageDirectoryAddress <= v < gPageDirectoryAddress + 4096) then Some (4096 * q + v mod 4096)
      else if decide (gPageDirectoryAddress + 4096 <= v) then
        (fun f => 4096 * f + v mod 4096) <$> fs !! Z.to_nat ((v - (gPageDirectoryAddress + 4096)) / 4096)
      else None.
Proof.
  intros Hok HN Hfree Hks Hke Hal. destruct (build_spec p t ks ke Hok HN Hfree Hks Hke Hal) as (q & fs & p' & t' & E & Hok' & D & P).
  exists q, fs, p', t'. split_and!; try done; try apply D. intros v Hv.
  pose proof (of_address_wf v Hv) as Hi. destruct (directory_lookup _ _ _ _ D Hi) as (j & Hj & Hjr & Hjq & Hw).
  pose proof (P _ Hi) as Hp. unfold pte in Hp. rewrite Hj in Hp. cbn [default from_option id] in Hp.
  unfold walk. rewrite Hw, present_frame, page_frame, Hp by lia. change (Z.odd 7) with true. cbn [negb].
  pose proof (of_address_number v ltac:(unfold is_u in Hv; lia)) as Hnum. unfold first_pte. rewrite Hnum.
  unfold gKernelBase, gPageDirectoryAddress in *. unfold is_u in Hv.
  pose proof (Z.div_mod v 4096 ltac:(lia)). pose proof (Z.mod_pos_bound v 4096 ltac:(lia)).
  pose proof (Z.div_mod ks 4096 ltac:(lia)). pose proof (Z.div_mod (ke + 4095) 4096 ltac:(lia)).
  pose proof (Z.mod_pos_bound (ke + 4095) 4096 ltac:(lia)).
  destruct (decide (ks / 4096 <= v / 4096 < (ke + 4095) / 4096)) as [Hk|Hk].
  { rewrite present_frame by lia. change (Z.odd 0x103) with true. cbn [negb]. rewrite page_frame by lia.
    rewrite decide_True by lia. f_equal. lia. }
  rewrite (decide_False (P := ks <= v < _)) by lia.
  destruct (of_address v) as [d e] eqn:Ei. destruct Hi as [Hd He]. unfold number in Hnum. cbn [dir tbl] in *.
  pose proof (proj1 (Forall_cons _ _ _) (di_range _ _ _ D)) as [Hqr Hfr].
  destruct (decide (mkIndices d e = mkIndices 1022 1023)) as [[= -> ->]|Hne].
  { rewrite present_frame by lia. change (Z.odd 7) with true. cbn [negb]. rewrite page_frame by lia. by rewrite decide_True by lia. }
  assert (Hne' : 1024 * d + e <> 1047551) by (intros Hc; apply Hne; f_equal; lia).
  rewrite (decide_False (P := 0xffbff000 <= v < _)) by lia.
  destruct (decide (d = 1023)) as [->|Hd'].
  - rewrite decide_True by lia. replace ((v - (0xffbff000 + 4096)) / 4096) with e.
    + destruct (lookup_lt_is_Some_2 fs (Z.to_nat e)) as [f Hf]; [rewrite (di_length _ _ _ D); lia|]. rewrite Hf.
      cbn [default from_option id fmap option_fmap option_map]. pose proof (Forall_lookup_1 _ _ _ _ Hfr Hf) as Hfr'. simpl in Hfr'.
      rewrite present_frame by lia. change (Z.odd 3) with true. cbn [negb]. by rewrite page_frame by lia.
    + apply (Z.div_unique _ _ _ (v mod 4096)); lia.
  - change (Entry.get 0 Entry.bPresent) with false. cbn [negb]. by rewrite decide_False by lia.
Qed.
(** *** The tables as entries *)

Definition words_ok (t : tables) : Prop := forall f e v, t !! f ≫= (.!! e) = Some v -> is_u32 v /\ 0 <= e < 1024.

Lemma words_ok_set t f i v : words_ok t -> is_u32 v -> 0 <= i < 1024 -> words_ok (set_word t f i v).
Proof.
  intros Ht Hv Hi f' e v'. unfold set_word. destruct (decide (f = f')) as [->|Hf].
  - rewrite lookup_insert_eq; cbn [mbind option_bind]. rewrite lookup_insert_Some. intros [[<- <-]|[_ E]]; [done|].
    apply (Ht f' e). destruct (t !! f') as [m|]; cbn in E |- *; [done|by rewrite lookup_empty in E].
  - rewrite lookup_insert_ne by done. apply Ht.
Qed.

Lemma words_ok_zero t f : words_ok t -> words_ok (zero_frame t f).
Proof.
  intros Ht f' e v. unfold zero_frame. rewrite lookup_insert. case_decide; [|apply Ht]. cbn. by rewrite lookup_empty.
Qed.

Lemma word_of_u32 t f e : words_ok t -> is_u32 (word_of t f e).
Proof. intros Ht. unfold word_of. destruct (t !! f ≫= (.!! e)) as [v|] eqn:E; [by eapply Ht|done]. Qed.

Lemma lor_u32 a b : is_u32 a -> is_u32 b -> is_u32 (Z.lor a b).
Proof.
  intros Ha Hb. apply Entry.is_u32_bits.
  - apply Z.lor_nonneg. unfold is_u in *. lia.
  - intros m Hm. by rewrite Z.lor_spec, !Entry.testbit_high.
Qed.

Lemma without_u32 a v : is_u32 v -> is_u32 (without a v).
Proof.
  intros Hv. unfold without. apply Entry.is_u32_bits.
  - apply Z.land_nonneg. left. unfold is_u in Hv. lia.
  - intros m Hm. by rewrite Z.land_spec, Entry.testbit_high.
Qed.

Lemma alloc_tables_words n : forall p t q i p' t', ok N p -> N <= 2 ^ 20 -> words_ok t -> 0 <= i -> i + Z.of_nat n <= 1024 ->
  alloc_tables N p t q i n = Some (p', t') -> words_ok t'.
Proof.
  induction n as [|n IH]; intros p t q i p' t' Hok HN Ht Hi Hn E; cbn [alloc_tables] in E; [by simplify_eq|].
  pose proof (alloc_spec N p Hok) as Ha. destruct (alloc N p) as [[pa p1]|]; [|done].
  destruct Ha as (j & -> & Hj & _ & _ & _ & _ & Hok1). cbn [mbind option_bind] in E. refine (IH _ _ _ _ _ _ Hok1 HN _ _ _ E); [|lia|lia].
  apply words_ok_zero, words_ok_set; [done| |lia]. apply lor_u32; unfold is_u, Phys.gPageSize; [lia|done].
Qed.

Lemma map_kernel_words q n : forall t i c e t', words_ok t -> is_u32 c -> wf i -> map_kernel t q i c e n = Some t' -> words_ok t'.
Proof.
  induction n as [|n IH]; intros t i c e t' Ht Hc Hi E; cbn [map_kernel] in E; destruct (c <? e); simplify_eq; try done.
  eapply IH; [| | |exact E].
  - apply words_ok_set; [done|by apply lor_u32|apply Hi].
  - unfold is_u, u32, wrap. apply Z.mod_pos_bound. lia.
  - by apply next_number.
Qed.

Lemma map_tables_words q n : forall t i k, words_ok t -> wf i -> words_ok (map_tables t q i k n).
Proof.
  induction n as [|n IH]; intros t i k Ht Hi; cbn [map_tables]; [done|]. apply IH; [|by apply next_number]. case_match; [done|].
  apply words_ok_set; [done|by apply without_u32, word_of_u32|apply Hi].
Qed.

Lemma build_words p t ks ke cr3 p' t' : ok N p -> N <= 2 ^ 20 -> words_ok t -> is_u32 ks -> build N p t ks ke = Some (cr3, p', t') -> words_ok t'.
Proof.
  intros Hok HN Ht Hks E. unfold build in E. pose proof (alloc_spec N p Hok) as Ha. destruct (alloc N p) as [[pa p1]|]; [|done].
  destruct Ha as (j & -> & Hj & _ & _ & _ & _ & Hok1). cbn [mbind option_bind] in E.
  destruct (alloc_tables N p1 t _ 0 1024) as [[p2 t2]|] eqn:E2; [|discriminate E]. cbn [mbind option_bind] in E.
  apply alloc_tables_words in E2; [|exact Hok1|exact HN|exact Ht|lia|lia].
  destruct (map_kernel t2 _ _ _ _ _) as [t3|] eqn:E3; [|discriminate E]. cbn [mbind option_bind] in E.
  apply map_kernel_words in E3; [|exact E2|unfold is_u, u32, wrap; apply Z.mod_pos_bound; lia|by apply of_address_wf].
  apply (inj Some), pair_equal_spec in E as [_ <-]. apply map_tables_words; [|done]. apply words_ok_set; [done| |done]. apply lor_u32; unfold is_u, Phys.gPageSize; [lia|done].
Qed.

Lemma entries_of_lookup t cr3 k :
  entries_of t cr3 !! k = if decide (0 <= k.1 < 1024) then t !! Entry.page (word_of t cr3 k.1) ≫= (.!! k.2) else None.
Proof.
  destruct k as [d e]. cbn [fst snd]. unfold entries_of.
  assert (G : forall n a, foldr (fun (d : nat) (m : gmap (Z * Z) Z) => kmap (fun e => (Z.of_nat d, e)) (table_at t cr3 d) ∪ m) ∅ (seq a n) !! (d, e)
    = if decide (Z.of_nat a <= d < Z.of_nat (a + n)) then table_at t cr3 (Z.to_nat d) !! e else None).
  { induction n as [|n IH]; intros a; cbn [seq foldr]; [by rewrite decide_False by lia|].
    rewrite lookup_union, IH. assert (Inj (=) (=) (fun e : Z => (Z.of_nat a, e))) by (by intros x y [= ->]).
    destruct (decide (Z.of_nat a = d)) as [E|E].
    - rewrite <- E, lookup_kmap by done. rewrite Nat2Z.id. rewrite decide_False, decide_True by lia. by destruct (table_at t cr3 a !! e).
    - rewrite (proj2 (lookup_kmap_None _ _ _)) by (intros x [= Hc]; lia). rewrite (left_id_L None _).
      repeat case_decide; try done; lia. }
  rewrite G. case_decide as H1; rewrite ?(decide_True (P := 0 <= d < 1024)), ?(decide_False (P := 0 <= d < 1024)) by lia; [|done].
  unfold table_at. rewrite Z2Nat.id by lia. by destruct (t !! _).
Qed.

(** The entries that the rest of the kernel works with are those of the tables *)
Lemma entries_of_pte t q fs s i : directory t q fs -> Virt.entries s = entries_of t (4096 * q) -> wf i -> Virt.entry s i = pte t fs i.
Proof.
  intros D Hs Hi. destruct (directory_lookup _ _ _ _ D Hi) as (j & Hj & Hjr & _ & Hw).
  unfold Virt.entry, pte. rewrite Hs, entries_of_lookup, Hj. cbn [fst snd default from_option id]. destruct Hi as [Hd _].
  rewrite decide_True by lia. rewrite Hw, page_frame by lia. done.
Qed.

Lemma entries_of_ok t cr3 s : words_ok t -> Virt.entries s = entries_of t cr3 -> Virt.entries_ok s.
Proof.
  intros Ht Hs k v E. rewrite Hs, entries_of_lookup in E. case_decide; [by eapply Ht|done].
Qed.
End Tables.

(** ** Kernel regions and modules *)

Section Regions.
Import Interval IntervalList Virt Indices Entry EarlyBoot.

Definition gMax : Z := 1073741824.
Definition page_wise (i : interval_t) : Prop := from i mod 4096 = 0 /\ (to i + 1) mod 4096 = 0.

(** The kernel regions, as offsets from the base of the kernel, below [T] *)
Record regions_ok (l : list interval_t) (T : Z) : Prop := {
  ro_ordered : ordered l;
  ro_pages : Forall page_wise l;
  ro_top : Forall (fun i => to i <= T) l;
  ro_some : l <> [];
}.

(** Where a free interval starts *)
Lemma findFree_gap_from max l sz r : findFree max l sz = Some r ->
  r = mkInterval 0 (u32 (sz - 1)) \/ exists i, i ∈ l /\ r = mkInterval (u32 (to i + 1)) (u32 (sz + to i)).
Proof.
  unfold findFree. destruct (sz =? 0); [done|].
  assert (Hg : forall l, find_gap l sz = Some r -> exists i, i ∈ l /\ r = mkInterval (u32 (to i + 1)) (u32 (sz + to i))).
  { intros l'. induction l' as [|i0 [|i1 l'] IH]; try done. cbn [find_gap]. case_match.
    - intros [= <-]. exists i0. split; [by left|done].
    - intros (i & Hi & ->)%IH. exists i. split; [by right|done]. }
  assert (Ha : forall i, find_after max i sz = Some r -> r = mkInterval (u32 (to i + 1)) (u32 (sz + to i))).
  { intros i. unfold find_after. case_match; [|done]. by intros [= <-]. }
  destruct l as [|i0 [|i1 l]]; [intros [= <-]; by left| |].
  - case_match; [intros [= <-]; by left|]. intros E%Ha. right. exists i0. split; [by left|done].
  - destruct (find_gap (i0 :: i1 :: l) sz) as [r'|] eqn:E; [intros [= ->]; right; by apply Hg|].
    destruct (list.last (i0 :: i1 :: l)) as [i|] eqn:El; [|done]. intros E'%Ha. right. exists i. split; [|done].
    apply last_Some in El as [l' ->]. apply elem_of_app. right. by left.
Qed.

(** Page-wise regions with room above them leave a page-wise free region *)
Lemma findFree_pages l T sz : regions_ok l T -> 0 < sz -> sz mod 4096 = 0 -> T + sz < gMax ->
  exists r, findFree gMax l sz = Some r /\ Interval.wf r /\ to r - from r + 1 = sz /\ Forall (disjoint r) l /\ page_wise r /\ to r <= T + sz.
Proof.
  intros [Ho Hp Ht Hne] H0 Hm HT. unfold gMax in *. pose proof (proj1 Ho) as Hwf.
  assert (Hto : forall i, i ∈ l -> 0 <= from i <= to i /\ to i <= T /\ page_wise i).
  { intros i Hi. pose proof (proj1 (Forall_forall _ _) Hwf i Hi) as (Hf & _ & ?). pose proof (proj1 (Forall_forall _ _) Ht i Hi).
    pose proof (proj1 (Forall_forall _ _) Hp i Hi). unfold is_u in Hf. cbn beta in *. split_and!; (done || lia). }
  assert (HT0 : 0 <= T) by (destruct l as [|i l]; [done|]; destruct (Hto i ltac:(by left)); lia).
  assert (Hex : exists r, findFree 1073741824 l sz = Some r).
  { assert (Ha : forall i, i ∈ l -> exists r, find_after 1073741824 i sz = Some r).
    { intros i Hi. destruct (Hto i Hi) as (? & ? & _). unfold find_after. rewrite u32_id by (unfold is_u; lia).
      rewrite (proj2 (Z.leb_le _ _)) by lia. eauto. }
    unfold findFree. rewrite (proj2 (Z.eqb_neq _ 0)) by lia. destruct l as [|i0 [|i1 l]]; [done| |].
    - case_match; [eauto|]. apply Ha. by left.
    - destruct (find_gap _ sz); [eauto|]. destruct (list.last (i0 :: i1 :: l)) as [i|] eqn:El; [|by apply last_None in El].
      cbn [mbind option_bind]. apply Ha. apply last_Some in El as [l' ->]. apply elem_of_app. right. by left. }
  destruct Hex as [r E]. exists r. split; [done|].
  assert (Hs : IntervalList.usable 1073741824 l sz r).
  { apply findFree_sound; try done; try (unfold is_u; lia).
    - apply Forall_forall. intros i Hi. destruct (Hto i Hi) as (? & ? & _). cbn beta. lia.
    - apply Forall_forall. intros i Hi. cbn beta. enough (i ∈ l) as Hi' by (destruct (Hto i Hi') as (? & ? & _); lia).
      clear - Hi. induction l as [|a [|b l] IH]; simpl in Hi; [by apply not_elem_of_nil in Hi|by apply not_elem_of_nil in Hi|].
      apply elem_of_cons in Hi as [->|Hi]; [by left|right; by apply IH]. }
  destruct Hs as (Hr & Hsz & _ & Hd). split_and!; try done.
  all: destruct (findFree_gap_from _ _ _ _ E) as [->|(i & Hi & ->)]; cbn [from to] in *.
  - split; [done|]. cbn [to]. rewrite u32_id by (unfold is_u; lia). by replace (sz - 1 + 1) with sz by lia.
  - destruct (Hto i Hi) as (? & ? & [_ Hpt]). rewrite !u32_id in * by (unfold is_u; lia). split; cbn [from to]; [done|].
    replace (sz + to i + 1) with (sz + (to i + 1)) by lia. rewrite Z.add_mod, Hm by lia. by rewrite Hpt.
  - rewrite u32_id by (unfold is_u; lia). lia.
  - destruct (Hto i Hi) as (? & ? & _). rewrite u32_id by (unfold is_u; lia). lia.
Qed.

Lemma regions_ok_add l T r sz : regions_ok l T -> Interval.wf r -> Forall (disjoint r) l -> page_wise r -> to r <= T + sz -> 0 <= sz ->
  regions_ok (add l r) (T + sz).
Proof.
  intros [Ho Hp Ht Hne] Hr Hd Hpw Htop Hsz. rewrite add_add_loop. constructor.
  - by apply add_loop_ordered.
  - rewrite add_loop_perm. by constructor.
  - rewrite add_loop_perm. constructor; [done|]. eapply list.Forall_impl; [exact Ht|]. simpl. lia.
  - intros E. pose proof (add_loop_perm l r) as Hperm. rewrite E in Hperm. by apply Permutation_nil_cons in Hperm.
Qed.

(** [maprange] on pages *)
Lemma maprange_loop_spec o n : forall s c e v,
  entries_ok s -> 0 <= c -> e <= 4096 * (c + Z.of_nat n) -> 4096 * (c + Z.of_nat n) < e + 4096 ->
  c + Z.of_nat n < 2 ^ 20 -> 0 <= v -> v + Z.of_nat n <= 2 ^ 20 ->
  exists s' x, maprange_loop n s (4096 * c) e (4096 * v) o = Some (x, s') /\ entries_ok s' /\ same_setup s s' /\ phys s' = phys s /\
    (forall k, 0 <= k < Z.of_nat n -> has_options (Virt.entry s' (of_address (4096 * (v + k)))) (4096 * (c + k)) o) /\
    (forall i, Indices.wf i -> ~ (v <= number i < v + Z.of_nat n) -> Virt.entry s' i = Virt.entry s i).
Proof.
  induction n as [|n IH]; intros s c e v Hs Hc He1 He2 Hcm Hv Hvm; cbn [maprange_loop].
  { rewrite (proj2 (Z.ltb_ge _ _)) by lia. exists s, (4096 * v). split_and!; try done. lia. }
  rewrite (proj2 (Z.ltb_lt _ _)) by lia.
  assert (Hal : forall a, 0 <= a < 2 ^ 20 -> aligned (4096 * a)) by (intros a Ha; by apply (aligned_mul _ a)).
  destruct (map_spec s (4096 * c) (4096 * v) o Hs (Hal c ltac:(lia)) (Hal v ltac:(lia))) as (s1 & E1 & M1).
  rewrite E1; cbn [mbind option_bind]. unfold gPageSize. rewrite (u32_id (4096 * c + 4096)) by (unfold is_u; lia).
  replace (4096 * c + 4096) with (4096 * (c + 1)) by lia.
  assert (Hnum : forall k, 0 <= k < 2 ^ 20 -> number (of_address (4096 * k)) = k).
  { intros k Hk. rewrite of_address_number by lia. rewrite Z.mul_comm. apply Z.div_mul. lia. }
  destruct (decide (n = 0%nat)) as [->|Hn0].
  { exists s1. eexists. cbn [maprange_loop]. rewrite (proj2 (Z.ltb_ge _ _)) by lia. split; [done|]. split_and!; try apply M1.
    - intros k Hk. replace k with 0 by lia. rewrite !Z.add_0_r. apply M1.
    - intros i Hi Hn. apply (mt_other _ _ _ _ _ M1). intros ->. rewrite Hnum in Hn by lia. lia. }
  rewrite (u32_id (4096 * v + 4096)) by (unfold is_u; lia). replace (4096 * v + 4096) with (4096 * (v + 1)) by lia.
  destruct (IH s1 (c + 1) e (v + 1) (mt_ok _ _ _ _ _ M1)) as (s2 & x & E2 & Hok2 & Hs2 & Hp2 & H2 & O2); try lia.
  exists s2, x. split; [done|]. split; [done|]. split; [etrans; [apply M1|done]|].
  split; [by rewrite Hp2, (mt_phys _ _ _ _ _ M1)|]. split.
  - intros k Hk. destruct (decide (k = 0)) as [->|].
    + rewrite !Z.add_0_r, O2; [apply M1|apply of_address_wf; unfold is_u; lia|rewrite Hnum by lia; lia].
    + replace (v + k) with (v + 1 + (k - 1)) by lia. replace (c + k) with (c + 1 + (k - 1)) by lia. apply H2. lia.
  - intros i Hi Hn. rewrite O2 by (done || lia). apply (mt_other _ _ _ _ _ M1). intros ->. rewrite Hnum in Hn by lia. lia.
Qed.

Lemma maprange_more o n : forall s c e v r, maprange_loop n s c e v o = Some r -> maprange_loop (S n) s c e v o = Some r.
Proof.
  induction n as [|n IH]; intros s c e v r E; cbn [maprange_loop] in E |- *; [by destruct (c <? e)|].
  destruct (c <? e); [|done]. destruct (Virt.map s c v o) as [[y s1]|]; [|done]. by apply IH in E.
Qed.

Definition round_up (n : Z) : Z := 4096 * ((n + 4095) / 4096).

Lemma region_round_up n : 0 < n -> n <= round_up n < n + 4096 /\ round_up n mod 4096 = 0.
Proof.
  intros Hn. unfold round_up. split; [Z.to_euclidean_division_equations; lia|]. rewrite Z.mul_comm. apply Z.mod_mul. lia.
Qed.

Lemma findKernelRegion_pages s T size : regions_ok (mKernelRegions s) T -> 0 < size -> T + round_up size < gMax ->
  exists r, findKernelRegion s size = Some (mkInterval (from r + gKernelBase) (to r + gKernelBase)) /\
    Interval.wf r /\ to r - from r + 1 = round_up size /\ Forall (disjoint r) (mKernelRegions s) /\ page_wise r /\ to r <= T + round_up size /\ to r < gMax /\
    findFree gMax (mKernelRegions s) (round_up size) = Some r.
Proof.
  intros Hr H0 HT. destruct (region_round_up size H0) as [Hs Hm].
  assert (HT0 : 0 <= T).
  { destruct Hr as [[Hwf _] _ Ht Hne]. destruct (mKernelRegions s) as [|i l]; [done|].
    apply Forall_cons_1 in Hwf as [(Hf & _ & ?) _]. apply Forall_cons_1 in Ht as [? _]. unfold is_u in Hf. lia. }
  destruct (findFree_pages _ T (round_up size) Hr ltac:(lia) Hm HT) as (r & E & Hwf & Hsz & Hd & Hp & Ht).
  exists r. unfold findKernelRegion. rewrite offset_mod. unfold gPageSize, gMax in *.
  assert ((if size mod 4096 >? 0 then u32 (size - size mod 4096 + 4096) else size) = round_up size) as ->.
  { unfold round_up. rewrite Z.gtb_ltb. pose proof (Z.div_mod size 4096 ltac:(lia)). pose proof (Z.mod_pos_bound size 4096 ltac:(lia)).
    destruct (Z.ltb_spec 0 (size mod 4096)); [rewrite u32_id by (unfold is_u; lia)|]; Z.to_euclidean_division_equations; lia. }
  rewrite E; cbn [mbind option_bind]. destruct Hwf as (Hf & _ & Hft). unfold is_u in Hf.
  assert (to r < 1073741824) by lia. unfold gKernelBase. rewrite !u32_id by (unfold is_u; lia).
  split_and!; try done. unfold Interval.wf, is_u. lia.
Qed.

Lemma addKernelRegion_pages s r : Interval.wf r -> to r < gMax ->
  addKernelRegion s (from r + gKernelBase) (to r + gKernelBase) = set_regions s (add (mKernelRegions s) r).
Proof.
  intros (Hf & _ & Hft) Hm. unfold addKernelRegion, is_u, gMax in *. rewrite !u32_id by (unfold is_u; lia).
  replace (from r + gKernelBase - gKernelBase) with (from r) by lia. replace (to r + gKernelBase - gKernelBase) with (to r) by lia.
  by destruct r.
Qed.

Definition module_ok (m : module_info) : Prop := m_start m mod 4096 = 0 /\ 0 <= m_start m < m_end m /\ m_end m <= 2 ^ 32 - 4096.
Definition modules_size (l : list module_info) : Z := foldr (fun m n => round_up (m_end m - m_start m) + n) 0 l.

Lemma modules_size_nonneg l : Forall (fun m => m_start m < m_end m) l -> 0 <= modules_size l.
Proof.
  induction 1 as [|m l Hm _ IH]; cbn [modules_size foldr]; [lia|]. fold (modules_size l).
  pose proof (region_round_up (m_end m - m_start m)). lia.
Qed.

(** Slot [i] lies in a region of [l] *)
Definition in_regions (l : list interval_t) (i : PagingIndices) : Prop :=
  exists r, r ∈ l /\ from r + gKernelBase <= 4096 * number i <= to r + gKernelBase.

Lemma mapping_at s a ph o : is_u32 a -> has_options (Virt.entry s (of_address (4096 * (a / 4096)))) (4096 * ph) o -> 0 <= ph < 2 ^ 20 ->
  mapping s a = 4096 * ph + a mod 4096.
Proof.
  intros Ha H Hph. unfold mapping. rewrite page_of_div by done. rewrite (ho_present _ _ _ H), (ho_page _ _ _ H), offset_mod.
  pose proof (Z.mod_pos_bound a 4096 ltac:(lia)). apply u32_id. unfold is_u. lia.
Qed.

(** One module: its pages are mapped to a fresh region *)
Lemma maprange_module s m r : module_ok m -> entries_ok s -> Interval.wf r -> page_wise r -> to r < gMax ->
  to r - from r + 1 = round_up (m_end m - m_start m) ->
  exists s' x, maprange s (m_start m) (m_end m) (from r + gKernelBase) kernel_options = Some (x, s') /\ entries_ok s' /\ same_setup s s' /\ phys s' = phys s /\
    (forall a, m_start m <= a < m_end m -> exists ph, 0 <= ph < 2 ^ 20 /\ 4096 * ph = 4096 * (a / 4096) /\
       has_options (Virt.entry s' (of_address (4096 * ((from r + gKernelBase + (a - m_start m)) / 4096)))) (4096 * ph) kernel_options) /\
    (forall i, Indices.wf i -> ~ (from r + gKernelBase <= 4096 * number i <= to r + gKernelBase) -> Virt.entry s' i = Virt.entry s i).
Proof.
  intros (Hal & Hse & Hend) Hs Hr [Hpw _] Htop Hsz. destruct Hr as (Hf & _ & Hft). unfold is_u, gMax in *.
  set (c := m_start m / 4096). set (v := (from r + gKernelBase) / 4096). set (n := (m_end m - m_start m + 4095) / 4096).
  assert (Hc : m_start m = 4096 * c) by (unfold c; pose proof (Z.div_mod (m_start m) 4096 ltac:(lia)); lia).
  assert (Hv : from r + gKernelBase = 4096 * v).
  { unfold v, gKernelBase. pose proof (Z.div_mod (from r + 0xC0000000) 4096 ltac:(lia)) as E.
    rewrite Z.add_mod, Hpw in E by lia. change ((0 + 0xC0000000 mod 4096) mod 4096) with 0 in E. lia. }
  assert (Hn : round_up (m_end m - m_start m) = 4096 * n) by done.
  assert (Hn' : m_end m - m_start m <= 4096 * n < m_end m - m_start m + 4096) by (destruct (region_round_up (m_end m - m_start m)); lia).
  unfold maprange. rewrite (page_of_div (m_start m)) by (unfold is_u; lia). fold c. rewrite Hv.
  set (e := if page_of (m_end m) <? m_end m then _ else _).
  assert (He : m_end m <= e /\ e = 4096 * (c + n)).
  { unfold e. rewrite page_of_div by (unfold is_u; lia). unfold gPageSize.
    pose proof (Z.div_mod (m_end m) 4096 ltac:(lia)). pose proof (Z.mod_pos_bound (m_end m) 4096 ltac:(lia)).
    destruct (Z.ltb_spec (4096 * (m_end m / 4096)) (m_end m)); [rewrite u32_id by (unfold is_u; lia)|]; lia. }
  assert (Hfuel : (e - 4096 * c) / gPageSize + 1 = n + 1).
  { destruct He as [_ ->]. unfold gPageSize. replace (4096 * (c + n) - 4096 * c) with (n * 4096) by lia. rewrite Z.div_mul by lia. done. }
  destruct (maprange_loop_spec kernel_options (Z.to_nat n) s c e v) as (s' & x & E & Hok' & Hset & Hph & Hin & Hout);
    rewrite ?Z2Nat.id by lia; try done; try (unfold gKernelBase in *; lia).
  assert (E' : maprange_loop (Z.to_nat ((e - 4096 * c) / gPageSize + 1)) s (4096 * c) e (4096 * v) kernel_options = Some (x, s')).
  { rewrite Hfuel. replace (Z.to_nat (n + 1)) with (S (Z.to_nat n)) by lia. by apply maprange_more. }
  exists s', x. split; [done|]. split; [done|]. split; [done|]. split; [done|]. rewrite Z2Nat.id in Hin, Hout by lia. split.
  - intros a Ha. set (k := (a - m_start m) / 4096).
    assert (Hk : a - m_start m = 4096 * k + (a - m_start m) mod 4096 /\ 0 <= (a - m_start m) mod 4096 < 4096)
      by (unfold k; split; [apply Z.div_mod; lia|apply Z.mod_pos_bound; lia]).
    exists (c + k). split; [lia|]. split.
    + f_equal. apply Z.div_unique with ((a - m_start m) mod 4096); lia.
    + replace ((4096 * v + (a - m_start m)) / 4096) with (v + k) by (apply Z.div_unique with ((a - m_start m) mod 4096); lia).
      apply Hin. lia.
  - intros i Hi Hni. apply Hout; [done|]. lia.
Qed.

Lemma loadModules_ok l : forall s T,
  regions_ok (mKernelRegions s) T -> entries_ok s -> Forall module_ok l -> T + modules_size l < gMax ->
  exists s' l', loadModules s l = Some (s', l') /\ entries_ok s' /\ phys s' = phys s /\
    Forall2 (fun m m' => m_start m' = m_start m /\ m_end m' = m_end m /\ m_args m' = m_args m) l l' /\
    (forall m, m ∈ l' -> gKernelBase <= m_vmstart m /\ m_vmstart m + (m_end m - m_start m) <= 2 ^ 32 /\
       forall a, m_start m <= a < m_end m -> mapping s' (m_vmstart m + (a - m_start m)) = a) /\
    (forall i, Indices.wf i -> in_regions (mKernelRegions s) i -> Virt.entry s' i = Virt.entry s i).
Proof.
  induction l as [|m l IH]; intros s T Hr Hs Hm HT; cbn [loadModules].
  { exists s, []. split_and!; try done. by intros m ?%not_elem_of_nil. }
  apply Forall_cons_1 in Hm as [Hmok Hm]. pose proof Hmok as (Hal & Hse & Hend). cbn [modules_size foldr] in HT.
  fold (modules_size l) in HT. rewrite u32_id by (unfold is_u; lia).
  assert (Hrest : 0 <= modules_size l).
  { apply modules_size_nonneg. eapply list.Forall_impl; [exact Hm|]. intros x (_ & ? & _). lia. }
  destruct (region_round_up (m_end m - m_start m) ltac:(lia)) as [Hru _].
  destruct (findKernelRegion_pages s T (m_end m - m_start m) Hr) as (r & E & Hwf & Hsz & Hd & Hp & Htop & Hlt & _); [lia|lia|].
  rewrite E; cbn [mbind option_bind from to]. rewrite addKernelRegion_pages by done.
  set (s1 := set_regions s (add (mKernelRegions s) r)).
  destruct (maprange_module s1 m r Hmok Hs Hwf Hp Hlt Hsz) as (s2 & x & E2 & Hok2 & Hset & Hph2 & Hin & Hout).
  rewrite E2; cbn [mbind option_bind].
  assert (Hr2 : regions_ok (mKernelRegions s2) (T + round_up (m_end m - m_start m))).
  { rewrite (ss_regions _ _ Hset). apply regions_ok_add; (done || lia). }
  destruct (IH s2 _ Hr2 Hok2 Hm ltac:(lia)) as (s3 & l' & E3 & Hok3 & Hph3 & Hl' & Hmods & Hkeep). rewrite E3; cbn [mbind option_bind].
  eexists s3, _. split; [done|]. split; [done|]. split; [by rewrite Hph3|]. split; [by constructor|]. destruct Hwf as (Hf & _ & Hft). unfold is_u, gMax in *.
  assert (Hr_in : r ∈ mKernelRegions s2).
  { rewrite (ss_regions _ _ Hset). cbn [mKernelRegions s1 set_regions]. rewrite add_add_loop, add_loop_perm. by left. }
  split.
  - intros m' [->|Hm']%elem_of_cons; [|by apply Hmods]. cbn [m_start m_end m_vmstart].
    split; [lia|]. split; [unfold gKernelBase; lia|]. intros a Ha. destruct (Hin a Ha) as (ph & Hph & Eph & Ho).
    set (va := from r + gKernelBase + (a - m_start m)) in *. assert (Hva : is_u32 va) by (unfold va, is_u, gKernelBase; lia).
    rewrite <- Hkeep in Ho.
    + rewrite (mapping_at s3 va ph kernel_options Hva Ho Hph). unfold va. destruct Hp as [Hp _].
      pose proof (Z.div_mod a 4096 ltac:(lia)). replace ((from r + gKernelBase + (a - m_start m)) mod 4096) with (a mod 4096); [lia|].
      rewrite Z.add_mod, (Z.add_mod (from r)), Hp by lia. rewrite (Zminus_mod a), Hal. change (gKernelBase mod 4096) with 0.
      rewrite Z.add_0_l, Z.sub_0_r. rewrite !Z.mod_mod by lia. done.
    + apply of_address_wf. unfold is_u in *. pose proof (Z.div_mod va 4096 ltac:(lia)). pose proof (Z.mod_pos_bound va 4096 ltac:(lia)). lia.
    + exists r. split; [done|]. rewrite of_address_number by (unfold is_u in *; pose proof (Z.div_pos va 4096); lia).
      rewrite (Z.mul_comm 4096 (va / 4096)), Z.div_mul by lia. destruct Hp as [Hp Hp']. unfold va, gKernelBase in *.
      pose proof (Z.div_mod (from r + 0xC0000000 + (a - m_start m)) 4096 ltac:(lia)).
      pose proof (Z.div_mod (from r) 4096 ltac:(lia)). pose proof (Z.div_mod (to r + 1) 4096 ltac:(lia)).
      pose proof (Z.mod_pos_bound (from r + 0xC0000000 + (a - m_start m)) 4096 ltac:(lia)). lia.
  - intros i Hi (r' & Hr' & Hri). rewrite Hkeep; [rewrite Hout|done|]; [done|done| |].
    + intros Hc. pose proof (proj1 (Forall_forall _ _) Hd r' Hr') as Hdis. unfold disjoint in Hdis. lia.
    + exists r'. split; [|done]. rewrite (ss_regions _ _ Hset). cbn [mKernelRegions s1 set_regions].
      rewrite add_add_loop, add_loop_perm. by right.
Qed.

(** The mapping of the screen reaches one page further than its size asks for *)
Lemma fb_map_spec n : forall s c v b e,
  entries_ok s -> 0 <= b -> 4096 * (b + Z.of_nat n - 1) <= e < 4096 * (b + Z.of_nat n) -> 0 <= c -> c + b + Z.of_nat n < 2 ^ 20 ->
  0 <= v -> v + b + Z.of_nat n <= 2 ^ 20 ->
  exists s', fb_map s (4096 * c) (4096 * v) (4096 * b) e n = Some s' /\ entries_ok s' /\ same_setup s s' /\ phys s' = phys s /\
    (forall i, Indices.wf i -> ~ (v + b <= number i < v + b + Z.of_nat n) -> Virt.entry s' i = Virt.entry s i).
Proof.
  induction n as [|n IH]; intros s c v b e Hs Hb He Hc Hcm Hv Hvm; cbn [fb_map].
  { rewrite (proj2 (Z.leb_gt _ _)) by lia. exists s. split_and!; try done. }
  rewrite (proj2 (Z.leb_le _ _)) by lia.
  assert (Hal : forall a, 0 <= a < 2 ^ 20 -> aligned (4096 * a)) by (intros a Ha; by apply (aligned_mul _ a)).
  rewrite !u32_id by (unfold is_u, gPageSize; lia).
  replace (4096 * c + 4096 * b) with (4096 * (c + b)) by lia. replace (4096 * v + 4096 * b) with (4096 * (v + b)) by lia.
  destruct (map_spec s (4096 * (c + b)) (4096 * (v + b)) fb_options Hs (Hal (c + b) ltac:(lia)) (Hal (v + b) ltac:(lia))) as (s1 & E1 & M1).
  rewrite E1; cbn [mbind option_bind]. unfold gPageSize. replace (4096 * b + 4096) with (4096 * (b + 1)) by lia.
  destruct (IH s1 c v (b + 1) e (mt_ok _ _ _ _ _ M1)) as (s2 & E2 & Hok2 & Hs2 & Hp2 & O2); try lia.
  exists s2. split; [done|]. split; [done|]. split; [etrans; [apply M1|done]|]. split; [by rewrite Hp2, (mt_phys _ _ _ _ _ M1)|].
  intros i Hi Hn. rewrite O2 by (done || lia). apply (mt_other _ _ _ _ _ M1). intros ->.
  rewrite of_address_number in Hn by lia. rewrite Z.mul_comm, Z.div_mul in Hn by lia. lia.
Qed.

(** The first two regions: the kernel with its heap, and the scratch pages behind it *)
Definition kernel_region (ks ke : Z) : interval_t := mkInterval (ks - gKernelBase) (page_of ke + 8192 + gKernelHeapSize - 1 - gKernelBase).
Definition scratch_region (ks ke : Z) : interval_t :=
  mkInterval (to (kernel_region ks ke) + 1) (to (kernel_region ks ke) + gScratchPagesSize).

Lemma setupKernelHeap_spec s ks ke :
  mKernelRegions s = [] -> gKernelBase <= ks < ke -> ke < 2 ^ 31 + 2 ^ 30 + 2 ^ 29 -> ks < gKernelBase + gScratchPagesSize -> ks mod 4096 = 0 ->
  exists h s', setupKernelHeap s ks ke = Some (h, s') /\ entries s' = entries s /\ phys s' = phys s /\
    mKernelRegions s' = [kernel_region ks ke; scratch_region ks ke] /\
    regions_ok (mKernelRegions s') (to (scratch_region ks ke)) /\
    Heap.low h = page_of ke + 8192 /\ Heap.high h = Heap.low h + gKernelHeapSize - 1 /\ Heap.current h = Heap.low h.
Proof.
  intros Hr0 Hks Hke Hlow Hal. assert (Hp : page_of ke = 4096 * (ke / 4096)) by (apply page_of_div; unfold is_u, gKernelBase in *; lia).
  assert (Hpk : ke - 4096 < page_of ke <= ke) by (rewrite Hp; Z.to_euclidean_division_equations; lia).
  unfold setupKernelHeap, setheap, gPageSize, gKernelHeapSize, gScratchPagesSize, gKernelBase in *. cbv zeta.
  rewrite !(u32_id (page_of ke + 4096 - 1)) by (unfold is_u; lia). rewrite !(u32_id (page_of ke + 4096 - 1 + 1 + 4096)) by (unfold is_u; lia).
  change (128 * 1024 * 1024 =? 0) with false. cbn iota. unfold Heap.new. cbn [Heap.high Heap.low Heap.current].
  rewrite (u32_id (page_of ke + 4096 - 1 + 1 + 4096 + 128 * 1024 * 1024 - 1)) by (unfold is_u; lia).
  set (X := page_of ke + 4096 - 1 + 1 + 4096 + 128 * 1024 * 1024 - 1).
  assert (E1 : addKernelRegion s ks X = set_regions s [kernel_region ks ke]).
  { unfold addKernelRegion, kernel_region, gKernelHeapSize, gKernelBase, X. rewrite Hr0, !u32_id by (unfold is_u; lia). cbn [add].
    do 3 f_equal. lia. }
  rewrite !E1. set (A := kernel_region ks ke) in *. assert (EA : A = kernel_region ks ke) by done.
  assert (HA : from A = ks - 0xC0000000 /\ to A = page_of ke + 8192 + 128 * 1024 * 1024 - 1 - 0xC0000000) by (unfold A, kernel_region, gKernelHeapSize, gKernelBase; cbn; lia).
  clearbody A. destruct HA as [HA1 HA2].
  assert (Hpw : page_wise A).
  { split; [rewrite HA1, Zminus_mod, Hal; done|]. rewrite HA2, Hp.
    replace (4096 * (ke / 4096) + 8192 + 128 * 1024 * 1024 - 1 - 0xC0000000 + 1) with ((ke / 4096 + 2 + 32768 - 786432) * 4096) by lia.
    apply Z.mod_mul. lia. }
  assert (Hwf : Interval.wf A) by (unfold Interval.wf, is_u; lia).
  unfold findKernelRegion. cbn [mKernelRegions set_regions]. rewrite offset_mod.
  change ((8 * 1024 * 1024 + 4096) mod 4096 >? 0) with false. cbn iota. unfold findFree.
  change (8 * 1024 * 1024 + 4096 =? 0) with false. cbn iota.
  rewrite (proj2 (Z.leb_gt _ (from A))) by lia. unfold find_after. rewrite u32_id by (unfold is_u; lia).
  rewrite (proj2 (Z.leb_le _ (1073741824 - to A))) by lia. rewrite !(u32_id (_ + to A)), !(u32_id (to A + _)) by (unfold is_u; lia).
  cbn [mbind option_bind from to]. unfold gKernelBase. rewrite !u32_id by (unfold is_u; lia).
  unfold addKernelRegion, gKernelBase. rewrite !u32_id by (unfold is_u; lia). cbn [mKernelRegions set_scratch set_regions add].
  set (B := mkInterval (_ - _) _).
  assert (EB : B = scratch_region ks ke) by (unfold B, scratch_region; rewrite <- EA; unfold gScratchPagesSize; f_equal; lia).
  assert (HB : from B = to A + 1 /\ to B = to A + (8 * 1024 * 1024 + 4096)) by (unfold B; cbn; lia).
  unfold thisBefore, ival, interval_itself. rewrite (proj2 (Z.leb_le (to A) (from B))) by lia.
  eexists _, _. split; [done|]. split; [done|]. split; [done|]. cbn [mKernelRegions set_scratch set_regions]. rewrite <- ?EA, <- EB.
  split; [done|]. destruct HB as [HB1 HB2]. clearbody B. split; [|cbn; unfold X; lia].
  assert (HwB : Interval.wf B) by (unfold Interval.wf, is_u; lia).
  assert (HpB : page_wise B).
  { destruct Hpw as [_ Hpw]. split; [by rewrite HB1|]. rewrite HB2.
    replace (to A + (8 * 1024 * 1024 + 4096) + 1) with (to A + 1 + 2049 * 4096) by lia. by rewrite Z.mod_add. }
  constructor; [|constructor; [done|constructor; [done|constructor]]| |done].
  - apply ordered_cons. split; [done|]. split; [constructor; [unfold before; lia|constructor]|]. apply ordered_cons. split; [done|]. split; [constructor|].
    split; constructor.
  - constructor; [lia|]. constructor; [lia|constructor].
Qed.

Import Multiboot.

(** The screen goes behind two adjacent regions, its extra page included *)
Lemma setupFramebuffer_spec s f A B :
  mKernelRegions s = [A; B] -> from B = to A + 1 -> regions_ok [A; B] (to B) -> entries_ok s ->
  0 < fb_size f -> videoram f mod 4096 = 0 -> 0 <= videoram f -> videoram f + fb_size f + 4096 < 2 ^ 32 ->
  to B + round_up (fb_size f) + 4096 < gMax ->
  exists fb s', setupFramebuffer s f = Some (fb, s') /\ entries_ok s' /\ phys s' = phys s /\
    regions_ok (mKernelRegions s') (to B + round_up (fb_size f)) /\ (forall r, r ∈ [A; B] -> r ∈ mKernelRegions s') /\
    (forall i, Indices.wf i -> in_regions [A; B] i -> Virt.entry s' i = Virt.entry s i).
Proof.
  intros Hl Hadj Hr Hs H0 Hva Hv0 Hvr Hm. destruct (region_round_up _ H0) as [Hru Hrm].
  destruct (findKernelRegion_pages s (to B) (fb_size f)) as (r & E & Hwf & Hsz & Hd & Hp & Htop & Hlt & Ef); [by rewrite Hl|done|lia|].
  unfold setupFramebuffer. rewrite E; cbn [mbind option_bind from to].
  assert (HAB : Interval.wf A /\ Interval.wf B).
  { destruct Hr as [Ho _ _ _]. apply ordered_cons in Ho as (HA & _ & Ho). by apply ordered_cons in Ho as (HB & _ & _). }
  destruct HAB as [(HfA & _ & HA) (_ & _ & HB)]. unfold is_u in HfA.
  assert (Hafter : from r = to B + 1).
  { rewrite Hl in Ef. unfold findFree, gMax in *. rewrite (proj2 (Z.eqb_neq _ 0)) in Ef by lia. cbn [find_gap] in Ef.
    rewrite u32_id in Ef by (unfold is_u; lia). rewrite (proj2 (Z.ltb_ge _ _)) in Ef by lia.
    cbn [list.last mbind option_bind] in Ef. unfold find_after in Ef. case_match; [|done]. simplify_eq. cbn [from].
    apply u32_id. unfold is_u. lia. }
  destruct Hp as [Hp Hp']. set (v := (from r + gKernelBase) / 4096). set (c := videoram f / 4096). set (n := fb_size f / 4096 + 1).
  assert (Hv : from r + gKernelBase = 4096 * v).
  { unfold v, gKernelBase. pose proof (Z.div_mod (from r + 0xC0000000) 4096 ltac:(lia)) as Ev.
    rewrite Z.add_mod, Hp in Ev by lia. change ((0 + 0xC0000000 mod 4096) mod 4096) with 0 in Ev. lia. }
  assert (Hc : videoram f = 4096 * c) by (unfold c; pose proof (Z.div_mod (videoram f) 4096 ltac:(lia)); lia).
  assert (Hn : 4096 * (n - 1) <= fb_size f < 4096 * n) by (unfold n; Z.to_euclidean_division_equations; lia).
  assert (Hn' : 4096 * n <= round_up (fb_size f) + 4096) by (unfold n, round_up; Z.to_euclidean_division_equations; lia).
  rewrite Hv, Hc. unfold gPageSize. fold n. unfold gMax, gKernelBase in *.
  destruct (fb_map_spec (Z.to_nat n) s c v 0 (fb_size f) Hs) as (s1 & E1 & Hok1 & Hset & Hph & Hout); rewrite ?Z2Nat.id by lia; try lia.
  rewrite Z.mul_0_r in E1. rewrite E1; cbn [mbind option_bind]. rewrite <- Hv.
  change 0xC0000000 with gKernelBase. rewrite addKernelRegion_pages by (unfold gMax; done).
  eexists _, _. split; [done|]. cbn [phys mKernelRegions set_regions]. split; [done|]. split; [done|].
  rewrite (ss_regions _ _ Hset), Hl. split; [|split].
  - apply regions_ok_add; try done; try lia. by rewrite <- Hl.
  - intros x Hx. rewrite add_add_loop, add_loop_perm. by right.
  - intros i Hi (x & Hx & Hxi). change (Virt.entry (set_regions s1 _) i) with (Virt.entry s1 i). apply Hout; [done|]. intros Hc'.
    assert (to x <= to B) by (apply elem_of_cons in Hx as [->|Hx]; [lia|]; apply elem_of_cons in Hx as [->|Hx]; [lia|by apply not_elem_of_nil in Hx]).
    unfold gKernelBase in *. rewrite Z2Nat.id in Hc' by lia. lia.
Qed.
End Regions.

(** ** The contract of early boot *)

Section Contract.
Import Phys Multiboot EarlyBoot Virt Indices Interval.
Context (N : Z) (mem : Z -> Z).

Lemma count_free_ge (l : list Z) : forall m, NoDup l -> Forall (fun i => exists g, m !! i = Some g /\ available g = true) l ->
  Z.of_nat (length l) <= count_free m.
Proof.
  induction l as [|i l IH]; intros m Hnd Hl; [apply count_nonneg|]. apply NoDup_cons in Hnd as [Hi Hnd].
  apply Forall_cons_1 in Hl as [(g & Hg & Ha) Hl]. rewrite <- (insert_delete_id m i g Hg).
  rewrite count_insert_new by apply lookup_delete_eq. rewrite Ha. cbn [length].
  enough (Z.of_nat (length l) <= count_free (delete i m)) by lia. apply IH; [done|].
  apply Forall_forall. intros j Hj. destruct (proj1 (Forall_forall _ _) Hl j Hj) as (g' & Hg' & Ha').
  exists g'. split; [|done]. rewrite lookup_delete_ne; [done|]. by intros ->.
Qed.

Lemma described_free p P l : described N p P -> NoDup l -> Forall P l -> Z.of_nat (length l) <= mFreePages p.
Proof.
  intros D Hnd Hl. rewrite (ok_free _ _ (proj1 D)). apply count_free_ge; [done|]. eapply Forall_impl; [exact Hl|].
  intros i Hi. pose proof (described_in _ _ _ _ D Hi) as E. unfold page in E. destruct (mPages p !! i) as [g|] eqn:Eg; [|done].
  simpl in E. exists g. by subst.
Qed.

Lemma alloc_tables_steps n : forall p t q i p' t', Paging.alloc_tables N p t q i n = Some (p', t') -> rtc (phys_step N) p p'.
Proof.
  induction n as [|n IH]; intros p t q i p' t' E; cbn [Paging.alloc_tables] in E; [by simplify_eq|].
  destruct (alloc N p) as [[pa p1]|] eqn:Ea; [|done]. cbn [mbind option_bind] in E.
  eapply rtc_l; [by eapply step_alloc|]. by eapply IH.
Qed.

Lemma build_steps p t ks ke cr3 p' t' : Paging.build N p t ks ke = Some (cr3, p', t') -> rtc (phys_step N) p p'.
Proof.
  intros E. unfold Paging.build in E. destruct (alloc N p) as [[pa p1]|] eqn:Ea; [|done]. cbn [mbind option_bind] in E.
  destruct (Paging.alloc_tables N p1 t pa 0 1024) as [[p2 t2]|] eqn:E2; [|discriminate E]. cbn [mbind option_bind] in E.
  destruct (Paging.map_kernel t2 _ _ _ _ _) as [t3|]; [|discriminate E]. cbn [mbind option_bind] in E.
  apply (inj Some), pair_equal_spec in E as [E _]. apply pair_equal_spec in E as [_ <-].
  eapply rtc_l; [by eapply step_alloc|]. by eapply alloc_tables_steps.
Qed.

(** What physical memory hands out, now or later, is among the pages described *)
Lemma handed_out_described p p' P a p'' : described N p P -> rtc (phys_step N) p p' -> alloc N p' = Some (a, p'') -> P (index a).
Proof.
  intros D Hs Ea. assert (Hu : usable (page p (index a)) = true).
  { rewrite <- (usable_steps N p p'); [|done]. unfold alloc in Ea. destruct (alloc_loop _ _ _ _) as [i|] eqn:El; [|done].
    simplify_eq. rewrite index_frame. by eapply alloc_loop_usable. }
  destruct (proj2 D (index a)) as [[? _]|[_ E]]; [done|]. by rewrite E in Hu.
Qed.

Lemma header_read data mb : 0 <= data < gFourMB -> info_at mem data = mb -> Z.land (flags mb) 0x1041 = 0x1041 ->
  getMultiboot mem data gMultibootValid = Some mb.
Proof.
  intros Hd Hi Hf. unfold getMultiboot, multiboot_hdr, fourMBPageForMultiboot, multibootOffset. rewrite Z.eqb_refl. cbn [negb].
  rewrite Z.div_small, Z.mod_small, Z.add_0_l by done. rewrite u32_id by (unfold is_u, gFourMB in *; lia). by rewrite Hi, Hf, Z.eqb_refl.
Qed.

Lemma kernel_in_region ks ke v B : ks mod 4096 = 0 -> gKernelBase <= ks < ke -> ke < 2 ^ 31 + 2 ^ 30 + 2 ^ 29 -> ks <= v < ke ->
  in_regions [kernel_region ks ke; B] (of_address v).
Proof.
  unfold gKernelBase. intros Hal Hk Hke Hv. exists (kernel_region ks ke). split; [by left|].
  unfold kernel_region, gKernelHeapSize. cbn [from to]. rewrite of_address_number by lia. rewrite (page_of_div ke) by (unfold is_u; lia).
  pose proof (Z.div_mod v 4096 ltac:(lia)). pose proof (Z.mod_pos_bound v 4096 ltac:(lia)).
  pose proof (Z.div_mod ke 4096 ltac:(lia)). pose proof (Z.mod_pos_bound ke 4096 ltac:(lia)). pose proof (Z.div_mod ks 4096 ltac:(lia)).
  lia.
Qed.

(** The entry of a page of the kernel takes its addresses to those below the base *)
Lemma kernel_page_translates s v : gKernelBase <= v < 2 ^ 32 -> Virt.entry s (of_address v) = 4096 * (v / 4096 - 0xC0000) + 0x103 ->
  mapping s v = v - gKernelBase.
Proof.
  unfold gKernelBase. intros Hv He. pose proof (Z.div_mod v 4096 ltac:(lia)). pose proof (Z.mod_pos_bound v 4096 ltac:(lia)).
  unfold mapping. rewrite of_address_page by (unfold is_u; lia). rewrite He, present_frame by lia. change (Z.odd 0x103) with true.
  rewrite page_frame by lia. rewrite offset_mod, u32_id by (unfold is_u; lia). lia.
Qed.

(** A kernel below 512 megabytes whose start is on a page, a screen and modules that fit
    into the address space of the kernel, modules on page boundaries, enough memory *)
Record bootable (data magic : Z) (mb : multiboot_info) (es : list mmap_entry) (mods : list mod_list) (ks ke : Z) : Prop := {
  ba_magic : magic = gMultibootValid;
  ba_header : 0 <= data < gFourMB /\ info_at mem data = mb /\ Z.land (flags mb) 0x1041 = 0x1041;
  ba_data : boot_data N mem mb es mods ks ke;
  ba_kernel : ks mod 4096 = 0 /\ ks < gKernelBase + gScratchPagesSize /\ ke < 2 ^ 31 + 2 ^ 30 + 2 ^ 29;
  ba_enough : exists l, NoDup l /\ Z.of_nat (length l) = 1025 /\ Forall (spare es mods ks ke) l;
  ba_screen : let f := framebuf_info mb in
    0 < fb_size f /\ videoram f mod 4096 = 0 /\ 0 <= videoram f /\ videoram f + fb_size f + 4096 < 2 ^ 32;
  ba_mods : Forall (fun m => mod_start m mod 4096 = 0 /\ mod_end m <= 2 ^ 32 - 4096) mods;
  ba_room : to (scratch_region ks ke) + round_up (fb_size (framebuf_info mb)) + 4096 +
    modules_size ((fun m => mkModule (mod_start m) (mod_end m) (cstring mem (mod_cmdline m) 256) 0) <$> mods) < gMax;
}.

(** C11: the contract of early boot: from a bootable machine it reaches the kernel's main function,
    with the image of the kernel mapped to the memory it was loaded into, every module
    visible at its virtual address byte for byte, an empty heap of 128 megabytes behind the
    image, the command line, and physical memory from which, whatever is taken and given
    back later, no page of the kernel, of a module or outside of the memory map is handed
    out. *)
Theorem early_boot_contract data magic mb es mods ks ke t :
  bootable data magic mb es mods ks ke -> words_ok t ->
  exists b, earlyBoot N mem data magic ks ke t = Some b /\
    b_cmdline b = cstring mem (cmdline mb) 1023 /\
    (forall v, ks <= v < ke -> mapping (b_vm b) v = v - gKernelBase) /\
    (fun m => (m_start m, m_end m)) <$> b_modules b = (fun m => (mod_start m, mod_end m)) <$> mods /\
    (forall m a, m ∈ b_modules b -> m_start m <= a < m_end m -> mapping (b_vm b) (m_vmstart m + (a - m_start m)) = a) /\
    Heap.low (b_heap b) = page_of ke + 8192 /\ Heap.high (b_heap b) = Heap.low (b_heap b) + gKernelHeapSize - 1 /\
    Heap.current (b_heap b) = Heap.low (b_heap b) /\
    forall p' a p'', rtc (phys_step N) (phys (b_vm b)) p' -> alloc N p' = Some (a, p'') -> spare es mods ks ke (index a).
Proof.
  intros [Hmagic (Hdata & Hinfo & Hflags) Bd (Hk1 & Hk2 & Hk3) (l & Hnd & Hlen & Hl) (Hf1 & Hf2 & Hf3 & Hf4) Hmods Hroom] Ht.
  destruct (boot_memory_described N mem _ _ _ _ _ Bd) as (p0 & p & E0 & E1 & D).
  pose proof (described_free _ _ _ D Hnd Hl) as Hfree. rewrite Hlen in Hfree.
  destruct (bd_kernel _ _ _ _ _ _ _ Bd) as [Hk4 Hk5]. pose proof (bd_num _ _ _ _ _ _ _ Bd) as HN.
  assert (Hke : ke <= Paging.gPageDirectoryAddress) by (unfold Paging.gPageDirectoryAddress; lia).
  assert (HN' : N <= 2 ^ 20) by lia.
  destruct (build_spec N p t ks ke (proj1 D) HN' Hfree Hk4 Hke Hk1) as (q & fs & p1 & t1 & E2 & Hok1 & Dir & P).
  pose proof (build_words N p t ks ke _ _ _ (proj1 D) HN' Ht ltac:(unfold is_u, gBootVirtualOffset in *; lia) E2) as Ht1. pose proof (build_steps _ _ _ _ _ _ _ E2) as Hsteps.
  set (s0 := mkVm (Paging.entries_of t1 (4096 * q)) p1 ∅ false 0 0 0 []).
  assert (Hs0 : entries_ok s0) by (by eapply entries_of_ok).
  destruct (setupKernelHeap_spec s0 ks ke eq_refl Hk4 Hk3 Hk2 Hk1) as (h & s1 & E3 & He1 & Hp1 & Hr1 & Hro1 & Hh1 & Hh2 & Hh3).
  assert (Hs1 : entries_ok s1) by (intros k v Hkv; rewrite He1 in Hkv; by apply (Hs0 k)).
  set (A := kernel_region ks ke) in *. set (B := scratch_region ks ke) in *. rewrite Hr1 in Hro1.
  assert (Hms : 0 <= modules_size ((fun m => mkModule (mod_start m) (mod_end m) (cstring mem (mod_cmdline m) 256) 0) <$> mods)).
  { apply modules_size_nonneg, Forall_fmap. eapply list.Forall_impl; [apply (bd_mods_range _ _ _ _ _ _ _ Bd)|]. cbn. lia. }
  destruct (setupFramebuffer_spec s1 (framebuf_info mb) A B Hr1 eq_refl Hro1 Hs1 Hf1 Hf2 Hf3 Hf4 ltac:(lia))
    as (fb & s2 & E4 & Hs2 & Hp2 & Hr2 & Hin2 & Hk).
  set (infos := (fun m => mkModule (mod_start m) (mod_end m) (cstring mem (mod_cmdline m) 256) 0) <$> mods) in *.
  assert (Hinfos : Forall module_ok infos).
  { apply Forall_fmap, Forall_forall. intros m Hm. pose proof (proj1 (Forall_forall _ _) Hmods m Hm) as [? ?].
    pose proof (proj1 (Forall_forall _ _) (bd_mods_range _ _ _ _ _ _ _ Bd) m Hm) as [? ?]. split_and!; cbn; (done || lia). }
  destruct (loadModules_ok infos s2 _ Hr2 Hs2 Hinfos ltac:(lia)) as (s3 & ml & E5 & Hs3 & Hp3 & Hml & Hmap & Hk').
  exists (mkBooted (cstring mem (cmdline mb) 1023) fb ml h s3 (4096 * q)). cbn [b_cmdline b_vm b_modules b_heap].
  split; [|split; [done|split; [|split; [|split; [|split; [done|split; [done|split; [done|]]]]]]]].
  - unfold earlyBoot. rewrite Hmagic, (header_read data mb) by done. cbn [mbind option_bind]. unfold fill. cbv zeta.
    rewrite E0; cbn [mbind option_bind]. rewrite E1; cbn [mbind option_bind]. rewrite E2; cbn [mbind option_bind].
    fold s0. rewrite E3; cbn [mbind option_bind]. rewrite E4; cbn [mbind option_bind]. fold infos. by rewrite E5.
  - intros v Hv. assert (Hvu : is_u32 v) by (unfold is_u, gBootVirtualOffset in *; lia). pose proof (of_address_wf v Hvu) as Hi.
    pose proof (kernel_in_region ks ke v B Hk1 Hk4 Hk3 Hv) as Hreg. apply kernel_page_translates; [unfold gKernelBase, gBootVirtualOffset in *; lia|].
    rewrite Hk'; [|done|destruct Hreg as (x & Hx & ?); exists x; split; [by apply Hin2|done]].
    rewrite Hk by done. unfold Virt.entry at 1. rewrite He1. change (default 0 (entries s0 !! _)) with (Virt.entry s0 (of_address v)).
    rewrite (entries_of_pte t1 q fs s0 (of_address v) Dir eq_refl Hi), P by done. unfold first_pte. rewrite of_address_number by (unfold is_u in Hvu; lia).
    rewrite decide_True; [done|]. pose proof (Z.div_mod v 4096 ltac:(lia)). pose proof (Z.mod_pos_bound v 4096 ltac:(lia)).
    pose proof (Z.div_mod ks 4096 ltac:(lia)). pose proof (Z.div_mod (ke + 4095) 4096 ltac:(lia)).
    pose proof (Z.mod_pos_bound (ke + 4095) 4096 ltac:(lia)). lia.
  - apply list_eq_Forall2. unfold infos in Hml. clear - Hml. apply Forall2_fmap_l in Hml. apply Forall2_fmap. eapply Forall2_impl; [by apply Forall2_flip|].
    intros m m' (H1 & H2 & _). cbn in H1, H2. by rewrite H1, H2.
  - intros m a Hm Ha. by apply (Hmap m Hm).
  - intros p' a p'' Hp' Ea. rewrite Hp3, Hp2, Hp1 in Hp'. by eapply handed_out_described; [|etrans|].
Qed.
End Contract.

(** ** The command line *)

Section CommandLine.
Import Config.

(** A setting as it is written: no blank in it, no equals sign in the key *)
Record setting_ok (s : list Z * list Z) : Prop := {
  se_key : Forall (fun c => c <> space /\ c <> equals) s.1;
  se_value : Forall (fun c => c <> space) s.2;
}.

Definition print_setting (s : list Z * list Z) : list Z := s.1 ++ [equals] ++ s.2.

(** Settings with any number of blanks before, between and behind them, at least one between two *)
Fixpoint print_settings (l : list ((list Z * list Z) * nat)) : list Z :=
  match l with
  | [] => []
  | (s, n) :: l => print_setting s ++ replicate (S n) space ++ print_settings l
  end.

Lemma tokens_blanks n s : tokens_from [] (replicate n space ++ s) = tokens_from [] s.
Proof. induction n as [|n IH]; [done|]. cbn [replicate app tokens_from]. by rewrite Z.eqb_refl. Qed.

Lemma tokens_word w : forall cur s, Forall (fun c => c <> space) w -> tokens_from cur (w ++ s) = tokens_from (cur ++ w) s.
Proof.
  induction w as [|c w IH]; intros cur s Hw; [by rewrite app_nil_r|]. apply Forall_cons_1 in Hw as [Hc Hw].
  cbn [app tokens_from]. rewrite (proj2 (Z.eqb_neq _ _)) by done. rewrite IH by done. by rewrite <- app_assoc.
Qed.

Lemma tokens_token w n s : Forall (fun c => c <> space) w -> w <> [] ->
  tokens_from [] (w ++ replicate (S n) space ++ s) = w :: tokens_from [] s.
Proof.
  intros Hw Hne. rewrite tokens_word by done. cbn [app replicate tokens_from]. rewrite Z.eqb_refl.
  destruct w; [done|]. by rewrite tokens_blanks.
Qed.

Lemma print_setting_ok s : setting_ok s -> Forall (fun c => c <> space) (print_setting s) /\ print_setting s <> [].
Proof.
  intros [Hk Hv]. unfold print_setting. split; [|by destruct (s.1)]. apply Forall_app. split.
  - eapply list.Forall_impl; [exact Hk|]. by intros c [? _].
  - by constructor.
Qed.

Lemma split_eq_print s : setting_ok s -> split_eq (print_setting s) = Some s.
Proof.
  intros [Hk _]. unfold print_setting. destruct s as [k v]. cbn [fst snd] in *. induction Hk as [|c k [_ Hc] _ IH]; [done|].
  cbn [app split_eq]. rewrite (proj2 (Z.eqb_neq _ _)) by done. cbn [app] in IH. by rewrite IH.
Qed.

(** a command line of settings, with any blanks between them, configures the kernel by these
    settings in their order, from the defaults on; unknown keys change nothing. *)
Theorem command_line_configures n l :
  Forall (fun s => setting_ok s.1) l ->
  parseKernelCommandLine (replicate n space ++ print_settings l)
  = Some (foldl (fun c s => set_option c s.1.1 s.1.2) default_config l).
Proof.
  intros Hl. unfold parseKernelCommandLine, tokens. rewrite tokens_blanks. generalize default_config.
  induction Hl as [|[s m] l Hs _ IH]; intros c; [done|]. cbn [print_settings foldl fst snd] in *.
  destruct (print_setting_ok s Hs) as [Hw Hne]. rewrite tokens_token by done. cbn [parse_options].
  unfold parseOption. rewrite (split_eq_print s Hs). destruct s as [k v]. cbn [mbind option_bind fst snd]. apply IH.
Qed.

(** A word without an equals sign stops the kernel. *)
Theorem option_without_value_is_fatal w : Forall (fun c => c <> space /\ c <> equals) w -> w <> [] -> parseKernelCommandLine w = None.
Proof.
  intros Hw Hne. unfold parseKernelCommandLine, tokens.
  assert (E : tokens_from [] w = [w]).
  { rewrite <- (app_nil_r w) at 1. rewrite tokens_word by (eapply list.Forall_impl; [exact Hw|]; by intros c [? _]). by destruct w. }
  rewrite E. cbn [parse_options]. unfold parseOption. enough (split_eq w = None) as -> by done.
  clear Hne E. induction Hw as [|c w [_ Hc] _ IH]; [done|]. cbn [split_eq]. rewrite (proj2 (Z.eqb_neq _ _)) by done. by rewrite IH.
Qed.
End CommandLine.

(** ** Boot phases *)

Section PhaseRuns.
Import Phases.
Context {K : Type} (init : phase_ns -> K -> Z * K) (fail : phase_ns -> Z -> K -> bool * K).

(** What running a list of phases in order does *)
Fixpoint run_all (l : list (@bootphase_t K)) (k : K) : option K :=
  match l with
  | [] => Some k
  | ph :: l => match operation ph with Some op => k ← run_phase k ph op; run_all l k | None => Some k end
  end.

Lemma run_from_all t : forall i k n, (length t - i < n)%nat -> (i <= length t)%nat -> run_from t i n k = run_all (drop i t) k.
Proof.
  intros i k n. revert i k. induction n as [|n IH]; intros i k Hn Hi; [lia|]. cbn [run_from]. unfold getBootPhase.
  destruct (t !! i) as [ph|] eqn:E.
  - rewrite (drop_S _ _ _ E). cbn [default from_option id run_all]. destruct (operation ph) as [op|]; [|done].
    destruct (run_phase k ph op) as [k'|]; [|done]. cbn [mbind option_bind]. apply lookup_lt_Some in E. apply IH; lia.
  - cbn. rewrite drop_ge by (by apply lookup_ge_None_1). done.
Qed.

(** The table of the kernel: no registration is refused, and the phases run in the order in
    which the source lists them, until one fails whose handler asks for a panic. *)
Theorem boot_runs_all_phases k :
  runBootPhases (loadBootPhases init fail) k = run_all (first_phases init fail ++ last_phases init fail) k.
Proof.
  unfold runBootPhases. rewrite run_from_all by lia. rewrite drop_0. reflexivity.
Qed.

(** A phase that fails with a handler asking for a panic is the last one that runs. *)
Theorem fatal_phase_stops_boot l d ns k e k1 k2 : init ns k = (e, k1) -> e <> gSuccess -> fail ns e k1 = (gPanic, k2) ->
  run_all (phase init fail d ns true :: l) k = None.
Proof.
  intros Ei He Ef. cbn [run_all phase operation]. unfold run_phase. rewrite Ei. rewrite (proj2 (Z.eqb_neq e gSuccess)) by done.
  cbn [onFailure phase]. rewrite Ef. done.
Qed.
End PhaseRuns.

(** ** Defects *)

Section Defects.
Import Multiboot EarlyBoot.

(** A block that begins below the first megabyte and is at least that long is taken to be
    longer than it is: the part below is added instead of taken off, so that pages
    behind its end are used as memory. *)
Theorem straddling_block_grows e :
  e_type e = 1 -> 0 <= e_addr e < threshold -> threshold <= e_len e < 2 ^ 63 ->
  usable_block e = Some (threshold, e_len e + (threshold - e_addr e)) /\
  e_addr e + e_len e < threshold + (e_len e + (threshold - e_addr e)).
Proof.
  intros Ht Ha Hl. unfold threshold in *. split; [|lia]. unfold usable_block, threshold. rewrite Ht, Z.eqb_refl.
  rewrite (proj2 (Z.ltb_lt _ _)), (proj2 (Z.leb_le _ _)) by lia. cbn [andb Z.leb Z.compare Pos.compare Pos.compare_cont].
  repeat f_equal. unfold u64, wrap. rewrite (Z.mod_eq (e_addr e - 1048576)) by lia.
  replace ((e_addr e - 1048576) / 2 ^ 64) with (-1) by (apply Z.div_unique with (e_addr e - 1048576 + 2 ^ 64); lia).
  symmetry. apply Z.mod_unique_pos with (-1); lia.
Qed.

(** The header of the boot loader is looked for in the wrong place when it lies above the
    first four megabytes. *)
Theorem multiboot_header_misplaced data : gFourMB <= data < 2 ^ 32 -> multiboot_hdr data <> data.
Proof.
  intros Hd. unfold multiboot_hdr, fourMBPageForMultiboot, multibootOffset, gFourMB in *.
  pose proof (Z.div_mod data (4 * 1024 * 1024) ltac:(lia)). pose proof (Z.mod_pos_bound data (4 * 1024 * 1024) ltac:(lia)).
  assert (1 <= data / (4 * 1024 * 1024) < 1024) by (split; [apply Z.div_le_lower_bound; lia|apply Z.div_lt_upper_bound; lia]).
  rewrite u32_id by (unfold is_u; lia). lia.
Qed.

(** A short block off a page boundary: its length wraps below zero, and almost four
    gigabytes are added. *)
Example short_block_wraps : u32 (256 - (4096 - Phys.offalignment 0x100800)) / 4096 = 1048575.
Proof. reflexivity. Qed.

(** The window of the page tables at the top of memory is not among the kernel regions: a
    large enough request is given addresses inside of it. *)
Example region_over_page_tables :
  ('(_, s) ← setupKernelHeap (Virt.mkVm ∅ Phys.new ∅ false 0 0 0 []) 0xC0100000 0xC0200000;
   r ← Virt.findKernelRegion s 0x37500000;
   Some (Interval.contains r Paging.gPageDirectoryAddress)) = Some true.
Proof. vm_compute. reflexivity. Qed.
End Defects.

(** ** A small machine *)

Module SmallBoot.
Import Bytes Phys Multiboot EarlyBoot Virt Indices Interval.

Definition words (l : list Z) : list Z := l ≫= bytes 4.

(** Sixteen megabytes, a kernel of two pages, one module of a page and a half *)
Definition pages : Z := 4096.
Definition ks : Z := 0xC0100000.
Definition ke : Z := 0xC0102000.

Definition place (a : Z) (l : list Z) : list (Z * Z) := imap (fun k b => (a + Z.of_nat k, b)) l.
Definition contents : gmap Z Z := list_to_map (
  place 0x1000 (words ([0x1041; 0; 0; 0; 0x4000; 1; 0x3000] ++ replicate 4 0 ++ [24; 0x2000] ++ replicate 9 0
    ++ [0; 0xE0000000; 0; 2560; 640; 480; 32])) ++
  place 0x2000 (words [20; 0x100000; 0; 0xF00000; 0; 1]) ++
  place 0x3000 (words [0x200000; 0x201800; 0x5000; 0]) ++
  place 0x4000 (chars "logsize=32") ++ place 0x5000 (chars "initrd")).
Definition mem (a : Z) : Z := default 0 (contents !! a).

Definition mb : multiboot_info := info_at mem 0x1000.
Definition block : mmap_entry := mkEntry 20 0x100000 0xF00000 1.
Definition initrd : mod_list := mkMod 0x200000 0x201800 0x5000.

Lemma small_boot_data : boot_data pages mem mb [block] [initrd] ks ke.
Proof.
  assert (Hc : forall i, ram_page [block] i <-> 256 <= i < 4096).
  { intros i. unfold ram_page, ram_block, covers, Phys.gPageSize, threshold. split.
    - intros (e & ->%list_elem_of_singleton & _ & H1). cbn [block e_addr e_len] in H1. lia.
    - intros Hi. exists block. split; [by left|]. cbn [block e_addr e_len e_type]. lia. }
  assert (Hm : forall m : mod_list, m ∈ [initrd] -> m = initrd) by (intros m; by rewrite list_elem_of_singleton).
  constructor.
  - by vm_compute.
  - split_and!; by vm_compute.
  - split.
    + constructor; [|constructor]. unfold block_ok. right. right. by vm_compute.
    + intros [|j] [|k] e e' i E1 E2; simplify_eq/=; done.
  - by vm_compute.
  - intros i Hi. apply Hc. unfold touches, Phys.gPageSize, gBootVirtualOffset, ks, ke in Hi. lia.
  - split; [by vm_compute|]. split; [by vm_compute|]. intros [|j] m Hj; simplify_eq/=. by vm_compute.
  - constructor; [by vm_compute|constructor].
  - intros m i ->%Hm Hi. unfold touches, Phys.gPageSize, gBootVirtualOffset, ks, ke in *. cbn [initrd mod_start mod_end] in Hi. split; [apply Hc|]; lia.
  - intros [|j] [|k] m m' i E1 E2; simplify_eq/=; done.
Qed.

Lemma small_bootable : bootable pages mem 0x1000 gMultibootValid mb [block] [initrd] ks ke.
Proof.
  constructor; [done|by vm_compute|apply small_boot_data|by vm_compute| |by vm_compute|by constructor; [vm_compute|constructor]|by vm_compute].
  exists (seqZ 768 1025). split; [apply NoDup_seqZ|]. split; [by rewrite length_seqZ|]. apply Forall_forall. intros i Hi%elem_of_seqZ.
    unfold spare, touches, Phys.gPageSize, gBootVirtualOffset, ks, ke. split_and!.
  - exists block. split; [by left|]. unfold ram_block, covers, Phys.gPageSize, threshold. cbn [block e_addr e_len e_type]. lia.
  - lia.
  - intros m ->%list_elem_of_singleton. cbn [initrd mod_start mod_end]. lia.
Qed.

Lemma no_tables_ok : words_ok ∅.
Proof. intros f e v. by rewrite lookup_empty. Qed.

Lemma early_boot_contract_witness :
  exists b, earlyBoot pages mem 0x1000 gMultibootValid ks ke ∅ = Some b /\
    (forall v, ks <= v < ke -> mapping (b_vm b) v = v - gKernelBase).
Proof.
  destruct (early_boot_contract pages mem 0x1000 gMultibootValid mb [block] [initrd] ks ke ∅ small_bootable no_tables_ok)
    as (b & E & _ & Hv & _).
  exists b. split; [exact E|exact Hv].
Defined.

Definition free_pages : pmm := addpages new 0x100000 0xF00000.

Lemma free_pages_ok : ok pages free_pages /\ 1025 <= mFreePages free_pages.
Proof.
  split; [|by vm_compute]. apply addpages_spec; try done.
Qed.

Lemma first_tables_translate_witness :
  exists q p' t', Paging.build pages free_pages ∅ ks ke = Some (4096 * q, p', t') /\ Paging.walk t' (4096 * q) 0xC0101234 = Some 0x101234.
Proof.
  destruct (first_tables_translate pages free_pages ∅ ks ke (proj1 free_pages_ok) ltac:(done) (proj2 free_pages_ok) ltac:(done) ltac:(done) eq_refl)
    as (q & fs & p' & t' & E & _ & _ & _ & W).
  exists q, p', t'. split; [exact E|]. clear E. rewrite W by done. rewrite decide_True by done. reflexivity.
Defined.

Lemma command_line_configures_witness :
  Config.parseKernelCommandLine (chars "  logsize=32 mainfs=disk0 ")
  = Some (Config.mkConfig 255 (Some (chars "disk0")) 32).
Proof.
  apply (command_line_configures 2 [((chars "logsize", chars "32"), 0%nat); ((chars "mainfs", chars "disk0"), 0%nat)]).
  repeat constructor; discriminate.
Defined.
End SmallBoot.
