(* ===== verification/VirtThms.v ===== *)
(** * The page tables of the running address space are well typed

    [typed] says what every entry, every reference count and every frame must look like;
    the theorem is that no sequence of operations of the virtual memory manager, page
    faults included, leaves the typed states or stops for another reason than the lack of
    memory. *)

From stdpp Require Import base numbers list gmap option relations.
From Stdlib Require Import ZArith Lia Bool.
From S2P Require Import Prelude Interval Phys Virt Files MemMgr Cpu Space Boot BootThms.

Local Open Scope Z_scope.

Section Typed.
Import Entry Indices Virt MemMgr Cpu Space.
Context (N : Z).

(** The word is an entry that owns a reference to the frame [j] *)
Definition owns (j v : Z) : bool := get v bFrompmm && (Phys.index (page v) =? j).

(** How many entries of the tables do *)
Definition owners (s : vm) (j : Z) : Z := Z.of_nat (size (filter (fun kv => owns j kv.2 = true) (entries s))).

(** [held]: the references that somebody outside of the tables has *)
Record typed_with (held : list Z) (s : vm) : Prop := {
  ty_slot d t v : entries s !! (d, t) = Some v -> wf (mkIndices d t) /\ is_u32 v;
  ty_present i : get (entry s i) bFrompmm = true -> get (entry s i) bPresent = true;
  ty_phys : Phys.ok N (phys s);
  ty_count j : owners s j + uses held j <= Phys.refcnt (Phys.page (phys s) j);
  ty_usable j : 0 < owners s j + uses held j -> Phys.usable (Phys.page (phys s) j) = true;
  ty_frames : frames_ok s }.

Definition typed (s : vm) : Prop := exists held, typed_with held s.

Lemma owners_nonneg s j : 0 <= owners s j.
Proof. unfold owners. lia. Qed.

Lemma owns_zero j : owns j 0 = false.
Proof. done. Qed.

Lemma owners_set s i v j : owners (set_entry s i v) j = owners s j - Z.b2z (owns j (entry s i)) + Z.b2z (owns j v).
Proof.
  unfold owners. cbn [entries set_entry]. set (P := fun kv : Z * Z * Z => owns j kv.2 = true). rewrite map_filter_insert.
  assert (E : Z.of_nat (size (delete (dir i, tbl i) (filter P (entries s)))) = Z.of_nat (size (filter P (entries s))) - Z.b2z (owns j (entry s i))).
  { unfold entry. destruct (filter P (entries s) !! (dir i, tbl i)) as [w|] eqn:F.
    - pose proof F as F'. apply map_lookup_filter_Some in F' as [-> Hw]. cbn in Hw |- *. rewrite Hw. cbn [Z.b2z].
      rewrite map_size_delete_Some by eauto. assert (size (filter P (entries s)) <> 0%nat); [|lia].
      rewrite map_size_ne_0_lookup. eauto.
    - rewrite delete_id by done. apply map_lookup_filter_None in F as [F|F]; [by rewrite F, owns_zero, Z.sub_0_r|].
      destruct (entries s !! (dir i, tbl i)) as [w|]; [|by rewrite owns_zero, Z.sub_0_r]. cbn [default from_option id].
      specialize (F w eq_refl). unfold P in F. cbn in F. destruct (owns j w); [done|]. by rewrite Z.sub_0_r. }
  destruct (decide (P (dir i, tbl i, v))) as [Hv|Hv]; unfold P in Hv; cbn in Hv.
  - rewrite <- insert_delete_eq, map_size_insert_None by apply lookup_delete_eq. rewrite Hv. cbn [Z.b2z]. lia.
  - rewrite map_filter_delete, E. destruct (owns j v); [done|]. cbn [Z.b2z]. lia.
Qed.

Lemma owners_entries s s' j : entries s' = entries s -> owners s' j = owners s j.
Proof. intros E. unfold owners. by rewrite E. Qed.

Lemma typed_entries_ok held s : typed_with held s -> entries_ok s.
Proof. intros H [d t] v E. by apply (ty_slot _ _ H d t v E). Qed.

(** An entry of one word in place of another: the references of the old one may be lost *)
Lemma typed_set held s i v : typed_with held s -> wf i -> is_u32 v -> (get v bFrompmm = true -> get v bPresent = true) ->
  get v bFrompmm = false \/ owns (Phys.index (page v)) (entry s i) = true ->
  typed_with held (set_entry s i v).
Proof.
  intros H Hi Hv Hp Ho.
  assert (Hle : forall j, owners (set_entry s i v) j <= owners s j).
  { intros j. rewrite owners_set. destruct (owns j v) eqn:E; [|destruct (owns j (entry s i)); cbn; lia].
    unfold owns in E. apply andb_true_iff in E as [E1 E2]. apply Z.eqb_eq in E2. destruct Ho as [Ho|Ho]; [congruence|].
    rewrite E2 in Ho. rewrite Ho. lia. }
  split; [| |apply H| | |apply H].
  - intros d t w. cbn [entries set_entry]. rewrite lookup_insert_Some. intros [[E <-]|[_ E]]; [|by apply (ty_slot _ _ H)].
    injection E as <- <-. by destruct i.
  - intros j. rewrite entry_set. case_decide; [done|apply (ty_present _ _ H)].
  - intros j. etrans; [|apply (ty_count _ _ H j)]. specialize (Hle j). lia.
  - intros j Hj. apply (ty_usable _ _ H j). specialize (Hle j). lia.
Qed.

(** An entry that takes over a reference held outside *)
Lemma typed_take held s i v f : typed_with (f :: held) s -> wf i -> is_u32 v -> get v bPresent = true -> page v = f ->
  typed_with held (set_entry s i v).
Proof.
  intros H Hi Hv Hp Hf.
  assert (Hle : forall j, owners (set_entry s i v) j + uses held j <= owners s j + uses (f :: held) j).
  { intros j. rewrite owners_set, uses_cons. destruct (owns j v) eqn:E; [|case_decide; destruct (owns j (entry s i)); cbn; lia].
    unfold owns in E. apply andb_true_iff in E as [_ E]. apply Z.eqb_eq in E. rewrite decide_True by (by rewrite <- Hf).
    destruct (owns j (entry s i)); cbn; lia. }
  split; [| |apply H| | |apply H].
  - intros d t w. cbn [entries set_entry]. rewrite lookup_insert_Some. intros [[E <-]|[_ E]]; [|by apply (ty_slot _ _ H)].
    injection E as <- <-. by destruct i.
  - intros j. rewrite entry_set. case_decide; [done|apply (ty_present _ _ H)].
  - intros j. etrans; [apply Hle|apply (ty_count _ _ H j)].
  - intros j Hj. apply (ty_usable _ _ H j). specialize (Hle j). lia.
Qed.

(** What is neither an entry nor a count is free to change *)
Lemma typed_same held s s' : typed_with held s -> entries s' = entries s -> phys s' = phys s -> frames_ok s' -> typed_with held s'.
Proof.
  intros [H1 H2 H3 H4 H5 H6] Ee Ep Hf. split; try done.
  - intros d t v. rewrite Ee. apply H1.
  - intros i. unfold entry. rewrite Ee. apply H2.
  - by rewrite Ep.
  - intros j. rewrite (owners_entries s) by done. rewrite Ep. apply H4.
  - intros j. rewrite (owners_entries s) by done. rewrite Ep. apply H5.
Qed.

Lemma typed_charge held s b n : typed_with held s -> typed_with held (charge s b n).
Proof.
  intros H. destruct (charge_same s b n) as (E1 & E2 & E3 & _). apply (typed_same held s); try done.
  intros a. unfold frame. rewrite E3. apply (ty_frames _ _ H).
Qed.

Lemma typed_frame held s a c : typed_with held s -> length c = 4096%nat -> typed_with held (set_frame s a c).
Proof.
  intros H Hc. apply (typed_same held s); try done. intros b. unfold frame. cbn [frames set_frame]. rewrite lookup_insert.
  case_decide; [done|apply (ty_frames _ _ H)].
Qed.

Lemma typed_weaken held f s : typed_with (f :: held) s -> typed_with held s.
Proof.
  intros H. assert (Hle : forall j, uses held j <= uses (f :: held) j) by (intros j; rewrite uses_cons; case_decide; lia).
  split; try apply H.
  - intros j. pose proof (ty_count _ _ H j). specialize (Hle j). lia.
  - intros j Hj. apply (ty_usable _ _ H j). specialize (Hle j). lia.
Qed.

(** *** Taking frames *)

Lemma typed_alloc held s base p : typed_with held s -> Phys.alloc N (phys s) = Some (base, p) ->
  typed_with (base :: held) (set_phys s p) /\ aligned base.
Proof.
  intros H E. pose proof (Phys.alloc_spec N (phys s) (ty_phys _ _ H)) as A. rewrite E in A.
  destruct A as (i & -> & Hi & Hav & Hp & Ho & _ & Hok). pose proof (ty_count _ _ H i) as Hc. pose proof (uses_nonneg held i).
  pose proof (owners_nonneg s i). unfold Phys.available, Phys.free in Hav. apply andb_true_iff in Hav as [_ Hz]. apply Z.eqb_eq in Hz.
  split; [|eapply aligned_mul; [done|]; destruct Hok; lia]. split; try apply H; [done| |]; intros j; cbn [phys set_phys];
    change (owners (set_phys s p) j) with (owners s j); rewrite uses_cons, Phys.index_frame; case_decide as Hj.
  - subst j. rewrite Hp. cbn. lia.
  - rewrite Ho by done. apply (ty_count _ _ H j).
  - subst j. by rewrite Hp.
  - rewrite Ho by done. apply (ty_usable _ _ H j).
Qed.

Lemma alloc_possible held s : typed_with held s -> 0 < Phys.mFreePages (phys s) -> exists base p, Phys.alloc N (phys s) = Some (base, p).
Proof.
  intros H Hf. pose proof (Phys.alloc_spec N (phys s) (ty_phys _ _ H)) as A. destruct (Phys.alloc N (phys s)) as [[base p]|]; [eauto|lia].
Qed.

(** *** Mapping *)

Lemma read_frompmm e o : get e bFrompmm = frompmm (read_options e o).
Proof. done. Qed.

Lemma typed_clear held s ph virt o : typed_with held s -> aligned virt ->
  has_options (entry s (of_address virt)) ph (if clear o then with_rw o true else o) ->
  exists s', clear_mapped s virt o = Some s' /\ typed_with held s'.
Proof.
  intros H Hv He. unfold clear_mapped, bzero_page. rewrite aligned_offset by done. set (i := of_address virt) in *.
  destruct (clear o) eqn:Hcl; [|by exists s]. change (0 =? 0) with true. cbn [mbind option_bind andb]. eexists. split; [done|].
  rewrite (ho_page _ _ _ He). assert (H' : typed_with held (set_frame s ph zeroes)) by (apply typed_frame; [done|apply length_replicate]).
  destruct (rw o); cbn [negb]; [done|]. change (entry (set_frame s ph zeroes) i) with (entry s i).
  assert (Hwi : wf i) by (apply of_address_wf, Hv). unfold bRw. apply typed_set; [done|done|apply set_u32; [apply He|lia]|..].
  - intros _. unfold bPresent. rewrite get_set by (apply He || lia). apply He.
  - rewrite entry_page_set by (apply He || lia). change (entry (set_frame s ph zeroes) i) with (entry s i). unfold owns.
    unfold bFrompmm. rewrite get_set by (apply He || lia). rewrite Z.eqb_refl, andb_true_r. destruct (get (entry s i) 9); auto.
Qed.

(** A page that the tables do not own *)
Lemma typed_map held s ph virt o : typed_with held s -> aligned ph -> aligned virt -> frompmm o = false ->
  exists s', map s ph virt o = Some (virt, s') /\ typed_with held s'.
Proof.
  intros H Hp Hv Ho. pose proof (typed_entries_ok _ _ H) as He. unfold map. set (i := of_address virt).
  destruct (map_entry_spec (entry s i) ph o (entry_u32 s i He) Hp) as (e & -> & E). cbn [mbind option_bind].
  assert (Hfr : get e bFrompmm = false).
  { pose proof (ho_options _ _ _ E false) as R. rewrite (read_frompmm e (with_clear (if clear o then with_rw o true else o) false)).
    rewrite R. by destruct o as [? ? [] ? ? ? ?]. }
  destruct (typed_clear held (set_entry s i e) ph virt o) as (s2 & -> & H2); [|done|by rewrite entry_set_eq|].
  { apply typed_set; [done|apply of_address_wf, Hv|apply E|by rewrite Hfr|by left]. }
  cbn [mbind option_bind]. eexists. split; [done|]. by apply typed_charge.
Qed.

(** A page whose reference the tables take over *)
Lemma typed_map_owned held s ph virt o : typed_with (ph :: held) s -> aligned ph -> aligned virt ->
  exists s', map s ph virt o = Some (virt, s') /\ typed_with held s'.
Proof.
  intros H Hp Hv. pose proof (typed_entries_ok _ _ H) as He. unfold map. set (i := of_address virt).
  destruct (map_entry_spec (entry s i) ph o (entry_u32 s i He) Hp) as (e & -> & E). cbn [mbind option_bind].
  destruct (typed_clear held (set_entry s i e) ph virt o) as (s2 & -> & H2); [|done|by rewrite entry_set_eq|].
  { eapply typed_take; [done|apply of_address_wf, Hv|apply E|apply E|apply E]. }
  cbn [mbind option_bind]. eexists. split; [done|]. by apply typed_charge.
Qed.

Lemma typed_any held s virt o : typed_with held s -> aligned virt ->
  get (entry s (of_address virt)) bPresent = true \/ 0 < Phys.mFreePages (phys s) ->
  exists s', mapAnyPhysicalPage N s virt o = Some (virt, s') /\ typed_with held s'.
Proof.
  intros H Hv Hf. unfold mapAnyPhysicalPage, mapped. rewrite aligned_page_of by done.
  destruct (get (entry s (of_address virt)) bPresent) eqn:Ep; [by exists s|]. destruct Hf as [?|Hf]; [done|].
  destruct (alloc_possible held s H Hf) as (base & p & E). unfold alloc_result. rewrite E. cbn [mbind option_bind].
  destruct (typed_alloc held s base p H E) as [H1 Hb].
  destruct (typed_map_owned held _ base virt (with_frompmm o true) H1 Hb Hv) as (s' & -> & H2). by exists s'.
Qed.

Lemma typed_zero held s virt o : typed_with held s -> is_u32 virt -> exists s', mapZeroPage s virt o = Some (virt, s') /\ typed_with held s'.
Proof.
  intros H Hv. pose proof (typed_entries_ok _ _ H) as He. unfold mapZeroPage. set (i := of_address virt).
  set (e := set bUser _ _). assert (Hu : is_u32 e).
  { unfold e, bUser, bRw, bPresent. repeat apply set_u32; (lia || by apply entry_u32). }
  destruct (set_page_spec gZeroPagePhysical e ltac:(split; [unfold is_u, gZeroPagePhysical; lia|done]) Hu) as (e' & -> & Hu' & _ & _).
  cbn [mbind option_bind]. eexists. split; [done|]. unfold bFrompmm, bZpmap.
  assert (Hf : get (set 9 false (set 10 true e')) bFrompmm = false).
  { unfold bFrompmm. rewrite get_set; [done|apply set_u32; [done|lia]|lia|lia]. }
  apply typed_set; [done|by apply of_address_wf|repeat apply set_u32; (done || lia)|by rewrite Hf|by left].
Qed.

(** *** Unmapping *)

(** The reference of an entry can be given back *)
Lemma typed_release held s i : typed_with held s -> let e := entry s i in
  exists p, (if get e bFrompmm then get e bPresent = true /\ Phys.dealloc (phys s) (page e) = Some p else p = phys s) /\
    Phys.ok N p /\ forall j, Phys.page p j = Phys.mkPage (Phys.usable (Phys.page (phys s) j)) (Phys.refcnt (Phys.page (phys s) j) - Z.b2z (owns j e)).
Proof.
  intros H e.
  destruct (get e bFrompmm) eqn:Ef.
  - assert (Ho : 0 < owners s (Phys.index (page e))).
    { pose proof (owners_set s i 0 (Phys.index (page e))) as E. rewrite owns_zero in E. fold e in E. unfold owns in E.
      rewrite Ef, Z.eqb_refl in E. cbn in E. pose proof (owners_nonneg (set_entry s i 0) (Phys.index (page e))). lia. }
    pose proof (uses_nonneg held (Phys.index (page e))). pose proof (ty_count _ _ H (Phys.index (page e))).
    destruct (Phys.dealloc_spec N (phys s) (page e) (ty_phys _ _ H)) as (p & Ed & Hok & Hpe & Hpj); [apply (ty_usable _ _ H); lia|lia|].
    exists p. split; [split; [by apply (ty_present _ _ H)|done]|]. split; [done|]. intros j. unfold owns. rewrite Ef. cbn [andb].
    destruct (Z.eqb_spec (Phys.index (page e)) j) as [<-|Hne].
    + rewrite Hpe. f_equal. symmetry. apply (ty_usable _ _ H). lia.
    + rewrite Hpj by congruence. rewrite Z.sub_0_r. apply page_eta.
  - exists (phys s). split; [done|]. split; [apply H|]. intros j. unfold owns. rewrite Ef, Z.sub_0_r. apply page_eta.
Qed.

Lemma typed_unmap held s virt : typed_with held s -> is_u32 virt ->
  exists s', unmap s virt = Some s' /\ typed_with held s' /\ get (entry s' (of_address virt)) bPresent = false
    /\ (forall j, j <> of_address virt -> entry s' j = entry s j) /\ same_setup s s'.
Proof.
  intros H Hv. pose proof (typed_entries_ok _ _ H) as He. set (i := of_address virt). set (e := entry s i).
  destruct (typed_release held s i H) as (p & D & Hok & Hpage). fold e in D, Hpage. destruct (unmap_spec s virt p He D) as (s' & E & U). exists s'. split; [done|].
  destruct U as [Us Up Uf Uz _ Uo Uph Ufr _ Ust]. fold i in Up, Uf, Uo.
  split; [|split; [done|split; [done|done]]].
  assert (Ew : exists w, entries s' = entries (set_entry s i w)).
  { unfold unmap in E. fold i e in E. destruct (_ && _) in E; [done|]. apply bind_Some in E as (p1 & _ & E).
    apply bind_Some in E as (w & _ & E). exists w. injection E as <-. by rewrite (proj1 (charge_same _ _ _)). }
  destruct Ew as [w Ew].
  assert (Hw : get w bFrompmm = false).
  { unfold entry in Uf. rewrite Ew in Uf. change (get (entry (set_entry s i w) i) bFrompmm = false) in Uf. by rewrite entry_set_eq in Uf. }
  assert (Howners : forall j, owners s' j = owners s j - Z.b2z (owns j e)).
  { intros j. rewrite (owners_entries (set_entry s i w)) by done. rewrite owners_set. fold e. unfold owns at 2. rewrite Hw. cbn. lia. }
  assert (Hslots : forall d t v, entries s' !! (d, t) = Some v -> wf (mkIndices d t) /\ is_u32 v).
  { intros d t v Hdt. split; [|by eapply Us]. rewrite Ew in Hdt. cbn [entries set_entry] in Hdt.
    apply lookup_insert_Some in Hdt as [[Ed _]|[_ Hdt]]; [|apply (ty_slot _ _ H _ _ _ Hdt)]. injection Ed as <- <-.
    exact (of_address_wf virt Hv). }
  split; [done| |by rewrite Uph| | |].
  - intros j. destruct (decide (j = i)) as [->|Hj]; [by rewrite Uf|rewrite Uo by done; apply (ty_present _ _ H)].
  - intros j. rewrite Howners, Uph, Hpage. cbn. pose proof (ty_count _ _ H j). lia.
  - intros j. rewrite Howners, Uph, Hpage. cbn. intros Hj. apply (ty_usable _ _ H j). destruct (owns j e); cbn in Hj; lia.
  - intros a. unfold frame. rewrite Ufr. apply (ty_frames _ _ H).
Qed.
(** *** Changing options *)

Lemma newoptions_typed_entry e o : is_u32 e -> is_u32 (newoptions_entry e o) /\ page (newoptions_entry e o) = page e
  /\ get (newoptions_entry e o) bPresent = get e bPresent /\ get (newoptions_entry e o) bFrompmm = frompmm o.
Proof.
  intros He. destruct (get_newoptions e o He) as (H1 & H2 & H3 & _). split_and!; try done.
  unfold newoptions_entry, bRw, bUser, bCacheoff, bGlobal, bFrompmm, bCow.
  repeat (rewrite get_set by (first [lia | repeat apply set_u32; first [done | lia]])). done.
Qed.

(** Options that keep the owner of the page *)
Lemma typed_newoptions held s virt o : typed_with held s -> is_u32 virt ->
  frompmm o = get (entry s (of_address virt)) bFrompmm -> typed_with held (newoptions s virt o).2.
Proof.
  intros H Hv Ho. unfold newoptions. rewrite of_address_page by done. set (i := of_address virt) in *.
  destruct (_ || _); [|done]. cbn [snd]. pose proof (entry_u32 s i (typed_entries_ok _ _ H)) as Hu.
  destruct (newoptions_typed_entry (entry s i) o Hu) as (E1 & E2 & E3 & E4).
  apply typed_set; [done|by apply of_address_wf|done|..].
  - rewrite E3, E4, Ho. apply (ty_present _ _ H).
  - rewrite E4, E2, Ho. unfold owns. rewrite Z.eqb_refl, andb_true_r. destruct (get (entry s i) bFrompmm); auto.
Qed.

Lemma typed_protect held s pp o : typed_with held s -> is_u32 pp -> typed_with held (protect_page s pp o).
Proof.
  intros H Hp. unfold protect_page, mapped, zeroPageMapped. rewrite of_address_page by done.
  destruct (get (entry s (of_address pp)) bPresent); [destruct (_ && _); [done|]; by apply typed_newoptions|].
  destruct (_ && _); [|done]. by apply typed_newoptions.
Qed.

Lemma typed_markCOW held s virt : typed_with held s -> is_u32 virt -> typed_with held (markCOW s virt).2.
Proof.
  intros H Hv. unfold markCOW, mapped. rewrite of_address_page by done.
  destruct (get (entry s (of_address virt)) bPresent); [by apply typed_newoptions|done].
Qed.

(** *** Copies *)

(** There is a page for the copy in the scratch area *)
Definition scratch_free (s : vm) : Prop :=
  exists sp, findPageWithinRange s (scratch_low s) (scratch_high s) = address sp /\ free_slot s sp /\ 0 < number sp.

Lemma typed_clone held s virt o : typed_with held s -> is_u32 virt -> scratch_free s ->
  exists r s', clonePage N s virt o = Some (r, s') /\ typed_with held s'.
Proof.
  intros H Hv (sp & Hsp & [Hw Hfree] & Hpos). unfold clonePage. destruct (Phys.alloc N (phys s)) as [[ph p]|] eqn:E; [|by exists None, s].
  destruct (typed_alloc held s ph p H E) as [H1 Hph]. assert (Hal : aligned (page_of virt)) by (rewrite page_of_eq; by apply page_aligned).
  pose proof (address_aligned sp Hw) as Hasp. unfold getScratchPage. rewrite findPage_phys. cbn [scratch_low scratch_high set_phys]. rewrite Hsp.
  destruct (typed_map (ph :: held) (set_phys s p) ph (address sp) default_options H1 Hph Hasp eq_refl) as (s1 & -> & H2).
  cbn [mbind option_bind]. unfold memcopy_page. rewrite !aligned_offset by done. change (0 =? 0) with true. cbn [andb mbind option_bind].
  set (s2 := set_frame s1 _ _). assert (H3 : typed_with (ph :: held) s2) by (apply typed_frame; [done|apply (ty_frames _ _ H2)]).
  unfold dropScratchPage. rewrite even_address by done.
  destruct (Z.eqb_spec (address sp) 0) as [E0|_]; [rewrite address_number in E0 by done; lia|]. cbn [negb andb]. change (0 =? 0) with true. cbv iota.
  destruct (typed_unmap (ph :: held) s2 (address sp) H3 ltac:(apply Hasp)) as (s3 & -> & H4 & _). cbn [mbind option_bind].
  destruct (typed_unmap (ph :: held) s3 (page_of virt) H4 ltac:(apply Hal)) as (s4 & -> & H5 & _). cbn [mbind option_bind].
  destruct (typed_map_owned held s4 ph (page_of virt) (with_rw (with_cow (with_frompmm o true) false) true) H5 Hph Hal) as (s5 & -> & H6).
  by exists (Some ph), s5.
Qed.
(** A page of another process, and one more page of the kernel heap *)

Definition shareable (s : vm) (e : Z) : Prop :=
  is_u32 e /\ (get e bFrompmm = true -> Phys.usable (Phys.page (phys s) (Phys.index (page e))) = true /\
    Phys.refcnt (Phys.page (phys s) (Phys.index (page e))) < 255).

Lemma typed_reference held s a p : typed_with held s -> Phys.alloc_at (phys s) a = Some p ->
  Phys.refcnt (Phys.page (phys s) (Phys.index a)) < 255 -> typed_with (a :: held) (set_phys s p).
Proof.
  intros H E Hr. assert (Hu : Phys.usable (Phys.page (phys s) (Phys.index a)) = true) by (unfold Phys.alloc_at in E; by destruct (Phys.usable _)).
  destruct (Phys.alloc_at_spec N (phys s) a (ty_phys _ _ H) Hu Hr) as (p' & E' & Hok & Ha & Ho). rewrite E' in E. injection E as ->.
  split; try apply H; [done| |]; intros j; cbn [phys set_phys]; change (owners (set_phys s p) j) with (owners s j); rewrite uses_cons;
    (case_decide as Hj; [subst j; rewrite Ha; cbn|rewrite Ho by done]).
  - pose proof (ty_count _ _ H (Phys.index a)). lia.
  - apply (ty_count _ _ H j).
  - done.
  - apply (ty_usable _ _ H j).
Qed.

Lemma typed_other held s other otherVirt selfVirt o : typed_with held s -> aligned selfVirt ->
  shareable s (space_entry other (of_address otherVirt)) ->
  exists a s', mapOtherProcessPage s other otherVirt selfVirt o = Some (a, s') /\ typed_with held s'.
Proof.
  intros H Hv [Hu Hs]. unfold mapOtherProcessPage. set (e := space_entry other (of_address otherVirt)) in *.
  destruct (negb (get e bPresent)); [by exists 0, s|]. pose proof (page_aligned e Hu) as Hal.
  destruct (get e bFrompmm) eqn:Ef.
  - destruct (Hs eq_refl) as [Hus Hr]. destruct (Phys.alloc_at_spec N (phys s) (page e) (ty_phys _ _ H) Hus Hr) as (p & E & _).
    rewrite E. cbn [mbind option_bind].
    destruct (typed_map_owned held (set_phys s p) (page e) selfVirt (with_frompmm o true)) as (s' & -> & H'); [by apply typed_reference|done|done|].
    by exists selfVirt, s'.
  - cbn [mbind option_bind]. assert (H1 : typed_with held (set_phys s (phys s))) by (by apply (typed_same held s); [..|apply H]).
    destruct (typed_map held (set_phys s (phys s)) (page e) selfVirt (with_frompmm o false) H1 Hal Hv eq_refl) as (s' & -> & H').
    by exists selfVirt, s'.
Qed.

(** The frame of a page of the heap belongs to no entry: nobody will give it back *)
Lemma typed_oneblock held s current : typed_with held s -> aligned current -> 0 < Phys.mFreePages (phys s) ->
  exists block s', oneblock N current s = Some (current, s') /\ typed_with (block :: held) s'.
Proof.
  intros H Hc Hf. destruct (alloc_possible held s H Hf) as (block & p & E). unfold oneblock, alloc_result. rewrite E. cbn [mbind option_bind].
  destruct (typed_alloc held s block p H E) as [H1 Hb].
  destruct (typed_map (block :: held) (set_phys s p) block current (with_clear default_options true) H1 Hb Hc eq_refl) as (s' & -> & H2).
  by exists block, s'.
Qed.

(** *** Page faults *)

Section Faults.
Context (asFile : Z -> bool) (seek : Z -> Z -> bool) (read : Z -> Z -> list Z) (m : mm).

Lemma typed_fault held s error vaddr : typed_with held s -> is_u32 vaddr -> 0 < Phys.mFreePages (phys s) -> scratch_free s ->
  exists r s', Fault.pageflt_handler N asFile seek read m s error vaddr = Some (r, s') /\ typed_with held s'.
Proof.
  intros H Hv Hf Hsc. unfold Fault.pageflt_handler. assert (Hal : aligned (page_of vaddr)) by (rewrite page_of_eq; by apply page_aligned).
  enough (R : exists b s', (if isZeroPageAccess s vaddr then Fault.zeropage_recover N asFile seek read m s vaddr
     else if isCOWAccess s error vaddr then Fault.cow_recover N s vaddr else Some (false, s)) = Some (b, s') /\ typed_with held s').
  { destruct R as (b & s' & -> & H'). cbn [mbind option_bind]. by eexists _, s'. }
  destruct (isZeroPageAccess s vaddr).
  - unfold Fault.zeropage_recover. destruct (isWithinRegion m s vaddr) as [rgn|]; [|by exists false, s].
    destruct (isMmapRegion rgn).
    + unfold Fault.mmap_fault_recover. do 4 (destruct (_ : bool); [by exists false, s|]).
      destruct (typed_any held s (page_of vaddr) (with_clear (permission rgn) true) H Hal ltac:(by right)) as (s1 & -> & H1).
      cbn [mbind option_bind]. eexists _, _. split; [done|]. unfold Fault.fill. apply typed_frame; [done|].
      pose proof (ty_frames _ _ H1 (page (entry s1 (of_address (page_of vaddr))))) as Hl. rewrite length_app, length_drop, Hl.
      rewrite length_take. lia.
    + destruct (typed_any held s (page_of vaddr) (permission rgn) H Hal ltac:(by right)) as (s1 & -> & H1). by exists true, s1.
  - destruct (isCOWAccess s error vaddr); [|by exists false, s]. unfold Fault.cow_recover, mapped.
    destruct (get _ bPresent); [|by exists false, s].
    destruct (typed_clone held s vaddr (read_options (entry s (of_address (page_of vaddr))) default_options) H Hv Hsc) as (r & s1 & -> & H1).
    cbn [mbind option_bind]. by eexists _, s1.
Qed.
End Faults.
(** *** Any sequence of operations *)

Inductive call :=
| CMap (ph virt : Z) (o : map_options_t)
| CAny (virt : Z) (o : map_options_t)
| CZero (virt : Z) (o : map_options_t)
| CProtect (virt : Z) (o : map_options_t)
| CShare (virt : Z)
| CUnmap (virt : Z)
| COther (other : space) (otherVirt selfVirt : Z) (o : map_options_t)
| CHeap (current : Z)
| CFault (asFile : Z -> bool) (seek : Z -> Z -> bool) (read : Z -> Z -> list Z) (m : mm) (error vaddr : Z).

Definition exec (s : vm) (c : call) : option vm :=
  match c with
  | CMap ph virt o => snd <$> map s ph virt o
  | CAny virt o => snd <$> mapAnyPhysicalPage N s virt o
  | CZero virt o => snd <$> mapZeroPage s virt o
  | CProtect virt o => Some (protect_page s virt o)
  | CShare virt => Some (markCOW s virt).2
  | CUnmap virt => unmap s virt
  | COther other otherVirt selfVirt o => snd <$> mapOtherProcessPage s other otherVirt selfVirt o
  | CHeap current => snd <$> oneblock N current s
  | CFault asFile seek read m error vaddr => snd <$> Fault.pageflt_handler N asFile seek read m s error vaddr
  end.

(** What the callers see to: addresses of pages where pages are asked for, frames of the
    manager only from the manager, and memory where a page is taken *)
Definition allowed (s : vm) (c : call) : Prop :=
  match c with
  | CMap ph virt o => aligned ph /\ aligned virt /\ frompmm o = false
  | CAny virt o => aligned virt /\ 0 < Phys.mFreePages (phys s)
  | CZero virt _ | CProtect virt _ | CShare virt | CUnmap virt => is_u32 virt
  | COther other otherVirt selfVirt _ => aligned selfVirt /\ shareable s (space_entry other (of_address otherVirt))
  | CHeap current => aligned current /\ 0 < Phys.mFreePages (phys s)
  | CFault _ _ _ _ _ vaddr => is_u32 vaddr /\ 0 < Phys.mFreePages (phys s) /\ scratch_free s
  end.

Lemma call_typed s c : typed s -> allowed s c -> exists s', exec s c = Some s' /\ typed s'.
Proof.
  intros [held H] Ha. destruct c; cbn [allowed exec] in *.
  - destruct Ha as (? & ? & ?). destruct (typed_map held s ph virt o) as (s' & -> & ?); [done..|]. exists s'. split; [done|by exists held].
  - destruct Ha as (? & ?). destruct (typed_any held s virt o) as (s' & -> & ?); [done..|by right|]. exists s'. split; [done|by exists held].
  - destruct (typed_zero held s virt o) as (s' & -> & ?); [done..|]. exists s'. split; [done|by exists held].
  - eexists. split; [done|]. exists held. by apply typed_protect.
  - eexists. split; [done|]. exists held. by apply typed_markCOW.
  - destruct (typed_unmap held s virt) as (s' & -> & ? & _); [done..|]. exists s'. split; [done|by exists held].
  - destruct Ha as (? & ?). destruct (typed_other held s other otherVirt selfVirt o) as (a & s' & -> & ?); [done..|].
    exists s'. split; [done|by exists held].
  - destruct Ha as (? & ?). destruct (typed_oneblock held s current) as (b & s' & -> & ?); [done..|]. exists s'. split; [done|by exists (b :: held)].
  - destruct Ha as (? & ? & ?). destruct (typed_fault asFile seek read m held s error vaddr) as (r & s' & -> & ?); [done..|].
    exists s'. split; [done|by exists held].
Qed.

Definition moves (s s' : vm) : Prop := exists c, allowed s c /\ exec s c = Some s'.

Lemma typed_not_handed_out s i base p : typed s -> get (entry s i) bFrompmm = true ->
  Phys.alloc N (phys s) = Some (base, p) -> base <> page (entry s i).
Proof.
  intros [held H] Ho E. pose proof (Phys.alloc_spec N (phys s) (ty_phys _ _ H)) as A. rewrite E in A.
  destruct A as (j & -> & _ & Hav & _). intros Ej. pose proof (owners_set s i 0 j) as Eo. rewrite owns_zero in Eo. unfold owns in Eo.
  rewrite Ho, <- Ej, Phys.index_frame, Z.eqb_refl in Eo. cbn in Eo. pose proof (owners_nonneg (set_entry s i 0) j).
  pose proof (ty_count _ _ H j). pose proof (uses_nonneg held j). unfold Phys.available, Phys.free in Hav.
  destruct (Z.eqb_spec (Phys.refcnt (Phys.page (phys s) j)) 0); [lia|]. by rewrite andb_false_r in Hav.
Qed.

(** *** From early boot on *)

Lemma typed_map_some held s ph virt o r s' : typed_with held s -> is_u32 ph -> is_u32 virt -> frompmm o = false ->
  map s ph virt o = Some (r, s') -> typed_with held s'.
Proof.
  intros H Hp Hv Ho E. pose proof E as E'. unfold map, map_entry, set_page in E'. apply bind_Some in E' as (e & Ee & E').
  destruct (Z.eqb_spec (Z.land ph gFlagsBitmask) 0) as [Hl|]; [|done]. apply bind_Some in E' as (s2 & Ec & E').
  destruct (clear o) eqn:Hc.
  - assert (Hva : aligned virt).
    { split; [done|]. unfold clear_mapped, bzero_page in Ec. rewrite Hc in Ec. by destruct (Z.eqb_spec (offset virt) 0). }
    destruct (typed_map held s ph virt o H (conj Hp Hl) Hva Ho) as (s1 & E1 & H1). rewrite E1 in E. by injection E as _ <-.
  - clear Ee Ec E'. destruct (map_entry_spec (entry s (of_address virt)) ph o (entry_u32 _ _ (typed_entries_ok _ _ H)) (conj Hp Hl)) as (e' & Ee & Hb).
    unfold map in E. rewrite Ee in E. cbn [mbind option_bind] in E. unfold clear_mapped in E. rewrite Hc in *. cbn [mbind option_bind] in E.
    injection E as _ <-. apply typed_charge, typed_set; [done|by apply of_address_wf|apply Hb|intros _; apply Hb|left].
    rewrite (read_frompmm e' (with_clear o false)), (ho_options _ _ _ Hb false). by destruct o.
Qed.

Lemma typed_fb_map held n : forall s physical vmbase b e s', typed_with held s ->
  EarlyBoot.fb_map s physical vmbase b e n = Some s' -> typed_with held s'.
Proof.
  induction n as [|n IH]; intros s physical vmbase b e s' H E; cbn [EarlyBoot.fb_map] in E; destruct (b <=? e); simplify_eq; try done.
  apply bind_Some in E as ([r s1] & E1 & E). eapply IH; [|exact E]. eapply typed_map_some; [done|apply u32_range|apply u32_range| |exact E1]. done.
Qed.

Lemma typed_maprange_loop held n o : frompmm o = false -> forall s physlow physhigh virt r s', typed_with held s -> is_u32 physlow -> is_u32 virt ->
  maprange_loop n s physlow physhigh virt o = Some (r, s') -> typed_with held s'.
Proof.
  intros Ho. induction n as [|n IH]; intros s physlow physhigh virt r s' H Hp Hv E; cbn [maprange_loop] in E; destruct (physlow <? physhigh); simplify_eq; try done.
  apply bind_Some in E as ([r1 s1] & E1 & E). eapply IH; [|apply u32_range|apply u32_range|exact E]. exact (typed_map_some held _ _ _ _ _ _ H Hp Hv Ho E1).
Qed.

Lemma typed_loadModules held l : Forall (fun m => is_u32 (EarlyBoot.m_start m)) l -> forall s s' l', typed_with held s ->
  EarlyBoot.loadModules s l = Some (s', l') -> typed_with held s'.
Proof.
  induction 1 as [|m l Hm _ IH]; intros s s' l' H E; cbn [EarlyBoot.loadModules] in E; [by simplify_eq|].
  apply bind_Some in E as (rgn & Er & E). apply bind_Some in E as ([r s1] & E1 & E). apply bind_Some in E as ([s2 l2] & E2 & E). simplify_eq.
  eapply IH; [|exact E2]. eapply typed_maprange_loop; [| | | |exact E1]; [done|by apply (typed_same held s); [..|apply H]|by apply page_of_range|].
  unfold findKernelRegion in Er. apply bind_Some in Er as (x & _ & Er). simplify_eq. cbn [Interval.from]. apply u32_range.
Qed.

(** An entry of the tables made at boot belongs to no page of the manager *)
Lemma first_pte_unowned q fs ks ke i : get (first_pte q fs ks ke i) bFrompmm = false.
Proof.
  assert (G : forall j c, 0 <= c < 4096 -> Z.testbit c 9 = false -> get (4096 * j + c) bFrompmm = false).
  { intros j c Hc Hb. rewrite get_testbit by done. rewrite <- lor_frame, Z.lor_spec by done. change bFrompmm with 9. rewrite Hb.
    change 4096 with (2 ^ 12). rewrite Z.mul_comm, Z.mul_pow2_bits_low by lia. done. }
  unfold first_pte. repeat case_decide; try (apply G; [lia|done]). done.
Qed.
Lemma typed_unowned s : (forall d t v, entries s !! (d, t) = Some v -> wf (mkIndices d t) /\ is_u32 v) ->
  (forall i, wf i -> get (entry s i) bFrompmm = false) -> Phys.ok N (phys s) -> frames_ok s -> typed_with [] s.
Proof.
  intros Hk Hf Hp Hfr.
  assert (Hn : forall i, get (entry s i) bFrompmm = false).
  { intros [d t]. unfold entry. cbn [dir tbl]. destruct (entries s !! (d, t)) as [v|] eqn:E; [|done].
    destruct (Hk d t v E) as [Hw _]. specialize (Hf _ Hw). unfold entry in Hf. cbn [dir tbl] in Hf. by rewrite E in Hf. }
  assert (Ho : forall j, owners s j = 0).
  { intros j. unfold owners. apply (f_equal Z.of_nat (y := 0%nat)), map_size_empty_iff, map_empty. intros [d t]. apply map_lookup_filter_None. right. intros v E. cbn. specialize (Hn (mkIndices d t)).
    unfold entry in Hn. cbn [dir tbl] in Hn. rewrite E in Hn. cbn in Hn. unfold owns. by rewrite Hn. }
  split; try done.
  - intros i. by rewrite Hn.
  - intros j. rewrite Ho. by apply refcnt_nonneg with N.
  - intros j. rewrite Ho. by intros ?.
Qed.

Lemma typed_regions held s l : typed_with held s -> typed_with held (set_regions s l).
Proof. intros H. by apply (typed_same held s); [..|apply H]. Qed.

Lemma typed_setheap held s ks ke h s' : typed_with held s -> EarlyBoot.setupKernelHeap s ks ke = Some (h, s') -> typed_with held s'.
Proof.
  intros H E. unfold EarlyBoot.setupKernelHeap, EarlyBoot.setheap in E. destruct (_ =? 0) in E; [done|].
  apply bind_Some in E as (spr & _ & E). injection E as _ <-. apply typed_regions.
  by apply (typed_same held s); [..|apply H].
Qed.

Lemma typed_setupFramebuffer held s f fb s' : typed_with held s -> EarlyBoot.setupFramebuffer s f = Some (fb, s') -> typed_with held s'.
Proof.
  intros H E. unfold EarlyBoot.setupFramebuffer in E. apply bind_Some in E as (rgn & _ & E). apply bind_Some in E as (s1 & E1 & E).
  injection E as _ <-. by eapply typed_regions, typed_fb_map.
Qed.

(** What early boot leaves is typed *)
Theorem boot_starts_typed mem data magic mb es mods ks ke t b : bootable N mem data magic mb es mods ks ke -> words_ok t ->
  EarlyBoot.earlyBoot N mem data magic ks ke t = Some b -> typed (EarlyBoot.b_vm b).
Proof.
  intros [Hmagic (Hdata & Hinfo & Hflags) Bd (Hk1 & Hk2 & Hk3) (l & Hnd & Hlen & Hl) _ _ _] Ht E. exists [].
  destruct (boot_memory_described N mem _ _ _ _ _ Bd) as (p0 & p & E0 & E1 & D).
  pose proof (described_free _ _ _ _ D Hnd Hl) as Hfree. rewrite Hlen in Hfree.
  destruct (bd_kernel _ _ _ _ _ _ _ Bd) as [Hk4 Hk5]. pose proof (bd_num _ _ _ _ _ _ _ Bd) as HN.
  assert (Hke : ke <= Paging.gPageDirectoryAddress) by (unfold Paging.gPageDirectoryAddress; lia).
  assert (HN' : N <= 2 ^ 20) by lia.
  destruct (build_spec N p t ks ke (proj1 D) HN' Hfree Hk4 Hke Hk1) as (q & fs & p1 & t1 & E2 & Hok1 & Dir & P).
  pose proof (build_words N p t ks ke _ _ _ (proj1 D) HN' Ht ltac:(unfold is_u, EarlyBoot.gBootVirtualOffset in *; lia) E2) as Ht1.
  unfold EarlyBoot.earlyBoot in E. rewrite Hmagic, (header_read mem data mb) in E by done. cbn [mbind option_bind] in E.
  unfold Multiboot.fill in E. cbv zeta in E. rewrite E0 in E; cbn [mbind option_bind] in E. rewrite E1 in E; cbn [mbind option_bind] in E.
  rewrite E2 in E; cbn [mbind option_bind] in E. set (s0 := mkVm (Paging.entries_of t1 (4096 * q)) p1 ∅ false 0 0 0 []) in E.
  apply bind_Some in E as ([h s1] & E3 & E). apply bind_Some in E as ([fb s2] & E4 & E). apply bind_Some in E as ([s3 ml] & E5 & E).
  apply (inj Some) in E as <-. cbn [EarlyBoot.b_vm]. eapply typed_loadModules; [|eapply typed_setupFramebuffer; [eapply typed_setheap|]|]; [| |exact E3|exact E4|exact E5].
  - apply Forall_fmap. eapply list.Forall_impl; [apply (bd_mods_range _ _ _ _ _ _ _ Bd)|]. intros m Hm. cbn. unfold is_u, Phys.gPageSize in *. lia.
  - apply typed_unowned; [| |done|].
    + intros d e v Hv. cbn [entries s0] in Hv. rewrite entries_of_lookup in Hv. case_decide as Hd; [|done]. destruct (Ht1 _ _ _ Hv) as [Hu He]. done.
    + intros i Hi. rewrite (entries_of_pte t1 q fs s0 i Dir eq_refl Hi), P by done. apply first_pte_unowned.
    + intros a. unfold frame. cbn [frames s0]. rewrite lookup_empty. apply length_replicate.
Qed.
End Typed.

(** Sixteen megabytes without any mapping: a page is mapped for a process and given back. *)
Definition bare : Virt.vm := Virt.mkVm ∅ SmallBoot.free_pages ∅ true 0 0xC9000000 0xC9801000 [].

Lemma bare_typed : typed SmallBoot.pages bare.
Proof.
  exists []. apply typed_unowned; [by intros ? ? ?|done|exact (proj1 SmallBoot.free_pages_ok)|].
  intros a. unfold Virt.frame. cbn [Virt.frames bare]. rewrite lookup_empty. apply length_replicate.
Qed.

