(* ===== verification/MsgFs.v ===== *)
(** * The file system of message queues (kernel/src/synch/msgueue.cpp)

    Opening /queues/x for reading or for writing gives one end of the queue of that name,
    which lives as long as somebody has an end of it.  [MsgFs] is the file system over the
    queues of [Pipe] and the store of [KeyedStore]; [QueueRuns] any interleaving of
    processes that open, read, write and close; [MsgFsThms] shows that messages arrive in
    order, once each, and that closing is safe.  The kernel memory of a queue is its ring. *)

From stdpp Require Import base numbers list gmap option strings.
From Stdlib Require Import ZArith Lia.
From S2P Require Import Prelude Hash KeyedStore Vec PQueue Tables Files Kernel Synch Pipe SynchFs ProcessThms.

Local Open Scope Z_scope.

Module MsgFs.
Import KStr KeyedStore Pipe MsgQueue.

(** [MessageQueueBuffer] with its [mName] *)
Record queue := mkNamedQueue { mName : option string; buffer : msgqueue }.

Definition gNumMessages : nat := 256.

(** [makeNew]; the argument are the two wait queues of the new object *)
Definition makeQueue (name : option string) (a : Z * Z) : queue := mkNamedQueue name (new gNumMessages a.1 a.2).

(** [MessageQueueReadFile] and [MessageQueueWriteFile] *)
Record file := mkFile { f_buffer : nat; isReader : bool; mBlock : bool }.

Definition isWriter (f : file) : bool := negb (isReader f).

Section Fs.
Context (N : nat).

(** The object through a pointer, changed *)
Definition update (s : @store queue) (o : nat) (g : msgqueue -> msgqueue) : option (@store queue) :=
  x ← objs s !! o; Some (NamedFs.set_obj s o (mkNamedQueue (mName x) (g (buffer x)))).

(** The constructors of the two kinds of files *)
Definition readFile (s : @store queue) (o : nat) : option (@store queue * file) :=
  s ← update s o openReader; Some (s, mkFile o true true).
Definition writeFile (s : @store queue) (o : nat) : option (@store queue * file) :=
  s ← update s o openWriter; Some (s, mkFile o false true).

Definition forbidden (mode : Z) : bool := has mode (Z.lor FILE_OPEN_READ FILE_OPEN_WRITE) || has mode FILE_OPEN_APPEND.

(** [getIfExisting], then [makeNew] *)
Definition doOpen (args : Z * Z) (s : @store queue) (name : string) (mode : Z) : option (@store queue * option file) :=
  if forbidden mode then Some (s, None)
  else
    '(s, o) ← NamedFs.getOrCreate makeQueue N args s (Some name);
    match o with
    | None => Some (s, None)
    | Some o =>
        if any mode FILE_OPEN_READ then '(s, f) ← readFile s o; Some (s, Some f)
        else if any mode FILE_OPEN_WRITE then '(s, f) ← writeFile s o; Some (s, Some f)
        else Some (s, None)
    end.

(** [None]: the panic of a queue without clients that is still referred to *)
Definition doClose (s : @store queue) (f : file) : option (@store queue * bool) :=
  s ← (if isReader f then update s (f_buffer f) closeReader else Some s);
  s ← (if isWriter f then update s (f_buffer f) closeWriter else Some s);
  x ← objs s !! f_buffer f;
  let nr := mNumReaders (buffer x) in
  let nw := mNumWriters (buffer x) in
  '(s, erased) ← release N s (mName x);
  if (nr =? 0)%nat && (nw =? 0)%nat && negb erased then None else Some (s, erased).

End Fs.

(** *** Files *)

Definition IOCTL_GET_QUEUE_SIZE : Z := 1.
Definition IOCTL_BLOCK_ON_EMPTY : Z := 2.
Definition IOCTL_BLOCK_ON_FULL : Z := 3.

Definition queueIoctl (q : msgqueue) (a : Z) : Z := if a =? IOCTL_GET_QUEUE_SIZE then Z.of_nat (mTotalSize q) else 0.

Definition ioctl (q : msgqueue) (f : file) (a b : Z) : Z * file :=
  if a =? (if isReader f then IOCTL_BLOCK_ON_EMPTY else IOCTL_BLOCK_ON_FULL)
  then (1, mkFile (f_buffer f) (isReader f) (negb (b =? 0))) else (queueIoctl q a, f).

(** The file of the wrong kind inherits the method that does nothing *)
Definition fileRead (k : Kernel.kernel) (q : msgqueue) (f : file) (n : nat)
    : option (result (option message_t) * msgqueue * Kernel.kernel) :=
  if isReader f then MsgQueue.read k q n (mBlock f) else Some (Return None, q, k).

Definition fileWrite (k : Kernel.kernel) (q : msgqueue) (f : file) (src : list Z) (unixtime : Z)
    : option (result nat * msgqueue * Kernel.kernel) :=
  if isReader f then Some (Return 0%nat, q, k) else MsgQueue.write k q src unixtime (mBlock f).

End MsgFs.

(** ** Any interleaving of processes *)

Module QueueRuns.
Import KStr KeyedStore NamedFs Pipe MsgQueue MsgFs.

Section Runs.
Context (N : nat).

(** [sent] and [received]: what has gone into and come out of the queue at an address *)
Record sys := mkSys {
  kern : Kernel.kernel; queues : @store queue; files : list (kstring * file);
  sent : nat -> list message_t; received : nat -> list message_t }.

Definition more (h : nat -> list message_t) (o : nat) (m : message_t) : nat -> list message_t :=
  fun o' => if decide (o = o') then h o' ++ [m] else h o'.

(** The message goes into the queue; an empty one is answered with 0 as a refused one is *)
Definition taken (q : msgqueue) (f : file) (src : list Z) : bool :=
  isWriter f && (length src <=? gBodySize)%nat && negb (Ring.mFree (mq q) =? 0)%nat.

(** Exactly one of reading and writing is asked for *)
Definition one_end (mode : Z) : Prop := forbidden mode = false /\ (any mode FILE_OPEN_READ = true \/ any mode FILE_OPEN_WRITE = true).

Inductive step : sys -> sys -> Prop :=
  | s_open σ name mode args s f :
      Z.of_nat (length (files σ)) + 1 < 2 ^ 32 -> one_end mode ->
      doOpen N args (queues σ) name mode = Some (s, Some f) ->
      step σ (mkSys (kern σ) s ((of_cstr (Some name), f) :: files σ) (sent σ) (received σ))
  | s_close σ f1 k f f2 s erased :
      files σ = f1 ++ (k, f) :: f2 -> doClose N (queues σ) f = Some (s, erased) ->
      step σ (mkSys (kern σ) s (f1 ++ f2) (sent σ) (received σ))
  | s_read σ k f x n r q k' :
      (k, f) ∈ files σ -> objs (queues σ) !! f_buffer f = Some x -> fileRead (kern σ) (buffer x) f n = Some (r, q, k') ->
      step σ (mkSys k' (set_obj (queues σ) (f_buffer f) (mkNamedQueue (mName x) q)) (files σ) (sent σ)
        (match r with Return (Some m) => more (received σ) (f_buffer f) m | _ => received σ end))
  | s_write σ k f x src t r q k' p :
      (k, f) ∈ files σ -> objs (queues σ) !! f_buffer f = Some x -> fileWrite (kern σ) (buffer x) f src t = Some (r, q, k') ->
      Kernel.Kernel.procs (kern σ) !! Kernel.Kernel.gCurrentProcess (kern σ) = Some p ->
      step σ (mkSys k' (set_obj (queues σ) (f_buffer f) (mkNamedQueue (mName x) q)) (files σ)
        (if taken (buffer x) f src then more (sent σ) (f_buffer f) (mkMessage (Kernel.Proc.pid p) t (length src) src) else sent σ)
        (received σ))
  | s_ioctl σ f1 k f f2 x a b :
      files σ = f1 ++ (k, f) :: f2 -> objs (queues σ) !! f_buffer f = Some x ->
      step σ (mkSys (kern σ) (queues σ) (f1 ++ (k, (ioctl (buffer x) f a b).2) :: f2) (sent σ) (received σ))
  | s_kernel σ k' : step σ (mkSys k' (queues σ) (files σ) (sent σ) (received σ)).

Inductive reachable : sys -> Prop :=
  | r_init k : reachable (mkSys k (KeyedStore.new N) [] (fun _ => []) (fun _ => []))
  | r_step σ σ' : reachable σ -> step σ σ' -> reachable σ'.

(** *** The invariant *)

Context (N_pos : (0 < N)%nat).

Definition opened (l : list (kstring * file)) : list (kstring * nat) := (fun f => (f.1, f_buffer f.2)) <$> l.

Definition ends (reader : bool) (o : nat) (l : list (kstring * file)) : nat :=
  length (filter (fun f => isReader f.2 = reader /\ f_buffer f.2 = o) l).

(** What a queue in memory looks like: [l] are the messages on their way *)
Record delivering (σ : sys) (o : nat) (q : msgqueue) (l : list message_t) : Prop := {
  de_size : mTotalSize q = gNumMessages;
  de_readers : mNumReaders q = ends true o (files σ);
  de_writers : mNumWriters q = ends false o (files σ);
  de_holds : mqholds q l;
  de_history : sent σ o = received σ o ++ l }.

Record qinv (σ : sys) : Prop := {
  qi_names : inv mName N (queues σ) (opened (files σ));
  qi_queue o x : objs (queues σ) !! o = Some x -> exists l, delivering σ o (buffer x) l;
  qi_fresh o : (brk (queues σ) <= o)%nat -> sent σ o = [] /\ received σ o = [] }.

Lemma ends_cons r o f l : ends r o (f :: l) = ((if decide (isReader f.2 = r /\ f_buffer f.2 = o) then 1 else 0) + ends r o l)%nat.
Proof. unfold ends. rewrite filter_cons. by case_decide. Qed.

Lemma ends_remove r o f f1 f2 :
  ends r o (f1 ++ f :: f2) = ((if decide (isReader f.2 = r /\ f_buffer f.2 = o) then 1 else 0) + ends r o (f1 ++ f2))%nat.
Proof. unfold ends. rewrite !list.filter_app, !length_app, filter_cons. case_decide; cbn; lia. Qed.

Lemma opened_app l1 l2 : opened (l1 ++ l2) = opened l1 ++ opened l2.
Proof. apply fmap_app. Qed.

Lemma opened_live σ k f : qinv σ -> (k, f) ∈ files σ -> exists x, objs (queues σ) !! f_buffer f = Some x.
Proof.
  intros I Hf. destruct (live_iff_open mName N N_pos (queues σ) (opened (files σ)) (f_buffer f) (qi_names _ I)) as [_ H].
  destruct H as [x Hx]; [|by exists x]. exists k. apply list_elem_of_fmap. by exists (k, f).
Qed.

Lemma objs_bound (s : @store queue) fs o : inv mName N s fs -> is_Some (objs s !! o) -> (o < brk s)%nat.
Proof.
  intros I Ho. destruct (inv_objs _ _ _ _ I o Ho) as (k & p & n & x & Hk & Hp & _).
  destruct (s_live _ _ _ (inv_rep _ _ _ _ I) k p Hk) as (o' & y & Hv & _ & _ & _ & Hb). by simplify_eq.
Qed.

(** The two ways in which [getOrCreate] answers *)
Lemma getOrCreate_cases args s fs name s' o : inv mName N s fs -> getOrCreate makeQueue N args s (Some name) = Some (s', Some o) ->
  (objs s' = objs s /\ brk s' = brk s) \/
  (o = brk s /\ objs s !! o = None /\ objs s' = <[o := makeQueue (Some name) args]> (objs s) /\ brk s' = S (S o)).
Proof.
  intros I E. unfold getOrCreate in E. apply bind_Some in E as ([s1 o1] & E1 & E). unfold getOrNull in E1.
  apply bind_Some in E1 as (p & _ & E1). destruct p as [p|].
  - apply bind_Some in E1 as (v & _ & E1). simplify_eq. by left.
  - simplify_eq. right. unfold makeOrNull in E. apply bind_Some in E as (p & _ & E). destruct p as [p|]; [done|].
    apply bind_Some in E as (h & _ & E). simplify_eq. split; [done|]. split; [|done].
    destruct (objs s1 !! brk s1) eqn:Eo; [|done]. pose proof (objs_bound s1 fs (brk s1) I ltac:(by rewrite Eo)). lia.
Qed.

Lemma release_objs (s : @store queue) key s' b : release N s key = Some (s', b) ->
  brk s' = brk s /\ forall o x, objs s' !! o = Some x -> objs s !! o = Some x.
Proof.
  intros E. unfold release in E. apply bind_Some in E as (p & _ & E). destruct p as [p|]; [|by simplify_eq].
  apply bind_Some in E as (v & _ & E). case_match; [|by simplify_eq]. apply bind_Some in E as (e & _ & E). simplify_eq. split; [done|].
  cbn. intros o x Hx. by apply lookup_delete_Some in Hx as [_ Hx].
Qed.

(** One more end, and one end less *)
Definition join (reader : bool) (q : msgqueue) : msgqueue := if reader then openReader q else openWriter q.
Definition leave (reader : bool) (q : msgqueue) : msgqueue := if reader then closeReader q else closeWriter q.

Lemma doOpen_spec args s name mode s' f : one_end mode -> doOpen N args s name mode = Some (s', Some f) ->
  exists s1 x, getOrCreate makeQueue N args s (Some name) = Some (s1, Some (f_buffer f)) /\ objs s1 !! f_buffer f = Some x /\
    s' = set_obj s1 (f_buffer f) (mkNamedQueue (mName x) (join (isReader f) (buffer x))).
Proof.
  intros [Hf Hm] E. unfold doOpen in E. rewrite Hf in E. apply bind_Some in E as ([s1 [o|]] & E1 & E); [|done].
  unfold readFile, writeFile, update in E. destruct (any mode FILE_OPEN_READ); [|destruct (any mode FILE_OPEN_WRITE); [|done]];
    apply bind_Some in E as ([s2 f2] & E2 & E); simplify_eq; apply bind_Some in E2 as (s3 & E3 & E2); simplify_eq;
    apply bind_Some in E3 as (x & Hx & E3); simplify_eq; by exists s1, x.
Qed.

Lemma no_end σ o r : qinv σ -> objs (queues σ) !! o = None -> ends r o (files σ) = 0%nat.
Proof.
  intros I Ho. unfold ends. destruct (filter _ (files σ)) as [|[k f] l] eqn:E; [done|].
  assert (Hin : (k, f) ∈ filter (fun f => isReader f.2 = r /\ f_buffer f.2 = o) (files σ)) by (rewrite E; left).
  apply list_elem_of_filter in Hin as [[_ Hb] Hin]. cbn in Hb. destruct (opened_live _ _ _ I Hin) as [x Hx]. congruence.
Qed.

Lemma delivering_join σ o q l reader k block σ' : delivering σ o q l -> files σ' = (k, mkFile o reader block) :: files σ ->
  sent σ' = sent σ -> received σ' = received σ -> delivering σ' o (join reader q) l.
Proof.
  intros [H1 H2 H3 H4 H5] Ef Es Er. assert (Ht : mTotalSize (join reader q) = mTotalSize q /\ mq (join reader q) = mq q) by (by destruct reader).
  destruct Ht as [Ht Hq]. split; [by rewrite Ht| | | |by rewrite Es, Er].
  - rewrite Ef, ends_cons. cbn. destruct reader; cbn; [rewrite decide_True by done|rewrite decide_False by naive_solver]; by rewrite H2.
  - rewrite Ef, ends_cons. cbn. destruct reader; cbn; [rewrite decide_False by naive_solver|rewrite decide_True by done]; by rewrite H3.
  - unfold mqholds. by rewrite Ht, Hq.
Qed.

Lemma delivering_same σ σ' o q l : delivering σ o q l -> (forall r, ends r o (files σ') = ends r o (files σ)) ->
  sent σ' o = sent σ o -> received σ' o = received σ o -> delivering σ' o q l.
Proof. intros [H1 H2 H3 H4 H5] Ef Es Er. split; rewrite ?Ef, ?Es, ?Er; done. Qed.

Lemma queue_open_step σ name mode args s f : qinv σ -> Z.of_nat (length (files σ)) + 1 < 2 ^ 32 -> one_end mode ->
  doOpen N args (queues σ) name mode = Some (s, Some f) ->
  qinv (mkSys (kern σ) s ((of_cstr (Some name), f) :: files σ) (sent σ) (received σ)).
Proof.
  intros I Hlen Hm E. destruct (doOpen_spec _ _ _ _ _ _ Hm E) as (s1 & x & E1 & Hx & ->). clear E. pose proof I as [In Iq If].
  destruct (open_spec makeQueue mName N args N_pos (fun _ _ => eq_refl) (queues σ) (opened (files σ)) name In) as (s2 & o & E2 & I2 & _).
  { unfold opened. by rewrite length_fmap. }
  unfold NamedFs.doOpen in E2. rewrite E1 in E2. simplify_eq.
  destruct (getOrCreate_cases _ _ _ _ _ _ In E1) as [[Eo Eb]|(Eb & Eno & Eo & Eb')].
  - split; cbn [queues files sent received].
    + eapply set_obj_inv; [exact I2|exact Hx|done].
    + intros o y. cbn [objs set_obj]. rewrite Eo in *. rewrite lookup_insert_Some. intros [[<- <-]|[Hne Hy]].
      * destruct (Iq _ _ Hx) as [l Hl]. exists l. cbn [buffer]. destruct f as [fb r bl]. by eapply delivering_join.
      * destruct (Iq _ _ Hy) as [l Hl]. exists l. eapply delivering_same; [exact Hl| |done|done].
        intros r. cbn [files]. rewrite ends_cons, decide_False by naive_solver. done.
    + intros o. cbn [brk set_obj]. rewrite Eb. apply If.
  - rewrite Eo in Hx. rewrite lookup_insert_eq in Hx. simplify_eq. split; cbn [queues files sent received].
    + eapply set_obj_inv; [exact I2|by rewrite Eo, lookup_insert_eq|done].
    + intros o y. cbn [objs set_obj]. rewrite Eo, lookup_insert_Some. intros [[<- <-]|[Hne Hy]].
      * exists []. cbn [buffer]. destruct f as [fb r bl]. cbn [f_buffer isReader mName] in *.
        eapply (delivering_join σ); [|done|done|done]. destruct (If fb) as [Es Er]; [lia|].
        split; cbn; [done|by rewrite (no_end σ)|by rewrite (no_end σ)|apply Ring.rrep_new; unfold gNumMessages; lia|by rewrite Es, Er].
      * rewrite lookup_insert_ne in Hy by done. destruct (Iq _ _ Hy) as [l Hl]. exists l. eapply delivering_same; [exact Hl| |done|done].
        intros r. cbn [files]. rewrite ends_cons, decide_False by naive_solver. done.
    + intros o. cbn [brk set_obj]. rewrite Eb'. intros Ho. apply If. lia.
Qed.

(** *** Closing *)

Lemma update_spec (s : @store queue) o g x : objs s !! o = Some x ->
  update s o g = Some (set_obj s o (mkNamedQueue (mName x) (g (buffer x)))).
Proof. intros Hx. unfold update. by rewrite Hx. Qed.

(** The end goes, then the reference by the name *)
Lemma doClose_spec (s : @store queue) f x : objs s !! f_buffer f = Some x ->
  let q := leave (isReader f) (buffer x) in
  doClose N s f = '(s', erased) ← release N (set_obj s (f_buffer f) (mkNamedQueue (mName x) q)) (mName x);
    if (mNumReaders q =? 0)%nat && (mNumWriters q =? 0)%nat && negb erased then None else Some (s', erased).
Proof.
  intros Hx q. unfold doClose, isWriter. subst q.
  destruct (isReader f); cbn [negb mbind option_bind]; rewrite (update_spec _ _ _ _ Hx); cbn [mbind option_bind];
    cbn [objs set_obj]; rewrite lookup_insert_eq; done.
Qed.

Lemma leave_counts σ o q l f f1 k f2 : delivering σ o q l -> files σ = f1 ++ (k, f) :: f2 -> f_buffer f = o ->
  mNumReaders (leave (isReader f) q) = ends true o (f1 ++ f2) /\ mNumWriters (leave (isReader f) q) = ends false o (f1 ++ f2) /\
  mTotalSize (leave (isReader f) q) = mTotalSize q /\ mq (leave (isReader f) q) = mq q.
Proof.
  intros D Ef Ho. pose proof (de_readers _ _ _ _ D) as Hr. pose proof (de_writers _ _ _ _ D) as Hw. rewrite Ef, ends_remove in Hr, Hw. cbn in Hr, Hw.
  unfold leave, closeReader, closeWriter. destruct (isReader f).
  - rewrite decide_True in Hr by done. rewrite decide_False in Hw by naive_solver. rewrite Hr. cbn. rewrite ?Hw. split_and!; try done; lia.
  - rewrite decide_False in Hr by naive_solver. rewrite decide_True in Hw by done. rewrite Hw. cbn. rewrite ?Hr. split_and!; try done; lia.
Qed.

(** Files of a queue have its name, so that it is without ends exactly when nobody refers to it *)
Lemma close_ok σ f1 k f f2 : qinv σ -> files σ = f1 ++ (k, f) :: f2 ->
  exists s erased, doClose N (queues σ) f = Some (s, erased) /\ inv mName N s (opened (f1 ++ f2)) /\
    erased = (count k (opened (f1 ++ f2)) =? 0) /\
    (forall o x, objs s !! o = Some x -> o <> f_buffer f /\ objs (queues σ) !! o = Some x \/
       o = f_buffer f /\ exists y, objs (queues σ) !! o = Some y /\ x = mkNamedQueue (mName y) (leave (isReader f) (buffer y))) /\
    brk s = brk (queues σ).
Proof.
  intros I Ef. destruct (opened_live σ k f I) as [x Hx]; [rewrite Ef; apply elem_of_app; right; by left|].
  destruct (qi_queue _ I _ _ Hx) as [l D]. destruct (leave_counts _ _ _ _ _ _ _ _ D Ef eq_refl) as (Hr & Hw & _ & _).
  rewrite (doClose_spec _ _ _ Hx). set (q := leave (isReader f) (buffer x)) in *.
  set (s1 := set_obj (queues σ) (f_buffer f) (mkNamedQueue (mName x) q)).
  assert (I1 : inv mName N s1 (opened f1 ++ (k, f_buffer f) :: opened f2)).
  { eapply set_obj_inv; [|exact Hx|done]. pose proof (qi_names _ I) as In. rewrite Ef, opened_app in In. exact In. }
  destruct (close_spec mName N N_pos s1 _ _ k (f_buffer f) I1) as (s & b & Ec & I2 & Hb & _).
  unfold NamedFs.doClose in Ec. cbn [objs set_obj s1] in Ec. rewrite lookup_insert_eq in Ec. cbn [mbind option_bind mName] in Ec.
  rewrite <- opened_app in I2, Hb. rewrite Ec. cbn [mbind option_bind].
  assert (Hno : (mNumReaders q =? 0)%nat && (mNumWriters q =? 0)%nat && negb b = false).
  { destruct b; [by rewrite andb_false_r|]. rewrite Hr, Hw, andb_true_r.
    assert (Hc : count k (opened (f1 ++ f2)) <> 0) by (intros E0; rewrite E0 in Hb; done).
    unfold count in Hc. destruct (filter (fun f => f.1 = k) (opened (f1 ++ f2))) as [|[k1 o1] lf] eqn:Efi; [done|].
    assert (Hin : (k1, o1) ∈ filter (fun f => f.1 = k) (opened (f1 ++ f2))) by (rewrite Efi; left).
    apply list_elem_of_filter in Hin as [Hk Hin]. cbn in Hk. subst k1.
    assert (Ho : o1 = f_buffer f).
    { pose proof (inv_names _ _ _ _ I1) as Hn. rewrite opened_app in Hin.
      pose proof (proj1 (list.Forall_forall _ _) Hn (k, f_buffer f) ltac:(apply elem_of_app; right; by left)) as Hn1.
      pose proof (proj1 (list.Forall_forall _ _) Hn (k, o1) ltac:(apply elem_of_app in Hin as [?|?]; apply elem_of_app; [by left|right; by right])) as Hn2.
      symmetry. by apply (names_functional mName N s1 _ k k _ _ I1 Hn1 Hn2). }
    subst o1. apply list_elem_of_fmap in Hin as ([k2 g] & Eg & Hin). cbn in Eg. injection Eg as -> Eb.
    assert (Hpos : (0 < ends (isReader g) (f_buffer f) (f1 ++ f2))%nat).
    { unfold ends. destruct (filter _ (f1 ++ f2)) eqn:Ez; [|cbn; lia].
      assert (Hin' : (k2, g) ∈ filter (fun f' => isReader f'.2 = isReader g /\ f_buffer f'.2 = f_buffer f) (f1 ++ f2)) by (by apply list_elem_of_filter).
      rewrite Ez in Hin'. by apply elem_of_nil in Hin'. }
    destruct (isReader g); [destruct (ends true _ _); [lia|done]|destruct (ends false _ _); [lia|by rewrite andb_false_r]]. }
  rewrite Hno. exists s, b. split; [done|]. split; [done|]. split; [done|]. destruct (release_objs _ _ _ _ Ec) as [Hbrk Hobjs]. split; [|done].
  intros o y Hy. specialize (Hobjs o y Hy). cbn [objs set_obj s1] in Hobjs. apply lookup_insert_Some in Hobjs as [[<- <-]|[? ?]]; [|by left].
  right. split; [done|]. by exists x.
Qed.

Lemma queue_close_step σ f1 k f f2 s erased : qinv σ -> files σ = f1 ++ (k, f) :: f2 -> doClose N (queues σ) f = Some (s, erased) ->
  qinv (mkSys (kern σ) s (f1 ++ f2) (sent σ) (received σ)).
Proof.
  intros I Ef E. destruct (close_ok σ f1 k f f2 I Ef) as (s' & b & E' & In & _ & Ho & Hb). rewrite E in E'. simplify_eq.
  split; cbn [queues files sent received]; [done| |intros o; rewrite Hb; apply (qi_fresh _ I)].
  intros o x Hx. destruct (decide (o = f_buffer f)) as [->|Hne].
  - destruct (opened_live σ k f I) as [y Hy]; [rewrite Ef; apply elem_of_app; right; by left|].
    destruct (qi_queue _ I _ _ Hy) as [l D]. destruct (leave_counts _ _ _ _ _ _ _ _ D Ef eq_refl) as (Hr & Hw & Ht & Hq).
    destruct (Ho _ _ Hx) as [[? _]|(_ & y' & Hy' & ->)]; [done|].
    rewrite Hy in Hy'. injection Hy' as <-. exists l. cbn [buffer]. destruct D as [D1 D2 D3 D4 D5]. split; cbn [files sent received]; try done.
    + by rewrite Ht.
    + unfold mqholds. by rewrite Ht, Hq.
  - destruct (Ho _ _ Hx) as [[_ Hx']|[? _]]; [|done]. destruct (qi_queue _ I _ _ Hx') as [l D]. exists l.
    eapply delivering_same; [exact D| |done|done]. intros r. cbn [files]. rewrite Ef, ends_remove, decide_False; [done|]. cbn. naive_solver.
Qed.

(** *** Reading, writing and controls *)

Lemma read_ends k q n b r q' k' : MsgQueue.read k q n b = Some (r, q', k') -> mNumReaders q' = mNumReaders q /\ mNumWriters q' = mNumWriters q.
Proof.
  intros E. unfold MsgQueue.read in E. destruct (negb _); [by simplify_eq|]. destruct (_ && _).
  - destruct b; [|by simplify_eq]. apply bind_Some in E as (k1 & _ & E). by simplify_eq.
  - unfold tryRead in E. destruct (Ring.tryGet _ _) as [[m r1]|]; cbn [mbind option_bind] in E; [|by simplify_eq]. apply bind_Some in E as (k1 & _ & E). by simplify_eq.
Qed.

Lemma write_ends k q src t b r q' k' : MsgQueue.write k q src t b = Some (r, q', k') -> mNumReaders q' = mNumReaders q /\ mNumWriters q' = mNumWriters q.
Proof.
  intros E. unfold MsgQueue.write in E. destruct (_ <? _)%nat; [by simplify_eq|]. apply bind_Some in E as (p & _ & E). destruct (_ =? _)%nat.
  - destruct b; [|by simplify_eq]. apply bind_Some in E as (k1 & _ & E). by simplify_eq.
  - unfold tryWrite in E. destruct (Ring.tryPut _ _ _) as [r1|]; cbn [mbind option_bind] in E; [|by simplify_eq]. apply bind_Some in E as (k1 & _ & E). by simplify_eq.
Qed.

(** An operation on the queue of one file *)
Lemma queue_step σ σ' k f x q l : qinv σ -> (k, f) ∈ files σ -> objs (queues σ) !! f_buffer f = Some x ->
  queues σ' = set_obj (queues σ) (f_buffer f) (mkNamedQueue (mName x) q) -> files σ' = files σ ->
  (forall o, o <> f_buffer f -> sent σ' o = sent σ o /\ received σ' o = received σ o) ->
  delivering σ' (f_buffer f) q l -> qinv σ'.
Proof.
  intros I Hf Hx Eq Ef Hs D. split.
  - rewrite Eq, Ef. eapply set_obj_inv; [apply I|exact Hx|done].
  - intros o y. rewrite Eq. cbn [objs set_obj]. rewrite lookup_insert_Some. intros [[<- <-]|[Hne Hy]]; [by exists l|].
    destruct (qi_queue _ I _ _ Hy) as [l' D']. exists l'. eapply delivering_same; [exact D'|by rewrite Ef|by apply Hs|by apply Hs].
  - intros o. rewrite Eq. cbn [brk set_obj]. intros Ho.
    pose proof (objs_bound _ _ _ (qi_names _ I) (mk_is_Some _ _ Hx)). destruct (Hs o) as [-> ->]; [lia|]. by apply (qi_fresh _ I).
Qed.

Lemma delivering_get σ σ' o q q' l l' : delivering σ o q l -> files σ' = files σ -> mTotalSize q' = mTotalSize q ->
  mNumReaders q' = mNumReaders q -> mNumWriters q' = mNumWriters q -> mqholds q' l' -> sent σ' o = received σ' o ++ l' -> delivering σ' o q' l'.
Proof. intros [H1 H2 H3 H4 H5] Ef Et Er Ew Hq Hs. split; rewrite ?Ef, ?Et, ?Er, ?Ew; done. Qed.

Lemma more_same h o m : more h o m o = h o ++ [m].
Proof. unfold more. by rewrite decide_True. Qed.
Lemma more_other h o m o' : o' <> o -> more h o m o' = h o'.
Proof. intros. unfold more. by rewrite decide_False. Qed.

Lemma read_step σ k f x n r q k' : qinv σ -> (k, f) ∈ files σ -> objs (queues σ) !! f_buffer f = Some x ->
  fileRead (kern σ) (buffer x) f n = Some (r, q, k') ->
  qinv (mkSys k' (set_obj (queues σ) (f_buffer f) (mkNamedQueue (mName x) q)) (files σ) (sent σ)
        (match r with Return (Some m) => more (received σ) (f_buffer f) m | _ => received σ end)).
Proof.
  intros I Hf Hx E. destruct (qi_queue _ I _ _ Hx) as [l D]. unfold fileRead in E. destruct (isReader f).
  - destruct (read_ends _ _ _ _ _ _ _ E) as [Er Ew].
    apply (mq_read_spec _ l ltac:(rewrite (de_size _ _ _ _ D); unfold gNumMessages; lia) (de_holds _ _ _ _ D)) in E. destruct r as [|[m|]].
    + destruct E as (_ & _ & _ & ->). by eapply queue_step; [..|eapply delivering_get; [exact D|done..|apply D|apply D]].
    + destruct E as (_ & l' & -> & Hh & Ht). eapply (queue_step σ _ k f x q l'); try done.
      * intros o Ho. cbn [sent received]. by rewrite more_other.
      * eapply delivering_get; [exact D|done..|]. cbn [sent received]. rewrite more_same, <- app_assoc. apply D.
    + destruct E as [-> _]. by eapply queue_step; [..|eapply delivering_get; [exact D|done..|apply D|apply D]].
  - simplify_eq. by eapply queue_step; [..|eapply delivering_get; [exact D|done..|apply D|apply D]].
Qed.

Lemma write_step σ k f x src t r q k' p : qinv σ -> (k, f) ∈ files σ -> objs (queues σ) !! f_buffer f = Some x ->
  fileWrite (kern σ) (buffer x) f src t = Some (r, q, k') ->
  Kernel.Kernel.procs (kern σ) !! Kernel.Kernel.gCurrentProcess (kern σ) = Some p ->
  qinv (mkSys k' (set_obj (queues σ) (f_buffer f) (mkNamedQueue (mName x) q)) (files σ)
        (if taken (buffer x) f src then more (sent σ) (f_buffer f) (mkMessage (Kernel.Proc.pid p) t (length src) src) else sent σ)
        (received σ)).
Proof.
  intros I Hf Hx E Hp. destruct (qi_queue _ I _ _ Hx) as [l D]. unfold fileWrite, taken, isWriter in *. destruct (isReader f); cbn [negb andb].
  { simplify_eq. by eapply queue_step; [..|eapply delivering_get; [exact D|done..|apply D|apply D]]. }
  destruct (write_ends _ _ _ _ _ _ _ _ E) as [Er Ew]. pose proof (Ring.rr_free _ _ _ (de_holds _ _ _ _ D)) as Hfree.
  apply (mq_write_spec _ l ltac:(rewrite (de_size _ _ _ _ D); unfold gNumMessages; lia) (de_holds _ _ _ _ D)) in E.
  assert (Hkeep : q = buffer x -> ~ (length src <= gBodySize /\ Ring.mFree (mq (buffer x)) <> 0)%nat ->
    qinv (mkSys k' (set_obj (queues σ) (f_buffer f) (mkNamedQueue (mName x) q)) (files σ)
        (if (length src <=? gBodySize)%nat && negb (Ring.mFree (mq (buffer x)) =? 0)%nat
         then more (sent σ) (f_buffer f) (mkMessage (Kernel.Proc.pid p) t (length src) src) else sent σ) (received σ))).
  { intros -> Hno. destruct (Nat.leb_spec (length src) gBodySize), (Nat.eqb_spec (Ring.mFree (mq (buffer x))) 0); cbn [negb andb]; try (exfalso; lia);
      by eapply queue_step; [..|eapply delivering_get; [exact D|done..|apply D|apply D]]. }
  destruct r as [|n].
  - destruct E as (Hl & _ & ->). apply Hkeep; [done|]. lia.
  - destruct E as [(-> & -> & Hc)|(-> & Hle & p' & Hp' & Hh & Ht)]; [apply Hkeep; [done|]; lia|].
    rewrite Hp in Hp'. injection Hp' as <-. pose proof (Ring.rr_free _ _ _ Hh) as Hfree'. rewrite length_app in Hfree'. cbn in Hfree'.
    rewrite (proj2 (Nat.leb_le _ _)) by done. rewrite (proj2 (Nat.eqb_neq _ _)) by lia. cbn [negb andb].
    eapply (queue_step σ _ k f x q (l ++ [_])); try done.
    + intros o Ho. cbn [sent received]. by rewrite more_other.
    + eapply delivering_get; [exact D|done..|]. cbn [sent received]. rewrite more_same, (de_history _ _ _ _ D), <- app_assoc. done.
Qed.

Lemma ioctl_step σ f1 k f f2 x a b : qinv σ -> files σ = f1 ++ (k, f) :: f2 -> objs (queues σ) !! f_buffer f = Some x ->
  qinv (mkSys (kern σ) (queues σ) (f1 ++ (k, (ioctl (buffer x) f a b).2) :: f2) (sent σ) (received σ)).
Proof.
  intros I Ef Hx. set (g := (ioctl (buffer x) f a b).2).
  assert (Hg : f_buffer g = f_buffer f /\ isReader g = isReader f) by (unfold g, ioctl; by destruct (_ =? _)).
  destruct Hg as [Hb Hr]. split; cbn [queues files sent received]; [| |apply I].
  - pose proof (qi_names _ I) as In. rewrite Ef, opened_app in In. rewrite opened_app. cbn in *. by rewrite Hb.
  - intros o y Hy. destruct (qi_queue _ I _ _ Hy) as [l D]. exists l. eapply delivering_same; [exact D| |done|done].
    intros r. cbn [files]. rewrite Ef, !ends_remove. cbn. by rewrite Hb, Hr.
Qed.

Lemma runs_qinv σ : reachable σ -> qinv σ.
Proof.
  induction 1 as [k|σ σ' _ IH Hs].
  - split; cbn [queues files sent received]; [by apply inv_new| |done]. intros o x Hx. cbn in Hx. by rewrite lookup_empty in Hx.
  - destruct Hs; [by eapply queue_open_step|by eapply queue_close_step|by eapply read_step|by eapply write_step|by eapply ioctl_step|].
    destruct IH as [I1 I2 I3]. split; cbn [queues files sent received]; [done| |done].
    intros o x Hx. destruct (I2 o x Hx) as [l D]. exists l. by eapply delivering_same.
Qed.
End Runs.
End QueueRuns.

Module MsgFsThms.
Import KStr KeyedStore NamedFs Pipe MsgQueue MsgFs QueueRuns.

(** C37: /queues delivers messages in order and once each.  Over any interleaving of opens of
    one end, closes, reads, writes, controls and kernel activity: what has come out of a
    queue in memory is the beginning of what has gone into it, and the rest, at most 256
    messages, is in it; two open files have the same queue exactly when they were opened by
    the same name; and a close never panics and frees the queue exactly when no other file
    has the name. *)
Theorem queues_deliver_in_order (N : nat) σ : (0 < N)%nat -> reachable N σ ->
  (forall o x, objs (queues σ) !! o = Some x ->
     exists l, sent σ o = received σ o ++ l /\ (length l <= gNumMessages)%nat /\ mqholds (buffer x) l)
  /\ (forall k f k' f', (k, f) ∈ files σ -> (k', f') ∈ files σ -> k = k' <-> f_buffer f = f_buffer f')
  /\ (forall f1 k f f2, files σ = f1 ++ (k, f) :: f2 ->
        exists s erased, doClose N (queues σ) f = Some (s, erased) /\ (erased = true <-> forall g, (k, g) ∉ f1 ++ f2)).
Proof.
  intros HN Hr. pose proof (runs_qinv N HN σ Hr) as I. split_and!.
  - intros o x Hx. destruct (qi_queue _ _ I _ _ Hx) as [l D]. exists l. split; [apply D|]. split; [|apply D].
    pose proof (Ring.rr_free _ _ _ (de_holds _ _ _ _ D)). rewrite (de_size _ _ _ _ D) in *. lia.
  - assert (Hn : forall k f, (k, f) ∈ files σ -> names mName N (queues σ) k (f_buffer f)).
    { intros k f Hf. apply (proj1 (list.Forall_forall _ _) (inv_names _ _ _ _ (qi_names _ _ I)) (k, f_buffer f)).
      apply list_elem_of_fmap. by exists (k, f). }
    intros k f k' f' H1 H2. eapply names_functional; [apply I|by apply Hn|by apply Hn].
  - intros f1 k f f2 Ef. destruct (close_ok N HN σ f1 k f f2 I Ef) as (s & b & E & _ & Hb & _). exists s, b. split; [done|].
    rewrite Hb, Z.eqb_eq. unfold count. split.
    + intros H0 g Hin. assert (Hin' : (k, f_buffer g) ∈ filter (fun f => f.1 = k) (opened (f1 ++ f2))).
      { apply list_elem_of_filter. split; [done|]. apply list_elem_of_fmap. by exists (k, g). }
      destruct (filter _ (opened (f1 ++ f2))); [by apply elem_of_nil in Hin'|cbn in H0; lia].
    + intros Hno. destruct (filter (fun f => f.1 = k) (opened (f1 ++ f2))) as [|[k1 o1] l] eqn:Ez; [done|].
      assert (Hin : (k1, o1) ∈ filter (fun f => f.1 = k) (opened (f1 ++ f2))) by (rewrite Ez; left).
      apply list_elem_of_filter in Hin as [Hk Hin]. cbn in Hk. subst k1. apply list_elem_of_fmap in Hin as ([k2 g] & Eg & Hin).
      cbn in Eg. injection Eg as -> _. by destruct (Hno g).
Qed.

(** A file asked for neither to read nor to write takes a reference that nobody gives
    back: the next file of that name to be closed stops the kernel. *)
Example access_less_open_is_fatal :
  ('(s, f0) ← doOpen 4 (13, 14) (KeyedStore.new 4) "log" 0;
   '(s, f) ← doOpen 4 (13, 14) s "log" FILE_OPEN_READ;
   f ← f; Some (f0, doClose 4 s f)) = Some (None, None).
Proof. vm_compute. reflexivity. Qed.

(** A writer and a reader of /queues/log in the small system; a message is on its way. *)
Definition s0 : sys := mkSys Demo.k3 (KeyedStore.new 4) [] (fun _ => []) (fun _ => []).

Definition opens (σ : sys) (name : string) (mode : Z) : sys :=
  match doOpen 4 (14, 14) (queues σ) name mode with
  | Some (s, Some f) => mkSys (kern σ) s ((of_cstr (Some name), f) :: files σ) (sent σ) (received σ)
  | _ => σ
  end.

Lemma queue_opens_reachable σ name mode : reachable 4 σ -> Z.of_nat (length (files σ)) + 1 < 2 ^ 32 -> one_end mode -> reachable 4 (opens σ name mode).
Proof.
  intros Hr Hlen Hm. unfold opens. destruct (doOpen 4 (14, 14) (queues σ) name mode) as [[s [f|]]|] eqn:E; [|done|done].
  eapply r_step; [done|]. by eapply s_open.
Qed.

Definition s2 : sys := opens (opens s0 "log" FILE_OPEN_WRITE) "log" FILE_OPEN_READ.

Definition the_reader : file := mkFile 0 true true.
Definition the_writer : file := mkFile 0 false true.
Definition log : kstring := of_cstr (Some "log").

Definition writes (σ : sys) (f : file) (src : list Z) (t : Z) : sys :=
  match x ← objs (queues σ) !! f_buffer f; r ← fileWrite (kern σ) (buffer x) f src t;
        p ← Kernel.Kernel.procs (kern σ) !! Kernel.Kernel.gCurrentProcess (kern σ); Some (x, r, p) with
  | Some (x, (_, q, k'), p) =>
      mkSys k' (set_obj (queues σ) (f_buffer f) (mkNamedQueue (mName x) q)) (files σ)
        (if taken (buffer x) f src then more (sent σ) (f_buffer f) (mkMessage (Kernel.Proc.pid p) t (length src) src) else sent σ) (received σ)
  | None => σ
  end.

Lemma writes_reachable σ k f src t : reachable 4 σ -> (k, f) ∈ files σ -> reachable 4 (writes σ f src t).
Proof.
  intros Hr Hf. unfold writes. destruct (objs (queues σ) !! f_buffer f) as [x|] eqn:Hx; cbn [mbind option_bind]; [|done].
  destruct (fileWrite (kern σ) (buffer x) f src t) as [[[r q] k']|] eqn:E; cbn [mbind option_bind]; [|done].
  destruct (Kernel.Kernel.procs (kern σ) !! Kernel.Kernel.gCurrentProcess (kern σ)) as [p|] eqn:Hp; cbn [mbind option_bind]; [|done].
  eapply r_step; [done|]. by eapply s_write.
Qed.

Definition s3 : sys := writes s2 the_writer [104; 105] 77.

Lemma queues_deliver_in_order_witness :
  files s3 = [(log, the_reader); (log, the_writer)] /\ payload <$> sent s3 0 = [[104; 105]] /\
  (exists l, sent s3 0 = received s3 0 ++ l) /\ exists s, doClose 4 (queues s3) the_writer = Some (s, false).
Proof.
  assert (Ef : files s3 = [(log, the_reader); (log, the_writer)]) by (vm_compute; reflexivity).
  assert (Hr : reachable 4 s3).
  { apply (writes_reachable _ log); [|vm_compute; right; left].
    repeat (apply queue_opens_reachable; [|vm_compute; reflexivity|split; vm_compute; tauto]). apply r_init. }
  destruct (queues_deliver_in_order 4 s3 ltac:(lia) Hr) as (H1 & _ & H3).
  split; [exact Ef|]. split; [vm_compute; reflexivity|]. split.
  - destruct (objs (queues s3) !! 0%nat) as [x|] eqn:Hx; [|vm_compute in Hx; discriminate Hx].
    destruct (H1 0%nat x Hx) as (l & E & _). exists l. exact E.
  - destruct (H3 [(log, the_reader)] log the_writer [] Ef) as (s & b & E & Hb). exists s. destruct b; [|exact E].
    exfalso. apply (proj1 Hb eq_refl the_reader). left.
Defined.
End MsgFsThms.
