(* ===== verification/CallTable.v ===== *)
(** * The table of system calls (kernel/src/syscalls/list.cpp, newlib/syscalls)

    Both sides of the generated interface: the functions that user programs call, which
    put the number of the call and its arguments into registers, and the helpers of the
    kernel, which take the arguments out of the registers and run the handlers.  The
    handlers are a parameter: [CallThms] shows that the way through the stubs, the
    interrupt and the table is transparent, whatever the handlers are. *)

From stdpp Require Import base numbers list gmap option strings.
From Stdlib Require Import ZArith Lia.
From S2P Require Import Prelude Tables Kernel Syscalls ProcessThms.

Local Open Scope Z_scope.

Module CallTable.
Import Abi SyscallManager.

(** The kinds of argument types; [kpid_t] is a [uint16_t], [size_t] and [uintptr_t] are
    32-bit words and [prioritize_target] is an enumeration over [bool]. *)
Inductive ctype := uint8 | uint16 | uint32 | int32 | boolean | pointer.

(** The values of a type *)
Definition has_type (t : ctype) (v : Z) : Prop :=
  match t with
  | uint8 => is_u8 v
  | uint16 => is_u16 v
  | uint32 | pointer => is_u32 v
  | int32 => - 2 ^ 31 <= v < 2 ^ 31
  | boolean => v = 0 \/ v = 1
  end.

#[global] Instance has_type_dec t v : Decision (has_type t v).
Proof. destruct t; unfold has_type; apply _. Defined.

(** A conversion of a register to a type *)
Definition cast (t : ctype) (w : Z) : Z :=
  match t with
  | uint8 => u8 w
  | uint16 => u16 w
  | uint32 | pointer => w
  | int32 => if w <? 2 ^ 31 then w else w - 2 ^ 32
  | boolean => if w =? 0 then 0 else 1
  end.

(** *** The assembly stubs of newlib/syscalls/syscalls.s

    The registers at the interrupt: of the word with the number of the call, [syscall0]
    takes the bytes above the first too, which nobody has set. *)
Definition trap : Type := Z -> GPR -> GPR.

Definition syscall0 (n : Z) : trap := fun junk g => mkGPR (n + 256 * junk) (ebx g) (ecx g) (edx g) (edi g) (esi g).
Definition syscall1 (n a1 : Z) : trap := fun _ g => mkGPR n a1 (ecx g) (edx g) (edi g) (esi g).
Definition syscall2 (n a1 a2 : Z) : trap := fun _ g => mkGPR n a1 a2 (edx g) (edi g) (esi g).
Definition syscall3 (n a1 a2 a3 : Z) : trap := fun _ g => mkGPR n a1 a2 a3 (edi g) (esi g).
Definition syscall4 (n a1 a2 a3 a4 : Z) : trap := fun _ g => mkGPR n a1 a2 a3 a4 (esi g).
Definition syscall5 (n a1 a2 a3 a4 a5 : Z) : trap := fun _ g => mkGPR n a1 a2 a3 a4 a5.

(** [ret] comes after the registers that were pushed are popped again. *)
Definition restore (before after : GPR) : GPR := mkGPR (eax after) (ebx before) (ecx before) (edx before) (edi before) (esi before).

(** The calls with their arguments, as the handlers declare them *)
Inductive call :=
  | yield_syscall
  | sleep_syscall (arg1 : Z)
  | exit_syscall (arg1 : Z)
  | halt_syscall
  | reboot_syscall
  | sysinfo_syscall (arg1 arg2 : Z)
  | getcurdir_syscall (arg1 arg2 : Z)
  | setcurdir_syscall (arg1 : Z)
  | getpid_syscall
  | fopen_syscall (arg1 arg2 : Z)
  | fclose_syscall (arg1 : Z)
  | fdup_syscall (arg1 arg2 : Z)
  | fread_syscall (arg1 arg2 arg3 : Z)
  | exec_syscall (arg1 arg2 arg3 arg4 arg5 : Z)
  | kill_syscall (arg1 : Z)
  | fstat_syscall (arg1 arg2 : Z)
  | fseek_syscall (arg1 arg2 : Z)
  | ftell_syscall (arg1 arg2 : Z)
  | fopendir_syscall (arg1 : Z)
  | freaddir_syscall (arg1 arg2 : Z)
  | getppid_syscall
  | collect_syscall (arg1 arg2 : Z)
  | fioctl_syscall (arg1 arg2 arg3 : Z)
  | fwrite_syscall (arg1 arg2 arg3 : Z)
  | prioritize_syscall (arg1 arg2 arg3 arg4 : Z)
  | mapregion_syscall (arg1 arg2 : Z)
  | unmapregion_syscall (arg1 : Z)
  | setregionperms_syscall (arg1 arg2 : Z)
  | mount_syscall (arg1 arg2 : Z)
  | unmount_syscall (arg1 : Z)
  | collectany_syscall (arg1 arg2 arg3 : Z)
  | clone_syscall (arg1 arg2 : Z)
  | fdel_syscall (arg1 : Z)
  | mkdir_syscall (arg1 : Z)
  | proctable_syscall (arg1 arg2 : Z)
  | vmcheckreadable_syscall (arg1 arg2 : Z)
  | vmcheckwritable_syscall (arg1 arg2 : Z)
  | pipe_syscall (arg1 arg2 : Z)
  | mmap_syscall (arg1 arg2 : Z)
  | wait1_syscall (arg1 arg2 : Z)
  | fsinfo_syscall (arg1 arg2 : Z)
  | checkfeatures_syscall (arg1 : Z).

(** The types of the arguments in the declarations *)
Definition signature (c : call) : list (ctype * Z) :=
  match c with
  | yield_syscall => []
  | sleep_syscall arg1 => [(uint32, arg1)]
  | exit_syscall arg1 => [(uint8, arg1)]
  | halt_syscall => []
  | reboot_syscall => []
  | sysinfo_syscall arg1 arg2 => [(pointer, arg1); (uint32, arg2)]
  | getcurdir_syscall arg1 arg2 => [(pointer, arg1); (pointer, arg2)]
  | setcurdir_syscall arg1 => [(pointer, arg1)]
  | getpid_syscall => []
  | fopen_syscall arg1 arg2 => [(pointer, arg1); (uint32, arg2)]
  | fclose_syscall arg1 => [(uint32, arg1)]
  | fdup_syscall arg1 arg2 => [(uint32, arg1); (uint32, arg2)]
  | fread_syscall arg1 arg2 arg3 => [(uint32, arg1); (uint32, arg2); (uint32, arg3)]
  | exec_syscall arg1 arg2 arg3 arg4 arg5 => [(pointer, arg1); (pointer, arg2); (pointer, arg3); (uint32, arg4); (pointer, arg5)]
  | kill_syscall arg1 => [(uint32, arg1)]
  | fstat_syscall arg1 arg2 => [(uint32, arg1); (uint32, arg2)]
  | fseek_syscall arg1 arg2 => [(uint32, arg1); (uint32, arg2)]
  | ftell_syscall arg1 arg2 => [(uint16, arg1); (pointer, arg2)]
  | fopendir_syscall arg1 => [(uint32, arg1)]
  | freaddir_syscall arg1 arg2 => [(uint16, arg1); (pointer, arg2)]
  | getppid_syscall => []
  | collect_syscall arg1 arg2 => [(uint16, arg1); (pointer, arg2)]
  | fioctl_syscall arg1 arg2 arg3 => [(uint32, arg1); (uint32, arg2); (uint32, arg3)]
  | fwrite_syscall arg1 arg2 arg3 => [(uint32, arg1); (uint32, arg2); (uint32, arg3)]
  | prioritize_syscall arg1 arg2 arg3 arg4 => [(uint16, arg1); (boolean, arg2); (pointer, arg3); (pointer, arg4)]
  | mapregion_syscall arg1 arg2 => [(uint32, arg1); (uint32, arg2)]
  | unmapregion_syscall arg1 => [(uint32, arg1)]
  | setregionperms_syscall arg1 arg2 => [(uint32, arg1); (uint32, arg2)]
  | mount_syscall arg1 arg2 => [(uint32, arg1); (pointer, arg2)]
  | unmount_syscall arg1 => [(pointer, arg1)]
  | collectany_syscall arg1 arg2 arg3 => [(boolean, arg1); (pointer, arg2); (pointer, arg3)]
  | clone_syscall arg1 arg2 => [(uint32, arg1); (pointer, arg2)]
  | fdel_syscall arg1 => [(pointer, arg1)]
  | mkdir_syscall arg1 => [(pointer, arg1)]
  | proctable_syscall arg1 arg2 => [(pointer, arg1); (uint32, arg2)]
  | vmcheckreadable_syscall arg1 arg2 => [(uint32, arg1); (uint32, arg2)]
  | vmcheckwritable_syscall arg1 arg2 => [(uint32, arg1); (uint32, arg2)]
  | pipe_syscall arg1 arg2 => [(pointer, arg1); (pointer, arg2)]
  | mmap_syscall arg1 arg2 => [(uint32, arg1); (int32, arg2)]
  | wait1_syscall arg1 arg2 => [(uint16, arg1); (uint32, arg2)]
  | fsinfo_syscall arg1 arg2 => [(pointer, arg1); (pointer, arg2)]
  | checkfeatures_syscall arg1 => [(pointer, arg1)]
  end.

(** *** User space: newlib/include/syscalls.h and newlib/syscalls/syscalls.cpp *)

Definition yield_syscall_id : Z := 0x1.
Definition sleep_syscall_id : Z := 0x2.
Definition exit_syscall_id : Z := 0x3.
Definition halt_syscall_id : Z := 0x4.
Definition reboot_syscall_id : Z := 0x5.
Definition sysinfo_syscall_id : Z := 0x6.
Definition getcurdir_syscall_id : Z := 0x7.
Definition setcurdir_syscall_id : Z := 0x8.
Definition getpid_syscall_id : Z := 0x9.
Definition fopen_syscall_id : Z := 0xa.
Definition fclose_syscall_id : Z := 0xb.
Definition fdup_syscall_id : Z := 0xc.
Definition fread_syscall_id : Z := 0xd.
Definition exec_syscall_id : Z := 0xe.
Definition kill_syscall_id : Z := 0xf.
Definition fstat_syscall_id : Z := 0x10.
Definition fseek_syscall_id : Z := 0x11.
Definition ftell_syscall_id : Z := 0x12.
Definition fopendir_syscall_id : Z := 0x13.
Definition freaddir_syscall_id : Z := 0x14.
Definition getppid_syscall_id : Z := 0x15.
Definition collect_syscall_id : Z := 0x16.
Definition fioctl_syscall_id : Z := 0x17.
Definition fwrite_syscall_id : Z := 0x18.
Definition prioritize_syscall_id : Z := 0x19.
Definition mapregion_syscall_id : Z := 0x1a.
Definition unmapregion_syscall_id : Z := 0x1b.
Definition setregionperms_syscall_id : Z := 0x1c.
Definition mount_syscall_id : Z := 0x1d.
Definition unmount_syscall_id : Z := 0x1e.
Definition collectany_syscall_id : Z := 0x1f.
Definition clone_syscall_id : Z := 0x20.
Definition fdel_syscall_id : Z := 0x21.
Definition mkdir_syscall_id : Z := 0x22.
Definition proctable_syscall_id : Z := 0x23.
Definition vmcheckreadable_syscall_id : Z := 0x24.
Definition vmcheckwritable_syscall_id : Z := 0x25.
Definition pipe_syscall_id : Z := 0x26.
Definition mmap_syscall_id : Z := 0x27.
Definition wait1_syscall_id : Z := 0x28.
Definition fsinfo_syscall_id : Z := 0x29.
Definition checkfeatures_syscall_id : Z := 0x2a.

Definition stub (c : call) : trap :=
  match c with
  | yield_syscall => syscall0 yield_syscall_id
  | sleep_syscall arg1 => syscall1 sleep_syscall_id (u32 arg1)
  | exit_syscall arg1 => syscall1 exit_syscall_id (u32 arg1)
  | halt_syscall => syscall0 halt_syscall_id
  | reboot_syscall => syscall0 reboot_syscall_id
  | sysinfo_syscall arg1 arg2 => syscall2 sysinfo_syscall_id (u32 arg1) (u32 arg2)
  | getcurdir_syscall arg1 arg2 => syscall2 getcurdir_syscall_id (u32 arg1) (u32 arg2)
  | setcurdir_syscall arg1 => syscall1 setcurdir_syscall_id (u32 arg1)
  | getpid_syscall => syscall0 getpid_syscall_id
  | fopen_syscall arg1 arg2 => syscall2 fopen_syscall_id (u32 arg1) (u32 arg2)
  | fclose_syscall arg1 => syscall1 fclose_syscall_id (u32 arg1)
  | fdup_syscall arg1 arg2 => syscall2 fdup_syscall_id (u32 arg1) (u32 arg2)
  | fread_syscall arg1 arg2 arg3 => syscall3 fread_syscall_id (u32 arg1) (u32 arg2) (u32 arg3)
  | exec_syscall arg1 arg2 arg3 arg4 arg5 => syscall5 exec_syscall_id (u32 arg1) (u32 arg2) (u32 arg3) (u32 arg4) (u32 arg5)
  | kill_syscall arg1 => syscall1 kill_syscall_id (u32 arg1)
  | fstat_syscall arg1 arg2 => syscall2 fstat_syscall_id (u32 arg1) (u32 arg2)
  | fseek_syscall arg1 arg2 => syscall2 fseek_syscall_id (u32 arg1) (u32 arg2)
  | ftell_syscall arg1 arg2 => syscall2 ftell_syscall_id (u32 arg1) (u32 arg2)
  | fopendir_syscall arg1 => syscall1 fopendir_syscall_id (u32 arg1)
  | freaddir_syscall arg1 arg2 => syscall2 freaddir_syscall_id (u32 arg1) (u32 arg2)
  | getppid_syscall => syscall0 getppid_syscall_id
  | collect_syscall arg1 arg2 => syscall2 collect_syscall_id (u32 arg1) (u32 arg2)
  | fioctl_syscall arg1 arg2 arg3 => syscall3 fioctl_syscall_id (u32 arg1) (u32 arg2) (u32 arg3)
  | fwrite_syscall arg1 arg2 arg3 => syscall3 fwrite_syscall_id (u32 arg1) (u32 arg2) (u32 arg3)
  | prioritize_syscall arg1 arg2 arg3 arg4 => syscall4 prioritize_syscall_id (u32 arg1) (u32 arg2) (u32 arg3) (u32 arg4)
  | mapregion_syscall arg1 arg2 => syscall2 mapregion_syscall_id (u32 arg1) (u32 arg2)
  | unmapregion_syscall arg1 => syscall1 unmapregion_syscall_id (u32 arg1)
  | setregionperms_syscall arg1 arg2 => syscall2 setregionperms_syscall_id (u32 arg1) (u32 arg2)
  | mount_syscall arg1 arg2 => syscall2 mount_syscall_id (u32 arg1) (u32 arg2)
  | unmount_syscall arg1 => syscall1 unmount_syscall_id (u32 arg1)
  | collectany_syscall arg1 arg2 arg3 => syscall3 collectany_syscall_id (u32 arg1) (u32 arg2) (u32 arg3)
  | clone_syscall arg1 arg2 => syscall2 clone_syscall_id (u32 arg1) (u32 arg2)
  | fdel_syscall arg1 => syscall1 fdel_syscall_id (u32 arg1)
  | mkdir_syscall arg1 => syscall1 mkdir_syscall_id (u32 arg1)
  | proctable_syscall arg1 arg2 => syscall2 proctable_syscall_id (u32 arg1) (u32 arg2)
  | vmcheckreadable_syscall arg1 arg2 => syscall2 vmcheckreadable_syscall_id (u32 arg1) (u32 arg2)
  | vmcheckwritable_syscall arg1 arg2 => syscall2 vmcheckwritable_syscall_id (u32 arg1) (u32 arg2)
  | pipe_syscall arg1 arg2 => syscall2 pipe_syscall_id (u32 arg1) (u32 arg2)
  | mmap_syscall arg1 arg2 => syscall2 mmap_syscall_id (u32 arg1) (u32 arg2)
  | wait1_syscall arg1 arg2 => syscall2 wait1_syscall_id (u32 arg1) (u32 arg2)
  | fsinfo_syscall arg1 arg2 => syscall2 fsinfo_syscall_id (u32 arg1) (u32 arg2)
  | checkfeatures_syscall arg1 => syscall1 checkfeatures_syscall_id (u32 arg1)
  end.

(** *** The kernel: src/syscalls/list.cpp *)

Section Kernel.
Context {S : Type} (is_system due_for_reschedule : S -> bool).

(** The handlers of src/syscalls/impl; [None] is a panic *)
Context (handler : call -> S -> option (Z * S)).

Abbreviation Helper := (Request -> S -> option (Z * Request * S)).
Abbreviation Table := (list (@syscall_handler_info_t S)).

(** A helper leaves the request as it is. *)
Definition serve (req : Request) (c : call) (s : S) : option (Z * Request * S) := '(r, s) ← handler c s; Some (r, req, s).

Definition yield_syscall_helper : Helper := fun req => serve req (yield_syscall).
Definition sleep_syscall_helper : Helper := fun req => serve req (sleep_syscall (cast uint32 (arg1 req))).
Definition exit_syscall_helper : Helper := fun req => serve req (exit_syscall (cast uint8 (arg1 req))).
Definition halt_syscall_helper : Helper := fun req => serve req (halt_syscall).
Definition reboot_syscall_helper : Helper := fun req => serve req (reboot_syscall).
Definition sysinfo_syscall_helper : Helper := fun req => serve req (sysinfo_syscall (cast pointer (arg1 req)) (cast uint32 (arg2 req))).
Definition getcurdir_syscall_helper : Helper := fun req => serve req (getcurdir_syscall (cast pointer (arg1 req)) (cast pointer (arg2 req))).
Definition setcurdir_syscall_helper : Helper := fun req => serve req (setcurdir_syscall (cast pointer (arg1 req))).
Definition getpid_syscall_helper : Helper := fun req => serve req (getpid_syscall).
Definition fopen_syscall_helper : Helper := fun req => serve req (fopen_syscall (cast pointer (arg1 req)) (cast uint32 (arg2 req))).
Definition fclose_syscall_helper : Helper := fun req => serve req (fclose_syscall (cast uint32 (arg1 req))).
Definition fdup_syscall_helper : Helper := fun req => serve req (fdup_syscall (cast uint32 (arg1 req)) (cast uint32 (arg2 req))).
Definition fread_syscall_helper : Helper := fun req => serve req (fread_syscall (cast uint32 (arg1 req)) (cast uint32 (arg2 req)) (cast uint32 (arg3 req))).
Definition exec_syscall_helper : Helper := fun req => serve req (exec_syscall (cast pointer (arg1 req)) (cast pointer (arg2 req)) (cast pointer (arg3 req)) (cast uint32 (arg4 req)) (cast pointer (arg5 req))).
Definition kill_syscall_helper : Helper := fun req => serve req (kill_syscall (cast uint32 (arg1 req))).
Definition fstat_syscall_helper : Helper := fun req => serve req (fstat_syscall (cast uint32 (arg1 req)) (cast uint32 (arg2 req))).
Definition fseek_syscall_helper : Helper := fun req => serve req (fseek_syscall (cast uint32 (arg1 req)) (cast uint32 (arg2 req))).
Definition ftell_syscall_helper : Helper := fun req => serve req (ftell_syscall (cast uint16 (arg1 req)) (cast pointer (arg2 req))).
Definition fopendir_syscall_helper : Helper := fun req => serve req (fopendir_syscall (cast uint32 (arg1 req))).
Definition freaddir_syscall_helper : Helper := fun req => serve req (freaddir_syscall (cast uint16 (arg1 req)) (cast pointer (arg2 req))).
Definition getppid_syscall_helper : Helper := fun req => serve req (getppid_syscall).
Definition collect_syscall_helper : Helper := fun req => serve req (collect_syscall (cast uint16 (arg1 req)) (cast pointer (arg2 req))).
Definition fioctl_syscall_helper : Helper := fun req => serve req (fioctl_syscall (cast uint32 (arg1 req)) (cast uint32 (arg2 req)) (cast uint32 (arg3 req))).
Definition fwrite_syscall_helper : Helper := fun req => serve req (fwrite_syscall (cast uint32 (arg1 req)) (cast uint32 (arg2 req)) (cast uint32 (arg3 req))).
Definition prioritize_syscall_helper : Helper := fun req => serve req (prioritize_syscall (cast uint16 (arg1 req)) (cast boolean (arg2 req)) (cast pointer (arg3 req)) (cast pointer (arg4 req))).
Definition mapregion_syscall_helper : Helper := fun req => serve req (mapregion_syscall (cast uint32 (arg1 req)) (cast uint32 (arg2 req))).
Definition unmapregion_syscall_helper : Helper := fun req => serve req (unmapregion_syscall (cast uint32 (arg1 req))).
Definition setregionperms_syscall_helper : Helper := fun req => serve req (setregionperms_syscall (cast uint32 (arg1 req)) (cast uint32 (arg2 req))).
Definition mount_syscall_helper : Helper := fun req => serve req (mount_syscall (cast uint32 (arg1 req)) (cast pointer (arg2 req))).
Definition unmount_syscall_helper : Helper := fun req => serve req (unmount_syscall (cast pointer (arg1 req))).
Definition collectany_syscall_helper : Helper := fun req => serve req (collectany_syscall (cast boolean (arg1 req)) (cast pointer (arg2 req)) (cast pointer (arg3 req))).
Definition clone_syscall_helper : Helper := fun req => serve req (clone_syscall (cast uint32 (arg1 req)) (cast pointer (arg2 req))).
Definition fdel_syscall_helper : Helper := fun req => serve req (fdel_syscall (cast pointer (arg1 req))).
Definition mkdir_syscall_helper : Helper := fun req => serve req (mkdir_syscall (cast pointer (arg1 req))).
Definition proctable_syscall_helper : Helper := fun req => serve req (proctable_syscall (cast pointer (arg1 req)) (cast uint32 (arg2 req))).
Definition vmcheckreadable_syscall_helper : Helper := fun req => serve req (vmcheckreadable_syscall (cast uint32 (arg1 req)) (cast uint32 (arg2 req))).
Definition vmcheckwritable_syscall_helper : Helper := fun req => serve req (vmcheckwritable_syscall (cast uint32 (arg1 req)) (cast uint32 (arg2 req))).
Definition pipe_syscall_helper : Helper := fun req => serve req (pipe_syscall (cast pointer (arg1 req)) (cast pointer (arg2 req))).
Definition mmap_syscall_helper : Helper := fun req => serve req (mmap_syscall (cast uint32 (arg1 req)) (cast int32 (arg2 req))).
Definition wait1_syscall_helper : Helper := fun req => serve req (wait1_syscall (cast uint16 (arg1 req)) (cast uint32 (arg2 req))).
Definition fsinfo_syscall_helper : Helper := fun req => serve req (fsinfo_syscall (cast pointer (arg1 req)) (cast pointer (arg2 req))).
Definition checkfeatures_syscall_helper : Helper := fun req => serve req (checkfeatures_syscall (cast pointer (arg1 req))).

Definition sethandlers (gHandlers : Table) : Table :=
  let gHandlers := handle gHandlers 1 yield_syscall_helper false in
  let gHandlers := handle gHandlers 2 sleep_syscall_helper false in
  let gHandlers := handle gHandlers 3 exit_syscall_helper false in
  let gHandlers := handle gHandlers 4 halt_syscall_helper false in
  let gHandlers := handle gHandlers 5 reboot_syscall_helper false in
  let gHandlers := handle gHandlers 6 sysinfo_syscall_helper false in
  let gHandlers := handle gHandlers 7 getcurdir_syscall_helper false in
  let gHandlers := handle gHandlers 8 setcurdir_syscall_helper false in
  let gHandlers := handle gHandlers 9 getpid_syscall_helper false in
  let gHandlers := handle gHandlers 10 fopen_syscall_helper false in
  let gHandlers := handle gHandlers 11 fclose_syscall_helper false in
  let gHandlers := handle gHandlers 12 fdup_syscall_helper false in
  let gHandlers := handle gHandlers 13 fread_syscall_helper false in
  let gHandlers := handle gHandlers 14 exec_syscall_helper false in
  let gHandlers := handle gHandlers 15 kill_syscall_helper false in
  let gHandlers := handle gHandlers 16 fstat_syscall_helper false in
  let gHandlers := handle gHandlers 17 fseek_syscall_helper false in
  let gHandlers := handle gHandlers 18 ftell_syscall_helper false in
  let gHandlers := handle gHandlers 19 fopendir_syscall_helper false in
  let gHandlers := handle gHandlers 20 freaddir_syscall_helper false in
  let gHandlers := handle gHandlers 21 getppid_syscall_helper false in
  let gHandlers := handle gHandlers 22 collect_syscall_helper false in
  let gHandlers := handle gHandlers 23 fioctl_syscall_helper false in
  let gHandlers := handle gHandlers 24 fwrite_syscall_helper false in
  let gHandlers := handle gHandlers 25 prioritize_syscall_helper false in
  let gHandlers := handle gHandlers 26 mapregion_syscall_helper false in
  let gHandlers := handle gHandlers 27 unmapregion_syscall_helper false in
  let gHandlers := handle gHandlers 28 setregionperms_syscall_helper false in
  let gHandlers := handle gHandlers 29 mount_syscall_helper false in
  let gHandlers := handle gHandlers 30 unmount_syscall_helper false in
  let gHandlers := handle gHandlers 31 collectany_syscall_helper false in
  let gHandlers := handle gHandlers 32 clone_syscall_helper false in
  let gHandlers := handle gHandlers 33 fdel_syscall_helper false in
  let gHandlers := handle gHandlers 34 mkdir_syscall_helper false in
  let gHandlers := handle gHandlers 35 proctable_syscall_helper false in
  let gHandlers := handle gHandlers 36 vmcheckreadable_syscall_helper false in
  let gHandlers := handle gHandlers 37 vmcheckwritable_syscall_helper false in
  let gHandlers := handle gHandlers 38 pipe_syscall_helper false in
  let gHandlers := handle gHandlers 39 mmap_syscall_helper false in
  let gHandlers := handle gHandlers 40 wait1_syscall_helper false in
  let gHandlers := handle gHandlers 41 fsinfo_syscall_helper false in
  let gHandlers := handle gHandlers 42 checkfeatures_syscall_helper false in
  gHandlers.

(** A call of a user program: the stub, the interrupt, and back *)
Definition user_call (gHandlers : Table) (c : call) (junk : Z) (g : GPR) (st : InterruptStack) (s : S)
    : option (Z * GPR * InterruptStack * Table * S) :=
  '(irq, g', st, gHandlers, s) ← syscall_irq_handler is_system due_for_reschedule gHandlers (stub c junk g) st s;
  Some (irq, restore g g', st, gHandlers, s).

End Kernel.
End CallTable.

Module CallThms.
Import Abi SyscallManager CallTable.

(** ** Arguments through registers *)

(** The word of a value, converted back, is the value. *)
Lemma cast_word t v : has_type t v -> cast t (u32 v) = v.
Proof.
  destruct t; cbn; unfold u8, u16, u32, wrap, is_u; intros H.
  - rewrite (Z.mod_small v) by lia. by apply Z.mod_small.
  - rewrite (Z.mod_small v) by lia. by apply Z.mod_small.
  - by apply Z.mod_small.
  - destruct (Z.ltb_spec (v mod 2 ^ 32) (2 ^ 31)); destruct (Z.leb_spec 0 v).
    + apply Z.mod_small. lia.
    + rewrite <- (Z.mod_add v 1), Z.mod_small in * by lia. lia.
    + rewrite Z.mod_small in * by lia. lia.
    + rewrite <- (Z.mod_add v 1) by lia. rewrite Z.mod_small by lia. lia.
  - by destruct H as [->| ->].
  - by apply Z.mod_small.
Qed.

Definition well_typed (c : call) : Prop := Forall (fun a => has_type a.1 a.2) (signature c).

#[global] Instance well_typed_dec c : Decision (well_typed c).
Proof. unfold well_typed. apply _. Defined.

(** The number of a call: what its stub puts into the first byte of [eax] *)
Definition number (c : call) : Z := eax (stub c 0 (mkGPR 0 0 0 0 0 0)).

Lemma low_byte n junk : 0 <= n < 256 -> Z.land (n + 256 * junk) 0xFF = n.
Proof.
  intros Hn. change 0xFF with (Z.ones 8). rewrite Z.land_ones by lia. change (2 ^ 8) with 256.
  rewrite Z.mul_comm, Z.mod_add by lia. by apply Z.mod_small.
Qed.

Lemma stub_number c junk g st : code (request (stub c junk g) st) = number c.
Proof. destruct c; try reflexivity; cbn [request code stub syscall0 eax]; unfold number; cbn [stub syscall0 eax]; by rewrite !low_byte. Qed.

Lemma restore_stub c junk g v : restore g (set_eax v (stub c junk g)) = set_eax v g.
Proof. by destruct c, g. Qed.

Section Thms.
Context {S : Type} (is_system due_for_reschedule : S -> bool) (handler : call -> S -> option (Z * S)).

Abbreviation Table := (list (@syscall_handler_info_t S)).
Abbreviation installed := (sethandlers handler new).

(** ** The table *)

Definition helpers : list (Request -> S -> option (Z * Request * S)) :=
  [yield_syscall_helper handler; sleep_syscall_helper handler; exit_syscall_helper handler; halt_syscall_helper handler;
   reboot_syscall_helper handler; sysinfo_syscall_helper handler; getcurdir_syscall_helper handler; setcurdir_syscall_helper handler;
   getpid_syscall_helper handler; fopen_syscall_helper handler; fclose_syscall_helper handler; fdup_syscall_helper handler;
   fread_syscall_helper handler; exec_syscall_helper handler; kill_syscall_helper handler; fstat_syscall_helper handler;
   fseek_syscall_helper handler; ftell_syscall_helper handler; fopendir_syscall_helper handler; freaddir_syscall_helper handler;
   getppid_syscall_helper handler; collect_syscall_helper handler; fioctl_syscall_helper handler; fwrite_syscall_helper handler;
   prioritize_syscall_helper handler; mapregion_syscall_helper handler; unmapregion_syscall_helper handler; setregionperms_syscall_helper handler;
   mount_syscall_helper handler; unmount_syscall_helper handler; collectany_syscall_helper handler; clone_syscall_helper handler;
   fdel_syscall_helper handler; mkdir_syscall_helper handler; proctable_syscall_helper handler; vmcheckreadable_syscall_helper handler;
   vmcheckwritable_syscall_helper handler; pipe_syscall_helper handler; mmap_syscall_helper handler; wait1_syscall_helper handler;
   fsinfo_syscall_helper handler; checkfeatures_syscall_helper handler].

(** [handle] for the numbers from [n] on *)
Fixpoint handle_from (n : nat) (l : list (Request -> S -> option (Z * Request * S))) (t : Table) : Table :=
  match l with
  | [] => t
  | h :: l => handle_from (Datatypes.S n) l (handle t (Z.of_nat n) h false)
  end.

Lemma sethandlers_helpers t : sethandlers handler t = handle_from 1 helpers t.
Proof. reflexivity. Qed.

Lemma handle_from_lookup l : forall n t i, length t = 256%nat -> (n + length l <= 256)%nat -> (i < 256)%nat ->
  handle_from n l t !! i = if decide (n <= i < n + length l)%nat then (fun h => reset h false) <$> l !! (i - n)%nat else t !! i.
Proof.
  induction l as [|h l IH]; intros n t i Ht Hn Hi; cbn [length handle_from] in *.
  { by rewrite decide_False by lia. }
  unfold handle, u8, wrap. rewrite IH by (rewrite ?length_insert; lia). rewrite Z.mod_small, Nat2Z.id by lia.
  destruct (decide (i = n)) as [->|Hne].
  - rewrite decide_False, decide_True by lia. rewrite Nat.sub_diag, list_lookup_insert_eq by lia. done.
  - rewrite list_lookup_insert_ne by done. destruct (decide (Datatypes.S n <= i < Datatypes.S n + length l)%nat).
    + rewrite decide_True by lia. by replace (i - n)%nat with (Datatypes.S (i - Datatypes.S n)) by lia.
    + by rewrite decide_False by lia.
Qed.

Lemma installed_lookup i : (i < 256)%nat ->
  installed !! i = Some (match helpers !! (i - 1)%nat with Some h => if (i =? 0)%nat then no_handler else reset h false | None => no_handler end).
Proof.
  intros Hi. rewrite sethandlers_helpers, handle_from_lookup; [|apply length_replicate|cbn [length helpers]; lia|done].
  case_decide as Hd.
  - destruct (lookup_lt_is_Some_2 helpers (i - 1)) as [h ->]; [lia|]. cbn. by rewrite (proj2 (Nat.eqb_neq _ _)) by lia.
  - unfold new. rewrite lookup_replicate_2 by done. destruct (Nat.eqb_spec i 0) as [->|Hne]; [done|].
    by rewrite (lookup_ge_None_2 helpers) by (cbn [length helpers] in *; lia).
Qed.

(** The helper at the number of a call runs its handler on its arguments. *)
Lemma helper_at c : exists h, helpers !! (Z.to_nat (number c) - 1)%nat = Some h /\
  (well_typed c -> forall junk g st s, h (request (stub c junk g) st) s = serve handler (request (stub c junk g) st) c s).
Proof.
  destruct c; eexists; (split; [reflexivity|]); intros Hw junk g st s; unfold well_typed in Hw; cbn [signature] in Hw;
    decompose_Forall_hyps; lazymatch goal with |- ?h _ _ _ _ = _ => unfold h end;
    cbn [request stub syscall0 syscall1 syscall2 syscall3 syscall4 syscall5 arg1 arg2 arg3 arg4 arg5 ebx ecx edx edi esi];
    rewrite ?cast_word by assumption; reflexivity.
Qed.

Lemma number_range c : 1 <= number c <= 42.
Proof. destruct c; vm_compute; split; discriminate. Qed.

(** ** Calls *)

Definition times (n : nat) (l : list call) : Z := Z.of_nat (length (filter (fun c => Z.to_nat (number c) = n) l)).

(** The table after some calls: only the counters have changed. *)
Definition table_after (l : list call) : Table :=
  imap (fun n i => mkInfo (impl i) (system i) (u64 (times n l)) 0) installed.

(** What the program sees: the result in [eax], or success when the call is to yield, and
    the other registers as they were *)
Definition answer (r : Z) (g : GPR) (s : S) : Z * GPR :=
  if r =? ACT_YIELD then (IRQ_RESPONSE_YIELD, set_eax SYSCALL_SUCCESS g)
  else (if due_for_reschedule s then IRQ_RESPONSE_YIELD else IRQ_RESPONSE_NONE, set_eax r g).

(** Calls one after the other: through the table, and directly *)
Fixpoint user_calls (t : Table) (l : list (call * (Z * GPR * InterruptStack))) (s : S)
    : option (list (Z * GPR * InterruptStack) * Table * S) :=
  match l with
  | [] => Some ([], t, s)
  | (c, (junk, g, st)) :: l =>
      '(irq, g, st, t, s) ← user_call is_system due_for_reschedule t c junk g st s;
      '(rs, t, s) ← user_calls t l s;
      Some ((irq, g, st) :: rs, t, s)
  end.

Fixpoint direct_calls (l : list (call * (Z * GPR * InterruptStack))) (s : S) : option (list (Z * GPR * InterruptStack) * S) :=
  match l with
  | [] => Some ([], s)
  | (c, (junk, g, st)) :: l =>
      '(r, s) ← handler c s;
      let a := answer r g s in
      '(rs, s) ← direct_calls l s;
      Some ((a, st) :: rs, s)
  end.

Lemma table_after_nil : table_after [] = installed.
Proof.
  apply list_eq. intros i. unfold table_after. rewrite list_lookup_imap.
  destruct (decide (i < 256)%nat) as [Hi|Hi].
  - rewrite (installed_lookup i Hi). cbn [fmap option_fmap option_map]. f_equal. by destruct (helpers !! _); [destruct (_ =? _)%nat|].
  - rewrite sethandlers_helpers. assert (Hl : forall l n t, length (handle_from n l t) = length t).
    { induction l as [|h l IH]; intros n t; [done|]. cbn. rewrite IH. apply length_insert. }
    rewrite lookup_ge_None_2; [done|]. rewrite Hl. unfold new. rewrite length_replicate. lia.
Qed.

Lemma table_after_lookup l i : (i < 256)%nat ->
  table_after l !! i = (fun j => mkInfo (impl j) (system j) (u64 (times i l)) 0) <$> installed !! i.
Proof. intros Hi. unfold table_after. by rewrite list_lookup_imap. Qed.

(** One more call to count *)
Lemma table_after_snoc l c h : installed !! Z.to_nat (number c) = Some (reset h false) ->
  <[Z.to_nat (number c) := mkInfo (Some h) false (u64 (u64 (times (Z.to_nat (number c)) l) + 1)) 0]> (table_after l) = table_after (l ++ [c]).
Proof.
  intros Hc. assert (Hlen : (Z.to_nat (number c) < length (table_after l))%nat).
  { unfold table_after. rewrite length_imap. by eapply lookup_lt_Some. }
  apply list_eq. intros i. unfold table_after in *. destruct (decide (Z.to_nat (number c) = i)) as [<-|Hne].
  - rewrite list_lookup_insert_eq by done. rewrite list_lookup_imap, Hc. cbn. do 2 f_equal. unfold times.
    rewrite list.filter_app, length_app. rewrite (list.filter_cons_True _ c) by done. cbn. unfold u64, wrap.
    rewrite Zplus_mod_idemp_l. f_equal. lia.
  - rewrite list_lookup_insert_ne by done. rewrite !list_lookup_imap. destruct (installed !! i); [|done]. cbn. do 3 f_equal.
    unfold times. rewrite list.filter_app, length_app. rewrite (list.filter_cons_False _ c) by done. cbn. lia.
Qed.

Lemma respond_answer r g s : respond due_for_reschedule (set_eax r g) s = answer r g s.
Proof. unfold respond, answer. cbn. destruct (_ =? _); [done|]. by destruct (due_for_reschedule s). Qed.

Lemma user_call_spec l c junk g st s : well_typed c ->
  user_call is_system due_for_reschedule (table_after l) c junk g st s =
    ('(r, s) ← handler c s; Some (answer r g s, st, table_after (l ++ [c]), s)).
Proof.
  intros Hw. destruct (helper_at c) as (h & Hh & Hs). pose proof (number_range c) as Hn.
  assert (Hc : installed !! Z.to_nat (number c) = Some (reset h false)).
  { rewrite installed_lookup, Hh by lia. by rewrite (proj2 (Nat.eqb_neq _ _)) by lia. }
  unfold user_call, syscall_irq_handler. rewrite stub_number, table_after_lookup, Hc by lia.
  cbn [fmap option_fmap option_map mbind option_bind impl system reset numCalls numInsecureCalls andb].
  rewrite (Hs Hw). unfold serve. destruct (handler c s) as [[r s']|]; [|done]. cbn [mbind option_bind].
  rewrite respond_answer. rewrite (table_after_snoc l c h Hc). unfold answer.
  destruct st. by destruct (r =? ACT_YIELD); [|destruct (due_for_reschedule s')]; cbn [mbind option_bind]; rewrite restore_stub.
Qed.

Lemma user_calls_spec l : forall l0 s, Forall (fun c => well_typed c.1) l ->
  user_calls (table_after l0) l s = ('(rs, s) ← direct_calls l s; Some (rs, table_after (l0 ++ l.*1), s)).
Proof.
  induction l as [|[c [[junk g] st]] l IH]; intros l0 s Hl.
  { cbn. by rewrite app_nil_r. }
  apply Forall_cons_1 in Hl as [Hc Hl]. cbn [fst] in Hc. cbn [user_calls direct_calls]. rewrite (user_call_spec _ _ _ _ _ _ Hc).
  destruct (handler c s) as [[r s']|]; [|done]. cbn [mbind option_bind].
  destruct (answer r g s') as [irq g'] eqn:Ea. rewrite (IH _ s' Hl). destruct (direct_calls l s') as [[rs s2]|]; [|done].
  cbn [mbind option_bind fmap list_fmap fst]. by rewrite <- app_assoc.
Qed.

Lemma unknown_code_spec l g st s : ~ 1 <= Z.land (eax g) 0xFF <= 42 ->
  syscall_irq_handler is_system due_for_reschedule (table_after l) g st s =
    Some (answer (ERR NO_SUCH_SYSCALL) g s, st, table_after l, s).
Proof.
  intros Hno. unfold syscall_irq_handler. set (n := code (request g st)).
  assert (Hn : 0 <= n < 256) by (unfold n; cbn; change 0xFF with (Z.ones 8); rewrite Z.land_ones by lia; by apply Z.mod_pos_bound).
  rewrite table_after_lookup, installed_lookup by lia. cbn [fmap option_fmap option_map mbind option_bind].
  assert (Hi : match helpers !! (Z.to_nat n - 1)%nat with Some h => if (Z.to_nat n =? 0)%nat then no_handler else reset h false | None => no_handler end = no_handler).
  { destruct (Nat.eqb_spec (Z.to_nat n) 0); [by destruct (helpers !! _)|]. rewrite lookup_ge_None_2; [done|].
    assert (42 < n) by (unfold n in *; cbn in *; lia). cbn [length helpers]. lia. }
  rewrite Hi. cbn [impl no_handler]. rewrite respond_answer. by destruct (answer _ g s).
Qed.

(** C33: The way through a stub, the interrupt, the table and a helper is transparent: after the
    table is installed, any sequence of well-typed calls of user programs has the same effect
    and the same results as running the handlers directly, on the arguments the programs
    gave; every register but [eax] and the interrupt frame come back as they were, whatever
    was in the unset bytes, and each call is counted at its number only.  After any such
    sequence a number that is not in the table is refused and changes nothing. *)
Theorem calls_are_transparent (l : list (call * (Z * GPR * InterruptStack))) (s : S) : Forall (fun c => well_typed c.1) l ->
  user_calls (sethandlers handler new) l s = ('(rs, s) ← direct_calls l s; Some (rs, table_after l.*1, s))
  /\ (forall i j, table_after l.*1 !! i = Some j -> numCalls j = u64 (times i l.*1) /\ numInsecureCalls j = 0)
  /\ forall g st s, ~ 1 <= Z.land (eax g) 0xFF <= 42 ->
       syscall_irq_handler is_system due_for_reschedule (table_after l.*1) g st s =
         Some (answer (ERR NO_SUCH_SYSCALL) g s, st, table_after l.*1, s).
Proof.
  intros Hl. split; [|split].
  - rewrite <- table_after_nil. by apply user_calls_spec.
  - intros i j Hj. unfold table_after in Hj. rewrite list_lookup_imap in Hj. by apply fmap_Some in Hj as (? & _ & ->).
  - intros g st s' Hno. by apply unknown_code_spec.
Qed.
End Thms.

(** Some of the handlers in the small process system *)
Definition some_handlers (c : call) (k : Kernel.Kernel.kernel) : option (Z * Kernel.Kernel.kernel) :=
  match c with
  | yield_syscall => Some (ACT_YIELD, k)
  | getpid_syscall => r ← ProcCalls.getpid k; Some (r, k)
  | getppid_syscall => r ← ProcCalls.getppid k; Some (r, k)
  | kill_syscall pid => ProcCalls.kill k 0 (Z.to_nat pid)
  | _ => Some (ERR UNIMPLEMENTED, k)
  end.

Definition some_regs : GPR := mkGPR 1 2 3 4 5 6.
Definition frame : InterruptStack := mkStack 0x202 0x8000.
Definition some_calls : list (call * (Z * GPR * InterruptStack)) :=
  [(yield_syscall, (0xABCDEF, some_regs, frame)); (getppid_syscall, (0, some_regs, frame));
   (mmap_syscall 4096 (-1), (0, some_regs, frame)); (getpid_syscall, (1, some_regs, frame))].

Lemma calls_are_transparent_witness :
  exists k, user_calls (fun _ => false) (fun _ => false) (sethandlers some_handlers new) some_calls Demo.k3
    = Some ([(2, mkGPR 0 2 3 4 5 6, frame); (0, mkGPR 0 2 3 4 5 6, frame);
             (0, mkGPR (ERR UNIMPLEMENTED) 2 3 4 5 6, frame); (0, mkGPR 2 2 3 4 5 6, frame)],
            table_after some_handlers some_calls.*1, k).
Proof.
  destruct (calls_are_transparent (fun _ => false) (fun _ => false) some_handlers some_calls Demo.k3) as [-> _].
  { apply (bool_decide_unpack _). vm_compute. exact I. }
  destruct (direct_calls _ _ some_calls Demo.k3) as [[rs k]|] eqn:E; [|vm_compute in E; discriminate E].
  exists k. cbn [mbind option_bind]. do 3 f_equal. apply (f_equal (fmap fst)) in E. vm_compute in E. injection E as <-. reflexivity.
Defined.
End CallThms.
