(* ===== verification/Mounts.v ===== *)
(** * Mounting (kernel/src/fs/vfs.cpp, kernel/src/fs/fatfs/trymount.cpp,
    kernel/src/fs/bootmount.cpp, kernel/src/syscalls/impl)

    [Fat] recognises FAT volumes and numbers the filesystems on them; [Mounting] mounts
    volumes, by name or as an alias, and has the rest of [VFS]; [MountCalls] has the
    system calls that mount, unmount, ask a filesystem about itself, make a pipe or wait on
    a file.  [MountRuns] are the interleavings of mounts, unmounts, opens, duplications and
    closes; [MountThms] shows that filesystems outlive their open files. *)

From stdpp Require Import base numbers list gmap option strings.
From Stdlib Require Import ZArith Lia Ascii.
From S2P Require Import Prelude Tables Files Syscalls SyscallThms.

Local Open Scope Z_scope.

Module Fat.

(** [gNextId]: the counter is a byte of its own; [None] is the panic. *)
Definition gNextId (gId : Z) : option (Z * Z) := if gId =? 10 then None else Some (gId, u8 (gId + 1)).

(** The signatures of [ebr16_t] and [ebr32_t], which start at byte 36 of sector 0 *)
Definition ebr_offset : nat := 36.
Definition ebr16_signature : nat := 2.
Definition ebr32_signature : nat := 30.

Definition signature (sector0 : list Z) (at_ : nat) : Z := nth (ebr_offset + at_) sector0 0.
Definition fat_signature (b : Z) : bool := (b =? 0x28) || (b =? 0x29).
Definition is_fat (sector0 : list Z) : bool :=
  fat_signature (signature sector0 ebr16_signature) || fat_signature (signature sector0 ebr32_signature).

(** [gKnownFilesystemTypes]: the number, whether it has a name, and whether it is mounted
    by [fatfs_trymount], the only helper there is *)
Definition gKnownFilesystemTypes : list (Z * bool * bool) :=
  [(0x00, true, false); (0x01, true, false); (0x04, true, true); (0x05, true, false); (0x06, true, true); (0x07, true, false);
   (0x0B, true, true); (0x0C, true, true); (0x0E, true, false); (0x0F, true, false); (0x3C, true, false); (0x42, true, false);
   (0x82, true, false); (0x83, true, false); (0x84, true, false); (0x8E, true, false); (0xA8, true, false); (0xAB, true, false);
   (0xAF, true, false); (0xEE, true, false); (0xEF, true, false); (0xFA, true, false); (0xFB, true, false); (0xFC, true, false);
   (0xFF, false, false)].

End Fat.

Module Mounting.
Import FsObject VFS Fat.

(** The mount table, the filesystems and open objects, and the counter of [Fat] *)
Record vstate := mkV { mounts : list mount_t; fsys : state; gId : Z }.

(** A volume: its address, the type of its partition, and what a read of its first sector
    gives *)
Record volume := mkVolume { v_addr : Z; v_sysid : Z; v_sector0 : option (list Z) }.

(** [fatfs_trymount]; [fatfs] is the address of the new filesystem. *)
Definition fatfs_trymount (v : vstate) (vol : volume) (where_ : option string) (fatfs now : Z) : option (bool * vstate) :=
  match v_sector0 vol, where_ with
  | None, _ => Some (false, v)
  | _, None => Some (false, v)
  | Some sector0, Some where_ =>
      if is_fat sector0 then
        '(_, gId) ← gNextId (gId v);
        Some (true, mkV (mount (mounts v) where_ fatfs (v_addr vol) now) (put_fs (fsys v) fatfs (mkFilesystem 1 0)) gId)
      else Some (false, v)
  end.

(** The loop of [doMountVolume]; reading behind the table is [None]. *)
Fixpoint mount_loop (table : list (Z * bool * bool)) (v : vstate) (vol : volume) (where_ : option string) (fatfs now : Z)
    : option (bool * vstate) :=
  match table with
  | [] => None
  | (sysid, named, fmount) :: table =>
      if (sysid =? 0) && negb named && negb fmount then Some (false, v)
      else if (sysid =? v_sysid vol) && fmount then fatfs_trymount v vol where_ fatfs now
      else mount_loop table v vol where_ fatfs now
  end.

Definition doMountVolume (v : vstate) (vol : volume) (where_ : option string) (fatfs now : Z) : option (bool * vstate) :=
  mount_loop gKnownFilesystemTypes v vol where_ fatfs now.

(** [mount(Volume*, where)]: a volume that is mounted already gets an alias. *)
Definition mount_volume (v : vstate) (vol : volume) (where_ : string) (fatfs now : Z) : option (bool * vstate) :=
  previous ← findMountInfo (mounts v) (v_addr vol);
  match previous with
  | Some m =>
      if m_fs m =? 0 then doMountVolume v vol (Some where_) fatfs now
      else
        '(_, st) ← fs_incref (fsys v) (m_fs m);
        Some (true, mkV (mounts v ++ [mkMount where_ now (v_addr vol) (m_fs m)]) st (gId v))
  | None => doMountVolume v vol (Some where_) fatfs now
  end.

Definition unmount (v : vstate) (path : string) : option (bool * vstate) :=
  '(ok, l, st) ← VFS.unmount (mounts v) (fsys v) path; Some (ok, mkV l st (gId v)).

(** The length of the first component *)
Fixpoint first_len (path : string) : nat :=
  match path with
  | EmptyString => 0%nat
  | String c path => if Ascii.eqb c slash then 0%nat else S (first_len path)
  end.

(** [buffer::printf] of ["%.*s"]: a buffer of [size] bytes takes that many but two, since
    the last one is not offered to the formatter, which ends the text inside of the rest *)
Definition print_prefix (size precision : nat) (text : string) : string :=
  String.substring 0 (Nat.min (size - 2) precision) text.

Definition fsForPath (l : list mount_t) (path : option string) : Z :=
  match path with
  | None => 0
  | Some EmptyString => 0
  | Some path =>
      let path_start := skip_slash path in
      let path_len := first_len path_start in
      findfs l (print_prefix (path_len + 2) (path_len + 1) path_start)
  end.

(** [del] and [mkdir]: the method of the filesystem, with the rest of the path, on what is
    stored *)
Definition on_path {W} (l : list mount_t) (method : W -> Z -> string -> bool * W) (w : W) (path : option string) : bool * W :=
  match resolve l path with
  | Some (fs, rest) => method w fs rest
  | None => (false, w)
  end.
Definition del {W} (l : list mount_t) (fs_del : W -> Z -> string -> bool * W) (w : W) (path : option string) : bool * W :=
  on_path l fs_del w path.
Definition mkdir {W} (l : list mount_t) (fs_mkdir : W -> Z -> string -> bool * W) (w : W) (path : option string) : bool * W :=
  on_path l fs_mkdir w path.

(** *** Boot: [boot::vfs::init] and [boot::mount::init] *)

(** [VFS::mount] of a filesystem that has just been made *)
Definition mount_new (v : vstate) (path : string) (fs now : Z) : vstate :=
  mkV (mount (mounts v) path fs 0 now) (put_fs (fsys v) fs (mkFilesystem 1 0)) (gId v).

(** The modules: the filesystem [Initrd::tryget] makes of one, and where it is to go *)
Fixpoint mount_modules (v : vstate) (modules : list (option Z * string)) (now : Z) : vstate * bool :=
  match modules with
  | [] => (v, false)
  | (None, _) :: modules => mount_modules v modules now
  | (Some initrd, args) :: modules =>
      let '(v, _) := mount_modules (mount_new v args initrd now) modules now in (v, true)
  end.

Definition vfs_init (v : vstate) (devfs : Z) (modules : list (option Z * string)) (now : Z) : vstate * Z :=
  let '(v, anyfs) := mount_modules (mount_new v "devices" devfs now) modules now in
  (v, if anyfs : bool then 0 else u32 (-1)).

(** The volumes with their names; the first with the right one that can be mounted *)
Fixpoint mount_main (v : vstate) (path2mainfs : string) (volumes : list (string * volume)) (fatfs now : Z) : option (Z * vstate) :=
  match volumes with
  | [] => Some (1, v)
  | (id, vol) :: volumes =>
      if String.eqb path2mainfs id then
        '(ok, v) ← mount_volume v vol "system" fatfs now;
        if (ok : bool) then Some (0, v) else mount_main v path2mainfs volumes fatfs now
      else mount_main v path2mainfs volumes fatfs now
  end.

End Mounting.

(** ** System calls *)

Module MountCalls.
Import Abi FsObject VFS Mounting FsCalls.

(** The process: its descriptors, and the rest of the file system *)
Record pstate := mkP { p_v : vstate; p_fds : Handletable.table handle }.

(** The check of a mount point that [mount] and [unmount] share *)
Definition mountpoint (path : string) : option string :=
  let path := skip_slash path in
  if String.eqb path "" then None else if contains "/" path then None else Some path.

Definition fds_is (s : pstate) (fid : Z) : option (option handle) :=
  @descriptor unit (mkF (fsys (p_v s)) (p_fds s) tt) fid.

Definition blockdevice : Z := 2.

(** [get_volume]: the ioctl of the file, 0 when it has no volume *)
Definition mount_syscall_handler (get_volume : Z -> Z) (volume_at : Z -> volume) (s : pstate) (fileid : Z) (path : string) (fatfs now : Z)
    : option (Z * pstate) :=
  match mountpoint path with
  | None => Some (ERR NOT_ALLOWED, s)
  | Some path =>
      file ← fds_is s fileid;
      match file with
      | None => Some (ERR NO_SUCH_DEVICE, s)
      | Some fh =>
          let devfs := findfs (mounts (p_v s)) "devices" in
          if (devfs =? 0) || negb (devfs =? h_filesystem fh) || (h_object fh =? 0) then Some (ERR NO_SUCH_DEVICE, s)
          else
            ob ← objects (fsys (p_v s)) !! h_object fh;
            if negb (mKind ob =? blockdevice) then Some (ERR NO_SUCH_DEVICE, s)
            else
              let vol := get_volume (h_object fh) in
              if vol =? 0 then Some (ERR NO_SUCH_DEVICE, s)
              else
                '(mounted, v) ← mount_volume (p_v s) (volume_at vol) path fatfs now;
                Some (if (mounted : bool) then OK else ERR NO_SUCH_DEVICE, mkP v (p_fds s))
      end
  end.

Definition unmount_syscall_handler (s : pstate) (path : string) : option (Z * pstate) :=
  match mountpoint path with
  | None => Some (ERR NOT_ALLOWED, s)
  | Some path =>
      if findfs (mounts (p_v s)) path =? 0 then Some (ERR NO_SUCH_OBJECT, s)
      else '(done, v) ← unmount (p_v s) path; Some (if (done : bool) then OK else ERR NOT_ALLOWED, mkP v (p_fds s))
  end.

(** [fillInfo]: the filesystem's own answer *)
Definition fsinfo_syscall_handler {Info} (fillInfo : Z -> option Info) (s : pstate) (path : option string) : Z * option Info :=
  let fs := fsForPath (mounts (p_v s)) path in
  if fs =? 0 then (ERR NO_SUCH_OBJECT, None)
  else match fillInfo fs with
       | Some info => (OK, Some info)
       | None => (ERR UNIMPLEMENTED, None)
       end.

Definition fdel_syscall_handler {W} (fs_del : W -> Z -> string -> bool * W) (s : pstate) (w : W) (path : option string) : Z * W :=
  let '(ok, w) := del (mounts (p_v s)) fs_del w path in (if ok : bool then OK else ERR NO_SUCH_FILE, w).
Definition mkdir_syscall_handler {W} (fs_mkdir : W -> Z -> string -> bool * W) (s : pstate) (w : W) (path : option string) : Z * W :=
  let '(ok, w) := mkdir (mounts (p_v s)) fs_mkdir w path in (if ok : bool then OK else ERR NO_SUCH_FILE, w).

(** *** Pipes *)

Definition pipe_kind : Z := 4.

(** [PipeManager::pipe]: two new objects, at the addresses given *)
Definition make_pipe (st : state) (pm reader writer : Z) : option state :=
  let st := put_object (put_object st reader (mkObject 1 pipe_kind)) writer (mkObject 1 pipe_kind) in
  st ← openObject st pm; openObject st pm.

(** The result, the two descriptors, and the process *)
Definition pipe_syscall_handler (s : pstate) (pm reader writer : Z) (read_fd write_fd : nat)
    : option (Z * (nat * nat) * pstate) :=
  st ← make_pipe (fsys (p_v s)) pm reader writer;
  '(r, fds) ← Handletable.set gNumDescriptors (p_fds s) (mkHandle pm reader 0) read_fd;
  '(w, fds) ← Handletable.set gNumDescriptors fds (mkHandle pm writer 0) write_fd;
  let read_fd := default read_fd r in
  let write_fd := default write_fd w in
  let v := p_v s in
  match r, w with
  | Some _, Some _ => Some (OK, (read_fd, write_fd), mkP (mkV (mounts v) st (gId v)) fds)
  | _, _ =>
      st ← close st pm reader;
      st ← close st pm writer;
      Some (ERR NO_SUCH_FILE, (read_fd, write_fd), mkP (mkV (mounts v) st (gId v)) fds)
  end.

(** [wait1]: [wait] is the wait on the object of the file, [None] when it has none. *)
Definition wait1_syscall_handler (wait : Z -> option (Z -> bool)) (s : pstate) (fid timeout : Z) : option Z :=
  file ← fds_is s fid;
  match file with
  | None => Some (ERR NO_SUCH_FILE)
  | Some h =>
      if negb (handle_ok h) then Some (ERR NO_SUCH_FILE)
      else
        ob ← objects (fsys (p_v s)) !! h_object h;
        if isDir (mKind ob) then Some (ERR NO_SUCH_FILE)
        else match wait (h_object h) with
             | None => Some OK
             | Some w => Some (if w timeout then OK else ERR TIMEOUT)
             end
  end.

End MountCalls.

(** ** Any interleaving *)

Module MountRuns.
Import FsObject VFS Mounting MountCalls FsCalls FdSpec.

Section Runs.
(** [gVFSFilesystem] and the manager of pipes, which nobody mounts *)
Context (gVFS pm : Z).

(** The file system, and the handles that somebody holds *)
Record sys := mkSys { v : vstate; handles : list handle }.

Definition keep (h : handle) (l : list handle) : list handle := if handle_ok h then h :: l else l.

Definition with_state (w : vstate) (st : state) : vstate := mkV (mounts w) st (gId w).

(** Nothing is about to overflow. *)
Definition room (σ : sys) : Prop :=
  Z.of_nat (size (objects (fsys (v σ)))) + 2 < 2 ^ 64 /\ Z.of_nat (length (handles σ)) + 64 < UINT32_MAX
  /\ Z.of_nat (length (mounts (v σ))) < 2 ^ 32 - 1.

(** A new object is where none is. *)
Definition new_object (st : state) (found : option (Z * Z)) : Prop :=
  match found with Some (o, _) => o <> 0 /\ objects st !! o = None | None => True end.
Definition new_filesystem (st : state) (fs : Z) : Prop := fs <> 0 /\ filesystems st !! fs = None.

Inductive step : sys -> sys -> Prop :=
  | s_mount σ path fs now : room σ -> new_filesystem (fsys (v σ)) fs ->
      step σ (mkSys (mount_new (v σ) path fs now) (handles σ))
  | s_volume σ vol where_ fatfs now ok v' : room σ -> new_filesystem (fsys (v σ)) fatfs ->
      mount_volume (v σ) vol where_ fatfs now = Some (ok, v') -> step σ (mkSys v' (handles σ))
  | s_unmount σ path ok v' : room σ -> unmount (v σ) path = Some (ok, v') -> step σ (mkSys v' (handles σ))
  | s_open σ path mode found h st : room σ -> new_object (fsys (v σ)) found ->
      vfs_open (mounts (v σ)) (fun _ _ _ _ => found) (fsys (v σ)) path mode = Some (h, st) ->
      step σ (mkSys (with_state (v σ) st) (keep h (handles σ)))
  | s_opendir σ path found h st : room σ -> new_object (fsys (v σ)) found ->
      vfs_opendir (mounts (v σ)) gVFS (fun _ _ _ => found) (fsys (v σ)) path = Some (h, st) ->
      step σ (mkSys (with_state (v σ) st) (keep h (handles σ)))
  | s_pipe σ r w st : room σ -> new_object (fsys (v σ)) (Some (r, 0)) -> new_object (fsys (v σ)) (Some (w, 0)) -> r <> w ->
      make_pipe (fsys (v σ)) pm r w = Some st ->
      step σ (mkSys (with_state (v σ) st) (mkHandle pm w 0 :: mkHandle pm r 0 :: handles σ))
  | s_dup σ h n st : room σ -> h ∈ handles σ -> incref (fsys (v σ)) (h_object h) = Some (n, st) ->
      step σ (mkSys (with_state (v σ) st) (h :: handles σ))
  | s_close σ l1 h l2 st : room σ -> handles σ = l1 ++ h :: l2 -> handle_close (fsys (v σ)) h = Some st ->
      step σ (mkSys (with_state (v σ) st) (l1 ++ l2)).

(** The kernel before anything is mounted *)
Definition initial : sys :=
  mkSys (mkV [] (mkState ∅ (<[pm := mkFilesystem 1 0]> {[gVFS := mkFilesystem 1 0]})) 0) [].

Inductive reachable : sys -> Prop :=
  | r_initial : reachable initial
  | r_step σ σ' : reachable σ -> step σ σ' -> reachable σ'.

(** *** The invariant *)

Context (gVFS_pos : gVFS <> 0) (pm_pos : pm <> 0) (pm_other : pm <> gVFS).

Definition held (l : list handle) (o : Z) : nat := length (filter (fun h => h_object h = o) l).

Definition bare (st : state) : @fstate unit := mkF st (Handletable.new gNumDescriptors) tt.

Definition builtin (fs : Z) : Prop := fs = gVFS \/ fs = pm.

(** [home]: the filesystem an open object belongs to *)
Record minv (home : Z -> Z) (σ : sys) : Prop := {
  mi_counts : inv home (held (handles σ)) (bare (fsys (v σ)));
  mi_home h : h ∈ handles σ -> handle_ok h = true /\ h_filesystem h = home (h_object h);
  mi_mounts : counted (mounts (v σ)) (fsys (v σ));
  mi_alive fs : is_Some (filesystems (fsys (v σ)) !! fs) -> fs <> 0 /\ (builtin fs \/ (0 < served fs (mounts (v σ)))%nat);
  mi_builtin fs : builtin fs -> is_Some (filesystems (fsys (v σ)) !! fs) /\ served fs (mounts (v σ)) = 0%nat;
  mi_volumes m m' : m ∈ mounts (v σ) -> m' ∈ mounts (v σ) -> m_volume m <> 0 -> m_volume m = m_volume m' -> m_fs m = m_fs m' }.

Lemma held_cons h l o : held (h :: l) o = ((if decide (h_object h = o) then 1 else 0) + held l o)%nat.
Proof. unfold held. rewrite filter_cons. by case_decide. Qed.

Lemma held_remove h l1 l2 o : held (l1 ++ h :: l2) o = ((if decide (h_object h = o) then 1 else 0) + held (l1 ++ l2) o)%nat.
Proof. unfold held. rewrite !list.filter_app, !length_app, filter_cons. case_decide; cbn; lia. Qed.

Lemma held_le l o : (held l o <= length l)%nat.
Proof. apply length_filter. Qed.

Lemma bump_held h l o : bump (held l) (h_object h) o = held (h :: l) o.
Proof. rewrite held_cons. unfold bump. repeat case_decide; subst; try done; lia. Qed.

(** The invariant of [FdSpec] looks at the references and the homes of live objects only. *)
Lemma counts_ext home home' others others' st : (forall o, others o = others' o) ->
  (forall o, is_Some (objects st !! o) -> home o = home' o) -> inv home others (bare st) -> inv home' others' (bare st).
Proof.
  intros Ho Hh [I1 I2 I3 I4 I5]. assert (Hl : forall fs, live home st fs = live home' st fs).
  { intros fs. unfold live. f_equal. apply map_filter_ext. intros o ob Hob. cbn. by rewrite (Hh o (mk_is_Some _ _ Hob)). }
  split; cbn [f_st f_fds bare] in *.
  - done.
  - intros i h. by rewrite SampleFds.no_descriptor.
  - intros o. specialize (I3 o). by rewrite <- Ho.
  - intros o ob Hob. rewrite <- (Hh o (mk_is_Some _ _ Hob)). by eapply I4.
  - intros fs f Hf. rewrite <- Hl. by apply I5.
Qed.

Lemma held_live home σ h : minv home σ -> h ∈ handles σ -> is_Some (objects (fsys (v σ)) !! h_object h).
Proof.
  intros I Hh. assert (Hin : h ∈ filter (fun h' => h_object h' = h_object h) (handles σ)) by (by apply list_elem_of_filter).
  assert (Hpos : (0 < held (handles σ) (h_object h))%nat).
  { unfold held. destruct (filter _ (handles σ)); [by apply elem_of_nil in Hin|cbn; lia]. }
  pose proof (i_refs _ _ _ (mi_counts _ _ I) (h_object h)) as Hr. cbn [bare f_st f_fds] in Hr.
  revert Hr. generalize (refs (Handletable.new gNumDescriptors : Handletable.table handle) (h_object h)). intros n Hr.
  destruct (objects (fsys (v σ)) !! h_object h) as [ob|]; [done|lia].
Qed.

(** *** Opening and closing *)

Definition same_refcounts (st st' : state) : Prop :=
  forall x, fsRefcount <$> filesystems st' !! x = fsRefcount <$> filesystems st !! x.

Lemma put_fs_refcounts st fs f n : filesystems st !! fs = Some f -> same_refcounts st (put_fs st fs (mkFilesystem (fsRefcount f) n)).
Proof.
  intros Hf x. cbn [put_fs filesystems]. destruct (decide (fs = x)) as [<-|Hne]; [by rewrite lookup_insert_eq, Hf|by rewrite lookup_insert_ne].
Qed.

Lemma open_refcounts st fs found o st' : open st fs found = Some (o, st') -> same_refcounts st st'.
Proof.
  unfold open, openObject. destruct found as [[o' kind]|]; [|by intros [= _ <-]]. intros E. apply bind_Some in E as (st1 & E & [= _ <-]).
  apply bind_Some in E as (f & Hf & [= <-]). exact (put_fs_refcounts (put_object _ _ _) _ _ _ Hf).
Qed.

Lemma close_refcounts st h st' : handle_close st h = Some st' -> same_refcounts st st'.
Proof.
  unfold handle_close, close, decref, closeObject. destruct (handle_ok h); [|by intros [= <-]]. intros E.
  apply bind_Some in E as ([n st1] & E1 & E). apply bind_Some in E1 as (ob & _ & [= <- <-]). destruct (_ =? 0); [|by injection E as <-].
  apply bind_Some in E as (f & Hf & E). destruct (_ =? 0); [done|]. injection E as <-. exact (put_fs_refcounts (mkState _ _) _ _ _ Hf).
Qed.

(** A step that keeps the mounts *)
Lemma minv_files home home' σ st hs : minv home σ -> inv home' (held hs) (bare st) ->
  (forall h, h ∈ hs -> handle_ok h = true /\ h_filesystem h = home' (h_object h)) -> same_refcounts (fsys (v σ)) st ->
  minv home' (mkSys (with_state (v σ) st) hs).
Proof.
  intros [I1 I2 I3 I4 I5 I6] Hi Hh Hr. assert (Ha : forall x, is_Some (filesystems st !! x) <-> is_Some (filesystems (fsys (v σ)) !! x)).
  { intros x. specialize (Hr x). by rewrite <- (fmap_is_Some fsRefcount), Hr, fmap_is_Some. }
  split; cbn [v handles with_state mounts fsys]; try done.
  - intros fs Hfs. destruct (I3 fs Hfs) as (f & Hf & Hc). specialize (Hr fs). rewrite Hf in Hr.
    apply fmap_Some in Hr as (f' & Hf' & Ef). exists f'. by rewrite <- Ef.
  - intros fs Hfs. apply I4. by apply Ha.
  - intros fs Hfs. rewrite Ha. by apply I5.
Qed.

Lemma open_keeps home σ fs found o st : minv home σ -> is_Some (filesystems (fsys (v σ)) !! fs) -> new_object (fsys (v σ)) found ->
  Z.of_nat (size (objects (fsys (v σ)))) + 1 < 2 ^ 64 -> open (fsys (v σ)) fs found = Some (o, st) ->
  exists home', minv home' (mkSys (with_state (v σ) st) (keep (mkHandle fs o 0) (handles σ)))
    /\ (size (objects st) <= S (size (objects (fsys (v σ)))))%nat.
Proof.
  intros I Hfs Hnew Hsz E. pose proof (open_refcounts _ _ _ _ _ E) as Hr. destruct found as [[o' kind]|].
  2:{ injection E as <- <-. exists home. unfold keep, handle_ok. cbn [h_object h_filesystem]. rewrite andb_false_r. split; [|lia].
      eapply minv_files; [exact I|apply I|apply I|done]. }
  destruct Hnew as [Hpos Hno]. pose (home' x := if decide (x = o') then fs else home x).
  assert (Hh : home' o' = fs) by (unfold home'; by rewrite decide_True).
  assert (Hi : inv home' (held (handles σ)) (bare (fsys (v σ)))).
  { eapply (counts_ext home home'); [done| |apply I]. intros x [ob Hx]. unfold home'. rewrite decide_False; [done|]. intros ->. congruence. }
  destruct (inv_open home' _ _ fs o' kind Hi Hfs Hpos Hno Hh Hsz) as (st1 & E1 & Hi1 & _ & Hs).
  cbn [bare f_st] in E1. rewrite E in E1. injection E1 as -> <-.
  destruct (mi_alive _ _ I fs Hfs) as [Hfs0 _]. exists home'. split; [|done].
  assert (Hk : keep (mkHandle fs o' 0) (handles σ) = mkHandle fs o' 0 :: handles σ).
  { unfold keep, handle_ok. cbn [h_object h_filesystem]. by rewrite (proj2 (Z.eqb_neq fs 0)), (proj2 (Z.eqb_neq o' 0)). }
  rewrite Hk. eapply minv_files; [exact I| | |exact Hr].
  - eapply (counts_ext home' home'); [apply (bump_held (mkHandle fs o' 0))|done|exact Hi1].
  - intros h [->|Hin]%elem_of_cons; cbn [h_object h_filesystem].
    + split; [|by rewrite Hh]. unfold handle_ok. cbn. by rewrite (proj2 (Z.eqb_neq fs 0)), (proj2 (Z.eqb_neq o' 0)).
    + destruct (mi_home _ _ I h Hin) as [Hok Hf]. split; [done|]. rewrite Hf. unfold home'. rewrite decide_False; [done|]. intros Ho.
      destruct (held_live _ _ _ I Hin). congruence.
Qed.

Lemma make_pipe_opens st r w : make_pipe st pm r w =
  ('(_, st) ← open st pm (Some (r, pipe_kind)); '(_, st) ← open st pm (Some (w, pipe_kind)); Some st).
Proof.
  unfold make_pipe, open, openObject. cbn [put_object filesystems]. destruct (filesystems st !! pm) as [f|] eqn:E; [|done].
  cbn [mbind option_bind put_fs put_object filesystems objects]. by rewrite !lookup_insert_eq.
Qed.

Lemma dup_keeps home σ h n st : minv home σ -> room σ -> h ∈ handles σ -> incref (fsys (v σ)) (h_object h) = Some (n, st) ->
  minv home (mkSys (with_state (v σ) st) (h :: handles σ)).
Proof.
  intros I (_ & Hl & _) Hin E. destruct (held_live _ _ _ I Hin) as [ob Hob]. pose proof (held_le (handles σ) (h_object h)).
  destruct (inv_incref home _ (bare (fsys (v σ))) (h_object h) ob (mi_counts _ _ I) Hob ltac:(lia)) as (n' & st' & E' & Hi & _).
  cbn [bare f_st] in E'. rewrite E in E'. injection E' as <- <-. eapply minv_files; [exact I| | |].
  - eapply (counts_ext home home); [apply bump_held|done|exact Hi].
  - intros h' [->|Hin']%elem_of_cons; by apply I.
  - unfold incref in E. rewrite Hob in E. by injection E as _ <-.
Qed.

Lemma close_works home σ l1 h l2 : minv home σ -> room σ -> handles σ = l1 ++ h :: l2 ->
  exists st, handle_close (fsys (v σ)) h = Some st /\ minv home (mkSys (with_state (v σ) st) (l1 ++ l2)).
Proof.
  intros I (Hs & _ & _) Eh. assert (Hin : h ∈ handles σ) by (rewrite Eh; apply elem_of_app; right; by left).
  destruct (mi_home _ _ I h Hin) as [Hok Hf].
  assert (Hi : inv home (bump (held (l1 ++ l2)) (h_object h)) (bare (fsys (v σ)))).
  { eapply (counts_ext home home); [|done|apply I]. intros o. rewrite Eh, held_remove. unfold bump. repeat case_decide; subst; try done; lia. }
  destruct (inv_close home _ _ h Hi Hok Hf ltac:(cbn [bare f_st]; lia)) as (st & E & Hi' & _). exists st. split; [exact E|].
  eapply minv_files; [exact I|exact Hi'| |by eapply close_refcounts].
  intros h' Hh'. apply I. rewrite Eh. apply elem_of_app in Hh' as [?|?]; apply elem_of_app; [by left|right; by right].
Qed.

(** *** Mounting and unmounting *)

Lemma no_live home st fs : (forall o, is_Some (objects st !! o) -> home o <> fs) -> live home st fs = 0%nat.
Proof.
  intros Hno. unfold live. apply map_size_empty_iff, map_eq. intros o. rewrite lookup_empty. apply map_lookup_filter_None.
  right. intros ob Ho. cbn. apply Hno. by eexists.
Qed.

Lemma live_none home st fs : live home st fs = 0%nat -> forall o, is_Some (objects st !! o) -> home o <> fs.
Proof.
  intros Hl o [ob Ho] Hh. apply map_size_empty_inv in Hl. assert (Hin : filter (fun p => home p.1 = fs) (objects st) !! o = Some ob).
  { by apply map_lookup_filter_Some. } rewrite Hl in Hin. by rewrite lookup_empty in Hin.
Qed.

(** Filesystems change while the objects stay. *)
Lemma counts_filesystems home others st fsm : inv home others (bare st) ->
  (forall o, is_Some (objects st !! o) -> is_Some (fsm !! home o)) ->
  (forall fs f, fsm !! fs = Some f -> mOpenObjcts f = Z.of_nat (live home st fs)) -> inv home others (bare (mkState (objects st) fsm)).
Proof. intros [I1 I2 I3 I4 I5] Ha Ho. split; cbn [bare f_st f_fds objects filesystems] in *; try done. intros o ob Hob. apply Ha. by eexists. Qed.

Lemma counts_put_fs home others st fs f n : filesystems st !! fs = Some f -> inv home others (bare st) ->
  inv home others (bare (put_fs st fs (mkFilesystem n (mOpenObjcts f)))).
Proof.
  intros Hf I. apply counts_filesystems; [done| |].
  - intros o [ob Ho]. rewrite lookup_insert_is_Some. destruct (decide (fs = home o)); [by left|right]. split; [done|]. by eapply (i_home _ _ _ I).
  - intros x f'. rewrite lookup_insert_Some. intros [[<- <-]|[_ Hx]]; [apply (i_open _ _ _ I fs f Hf)|by apply (i_open _ _ _ I)].
Qed.

Lemma not_served home σ fs : minv home σ -> filesystems (fsys (v σ)) !! fs = None -> served fs (mounts (v σ)) = 0%nat.
Proof.
  intros I Hn. destruct (decide (0 < served fs (mounts (v σ)))%nat) as [H|H]; [|lia]. destruct (mi_mounts _ _ I fs H) as (f & Hf & _). congruence.
Qed.

Lemma served_elem m l : m ∈ l -> (0 < served (m_fs m) l)%nat.
Proof.
  intros Hin. unfold served. assert (Hm : m ∈ filter (fun m' => m_fs m' = m_fs m) l) by (by apply list_elem_of_filter).
  destruct (filter _ l); [by apply elem_of_nil in Hm|cbn; lia].
Qed.

Lemma mount_fresh home σ path fs vol now g : minv home σ -> new_filesystem (fsys (v σ)) fs ->
  (vol <> 0 -> forall m, m ∈ mounts (v σ) -> m_volume m <> vol) ->
  minv home (mkSys (mkV (mount (mounts (v σ)) path fs vol now) (put_fs (fsys (v σ)) fs (mkFilesystem 1 0)) g) (handles σ)).
Proof.
  intros I [Hpos Hno] Hvol. pose proof (not_served _ _ _ I Hno) as Hz. pose proof I as [I1 I2 I3 I4 I5 I6].
  set (m0 := mkMount (skip_slash path) now vol fs).
  assert (Hs : forall x, served x (mounts (v σ) ++ [m0]) = (served x (mounts (v σ)) + if decide (fs = x) then 1 else 0)%nat).
  { intros x. rewrite served_app, served_cons. cbn. case_decide; lia. }
  split; cbn [v handles mounts fsys]; unfold mount; fold m0; try done.
  - apply counts_filesystems; [done| |].
    + intros o [ob Ho]. rewrite lookup_insert_is_Some. right. pose proof (i_home _ _ _ I1 o ob Ho) as Hh. split; [|done].
      intros Heq. rewrite Heq in Hno. destruct Hh. cbn in *. congruence.
    + intros x f. rewrite lookup_insert_Some. intros [[<- <-]|[_ Hx]]; [|by apply (i_open _ _ _ I1)]. cbn [mOpenObjcts].
      rewrite no_live; [done|]. intros o [ob Ho] Hh. destruct (i_home _ _ _ I1 o ob Ho) as [f Hf]. cbn in Hf. rewrite Hh in Hf. congruence.
  - intros x. rewrite Hs. cbn [put_fs filesystems]. case_decide as Hd; [subst x; rewrite Hz, lookup_insert_eq; by eexists|].
    rewrite lookup_insert_ne by done. intros H. destruct (I3 x) as (f & Hf & Hc); [lia|]. exists f. split; [done|]. rewrite Hc. f_equal. lia.
  - intros x. cbn [put_fs filesystems]. rewrite Hs, lookup_insert_is_Some. intros [<-|[Hne Hx]]; [rewrite decide_True by done|].
    + split; [done|]. right. lia.
    + destruct (I4 x Hx) as [H0 [Hb|Hsv]]; split; [done|by left|done|right; lia].
  - intros x Hb. destruct (I5 x Hb) as [Ha Hsv]. cbn [put_fs filesystems]. rewrite Hs, lookup_insert_is_Some.
    assert (fs <> x) by (intros ->; destruct Ha; congruence). rewrite decide_False by done. split; [by right|lia].
  - intros m m'. rewrite !elem_of_app, !list_elem_of_singleton. intros [Hm| ->] [Hm'| ->] Hv Heq; cbn [m0 m_volume m_fs] in *.
    + by apply I6.
    + destruct (Hvol ltac:(congruence) m Hm Heq).
    + by destruct (Hvol Hv m' Hm').
    + done.
Qed.

(** A second mount of a volume: one more reference to the same filesystem *)
Lemma mount_alias home σ where_ now vol m n st : minv home σ -> room σ -> m ∈ mounts (v σ) -> m_volume m = vol -> vol <> 0 ->
  fs_incref (fsys (v σ)) (m_fs m) = Some (n, st) ->
  minv home (mkSys (mkV (mounts (v σ) ++ [mkMount where_ now vol (m_fs m)]) st (gId (v σ))) (handles σ)).
Proof.
  intros I (_ & _ & Hlen) Hm Hvol Hv0 E. pose proof I as [I1 I2 I3 I4 I5 I6]. pose proof (served_elem _ _ Hm) as Hsm.
  destruct (I3 _ Hsm) as (f & Hf & Hc). unfold fs_incref in E. rewrite Hf in E. cbn [mbind option_bind] in E. injection E as <- <-.
  assert (Hle : (served (m_fs m) (mounts (v σ)) <= length (mounts (v σ)))%nat) by apply length_filter.
  assert (Hinc : inc_wanted (fsRefcount f) = fsRefcount f + 1).
  { unfold inc_wanted, UINT32_MAX. destruct (Z.eqb_spec (fsRefcount f) (2 ^ 32 - 1)); lia. }
  set (m0 := mkMount where_ now vol (m_fs m)).
  assert (Hs : forall x, served x (mounts (v σ) ++ [m0]) = (served x (mounts (v σ)) + if decide (m_fs m = x) then 1 else 0)%nat).
  { intros x. rewrite served_app, served_cons. cbn. case_decide; lia. }
  split; cbn [v handles mounts fsys]; try done.
  - by apply counts_put_fs.
  - intros x. rewrite Hs. cbn [put_fs filesystems]. case_decide as Hd.
    + subst x. rewrite lookup_insert_eq. intros _. eexists. split; [done|]. cbn. rewrite Hinc. lia.
    + rewrite lookup_insert_ne by done. intros H. destruct (I3 x) as (f' & Hf' & Hc'); [lia|]. exists f'. split; [done|]. rewrite Hc'. f_equal. lia.
  - intros x. cbn [put_fs filesystems]. rewrite Hs, lookup_insert_is_Some. intros Hx.
    assert (Ha : is_Some (filesystems (fsys (v σ)) !! x)) by (destruct Hx as [<-|[_ ?]]; [by eexists|done]).
    destruct (I4 x Ha) as [H0 [Hb|Hsv]]; split; [done|by left|done|right; lia].
  - intros x Hb. destruct (I5 x Hb) as [Ha Hsv]. cbn [put_fs filesystems]. rewrite Hs, lookup_insert_is_Some.
    assert (m_fs m <> x) by (intros <-; lia). rewrite decide_False by done. split; [by right|lia].
  - intros m1 m2. rewrite !elem_of_app, !list_elem_of_singleton. intros [Hm1| ->] [Hm2| ->] Hv Heq; cbn [m0 m_volume m_fs] in *.
    + by apply I6.
    + apply I6; congruence.
    + apply I6; congruence.
    + done.
Qed.

Lemma findMountInfo_cases l vol r : findMountInfo l vol = Some r ->
  vol <> 0 /\ match r with Some m => m ∈ l /\ m_volume m = vol | None => forall m, m ∈ l -> m_volume m <> vol end.
Proof.
  unfold findMountInfo. destruct (Z.eqb_spec vol 0); [done|]. intros [= <-]. split; [done|].
  destruct (list_find _ l) as [[i m]|] eqn:E; cbn.
  - apply list_find_Some in E as (Hi & Hv & _). split; [by eapply list_elem_of_lookup_2|done].
  - apply list_find_None in E. intros m Hm. by apply (proj1 (list.Forall_forall _ _) E).
Qed.

Lemma mount_loop_cases table σ vol where_ fatfs now ok v' : mount_loop table (v σ) vol where_ fatfs now = Some (ok, v') ->
  v' = v σ \/ exists path g, v' = mkV (mount (mounts (v σ)) path fatfs (v_addr vol) now) (put_fs (fsys (v σ)) fatfs (mkFilesystem 1 0)) g.
Proof.
  induction table as [|[[sysid named] fmount] table IH]; [done|]. cbn [mount_loop]. destruct (_ && negb _); [intros [= _ <-]; by left|].
  destruct (_ && fmount); [|done]. unfold fatfs_trymount. destruct (v_sector0 vol) as [s0|]; [|intros [= _ <-]; by left].
  destruct where_ as [w|]; [|intros [= _ <-]; by left]. destruct (Fat.is_fat s0); [|intros [= _ <-]; by left].
  intros E. apply bind_Some in E as ([id g] & _ & [= _ <-]). right. by eexists _, _.
Qed.

Lemma volume_keeps home σ vol where_ fatfs now ok v' : minv home σ -> room σ -> new_filesystem (fsys (v σ)) fatfs ->
  mount_volume (v σ) vol where_ fatfs now = Some (ok, v') -> minv home (mkSys v' (handles σ)).
Proof.
  intros I Hr Hnew E. unfold mount_volume in E. apply bind_Some in E as (prev & Ef & E).
  apply findMountInfo_cases in Ef as [Hv Hp]. destruct prev as [m|].
  - destruct Hp as [Hm Hvol]. destruct (Z.eqb_spec (m_fs m) 0) as [H0|_].
    + destruct (mi_mounts _ _ I _ (served_elem _ _ Hm)) as (f & Hf & _).
      destruct (mi_alive _ _ I (m_fs m) (mk_is_Some _ _ Hf)) as [? _]. done.
    + apply bind_Some in E as ([n st] & E & [= _ <-]). by eapply mount_alias.
  - apply mount_loop_cases in E as [->|(path & g & ->)]; [by destruct σ|]. apply mount_fresh; [done|done|]. intros _. done.
Qed.

(** What [unmount] does *)
Lemma unmount_cases l st path ok l' st' : VFS.unmount l st path = Some (ok, l', st') ->
  (ok = false /\ l' = l /\ st' = st) \/
  (ok = true /\ exists i m f, l !! i = Some m /\ m_path m = skip_slash path /\ l' = delete i l /\ filesystems st !! m_fs m = Some f /\
     (1 < fsRefcount f /\ st' = put_fs st (m_fs m) (mkFilesystem (fsRefcount f - 1) (mOpenObjcts f)) \/
      fsRefcount f = 1 /\ mOpenObjcts f = 0 /\ st' = mkState (objects st) (delete (m_fs m) (filesystems st)))).
Proof.
  unfold VFS.unmount. destruct (list_find _ l) as [[i m]|] eqn:Ef; [|intros [= <- <- <-]; by left].
  apply list_find_Some in Ef as (Hi & Hp & _). intros E. apply bind_Some in E as (f & Hf & E).
  destruct (negb _) eqn:Eu; [injection E as <- <- <-; by left|]. unfold fs_decref in E. rewrite Hf in E. cbn [mbind option_bind] in E.
  injection E as <- <- <-. right. split; [done|]. exists i, m, f. do 4 (split; [done|]).
  apply negb_false_iff, orb_true_iff in Eu as [Hgt|Hone].
  - left. apply Z.gtb_lt in Hgt. split; [done|]. rewrite dec_wanted_pos by lia. by destruct (Z.eqb_spec (fsRefcount f - 1) 0); [lia|].
  - right. apply andb_true_iff in Hone as [->%Z.eqb_eq ->%Z.eqb_eq]. do 2 (split; [done|]). cbn [dec_wanted Z.eqb put_fs filesystems objects Z.sub].
    change (dec_wanted 1) with 0. cbn [Z.eqb]. by rewrite delete_insert_eq.
Qed.

Lemma unmount_keeps home σ path ok v' : minv home σ -> unmount (v σ) path = Some (ok, v') -> minv home (mkSys v' (handles σ)).
Proof.
  intros I E. unfold unmount in E. apply bind_Some in E as ([[ok' l'] st'] & E & [= -> <-]).
  apply unmount_cases in E as [(_ & -> & ->)|(_ & i & m & f & Hi & _ & -> & Hf & Hc)]; [by destruct σ as [[]]|].
  pose proof I as [I1 I2 I3 I4 I5 I6]. assert (Hm : m ∈ mounts (v σ)) by (by eapply list_elem_of_lookup_2).
  pose proof (fun x => served_delete x _ _ _ Hi) as Hs. pose proof (served_elem _ _ Hm) as Hsm.
  destruct (I3 _ Hsm) as (f' & Hf' & Hcf). rewrite Hf in Hf'. injection Hf' as <-.
  assert (Hb : forall x, builtin x -> m_fs m <> x) by (intros x Hx <-; destruct (I5 _ Hx); lia).
  assert (Hvol : forall m1 m2, m1 ∈ delete i (mounts (v σ)) -> m2 ∈ delete i (mounts (v σ)) -> m_volume m1 <> 0 -> m_volume m1 = m_volume m2 -> m_fs m1 = m_fs m2).
  { intros m1 m2 H1 H2. apply I6; [by eapply list_elem_of_delete_inv|by eapply list_elem_of_delete_inv]. }
  pose proof (Hs (m_fs m)) as Hsm'. rewrite decide_True in Hsm' by done.
  destruct Hc as [[Hgt ->]|(H1 & H0 & ->)]; split; cbn [v handles mounts fsys put_fs filesystems objects]; try done.
  - by apply counts_put_fs.
  - intros x Hx. cbn [put_fs filesystems]. specialize (Hs x). destruct (decide (m_fs m = x)) as [<-|Hne].
    + rewrite lookup_insert_eq. eexists. split; [done|]. cbn. lia.
    + rewrite lookup_insert_ne by done. destruct (I3 x) as (f' & Hf' & Hc'); [lia|]. exists f'. split; [done|]. rewrite Hc'. f_equal. lia.
  - intros x Hx. rewrite lookup_insert_is_Some in Hx. specialize (Hs x).
    assert (Ha : is_Some (filesystems (fsys (v σ)) !! x)) by (destruct Hx as [<-|[_ ?]]; [by eexists|done]).
    destruct (I4 x Ha) as [Hx0 [Hbx|Hsv]]; split; [done|by left|done|right]. destruct (decide (m_fs m = x)) as [<-|]; lia.
  - intros x Hx. destruct (I5 x Hx) as [Ha Hsv]. specialize (Hs x). rewrite decide_False in Hs by (by apply Hb).
    rewrite lookup_insert_is_Some. split; [right; split; [by apply Hb|done]|lia].
  - pose proof (i_open _ _ _ I1 _ _ Hf) as Hl. rewrite H0 in Hl. cbn [bare f_st] in Hl.
    pose proof (live_none home (fsys (v σ)) (m_fs m) ltac:(lia)) as Hnone. apply counts_filesystems; [done| |].
    + intros o [ob Ho]. rewrite lookup_delete_is_Some. split; [|by eapply (i_home _ _ _ I1)]. intros Heq. by apply (Hnone o (mk_is_Some _ _ Ho)).
    + intros x f' [_ Hx]%lookup_delete_Some. by apply (i_open _ _ _ I1).
  - intros x Hx. cbn [filesystems]. specialize (Hs x). destruct (decide (m_fs m = x)) as [<-|Hne]; [lia|]. rewrite lookup_delete_ne by done.
    destruct (I3 x) as (f' & Hf' & Hc'); [lia|]. exists f'. split; [done|]. rewrite Hc'. f_equal. lia.
  - intros x [Hne Hx]%lookup_delete_is_Some. specialize (Hs x). rewrite decide_False in Hs by done.
    destruct (I4 x Hx) as [Hx0 [Hbx|Hsv]]; split; [done|by left|done|right; lia].
  - intros x Hx. destruct (I5 x Hx) as [Ha Hsv]. specialize (Hs x). rewrite decide_False in Hs by (by apply Hb).
    rewrite lookup_delete_is_Some. split; [split; [by apply Hb|done]|lia].
Qed.

(** *** Every step *)

Lemma with_same w : with_state w (fsys w) = w.
Proof. by destruct w. Qed.

Lemma resolve_alive home σ path fs rest : minv home σ -> resolve (mounts (v σ)) path = Some (fs, rest) ->
  is_Some (filesystems (fsys (v σ)) !! fs).
Proof.
  intros I E. unfold resolve in E. destruct (isAbsolutePath path); [|done]. apply getfs_in in E as (m & Hm & <-).
  destruct (mi_mounts _ _ I _ (served_elem _ _ Hm)) as (f & Hf & _). by exists f.
Qed.

Lemma nothing_opened home σ st : minv home σ -> st = fsys (v σ) ->
  exists home', minv home' (mkSys (with_state (v σ) st) (keep (mkHandle 0 0 0) (handles σ))).
Proof. intros I ->. exists home. rewrite with_same. by destruct σ. Qed.

Lemma opendir_keeps home σ path found h st : minv home σ -> room σ -> new_object (fsys (v σ)) found ->
  vfs_opendir (mounts (v σ)) gVFS (fun _ _ _ => found) (fsys (v σ)) path = Some (h, st) ->
  exists home', minv home' (mkSys (with_state (v σ) st) (keep h (handles σ))).
Proof.
  intros I (Hr & _) Hn E. unfold vfs_opendir in E. destruct (resolve_dir (mounts (v σ)) path) as [[[]|[fs rest]]|] eqn:Ep.
  - apply bind_Some in E as ([o st1] & E & [= <- <-]). edestruct (open_keeps home σ) as (home' & H & _); [exact I| |exact Hn|lia|exact E|by exists home'].
    apply (mi_builtin _ _ I). by left.
  - apply bind_Some in E as ([o st1] & E & [= <- <-]). apply resolve_dir_in in Ep as (m & Hm & <-).
    destruct (mi_mounts _ _ I _ (served_elem _ _ Hm)) as (f & Hf & _).
    edestruct (open_keeps home σ) as (home' & H & _); [exact I|by exists f|exact Hn|lia|exact E|by exists home'].
  - injection E as <- <-. by eapply nothing_opened.
Qed.

Lemma open_path_keeps home σ path mode found h st : minv home σ -> room σ -> new_object (fsys (v σ)) found ->
  vfs_open (mounts (v σ)) (fun _ _ _ _ => found) (fsys (v σ)) path mode = Some (h, st) ->
  exists home', minv home' (mkSys (with_state (v σ) st) (keep h (handles σ))).
Proof.
  intros I (Hr & _) Hn E. unfold vfs_open in E. destruct (resolve (mounts (v σ)) path) as [[fs rest]|] eqn:Ep.
  - apply bind_Some in E as ([o st1] & E & [= <- <-]). pose proof (resolve_alive _ _ _ _ _ I Ep).
    edestruct (open_keeps home σ) as (home' & H' & _); [exact I|done|exact Hn|lia|exact E|by exists home'].
  - injection E as <- <-. by eapply nothing_opened.
Qed.

Lemma pipe_keeps home σ r w st : minv home σ -> room σ -> new_object (fsys (v σ)) (Some (r, 0)) -> new_object (fsys (v σ)) (Some (w, 0)) ->
  r <> w -> make_pipe (fsys (v σ)) pm r w = Some st ->
  exists home', minv home' (mkSys (with_state (v σ) st) (mkHandle pm w 0 :: mkHandle pm r 0 :: handles σ)).
Proof.
  intros I (Hr & _) [Hr0 Hrn] [Hw0 Hwn] Hne E. rewrite make_pipe_opens in E.
  apply bind_Some in E as ([o1 st1] & E1 & E). apply bind_Some in E as ([o2 st2] & E2 & [= <-]).
  assert (Hok : forall o l, o <> 0 -> keep (mkHandle pm o 0) l = mkHandle pm o 0 :: l).
  { intros o l Ho. unfold keep, handle_ok. cbn. by rewrite (proj2 (Z.eqb_neq pm 0)), (proj2 (Z.eqb_neq o 0)). }
  assert (E1' := E1). unfold open, openObject in E1'. apply bind_Some in E1' as (st1' & Eo1 & [= <- ->]).
  assert (E2' := E2). unfold open, openObject in E2'. apply bind_Some in E2' as (st2' & Eo2 & [= <- ->]).
  destruct (open_keeps home σ pm (Some (r, pipe_kind)) r st1) as (home1 & I1 & Hs); [exact I|by apply (mi_builtin _ _ I); right|done|lia|exact E1|].
  rewrite Hok in I1 by done.
  destruct (open_keeps home1 _ pm (Some (w, pipe_kind)) w st2 I1) as (home2 & I2 & _); cbn [v handles with_state fsys].
  - apply (mi_builtin _ _ I1). by right.
  - split; [done|]. apply bind_Some in Eo1 as (f & _ & [= <-]). cbn [put_fs put_object objects]. by rewrite lookup_insert_ne.
  - lia.
  - exact E2.
  - exists home2. rewrite Hok in I2 by done. exact I2.
Qed.

Lemma minv_step home σ σ' : minv home σ -> step σ σ' -> exists home', minv home' σ'.
Proof.
  intros I H. destruct H.
  - exists home. by apply mount_fresh.
  - exists home. by eapply volume_keeps.
  - exists home. by eapply unmount_keeps.
  - by eapply open_path_keeps.
  - by eapply opendir_keeps.
  - by eapply pipe_keeps.
  - exists home. by eapply dup_keeps.
  - exists home. destruct (close_works home σ l1 h l2) as (st' & E & I'); [done..|]. congruence.
Qed.

Lemma initial_minv : minv (fun _ => 0) initial.
Proof.
  assert (Hfs : forall x f, filesystems (fsys (v initial)) !! x = Some f -> f = mkFilesystem 1 0 /\ builtin x).
  { intros x f. cbn [initial v fsys filesystems]. rewrite lookup_insert_Some, lookup_singleton_Some.
    intros [[<- <-]|[_ [<- <-]]]; (split; [done|]); [by right|by left]. }
  assert (He : forall o, ~ is_Some ((∅ : gmap Z object) !! o)) by (intros o [ob Ho]; by rewrite lookup_empty in Ho).
  split; cbn [initial handles]; [|by intros h ?%elem_of_nil|intros fs Hs; cbn in Hs; lia| | |by intros m m' ?%elem_of_nil].
  - apply (counts_filesystems _ _ (mkState ∅ ∅)).
    + pose proof SampleFds.start_inv as [J1 J2 J3 J4 J5]. split; cbn [bare f_st f_fds objects filesystems]; [exact J1| |exact J3| |].
      * intros i h. by rewrite SampleFds.no_descriptor.
      * intros o ob. by rewrite lookup_empty.
      * intros fs f. by rewrite lookup_empty.
    + intros o Ho. by destruct (He o).
    + intros fs f Hf. apply Hfs in Hf as [-> _]. cbn [mOpenObjcts]. rewrite no_live; [done|]. intros o Ho. by destruct (He o).
  - intros fs [f Hf]. apply Hfs in Hf as [_ Hb]. split; [|by left]. by destruct Hb as [->| ->].
  - intros fs Hb. split; [|done]. cbn [initial v fsys filesystems]. rewrite lookup_insert_is_Some, lookup_singleton_is_Some.
    destruct Hb as [->| ->]; [by right|by left].
Qed.

Lemma runs_minv σ : reachable σ -> exists home, minv home σ.
Proof.
  induction 1 as [|σ σ' _ [home IH] Hs]; [eexists; apply initial_minv|by eapply minv_step].
Qed.
End Runs.
End MountRuns.

Module MountThms.
Import Abi FsObject VFS Fat Mounting MountCalls FsCalls MountRuns.


(** Two filesystems, a volume with two mount points, and a file on it that is open *)
Definition disk : volume := mkVolume 70 0x0C (Some (replicate 66 0 ++ [0x29])).

Definition mounted_disk (σ : sys) (where_ : string) (fatfs now : Z) : sys :=
  match mount_volume (v σ) disk where_ fatfs now with Some (_, v') => mkSys v' (handles σ) | None => σ end.

Lemma mounted_disk_reachable σ where_ fatfs now : reachable 10 11 σ -> room σ -> new_filesystem (fsys (v σ)) fatfs ->
  reachable 10 11 (mounted_disk σ where_ fatfs now).
Proof.
  intros Hr Hroom Hnew. unfold mounted_disk. destruct (mount_volume (v σ) disk where_ fatfs now) as [[ok v']|] eqn:E; [|done].
  eapply r_step; [done|]. by eapply s_volume.
Qed.

Definition opened_file (σ : sys) (path : string) : sys :=
  match vfs_open (mounts (v σ)) (fun _ _ _ _ => Some (900, 1)) (fsys (v σ)) (Some path) 1 with
  | Some (h, st) => mkSys (with_state (v σ) st) (keep h (handles σ))
  | None => σ
  end.

Lemma opened_file_reachable σ path : reachable 10 11 σ -> room σ -> objects (fsys (v σ)) !! 900 = None -> reachable 10 11 (opened_file σ path).
Proof.
  intros Hr Hroom Hnew. unfold opened_file. destruct (vfs_open _ _ _ _ _) as [[h st]|] eqn:E; [|done].
  eapply r_step; [done|]. eapply (s_open _ _ σ (Some path) 1 (Some (900, 1))); [done|by split|done].
Qed.

(** A small state has room. *)
Lemma small_room σ : ((length (handles σ) <=? 9) && (size (objects (fsys (v σ))) <=? 9) && (length (mounts (v σ)) <=? 9))%nat = true -> room σ.
Proof. unfold room, UINT32_MAX. rewrite !andb_true_iff, !Nat.leb_le. lia. Qed.

Definition s0 : sys := initial 10 11.
Definition s1 : sys := mkSys (mount_new (v s0) "/devices" 100 0) (handles s0).
Definition s2 : sys := mounted_disk s1 "disk" 200 5.
Definition s3 : sys := opened_file s2 "/disk/a".
Definition s4 : sys := mounted_disk s3 "again" 300 6.


(** *** Defects *)

(** The numbers of FAT filesystems are never given back: mounting and unmounting one volume
    ten times uses them up, and the next mount stops the kernel. *)
Fixpoint remount (n : nat) (w : vstate) : option vstate :=
  match n with
  | O => Some w
  | S n => '(_, w) ← mount_volume w disk "disk" 200 0; '(_, w) ← unmount w "disk"; remount n w
  end.

Example eleventh_mount_is_fatal :
  (w ← remount 10 (v s1); Some (mounts w, mount_volume w disk "disk" 200 0)) = Some (mounts (v s1), None).
Proof. vm_compute. reflexivity. Qed.

(** A type that is known but cannot be mounted, as NTFS: the search runs behind the table. *)
Example known_type_overruns w sector0 where_ fatfs now : doMountVolume w (mkVolume 70 0x07 sector0) where_ fatfs now = None.
Proof. reflexivity. Qed.

(** A pipe in a table with one free descriptor: both ends are closed, and the descriptor of
    the first is left. *)
Fixpoint fill (n : nat) (t : Handletable.table handle) : option (Handletable.table handle) :=
  match n with
  | O => Some t
  | S n => '(_, t) ← Handletable.set gNumDescriptors t (mkHandle 200 900 0) 0; fill n t
  end.

Example pipe_leaves_closed_end :
  (fds ← fill 63 (Handletable.new gNumDescriptors);
   '(r, (fd, _), s) ← pipe_syscall_handler (mkP (v s4) fds) 11 901 902 0 0;
   file ← fds_is s (Z.of_nat fd);
   Some (r, fd, file, objects (fsys (p_v s)) !! 901)) = Some (ERR NO_SUCH_FILE, 63%nat, Some (mkHandle 11 901 0), None).
Proof. vm_compute. reflexivity. Qed.

(** ** The filesystem of a path *)

Fixpoint no_slash (p : string) : bool := match p with EmptyString => true | String c p => negb (Ascii.eqb c slash) && no_slash p end.

(** The first component is what is before the first slash. *)
Lemma first_component p r : no_slash p = true ->
  (p = String.substring 0 (first_len r) r <-> exists next, r = p +:+ next /\ at_boundary next = true).
Proof.
  revert r. induction p as [|c p IH]; intros r Hp.
  - destruct r as [|d r]; cbn [first_len]; [split; [by exists ""|done]|]. destruct (Ascii.eqb d slash) eqn:E.
    + split; [|done]. intros _. exists (String d r). by cbn.
    + split; [done|]. intros (next & Hr & Hn). change (String d r = next) in Hr. subst next. cbn in Hn. congruence.
  - cbn in Hp. apply andb_true_iff in Hp as [Hc Hp]. destruct r as [|d r]; [split; [done|by intros (? & ? & _)]|].
    cbn [first_len]. destruct (Ascii.eqb d slash) eqn:E.
    + split; [done|]. intros (next & [= -> _] & _). by rewrite E in Hc.
    + cbn [String.substring]. split.
      * intros [= -> Ep]. apply (IH _ Hp) in Ep as (next & -> & Hn). by exists next.
      * intros (next & [= -> ->] & Hn). f_equal. apply (IH _ Hp). by exists next.
Qed.

(** [fsForPath] and [open] agree on every path while no mount point has a slash in it. *)
Theorem path_leads_to_its_filesystem l path : Forall (fun m => no_slash (m_path m) = true) l ->
  fsForPath l path = match getfs l path with Some (fs, _) => fs | None => 0 end.
Proof.
  intros Hl. destruct path as [[|c p]|]; [done| |done]. unfold fsForPath, getfs, print_prefix. set (r := skip_slash (String c p)).
  replace (Nat.min (first_len r + 2 - 2) (first_len r + 1)) with (first_len r) by lia. unfold findfs, find_path.
  clearbody r. induction l as [|m l IH]; [done|]. apply Forall_cons_1 in Hl as [Hm Hl]. cbn [list_find getfs_loop].
  pose proof (first_component (m_path m) r Hm) as Hfc. case_decide as Hd.
  - apply Hfc in Hd as (next & Hn & Hb). rewrite (proj2 (strprefix_spec _ _ _) Hn), Hb. done.
  - specialize (IH Hl). destruct (list_find _ l) as [[i m']|]; cbn in IH |- *; (etrans; [exact IH|clear IH]);
      (destruct (strprefix (m_path m) r) as [next|] eqn:Ep; [|done]); destruct (at_boundary next) eqn:Eb; try done;
      exfalso; apply Hd, Hfc; exists next; (split; [by apply strprefix_spec|done]).
Qed.
End MountThms.
