(* ===== verification/FatFs.v ===== *)
(** * The FAT filesystem (kernel/src/fs/fatfs/fs.cpp and helpers.cpp)

    The wrapper around the FatFs library: what it asks of the library for each operation of
    a filesystem, its four kinds of objects, the times of files in both directions, and the
    calls the library makes back to a volume.  The library itself is the class [FatFsLib];
    [FatFsLaws] is what its documentation says of open files.  [FatThms] shows that a time
    written to a directory is read back, and that every file and directory opened in the
    library is closed. *)

From stdpp Require Import base numbers list gmap option strings pretty.
From Stdlib Require Import ZArith Lia.
From S2P Require Import Prelude Time Volume.

Local Open Scope Z_scope.

(** The part of [FILINFO] that the wrapper uses *)
Record FILINFO := mkFilInfo { fsize : Z; fdate : Z; ftime : Z; fattrib : Z; fname : string }.

Definition no_info : FILINFO := mkFilInfo 0 0 0 0 "".

(** FatFs: a result is an [FRESULT], [FIL] and [DIR] are handles. *)
Class FatFsLib (W : Type) := {
  f_stat : W -> string -> Z * FILINFO;
  f_open : W -> string -> Z -> Z * Z * W;
  f_close : W -> Z -> W;
  f_lseek : W -> Z -> Z -> Z * W;
  f_tell : W -> Z -> Z;
  f_size : W -> Z -> Z;
  f_read : W -> Z -> Z -> Z * list Z * W;
  f_write : W -> Z -> list Z -> Z * Z * W;
  f_opendir : W -> string -> Z * Z * W;
  f_readdir : W -> Z -> Z * FILINFO * W;
  f_closedir : W -> Z -> W;
  f_unlink : W -> string -> Z * W;
  f_mkdir : W -> string -> Z * W;
  f_getfree : W -> string -> Z * Z * Z;   (* free clusters, sectors of a cluster *)
  f_getlabel : W -> string -> Z * Z }.

Module FatFs.
Import Calendar.

Definition FR_OK : Z := 0.
Definition FR_INVALID_NAME : Z := 6.
Definition AM_DIR : Z := 0x10.
Definition FA_READ : Z := 1.
Definition FA_WRITE : Z := 2.
Definition FA_OPEN_EXISTING : Z := 0.
Definition FA_CREATE_ALWAYS : Z := 8.
Definition FA_OPEN_APPEND : Z := 0x30.

Definition FILE_OPEN_READ : Z := 1.
Definition FILE_OPEN_WRITE : Z := 2.
Definition FILE_OPEN_NEW : Z := 4.
Definition FILE_NO_CREATE : Z := 8.
Definition FILE_OPEN_APPEND : Z := 16.

(** *** Times *)

(** [None]: a month outside of the table *)
Definition fatDateToUnix (fdate : Z) : option Z :=
  let day := Z.land fdate 31 in
  let month := Z.land (Z.shiftr fdate 5) 15 in
  let year := Z.land (Z.shiftr fdate 9) 127 in
  date_components_to_epoch (mkDate (u8 day) (u8 month) (u16 (year + 1980))).

Definition fatTimeToUnix (ftime : Z) : Z :=
  let second := 2 * Z.land ftime 31 in
  let minute := Z.land (Z.shiftr ftime 5) 63 in
  let hour := Z.land (Z.shiftr ftime 11) 31 in
  time_components_to_epoch (mkTime (u8 hour) (u8 minute) (u8 second)).

Definition info_time (i : FILINFO) : option Z := d ← fatDateToUnix (fdate i); Some (u64 (d + fatTimeToUnix (ftime i))).

(** [get_fattime]: the bit fields of [fat_time_t] from the lowest on *)
Definition get_fattime (UNIXtime : Z) : Z :=
  let '(date, time) := epoch_to_time_and_date_components UNIXtime in
  let second := Z.shiftr (second time) 1 mod 2 ^ 5 in
  let minute := minute time mod 2 ^ 6 in
  let hour := hour time mod 2 ^ 5 in
  let day := day date mod 2 ^ 5 in
  let month := month date mod 2 ^ 4 in
  let year := (year date - 1980) mod 2 ^ 7 in
  second + minute * 2 ^ 5 + hour * 2 ^ 11 + day * 2 ^ 16 + month * 2 ^ 21 + year * 2 ^ 25.

(** *** Objects *)

Inductive fatobject :=
  | FATFileSystemFile (mFile : Z) (mFileInfo : FILINFO)
  | FATFileSystemDirectory (mDir : Z) (mFileInfo : FILINFO)
  | FATFileSystemDirectory_AsFile (mFileInfo : FILINFO)
  | FATFileSystem_RootDirectory_AsFile.

Record stat_t := mkStat { st_kind : Z; st_size : Z; st_time : Z }.
Record fileinfo_t := mkEntry { fi_size : Z; fi_time : Z; fi_name : string; fi_kind : Z }.
Definition kind_directory : Z := 0.
Definition kind_file : Z := 1.
Definition gNameSize : nat := 256.

Section Fs.
Context {W : Type} `{FatFsLib W}.
(** The number of the drive, as it was given to [f_mount] *)
Context (pdrv : Z).

(** [sprint] of ["%d:%s"] into [4 + strlen(path)] bytes *)
Definition fullpath (path : string) : string :=
  String.substring 0 (String.length path + 3) (pretty pdrv +:+ ":" +:+ path).

Definition or_root (path : option string) : string :=
  match path with None => "/" | Some EmptyString => "/" | Some p => p end.

Definition flag (mode bit real : Z) (realmode : Z) : Z := if negb (Z.land mode bit =? 0) then Z.lor realmode real else realmode.
Definition realmode (mode : Z) : Z :=
  flag mode FILE_OPEN_APPEND FA_OPEN_APPEND (flag mode FILE_NO_CREATE FA_OPEN_EXISTING
    (flag mode FILE_OPEN_NEW FA_CREATE_ALWAYS (flag mode FILE_OPEN_WRITE FA_WRITE (flag mode FILE_OPEN_READ FA_READ 0)))).

Definition stat_or_nothing (w : W) (path : string) : Z * FILINFO :=
  let '(r, i) := f_stat w path in (r, if r =? FR_OK then i else no_info).

Definition doOpen (w : W) (path : option string) (mode : Z) : option fatobject * W :=
  let path := or_root path in
  let '(st_out, fileInfo) := stat_or_nothing w (fullpath path) in
  if (st_out =? FR_INVALID_NAME) && String.eqb path "/" then (Some FATFileSystem_RootDirectory_AsFile, w)
  else if (st_out =? FR_OK) && negb (Z.land (fattrib fileInfo) AM_DIR =? 0) then (Some (FATFileSystemDirectory_AsFile fileInfo), w)
  else
    let '(op_out, fil, w) := f_open w (fullpath path) (realmode mode) in
    if op_out =? FR_OK then (Some (FATFileSystemFile fil fileInfo), w) else (None, w).

Definition doOpendir (w : W) (path : option string) : option fatobject * W :=
  let path := or_root path in
  let '(_, fileInfo) := stat_or_nothing w (fullpath path) in
  let '(r, dir, w) := f_opendir w (fullpath path) in
  if r =? FR_OK then (Some (FATFileSystemDirectory dir fileInfo), w) else (None, w).

Definition del (w : W) (path : string) : bool * W :=
  let '(r, _) := f_stat w (fullpath path) in
  if r =? FR_OK then let '(r, w) := f_unlink w (fullpath path) in (r =? FR_OK, w) else (false, w).

Definition mkdir (w : W) (path : option string) : bool * W :=
  let '(r, w) := f_mkdir w (fullpath (or_root path)) in (r =? FR_OK, w).

(** [delete] of the object runs its destructor. *)
Definition doClose (w : W) (f : fatobject) : W :=
  match f with
  | FATFileSystemFile fil _ => f_close w fil
  | FATFileSystemDirectory dir _ => f_closedir w dir
  | FATFileSystemDirectory_AsFile _ | FATFileSystem_RootDirectory_AsFile => w
  end.

Definition seek (w : W) (f : fatobject) (pos : Z) : bool * W :=
  match f with
  | FATFileSystemFile fil _ => let '(r, w) := f_lseek w fil pos in (r =? FR_OK, w)
  | _ => (false, w)
  end.
Definition tell (w : W) (f : fatobject) : option Z :=
  match f with FATFileSystemFile fil _ => Some (f_tell w fil) | _ => None end.

(** What was moved counts, whether or not the library had an error. *)
Definition read (w : W) (f : fatobject) (size : Z) : list Z * W :=
  match f with
  | FATFileSystemFile fil _ => let '(_, data, w) := f_read w fil size in (data, w)
  | _ => ([], w)
  end.
Definition write (w : W) (f : fatobject) (src : list Z) : Z * W :=
  match f with
  | FATFileSystemFile fil _ => let '(_, bw, w) := f_write w fil src in (bw, w)
  | _ => (0, w)
  end.

(** [st]: what the caller passed, with the kind of the object in it *)
Definition doStat (w : W) (f : fatobject) (st : stat_t) : option stat_t :=
  match f with
  | FATFileSystemFile fil i => t ← info_time i; Some (mkStat kind_file (if fsize i =? 0 then f_size w fil else fsize i) t)
  | FATFileSystemDirectory _ i => t ← info_time i; Some (mkStat kind_directory 0 t)
  | FATFileSystemDirectory_AsFile i => t ← info_time i; Some (mkStat (st_kind st) 0 t)
  | FATFileSystem_RootDirectory_AsFile => Some st
  end.

Definition next (w : W) (f : fatobject) : option (option fileinfo_t * W) :=
  match f with
  | FATFileSystemDirectory dir _ =>
      let '(r, fil, w) := f_readdir w dir in
      if (r =? FR_OK) && negb (String.eqb (fname fil) "") then
        t ← info_time fil;
        Some (Some (mkEntry (fsize fil) t (String.substring 0 gNameSize (fname fil))
                (if negb (Z.land (fattrib fil) AM_DIR =? 0) then kind_directory else kind_file)), w)
      else Some (None, w)
  | _ => Some (None, w)
  end.

(** The sizes in bytes and the serial number; [None] is a failure *)
Definition fillInfo (w : W) (numsectors : Z) : option (Z * Z * Z) :=
  let drive := pretty pdrv +:+ ":" in
  let '(r, free_clust, csize) := f_getfree w drive in
  if negb (r =? FR_OK) then None
  else
    let '(r, uuid) := f_getlabel w drive in
    if negb (r =? FR_OK) then None
    else Some (u32 (numsectors * 512), u32 (u32 (free_clust * 512) * csize), uuid).

End Fs.

(** *** What the library calls *)

Section DiskIo.
Context {D : Type} `{Device D}.

Definition RES_OK : Z := 0.
Definition RES_ERROR : Z := 1.
Definition RES_PARERR : Z := 4.
Definition CTRL_SYNC : Z := 0.
Definition GET_SECTOR_COUNT : Z := 1.
Definition GET_SECTOR_SIZE : Z := 2.
Definition GET_BLOCK_SIZE : Z := 3.
Definition CTRL_TRIM : Z := 4.

(** The count of a volume has 16 bits. *)
Definition disk_read (v : Volume.volume) (sector count : Z) : option (Z * list block * Volume.volume) :=
  '(ok, bs, v) ← Volume.read v sector (Z.to_nat (u16 count)); Some (if (ok : bool) then RES_OK else RES_ERROR, bs, v).

Definition disk_write (v : Volume.volume) (buff : list block) (sector count : Z) : option (Z * Volume.volume) :=
  '(ok, v) ← Volume.write v sector (take (Z.to_nat (u16 count)) buff); Some (if (ok : bool) then RES_OK else RES_ERROR, v).

(** The result, and what is written to the buffer of the caller *)
Definition disk_ioctl (numsectors : Z) (cmd : Z) : Z * option Z :=
  if (cmd =? CTRL_SYNC) || (cmd =? CTRL_TRIM) then (RES_OK, None)
  else if cmd =? GET_SECTOR_COUNT then (RES_OK, Some numsectors)
  else if cmd =? GET_SECTOR_SIZE then (RES_OK, Some Volume.sectorsize)
  else if cmd =? GET_BLOCK_SIZE then (RES_OK, Some 1)
  else (RES_PARERR, None).
End DiskIo.
End FatFs.

(** What FatFs documents of the files and directories that are open: [opened] are their
    handles. *)
Class FatFsLaws (W : Type) `{FatFsLib W} := {
  opened : W -> gset Z;
  law_open w p m r h w' : f_open w p m = (r, h, w') ->
    if r =? 0 then h ∉ opened w /\ opened w' = {[h]} ∪ opened w else opened w' = opened w;
  law_opendir w p r h w' : f_opendir w p = (r, h, w') ->
    if r =? 0 then h ∉ opened w /\ opened w' = {[h]} ∪ opened w else opened w' = opened w;
  law_close w h : opened (f_close w h) = opened w ∖ {[h]};
  law_closedir w h : opened (f_closedir w h) = opened w ∖ {[h]};
  law_lseek w h n : opened (f_lseek w h n).2 = opened w;
  law_read w h n : opened (f_read w h n).2 = opened w;
  law_write w h l : opened (f_write w h l).2 = opened w;
  law_readdir w h : opened (f_readdir w h).2 = opened w;
  law_unlink w p : opened (f_unlink w p).2 = opened w;
  law_mkdir w p : opened (f_mkdir w p).2 = opened w }.

Module FatThms.
Import Calendar FatFs.

(** ** Times *)

(** Bit fields as digits *)
Ltac Zify.zify_post_hook ::= Z.div_mod_to_equations.

Lemma bit_field v lo n : 0 <= lo -> 0 <= n -> Z.land (Z.shiftr v lo) (Z.ones n) = (v / 2 ^ lo) mod 2 ^ n.
Proof. intros. by rewrite Z.land_ones, Z.shiftr_div_pow2. Qed.

Lemma date_fields d mo y lo : 0 <= lo < 2 ^ 16 -> 0 <= d < 32 -> 0 <= mo < 16 -> 0 <= y < 128 ->
  let v := Z.shiftr (lo + d * 2 ^ 16 + mo * 2 ^ 21 + y * 2 ^ 25) 16 in
  Z.land v 31 = d /\ Z.land (Z.shiftr v 5) 15 = mo /\ Z.land (Z.shiftr v 9) 127 = y.
Proof.
  intros Hl Hd Hm Hy v. assert (Ev : v = d + mo * 2 ^ 5 + y * 2 ^ 9) by (unfold v; rewrite Z.shiftr_div_pow2 by lia; lia).
  clearbody v. change 31 with (Z.ones 5). change 15 with (Z.ones 4). change 127 with (Z.ones 7).
  rewrite !bit_field, Z.land_ones by lia. subst v. repeat split; lia.
Qed.

Lemma time_fields s mi h hi : 0 <= s < 32 -> 0 <= mi < 64 -> 0 <= h < 32 ->
  let v := Z.land (s + mi * 2 ^ 5 + h * 2 ^ 11 + hi * 2 ^ 16) 0xFFFF in
  Z.land v 31 = s /\ Z.land (Z.shiftr v 5) 63 = mi /\ Z.land (Z.shiftr v 11) 31 = h.
Proof.
  intros Hs Hm Hh v. assert (Ev : v = s + mi * 2 ^ 5 + h * 2 ^ 11).
  { unfold v. change 0xFFFF with (Z.ones 16). rewrite Z.land_ones by lia. lia. }
  clearbody v. change 31 with (Z.ones 5). change 63 with (Z.ones 6).
  rewrite !bit_field, Z.land_ones by lia. subst v. repeat split; lia.
Qed.

(** C38: Times of files are read back as they were written.  For every moment of the years 1980
    to 2107, the word the library is given for the present time, split into the date and
    the time of a directory entry, is shown as the same moment, or one second before when
    its second is odd. *)
Theorem fat_times_roundtrip d t i : valid_date d -> 1980 <= year d <= 2107 -> valid_time t ->
  let now := gSecondsInDay * day_number d + time_components_to_epoch t in
  let word := get_fattime now in
  date_components_to_epoch d = Some (gSecondsInDay * day_number d)
  /\ is_u32 word
  /\ (fdate i = Z.shiftr word 16 -> ftime i = Z.land word 0xFFFF -> info_time i = Some (now - second t mod 2)).
Proof.
  intros Hd Hy Ht now word. pose proof (date_to_epoch_spec d Hd) as He. pose proof (day_number_bound d Hd) as Hb. split; [done|].
  assert (Ew : word = Z.shiftr (second t) 1 mod 2 ^ 5 + minute t mod 2 ^ 6 * 2 ^ 5 + hour t mod 2 ^ 5 * 2 ^ 11 + day d mod 2 ^ 5 * 2 ^ 16
    + month d mod 2 ^ 4 * 2 ^ 21 + (year d - 1980) mod 2 ^ 7 * 2 ^ 25) by (unfold word, get_fattime, now; by rewrite epoch_inverse).
  pose proof Hd as (_ & Hm & Hdd). pose proof (month_length_bound (year d) (month d) Hm) as Hml. destruct Ht as (Hh & Hmi & Hs).
  rewrite Z.shiftr_div_pow2 in Ew by lia. rewrite !Z.mod_small in Ew by lia.
  split; [unfold is_u; lia|]. intros Hfd Hft. unfold info_time, fatDateToUnix, fatTimeToUnix. rewrite Hfd, Hft.
  destruct (date_fields (day d) (month d) (year d - 1980) (second t / 2 ^ 1 + minute t * 2 ^ 5 + hour t * 2 ^ 11)) as (D1 & D2 & D3); [lia..|].
  destruct (time_fields (second t / 2 ^ 1) (minute t) (hour t) (day d + month d * 2 ^ 5 + (year d - 1980) * 2 ^ 9)) as (T1 & T2 & T3); [lia..|].
  rewrite <- Ew in D1, D2, D3.
  replace (second t / 2 ^ 1 + minute t * 2 ^ 5 + hour t * 2 ^ 11 + (day d + month d * 2 ^ 5 + (year d - 1980) * 2 ^ 9) * 2 ^ 16) with word in T1, T2, T3 by lia.
  rewrite D1, D2, D3, T1, T2, T3. unfold u8, u16. rewrite !wrap_id by (unfold is_u; lia).
  replace (year d - 1980 + 1980) with (year d) by lia. replace (mkDate (day d) (month d) (year d)) with d by (by destruct d).
  rewrite He. cbn [mbind option_bind]. unfold now, time_components_to_epoch. cbn [hour minute second].
  unfold gSecondsInDay in *. rewrite (u64_id (2 * _ + _)), (u64_id (second t + _)) by (unfold is_u; lia).
  rewrite u64_id by (unfold is_u; lia). f_equal. lia.
Qed.

Definition some_date : date_components_t := mkDate 29 2 2024.
Definition some_time : time_components_t := mkTime 23 59 59.
Definition some_word : Z := get_fattime (gSecondsInDay * day_number some_date + time_components_to_epoch some_time).

Lemma fat_times_roundtrip_witness :
  info_time (mkFilInfo 0 (Z.shiftr some_word 16) (Z.land some_word 0xFFFF) 0 "") = Some 1709251198.
Proof.
  destruct (fat_times_roundtrip some_date some_time (mkFilInfo 0 (Z.shiftr some_word 16) (Z.land some_word 0xFFFF) 0 "")) as (_ & _ & E).
  - by vm_compute.
  - by vm_compute.
  - by vm_compute.
  - etrans; [apply E; reflexivity|vm_compute; reflexivity].
Defined.

(** ** Handles *)

Section Handles.
Context {W : Type} `{FatFsLaws W} (pdrv : Z).

(** The handles of an object in the library *)
Definition handles_of (f : fatobject) : list Z :=
  match f with
  | FATFileSystemFile h _ | FATFileSystemDirectory h _ => [h]
  | FATFileSystemDirectory_AsFile _ | FATFileSystem_RootDirectory_AsFile => []
  end.

Inductive op :=
  | Open (path : option string) (mode : Z) | Opendir (path : option string) | Close (i : nat)
  | Seek (i : nat) (pos : Z) | Read (i : nat) (n : Z) | Write (i : nat) (data : list Z) | Next (i : nat)
  | Del (path : string) | Mkdir (path : option string).

Definition add (r : option fatobject * W) (l : list fatobject) : W * list fatobject :=
  (r.2, match r.1 with Some f => f :: l | None => l end).

(** On an object that is not there nothing happens. *)
Definition on (w : W) (l : list fatobject) (i : nat) (f : fatobject -> W) : W := match l !! i with Some x => f x | None => w end.

Definition run1 (s : W * list fatobject) (o : op) : W * list fatobject :=
  let '(w, l) := s in
  match o with
  | Open path mode => add (doOpen pdrv w path mode) l
  | Opendir path => add (doOpendir pdrv w path) l
  | Close i => match l !! i with Some f => (doClose w f, delete i l) | None => (w, l) end
  | Seek i pos => (on w l i (fun f => (seek w f pos).2), l)
  | Read i n => (on w l i (fun f => (read w f n).2), l)
  | Write i data => (on w l i (fun f => (write w f data).2), l)
  | Next i => (on w l i (fun f => match next w f with Some (_, w) => w | None => w end), l)
  | Del path => ((del pdrv w path).2, l)
  | Mkdir path => ((mkdir pdrv w path).2, l)
  end.

Definition balanced (s : W * list fatobject) : Prop :=
  opened s.1 = list_to_set (s.2 ≫= handles_of) /\ NoDup (s.2 ≫= handles_of).

Lemma balanced_same w w' l : balanced (w, l) -> opened w' = opened w -> balanced (w', l).
Proof. unfold balanced. cbn. by intros [-> ?] ->. Qed.

Lemma balanced_new w w' l h f : balanced (w, l) -> handles_of f = [h] -> h ∉ opened w -> opened w' = {[h]} ∪ opened w -> balanced (w', f :: l).
Proof.
  unfold balanced. cbn [fst snd]. intros [E Hn] Hf Hh ->. cbn [mbind list_bind]. rewrite Hf. cbn [app list_to_set]. split; [by rewrite E|].
  constructor; [|done]. rewrite E in Hh. by rewrite elem_of_list_to_set in Hh.
Qed.

Lemma balanced_close w l i f : balanced (w, l) -> l !! i = Some f -> balanced (doClose w f, delete i l).
Proof.
  unfold balanced. cbn [fst snd]. intros [E Hn] (l1 & l2 & -> & ->)%lookup_split. rewrite delete_middle_eq by done.
  rewrite bind_app in E, Hn. rewrite bind_cons in E, Hn. rewrite bind_app. set (a := l1 ≫= handles_of) in *. set (b := l2 ≫= handles_of) in *.
  assert (Ho : opened (doClose w f) = opened w ∖ list_to_set (handles_of f)).
  { destruct f; cbn; rewrite ?law_close, ?law_closedir; set_solver. }
  apply NoDup_app in Hn as (Ha & Hd & Hn). apply NoDup_app in Hn as (_ & Hd' & Hb).
  rewrite Ho, E, !list_to_set_app_L. split.
  - apply set_eq. intros x. rewrite elem_of_difference, !elem_of_union, !elem_of_list_to_set. specialize (Hd x). specialize (Hd' x). rewrite elem_of_app in Hd. tauto.
  - apply NoDup_app. split; [done|]. split; [|done]. intros x Hx. specialize (Hd x Hx). rewrite elem_of_app in Hd. tauto.
Qed.

Lemma on_same w l i g : (forall f, opened (g f) = opened w) -> opened (on w l i g) = opened w.
Proof. intros Hg. unfold on. by destruct (l !! i). Qed.

Lemma run1_balanced s o : balanced s -> balanced (run1 s o).
Proof.
  destruct s as [w l]. intros B. destruct o; cbn [run1].
  - unfold doOpen, add. destruct (stat_or_nothing _ _) as [st i]. destruct (_ && String.eqb _ _); [exact B|]. destruct (_ && negb _); [exact B|].
    destruct (f_open _ _ _) as [[r h] w'] eqn:E. apply law_open in E. change (r =? FR_OK) with (r =? 0). destruct (r =? 0); cbn [fst snd].
    + destruct E as [Hh Ho]. by eapply balanced_new.
    + by eapply balanced_same.
  - unfold doOpendir, add. destruct (stat_or_nothing _ _) as [st i]. destruct (f_opendir _ _) as [[r h] w'] eqn:E. apply law_opendir in E.
    change (r =? FR_OK) with (r =? 0). destruct (r =? 0); cbn [fst snd].
    + destruct E as [Hh Ho]. by eapply balanced_new.
    + by eapply balanced_same.
  - destruct (l !! i) as [f|] eqn:E; [by apply balanced_close|done].
  - eapply balanced_same; [exact B|]. apply on_same. intros [h ?| | |]; cbn; try done. pose proof (law_lseek w h pos). by destruct (f_lseek w h pos).
  - eapply balanced_same; [exact B|]. apply on_same. intros [h ?| | |]; cbn; try done. pose proof (law_read w h n). by destruct (f_read w h n) as [[]].
  - eapply balanced_same; [exact B|]. apply on_same. intros [h ?| | |]; cbn; try done. pose proof (law_write w h data). by destruct (f_write w h data) as [[]].
  - eapply balanced_same; [exact B|]. apply on_same. intros [|h ?| |]; cbn; try done. pose proof (law_readdir w h) as Hr.
    destruct (f_readdir w h) as [[r fil] w']. destruct (_ && negb _); [|done]. by destruct (info_time fil).
  - eapply balanced_same; [exact B|]. unfold del. destruct (f_stat _ _) as [r ?]. destruct (r =? FR_OK); [|done].
    pose proof (law_unlink w (fullpath pdrv path)). by destruct (f_unlink _ _).
  - eapply balanced_same; [exact B|]. unfold mkdir. pose proof (law_mkdir w (fullpath pdrv (or_root path))). by destruct (f_mkdir _ _).
Qed.

(** No handle of the library is leaked or closed twice: after any sequence of operations
    the files and directories that are open in it are those of the objects that are left,
    each of one object only. *)
Theorem fat_handles_balanced w ops : opened w = ∅ -> balanced (foldl run1 (w, []) ops).
Proof.
  intros Hw. assert (B : balanced (w, [])) by (split; [done|constructor]). revert B. generalize (w, [] : list fatobject).
  induction ops as [|o ops IH]; intros s B; [done|]. cbn. by apply IH, run1_balanced.
Qed.
End Handles.

(** *** Defects *)

(** The size in a status is the one from when the file was opened, unless it was empty. *)
Theorem stat_size_is_stale {W} `{FatFsLib W} (w w' : W) fil i st : fsize i <> 0 ->
  doStat w (FATFileSystemFile fil i) st = doStat w' (FATFileSystemFile fil i) st.
Proof. intros Hs. cbn. by rewrite (proj2 (Z.eqb_neq _ 0) Hs). Qed.

(** The flag that asks not to create a file changes nothing. *)
Theorem no_create_is_ignored mode : realmode (Z.lor mode FILE_NO_CREATE) = realmode mode.
Proof.
  unfold realmode. assert (Hbit : forall b, Z.land FILE_NO_CREATE b = 0 -> Z.land (Z.lor mode FILE_NO_CREATE) b = Z.land mode b).
  { intros b Hb. by rewrite Z.land_lor_distr_l, Hb, Z.lor_0_r. }
  unfold flag at 1 3 4 5 6 8 9 10. rewrite !Hbit by done. unfold flag, FA_OPEN_EXISTING.
  destruct (negb (Z.land (Z.lor mode FILE_NO_CREATE) FILE_NO_CREATE =? 0)), (negb (Z.land mode FILE_NO_CREATE =? 0)); by rewrite ?Z.lor_0_r.
Qed.

(** A volume of four gigabytes is shown as empty. *)
Theorem big_volume_size_wraps {W} `{FatFsLib W} pdrv (w : W) r : fillInfo pdrv w (2 ^ 23) = Some r -> r.1.1 = 0.
Proof.
  unfold fillInfo. destruct (f_getfree _ _) as [[r1 free] csize], (f_getlabel _ _) as [r2 uuid].
  destruct (negb (r1 =? FR_OK)); [done|]. destruct (negb (r2 =? FR_OK)); [done|]. by intros [= <-].
Qed.

(** *** A library that opens everything *)

#[export] Instance any_lib : FatFsLib (gset Z) := {|
  f_stat w p := (4, no_info);
  f_open w p m := (0, fresh w, {[fresh w]} ∪ w);
  f_close w h := w ∖ {[h]};
  f_lseek w h n := (0, w);
  f_tell w h := 0;
  f_size w h := 0;
  f_read w h n := (0, [], w);
  f_write w h l := (0, Z.of_nat (length l), w);
  f_opendir w p := (0, fresh w, {[fresh w]} ∪ w);
  f_readdir w h := (0, no_info, w);
  f_closedir w h := w ∖ {[h]};
  f_unlink w p := (0, w);
  f_mkdir w p := (0, w);
  f_getfree w p := (0, 0, 0);
  f_getlabel w p := (0, 0) |}.

#[export] Instance any_laws : FatFsLaws (gset Z).
Proof.
  refine {| opened w := w |}; try done; intros; cbn in *; simplify_eq; cbn; (split; [apply is_fresh|done]).
Defined.

Lemma fat_handles_balanced_witness :
  balanced (foldl (run1 3) (∅ : gset Z, []) [Open (Some "/a"%string) 1; Opendir None; Write 1 [7]; Close 1; Close 0; Open (Some "/b"%string) 2]).
Proof. apply (fat_handles_balanced 3 (∅ : gset Z)). reflexivity. Defined.
End FatThms.
