(* ===== verification/TaskCalls.v ===== *)
(** * System calls on processes and on the system
    (kernel/src/syscalls/impl/process.cpp, system.cpp, features/check.cpp, yield.cpp)

    [TaskCalls] has the handlers that hand over to the process manager of [Kernel] and
    [Lifecycle], the listing of processes, the current directory, and the questions about
    the system; a handler that has to wait answers [None] for its result, and is entered
    again when its process is scheduled.  [TaskThms] shows that the listing has every process
    exactly once and stays inside of the caller's array. *)

From stdpp Require Import base numbers list gmap option strings sorting.
From Stdlib Require Import ZArith Lia.
From S2P Require Import Prelude Tables Files Kernel Lifecycle Invariant System Syscalls ProcessThms.

Local Open Scope Z_scope.

Module TaskCalls.
Import Abi Proc Kernel PM.

Implicit Types k : kernel.

Definition yield_syscall_handler : Z := ACT_YIELD.

Definition sleep_syscall_handler k (interval : Z) : option (Z * kernel) := k ← PM.sleep k interval; Some (OK, k).

(** [reaper] exits with the status of the word; it does not return. *)
Definition reaper k (exitword : Z) : option kernel := Life.exit_current k (ofWord exitword).
Definition cleanExit : Z := 1.
Definition exit_syscall_handler k (code : Z) : option (Z * kernel) :=
  k ← reaper k (toWord (mkStatus cleanExit code)); Some (OK, k).

Definition PROCESS_IS_FOREGROUND : Z := 1.

(** [exec]: the address space, the loader and the pages of the new process are given. *)
Definition exec_syscall_handler k (new_cr3 fileloader : Z) (path_ : string) (args_ : option (list string)) (env : list string)
    (flags_ : Z) (fops : list Life.fileop) (prio : Life.exec_priority_t) (pages : Z * Z * Z) (ttyfile : Z) : option (Z * kernel) :=
  '(newproc, k) ← Life.exec k new_cr3 fileloader path_ args_ env flags_ prio 0 fops pages ttyfile;
  match newproc with
  | None => Some (ERR NO_SUCH_PROCESS, k)
  | Some a =>
      p ← procs k !! a;
      k ← (if negb (Z.land flags_ PROCESS_IS_FOREGROUND =? 0) then Life.pushfg k (tty p) (pid p) else Some k);
      Some (OK_value (Z.of_nat (pid p)), k)
  end.

Definition clone_syscall_handler k (new_cr3 clone_start neweip : Z) (fops : list Life.fileop) (pages : Z * Z * Z) (ttyfile : Z)
    : option (Z * kernel) :=
  '(newproc, k) ← Life.cloneProcess k new_cr3 clone_start neweip fops pages ttyfile;
  match newproc with
  | None => Some (ERR NO_SUCH_PROCESS, k)
  | Some a => p ← procs k !! a; Some (OK_value (Z.of_nat (pid p)), k)
  end.

(** The result with the status that is stored; no result when the caller waits *)
Definition collect_syscall_handler k (p : nat) : option (option (Z * exit_status) * kernel) :=
  '(s, k) ← Life.collect k p; Some (match s with Some s => Some (OK, s) | None => None end, k).

Definition collectany_syscall_handler k (wait : bool) : option (option (Z * option (nat * exit_status)) * kernel) :=
  '(r, k) ← Life.collectany k wait;
  Some (match r with
        | Life.Collected p s => Some (OK, Some (p, s))
        | Life.MustWait => None
        | Life.Nothing => Some (ERR NO_SUCH_PROCESS, None)
        end, k).

(** *** The listing of processes *)

Record process_info_t := mkInfo {
  i_pid : nat; i_ppid : nat; i_state : State; i_path : string; i_vmspace : Z; i_pmspace : Z;
  i_runtime : Z; i_ctxswitches : Z; i_diskReadBytes : Z; i_diskWrittenBytes : Z; i_system : bool }.

Definition gMaxPathSize : nat := 255.

(** What the process system does not keep: memory in use, available and allocated, and bytes
    read and written; [kernel_size]: the image and the heap of the kernel *)
Record process_stats := mkProcStats { s_available : Z; s_allocated : Z; s_read : Z; s_written : Z }.

Section Table.
Context (stats : Z -> process_stats) (kernel_size : Z).

Definition info_of (a : Z) (p : process_t) : process_info_t := {|
  i_pid := pid p; i_ppid := ppid p; i_state := state p;
  i_path := match path p with Some s => String.substring 0 gMaxPathSize s | None => "" end;
  i_vmspace := if (pid p =? 0)%nat then 2 ^ 30 else s_available (stats a);
  i_pmspace := if (pid p =? 0)%nat then kernel_size else s_allocated (stats a);
  i_runtime := runtime (runtimestats p); i_ctxswitches := ctxswitches (runtimestats p);
  i_diskReadBytes := s_read (stats a); i_diskWrittenBytes := s_written (stats a); i_system := system p |}.

(** [numProcesses] *)
Definition numProcesses k : Z := ProcessTable.size (gProcessTable k).

(** The result and the entries written, from the start of the array on *)
Definition proctable_syscall_handler k (info_null : bool) (count : Z) : option (Z * list process_info_t) :=
  if (count =? 0) || info_null || (count <? numProcesses k) then Some (Z.lor 1 (u32 (Z.shiftl (numProcesses k) 1)), [])
  else
    info ← ProcessTable.foreach (fun (s : option (list process_info_t)) a => (l ← s; p ← procs k !! a; Some (l ++ [info_of a p]), true))
             (Some []) (gProcessTable k);
    Some (OK, info).
End Table.

(** *** The current directory *)

(** [opendir]: whether the path is that of a directory, which is closed again *)
Definition setcurdir_syscall_handler (is_directory : string -> bool) k (arg : option string) : option (Z * kernel) :=
  if negb (VFS.isAbsolutePath arg) then Some (ERR NO_SUCH_FILE, k)
  else
    let arg := default EmptyString arg in
    if is_directory arg then
      k ← upd k (gCurrentProcess k) (fun p => {|
        Proc.pid := pid p; ppid := ppid p; gdtidx := gdtidx p; path := path p; args := args p; cwd := arg; environ := environ p;
        state := state p; tss := tss p; espstart := espstart p; esp0start := esp0start p; tty := tty p; fds := fds p;
        priority := priority p; usedticks := usedticks p; flags := flags p; runtimestats := runtimestats p;
        exitstatus := exitstatus p; children := children p; sleeptill := sleeptill p; waitToken := waitToken p;
        wakeReason := wakeReason p |});
      Some (OK, k)
    else Some (ERR NO_SUCH_FILE, k).

(** *** The system *)

Definition gFeatureIdPuppy : Z := 0.
Definition gFeatureIdExecInheritsSystem : Z := 0xEEC.
Definition gFeatureIdInvalid : Z := 0xFEAFEAFEAFEAFEA0.
Definition gEnabledFeatures : list Z := [gFeatureIdPuppy; gFeatureIdExecInheritsSystem].

Definition hasFeature (f : Z) : bool :=
  if f =? gFeatureIdInvalid then false else existsb (fun g => g =? f) gEnabledFeatures.

(** The array ends with a zero; [None] is the end of the memory it is in. *)
Fixpoint check_features (features : list Z) : option Z :=
  match features with
  | [] => None
  | f :: features => if f =? 0 then Some OK else if negb (hasFeature f) then Some (ERR UNIMPLEMENTED) else check_features features
  end.
Definition checkfeatures_syscall_handler (features : option (list Z)) : option Z :=
  match features with None => Some OK | Some l => check_features l end.

Definition INCLUDE_GLOBAL_INFO : Z := 1.
Definition INCLUDE_LOCAL_INFO : Z := 2.

Record sysinfo_global := mkGlobal { g_uptime : Z; g_totalmem : Z; g_freemem : Z; g_ctxswitches : Z }.
Record sysinfo_local := mkLocal { l_runtime : Z; l_committed : Z; l_pagefaults : Z; l_allocated : Z; l_ctxswitches : Z }.

(** [mem]: total and free memory; [own]: what the process has committed, its page faults and
    the size of its regions *)
Definition sysinfo_syscall_handler k (mem : Z * Z) (own : Z * Z * Z) (fill : Z)
    : option (Z * option sysinfo_global * option sysinfo_local) :=
  cur ← procs k !! gCurrentProcess k;
  let '(committed, pagefaults, allocated) := own in
  Some (OK,
    (if negb (Z.land fill INCLUDE_GLOBAL_INFO =? 0) then Some (mkGlobal (now k) mem.1 mem.2 (gNumCtxSwitches k)) else None),
    (if negb (Z.land fill INCLUDE_LOCAL_INFO =? 0)
     then Some (mkLocal (runtime (runtimestats cur)) committed pagefaults allocated (ctxswitches (runtimestats cur))) else None)).

End TaskCalls.

Module TaskThms.
Import Abi Proc Kernel PM TaskCalls.

(** Entries that sit at their own number come in increasing order. *)
Lemma slots_sorted {A} (f : A -> nat) (l : list (option A)) : forall off, (forall i a, l !! i = Some (Some a) -> f a = (off + i)%nat) ->
  StronglySorted lt (f <$> omap id l) /\ Forall (fun n => (off <= n)%nat) (f <$> omap id l).
Proof.
  induction l as [|e l IH]; intros off Hl; [by split; constructor|].
  destruct (IH (S off)) as [Hs Hf]; [intros i a Ha; rewrite (Hl (S i) a Ha); lia|].
  assert (Hf' : Forall (fun n => (off <= n)%nat) (f <$> omap id l)) by (eapply list.Forall_impl; [exact Hf|cbn; lia]).
  destruct e as [a|]; cbn [omap list_omap id]; [|done]. rewrite fmap_cons. pose proof (Hl 0%nat a eq_refl) as Ha.
  split; [constructor; [done|]|constructor; [lia|done]]. eapply list.Forall_impl; [exact Hf|cbn; lia].
Qed.

Lemma omap_id_elem {A} (l : list (option A)) a : a ∈ omap id l <-> exists i, l !! i = Some (Some a).
Proof.
  rewrite list_elem_of_omap. split.
  - intros (x & Hx & Ex). cbn in Ex. subst x. by apply list_elem_of_lookup_1.
  - intros [i Hi]. exists (Some a). split; [by eapply list_elem_of_lookup_2|done].
Qed.

Section Listing.
Context (stats : Z -> process_stats) (kernel_size : Z).

(** The loop over processes that are there *)
Lemma listing_loop k l acc : Forall (fun a => is_Some (procs k !! a)) l ->
  exists info, foldl (fun s a => (l ← s; p ← procs k !! a; Some (l ++ [info_of stats kernel_size a p]))) (Some acc) l = Some (acc ++ info)
    /\ Forall2 (fun a i => exists p, procs k !! a = Some p /\ i = info_of stats kernel_size a p) l info.
Proof.
  revert acc. induction l as [|a l IH]; intros acc Hl; [exists []; split; [by rewrite app_nil_r|constructor]|].
  apply Forall_cons_1 in Hl as [[p Hp] Hl]. cbn [foldl mbind option_bind]. rewrite Hp. cbn [mbind option_bind].
  destruct (IH (acc ++ [info_of stats kernel_size a p]) Hl) as (info & E & H2). exists (info_of stats kernel_size a p :: info).
  rewrite E, <- app_assoc. split; [done|]. constructor; [by exists p|done].
Qed.

Lemma listing_spec k : Invariant.Invariant.tbl k ->
  let n := numProcesses k in
  (forall null count, count = 0 \/ null = true \/ count < n ->
     proctable_syscall_handler stats kernel_size k null count = Some (2 * n + 1, []))
  /\ (forall count, 0 < count -> n <= count ->
     exists info, proctable_syscall_handler stats kernel_size k false count = Some (OK, info)
       /\ Z.of_nat (length info) = n
       /\ StronglySorted lt (i_pid <$> info)
       /\ (forall p, p ∈ i_pid <$> info <-> is_Some (getprocess k p))
       /\ forall i, i ∈ info -> exists a p, getprocess k (i_pid i) = Some a /\ procs k !! a = Some p /\ i = info_of stats kernel_size a p).
Proof.
  intros Ht n. pose proof (Invariant.Invariant.tb_pt _ Ht) as Hok. set (l := omap id (ProcessTable.mTable (gProcessTable k))).
  assert (Hn : n = Z.of_nat (length l)) by apply (ProcessTable.t_size _ _ _ Hok).
  assert (Hle : (length l <= gNumProcesses)%nat).
  { rewrite <- (ProcessTable.t_len _ _ _ Hok). apply (ProcessTable.count_bound gNumProcesses). }
  assert (Hin : forall a, a ∈ l <-> getprocess k (pid_of k a) = Some a).
  { intros a. unfold l. rewrite omap_id_elem. unfold getprocess, ProcessTable.get. split.
    - intros [i Hi]. by rewrite (ProcessTable.t_pid _ _ _ Hok i a Hi), Hi.
    - intros H. exists (pid_of k a). by destruct (ProcessTable.mTable (gProcessTable k) !! pid_of k a); cbn in H; subst. }
  split.
  - intros null count Hc. unfold proctable_syscall_handler. fold n.
    assert (Hcond : (count =? 0) || null || (count <? n) = true) by (rewrite !orb_true_iff, Z.eqb_eq, Z.ltb_lt; tauto). rewrite Hcond. do 2 f_equal.
    rewrite u32_id by (rewrite Z.shiftl_mul_pow2 by lia; unfold is_u, gNumProcesses in *; lia). rewrite lor_fields by lia. lia.
  - intros count H0 Hc. unfold proctable_syscall_handler. fold n.
    rewrite (proj2 (Z.eqb_neq count 0)), (proj2 (Z.ltb_ge count n)) by lia. cbn [orb].
    unfold ProcessTable.foreach. rewrite foreach_stop_all by done. cbn [fst]. fold l. destruct (listing_loop k l []) as (info & E & H2).
    { apply list.Forall_forall. intros a Hl. apply Hin in Hl. unfold getprocess in Hl.
      destruct (ProcessTable.get (gProcessTable k) (pid_of k a)) as [[]|] eqn:Eg; cbn in Hl; simplify_eq. by eapply (Invariant.Invariant.tb_live _ Ht). }
    rewrite E. cbn [mbind option_bind app]. exists info. split; [done|].
    assert (Epid : i_pid <$> info = pid_of k <$> l).
    { clear -H2. induction H2 as [|a i l info (p & Hp & ->) _ IH]; [done|]. rewrite !fmap_cons, IH. f_equal. unfold pid_of. by rewrite Hp. }
    split_and!.
    + rewrite Hn. f_equal. symmetry. by eapply Forall2_length.
    + rewrite Epid. apply (slots_sorted (pid_of k) _ 0). intros i a Hi. by apply (ProcessTable.t_pid _ _ _ Hok).
    + intros p. rewrite Epid, list_elem_of_fmap. split.
      * intros (a & -> & Hl). apply Hin in Hl. by rewrite Hl.
      * intros [a Hp]. assert (Ea : pid_of k a = p).
        { unfold getprocess, ProcessTable.get in Hp. apply (ProcessTable.t_pid _ _ _ Hok p a).
          by destruct (ProcessTable.mTable (gProcessTable k) !! p); cbn in Hp; subst. }
        exists a. split; [done|]. apply Hin. by rewrite Ea.
    + intros i Hi. apply list_elem_of_lookup_1 in Hi as [j Hj]. destruct (Forall2_lookup_r _ _ _ _ _ H2 Hj) as (a & Hj' & p & Hp & ->).
      exists a, p. assert (Hl : a ∈ l) by (by eapply list_elem_of_lookup_2). apply Hin in Hl. unfold pid_of in Hl. by rewrite Hp in Hl.
Qed.

End Listing.


(** *** Defects *)

(** A zero ends the array of features, and zero is the number of the first one: what is asked
    for after it is not looked at. *)
Example features_after_puppy_ignored : checkfeatures_syscall_handler (Some [gFeatureIdPuppy; 0xBAD; 0]) = Some OK.
Proof. reflexivity. Qed.
End TaskThms.
