(* ===== verification/Malloc.v ===== *)
(** * The allocator of the kernel (kernel/src/libc/malloc.cpp)

    Free memory is a circular list of blocks in the order of their addresses, each with a
    header in front of it; a block is taken from the end of the first one that is large
    enough, and merged with its neighbours when it is given back.  [Malloc] is the code over
    the headers in memory; addresses and lengths are in units of a header, eight bytes, of
    which there are 2^29, so that sums of lengths of memory that exists fit in 32 bits.
    [FreeList] says what the list looks like in memory, [HeapRuns] are the calls of the
    kernel with the writes of its other parts to the memory they own, over an interface of
    [ksbrk] of which [KernelMemory] is the instance, and [MallocThms] shows that blocks never
    overlap and that no memory is lost.  What is in the blocks is not modelled: [calloc] and
    [realloc] return how many bytes they clear and copy. *)

From stdpp Require Import base numbers list gmap option sorting.
From Stdlib Require Import ZArith Lia.
From S2P Require Import Prelude.
From S2P Require Import Phys.
From S2P Require Import Virt.

Local Open Scope Z_scope.

Module Malloc.

(** [union header] *)
Record header := mkHeader { next : Z; len : Z }.

Definition NALLOC : Z := 1024.
Definition header_size : Z := 8.

(** [ksbrk], which panics when there is no more memory: [None] *)
Class Sbrk (W : Type) := ksbrk : Z -> W -> option (Z * W).

Section Malloc.
Context {W : Type} `{Sbrk W}.

(** The address of the static header [list], the headers in memory, [first], the rest *)
Context (list_ : Z).
Record heap := mkHeap { mem : gmap Z header; first : option Z; world : W }.

Definition initial (w : W) : heap := mkHeap {[list_ := mkHeader 0 0]} None w.

(** What a member that is not written has: what was in memory *)
Definition stale (m : gmap Z header) (a : Z) : Z := match m !! a with Some h => next h | None => 0 end.

(** The loop of [free] *)
Fixpoint find_spot (fuel : nat) (m : gmap Z header) (block iter : Z) : option Z :=
  match fuel with
  | O => None
  | S fuel =>
      h ← m !! iter;
      if negb ((block <=? iter) || (block >=? next h)) then Some iter
      else if ((block >? iter) || (block <? next h)) && (iter >=? next h) then Some iter
      else find_spot fuel m block (next h)
  end.

(** [free] of a block: the headers and the new [first] *)
Definition free_block (m : gmap Z header) (first block : Z) : option (gmap Z header * Z) :=
  iter ← find_spot (S (size m)) m block first;
  hb ← m !! block;
  hi ← m !! iter;
  hb ← (if block + len hb =? next hi then hn ← m !! next hi; Some (mkHeader (next hn) (len hb + len hn))
        else Some (mkHeader (next hi) (len hb)));
  let m := <[block := hb]> m in
  let hi := if iter + len hi =? block then mkHeader (next hb) (len hi + len hb) else mkHeader block (len hi) in
  Some (<[iter := hi]> m, iter).

(** [free]; [None] for the null pointer *)
Definition free (s : heap) (ptr : option Z) : option heap :=
  match ptr with
  | None => Some s
  | Some ptr =>
      f ← first s;
      '(m, f) ← free_block (mem s) f (ptr - 1);
      Some (mkHeap m (Some f) (world s))
  end.

(** The body of the search when the fragment is large enough *)
Definition take (m : gmap Z header) (true_size prev p : Z) (h : header) : option (gmap Z header * Z) :=
  if len h =? true_size then
    hp ← m !! prev; Some (<[prev := mkHeader (next h) (len hp)]> m, p)
  else
    let m := <[p := mkHeader (next h) (len h - true_size)]> m in
    let p := p + (len h - true_size) in
    Some (<[p := mkHeader (stale m p) true_size]> m, p).

(** More memory from [ksbrk], given to the list *)
Definition grow (m : gmap Z header) (first : Z) (true_size : Z) (w : W) : option (gmap Z header * Z * W) :=
  let sbrk_size := if true_size >=? NALLOC then true_size else NALLOC in
  '(page, w) ← ksbrk (u32 (sbrk_size * header_size)) w;
  let block := page / header_size in
  let m := <[block := mkHeader (stale m block) sbrk_size]> m in
  '(m, first) ← free_block m first block;
  Some (m, first, w).

(** The loop of [malloc]: the block, and the heap *)
Fixpoint search (fuel : nat) (true_size : Z) (m : gmap Z header) (first : Z) (w : W) (prev p : Z) : option (Z * heap) :=
  match fuel with
  | O => None
  | S fuel =>
      h ← m !! p;
      if len h >=? true_size then '(m, p) ← take m true_size prev p h; Some (p, mkHeap m (Some prev) w)
      else
        '(m, first, w, p) ← (if p =? first then '(m, first, w) ← grow m first true_size w; Some (m, first, w, first)
                             else Some (m, first, w, p));
        h ← m !! p;
        search fuel true_size m first w p (next h)
  end.

Definition true_size (size : Z) : Z := u32 (size + header_size - 1) / header_size + 1.

(** The list is made when it is asked for memory first. *)
Definition start (s : heap) : gmap Z header * Z :=
  match first s with
  | Some f => (mem s, f)
  | None => (<[list_ := mkHeader list_ 0]> (mem s), list_)
  end.

Definition malloc (s : heap) (size : Z) : option (Z * heap) :=
  let '(m, f) := start s in
  h ← m !! f;
  '(p, s) ← search (S (S (2 * base.size m))) (true_size size) m f (world s) f (next h);
  Some (p + 1, s).

(** [calloc]: the product has 32 bits; how many bytes are cleared *)
Definition calloc (s : heap) (num len_ : Z) : option (Z * Z * heap) :=
  '(ptr, s) ← malloc s (u32 (num * len_));
  Some (ptr, u32 (num * len_), s).

(** [realloc]: the number of bytes that are copied is the smaller of the new size and the
    old one, which is taken to be zero *)
Definition realloc (s : heap) (ptr : option Z) (new_size : Z) : option (Z * Z * heap) :=
  let old_size := 0 in
  '(newp, s) ← malloc s new_size;
  let copied := if new_size >? old_size then old_size else new_size in
  s ← free s ptr;
  Some (newp, copied, s).

End Malloc.
End Malloc.

(** ** The list in memory *)

Module FreeList.
Import Malloc.

(** A block: where it starts, and its length *)
Definition blk : Type := Z * Z.

Definition head_of (l : list blk) (e : Z) : Z := match l with [] => e | b :: _ => b.1 end.

(** The headers of a piece of the list, the last of which leads to [e] *)
Fixpoint seg (m : gmap Z header) (l : list blk) (e : Z) : Prop :=
  match l with
  | [] => True
  | (a, n) :: l => m !! a = Some (mkHeader (head_of l e) n) /\ seg m l e
  end.

Definition before (x y : blk) : Prop := x.1 + x.2 < y.1.
Definition in_blk (u : Z) (b : blk) : Prop := b.1 <= u < b.1 + b.2.
Definition covered (u : Z) (l : list blk) : Prop := Exists (in_blk u) l.

Lemma seg_app m l1 l2 e : seg m (l1 ++ l2) e <-> seg m l1 (head_of l2 e) /\ seg m l2 e.
Proof.
  induction l1 as [|[a n] l1 IH]; cbn [app seg]; [tauto|]. rewrite IH.
  assert (Hh : head_of (l1 ++ l2) e = head_of l1 (head_of l2 e)) by (by destruct l1). rewrite Hh. tauto.
Qed.

Lemma seg_insert m l e a h : a ∉ l.*1 -> seg (<[a := h]> m) l e <-> seg m l e.
Proof.
  induction l as [|[b n] l IH]; [done|]. rewrite fmap_cons, not_elem_of_cons. cbn [fst seg]. intros [Hne Hl].
  rewrite lookup_insert_ne by done. by rewrite IH.
Qed.

Lemma seg_lookup m l e a n : seg m l e -> (a, n) ∈ l -> exists nx, m !! a = Some (mkHeader nx n).
Proof.
  induction l as [|[b k] l IH]; [by intros _ ?%elem_of_nil|]. cbn [seg]. intros [Hb Hl] [[= -> ->]|Hin]%elem_of_cons; [by eexists|by apply IH].
Qed.

(** Sorted lists with gaps: every block after [x] is behind its end. *)
Abbreviation ordered := (StronglySorted before).

Definition positive (l : list blk) : Prop := Forall (fun b => 0 <= b.2) l.

Lemma ordered_app l1 x l2 : ordered (l1 ++ x :: l2) <->
  ordered l1 /\ ordered (x :: l2) /\ Forall (fun y => Forall (before y) (x :: l2)) l1.
Proof.
  induction l1 as [|y l1 IH]; cbn [app]; [split; [intros H; split_and!; [constructor|done|constructor]|tauto]|]. split.
  - intros H. apply StronglySorted_inv in H as [Hs Hf]. apply IH in Hs as (H1 & H2 & H3). apply Forall_app in Hf as [Hf1 Hf2].
    split_and!; [by constructor|done|by constructor].
  - intros (H1 & H2 & H3). apply StronglySorted_inv in H1 as [Hs Hf]. apply Forall_cons_1 in H3 as [Hy H3]. constructor; [by apply IH|].
    by apply Forall_app.
Qed.

Lemma ordered_addr l1 x l2 y : positive (l1 ++ x :: l2) -> ordered (l1 ++ x :: l2) -> y ∈ l1 -> y.1 < x.1.
Proof.
  intros Hp H Hy. apply ordered_app in H as (_ & _ & H). apply (proj1 (list.Forall_forall _ _) H) in Hy as Hf.
  apply Forall_cons_1 in Hf as [Hb _]. apply Forall_app in Hp as [Hp _]. apply (proj1 (list.Forall_forall _ _) Hp) in Hy. unfold before in Hb. cbn in *. lia.
Qed.

Lemma ordered_nodup l : positive l -> ordered l -> NoDup l.*1.
Proof.
  induction l as [|x l IH]; intros Hp H; [constructor|]. apply StronglySorted_inv in H as [Hs Hf]. apply Forall_cons_1 in Hp as [Hx Hp].
  rewrite fmap_cons. constructor; [|by apply IH]. intros (y & Ey & Hy)%list_elem_of_fmap.
  apply (proj1 (list.Forall_forall _ _) Hf) in Hy. unfold before in Hy. lia.
Qed.

Lemma length_le_size m l e : positive l -> ordered l -> seg m l e -> (length l <= size m)%nat.
Proof.
  intros Hp Ho Hs. assert (Hle : (size (list_to_set l.*1 : gset Z) <= size (dom m))%nat).
  { apply subseteq_size. intros a Ha. apply elem_of_list_to_set, list_elem_of_fmap in Ha as ([b n] & -> & Hb).
    destruct (seg_lookup _ _ _ _ _ Hs Hb) as [nx Hn]. apply elem_of_dom. by eexists. }
  rewrite size_list_to_set, length_fmap, size_dom in Hle by (by apply ordered_nodup). exact Hle.
Qed.

(** *** The loop of [free] *)

Section Spot.
Context (m : gmap Z header) (list_ a : Z).

(** Going forward to the block in front of [a] *)
Lemma spot_forward l x l2 e : positive (l ++ x :: l2) -> ordered (l ++ x :: l2) -> seg m (l ++ x :: l2) e ->
  x.1 < a -> (l2 = [] -> e <= x.1) -> (forall y l', l2 = y :: l' -> a < y.1) ->
  forall k, find_spot (S (length l) + k) m a (head_of (l ++ x :: l2) e) = Some x.1.
Proof.
  intros Hp Ho Hs Hx He Hl2 k. induction l as [|y l IH]; cbn [app] in *.
  - destruct x as [xa xn]. cbn [seg] in Hs. destruct Hs as [Hm _]. cbn [length Nat.add find_spot head_of fst]. rewrite Hm. cbn [mbind option_bind next fst] in *.
    destruct l2 as [|[ya yn] l2]; cbn [head_of fst].
    + specialize (He eq_refl). destruct (negb _) eqn:E1; [done|]. assert (E2 : ((a >? xa) || (a <? e)) && (xa >=? e) = true); [|by rewrite E2].
      rewrite andb_true_iff, orb_true_iff. lia.
    + specialize (Hl2 _ _ eq_refl). cbn in Hl2. assert (E1 : negb ((a <=? xa) || (a >=? ya)) = true); [|by rewrite E1].
      rewrite negb_true_iff, orb_false_iff. lia.
  - assert (Hz : y.1 < head_of (l ++ x :: l2) e <= x.1).
    { pose proof (ordered_addr (y :: l) x l2) as Hlt. cbn [app] in Hlt. apply StronglySorted_inv in Ho as Hyl. destruct Hyl as [_ Hf].
      apply Forall_cons_1 in Hp as Hpy. destruct Hpy as [Hpy _]. destruct l as [|w l]; cbn [app head_of] in *.
      - apply Forall_cons_1 in Hf as [Hf _]. unfold before in Hf. lia.
      - apply Forall_cons_1 in Hf as [Hf _]. specialize (Hlt w Hp Ho ltac:(right; left)). unfold before in Hf. lia. }
    destruct y as [ya yn]. cbn [seg] in Hs. destruct Hs as [Hm Hs]. apply Forall_cons_1 in Hp as [_ Hp]. apply StronglySorted_inv in Ho as [Ho _].
    specialize (IH Hp Ho Hs). set (z := head_of (l ++ x :: l2) e) in *. cbn [length Nat.add find_spot head_of fst] in *. rewrite Hm. cbn [mbind option_bind next].
    assert (E1 : negb ((a <=? ya) || (a >=? z)) = false) by (rewrite negb_false_iff, orb_true_iff; lia). rewrite E1.
    assert (E2 : ((a >? ya) || (a <? z)) && (ya >=? z) = false) by (rewrite andb_false_iff; lia). rewrite E2. exact IH.
Qed.

(** Going from a block behind [a] around to the start of the list *)
Lemma spot_around l : positive l -> ordered l -> seg m l list_ -> list_ < a -> Forall (fun y => a < y.1) l ->
  forall k, find_spot (length l + k) m a (head_of l list_) = find_spot k m a list_.
Proof.
  intros Hp Ho Hs Hl Ha k. induction l as [|[ya yn] l IH]; [done|]. cbn [seg] in Hs. destruct Hs as [Hm Hs].
  apply Forall_cons_1 in Ha as [Hy Ha]. apply Forall_cons_1 in Hp as [Hpy Hp]. apply StronglySorted_inv in Ho as [Ho Hf]. specialize (IH Hp Ho Hs Ha).
  assert (Hz : l = [] /\ head_of l list_ = list_ \/ ya < head_of l list_).
  { destruct l as [|w l]; [by left|right]. apply Forall_cons_1 in Hf as [Hf _]. unfold before in Hf. cbn in *. lia. }
  set (z := head_of l list_) in *. cbn [length Nat.add find_spot head_of fst] in *. rewrite Hm. cbn [mbind option_bind next].
  assert (E1 : negb ((a <=? ya) || (a >=? z)) = false) by (rewrite negb_false_iff, orb_true_iff; lia). rewrite E1.
  assert (E2 : ((a >? ya) || (a <? z)) && (ya >=? z) = false) by (rewrite andb_false_iff, orb_false_iff; lia). rewrite E2. exact IH.
Qed.

(** The loop ends at the block in front of [a], wherever in the list it starts. *)
Lemma find_spot_spec l1 x l2 f : positive (l1 ++ x :: l2) -> ordered (l1 ++ x :: l2) -> seg m (l1 ++ x :: l2) list_ ->
  head_of (l1 ++ x :: l2) list_ = list_ -> x.1 < a -> Forall (fun y => a < y.1) l2 -> f ∈ (l1 ++ x :: l2).*1 ->
  find_spot (S (size m)) m a f = Some x.1.
Proof.
  intros Hp Ho Hs Hh Hx Hl2 Hf. pose proof (length_le_size _ _ _ Hp Ho Hs) as Hsz. rewrite length_app in Hsz. cbn [length] in Hsz.
  assert (Hlx : list_ <= x.1).
  { destruct l1 as [|y l1]; cbn in Hh; [lia|]. pose proof (ordered_addr (y :: l1) x l2 y Hp Ho ltac:(left)). lia. }
  assert (He : l2 = [] -> list_ <= x.1) by done.
  assert (Hn : forall y l', l2 = y :: l' -> a < y.1) by (intros y l' ->; by apply Forall_cons_1 in Hl2 as [? _]).
  apply list_elem_of_fmap in Hf as (y & -> & Hy). apply elem_of_app in Hy as [Hy|Hy].
  - apply list_elem_of_split in Hy as (la & lb & ->). rewrite <- app_assoc in Hp, Ho, Hs, Hh. cbn [app] in Hp, Ho, Hs, Hh.
    apply Forall_app in Hp as [_ Hp]. apply ordered_app in Ho as (_ & Ho & _). apply seg_app in Hs as [_ Hs].
    pose proof (spot_forward (y :: lb) x l2 list_ Hp Ho Hs Hx He Hn (size m - length (y :: lb))%nat) as E. cbn [app head_of] in E.
    rewrite length_app in Hsz. cbn [length] in Hsz, E. by replace (S (S (length lb)) + (size m - S (length lb)))%nat with (S (size m)) in E by lia.
  - apply elem_of_cons in Hy as [->|Hy].
    + apply Forall_app in Hp as [_ Hp]. apply ordered_app in Ho as (_ & Ho & _). apply seg_app in Hs as [_ Hs].
      exact (spot_forward [] x l2 list_ Hp Ho Hs Hx He Hn (size m)).
    + apply list_elem_of_split in Hy as (la & lb & ->).
      assert (Hsuf : positive (y :: lb) /\ ordered (y :: lb) /\ seg m (y :: lb) list_ /\ Forall (fun y => a < y.1) (y :: lb)).
      { apply Forall_app in Hp as [_ Hp]. apply Forall_cons_1 in Hp as [_ Hp]. apply Forall_app in Hp as [_ Hp].
        apply ordered_app in Ho as (_ & Ho & _). apply StronglySorted_inv in Ho as [Ho _]. apply ordered_app in Ho as (_ & Ho & _).
        apply seg_app in Hs as [_ Hs]. destruct x as [xa xn]. cbn [seg] in Hs. destruct Hs as [_ Hs]. apply seg_app in Hs as [_ Hs].
        apply Forall_app in Hl2 as [_ Hl2]. by split_and!. }
      destruct Hsuf as (Hp' & Ho' & Hs' & Ha'). pose proof (spot_around (y :: lb) Hp' Ho' Hs' ltac:(lia) Ha' (S (size m) - length (y :: lb))%nat) as E.
      cbn [head_of] in E. rewrite length_app in Hsz. cbn [length] in Hsz, E.
      replace (S (length lb) + (S (size m) - S (length lb)))%nat with (S (size m)) in E by lia. rewrite E.
      pose proof (spot_forward l1 x (la ++ y :: lb) list_ Hp Ho Hs Hx He Hn (size m - length lb - S (length l1))%nat) as E2. rewrite Hh in E2.
      by replace (S (length l1) + (size m - length lb - S (length l1)))%nat with (S (size m) - S (length lb))%nat in E2 by lia.
Qed.
End Spot.

(** *** The whole list *)

Section List.
Context (list_ : Z).

(** The list is the static header, of length zero, and the blocks in [bs]; [f] is one of them. *)
Record rep (m : gmap Z header) (f : Z) (bs : list blk) : Prop := {
  rep_seg : seg m ((list_, 0) :: bs) list_;
  rep_ordered : ordered ((list_, 0) :: bs);
  rep_pos : Forall (fun b : blk => 0 < b.2) bs;
  rep_first : f ∈ ((list_, 0) :: bs).*1 }.

Lemma rep_positive m f bs : rep m f bs -> positive ((list_, 0) :: bs).
Proof. intros R. constructor; [done|]. eapply list.Forall_impl; [apply R|cbn; lia]. Qed.

Lemma covered_in u b l : b ∈ l -> in_blk u b -> covered u l.
Proof. intros. apply Exists_exists. by exists b. Qed.

Lemma split_at a l : positive l -> ordered l -> a ∉ l.*1 ->
  exists p q, l = p ++ q /\ Forall (fun y => y.1 < a) p /\ Forall (fun y => a < y.1) q.
Proof.
  induction l as [|y l IH]; intros Hp Ho Ha; [by exists [], []|]. rewrite fmap_cons, not_elem_of_cons in Ha. destruct Ha as [Hy Ha].
  apply Forall_cons_1 in Hp as [Hpy Hp]. apply StronglySorted_inv in Ho as [Ho Hf]. destruct (decide (y.1 < a)) as [Hlt|Hge].
  - destruct (IH Hp Ho Ha) as (p & q & -> & H1 & H2). exists (y :: p), q. split_and!; [done|by constructor|done].
  - exists [], (y :: l). split_and!; [done|constructor|]. constructor; [lia|]. eapply list.Forall_impl; [exact Hf|]. intros z Hz. unfold before in Hz. cbn in *. lia.
Qed.

(** Where a block that is not in the list belongs *)
Lemma rep_split m f bs a n : rep m f bs -> list_ < a -> 0 < n -> (forall u, a <= u < a + n -> ~ covered u bs) ->
  exists l1 x l2, (list_, 0) :: bs = l1 ++ x :: l2 /\ x.1 < a /\ x.1 + x.2 <= a /\ Forall (fun y => a + n <= y.1) l2.
Proof.
  intros R Hl Hn Hd. pose proof (rep_positive _ _ _ R) as Hp. pose proof (rep_ordered _ _ _ R) as Ho.
  assert (Hin : forall b, b ∈ (list_, 0) :: bs -> b.1 < a -> b.1 + b.2 <= a).
  { intros b [->|Hb]%elem_of_cons Hba; [cbn; lia|]. destruct (decide (b.1 + b.2 <= a)); [done|]. exfalso.
    apply (Hd a); [lia|]. eapply covered_in; [exact Hb|]. unfold in_blk. lia. }
  assert (Hout : forall b, b ∈ bs -> a <= b.1 -> a + n <= b.1).
  { intros b Hb Hba. destruct (decide (a + n <= b.1)); [done|]. exfalso. apply (Hd b.1); [lia|]. eapply covered_in; [exact Hb|].
    pose proof (proj1 (list.Forall_forall _ _) (rep_pos _ _ _ R) b Hb) as Hpb. cbn in Hpb. unfold in_blk. lia. }
  assert (Ha : a ∉ ((list_, 0) :: bs).*1).
  { intros (b & -> & Hb)%list_elem_of_fmap. apply elem_of_cons in Hb as [->|Hb]; [cbn in Hl; lia|]. pose proof (Hout b Hb ltac:(lia)). lia. }
  destruct (split_at a _ Hp Ho Ha) as (p & q & E & H1 & H2). destruct p as [|x p _] using rev_ind.
  { cbn in E. subst q. apply Forall_cons_1 in H2 as [H2 _]. cbn in H2. lia. }
  rewrite <- app_assoc in E. cbn in E. exists p, x, q. apply Forall_app in H1 as [_ Hx]. apply Forall_cons_1 in Hx as [Hx _].
  split_and!; [done|done| |].
  - apply Hin; [|done]. rewrite E. apply elem_of_app. right. by left.
  - apply list.Forall_forall. intros y Hy. pose proof (proj1 (list.Forall_forall _ _) H2 y Hy) as Hya. cbn in Hya. apply Hout; [|lia].
    assert (Hy' : y ∈ (list_, 0) :: bs) by (rewrite E; apply elem_of_app; right; by right). apply elem_of_cons in Hy' as [->|?]; [cbn in Hya; lia|done].
Qed.

(** Merging with the block behind *)
Lemma merge_right m a n l2 : 0 < n -> seg m l2 list_ -> ordered l2 -> Forall (fun b : blk => 0 < b.2) l2 -> Forall (fun y => a + n <= y.1) l2 ->
  list_ < a ->
  exists k (T : list blk), (if a + n =? head_of l2 list_ then hn ← m !! head_of l2 list_; Some (mkHeader (next hn) (n + len hn)) else Some (mkHeader (head_of l2 list_) n))
      = Some (mkHeader (head_of T list_) k)
    /\ 0 < k /\ seg m T list_ /\ ordered ((a, k) :: T) /\ Forall (fun b : blk => 0 < b.2) T /\ T.*1 ⊆ l2.*1
    /\ (forall u, covered u ((a, k) :: T) <-> covered u l2 \/ a <= u < a + n) /\ (length T <= length l2)%nat /\ n <= k.
Proof.
  intros Hn Hs Ho Hp Hf Hl. destruct l2 as [|[y ny] l2]; cbn [head_of fst].
  { exists n, []. rewrite (proj2 (Z.eqb_neq _ _)) by lia. split_and!; try done; try lia.
    { repeat constructor. }
    intros u. unfold covered. rewrite Exists_cons, !Exists_nil. unfold in_blk. cbn. tauto. }
  apply Forall_cons_1 in Hf as [Hy Hf]. apply Forall_cons_1 in Hp as [Hny Hp]. cbn [seg fst snd] in *. destruct Hs as [Hm Hs].
  apply StronglySorted_inv in Ho as [Ho Hb]. destruct (Z.eqb_spec (a + n) y) as [<-|Hne].
  - exists (n + ny), l2. rewrite Hm. cbn [mbind option_bind next len]. split_and!; try done; try (cbn; lia); [ | |].
    + constructor; [done|]. eapply list.Forall_impl; [exact Hb|]. intros z Hz. unfold before in *. cbn in *. lia.
    + rewrite fmap_cons. set_solver.
    + intros u. unfold covered. rewrite !Exists_cons. unfold in_blk. cbn. intuition lia.
  - exists n, ((y, ny) :: l2). split_and!; try done; try lia; [|by constructor|].
    + constructor; [by constructor|]. constructor; [unfold before; cbn; lia|]. eapply list.Forall_impl; [exact Hb|]. intros z Hz. unfold before in *. cbn in *. lia.
    + intros u. unfold covered. rewrite (Exists_cons _ (a, n)). unfold in_blk at 1. cbn [fst snd]. tauto.
Qed.

(** The static header with blocks that are not empty *)
Definition whole (l : list blk) : Prop := exists bs, l = (list_, 0) :: bs /\ Forall (fun b : blk => 0 < b.2) bs.

Lemma rep_whole m f bs : rep m f bs -> whole ((list_, 0) :: bs).
Proof. intros R. exists bs. split; [done|apply R]. Qed.

Lemma whole_rep m f l : whole l -> seg m l list_ -> ordered l -> f ∈ l.*1 -> rep m f (tail l) /\ (list_, 0) :: tail l = l.
Proof. intros (bs & -> & Hp) Hs Ho Hf. split; [by constructor|done]. Qed.

Lemma whole_behind l1 z r r' : whole (l1 ++ z :: r) -> Forall (fun b : blk => 0 < b.2) r' -> whole (l1 ++ z :: r').
Proof.
  intros (bs & E & Hp) Hr. destruct l1 as [|y l1]; cbn in *; injection E as -> <-; [by exists r'|]. exists (l1 ++ z :: r'). split; [done|].
  apply Forall_app in Hp as [H1 H2]. apply Forall_cons_1 in H2 as [H2 _]. apply Forall_app. split; [done|by constructor].
Qed.

Lemma whole_at l1 z z' r r' : whole (l1 ++ z :: r) -> z.1 <> list_ -> 0 < z'.2 -> Forall (fun b : blk => 0 < b.2) r' -> whole (l1 ++ z' :: r').
Proof.
  intros (bs & E & Hp) Hz Hz' Hr. destruct l1 as [|y l1]; cbn in *; injection E as -> <-; [done|]. exists (l1 ++ z' :: r'). split; [done|].
  apply Forall_app in Hp as [H1 _]. apply Forall_app. split; [done|by constructor].
Qed.

Lemma covered_whole u l : covered u (tail l) -> covered u l.
Proof. destruct l; [done|]. by apply Exists_cons_tl. Qed.

Lemma whole_covered u l : whole l -> covered u l -> covered u (tail l).
Proof. intros (bs & -> & _) H. apply Exists_cons in H as [H|H]; [|done]. unfold in_blk in H. cbn in H. lia. Qed.

Lemma whole_node l b : whole l -> b ∈ l -> b = (list_, 0) \/ covered b.1 (tail l).
Proof.
  intros (bs & -> & Hp) [->|Hb]%elem_of_cons; [by left|right]. apply covered_in with b; [done|].
  apply (proj1 (list.Forall_forall _ _) Hp) in Hb. unfold in_blk. cbn in *. lia.
Qed.

Lemma covered_app u l1 l2 : covered u (l1 ++ l2) <-> covered u l1 \/ covered u l2.
Proof. apply Exists_app. Qed.
Lemma covered_cons u b l : covered u (b :: l) <-> in_blk u b \/ covered u l.
Proof. apply Exists_cons. Qed.

(** What follows a block can be exchanged as long as it starts where it did. *)
Lemma ordered_replace l1 x l2 x' r : ordered (l1 ++ x :: l2) -> x'.1 = x.1 -> 0 <= x'.2 -> ordered (x' :: r) -> ordered (l1 ++ x' :: r).
Proof.
  intros H E Hp Hr. apply ordered_app in H as (H1 & H2 & H3). apply ordered_app. split_and!; [done|done|].
  eapply list.Forall_impl; [exact H3|]. cbn beta. intros y Hy. apply Forall_cons_1 in Hy as [Hy _]. unfold before in Hy.
  constructor; [unfold before; lia|]. apply StronglySorted_inv in Hr as [_ Hr]. eapply list.Forall_impl; [exact Hr|].
  intros z Hz. unfold before in *. lia.
Qed.

Lemma ordered_apart l1 (x : blk) l2 : positive (l1 ++ x :: l2) -> ordered (l1 ++ x :: l2) -> x.1 ∉ l1.*1 /\ x.1 ∉ l2.*1.
Proof.
  intros Hp Ho. apply ordered_nodup in Ho; [|done]. rewrite fmap_app, fmap_cons in Ho. apply NoDup_app in Ho as (_ & H1 & H2).
  apply NoDup_cons in H2 as [H2 _]. split; [|done]. intros Hx. apply (H1 _ Hx). by left.
Qed.

(** *** [free] of a block *)

(** Where the header of a block goes: behind [x], alone or as a part of it *)
Lemma link_left m l1 x l2 a k (T : list blk) : whole (l1 ++ x :: l2) -> positive (l1 ++ x :: l2) -> ordered (l1 ++ x :: l2) -> seg m (l1 ++ x :: l2) list_ ->
  list_ < a -> x.1 < a -> x.1 + x.2 <= a -> a ∉ l1.*1 -> a ∉ T.*1 ->
  0 < k -> seg m T list_ -> ordered ((a, k) :: T) -> Forall (fun b : blk => 0 < b.2) T -> T.*1 ⊆ l2.*1 ->
  exists l' : list blk,
    let m' := <[x.1 := if x.1 + x.2 =? a then mkHeader (head_of T list_) (x.2 + k) else mkHeader a x.2]> (<[a := mkHeader (head_of T list_) k]> m) in
    whole l' /\ seg m' l' list_ /\ ordered l' /\ x.1 ∈ l'.*1 /\ (length l' <= length l1 + 2 + length T)%nat
    /\ (forall u, covered u l' <-> covered u (l1 ++ [x]) \/ covered u ((a, k) :: T))
    /\ Exists (fun b => b.1 <= a /\ a + k <= b.1 + b.2) l'.
Proof.
  intros Hw Hp Ho Hs Hla Hxa Hx Ha1 HaT Hk HsT HoT HpT Hsub. destruct (ordered_apart _ _ _ Hp Ho) as [Hx1 Hx2].
  assert (HxT : x.1 ∉ T.*1) by set_solver. apply seg_app in Hs as [Hs1 Hs2]. assert (Hxp : 0 <= x.2).
  { apply Forall_app in Hp as [_ Hp]. by apply Forall_cons_1 in Hp as [? _]. }
  destruct x as [xa xn]. cbn [fst snd head_of] in *. destruct (Z.eqb_spec (xa + xn) a) as [E|E].
  - exists (l1 ++ (xa, xn + k) :: T). cbv zeta. split_and!.
    + eapply whole_at; [exact Hw| |cbn; lia|done]. cbn. intros ->. destruct Hw as (bs & Ew & Hpb).
      destruct l1 as [|y l1]; [injection Ew as -> _; lia|]. injection Ew as -> _. apply Hx1. by left.
    + apply seg_app. cbn [head_of fst seg]. rewrite !seg_insert by done. rewrite lookup_insert_eq. by split_and!.
    + eapply ordered_replace; [exact Ho|done|cbn; lia|]. apply StronglySorted_inv in HoT as [HoT Hf]. constructor; [done|].
      eapply list.Forall_impl; [exact Hf|]. intros z Hz. unfold before in *. cbn in *. lia.
    + rewrite fmap_app. apply elem_of_app. right. by left.
    + rewrite length_app. cbn [length]. lia.
    + intros u. rewrite !covered_app, !covered_cons. unfold covered at 4. rewrite Exists_nil. unfold in_blk. cbn. intuition lia.
    + apply Exists_app. right. apply Exists_cons_hd. cbn. lia.
  - exists (l1 ++ (xa, xn) :: (a, k) :: T). cbv zeta. split_and!.
    + eapply whole_behind; [exact Hw|]. by constructor.
    + apply seg_app. cbn [head_of fst seg]. rewrite !seg_insert by done. rewrite lookup_insert_eq, (lookup_insert_ne _ xa a) by lia.
      rewrite lookup_insert_eq. by split_and!.
    + eapply ordered_replace; [exact Ho|done|done|]. constructor; [done|]. apply StronglySorted_inv in HoT as [_ Hf].
      constructor; [unfold before; cbn; lia|]. eapply list.Forall_impl; [exact Hf|]. intros z Hz. unfold before in *. cbn in *. lia.
    + rewrite fmap_app. apply elem_of_app. right. by left.
    + rewrite length_app. cbn [length]. lia.
    + intros u. rewrite !covered_app, !covered_cons. unfold covered at 4. rewrite Exists_nil. tauto.
    + apply Exists_app. right. apply Exists_cons_tl, Exists_cons_hd. cbn. lia.
Qed.

(** The block is in the list afterwards, with everything that was; no header outside the
    list is written. *)
Lemma free_block_spec m f bs a n nx : rep m f bs -> list_ < a -> 0 < n -> m !! a = Some (mkHeader nx n) ->
  (forall u, a <= u < a + n -> ~ covered u bs) ->
  exists m' f' bs', free_block m f a = Some (m', f') /\ rep m' f' bs'
    /\ (length bs' <= S (length bs))%nat
    /\ (forall u, covered u bs' <-> covered u bs \/ a <= u < a + n)
    /\ (forall u, u <> list_ -> ~ covered u bs' -> m' !! u = m !! u)
    /\ Exists (fun b => n <= b.2) bs'.
Proof.
  intros R Hl Hn Hm Hd. destruct (rep_split _ _ _ _ _ R Hl Hn Hd) as (l1 & x & l2 & El & Hxa & Hx & Hl2).
  pose proof (rep_positive _ _ _ R) as Hp. pose proof (rep_ordered _ _ _ R) as Ho. pose proof (rep_seg _ _ _ R) as Hs.
  pose proof (rep_whole _ _ _ R) as Hw. pose proof (rep_first _ _ _ R) as Hf.
  assert (Hcov : forall u, covered u bs <-> covered u (l1 ++ x :: l2)).
  { intros u. rewrite <- El. split; [apply (covered_whole u (_ :: bs))|by apply (whole_covered u (_ :: bs))]. }
  assert (Hhd : head_of (l1 ++ x :: l2) list_ = list_) by (by rewrite <- El).
  assert (Hlen : S (length bs) = (length l1 + S (length l2))%nat) by (apply (f_equal length) in El; rewrite length_app in El; exact El).
  rewrite El in Hp, Ho, Hs, Hw, Hf.
  assert (Hl2' : Forall (fun y : blk => a < y.1) l2) by (eapply list.Forall_impl; [exact Hl2|]; intros y Hy; cbn in *; lia).
  pose proof (find_spot_spec _ list_ a _ _ _ _ Hp Ho Hs Hhd Hxa Hl2' Hf) as Ef.
  assert (Hpt : seg m (x :: l2) list_) by (by apply seg_app in Hs as [_ Hs]).
  assert (Hol2 : ordered l2) by (apply ordered_app in Ho as (_ & Ho & _); by apply StronglySorted_inv in Ho as [? _]).
  assert (Hpl2 : Forall (fun b : blk => 0 < b.2) l2).
  { destruct Hw as (bs0 & E0 & Hp0). destruct l1; cbn in E0; injection E0 as _ <-; [done|]. apply Forall_app in Hp0 as [_ Hp0]. by apply Forall_cons_1 in Hp0 as [_ ?]. }
  assert (Hsl2 : seg m l2 list_) by (destruct x; apply Hpt).
  destruct (merge_right m a n l2 Hn Hsl2 Hol2 Hpl2 Hl2 Hl) as (k & T & Em & Hk & HsT & HoT & HpT & Hsub & HcT & HlT & Hkn).
  assert (Ha1 : a ∉ l1.*1).
  { intros (y & -> & Hy)%list_elem_of_fmap. pose proof (ordered_addr _ _ _ _ Hp Ho Hy). lia. }
  assert (Ha2 : a ∉ l2.*1).
  { intros (y & -> & Hy)%list_elem_of_fmap. apply (proj1 (list.Forall_forall _ _) Hl2') in Hy. cbn in Hy. lia. }
  destruct (link_left m l1 x l2 a k T Hw Hp Ho Hs Hl Hxa Hx Ha1 ltac:(set_solver) Hk HsT HoT HpT Hsub) as (l' & Hw' & Hs' & Ho' & Hf' & Hlen' & Hc' & Hb').
  destruct (whole_rep _ _ _ Hw' Hs' Ho' Hf') as [R' El']. assert (Hmx : m !! x.1 = Some (mkHeader (head_of l2 list_) x.2)) by (destruct x; apply Hpt).
  set (m' := <[x.1 := _]> _) in *. exists m', x.1, (tail l'). split_and!.
  - unfold free_block. rewrite Ef. cbn [mbind option_bind]. rewrite Hm, Hmx. cbn [mbind option_bind next len]. rewrite Em. done.
  - done.
  - apply (f_equal length) in El'. cbn [length] in El'. unfold blk in *. lia.
  - intros u. split.
    + intros Hu. apply covered_whole, Hc' in Hu. rewrite HcT, covered_app, covered_cons in Hu. rewrite Hcov, covered_app, covered_cons.
      destruct Hu as [[?|[?|?%Exists_nil]]|[?|?]]; tauto.
    + intros Hu. apply whole_covered; [done|]. apply Hc'. rewrite Hcov, covered_app, covered_cons in Hu. rewrite HcT, covered_app, covered_cons. tauto.
  - intros u Hul Hu. unfold m'. rewrite !lookup_insert_ne; [done|intros <-|intros <-].
    + apply Hu, whole_covered; [done|]. apply Hc'. right. apply covered_cons. left. unfold in_blk. cbn. lia.
    + apply list_elem_of_fmap in Hf' as (b & Eb & Hb). apply (whole_node _ _ Hw') in Hb as [->|Hb]; [done|]. by rewrite <- Eb in Hb.
  - destruct Hw' as (bs' & -> & _). apply Exists_cons in Hb' as [Hb'|Hb']; [cbn in Hb'; lia|].
    eapply Exists_impl; [exact Hb'|]. intros b Hb. cbn in *. lia.
Qed.

(** *** Taking a block *)

(** The block that leads to [y] is the one in front of it. *)
Lemma rep_pred m f bs prev y h : rep m f bs -> prev ∈ ((list_, 0) :: bs).*1 -> m !! prev = Some h -> next h = y.1 -> y ∈ bs ->
  exists l1 q, (list_, 0) :: bs = l1 ++ (prev, len h) :: y :: q.
Proof.
  intros R ([a n] & Ea & Hz)%list_elem_of_fmap Hm Hh Hy. cbn in Ea. subst a. pose proof (rep_seg _ _ _ R) as Hs.
  pose proof (ordered_nodup _ (rep_positive _ _ _ R) (rep_ordered _ _ _ R)) as Hnd. assert (Hy' : y ∈ (list_, 0) :: bs) by (by right).
  apply list_elem_of_split in Hz as (l1 & r & E). rewrite E in Hs, Hy', Hnd. apply seg_app in Hs as [_ Hs]. cbn [seg] in Hs. destruct Hs as [Hm' _].
  rewrite Hm in Hm'. injection Hm' as ->. cbn [next len] in *. destruct r as [|w q]; cbn [head_of] in Hh.
  - pose proof (rep_ordered _ _ _ R) as Ho. apply StronglySorted_inv in Ho as [_ Hf]. apply (proj1 (list.Forall_forall _ _) Hf) in Hy.
    unfold before in Hy. cbn in Hy. lia.
  - exists l1, q. rewrite E. do 2 f_equal. f_equal.
    assert (Hw : w ∈ l1 ++ (prev, n) :: w :: q) by (apply elem_of_app; right; right; by left).
    apply list_elem_of_lookup in Hw as [i Hi]. apply list_elem_of_lookup in Hy' as [j Hj].
    assert (i = j); [|by simplify_eq]. eapply NoDup_lookup; [exact Hnd| |]; rewrite list_lookup_fmap; [rewrite Hi; cbn; by rewrite Hh|by rewrite Hj].
Qed.

(** The end of the fragment leaves the list, and nothing else does. *)
Definition taken (m : gmap Z header) (bs : list blk) (m' : gmap Z header) (prev p n : Z) : Prop := exists bs',
  rep m' prev bs' /\ (exists nx, m' !! p = Some (mkHeader nx n)) /\ list_ < p
  /\ (forall u, covered u bs <-> covered u bs' \/ p <= u < p + n) /\ (forall u, p <= u < p + n -> ~ covered u bs')
  /\ (forall u, u <> list_ -> ~ covered u bs -> m' !! u = m !! u).

(** A block of the list and the one in front of it *)
Lemma rep_around m f bs l1 z y q : rep m f bs -> (list_, 0) :: bs = l1 ++ z :: y :: q ->
  0 <= z.2 /\ Forall (fun b : blk => 0 < b.2) (y :: q) /\ list_ < y.1 /\ z.1 + z.2 < y.1
  /\ Forall (fun x => x.1 + x.2 < y.1) l1 /\ ordered (z :: q) /\ Forall (before y) q /\ ordered q.
Proof.
  intros R E. pose proof (rep_positive _ _ _ R) as Hp. pose proof (rep_ordered _ _ _ R) as Ho. destruct (rep_whole _ _ _ R) as (b0 & E0 & Hp0).
  rewrite E in Hp, Ho, E0. assert (Hz : 0 <= z.2) by (apply Forall_app in Hp as [_ Hp]; by apply Forall_cons_1 in Hp as [? _]).
  apply ordered_app in Ho as (_ & Ho & H1). apply StronglySorted_inv in Ho as [Ho Hf]. apply StronglySorted_inv in Ho as [Ho Hyq].
  apply Forall_cons_1 in Hf as [Hzy Hzq]. unfold before in Hzy.
  assert (Hl1 : Forall (fun x => x.1 + x.2 < y.1) l1).
  { eapply list.Forall_impl; [exact H1|]. cbn beta. intros x Hx. apply Forall_cons_1 in Hx as [_ Hx]. by apply Forall_cons_1 in Hx as [? _]. }
  split_and!; [done| | |done|done|by constructor|done|done].
  - destruct l1; cbn in E0; injection E0 as _ <-; [done|]. apply Forall_app in Hp0 as [_ Hp0]. by apply Forall_cons_1 in Hp0 as [_ ?].
  - destruct l1 as [|x l1]; cbn in E0; injection E0 as -> _; [cbn in *; lia|]. apply Forall_cons_1 in Hl1 as [Hx _]. cbn in Hx. lia.
Qed.

Lemma covered_rep u m f bs l : rep m f bs -> (list_, 0) :: bs = l -> covered u bs <-> covered u l.
Proof. intros R <-. split; [apply (covered_whole u (_ :: bs))|apply (whole_covered u (_ :: bs)); by eapply rep_whole]. Qed.

Lemma taken_spec m f bs l1 z y q n r m' : rep m f bs -> (list_, 0) :: bs = l1 ++ z :: y :: q -> 0 < n <= y.2 ->
  r = (if y.2 =? n then q else (y.1, y.2 - n) :: q) -> seg m' (l1 ++ z :: r) list_ ->
  (exists nx, m' !! (y.1 + (y.2 - n)) = Some (mkHeader nx n)) -> (forall u, u ∉ ((list_, 0) :: bs).*1 -> u <> y.1 + (y.2 - n) -> m' !! u = m !! u) ->
  taken m bs m' z.1 (y.1 + (y.2 - n)) n.
Proof.
  intros R E Hn Hr Hs Hh Hfr. destruct (rep_around _ _ _ _ _ _ _ R E) as (Hz & Hpq & Hl & Hzy & Hl1 & Hzq & Hyq & Hoq).
  pose proof (rep_whole _ _ _ R) as Hw. pose proof (rep_ordered _ _ _ R) as Ho. rewrite E in Hw, Ho. apply Forall_cons_1 in Hpq as [Hyp Hpq].
  assert (Hw' : whole (l1 ++ z :: r)).
  { eapply whole_behind; [exact Hw|]. subst r. destruct (Z.eqb_spec y.2 n); [done|]. constructor; [cbn; lia|done]. }
  assert (Ho' : ordered (z :: r)).
  { subst r. destruct (Z.eqb_spec y.2 n); [done|]. apply StronglySorted_inv in Hzq as [_ Hzq]. constructor; [constructor; [done|]|constructor; [done|done]].
    eapply list.Forall_impl; [exact Hyq|]. intros x Hx. unfold before in *. cbn. lia. }
  destruct (whole_rep m' z.1 (l1 ++ z :: r) Hw' Hs) as [R' E'].
  { by eapply ordered_replace. }
  { rewrite fmap_app. apply elem_of_app. right. by left. }
  assert (Hcr : forall u, covered u r <-> covered u q \/ y.1 <= u < y.1 + (y.2 - n)).
  { intros u. subst r. destruct (Z.eqb_spec y.2 n); [intuition lia|]. rewrite covered_cons. unfold in_blk. cbn. tauto. }
  exists (tail (l1 ++ z :: r)). split_and!; [done|done|lia| | |].
  - intros u. rewrite (covered_rep u _ _ _ _ R E), (covered_rep u _ _ _ _ R' E'), !covered_app, !covered_cons, Hcr. unfold in_blk. intuition lia.
  - intros u Hu. rewrite (covered_rep u _ _ _ _ R' E'), covered_app, covered_cons, Hcr. intros [Hin|[Hin|[Hin|Hin]]]; [| | |lia].
    + apply Exists_exists in Hin as (x & Hx & Hin). apply (proj1 (list.Forall_forall _ _) Hl1) in Hx. unfold in_blk in Hin. cbn in Hx. lia.
    + unfold in_blk in Hin. lia.
    + apply Exists_exists in Hin as (x & Hx & Hin). apply (proj1 (list.Forall_forall _ _) Hyq) in Hx. unfold in_blk, before in *. lia.
  - intros u Hul Hu. apply Hfr.
    + intros (b & -> & Hb)%list_elem_of_fmap. apply (whole_node _ _ (rep_whole _ _ _ R)) in Hb as [->|Hb]; [done|]. by apply Hu.
    + intros ->. apply Hu. rewrite (covered_rep _ _ _ _ _ R E), covered_app, !covered_cons. right. right. left. unfold in_blk. lia.
Qed.

Lemma rep_seg_parts m f bs l1 prev k ya yn q : rep m f bs -> (list_, 0) :: bs = l1 ++ (prev, k) :: (ya, yn) :: q ->
  seg m l1 prev /\ m !! ya = Some (mkHeader (head_of q list_) yn) /\ m !! prev = Some (mkHeader ya k) /\ seg m q list_
  /\ prev ∉ l1.*1 /\ ya ∉ l1.*1 /\ prev <> ya /\ prev ∉ q.*1 /\ ya ∉ q.*1.
Proof.
  intros R E. pose proof (rep_seg _ _ _ R) as Hs. pose proof (ordered_nodup _ (rep_positive _ _ _ R) (rep_ordered _ _ _ R)) as Hnd.
  rewrite E in Hs, Hnd. apply seg_app in Hs as [Hs1 Hs2]. cbn [seg head_of fst] in *. destruct Hs2 as (Hm & Hmy & Hsq).
  rewrite fmap_app, !fmap_cons in Hnd. cbn [fst] in Hnd. apply NoDup_app in Hnd as (_ & H1 & H2). apply NoDup_cons in H2 as [H2 H3]. apply NoDup_cons in H3 as [H3 _].
  apply not_elem_of_cons in H2 as [H2 H4]. split_and!; try done; intros Hin; apply (H1 _ Hin); [by left|right; by left].
Qed.

Lemma take_spec m f bs prev hp y h n : rep m f bs -> prev ∈ ((list_, 0) :: bs).*1 -> m !! prev = Some hp -> next hp = y.1 -> y ∈ bs ->
  m !! y.1 = Some h -> 0 < n <= y.2 -> exists m' p, take m n prev y.1 h = Some (m', p) /\ taken m bs m' prev p n.
Proof.
  intros R Hprev Hm Hnx Hy Hmy Hn. destruct (rep_pred _ _ _ _ _ _ R Hprev Hm Hnx Hy) as (l1 & q & E). destruct y as [ya yn]. cbn [fst snd] in *.
  destruct (rep_seg_parts _ _ _ _ _ _ _ _ _ R E) as (Hs1 & Hmy' & Hmp & Hsq & N1 & N2 & N3 & N4 & N5).
  rewrite Hmy in Hmy'. injection Hmy' as ->. unfold take. cbn [len next]. destruct (Z.eqb_spec yn n) as [->|Hne].
  - rewrite Hm. cbn [mbind option_bind]. do 2 eexists. split; [reflexivity|].
    pose proof (fun r m' => taken_spec m f bs l1 (prev, len hp) (ya, n) q n r m' R E) as Ht. cbn [fst snd] in Ht. rewrite Z.sub_diag, Z.add_0_r in Ht.
    eapply Ht; [lia|reflexivity| | |]; [rewrite Z.eqb_refl| |].
    + apply seg_app. cbn [seg head_of fst]. rewrite !seg_insert by done. rewrite lookup_insert_eq. by split_and!.
    + exists (head_of q list_). by rewrite lookup_insert_ne.
    + intros u Hu Hua. rewrite lookup_insert_ne; [done|]. intros <-. apply Hu. rewrite E, fmap_app. apply elem_of_app. right. by left.
  - do 2 eexists. split; [reflexivity|]. set (m1 := <[ya := _]> m). set (pn := ya + (yn - n)) in *.
    pose proof (fun r m' => taken_spec m f bs l1 (prev, len hp) (ya, yn) q n r m' R E) as Ht. cbn [fst snd] in Ht. fold pn in Ht.
    destruct (rep_around _ _ _ _ _ _ _ R E) as (_ & _ & _ & Hzy & Hl1 & _ & Hyq & _). cbn [fst snd] in Hzy.
    assert (Hpz : 0 <= len hp) by (destruct (rep_around _ _ _ _ _ _ _ R E) as [? _]; done).
    assert (P1 : pn ∉ l1.*1).
    { intros (b & Eb & Hb)%list_elem_of_fmap. assert (Hpb : 0 <= b.2).
      { apply (proj1 (list.Forall_forall _ _) (rep_positive _ _ _ R)). rewrite E. apply elem_of_app. by left. }
      apply (proj1 (list.Forall_forall _ _) Hl1) in Hb. cbn in Hb. unfold pn in *. lia. }
    assert (P2 : pn ∉ q.*1).
    { intros (b & Eb & Hb)%list_elem_of_fmap. apply (proj1 (list.Forall_forall _ _) Hyq) in Hb. unfold before in Hb. cbn in Hb. unfold pn in *. lia. }
    assert (Hya : pn <> ya) by (unfold pn; lia). assert (Hpr : pn <> prev) by (unfold pn; lia).
    eapply Ht; [lia|reflexivity| | |]; [rewrite (proj2 (Z.eqb_neq _ _)) by done| |].
    + apply seg_app. cbn [seg head_of fst]. unfold m1. rewrite !seg_insert by done. rewrite !(lookup_insert_ne _ pn) by done.
      rewrite lookup_insert_eq, lookup_insert_ne by done. by split_and!.
    + eexists. apply lookup_insert_eq.
    + intros u Hu Hua. rewrite lookup_insert_ne by done. unfold m1. rewrite lookup_insert_ne; [done|]. intros <-. apply Hu. rewrite E, fmap_app. apply elem_of_app. right. right. by left.
Qed.

(** *** The search *)

(** The list from [f] around to [f] *)
Lemma rep_rotate m f bs : rep m f bs -> exists c k e, let l := c ++ [(f, k)] in
  m !! f = Some (mkHeader (head_of l e) k) /\ seg m l e /\ (forall b, b ∈ l <-> b ∈ (list_, 0) :: bs) /\ f ∉ c.*1 /\ length c = length bs.
Proof.
  intros R. pose proof (rep_first _ _ _ R) as ([a k] & Ef & Hx)%list_elem_of_fmap. cbn in Ef. subst a. apply list_elem_of_split in Hx as (l1 & l2 & E).
  pose proof (rep_seg _ _ _ R) as Hs. pose proof (rep_positive _ _ _ R) as Hp. pose proof (rep_ordered _ _ _ R) as Ho. rewrite E in Hs, Hp, Ho.
  destruct (ordered_apart _ _ _ Hp Ho) as [N1 N2]. apply seg_app in Hs as [Hs1 Hs2]. cbn [seg head_of fst] in *. destruct Hs2 as [Hm Hs2].
  assert (Hh : forall e, head_of (l1 ++ [(f, k)]) e = list_) by (intros e; by destruct l1; cbn in E |- *; injection E as <- _).
  exists (l2 ++ l1), k, (head_of l2 list_). cbv zeta. rewrite <- app_assoc. split_and!.
  - rewrite Hm. do 2 f_equal. destruct l2; [cbn [app]; by rewrite Hh|done].
  - apply seg_app. rewrite Hh. split; [done|]. apply seg_app. by split_and!.
  - intros b. rewrite E, !elem_of_app, !elem_of_cons, elem_of_nil. tauto.
  - rewrite fmap_app, not_elem_of_app. done.
  - apply (f_equal length) in E. rewrite length_app in *. cbn [length] in E. unfold blk in *. lia.
Qed.

Lemma first_fit n (c : list blk) : Forall (fun b => b.2 < n) c \/ exists c1 y c2, c = c1 ++ y :: c2 /\ Forall (fun b => b.2 < n) c1 /\ n <= y.2.
Proof.
  induction c as [|b c IH]; [by left|]. destruct (decide (n <= b.2)) as [Hb|Hb].
  - right. by exists [], b, c.
  - destruct IH as [IH|(c1 & y & c2 & -> & H1 & H2)]; [left; constructor; [lia|done]|right; exists (b :: c1), y, c2]. split_and!; [done|constructor; [lia|done]|done].
Qed.

Section Search.
Context {W : Type} `{Sbrk W}.

(** Fragments that are too small are passed. *)
Lemma search_walk n m f (w : W) e c : forall prev hp, seg m c e -> Forall (fun b => b.2 < n) c -> f ∉ c.*1 ->
  m !! prev = Some hp -> next hp = head_of c e ->
  exists prev' hp', m !! prev' = Some hp' /\ next hp' = e /\ (prev' = prev \/ prev' ∈ c.*1)
    /\ forall k, search (length c + k) n m f w prev (head_of c e) = search k n m f w prev' e.
Proof.
  induction c as [|[a k] c IH]; intros prev hp Hs Hc Hf Hp Hn; [exists prev, hp; by auto|].
  cbn [seg] in Hs. destruct Hs as [Ha Hs]. apply Forall_cons_1 in Hc as [Hk Hc]. rewrite fmap_cons, not_elem_of_cons in Hf. destruct Hf as [Hfa Hf]. cbn in Hk, Hfa.
  destruct (IH a _ Hs Hc Hf Ha eq_refl) as (prev' & hp' & H1 & H2 & H3 & H4). exists prev', hp'. split_and!; [done|done| |].
  - right. rewrite fmap_cons. destruct H3 as [->|H3]; [by left|by right].
  - intros j. cbn [length Nat.add search head_of fst]. rewrite Ha. cbn [mbind option_bind len next].
    destruct (Z.geb_spec k n); [lia|]. destruct (Z.eqb_spec a f); [by subst|]. cbn [mbind option_bind]. rewrite Ha. cbn [mbind option_bind next]. apply H4.
Qed.

(** The search of a list that has a fragment that is large enough takes one. *)
Lemma search_fits n m f bs hf (w : W) fuel : 0 < n -> rep m f bs -> Exists (fun b => n <= b.2) bs -> m !! f = Some hf -> (S (length bs) <= fuel)%nat ->
  exists m' p prev, search fuel n m f w f (next hf) = Some (p, mkHeap m' (Some prev) w) /\ taken m bs m' prev p n.
Proof.
  intros Hn R He Hf Hfuel. destruct (rep_rotate _ _ _ R) as (c & k & e & Hf' & Hs & Hin & Hnf & Hlen). rewrite Hf in Hf'. injection Hf' as ->. cbn [next].
  destruct (first_fit n (c ++ [(f, k)])) as [Hno|(c1 & y & c2 & Ec & Hc1 & Hy)].
  { apply Exists_exists in He as (b & Hb & Hbn). assert (Hb' : b ∈ c ++ [(f, k)]) by (apply Hin; by right).
    apply (proj1 (list.Forall_forall _ _) Hno) in Hb'. cbn in Hb'. lia. }
  rewrite Ec in Hs, Hin. assert (Hf1 : f ∉ c1.*1).
  { destruct c2 as [|z c2 _] using rev_ind; [by apply app_inj_tail in Ec as [<- _]|]. rewrite app_comm_cons, app_assoc in Ec.
    apply app_inj_tail in Ec as [-> _]. rewrite fmap_app, not_elem_of_app in Hnf. apply Hnf. }
  assert (Hyb : y ∈ bs).
  { assert (Hy' : y ∈ (list_, 0) :: bs) by (apply Hin, elem_of_app; right; by left). apply elem_of_cons in Hy' as [->|?]; [cbn in Hy; lia|done]. }
  apply seg_app in Hs as [Hs1 Hs2]. rewrite Ec in Hf |- *. cbn [head_of] in Hs1.
  assert (Hhd : forall e, head_of (c1 ++ y :: c2) e = head_of c1 y.1) by (by destruct c1). rewrite Hhd in Hf |- *.
  destruct (search_walk n m f w y.1 c1 f _ Hs1 Hc1 Hf1 Hf eq_refl) as (prev & hp & Hp & Hpn & Hpin & Hw).
  assert (Hprev : prev ∈ ((list_, 0) :: bs).*1).
  { destruct Hpin as [->|(b & -> & Hb)%list_elem_of_fmap]; [apply R|]. apply list_elem_of_fmap. exists b. split; [done|]. apply Hin, elem_of_app. by left. }
  assert (Hle : (length c1 <= length bs)%nat).
  { apply (f_equal length) in Ec. rewrite !length_app in Ec. cbn [length] in Ec. unfold blk in *. lia. }
  replace fuel with (length c1 + S (fuel - length c1 - 1))%nat by lia. rewrite Hw. destruct y as [ya yn]. cbn [seg fst snd] in *. destruct Hs2 as [Hmy _].
  destruct (take_spec _ _ _ _ _ (ya, yn) _ n R Hprev Hp Hpn Hyb Hmy ltac:(cbn; lia)) as (m' & p & Et & Ht). exists m', p, prev. split; [|done].
  cbn [search]. rewrite Hmy. cbn [mbind option_bind len]. destruct (Z.geb_spec yn n); [|lia]. cbn [fst] in Et. by rewrite Et.
Qed.

(** The search of a list that has none asks for more memory once. *)
Lemma search_grows n m f bs hf (w : W) k : 0 < n -> rep m f bs -> Forall (fun b => b.2 < n) bs -> m !! f = Some hf ->
  search (length bs + S k) n m f w f (next hf) = '(m, f, w) ← grow m f n w; h ← m !! f; search k n m f w f (next h).
Proof.
  intros Hn R Hno Hf. destruct (rep_rotate _ _ _ R) as (c & j & e & Hf' & Hs & Hin & Hnf & Hlen). rewrite Hf in Hf'. injection Hf' as ->. cbn [next].
  assert (Hall : Forall (fun b => b.2 < n) (c ++ [(f, j)])).
  { apply list.Forall_forall. intros b [->|Hb]%Hin%elem_of_cons; [cbn; lia|]. by apply (proj1 (list.Forall_forall _ _) Hno). }
  apply Forall_app in Hall as [Hc Hj]. apply Forall_cons_1 in Hj as [Hj _]. cbn in Hj. apply seg_app in Hs as [Hs1 Hs2]. cbn [head_of fst] in Hs1.
  assert (Hhd : forall e, head_of (c ++ [(f, j)]) e = head_of c f) by (by destruct c). rewrite Hhd in Hf |- *.
  destruct (search_walk n m f w f c f _ Hs1 Hc Hnf Hf eq_refl) as (prev & hp & _ & _ & _ & Hw). rewrite <- Hlen, Hw. cbn [search]. rewrite Hf. cbn [mbind option_bind len].
  destruct (Z.geb_spec j n); [lia|]. rewrite Z.eqb_refl. by destruct (grow m f n w) as [[[m' f'] w']|].
Qed.

End Search.

(** Writes elsewhere leave the list as it is. *)
Lemma rep_frame m m' f bs : rep m f bs -> (forall u, u = list_ \/ covered u bs -> m' !! u = m !! u) -> rep m' f bs.
Proof.
  intros R Hm. constructor; [|apply R..]. pose proof (rep_seg _ _ _ R) as Hs. pose proof (rep_whole _ _ _ R) as Hw.
  assert (Hin : forall b, b ∈ (list_, 0) :: bs -> m' !! b.1 = m !! b.1).
  { intros b Hb. apply Hm. apply (whole_node _ _ Hw) in Hb as [->|Hb]; [by left|by right]. }
  clear - Hs Hin. induction ((list_, 0) :: bs) as [|[a n] l IH]; [done|]. cbn [seg] in *. destruct Hs as [Ha Hs]. split.
  - rewrite <- Ha. apply (Hin (a, n)). by left.
  - apply IH; [done|]. intros b Hb. apply Hin. by right.
Qed.

(** The memory says which blocks are in the list. *)
Lemma seg_unique m e l : forall l', seg m l e -> seg m l' e -> e ∉ l.*1 -> e ∉ l'.*1 -> head_of l e = head_of l' e -> l = l'.
Proof.
  induction l as [|[a n] l IH]; intros [|[b k] l']; cbn [seg head_of fst]; rewrite ?fmap_cons, ?not_elem_of_cons; cbn [fst].
  - done.
  - intros _ _ _ [? _] ?. by subst.
  - intros _ _ [? _] _ ?. by subst.
  - intros [H1 H2] [H3 H4] [_ H5] [_ H6] <-. rewrite H1 in H3. injection H3 as H3 ->. f_equal. by apply IH.
Qed.

Lemma rep_unique m f f' bs bs' : rep m f bs -> rep m f' bs' -> bs = bs'.
Proof.
  assert (Hno : forall f bs, rep m f bs -> list_ ∉ bs.*1).
  { intros g l R (b & Eb & Hb)%list_elem_of_fmap. pose proof (rep_ordered _ _ _ R) as Ho. apply StronglySorted_inv in Ho as [_ Ho].
    apply (proj1 (list.Forall_forall _ _) Ho) in Hb. unfold before in Hb. cbn in Hb. lia. }
  intros R R'. pose proof (rep_seg _ _ _ R) as Hs. pose proof (rep_seg _ _ _ R') as Hs'. cbn [seg] in Hs, Hs'.
  destruct Hs as [H1 H2], Hs' as [H3 H4]. apply (seg_unique m list_); [done|done|by eapply Hno|by eapply Hno|]. rewrite H1 in H3. by injection H3.
Qed.

End List.
End FreeList.

(** ** The calls of the kernel *)

Module HeapRuns.
Import Malloc FreeList.

(** What [malloc] relies on: memory from [ksbrk] is behind all that was given before. *)
Class SbrkLaws (W : Type) `{Sbrk W} (list_ : Z) := {
  ready : W -> Prop;
  brk : W -> Z;
  ready_brk w : ready w -> header_size * (list_ + 1) <= brk w;
  ksbrk_law n w page w' : ready w -> 0 < n -> n + 4096 <= 2 ^ 32 -> ksbrk n w = Some (page, w') ->
    ready w' /\ page mod header_size = 0 /\ brk w <= page /\ page + n <= brk w' }.

Section Runs.
Context {W : Type} `{SbrkLaws W}.

(** Sizes for which the computations in 32 bits are those of the numbers *)
Definition request (size : Z) : Prop := 0 <= size <= 2 ^ 32 - 8192.

Record state := mkState { hp : heap (W := W); live : list (Z * Z) }.

(** The blocks behind the pointers that were given out *)
Definition used (l : list (Z * Z)) : list blk := (fun '(p, size) => (p - 1, true_size size)) <$> l.
Definition payload (l : list (Z * Z)) (u : Z) : Prop := exists p size, (p, size) ∈ l /\ p <= u < p - 1 + true_size size.

Inductive step (st : state) : state -> Prop :=
  | step_malloc size p s : request size -> malloc list_ (hp st) size = Some (p, s) -> step st (mkState s ((p, size) :: live st))
  | step_calloc num len_ p n s : request (u32 (num * len_)) -> calloc list_ (hp st) num len_ = Some (p, n, s) -> step st (mkState s ((p, n) :: live st))
  | step_free i p size s : live st !! i = Some (p, size) -> free (hp st) (Some p) = Some s -> step st (mkState s (delete i (live st)))
  | step_free_null s : free (hp st) None = Some s -> step st (mkState s (live st))
  | step_realloc i p size new_size q n s : live st !! i = Some (p, size) -> request new_size -> realloc list_ (hp st) (Some p) new_size = Some (q, n, s) ->
      step st (mkState s ((q, new_size) :: delete i (live st)))
  | step_realloc_null new_size q n s : request new_size -> realloc list_ (hp st) None new_size = Some (q, n, s) ->
      step st (mkState s ((q, new_size) :: live st))
  | step_write m : (forall u, ~ payload (live st) u -> m !! u = mem (hp st) !! u) ->
      step st (mkState (mkHeap m (first (hp st)) (world (hp st))) (live st)).

Inductive runs (st : state) : state -> Prop :=
  | runs_none : runs st st
  | runs_step st1 st2 : runs st st1 -> step st1 st2 -> runs st st2.

(** *** What holds between the calls *)

Record inv (m : gmap Z header) (f : Z) (w : W) (bs us : list blk) : Prop := {
  inv_rep : rep list_ m f bs;
  inv_ready : ready w;
  inv_below : forall u, covered u bs \/ covered u us -> header_size * (u + 1) <= brk w;
  inv_used : Forall (fun b : blk => 0 < b.2 /\ list_ < b.1 /\ exists nx, m !! b.1 = Some (mkHeader nx b.2)) us;
  inv_apart : forall u, covered u us -> ~ covered u bs;
  inv_disjoint : forall i j b b' u, us !! i = Some b -> us !! j = Some b' -> i <> j -> in_blk u b -> ~ in_blk u b' }.

Lemma used_covered m f w bs us b : inv m f w bs us -> b ∈ us -> covered b.1 us.
Proof.
  intros I Hb. apply covered_in with b; [done|]. apply (proj1 (list.Forall_forall _ _) (inv_used _ _ _ _ _ I)) in Hb. unfold in_blk. lia.
Qed.

(** Giving a part of the list away *)
Lemma inv_taken m f w bs us m' prev p n : inv m f w bs us -> 0 < n -> taken list_ m bs m' prev p n ->
  exists bs', inv m' prev w bs' ((p, n) :: us) /\ forall u, covered u bs <-> covered u bs' \/ p <= u < p + n.
Proof.
  intros I Hn (bs' & R & Hh & Hl & Hc & Hd & Hf). exists bs'. split; [|done].
  assert (Hp : forall u, in_blk u (p, n) -> covered u bs) by (intros u Hu; apply Hc; by right).
  constructor; [done|apply I| | | |].
  - intros u Hu. apply (inv_below _ _ _ _ _ I). rewrite covered_cons in Hu. destruct Hu as [Hu|[Hu|Hu]]; [left; apply Hc; by left|left; by apply Hp|by right].
  - constructor; [done|]. apply list.Forall_forall. intros b Hb. pose proof (proj1 (list.Forall_forall _ _) (inv_used _ _ _ _ _ I) b Hb) as (H1 & H2 & nx & H3).
    split_and!; [done|done|]. exists nx. rewrite <- H3. apply Hf; [lia|]. apply (inv_apart _ _ _ _ _ I). by eapply used_covered.
  - intros u [Hu|Hu]%covered_cons; [by apply Hd|]. intros Hb. apply (inv_apart _ _ _ _ _ I u Hu). apply Hc. by left.
  - assert (Hap : forall b u, b ∈ us -> in_blk u (p, n) -> ~ in_blk u b).
    { intros b u Hb H1%Hp H2. apply (inv_apart _ _ _ _ _ I u); [|done]. by apply covered_in with b. }
    intros [|i] [|j] b b' u; cbn [lookup list_lookup]; [done| | |].
    + intros [= <-] Hj _. apply Hap. by eapply list_elem_of_lookup_2.
    + intros Hi [= <-] _ H1 H2. eapply Hap; [by eapply list_elem_of_lookup_2|done|done].
    + intros Hi Hj Hij. eapply (inv_disjoint _ _ _ _ _ I); [done|done|lia].
Qed.

(** Giving a block back *)
Lemma inv_freed m f w bs us i a n : inv m f w bs us -> us !! i = Some (a, n) ->
  exists m' f' bs', free_block m f a = Some (m', f') /\ inv m' f' w bs' (delete i us) /\ forall u, covered u bs' <-> covered u bs \/ a <= u < a + n.
Proof.
  intros I Hi. assert (Hin : (a, n) ∈ us) by (by eapply list_elem_of_lookup_2).
  pose proof (proj1 (list.Forall_forall _ _) (inv_used _ _ _ _ _ I) _ Hin) as (Hn & Hl & nx & Hm). cbn [fst snd] in *.
  assert (Ha : forall u, a <= u < a + n -> covered u us) by (intros u Hu; by apply covered_in with (a, n)).
  destruct (free_block_spec list_ m f bs a n nx (inv_rep _ _ _ _ _ I) Hl Hn Hm) as (m' & f' & bs' & E & R & _ & Hc & Hf & _).
  { intros u Hu. by apply (inv_apart _ _ _ _ _ I), Ha. }
  assert (Hsub : forall b, b ∈ delete i us -> exists j, us !! j = Some b /\ i <> j).
  { intros b (j & Hj)%list_elem_of_lookup. rewrite list_lookup_delete in Hj. eexists. split; [exact Hj|]. case_decide; lia. }
  assert (Hap : forall b u, b ∈ delete i us -> in_blk u b -> ~ covered u bs').
  { intros b u (j & Hj & Hij)%Hsub Hu [Hb|Hb]%Hc.
    - eapply (inv_apart _ _ _ _ _ I); [|done]. apply covered_in with b; [by eapply list_elem_of_lookup_2|done].
    - by apply (inv_disjoint _ _ _ _ _ I i j (a, n) b u). }
  exists m', f', bs'. split_and!; [done| |done]. constructor; [done|apply I| | | |].
  - intros u Hu. apply (inv_below _ _ _ _ _ I). destruct Hu as [[Hu|Hu]%Hc|Hu]; [by left|right; by apply Ha|]. right.
    apply Exists_exists in Hu as (b & (j & Hj & _)%Hsub & Hu). apply covered_in with b; [by eapply list_elem_of_lookup_2|done].
  - apply list.Forall_forall. intros b Hb. pose proof Hb as (j & Hj & _)%Hsub. apply list_elem_of_lookup_2 in Hj.
    pose proof (proj1 (list.Forall_forall _ _) (inv_used _ _ _ _ _ I) b Hj) as (H1 & H2 & nx' & H3). split_and!; [done|done|]. exists nx'. rewrite <- H3.
    apply Hf; [lia|]. apply (Hap b); [done|]. unfold in_blk. lia.
  - intros u Hu. apply Exists_exists in Hu as (b & Hb & Hu). by apply (Hap b).
  - intros j k b b' u Hj Hk Hjk. rewrite list_lookup_delete in Hj, Hk. eapply (inv_disjoint _ _ _ _ _ I); [exact Hj|exact Hk|]. repeat case_decide; lia.
Qed.

Definition fragment (n : Z) : Z := if n >=? NALLOC then n else NALLOC.

(** More memory *)
Lemma inv_grown m f w bs us n : inv m f w bs us -> 0 < n -> header_size * fragment n + 4096 <= 2 ^ 32 ->
  grow m f n w = None /\ ksbrk (header_size * fragment n) w = None \/
  exists m' f' w' bs', grow m f n w = Some (m', f', w') /\ inv m' f' w' bs' us /\ Exists (fun b => n <= b.2) bs' /\ (length bs' <= S (length bs))%nat /\ forall u, covered u bs -> covered u bs'.
Proof.
  intros I Hn Hfr. unfold grow. fold (fragment n). assert (Hfn : n <= fragment n /\ 0 < fragment n) by (unfold fragment, NALLOC; destruct (Z.geb_spec n 1024); lia).
  unfold header_size in *. rewrite u32_id, Z.mul_comm by (unfold is_u; lia). destruct (ksbrk (8 * fragment n) w) as [[page w1]|] eqn:Es; [right|by left]. cbn [mbind option_bind].
  pose proof (inv_ready _ _ _ _ _ I) as Hr. destruct (ksbrk_law (8 * fragment n) w page w1 Hr ltac:(lia) Hfr Es) as (Hr' & Hpm & Hb1 & Hb2).
  pose proof (ready_brk _ Hr) as Hb0. unfold header_size in *. pose proof (Z.div_mod page 8 ltac:(lia)) as Hpd. rewrite Hpm in Hpd.
  set (a := page / 8) in *. assert (Hla : list_ < a) by lia. assert (Hab : forall u, covered u bs \/ covered u us -> u < a).
  { intros u Hu. apply (inv_below _ _ _ _ _ I) in Hu. unfold header_size in Hu. lia. }
  set (m1 := <[a := _]> m). assert (Hm1 : forall u, u < a -> m1 !! u = m !! u) by (intros u Hu; unfold m1; rewrite lookup_insert_ne by lia; done).
  assert (R1 : rep list_ m1 f bs). { eapply rep_frame; [apply I|]. intros u [->|Hu]; apply Hm1; [done|]. apply Hab. by left. }
  destruct (free_block_spec list_ m1 f bs a (fragment n) _ R1 Hla ltac:(lia) (lookup_insert_eq _ _ _)) as (m2 & f2 & bs' & Ef & R2 & Hlen & Hc & Hfm & Hex).
  { intros u Hu Hcu. pose proof (Hab u (or_introl Hcu)). lia. }
  rewrite Ef. cbn [mbind option_bind]. exists m2, f2, w1, bs'. split_and!; [done| |eapply Exists_impl; [exact Hex|cbn; lia]|done|intros u Hu; apply Hc; by left].
  assert (Hap : forall u, covered u us -> ~ covered u bs').
  { intros u Hu [Hb|Hb]%Hc; [by apply (inv_apart _ _ _ _ _ I u)|]. pose proof (Hab u (or_intror Hu)). lia. }
  constructor; [done|done| | |done|apply I].
  - intros u [[Hu|Hu]%Hc|Hu]; [|unfold header_size; lia|]; (assert (header_size * (u + 1) <= brk w) by (apply (inv_below _ _ _ _ _ I); auto); lia).
  - apply list.Forall_forall. intros b Hb. pose proof (proj1 (list.Forall_forall _ _) (inv_used _ _ _ _ _ I) b Hb) as (H1 & H2 & nx & H3).
    split_and!; [done|done|]. exists nx. rewrite <- H3. pose proof (used_covered _ _ _ _ _ _ I Hb) as Hcb. rewrite Hfm; [|lia|by apply Hap]. apply Hm1, Hab. by right.
Qed.

(** The search finds a block, asking for memory at most once. *)
Lemma search_inv m f w bs us hf n fuel : inv m f w bs us -> 0 < n -> header_size * fragment n + 4096 <= 2 ^ 32 -> m !! f = Some hf ->
  (2 * length bs + 3 <= fuel)%nat ->
  search fuel n m f w f (next hf) = None /\ ksbrk (header_size * fragment n) w = None \/
  exists p m' prev w' bs', search fuel n m f w f (next hf) = Some (p, mkHeap m' (Some prev) w') /\ inv m' prev w' bs' ((p, n) :: us)
    /\ forall u, covered u bs -> covered u bs' \/ p <= u < p + n.
Proof.
  intros I Hn Hfr Hf Hfuel. destruct (first_fit n bs) as [Hno|(c1 & y & c2 & -> & _ & Hy)].
  - replace fuel with (length bs + S (fuel - length bs - 1))%nat by lia. rewrite (search_grows list_ n m f bs hf w _ Hn (inv_rep _ _ _ _ _ I) Hno Hf).
    destruct (inv_grown _ _ _ _ _ _ I Hn Hfr) as [[Eg Es]|(m1 & f1 & w1 & bs1 & Eg & I1 & Hex & Hlen & Hc)]; rewrite Eg; cbn [mbind option_bind]; [by left|right].
    destruct (rep_rotate _ _ _ _ (inv_rep _ _ _ _ _ I1)) as (c & k & e & Hf1 & _). rewrite Hf1. cbn [mbind option_bind].
    destruct (search_fits list_ n m1 f1 bs1 _ w1 (fuel - length bs - 1) Hn (inv_rep _ _ _ _ _ I1) Hex Hf1) as (m2 & p & prev & Es & Ht).
    { unfold blk in *. lia. }
    destruct (inv_taken _ _ _ _ _ _ _ _ _ I1 Hn Ht) as (bs2 & I2 & Hc2). exists p, m2, prev, w1, bs2. split_and!; [done|done|].
    intros u Hu%Hc. by apply Hc2.
  - right. destruct (search_fits list_ n m f _ hf w fuel Hn (inv_rep _ _ _ _ _ I)) as (m2 & p & prev & Es & Ht); [|done|lia|].
    { apply Exists_app. right. by apply Exists_cons_hd. }
    destruct (inv_taken _ _ _ _ _ _ _ _ _ I Hn Ht) as (bs2 & I2 & Hc2). exists p, m2, prev, w, bs2. split_and!; [done|done|].
    intros u Hu. by apply Hc2.
Qed.

(** *** The calls *)

Definition holds (st : state) : Prop :=
  Forall (fun b : Z * Z => request b.2) (live st) /\
  match first (hp st) with
  | None => live st = [] /\ ready (world (hp st))
  | Some f => exists bs, inv (mem (hp st)) f (world (hp st)) bs (used (live st))
  end.

(** Memory in the list, and memory of the kernel *)
Definition free_at (s : heap (W := W)) (u : Z) : Prop := exists f bs, first s = Some f /\ rep list_ (mem s) f bs /\ covered u bs.
Definition owned (st : state) (u : Z) : Prop := free_at (hp st) u \/ covered u (used (live st)).

Lemma true_size_fits size : request size ->
  0 < true_size size /\ size <= header_size * (true_size size - 1) /\ header_size * fragment (true_size size) + 4096 <= 2 ^ 32.
Proof.
  unfold request, true_size, header_size. intros Hs. rewrite u32_id by (unfold is_u; lia).
  pose proof (Z.div_mod (size + 8 - 1) 8 ltac:(lia)). pose proof (Z.mod_pos_bound (size + 8 - 1) 8 ltac:(lia)).
  unfold fragment, NALLOC. destruct (Z.geb_spec ((size + 8 - 1) / 8 + 1) 1024); lia.
Qed.

Lemma owned_kept st st' bs bs' f f' : first (hp st) = Some f -> rep list_ (mem (hp st)) f bs -> first (hp st') = Some f' -> rep list_ (mem (hp st')) f' bs' ->
  (forall u, covered u bs \/ covered u (used (live st)) -> covered u bs' \/ covered u (used (live st'))) -> forall u, owned st u -> owned st' u.
Proof.
  intros Hf R Hf' R' Hc u Hu. destruct (Hc u) as [Hu'|Hu'].
  - destruct Hu as [(g & l & Hg & Rl & Hl)|Hu]; [left|by right]. by rewrite (rep_unique _ _ _ _ _ _ R Rl).
  - left. by exists f', bs'.
  - by right.
Qed.

Lemma start_holds st : holds st -> let '(m, f) := start list_ (hp st) in
  exists bs, inv m f (world (hp st)) bs (used (live st)) /\ forall u, free_at (hp st) u -> covered u bs.
Proof.
  intros [_ Hi]. unfold start. destruct (first (hp st)) as [f|] eqn:Ef.
  - destruct Hi as [bs I]. exists bs. split; [done|]. intros u (g & l & _ & R & Hu). by rewrite (rep_unique _ _ _ _ _ _ (inv_rep _ _ _ _ _ I) R).
  - destruct Hi as [-> Hr]. exists []. split; [|intros u (g & l & Hg & _); congruence]. constructor; [|done| | | |].
    + constructor; [cbn; rewrite lookup_insert_eq; done|repeat constructor|constructor|by left].
    + by intros u [?%Exists_nil|?%Exists_nil].
    + constructor.
    + by intros u ?%Exists_nil.
    + done.
Qed.

Lemma malloc_holds st size : holds st -> request size ->
  malloc list_ (hp st) size = None /\ ksbrk (header_size * fragment (true_size size)) (world (hp st)) = None \/
  exists p s, malloc list_ (hp st) size = Some (p, s) /\ holds (mkState s ((p, size) :: live st))
    /\ forall u, owned st u -> owned (mkState s ((p, size) :: live st)) u.
Proof.
  intros Hst Hq. pose proof (start_holds _ Hst) as Hi. unfold malloc. destruct (start list_ (hp st)) as [m f]. destruct Hi as (bs & I & Hfr).
  destruct (true_size_fits _ Hq) as (Hn & _ & Ha). destruct (rep_rotate _ _ _ _ (inv_rep _ _ _ _ _ I)) as (c & k & e & Hf & _). rewrite Hf. cbn [mbind option_bind].
  pose proof (length_le_size _ _ _ (rep_positive _ _ _ _ (inv_rep _ _ _ _ _ I)) (rep_ordered _ _ _ _ (inv_rep _ _ _ _ _ I)) (rep_seg _ _ _ _ (inv_rep _ _ _ _ _ I))) as Hsz.
  cbn [length] in Hsz.
  destruct (search_inv _ _ _ _ _ _ _ (S (S (2 * base.size m))) I Hn Ha Hf ltac:(unfold blk in *; lia)) as [[Es Ek]|(p & m' & prev & w' & bs' & Es & I' & Hc)]; rewrite Es; cbn [mbind option_bind]; [by left|right].
  assert (Hu : used ((p + 1, size) :: live st) = (p, true_size size) :: used (live st)).
  { unfold used. rewrite fmap_cons. f_equal. f_equal. lia. }
  do 2 eexists. split; [reflexivity|]. split.
  - split; [constructor; [done|apply Hst]|]. cbn [hp live first mem world]. exists bs'. by rewrite Hu.
  - intros u Hown. unfold owned. cbn [hp live]. rewrite Hu, covered_cons. destruct Hown as [Hown%Hfr|Hown]; [|by auto].
    destruct (Hc u Hown) as [Hc'|Hc']; [|by auto]. left. exists prev, bs'. split_and!; [done|apply I'|done].
Qed.

Lemma free_holds st i p size : holds st -> live st !! i = Some (p, size) ->
  exists s, free (hp st) (Some p) = Some s /\ holds (mkState s (delete i (live st))) /\ (forall u, owned st u -> owned (mkState s (delete i (live st))) u)
    /\ forall u, p - 1 <= u < p - 1 + true_size size -> free_at s u.
Proof.
  intros [Hq Hi] Hl. unfold free. destruct (first (hp st)) as [f|] eqn:Ef; [|destruct Hi as [Hi _]; by rewrite Hi in Hl].
  destruct Hi as [bs I]. cbn [mbind option_bind]. assert (Hu : used (live st) !! i = Some ((p - 1, true_size size) : blk)) by (unfold used; by rewrite list_lookup_fmap, Hl).
  destruct (inv_freed _ _ _ _ _ _ _ _ I Hu) as (m' & f' & bs' & E & I' & Hc). rewrite E. cbn [mbind option_bind].
  assert (Hd : used (delete i (live st)) = delete i (used (live st))) by apply list_fmap_delete. eexists. split; [reflexivity|]. split_and!.
  - split; [by apply Forall_delete|]. cbn [hp live first mem world]. exists bs'. by rewrite Hd.
  - eapply owned_kept; [done|apply I|done|cbn; apply I'|]. cbn [live]. rewrite Hd. intros u. rewrite Hc.
    intros [Hcu|(b & Hb & Hub)%Exists_exists]; [by auto|].
    apply list_elem_of_lookup in Hb as [j Hj]. destruct (decide (j = i)) as [->|Hne].
    + pose proof (eq_trans (eq_sym Hj) Hu) as Eb. injection Eb as ->. left. right. exact Hub.
    + right. apply covered_in with b; [|done]. apply list_elem_of_lookup. destruct (decide (j < i)%nat); [exists j|exists (pred j)]; rewrite list_lookup_delete; case_decide; try lia; [done|].
      by replace (S (pred j)) with j by lia.
  - intros u Hub. exists f', bs'. split_and!; [done|apply I'|]. apply Hc. by right.
Qed.

Lemma payload_used l u : payload l u -> exists j b, used l !! j = Some b /\ in_blk u b /\ u <> b.1.
Proof.
  intros (p & size & [j Hj]%list_elem_of_lookup & Hu). exists j, (p - 1, true_size size). unfold used. rewrite list_lookup_fmap, Hj. split_and!; [done| |cbn; lia].
  unfold in_blk. cbn. lia.
Qed.

Lemma write_holds st m : holds st -> (forall u, ~ payload (live st) u -> m !! u = mem (hp st) !! u) ->
  let st' := mkState (mkHeap m (first (hp st)) (world (hp st))) (live st) in holds st' /\ forall u, owned st u -> owned st' u.
Proof.
  intros [Hq Hi] Hm st'. destruct (first (hp st)) as [f|] eqn:Ef.
  - destruct Hi as [bs I]. assert (R : rep list_ m f bs).
    { eapply rep_frame; [apply I|]. intros u Hu. apply Hm. intros (j & b & Hj%list_elem_of_lookup_2 & Hb & _)%payload_used. destruct Hu as [->|Hu].
      - pose proof (proj1 (list.Forall_forall _ _) (inv_used _ _ _ _ _ I) b Hj) as (_ & Hl & _). unfold in_blk in Hb. lia.
      - eapply (inv_apart _ _ _ _ _ I); [|done]. by apply covered_in with b. }
    split.
    + split; [done|]. cbn [st' hp live first mem world]. exists bs. destruct I as [I1 I2 I3 I4 I5 I6]. constructor; [done|done|done| |done|done].
      apply list.Forall_forall. intros b Hb. pose proof (proj1 (list.Forall_forall _ _) I4 b Hb) as (H1 & H2 & nx & H3). split_and!; [done|done|]. exists nx. rewrite <- H3.
      apply Hm. intros (j & b' & Hj & Hb' & Hne)%payload_used. apply list_elem_of_lookup in Hb as [k Hk]. destruct (decide (j = k)) as [->|Hjk].
      * pose proof (eq_trans (eq_sym Hj) Hk) as Eb. by injection Eb as ->.
      * eapply (I6 j k b' b b.1); [done|done|done|done|]. unfold in_blk. lia.
    + eapply owned_kept; [exact Ef|apply I|done|exact R|]. done.
  - destruct Hi as [El Hr]. split; [split; [done|cbn; done]|]. intros u [(g & l & Hg & _)|Hu]; [congruence|by right].
Qed.

Lemma realloc_some (s : heap (W := W)) ptr new_size q n s' : realloc list_ s ptr new_size = Some (q, n, s') ->
  n = 0 `min` new_size /\ exists s1, malloc list_ s new_size = Some (q, s1) /\ free s1 ptr = Some s'.
Proof.
  unfold realloc. intros E. apply bind_Some in E as ([q1 s1] & E1 & E). apply bind_Some in E as (s2 & E2 & [= -> <- ->]).
  split; [destruct (Z.gtb_spec new_size 0); lia|]. by exists s1.
Qed.

Lemma malloc_step st size p s : holds st -> request size -> malloc list_ (hp st) size = Some (p, s) ->
  holds (mkState s ((p, size) :: live st)) /\ forall u, owned st u -> owned (mkState s ((p, size) :: live st)) u.
Proof. intros Hst Hq E. destruct (malloc_holds _ _ Hst Hq) as [[E' _]|(p' & s' & E' & H1 & H2)]; rewrite E in E'; [done|]. by injection E' as <- <-. Qed.

Lemma free_step st i p size s : holds st -> live st !! i = Some (p, size) -> free (hp st) (Some p) = Some s ->
  holds (mkState s (delete i (live st))) /\ forall u, owned st u -> owned (mkState s (delete i (live st))) u.
Proof. intros Hst Hl E. destruct (free_holds _ _ _ _ Hst Hl) as (s' & E' & H1 & H2 & _). rewrite E in E'. by injection E' as <-. Qed.

Lemma step_holds st st' : holds st -> step st st' -> holds st' /\ forall u, owned st u -> owned st' u.
Proof.
  intros Hst Hs. destruct Hs as [size p s Hq E|num len_ p n s Hq E|i p size s Hl E|s E|i p size new_size q n s Hl Hq E|new_size q n s Hq E|m Hm].
  - by apply malloc_step.
  - unfold calloc in E. apply bind_Some in E as ([q s1] & E & [= <- <- <-]). by apply malloc_step.
  - by eapply free_step.
  - injection E as <-. by destruct st.
  - apply realloc_some in E as (_ & s1 & E1 & E2). destruct (malloc_step _ _ _ _ Hst Hq E1) as [H1 O1].
    destruct (free_step (mkState s1 ((q, new_size) :: live st)) (S i) p size s H1 Hl E2) as [H2 O2]. split; [done|]. intros u Hu. by apply O2, O1.
  - apply realloc_some in E as (_ & s1 & E1 & [= <-]). by apply malloc_step.
  - by apply write_holds.
Qed.

Lemma runs_hold st st' : holds st -> runs st st' -> holds st' /\ forall u, owned st u -> owned st' u.
Proof.
  intros Hst Hr. induction Hr as [|st1 st2 Hr IH Hs]; [done|]. destruct IH as [I1 O1]. destruct (step_holds _ _ I1 Hs) as [I2 O2].
  split; [done|]. intros u Hu. by apply O2, O1.
Qed.

(** What the kernel sees *)
Lemma holds_apart st : holds st -> forall i j p n q k, live st !! i = Some (p, n) -> live st !! j = Some (q, k) -> i <> j ->
  header_size * p + n <= header_size * (q - 1) \/ header_size * q + k <= header_size * (p - 1).
Proof.
  intros [Hq Hi] i j p n q k Hp Hj Hij. destruct (first (hp st)) as [f|]; [|destruct Hi as [Hi _]; by rewrite Hi in Hp]. destruct Hi as [bs I].
  pose proof (proj1 (list.Forall_forall _ _) Hq _ (list_elem_of_lookup_2 _ _ _ Hp)) as Hn. pose proof (proj1 (list.Forall_forall _ _) Hq _ (list_elem_of_lookup_2 _ _ _ Hj)) as Hk.
  destruct (true_size_fits n Hn) as (H1 & H2 & _). destruct (true_size_fits k Hk) as (H3 & H4 & _).
  pose proof (fun u => inv_disjoint _ _ _ _ _ I i j (p - 1, true_size n) (q - 1, true_size k) u) as Hd. unfold in_blk in Hd. cbn [fst snd] in Hd.
  unfold used in Hd. rewrite !list_lookup_fmap, Hp, Hj in Hd. unfold header_size in *.
  destruct (decide (p <= q)); [left; specialize (Hd (q - 1) eq_refl eq_refl Hij)|right; specialize (Hd (p - 1) eq_refl eq_refl Hij)]; lia.
Qed.

Lemma holds_bounds st p n : holds st -> (p, n) ∈ live st -> list_ < p - 1 /\ header_size * p + n <= brk (world (hp st)).
Proof.
  intros [Hq Hi] Hp. destruct (first (hp st)) as [f|]; [|destruct Hi as [Hi _]; rewrite Hi in Hp; by apply elem_of_nil in Hp]. destruct Hi as [bs I].
  pose proof (proj1 (list.Forall_forall _ _) Hq _ Hp) as Hn. destruct (true_size_fits n Hn) as (H1 & H2 & _).
  assert (Hu : ((p - 1, true_size n) : blk) ∈ used (live st)) by (apply list_elem_of_fmap; by exists (p, n)).
  pose proof (proj1 (list.Forall_forall _ _) (inv_used _ _ _ _ _ I) _ Hu) as (_ & Hl & _). cbn in Hl. split; [done|].
  pose proof (inv_below _ _ _ _ _ I (p - 1 + true_size n - 1)) as Hb. unfold header_size in *. enough (8 * (p - 1 + true_size n - 1 + 1) <= brk (world (hp st))) by lia.
  apply Hb. right. eapply covered_in; [exact Hu|]. unfold in_blk. cbn. lia.
Qed.

End Runs.

Arguments step {W _} list_ st.
Arguments runs {W _} list_ st.
Arguments free_at {W} list_ s u.
Arguments owned {W} list_ st u.
End HeapRuns.

(** ** The heap of the kernel as the source of memory *)

Module KernelMemory.
Import Malloc HeapRuns.

Section Kernel.
Context (gNumPages : Z).

#[export] Instance kernel_sbrk : Sbrk (Heap.heap * Virt.vm) := fun n w =>
  '(ptr, h, s) ← Virt.ksbrk gNumPages w.1 n w.2; Some (ptr, (h, s)).

Lemma sbrk_loop_done {S} (oneblock : Z -> S -> Z * S) fuel : forall h k s h' s', 0 <= k -> k * 4096 < 2 ^ 32 -> 0 <= Heap.current h -> Heap.high h + 4096 <= 2 ^ 32 ->
  Heap.sbrk_loop 4096 oneblock fuel h (k * 4096) s = Some (true, h', s') ->
  Heap.high h' = Heap.high h /\ Heap.current h' = Heap.current h + k * 4096.
Proof.
  induction fuel as [|fuel IH]; intros h k s h' s' Hk Hw Hc Hh E; cbn [Heap.sbrk_loop] in E; destruct (Z.eqb_spec (k * 4096) 0) as [Ek|Ek].
  - injection E as <- _. lia.
  - done.
  - injection E as <- _. lia.
  - destruct (Z.geb_spec (Heap.current h) (Heap.high h)); [done|]. destruct (oneblock _ s) as [more s1]. destruct (more =? 0); [done|].
    rewrite (u32_id (k * 4096 - 4096)) in E by (unfold is_u; lia). replace (k * 4096 - 4096) with ((k - 1) * 4096) in E by lia.
    apply IH in E as [E1 E2]; unfold Heap.advance in *; cbn [Heap.current Heap.high] in *; rewrite ?u32_id in * by (unfold is_u; lia); lia.
Qed.

Lemma sbrk_done {S} (oneblock : Z -> S -> Z * S) h n s ptr h' s' : 0 < n -> n + 4096 <= 2 ^ 32 -> 0 <= Heap.current h -> Heap.high h + 4096 <= 2 ^ 32 ->
  Heap.sbrk 4096 oneblock h n s = Some (ptr, h', s') -> ptr <> 0 ->
  ptr = Heap.current h /\ Heap.high h' = Heap.high h /\ exists k, Heap.current h' = Heap.current h + k * 4096 /\ n <= k * 4096.
Proof.
  intros Hn Hw Hc Hh E Hp. unfold Heap.sbrk in E. destruct (Z.eqb_spec n 0); [lia|]. destruct (Heap.round_up_spec 4096 ltac:(lia) n ltac:(lia) Hw) as [Hm Hr].
  pose proof (Z.div_mod (Heap.round_up 4096 n) 4096 ltac:(lia)) as Hd. rewrite Hm in Hd. set (r := Heap.round_up 4096 n) in *.
  apply bind_Some in E as ([[fin h1] s1] & E & [= <- -> ->]). destruct fin; [|done]. split; [done|].
  assert (Er : r = r / 4096 * 4096) by lia. set (k := r / 4096) in *. rewrite Er in E.
  destruct (Z.eq_dec r (2 ^ 32)) as [E32|N32]; [lia|].
  apply sbrk_loop_done in E as [E1 E2]; [|lia..]. split; [done|]. exists k. lia.
Qed.

(** Room for the static header in front of the heap, which ends below the last page *)
#[export, refine] Instance kernel_laws (list_ : Z) : SbrkLaws (Heap.heap * Virt.vm) list_ := {|
  ready w := 0 <= Heap.current w.1 /\ header_size * (list_ + 1) <= Heap.current w.1 /\ Heap.current w.1 mod 4096 = 0 /\ Heap.high w.1 + 4096 <= 2 ^ 32;
  brk w := Heap.current w.1 |}.
Proof.
  - by intros w (_ & ? & _).
  - intros n [h s] page [h' s'] (Hc & Hl & Hm & Hh) Hn Hw E. cbn [fst snd] in *. unfold ksbrk, kernel_sbrk in E. apply bind_Some in E as ([[ptr h1] s1] & E & [= -> -> ->]).
    unfold Virt.ksbrk in E. cbn [fst snd] in E. destruct (Heap.sbrk Virt.gPageSize _ h n (Some s)) as [[[p h2] [s2|]]|] eqn:Es; [|done|done]. destruct (Z.eqb_spec p 0) as [|Hp]; [done|]. injection E as -> -> ->.
    apply sbrk_done in Es as (-> & Hhi & k & Hcur & Hk); [|done..]. cbn [fst snd]. rewrite Hhi, Hcur. split_and!; try lia.
    + rewrite Z.mod_add by lia. done.
    + unfold header_size. pose proof (Z.div_mod (Heap.current h) 4096 ltac:(lia)) as Hd. rewrite Hm in Hd.
      rewrite Hd. replace (4096 * (Heap.current h / 4096) + 0) with (512 * (Heap.current h / 4096) * 8) by lia. apply Z_mod_mult.
Defined.
End Kernel.
End KernelMemory.

Module MallocThms.
Import Malloc FreeList HeapRuns KernelMemory.

(** C8: in every run of the kernel's calls, with writes of anything to the memory they gave
    out in between, two blocks that are in use never overlap, and neither do their headers;
    they are behind the static header and in memory that was asked for; a request is served
    unless [ksbrk] panics; a block that is given back is all in the list of free blocks
    again; and no memory is ever lost: what was free or in use stays so. *)
Theorem blocks_never_overlap {W} `{Sbrk W} (list_ : Z) `{!SbrkLaws W list_} (w0 : W) st : ready (list_ := list_) w0 -> runs list_ (mkState (initial list_ w0) []) st ->
  (forall i j p n q k, live st !! i = Some (p, n) -> live st !! j = Some (q, k) -> i <> j ->
     header_size * p + n <= header_size * (q - 1) \/ header_size * q + k <= header_size * (p - 1)) /\
  (forall p n, (p, n) ∈ live st -> list_ < p - 1 /\ header_size * p + n <= brk (list_ := list_) (world (hp st))) /\
  (forall size, request size ->
     (exists p s, malloc list_ (hp st) size = Some (p, s)) \/ ksbrk (header_size * fragment (true_size size)) (world (hp st)) = None) /\
  (forall i p n, live st !! i = Some (p, n) ->
     exists s, free (hp st) (Some p) = Some s /\ forall u, p - 1 <= u < p - 1 + true_size n -> free_at list_ s u) /\
  (forall st', runs list_ st st' -> forall u, owned list_ st u -> owned list_ st' u).
Proof.
  intros Hr Hruns. assert (H0 : holds (list_ := list_) (mkState (initial list_ w0) [])) by (by split).
  destruct (runs_hold _ _ H0 Hruns) as [I _]. split_and!.
  - by apply holds_apart.
  - intros p n Hp. by apply holds_bounds.
  - intros size Hq. destruct (malloc_holds _ _ I Hq) as [[_ E]|(p & s & E & _)]; [by right|left; by exists p, s].
  - intros i p n Hi. destruct (free_holds _ _ _ _ I Hi) as (s & E & _ & _ & Hf). by exists s.
  - intros st' Hr'. by apply runs_hold.
Qed.

(** Three free pages behind which the heap starts at [0xC0202000] *)
Definition three_pages : Heap.heap * Virt.vm :=
  (Heap.new 0xC0202000 0xC8201FFF,
   Virt.mkVm ∅ (Phys.mkPmm (<[1 := Phys.mkPage true 0]> (<[2 := Phys.mkPage true 0]> {[3 := Phys.mkPage true 0]})) 0 3 1 3 3) ∅ true 0 0xC9000000 0xC9801000 []).

(** A block of 100 bytes, which is given back when there is one of 20 *)
Definition sample_calls : option (Z * Z * heap (W := Heap.heap * Virt.vm)) :=
  let _ := kernel_sbrk 4 in
  '(p, s) ← malloc 0x18020000 (initial 0x18020000 three_pages) 100;
  '(q, s) ← malloc 0x18020000 s 20;
  Some (p, q, s).

Lemma blocks_never_overlap_witness : exists p q s, sample_calls = Some (p, q, s)
  /\ (header_size * p + 100 <= header_size * (q - 1) \/ header_size * q + 20 <= header_size * (p - 1))
  /\ exists s', free s (Some p) = Some s' /\ free_at 0x18020000 s' p.
Proof.
  assert (Hs : sample_calls <> None) by (vm_compute; discriminate). destruct sample_calls as [[[p q] s]|] eqn:E; [|done]. clear Hs. exists p, q, s. split; [done|].
  unfold sample_calls in E. apply bind_Some in E as ([p1 s1] & E1 & E). apply bind_Some in E as ([q1 s2] & E2 & [= -> -> ->]).
  destruct (blocks_never_overlap (H := kernel_sbrk 4) 0x18020000 three_pages (mkState s [(q, 20); (p, 100)])) as (H1 & _ & _ & H4 & _).
  - split_and!; by vm_compute.
  - eapply runs_step; [eapply runs_step; [apply runs_none|]|].
    + apply (step_malloc (list_ := 0x18020000) (mkState (initial 0x18020000 three_pages) []) 100 p s1); [unfold request; lia|exact E1].
    + apply (step_malloc (list_ := 0x18020000) (mkState s1 [(p, 100)]) 20 q s); [unfold request; lia|exact E2].
  - split; [exact (H1 1%nat 0%nat p 100 q 20 eq_refl eq_refl ltac:(lia))|]. destruct (H4 1%nat p 100 eq_refl) as (s' & Ef & Hf). exists s'. split; [done|].
    apply Hf. change (true_size 100) with 14. lia.
Defined.

(** The part of a fragment that is split that is given out is its end. *)
Theorem fragment_end_is_taken m n prev p h m' q : take m n prev p h = Some (m', q) -> q + n = p + len h \/ len h < n.
Proof.
  unfold take. destruct (Z.eqb_spec (len h) n) as [E|E].
  - intros (hp & _ & [= _ <-])%bind_Some. lia.
  - intros [= _ <-]. lia.
Qed.

(** [realloc] does not copy anything. *)
Theorem realloc_copies_nothing {W} `{Sbrk W} list_ (s : heap (W := W)) ptr new_size q n s' : 0 <= new_size ->
  realloc list_ s ptr new_size = Some (q, n, s') -> n = 0.
Proof. intros Hn (-> & _)%realloc_some. lia. Qed.

(** The last seven sizes are served as if nothing had been asked for. *)
Theorem huge_malloc_is_empty {W} `{Sbrk W} list_ (s : heap (W := W)) size : 2 ^ 32 - 7 <= size < 2 ^ 32 -> malloc list_ s size = malloc list_ s 0.
Proof.
  intros Hs. unfold malloc. assert (E : true_size size = true_size 0); [|by rewrite E]. unfold true_size, header_size, u32, wrap.
  rewrite <- (Z.mod_unique_pos (size + 8 - 1) (2 ^ 32) 1 (size + 7 - 2 ^ 32)) by lia. change ((0 + 8 - 1) mod 2 ^ 32 / 8) with 0.
  by rewrite Z.div_small by lia.
Qed.

(** An array whose size does not fit in 32 bits gets less than it needs. *)
Theorem calloc_product_wraps {W} `{Sbrk W} list_ (s : heap (W := W)) :
  calloc list_ s 65536 65537 = ('(p, s) ← malloc list_ s 65536; Some (p, 65536, s)).
Proof. reflexivity. Qed.

End MallocThms.
